(* ===== verification/_CoqProject ===== *)
-Q . S2P
Prelude.v
GoMonad.v
Fmt.v
Sha256.v
Abi.v
AbiProps.v
Rle.v
Heap.v
TxList.v
TxListProps.v
TxPricedProps.v
Clique.v
CliqueProps.v
CliqueEngine.v
CliqueEngineProps.v
StateTransition.v
StateTransitionProps.v
TxPool.v
TxPoolInv.v
TxPoolProps.v
TxPoolLimits.v
TxPoolReach.v
EthashSizes.v
Ethash.v
EthashProps.v
EthashConsensus.v
EthashConsensusProps.v
HeaderPipeline.v
Event.v
Bind.v
DkgBase.v
DkgConfig.v
Instances.v
DkgProps.v
DkgTotal.v
DkgUpload.v
Sentinel.v
SentinelProps.v
Xdefi.v
XdefiScan.v
XdefiCommit.v
XdefiMint.v
XdefiProps.v
XdefiMintProps.v
CoreInstances.v
ConsensusInstances.v
PowInstances.v
ChainDb.v
ChainDbProps.v
HeaderChain.v
HeaderChainProps.v
HeaderChainHead.v
BlockChain.v
BlockImport.v
BlockChainProps.v
BlockImportProps.v
BlockWriteProps.v
BlockReach.v
Genesis.v
GenesisProps.v
ChainInstances.v
Prque.v
DlPeer.v
DlQueue.v
DlQueueProps.v
DlQueueSteps.v
DlQueueReach.v
DlSkeleton.v
Downloader.v
DlSync.v
DlAncestor.v
DlChain.v
DlInstances.v
Fetcher.v
FtProps.v
FtChain.v
FtInstances.v
