(* ===== verification/Prelude.v ===== *)
(** * xchain: a verification development

    xchain is a Go node that moves tokens between two chains.  A committee of
    nodes shares a BLS key, negotiated through the vssbase contract of the
    vnode chain (dkg/dkg.go).  Every node runs a sentinel (sentinel/): for each
    direction of a configured vault pair it scans the vault of the source chain
    for deposits or burns, signs and broadcasts what it finds, waits for the
    signatures of the committee, files the events in the xevents contract in
    the order of their nonces, moves the vault's watermark, and mints or
    withdraws on the target chain.  All transactions go through the contract
    wrapper of accounts/abi/bind, whose data is made by the codec of
    accounts/abi.  The node also runs the vnode chain: the transaction pool
    keeps what is to be mined (core/tx_pool.go), the state transition applies
    transactions to the state (core/state_transition.go and around it), and the
    engines of consensus/ seal headers and verify them, by signatures of voted
    signers (clique) or by proof of work (ethash).  The blocks of other nodes
    come through the downloader (mc/downloader): it looks for the common
    ancestor with a peer, fetches headers, bodies and receipts from all peers
    at once, and imports the blocks in order into the chain (core/).  New blocks
    are announced or sent by peers; the fetcher (mc/fetcher) requests what was
    announced and imports it when the chain has come near.

    ** Files, and the sources they model

    - [Prelude]: machine integers ([u64], [i64] write the wrap-around), the
      outcomes of a Go call ([Ret], [Panic], [OutOfFuel]), errors ([Ok],
      [Err]), [*big.Int] as [option Z] (nil dereferences panic), the iteration
      order of Go maps as the class [MapOrder], the rounding of integers to
      floating point values ([float32], [float64]), calls that return under a
      condition ([returns_when]), shared lemmas and tactics.
    - [GoMonad]: stateful code as [go S A := S -> outcome (A * S)], its loops,
      and the proof methods [preserves], [triple] and [total].
    - [Fmt], [Sha256]: the parts of fmt and crypto/sha256 the sources use.
    - [Abi], [AbiProps]: accounts/abi (type.go, pack.go, unpack.go,
      argument.go, error.go, reflect.go).  [Ty] is [Type]; [val] are the Go
      values packed and unpacked; [layout] has the sizes of the Go types, which
      [reflect] bounds.
    - [Event]: sentinel/event.go, sentinel/config.go, sentinel/util.go; the
      class [MoacLib] is what the sentinel uses of that library.
    - [Bind]: accounts/abi/bind/base.go and auth.go.  The options of a
      transaction are returned as the call leaves them, since the source
      changes them in place.
    - [DkgBase], [DkgConfig]: dkg/dkg.go.  [World] is a [DKG], a call counter
      and the transactions sent; the vssbase contract is a sequence of views
      [env : nat -> VssBase], one per call, so it may change between any two
      calls.  [dkg_step] is one run of a goroutine's handler or of a call from
      another component.
    - [Instances], [CoreInstances], [ConsensusInstances], [PowInstances],
      [ChainInstances], [DlInstances], [FtInstances]: executable instances of
      the external libraries, with which the theorems are evaluated.
    - [DkgProps], [DkgTotal], [DkgUpload]: the theorems on dkg/dkg.go.
    - [Sentinel], [SentinelProps]: sentinel/sentinel.go.  What the sentinel
      needs of the key generation is the class [Committee]; its instance
      [dkg_committee] is proved from [DkgBase].
    - [Xdefi], [XdefiCommit], [XdefiMint]: sentinel/xdefi.go.  [XWorld] is the
      sentinel, one context, the committee, a call counter and the
      transactions and broadcasts made; the chains and contracts are a sequence
      of views [xenv : nat -> XView].
    - [XdefiScan], [XdefiProps], [XdefiMintProps]: the theorems on
      sentinel/xdefi.go.
    - [Rle]: compression/rle.
    - [Heap]: container/heap, and [TxList]: core/tx_list.go, the lists of an
      account's transactions and the price heap; [TxListProps] relates the
      sorted map to its specification, a plain map ([represents]),
      [TxPricedProps] is on the price heap.
    - [TxPool]: core/tx_pool.go and core/tx_journal.go.  [TxPool] is the pool,
      with what it announced; every operation, the steps of [reset] and the
      events of [loop] are functions on it.  [TxPoolInv] has its invariant
      ([pool_ok]), [TxPoolProps] and [TxPoolLimits] that the operations keep
      it, and [TxPoolReach] the pools a node can have ([pool_reachable]).  A pool
      whose first head has no state that opens is a [Stateless]; the first head
      that has one makes it a [TxPool].
    - [StateTransition]: core/state_transition.go, gaspool.go,
      state_processor.go, block_validator.go and the white list of
      core/contracts/contracts.go.  The virtual machine and the state are the
      class [EvmLib].  [StateTransitionProps] has the theorems.
    - [Clique]: consensus/clique/snapshot.go, the votes of the signers;
      [CliqueEngine]: clique.go and api.go, with the cache and the store of
      snapshots in the state of the engine; [CliqueProps] and
      [CliqueEngineProps] have the theorems.
    - [EthashSizes], [Ethash]: consensus/ethash/algorithm.go,
      algorithm_go1.8.go, sealer.go and [VerifySeal]; [EthashConsensus]: the
      rules, difficulty and rewards of consensus.go; [HeaderPipeline]: the
      workers and the coordinator of [VerifyHeaders] as a step relation, with the
      abort of the caller;
      [EthashProps] and [EthashConsensusProps] have the theorems.
    - [ChainDb]: core/database_util.go, the layout of the chain in the store:
      the keys ([Key], [key]), the readers, writers and deleters;
      [ChainDbProps] has what they find after each other.
    - [HeaderChain]: core/headerchain.go, the header chain with its caches over
      a store; [HeaderChainProps] has its invariant ([hc_ok]), the chains that
      can be ([hc_reachable]) and the import of headers, [HeaderChainHead] the
      rewinding.
    - [BlockChain]: core/blockchain.go, the chain with its heads, caches and
      feeds, the reading, opening, rewinding, and the import of receipts;
      [BlockImport]: the import of blocks, the reorganization and the
      validation of bodies of core/block_validator.go.  [BlockChainProps] has
      the invariant of the stored blocks ([blocks_ok]) and the walk to the
      common ancestor, [BlockImportProps] the reorganization, [BlockWriteProps]
      the writing of a block, [BlockReach] the chains that can be
      ([bc_reachable]) and the import of a list of blocks.
    - [Genesis], [GenesisProps]: core/genesis.go.
    - [Prque]: the priority queue of the library ([PrqueLib]), its laws, and an
      implementation by a list.
    - [DlPeer]: mc/downloader/peer.go, the connections to peers as a heap;
      [DlQueue]: queue.go, the scheduler of a synchronization; [Downloader]:
      downloader.go, the goroutines of a synchronization as functions that
      make one turn each ([hf_step], [hp_step], [content_step], [collect]), or, in
      the loop that fetches parts, one access to the shared queue or peers each
      ([fetch_step], whose place in the loop is a [FetchPhase]), on one state
      with the contents of the channels ([Sync]);
      [sync_step] is one turn of one of them, or an event from outside.  The
      chain is the interface [SyncChain]; [DlChain] gives the instance for the
      block chain of [BlockChain] and [BlockImport].  [DlQueueProps] has the
      invariant of the queue ([core]), [DlQueueSteps] that the operations keep
      it, [DlQueueReach] the queues a synchronization can have ([dq_run]),
      [DlSkeleton] the filling of a skeleton of headers ([sk_run]), [DlSync]
      the runs of a synchronization ([sync_run]) and [DlAncestor] the search
      for the common ancestor, against the law [ChainReads] of the chain, which
      [DlChain] proves.
    - [Fetcher]: mc/fetcher/fetcher.go.  [Fetcher] is the state the loop owns, with
      the goroutines that import and the requests made; [loop_turn] is one event
      and the head of the loop after it, [import_step] one step of an import.
      The chain is the interface [FetchChain].  [FtProps] has the invariant
      ([ft_ok]) and the runs of the fetcher ([ft_run]), against the law
      [ChainAnswers] of the chain, and [ChainHas] for what it has; [FtChain] has
      the callbacks the handler gives
      the fetcher (mc/handler.go), over the block chain of [DlChain], and proves
      the law for them.

    Code outside the repository is a parameter: the classes [Kyber] (secret
    sharing and curve operations), [BlsLib] (signatures), [MoacLib] (RLP,
    addresses, Keccak-256), [CommonLib] (padding and 256-bit numbers), [TxLib],
    [PoolLib], [EvmLib] and [ProcessorLib] (transactions, signers, state and
    virtual machine), [CliqueLib] and [EngineLib] (signatures, header hashes,
    cache and store), [PowLib] and [PowParams] (Keccak, protocol parameters),
    [KvLib], [HashLib], [RLP] and [LruLib] (key-value store, hashes, encoding,
    cache), [ChainLib], [BlockRules] and [GenesisLib] (state and tries, rules of
    blocks, configurations), [PrqueLib] and [DlLib] (priority queue, roots of
    receipts), and [RleDigests] (the two hashes with a code of their own).  What
    the theorems need of it are the classes of laws ([KyberLaws], [CommonLaws],
    [PoolLaws] and their like) and hypotheses of single theorems; the instance
    files show they can hold.

    ** What the theorems show

    - Key generation.  With uploads of honest dealers a node votes for the
      configuration and holds its share of the sum of the dealings; senders of
      shares that contradict their public ones are reported, exactly them, and
      the node does not vote.  In every state reachable from [New], however
      handlers interleave and the contract answers, the setting used for
      signing was checked and voted for, and its version never decreases.  A
      signature is accepted exactly when a group key the node checked verifies
      it; a group signature is made of a threshold of shares of distinct nodes.
      Every run of the state machine returns.
    - Scanning.  A batch holds exactly the events of the blocks it spans, all
      recorded by the sentinel; a scan that is far behind returns a batch
      within four rounds.
    - Filing.  Every event of a batch is accounted for, the events of one token
      mapping are sent in the order of their nonces, and the watermark moves
      only when every event of the batch is filed.
    - Minting.  The mints sent are for the consecutive events above the
      target's watermark, up to the first missing one; the bytes signed for a
      mint determine it.
    - Sentinel.  One node is on turn at a time; the workers of a configuration
      are started at most once; a batch is released exactly when each of its
      events has a threshold of signatures.
    - Transactions and codec.  A transaction that succeeds carries the
      sender's nonce, inflated price and limit and the given data; unpacking
      inverts packing, and unpacking arbitrary data never panics, at types of
      fewer than 2^57 words.
    - Transaction pool.  In every pool a node can have, each listed
      transaction is known, under its sender and nonce, in one list only, and
      priced; no operation panics while there are fewer than 2^24 transactions;
      limiting keeps to the slots; a reorganization of up to 64 blocks adds again
      exactly what the new branch lacks.  The sorted
      map behaves as a plain map, and the price heap gives up the cheapest
      remote transactions in spite of its stale entries.
    - State transition.  The gas bought is divided exactly between coinbase,
      sender and pool, and a block uses at most its limit.
    - Clique.  The votes and tallies of a snapshot always agree; signers change
      only by a majority; a snapshot is that of the whole chain whatever is
      cached or stored; what the engine prepares and seals it verifies.
    - Ethash.  What a miner finds on the dataset passes the verification on the
      cache; what [Prepare] makes passes the rules; accepted uncles are recent
      and rewarded once; a batch of headers is verified in order, without
      deadlock, and an abort ends it.
    - Chain.  In every header chain and every block chain that can be, the head
      has the largest total difficulty of all that is stored, the canonical
      numbers are its ancestors down to the genesis block, and every transaction
      of these is found under its hash.  The import of blocks returns,
      when those that the engine accepts and whose bodies match their headers are
      valid ([importable]), whatever the order of heavier and lighter branches; a
      written block becomes the head exactly when it is heavier, or equal and
      the toss says so, and nothing stored is lost.  Rewinding deletes exactly
      the canonical chain above the new head.  A fresh node starts from its
      specification, and the set-up of a store that has a chain keeps it.
    - Downloader.  A full synchronization that ends without an error has
      imported, in order, the blocks of all headers that it received, however
      its goroutines interleave and whatever peers deliver, unless a peer is
      dropped between the two last tests of a loop that fetches; its queue hands out
      results in the order of the chain and with parts that match their
      headers, loses no task, and below block 2^24 never fails.  A skeleton is
      filled with the batches that lead to its headers, and its end is
      signalled once.  Against an honest peer the search for the common
      ancestor returns a common block with none 16 or more above it, or refuses
      the peer when that is too deep.
    - Fetcher.  Whatever peers announce and send, its queue, its imports and its
      counters agree, no peer has more blocks in it than allowed, and a timer is set
      while something waits for it; what it imports was sent as a whole or matches
      its header; no block whose time has come stays in the queue; the loop and the
      imports never panic.  On the block chain of a node every import leaves a chain
      that can be, whose head is the heaviest.
    - Compression inverts, except for runs of zeros of three lengths.
    - Behaviour the code has and does not intend: the pool without a state that
      panics, the array length whose check wraps around, the scan that returns the
      block of the watermark again, the synchronization that ends when a peer is
      dropped between two tests, the ancestor near the allowance that is refused,
      the worker that an abort leaves waiting, the limit of announcements that
      a peer can pass, the reservation that fails where priorities tie, the loop
      that never ends after a stale delivery, the head header left behind by a
      reorganization, the numbers above a shorter and heavier branch, the side
      branch stranded by rewinding, the transactions lost with
      the first one of an account, the early blocks whose seal is not checked
      against recent signers, the dataset whose end is never written, the ticker gates that skip
      all work, the configuration lost by the drain of the reload channel, the
      signature counted twice, the scans past the chain head and below their
      start, the amount that blocks a mapping, the gas price that compounds
      with every transaction, the transfer that panics.

    ** Fuel and bounds

    Loops that poll until a deadline or a channel event take a fuel argument,
    one unit per iteration.  [DkgTotal] proves that the fuel needed is bounded
    by the number of polls the sixty-second deadline allows when the clock
    advances by at least [delta] per call; [XdefiScan] shows that four rounds
    of a scan are enough.  The loops of the pool and of the heaps take the size
    of what they consume; walks back a chain take a fuel above the number of
    the block they start from, and [snapshot_replays], [reorg_reinjects],
    [SetHead_rolls_back] and [InsertChain_returns] prove that enough.  The
    binary search for the common ancestor has 64 rounds, one per bit of a block
    number, and [findAncestor_finds] proves that enough.  In the downloader
    and the fetcher [OutOfFuel] also says that a goroutine cannot make the turn
    now: it waits for a channel.  Mining takes the number of attempts.  Loops
    over lists, and loops with a constant bound (the mint batch, the chunks),
    are structural.  Sizes and positions in unpacking, block numbers, nonces and
    versions have their width; the offsets that packing writes are lengths of data
    in memory, and that memory can be allocated is assumed.  The priorities of the
    pool are [float32] values of lengths, exact below 2^24: up to there its
    operations are proved to return, above only that what they return is
    consistent.

    ** What is not modelled

    Logging, mutexes (handlers are atomic with respect to each other; remote
    answers are not), key files, the key-value database of the sentinel, the
    web socket watchers that the code does not start, the log subscriptions of
    bind, the parsing of type strings and the copying into Go variables of
    accounts/abi, and the generated bindings.  Of the chain, the locks, [Stop]
    and the statistics of core/blockchain.go, the upgrade of old receipts, the
    direct calls of the pool and its subscriptions, the files and memory maps of
    ethash, [Finalize] of clique, and the proof of stake engine beyond what it
    shares with ethash are not modelled.  Of the downloader, the state
    synchronization (statesync.go, whose result is an argument), the
    measurement of throughputs and round trip times (the order of peers and
    their capacities are arguments), events and metrics are not modelled; of the
    fetcher, [Stop], the hooks of its tests and the metrics.  The rest of mc/,
    p2p/, rpc/, miner/ and cmd/ are not modelled. *)
From stdpp Require Export base gmap list strings numbers sorting.
From Stdlib Require Export ZArith Lia.

Declare Scope go_scope.
Delimit Scope go_scope with go.

(** ** Machine integers

    [uint64] values are [Z] in [[0, 2^64)]; every arithmetic operation of the
    source on them is written with its wrap-around. *)
Definition MaxUint64 : Z := 18446744073709551615.

Definition u64 (z : Z) : Z := z mod 18446744073709551616.

Definition is_u64 (z : Z) : Prop := (0 <= z <= MaxUint64)%Z.

Notation "a +u b" := (u64 (a + b)%Z) (at level 50, left associativity) : go_scope.
Notation "a -u b" := (u64 (a - b)%Z) (at level 50, left associativity) : go_scope.

(** Two's-complement reading of a 64-bit word. *)
Definition i64 (z : Z) : Z :=
  let w := u64 z in
  if (w <? 9223372036854775808)%Z then w else (w - 18446744073709551616)%Z.

(** ** Panics

    A Go call returns, panics, or is still running when the fuel of the model
    is exhausted. *)
Inductive outcome (A : Type) : Type :=
| Ret (a : A)
| Panic
| OutOfFuel.
Arguments Ret {A} a.
Arguments Panic {A}.
Arguments OutOfFuel {A}.

#[export] Instance outcome_ret : MRet outcome := fun A a => Ret a.
#[export] Instance outcome_bind : MBind outcome :=
  fun A B f m => match m with Ret a => f a | Panic => Panic | OutOfFuel => OutOfFuel end.

(** Calls whose results have a property, and which do return under a condition. *)
Definition returns_when {A} (b : Prop) (Q : A -> Prop) (o : outcome A) : Prop :=
  match o with Ret x => Q x | _ => ~ b end.

Lemma when_bind {A B} b (Q : A -> Prop) (R : B -> Prop) (o : outcome A) (f : A -> outcome B) :
  returns_when b Q o -> (forall x, Q x -> returns_when b R (f x)) -> returns_when b R (o ≫= f).
Proof. destruct o; cbn; auto. Qed.

Lemma when_impl {A} (b b' : Prop) (Q Q' : A -> Prop) o :
  returns_when b Q o -> (b' -> b) -> (forall x, Q x -> Q' x) -> returns_when b' Q' o.
Proof. destruct o; cbn; auto. Qed.

Lemma when_returns {A} (b : Prop) (Q : A -> Prop) o : returns_when b Q o -> b -> exists x, o = Ret x /\ Q x.
Proof. destruct o; cbn; [eauto|done..]. Qed.

Lemma when_result {A} (b : Prop) (Q : A -> Prop) o x : returns_when b Q o -> o = Ret x -> Q x.
Proof. by intros Hw ->. Qed.

Lemma returns_always {A} b (Q : A -> Prop) o : (exists x, o = Ret x /\ Q x) -> returns_when b Q o.
Proof. by intros (x & -> & ?). Qed.

(** ** Errors

    A Go pair [(value, err)] whose error is non-nil or whose value is
    meaningful. *)
Inductive result (A : Type) : Type :=
| Ok (a : A)
| Err.
Arguments Ok {A} a.
Arguments Err {A}.

(** ** [math/big]

    A [*big.Int] is [option Z], [None] being the nil pointer.  [Uint64] is the
    low word of the absolute value, [Int64] that word as a signed integer with
    the sign applied; both dereference the pointer. *)
Definition big_Uint64 (p : option Z) : outcome Z :=
  match p with
  | Some z => Ret (u64 (Z.abs z))
  | None => Panic
  end.

Definition big_Int64 (p : option Z) : outcome Z :=
  match p with
  | Some z => Ret (if (z <? 0)%Z then i64 (- i64 (Z.abs z)) else i64 (Z.abs z))
  | None => Panic
  end.

(** ** Maps

    The order in which Go's [range] visits a map is unspecified: it is a
    parameter of every definition that ranges over a map, constrained to visit
    each entry exactly once. *)
Class MapOrder (K V : Type) `{Countable K} := {
  range : gmap K V -> list (K * V);
  range_perm : forall m, range m ≡ₚ map_to_list m
}.

#[export] Instance canonical_order (K V : Type) `{Countable K} : MapOrder K V | 100 := {
  range := map_to_list;
  range_perm := fun m => reflexivity _
}.

(** ** Loops over an inclusive [uint64] range

    [for i := s; i <= e; i++ { body }], the counter wrapping as in the source;
    [None] when the fuel runs out. *)
Fixpoint for_le {S : Type} (fuel : nat) (body : Z -> S -> S) (i e : Z) (s : S) : option S :=
  match fuel with
  | O => None
  | S f =>
      if (i <=? e)%Z then for_le f body (u64 (i + 1)) e (body i s) else Some s
  end.

(** ** Association of a map lookup with a presence test, as in
    [if v, found := m[k]; found]. *)
Definition found {A : Type} (o : option A) : bool :=
  match o with Some _ => true | None => false end.

(** Evaluates both sides of an equation, not its type. *)
Ltac evaluated := match goal with |- _ = ?b => vm_cast_no_check (eq_refl b) end.

(** ** Automation *)
Create HintDb xchain.

Ltac boolp :=
  repeat match goal with
  | H : (_ <=? _)%Z = true |- _ => apply Z.leb_le in H
  | H : (_ <=? _)%Z = false |- _ => apply Z.leb_gt in H
  | H : (_ <? _)%Z = true |- _ => apply Z.ltb_lt in H
  | H : (_ <? _)%Z = false |- _ => apply Z.ltb_ge in H
  | H : (_ =? _)%Z = true |- _ => apply Z.eqb_eq in H
  | H : (_ =? _)%Z = false |- _ => apply Z.eqb_neq in H
  | H : (_ >? _)%Z = _ |- _ => rewrite Z.gtb_ltb in H
  | H : (_ >=? _)%Z = _ |- _ => rewrite Z.geb_leb in H
  | H : bool_decide _ = true |- _ => apply bool_decide_eq_true_1 in H
  | H : bool_decide _ = false |- _ => apply bool_decide_eq_false_1 in H
  | H : (_ && _)%bool = true |- _ => apply andb_true_iff in H; destruct H
  | H : (_ || _)%bool = false |- _ => apply orb_false_iff in H; destruct H
  | H : negb _ = true |- _ => apply negb_true_iff in H
  | H : negb _ = false |- _ => apply negb_false_iff in H
  end.

(** Split the innermost conditional or match of the goal, keeping equations in
    propositional form. *)
Ltac split_if :=
  match goal with
  | |- context [if ?b then _ else _] => let E := fresh "E" in destruct b eqn:E; boolp
  | H : context [if ?b then _ else _] |- _ => let E := fresh "E" in destruct b eqn:E; boolp
  end.

(** ** Integers *)
Lemma u64_small z : is_u64 z -> u64 z = z.
Proof. unfold is_u64, MaxUint64, u64. intros H. apply Z.mod_small. lia. Qed.

Lemma i64_small z : (0 <= z < 9223372036854775808)%Z -> i64 z = z.
Proof. intros Hz. unfold i64. rewrite u64_small by (unfold is_u64, MaxUint64; lia). destruct (Z.ltb_spec z 9223372036854775808); lia. Qed.

Lemma u64_range z : is_u64 (u64 z).
Proof.
  unfold is_u64, MaxUint64, u64.
  pose proof (Z.mod_pos_bound z 18446744073709551616). lia.
Qed.

Lemma u64_sub_wrap a b :
  is_u64 a -> is_u64 b -> (a < b)%Z -> u64 (a - b) = (a - b + 18446744073709551616)%Z.
Proof.
  unfold is_u64, MaxUint64, u64. intros Ha Hb Hlt.
  rewrite <- (Z.mod_add _ 1) by lia. rewrite Z.mod_small; lia.
Qed.

#[export] Hint Resolve u64_small u64_range : xchain.

Lemma for_le_seqZ {S : Type} (body : Z -> S -> S) (e : Z) (n : nat) :
  forall fuel i s,
  (0 <= i)%Z -> (e < MaxUint64)%Z -> n = Z.to_nat (e + 1 - i) -> (n < fuel)%nat ->
  for_le fuel body i e s = Some (foldl (fun s k => body k s) s (seqZ i (e + 1 - i))).
Proof.
  induction n as [|n IH]; intros [|fuel] i s Hi He Hn Hf; try lia; cbn.
  - destruct (Z.leb_spec i e); [lia|]. by rewrite seqZ_nil by lia.
  - destruct (Z.leb_spec i e); [|lia].
    rewrite u64_small by (unfold is_u64, MaxUint64 in *; lia).
    rewrite (seqZ_cons i) by lia. cbn.
    rewrite IH by lia. do 3 f_equal; lia.
Qed.

(** The loop never leaves when the bound is the largest [uint64]. *)
Lemma for_le_diverges {S : Type} (body : Z -> S -> S) fuel :
  forall i s, is_u64 i -> for_le fuel body i MaxUint64 s = None.
Proof.
  induction fuel as [|fuel IH]; intros i s Hi; cbn; [done|].
  destruct (Z.leb_spec i MaxUint64); [|unfold is_u64 in Hi; lia].
  apply IH, u64_range.
Qed.

(** ** Map ranges *)
Section ranges.
Context {K V : Type} `{Countable K} `{!MapOrder K V}.

Lemma elem_of_range (m : gmap K V) k v : (k, v) ∈ range m <-> m !! k = Some v.
Proof. rewrite range_perm. apply elem_of_map_to_list. Qed.

Lemma length_range (m : gmap K V) : length (range m) = size m.
Proof. rewrite range_perm. apply length_map_to_list. Qed.

Lemma NoDup_range_keys (m : gmap K V) : NoDup (range m).*1.
Proof. rewrite range_perm. apply NoDup_fst_map_to_list. Qed.

End ranges.

(** ** Filters that keep all or nothing *)
Section filters.
Context {A : Type} (P : A -> Prop) `{!forall x, Decision (P x)}.

Lemma filter_none (l : list A) : (forall x, x ∈ l -> ~ P x) -> filter P l = [].
Proof.
  induction l as [|x l IH]; intros Hn; [done|]. rewrite filter_cons, decide_False by (apply Hn; by left).
  apply IH. intros y Hy. apply Hn. by right.
Qed.

Lemma filter_every (l : list A) : (forall x, x ∈ l -> P x) -> filter P l = l.
Proof.
  induction l as [|x l IH]; intros Hy; [done|]. rewrite filter_cons, decide_True by (apply Hy; by left).
  f_equal. apply IH. intros y Hy'. apply Hy. by right.
Qed.

Lemma NoDup_fmap_filter {B : Type} (f : A -> B) (l : list A) : NoDup (f <$> l) -> NoDup (f <$> filter P l).
Proof.
  induction l as [|x l IH]; [done|]. rewrite fmap_cons, NoDup_cons, filter_cons. intros [Hx Hl].
  destruct (decide (P x)); [|by apply IH]. rewrite fmap_cons, NoDup_cons. split; [|by apply IH].
  intros (y & Ey & [_ Hy]%list_elem_of_filter)%list_elem_of_fmap. apply Hx, list_elem_of_fmap. eauto.
Qed.

End filters.

(** ** Floating point

    The value of an integer that is not negative as a [float32] or a [float64]: 24 or
    53 significant bits, rounded to the nearest, ties to even. *)
Local Open Scope Z_scope.

Definition round_to (bits n : Z) : Z :=
  let e := Z.max 0 (Z.log2 n - (bits - 1)) in
  let q := n / 2 ^ e in
  let r := n mod 2 ^ e in
  (if (2 ^ e <? 2 * r) || ((2 * r =? 2 ^ e) && Z.odd q) then q + 1 else q) * 2 ^ e.

Definition float32 : Z -> Z := round_to 24.
Definition float64 : Z -> Z := round_to 53.

(** Numbers of that many bits are exact. *)
Lemma round_small bits n : 0 < bits -> 0 <= n < 2 ^ bits -> round_to bits n = n.
Proof.
  intros Hb Hn. unfold round_to. assert (Z.log2 n <= bits - 1).
  { destruct (Z.eq_dec n 0) as [->|]; [cbn; lia|]. assert (Z.log2 n < bits); [|lia]. apply Z.log2_lt_pow2; lia. }
  rewrite Z.max_l by lia. change (2 ^ 0) with 1. rewrite Z.div_1_r, Z.mod_1_r, Z.mul_0_r.
  change (1 <? 0) with false. change (0 =? 1) with false. cbn [orb andb]. lia.
Qed.

Lemma float32_small n : 0 <= n < 16777216 -> float32 n = n.
Proof. intros Hn. by apply (round_small 24). Qed.

Lemma float64_small n : 0 <= n < 2 ^ 53 -> float64 n = n.
Proof. intros Hn. by apply (round_small 53). Qed.

(** The others have larger values than those. *)
Lemma float32_large n : 16777216 <= n -> 16777216 <= float32 n.
Proof.
  intros Hn. unfold float32, round_to. change (24 - 1) with 23. assert (24 <= Z.log2 n) by (change 24 with (Z.log2 16777216); by apply Z.log2_le_mono).
  rewrite Z.max_r by lia. set (e := Z.log2 n - 23). assert (He : 2 <= 2 ^ e).
  { change 2 with (2 ^ 1) at 1. apply Z.pow_le_mono_r; unfold e; lia. }
  assert (Hq : 8388608 <= n / 2 ^ e).
  { apply Z.div_le_lower_bound; [lia|]. change 8388608 with (2 ^ 23). rewrite <- Z.pow_add_r by (unfold e; lia). replace (e + 23) with (Z.log2 n) by (unfold e; lia).
    apply Z.log2_spec. lia. }
  destruct (_ || _); nia.
Qed.
