(* ===== verification/GoMonad.v ===== *)
(** * Stateful Go code

    A computation over a state [S] that returns, panics or runs out of fuel,
    with the loops of the sources as combinators, and the two ways the
    components reason about it: [preserves] (an invariant of the state across
    a call, whatever it returns) and [triple] (pre- and postconditions of the
    runs that return). *)
From S2P Require Import Prelude.

Definition go (S A : Type) : Type := S -> outcome (A * S).

#[export] Instance go_ret (S : Type) : MRet (go S) := fun A a s => Ret (a, s).

#[export] Instance go_bind (S : Type) : MBind (go S) :=
  fun A B f c s =>
    match c s with
    | Ret (a, s') => f a s'
    | Panic => Panic
    | OutOfFuel => OutOfFuel
    end.

Definition gget {S : Type} : go S S := fun s => Ret (s, s).

Definition gmodify {S : Type} (f : S -> S) : go S unit := fun s => Ret (tt, f s).

Definition gpanic {S A : Type} : go S A := fun _ => Panic.

Definition gfuel {S A : Type} : go S A := fun _ => OutOfFuel.

(** A call that may panic but leaves the state alone. *)
Definition glift {S A : Type} (o : outcome A) : go S A :=
  fun s => match o with Ret a => Ret (a, s) | Panic => Panic | OutOfFuel => OutOfFuel end.

(** [for _, x := range l { acc = f acc x }]. *)
Fixpoint for_each {S A B : Type} (f : B -> A -> go S B) (acc : B) (l : list A) : go S B :=
  match l with
  | [] => mret acc
  | x :: l' => acc' ← f acc x; for_each f acc' l'
  end.

(** The same loop with an early exit: [inr r] leaves the loop with [r]. *)
Fixpoint for_until {S A B R : Type} (f : B -> A -> go S (B + R)) (acc : B) (l : list A)
    : go S (B + R) :=
  match l with
  | [] => mret (inl acc)
  | x :: l' =>
      r ← f acc x;
      match r with
      | inl acc' => for_until f acc' l'
      | inr v => mret (inr v)
      end
  end.

(** ** Calls with an error result

    A stateful call that returns a value or an error; what follows an error is
    skipped. *)
Definition throws (S E A : Type) : Type := go S (A + E).

Definition returns {S E A : Type} (a : A) : throws S E A := fun s => Ret (inl a, s).
Definition errs {S E A : Type} (e : E) : throws S E A := fun s => Ret (inr e, s).

Definition ebind {S E A B : Type} (m : throws S E A) (f : A -> throws S E B) : throws S E B :=
  fun s =>
    match m s with
    | Ret (inl a, s') => f a s'
    | Ret (inr e, s') => Ret (inr e, s')
    | Panic => Panic
    | OutOfFuel => OutOfFuel
    end.

Notation "x <-! m ;; f" := (ebind m (fun x => f)) (at level 100, m at next level, right associativity).

(** The state, a change of it, and calls that leave it alone. *)
Definition the_state {S E : Type} : throws S E S := fun s => Ret (inl s, s).
Definition update {S E : Type} (f : S -> S) : throws S E unit := fun s => Ret (inl tt, f s).
Definition lift {S E A : Type} (m : outcome (A + E)) : throws S E A := glift m.
Definition deref {S E A : Type} (o : outcome A) : throws S E A :=
  fun s => match o with Ret a => Ret (inl a, s) | Panic => Panic | OutOfFuel => OutOfFuel end.

Definition preserves {S A : Type} (I : S -> Prop) (c : go S A) : Prop :=
  forall s a s', I s -> c s = Ret (a, s') -> I s'.

(** The call returns, from every state with [P], with [Q]. *)
Definition total {S A : Type} (P : S -> Prop) (c : go S A) (Q : A -> S -> Prop) : Prop :=
  forall s, P s -> exists a s', c s = Ret (a, s') /\ Q a s'.

Definition triple {S A : Type} (P : S -> Prop) (c : go S A) (Q : A -> S -> Prop) : Prop :=
  forall s a s', P s -> c s = Ret (a, s') -> Q a s'.

Section logic.
Context {S : Type}.

Lemma go_bind_Ret {A B : Type} (f : A -> go S B) (c : go S A) s b s' :
  (c ≫= f) s = Ret (b, s') -> exists a s1, c s = Ret (a, s1) /\ f a s1 = Ret (b, s').
Proof.
  unfold mbind, go_bind. destruct (c s) as [[a s1]| |] eqn:E; intros H; try done. eauto.
Qed.

Lemma bind_run {A B : Type} (f : A -> go S B) (c : go S A) s a s1 :
  c s = Ret (a, s1) -> (c ≫= f) s = f a s1.
Proof. unfold mbind, go_bind. by intros ->. Qed.

Lemma bind_gget {B : Type} (f : S -> go S B) s : (gget ≫= f) s = f s s.
Proof. done. Qed.

Lemma bind_gmodify {B : Type} (f : unit -> go S B) (g : S -> S) s : (gmodify g ≫= f) s = f tt (g s).
Proof. done. Qed.

Lemma bind_mret {A B : Type} (f : A -> go S B) a s : ((mret a : go S A) ≫= f) s = f a s.
Proof. done. Qed.

Lemma bind_glift {A B : Type} (f : A -> go S B) o a s : o = Ret a -> (glift o ≫= f) s = f a s.
Proof. by intros ->. Qed.

Lemma glift_run {A : Type} (o : outcome A) a (s : S) : o = Ret a -> glift o s = Ret (a, s).
Proof. by intros ->. Qed.

Lemma ebind_run {E A B : Type} (m : throws S E A) (f : A -> throws S E B) s a s1 :
  m s = Ret (inl a, s1) -> ebind m f s = f a s1.
Proof. unfold ebind. by intros ->. Qed.

Lemma ebind_err {E A B : Type} (m : throws S E A) (f : A -> throws S E B) s e s1 :
  m s = Ret (inr e, s1) -> ebind m f s = Ret (inr e, s1).
Proof. unfold ebind. by intros ->. Qed.

Lemma ebind_inv {E A B : Type} (m : throws S E A) (f : A -> throws S E B) s b s' :
  ebind m f s = Ret (inl b, s') -> exists a s1, m s = Ret (inl a, s1) /\ f a s1 = Ret (inl b, s').
Proof. unfold ebind. destruct (m s) as [[[a|e] s1]| |]; intros; try done. eauto. Qed.

Lemma deref_inv {E A : Type} (o : outcome A) s a s' :
  @deref S E A o s = Ret (inl a, s') -> o = Ret a /\ s' = s.
Proof. unfold deref. destruct o; [|done..]. by intros [= <- <-]. Qed.

Lemma preserves_ret {A : Type} (I : S -> Prop) (a : A) : preserves I (mret a).
Proof. intros s b s' HI E. by injection E as <- <-. Qed.

Lemma preserves_bind {A B : Type} (I : S -> Prop) (c : go S A) (f : A -> go S B) :
  preserves I c -> (forall a, preserves I (f a)) -> preserves I (c ≫= f).
Proof.
  intros Hc Hf s b s' HI E. apply go_bind_Ret in E as (a & s1 & E1 & E2).
  exact (Hf a s1 b s' (Hc s a s1 HI E1) E2).
Qed.

Lemma preserves_get (I : S -> Prop) : preserves I gget.
Proof. intros s b s' HI E. by injection E as <- <-. Qed.

Lemma preserves_modify (I : S -> Prop) f : (forall s, I s -> I (f s)) -> preserves I (gmodify f).
Proof. intros Hf s b s' HI E. injection E as <- <-. auto. Qed.

Lemma preserves_panic {A : Type} (I : S -> Prop) : preserves I (@gpanic S A).
Proof. by intros s b s'. Qed.

Lemma preserves_fuel {A : Type} (I : S -> Prop) : preserves I (@gfuel S A).
Proof. by intros s b s'. Qed.

Lemma preserves_lift {A : Type} (I : S -> Prop) (o : outcome A) : preserves I (glift o).
Proof. intros s b s' HI E. unfold glift in E. destruct o; by simplify_eq. Qed.

Lemma preserves_for_each {A B : Type} (I : S -> Prop) (f : B -> A -> go S B) l :
  (forall acc x, preserves I (f acc x)) -> forall acc, preserves I (for_each f acc l).
Proof.
  intros Hf. induction l as [|x l IH]; intros acc; cbn.
  - apply preserves_ret.
  - apply preserves_bind; auto.
Qed.

Lemma preserves_for_until {A B R : Type} (I : S -> Prop) (f : B -> A -> go S (B + R)) l :
  (forall acc x, preserves I (f acc x)) -> forall acc, preserves I (for_until f acc l).
Proof.
  intros Hf. induction l as [|x l IH]; intros acc; cbn.
  - apply preserves_ret.
  - apply preserves_bind; [auto|]. intros [acc'|v]; auto using preserves_ret.
Qed.

Lemma triple_ret {A : Type} (P : S -> Prop) (a : A) (Q : A -> S -> Prop) :
  (forall s, P s -> Q a s) -> triple P (mret a) Q.
Proof. intros H s b s' HP E. injection E as <- <-. auto. Qed.

Lemma triple_bind {A B : Type} (P : S -> Prop) (c : go S A) (f : A -> go S B) R Q :
  triple P c R -> (forall a, triple (R a) (f a) Q) -> triple P (c ≫= f) Q.
Proof.
  intros Hc Hf s b s' HP E. apply go_bind_Ret in E as (a & s1 & E1 & E2).
  exact (Hf a s1 b s' (Hc s a s1 HP E1) E2).
Qed.

Lemma triple_conseq {A : Type} (P P' : S -> Prop) (c : go S A) (Q Q' : A -> S -> Prop) :
  triple P' c Q' -> (forall s, P s -> P' s) -> (forall a s, Q' a s -> Q a s) -> triple P c Q.
Proof. intros H HP HQ s a s' Hs E. eapply HQ, H; eauto. Qed.

Lemma triple_preserves {A : Type} (I : S -> Prop) (c : go S A) :
  preserves I c -> triple I c (fun _ => I).
Proof. intros H s a s'. apply H. Qed.

Lemma triple_for_each {A B : Type} (I : B -> S -> Prop) (f : B -> A -> go S B) l :
  (forall acc x, x ∈ l -> triple (I acc) (f acc x) I) ->
  forall acc, triple (I acc) (for_each f acc l) I.
Proof.
  induction l as [|x l IH]; intros Hf acc; cbn.
  - by apply triple_ret.
  - eapply triple_bind; [apply Hf; set_solver|]. intros acc'. apply IH. set_solver.
Qed.

Lemma total_ret {A : Type} (P : S -> Prop) (a : A) (Q : A -> S -> Prop) : (forall s, P s -> Q a s) -> total P (mret a) Q.
Proof. intros HQ s Hs. exists a, s. auto. Qed.

Lemma total_bind {A B : Type} (P : S -> Prop) (c : go S A) (f : A -> go S B) R Q :
  total P c R -> (forall a, total (R a) (f a) Q) -> total P (c ≫= f) Q.
Proof.
  intros Hc Hf s Hs. destruct (Hc s Hs) as (a & s1 & E1 & H1). destruct (Hf a s1 H1) as (b & s2 & E2 & H2).
  exists b, s2. by rewrite (bind_run _ _ _ _ _ E1).
Qed.

Lemma total_get {B : Type} (P : S -> Prop) (f : S -> go S B) Q :
  (forall s, P s -> total (eq s) (f s) Q) -> total P (gget ≫= f) Q.
Proof. intros Hf s Hs. rewrite bind_gget. by apply (Hf s Hs s). Qed.

Lemma total_modify (P : S -> Prop) (f : S -> S) (Q : unit -> S -> Prop) : (forall s, P s -> Q tt (f s)) -> total P (gmodify f) Q.
Proof. intros HQ s Hs. exists tt, (f s). auto. Qed.

Lemma total_lift {A B : Type} (P : S -> Prop) (o : outcome A) a (f : A -> go S B) Q :
  o = Ret a -> total P (f a) Q -> total P (glift o ≫= f) Q.
Proof. intros E Hf s Hs. rewrite (bind_glift _ _ _ _ E). by apply Hf. Qed.

Lemma total_conseq {A : Type} (P P' : S -> Prop) (c : go S A) (Q Q' : A -> S -> Prop) :
  total P' c Q' -> (forall s, P s -> P' s) -> (forall a s, Q' a s -> Q a s) -> total P c Q.
Proof. intros Hc HP HQ s Hs. destruct (Hc s (HP s Hs)) as (a & s' & E & H'). exists a, s'. auto. Qed.

(** [I l acc]: what holds before the elements [l] that are left. *)
Lemma total_for_each {A B : Type} (I : list A -> B -> S -> Prop) (f : B -> A -> go S B) l :
  (forall x l' acc, (exists l0, l = l0 ++ x :: l') -> total (I (x :: l') acc) (f acc x) (I l')) -> forall acc, total (I l acc) (for_each f acc l) (I []).
Proof.
  induction l as [|x l IH]; intros Hf acc; cbn [for_each]; [by apply total_ret|].
  eapply total_bind; [apply Hf; by exists []|]. intros acc'. apply IH. intros y l' acc2 [l0 ->]. apply Hf. by exists (x :: l0).
Qed.

End logic.

#[export] Hint Resolve preserves_ret preserves_bind preserves_get preserves_panic preserves_fuel
  preserves_lift preserves_for_each preserves_for_until : xchain.

(** Discharge [preserves] goals of straight-line code and loops: split binds,
    conditionals and matches, and close the leaves with the hints and the
    hypotheses. *)
Ltac preserve :=
  repeat first
  [ solve [auto 3 with xchain nocore]
  | apply preserves_bind; [|intros ?]
  | apply preserves_for_each; intros ? ?
  | apply preserves_for_until; intros ? ?
  | match goal with
    | |- preserves _ (match ?x with _ => _ end) => destruct x
    | |- preserves _ (let '(_, _) := ?x in _) => destruct x
    end
  | apply preserves_modify; intros ? ? ].

(** Run a computation hypothesis [H : c s = Ret _] through its first bind. *)
Ltac go_inv H :=
  let a := fresh "a" in let s := fresh "s" in let E := fresh "E" in
  apply go_bind_Ret in H as (a & s & E & H).
