(* ===== verification/Fmt.v ===== *)
(** * The formatting verbs of [fmt.Sprintf] and the byte strings they print

    Go strings and byte slices are [string]; the verbs used by the sources are
    [%d] on a [*big.Int], [%12d] on a [*big.Int] and [%x] on bytes.  The
    lemmas show that the formats are unambiguous and that the space-padded
    decimal format is order preserving, which is what the sentinel's string
    keys rely on. *)
From S2P Require Import Prelude.
From Stdlib Require Import Ascii String.
Local Open Scope Z_scope.

#[local] Arguments String.append !_ _ / : simpl nomatch.

(** The character of code [z]. *)
Definition chr (z : Z) : ascii := ascii_of_N (Z.to_N z).

Definition digit (z : Z) : ascii := chr (48 + z).

(** Decimal digits of a non-negative number, in front of [acc]. *)
Fixpoint dec_go (fuel : nat) (z : Z) (acc : string) : string :=
  match fuel with
  | O => acc
  | S f =>
      if z <? 10 then String (digit z) acc
      else dec_go f (z / 10) (String (digit (z mod 10)) acc)
  end.

Definition dec (z : Z) : string := dec_go (S (Z.to_nat (Z.log2 z))) z "".

Arguments dec : simpl never.

(** [%d] on a [*big.Int]. *)
Definition fmt_d (p : option Z) : string :=
  match p with
  | None => "<nil>"
  | Some z => if z <? 0 then "-" +:+ dec (- z) else dec z
  end.

Fixpoint spaces (n : nat) : string :=
  match n with
  | O => ""
  | S n => String " " (spaces n)
  end.

(** Pad with spaces on the left up to a width. *)
Definition pad_left (w : nat) (s : string) : string :=
  spaces (w - String.length s) +:+ s.

(** [%12d] on a [*big.Int]. *)
Definition fmt_12d (p : option Z) : string := pad_left 12 (fmt_d p).

Definition hexdigit (z : Z) : ascii := if z <? 10 then chr (48 + z) else chr (87 + z).

Definition byte_of (c : ascii) : Z := Z.of_N (N_of_ascii c).

(** The byte slice of a list of bytes. *)
Fixpoint bytes_string (l : list Z) : string :=
  match l with
  | [] => ""
  | z :: l' => String (chr z) (bytes_string l')
  end.

(** [%x] on a byte slice: two lower-case digits per byte. *)
Fixpoint hex (s : string) : string :=
  match s with
  | EmptyString => EmptyString
  | String c s' =>
      String (hexdigit (byte_of c / 16)) (String (hexdigit (byte_of c mod 16)) (hex s'))
  end.

(** A fixed-size byte array, as its big-endian value, written out. *)
Fixpoint be_bytes (n : nat) (z : Z) : string :=
  match n with
  | O => ""
  | S n => be_bytes n (z / 256) +:+ String (chr (z mod 256)) ""
  end.

(** Lexicographic order on strings, as [sort.Strings] uses it. *)
Definition str_le (a b : string) : Prop := String.compare a b <> Gt.

#[export] Instance str_le_dec : RelDecision str_le.
Proof. intros a b. unfold str_le. destruct (String.compare a b); [left|left|right]; congruence. Defined.

(** The value of a decimal string read from left to right. *)
Fixpoint undec (v : Z) (s : string) : Z :=
  match s with
  | EmptyString => v
  | String c s' => undec (v * 10 + (byte_of c - 48)) s'
  end.

(** All characters of a string satisfy a test. *)
Fixpoint all_chars (P : ascii -> bool) (s : string) : bool :=
  match s with
  | EmptyString => true
  | String c s' => P c && all_chars P s'
  end.

Definition not_comma (c : ascii) : bool := negb (Ascii.eqb c ",").

(** The cell of a [w]-wide space-padded decimal: a digit, or a space to the
    left of the first significant digit. *)
Definition cell (n : Z) (last : bool) : ascii :=
  if (n =? 0) && negb last then " "%char else digit (n mod 10).

Fixpoint padded (w : nat) (n : Z) (last : bool) : string :=
  match w with
  | O => ""
  | S w => padded w (n / 10) false +:+ String (cell n last) ""
  end.

(** ** Characters *)
Lemma byte_of_chr z : 0 <= z < 256 -> byte_of (chr z) = z.
Proof.
  intros Hz. unfold byte_of, chr. rewrite N_ascii_embedding by lia. lia.
Qed.

Lemma chr_inj a b : 0 <= a < 256 -> 0 <= b < 256 -> chr a = chr b -> a = b.
Proof. intros Ha Hb H. rewrite <- (byte_of_chr a), <- (byte_of_chr b) by lia. by rewrite H. Qed.

Lemma bytes_string_inj l1 : forall l2,
  Forall (fun b => 0 <= b < 256) l1 -> Forall (fun b => 0 <= b < 256) l2 ->
  bytes_string l1 = bytes_string l2 -> l1 = l2.
Proof.
  induction l1 as [|b1 l1 IH]; intros [|b2 l2] H1 H2 E; try done. cbn in E. injection E as Ec E.
  apply Forall_cons in H1 as [? ?], H2 as [? ?]. f_equal; [by apply chr_inj|by apply IH].
Qed.

Lemma chr_byte_of c : chr (byte_of c) = c.
Proof. unfold chr, byte_of. by rewrite N2Z.id, ascii_N_embedding. Qed.

Lemma byte_of_range c : 0 <= byte_of c < 256.
Proof. unfold byte_of. pose proof (N_ascii_bounded c). lia. Qed.

Lemma chr_compare a b :
  0 <= a < 256 -> 0 <= b < 256 -> Ascii.compare (chr a) (chr b) = (a ?= b).
Proof.
  intros Ha Hb. unfold Ascii.compare, chr. rewrite !N_ascii_embedding by lia.
  by rewrite <- N2Z.inj_compare, !Z2N.id by lia.
Qed.

(** ** Strings *)
Lemma append_assoc (a b c : string) : (a +:+ b) +:+ c = a +:+ (b +:+ c).
Proof. induction a as [|x a IH]; [done|]. simpl. by rewrite IH. Qed.

Lemma append_nil_r (a : string) : a +:+ "" = a.
Proof. induction a as [|x a IH]; cbn; [done|]. by rewrite IH. Qed.

Lemma length_append (a b : string) :
  (String.length (a +:+ b) = String.length a + String.length b)%nat.
Proof. induction a as [|x a IH]; cbn; [done|]. by rewrite IH. Qed.

Lemma append_last_inj (a b : string) x y :
  a +:+ String x "" = b +:+ String y "" -> a = b /\ x = y.
Proof.
  revert b. induction a as [|u a IH]; intros [|v b] H; cbn in H.
  - by simplify_eq.
  - injection H as -> H. by destruct b.
  - injection H as -> H. by destruct a.
  - injection H as -> H. by apply IH in H as [-> ->].
Qed.

Lemma compare_append (p a b : string) :
  String.compare (p +:+ a) (p +:+ b) = String.compare a b.
Proof.
  induction p as [|c p IH]; cbn; [done|].
  unfold Ascii.compare. by rewrite N.compare_refl.
Qed.

Lemma compare_last (a b : string) x y :
  String.length a = String.length b ->
  String.compare (a +:+ String x "") (b +:+ String y "") =
  match String.compare a b with Eq => Ascii.compare x y | c => c end.
Proof.
  revert b. induction a as [|u a IH]; intros [|v b] Hl; cbn in *; try lia.
  - by destruct (Ascii.compare x y).
  - rewrite IH by lia. by destruct (Ascii.compare u v).
Qed.

Lemma split_comma (a b x y : string) :
  all_chars not_comma a = true -> all_chars not_comma b = true ->
  a +:+ String "," x = b +:+ String "," y -> a = b /\ x = y.
Proof.
  revert b. induction a as [|u a IH]; intros [|v b] Ha Hb H; cbn in Ha, Hb, H.
  - by simplify_eq.
  - injection H as <- H. done.
  - injection H as -> H. done.
  - injection H as -> H. boolp. by destruct (IH b) as [-> ->].
Qed.

Lemma all_chars_append P (a b : string) :
  all_chars P (a +:+ b) = all_chars P a && all_chars P b.
Proof. induction a as [|c a IH]; cbn; [done|]. rewrite IH. by destruct (P c). Qed.

(** ** Decimal numbers *)
Lemma digit_undec z : 0 <= z < 10 -> byte_of (digit z) - 48 = z.
Proof. intros Hz. unfold digit. rewrite byte_of_chr; lia. Qed.

Lemma digit_not_comma z : 0 <= z < 10 -> not_comma (digit z) = true.
Proof.
  intros Hz. unfold not_comma, digit. apply negb_true_iff, Ascii.eqb_neq.
  intros H. apply (f_equal byte_of) in H. rewrite byte_of_chr in H by lia.
  change (byte_of ",") with 44 in H. lia.
Qed.

Lemma div10_lt z : 10 <= z -> 0 <= z / 10 /\ z / 10 * 2 <= z /\ 0 <= z mod 10 < 10 /\
  z / 10 * 10 + z mod 10 = z.
Proof. intros. Z.to_euclidean_division_equations. lia. Qed.

Lemma dec_go_undec fuel :
  forall z acc, 0 <= z < 2 ^ Z.of_nat fuel ->
  undec 0 (dec_go fuel z acc) = undec z acc.
Proof.
  induction fuel as [|fuel IH]; intros z acc Hz.
  - cbn in *. by replace z with 0 by lia.
  - cbn. destruct (Z.ltb_spec z 10).
    + cbn. rewrite digit_undec by lia. done.
    + destruct (div10_lt z) as (?&?&?&?); [lia|].
      rewrite IH.
      * cbn. rewrite digit_undec by lia. f_equal; lia.
      * rewrite Nat2Z.inj_succ, Z.pow_succ_r in Hz by lia. lia.
Qed.

Lemma dec_fuel z : 0 <= z -> 0 <= z < 2 ^ Z.of_nat (S (Z.to_nat (Z.log2 z))).
Proof.
  intros Hz. pose proof (Z.log2_nonneg z).
  rewrite Nat2Z.inj_succ, Z2Nat.id by lia.
  destruct (decide (z = 0)) as [->|]; [done|].
  pose proof (Z.log2_spec z). lia.
Qed.

Lemma dec_inj a b : 0 <= a -> 0 <= b -> dec a = dec b -> a = b.
Proof.
  intros Ha Hb H. apply (f_equal (undec 0)) in H. unfold dec in H.
  rewrite !dec_go_undec in H by (by apply dec_fuel). exact H.
Qed.

Lemma dec_go_all P fuel :
  (forall z, 0 <= z < 10 -> P (digit z) = true) ->
  forall z acc, 0 <= z -> all_chars P acc = true -> all_chars P (dec_go fuel z acc) = true.
Proof.
  intros HP. induction fuel as [|fuel IH]; intros z acc Hz Hacc; cbn; [done|].
  destruct (Z.ltb_spec z 10).
  - cbn. by rewrite HP, Hacc by lia.
  - destruct (div10_lt z) as (?&?&?&?); [lia|].
    apply IH; [lia|]. cbn. by rewrite HP, Hacc by lia.
Qed.

Lemma dec_head z : 0 <= z -> exists c s, dec z = String c s /\ byte_of c <> 45 /\ byte_of c <> 60.
Proof.
  intros Hz. unfold dec.
  set (P := fun c => negb (byte_of c =? 45) && negb (byte_of c =? 60)).
  assert (HP : forall z, 0 <= z < 10 -> P (digit z) = true).
  { intros d Hd. unfold P, digit. rewrite byte_of_chr by lia.
    apply andb_true_iff; split; apply negb_true_iff, Z.eqb_neq; lia. }
  pose proof (dec_go_all P (S (Z.to_nat (Z.log2 z))) HP z "" Hz eq_refl) as Hall.
  pose proof (dec_go_undec (S (Z.to_nat (Z.log2 z))) z "" (dec_fuel z Hz)) as Hu.
  destruct (dec_go _ z "") as [|c s] eqn:E.
  - cbn in E. cbn in Hu. subst z. done.
  - cbn in Hall. apply andb_true_iff in Hall as [Hc _]. unfold P in Hc. boolp.
    eauto.
Qed.

Lemma fmt_d_inj p q : fmt_d p = fmt_d q -> p = q.
Proof.
  assert (Hm : forall z, 0 <= z -> forall s, dec z <> String "-" s /\ dec z <> String "<" s).
  { intros z Hz s. destruct (dec_head z Hz) as (c&t&->&H1&H2).
    split; intros H; by simplify_eq. }
  unfold fmt_d. intros H.
  destruct p as [x|], q as [y|]; try done;
    repeat (split_if; cbn in H); simplify_eq.
  - apply dec_inj in H; [|lia|lia]. f_equal. lia.
  - symmetry in H. by apply Hm in H.
  - by apply Hm in H.
  - apply dec_inj in H; [|lia|lia]. by subst.
  - by apply Hm in H.
  - symmetry in H. by apply Hm in H.
Qed.

Lemma fmt_d_no_comma p : all_chars not_comma (fmt_d p) = true.
Proof.
  unfold fmt_d. destruct p as [z|]; [|done].
  split_if; [rewrite all_chars_append; cbn|]; apply dec_go_all; auto using digit_not_comma; lia.
Qed.

(** ** Space-padded decimals keep the numeric order *)
Lemma length_padded w : forall n last, String.length (padded w n last) = w.
Proof.
  induction w as [|w IH]; intros n last; cbn [padded]; [done|].
  rewrite length_append, IH. cbn. lia.
Qed.

Lemma padded_zero w : padded w 0 false = spaces w.
Proof.
  assert (Hs : forall k, spaces k +:+ " " = String " " (spaces k)).
  { intros k. induction k as [|k IH]; [done|]. cbn. by rewrite IH. }
  induction w as [|w IH]; [done|].
  cbn [padded]. change (0 / 10) with 0. rewrite IH. unfold cell. cbn. apply Hs.
Qed.

Lemma padded_last w n : 0 < n -> padded w n true = padded w n false.
Proof.
  intros Hn. destruct w; [done|]. cbn [padded]. unfold cell.
  destruct (Z.eqb_spec n 0); [lia|done].
Qed.

Lemma dec_go_padded w :
  forall fuel n acc, (0 < w)%nat -> 0 <= n < 10 ^ Z.of_nat w -> n < 2 ^ Z.of_nat fuel ->
  (0 < fuel)%nat ->
  pad_left (w + String.length acc) (dec_go fuel n acc) = padded w n true +:+ acc.
Proof.
  induction w as [|w IH]; intros [|fuel] n acc Hw Hn Hf Hfu; try lia.
  cbn [dec_go]. destruct (Z.ltb_spec n 10).
  - cbn [padded]. rewrite Z.div_small, padded_zero by lia. unfold cell.
    rewrite andb_false_r, Z.mod_small, append_assoc by lia.
    unfold pad_left. do 2 f_equal. cbn. lia.
  - destruct (div10_lt n) as (?&?&?&?); [lia|].
    rewrite Nat2Z.inj_succ, Z.pow_succ_r in Hn, Hf by lia.
    assert (w <> 0)%nat by (intros ->; cbn in Hn; lia).
    replace (S w + String.length acc)%nat
      with (w + String.length (String (digit (n mod 10)) acc))%nat by (cbn; lia).
    rewrite IH; try lia; [|destruct fuel; cbn in *; lia].
    cbn [padded]. rewrite append_assoc, padded_last by lia. unfold cell.
    by rewrite andb_false_r.
Qed.

Lemma fmt_12d_padded n : 0 <= n < 10 ^ 12 -> fmt_12d (Some n) = padded 12 n true.
Proof.
  intros Hn. unfold fmt_12d, fmt_d, dec.
  destruct (Z.ltb_spec n 0); [lia|].
  change 12%nat with (12 + String.length "")%nat at 1.
  rewrite dec_go_padded; [apply append_nil_r|lia|lia| |lia].
  by apply dec_fuel.
Qed.

Lemma cell_compare n m last :
  0 <= n -> 0 <= m -> n / 10 = m / 10 ->
  Ascii.compare (cell n last) (cell m last) = (n ?= m).
Proof.
  intros Hn Hm Hq.
  pose proof (Z.mod_pos_bound n 10). pose proof (Z.mod_pos_bound m 10).
  pose proof (Z.div_mod n 10). pose proof (Z.div_mod m 10).
  assert (Hc : (n ?= m) = (n mod 10 ?= m mod 10)).
  { rewrite (Z.div_mod n 10), (Z.div_mod m 10), Hq at 1 by lia.
    rewrite Z.add_compare_mono_l. done. }
  unfold cell, digit. change " "%char with (chr 32).
  destruct (Z.eqb_spec n 0) as [->|], (Z.eqb_spec m 0) as [->|], last; cbn [andb negb];
    rewrite chr_compare by lia; try (rewrite Hc, ?Z.add_compare_mono_l; done).
  - transitivity Lt; [|symmetry]; apply Z.compare_lt_iff; lia.
  - transitivity Gt; [|symmetry]; apply Z.compare_gt_iff; lia.
Qed.

Lemma padded_compare w :
  forall n m last, 0 <= n < 10 ^ Z.of_nat w -> 0 <= m < 10 ^ Z.of_nat w ->
  String.compare (padded w n last) (padded w m last) = (n ?= m).
Proof.
  induction w as [|w IH]; intros n m last Hn Hm.
  - cbn in *. by replace n with 0 by lia; replace m with 0 by lia.
  - rewrite Nat2Z.inj_succ, Z.pow_succ_r in Hn, Hm by lia.
    cbn [padded]. rewrite compare_last by (by rewrite !length_padded).
    assert (Hb : forall k, 0 <= k < 10 * 10 ^ Z.of_nat w -> 0 <= k / 10 < 10 ^ Z.of_nat w).
    { intros k Hk. split; [apply Z.div_pos; lia|apply Z.div_lt_upper_bound; lia]. }
    rewrite IH by auto.
    pose proof (Z.div_mod n 10). pose proof (Z.div_mod m 10).
    pose proof (Z.mod_pos_bound n 10). pose proof (Z.mod_pos_bound m 10).
    destruct (Z.compare_spec (n / 10) (m / 10)).
    + apply cell_compare; lia.
    + symmetry. apply Z.compare_lt_iff. lia.
    + symmetry. apply Z.compare_gt_iff. lia.
Qed.

(** [%12d] orders non-negative numbers below [10^12] like their values. *)
Lemma fmt_12d_compare n m :
  0 <= n < 10 ^ 12 -> 0 <= m < 10 ^ 12 ->
  String.compare (fmt_12d (Some n)) (fmt_12d (Some m)) = (n ?= m).
Proof. intros Hn Hm. rewrite !fmt_12d_padded by done. by apply padded_compare. Qed.

(** ** Hexadecimal and fixed-size arrays *)
Lemma hexdigit_inj a b : 0 <= a < 16 -> 0 <= b < 16 -> hexdigit a = hexdigit b -> a = b.
Proof.
  intros Ha Hb. unfold hexdigit.
  repeat split_if; intros H; apply chr_inj in H; lia.
Qed.

Lemma hex_inj a : forall b, hex a = hex b -> a = b.
Proof.
  induction a as [|x a IH]; intros [|y b] H; cbn in H; try done.
  injection H as H1 H2 H3. apply IH in H3 as ->. f_equal.
  pose proof (byte_of_range x). pose proof (byte_of_range y).
  apply hexdigit_inj in H1, H2;
    try (split; [apply Z.div_pos|apply Z.div_lt_upper_bound]; lia);
    try (apply Z.mod_pos_bound; lia).
  rewrite <- (chr_byte_of x), <- (chr_byte_of y). f_equal.
  rewrite (Z.div_mod (byte_of x) 16), (Z.div_mod (byte_of y) 16) by lia. congruence.
Qed.

Lemma length_hex s : (String.length (hex s) = 2 * String.length s)%nat.
Proof. induction s as [|c s IH]; cbn; [done|]. rewrite IH. lia. Qed.

Lemma hex_no_comma s : all_chars not_comma (hex s) = true.
Proof.
  assert (Hd : forall z, 0 <= z < 16 -> not_comma (hexdigit z) = true).
  { intros z Hz. unfold not_comma. apply negb_true_iff, Ascii.eqb_neq.
    intros H. apply (f_equal byte_of) in H. change (byte_of ",") with 44 in H.
    unfold hexdigit in H. split_if; rewrite byte_of_chr in H; lia. }
  induction s as [|c s IH]; cbn; [done|]. pose proof (byte_of_range c).
  rewrite IH, !Hd; [done|apply Z.mod_pos_bound; lia|].
  split; [apply Z.div_pos|apply Z.div_lt_upper_bound]; lia.
Qed.

Lemma be_bytes_inj n :
  forall a b, 0 <= a < 256 ^ Z.of_nat n -> 0 <= b < 256 ^ Z.of_nat n ->
  be_bytes n a = be_bytes n b -> a = b.
Proof.
  induction n as [|n IH]; intros a b Ha Hb H; cbn [be_bytes] in H.
  - cbn in *. lia.
  - rewrite Nat2Z.inj_succ, Z.pow_succ_r in Ha, Hb by lia.
    apply append_last_inj in H as [H1 H2].
    apply chr_inj in H2; try (apply Z.mod_pos_bound; lia).
    apply IH in H1;
      try (split; [apply Z.div_pos; lia|apply Z.div_lt_upper_bound; lia]).
    rewrite (Z.div_mod a 256), (Z.div_mod b 256) by lia. congruence.
Qed.

(** A byte slice is never its own hexadecimal form, unless empty. *)
Lemma hex_neq s : s <> "" -> hex s <> s.
Proof.
  intros Hs H. apply (f_equal String.length) in H. rewrite length_hex in H.
  destruct s; [done|]. cbn in H. lia.
Qed.

(** ** The string order is total and transitive *)
Lemma str_compare_antisym a b : String.compare b a = CompOpp (String.compare a b).
Proof. apply String.compare_antisym. Qed.

#[export] Instance str_le_total : Total str_le.
Proof.
  intros a b. unfold str_le. rewrite (str_compare_antisym a b).
  destruct (String.compare a b); cbn; [left|left|right]; congruence.
Qed.

Lemma str_compare_lt_trans a : forall b c,
  String.compare a b <> Gt -> String.compare b c <> Gt -> String.compare a c <> Gt.
Proof.
  induction a as [|x a IH]; intros [|y b] [|z c]; cbn; try done.
  unfold Ascii.compare.
  destruct (N.compare_spec (N_of_ascii x) (N_of_ascii y)) as [E|E|E]; [|intros _|done];
  destruct (N.compare_spec (N_of_ascii y) (N_of_ascii z)) as [E'|E'|E'];
    intros; try done;
    destruct (N.compare_spec (N_of_ascii x) (N_of_ascii z)); try done; try lia.
  by eapply IH.
Qed.

#[export] Instance str_le_trans : Transitive str_le.
Proof. intros a b c. apply str_compare_lt_trans. Qed.
