(* ===== verification/Sha256.v ===== *)
(** * [crypto/sha256]

    The digest the sentinel takes of its token-mapping strings, as an
    executable function from byte strings to the 256-bit big-endian value of
    the [[32]byte] result. *)
From S2P Require Import Prelude Fmt.
From Stdlib Require Import Ascii.
Local Open Scope Z_scope.

Definition w32 (z : Z) : Z := Z.land z 0xffffffff.

Definition rotr (n x : Z) : Z := Z.lor (Z.shiftr x n) (w32 (Z.shiftl x (32 - n))).

Definition big_sigma0 (x : Z) : Z := Z.lxor (rotr 2 x) (Z.lxor (rotr 13 x) (rotr 22 x)).
Definition big_sigma1 (x : Z) : Z := Z.lxor (rotr 6 x) (Z.lxor (rotr 11 x) (rotr 25 x)).
Definition small_sigma0 (x : Z) : Z := Z.lxor (rotr 7 x) (Z.lxor (rotr 18 x) (Z.shiftr x 3)).
Definition small_sigma1 (x : Z) : Z := Z.lxor (rotr 17 x) (Z.lxor (rotr 19 x) (Z.shiftr x 10)).
Definition choose (x y z : Z) : Z := Z.lxor (Z.land x y) (Z.land (Z.lxor x 0xffffffff) z).
Definition majority (x y z : Z) : Z :=
  Z.lxor (Z.land x y) (Z.lxor (Z.land x z) (Z.land y z)).

(** The constants of the standard: the first 32 bits of the fractional parts of
    the cube roots of the first 64 primes and of the square roots of the first
    8 primes. *)
Fixpoint cube_root (bits : nat) (n acc : Z) : Z :=
  match bits with
  | O => acc
  | S b =>
      let acc' := acc + 2 ^ Z.of_nat b in
      cube_root b n (if acc' * acc' * acc' <=? n then acc' else acc)
  end.

Definition is_prime (n : Z) : bool := forallb (fun d => negb (n mod d =? 0)) (seqZ 2 (n - 2)).

Definition primes : list Z :=
  Eval vm_compute in filter (fun n => is_prime n = true) (seqZ 2 310).

Definition round_constants : list Z :=
  Eval vm_compute in (fun p => w32 (cube_root 40 (Z.shiftl p 96) 0)) <$> primes.

Definition initial_state : list Z :=
  Eval vm_compute in (fun p => w32 (Z.sqrt (Z.shiftl p 64))) <$> take 8 primes.

(** One round on the eight working variables, and one step of the sliding
    sixteen-word message schedule. *)
Definition sha_round (st : list Z) (k w : Z) : list Z :=
  match st with
  | [a; b; c; d; e; f; g; h] =>
      let t1 := h + big_sigma1 e + choose e f g + k + w in
      let t2 := big_sigma0 a + majority a b c in
      [w32 (t1 + t2); a; b; c; w32 (d + t1); e; f; g]
  | _ => st
  end.

Definition schedule_step (win : list Z) : list Z :=
  let w i := default 0 (win !! i) in
  drop 1 win ++ [w32 (small_sigma1 (w 14%nat) + w 9%nat + small_sigma0 (w 1%nat) + w 0%nat)].

Fixpoint rounds (ks win st : list Z) : list Z :=
  match ks with
  | [] => st
  | k :: ks' => rounds ks' (schedule_step win) (sha_round st k (default 0 (win !! 0%nat)))
  end.

Definition compress (st block : list Z) : list Z :=
  zip_with (fun a b => w32 (a + b)) st (rounds round_constants block st).

Fixpoint words (bs : list Z) : list Z :=
  match bs with
  | a :: b :: c :: d :: bs' => (((a * 256 + b) * 256 + c) * 256 + d) :: words bs'
  | _ => []
  end.

Definition string_bytes (s : string) : list Z := byte_of <$> String.list_ascii_of_string s.

Definition padding (len : Z) : list Z :=
  0x80 :: replicate (Z.to_nat ((55 - len) mod 64)) 0 ++
  ((fun i => Z.land (Z.shiftr (len * 8) (8 * (7 - i))) 255) <$> seqZ 0 8).

Fixpoint digest_blocks (n : nat) (ws st : list Z) : list Z :=
  match n with
  | O => st
  | S n => digest_blocks n (drop 16 ws) (compress st (take 16 ws))
  end.

Definition sha256 (s : string) : Z :=
  let bs := string_bytes s in
  let ws := words (bs ++ padding (Z.of_nat (length bs))) in
  foldl (fun acc w => acc * 4294967296 + w) 0
    (digest_blocks (length ws / 16) ws initial_state).

(** The test vectors of FIPS 180-2. *)
Example sha256_abc :
  sha256 "abc" = 0xba7816bf8f01cfea414140de5dae2223b00361a396177a9cb410ff61f20015ad.
Proof. vm_compute. reflexivity. Qed.

Example sha256_two_blocks :
  sha256 "abcdbcdecdefdefgefghfghighijhijkijkljklmklmnlmnomnopnopq" =
  0x248d6a61d20638b8e5c026930c3e6039a33ce45964ff2167f6ecedd419db06c1.
Proof. vm_compute. reflexivity. Qed.
