(* ===== verification/Abi.v ===== *)
(** * The contract ABI codec (accounts/abi)

    The encoding of Go values as call data and the decoding of the outputs and
    events of contracts: [Type], [pack], [toGoType] and the functions they are
    made of.  Byte slices are lists of [Z].  A call returns, returns an error
    or panics; slice expressions out of range panic.  Positions and sizes are
    machine integers ([int]), with their wrap-around; the offsets that packing writes
    are lengths of encoded data, which is in memory, and do not wrap.  That memory can
    be allocated is assumed. *)
From S2P Require Import Prelude.
Local Open Scope Z_scope.

(** A Go call with an error result. *)
Definition exn (A : Type) : Type := outcome (result A).

Definition ok {A : Type} (a : A) : exn A := Ret (Ok a).
Definition err {A : Type} : exn A := Ret Err.

Definition ebind {A B : Type} (m : exn A) (f : A -> exn B) : exn B :=
  match m with
  | Ret (Ok a) => f a
  | Ret Err => Ret Err
  | Panic => Panic
  | OutOfFuel => OutOfFuel
  end.

(** A call without an error. *)
Definition elift {A : Type} (m : outcome A) : exn A :=
  match m with Ret a => ok a | Panic => Panic | OutOfFuel => OutOfFuel end.

Notation "x <- m ;; f" := (ebind m (fun x => f)) (at level 100, m at next level, right associativity).

(** ** Types and values

    [Type] of type.go: the types [NewType] builds. *)
Inductive Ty : Type :=
| IntTy (size : Z)
| UintTy (size : Z)
| BoolTy
| StringTy
| SliceTy (elem : Ty)
| ArrayTy (size : nat) (elem : Ty)
| TupleTy (elems : list Ty)
| AddressTy
| FixedBytesTy (size : nat)
| BytesTy
| FunctionTy.

(** [reflect.Kind], the machine integers by signedness and width. *)
Inductive Kind : Type :=
| KInt (unsigned : bool) (width : Z)
| KBool
| KString
| KSlice
| KArray
| KStruct
| KPtr.

#[export] Instance Kind_eq_dec : EqDecision Kind.
Proof. solve_decision. Defined.

(** Go values, pointers other than [*big.Int] dereferenced.  A slice or an
    array carries the kind of its elements; the fields of a struct are in the
    order of the tuple. *)
Inductive val : Type :=
| VInt (unsigned : bool) (width z : Z)
| VBig (p : option Z)
| VBool (b : bool)
| VString (s : list Z)
| VSeq (isarray : bool) (elem : Kind) (l : list val)
| VStruct (l : list val).

Definition kind_of (v : val) : Kind :=
  match v with
  | VInt u w _ => KInt u w
  | VBig _ => KPtr
  | VBool _ => KBool
  | VString _ => KString
  | VSeq true _ _ => KArray
  | VSeq false _ _ => KSlice
  | VStruct _ => KStruct
  end.

Definition byte_kind : Kind := KInt true 8.

(** [[]byte] and [[n]byte]. *)
Definition VBytes (isarray : bool) (bs : list Z) : val := VSeq isarray byte_kind (VInt true 8 <$> bs).

(** [reflectIntType]. *)
Definition reflectIntType (unsigned : bool) (size : Z) : Kind :=
  if (size =? 8) || (size =? 16) || (size =? 32) || (size =? 64) then KInt unsigned size else KPtr.

(** The kind of [t.GetType()]. *)
Definition GetType_Kind (t : Ty) : Kind :=
  match t with
  | IntTy size => reflectIntType false size
  | UintTy size => reflectIntType true size
  | BoolTy => KBool
  | StringTy => KString
  | SliceTy _ | BytesTy => KSlice
  | ArrayTy _ _ | AddressTy | FixedBytesTy _ | FunctionTy => KArray
  | TupleTy _ => KStruct
  end.

(** The size and the alignment of the Go types, in bytes; the fields of a struct as
    [reflect.StructOf] lays them out. *)
Definition align (x a : Z) : Z := (x + a - 1) / a * a.

Definition add_field (acc : Z * Z * Z) (field : Z * Z) : Z * Z * Z :=
  let '(size, typalign, lastzero) := acc in
  let '(fsize, falign) := field in
  let size' := align size falign + fsize in
  (size', Z.max typalign falign, if fsize =? 0 then size' else lastzero).

Definition StructOf (fields : list (Z * Z)) : Z * Z :=
  let '(size, typalign, lastzero) := foldl add_field (0, 1, 0) fields in
  (align (if (0 <? size) && (lastzero =? size) then size + 1 else size) typalign, typalign).

Definition int_layout (size : Z) : Z * Z :=
  if (size =? 8) || (size =? 16) || (size =? 32) || (size =? 64) then (size / 8, size / 8) else (8, 8).

Fixpoint layout (t : Ty) : Z * Z :=
  match t with
  | IntTy size | UintTy size => int_layout size
  | BoolTy => (1, 1)
  | StringTy => (16, 8)
  | SliceTy _ | BytesTy => (24, 8)
  | ArrayTy n elem => (Z.of_nat n * fst (layout elem), snd (layout elem))
  | TupleTy elems => StructOf (layout <$> elems)
  | AddressTy => (20, 1)
  | FixedBytesTy n => (Z.of_nat n, 1)
  | FunctionTy => (24, 1)
  end.

(** [reflect.ArrayOf] panics when the size of the array exceeds the address space; the
    struct of a tuple was built with the type. *)
Fixpoint GetType_ok (t : Ty) : bool :=
  match t with
  | SliceTy elem => GetType_ok elem
  | ArrayTy n elem => GetType_ok elem && (Z.of_nat n * fst (layout elem) <=? MaxUint64)
  | _ => true
  end.

(** [t.GetType()], of which the kind is used. *)
Definition GetType (t : Ty) : outcome Kind := if GetType_ok t then Ret (GetType_Kind t) else Panic.

(** ** Sizes *)
Definition requiresLengthPrefix (t : Ty) : bool :=
  match t with StringTy | BytesTy | SliceTy _ => true | _ => false end.

Fixpoint isDynamicType (t : Ty) : bool :=
  match t with
  | TupleTy elems => existsb isDynamicType elems
  | StringTy | BytesTy | SliceTy _ => true
  | ArrayTy _ elem => isDynamicType elem
  | _ => false
  end.

(** The order of a wrapping sum does not matter. *)
Fixpoint getTypeSize (t : Ty) : Z :=
  match t with
  | ArrayTy size elem =>
      if negb (isDynamicType elem) then
        match elem with
        | ArrayTy _ _ | TupleTy _ => i64 (Z.of_nat size * getTypeSize elem)
        | _ => i64 (Z.of_nat size * 32)
        end
      else 32
  | TupleTy elems =>
      if negb (isDynamicType t) then foldr (fun e acc => i64 (getTypeSize e + acc)) 0 elems else 32
  | _ => 32
  end.

(** ** Numbers and padding *)

(** The big-endian bytes of the low [8 * n] bits. *)
Fixpoint be (n : nat) (z : Z) : list Z :=
  match n with
  | O => []
  | S n' => be n' (z / 256) ++ [z mod 256]
  end.

(** [big.Int.SetBytes]. *)
Definition SetBytes (bs : list Z) : Z := foldl (fun acc b => acc * 256 + b) 0 bs.

Definition zeros (n : nat) : list Z := replicate n 0.

(** What the codec uses of the MoacLib packages common and common/math. *)
Class CommonLib := {
  RightPadBytes : list Z -> nat -> list Z;
  LeftPadBytes : list Z -> nat -> list Z;
  PaddedBigBytes : Z -> nat -> list Z;
  math_U256 : Z -> Z;
  BytesToAddress : list Z -> list Z
}.

(** Their documented behaviour: padding with zeros up to a length, big-endian
    bytes of at least a length, the two's complement in 256 bits, the address
    made of the last twenty bytes. *)
Class CommonLaws `(CommonLib) : Prop := {
  RightPadBytes_spec : forall bs l, RightPadBytes bs l = bs ++ zeros (l - length bs);
  LeftPadBytes_spec : forall bs l, LeftPadBytes bs l = zeros (l - length bs) ++ bs;
  PaddedBigBytes_spec : forall z n, 0 <= z < 256 ^ Z.of_nat n -> PaddedBigBytes z n = be n z;
  math_U256_spec : forall z, math_U256 z = z mod 2 ^ 256;
  BytesToAddress_spec : forall b, (20 <= length b)%nat -> BytesToAddress b = drop (length b - 20) b
}.

Section codec.
Context `{CL : CommonLib}.

(** [U256]. *)
Definition U256 (z : Z) : list Z := PaddedBigBytes (math_U256 z) 32.

(** [packBytesSlice]. *)
Definition packBytesSlice (bs : list Z) : list Z :=
  U256 (Z.of_nat (length bs)) ++ RightPadBytes bs ((length bs + 31) / 32 * 32).

(** [packNum]: nil for the kinds that are no numbers. *)
Definition packNum (v : val) : exn (list Z) :=
  match v with
  | VInt _ _ z => ok (U256 z)
  | VBig (Some z) => ok (U256 z)
  | VBig None => Panic
  | _ => ok []
  end.

(** The bytes of a byte slice or array; [reflect] panics on other elements. *)
Fixpoint byte_list (l : list val) : exn (list Z) :=
  match l with
  | [] => ok []
  | VInt true 8 b :: l' => bs <- byte_list l';; ok (b :: bs)
  | _ => Panic
  end.

Definition byte_slice (v : val) : exn (list Z) :=
  match v with
  | VSeq _ elem l => if bool_decide (elem = byte_kind) then byte_list l else Panic
  | _ => Panic
  end.

(** ** Type checks (error.go): [true] when there is no error *)
Fixpoint sliceTypeCheck (t : Ty) (v : val) : outcome bool :=
  let check (elem : Ty) (size_ok : nat -> bool) :=
    match v with
    | VSeq _ ek l =>
        if negb (size_ok (length l)) then _ ← GetType elem; Ret false
        else
          match elem, l with
          | SliceTy _, v0 :: _ | ArrayTy _ _, v0 :: _ => sliceTypeCheck elem v0
          | _, _ => k ← GetType elem; Ret (bool_decide (ek = k))
          end
    | _ => _ ← GetType t; Ret false
    end in
  match t with
  | SliceTy elem => check elem (fun _ => true)
  | ArrayTy size elem => check elem (fun n => Nat.eqb n size)
  | _ => Ret false
  end.

Definition typeCheck (t : Ty) (v : val) : outcome bool :=
  match t with
  | SliceTy _ | ArrayTy _ _ => sliceTypeCheck t v
  | FixedBytesTy size =>
      Ret (match v with VSeq true _ l => Nat.eqb (length l) size | _ => false end)
  | _ => k ← GetType t; Ret (bool_decide (kind_of v = k))
  end.

(** ** Packing *)
Definition packElement (t : Ty) (v : val) : exn (list Z) :=
  match t with
  | IntTy _ | UintTy _ => packNum v
  | StringTy => match v with VString s => ok (packBytesSlice s) | _ => Panic end
  | AddressTy => bs <- byte_slice v;; ok (LeftPadBytes bs 32)
  | BoolTy => match v with VBool true => ok (PaddedBigBytes 1 32) | VBool false => ok (PaddedBigBytes 0 32) | _ => Panic end
  | BytesTy => bs <- byte_slice v;; ok (packBytesSlice bs)
  | FixedBytesTy _ | FunctionTy => bs <- byte_slice v;; ok (RightPadBytes bs 32)
  | _ => Panic
  end.

(** The loop over the elements of a sequence of the element type: the heads and
    the tails. *)
Fixpoint pack_elems (f : val -> exn (list Z)) (offsetReq : bool) (offset : Z) (l : list val)
    : exn (list Z * list Z) :=
  match l with
  | [] => ok ([], [])
  | v :: l' =>
      value <- f v;;
      if negb offsetReq then
        r <- pack_elems f offsetReq offset l';;
        ok (value ++ fst r, snd r)
      else
        r <- pack_elems f offsetReq (offset + Z.of_nat (length value)) l';;
        ok (U256 offset ++ fst r, value ++ snd r)
  end.

Fixpoint pack (t : Ty) (v : val) {struct t} : exn (list Z) :=
  checked <- elift (typeCheck t v);;
  if negb checked then err
  else
    match t with
    | SliceTy elem =>
        match v with
        | VSeq _ _ l =>
            let n := Z.of_nat (length l) in
            let offset := if isDynamicType elem then getTypeSize elem * n else 0 in
            r <- pack_elems (pack elem) (isDynamicType elem) offset l;;
            ok (U256 n ++ fst r ++ snd r)
        | _ => Panic
        end
    | ArrayTy _ elem =>
        match v with
        | VSeq _ _ l =>
            let n := Z.of_nat (length l) in
            let offset := if isDynamicType elem then getTypeSize elem * n else 0 in
            r <- pack_elems (pack elem) (isDynamicType elem) offset l;;
            ok (fst r ++ snd r)
        | _ => Panic
        end
    | TupleTy elems =>
        match v with
        | VStruct l =>
            let offset := foldr (fun e acc => getTypeSize e + acc) 0 elems in
            r <- (fix fields (es : list Ty) (vs : list val) (offset : Z) : exn (list Z * list Z) :=
                    match es, vs with
                    | [], _ => ok ([], [])
                    | _ :: _, [] => err
                    | e :: es', v :: vs' =>
                        value <- pack e v;;
                        if isDynamicType e then
                          r <- fields es' vs' (offset + Z.of_nat (length value));;
                          ok (U256 offset ++ fst r, value ++ snd r)
                        else
                          r <- fields es' vs' offset;;
                          ok (value ++ fst r, snd r)
                    end) elems l offset;;
            ok (fst r ++ snd r)
        | _ => Panic
        end
    | _ => packElement t v
    end.

(** [Arguments.Pack] on arguments of the given types: the same loop, with the
    number of arguments checked first. *)
Fixpoint pack_args (ts : list Ty) (vs : list val) (inputOffset : Z) : exn (list Z * list Z) :=
  match ts, vs with
  | t :: ts', v :: vs' =>
      packed <- pack t v;;
      if isDynamicType t then
        r <- pack_args ts' vs' (inputOffset + Z.of_nat (length packed));;
        ok (U256 inputOffset ++ fst r, packed ++ snd r)
      else
        r <- pack_args ts' vs' inputOffset;;
        ok (packed ++ fst r, snd r)
  | _, _ => ok ([], [])
  end.

Definition Arguments_Pack (ts : list Ty) (vs : list val) : exn (list Z) :=
  if negb (Nat.eqb (length vs) (length ts)) then err
  else
    let inputOffset := foldr (fun e acc => getTypeSize e + acc) 0 ts in
    r <- pack_args ts vs inputOffset;;
    ok (fst r ++ snd r).

(** ** Unpacking *)

(** [b[lo:hi]] and [b[lo:]]. *)
Definition slice (b : list Z) (lo hi : Z) : outcome (list Z) :=
  if (0 <=? lo) && (lo <=? hi) && (hi <=? Z.of_nat (length b))
  then Ret (take (Z.to_nat (hi - lo)) (drop (Z.to_nat lo) b)) else Panic.

Definition slice_from (b : list Z) (lo : Z) : outcome (list Z) := slice b lo (Z.of_nat (length b)).

Definition signed (width z : Z) : Z := if z <? 2 ^ (width - 1) then z else z - 2 ^ width.

(** The last [n] bytes, as [binary.BigEndian] reads them. *)
Definition low_bytes (n : nat) (b : list Z) : exn Z :=
  bs <- elift (slice_from b (Z.of_nat (length b) - Z.of_nat n));; ok (SetBytes bs).

Definition ReadInteger (unsigned : bool) (size : Z) (b : list Z) : exn val :=
  if (size =? 8) || (size =? 16) || (size =? 32) || (size =? 64) then
    z <- low_bytes (Z.to_nat (size / 8)) b;;
    ok (VInt unsigned size (if unsigned then z else signed size z))
  else
    let ret := SetBytes b in
    if unsigned then ok (VBig (Some ret))
    else if Z.testbit ret 255
    then ok (VBig (Some (- ((2 ^ 256 - 1) + - ret + 1))))
    else ok (VBig (Some ret)).

Definition readBool (word : list Z) : exn val :=
  front <- elift (slice word 0 31);;
  if negb (forallb (fun b => b =? 0) front) then err
  else
    match word !! 31%nat with
    | Some 0 => ok (VBool false)
    | Some 1 => ok (VBool true)
    | Some _ => err
    | None => Panic
    end.

Definition readFunctionType (word : list Z) : exn val :=
  garbage <- elift (slice word 24 32);;
  if negb (SetBytes garbage =? 0) then err
  else bs <- elift (slice word 0 24);; ok (VBytes true bs).

Definition ReadFixedBytes (size : nat) (word : list Z) : exn val :=
  bs <- elift (slice word 0 (Z.of_nat size));; ok (VBytes true bs).

(** The start and the length of a dynamic value. *)
Definition lengthPrefixPointsTo (index : Z) (output : list Z) : exn (Z * Z) :=
  word <- elift (slice output index (i64 (index + 32)));;
  let bigOffsetEnd := SetBytes word + 32 in
  let outputLength := Z.of_nat (length output) in
  if bigOffsetEnd >? outputLength then err
  else if bigOffsetEnd >=? 2 ^ 63 then err
  else
    let offsetEnd := bigOffsetEnd in
    lengthWord <- elift (slice output (offsetEnd - 32) offsetEnd);;
    let lengthBig := SetBytes lengthWord in
    let totalSize := bigOffsetEnd + lengthBig in
    if totalSize >=? 2 ^ 63 then err
    else if totalSize >? outputLength then err
    else ok (offsetEnd, lengthBig).

Definition tuplePointsTo (index : Z) (output : list Z) : exn Z :=
  word <- elift (slice output index (i64 (index + 32)));;
  let offset := SetBytes word in
  if offset >? Z.of_nat (length output) then err
  else if offset >=? 2 ^ 63 then err
  else ok offset.

(** The loop of [forEachUnpack], [f] decoding the element at an index. *)
Fixpoint unpack_elems (f : Z -> exn val) (elemSize i : Z) (n : nat) : exn (list val) :=
  match n with
  | O => ok []
  | S n' =>
      inter <- f i;;
      rest <- unpack_elems f elemSize (i64 (i + elemSize)) n';;
      ok (inter :: rest)
  end.

(** [forEachUnpack] from the start of the output, for an array or a slice. *)
Definition forEachUnpack (isarray : bool) (elem : Ty) (f : Z -> exn val) (output : list Z) (size : Z)
    : exn val :=
  if size <? 0 then err
  else if i64 (0 + 32 * size) >? Z.of_nat (length output) then err
  else
    _ <- elift (GetType (if isarray then ArrayTy (Z.to_nat size) elem else SliceTy elem));;
    l <- unpack_elems f (getTypeSize elem) 0 (Z.to_nat size);;
    ok (VSeq isarray (GetType_Kind elem) l).

(** The words an argument takes beyond the first. *)
Definition virtual_args (t : Ty) : Z :=
  match t with
  | ArrayTy _ _ | TupleTy _ => if negb (isDynamicType t) then Z.quot (getTypeSize t) 32 - 1 else 0
  | _ => 0
  end.

Fixpoint toGoType (t : Ty) (index : Z) (output : list Z) {struct t} : exn val :=
  if i64 (index + 32) >? Z.of_nat (length output) then err
  else
    match t with
    | TupleTy elems =>
        let forTupleUnpack output :=
          l <- (fix fields (es : list Ty) (pos : Z) : exn (list val) :=
                  match es with
                  | [] => ok []
                  | e :: es' =>
                      marshalled <- toGoType e (i64 (pos * 32)) output;;
                      rest <- fields es' (i64 (pos + 1 + virtual_args e));;
                      ok (marshalled :: rest)
                  end) elems 0;;
          ok (VStruct l) in
        _ <- elift (slice output index (i64 (index + 32)));;
        if isDynamicType t then
          begin <- tuplePointsTo index output;;
          tail <- elift (slice_from output begin);; forTupleUnpack tail
        else tail <- elift (slice_from output index);; forTupleUnpack tail
    | SliceTy elem =>
        p <- lengthPrefixPointsTo index output;;
        tail <- elift (slice_from output (fst p));;
        forEachUnpack false elem (fun i => toGoType elem i tail) tail (snd p)
    | ArrayTy size elem =>
        returnOutput <- elift (slice output index (i64 (index + 32)));;
        if isDynamicType elem then
          offset <- low_bytes 8 returnOutput;;
          if offset >? Z.of_nat (length output) then err
          else
            tail <- elift (slice_from output offset);;
            forEachUnpack true elem (fun i => toGoType elem i tail) tail (Z.of_nat size)
        else
          tail <- elift (slice_from output index);;
          forEachUnpack true elem (fun i => toGoType elem i tail) tail (Z.of_nat size)
    | StringTy =>
        p <- lengthPrefixPointsTo index output;;
        s <- elift (slice output (fst p) (fst p + snd p));; ok (VString s)
    | BytesTy =>
        p <- lengthPrefixPointsTo index output;;
        s <- elift (slice output (fst p) (fst p + snd p));; ok (VBytes false s)
    | IntTy size => w <- elift (slice output index (i64 (index + 32)));; ReadInteger false size w
    | UintTy size => w <- elift (slice output index (i64 (index + 32)));; ReadInteger true size w
    | BoolTy => w <- elift (slice output index (i64 (index + 32)));; readBool w
    | AddressTy => w <- elift (slice output index (i64 (index + 32)));; ok (VBytes true (BytesToAddress w))
    | FixedBytesTy size => w <- elift (slice output index (i64 (index + 32)));; ReadFixedBytes size w
    | FunctionTy => w <- elift (slice output index (i64 (index + 32)));; readFunctionType w
    end.

(** [Arguments.UnpackValues] and [Arguments.Unpack] on arguments none of which
    is indexed. *)
Fixpoint unpack_args (ts : list Ty) (pos : Z) (data : list Z) : exn (list val) :=
  match ts with
  | [] => ok []
  | t :: ts' =>
      marshalled <- toGoType t (i64 (pos * 32)) data;;
      rest <- unpack_args ts' (i64 (pos + 1 + virtual_args t)) data;;
      ok (marshalled :: rest)
  end.

Definition UnpackValues (ts : list Ty) (data : list Z) : exn (list val) := unpack_args ts 0 data.

Definition Arguments_Unpack (ts : list Ty) (data : list Z) : exn (list val) :=
  if Nat.eqb (length data) 0 then
    if negb (Nat.eqb (length ts) 0) then err else ok []
  else UnpackValues ts data.

End codec.
