(* ===== verification/AbiProps.v ===== *)
(** * The contract ABI codec: decoding inverts encoding (accounts/abi)

    Every well-typed value is encoded, and decoding the encoding, wherever it
    stands in the output, gives the value back; decoding arbitrary data never
    panics. *)
From S2P Require Import Prelude Abi.
Local Open Scope Z_scope.

(** ** Well-formed types and well-typed values

    The words a value takes where it stands, strings and slices taking one. *)
Fixpoint words (t : Ty) : Z :=
  match t with
  | ArrayTy n e => Z.of_nat n * words e
  | TupleTy es => foldr (fun e acc => words e + acc) 0 es
  | _ => 1
  end.

(** Arrays and tuples are not empty and have fewer than 2^57 words, of which no
    address space has room for a value. *)
Definition fits_words (t : Ty) : bool := words t <? 2 ^ 57.

Fixpoint wf_type (t : Ty) : bool :=
  match t with
  | SliceTy e => wf_type e
  | ArrayTy n e => fits_words t && negb (Nat.eqb n 0) && wf_type e
  | TupleTy es => fits_words t && negb (Nat.eqb (length es) 0) && forallb wf_type es
  | FixedBytesTy n => Nat.leb n 32
  | _ => true
  end.

Definition in_range (lo z hi : Z) : bool := (lo <=? z) && (z <? hi).

Definition is_byte (b : Z) : bool := in_range 0 b 256.

(** A byte slice or array of the given length. *)
Definition byte_array (isarray : bool) (size : option nat) (v : val) : bool :=
  match v with
  | VSeq a k l =>
      Bool.eqb a isarray && bool_decide (k = byte_kind) &&
      (match size with Some n => Nat.eqb (length l) n | None => true end) &&
      forallb (fun b => match b with VInt true 8 z => is_byte z | _ => false end) l
  | _ => false
  end.

(** The values of the Go type of an ABI type. *)
Fixpoint well_typed (t : Ty) (v : val) {struct t} : bool :=
  match t with
  | IntTy size =>
      match reflectIntType false size, v with
      | KInt _ _, VInt false w z => (w =? size) && in_range (- 2 ^ (size - 1)) z (2 ^ (size - 1))
      | KPtr, VBig (Some z) => in_range (- 2 ^ 255) z (2 ^ 255)
      | _, _ => false
      end
  | UintTy size =>
      match reflectIntType true size, v with
      | KInt _ _, VInt true w z => (w =? size) && in_range 0 z (2 ^ size)
      | KPtr, VBig (Some z) => in_range 0 z (2 ^ 256)
      | _, _ => false
      end
  | BoolTy => match v with VBool _ => true | _ => false end
  | StringTy => match v with VString s => forallb is_byte s | _ => false end
  | SliceTy e =>
      match v with
      | VSeq false k l => bool_decide (k = GetType_Kind e) && forallb (well_typed e) l
      | _ => false
      end
  | ArrayTy n e =>
      match v with
      | VSeq true k l =>
          bool_decide (k = GetType_Kind e) && Nat.eqb (length l) n && forallb (well_typed e) l
      | _ => false
      end
  | TupleTy es =>
      match v with
      | VStruct l =>
          (fix go (es : list Ty) (vs : list val) : bool :=
             match es, vs with
             | [], [] => true
             | e :: es', v :: vs' => well_typed e v && go es' vs'
             | _, _ => false
             end) es l
      | _ => false
      end
  | AddressTy => byte_array true (Some 20%nat) v
  | FixedBytesTy n => byte_array true (Some n) v
  | BytesTy => byte_array false None v
  | FunctionTy => byte_array true (Some 24%nat) v
  end.

(** ** Induction on types *)
Section Ty_induction.
Variable P : Ty -> Prop.
Hypotheses (HInt : forall s, P (IntTy s)) (HUint : forall s, P (UintTy s)) (HBool : P BoolTy)
  (HString : P StringTy) (HSlice : forall e, P e -> P (SliceTy e))
  (HArray : forall n e, P e -> P (ArrayTy n e)) (HTuple : forall es, Forall P es -> P (TupleTy es))
  (HAddress : P AddressTy) (HFixed : forall n, P (FixedBytesTy n)) (HBytes : P BytesTy)
  (HFunction : P FunctionTy).

Fixpoint Ty_nested_ind (t : Ty) : P t :=
  match t with
  | IntTy s => HInt s
  | UintTy s => HUint s
  | BoolTy => HBool
  | StringTy => HString
  | SliceTy e => HSlice e (Ty_nested_ind e)
  | ArrayTy n e => HArray n e (Ty_nested_ind e)
  | TupleTy es =>
      HTuple es
        ((fix go (es : list Ty) : Forall P es :=
            match es with
            | [] => Forall_nil_2 _
            | e :: es' => Forall_cons_2 _ _ _ (Ty_nested_ind e) (go es')
            end) es)
  | AddressTy => HAddress
  | FixedBytesTy n => HFixed n
  | BytesTy => HBytes
  | FunctionTy => HFunction
  end.

End Ty_induction.

(** ** Machine integers *)
Lemma i64_period a : exists k, i64 a = a + k * 18446744073709551616.
Proof.
  unfold i64, u64. pose proof (Z.div_mod a 18446744073709551616 ltac:(lia)). set (q := a / _) in *.
  destruct (_ <? _); [exists (- q)|exists (- q - 1)]; lia.
Qed.

Lemma i64_congr a k : i64 (a + k * 18446744073709551616) = i64 a.
Proof. unfold i64, u64. by rewrite Z.mod_add by lia. Qed.

Lemma i64_add a b : i64 (i64 a + b) = i64 (a + b).
Proof. destruct (i64_period a) as [k ->]. rewrite <- (i64_congr (a + b) k). f_equal. lia. Qed.

Lemma i64_mul a b : i64 (i64 a * b) = i64 (a * b).
Proof. destruct (i64_period a) as [k ->]. rewrite <- (i64_congr (a * b) (k * b)). f_equal. lia. Qed.

(** ** Bytes *)
Lemma length_be n : forall z, length (be n z) = n.
Proof. induction n as [|n IH]; intros z; cbn; [done|]. rewrite length_app, IH. cbn. lia. Qed.

Section codec.
Context `{CL : CommonLib} `{LW : !CommonLaws CL}.

Lemma U256_be z : U256 z = be 32 (z mod 2 ^ 256).
Proof.
  unfold U256. rewrite math_U256_spec. apply PaddedBigBytes_spec. change (256 ^ Z.of_nat 32) with (2 ^ 256).
  by apply Z.mod_pos_bound.
Qed.

Lemma length_U256 z : length (U256 z) = 32%nat.
Proof. rewrite U256_be. apply length_be. Qed.

Lemma SetBytes_app a b : SetBytes (a ++ [b]) = SetBytes a * 256 + b.
Proof. unfold SetBytes. by rewrite foldl_app. Qed.

Lemma SetBytes_be n : forall z, SetBytes (be n z) = z mod 256 ^ Z.of_nat n.
Proof.
  induction n as [|n IH]; intros z; cbn [be]; [cbn; by rewrite Z.mod_1_r|].
  rewrite SetBytes_app, IH, Nat2Z.inj_succ, Z.pow_succ_r by lia.
  rewrite (Z.rem_mul_r z 256) by lia. lia.
Qed.

Lemma drop_be m n : forall z, drop m (be (m + n) z) = be n z.
Proof.
  revert m. induction n as [|n IH]; intros m z.
  - rewrite drop_ge; [done|]. rewrite length_be. lia.
  - rewrite Nat.add_succ_r. cbn [be]. rewrite drop_app_le by (rewrite length_be; lia). by rewrite IH.
Qed.

Lemma SetBytes_U256 z : 0 <= z < 2 ^ 256 -> SetBytes (U256 z) = z.
Proof.
  intros Hz. rewrite U256_be. rewrite SetBytes_be. change (256 ^ Z.of_nat 32) with (2 ^ 256).
  rewrite (Z.mod_small z) by lia. apply Z.mod_small. lia.
Qed.

(** The low [n] bytes of a word. *)
Lemma low_U256 n z : (n <= 32)%nat ->
  SetBytes (drop (32 - n) (U256 z)) = (z mod 2 ^ 256) mod 256 ^ Z.of_nat n.
Proof.
  intros Hn. rewrite U256_be. replace 32%nat with ((32 - n) + n)%nat at 2 by lia. rewrite drop_be.
  apply SetBytes_be.
Qed.

(** ** Positions in the output *)
Definition stands (output : list Z) (i : Z) (bs : list Z) : Prop :=
  0 <= i /\ bs `prefix_of` drop (Z.to_nat i) output.

Lemma stands_app output i a b :
  stands output i (a ++ b) <-> stands output i a /\ stands output (i + Z.of_nat (length a)) b.
Proof.
  unfold stands. split.
  - intros [Hi [r Hr]]. rewrite <- app_assoc in Hr. split; [split; [done|by exists (b ++ r)]|].
    split; [lia|]. exists r. replace (Z.to_nat (i + Z.of_nat (length a))) with (Z.to_nat i + length a)%nat by lia.
    by rewrite <- drop_drop, Hr, drop_app_length.
  - intros [[Hi [r Hr]] [_ [r' Hr']]]. split; [done|]. exists r'.
    replace (Z.to_nat (i + Z.of_nat (length a))) with (Z.to_nat i + length a)%nat in Hr' by lia.
    rewrite <- drop_drop, Hr, drop_app_length in Hr'. by rewrite Hr, Hr', app_assoc.
Qed.

Lemma stands_length output i bs :
  stands output i bs -> bs <> [] -> i + Z.of_nat (length bs) <= Z.of_nat (length output).
Proof.
  intros [Hi Hp] Hne. apply prefix_length in Hp. rewrite length_drop in Hp.
  destruct bs; [done|]. cbn [length] in *. lia.
Qed.

Lemma stands_slice output i bs j :
  stands output i bs -> j = i + Z.of_nat (length bs) -> j <= Z.of_nat (length output) ->
  slice output i j = Ret bs.
Proof.
  intros [Hi [r Hr]] -> Hl. unfold slice. destruct (Z.leb_spec 0 i); [|lia].
  destruct (Z.leb_spec i (i + Z.of_nat (length bs))); [|lia].
  destruct (Z.leb_spec (i + Z.of_nat (length bs)) (Z.of_nat (length output))); [|lia]. cbn [andb].
  rewrite Hr. replace (Z.to_nat (i + Z.of_nat (length bs) - i)) with (length bs) by lia.
  by rewrite take_app_length.
Qed.

Lemma slice_from_ok output i :
  0 <= i <= Z.of_nat (length output) -> slice_from output i = Ret (drop (Z.to_nat i) output).
Proof.
  intros Hi. unfold slice_from, slice.
  destruct (Z.leb_spec 0 i); [|lia]. destruct (Z.leb_spec i (Z.of_nat (length output))); [|lia].
  rewrite Z.leb_refl. cbn [andb]. rewrite take_ge; [done|]. rewrite length_drop. lia.
Qed.

Lemma stands_drop output i j bs :
  0 <= i -> 0 <= j -> stands output (i + j) bs <-> stands (drop (Z.to_nat i) output) j bs.
Proof.
  intros Hi Hj. unfold stands. rewrite drop_drop.
  replace (Z.to_nat i + Z.to_nat j)%nat with (Z.to_nat (i + j)) by lia.
  split; (intros [_ ?]; split; [lia|done]).
Qed.

(** ** Sizes *)
Definition head_size (ts : list Ty) : Z := foldr (fun e acc => getTypeSize e + acc) 0 ts.

Lemma array_size n e : isDynamicType e = false -> getTypeSize (ArrayTy n e) = i64 (Z.of_nat n * getTypeSize e).
Proof. intros Hd. cbn [getTypeSize]. rewrite Hd. cbn [negb]. by destruct e. Qed.

Lemma dynamic_size t : isDynamicType t = true -> getTypeSize t = 32.
Proof.
  intros Hd. destruct t; try done; cbn [getTypeSize]; [|by rewrite Hd].
  cbn [isDynamicType] in Hd. by rewrite Hd.
Qed.

(** The words of the parts of a type. *)
Lemma wf_array n e : wf_type (ArrayTy n e) = true -> (1 <= n)%nat /\ wf_type e = true /\ Z.of_nat n * words e < 2 ^ 57.
Proof.
  cbn [wf_type]. intros [[Hf%Z.ltb_lt Hn%negb_true_iff%Nat.eqb_neq]%andb_true_iff He]%andb_true_iff. split_and!; [lia|done|done].
Qed.

Lemma wf_tuple es : wf_type (TupleTy es) = true -> es <> [] /\ forallb wf_type es = true /\ words (TupleTy es) < 2 ^ 57.
Proof.
  cbn [wf_type]. intros [[Hf%Z.ltb_lt Hn%negb_true_iff%Nat.eqb_neq]%andb_true_iff He]%andb_true_iff. split_and!; [|done|done]. by intros ->.
Qed.

Definition small_size (t : Ty) : Prop := exists k, 1 <= k <= words t /\ k < 2 ^ 57 /\ getTypeSize t = 32 * k.

(** The sizes of the fields of a tuple do not wrap. *)
Lemma tuple_words es : Forall small_size es -> words (TupleTy es) < 2 ^ 57 ->
  exists k, Z.of_nat (length es) <= k <= words (TupleTy es) /\ head_size es = 32 * k /\
    foldr (fun e acc => i64 (getTypeSize e + acc)) 0 es = 32 * k.
Proof.
  induction 1 as [|e es (k & Hk & _ & Ek) _ IH]; intros Hb; [by exists 0|]. cbn [words foldr] in Hb. fold (words (TupleTy es)) in Hb.
  destruct IH as (m & Hm & E1 & E2).
  { change (words (TupleTy es)) with (foldr (fun e acc => words e + acc) 0 es). lia. }
  change (words (TupleTy es)) with (foldr (fun e acc => words e + acc) 0 es) in *.
  exists (k + m). cbn [words length foldr head_size]. unfold head_size in E1. rewrite E1, E2, Ek. split_and!; [lia..|]. rewrite i64_small; lia.
Qed.

(** A type takes a positive number of words where it stands. *)
Lemma type_words t : wf_type t = true -> small_size t.
Proof.
  induction t as [| | | |e _|n e IH|es IH| | | |] using Ty_nested_ind; intros Hw;
    try (exists 1; split_and!; [cbn; lia|cbn; lia|lia|done]).
  - apply wf_array in Hw as (Hn & Hw & Hf). destruct (IH Hw) as (k & Hk & _ & Ek). unfold small_size. cbn [words].
    destruct (isDynamicType e) eqn:Hd.
    + exists 1. rewrite dynamic_size by done. nia.
    + rewrite array_size by done. exists (Z.of_nat n * k). rewrite Ek, i64_small; nia.
  - apply wf_tuple in Hw as (Hn & Hw & Hf). destruct (tuple_words es) as (k & Hk & _ & Ek); [|done|].
    { rewrite Forall_forall in IH |- *. intros e He. apply IH; [done|]. rewrite forallb_forall in Hw. apply Hw. by apply list_elem_of_In. }
    assert (1 <= Z.of_nat (length es)) by (destruct es; [done|cbn; lia]). destruct (isDynamicType (TupleTy es)) eqn:Hd.
    + exists 1. rewrite dynamic_size by done. lia.
    + exists k. split_and!; [lia..|]. cbn [getTypeSize]. by rewrite Hd.
Qed.

Lemma wf_small ts : forallb wf_type ts = true -> Forall small_size ts.
Proof.
  intros Hw. apply Forall_forall. intros t Ht. apply type_words. rewrite forallb_forall in Hw. apply Hw. by apply list_elem_of_In.
Qed.

Lemma wf_array_size n e : wf_type (ArrayTy n e) = true -> isDynamicType e = false ->
  getTypeSize (ArrayTy n e) = Z.of_nat n * getTypeSize e.
Proof.
  intros (Hn & Hw & Hf)%wf_array Hd. destruct (type_words e Hw) as (k & Hk & _ & Ek). rewrite array_size, Ek, i64_small by (done || nia). done.
Qed.

Lemma tuple_size es : wf_type (TupleTy es) = true -> isDynamicType (TupleTy es) = false -> getTypeSize (TupleTy es) = head_size es.
Proof.
  intros (_ & Hw & Hf)%wf_tuple Hd. destruct (tuple_words es (wf_small es Hw) Hf) as (k & _ & -> & E). cbn [getTypeSize]. by rewrite Hd.
Qed.

Lemma type_size t : wf_type t = true ->
  getTypeSize t = 32 * (1 + virtual_args t) /\ 0 <= virtual_args t /\ getTypeSize t < 2 ^ 62.
Proof.
  intros Hw. destruct (type_words t Hw) as (k & Hk & Hb & Ek). unfold virtual_args.
  assert (Hdiv : Z.quot (getTypeSize t) 32 - 1 = k - 1) by (rewrite Ek, Z.mul_comm, Z.quot_mul; lia).
  destruct t; try (rewrite ?Hdiv; cbn [getTypeSize] in Ek |- *; lia);
    match goal with |- context [isDynamicType ?t] => destruct (isDynamicType t) eqn:Hd end;
    cbn [negb]; rewrite ?(dynamic_size _ Hd), ?Hdiv, ?Ek; lia.
Qed.

Lemma head_size_words ts : forallb wf_type ts = true -> 32 * Z.of_nat (length ts) <= head_size ts.
Proof.
  induction ts as [|t ts IH]; cbn; [lia|]. intros [Ht Hts]%andb_true_iff.
  destruct (type_size t Ht). specialize (IH Hts). unfold head_size in IH. lia.
Qed.

(** ** Go types

    The Go type of a type takes at most the bytes of its words, so it exists. *)
Lemma align_le x a m : 0 < a -> (a | m) -> x <= m -> align x a <= m.
Proof.
  intros Ha [k ->] Hx. unfold align. apply Z.mul_le_mono_nonneg_r; [lia|].
  assert ((x + a - 1) / a < k + 1); [|lia]. apply Z.div_lt_upper_bound; lia.
Qed.

Lemma align_ge x a : 0 < a -> x <= align x a.
Proof. intros Ha. unfold align. pose proof (Z.mod_pos_bound (x + a - 1) a Ha). pose proof (Z.div_mod (x + a - 1) a). lia. Qed.

Definition aligned (a : Z) : Prop := a = 1 \/ a = 2 \/ a = 4 \/ a = 8.

Lemma aligned_max a b : aligned a -> aligned b -> aligned (Z.max a b).
Proof. unfold aligned. intros [->|[->|[->| ->]]] [->|[->|[->| ->]]]; cbn; auto. Qed.

Lemma aligned_divides a m : aligned a -> 0 < a /\ (a | 32 * m).
Proof.
  intros Ha. split; [destruct Ha as [->|[->|[->| ->]]]; lia|].
  apply Z.divide_mul_l. destruct Ha as [->|[->|[->| ->]]]; [exists 32|exists 16|exists 8|exists 4]; lia.
Qed.

Definition laid (l : Z * Z) (w : Z) : Prop := 0 <= fst l <= 32 * w /\ aligned (snd l).

Lemma fields_laid fields ws : Forall2 laid fields ws -> Forall (fun w => 1 <= w) ws -> forall size al lz m,
  0 <= size <= 32 * m -> aligned al -> lz <= size -> (lz = size -> size + 1 <= 32 * m \/ size = 0) ->
  let '(size', al', lz') := foldl add_field (size, al, lz) fields in
  let M := 32 * (m + foldr Z.add 0 ws) in
  0 <= size' <= M /\ aligned al' /\ (lz' = size' -> size' + 1 <= M \/ size' = 0).
Proof.
  induction 1 as [|[s a] w fields ws [[Hs1 Hs2] Ha] _ IH]; intros Hw size al lz m Hsz Hal Hlz Hz; cbn [foldl foldr].
  { rewrite Z.add_0_r. done. }
  apply Forall_cons in Hw as [Hw1 Hw]. cbn [fst snd] in *. destruct (aligned_divides a m Ha) as [Hpos Hdiv].
  pose proof (align_le size a (32 * m) Hpos Hdiv ltac:(lia)) as Hup. pose proof (align_ge size a Hpos).
  specialize (IH Hw (align size a + s) (Z.max al a) (if s =? 0 then align size a + s else lz) (m + w)).
  replace (m + (w + foldr Z.add 0 ws)) with (m + w + foldr Z.add 0 ws) by lia. apply IH.
  - lia.
  - by apply aligned_max.
  - destruct (s =? 0); lia.
  - intros E. destruct (Z.eqb_spec s 0); [left|]; lia.
Qed.

Lemma StructOf_laid fields ws : Forall2 laid fields ws -> Forall (fun w => 1 <= w) ws -> laid (StructOf fields) (foldr Z.add 0 ws).
Proof.
  intros Hf Hw. unfold StructOf. pose proof (fields_laid fields ws Hf Hw 0 1 0 0 ltac:(lia) (or_introl eq_refl) ltac:(lia) ltac:(lia)) as H.
  destruct (foldl add_field (0, 1, 0) fields) as [[size al] lz]. destruct H as (Hs & Hal & Hz). rewrite Z.add_0_l in *.
  destruct (aligned_divides al (foldr Z.add 0 ws) Hal) as [Hpos Hdiv]. split; [|done]. cbn [fst].
  set (size' := if (0 <? size) && (lz =? size) then size + 1 else size). assert (0 <= size' <= 32 * foldr Z.add 0 ws).
  { unfold size'. destruct (Z.ltb_spec 0 size), (Z.eqb_spec lz size); cbn [andb]; lia. }
  pose proof (align_le size' al _ Hpos Hdiv ltac:(lia)). pose proof (align_ge size' al Hpos). lia.
Qed.

Lemma words_pos t : wf_type t = true -> 1 <= words t.
Proof. intros Hw. destruct (type_words t Hw) as (k & Hk & _). lia. Qed.

Lemma int_laid size : laid (int_layout size) 1.
Proof.
  unfold int_layout, laid, aligned. destruct (_ || _) eqn:Hm; [|cbn; lia]. rewrite !orb_true_iff, !Z.eqb_eq in Hm.
  destruct Hm as [[[->| ->]| ->]| ->]; (split; [split; done|vm_compute; auto]).
Qed.

Lemma layout_laid t : wf_type t = true -> laid (layout t) (words t).
Proof.
  induction t as [s|s| | |e _|n e IH|es IH| |n| |] using Ty_nested_ind; intros Hw; cbn [layout words]; unfold laid, aligned;
    try (cbn; lia).
  - apply int_laid.
  - apply int_laid.
  - apply wf_array in Hw as (Hn & Hw & _). destruct (IH Hw) as [[H1 H2] H3]. cbn [fst snd]. split; [nia|done].
  - apply wf_tuple in Hw as (_ & Hw & _). rewrite forallb_forall in Hw.
    replace (foldr (fun e acc => words e + acc) 0 es) with (foldr Z.add 0 (words <$> es)) by (clear; induction es; cbn; congruence).
    apply StructOf_laid.
    + apply Forall2_fmap_2, Forall_Forall2_diag. rewrite Forall_forall in IH |- *. intros e He. apply IH; [done|]. apply Hw. by apply list_elem_of_In.
    + apply Forall_fmap, Forall_forall. intros e He. apply words_pos, Hw. by apply list_elem_of_In.
  - cbn in Hw. apply Nat.leb_le in Hw. cbn. lia.
Qed.

Lemma wf_GetType t : wf_type t = true -> GetType_ok t = true.
Proof.
  induction t as [| | | |e IH|n e IH|es _| | | |] using Ty_nested_ind; intros Hw; try done; cbn [GetType_ok].
  - by apply IH.
  - apply wf_array in Hw as (Hn & Hw & Hf). rewrite (IH Hw). cbn [andb]. apply Z.leb_le.
    destruct (layout_laid e Hw) as [[H1 H2] _]. unfold MaxUint64. nia.
Qed.

(** ** Sequences and tuples are encoded as argument lists *)
Lemma pack_elems_args e l : forall off,
  pack_elems (pack e) (isDynamicType e) off l = pack_args (replicate (length l) e) l off.
Proof.
  induction l as [|v l IH]; intros off; cbn [pack_elems pack_args replicate length]; [done|].
  destruct (pack e v) as [[enc|]| |]; cbn [ebind]; try done.
  destruct (isDynamicType e); cbn [negb]; by rewrite IH.
Qed.

Lemma pack_tuple es vs : length vs = length es ->
  pack (TupleTy es) (VStruct vs) =
  (r <- pack_args es vs (head_size es);; ok (fst r ++ snd r)).
Proof.
  intros Hl. unfold head_size. cbn [pack typeCheck kind_of]. unfold GetType. cbn [GetType_ok GetType_Kind mbind outcome_bind elift ok ebind].
  rewrite bool_decide_eq_true_2 by done. cbn [negb].
  match goal with |- ebind (?f _ _ _) _ = _ =>
    assert (G : forall es vs off, length vs = length es -> f es vs off = pack_args es vs off) end.
  { clear. induction es as [|e es IH]; intros vs off Hl; [by destruct vs|].
    destruct vs as [|v vs]; [done|]. injection Hl as Hl. cbn [pack_args].
    destruct (pack e v) as [[enc|]| |]; cbn [ebind]; try done.
    destruct (isDynamicType e); by rewrite IH. }
  by rewrite G.
Qed.

Lemma unpack_elems_args e output : getTypeSize e = 32 * (1 + virtual_args e) -> forall n pos,
  unpack_elems (fun i => toGoType e i output) (getTypeSize e) (i64 (pos * 32)) n =
  unpack_args (replicate n e) pos output.
Proof.
  intros Hs n. induction n as [|n IH]; intros pos; cbn [unpack_elems unpack_args replicate]; [done|].
  destruct (toGoType e (i64 (pos * 32)) output) as [[v|]| |]; cbn [ebind]; try done.
  rewrite <- IH, i64_add, i64_mul. by replace ((pos + 1 + virtual_args e) * 32) with (pos * 32 + getTypeSize e) by lia.
Qed.

Lemma unpack_tuple es index output :
  toGoType (TupleTy es) index output =
  (if i64 (index + 32) >? Z.of_nat (length output) then err
   else
     _ <- elift (slice output index (i64 (index + 32)));;
     if isDynamicType (TupleTy es) then
       begin <- tuplePointsTo index output;;
       tail <- elift (slice_from output begin);;
       l <- unpack_args es 0 tail;; ok (VStruct l)
     else
       tail <- elift (slice_from output index);;
       l <- unpack_args es 0 tail;; ok (VStruct l)).
Proof.
  assert (G : forall tail es pos,
    (fix fields (es : list Ty) (pos : Z) : exn (list val) :=
       match es with
       | [] => ok []
       | e :: es' =>
           marshalled <- toGoType e (i64 (pos * 32)) tail;;
           rest <- fields es' (i64 (pos + 1 + virtual_args e));;
           ok (marshalled :: rest)
       end) es pos = unpack_args es pos tail).
  { clear. intros tail. induction es as [|e es IH]; intros pos; [done|]. cbn [unpack_args].
    destruct (toGoType e (i64 (pos * 32)) tail) as [[v|]| |]; cbn [ebind]; try done. by rewrite IH. }
  cbn [toGoType]. destruct (_ >? _); [done|].
  destruct (elift (slice output index (i64 (index + 32)))) as [[w|]| |]; cbn [ebind]; try done.
  destruct (isDynamicType (TupleTy es)).
  - destruct (tuplePointsTo index output) as [[b|]| |]; cbn [ebind]; try done.
    destruct (elift (slice_from output b)) as [[tl|]| |]; cbn [ebind]; try done. by rewrite G.
  - destruct (elift (slice_from output index)) as [[tl|]| |]; cbn [ebind]; try done. by rewrite G.
Qed.

(** ** Type checks of well-typed values *)
Lemma byte_array_inv a size v : byte_array a size v = true ->
  exists bs, v = VBytes a bs /\ match size with Some n => length bs = n | None => True end.
Proof.
  destruct v as [| | | |a' k l|]; try done. cbn.
  intros [[[Ha Hk]%andb_true_iff Hs]%andb_true_iff Hl]%andb_true_iff.
  apply Bool.eqb_prop in Ha as ->. apply bool_decide_eq_true_1 in Hk as ->.
  assert (exists bs, l = VInt true 8 <$> bs) as [bs ->].
  { clear Hs. induction l as [|b l IH]; [by exists []|]. cbn in Hl. apply andb_true_iff in Hl as [Hb Hl].
    destruct (IH Hl) as [bs ->]. destruct b as [[|] w z| | | | |]; try done.
    exists (z :: bs). cbn. do 2 f_equal. destruct w as [|p|p]; try done.
    do 4 (destruct p as [p|p|]; try done). }
  exists bs. split; [done|]. destruct size; [|done]. apply Nat.eqb_eq in Hs. by rewrite length_fmap in Hs.
Qed.

Lemma byte_slice_VBytes a bs : byte_slice (VBytes a bs) = ok bs.
Proof.
  unfold byte_slice, VBytes. rewrite bool_decide_eq_true_2 by done.
  induction bs as [|b bs IH]; [done|]. cbn. by rewrite IH.
Qed.

Lemma typeCheck_ok t : GetType_ok t = true -> forall v, well_typed t v = true -> typeCheck t v = Ret true.
Proof.
  induction t as [s|s| | |e IH|n e IH|es _| |n| |] using Ty_nested_ind; intros Hg v Hv; cbn in Hv.
  - cbn. unfold reflectIntType in *. destruct (_ || _) in *.
    + destruct v as [[|] w z| | | | |]; try done. apply andb_true_iff in Hv as [->%Z.eqb_eq _].
      by rewrite bool_decide_eq_true_2.
    + by destruct v as [|[z|]| | | |].
  - cbn. unfold reflectIntType in *. destruct (_ || _) in *.
    + destruct v as [[|] w z| | | | |]; try done. apply andb_true_iff in Hv as [->%Z.eqb_eq _].
      by rewrite bool_decide_eq_true_2.
    + by destruct v as [|[z|]| | | |].
  - by destruct v.
  - by destruct v.
  - destruct v as [| | | |[|] k l|]; try done. cbn [GetType_ok] in Hg.
    apply andb_true_iff in Hv as [->%bool_decide_eq_true_1 Hl]. cbn. unfold GetType. rewrite Hg. cbn [mbind outcome_bind].
    destruct l as [|v0 l]; [by destruct e; rewrite bool_decide_eq_true_2|].
    cbn in Hl. apply andb_true_iff in Hl as [H0%(IH Hg) _]. destruct e; try done; by rewrite bool_decide_eq_true_2.
  - destruct v as [| | | |[|] k l|]; try done. cbn [GetType_ok] in Hg. apply andb_true_iff in Hg as [Hg _].
    apply andb_true_iff in Hv as [[->%bool_decide_eq_true_1 Hn]%andb_true_iff Hl]. cbn. rewrite Hn. cbn [negb].
    unfold GetType. rewrite Hg. cbn [mbind outcome_bind].
    destruct l as [|v0 l]; [by destruct e; rewrite bool_decide_eq_true_2|].
    cbn in Hl. apply andb_true_iff in Hl as [H0%(IH Hg) _]. destruct e; try done; by rewrite bool_decide_eq_true_2.
  - by destruct v.
  - apply byte_array_inv in Hv as (bs & -> & _). done.
  - apply byte_array_inv in Hv as (bs & -> & Hl). cbn. rewrite length_fmap. f_equal. by apply Nat.eqb_eq.
  - apply byte_array_inv in Hv as (bs & -> & _). done.
  - apply byte_array_inv in Hv as (bs & -> & _). done.
Qed.

(** ** The codec of one type

    Where an encoding stands: in place for a static type, at the offset written
    in place for a dynamic one. *)
Definition stored (t : Ty) (index : Z) (output enc : list Z) : Prop :=
  if isDynamicType t
  then exists off, stands output index (U256 off) /\ stands output off enc
  else stands output index enc.

Definition codec_ok (t : Ty) : Prop :=
  forall v, well_typed t v = true ->
    exists enc, pack t v = ok enc /\ 32 <= Z.of_nat (length enc) /\
      (isDynamicType t = false -> Z.of_nat (length enc) = getTypeSize t) /\
      forall index output, Z.of_nat (length output) < 2 ^ 63 ->
        stored t index output enc -> toGoType t index output = ok v.

(** A word in place. *)
Lemma word_at output index w : Z.of_nat (length output) < 2 ^ 63 ->
  stands output index w -> length w = 32%nat ->
  (i64 (index + 32) >? Z.of_nat (length output)) = false /\ slice output index (i64 (index + 32)) = Ret w.
Proof.
  intros Hlen Hs Hw. assert (Hl : index + 32 <= Z.of_nat (length output)).
  { pose proof (stands_length _ _ _ Hs) as Hl. rewrite Hw in Hl. apply Hl. by intros ->. }
  rewrite i64_small by (destruct Hs; lia). split; [by rewrite Z.gtb_ltb, Z.ltb_ge|]. apply stands_slice; [done|lia|done].
Qed.

Lemma low_bytes_U256 n z : (n <= 32)%nat ->
  low_bytes n (U256 z) = ok ((z mod 2 ^ 256) mod 256 ^ Z.of_nat n).
Proof.
  intros Hn. unfold low_bytes. rewrite length_U256, slice_from_ok by (rewrite length_U256; lia).
  cbn [elift ok ebind]. replace (Z.to_nat (Z.of_nat 32 - Z.of_nat n)) with (32 - n)%nat by lia.
  by rewrite low_U256.
Qed.

(** Reading back a signed integer of any width up to 256. *)
Lemma signed_mod s z : 0 < s <= 256 -> - 2 ^ (s - 1) <= z < 2 ^ (s - 1) ->
  signed s ((z mod 2 ^ 256) mod 2 ^ s) = z.
Proof.
  intros Hs Hz. assert (Hp : 2 ^ s = 2 * 2 ^ (s - 1)) by (rewrite <- Z.pow_succ_r by lia; f_equal; lia).
  assert (0 < 2 ^ (s - 1)) by lia.
  replace (2 ^ 256) with (2 ^ s * 2 ^ (256 - s)) by (rewrite <- Z.pow_add_r by lia; f_equal; lia).
  assert (0 < 2 ^ (256 - s)) by lia.
  rewrite Z.rem_mul_r, Z.mul_comm, Z.mod_add, Z.mod_mod by lia.
  unfold signed. destruct (decide (0 <= z)).
  - rewrite Z.mod_small by lia. destruct (Z.ltb_spec z (2 ^ (s - 1))); lia.
  - replace (z mod 2 ^ s) with (z + 2 ^ s)
      by (apply (Z.mod_unique _ _ (-1)); [left; lia|lia]).
    destruct (Z.ltb_spec (z + 2 ^ s) (2 ^ (s - 1))); lia.
Qed.

Lemma unsigned_mod s z : 0 < s <= 256 -> 0 <= z < 2 ^ s -> (z mod 2 ^ 256) mod 2 ^ s = z.
Proof.
  intros Hs Hz. assert (2 ^ s <= 2 ^ 256) by (apply Z.pow_le_mono_r; lia).
  rewrite (Z.mod_small z) by lia. apply Z.mod_small. lia.
Qed.

Lemma machine_width size :
  (size =? 8) || (size =? 16) || (size =? 32) || (size =? 64) = true ->
  0 < size <= 256 /\ (Z.to_nat (size / 8) <= 32)%nat /\ 256 ^ Z.of_nat (Z.to_nat (size / 8)) = 2 ^ size.
Proof. rewrite !orb_true_iff, !Z.eqb_eq. intros [[[->| ->]| ->]| ->]; (split; [lia|split; [by apply Nat.leb_le|done]]). Qed.

Lemma ReadInteger_int size v enc :
  well_typed (IntTy size) v = true -> packNum v = ok enc -> ReadInteger false size enc = ok v.
Proof.
  cbn [well_typed]. unfold reflectIntType, ReadInteger. destruct (_ || _) eqn:Hm.
  - destruct v as [[|] w z| | | | |]; try done. intros [->%Z.eqb_eq Hz]%andb_true_iff [= <-].
    destruct (machine_width _ Hm) as (Hs & Hn & Hp). rewrite low_bytes_U256, Hp by done. cbn [ebind ok].
    unfold in_range in Hz. apply andb_true_iff in Hz as [H1%Z.leb_le H2%Z.ltb_lt].
    by rewrite signed_mod by lia.
  - destruct v as [|[z|]| | | |]; try done. unfold in_range.
    intros [H1%Z.leb_le H2%Z.ltb_lt]%andb_true_iff [= <-].
    rewrite U256_be, SetBytes_be. change (256 ^ Z.of_nat 32) with (2 ^ 256). rewrite Z.mod_mod by lia.
    destruct (decide (0 <= z)).
    + rewrite Z.mod_small by lia. assert (Z.testbit z 255 = false) as ->; [|done].
      apply Z.testbit_false; [lia|]. by rewrite Z.div_small by lia.
    + replace (z mod 2 ^ 256) with (z + 2 ^ 256)
        by (apply (Z.mod_unique _ _ (-1)); [left; lia|lia]).
      assert (Z.testbit (z + 2 ^ 256) 255 = true) as ->.
      { apply Z.testbit_true; [lia|].
        replace ((z + 2 ^ 256) / 2 ^ 255) with 1; [done|].
        apply (Z.div_unique _ _ _ (z + 2 ^ 255)); [left; lia|lia]. }
      do 4 f_equal. lia.
Qed.

Lemma ReadInteger_uint size v enc :
  well_typed (UintTy size) v = true -> packNum v = ok enc -> ReadInteger true size enc = ok v.
Proof.
  cbn [well_typed]. unfold reflectIntType, ReadInteger. destruct (_ || _) eqn:Hm.
  - destruct v as [[|] w z| | | | |]; try done. intros [->%Z.eqb_eq Hz]%andb_true_iff [= <-].
    destruct (machine_width _ Hm) as (Hs & Hn & Hp). rewrite low_bytes_U256, Hp by done. cbn [ebind ok].
    unfold in_range in Hz. apply andb_true_iff in Hz as [H1%Z.leb_le H2%Z.ltb_lt].
    by rewrite unsigned_mod by lia.
  - destruct v as [|[z|]| | | |]; try done. unfold in_range.
    intros [H1%Z.leb_le H2%Z.ltb_lt]%andb_true_iff [= <-]. by rewrite SetBytes_U256 by lia.
Qed.

Lemma packNum_word t v : (exists s, t = IntTy s \/ t = UintTy s) -> well_typed t v = true ->
  exists z, packNum v = ok (U256 z).
Proof.
  intros [s [-> | ->]]; cbn; unfold reflectIntType; destruct (_ || _);
    destruct v as [u w z|[z|]| | | |]; try done; try destruct u; try done; cbn; eauto.
Qed.

(** A static type of one word. *)
Lemma codec_word t :
  isDynamicType t = false -> getTypeSize t = 32 ->
  (forall v, well_typed t v = true -> exists w, pack t v = ok w /\ length w = 32%nat /\
     forall index output, (i64 (index + 32) >? Z.of_nat (length output)) = false ->
       slice output index (i64 (index + 32)) = Ret w -> toGoType t index output = ok v) ->
  codec_ok t.
Proof.
  intros Hd Hs H v Hv. destruct (H v Hv) as (w & Hp & Hl & Hdec). exists w.
  rewrite Hs, Hl. split_and!; [done|lia|done|]. intros index output Hlen. unfold stored. rewrite Hd.
  intros Hst. destruct (word_at _ _ _ Hlen Hst Hl). by apply Hdec.
Qed.

Lemma pack_typed t v : well_typed t v = true -> GetType_ok t = true ->
  pack t v =
  match t with
  | SliceTy elem =>
      match v with
      | VSeq _ _ l =>
          r <- pack_args (replicate (length l) elem) l
                 (if isDynamicType elem then getTypeSize elem * Z.of_nat (length l) else 0);;
          ok (U256 (Z.of_nat (length l)) ++ fst r ++ snd r)
      | _ => Panic
      end
  | ArrayTy _ elem =>
      match v with
      | VSeq _ _ l =>
          r <- pack_args (replicate (length l) elem) l
                 (if isDynamicType elem then getTypeSize elem * Z.of_nat (length l) else 0);;
          ok (fst r ++ snd r)
      | _ => Panic
      end
  | TupleTy _ => pack t v
  | _ => packElement t v
  end.
Proof.
  intros Hv Hg. apply (typeCheck_ok t Hg) in Hv. destruct t; try done; cbn [pack]; rewrite Hv; cbn [elift ok ebind negb]; try done;
    destruct v; try done; by rewrite pack_elems_args.
Qed.

Lemma codec_int size : codec_ok (IntTy size).
Proof.
  apply codec_word; [done..|]. intros v Hv. destruct (packNum_word (IntTy size) v) as [z Hz]; [eauto|done|].
  exists (U256 z). rewrite (pack_typed _ _ Hv eq_refl). split_and!; [done|apply length_U256|].
  intros index output Hi Hs. cbn. rewrite Hi, Hs. by apply ReadInteger_int.
Qed.

Lemma codec_uint size : codec_ok (UintTy size).
Proof.
  apply codec_word; [done..|]. intros v Hv. destruct (packNum_word (UintTy size) v) as [z Hz]; [eauto|done|].
  exists (U256 z). rewrite (pack_typed _ _ Hv eq_refl). split_and!; [done|apply length_U256|].
  intros index output Hi Hs. cbn. rewrite Hi, Hs. by apply ReadInteger_uint.
Qed.

Lemma codec_bool : codec_ok BoolTy.
Proof.
  apply codec_word; [done..|]. intros v Hv. rewrite (pack_typed _ _ Hv eq_refl). destruct v as [| |b| | |]; try done.
  exists (be 32 (if b then 1 else 0)).
  split_and!; [destruct b; cbn [packElement]; by rewrite PaddedBigBytes_spec by done|apply length_be|].
  intros index output Hi Hs. cbn [toGoType]. rewrite Hi, Hs. cbn [elift ok ebind]. by destruct b.
Qed.

(** The fixed byte arrays: padded on the left or on the right. *)
Lemma slice_prefix a b : slice (a ++ b) 0 (Z.of_nat (length a)) = Ret a.
Proof. apply stands_slice; [|lia|rewrite length_app; lia]. split; [lia|]. by exists b. Qed.

Lemma codec_address : codec_ok AddressTy.
Proof.
  apply codec_word; [done..|]. intros v Hv. rewrite (pack_typed _ _ Hv eq_refl). cbn in Hv.
  apply byte_array_inv in Hv as (bs & -> & Hl). cbn [packElement]. rewrite byte_slice_VBytes.
  eexists. split; [reflexivity|]. rewrite LeftPadBytes_spec, Hl. unfold zeros. split.
  { rewrite length_app, length_replicate. lia. }
  intros index output Hi Hs. cbn [toGoType]. rewrite Hi, Hs. cbn [elift ok ebind].
  rewrite BytesToAddress_spec by (rewrite length_app, length_replicate, Hl; lia).
  by rewrite drop_app_length' by (rewrite length_app, length_replicate, Hl; done).
Qed.

Lemma codec_fixed n : (n <= 32)%nat -> codec_ok (FixedBytesTy n).
Proof.
  intros Hn. apply codec_word; [done..|]. intros v Hv. rewrite (pack_typed _ _ Hv eq_refl). cbn in Hv.
  apply byte_array_inv in Hv as (bs & -> & Hl). cbn [packElement]. rewrite byte_slice_VBytes.
  eexists. split; [reflexivity|]. rewrite RightPadBytes_spec, Hl. unfold zeros. split.
  { rewrite length_app, length_replicate. lia. }
  intros index output Hi Hs. cbn [toGoType]. rewrite Hi, Hs. cbn [elift ok ebind]. unfold ReadFixedBytes.
  rewrite <- Hl at 2. by rewrite slice_prefix.
Qed.

Lemma codec_function : codec_ok FunctionTy.
Proof.
  apply codec_word; [done..|]. intros v Hv. rewrite (pack_typed _ _ Hv eq_refl). cbn in Hv.
  apply byte_array_inv in Hv as (bs & -> & Hl). cbn [packElement]. rewrite byte_slice_VBytes.
  eexists. split; [reflexivity|]. rewrite RightPadBytes_spec, Hl. unfold zeros. split.
  { rewrite length_app, length_replicate. lia. }
  intros index output Hi Hs. cbn [toGoType]. rewrite Hi, Hs. cbn [elift ok ebind]. unfold readFunctionType.
  cbn [Nat.sub]. rewrite (stands_slice _ 24 (replicate 8 0)); cycle 1.
  { replace 24 with (0 + Z.of_nat (length bs)) by lia. apply (stands_app _ 0 bs (replicate 8 0)).
    split; [lia|]. exists []. by rewrite app_nil_r. }
  { done. }
  { rewrite length_app, length_replicate. lia. }
  change 24 with (Z.of_nat 24). rewrite <- Hl, slice_prefix. done.
Qed.

(** ** Length prefixes *)
Lemma lengthPrefix_ok index output off n rest :
  Z.of_nat (length output) < 2 ^ 63 -> stands output index (U256 off) ->
  stands output off (U256 n ++ rest) -> 0 <= n <= Z.of_nat (length rest) ->
  (i64 (index + 32) >? Z.of_nat (length output)) = false /\
  lengthPrefixPointsTo index output = ok (off + 32, n) /\
  stands output (off + 32) rest /\ off + 32 + Z.of_nat (length rest) <= Z.of_nat (length output).
Proof.
  intros Hlen Hi Hs Hn. destruct (word_at _ _ _ Hlen Hi (length_U256 _)) as [H32 Hw].
  assert (Hb : off + 32 + Z.of_nat (length rest) <= Z.of_nat (length output)).
  { pose proof (stands_length _ _ _ Hs) as Hl. rewrite length_app, length_U256 in Hl.
    assert (U256 n ++ rest <> []) as Hne by (intros E; apply (f_equal length) in E; rewrite length_app, length_U256 in E; done).
    specialize (Hl Hne). lia. }
  destruct (proj1 (stands_app _ _ _ _) Hs) as [Hs1 Hs2]. rewrite length_U256 in Hs2.
  destruct Hs as [Ho _]. split_and!; [done| |done|done].
  unfold lengthPrefixPointsTo. rewrite Hw. cbn [elift ok ebind]. rewrite SetBytes_U256 by lia.
  destruct (Z.gtb_spec (off + 32) (Z.of_nat (length output))); [lia|].
  destruct (Z.geb_spec (off + 32) (2 ^ 63)); [lia|].
  replace (off + 32 - 32) with off by lia. rewrite (stands_slice _ _ _ (off + 32) Hs1); [|by rewrite length_U256|lia].
  cbn [elift ok ebind]. rewrite SetBytes_U256 by lia.
  destruct (Z.geb_spec (off + 32 + n) (2 ^ 63)); [lia|].
  destruct (Z.gtb_spec (off + 32 + n) (Z.of_nat (length output))); [lia|done].
Qed.

(** Strings and byte slices. *)
Lemma packBytesSlice_ok index output bs :
  Z.of_nat (length output) < 2 ^ 63 ->
  (exists off, stands output index (U256 off) /\ stands output off (packBytesSlice bs)) ->
  (i64 (index + 32) >? Z.of_nat (length output)) = false /\
  exists off, lengthPrefixPointsTo index output = ok (off, Z.of_nat (length bs)) /\
    slice output off (off + Z.of_nat (length bs)) = Ret bs.
Proof.
  intros Hlen (off & Hi & Hs). unfold packBytesSlice in Hs. rewrite RightPadBytes_spec in Hs.
  set (pad := zeros _) in Hs.
  destruct (lengthPrefix_ok index output off (Z.of_nat (length bs)) (bs ++ pad)) as (H32 & Hp & Hst & Hb);
    [done..|rewrite length_app; lia|].
  split; [done|]. exists (off + 32). split; [done|].
  apply stands_app in Hst as [Hst _]. rewrite length_app in Hb. apply stands_slice; [done|done|lia].
Qed.

Lemma length_packBytesSlice bs : 32 <= Z.of_nat (length (packBytesSlice bs)).
Proof. unfold packBytesSlice. rewrite length_app, length_U256. lia. Qed.

Lemma codec_string : codec_ok StringTy.
Proof.
  intros v Hv. rewrite (pack_typed _ _ Hv eq_refl). destruct v as [| | |s| |]; try done.
  exists (packBytesSlice s). split_and!; [done|apply length_packBytesSlice|done|].
  intros index output Hlen Hst. destruct (packBytesSlice_ok _ _ _ Hlen Hst) as (H32 & off & Hp & Hs).
  cbn [toGoType]. rewrite H32, Hp. cbn [ebind ok fst snd]. by rewrite Hs.
Qed.

Lemma codec_bytes : codec_ok BytesTy.
Proof.
  intros v Hv. rewrite (pack_typed _ _ Hv eq_refl). cbn in Hv. apply byte_array_inv in Hv as (bs & -> & _).
  cbn [packElement]. rewrite byte_slice_VBytes.
  exists (packBytesSlice bs). split_and!; [done|apply length_packBytesSlice|done|].
  intros index output Hlen Hst. destruct (packBytesSlice_ok _ _ _ Hlen Hst) as (H32 & off & Hp & Hs).
  cbn [toGoType]. rewrite H32, Hp. cbn [ebind ok fst snd]. by rewrite Hs.
Qed.

(** ** Argument lists *)
Definition typed_args (ts : list Ty) (vs : list val) : Prop :=
  Forall2 (fun t v => well_typed t v = true) ts vs.

Lemma args_codec ts : Forall codec_ok ts -> forallb wf_type ts = true -> forall vs, typed_args ts vs ->
  forall off, exists heads tails,
    pack_args ts vs off = ok (heads, tails) /\ Z.of_nat (length heads) = head_size ts /\
    (existsb isDynamicType ts = false -> tails = []) /\
    forall output pos, 0 <= pos -> Z.of_nat (length output) < 2 ^ 63 ->
      stands output (pos * 32) heads -> stands output off tails ->
      unpack_args ts pos output = ok vs.
Proof.
  induction ts as [|t ts IH]; intros Hc Hw vs Hv off.
  { apply Forall2_nil_inv_l in Hv as ->. by exists [], []. }
  apply Forall2_cons_inv_l in Hv as (v & vs' & Ht & Hvs & ->).
  apply Forall_cons in Hc as [Hct Hc]. cbn in Hw. apply andb_true_iff in Hw as [Hwt Hw].
  destruct (Hct v Ht) as (enc & Hp & H32 & Hst & Hdec). destruct (type_size t Hwt) as (Hsz & Hva & _).
  cbn [pack_args unpack_args existsb head_size foldr]. rewrite Hp. cbn [ebind ok].
  unfold stored in Hdec. destruct (isDynamicType t) eqn:Hd.
  - destruct (IH Hc Hw vs' Hvs (off + Z.of_nat (length enc))) as (hs & tl & -> & Hl & _ & Hun).
    cbn [ebind ok fst snd]. exists (U256 off ++ hs), (enc ++ tl).
    split; [done|]. split; [rewrite length_app, length_U256; unfold head_size in Hl; rewrite (dynamic_size _ Hd); lia|].
    split; [done|]. intros output pos Hpos Hlen [H1 H2]%stands_app [H3 H4]%stands_app.
    pose proof (stands_length _ _ _ H1) as Hin. rewrite length_U256 in Hin, H2.
    assert (U256 off <> []) by (intros E; apply (f_equal length) in E; by rewrite length_U256 in E). specialize (Hin ltac:(done)).
    rewrite (dynamic_size _ Hd) in Hsz. rewrite (i64_small (pos * 32)), (i64_small (pos + 1 + virtual_args t)) by lia.
    rewrite Hdec; [|done|by exists off]. cbn [ebind ok].
    rewrite (Hun output (pos + 1 + virtual_args t)); [done|lia|done| |done].
    by replace ((pos + 1 + virtual_args t) * 32) with (pos * 32 + Z.of_nat 32) by lia.
  - destruct (IH Hc Hw vs' Hvs off) as (hs & tl & -> & Hl & Hnil & Hun).
    cbn [ebind ok fst snd]. exists (enc ++ hs), tl. specialize (Hst eq_refl).
    split; [done|]. split; [rewrite length_app; unfold head_size in Hl; lia|].
    split; [exact Hnil|]. intros output pos Hpos Hlen [H1 H2]%stands_app H3.
    pose proof (stands_length _ _ _ H1) as Hin. assert (enc <> []) by (by intros ->). specialize (Hin ltac:(done)).
    rewrite (i64_small (pos * 32)), (i64_small (pos + 1 + virtual_args t)) by lia.
    rewrite Hdec; [|done|done]. cbn [ebind ok].
    rewrite (Hun output (pos + 1 + virtual_args t)); [done|lia|done| |done].
    by replace ((pos + 1 + virtual_args t) * 32) with (pos * 32 + Z.of_nat (length enc)) by lia.
Qed.

Lemma typed_replicate e l : forallb (well_typed e) l = true -> typed_args (replicate (length l) e) l.
Proof.
  intros Hl. induction l as [|v l IH]; [constructor|]. cbn in Hl. apply andb_true_iff in Hl as [Hv Hl].
  constructor; [done|]. by apply IH.
Qed.

Lemma forallb_replicate {A : Type} (f : A -> bool) n x : f x = true -> forallb f (replicate n x) = true.
Proof. intros Hx. induction n as [|n IH]; [done|]. cbn. by rewrite Hx. Qed.

Lemma existsb_replicate {A : Type} (f : A -> bool) n x : f x = false -> existsb f (replicate n x) = false.
Proof. intros Hx. induction n as [|n IH]; [done|]. cbn. by rewrite Hx. Qed.

Lemma head_size_replicate n e : head_size (replicate n e) = Z.of_nat n * getTypeSize e.
Proof.
  induction n as [|n IH]; [done|]. cbn [replicate head_size foldr]. unfold head_size in IH. rewrite IH. lia.
Qed.

(** The elements of a sequence: their encoding, and its decoding from a tail of
    the output. *)
Lemma seq_codec e l : codec_ok e -> wf_type e = true -> forallb (well_typed e) l = true ->
  let off := if isDynamicType e then getTypeSize e * Z.of_nat (length l) else 0 in
  exists heads tails,
    pack_args (replicate (length l) e) l off = ok (heads, tails) /\
    Z.of_nat (length heads) = Z.of_nat (length l) * getTypeSize e /\
    (isDynamicType e = false -> tails = []) /\
    forall (isarray : bool) tail, GetType_ok (if isarray then ArrayTy (length l) e else SliceTy e) = true ->
      Z.of_nat (length tail) < 2 ^ 63 -> stands tail 0 (heads ++ tails) ->
      Z.of_nat (length heads) <= Z.of_nat (length tail) ->
      forEachUnpack isarray e (fun i => toGoType e i tail) tail (Z.of_nat (length l)) =
      ok (VSeq isarray (GetType_Kind e) l).
Proof.
  intros Hc Hw Hl off. destruct (type_size e Hw) as (Hsz & Hva & _).
  destruct (args_codec (replicate (length l) e)) with (vs := l) (off := off)
    as (heads & tails & Hp & Hlen & Hnil & Hun).
  { by apply Forall_replicate. } { by apply forallb_replicate. } { by apply typed_replicate. }
  rewrite head_size_replicate in Hlen. exists heads, tails. split_and!; [done|done| |].
  { intros Hd. apply Hnil. by apply existsb_replicate. }
  intros isarray tail Hg Hb [H1 H2]%stands_app Hle. unfold forEachUnpack.
  destruct (Z.ltb_spec (Z.of_nat (length l)) 0); [lia|]. rewrite i64_small by nia.
  destruct (Z.gtb_spec (0 + 32 * Z.of_nat (length l)) (Z.of_nat (length tail))); [nia|].
  rewrite Nat2Z.id. unfold GetType. rewrite Hg. cbn [elift ok ebind].
  change 0 with (i64 (0 * 32)) at 1. rewrite unpack_elems_args by done.
  rewrite Hun; [done|lia|done|done|]. unfold off. destruct (isDynamicType e) eqn:Hd.
  - by replace (getTypeSize e * Z.of_nat (length l)) with (0 + Z.of_nat (length heads)) by lia.
  - rewrite Hnil by (by apply existsb_replicate). split; [lia|]. apply prefix_nil.
Qed.

Lemma codec_slice e : codec_ok e -> wf_type e = true -> codec_ok (SliceTy e).
Proof.
  intros Hc Hw v Hv. rewrite (pack_typed _ _ Hv (wf_GetType (SliceTy e) Hw)). cbn in Hv. destruct v as [| | | |[|] k l|]; try done.
  apply andb_true_iff in Hv as [->%bool_decide_eq_true_1 Hl]. destruct (type_size e Hw) as (Hsz & Hva & _).
  destruct (seq_codec e l Hc Hw Hl) as (heads & tails & -> & Hh & _ & Hun). cbn [ebind ok fst snd].
  eexists. split; [reflexivity|]. split; [rewrite length_app, length_U256; lia|]. split; [done|].
  intros index output Hlen (off & Hi & Hs).
  destruct (lengthPrefix_ok index output off (Z.of_nat (length l)) (heads ++ tails))
    as (H32 & Hp & Hst & Hb); [done..|rewrite length_app; nia|]. rewrite length_app in Hb.
  cbn [toGoType]. rewrite H32, Hp. cbn [ebind ok fst snd].
  destruct Hi as [Hi0 _]. destruct Hs as [Ho _].
  rewrite slice_from_ok by lia. cbn [ebind ok elift].
  apply Hun; rewrite ?length_drop; [by apply wf_GetType|lia| |lia]. apply stands_drop; [lia|lia|]. by rewrite Z.add_0_r.
Qed.

Lemma codec_array n e : codec_ok e -> wf_type (ArrayTy n e) = true -> codec_ok (ArrayTy n e).
Proof.
  intros Hc Hwa v Hv. pose proof (wf_array _ _ Hwa) as (Hn & Hw & _).
  rewrite (pack_typed _ _ Hv (wf_GetType _ Hwa)). cbn in Hv. destruct v as [| | | |[|] k l|]; try done.
  apply andb_true_iff in Hv as [[->%bool_decide_eq_true_1 Hnl%Nat.eqb_eq]%andb_true_iff Hl].
  destruct (type_size e Hw) as (Hsz & Hva & _).
  destruct (seq_codec e l Hc Hw Hl) as (heads & tails & -> & Hh & Hnil & Hun). cbn [ebind ok fst snd].
  assert (H32h : 32 <= Z.of_nat (length heads)) by nia.
  eexists. split; [reflexivity|]. split; [rewrite length_app; lia|]. split.
  { intros Hd. change (isDynamicType e = false) in Hd. rewrite Hnil, app_nil_r, wf_array_size by done. lia. }
  intros index output Hlen. unfold stored. change (isDynamicType (ArrayTy n e)) with (isDynamicType e).
  assert (Hnet : heads ++ tails <> []) by (intros E; apply (f_equal length) in E; rewrite length_app in E; cbn in E; lia).
  cbn [toGoType]. subst n. destruct (isDynamicType e) eqn:Hd.
  - intros (off & Hi & Hs). destruct (word_at _ _ _ Hlen Hi (length_U256 _)) as [-> ->].
    cbn [ebind ok elift]. pose proof (stands_length _ _ _ Hs Hnet) as Hb. rewrite length_app in Hb.
    destruct Hs as [Ho Hs]. rewrite low_bytes_U256 by lia. cbn [ebind ok].
    change (256 ^ Z.of_nat 8) with (2 ^ 64). rewrite unsigned_mod by lia.
    destruct (Z.gtb_spec off (Z.of_nat (length output))); [lia|].
    rewrite slice_from_ok by lia. cbn [ebind ok elift].
    apply Hun; rewrite ?length_drop; [by apply wf_GetType|lia| |lia]. by split.
  - intros Hs. pose proof (stands_length _ _ _ Hs Hnet) as Hb. rewrite length_app in Hb.
    destruct Hs as [Ho Hs]. rewrite i64_small by lia. destruct (Z.gtb_spec (index + 32) (Z.of_nat (length output))); [lia|].
    assert (exists w, slice output index (index + 32) = Ret w) as [w ->].
    { unfold slice. destruct (Z.leb_spec 0 index); [|lia]. destruct (Z.leb_spec index (index + 32)); [|lia].
      destruct (Z.leb_spec (index + 32) (Z.of_nat (length output))); [|lia]. cbn. eauto. }
    cbn [ebind ok elift]. rewrite slice_from_ok by lia. cbn [ebind ok elift].
    apply Hun; rewrite ?length_drop; [by apply wf_GetType|lia| |lia]. by split.
Qed.

Lemma well_typed_tuple es l : well_typed (TupleTy es) (VStruct l) = true -> typed_args es l.
Proof.
  cbn [well_typed]. revert l. induction es as [|e es IH]; intros [|v l] H; try done; [constructor|].
  apply andb_true_iff in H as [Hv Hl]. constructor; [done|]. by apply IH.
Qed.

Lemma codec_tuple es : Forall codec_ok es -> wf_type (TupleTy es) = true -> codec_ok (TupleTy es).
Proof.
  intros Hc Hwt v Hv. pose proof (wf_tuple es Hwt) as (Hn & Hw & _).
  assert (1 <= Z.of_nat (length es)) by (destruct es; [done|cbn; lia]). destruct v as [| | | | |l]; try done. apply well_typed_tuple in Hv.
  pose proof (Forall2_length _ _ _ Hv) as Hll. rewrite pack_tuple by done.
  destruct (args_codec es Hc Hw l Hv (head_size es)) as (heads & tails & -> & Hh & Hnil & Hun).
  cbn [ebind ok fst snd]. pose proof (head_size_words es Hw) as Hhs.
  eexists. split; [reflexivity|]. split; [rewrite length_app; lia|]. split.
  { intros Hd. rewrite Hnil, app_nil_r, tuple_size by done. done. }
  intros index output Hlen. unfold stored. rewrite unpack_tuple.
  assert (Hnet : heads ++ tails <> []) by (intros E; apply (f_equal length) in E; rewrite length_app in E; cbn in E; lia).
  assert (Htail : forall i, stands output i (heads ++ tails) -> unpack_args es 0 (drop (Z.to_nat i) output) = ok l).
  { intros i Hs. apply stands_app in Hs as [H1 H2]. pose proof H1 as [Hi _]. apply Hun; [lia| | |].
    - rewrite length_drop. lia.
    - apply stands_drop; [lia|lia|]. by replace (i + 0 * 32) with i by lia.
    - apply stands_drop; [lia|lia|]. by rewrite <- Hh. }
  destruct (isDynamicType (TupleTy es)).
  - intros (off & Hi & Hs). destruct (word_at _ _ _ Hlen Hi (length_U256 _)) as [-> Hsl].
    rewrite Hsl. cbn [ebind ok elift]. pose proof (stands_length _ _ _ Hs Hnet) as Hb. rewrite length_app in Hb.
    pose proof Hs as [Ho _]. unfold tuplePointsTo. rewrite Hsl. cbn [ebind ok elift].
    rewrite SetBytes_U256 by lia. destruct (Z.gtb_spec off (Z.of_nat (length output))); [lia|].
    destruct (Z.geb_spec off (2 ^ 63)); [lia|]. cbn [ebind ok].
    rewrite slice_from_ok by lia. cbn [ebind ok elift]. by rewrite Htail.
  - intros Hs. pose proof (stands_length _ _ _ Hs Hnet) as Hb. rewrite length_app in Hb.
    pose proof Hs as [Ho _]. rewrite i64_small by lia. destruct (Z.gtb_spec (index + 32) (Z.of_nat (length output))); [lia|].
    assert (exists w, slice output index (index + 32) = Ret w) as [w ->].
    { unfold slice. destruct (Z.leb_spec 0 index); [|lia]. destruct (Z.leb_spec index (index + 32)); [|lia].
      destruct (Z.leb_spec (index + 32) (Z.of_nat (length output))); [|lia]. cbn. eauto. }
    cbn [ebind ok elift]. rewrite slice_from_ok by lia. cbn [ebind ok elift]. by rewrite Htail.
Qed.

Lemma codec t : wf_type t = true -> codec_ok t.
Proof.
  induction t as [s|s| | |e IH|n e IH|es IH| |n| |] using Ty_nested_ind; intros Hw.
  - apply codec_int.
  - apply codec_uint.
  - apply codec_bool.
  - apply codec_string.
  - apply codec_slice; auto.
  - apply codec_array; [|done]. apply IH. by apply wf_array in Hw as (_ & ? & _).
  - apply codec_tuple; [|done]. apply wf_tuple in Hw as (_ & Hw & _).
    apply Forall_forall. intros e He. rewrite Forall_forall in IH. apply IH; [done|].
    rewrite forallb_forall in Hw. apply Hw. by apply list_elem_of_In.
  - apply codec_address.
  - apply codec_fixed. cbn in Hw. by apply Nat.leb_le.
  - apply codec_bytes.
  - apply codec_function.
Qed.

Lemma codec_args ts : forallb wf_type ts = true -> Forall codec_ok ts.
Proof.
  intros Hw. apply Forall_forall. intros t Ht. apply codec. rewrite forallb_forall in Hw.
  apply Hw. by apply list_elem_of_In.
Qed.

(** C29. Decoding inverts encoding: packing well-typed values of well-formed
    types succeeds, and unpacking the data, whatever follows it, gives the
    values back, as long as the data and what follows have fewer than 2^63 bytes.
    The arrays and tuples of a well-formed type are not empty and have fewer than
    2^57 words each: no address space has room for a value of a larger one. *)
Theorem abi_roundtrip ts vs :
  forallb wf_type ts = true -> typed_args ts vs ->
  exists data, Arguments_Pack ts vs = ok data /\
    forall rest, Z.of_nat (length (data ++ rest)) < 2 ^ 63 ->
      Arguments_Unpack ts (data ++ rest) = ok vs.
Proof.
  intros Hw Hv. pose proof (Forall2_length _ _ _ Hv) as Hl.
  destruct (args_codec ts (codec_args _ Hw) Hw vs Hv (head_size ts)) as (heads & tails & Hp & Hh & _ & Hun).
  exists (heads ++ tails). split.
  - unfold Arguments_Pack. rewrite (proj2 (Nat.eqb_eq _ _)) by done. cbn [negb].
    fold (head_size ts). by rewrite Hp.
  - intros rest Hb. pose proof (head_size_words ts Hw) as Hhs.
    assert (E : UnpackValues ts ((heads ++ tails) ++ rest) = ok vs).
    { apply Hun; [lia|done| |].
      - split; [lia|]. exists (tails ++ rest). by rewrite app_assoc.
      - rewrite <- Hh. split; [lia|]. rewrite Nat2Z.id, <- app_assoc, drop_app_length. by exists rest. }
    unfold Arguments_Unpack. destruct (Nat.eqb_spec (length ((heads ++ tails) ++ rest)) 0) as [H0|]; [|done].
    rewrite !length_app in H0. destruct ts as [|t ts]; [|cbn [length] in Hhs; lia].
    apply Forall2_nil_inv_l in Hv as ->. done.
Qed.

(** ** Arbitrary data *)
Definition no_panic {A : Type} (m : exn A) : Prop := exists r, m = Ret r.

Definition bytes_ok (bs : list Z) : Prop := Forall (fun b => 0 <= b < 256) bs.

Lemma returns_ebind {A B : Type} (m : exn A) (f : A -> exn B) :
  no_panic m -> (forall a, m = ok a -> no_panic (f a)) -> no_panic (ebind m f).
Proof. intros [[a|] ->] Hf; [by apply Hf|by exists Err]. Qed.

Lemma returns_ok {A : Type} (a : A) : no_panic (ok a).
Proof. by eexists. Qed.

Lemma returns_err {A : Type} : no_panic (err (A := A)).
Proof. by eexists. Qed.

Hint Resolve returns_ok returns_err : xchain.

Lemma slice_returns b lo hi : 0 <= lo <= hi -> hi <= Z.of_nat (length b) ->
  exists w, slice b lo hi = Ret w /\ Z.of_nat (length w) = hi - lo /\ (bytes_ok b -> bytes_ok w).
Proof.
  intros H1 H2. unfold slice. destruct (Z.leb_spec 0 lo); [|lia]. destruct (Z.leb_spec lo hi); [|lia].
  destruct (Z.leb_spec hi (Z.of_nat (length b))); [|lia]. eexists. split; [reflexivity|].
  split; [rewrite length_take, length_drop; lia|]. intros Hb. by apply Forall_take, Forall_drop.
Qed.

Lemma SetBytes_nonneg bs : bytes_ok bs -> 0 <= SetBytes bs.
Proof.
  intros Hb. unfold SetBytes. assert (G : forall acc, 0 <= acc -> 0 <= foldl (fun acc b => acc * 256 + b) acc bs).
  { induction Hb as [|b bs Hb _ IH]; intros acc Ha; cbn; [done|]. apply IH. lia. }
  apply G. lia.
Qed.

Lemma low_bytes_returns n w : (n <= length w)%nat -> no_panic (low_bytes n w) /\
  forall z, bytes_ok w -> low_bytes n w = ok z -> 0 <= z.
Proof.
  intros Hn. unfold low_bytes. rewrite slice_from_ok by lia. cbn [elift ok ebind]. split; [auto with xchain|].
  intros z Hb [= <-]. apply SetBytes_nonneg. by apply Forall_drop.
Qed.

Lemma ReadInteger_returns u size w : length w = 32%nat -> no_panic (ReadInteger u size w).
Proof.
  intros Hw. unfold ReadInteger. destruct (_ || _) eqn:Hm.
  - apply machine_width in Hm as (_ & Hn & _). destruct (low_bytes_returns (Z.to_nat (size / 8)) w) as [Hr _]; [lia|].
    apply returns_ebind; auto with xchain.
  - destruct u; [auto with xchain|]. destruct (Z.testbit _ _); auto with xchain.
Qed.

Lemma readBool_returns w : length w = 32%nat -> no_panic (readBool w).
Proof.
  intros Hw. unfold readBool. destruct (slice_returns w 0 31) as (f & -> & _); [lia..|]. cbn [elift ok ebind].
  destruct (negb _); [auto with xchain|].
  destruct (lookup_lt_is_Some_2 w 31) as [b ->]; [lia|]. destruct b as [|[]|]; auto with xchain.
Qed.

Lemma lengthPrefix_returns index output : 0 <= index < 2 ^ 63 - 32 -> index + 32 <= Z.of_nat (length output) -> bytes_ok output ->
  no_panic (lengthPrefixPointsTo index output) /\
  forall s l, lengthPrefixPointsTo index output = ok (s, l) ->
    0 <= s /\ 0 <= l /\ s + l <= Z.of_nat (length output).
Proof.
  intros Hi Hl Hb. unfold lengthPrefixPointsTo. rewrite (i64_small (index + 32)) by lia.
  destruct (slice_returns output index (index + 32)) as (w & -> & _ & Hw); [lia..|]. cbn [elift ok ebind].
  pose proof (SetBytes_nonneg w (Hw Hb)) as Hn.
  destruct (Z.gtb_spec (SetBytes w + 32) (Z.of_nat (length output))); [split; [auto with xchain|done]|].
  destruct (_ >=? _); [split; [auto with xchain|done]|].
  destruct (slice_returns output (SetBytes w + 32 - 32) (SetBytes w + 32)) as (lw & -> & _ & Hlw); [lia..|].
  cbn [elift ok ebind]. pose proof (SetBytes_nonneg lw (Hlw Hb)).
  destruct (_ >=? _); [split; [auto with xchain|done]|].
  destruct (Z.gtb_spec (SetBytes w + 32 + SetBytes lw) (Z.of_nat (length output))); [split; [auto with xchain|done]|].
  split; [auto with xchain|]. intros s l [= <- <-]. lia.
Qed.

(** Data that leaves room for the size of a type in an [int]. *)
Definition short (output : list Z) : Prop := Z.of_nat (length output) < 2 ^ 62.

Lemma short_drop n output : short output -> short (drop n output).
Proof. unfold short. rewrite length_drop. lia. Qed.

Definition decodes (t : Ty) : Prop :=
  forall index output, 0 <= index < 2 ^ 63 - 32 -> bytes_ok output -> short output -> no_panic (toGoType t index output).

(** A value was read inside the output. *)
Lemma toGoType_inside t index output v : toGoType t index output = ok v -> i64 (index + 32) <= Z.of_nat (length output).
Proof. destruct t; cbn [toGoType]; (destruct (Z.gtb_spec (i64 (index + 32)) (Z.of_nat (length output))); [done|lia]). Qed.

Lemma unpack_args_returns ts output : Forall decodes ts -> forallb wf_type ts = true -> bytes_ok output -> short output ->
  forall pos, 0 <= pos -> pos * 32 < 2 ^ 63 - 32 -> no_panic (unpack_args ts pos output).
Proof.
  intros Hd Hw Hb Hs. induction Hd as [|t ts Ht _ IH]; intros pos Hp Hp2; cbn [unpack_args]; [auto with xchain|].
  cbn in Hw. apply andb_true_iff in Hw as [Hwt Hw]. destruct (type_size t Hwt) as (Hsz & Hva & Hlt).
  rewrite (i64_small (pos * 32)) by lia. apply returns_ebind; [apply Ht; [lia|done|done]|]. intros v Hin%toGoType_inside.
  rewrite i64_small in Hin by lia. unfold short in Hs. rewrite i64_small by lia.
  apply returns_ebind; [|auto with xchain]. apply IH; [done|lia|lia].
Qed.

Lemma forEachUnpack_returns (isarray : bool) e output size : decodes e -> wf_type e = true -> bytes_ok output -> short output ->
  GetType_ok (if isarray then ArrayTy (Z.to_nat size) e else SliceTy e) = true ->
  no_panic (forEachUnpack isarray e (fun i => toGoType e i output) output size).
Proof.
  intros Hd Hw Hb Hs Hg. unfold forEachUnpack. destruct (_ <? _); [auto with xchain|].
  destruct (_ >? _); [auto with xchain|]. unfold GetType. rewrite Hg. cbn [elift ok ebind]. apply returns_ebind; [|auto with xchain].
  change 0 with (i64 (0 * 32)). rewrite unpack_elems_args by (by apply type_size).
  apply unpack_args_returns; [by apply Forall_replicate|by apply forallb_replicate|done|done|lia|lia].
Qed.

Lemma toGoType_returns t : wf_type t = true -> decodes t.
Proof.
  induction t as [s|s| | |e IH|n e IH|es IH| |n| |] using Ty_nested_ind; intros Hw index output Hi Hb Hsh;
    (rewrite ?unpack_tuple; cbn [toGoType]; rewrite ?(i64_small (index + 32)) by lia;
     destruct (Z.gtb_spec (index + 32) (Z.of_nat (length output))) as [|Hl]; [auto with xchain|]);
    try (destruct (slice_returns output index (index + 32)) as (w & -> & Hwl & Hwb); [lia..|]; cbn [elift ok ebind]);
    try (destruct (lengthPrefix_returns index output Hi Hl Hb) as [Hlp Hbd];
         apply returns_ebind; [done|]; intros [st len] (? & ? & ?)%Hbd; cbn [fst snd]).
  - apply ReadInteger_returns. lia.
  - apply ReadInteger_returns. lia.
  - apply readBool_returns. lia.
  - destruct (slice_returns output st (st + len)) as (s & -> & _); [lia..|]. cbn [elift ok ebind]. auto with xchain.
  - rewrite slice_from_ok by lia. cbn [elift ok ebind].
    apply forEachUnpack_returns; [auto|done|by apply Forall_drop|by apply short_drop|by apply wf_GetType].
  - pose proof (wf_GetType _ Hw) as Hg. apply wf_array in Hw as (_ & Hw & _).
    assert (Hg' : GetType_ok (ArrayTy (Z.to_nat (Z.of_nat n)) e) = true) by (by rewrite Nat2Z.id). destruct (isDynamicType e).
    + destruct (low_bytes_returns 8 w) as [[r Er] Hnn]; [lia|]. rewrite Er.
      destruct r as [off|]; [|auto with xchain]. cbn [ebind]. specialize (Hnn off (Hwb Hb) Er).
      destruct (Z.gtb_spec off (Z.of_nat (length output))); [auto with xchain|].
      rewrite slice_from_ok by lia. cbn [elift ok ebind].
      apply forEachUnpack_returns; [auto|done|by apply Forall_drop|by apply short_drop|done].
    + rewrite slice_from_ok by lia. cbn [elift ok ebind].
      apply forEachUnpack_returns; [auto|done|by apply Forall_drop|by apply short_drop|done].
  - assert (Htail : forall i, 0 <= i <= Z.of_nat (length output) ->
      no_panic (tail <- elift (slice_from output i);; l <- unpack_args es 0 tail;; ok (VStruct l))).
    { intros i Hr. rewrite slice_from_ok by done. cbn [elift ok ebind].
      apply returns_ebind; [|auto with xchain]. apply wf_tuple in Hw as (_ & Hw & _).
      apply unpack_args_returns; [|done|by apply Forall_drop|by apply short_drop|lia|lia].
      rewrite Forall_forall in IH |- *. intros e He. apply IH; [done|]. rewrite forallb_forall in Hw.
      apply Hw. by apply list_elem_of_In. }
    destruct (isDynamicType (TupleTy es)); [|apply Htail; lia]. unfold tuplePointsTo. rewrite (i64_small (index + 32)) by lia.
    destruct (slice_returns output index (index + 32)) as (w' & -> & _ & Hwb'); [lia..|]. cbn [elift ok ebind].
    pose proof (SetBytes_nonneg w' (Hwb' Hb)).
    destruct (Z.gtb_spec (SetBytes w') (Z.of_nat (length output))); [auto with xchain|].
    destruct (_ >=? _); [auto with xchain|]. cbn [ebind ok]. apply Htail. lia.
  - auto with xchain.
  - unfold ReadFixedBytes. cbn in Hw. apply Nat.leb_le in Hw.
    destruct (slice_returns w 0 (Z.of_nat n)) as (bs & -> & _); [lia..|]. cbn [elift ok ebind]. auto with xchain.
  - destruct (slice_returns output st (st + len)) as (s & -> & _); [lia..|]. cbn [elift ok ebind]. auto with xchain.
  - unfold readFunctionType. destruct (slice_returns w 24 32) as (g & -> & _); [lia..|]. cbn [elift ok ebind].
    destruct (negb _); [auto with xchain|].
    destruct (slice_returns w 0 24) as (bs & -> & _); [lia..|]. cbn [elift ok ebind]. auto with xchain.
Qed.

(** C40. Decoding arbitrary data never panics and always ends: unpacking fewer than
    2^62 bytes, whatever they are, at well-formed types returns values or an error.
    The arrays and tuples of a well-formed type are not empty and have fewer than
    2^57 words each, so that the sizes are machine integers and their Go types exist;
    that memory can be allocated is assumed. *)
Theorem abi_unpack_safe ts data :
  forallb wf_type ts = true -> bytes_ok data -> Z.of_nat (length data) < 2 ^ 62 -> exists r, Arguments_Unpack ts data = Ret r.
Proof.
  intros Hw Hb Hs. unfold Arguments_Unpack. destruct (Nat.eqb _ 0).
  - destruct (negb _); eexists; reflexivity.
  - apply unpack_args_returns; [|done|done|done|lia|lia]. apply Forall_forall. intros t Ht. apply toGoType_returns.
    rewrite forallb_forall in Hw. apply Hw. by apply list_elem_of_In.
Qed.

End codec.
