(* ===== verification/Rle.v ===== *)
(** * Run-length encoding (compression/rle/read_write.go)

    Runs of zeros, the two well-known digests and the token byte itself are
    written as two bytes.  Decompression inverts compression exactly on the
    data without a run of zeros whose length is 251, 252 or 253 modulo 255: the
    byte that stands for such a length is one of the reserved tokens. *)
From S2P Require Import Prelude.
Local Open Scope Z_scope.

Definition token : Z := 254.
Definition emptyShaToken : Z := 253.
Definition emptyListShaToken : Z := 254.
Definition tokenToken : Z := 255.

(** The digests of the empty string and of the empty list. *)
Class RleDigests := {
  empty : list Z;
  emptyList : list Z
}.

(** A digest has thirty-two bytes; neither of these two ends in a zero. *)
Class RleDigestLaws `(RleDigests) : Prop := {
  empty_shape : exists h z, empty = h ++ [z] /\ length h = 31%nat /\ z <> 0;
  emptyList_shape : exists h z, emptyList = h ++ [z] /\ length h = 31%nat /\ z <> 0
}.

Section rle.
Context `{RleDigests}.

(** What the byte after a token stands for; the subtraction is on bytes. *)
Definition expansion (t : Z) : list Z :=
  if t =? emptyShaToken then empty
  else if t =? emptyListShaToken then emptyList
  else if t =? tokenToken then [token]
  else replicate (Z.to_nat ((t - 2) mod 256)) 0.

Fixpoint Decompress (dat : list Z) : result (list Z) :=
  match dat with
  | [] => Ok []
  | b :: rest =>
      if b =? token then
        match rest with
        | [] => Err
        | t :: rest' =>
            match Decompress rest' with
            | Ok buf => Ok (expansion t ++ buf)
            | Err => Err
            end
        end
      else
        match Decompress rest with
        | Ok buf => Ok (b :: buf)
        | Err => Err
        end
  end.

(** The loop that counts zeros, [n] more at most. *)
Fixpoint count_zeros (n : nat) (dat : list Z) : nat :=
  match n, dat with
  | S n', b :: dat' => if negb (b =? 0) then O else S (count_zeros n' dat')
  | _, _ => O
  end.

(** The bytes written for the front of the data, and how many bytes of the data
    they stand for. *)
Definition compressChunk (dat : list Z) : outcome (list Z * nat) :=
  match dat with
  | [] => Panic
  | b :: rest =>
      if b =? token then Ret ([token; tokenToken], 1%nat)
      else if match rest with b1 :: _ => (b =? 0) && (b1 =? 0) | [] => false end then
        let j := count_zeros 255 dat in
        Ret ([token; (Z.of_nat j + 2) mod 256], j)
      else if Nat.leb 32 (length dat) && bool_decide (take 32 dat = empty) then
        Ret ([token; emptyShaToken], 32%nat)
      else if Nat.leb 32 (length dat) && bool_decide (take 32 dat = emptyList) then
        Ret ([token; emptyListShaToken], 32%nat)
      else Ret ([b], 1%nat)
  end.

(** Every chunk is at least one byte, so the length of the data is enough
    fuel. *)
Fixpoint compress_loop (fuel : nat) (dat : list Z) : outcome (list Z) :=
  match dat with
  | [] => Ret []
  | _ :: _ =>
      match fuel with
      | O => OutOfFuel
      | S fuel' =>
          c ← compressChunk dat;
          buf ← compress_loop fuel' (drop (snd c) dat);
          Ret (fst c ++ buf)
      end
  end.

Definition Compress (dat : list Z) : outcome (list Z) := compress_loop (length dat) dat.

(** ** Runs of zeros *)

(** The lengths of the maximal runs, [n] zeros being read already. *)
Fixpoint zero_runs (n : nat) (dat : list Z) : list nat :=
  match dat with
  | [] => [n]
  | b :: dat' => if b =? 0 then zero_runs (S n) dat' else n :: zero_runs 0 dat'
  end.

Definition encodable_run (n : nat) : bool :=
  let r := (n mod 255)%nat in Nat.ltb r 251 || Nat.ltb 253 r.

Definition runs_from (n : nat) (dat : list Z) : bool := forallb encodable_run (zero_runs n dat).

Lemma runs_from_mod dat : forall n, runs_from (n + 255) dat = runs_from n dat.
Proof.
  assert (Hrun : forall n, encodable_run (n + 255) = encodable_run n).
  { intros n. unfold encodable_run. replace (n + 255)%nat with (n + 1 * 255)%nat by lia.
    by rewrite Nat.Div0.mod_add. }
  unfold runs_from. induction dat as [|b dat IH]; intros n; cbn [zero_runs].
  - cbn. by rewrite Hrun.
  - destruct (b =? 0); [exact (IH (S n))|]. cbn. by rewrite Hrun.
Qed.

Lemma runs_from_nonzero n z dat : z <> 0 -> runs_from n (z :: dat) = encodable_run n && runs_from 0 dat.
Proof. intros Hz. unfold runs_from. cbn. by destruct (Z.eqb_spec z 0). Qed.

Lemma runs_from_zeros j dat : forall n, runs_from n (replicate j 0 ++ dat) = runs_from (n + j) dat.
Proof.
  induction j as [|j IH]; intros n; cbn [replicate app]; [by rewrite Nat.add_0_r|].
  transitivity (runs_from (S n) (replicate j 0 ++ dat)); [done|]. rewrite IH. f_equal. lia.
Qed.

Lemma runs_from_app h z dat : z <> 0 -> forall n,
  runs_from n (h ++ z :: dat) = runs_from n h && runs_from 0 dat.
Proof.
  intros Hz. unfold runs_from. induction h as [|b h IH]; intros n; cbn [zero_runs app].
  - cbn. rewrite andb_true_r. by destruct (Z.eqb_spec z 0).
  - destruct (b =? 0); [apply IH|]. cbn. by rewrite IH, andb_assoc.
Qed.

Lemma runs_from_short h : forall n, (n + length h < 251)%nat -> runs_from n h = true.
Proof.
  assert (Hrun : forall n, (n < 251)%nat -> encodable_run n = true).
  { intros n Hn. unfold encodable_run. rewrite Nat.mod_small by lia. by destruct (Nat.ltb_spec n 251); [|lia]. }
  unfold runs_from. induction h as [|b h IH]; intros n Hn; cbn [zero_runs length] in *.
  - cbn. by rewrite Hrun by lia.
  - destruct (b =? 0); [apply IH; lia|]. cbn. rewrite Hrun, IH by lia. done.
Qed.

(** A run that is not continued. *)
Definition stops (dat : list Z) : Prop := match dat with [] => True | b :: _ => b <> 0 end.

Lemma runs_from_stop n dat : stops dat -> runs_from n dat = encodable_run n && runs_from 0 dat.
Proof.
  destruct dat as [|b dat]; cbn [stops]; intros Hb; [unfold runs_from; cbn; by rewrite !andb_true_r|].
  by rewrite !runs_from_nonzero by done.
Qed.

(** ** Chunks *)
Lemma count_zeros_spec n : forall dat,
  let j := count_zeros n dat in
  dat = replicate j 0 ++ drop j dat /\ (j <= n)%nat /\ (j = n \/ stops (drop j dat)).
Proof.
  induction n as [|n IH]; intros dat; cbn [count_zeros]; [split_and!; [done|lia|by left]|].
  destruct dat as [|b dat]; cbn; [split_and!; [done|lia|by right]|].
  destruct (Z.eqb_spec b 0) as [->|Hb]; cbn; [|split_and!; [done|lia|by right]].
  destruct (IH dat) as (E & Hle & Hend). split_and!; [by rewrite <- E|lia|].
  destruct Hend as [->|Hs]; [by left|by right].
Qed.

(** What a chunk decompresses to: the bytes it stands for, or fewer bytes when
    it is a run that cannot be encoded. *)
Definition chunk_ok (dat b : list Z) (n : nat) : Prop :=
  (0 < n <= length dat)%nat /\
  exists e, (forall rest, Decompress (b ++ rest) =
               match Decompress rest with Ok buf => Ok (e ++ buf) | Err => Err end) /\
    (runs_from 0 dat = true -> e = take n dat /\ runs_from 0 (drop n dat) = true) /\
    (runs_from 0 dat = false ->
       (length e < n)%nat \/ e = take n dat /\ runs_from 0 (drop n dat) = false) /\
    (length e <= n)%nat.

Lemma token_chunk t rest :
  Decompress ([token; t] ++ rest) =
  match Decompress rest with Ok buf => Ok (expansion t ++ buf) | Err => Err end.
Proof. done. Qed.

Context `{!RleDigestLaws _}.

Lemma length_empty : length empty = 32%nat.
Proof. destruct empty_shape as (h & z & -> & Hl & _). rewrite length_app, Hl. done. Qed.

Lemma length_emptyList : length emptyList = 32%nat.
Proof. destruct emptyList_shape as (h & z & -> & Hl & _). rewrite length_app, Hl. done. Qed.

(** The byte of a run stands for the run, or for fewer bytes. *)
Lemma expansion_run j : (2 <= j <= 255)%nat ->
  if encodable_run j then expansion ((Z.of_nat j + 2) mod 256) = replicate j 0
  else (length (expansion ((Z.of_nat j + 2) mod 256)) < j)%nat.
Proof.
  intros Hj. destruct (decide (j <= 250)%nat) as [Hs|Hb].
  - unfold encodable_run. rewrite Nat.mod_small by lia. destruct (Nat.ltb_spec j 251); [|lia]. cbn [orb].
    rewrite (Z.mod_small (_ + 2)) by lia.
    unfold expansion, emptyShaToken, emptyListShaToken, tokenToken, token.
    destruct (Z.eqb_spec (Z.of_nat j + 2) 253); [lia|].
    destruct (Z.eqb_spec (Z.of_nat j + 2) 254); [lia|]. destruct (Z.eqb_spec (Z.of_nat j + 2) 255); [lia|].
    replace (Z.of_nat j + 2 - 2) with (Z.of_nat j) by lia. rewrite Z.mod_small by lia. by rewrite Nat2Z.id.
  - assert (j = 251 \/ j = 252 \/ j = 253 \/ j = 254 \/ j = 255)%nat as [->|[->|[->|[->| ->]]]] by lia.
    + change (length empty < 251)%nat. rewrite length_empty. lia.
    + change (length emptyList < 252)%nat. rewrite length_emptyList. lia.
    + change (1 < 253)%nat. lia.
    + reflexivity.
    + reflexivity.
Qed.

Lemma digest_chunk dat e t : (exists h z, e = h ++ [z] /\ length h = 31%nat /\ z <> 0) ->
  expansion t = e -> take 32 dat = e -> (32 <= length dat)%nat -> chunk_ok dat [token; t] 32.
Proof.
  intros (h & z & -> & Hl & Hz) Ht Htk Hlen. split; [lia|]. exists (h ++ [z]).
  assert (E : runs_from 0 dat = runs_from 0 (drop 32 dat)).
  { rewrite <- (take_drop 32 dat) at 1. rewrite Htk, <- app_assoc. cbn [app].
    rewrite runs_from_app, runs_from_short by (done || lia). done. }
  split_and!.
  - intros rest. by rewrite token_chunk, Ht.
  - intros Hr. by rewrite Htk, <- E.
  - intros Hr. right. by rewrite Htk, <- E.
  - rewrite length_app, Hl. done.
Qed.

(** A single byte, when it is nonzero or its run ends with it. *)
Lemma byte_chunk b rest t : b <> 0 \/ stops rest ->
  (forall r, Decompress (t ++ r) = match Decompress r with Ok buf => Ok ([b] ++ buf) | Err => Err end) ->
  chunk_ok (b :: rest) t 1.
Proof.
  intros Hb Ht. assert (E : runs_from 0 (b :: rest) = runs_from 0 rest).
  { destruct (decide (b = 0)) as [->|Hn]; [|by rewrite runs_from_nonzero].
    destruct Hb as [|Hs]; [done|]. transitivity (runs_from 1 rest); [done|]. by rewrite runs_from_stop. }
  split; [cbn; lia|]. exists [b]. rewrite E. split_and!; [done|done|by right|done].
Qed.

Lemma run_chunk dat : (2 <= count_zeros 255 dat)%nat ->
  chunk_ok dat [token; (Z.of_nat (count_zeros 255 dat) + 2) mod 256] (count_zeros 255 dat).
Proof.
  destruct (count_zeros_spec 255 dat) as (E & Hle & Hend). set (j := count_zeros 255 dat) in *. intros Hj.
  assert (Htk : take j dat = replicate j 0).
  { rewrite E at 1. by rewrite take_app_length' by (by rewrite length_replicate). }
  assert (Hlen : (j <= length dat)%nat) by (apply (f_equal length) in Htk; rewrite length_take, length_replicate in Htk; lia).
  assert (Hr : runs_from 0 dat = encodable_run j && runs_from 0 (drop j dat)).
  { rewrite E at 1. rewrite runs_from_zeros. cbn [Nat.add]. destruct Hend as [Hj'|Hs]; [|by apply runs_from_stop].
    rewrite Hj'. exact (runs_from_mod (drop 255 dat) 0). }
  split; [lia|]. exists (expansion ((Z.of_nat j + 2) mod 256)).
  pose proof (expansion_run j ltac:(lia)) as He. rewrite Hr.
  destruct (encodable_run j); cbn [andb]; split_and!; try done.
  - intros Hd. by rewrite He, Htk.
  - intros Hd. right. by rewrite He, Htk.
  - rewrite He, length_replicate. done.
  - intros _. by left.
  - lia.
Qed.

Lemma compressChunk_ok dat : dat <> [] -> exists b n, compressChunk dat = Ret (b, n) /\ chunk_ok dat b n.
Proof.
  intros Hne. destruct dat as [|b rest]; [done|]. cbn [compressChunk].
  destruct (Z.eqb_spec b token) as [->|Hb].
  { eexists _, _. split; [done|]. by apply byte_chunk; [left|]. }
  destruct (match rest with b1 :: _ => (b =? 0) && (b1 =? 0) | [] => false end) eqn:Hz.
  { eexists _, _. split; [done|]. apply run_chunk. destruct rest as [|b1 rest]; [done|].
    apply andb_true_iff in Hz as [->%Z.eqb_eq ->%Z.eqb_eq]. cbn. lia. }
  destruct (Nat.leb_spec 32 (length (b :: rest))) as [Hl|]; cbn [andb].
  1: destruct (bool_decide_reflect (take 32 (b :: rest) = empty)).
  { eexists _, _. split; [done|]. by apply (digest_chunk _ empty); [apply empty_shape| | |]. }
  1: destruct (bool_decide_reflect (take 32 (b :: rest) = emptyList)).
  { eexists _, _. split; [done|]. by apply (digest_chunk _ emptyList); [apply emptyList_shape| | |]. }
  all: eexists _, _; (split; [done|]); apply byte_chunk.
  all: try (intros r; cbn [app Decompress]; by destruct (Z.eqb_spec b token)).
  all: destruct (decide (b = 0)) as [->|]; [right|by left]; destruct rest as [|b1 rest]; [done|]; cbn in *.
  all: by destruct (Z.eqb_spec b1 0).
Qed.

Lemma compress_loop_ok fuel : forall dat, (length dat <= fuel)%nat ->
  exists buf d, compress_loop fuel dat = Ret buf /\ Decompress buf = Ok d /\
    (length d <= length dat)%nat /\
    (if runs_from 0 dat then d = dat else (length d < length dat)%nat).
Proof.
  induction fuel as [|fuel IH]; intros [|b0 dat] Hf; try (cbn in Hf; lia); [by exists [], []..|].
  set (whole := b0 :: dat) in *. destruct (compressChunk_ok whole) as (b & n & Ec & Hn & e & Hdec & Hok & Hbad & Hle);
    [done|].
  destruct (IH (drop n whole)) as (buf & d & El & Ed & Hdl & Hd); [rewrite length_drop; lia|].
  exists (b ++ buf), (e ++ d). rewrite length_drop in *.
  split; [cbn [compress_loop]; fold whole; rewrite Ec; cbn [mbind outcome_bind fst snd]; by rewrite El|].
  split; [by rewrite Hdec, Ed|]. rewrite length_app. split; [lia|]. destruct (runs_from 0 whole).
  - destruct (Hok eq_refl) as [-> Hr]. rewrite Hr in Hd. rewrite Hd. apply take_drop.
  - destruct (Hbad eq_refl) as [Hlt|[-> Hr]]; [lia|]. rewrite Hr in Hd. rewrite length_take. lia.
Qed.

(** Compression always succeeds, and decompression gives the data back
    exactly when no run of zeros has a length of 251, 252 or 253 modulo 255;
    otherwise the decompressed data is shorter than the original. *)
Theorem rle_roundtrip dat :
  exists buf d, Compress dat = Ret buf /\ Decompress buf = Ok d /\
    (d = dat <-> runs_from 0 dat = true) /\ (d <> dat -> (length d < length dat)%nat).
Proof.
  destruct (compress_loop_ok (length dat) dat (le_n _)) as (buf & d & Ec & Ed & _ & Hd).
  exists buf, d. split; [done|]. split; [done|]. destruct (runs_from 0 dat); [by subst|].
  split; [|done]. split; [|done]. intros ->. lia.
Qed.

End rle.
