(* ===== verification/Heap.v ===== *)
(** * container/heap

    The binary heap of the Go library, over a slice and the [Less] method of its
    element type: [Init], [Push], [Pop] and [Remove], as the transaction lists
    use them.  For a weak order all of them keep the heap order and the
    elements, and the element popped is a least one. *)
From S2P Require Import Prelude.

(** [Less] as a strict weak order. *)
Class WeakOrder {A : Type} (less : A -> A -> bool) : Prop := {
  less_asym : forall x y, less x y = true -> less y x = false;
  less_cotrans : forall x y z, less y x = false -> less z y = false -> less z x = false
}.

Section heap.
Context {A : Type} (less : A -> A -> bool).

(** [Less(i, j)] and [Swap(i, j)] on positions. *)
Definition Less (l : list A) (i j : nat) : bool :=
  match l !! i, l !! j with
  | Some x, Some y => less x y
  | _, _ => false
  end.

Definition Swap (l : list A) (i j : nat) : list A :=
  match l !! i, l !! j with
  | Some x, Some y => <[i := y]> (<[j := x]> l)
  | _, _ => l
  end.

(** The position moves to its parent: its own value is enough fuel. *)
Fixpoint up_loop (fuel : nat) (l : list A) (j : nat) : list A :=
  match fuel with
  | O => l
  | S fuel' =>
      let i := (j - 1) / 2 in
      if Nat.eqb i j || negb (Less l j i) then l else up_loop fuel' (Swap l i j) i
  end.

Definition up (l : list A) (j : nat) : list A := up_loop (S j) l j.

(** The position moves to a child, below [n]: that bound is enough fuel. *)
Fixpoint down_loop (fuel : nat) (l : list A) (i n : nat) : list A * nat :=
  match fuel with
  | O => (l, i)
  | S fuel' =>
      let j1 := 2 * i + 1 in
      if Nat.leb n j1 then (l, i)
      else
        let j2 := j1 + 1 in
        let j := if Nat.ltb j2 n && Less l j2 j1 then j2 else j1 in
        if negb (Less l j i) then (l, i) else down_loop fuel' (Swap l i j) j n
  end.

Definition down (l : list A) (i0 n : nat) : list A * bool :=
  let r := down_loop n l i0 n in (fst r, Nat.ltb i0 (snd r)).

Definition Init (l : list A) : list A :=
  let n := length l in
  foldr (fun i l => fst (down l i n)) l (seq 0 (n / 2)).

Definition Push (l : list A) (x : A) : list A := up (l ++ [x]) (length l).

(** The [Pop] of the element types: the last element. *)
Definition pop_last (l : list A) : option (A * list A) :=
  match last l with
  | Some x => Some (x, take (length l - 1) l)
  | None => None
  end.

Definition Pop (l : list A) : option (A * list A) :=
  let n := length l - 1 in
  pop_last (fst (down (Swap l 0 n) 0 n)).

Definition Remove (l : list A) (i : nat) : option (A * list A) :=
  let n := length l - 1 in
  pop_last
    (if negb (Nat.eqb n i) then
       let r := down (Swap l i n) i n in
       if negb (snd r) then up (fst r) i else fst r
     else l).

(** ** The heap order *)
Definition child (p c : nat) : Prop := c = 2 * p + 1 \/ c = 2 * p + 2.

Definition ordered (l : list A) (p c : nat) : Prop :=
  forall x y, l !! p = Some x -> l !! c = Some y -> less y x = false.

(** Parents from [lo] on and children below [n], but for the exceptions. *)
Definition heap_but (lo n : nat) (except : nat -> nat -> Prop) (l : list A) : Prop :=
  forall p c, child p c -> lo <= p -> c < n -> ~ except p c -> ordered l p c.

Definition is_heap (l : list A) : Prop := heap_but 0 (length l) (fun _ _ => False) l.

(** The children of a position are not below its parent. *)
Definition bridged (lo n i : nat) (l : list A) : Prop :=
  forall p c, child p i -> child i c -> lo <= p -> c < n -> ordered l p c.

(** ** Positions *)
Lemma lookup_Swap l i j k : i < length l -> j < length l ->
  Swap l i j !! k = if decide (k = i) then l !! j else if decide (k = j) then l !! i else l !! k.
Proof.
  intros Hi Hj. unfold Swap. destruct (lookup_lt_is_Some_2 l i Hi) as [x Ex], (lookup_lt_is_Some_2 l j Hj) as [y Ey].
  rewrite Ex, Ey. repeat case_decide; subst.
  - by rewrite list_lookup_insert_eq by (by rewrite length_insert).
  - by rewrite list_lookup_insert_ne, list_lookup_insert_eq by done.
  - by rewrite !list_lookup_insert_ne by done.
Qed.

Lemma Swap_perm l i j : Swap l i j ≡ₚ l.
Proof.
  unfold Swap. destruct (l !! i) as [x|] eqn:Ex; [|done]. destruct (l !! j) as [y|] eqn:Ey; [|done].
  by apply Permutation_insert_swap.
Qed.

Lemma length_Swap l i j : length (Swap l i j) = length l.
Proof. by rewrite Swap_perm. Qed.

Lemma Less_Some l i j x y : l !! i = Some x -> l !! j = Some y -> Less l i j = less x y.
Proof. intros Hx Hy. unfold Less. by rewrite Hx, Hy. Qed.

Lemma Less_false l i j : Less l j i = false -> ordered l i j.
Proof. intros H x y Hx Hy. by rewrite (Less_Some _ _ _ _ _ Hy Hx) in H. Qed.

Context `{!WeakOrder less}.

Lemma ordered_trans l i j k : j < length l -> ordered l i j -> ordered l j k -> ordered l i k.
Proof.
  intros Hj H1 H2 x z Hx Hz. destruct (lookup_lt_is_Some_2 l j Hj) as [y Hy].
  apply (less_cotrans x y z); eauto.
Qed.

Lemma Less_true l i j : Less l j i = true -> ordered l j i.
Proof. intros H x y Hx Hy. rewrite (Less_Some _ _ _ _ _ Hx Hy) in H. by apply less_asym. Qed.

(** The order between two positions after a swap is the order between the
    positions their elements come from. *)
Definition swapped (i j k : nat) : nat := if decide (k = i) then j else if decide (k = j) then i else k.

Lemma ordered_Swap l i j p c : i < length l -> j < length l ->
  ordered l (swapped i j p) (swapped i j c) -> ordered (Swap l i j) p c.
Proof.
  intros Hi Hj H x y Hx Hy. apply H.
  - rewrite lookup_Swap in Hx by done. unfold swapped. by repeat case_decide.
  - rewrite lookup_Swap in Hy by done. unfold swapped. by repeat case_decide.
Qed.

Ltac at_swap := apply ordered_Swap; [lia|lia|]; unfold swapped, child in *; repeat case_decide; subst; try lia.

(** ** Moving down *)
Lemma least_child l i n :
  let j1 := 2 * i + 1 in
  let j2 := j1 + 1 in
  let j := if Nat.ltb j2 n && Less l j2 j1 then j2 else j1 in
  j1 < n -> child i j /\ j < n /\ forall c, child i c -> c < n -> c <> j -> ordered l j c.
Proof.
  cbn zeta. intros Hlt. unfold child. destruct (Nat.ltb_spec (2 * i + 1 + 1) n) as [H2|H2]; cbn [andb].
  - destruct (Less l (2 * i + 1 + 1) (2 * i + 1)) eqn:E.
    + split_and!; [lia|lia|]. intros c Hc Hcn Hne. replace c with (2 * i + 1) by lia. by apply Less_true.
    + split_and!; [lia|lia|]. intros c Hc Hcn Hne. replace c with (2 * i + 1 + 1) by lia. by apply Less_false.
  - split_and!; [lia|lia|]. intros c Hc Hcn Hne. lia.
Qed.

(** One exchange with the least child moves the violation down. *)
Lemma sink_step lo n l i j :
  n <= length l -> lo <= i -> j < n -> child i j ->
  (forall c, child i c -> c < n -> c <> j -> ordered l j c) -> Less l j i = true ->
  heap_but lo n (fun p c => c = i \/ p = i) l -> bridged lo n i l ->
  let l' := Swap l i j in
  heap_but lo n (fun p c => p = j) l' /\ bridged lo n j l'.
Proof.
  intros Hn Hlo Hj Hc Hleast HL Hh Hb. cbn zeta. assert (i < j) by (unfold child in Hc; lia). split.
  - intros p c Hpc Hp Hcn Hx. at_swap.
    + by apply Less_true.
    + apply Hleast; unfold child; lia.
    + apply Hb; unfold child; lia.
    + apply Hh; unfold child; lia.
  - intros p c Hp Hcc Hlp Hcn. at_swap. apply Hh; unfold child; lia.
Qed.

Lemma heap_but_weaken lo n (P Q : nat -> nat -> Prop) l :
  heap_but lo n P l -> (forall p c, child p c -> lo <= p -> c < n -> P p c -> Q p c) -> heap_but lo n Q l.
Proof. intros H HPQ p c Hc Hp Hn HQ. apply H; auto. Qed.

Lemma heap_but_None lo n (P : nat -> nat -> Prop) l :
  heap_but lo n P l -> (forall p c, child p c -> lo <= p -> c < n -> P p c -> ordered l p c) ->
  (forall p c, child p c -> Decision (P p c)) -> heap_but lo n (fun _ _ => False) l.
Proof. intros H HP Hd p c Hc Hp Hn _. destruct (Hd p c Hc); [by apply HP|by apply H]. Qed.

Lemma down_loop_spec lo n : forall fuel l i,
  n <= length l -> lo <= i -> n <= fuel + i -> i < length l ->
  heap_but lo n (fun p c => c = i \/ p = i) l -> bridged lo n i l ->
  let r := down_loop fuel l i n in
  fst r ≡ₚ l /\ (forall k, n <= k -> fst r !! k = l !! k) /\ i <= snd r /\
  (if decide (snd r = i) then fst r = l /\ heap_but lo n (fun p c => c = i) l
   else heap_but lo n (fun _ _ => False) (fst r)).
Proof.
  induction fuel as [|fuel IH]; intros l i Hn Hlo Hf Hi Hh Hb; cbn [down_loop].
  { cbn. split_and!; [done..|]. rewrite decide_True by done. split; [done|].
    apply (heap_but_weaken _ _ _ _ _ Hh). unfold child. lia. }
  destruct (Nat.leb_spec n (2 * i + 1)) as [Hle|Hlt].
  { cbn. split_and!; [done..|]. rewrite decide_True by done. split; [done|].
    apply (heap_but_weaken _ _ _ _ _ Hh). unfold child. lia. }
  destruct (least_child l i n Hlt) as (Hc & Hjn & Hleast). set (j := if _ && _ then _ else _) in *.
  destruct (Less l j i) eqn:HL; cbn [negb].
  - destruct (sink_step lo n l i j) as [Hh' Hb']; [done..|].
    assert (Hij : i < j) by (unfold child in Hc; lia).
    destruct (IH (Swap l i j) j) as (Hp & Hk & Hjs & Hr); [rewrite ?length_Swap; lia..| |done|].
    { apply (heap_but_weaken _ _ _ _ _ Hh'). auto. }
    split_and!.
    + by rewrite Hp, Swap_perm.
    + intros k Hkn. rewrite Hk, lookup_Swap by lia. repeat case_decide; try done; lia.
    + lia.
    + rewrite decide_False by lia. case_decide as Hd; [|done]. destruct Hr as [-> Hr].
      intros p c Hpc Hpl Hcn _. destruct (decide (p = j)) as [->|]; [|by apply Hh'].
      apply Hr; try done. unfold child in *. lia.
  - cbn. split_and!; [done..|]. rewrite decide_True by done. split; [done|].
    intros p c Hpc Hpl Hcn Hx. destruct (decide (p = i)) as [->|]; [|apply Hh; [done..|tauto]].
    apply Less_false in HL. destruct (decide (c = j)) as [->|]; [done|].
    apply (ordered_trans _ _ j); [lia|done|by apply Hleast].
Qed.

(** When the order with the parent holds as well, moving down restores it
    all. *)
Lemma down_heap lo n l i :
  n <= length l -> lo <= i < length l -> heap_but lo n (fun p c => p = i) l -> bridged lo n i l ->
  let l' := fst (down l i n) in
  l' ≡ₚ l /\ (forall k, n <= k -> l' !! k = l !! k) /\ heap_but lo n (fun _ _ => False) l'.
Proof.
  intros Hn [Hlo Hi] Hh Hb.
  destruct (down_loop_spec lo n n l i) as (Hp & Hk & Hle & Hr); [lia..| |done|].
  { apply (heap_but_weaken _ _ _ _ _ Hh). auto. }
  cbn. split_and!; [done..|]. case_decide as Hd; [|done]. destruct Hr as [-> Hr].
  intros p c Hpc Hpl Hcn _. destruct (decide (p = i)) as [->|]; [|by apply Hh].
  apply Hr; try done. unfold child in Hpc. lia.
Qed.

(** ** Moving up *)
Lemma up_loop_spec n : forall fuel l j,
  j < fuel -> j < n -> n <= length l ->
  heap_but 0 n (fun p c => c = j) l -> bridged 0 n j l ->
  up_loop fuel l j ≡ₚ l /\ (forall k, n <= k -> up_loop fuel l j !! k = l !! k) /\
  heap_but 0 n (fun _ _ => False) (up_loop fuel l j).
Proof.
  induction fuel as [|fuel IH]; intros l j Hf Hj Hn Hh Hb; [lia|]. cbn [up_loop].
  assert (Hpar : j = 0 /\ (j - 1) / 2 = 0 \/ 0 < j /\ child ((j - 1) / 2) j).
  { pose proof (Nat.div_mod (j - 1) 2 ltac:(lia)). pose proof (Nat.mod_upper_bound (j - 1) 2 ltac:(lia)).
    unfold child. lia. }
  set (i := (j - 1) / 2) in *. destruct Hpar as [[-> ->]|[Hj0 Hc]]; cbn [Nat.eqb orb].
  { split_and!; [done..|]. apply (heap_but_weaken _ _ _ _ _ Hh). unfold child. lia. }
  assert (Hlt : i < j) by (unfold child in Hc; lia).
  destruct (Nat.eqb_spec i j); [lia|]. cbn [orb]. destruct (Less l j i) eqn:HL; cbn [negb].
  2: { split_and!; [done..|]. apply Less_false in HL. intros p c Hpc _ Hcn _.
       destruct (decide (c = j)) as [->|]; [|apply Hh; [done|lia|done|done]].
       replace p with i by (unfold child in *; lia). done. }
  destruct (IH (Swap l i j) i) as (Hp & Hk & Hr); [lia|lia|rewrite length_Swap; lia| | |].
  - intros p c Hpc _ Hcn Hx. at_swap.
    + by apply Less_true.
    + apply (ordered_trans _ _ i); [lia|by apply Less_true|]. apply Hh; unfold child; lia.
    + apply Hb; unfold child; lia.
    + apply Hh; unfold child; lia.
  - intros p c Hp Hcc _ Hcn. at_swap.
    + apply Hh; unfold child; lia.
    + apply (ordered_trans _ _ i); [lia|apply Hh; unfold child; lia..].
  - split_and!; [by rewrite Hp, Swap_perm| |done].
    intros k Hkn. rewrite Hk, lookup_Swap by lia. repeat case_decide; try done; lia.
Qed.

(** ** The operations *)
Lemma heap_but_ext lo n P l l' : (forall k, k < n -> l' !! k = l !! k) -> heap_but lo n P l -> heap_but lo n P l'.
Proof.
  intros E H p c Hpc Hp Hc Hx x y Hpx Hcy. assert (p < n) by (unfold child in Hpc; lia).
  rewrite E in Hpx, Hcy by done. by apply (H p c).
Qed.

Lemma heap_take n l : n <= length l -> heap_but 0 n (fun _ _ => False) l -> is_heap (take n l).
Proof.
  intros Hn Hh. unfold is_heap. rewrite length_take, Nat.min_l by done.
  apply (heap_but_ext _ _ _ l); [|done]. intros k Hk. by rewrite lookup_take_lt.
Qed.

Lemma pop_last_eq (l : list A) n x : length l = S n -> l !! n = Some x ->
  pop_last l = Some (x, take n l) /\ x :: take n l ≡ₚ l.
Proof.
  intros Hl Hx. unfold pop_last. rewrite last_lookup, Hl. cbn [pred]. rewrite Hx.
  replace (S n - 1) with n by lia. split; [done|].
  rewrite <- (take_drop_middle l n x Hx) at 2. rewrite drop_ge by lia. by rewrite Permutation_cons_append.
Qed.

Lemma is_heap_nil : is_heap [].
Proof. intros p c Hpc _ Hc. cbn in Hc. lia. Qed.

Lemma heap_least l m x : is_heap l -> l !! 0 = Some m -> x ∈ l -> less x m = false.
Proof.
  intros Hh Hm [k Hk]%list_elem_of_lookup. revert x Hk.
  induction k as [k IH] using lt_wf_ind. intros x Hk. destruct (decide (k = 0)) as [->|Hk0].
  { replace x with m by congruence. destruct (less m m) eqn:E; [|done].
    pose proof (less_asym _ _ E). congruence. }
  assert (Hc : child ((k - 1) / 2) k).
  { pose proof (Nat.div_mod (k - 1) 2 ltac:(lia)). pose proof (Nat.mod_upper_bound (k - 1) 2 ltac:(lia)).
    unfold child. lia. }
  pose proof (lookup_lt_Some _ _ _ Hk). assert ((k - 1) / 2 < k) by (unfold child in Hc; lia).
  destruct (lookup_lt_is_Some_2 l ((k - 1) / 2)) as [y Hy]; [lia|].
  apply (less_cotrans m y x); [by apply (IH ((k - 1) / 2))|].
  apply (Hh ((k - 1) / 2) k); [done|lia|done|tauto|done|done].
Qed.

Theorem Push_heap l x : is_heap l -> is_heap (Push l x) /\ Push l x ≡ₚ x :: l.
Proof.
  intros Hh. destruct (up_loop_spec (S (length l)) (S (length l)) (l ++ [x]) (length l)) as (Hp & _ & Hr);
    [lia|lia|rewrite length_app; cbn; lia| | |].
  - apply (heap_but_ext 0 (S (length l)) _ (l ++ [x])); [done|]. intros p c Hpc _ Hc Hx.
    assert (p < length l /\ c < length l) as [Hpl Hcl] by (unfold child in Hpc; lia).
    intros y z Hy Hz. rewrite lookup_app_l in Hy, Hz by done. by apply (Hh p c); [|lia| |tauto|..].
  - intros p c _ Hc _ Hcn. unfold child in Hc. lia.
  - assert (E : Push l x ≡ₚ x :: l) by (unfold Push, up; by rewrite Hp, Permutation_app_comm).
    split; [|done]. unfold is_heap. by rewrite (Permutation_length E).
Qed.

Theorem Pop_heap l m : is_heap l -> l !! 0 = Some m ->
  exists l', Pop l = Some (m, l') /\ m :: l' ≡ₚ l /\ is_heap l'.
Proof.
  intros Hh Hm. pose proof (lookup_lt_Some _ _ _ Hm) as Hl. set (n := length l - 1).
  assert (Hlen : length l = S n) by lia.
  destruct (down_heap 0 n (Swap l 0 n) 0) as (Hp & Hk & Hr); [rewrite length_Swap; lia..| | |].
  - intros p c Hpc _ Hc Hx. at_swap. apply Hh; unfold child; lia.
  - intros p c Hc. unfold child in Hc. lia.
  - set (l1 := fst _) in *. assert (Hl1 : length l1 = S n) by (rewrite Hp, length_Swap; done).
    assert (Hx : l1 !! n = Some m).
    { rewrite Hk, lookup_Swap by lia. repeat case_decide; subst; [|done|done]. congruence. }
    destruct (pop_last_eq l1 n m Hl1 Hx) as [E Hpm]. exists (take n l1).
    split; [exact E|]. split; [by rewrite Hpm, Hp, Swap_perm|]. by apply heap_take; [lia|].
Qed.

Theorem Init_heap l : is_heap (Init l) /\ Init l ≡ₚ l.
Proof.
  assert (G : forall k i, i + k = length l / 2 ->
    let l' := foldr (fun i l0 => fst (down l0 i (length l))) l (seq i k) in
    l' ≡ₚ l /\ heap_but i (length l) (fun _ _ => False) l').
  { induction k as [|k IH]; intros i Hi; cbn [seq foldr].
    - split; [done|]. intros p c Hpc Hp Hc _. pose proof (Nat.div_mod (length l) 2 ltac:(lia)).
      pose proof (Nat.mod_upper_bound (length l) 2 ltac:(lia)). unfold child in Hpc. lia.
    - destruct (IH (S i)) as [Hp Hh]; [lia|]. set (l1 := foldr _ _ _) in *.
      assert (Hl : length l1 = length l) by (by rewrite Hp).
      destruct (down_heap i (length l) l1 i) as (Hp' & _ & Hr); [lia| | | |].
      + pose proof (Nat.div_mod (length l) 2 ltac:(lia)). lia.
      + intros p c Hpc Hip Hc Hx. apply Hh; [done|lia|done|tauto].
      + intros p c Hpc. unfold child in Hpc. lia.
      + split; [by rewrite Hp'|done]. }
  destruct (G (length l / 2) 0 eq_refl) as [Hp Hh]. split; [|done]. unfold is_heap.
  by rewrite (Permutation_length Hp : length (Init l) = length l).
Qed.

Theorem Remove_heap l i x : is_heap l -> l !! i = Some x ->
  exists l', Remove l i = Some (x, l') /\ x :: l' ≡ₚ l /\ is_heap l'.
Proof.
  intros Hh Hx. pose proof (lookup_lt_Some _ _ _ Hx) as Hl. unfold Remove. set (n := length l - 1).
  assert (Hlen : length l = S n) by lia.
  assert (G : forall l1, l1 ≡ₚ l -> l1 !! n = Some x -> heap_but 0 n (fun _ _ => False) l1 ->
    exists l', pop_last l1 = Some (x, l') /\ x :: l' ≡ₚ l /\ is_heap l').
  { intros l1 Hp1 Hx1 Hh1. assert (length l1 = S n) by (by rewrite Hp1).
    destruct (pop_last_eq l1 n x) as [E Hpm]; [done..|]. exists (take n l1).
    split; [done|]. split; [by rewrite Hpm|]. by apply heap_take; [lia|]. }
  destruct (Nat.eqb_spec n i) as [<-|Hni]; cbn [negb].
  { apply G; [done..|]. apply (heap_but_weaken 0 n (fun _ _ => False)); [|done].
    intros p c Hpc Hp Hc. apply Hh; [done|done|lia]. }
  destruct (down_loop_spec 0 n n (Swap l i n) i) as (Hp & Hk & Hle & Hr); [rewrite ?length_Swap; lia..| | |].
  - intros p c Hpc _ Hc Hne. at_swap. apply Hh; unfold child; lia.
  - intros p c Hpi Hic _ Hc. at_swap. apply (ordered_trans _ _ i); [lia|apply Hh; unfold child; lia..].
  - unfold down. set (r := down_loop _ _ _ _) in *. cbn [fst snd].
    assert (Hxn : fst r !! n = Some x).
    { rewrite Hk, lookup_Swap by lia. rewrite decide_False, decide_True by lia. done. }
    destruct (Nat.ltb_spec i (snd r)) as [Hmv|Hst]; cbn [negb].
    + rewrite decide_False in Hr by lia. apply G; [by rewrite Hp, Swap_perm|done|done].
    + rewrite decide_True in Hr by lia. destruct Hr as [Er Hr]. rewrite Er in *.
      destruct (up_loop_spec n (S i) (Swap l i n) i) as (Hp' & Hk' & Hr'); [lia|lia|rewrite length_Swap; lia|done| |].
      * intros p c Hpi Hic _ Hc. at_swap. apply (ordered_trans _ _ i); [lia|apply Hh; unfold child; lia..].
      * apply G; [by rewrite Hp', Swap_perm|by rewrite Hk' by lia|done].
Qed.

End heap.
