(* ===== verification/TxList.v ===== *)
(** * Transaction lists (core/tx_list.go)

    The transactions of one account, by nonce: a map with a heap of its keys and
    a cache of its sorted contents ([txSortedMap]); the list of an account with
    the bounds that let it skip filtering ([txList]); and the heap of all
    transactions by price, with the stale ones left in it ([txPricedList]). *)
From S2P Require Import Prelude GoMonad Heap.
Local Open Scope Z_scope.

(** What the lists use of a transaction of MoacLib/types; [Tx_Sender] is
    [types.Sender] with the signer of the pool. *)
Class TxLib := {
  Transaction : Type;
  #[global] Transaction_eq_dec :: EqDecision Transaction;
  Tx_Nonce : Transaction -> Z;
  Tx_GasPrice : Transaction -> Z;
  Tx_GasLimit : Transaction -> Z;
  Tx_Cost : Transaction -> Z;
  Tx_Hash : Transaction -> Z;
  Tx_Sender : Transaction -> result Z;
  Tx_Nonce_u64 : forall tx, is_u64 (Tx_Nonce tx)
}.

(** A slice of pointers. *)
Abbreviation Transactions := (list (option Transaction)).

Section tx_list.
Context `{TxLib} `{!MapOrder Z Transaction}.

(** ** [txSortedMap] *)
Record txSortedMap := mkSortedMap {
  items : gmap Z Transaction;
  index : list Z;
  cache : option (list Transaction)
}.

Definition newTxSortedMap : txSortedMap := mkSortedMap ∅ [] None.

(** [types.TxByNonce] *)
Definition by_nonce (a b : Transaction) : Prop := Tx_Nonce a <= Tx_Nonce b.

#[global] Instance by_nonce_dec a b : Decision (by_nonce a b).
Proof. unfold by_nonce. apply _. Defined.

Definition Get (nonce : Z) (m : txSortedMap) : option Transaction := items m !! nonce.

Definition Put (tx : Transaction) (m : txSortedMap) : txSortedMap :=
  let nonce := Tx_Nonce tx in
  let index' := if found (items m !! nonce) then index m else Push Z.ltb (index m) nonce in
  mkSortedMap (<[nonce := tx]> (items m)) index' None.

(** Each iteration takes one nonce off the heap: its length is enough fuel. *)
Fixpoint forward_loop (fuel : nat) (threshold : Z) (removed : Transactions) (its : gmap Z Transaction)
    (idx : list Z) : outcome (Transactions * (gmap Z Transaction * list Z)) :=
  match idx with
  | [] => Ret (removed, (its, idx))
  | first :: _ =>
      if negb (first <? threshold) then Ret (removed, (its, idx))
      else
        match fuel with
        | O => OutOfFuel
        | S fuel' =>
            match Pop Z.ltb idx with
            | None => Panic
            | Some (nonce, idx') =>
                forward_loop fuel' threshold (removed ++ [its !! nonce]) (delete nonce its) idx'
            end
        end
  end.

Definition Forward (threshold : Z) (m : txSortedMap) : outcome (Transactions * txSortedMap) :=
  r ← forward_loop (length (index m)) threshold [] (items m) (index m);
  let '(removed, (its, idx)) := r in
  match cache m with
  | None => Ret (removed, mkSortedMap its idx None)
  | Some c =>
      if Nat.leb (length removed) (length c)
      then Ret (removed, mkSortedMap its idx (Some (drop (length removed) c)))
      else Panic
  end.

(** Deleting from a map while ranging over it visits every other entry. *)
Definition Filter (f : Transaction -> bool) (m : txSortedMap) : list Transaction * txSortedMap :=
  let removed := filter (fun e => f e.2 = true) (range (items m)) in
  let its := foldr (fun e its => delete e.1 its) (items m) removed in
  if Nat.ltb 0 (length removed)
  then (removed.*2, mkSortedMap its (Init Z.ltb (range its).*1) None)
  else (removed.*2, m).

(** The [n] positions below [size], from the top. *)
Fixpoint cap_loop (n : nat) (size : Z) (drops : Transactions) (its : gmap Z Transaction) (idx : list Z)
    : outcome (Transactions * gmap Z Transaction) :=
  match n with
  | O => Ret (drops, its)
  | S n' =>
      if size - 1 <? 0 then Panic
      else
        match idx !! Z.to_nat (size - 1) with
        | None => Panic
        | Some nonce => cap_loop n' (size - 1) (drops ++ [its !! nonce]) (delete nonce its) idx
        end
  end.

Definition Cap (threshold : Z) (m : txSortedMap) : outcome (Transactions * txSortedMap) :=
  let size := Z.of_nat (size (items m)) in
  if size <=? threshold then Ret ([], m)
  else
    let sorted := merge_sort Z.le (index m) in
    r ← cap_loop (Z.to_nat (size - threshold)) size [] (items m) sorted;
    let '(drops, its) := r in
    if Z.of_nat (length sorted) <? threshold then Panic
    else
      let idx := Init Z.ltb (take (Z.to_nat threshold) sorted) in
      match cache m with
      | None => Ret (drops, mkSortedMap its idx None)
      | Some c =>
          if Nat.leb (length drops) (length c)
          then Ret (drops, mkSortedMap its idx (Some (take (length c - length drops) c)))
          else Panic
      end.

(** The position of a nonce in the heap. *)
Fixpoint find_nonce (nonce : Z) (idx : list Z) (i : nat) : option nat :=
  match idx with
  | [] => None
  | n :: idx' => if n =? nonce then Some i else find_nonce nonce idx' (S i)
  end.

Definition TxRemove (nonce : Z) (m : txSortedMap) : outcome (bool * txSortedMap) :=
  if negb (found (items m !! nonce)) then Ret (false, m)
  else
    idx ← match find_nonce nonce (index m) 0 with
          | None => Ret (index m)
          | Some i => match Remove Z.ltb (index m) i with Some (_, idx) => Ret idx | None => Panic end
          end;
    Ret (true, mkSortedMap (delete nonce (items m)) idx None).

Fixpoint ready_loop (fuel : nat) (next : Z) (ready : Transactions) (its : gmap Z Transaction)
    (idx : list Z) : outcome (Transactions * (gmap Z Transaction * list Z)) :=
  match idx with
  | [] => Ret (ready, (its, idx))
  | first :: _ =>
      if negb (first =? next) then Ret (ready, (its, idx))
      else
        match fuel with
        | O => OutOfFuel
        | S fuel' =>
            match Pop Z.ltb idx with
            | None => Panic
            | Some (_, idx') =>
                ready_loop fuel' (u64 (next + 1)) (ready ++ [its !! next]) (delete next its) idx'
            end
        end
  end.

Definition Ready (start : Z) (m : txSortedMap) : outcome (Transactions * txSortedMap) :=
  match index m with
  | [] => Ret ([], m)
  | first :: _ =>
      if first >? start then Ret ([], m)
      else
        r ← ready_loop (length (index m)) first [] (items m) (index m);
        let '(ready, (its, idx)) := r in
        Ret (ready, mkSortedMap its idx None)
  end.

Definition Len (m : txSortedMap) : Z := Z.of_nat (size (items m)).

Definition Flatten (m : txSortedMap) : list Transaction * txSortedMap :=
  let c := match cache m with Some c => c | None => merge_sort by_nonce (range (items m)).*2 end in
  (c, mkSortedMap (items m) (index m) (Some c)).

(** ** [txList] *)
Record txList := mkTxList {
  strict : bool;
  txs : txSortedMap;
  costcap : Z;
  gascap : Z
}.

Definition newTxList (strict : bool) : txList := mkTxList strict newTxSortedMap 0 0.

Definition with_txs (m : txSortedMap) (l : txList) : txList := mkTxList (strict l) m (costcap l) (gascap l).

Definition Overlaps (tx : Transaction) (l : txList) : bool := found (Get (Tx_Nonce tx) (txs l)).

(** The price a transaction has to exceed to replace another one. *)
Definition bump_threshold (price priceBump : Z) : Z := price * i64 (100 + i64 priceBump) / 100.

Definition List_Add (tx : Transaction) (priceBump : Z) (l : txList) : (bool * option Transaction) * txList :=
  let old := Get (Tx_Nonce tx) (txs l) in
  if match old with
     | Some o => bump_threshold (Tx_GasPrice o) priceBump >=? Tx_GasPrice tx
     | None => false
     end
  then ((false, None), l)
  else
    let cost := Tx_Cost tx in
    let gasLimit := Tx_GasLimit tx in
    ((true, old),
     mkTxList (strict l) (Put tx (txs l))
       (if costcap l <? cost then cost else costcap l)
       (if gascap l <? gasLimit then gasLimit else gascap l)).

Definition List_Forward (threshold : Z) (l : txList) : outcome (Transactions * txList) :=
  r ← Forward threshold (txs l); Ret (fst r, with_txs (snd r) l).

Definition List_Filter (costLimit gasLimit : Z) (l : txList)
    : (list Transaction * list Transaction) * txList :=
  if (costcap l <=? costLimit) && (gascap l <=? gasLimit) then (([], []), l)
  else
    let r := Filter (fun tx => (Tx_Cost tx >? costLimit) || (Tx_GasLimit tx >? gasLimit)) (txs l) in
    let removed := fst r in
    let l' := mkTxList (strict l) (snd r) costLimit gasLimit in
    if strict l && Nat.ltb 0 (length removed) then
      let lowest := foldl (fun low tx => if low >? Tx_Nonce tx then Tx_Nonce tx else low) MaxUint64 removed in
      let r' := Filter (fun tx => Tx_Nonce tx >? lowest) (txs l') in
      ((removed, fst r'), with_txs (snd r') l')
    else ((removed, []), l').

Definition List_Cap (threshold : Z) (l : txList) : outcome (Transactions * txList) :=
  r ← Cap threshold (txs l); Ret (fst r, with_txs (snd r) l).

Definition List_Remove (tx : Transaction) (l : txList) : outcome ((bool * list Transaction) * txList) :=
  let nonce := Tx_Nonce tx in
  r ← TxRemove nonce (txs l);
  let l' := with_txs (snd r) l in
  if negb (fst r) then Ret ((false, []), l')
  else if strict l then
    let f := Filter (fun tx => Tx_Nonce tx >? nonce) (txs l') in
    Ret ((true, fst f), with_txs (snd f) l')
  else Ret ((true, []), l').

Definition List_Ready (start : Z) (l : txList) : outcome (Transactions * txList) :=
  r ← Ready start (txs l); Ret (fst r, with_txs (snd r) l).

Definition List_Len (l : txList) : Z := Len (txs l).

Definition Empty (l : txList) : bool := List_Len l =? 0.

Definition List_Flatten (l : txList) : list Transaction * txList :=
  let r := Flatten (txs l) in (fst r, with_txs (snd r) l).

(** ** [accountSet] *)
Definition contains (accounts : gset Z) (addr : Z) : bool := bool_decide (addr ∈ accounts).

Definition containsTx (accounts : gset Z) (tx : Transaction) : bool :=
  match Tx_Sender tx with Ok addr => contains accounts addr | Err => false end.

(** ** [txPricedList]

    The map of all transactions is shared with the pool: it is an argument of
    the operations. *)
Record txPricedList := mkPricedList {
  prices : list Transaction;
  stales : Z
}.

Definition newTxPricedList : txPricedList := mkPricedList [] 0.

Definition cheaper (a b : Transaction) : bool := Tx_GasPrice a <? Tx_GasPrice b.

Definition stale (all : gmap Z Transaction) (tx : Transaction) : bool := negb (found (all !! Tx_Hash tx)).

Definition Priced_Put (tx : Transaction) (l : txPricedList) : txPricedList :=
  mkPricedList (Push cheaper (prices l) tx) (stales l).

Definition Removed (all : gmap Z Transaction) (l : txPricedList) : txPricedList :=
  let stales' := stales l + 1 in
  if stales' <=? Z.of_nat (length (prices l)) / 4 then mkPricedList (prices l) stales'
  else mkPricedList (Init cheaper (range all).*2) 0.

(** Each iteration pops one transaction: the length of the heap is enough
    fuel. *)
Fixpoint pcap_loop (fuel : nat) (threshold : Z) (local : gset Z) (all : gmap Z Transaction)
    (drop save : list Transaction) (l : txPricedList)
    : outcome ((list Transaction * list Transaction) * txPricedList) :=
  match prices l with
  | [] => Ret ((drop, save), l)
  | _ :: _ =>
      match fuel with
      | O => OutOfFuel
      | S fuel' =>
          match Pop cheaper (prices l) with
          | None => Panic
          | Some (tx, rest) =>
              if stale all tx then
                pcap_loop fuel' threshold local all drop save (mkPricedList rest (stales l - 1))
              else if Tx_GasPrice tx >=? threshold then
                Ret ((drop, save ++ [tx]), mkPricedList rest (stales l))
              else if containsTx local tx then
                pcap_loop fuel' threshold local all drop (save ++ [tx]) (mkPricedList rest (stales l))
              else
                pcap_loop fuel' threshold local all (drop ++ [tx]) save (mkPricedList rest (stales l))
          end
      end
  end.

Definition push_all (save : list Transaction) (l : txPricedList) : txPricedList :=
  foldl (fun l tx => Priced_Put tx l) l save.

Definition Priced_Cap (threshold : Z) (local : gset Z) (all : gmap Z Transaction) (l : txPricedList)
    : outcome (list Transaction * txPricedList) :=
  r ← pcap_loop (length (prices l)) threshold local all [] [] l;
  let '((drop, save), l') := r in
  Ret (drop, push_all save l').

Fixpoint discard_stale (fuel : nat) (all : gmap Z Transaction) (l : txPricedList) : outcome txPricedList :=
  match prices l with
  | [] => Ret l
  | head :: _ =>
      if stale all head then
        match fuel with
        | O => OutOfFuel
        | S fuel' =>
            match Pop cheaper (prices l) with
            | None => Panic
            | Some (_, rest) => discard_stale fuel' all (mkPricedList rest (stales l - 1))
            end
        end
      else Ret l
  end.

Definition Underpriced (tx : Transaction) (local : gset Z) (all : gmap Z Transaction) (l : txPricedList)
    : outcome (bool * txPricedList) :=
  if containsTx local tx then Ret (false, l)
  else
    l' ← discard_stale (length (prices l)) all l;
    match prices l' with
    | [] => Ret (false, l')
    | cheapest :: _ => Ret (Tx_GasPrice cheapest >=? Tx_GasPrice tx, l')
    end.

Fixpoint discard_loop (fuel : nat) (count : Z) (local : gset Z) (all : gmap Z Transaction)
    (drop save : list Transaction) (l : txPricedList)
    : outcome ((list Transaction * list Transaction) * txPricedList) :=
  if count >? 0 then
    match prices l with
    | [] => Ret ((drop, save), l)
    | _ :: _ =>
        match fuel with
        | O => OutOfFuel
        | S fuel' =>
            match Pop cheaper (prices l) with
            | None => Panic
            | Some (tx, rest) =>
                if stale all tx then
                  discard_loop fuel' count local all drop save (mkPricedList rest (stales l - 1))
                else if containsTx local tx then
                  discard_loop fuel' count local all drop (save ++ [tx]) (mkPricedList rest (stales l))
                else
                  discard_loop fuel' (count - 1) local all (drop ++ [tx]) save (mkPricedList rest (stales l))
            end
        end
    end
  else Ret ((drop, save), l).

Definition Discard (count : Z) (local : gset Z) (all : gmap Z Transaction) (l : txPricedList)
    : outcome (list Transaction * txPricedList) :=
  if count <? 0 then Panic
  else
    r ← discard_loop (length (prices l)) count local all [] [] l;
    let '((drop, save), l') := r in
    Ret (drop, push_all save l').

End tx_list.
