(* ===== verification/TxListProps.v ===== *)
(** * Transaction lists: what they implement (core/tx_list.go)

    The heap-indexed map with its cache refines a plain map from nonces to
    transactions; the bounds of an account's list never hide a transaction that
    has to be filtered out; the price heap drops the cheapest remote
    transactions however many stale entries it holds. *)
From S2P Require Import Prelude GoMonad Heap TxList.
Local Open Scope Z_scope.

#[export] Instance ltb_order : WeakOrder Z.ltb.
Proof. split; intros; boolp; apply Z.ltb_ge; lia. Qed.

#[export] Instance Zle_trans : Transitive Z.le.
Proof. intros x y z. lia. Qed.

#[export] Instance Zle_total : Total Z.le.
Proof. intros x y. lia. Qed.

#[export] Instance Zle_antisymm : AntiSymm (=) Z.le.
Proof. intros x y. lia. Qed.

(** ** Sorted keys *)
Section keys.
Context {V : Type}.
Implicit Types m : gmap Z V.

Definition keys m : list Z := merge_sort Z.le (map_to_list m).*1.

Lemma elem_of_keys m k : k ∈ keys m <-> is_Some (m !! k).
Proof.
  unfold keys. rewrite merge_sort_Permutation, list_elem_of_fmap. split.
  - intros ([k' v] & -> & Hv%elem_of_map_to_list). by exists v.
  - intros [v Hv]. exists (k, v). split; [done|]. by apply elem_of_map_to_list.
Qed.

Lemma NoDup_keys m : NoDup (keys m).
Proof. unfold keys. rewrite merge_sort_Permutation. apply NoDup_fst_map_to_list. Qed.

Lemma keys_sorted m : StronglySorted Z.le (keys m).
Proof. apply StronglySorted_merge_sort; apply _. Qed.

Lemma keys_perm m : keys m ≡ₚ (map_to_list m).*1.
Proof. apply merge_sort_Permutation. Qed.

Lemma length_keys m : length (keys m) = size m.
Proof. by rewrite keys_perm, length_fmap, length_map_to_list. Qed.

(** A sorted list without repetition that has the keys of a map is its list of
    keys. *)
Lemma keys_unique m ks :
  StronglySorted Z.le ks -> NoDup ks -> (forall k, k ∈ ks <-> is_Some (m !! k)) -> ks = keys m.
Proof.
  intros Hs Hn He. apply (StronglySorted_unique Z.le); [done|apply keys_sorted|].
  apply NoDup_Permutation; [done|apply NoDup_keys|]. intros k. by rewrite He, elem_of_keys.
Qed.

Lemma keys_empty : keys ∅ = [].
Proof. symmetry. apply keys_unique; [constructor|constructor|]. intros k. rewrite lookup_empty. split; [by intros ?%elem_of_nil|by intros []]. Qed.

Lemma keys_filter m (P : Z -> Prop) `{!forall k, Decision (P k)} :
  keys (filter (fun e => P e.1) m) = filter P (keys m).
Proof.
  symmetry. apply keys_unique.
  - pose proof (keys_sorted m) as Hs. induction Hs as [|k ks Hs IH Hk]; [constructor|].
    rewrite filter_cons. case_decide; [|done]. constructor; [done|].
    rewrite Forall_forall in Hk |- *. intros x [_ Hx]%list_elem_of_filter. by apply Hk.
  - apply NoDup_filter, NoDup_keys.
  - intros k. rewrite list_elem_of_filter, elem_of_keys. split.
    + intros [HP [v Hv]]. exists v. by apply map_lookup_filter_Some.
    + intros [v [Hv HP]%map_lookup_filter_Some]. split; [done|by exists v].
Qed.

Lemma keys_first m k ks : keys m = k :: ks ->
  is_Some (m !! k) /\ (forall k', is_Some (m !! k') -> k <= k') /\ ks = keys (delete k m).
Proof.
  intros E. pose proof (keys_sorted m) as Hs. pose proof (NoDup_keys m) as Hn. rewrite E in Hs, Hn.
  apply StronglySorted_inv in Hs as [Hs Hk]. apply NoDup_cons in Hn as [Hnk Hn].
  rewrite Forall_forall in Hk. split_and!.
  - apply elem_of_keys. rewrite E. by left.
  - intros k' Hk'. apply elem_of_keys in Hk'. rewrite E in Hk'. apply elem_of_cons in Hk' as [->|Hk']; [lia|by apply Hk].
  - apply keys_unique; [done..|]. intros k'. rewrite lookup_delete_is_Some, <- elem_of_keys, E, elem_of_cons.
    split; [|intuition congruence]. intros Hk'. split; [|by right]. by intros ->.
Qed.

Lemma keys_insert_perm m k v : m !! k = None -> keys (<[k := v]> m) ≡ₚ k :: keys m.
Proof. intros Hk. rewrite !keys_perm. by rewrite map_to_list_insert. Qed.

Lemma keys_insert_Some m k v : is_Some (m !! k) -> keys (<[k := v]> m) = keys m.
Proof.
  intros Hk. apply keys_unique; [apply keys_sorted|apply NoDup_keys|]. intros k'.
  rewrite elem_of_keys, lookup_insert_is_Some'. split; [by intros [<-|?]|by right].
Qed.

Lemma keys_delete_perm m k : is_Some (m !! k) -> keys m ≡ₚ k :: keys (delete k m).
Proof. intros [v Hv]. rewrite <- (insert_delete_id m k v) at 1 by done. by rewrite keys_insert_perm by apply lookup_delete_eq. Qed.

(** The pointers of a list of keys. *)
Definition contents m (ks : list Z) : list (option V) := (fun k => m !! k) <$> ks.

Lemma contents_ext m m' ks : (forall k, k ∈ ks -> m !! k = m' !! k) -> contents m ks = contents m' ks.
Proof. intros Hk. apply list_fmap_ext. intros i k Hi. apply Hk. by apply list_elem_of_lookup_2 in Hi. Qed.

Lemma sorted_split ks t : StronglySorted Z.le ks -> ks = filter (fun k => k < t) ks ++ filter (fun k => t <= k) ks.
Proof.
  induction 1 as [|k ks Hs IH Hk]; [done|]. rewrite !filter_cons. repeat case_decide; try lia.
  - cbn. by rewrite <- IH.
  - assert (filter (fun k => k < t) ks = []) as E.
    { apply filter_none. rewrite Forall_forall in Hk. intros x Hx ?. specialize (Hk x Hx). lia. }
    rewrite E in *. cbn in *. by rewrite <- IH.
Qed.

Lemma drop_below ks t : StronglySorted Z.le ks ->
  drop (length (filter (fun k => k < t) ks)) ks = filter (fun k => t <= k) ks.
Proof.
  intros Hs%(sorted_split _ t). set (a := filter _ _) in Hs |- *. set (b := filter _ _) in Hs |- *. clearbody a b.
  rewrite Hs. apply drop_app_length.
Qed.

Lemma length_below (ks : list Z) t : (length (filter (fun k => k < t)%Z ks) <= length ks)%nat.
Proof. apply length_filter. Qed.

End keys.

(** ** The specification

    A map from nonces to transactions, and what each operation returns. *)
Section spec.
Context `{TxLib} `{!MapOrder Z Transaction}.

Inductive op :=
| OpGet (nonce : Z)
| OpPut (tx : Transaction)
| OpForward (threshold : Z)
| OpFilter (f : Transaction -> bool)
| OpCap (threshold : Z)
| OpRemove (nonce : Z)
| OpReady (start : Z)
| OpLen
| OpFlatten.

Inductive out :=
| OutTx (tx : option Transaction)
| OutTxs (l : Transactions)
| OutBool (b : bool)
| OutInt (n : Z)
| OutUnit.

(** One call of the implementation. *)
Definition txcall (o : op) (m : txSortedMap) : outcome (out * txSortedMap) :=
  match o with
  | OpGet nonce => Ret (OutTx (Get nonce m), m)
  | OpPut tx => Ret (OutUnit, Put tx m)
  | OpForward threshold => r ← Forward threshold m; Ret (OutTxs (fst r), snd r)
  | OpFilter f => let r := Filter f m in Ret (OutTxs (Some <$> fst r), snd r)
  | OpCap threshold => r ← Cap threshold m; Ret (OutTxs (fst r), snd r)
  | OpRemove nonce => r ← TxRemove nonce m; Ret (OutBool (fst r), snd r)
  | OpReady start => r ← Ready start m; Ret (OutTxs (fst r), snd r)
  | OpLen => Ret (OutInt (Len m), m)
  | OpFlatten => let r := Flatten m in Ret (OutTxs (Some <$> fst r), snd r)
  end.

Fixpoint txcalls (os : list op) (m : txSortedMap) : outcome (list out * txSortedMap) :=
  match os with
  | [] => Ret ([], m)
  | o :: os' =>
      r ← txcall o m;
      rs ← txcalls os' (snd r);
      Ret (fst r :: fst rs, snd rs)
  end.

Abbreviation amap := (gmap Z Transaction).

(** [spec o m r m']: the operation on the map [m] returns [r] and leaves
    [m']. *)
Inductive spec : op -> amap -> out -> amap -> Prop :=
| spec_get n m : spec (OpGet n) m (OutTx (m !! n)) m
| spec_put tx m : spec (OpPut tx) m OutUnit (<[Tx_Nonce tx := tx]> m)
| spec_forward t m :
    spec (OpForward t) m (OutTxs (contents m (filter (fun k => k < t) (keys m))))
      (filter (fun e => t <= e.1) m)
| spec_filter f m removed :
    removed ≡ₚ (map_to_list (filter (fun e => f e.2 = true) m)).*2 ->
    spec (OpFilter f) m (OutTxs (Some <$> removed)) (filter (fun e => f e.2 = false) m)
| spec_cap t m :
    spec (OpCap t) m (OutTxs (contents m (reverse (drop (Z.to_nat t) (keys m)))))
      (filter (fun e => e.1 ∈ take (Z.to_nat t) (keys m)) m)
| spec_remove n m : spec (OpRemove n) m (OutBool (bool_decide (is_Some (m !! n)))) (delete n m)
| spec_not_ready start m :
    (forall k, is_Some (m !! k) -> start < k) -> spec (OpReady start) m (OutTxs []) m
| spec_ready start m first ks len :
    keys m = first :: ks -> first <= start -> 0 < len ->
    (forall k, first <= k < first + len -> is_Some (m !! k)) -> m !! (first + len) = None ->
    spec (OpReady start) m (OutTxs (contents m (seqZ first len))) (filter (fun e => first + len <= e.1) m)
| spec_len m : spec OpLen m (OutInt (Z.of_nat (size m))) m
| spec_flatten m : spec OpFlatten m (OutTxs (contents m (keys m))) m.

Inductive specs : list op -> amap -> list out -> amap -> Prop :=
| specs_nil m : specs [] m [] m
| specs_cons o os m r m1 rs m2 : spec o m r m1 -> specs os m1 rs m2 -> specs (o :: os) m (r :: rs) m2.

(** ** The representation *)
Record represents (t : txSortedMap) (m : amap) : Prop := {
  rep_items : items t = m;
  rep_heap : is_heap Z.ltb (index t);
  rep_index : index t ≡ₚ keys m;
  rep_cache : forall c, cache t = Some c -> Some <$> c = contents m (keys m);
  rep_nonce : forall n tx, m !! n = Some tx -> Tx_Nonce tx = n
}.

(** ** The heap of keys *)
Lemma heap_first first rest (m : amap) : is_heap Z.ltb (first :: rest) -> first :: rest ≡ₚ keys m ->
  keys m = first :: keys (delete first m) /\
  exists idx', Pop Z.ltb (first :: rest) = Some (first, idx') /\ is_heap Z.ltb idx' /\
    idx' ≡ₚ keys (delete first m).
Proof.
  intros Hh Hp. destruct (keys m) as [|k ks] eqn:E; [by apply Permutation_nil_r in Hp|].
  destruct (keys_first m k ks E) as (Hk & Hmin & ->).
  assert (first = k) as ->.
  { assert (Hf : first ∈ keys m) by (rewrite E, <- Hp; by left).
    assert (Hki : k ∈ first :: rest) by (rewrite Hp; by left).
    pose proof (heap_least Z.ltb _ first k Hh eq_refl Hki). apply elem_of_keys, Hmin in Hf. boolp. lia. }
  split; [done|]. destruct (Pop_heap Z.ltb (k :: rest) k Hh eq_refl) as (idx' & -> & Hp' & Hh').
  exists idx'. split; [done|]. split; [done|]. apply (Permutation_cons_inv (a := k)). by rewrite Hp'.
Qed.

Lemma filter_delete_below (P : Z -> Prop) `{!forall k, Decision (P k)} m n :
  ~ P n -> filter (fun e => P e.1) (delete n m) = filter (fun e => P e.1) (m : amap).
Proof.
  intros Hn. rewrite map_filter_delete_not; [done|]. intros v _. done.
Qed.

Lemma filter_every_key (P : Z -> Prop) `{!forall k, Decision (P k)} (m : amap) :
  (forall k, is_Some (m !! k) -> P k) -> filter (fun e => P e.1) m = m.
Proof.
  intros Ha. apply map_eq. intros k. destruct (m !! k) as [v|] eqn:E.
  - apply map_lookup_filter_Some. split; [done|]. apply Ha. by exists v.
  - apply map_lookup_filter_None. by left.
Qed.

Lemma contents_delete m n ks : n ∉ ks -> contents (delete n m) ks = contents (m : amap) ks.
Proof. intros Hn. apply contents_ext. intros k Hk. rewrite lookup_delete_ne; [done|]. by intros ->. Qed.

Lemma none_below t (m : amap) : (forall k, is_Some (m !! k) -> t <= k) ->
  filter (fun k => k < t) (keys m) = [] /\ filter (fun e => t <= e.1) m = m.
Proof.
  intros Ha. split; [|by apply filter_every_key]. apply filter_none. intros k Hk%elem_of_keys ?.
  specialize (Ha k Hk). lia.
Qed.

Lemma forward_loop_spec t fuel : forall removed (m : amap) idx,
  (length idx <= fuel)%nat -> is_heap Z.ltb idx -> idx ≡ₚ keys m ->
  exists idx', forward_loop fuel t removed m idx =
      Ret (removed ++ contents m (filter (fun k => k < t) (keys m)), (filter (fun e => t <= e.1) m, idx')) /\
    is_heap Z.ltb idx' /\ idx' ≡ₚ keys (filter (fun e => t <= e.1) m).
Proof.
  induction fuel as [|fuel IH]; intros removed m [|first rest] Hf Hh Hp; try (cbn in Hf; lia).
  1, 2: destruct (none_below t m) as [E1 E2];
    [intros k Hk%elem_of_keys; rewrite <- Hp in Hk; by apply elem_of_nil in Hk|];
    exists []; rewrite E1, E2; cbn; by rewrite app_nil_r.
  destruct (heap_first _ _ _ Hh Hp) as (Ek & idx' & Epop & Hh' & Hp'). cbn [forward_loop].
  destruct (keys_first _ _ _ Ek) as (Hfirst & Hmin & _).
  destruct (Z.ltb_spec first t) as [Hlt|Hge]; cbn [negb].
  - rewrite Epop. destruct (IH (removed ++ [m !! first]) (delete first m) idx') as (idx2 & E & Hh2 & Hp2);
      [|done..|].
    { apply Permutation_length in Hp. rewrite Ek in Hp. cbn in Hp, Hf. rewrite (Permutation_length Hp'). lia. }
    exists idx2. rewrite E, filter_delete_below in * by lia. split_and!; [|done..].
    rewrite Ek, filter_cons, decide_True by done. rewrite contents_delete; [by rewrite <- app_assoc|].
    intros [_ Hk]%list_elem_of_filter. apply elem_of_keys in Hk as [v Hv]. by rewrite lookup_delete_eq in Hv.
  - destruct (none_below t m) as [E1 E2]; [intros k Hk; specialize (Hmin k Hk); lia|].
    exists (first :: rest). rewrite E1, E2. cbn. by rewrite app_nil_r.
Qed.

Lemma Forward_refines t r m : represents r m ->
  exists r', Forward t r = Ret (contents m (filter (fun k => k < t) (keys m)), r') /\
    represents r' (filter (fun e => t <= e.1) m).
Proof.
  intros [Hit Hh Hp Hc Hn]. unfold Forward.
  destruct (forward_loop_spec t (length (index r)) [] (items r) (index r)) as (idx & E & Hh' & Hp');
    [done|done|by rewrite Hit|].
  rewrite E. rewrite Hit in *. cbn [mbind outcome_bind app].
  assert (Hn' : forall n tx, filter (fun e => t <= e.1) m !! n = Some tx -> Tx_Nonce tx = n).
  { intros n tx [Hm _]%map_lookup_filter_Some. by apply Hn. }
  destruct (cache r) as [c|] eqn:Ec; [|by eexists; split; [done|split; cbn; try done; by rewrite Hit]].
  specialize (Hc c eq_refl). assert (Hl : length c = length (keys m)).
  { apply (f_equal length) in Hc. unfold contents in Hc. by rewrite !length_fmap in Hc. }
  assert (Hle : (length (contents m (filter (fun k => k < t)%Z (keys m))) <= length c)%nat).
  { rewrite Hl. unfold contents. rewrite length_fmap. apply length_below. }
  destruct (Nat.leb_spec (length (contents m (filter (fun k => k < t) (keys m)))) (length c)); [|lia].
  eexists. split; [done|]. split; cbn; try done. intros c' [= <-].
  rewrite fmap_drop, Hc. unfold contents. rewrite length_fmap, <- fmap_drop.
  rewrite drop_below, keys_filter by apply keys_sorted. apply contents_ext.
  intros k [Hk [v Hv]%elem_of_keys]%list_elem_of_filter. symmetry. rewrite Hv. by apply map_lookup_filter_Some.
Qed.

Lemma Put_refines tx r m : represents r m -> represents (Put tx r) (<[Tx_Nonce tx := tx]> m).
Proof.
  intros [<- Hh Hp Hc Hn]. assert (Hn' : forall n tx', <[Tx_Nonce tx := tx]> (items r) !! n = Some tx' -> Tx_Nonce tx' = n).
  { intros n tx' [[<- <-]|[_ Hm]]%lookup_insert_Some; [done|by apply Hn]. }
  unfold Put. destruct (items r !! Tx_Nonce tx) as [old|] eqn:E; cbn [found].
  - split; cbn; try done. rewrite keys_insert_Some; [done|by exists old].
  - destruct (Push_heap Z.ltb (index r) (Tx_Nonce tx) Hh) as [Hh' Hp']. split; cbn; try done.
    by rewrite Hp', Hp, keys_insert_perm.
Qed.

(** Deleting a list of entries. *)
Lemma foldr_delete_lookup (l : list (Z * Transaction)) (m : amap) k :
  foldr (fun e its => delete e.1 its) m l !! k = if decide (k ∈ l.*1) then None else m !! k.
Proof.
  induction l as [|[n v] l IH]; cbn; [by rewrite decide_False by (by intros ?%elem_of_nil)|].
  destruct (decide (k = n)) as [->|Hk].
  - by rewrite lookup_delete_eq, decide_True by (by left).
  - rewrite lookup_delete_ne, IH by done. repeat case_decide; try done.
    + exfalso. by match goal with H : _ ∉ _ |- _ => apply H; right end.
    + exfalso. by match goal with H : _ ∈ _ :: _ |- _ => apply elem_of_cons in H as [?|?] end.
Qed.

Lemma Filter_removed f (m : amap) :
  (filter (fun e => f e.2 = true) (range m)).*2 ≡ₚ (map_to_list (filter (fun e => f e.2 = true) m)).*2.
Proof.
  apply fmap_Permutation, NoDup_Permutation.
  - apply NoDup_filter. rewrite range_perm. apply NoDup_map_to_list.
  - apply NoDup_map_to_list.
  - intros [k v]. by rewrite list_elem_of_filter, elem_of_map_to_list, map_lookup_filter_Some, range_perm,
      elem_of_map_to_list, (comm and).
Qed.

Lemma Filter_remaining f (m : amap) :
  foldr (fun e its => delete e.1 its) m (filter (fun e => f e.2 = true) (range m)) =
  filter (fun e => f e.2 = false) m.
Proof.
  apply map_eq. intros k. rewrite foldr_delete_lookup. case_decide as Hk.
  - symmetry. apply map_lookup_filter_None. right. intros v Hv ?.
    apply list_elem_of_fmap in Hk as ([k' v'] & -> & [Hf Hk]%list_elem_of_filter). cbn in *.
    apply elem_of_range in Hk. congruence.
  - destruct (m !! k) as [v|] eqn:E; symmetry; [|apply map_lookup_filter_None; by left].
    apply map_lookup_filter_Some. split; [done|]. cbn. destruct (f v) eqn:Ef; [|done].
    exfalso. apply Hk. apply list_elem_of_fmap. exists (k, v). split; [done|].
    apply list_elem_of_filter. split; [done|]. by apply elem_of_range.
Qed.

Lemma Filter_refines f r m : represents r m ->
  exists removed r', Filter f r = (removed, r') /\
    removed ≡ₚ (map_to_list (filter (fun e => f e.2 = true) m)).*2 /\
    represents r' (filter (fun e => f e.2 = false) m).
Proof.
  intros [<- Hh Hp Hc Hn]. unfold Filter. rewrite Filter_remaining. set (removed := filter _ (range _)).
  pose proof (Filter_removed f (items r)) as Hr. fold removed in Hr.
  destruct (Nat.ltb_spec 0 (length removed)) as [Hl|Hl]; eexists _, _; (split; [done|]); (split; [done|]).
  - set (its := filter _ _). destruct (Init_heap Z.ltb (range its).*1) as [Hh' Hp'].
    split; cbn; try done.
    + rewrite Hp', keys_perm. by rewrite range_perm.
    + intros n tx [Hm _]%map_lookup_filter_Some. by apply Hn.
  - replace (filter _ (items r)) with (items r); [by split|]. symmetry. rewrite <- Filter_remaining.
    fold removed. by destruct removed; [|cbn in Hl; lia].
Qed.

Lemma Flatten_refines r m : represents r m ->
  exists l r', Flatten r = (l, r') /\ Some <$> l = contents m (keys m) /\ represents r' m.
Proof.
  intros [<- Hh Hp Hc Hn]. unfold Flatten. eexists _, _. split; [done|].
  assert (E : Some <$> (match cache r with Some c => c | None => merge_sort by_nonce (range (items r)).*2 end) =
    contents (items r) (keys (items r))).
  { destruct (cache r) as [c|]; [by apply Hc|]. set (l := merge_sort _ _).
    assert (Hp' : l ≡ₚ (map_to_list (items r)).*2) by (unfold l; by rewrite merge_sort_Permutation, range_perm).
    assert (Hl : forall tx, tx ∈ l -> items r !! Tx_Nonce tx = Some tx).
    { intros tx. rewrite Hp', list_elem_of_fmap. intros ([n v] & -> & Hv%elem_of_map_to_list). cbn.
      by rewrite (Hn n v). }
    assert (Hk : Tx_Nonce <$> l = keys (items r)).
    { apply (StronglySorted_unique Z.le); [|apply keys_sorted|].
      - assert (Hs : StronglySorted by_nonce l).
        { apply StronglySorted_merge_sort; unfold by_nonce; [intros x y z; lia|intros x y; lia]. }
        clear -Hs. induction Hs as [|tx l Hs IH Hf]; cbn; constructor; [done|].
        apply Forall_fmap. by eapply Forall_impl.
      - rewrite Hp', keys_perm, <- list_fmap_compose. apply Permutation_refl'. apply list_fmap_ext.
        intros i [n v] Hi%list_elem_of_lookup_2%elem_of_map_to_list. cbn. by apply Hn. }
    rewrite <- Hk. unfold contents. rewrite <- list_fmap_compose. apply list_fmap_ext.
    intros i tx Hi%list_elem_of_lookup_2. symmetry. by apply Hl. }
  split; [done|]. split; cbn; try done. by intros c [= <-].
Qed.

Lemma find_nonce_ok n idx : forall i, n ∈ idx -> exists j, find_nonce n idx i = Some (i + j)%nat /\ idx !! j = Some n.
Proof.
  induction idx as [|k idx IH]; intros i Hi; [by apply elem_of_nil in Hi|]. cbn.
  destruct (Z.eqb_spec k n) as [->|Hk]; [exists O; split; [by rewrite Nat.add_0_r|done]|].
  apply elem_of_cons in Hi as [->|Hi]; [done|]. destruct (IH (S i) Hi) as (j & -> & Hj).
  exists (S j). split; [f_equal; lia|done].
Qed.

Lemma Remove_refines n r m : represents r m ->
  exists r', TxRemove n r = Ret (bool_decide (is_Some (m !! n)), r') /\ represents r' (delete n m).
Proof.
  intros [<- Hh Hp Hc Hn]. unfold TxRemove. destruct (items r !! n) as [v|] eqn:E; cbn [found negb].
  - destruct (find_nonce_ok n (index r) 0) as (j & -> & Hj); [rewrite Hp; apply elem_of_keys; by exists v|].
    cbn [Nat.add]. destruct (Remove_heap Z.ltb (index r) j n Hh Hj) as (idx & -> & Hp' & Hh').
    eexists. rewrite bool_decide_eq_true_2 by (by eexists). split; [done|]. split; cbn; try done.
    + apply (Permutation_cons_inv (a := n)). rewrite Hp', Hp. apply keys_delete_perm. by exists v.
    + intros k tx [_ Hk]%lookup_delete_Some. by apply Hn.
  - eexists. rewrite bool_decide_eq_false_2 by (by intros []). split; [done|].
    rewrite delete_id by done. by split.
Qed.

Definition among (m : amap) (ks : list Z) : amap := filter (fun e => e.1 ∈ ks) m.

Lemma among_lookup m ks k : among m ks !! k = if decide (k ∈ ks) then m !! k else None.
Proof.
  unfold among. case_decide as Hk.
  - destruct (m !! k) eqn:E; [by apply map_lookup_filter_Some|apply map_lookup_filter_None; by left].
  - apply map_lookup_filter_None. right. intros v _ ?. done.
Qed.

Lemma among_every m ks : (forall k, is_Some (m !! k) -> k ∈ ks) -> among m ks = m.
Proof.
  intros Ha. apply map_eq. intros k. rewrite among_lookup. case_decide as Hk; [done|].
  destruct (m !! k) as [v|] eqn:E; [|done]. exfalso. apply Hk, Ha. by exists v.
Qed.

Lemma keys_among_take (m : amap) n : keys (among m (take n (keys m))) = take n (keys m).
Proof.
  symmetry. apply keys_unique.
  - pose proof (keys_sorted m) as Hs. rewrite <- (take_drop n (keys m)) in Hs. by apply StronglySorted_app_1_l in Hs.
  - pose proof (NoDup_keys m) as Hn. rewrite <- (take_drop n (keys m)) in Hn. by apply NoDup_app in Hn as [? _].
  - intros k. rewrite among_lookup. case_decide as Hk; [|split; [done|by intros []]].
    split; [|done]. intros _. apply elem_of_keys. by eapply elem_of_take in Hk as (i & Hi%list_elem_of_lookup_2 & _).
Qed.

Lemma cap_loop_spec (m : amap) : forall n size drops,
  (n <= size <= length (keys m))%nat ->
  cap_loop n (Z.of_nat size) drops (among m (take size (keys m))) (keys m) =
  Ret (drops ++ contents m (reverse (drop (size - n) (take size (keys m)))),
       among m (take (size - n) (keys m))).
Proof.
  induction n as [|n IH]; intros size drops Hn; cbn [cap_loop].
  { rewrite Nat.sub_0_r, drop_ge by (rewrite length_take; lia). cbn. by rewrite app_nil_r. }
  destruct size as [|s]; [lia|]. destruct (Z.ltb_spec (Z.of_nat (S s) - 1) 0); [lia|].
  replace (Z.of_nat (S s) - 1) with (Z.of_nat s) by lia. rewrite Nat2Z.id.
  destruct (lookup_lt_is_Some_2 (keys m) s) as [k Hk]; [lia|]. rewrite Hk.
  rewrite (take_S_r _ _ _ Hk). set (ks := take s (keys m)).
  assert (Hnk : k ∉ ks).
  { intros (i & Hi & Hlt)%elem_of_take. pose proof (NoDup_lookup _ _ _ _ (NoDup_keys m) Hi Hk). lia. }
  assert (E1 : among m (ks ++ [k]) !! k = m !! k).
  { rewrite among_lookup, decide_True; [done|]. apply elem_of_app. right. by left. }
  assert (E2 : delete k (among m (ks ++ [k])) = among m ks).
  { apply map_eq. intros k'. destruct (decide (k' = k)) as [->|Hne].
    - by rewrite lookup_delete_eq, among_lookup, decide_False.
    - rewrite lookup_delete_ne, !among_lookup by done. apply decide_ext.
      rewrite elem_of_app, list_elem_of_singleton. tauto. }
  rewrite E1, E2. unfold ks. rewrite IH by lia. replace (S s - S n)%nat with (s - n)%nat by lia.
  rewrite drop_app_le by (rewrite length_take; lia). rewrite reverse_app. cbn. by rewrite <- app_assoc.
Qed.

Lemma Cap_refines t r m : 0 <= t -> represents r m ->
  exists r', Cap t r = Ret (contents m (reverse (drop (Z.to_nat t) (keys m))), r') /\
    represents r' (among m (take (Z.to_nat t) (keys m))).
Proof.
  intros Ht [<- Hh Hp Hc Hn]. unfold Cap. set (m := items r) in *. rewrite <- (length_keys m).
  destruct (Z.leb_spec (Z.of_nat (length (keys m))) t) as [Hle|Hgt].
  { exists r. rewrite drop_ge, take_ge by lia. split; [done|].
    rewrite among_every by (intros k Hk; by apply elem_of_keys). by split. }
  assert (Hsort : merge_sort Z.le (index r) = keys m).
  { apply (StronglySorted_unique Z.le); [apply StronglySorted_merge_sort; apply _|apply keys_sorted|].
    by rewrite merge_sort_Permutation. }
  pose proof (cap_loop_spec m (Z.to_nat (Z.of_nat (length (keys m)) - t)) (length (keys m)) [] ltac:(lia)) as Ecap.
  rewrite (take_ge (keys m) (length (keys m))) in Ecap by done.
  rewrite among_every in Ecap at 1 by (intros k Hk; by apply elem_of_keys).
  rewrite Hsort, Ecap. cbn [mbind outcome_bind app].
  replace (length (keys m) - Z.to_nat (Z.of_nat (length (keys m)) - t))%nat with (Z.to_nat t) by lia.
  destruct (Z.ltb_spec (Z.of_nat (length (keys m))) t); [lia|].
  destruct (Init_heap Z.ltb (take (Z.to_nat t) (keys m))) as [Hh' Hp'].
  assert (Hn' : forall n tx, among m (take (Z.to_nat t) (keys m)) !! n = Some tx -> Tx_Nonce tx = n).
  { intros n tx. rewrite among_lookup. case_decide; [apply Hn|done]. }
  destruct (cache r) as [c|] eqn:Ec.
  2: { eexists. split; [done|]. split; cbn; try done. by rewrite keys_among_take. }
  specialize (Hc c eq_refl). assert (Hl : length c = length (keys m)).
  { apply (f_equal length) in Hc. unfold contents in Hc. by rewrite !length_fmap in Hc. }
  assert (Hd : length (contents m (reverse (drop (Z.to_nat t) (keys m)))) = (length c - Z.to_nat t)%nat).
  { unfold contents. by rewrite length_fmap, length_reverse, length_drop, Hl. }
  rewrite Hd. destruct (Nat.leb_spec (length c - Z.to_nat t) (length c)); [|lia].
  eexists. split; [done|]. split; cbn; try done; [by rewrite keys_among_take|].
  intros c' [= <-]. rewrite fmap_take, Hc. replace (length c - (length c - Z.to_nat t))%nat with (Z.to_nat t) by lia.
  unfold contents. rewrite <- fmap_take, keys_among_take. apply contents_ext.
  intros k Hk. by rewrite among_lookup, decide_True.
Qed.

Lemma ready_loop_spec fuel : forall ready next (m : amap) idx,
  (length idx <= fuel)%nat -> is_heap Z.ltb idx -> idx ≡ₚ keys m ->
  (forall k, is_Some (m !! k) -> next <= k /\ is_u64 k) -> is_u64 next ->
  exists len idx', 0 <= len /\
    ready_loop fuel next ready m idx =
      Ret (ready ++ contents m (seqZ next len), (filter (fun e => next + len <= e.1) m, idx')) /\
    (forall k, next <= k < next + len -> is_Some (m !! k)) /\ m !! (next + len) = None /\
    is_heap Z.ltb idx' /\ idx' ≡ₚ keys (filter (fun e => next + len <= e.1) m) /\
    (is_Some (m !! next) -> 0 < len).
Proof.
  assert (Hstop : forall ready next (m : amap) idx, m !! next = None -> is_heap Z.ltb idx -> idx ≡ₚ keys m ->
    (forall k, is_Some (m !! k) -> next <= k /\ is_u64 k) ->
    exists len idx', 0 <= len /\
      Ret (ready, (m, idx)) = Ret (ready ++ contents m (seqZ next len), (filter (fun e => next + len <= e.1) m, idx')) /\
      (forall k, next <= k < next + len -> is_Some (m !! k)) /\ m !! (next + len) = None /\
      is_heap Z.ltb idx' /\ idx' ≡ₚ keys (filter (fun e => next + len <= e.1) m) /\
      (is_Some (m !! next) -> 0 < len)).
  { intros ready next m idx Hm Hh Hp Hk. exists 0, idx. rewrite Z.add_0_r.
    rewrite (filter_every_key (fun k => next <= k)) by (intros k Hs; by apply Hk). cbn. rewrite app_nil_r, Hm.
    split_and!; try done; try lia; by intros []. }
  induction fuel as [|fuel IH]; intros ready next m [|first rest] Hf Hh Hp Hk Hu; try (cbn in Hf; lia).
  1, 2: apply Hstop; try done; destruct (m !! next) as [v|] eqn:E; [|done];
    assert (Hin : next ∈ keys m) by (apply elem_of_keys; by exists v); rewrite <- Hp in Hin;
    by apply elem_of_nil in Hin.
  destruct (heap_first _ _ _ Hh Hp) as (Ek & idx' & Epop & Hh' & Hp'). cbn [ready_loop].
  destruct (keys_first _ _ _ Ek) as (Hfirst & Hmin & _).
  destruct (Z.eqb_spec first next) as [->|Hne]; cbn [negb].
  2: { apply Hstop; try done. destruct (m !! next) as [v|] eqn:E; [|done].
       specialize (Hmin next ltac:(by exists v)). destruct (Hk first Hfirst). lia. }
  rewrite Epop. assert (Hfuel : (length idx' <= fuel)%nat).
  { apply Permutation_length in Hp. rewrite Ek in Hp. cbn in Hp, Hf. rewrite (Permutation_length Hp'). lia. }
  assert (Hk' : forall k, is_Some (delete next m !! k) -> next + 1 <= k /\ is_u64 k).
  { intros k [Hne Hs]%lookup_delete_is_Some. destruct (Hk k Hs). split; [lia|done]. }
  assert (Hadd : exists len idx2, 0 <= len /\
      ready_loop fuel (u64 (next + 1)) (ready ++ [m !! next]) (delete next m) idx' =
      Ret ((ready ++ [m !! next]) ++ contents (delete next m) (seqZ (next + 1) len),
           (filter (fun e => next + 1 + len <= e.1) (delete next m), idx2)) /\
      (forall k, next + 1 <= k < next + 1 + len -> is_Some (delete next m !! k)) /\
      delete next m !! (next + 1 + len) = None /\
      is_heap Z.ltb idx2 /\ idx2 ≡ₚ keys (filter (fun e => next + 1 + len <= e.1) (delete next m))).
  { destruct (decide (next = MaxUint64)) as [->|Hmax].
    - assert (Hnone : delete MaxUint64 m !! (MaxUint64 + 1) = None).
      { destruct (delete MaxUint64 m !! (MaxUint64 + 1)) as [v|] eqn:E; [|done].
        destruct (Hk' (MaxUint64 + 1)) as [_ ?]; [by exists v|]. unfold is_u64 in *. lia. }
      assert (idx' = []) as ->.
      { destruct idx' as [|k idx']; [done|]. assert (Hin : k ∈ keys (delete MaxUint64 m)) by (rewrite <- Hp'; by left).
        apply elem_of_keys, Hk' in Hin. unfold is_u64 in Hin. lia. }
      destruct (Hstop (ready ++ [m !! MaxUint64]) (MaxUint64 + 1) (delete MaxUint64 m) []) as (len & i2 & ? & E & ?);
        [done..|]. exists len, i2. replace (ready_loop _ _ _ _ _) with
        (Ret (ready ++ [m !! MaxUint64], (delete MaxUint64 m, [] : list Z))) by (by destruct fuel).
      rewrite E. tauto.
    - rewrite u64_small by (unfold is_u64, MaxUint64 in *; lia).
      destruct (IH (ready ++ [m !! next]) (next + 1) (delete next m) idx') as (len & i2 & ? & E & ?);
        [done..|unfold is_u64, MaxUint64 in *; lia|]. exists len, i2. rewrite E. tauto. }
  destruct Hadd as (len & idx2 & Hlen & -> & Hrun & Hend & Hh2 & Hp2). exists (len + 1), idx2.
  rewrite filter_delete_below in * by lia. replace (next + (len + 1)) with (next + 1 + len) by lia.
  split_and!; try done; try lia.
  - rewrite (seqZ_cons next) by lia. replace (Z.succ next) with (next + 1) by lia.
    replace (Z.pred (len + 1)) with len by lia. rewrite contents_delete; [by rewrite <- app_assoc|].
    intros Hin%elem_of_seqZ. lia.
  - intros k Hkk. destruct (decide (k = next)) as [->|]; [done|].
    destruct (Hrun k ltac:(lia)) as [v [_ Hv]%lookup_delete_Some]. by exists v.
  - rewrite lookup_delete_ne in Hend by lia. done.
Qed.

Lemma Ready_refines start r m : represents r m ->
  exists l r' m', Ready start r = Ret (l, r') /\ spec (OpReady start) m (OutTxs l) m' /\ represents r' m'.
Proof.
  intros [<- Hh Hp Hc Hn]. unfold Ready. destruct (index r) as [|first rest] eqn:Ei.
  { eexists _, _, (items r). split; [done|]. split.
    - apply spec_not_ready. intros k Hk%elem_of_keys. rewrite <- Hp in Hk. by apply elem_of_nil in Hk.
    - split; try done; by rewrite Ei. }
  destruct (heap_first _ _ _ Hh Hp) as (Ek & _). destruct (keys_first _ _ _ Ek) as (Hfirst & Hmin & _).
  rewrite Z.gtb_ltb. destruct (Z.ltb_spec start first) as [Hlt|Hge].
  { eexists _, _, (items r). split; [done|]. split.
    - apply spec_not_ready. intros k Hk. specialize (Hmin k Hk). lia.
    - split; try done; by rewrite Ei. }
  assert (Hu : forall k, is_Some (items r !! k) -> is_u64 k).
  { intros k [v Hv]. rewrite <- (Hn k v Hv). apply Tx_Nonce_u64. }
  destruct (ready_loop_spec (length (first :: rest)) [] first (items r) (first :: rest))
    as (len & idx & Hl & -> & Hrun & Hend & Hh' & Hp' & Hpos); [done|done|done|auto|auto|].
  cbn [mbind outcome_bind app]. eexists _, _, _. split; [done|]. split.
  - by apply (spec_ready _ _ first _ len Ek); auto.
  - split; cbn; try done. intros n tx [Hm _]%map_lookup_filter_Some. by apply Hn.
Qed.

Definition valid_op (o : op) : Prop := match o with OpCap t => 0 <= t | _ => True end.

Lemma txcall_refines o r m : valid_op o -> represents r m ->
  exists res r' m', txcall o r = Ret (res, r') /\ spec o m res m' /\ represents r' m'.
Proof.
  intros Hv Hr. destruct o as [n|tx|t|f|t|n|start| |]; cbn [txcall].
  - eexists _, _, m. split; [done|]. split; [|done]. unfold Get. rewrite (rep_items _ _ Hr). constructor.
  - eexists _, _, _. split; [done|]. split; [constructor|by apply Put_refines].
  - destruct (Forward_refines t r m Hr) as (r' & -> & Hr'). eexists _, _, _. split; [done|]. split; [constructor|done].
  - destruct (Filter_refines f r m Hr) as (removed & r' & -> & Hp & Hr'). eexists _, _, _.
    split; [done|]. split; [by constructor|done].
  - destruct (Cap_refines t r m Hv Hr) as (r' & -> & Hr'). eexists _, _, _. split; [done|]. split; [constructor|done].
  - destruct (Remove_refines n r m Hr) as (r' & -> & Hr'). eexists _, _, _. split; [done|]. split; [constructor|done].
  - destruct (Ready_refines start r m Hr) as (l & r' & m' & -> & Hs & Hr'). by eexists _, _, _.
  - eexists _, _, m. split; [done|]. split; [|done]. unfold Len. rewrite (rep_items _ _ Hr). constructor.
  - destruct (Flatten_refines r m Hr) as (l & r' & -> & Hl & Hr'). eexists _, _, m.
    split; [done|]. split; [|done]. cbn. rewrite Hl. constructor.
Qed.

(** C31. The sorted map refines a plain map: whatever operations are called on a
    new map, in whatever order (limits of [Cap] being non-negative), none of
    them panics, and what they return is what the specification allows of a map
    from nonces to transactions; heap and cache never show. *)
Theorem txSortedMap_refines os : Forall valid_op os ->
  exists res r m, txcalls os newTxSortedMap = Ret (res, r) /\ specs os ∅ res m /\ represents r m.
Proof.
  intros Hv. assert (Hnew : represents newTxSortedMap ∅).
  { by split. }
  revert Hnew. generalize newTxSortedMap (∅ : amap). induction Hv as [|o os Ho _ IH]; intros r m Hr.
  - eexists _, _, _. split; [done|]. split; [constructor|done].
  - destruct (txcall_refines o r m Ho Hr) as (res & r1 & m1 & E & Hs & Hr1).
    destruct (IH r1 m1 Hr1) as (rs & r2 & m2 & E2 & Hs2 & Hr2). cbn. rewrite E. cbn. rewrite E2. cbn.
    eexists _, _, _. split; [done|]. split; [by econstructor|done].
Qed.

(** ** The list of an account

    The bounds are bounds: the transactions of the list cost and consume at most
    [costcap] and [gascap]. *)
Record list_ok (l : txList) (m : amap) : Prop := {
  ok_rep : represents (txs l) m;
  ok_caps : forall n tx, m !! n = Some tx -> Tx_Cost tx <= costcap l /\ Tx_GasLimit tx <= gascap l
}.

Lemma newTxList_ok b : list_ok (newTxList b) ∅.
Proof. by split. Qed.

Lemma List_Add_ok tx bump l m : list_ok l m ->
  match fst (List_Add tx bump l) with
  | (true, old) => old = m !! Tx_Nonce tx /\ list_ok (snd (List_Add tx bump l)) (<[Tx_Nonce tx := tx]> m)
  | (false, _) => snd (List_Add tx bump l) = l /\
      exists o, m !! Tx_Nonce tx = Some o /\ Tx_GasPrice tx <= bump_threshold (Tx_GasPrice o) bump
  end.
Proof.
  intros [Hr Hc]. pose proof (rep_items _ _ Hr) as Hit. unfold List_Add, Get. rewrite Hit.
  assert (Hok : list_ok (mkTxList (strict l) (Put tx (txs l))
       (if costcap l <? Tx_Cost tx then Tx_Cost tx else costcap l)
       (if gascap l <? Tx_GasLimit tx then Tx_GasLimit tx else gascap l)) (<[Tx_Nonce tx := tx]> m)).
  { split; cbn; [by apply Put_refines|]. intros n tx' [[<- <-]|[_ Hm]]%lookup_insert_Some.
    - destruct (Z.ltb_spec (costcap l) (Tx_Cost tx)), (Z.ltb_spec (gascap l) (Tx_GasLimit tx)); lia.
    - destruct (Hc n tx' Hm). destruct (Z.ltb_spec (costcap l) (Tx_Cost tx)), (Z.ltb_spec (gascap l) (Tx_GasLimit tx)); lia. }
  destruct (m !! Tx_Nonce tx) as [o|] eqn:E; [|by split].
  destruct (_ >=? _) eqn:Hg; cbn; [|by split]. split; [done|]. exists o. split; [done|]. boolp. lia.
Qed.

Lemma list_ok_sub l m m' r : list_ok l m -> represents r m' ->
  (forall n tx, m' !! n = Some tx -> m !! n = Some tx) -> list_ok (with_txs r l) m'.
Proof. intros [_ Hc] Hr Hs. split; [done|]. intros n tx Hn. cbn. eauto. Qed.

Lemma Filter_members f r m removed r' : represents r m -> Filter f r = (removed, r') ->
  represents r' (filter (fun e => f e.2 = false) m) /\ NoDup removed /\
  forall tx, tx ∈ removed <-> m !! Tx_Nonce tx = Some tx /\ f tx = true.
Proof.
  intros Hr E. destruct (Filter_refines f r m Hr) as (removed' & r'' & E' & Hp & Hr').
  rewrite E in E'. injection E' as <- <-. split; [done|]. pose proof (rep_nonce _ _ Hr) as Hn. split.
  - rewrite Hp. apply NoDup_fmap_2_strong; [|apply NoDup_map_to_list].
    intros [n1 v1] [n2 v2] [H1 _]%elem_of_map_to_list%map_lookup_filter_Some
      [H2 _]%elem_of_map_to_list%map_lookup_filter_Some E12. cbn in E12. subst v2.
    by rewrite <- (Hn _ _ H1), <- (Hn _ _ H2).
  - intros tx. rewrite Hp, list_elem_of_fmap. split.
    + intros ([n v] & -> & [Hm Hf]%elem_of_map_to_list%map_lookup_filter_Some). cbn in *. by rewrite (Hn n v).
    + intros [Hm Hf]. exists (Tx_Nonce tx, tx). split; [done|]. by apply elem_of_map_to_list, map_lookup_filter_Some.
Qed.

(** The least nonce of a list. *)
Lemma lowest_spec l : forall low0,
  let low := foldl (fun low tx => if low >? Tx_Nonce tx then Tx_Nonce tx else low) low0 l in
  low <= low0 /\ (forall tx, tx ∈ l -> low <= Tx_Nonce tx) /\
  (low = low0 \/ exists tx, tx ∈ l /\ low = Tx_Nonce tx).
Proof.
  induction l as [|tx l IH]; intros low0; cbn.
  { split; [lia|]. split; [by intros tx ?%elem_of_nil|by left]. }
  destruct (IH (if low0 >? Tx_Nonce tx then Tx_Nonce tx else low0)) as (H1 & H2 & H3).
  set (low := foldl _ _ _) in *.
  assert (H4 : low <= low0 /\ low <= Tx_Nonce tx).
  { destruct (Z.gtb_spec low0 (Tx_Nonce tx)); lia. }
  split; [lia|]. split.
  - intros tx' [->|Hin]%elem_of_cons; [lia|auto].
  - destruct H3 as [H3|(tx' & Hin & ->)]; [|right; exists tx'; split; [by right|done]].
    destruct (Z.gtb_spec low0 (Tx_Nonce tx)); [right; exists tx; split; [by left|done]|by left].
Qed.

(** What a transaction exceeds. *)
Definition unaffordable (costLimit gasLimit : Z) (tx : Transaction) : bool :=
  (Tx_Cost tx >? costLimit) || (Tx_GasLimit tx >? gasLimit).

(** In strict mode, a transaction above an unaffordable one. *)
Definition orphan (costLimit gasLimit : Z) (l : txList) (m : amap) (n : Z) : Prop :=
  strict l = true /\
  exists n' tx', m !! n' = Some tx' /\ unaffordable costLimit gasLimit tx' = true /\ n' < n.

(** What filtering returns and keeps. *)
Definition filtered (costLimit gasLimit : Z) (l : txList) (m : amap)
    (removed invalids : list Transaction) (m' : amap) : Prop :=
  let bad := unaffordable costLimit gasLimit in
  NoDup (removed ++ invalids) /\
  (forall tx, tx ∈ removed <-> m !! Tx_Nonce tx = Some tx /\ bad tx = true) /\
  (forall tx, tx ∈ invalids <->
     m !! Tx_Nonce tx = Some tx /\ bad tx = false /\ orphan costLimit gasLimit l m (Tx_Nonce tx)) /\
  (forall n tx, m' !! n = Some tx <->
     m !! n = Some tx /\ bad tx = false /\ ~ orphan costLimit gasLimit l m n).

Lemma unaffordable_false c g tx : unaffordable c g tx = false <-> Tx_Cost tx <= c /\ Tx_GasLimit tx <= g.
Proof. unfold unaffordable. rewrite !Z.gtb_ltb, orb_false_iff, !Z.ltb_ge. done. Qed.

(** Nothing is removed when every transaction is within the limits. *)
Lemma filtered_none c g l m :
  (forall n tx, m !! n = Some tx -> unaffordable c g tx = false) -> filtered c g l m [] [] m.
Proof.
  intros Hall. assert (Hno : forall n, ~ orphan c g l m n).
  { intros n (_ & n' & tx' & Hm & Hb & _). by rewrite (Hall _ _ Hm) in Hb. }
  split; [constructor|]. split_and!.
  - intros tx. rewrite elem_of_nil. split; [done|]. intros [Hm Hb]. by rewrite (Hall _ _ Hm) in Hb.
  - intros tx. rewrite elem_of_nil. split; [done|]. by intros (_ & _ & []%Hno).
  - intros n tx. split; [|by intros []]. intros Hm. split_and!; [done|by eapply Hall|apply Hno].
Qed.

(** Without strict mode, or when nothing is unaffordable, no one is orphaned. *)
Lemma filtered_plain c g l m removed :
  NoDup removed ->
  (forall tx, tx ∈ removed <-> m !! Tx_Nonce tx = Some tx /\ unaffordable c g tx = true) ->
  (forall n, ~ orphan c g l m n) ->
  filtered c g l m removed [] (filter (fun e => unaffordable c g e.2 = false) m).
Proof.
  intros Hnd Hmem Hno. split; [by rewrite app_nil_r|]. split_and!; [done| |].
  - intros tx. rewrite elem_of_nil. split; [done|]. by intros (_ & _ & []%Hno).
  - intros n tx. rewrite map_lookup_filter_Some. split; [|tauto]. intros [Hm Hb]. split_and!; [done|done|apply Hno].
Qed.

(** In strict mode the orphans are above the lowest nonce removed. *)
Lemma orphan_lowest c g l m removed n :
  (forall k tx, m !! k = Some tx -> Tx_Nonce tx = k) ->
  (forall tx, tx ∈ removed <-> m !! Tx_Nonce tx = Some tx /\ unaffordable c g tx = true) ->
  strict l = true -> is_u64 n ->
  foldl (fun low tx => if low >? Tx_Nonce tx then Tx_Nonce tx else low) MaxUint64 removed < n <->
  orphan c g l m n.
Proof.
  intros Hn Hmem Hs Hu. destruct (lowest_spec removed MaxUint64) as (_ & Hle & Hex). set (low := foldl _ _ _) in *. split.
  - intros Hlt. split; [done|]. destruct Hex as [->|(tx & Hin & ->)]; [unfold is_u64 in Hu; lia|].
    apply Hmem in Hin as [Hm Hb]. by exists (Tx_Nonce tx), tx.
  - intros (_ & n' & tx' & Hm & Hb & Hlt).
    assert (Hin : tx' ∈ removed) by (apply Hmem; by rewrite (Hn _ _ Hm)).
    specialize (Hle tx' Hin). rewrite (Hn _ _ Hm) in Hle. lia.
Qed.

Lemma List_Filter_spec costLimit gasLimit l m :
  list_ok l m ->
  exists removed invalids l' m',
    List_Filter costLimit gasLimit l = ((removed, invalids), l') /\ list_ok l' m' /\
    filtered costLimit gasLimit l m removed invalids m'.
Proof.
  intros [Hr Hc]. unfold List_Filter. fold (unaffordable costLimit gasLimit).
  pose proof (rep_nonce _ _ Hr) as Hn. set (bad := unaffordable costLimit gasLimit).
  destruct ((costcap l <=? costLimit) && (gascap l <=? gasLimit)) eqn:Hskip.
  { apply andb_true_iff in Hskip as [H1%Z.leb_le H2%Z.leb_le]. exists [], [], l, m.
    split; [done|]. split; [by split|]. apply filtered_none. intros n tx Hm. apply unaffordable_false.
    destruct (Hc n tx Hm). lia. }
  destruct (Filter bad (txs l)) as [removed r1] eqn:E1. cbn [fst snd].
  destruct (Filter_members bad _ _ _ _ Hr E1) as (Hr1 & Hnd & Hmem).
  set (l1 := mkTxList (strict l) r1 costLimit gasLimit).
  assert (Hok1 : list_ok l1 (filter (fun e => bad e.2 = false) m)).
  { split; [done|]. by intros n tx [_ Hb%unaffordable_false]%map_lookup_filter_Some. }
  destruct (strict l && Nat.ltb 0 (length removed)) eqn:Hs.
  - apply andb_true_iff in Hs as [Hs _]. set (low := foldl _ MaxUint64 removed).
    destruct (Filter (fun tx => Tx_Nonce tx >? low) (txs l1)) as [invalids r2] eqn:E2. cbn [fst snd].
    destruct (Filter_members _ _ _ _ _ Hr1 E2) as (Hr2 & Hnd2 & Hmem2).
    assert (Hlow : forall n, is_u64 n -> low < n <-> orphan costLimit gasLimit l m n).
    { intros n Hu. by apply orphan_lowest. }
    eexists removed, invalids, (with_txs r2 l1), _. split; [done|].
    split; [by apply (list_ok_sub _ _ _ _ Hok1 Hr2); intros n tx [? _]%map_lookup_filter_Some|]. split_and!.
    + apply NoDup_app. split; [done|]. split; [|done].
      intros tx [_ Hb]%Hmem [[_ Hb']%map_lookup_filter_Some _]%Hmem2. cbn in Hb'. congruence.
    + done.
    + intros tx. rewrite Hmem2, map_lookup_filter_Some, Z.gtb_lt, Hlow by apply Tx_Nonce_u64. tauto.
    + intros n tx. rewrite !map_lookup_filter_Some. cbn. split; intros Hx; split_and!; try tauto.
      * destruct Hx as [[Hm _] Hl]. rewrite <- (Hn _ _ Hm), <- Hlow by apply Tx_Nonce_u64. rewrite Z.gtb_ltb in Hl. boolp. lia.
      * destruct Hx as (Hm & _ & Ho). rewrite <- (Hn _ _ Hm), <- Hlow in Ho by apply Tx_Nonce_u64.
        rewrite Z.gtb_ltb. apply Z.ltb_ge. lia.
  - eexists removed, [], l1, _. split; [done|]. split; [done|]. apply filtered_plain; [done..|].
    intros n (Hst & n' & tx' & Hm & Hb & _). rewrite Hst, andb_true_l in Hs. apply Nat.ltb_ge in Hs.
    assert (Hin : tx' ∈ removed) by (apply Hmem; by rewrite (Hn _ _ Hm)).
    destruct removed; [by apply elem_of_nil in Hin|cbn in Hs; lia].
Qed.

(** Filtering the list of an account is exact although it is skipped when
    the bounds allow: it returns the transactions that cost or consume more
    than the limits, exactly them and once each; in strict mode also those left
    without a predecessor; the list keeps all the others, and its bounds. *)
Theorem List_Filter_exact costLimit gasLimit l m :
  list_ok l m ->
  exists removed invalids l' m',
    List_Filter costLimit gasLimit l = ((removed, invalids), l') /\ list_ok l' m' /\
    filtered costLimit gasLimit l m removed invalids m'.
Proof. apply List_Filter_spec. Qed.

End spec.
