(* ===== verification/TxPricedProps.v ===== *)
(** * The price heap: what it drops (core/tx_list.go)

    The heap keeps the transactions removed from the pool until it is rebuilt:
    an entry is stale when the pool no longer has its hash.  As long as every
    transaction of the pool has an entry, the operations return the cheapest
    remote transactions of the pool, and the stale entries never show. *)
From S2P Require Import Prelude GoMonad Heap TxList TxListProps.
Local Open Scope Z_scope.

Section priced.
Context `{TxLib} `{!MapOrder Z Transaction}.

#[export] Instance cheaper_order : WeakOrder cheaper.
Proof. unfold cheaper. split; intros; boolp; apply Z.ltb_ge; lia. Qed.

(** Every transaction of the pool has an entry, and an entry whose hash the pool
    has is that transaction. *)
Record priced_ok (all : gmap Z Transaction) (l : txPricedList) : Prop := {
  pr_heap : is_heap cheaper (prices l);
  pr_hash : forall h tx, all !! h = Some tx -> Tx_Hash tx = h;
  pr_entry : forall h tx, all !! h = Some tx -> tx ∈ prices l;
  pr_live : forall tx tx', tx ∈ prices l -> all !! Tx_Hash tx = Some tx' -> tx' = tx
}.

Lemma stale_false all tx : stale all tx = false <-> is_Some (all !! Tx_Hash tx).
Proof.
  unfold stale. rewrite negb_false_iff. destruct (all !! Tx_Hash tx); cbn.
  - split; [by eexists|done].
  - split; [done|by intros []].
Qed.

Lemma live_entry all l tx : priced_ok all l -> tx ∈ prices l -> stale all tx = false ->
  all !! Tx_Hash tx = Some tx.
Proof. intros [_ _ _ Hl] Hin [tx' Htx]%stale_false. by rewrite (Hl tx tx' Hin Htx) in Htx. Qed.

Lemma pool_entry all l h tx : priced_ok all l -> all !! h = Some tx ->
  tx ∈ prices l /\ stale all tx = false.
Proof. intros [_ Hh He _] Htx. split; [eauto|]. apply stale_false. rewrite (Hh h tx Htx). by exists tx. Qed.

(** ** Updates of the pool *)
Lemma newTxPricedList_ok : priced_ok ∅ newTxPricedList.
Proof. by split. Qed.

Lemma Priced_Put_ok all l tx : priced_ok all l ->
  (forall tx', tx' ∈ prices l -> Tx_Hash tx' = Tx_Hash tx -> tx' = tx) ->
  priced_ok (<[Tx_Hash tx := tx]> all) (Priced_Put tx l).
Proof.
  intros [Hh Hk He Hl] Hcol. destruct (Push_heap cheaper (prices l) tx Hh) as [Hh' Hp].
  split; cbn; [done| | |].
  - intros h tx' [[<- <-]|[_ ?]]%lookup_insert_Some; [done|by apply Hk].
  - intros h tx' [[<- <-]|[_ ?]]%lookup_insert_Some; rewrite Hp; [by left|right; by eapply He].
  - intros t t'. rewrite Hp, elem_of_cons. intros Ht [[E <-]|[_ Ha]]%lookup_insert_Some.
    + destruct Ht as [->|Ht]; [done|]. symmetry. by apply Hcol.
    + destruct Ht as [->|Ht]; [|by apply Hl]. apply Hk in Ha as E.
      destruct (decide (t' = tx)) as [|Hne]; [done|]. exfalso. apply Hne. apply Hcol; [by eapply He|done].
Qed.

Lemma priced_ok_shrink all all' l : priced_ok all l -> all' ⊆ all -> priced_ok all' l.
Proof.
  intros [Hh Hk He Hl] Hs. split; [done| | |].
  - intros h tx Htx. apply Hk. by eapply lookup_weaken.
  - intros h tx Htx. eapply He. by eapply lookup_weaken.
  - intros tx tx' Hin Htx. apply Hl; [done|]. by eapply lookup_weaken.
Qed.

(** The entries may be replaced by any heap that has the pool's transactions and
    no new ones. *)
Lemma priced_ok_entries all l l' : priced_ok all l -> is_heap cheaper (prices l') ->
  (forall tx, tx ∈ prices l' -> tx ∈ prices l) ->
  (forall h tx, all !! h = Some tx -> tx ∈ prices l') -> priced_ok all l'.
Proof. intros [_ Hk _ Hl] Hh Hsub Hent. split; eauto. Qed.

Lemma Removed_ok all all' l : priced_ok all l -> all' ⊆ all -> priced_ok all' (Removed all' l).
Proof.
  intros Hok Hs. apply priced_ok_shrink with (all' := all') in Hok; [|done]. unfold Removed.
  destruct (_ <=? _); [by destruct Hok|].
  destruct (Init_heap cheaper (range all').*2) as [Hh Hp].
  assert (Hmem : forall tx, tx ∈ Init cheaper (range all').*2 <-> exists h, all' !! h = Some tx).
  { intros tx. rewrite Hp, list_elem_of_fmap. split.
    - intros ([h v] & -> & Hv%elem_of_range). by exists h.
    - intros [h Hv]. exists (h, tx). split; [done|]. by apply elem_of_range. }
  apply (priced_ok_entries _ _ _ Hok); cbn; [done| |].
  - intros tx [h Hv]%Hmem. by eapply pr_entry.
  - intros h tx Hv. apply Hmem. by exists h.
Qed.

Lemma push_all_spec save : forall l, is_heap cheaper (prices l) ->
  is_heap cheaper (prices (push_all save l)) /\ prices (push_all save l) ≡ₚ save ++ prices l.
Proof.
  unfold push_all. induction save as [|tx save IH]; intros l Hh; cbn [foldl app]; [done|].
  destruct (Push_heap cheaper (prices l) tx Hh) as [Hh' Hp].
  destruct (IH (Priced_Put tx l) Hh') as [Hh2 Hp2]. split; [done|]. rewrite Hp2. cbn. rewrite Hp.
  by rewrite Permutation_middle.
Qed.

(** One pop: the entry is a cheapest one. *)
Lemma Pop_cheapest l x rest : is_heap cheaper l -> l = x :: rest ->
  exists l', Pop cheaper l = Some (x, l') /\ x :: l' ≡ₚ l /\ is_heap cheaper l' /\
    (length l' < length l)%nat /\ forall y, y ∈ l -> Tx_GasPrice x <= Tx_GasPrice y.
Proof.
  intros Hh ->. destruct (Pop_heap cheaper (x :: rest) x Hh eq_refl) as (l' & E & Hp & Hh').
  exists l'. split_and!; [done..| |].
  - apply Permutation_length in Hp. cbn in *. lia.
  - intros y Hy. pose proof (heap_least cheaper _ x y Hh eq_refl Hy). unfold cheaper in *. boolp. lia.
Qed.

(** What a loop that pops has done: the entries popped are those to drop, those
    to put back and stale ones, none dearer than an entry left. *)
Definition popped (all : gmap Z Transaction) (l : list Transaction) (d s l' : list Transaction) : Prop :=
  exists st, l ≡ₚ (d ++ s ++ st) ++ l' /\ is_heap cheaper l' /\
    Forall (fun tx => stale all tx = true) st /\ Forall (fun tx => stale all tx = false) (d ++ s) /\
    forall x y, x ∈ d ++ s ++ st -> y ∈ l' -> Tx_GasPrice x <= Tx_GasPrice y.

Lemma popped_refl all l : is_heap cheaper l -> popped all l [] [] l.
Proof. intros Hh. exists []. split_and!; [done|done|constructor|constructor|]. by intros x y ?%elem_of_nil. Qed.

(** Adding the popped entry to one of the three lists. *)
Lemma popped_cons all l x l1 d s l' d' s' :
  x :: l1 ≡ₚ l -> (forall y, y ∈ l -> Tx_GasPrice x <= Tx_GasPrice y) -> popped all l1 d s l' ->
  (stale all x = true /\ d' = d /\ s' = s \/
   stale all x = false /\ (d' = x :: d /\ s' = s \/ d' = d /\ s' = x :: s)) ->
  popped all l d' s' l'.
Proof.
  intros Hp Hmin (st & Hl & Hh & Hst & Hds & Hle) Hx.
  assert (Hl' : forall y, y ∈ l' -> y ∈ l).
  { intros y Hy. rewrite <- Hp, Hl. right. apply elem_of_app. by right. }
  assert (G : forall st', d' ++ s' ++ st' ≡ₚ x :: d ++ s ++ st -> Forall (fun tx => stale all tx = true) st' ->
    Forall (fun tx => stale all tx = false) (d' ++ s') -> popped all l d' s' l').
  { intros st' Hp' H1 H2. exists st'. split_and!; [|done..|].
    - by rewrite <- Hp, Hp', Hl.
    - intros a b Ha Hb. rewrite Hp' in Ha. apply elem_of_cons in Ha as [->|Ha]; [by apply Hmin, Hl'|by apply Hle]. }
  apply Forall_app in Hds as [Hd Hs].
  destruct Hx as [(Hx & -> & ->)|(Hx & [[-> ->]|[-> ->]])].
  - apply (G (x :: st)); [by rewrite !app_assoc, <- Permutation_middle|by constructor|by apply Forall_app].
  - apply (G st); [done|done|]. apply Forall_app. split; [by constructor|done].
  - apply (G st); [cbn; by rewrite <- Permutation_middle|done|]. apply Forall_app. split; [done|by constructor].
Qed.

(** The entries of the loop, seen from the pool. *)
Lemma popped_pool all l d s l' : popped all l d s l' ->
  forall tx, tx ∈ l -> stale all tx = false -> tx ∈ d \/ tx ∈ s \/ tx ∈ l'.
Proof.
  intros (st & Hp & _ & Hst & _) tx Hin Hl. rewrite Hp, !elem_of_app in Hin. rewrite Forall_forall in Hst.
  destruct Hin as [[?|[?|Hin]]|?]; auto. rewrite (Hst _ Hin) in Hl. done.
Qed.

Lemma popped_sub all l d s l' tx : popped all l d s l' -> tx ∈ d \/ tx ∈ s \/ tx ∈ l' -> tx ∈ l.
Proof. intros (st & Hp & _) Hin. rewrite Hp, !elem_of_app. tauto. Qed.

Lemma popped_live all l d s l' tx : popped all l d s l' -> tx ∈ d \/ tx ∈ s -> stale all tx = false.
Proof.
  intros (st & _ & _ & _ & Hds & _) Hin. rewrite Forall_forall in Hds. apply Hds. by apply elem_of_app.
Qed.

Lemma pcap_loop_spec t local all fuel : forall drop save l,
  (length (prices l) <= fuel)%nat -> is_heap cheaper (prices l) ->
  exists d s l', pcap_loop fuel t local all drop save l = Ret ((drop ++ d, save ++ s), l') /\
    popped all (prices l) d s (prices l') /\
    Forall (fun tx => containsTx local tx = false /\ Tx_GasPrice tx < t) d /\
    Forall (fun tx => containsTx local tx = true \/ t <= Tx_GasPrice tx) s /\
    Forall (fun tx => t <= Tx_GasPrice tx) (prices l').
Proof.
  induction fuel as [|fuel IH]; intros drop save l Hf Hh; destruct (prices l) as [|x rest] eqn:E;
    try (cbn in Hf; lia); cbn [pcap_loop]; rewrite E.
  1, 2: exists [], [], l; rewrite !app_nil_r, E; split_and!; try done; by apply popped_refl.
  destruct (Pop_cheapest (x :: rest) x rest Hh eq_refl) as (l1 & -> & Hp & Hh1 & Hlt & Hmin).
  assert (Hrec : forall drop save st, exists d s l',
    pcap_loop fuel t local all drop save (mkPricedList l1 st) = Ret ((drop ++ d, save ++ s), l') /\
    popped all l1 d s (prices l') /\ Forall (fun tx => containsTx local tx = false /\ Tx_GasPrice tx < t) d /\
    Forall (fun tx => containsTx local tx = true \/ t <= Tx_GasPrice tx) s /\
    Forall (fun tx => t <= Tx_GasPrice tx) (prices l')).
  { intros drop' save' st. apply (IH drop' save' (mkPricedList l1 st)); [cbn in *; lia|done]. }
  destruct (stale all x) eqn:Hst.
  { destruct (Hrec drop save (stales l - 1)) as (d & s & l' & -> & Hpp & Hrest).
    exists d, s, l'. split; [done|]. split; [|done]. eapply popped_cons; eauto. }
  rewrite Z.geb_leb. destruct (Z.leb_spec t (Tx_GasPrice x)) as [Hge|Hlo].
  { exists [], [x], (mkPricedList l1 (stales l)). rewrite app_nil_r. split; [done|]. split_and!.
    - eapply popped_cons; [done|done|by apply popped_refl|]. right. split; [done|]. by right.
    - constructor.
    - constructor; [by right|constructor].
    - apply Forall_forall. intros y Hy. cbn in Hy. specialize (Hmin y). rewrite <- Hp in Hmin.
      specialize (Hmin ltac:(by right)). lia. }
  destruct (containsTx local x) eqn:Hloc.
  - destruct (Hrec drop (save ++ [x]) (stales l)) as (d & s & l' & -> & Hpp & Hd & Hs & Hl).
    exists d, (x :: s), l'. rewrite <- app_assoc. split; [done|]. split_and!; [|done| |done].
    + eapply popped_cons; [done|done|exact Hpp|]. right. split; [done|]. by right.
    + constructor; [by left|done].
  - destruct (Hrec (drop ++ [x]) save (stales l)) as (d & s & l' & -> & Hpp & Hd & Hs & Hl).
    exists (x :: d), s, l'. rewrite <- app_assoc. split; [done|]. split_and!; [| |done|done].
    + eapply popped_cons; [done|done|exact Hpp|]. right. split; [done|]. by left.
    + by constructor.
Qed.

Lemma Priced_Cap_spec t local all l : priced_ok all l ->
  exists d l', Priced_Cap t local all l = Ret (d, l') /\
    (forall tx, tx ∈ d <-> (exists h, all !! h = Some tx) /\ containsTx local tx = false /\ Tx_GasPrice tx < t) /\
    priced_ok (filter (fun e => e.2 ∉ d) all) l'.
Proof.
  intros Hok. destruct (pcap_loop_spec t local all (length (prices l)) [] [] l) as (d & s & l' & E & Hpp & Hd & Hs & Hl);
    [done|apply Hok|]. unfold Priced_Cap. rewrite E. cbn [mbind outcome_bind app].
  rewrite Forall_forall in Hd, Hs, Hl. pose proof Hpp as (st & _ & Hh' & _).
  destruct (push_all_spec s l' Hh') as [Hh2 Hp2]. exists d, (push_all s l'). split; [done|].
  split.
  - intros tx. split.
    + intros Hin. destruct (Hd tx Hin). split; [|done]. exists (Tx_Hash tx).
      eapply live_entry; [done|eapply popped_sub; eauto|]. eapply popped_live; eauto.
    + intros ([h Hh] & Hloc & Hlt). destruct (pool_entry _ _ _ _ Hok Hh) as [Hin Hlive].
      destruct (popped_pool _ _ _ _ _ Hpp tx Hin Hlive) as [?|[Hx|Hx]]; [done| |].
      * destruct (Hs tx Hx); [congruence|lia].
      * specialize (Hl tx Hx). lia.
  - apply (priced_ok_entries _ l); [|done| |].
    + apply (priced_ok_shrink all); [done|]. apply map_filter_subseteq.
    + intros tx. rewrite Hp2, elem_of_app. intros Hx. eapply popped_sub; eauto.
    + intros h tx [Hh Hnd]%map_lookup_filter_Some. rewrite Hp2, elem_of_app.
      destruct (pool_entry _ _ _ _ Hok Hh) as [Hin Hlive].
      destruct (popped_pool _ _ _ _ _ Hpp tx Hin Hlive) as [?|?]; [done|tauto].
Qed.

Lemma discard_loop_spec local all fuel : forall count drop save l,
  (length (prices l) <= fuel)%nat -> is_heap cheaper (prices l) -> 0 <= count ->
  exists d s l', discard_loop fuel count local all drop save l = Ret ((drop ++ d, save ++ s), l') /\
    popped all (prices l) d s (prices l') /\
    Forall (fun tx => containsTx local tx = false) d /\ Forall (fun tx => containsTx local tx = true) s /\
    (Z.of_nat (length d) = count \/ Z.of_nat (length d) <= count /\ prices l' = []).
Proof.
  induction fuel as [|fuel IH]; intros count drop save l Hf Hh Hc; cbn [discard_loop];
    (rewrite Z.gtb_ltb; destruct (Z.ltb_spec 0 count) as [Hpos|Hz];
     [|exists [], [], l; rewrite !app_nil_r; split_and!; try done; [by apply popped_refl|left; cbn; lia]]);
    destruct (prices l) as [|x rest] eqn:E; try (cbn in Hf; lia).
  1, 2: exists [], [], l; rewrite !app_nil_r, E; split_and!; try done; [by apply popped_refl|right; cbn; split; [lia|done]].
  destruct (Pop_cheapest (x :: rest) x rest Hh eq_refl) as (l1 & -> & Hp & Hh1 & Hlt & Hmin).
  assert (Hrec : forall count drop save st, 0 <= count -> exists d s l',
    discard_loop fuel count local all drop save (mkPricedList l1 st) = Ret ((drop ++ d, save ++ s), l') /\
    popped all l1 d s (prices l') /\ Forall (fun tx => containsTx local tx = false) d /\
    Forall (fun tx => containsTx local tx = true) s /\
    (Z.of_nat (length d) = count \/ Z.of_nat (length d) <= count /\ prices l' = [])).
  { intros count' drop' save' st ?. apply (IH count' drop' save' (mkPricedList l1 st)); [cbn in *; lia|done|done]. }
  destruct (stale all x) eqn:Hst.
  { destruct (Hrec count drop save (stales l - 1) Hc) as (d & s & l' & -> & Hpp & Hrest).
    exists d, s, l'. split; [done|]. split; [|done]. eapply popped_cons; eauto. }
  destruct (containsTx local x) eqn:Hloc.
  - destruct (Hrec count drop (save ++ [x]) (stales l) Hc) as (d & s & l' & -> & Hpp & Hd & Hs & Hl).
    exists d, (x :: s), l'. rewrite <- app_assoc. split; [done|]. split_and!; [|done|by constructor|done].
    eapply popped_cons; [done|done|exact Hpp|]. right. split; [done|]. by right.
  - destruct (Hrec (count - 1) (drop ++ [x]) save (stales l) ltac:(lia)) as (d & s & l' & -> & Hpp & Hd & Hs & Hl).
    exists (x :: d), s, l'. rewrite <- app_assoc. split; [done|]. split_and!; [|by constructor|done|].
    + eapply popped_cons; [done|done|exact Hpp|]. right. split; [done|]. by left.
    + cbn [length]. destruct Hl as [Hl|[Hl ->]]; [left; lia|right; split; [lia|done]].
Qed.

Lemma Discard_spec count local all l :
  0 <= count -> priced_ok all l ->
  exists d l', Discard count local all l = Ret (d, l') /\
    (forall tx, tx ∈ d -> (exists h, all !! h = Some tx) /\ containsTx local tx = false) /\
    (forall h tx, all !! h = Some tx -> containsTx local tx = false -> tx ∉ d ->
       Z.of_nat (length d) = count /\ forall x, x ∈ d -> Tx_GasPrice x <= Tx_GasPrice tx) /\
    Z.of_nat (length d) <= count /\
    priced_ok (filter (fun e => e.2 ∉ d) all) l'.
Proof.
  intros Hc Hok. unfold Discard. destruct (Z.ltb_spec count 0); [lia|].
  destruct (discard_loop_spec local all (length (prices l)) count [] [] l) as (d & s & l' & -> & Hpp & Hd & Hs & Hl);
    [done|apply Hok|done|]. cbn [mbind outcome_bind app].
  rewrite Forall_forall in Hd, Hs. pose proof Hpp as (st & _ & Hh' & _ & _ & Hle).
  destruct (push_all_spec s l' Hh') as [Hh2 Hp2]. exists d, (push_all s l'). split; [done|]. split_and!.
  - intros tx Hin. split; [|by apply Hd]. exists (Tx_Hash tx).
    eapply live_entry; [done|eapply popped_sub; eauto|]. eapply popped_live; eauto.
  - intros h tx Hh Hloc Hnd. destruct (pool_entry _ _ _ _ Hok Hh) as [Hin Hlive].
    destruct (popped_pool _ _ _ _ _ Hpp tx Hin Hlive) as [?|[Hx|Hx]]; [done|rewrite (Hs tx Hx) in Hloc; done|].
    split; [destruct Hl as [?|[_ E]]; [done|]; rewrite E in Hx; by apply elem_of_nil in Hx|].
    intros x Hxd. apply Hle; [|done]. apply elem_of_app. by left.
  - destruct Hl; lia.
  - apply (priced_ok_entries _ l); [|done| |].
    + apply (priced_ok_shrink all); [done|]. apply map_filter_subseteq.
    + intros tx. rewrite Hp2, elem_of_app. intros Hx. eapply popped_sub; eauto.
    + intros h tx [Hh Hnd]%map_lookup_filter_Some. rewrite Hp2, elem_of_app.
      destruct (pool_entry _ _ _ _ Hok Hh) as [Hin Hlive].
      destruct (popped_pool _ _ _ _ _ Hpp tx Hin Hlive) as [?|?]; [done|tauto].
Qed.

(** Making room for [count] transactions drops the cheapest ones: what
    [Discard] returns are remote transactions of the pool, as many as asked for
    or all of them, and no remote transaction of the pool that stays is cheaper
    than one that goes; the stale entries of the heap do not show, and the heap
    still has every transaction of the pool that stays. *)
Theorem Discard_cheapest count local all l :
  0 <= count -> priced_ok all l ->
  exists d l', Discard count local all l = Ret (d, l') /\
    (forall tx, tx ∈ d -> (exists h, all !! h = Some tx) /\ containsTx local tx = false) /\
    (forall h tx, all !! h = Some tx -> containsTx local tx = false -> tx ∉ d ->
       Z.of_nat (length d) = count /\ forall x, x ∈ d -> Tx_GasPrice x <= Tx_GasPrice tx) /\
    Z.of_nat (length d) <= count /\
    priced_ok (filter (fun e => e.2 ∉ d) all) l'.
Proof. apply Discard_spec. Qed.

Lemma discard_stale_spec all fuel : forall l,
  (length (prices l) <= fuel)%nat -> is_heap cheaper (prices l) ->
  exists l', discard_stale fuel all l = Ret l' /\ popped all (prices l) [] [] (prices l') /\
    match prices l' with [] => True | x :: _ => stale all x = false end.
Proof.
  induction fuel as [|fuel IH]; intros l Hf Hh; destruct (prices l) as [|x rest] eqn:E;
    try (cbn in Hf; lia); cbn [discard_stale]; rewrite E.
  1, 2: exists l; rewrite E; by split_and!; [|apply popped_refl|].
  destruct (stale all x) eqn:Hst; [|exists l; rewrite E; by split_and!; [|apply popped_refl|]].
  destruct (Pop_cheapest (x :: rest) x rest Hh eq_refl) as (l1 & -> & Hp & Hh1 & Hlt & Hmin).
  destruct (IH (mkPricedList l1 (stales l - 1))) as (l' & -> & Hpp & Hx); [cbn in *; lia|done|].
  exists l'. split; [done|]. split; [|done]. eapply popped_cons; eauto.
Qed.

(** A transaction is underpriced when it is remote and no dearer than any
    transaction of a pool that is not empty. *)
Lemma Underpriced_correct tx local all l : priced_ok all l ->
  exists b l', Underpriced tx local all l = Ret (b, l') /\ priced_ok all l' /\
    (b = true <-> containsTx local tx = false /\ all <> ∅ /\
       forall h tx', all !! h = Some tx' -> Tx_GasPrice tx <= Tx_GasPrice tx').
Proof.
  intros Hok. unfold Underpriced. destruct (containsTx local tx).
  { exists false, l. split_and!; [done|done|]. split; [done|by intros []]. }
  destruct (discard_stale_spec all (length (prices l)) l) as (l' & -> & Hpp & Hfirst); [done|apply Hok|].
  cbn [mbind outcome_bind]. pose proof Hpp as (st & _ & Hh' & _).
  assert (Hent : forall h tx', all !! h = Some tx' -> tx' ∈ prices l').
  { intros h tx' Htx. destruct (pool_entry _ _ _ _ Hok Htx) as [Hin Hlive].
    by destruct (popped_pool _ _ _ _ _ Hpp tx' Hin Hlive) as [?%elem_of_nil|[?%elem_of_nil|?]]. }
  assert (Hok' : priced_ok all l').
  { apply (priced_ok_entries _ l); [done|done| |done]. intros y Hy. eapply popped_sub; eauto. }
  destruct (prices l') as [|x rest] eqn:E.
  - exists false, l'. split_and!; [done|done|]. split; [done|]. intros (_ & Hne & _). exfalso. apply Hne.
    apply map_empty. intros h. destruct (all !! h) eqn:Eh; [|done]. by apply Hent, elem_of_nil in Eh.
  - eexists _, l'. split; [done|]. split; [done|]. rewrite Z.geb_leb, Z.leb_le.
    assert (Hx : all !! Tx_Hash x = Some x) by (eapply live_entry; [exact Hok'|rewrite E; by left|done]).
    split.
    + intros Hle. split_and!; [done| |].
      * intros ->. by rewrite lookup_empty in Hx.
      * intros h tx' Htx. destruct (Pop_cheapest (x :: rest) x rest Hh' eq_refl) as (_ & _ & _ & _ & _ & Hmin).
        specialize (Hmin tx' (Hent _ _ Htx)). lia.
    + intros (_ & _ & Hall). by eapply Hall.
Qed.

End priced.
