(* ===== verification/Clique.v ===== *)
(** * Proof-of-authority consensus (consensus/clique)

    The signers authorized to seal blocks change by the votes they cast in the
    headers.  A snapshot is the state of the vote after a block; the engine keeps
    snapshots in a cache and, at checkpoints, in a database, and applies headers
    on top of the nearest one it has. *)
From S2P Require Import Prelude GoMonad.
Local Open Scope Z_scope.

Abbreviation Address := Z (only parsing).
Abbreviation Hash := Z (only parsing).

Definition checkpointInterval : Z := 1024.
Definition epochLength : Z := 30000.
Definition blockPeriod : Z := 15.
Definition extraVanity : Z := 32.
Definition extraSeal : Z := 65.
Definition AddressLength : Z := 20.
Definition nonceAuthVote : list Z := replicate 8 255.
Definition nonceDropVote : list Z := replicate 8 0.
Definition diffInTurn : Z := 2.
Definition diffNoTurn : Z := 1.

(** A header, with the fields that are hashed for its signature. *)
Record Header := mkHeader {
  ParentHash : Hash;
  UncleHash : Hash;
  Coinbase : Address;
  Root : Hash;
  TxHash : Hash;
  ReceiptHash : Hash;
  Bloom : list Z;
  Difficulty : option Z;
  Number : option Z;
  GasLimit : option Z;
  GasUsed : option Z;
  Time : option Z;
  Extra : list Z;
  MixDigest : Hash;
  Nonce : list Z
}.

Definition with_extra (e : list Z) (h : Header) : Header :=
  mkHeader (ParentHash h) (UncleHash h) (Coinbase h) (Root h) (TxHash h) (ReceiptHash h) (Bloom h) (Difficulty h)
    (Number h) (GasLimit h) (GasUsed h) (Time h) e (MixDigest h) (Nonce h).

(** What the engine uses of MoacLib: the hash of a header, the Keccak hash of
    the encoding of its fields, the recovery of the public key of a signature,
    the hash of an empty list of uncles, the bytes of addresses and hashes. *)
Class CliqueLib := {
  Header_Hash : Header -> Hash;
  rlpKeccak256 : Header -> list Z;
  Ecrecover : list Z -> list Z -> result (list Z);
  Keccak256 : list Z -> list Z;
  emptyUncles : Hash;
  Address_list : Address -> list Z;
  Address_of : list Z -> Address
}.

Record Vote := mkVote {
  v_Signer : Address;
  v_Block : Z;
  v_Address : Address;
  v_Authorize : bool
}.

Record Tally := mkTally {
  t_Authorize : bool;
  t_Votes : Z
}.

Record Snapshot := mkSnapshot {
  s_Number : Z;
  s_Hash : Hash;
  Signers : gset Address;
  Recents : gmap Z Address;
  Votes : list Vote;
  s_Tally : gmap Address Tally
}.

#[export] Instance Vote_eq_dec : EqDecision Vote.
Proof. solve_decision. Defined.

#[export] Instance Tally_eq_dec : EqDecision Tally.
Proof. solve_decision. Defined.

(** The errors of the engine. *)
Inductive CliqueError :=
| errUnknownBlock
| errInvalidCheckpointBeneficiary
| errInvalidVote
| errInvalidCheckpointVote
| errMissingVanity
| errMissingSignature
| errExtraSigners
| errInvalidCheckpointSigners
| errInvalidMixDigest
| errInvalidUncleHash
| errInvalidDifficulty
| ErrInvalidTimestamp
| errInvalidVotingChain
| errUnauthorized
| ErrFutureBlock
| ErrUnknownAncestor
| errLibrary.

(** A call with an error result, which may panic. *)
Definition checked (A : Type) : Type := outcome (A + CliqueError).

Definition fine {A : Type} (a : A) : checked A := Ret (inl a).
Definition fails {A : Type} (e : CliqueError) : checked A := Ret (inr e).

Definition cbind {A B : Type} (m : checked A) (f : A -> checked B) : checked B :=
  match m with
  | Ret (inl a) => f a
  | Ret (inr e) => Ret (inr e)
  | Panic => Panic
  | OutOfFuel => OutOfFuel
  end.

Declare Scope clique_scope.
Delimit Scope clique_scope with clique.
Notation "x <- m ;; f" := (cbind m (fun x => f)) (at level 100, m at next level, right associativity) : clique_scope.
Local Open Scope clique_scope.

Section clique.
Context `{CliqueLib}.

(** The hash a signer signs: of the header without the signature at the end of
    its extra data, which has to be there. *)
Definition sigHash (header : Header) : outcome (list Z) :=
  if Z.of_nat (length (Extra header)) <? 65 then Panic
  else Ret (rlpKeccak256 (with_extra (take (length (Extra header) - 65) (Extra header)) header)).

(** The account that signed the header.  The cache of signatures, keyed by the
    hash of the whole header, only holds what this computes. *)
Definition ecrecover (header : Header) : checked Address :=
  if Z.of_nat (length (Extra header)) <? extraSeal then fails errMissingSignature
  else
    let signature := drop (length (Extra header) - Z.to_nat extraSeal) (Extra header) in
    match sigHash header with
    | Ret h =>
        match Ecrecover h signature with
        | Ok (_ :: key) => fine (Address_of (drop 12 (Keccak256 key)))
        | Ok [] => Panic
        | Err => fails errLibrary
        end
    | _ => Panic
    end.

(** ** Snapshots (snapshot.go) *)
Definition newSnapshot (number : Z) (hash : Hash) (signers : list Address) : Snapshot :=
  mkSnapshot number hash (list_to_set signers) ∅ [] ∅.

Definition validVote (s : Snapshot) (address : Address) (authorize : bool) : bool :=
  let signer := bool_decide (address ∈ Signers s) in
  (signer && negb authorize) || (negb signer && authorize).

Definition with_tally (t : gmap Address Tally) (s : Snapshot) : Snapshot :=
  mkSnapshot (s_Number s) (s_Hash s) (Signers s) (Recents s) (Votes s) t.

Definition with_votes (v : list Vote) (s : Snapshot) : Snapshot :=
  mkSnapshot (s_Number s) (s_Hash s) (Signers s) (Recents s) v (s_Tally s).

Definition with_recents (r : gmap Z Address) (s : Snapshot) : Snapshot :=
  mkSnapshot (s_Number s) (s_Hash s) (Signers s) r (Votes s) (s_Tally s).

Definition with_signers (g : gset Address) (s : Snapshot) : Snapshot :=
  mkSnapshot (s_Number s) (s_Hash s) g (Recents s) (Votes s) (s_Tally s).

Definition cast (address : Address) (authorize : bool) (s : Snapshot) : bool * Snapshot :=
  if negb (validVote s address authorize) then (false, s)
  else
    match s_Tally s !! address with
    | Some old => (true, with_tally (<[address := mkTally (t_Authorize old) (t_Votes old + 1)]> (s_Tally s)) s)
    | None => (true, with_tally (<[address := mkTally authorize 1]> (s_Tally s)) s)
    end.

Definition uncast (address : Address) (authorize : bool) (s : Snapshot) : bool * Snapshot :=
  match s_Tally s !! address with
  | None => (false, s)
  | Some tally =>
      if negb (Bool.eqb (t_Authorize tally) authorize) then (false, s)
      else if t_Votes tally >? 1 then
        (true, with_tally (<[address := mkTally (t_Authorize tally) (t_Votes tally - 1)]> (s_Tally s)) s)
      else (true, with_tally (delete address (s_Tally s)) s)
  end.

(** [len(Signers)/2 + 1]. *)
Definition signer_limit (s : Snapshot) : Z := Z.of_nat (size (Signers s)) / 2 + 1.

(** Let the signer that falls out of the window sign again. *)
Definition shift_recents (number : Z) (s : Snapshot) : Snapshot :=
  let limit := signer_limit s in
  if number >=? limit then with_recents (delete (number - limit) (Recents s)) s else s.

(** The first vote of the signer on the address, uncast and removed. *)
Fixpoint discard_vote (signer address : Address) (before votes : list Vote) (s : Snapshot) : Snapshot :=
  match votes with
  | [] => s
  | v :: rest =>
      if (v_Signer v =? signer) && (v_Address v =? address) then
        let s' := snd (uncast (v_Address v) (v_Authorize v) s) in
        with_votes (before ++ rest) s'
      else discard_vote signer address (before ++ [v]) rest s
  end.

(** The votes a deauthorized signer cast, uncast and removed one by one. *)
Fixpoint discard_votes_of (signer : Address) (votes : list Vote) (s : Snapshot) : list Vote * Snapshot :=
  match votes with
  | [] => ([], s)
  | v :: rest =>
      if v_Signer v =? signer then
        discard_votes_of signer rest (snd (uncast (v_Address v) (v_Authorize v) s))
      else
        let r := discard_votes_of signer rest s in (v :: fst r, snd r)
  end.

Definition nonce_vote (nonce : list Z) : option bool :=
  if bool_decide (nonce = nonceAuthVote) then Some true
  else if bool_decide (nonce = nonceDropVote) then Some false
  else None.

(** The vote passed: the account changes sides. *)
Definition pass_vote (number : Z) (account : Address) (authorize : bool) (s : Snapshot) : Snapshot :=
  let s1 :=
    if authorize then with_signers ({[account]} ∪ Signers s) s
    else
      let s' := shift_recents number (with_signers (Signers s ∖ {[account]}) s) in
      let r := discard_votes_of account (Votes s') s' in
      with_votes (fst r) (snd r) in
  let s2 := with_votes (filter (fun v => v_Address v <> account) (Votes s1)) s1 in
  with_tally (delete account (s_Tally s2)) s2.

(** The signer of a header, if it may sign now. *)
Definition authorized (header : Header) (s : Snapshot) : checked Address :=
  signer <- ecrecover header;;
  if negb (bool_decide (signer ∈ Signers s)) then fails errUnauthorized
  else if bool_decide (signer ∈ (map_to_list (Recents s)).*2) then fails errUnauthorized
  else fine signer.

(** The vote of a header: the signer's previous one on the account is replaced,
    and the account changes sides when more than half of the signers agree. *)
Definition count_vote (number : Z) (signer : Address) (header : Header) (s : Snapshot) : checked Snapshot :=
  let account := Coinbase header in
  let s1 := discard_vote signer account [] (Votes s) s in
  match nonce_vote (Nonce header) with
  | None => fails errInvalidVote
  | Some authorize =>
      let c := cast account authorize s1 in
      let s2 := if fst c then with_votes (Votes (snd c) ++ [mkVote signer number account authorize]) (snd c)
                else snd c in
      let tally := default (mkTally false 0) (s_Tally s2 !! account) in
      fine (if t_Votes tally >? Z.of_nat (size (Signers s2)) / 2
            then pass_vote number account (t_Authorize tally) s2 else s2)
  end.

Definition header_number (header : Header) : outcome Z := big_Uint64 (Number header).

(** One iteration of [apply]. *)
Definition apply_header (epoch : Z) (s : Snapshot) (header : Header) : checked Snapshot :=
  match header_number header with
  | Ret number =>
      if epoch =? 0 then Panic
      else
        let s0 := if number mod epoch =? 0 then with_tally ∅ (with_votes [] s) else s in
        let s1 := shift_recents number s0 in
        signer <- authorized header s1;;
        count_vote number signer header (with_recents (<[number := signer]> (Recents s1)) s1)
  | _ => Panic
  end.

Fixpoint apply_loop (epoch : Z) (headers : list Header) (s : Snapshot) : checked Snapshot :=
  match headers with
  | [] => fine s
  | h :: rest => s' <- apply_header epoch s h;; apply_loop epoch rest s'
  end.

(** The numbers of the headers are consecutive. *)
Fixpoint consecutive (headers : list Header) : outcome bool :=
  match headers with
  | h :: ((h' :: _) as rest) =>
      a ← header_number h; b ← header_number h';
      if negb (b =? u64 (a + 1)) then Ret false else consecutive rest
  | _ => Ret true
  end.

Definition apply (epoch : Z) (s : Snapshot) (headers : list Header) : checked Snapshot :=
  match headers with
  | [] => fine s
  | first :: _ =>
      match consecutive headers, header_number first with
      | Ret true, Ret n0 =>
          if negb (n0 =? u64 (s_Number s + 1)) then fails errInvalidVotingChain
          else
            s' <- apply_loop epoch headers s;;
            fine (mkSnapshot (u64 (s_Number s' + Z.of_nat (length headers)))
                    (match last headers with Some h => Header_Hash h | None => s_Hash s' end)
                    (Signers s') (Recents s') (Votes s') (s_Tally s'))
      | Ret false, _ => fails errInvalidVotingChain
      | _, _ => Panic
      end
  end.

(** The exchange sort of [signers]: the inner loop leaves the least of the
    remaining addresses in front. *)
Fixpoint exchange_pass (x : Address) (l : list Address) : Address * list Address :=
  match l with
  | [] => (x, [])
  | y :: l' =>
      if x >? y then let r := exchange_pass y l' in (fst r, x :: snd r)
      else let r := exchange_pass x l' in (fst r, y :: snd r)
  end.

Fixpoint exchange_sort (n : nat) (l : list Address) : list Address :=
  match n, l with
  | S n', x :: l' => let r := exchange_pass x l' in fst r :: exchange_sort n' (snd r)
  | _, _ => l
  end.

(** The signers in ascending order; the order of the bytes of an address is the
    order of the numbers.  The order in which the map is visited does not
    matter. *)
Definition signers (s : Snapshot) : list Address :=
  let l := elements (Signers s) in exchange_sort (length l) l.

Fixpoint signer_offset (signer : Address) (l : list Address) : Z :=
  match l with
  | [] => 0
  | a :: l' => if a =? signer then 0 else 1 + signer_offset signer l'
  end.

Definition inturn (s : Snapshot) (number : Z) (signer : Address) : outcome bool :=
  let l := signers s in
  if Z.of_nat (length l) =? 0 then Panic
  else Ret (number mod Z.of_nat (length l) =? signer_offset signer l).

End clique.
