(* ===== verification/CliqueProps.v ===== *)
(** * Proof-of-authority consensus: the votes (consensus/clique/snapshot.go)

    In every snapshot the tally counts the votes, each signer has at most one
    vote on an account and none on a lost cause, and the set of signers changes
    only by the votes of more than half of it. *)
From S2P Require Import Prelude GoMonad Clique.
Local Open Scope Z_scope.

Section votes.
Context `{CliqueLib}.

(** ** The exchange sort *)
Lemma exchange_pass_spec l : forall x,
  let r := exchange_pass x l in
  fst r :: snd r ≡ₚ x :: l /\ Forall (fun y => fst r <= y) (snd r) /\ length (snd r) = length l.
Proof.
  induction l as [|y l IH]; intros x; cbn; [by split_and!|].
  destruct (Z.gtb_spec x y) as [Hgt|Hle].
  - destruct (IH y) as (Hp & Hf & Hl). cbn. split_and!; [|constructor; [|done]|by rewrite Hl].
    + by rewrite Permutation_swap, Hp.
    + assert (Hy : y ∈ fst (exchange_pass y l) :: snd (exchange_pass y l)) by (rewrite Hp; by left).
      apply elem_of_cons in Hy as [<-|Hy]; [lia|]. rewrite Forall_forall in Hf. specialize (Hf y Hy). lia.
  - destruct (IH x) as (Hp & Hf & Hl). cbn. split_and!; [|constructor; [|done]|by rewrite Hl].
    + rewrite Permutation_swap, Hp. apply Permutation_swap.
    + assert (Hx : x ∈ fst (exchange_pass x l) :: snd (exchange_pass x l)) by (rewrite Hp; by left).
      apply elem_of_cons in Hx as [<-|Hx]; [lia|]. rewrite Forall_forall in Hf. specialize (Hf x Hx). lia.
Qed.

Lemma exchange_sort_spec n : forall l, length l = n ->
  exchange_sort n l ≡ₚ l /\ StronglySorted Z.le (exchange_sort n l).
Proof.
  induction n as [|n IH]; intros [|x l] Hl; try done; cbn; [by split; constructor|].
  destruct (exchange_pass_spec l x) as (Hp & Hf & Hlen). injection Hl as Hl.
  destruct (IH (snd (exchange_pass x l))) as [Hp' Hs]; [by rewrite Hlen|].
  split; [by rewrite Hp'|]. constructor; [done|]. apply Forall_forall. intros y Hy. rewrite Hp' in Hy.
  rewrite Forall_forall in Hf. by apply Hf.
Qed.

(** ** The tally *)
Definition votes_on (a : Z) (votes : list Vote) : list Vote := filter (fun v => v_Address v = a) votes.
#[local] Arguments votes_on : simpl never.

(** The tally of an account counts its votes, all in the direction that would
    change its side. *)
Definition tally_ok (s : Snapshot) (a : Z) : Prop :=
  match s_Tally s !! a with
  | Some t => t_Votes t = Z.of_nat (length (votes_on a (Votes s))) /\ 0 < t_Votes t /\
      t_Authorize t = bool_decide (a ∉ Signers s)
  | None => votes_on a (Votes s) = []
  end /\
  forall v, v ∈ Votes s -> v_Address v = a -> v_Authorize v = bool_decide (a ∉ Signers s).

Definition cast_by (v : Vote) : Z * Z := (v_Signer v, v_Address v).

Record snap_inv (s : Snapshot) : Prop := {
  inv_tally : forall a, tally_ok s a;
  inv_signer : forall v, v ∈ Votes s -> v_Signer v ∈ Signers s;
  inv_once : NoDup (cast_by <$> Votes s);
  inv_recent : forall k1 k2 a, Recents s !! k1 = Some a -> Recents s !! k2 = Some a -> k1 = k2
}.

Lemma votes_on_app a l1 l2 : votes_on a (l1 ++ l2) = votes_on a l1 ++ votes_on a l2.
Proof. apply filter_app. Qed.

(** Removing one vote and uncasting it. *)
Lemma remove_vote_tally s l1 v l2 a : Votes s = l1 ++ v :: l2 ->
  tally_ok s a -> tally_ok (with_votes (l1 ++ l2) (snd (uncast (v_Address v) (v_Authorize v) s))) a.
Proof.
  intros Hv [Ht Hd].
  assert (Hd' : forall v', v' ∈ l1 ++ l2 -> v_Address v' = a -> v_Authorize v' = bool_decide (a ∉ Signers s)).
  { intros v' Hin. apply Hd. rewrite Hv. apply elem_of_app in Hin as [?|?]; apply elem_of_app; [by left|right; by right]. }
  assert (Hsame : Signers (snd (uncast (v_Address v) (v_Authorize v) s)) = Signers s).
  { unfold uncast. repeat case_match; done. }
  assert (Hvo : forall b, votes_on b (Votes s) = votes_on b l1 ++ (if decide (v_Address v = b) then [v] else []) ++ votes_on b l2).
  { intros b. rewrite Hv. unfold votes_on. rewrite filter_app, filter_cons. destruct (decide (v_Address v = b)); reflexivity. }
  unfold tally_ok. cbn [Votes s_Tally with_votes Signers]. rewrite Hsame. split; [|done].
  destruct (decide (v_Address v = a)) as [<-|Hne].
  - rewrite (Hvo (v_Address v)), decide_True in Ht by done. rewrite (votes_on_app _ l1 l2).
    assert (Hdv : v_Authorize v = bool_decide (v_Address v ∉ Signers s)).
    { apply Hd; [|done]. rewrite Hv. apply elem_of_app. right. by left. }
    unfold uncast. destruct (s_Tally s !! v_Address v) as [t|]; [|by destruct (votes_on _ l1)].
    destruct Ht as (Hn & Hp & Ha). rewrite Ha, <- Hdv, Bool.eqb_reflx. cbn [negb].
    rewrite !length_app in Hn. cbn in Hn. rewrite Z.gtb_ltb. destruct (Z.ltb_spec 1 (t_Votes t)) as [Hgt|Hle]; cbn [snd with_tally s_Tally].
    + rewrite lookup_insert_eq. cbn [t_Votes t_Authorize]. rewrite length_app. split_and!; [lia|lia|congruence].
    + rewrite lookup_delete_eq. apply nil_length_inv. rewrite length_app. lia.
  - replace (s_Tally (snd (uncast (v_Address v) (v_Authorize v) s)) !! a) with (s_Tally s !! a).
    2: { unfold uncast. repeat case_match; cbn; rewrite ?lookup_insert_ne, ?lookup_delete_ne by done; done. }
    rewrite (Hvo a), decide_False in Ht by done. by rewrite votes_on_app.
Qed.

Lemma elem_of_votes_on a votes v : v ∈ votes_on a votes <-> v ∈ votes /\ v_Address v = a.
Proof. unfold votes_on. rewrite list_elem_of_filter. tauto. Qed.

(** Only the votes on the account, its tally and its side matter. *)
Lemma tally_ok_ext s s' a :
  s_Tally s' !! a = s_Tally s !! a -> votes_on a (Votes s') = votes_on a (Votes s) ->
  (a ∈ Signers s' <-> a ∈ Signers s) -> tally_ok s a -> tally_ok s' a.
Proof.
  intros Ht Hv Hs [H1 H2]. unfold tally_ok. rewrite Ht, Hv.
  rewrite (bool_decide_ext (a ∉ Signers s') (a ∉ Signers s)) by tauto. split; [done|].
  intros v Hin Ha. apply H2; [|done]. apply (elem_of_votes_on a). rewrite <- Hv. by apply elem_of_votes_on.
Qed.

Lemma uncast_frame a b s : exists t, snd (uncast a b s) = with_tally t s.
Proof. unfold uncast. repeat case_match; cbn; try (by eexists). all: exists (s_Tally s); by destruct s. Qed.

Lemma remove_vote_inv s l1 v l2 : snap_inv s -> Votes s = l1 ++ v :: l2 ->
  snap_inv (with_votes (l1 ++ l2) (snd (uncast (v_Address v) (v_Authorize v) s))).
Proof.
  intros [Ht Hs Hn Hr] Hv. destruct (uncast_frame (v_Address v) (v_Authorize v) s) as [t E]. split.
  - intros a. by apply remove_vote_tally.
  - rewrite E. cbn. intros v' Hin. apply Hs. rewrite Hv. apply elem_of_app in Hin as [?|?]; apply elem_of_app; [by left|right; by right].
  - cbn. rewrite Hv, fmap_app in Hn. rewrite fmap_app. cbn in Hn. apply NoDup_app in Hn as (H1 & H2 & [_ H3]%NoDup_cons).
    apply NoDup_app. split_and!; [done| |done]. intros x Hx Hx2. apply (H2 x Hx). by right.
  - by rewrite E.
Qed.

Lemma discard_vote_spec signer address votes : forall before s,
  Votes s = before ++ votes ->
  let s' := discard_vote signer address before votes s in
  s' = s /\ (forall v, v ∈ votes -> cast_by v <> (signer, address)) \/
  exists l1 v l2, votes = l1 ++ v :: l2 /\ cast_by v = (signer, address) /\
    s' = with_votes ((before ++ l1) ++ l2) (snd (uncast (v_Address v) (v_Authorize v) s)).
Proof.
  induction votes as [|v votes IH]; intros before s Hv; cbn [discard_vote].
  { left. split; [done|]. by intros v ?%elem_of_nil. }
  destruct ((v_Signer v =? signer) && (v_Address v =? address)) eqn:E.
  - apply andb_true_iff in E as [E1%Z.eqb_eq E2%Z.eqb_eq]. right. exists [], v, votes.
    rewrite app_nil_r. unfold cast_by. by rewrite E1, E2.
  - assert (Hne : cast_by v <> (signer, address)).
    { intros [= E1 E2]. rewrite E1, E2, !Z.eqb_refl in E. done. }
    destruct (IH (before ++ [v]) s) as [[-> Hn]|(l1 & v' & l2 & -> & Hc & ->)]; [by rewrite <- app_assoc| |].
    + left. split; [done|]. intros v' [->|Hin]%elem_of_cons; [done|by apply Hn].
    + right. exists (v :: l1), v', l2. split; [done|]. split; [done|]. by rewrite <- !app_assoc.
Qed.

(** The signer's vote on the account is gone. *)
Lemma discard_vote_inv signer address s : snap_inv s ->
  let s' := discard_vote signer address [] (Votes s) s in
  snap_inv s' /\ Signers s' = Signers s /\ Recents s' = Recents s /\
  (forall v, v ∈ Votes s' -> v ∈ Votes s /\ cast_by v <> (signer, address)).
Proof.
  intros Hi. destruct (discard_vote_spec signer address (Votes s) [] s eq_refl) as [[-> Hn]|(l1 & v & l2 & Hv & Hc & ->)].
  { split_and!; try done. intros v Hv. split; [done|by apply Hn]. }
  cbn [app]. destruct (uncast_frame (v_Address v) (v_Authorize v) s) as [t E].
  split; [by apply remove_vote_inv|]. rewrite E. split_and!; try done. cbn. intros v' Hin. rewrite Hv. split.
  - apply elem_of_app in Hin as [?|?]; apply elem_of_app; [by left|right; by right].
  - pose proof (inv_once s Hi) as Hn. rewrite Hv, fmap_app in Hn. cbn in Hn.
    apply NoDup_app in Hn as (_ & H2 & [H3 _]%NoDup_cons). rewrite Hc in *. intros E'.
    apply elem_of_app in Hin as [Hin|Hin].
    + apply (H2 (signer, address)); [|by left]. rewrite <- E'. by apply list_elem_of_fmap_2.
    + apply H3. rewrite <- E'. by apply list_elem_of_fmap_2.
Qed.

Lemma discard_votes_of_spec signer votes : forall kept s,
  let r := discard_votes_of signer votes s in
  fst r = filter (fun v => v_Signer v <> signer) votes /\ (exists t, snd r = with_tally t s) /\
  forall a, tally_ok (with_votes (kept ++ votes) s) a -> tally_ok (with_votes (kept ++ fst r) (snd r)) a.
Proof.
  induction votes as [|v votes IH]; intros kept s; cbn [discard_votes_of].
  { split_and!; [done| |done]. exists (s_Tally s). by destruct s. }
  rewrite filter_cons. destruct (Z.eqb_spec (v_Signer v) signer) as [Hs|Hs].
  - rewrite decide_False by tauto. destruct (uncast_frame (v_Address v) (v_Authorize v) s) as [t E].
    destruct (IH kept (snd (uncast (v_Address v) (v_Authorize v) s))) as (Hf & [t' Ht] & Ha).
    split; [done|]. split; [exists t'; by rewrite Ht, E|]. intros a Hok. apply Ha.
    pose proof (remove_vote_tally (with_votes (kept ++ v :: votes) s) kept v votes a eq_refl Hok) as Hr.
    by replace (snd (uncast (v_Address v) (v_Authorize v) (with_votes (kept ++ v :: votes) s))) with
      (with_votes (kept ++ v :: votes) (snd (uncast (v_Address v) (v_Authorize v) s))) in Hr
      by (unfold uncast; cbn; repeat case_match; done).
  - rewrite decide_True by done. destruct (IH (kept ++ [v]) s) as (Hf & Ht & Ha). cbn.
    split; [by rewrite Hf|]. split; [done|]. intros a Hok. rewrite <- !app_assoc in Ha. cbn in Ha. auto.
Qed.

(** The snapshot after a vote was cast or refused. *)
Definition cast_vote (number : Z) (signer account : Z) (authorize : bool) (s : Snapshot) : Snapshot :=
  let c := cast account authorize s in
  if fst c then with_votes (Votes (snd c) ++ [mkVote signer number account authorize]) (snd c) else snd c.

Lemma cast_frame a b s : exists t, snd (cast a b s) = with_tally t s.
Proof. unfold cast. repeat case_match; cbn; try (by eexists). exists (s_Tally s); by destruct s. Qed.

Lemma cast_vote_spec number signer account authorize s :
  (exists t, cast_vote number signer account authorize s = with_tally t s) \/
  exists t, cast_vote number signer account authorize s =
    with_votes (Votes s ++ [mkVote signer number account authorize]) (with_tally t s).
Proof.
  unfold cast_vote. destruct (cast_frame account authorize s) as [t E]. rewrite E.
  destruct (fst _); [right|left]; by exists t.
Qed.

Lemma cast_vote_tally number signer account authorize s a :
  tally_ok s a -> tally_ok (cast_vote number signer account authorize s) a.
Proof.
  intros Hok. unfold cast_vote, cast. destruct (validVote s account authorize) eqn:Hv; cbn [negb fst snd]; [|done].
  assert (Hdir : authorize = bool_decide (account ∉ Signers s)).
  { unfold validVote in Hv. destruct (decide (account ∈ Signers s)) as [Hin|Hin].
    - rewrite bool_decide_eq_true_2 in Hv by done. rewrite bool_decide_eq_false_2 by tauto. by destruct authorize.
    - rewrite bool_decide_eq_false_2 in Hv by done. rewrite bool_decide_eq_true_2 by done. by destruct authorize. }
  set (v := mkVote signer number account authorize).
  assert (Hvo : forall b, votes_on b (Votes s ++ [v]) = votes_on b (Votes s) ++ (if decide (account = b) then [v] else [])).
  { intros b. rewrite votes_on_app. unfold votes_on at 2. rewrite filter_cons, filter_nil. done. }
  destruct (decide (a = account)) as [->|Hne].
  - destruct Hok as [Ht Hd]. split.
    + destruct (s_Tally s !! account) as [t|] eqn:E; cbn [fst snd with_votes with_tally Votes s_Tally Signers];
        rewrite lookup_insert_eq; cbn [t_Votes t_Authorize]; rewrite Hvo, decide_True, length_app by done; cbn [length].
      * destruct Ht as (Hn & Hp & Ha). split_and!; [lia|lia|done].
      * rewrite Ht. cbn. split_and!; [lia|lia|done].
    + assert (Hsv : forall s', Votes s' = Votes s -> Signers s' = Signers s ->
        forall v', v' ∈ Votes (with_votes (Votes s' ++ [v]) s') -> v_Address v' = account ->
        v_Authorize v' = bool_decide (account ∉ Signers (with_votes (Votes s' ++ [v]) s'))).
      { intros s' E1 E2 v'. cbn. rewrite E1, E2, elem_of_app, list_elem_of_singleton. intros [Hin| ->] Ha; [by apply Hd|done]. }
      destruct (s_Tally s !! account); by apply Hsv.
  - destruct (s_Tally s !! account); (eapply tally_ok_ext; [| | |exact Hok]); cbn;
      [by rewrite lookup_insert_ne|by rewrite Hvo, decide_False, app_nil_r by done|done|
       by rewrite lookup_insert_ne|by rewrite Hvo, decide_False, app_nil_r by done|done].
Qed.

Lemma cast_vote_inv number signer account authorize s :
  snap_inv s -> signer ∈ Signers s -> (forall v, v ∈ Votes s -> cast_by v <> (signer, account)) ->
  let s' := cast_vote number signer account authorize s in
  snap_inv s' /\ Signers s' = Signers s /\ Recents s' = Recents s /\
  forall v, v ∈ Votes s' -> v ∈ Votes s \/ v = mkVote signer number account authorize.
Proof.
  intros [Ht Hs Hn Hr] Hsig Hnew. cbn zeta.
  assert (Hok : forall a, tally_ok (cast_vote number signer account authorize s) a) by (intros a; by apply cast_vote_tally).
  destruct (cast_vote_spec number signer account authorize s) as [[t E]|[t E]]; rewrite E in *; cbn.
  - split; [by split|]. split_and!; try done. intros v Hv. by left.
  - split.
    + split; [done| | |done]; cbn.
      * intros v [Hv|Hv%list_elem_of_singleton]%elem_of_app; [by apply Hs|by subst v].
      * rewrite fmap_app. cbn. apply NoDup_app. split_and!; [done| |apply NoDup_singleton].
        intros x (v & -> & Hv)%list_elem_of_fmap Hx%list_elem_of_singleton. by apply (Hnew v Hv).
    + split_and!; try done. by intros v [Hv|Hv%list_elem_of_singleton]%elem_of_app; [left|right].
Qed.

Lemma filter_other a b votes : a <> b -> votes_on a (filter (fun v => v_Address v <> b) votes) = votes_on a votes.
Proof.
  intros Hne. unfold votes_on. rewrite list_filter_filter_l; [done|]. intros v Ha ?. congruence.
Qed.

Lemma shift_recents_frame n s : exists r, r ⊆ Recents s /\ shift_recents n s = with_recents r s.
Proof.
  unfold shift_recents. destruct (_ >=? _); [|exists (Recents s); split; [done|by destruct s]].
  eexists. split; [|done]. apply delete_subseteq.
Qed.

(** The votes of a signer dropped, as [pass_vote] leaves them. *)
Lemma discard_votes_of_frame signer s : exists t,
  let r := discard_votes_of signer (Votes s) s in
  with_votes (fst r) (snd r) = with_votes (filter (fun v => v_Signer v <> signer) (Votes s)) (with_tally t s) /\
  forall a, tally_ok s a -> tally_ok (with_votes (fst r) (snd r)) a.
Proof.
  destruct (discard_votes_of_spec signer (Votes s) [] s) as (Hf & [t Ht] & Ha). exists t. cbn zeta.
  split; [by rewrite Hf, Ht|]. intros a Hok. cbn [app] in Ha. apply Ha. by destruct s.
Qed.

(** What holds when an account has just changed sides: everything but its own
    tally. *)
Record half_inv (account : Z) (s : Snapshot) : Prop := {
  half_tally : forall a, a <> account -> tally_ok s a;
  half_signer : forall v, v ∈ Votes s -> v_Signer v ∈ Signers s;
  half_once : NoDup (cast_by <$> Votes s);
  half_recent : forall k1 k2 a, Recents s !! k1 = Some a -> Recents s !! k2 = Some a -> k1 = k2
}.

Lemma NoDup_cast_filter (P : Vote -> Prop) `{!forall v, Decision (P v)} votes :
  NoDup (cast_by <$> votes) -> NoDup (cast_by <$> filter P votes).
Proof. intros Hn. eapply sublist_NoDup; [exact Hn|]. apply fmap_sublist, sublist_filter. Qed.

Lemma half_authorize account s : snap_inv s -> half_inv account (with_signers ({[account]} ∪ Signers s) s).
Proof.
  intros [Ht Hs Hn Hr]. split; cbn; [|set_solver|done|done].
  intros a Ha. apply (tally_ok_ext s); [done|done| |apply Ht]. cbn. set_solver.
Qed.

Lemma half_deauthorize number account s : snap_inv s ->
  let s' := shift_recents number (with_signers (Signers s ∖ {[account]}) s) in
  let r := discard_votes_of account (Votes s') s' in
  half_inv account (with_votes (fst r) (snd r)) /\
  Signers (with_votes (fst r) (snd r)) = Signers s ∖ {[account]} /\
  Recents (with_votes (fst r) (snd r)) ⊆ Recents s.
Proof.
  intros [Ht Hs Hn Hr]. cbn zeta. set (s0 := with_signers _ s).
  destruct (shift_recents_frame number s0) as (rec & Hrec & ->).
  destruct (discard_votes_of_frame account (with_recents rec s0)) as (t & E & Hok). cbn zeta in E, Hok.
  split; [|by rewrite E]. split.
  - intros a Ha. apply Hok. apply (tally_ok_ext s); [done|done| |apply Ht]. cbn. set_solver.
  - rewrite E. cbn. intros v [Hne Hv]%list_elem_of_filter. specialize (Hs v Hv). set_solver.
  - rewrite E. cbn. by apply NoDup_cast_filter.
  - rewrite E. cbn. intros k1 k2 a H1 H2. eapply Hr; eapply lookup_weaken; eauto.
Qed.

Lemma half_forget account s : half_inv account s ->
  let s2 := with_votes (filter (fun v => v_Address v <> account) (Votes s)) s in
  snap_inv (with_tally (delete account (s_Tally s2)) s2).
Proof.
  intros [Ht Hs Hn Hr]. split; cbn.
  - intros a. destruct (decide (a = account)) as [->|Ha].
    + split; cbn.
      * rewrite lookup_delete_eq. unfold votes_on. apply filter_none.
        by intros v [Hne _]%list_elem_of_filter ?.
      * by intros v [Hne _]%list_elem_of_filter ?.
    + apply (tally_ok_ext s); [by cbn; rewrite lookup_delete_ne|by apply filter_other|done|by apply Ht].
  - intros v [_ Hv]%list_elem_of_filter. by apply Hs.
  - by apply NoDup_cast_filter.
  - done.
Qed.

Lemma pass_vote_inv number account authorize s :
  snap_inv s ->
  let s' := pass_vote number account authorize s in
  snap_inv s' /\ Recents s' ⊆ Recents s /\
  Signers s' = (if authorize then {[account]} ∪ Signers s else Signers s ∖ {[account]}).
Proof.
  intros Hi. destruct authorize.
  - split; [by apply half_forget, half_authorize|by split].
  - destruct (half_deauthorize number account s Hi) as (Hh & Hsig & Hrec).
    split; [by apply half_forget|]. by split.
Qed.

(** ** The majority *)

(** The members of [voters] voted to put [account] on the side [authorize]. *)
Definition voted (s : Snapshot) (header : Header) (account : Z) (authorize : bool) (x : Z) : Prop :=
  (exists v, v ∈ Votes s /\ v_Signer v = x /\ v_Address v = account /\ v_Authorize v = authorize) \/
  ecrecover header = Ret (inl x) /\ Coinbase header = account /\ nonce_vote (Nonce header) = Some authorize.

Definition majority (s : Snapshot) (header : Header) (account : Z) (authorize : bool) : Prop :=
  exists voters : gset Z, voters ⊆ Signers s /\ (size (Signers s) < 2 * size voters)%nat /\
    forall x, x ∈ voters -> voted s header account authorize x.

(** The voters on an account. *)
Lemma voters_spec s a t : snap_inv s -> s_Tally s !! a = Some t ->
  let voters : gset Z := list_to_set (v_Signer <$> votes_on a (Votes s)) in
  voters ⊆ Signers s /\ Z.of_nat (size voters) = t_Votes t /\
  forall x, x ∈ voters -> exists v, v ∈ Votes s /\ v_Signer v = x /\ v_Address v = a /\ v_Authorize v = t_Authorize t.
Proof.
  intros [Ht Hs Hn Hr] E. cbn zeta. destruct (Ht a) as [Hta Hd]. rewrite E in Hta. destruct Hta as (Hc & _ & Ha).
  assert (Hx : forall x, x ∈ (list_to_set (v_Signer <$> votes_on a (Votes s)) : gset Z) ->
    exists v, v ∈ Votes s /\ v_Signer v = x /\ v_Address v = a).
  { intros x. rewrite elem_of_list_to_set. intros (v & -> & [Hv Hva]%elem_of_votes_on)%list_elem_of_fmap. by exists v. }
  split_and!.
  - intros x (v & Hv & <- & _)%Hx. by apply Hs.
  - rewrite size_list_to_set, length_fmap; [done|].
    assert (Hnd : NoDup (cast_by <$> votes_on a (Votes s))) by (by apply NoDup_cast_filter).
    apply (NoDup_fmap_1 (fun x => (x, a))). rewrite <- list_fmap_compose. erewrite list_fmap_ext; [exact Hnd|].
    intros i v Hi%list_elem_of_lookup_2%elem_of_votes_on. destruct Hi as [_ <-]. done.
  - intros x (v & Hv & <- & Hva)%Hx. exists v. split_and!; try done. rewrite Ha. by apply Hd.
Qed.

Lemma count_vote_inv number signer header s s' :
  snap_inv s -> signer ∈ Signers s -> ecrecover header = Ret (inl signer) ->
  count_vote number signer header s = Ret (inl s') ->
  snap_inv s' /\ Recents s' ⊆ Recents s /\
  (Signers s' = Signers s \/ exists authorize, majority s header (Coinbase header) authorize /\
     Signers s' = if authorize then {[Coinbase header]} ∪ Signers s else Signers s ∖ {[Coinbase header]}).
Proof.
  intros Hi Hsig Hec. unfold count_vote.
  destruct (discard_vote_inv signer (Coinbase header) s Hi) as (Hi1 & Hs1 & Hr1 & Hv1).
  set (s1 := discard_vote _ _ _ _ _) in *. destruct (nonce_vote (Nonce header)) as [authorize|] eqn:Hnv; [|done].
  fold (cast_vote number signer (Coinbase header) authorize s1).
  destruct (cast_vote_inv number signer (Coinbase header) authorize s1) as (Hi2 & Hs2 & Hr2 & Hv2);
    [done|by rewrite Hs1|intros v Hv; by apply Hv1|].
  set (s2 := cast_vote _ _ _ _ _) in *. intros E. injection E as <-. rewrite Z.gtb_ltb.
  destruct (Z.ltb_spec (Z.of_nat (size (Signers s2)) / 2) (t_Votes (default (mkTally false 0) (s_Tally s2 !! Coinbase header)))) as [Hlt|Hge].
  2: { split; [done|]. split; [by rewrite Hr2, Hr1|]. left. by rewrite Hs2, Hs1. }
  destruct (pass_vote_inv number (Coinbase header) (t_Authorize (default (mkTally false 0) (s_Tally s2 !! Coinbase header))) s2 Hi2)
    as (Hi3 & Hr3 & Hs3).
  split; [done|]. split; [by rewrite Hr2, Hr1 in Hr3|]. right.
  destruct (s_Tally s2 !! Coinbase header) as [t|] eqn:Et; cbn [default] in *; [|cbn in Hlt; pose proof (Z.div_pos (Z.of_nat (size (Signers s2))) 2); lia].
  exists (t_Authorize t). rewrite Hs3, Hs2, Hs1. split; [|done].
  destruct (voters_spec s2 (Coinbase header) t Hi2 Et) as (Hsub & Hsz & Hvt).
  rewrite Hs2, Hs1 in Hsub, Hlt. set (voters := list_to_set _) in *. exists voters. split; [done|].
  split.
  { pose proof (Z.div_mod (Z.of_nat (size (Signers s))) 2 ltac:(lia)).
    pose proof (Z.mod_pos_bound (Z.of_nat (size (Signers s))) 2 ltac:(lia)). unfold id in Hlt. lia. }
  intros x (v & Hv & Hx & Ha & Hd)%Hvt. destruct (Hv2 v Hv) as [Hin| ->].
  - left. exists v. split_and!; try done. by apply Hv1.
  - right. cbn in *. subst x. rewrite <- Hd. done.
Qed.

Lemma authorized_inv header s signer : authorized header s = Ret (inl signer) ->
  ecrecover header = Ret (inl signer) /\ signer ∈ Signers s /\ forall k, Recents s !! k <> Some signer.
Proof.
  unfold authorized. destruct (ecrecover header) as [[a|]| |]; cbn; try done.
  destruct (bool_decide_reflect (a ∈ Signers s)) as [Hs|]; cbn; [|done].
  destruct (bool_decide_reflect (a ∈ (map_to_list (Recents s)).*2)) as [|Hr]; [done|]. intros [= <-].
  split_and!; [done..|]. intros k Hk. apply Hr. apply list_elem_of_fmap. exists (k, a). split; [done|].
  by apply elem_of_map_to_list.
Qed.

Lemma apply_header_inv epoch s header s' :
  snap_inv s -> apply_header epoch s header = Ret (inl s') ->
  snap_inv s' /\
  (Signers s' = Signers s \/ exists authorize, majority s header (Coinbase header) authorize /\
     Signers s' = if authorize then {[Coinbase header]} ∪ Signers s else Signers s ∖ {[Coinbase header]}).
Proof.
  intros Hi. unfold apply_header. destruct (header_number header) as [number| |]; try done.
  destruct (epoch =? 0); [done|].
  set (s0 := if number mod epoch =? 0 then _ else _).
  assert (H0 : snap_inv s0 /\ Signers s0 = Signers s /\ forall v, v ∈ Votes s0 -> v ∈ Votes s).
  { unfold s0. destruct (_ =? 0); [|done]. destruct Hi as [_ _ _ Hr]. split; [|split; [done|by intros v ?%elem_of_nil]].
    split; cbn; [by intros a; split; [cbn|intros v ?%elem_of_nil]|by intros v ?%elem_of_nil|constructor|done]. }
  destruct H0 as (Hi0 & Hs0 & Hv0). destruct (shift_recents_frame number s0) as (r & Hr & ->).
  destruct (authorized header (with_recents r s0)) as [[signer|]| |] eqn:Ha; try done. cbn [cbind].
  apply authorized_inv in Ha as (Hec & Hsig & Hnr). cbn [Recents with_recents Signers] in *. intros E.
  set (s1 := with_recents (<[number := signer]> r) (with_recents r s0)) in *.
  assert (Hi1 : snap_inv s1).
  { destruct Hi0 as [Ht Hs Hn Hrr]. split; [done|done|done|]. cbn. intros k1 k2 a.
    rewrite !lookup_insert_Some. intros [[-> <-]|[Hk1 H1]] [[-> E2]|[Hk2 H2]]; try done.
    - by apply Hnr in H2.
    - subst a. by apply Hnr in H1.
    - eapply Hrr; eapply lookup_weaken; eauto. }
  destruct (count_vote_inv number signer header s1 s') as (Hi' & _ & Hsig'); [done|done|done|exact E|].
  split; [done|]. assert (Es : Signers s1 = Signers s) by done. rewrite Es in Hsig'.
  destruct Hsig' as [?|(b & (V & HV & Hsz & Hvt) & Hs')]; [by left|]. right. exists b. split; [|done].
  exists V. rewrite Es in HV, Hsz. split_and!; [done|done|]. intros x Hx.
  destruct (Hvt x Hx) as [(v & Hv & Hrest)|?]; [|by right]. left. exists v. split; [by apply Hv0|done].
Qed.

Lemma newSnapshot_inv number hash l : snap_inv (newSnapshot number hash l).
Proof.
  split; cbn; [by intros a; split; [cbn|intros v ?%elem_of_nil]|by intros v ?%elem_of_nil|constructor|done].
Qed.

Lemma apply_loop_inv epoch headers : forall s s',
  snap_inv s -> apply_loop epoch headers s = Ret (inl s') -> snap_inv s'.
Proof.
  induction headers as [|h headers IH]; intros s s' Hi; cbn; [by intros [= <-]|].
  destruct (apply_header epoch s h) as [[s1|]| |] eqn:E; try done. cbn. intros E'.
  eapply IH; [|exact E']. by eapply apply_header_inv.
Qed.

Lemma apply_inv epoch headers s s' : snap_inv s -> apply epoch s headers = Ret (inl s') -> snap_inv s'.
Proof.
  intros Hi. unfold apply. destruct headers as [|h rest]; [by intros [= <-]|].
  destruct (consecutive (h :: rest)) as [[|]| |]; try done. destruct (header_number h) as [n| |]; try done.
  destruct (negb _); [done|]. destruct (apply_loop epoch (h :: rest) s) as [[s1|]| |] eqn:E; try done.
  cbn [cbind]. intros [= <-]. destruct (apply_loop_inv _ _ _ _ Hi E) as [H1 H2 H3 H4]. by split.
Qed.

(** ** The window of recent signers *)

(** The blocks whose signers are still remembered are among the last ones: one
    less than half the signers, rounded up, and not after the last block. *)
Definition window (slack : Z) (number : Z) (s : Snapshot) : Prop :=
  forall k a, Recents s !! k = Some a -> 0 <= k /\ number - signer_limit s < k + slack /\ k <= number.

Lemma shift_recents_window number s : window 1 number s -> window 0 number (shift_recents number s).
Proof.
  intros Hw k a. unfold shift_recents. rewrite Z.geb_leb. destruct (Z.leb_spec (signer_limit s) number) as [Hle|Hlt].
  - cbn. rewrite lookup_delete_Some. intros [Hne Hk]. specialize (Hw k a Hk). change (signer_limit (with_recents _ s)) with (signer_limit s). lia.
  - intros Hk. specialize (Hw k a Hk). lia.
Qed.

Lemma signer_limit_remove (a : Z) (g : gset Z) :
  Z.of_nat (size g) / 2 + 1 <= Z.of_nat (size (g ∖ {[a]})) / 2 + 1 + 1.
Proof.
  assert (Hsz : (size g <= size (g ∖ {[a]}) + 1)%nat).
  { destruct (decide (a ∈ g)) as [Ha|Ha].
    - rewrite size_difference by set_solver. rewrite size_singleton. lia.
    - replace (g ∖ {[a]}) with g by set_solver. lia. }
  generalize dependent (size (g ∖ {[a]})). generalize (size g). intros m n Hsz.
  pose proof (Z.div_le_mono (Z.of_nat m) (Z.of_nat n + 1 * 2) 2) as Hd.
  rewrite Z.div_add in Hd by lia. lia.
Qed.

Lemma pass_vote_window number account authorize s :
  window 0 number s -> window 0 number (pass_vote number account authorize s).
Proof.
  intros Hw. destruct authorize; unfold pass_vote.
  - intros k a Hk. specialize (Hw k a Hk). unfold signer_limit in *. cbn in *.
    assert (Hsz : (size (Signers s) <= size ({[account]} ∪ Signers s))%nat) by (apply subseteq_size; set_solver).
    generalize dependent (size ({[account]} ∪ Signers s)). intros m Hm.
    pose proof (Z.div_le_mono (Z.of_nat (size (Signers s))) (Z.of_nat m) 2). lia.
  - set (s0 := with_signers (Signers s ∖ {[account]}) s).
    assert (H1 : window 1 number s0).
    { intros k a Hk. specialize (Hw k a Hk). unfold signer_limit in *. cbn.
      pose proof (signer_limit_remove account (Signers s)). lia. }
    apply shift_recents_window in H1. destruct (discard_votes_of_frame account (shift_recents number s0)) as (t & E & _).
    cbn zeta in E. rewrite E. exact H1.
Qed.

Lemma count_vote_window number signer header s s' :
  window 0 number s -> count_vote number signer header s = Ret (inl s') -> window 0 number s'.
Proof.
  intros Hw. unfold count_vote. set (s1 := discard_vote _ _ _ _ _).
  assert (H1 : window 0 number s1).
  { destruct (discard_vote_spec signer (Coinbase header) (Votes s) [] s eq_refl) as [[E _]|(l1 & v & l2 & _ & _ & E)];
      fold s1 in E; rewrite E; [done|].
    destruct (uncast_frame (v_Address v) (v_Authorize v) s) as [t ->]. exact Hw. }
  destruct (nonce_vote (Nonce header)) as [authorize|]; [|done].
  fold (cast_vote number signer (Coinbase header) authorize s1).
  assert (H2 : window 0 number (cast_vote number signer (Coinbase header) authorize s1)).
  { destruct (cast_vote_spec number signer (Coinbase header) authorize s1) as [[t ->]|[t ->]]; exact H1. }
  intros E. injection E as <-. destruct (_ >? _); [by apply pass_vote_window|done].
Qed.

Lemma apply_header_window epoch n s header s' :
  window 0 n s -> 0 <= n -> header_number header = Ret (n + 1) ->
  apply_header epoch s header = Ret (inl s') -> window 0 (n + 1) s'.
Proof.
  intros Hw H0n Hn. unfold apply_header. rewrite Hn. destruct (epoch =? 0); [done|].
  set (s0 := if (n + 1) mod epoch =? 0 then with_tally ∅ (with_votes [] s) else s).
  assert (H0 : window 1 (n + 1) s0).
  { assert (E : Recents s0 = Recents s /\ Signers s0 = Signers s) by (unfold s0; by destruct (_ =? 0)).
    destruct E as [Er Es]. intros k a Hk. rewrite Er in Hk. specialize (Hw k a Hk).
    unfold signer_limit in *. rewrite Es. lia. }
  apply shift_recents_window in H0.
  destruct (authorized header _) as [[signer|]| |]; try done. cbn [cbind]. apply count_vote_window.
  intros k a. cbn. rewrite lookup_insert_Some. intros [[<- <-]|[_ Hk]]; [|exact (H0 k a Hk)].
  unfold signer_limit. pose proof (Z.div_pos (Z.of_nat (size (Signers (shift_recents (n + 1) s0)))) 2). cbn. lia.
Qed.

(** The number of the snapshot is moved by [apply] alone. *)
Lemma apply_header_number epoch s header s' :
  apply_header epoch s header = Ret (inl s') -> s_Number s' = s_Number s.
Proof.
  unfold apply_header. destruct (header_number header) as [n| |]; try done. destruct (epoch =? 0); [done|].
  set (s0 := if n mod epoch =? 0 then with_tally ∅ (with_votes [] s) else s).
  assert (E0 : s_Number s0 = s_Number s) by (unfold s0; by destruct (_ =? 0)).
  destruct (shift_recents_frame n s0) as (r & _ & ->). destruct (authorized header _) as [[signer|]| |]; try done.
  cbn [cbind]. set (s1 := with_recents (<[n := signer]> _) _). assert (E1 : s_Number s1 = s_Number s) by done.
  clearbody s1. clear E0 s0 r. unfold count_vote. set (s2 := discard_vote _ _ _ _ _).
  assert (E2 : s_Number s2 = s_Number s).
  { destruct (discard_vote_spec signer (Coinbase header) (Votes s1) [] s1 eq_refl) as [[E _]|(l1 & v & l2 & _ & _ & E)];
      fold s2 in E; rewrite E; [done|].
    destruct (uncast_frame (v_Address v) (v_Authorize v) s1) as [t ->]. done. }
  destruct (nonce_vote (Nonce header)) as [authorize|]; [|done].
  fold (cast_vote n signer (Coinbase header) authorize s2).
  assert (E3 : s_Number (cast_vote n signer (Coinbase header) authorize s2) = s_Number s).
  { destruct (cast_vote_spec n signer (Coinbase header) authorize s2) as [[t ->]|[t ->]]; done. }
  intros E. injection E as <-. destruct (_ >? _); [|done]. unfold pass_vote.
  destruct (t_Authorize _); [done|]. set (s4 := with_signers _ _).
  destruct (shift_recents_frame n s4) as (r & _ & ->).
  destruct (discard_votes_of_frame (Coinbase header) (with_recents r s4)) as (t & -> & _). done.
Qed.

(** What a header of the right number is checked against: its own number. *)
Lemma consecutive_cons h h' rest : consecutive (h :: h' :: rest) = Ret true ->
  exists a, header_number h = Ret a /\ header_number h' = Ret (u64 (a + 1)) /\ consecutive (h' :: rest) = Ret true.
Proof.
  cbn. destruct (header_number h) as [a| |]; cbn; try done. destruct (header_number h') as [b| |]; cbn; try done.
  destruct (Z.eqb_spec b (u64 (a + 1))) as [->|]; cbn; [|done]. intros E. by exists a.
Qed.

Lemma apply_loop_window epoch headers : forall n h s s',
  window 0 n s -> 0 <= n -> n + Z.of_nat (length (h :: headers)) <= MaxUint64 ->
  header_number h = Ret (n + 1) -> consecutive (h :: headers) = Ret true ->
  apply_loop epoch (h :: headers) s = Ret (inl s') ->
  window 0 (n + Z.of_nat (length (h :: headers))) s' /\ s_Number s' = s_Number s.
Proof.
  induction headers as [|h' headers IH]; intros n h s s' Hw Hn Hmax Hh Hc; cbn [apply_loop];
    destruct (apply_header epoch s h) as [[s1|]| |] eqn:E; try done; cbn [cbind];
    pose proof (apply_header_window _ _ _ _ _ Hw Hn Hh E) as Hw1; pose proof (apply_header_number _ _ _ _ E) as En.
  - intros [= <-]. split; [exact Hw1|done].
  - intros E'. apply consecutive_cons in Hc as (a & Ha & Hh' & Hc). rewrite Hh in Ha. injection Ha as <-.
    cbn [length] in *. destruct (IH (n + 1) h' s1 s') as [Hw' En']; [done|lia|lia| |done|exact E'|].
    + rewrite Hh'. f_equal. unfold u64. apply Z.mod_small. unfold MaxUint64 in Hmax. lia.
    + split; [|by rewrite En']. replace (n + Z.of_nat (S (S (length headers)))) with (n + 1 + Z.of_nat (S (length headers))) by lia.
      done.
Qed.

(** The snapshots the engine can have below the last block number: a genesis
    snapshot, and what [apply] makes of one. *)
Inductive reachable (epoch : Z) : Snapshot -> Prop :=
| reachable_genesis hash l : reachable epoch (newSnapshot 0 hash l)
| reachable_apply s headers s' : reachable epoch s -> s_Number s + Z.of_nat (length headers) <= MaxUint64 ->
    apply epoch s headers = Ret (inl s') -> reachable epoch s'.

Lemma fine_inj {A : Type} (a b : A) : fine a = Ret (inl b) -> a = b.
Proof. by intros [= <-]. Qed.

Lemma apply_window epoch s headers s' :
  window 0 (s_Number s) s -> 0 <= s_Number s -> s_Number s + Z.of_nat (length headers) <= MaxUint64 ->
  apply epoch s headers = Ret (inl s') ->
  window 0 (s_Number s') s' /\ s_Number s' = s_Number s + Z.of_nat (length headers).
Proof.
  intros Hw Hn Hmax. unfold apply. destruct headers as [|h rest]; [intros [= <-]; cbn; split; [done|lia]|].
  destruct (consecutive (h :: rest)) as [[|]| |] eqn:Hc; try done. destruct (header_number h) as [n| |] eqn:Hh; try done.
  destruct (Z.eqb_spec n (u64 (s_Number s + 1))) as [->|]; cbn [negb]; [|done].
  destruct (apply_loop epoch (h :: rest) s) as [[s1|]| |] eqn:E; try done. cbn [cbind]. intros <-%fine_inj.
  unfold u64 in Hh. rewrite Z.mod_small in Hh by (unfold MaxUint64 in Hmax; cbn [length] in Hmax; lia).
  destruct (apply_loop_window _ _ _ _ _ _ Hw Hn Hmax Hh Hc E) as [Hw' En]. cbn [s_Number].
  assert (Hsm : u64 (s_Number s1 + Z.of_nat (length (h :: rest))) = s_Number s + Z.of_nat (length (h :: rest))).
  { rewrite En. unfold u64. apply Z.mod_small. unfold MaxUint64 in Hmax. lia. }
  rewrite Hsm. split; [exact Hw'|done].
Qed.

Lemma reachable_inv epoch s : reachable epoch s -> snap_inv s /\ window 0 (s_Number s) s /\ 0 <= s_Number s.
Proof.
  induction 1 as [|s headers s' _ (IH1 & IH2 & IH3) Hmax E]; [split_and!; [apply newSnapshot_inv|intros k a; cbn; by rewrite lookup_empty|done]|].
  destruct (apply_window _ _ _ _ IH2 IH3 Hmax E) as [Hw En]. split_and!; [by eapply apply_inv|done|rewrite En; lia].
Qed.

(** C6. The signers govern themselves by majority: whatever headers led to a
    snapshot, the next header changes the set of signers only by adding or
    removing the account it names, and only when more than half of the current
    signers voted for that, each counted once: in an earlier header whose vote
    still stands, or in this one. *)
Theorem signers_change_by_majority epoch s header s' :
  reachable epoch s -> apply_header epoch s header = Ret (inl s') ->
  Signers s' = Signers s \/
  exists authorize, majority s header (Coinbase header) authorize /\
    Signers s' = if authorize then {[Coinbase header]} ∪ Signers s else Signers s ∖ {[Coinbase header]}.
Proof. intros Hr E. by apply (apply_header_inv epoch s header s' (proj1 (reachable_inv _ _ Hr))). Qed.

(** C36. A snapshot is always consistent: in every snapshot the engine can have,
    each account with votes has a tally with their number and with the side they
    would put it on, an account without votes has none, every vote is by a
    current signer, no signer has two votes on one account or is remembered
    twice as a recent one, and the blocks of the recent signers are among the
    last half of the number of signers, the block of the snapshot included. *)
Theorem snapshot_consistent epoch s : reachable epoch s -> snap_inv s /\ window 0 (s_Number s) s.
Proof. intros Hr. destruct (reachable_inv epoch s Hr) as (? & ? & _). done. Qed.

End votes.
