(* ===== verification/CliqueEngine.v ===== *)
(** * The proof-of-authority engine (consensus/clique/clique.go, api.go)

    The engine verifies and seals headers against the snapshot of their parent,
    which it finds in its cache, in its database or, at block zero, in the
    genesis header, applying the headers it passed on the way back. *)
From S2P Require Import Prelude GoMonad Clique.
Local Open Scope Z_scope.

Abbreviation Address := Z (only parsing).
Abbreviation Hash := Z (only parsing).

Record CliqueConfig := mkCliqueConfig {
  Period : Z;
  Epoch : Z
}.

(** The chain the engine is asked about ([consensus.ChainReader]). *)
Record ChainReader := mkChainReader {
  CurrentHeader : option Header;
  GetHeader : Hash -> Z -> option Header;
  GetHeaderByNumber : Z -> option Header;
  GetHeaderByHash : Hash -> option Header
}.

(** The libraries behind the engine: the adaptive cache of golang-lru, whose
    lookups reorder it; the database of MoacLib; the JSON form of a snapshot. *)
Class EngineLib := {
  ARCCache : Type;
  NewARC : Z -> ARCCache;
  ARC_Get : ARCCache -> Hash -> option Snapshot * ARCCache;
  ARC_Add : ARCCache -> Hash -> Snapshot -> ARCCache;
  Database : Type;
  db_Get : Database -> list Z -> result (list Z);
  db_Put : Database -> list Z -> list Z -> result unit * Database;
  Hash_list : Hash -> list Z;
  json_Marshal : Snapshot -> result (list Z);
  json_Unmarshal : list Z -> result Snapshot
}.

Definition inmemorySnapshots : Z := 128.

(** [SignerFn]: an account signs a hash. *)
Definition SignerFn : Type := Address -> list Z -> result (list Z).

Section engine.
Context `{CliqueLib, EngineLib}.

Record Clique := mkClique {
  c_config : CliqueConfig;
  c_db : Database;
  c_recents : ARCCache;
  c_proposals : gmap Address bool;
  c_signer : Address;
  c_signFn : option SignerFn
}.

Definition with_db (d : Database) (c : Clique) : Clique :=
  mkClique (c_config c) d (c_recents c) (c_proposals c) (c_signer c) (c_signFn c).

Definition with_cache (r : ARCCache) (c : Clique) : Clique :=
  mkClique (c_config c) (c_db c) r (c_proposals c) (c_signer c) (c_signFn c).

Definition with_proposals (p : gmap Address bool) (c : Clique) : Clique :=
  mkClique (c_config c) (c_db c) (c_recents c) p (c_signer c) (c_signFn c).

Definition New (config : CliqueConfig) (db : Database) : Clique :=
  mkClique
    (mkCliqueConfig (if Period config =? 0 then blockPeriod else Period config)
       (if Epoch config =? 0 then epochLength else Epoch config))
    db (NewARC inmemorySnapshots) ∅ 0 None.

(** ** Snapshots in the database (snapshot.go) *)

(** The bytes of [clique-]. *)
Definition snapshot_key (hash : Hash) : list Z := [99; 108; 105; 113; 117; 101; 45] ++ Hash_list hash.

Definition loadSnapshot (db : Database) (hash : Hash) : result Snapshot :=
  match db_Get db (snapshot_key hash) with
  | Err => Err
  | Ok blob => json_Unmarshal blob
  end.

Definition store (s : Snapshot) (db : Database) : result unit * Database :=
  match json_Marshal s with
  | Err => (Err, db)
  | Ok blob => db_Put db (snapshot_key (s_Hash s)) blob
  end.

(** ** Calls of the engine *)
Definition call (A : Type) : Type := throws Clique CliqueError A.

Definition recents_Get (hash : Hash) : call (option Snapshot) :=
  c <-! the_state;;
  let r := ARC_Get (c_recents c) hash in
  _ <-! update (with_cache (snd r));; returns (fst r).

Definition recents_Add (s : Snapshot) : call unit :=
  update (fun c => with_cache (ARC_Add (c_recents c) (s_Hash s) s) c).

Definition store_snapshot (s : Snapshot) : call unit :=
  c <-! the_state;;
  let r := store s (c_db c) in
  _ <-! update (with_db (snd r));;
  match fst r with Ok _ => returns tt | Err => errs errLibrary end.

(** ** Verification of a header

    Finding a snapshot at block zero verifies the genesis header, so the
    verification has the search for a snapshot as a parameter, given the number
    and hash of a block and its parents. *)
Definition is_checkpoint (epoch number : Z) : bool := number mod epoch =? 0.

(** The checks on the header alone. *)
Definition verify_fields (now : Z) (config : CliqueConfig) (header : Header) (number : Z) : checked unit :=
  let len := Z.of_nat (length (Extra header)) in
  let signersBytes := len - extraVanity - extraSeal in
  match Time header with
  | None => Panic
  | Some t =>
      if t >? now then fails ErrFutureBlock
      else if Epoch config =? 0 then Panic
      else
        let checkpoint := is_checkpoint (Epoch config) number in
        if checkpoint && negb (Coinbase header =? 0) then fails errInvalidCheckpointBeneficiary
        else if negb (bool_decide (Nonce header = nonceAuthVote)) && negb (bool_decide (Nonce header = nonceDropVote))
        then fails errInvalidVote
        else if checkpoint && negb (bool_decide (Nonce header = nonceDropVote)) then fails errInvalidCheckpointVote
        else if len <? extraVanity then fails errMissingVanity
        else if len <? extraVanity + extraSeal then fails errMissingSignature
        else if negb checkpoint && negb (signersBytes =? 0) then fails errExtraSigners
        else if checkpoint && negb (Z.rem signersBytes AddressLength =? 0) then fails errInvalidCheckpointSigners
        else if negb (MixDigest header =? 0) then fails errInvalidMixDigest
        else if negb (UncleHash header =? emptyUncles) then fails errInvalidUncleHash
        else if (number >? 0) &&
          negb (bool_decide (Difficulty header = Some diffInTurn) || bool_decide (Difficulty header = Some diffNoTurn))
        then fails errInvalidDifficulty
        else fine tt
  end.

Section verification.
Context (now : Z) (chain : ChainReader).
Context (find : Z -> Hash -> list Header -> call Snapshot).

(** The signer is among the recent ones, and the block does not shift it out. *)
Definition signed_recently (s : Snapshot) (number : Z) (signer : Address) : bool :=
  existsb (fun e => (e.2 =? signer) && (e.1 >? u64 (number - signer_limit s))) (map_to_list (Recents s)).

Definition verifySeal_with (header : Header) (parents : list Header) : call unit :=
  number <-! deref (header_number header);;
  if number =? 0 then errs errUnknownBlock
  else
    snap <-! find (u64 (number - 1)) (ParentHash header) parents;;
    signer <-! lift (ecrecover header);;
    if negb (bool_decide (signer ∈ Signers snap)) then errs errUnauthorized
    else if signed_recently snap number signer then errs errUnauthorized
    else
      turn <-! deref (inturn snap number signer);;
      match Difficulty header with
      | None => gpanic
      | Some d =>
          if turn && negb (d =? diffInTurn) then errs errInvalidDifficulty
          else if negb turn && negb (d =? diffNoTurn) then errs errInvalidDifficulty
          else returns tt
      end.

(** The parent of the header: the last of the given ones, or the chain's. *)
Definition parent_of (header : Header) (number : Z) (parents : list Header) : option Header :=
  match last parents with
  | Some p => Some p
  | None => GetHeader chain (ParentHash header) (u64 (number - 1))
  end.

Definition checkpoint_signers (snap : Snapshot) : list Z := concat (Address_list <$> signers snap).

Definition verifyCascadingFields_with (header : Header) (parents : list Header) : call unit :=
  number <-! deref (header_number header);;
  if number =? 0 then returns tt
  else
    match parent_of header number parents with
    | None => errs ErrUnknownAncestor
    | Some parent =>
        pn <-! deref (header_number parent);;
        if negb (pn =? u64 (number - 1)) || negb (Header_Hash parent =? ParentHash header) then errs ErrUnknownAncestor
        else
          pt <-! deref (big_Uint64 (Time parent));;
          t <-! deref (big_Uint64 (Time header));;
          config <-! (c <-! the_state;; returns (c_config c));;
          if u64 (pt + Period config) >? t then errs ErrInvalidTimestamp
          else
            snap <-! find (u64 (number - 1)) (ParentHash header) parents;;
            if is_checkpoint (Epoch config) number &&
              negb (bool_decide
                (drop (Z.to_nat extraVanity) (take (length (Extra header) - Z.to_nat extraSeal) (Extra header)) =
                 checkpoint_signers snap))
            then errs errInvalidCheckpointSigners
            else verifySeal_with header parents
    end.

Definition verifyHeader_with (header : Header) (parents : list Header) : call unit :=
  match Number header with
  | None => errs errUnknownBlock
  | Some z =>
      config <-! (c <-! the_state;; returns (c_config c));;
      _ <-! lift (verify_fields now config header (u64 (Z.abs z)));;
      verifyCascadingFields_with header parents
  end.

End verification.

(** ** The snapshot of a block *)

(** The signers listed in the genesis header. *)
Definition genesis_signers (genesis : Header) : list Address :=
  (fun i => Address_of (take (Z.to_nat AddressLength)
              (drop (Z.to_nat extraVanity + i * Z.to_nat AddressLength) (Extra genesis)))) <$>
  seq 0 (Z.to_nat ((Z.of_nat (length (Extra genesis)) - extraVanity - extraSeal) ÷ AddressLength)).

Definition genesis_snapshot (genesis : Header) : Snapshot :=
  newSnapshot 0 (Header_Hash genesis) (genesis_signers genesis).

(** The snapshot found for the block [number], if it is a checkpoint. *)
Definition load_checkpoint (number : Z) (hash : Hash) : call (option Snapshot) :=
  if number mod checkpointInterval =? 0 then
    c <-! the_state;; returns (match loadSnapshot (c_db c) hash with Ok s => Some s | Err => None end)
  else returns None.

(** The header to gather and the parents left. *)
Definition gather (chain : ChainReader) (number : Z) (hash : Hash) (parents : list Header)
    : checked (Header * list Header) :=
  match last parents with
  | Some header =>
      if negb (Header_Hash header =? hash) then fails ErrUnknownAncestor
      else
        match header_number header with
        | Ret n => if negb (n =? number) then fails ErrUnknownAncestor else fine (header, removelast parents)
        | _ => Panic
        end
  | None =>
      match GetHeader chain hash number with
      | None => fails ErrUnknownAncestor
      | Some header => fine (header, parents)
      end
  end.

(** The gathered headers, last first, are applied on top of the snapshot found. *)
Definition apply_gathered (found : Snapshot * list Header) : call Snapshot :=
  c <-! the_state;;
  let headers := rev (snd found) in
  snap <-! lift (apply (Epoch (c_config c)) (fst found) headers);;
  _ <-! recents_Add snap;;
  if (s_Number snap mod checkpointInterval =? 0) && (0 <? Z.of_nat (length headers)) then
    _ <-! store_snapshot snap;; returns snap
  else returns snap.

Section search.
Context (now : Z) (chain : ChainReader).

Fixpoint find_snapshot (fuel : nat) (number : Z) (hash : Hash) (parents headers : list Header)
    : call (Snapshot * list Header) :=
  match fuel with
  | O => gfuel
  | S f =>
      cached <-! recents_Get hash;;
      match cached with
      | Some s => returns (s, headers)
      | None =>
          loaded <-! load_checkpoint number hash;;
          match loaded with
          | Some s => returns (s, headers)
          | None =>
              if number =? 0 then
                match GetHeaderByNumber chain 0 with
                | None => gpanic
                | Some genesis =>
                    _ <-! verifyHeader_with now chain
                            (fun n h ps => found <-! find_snapshot f n h ps [];; apply_gathered found) genesis [];;
                    let snap := genesis_snapshot genesis in
                    _ <-! store_snapshot snap;;
                    returns (snap, headers)
                end
              else
                g <-! lift (gather chain number hash parents);;
                find_snapshot f (u64 (number - 1)) (ParentHash (fst g)) (snd g) (headers ++ [fst g])
          end
      end
  end.

Definition snapshot (fuel : nat) (number : Z) (hash : Hash) (parents : list Header) : call Snapshot :=
  found <-! find_snapshot fuel number hash parents [];; apply_gathered found.

(** ** The engine's interface *)
Definition Author (header : Header) : call Address := lift (ecrecover header).

Definition verifyHeader (fuel : nat) := verifyHeader_with now chain (snapshot fuel).

Definition VerifyHeader (fuel : nat) (header : Header) : call unit := verifyHeader fuel header [].

(** The results of a batch, in order, each header verified with those before it
    as its parents. *)
Definition VerifyHeaders (fuel : nat) (headers : list Header) : go Clique (list (unit + CliqueError)) :=
  for_each (fun acc i =>
      match headers !! i with
      | Some header =>
          mbind (M := go Clique) (fun r => mret (acc ++ [r])) (verifyHeader fuel header (take i headers))
      | None => mret acc
      end) [] (seq 0 (length headers)).

Definition VerifyUncles (uncles : list Header) : bool := (length uncles =? 0)%nat.

Definition verifySeal (fuel : nat) := verifySeal_with (snapshot fuel).

Definition VerifySeal (fuel : nat) (header : Header) : call unit := verifySeal fuel header [].

Definition with_vote (coinbase : Address) (nonce : list Z) (h : Header) : Header :=
  mkHeader (ParentHash h) (UncleHash h) coinbase (Root h) (TxHash h) (ReceiptHash h) (Bloom h) (Difficulty h)
    (Number h) (GasLimit h) (GasUsed h) (Time h) (Extra h) (MixDigest h) nonce.

Definition with_turn (difficulty : Z) (extra : list Z) (h : Header) : Header :=
  mkHeader (ParentHash h) (UncleHash h) (Coinbase h) (Root h) (TxHash h) (ReceiptHash h) (Bloom h) (Some difficulty)
    (Number h) (GasLimit h) (GasUsed h) (Time h) extra 0 (Nonce h).

Definition with_time (t : Z) (h : Header) : Header :=
  mkHeader (ParentHash h) (UncleHash h) (Coinbase h) (Root h) (TxHash h) (ReceiptHash h) (Bloom h) (Difficulty h)
    (Number h) (GasLimit h) (GasUsed h) (Some t) (Extra h) (MixDigest h) (Nonce h).

(** A random one of the proposals that make sense, as a vote. *)
Definition pick_vote (intn : Z -> Z) `{MapOrder Address bool} (proposals : gmap Address bool) (snap : Snapshot)
    (header : Header) : outcome Header :=
  let addresses := fst <$> filter (fun e => validVote snap e.1 e.2 = true) (range proposals) in
  if (length addresses =? 0)%nat then Ret header
  else
    match addresses !! Z.to_nat (intn (Z.of_nat (length addresses))) with
    | None => Panic
    | Some a =>
        Ret (with_vote a (if default false (proposals !! a) then nonceAuthVote else nonceDropVote) header)
    end.

(** The vanity, the signers at a checkpoint, and room for the signature. *)
Definition prepare_extra (snap : Snapshot) (checkpoint : bool) (extra : list Z) : list Z :=
  take (Z.to_nat extraVanity) (extra ++ replicate (Z.to_nat extraVanity - length extra) 0) ++
  (if checkpoint then checkpoint_signers snap else []) ++ replicate (Z.to_nat extraSeal) 0.

Definition Prepare (fuel : nat) (intn : Z -> Z) `{MapOrder Address bool} (header : Header) : call Header :=
  let h0 := with_vote 0 (replicate 8 0) header in
  number <-! deref (header_number h0);;
  snap <-! snapshot fuel (u64 (number - 1)) (ParentHash h0) [];;
  c <-! the_state;;
  if Epoch (c_config c) =? 0 then gpanic
  else
    let checkpoint := is_checkpoint (Epoch (c_config c)) number in
    h1 <-! deref (if checkpoint then Ret h0 else pick_vote intn (c_proposals c) snap h0);;
    turn <-! deref (inturn snap number (c_signer c));;
    let h2 := with_turn (if turn then diffInTurn else diffNoTurn) (prepare_extra snap checkpoint (Extra h1)) h1 in
    match GetHeader chain (ParentHash h2) (u64 (number - 1)) with
    | None => errs ErrUnknownAncestor
    | Some parent =>
        match Time parent with
        | None => gpanic
        | Some pt =>
            let t := pt + Period (c_config c) in
            t64 <-! deref (big_Int64 (Some t));;
            returns (with_time (if t64 <? now then now else t) h2)
        end
    end.

Definition Authorize (signer : Address) (signFn : SignerFn) : go Clique unit :=
  gmodify (fun c => mkClique (c_config c) (c_db c) (c_recents c) (c_proposals c) signer (Some signFn)).

(** [copy(dst, src)]. *)
Definition copy_bytes (dst src : list Z) : list Z := take (length dst) src ++ drop (length src) dst.

(** The signature over the end of the extra data. *)
Definition seal_extra (extra sighash : list Z) : list Z :=
  let n := (length extra - Z.to_nat extraSeal)%nat in
  take n extra ++ copy_bytes (drop n extra) sighash.

(** The local signer has to wait for the others. *)
Definition must_wait (s : Snapshot) (number : Z) (signer : Address) : bool :=
  let limit := signer_limit s in
  existsb (fun e => (e.2 =? signer) && ((number <? limit) || (e.1 >? u64 (number - limit)))) (map_to_list (Recents s)).

(** [None] when the sealing is stopped, which is all a recent signer can wait
    for; [stopped] says whether that happens before the time of the block. *)
Definition Seal (fuel : nat) (stopped : bool) (header : Header) : call (option Header) :=
  number <-! deref (header_number header);;
  if number =? 0 then errs errUnknownBlock
  else
    c <-! the_state;;
    let signer := c_signer c in
    snap <-! snapshot fuel (u64 (number - 1)) (ParentHash header) [];;
    if negb (bool_decide (signer ∈ Signers snap)) then errs errUnauthorized
    else if must_wait snap number signer then returns None
    else
      match Time header, Difficulty header with
      | Some _, Some _ =>
          if stopped then returns None
          else
            h <-! deref (sigHash header);;
            match c_signFn c with
            | None => gpanic
            | Some signFn =>
                match signFn signer h with
                | Err => errs errLibrary
                | Ok sighash => returns (Some (with_extra (seal_extra (Extra header) sighash) header))
                end
            end
      | _, _ => gpanic
      end.

(** ** The API (api.go) *)
Definition LatestBlockNumber : Z := -1.

Definition header_at (number : option Z) : option Header :=
  match number with
  | None => CurrentHeader chain
  | Some n => if n =? LatestBlockNumber then CurrentHeader chain else GetHeaderByNumber chain (u64 n)
  end.

Definition snapshot_of (fuel : nat) (header : option Header) : call Snapshot :=
  match header with
  | None => errs errUnknownBlock
  | Some h => n <-! deref (header_number h);; snapshot fuel n (Header_Hash h) []
  end.

Definition GetSnapshot (fuel : nat) (number : option Z) : call Snapshot := snapshot_of fuel (header_at number).

Definition GetSnapshotAtHash (fuel : nat) (hash : Hash) : call Snapshot :=
  snapshot_of fuel (GetHeaderByHash chain hash).

Definition GetSigners (fuel : nat) (number : option Z) : call (list Address) :=
  snap <-! snapshot_of fuel (header_at number);; returns (signers snap).

Definition GetSignersAtHash (fuel : nat) (hash : Hash) : call (list Address) :=
  snap <-! snapshot_of fuel (GetHeaderByHash chain hash);; returns (signers snap).

Definition Proposals : go Clique (gmap Address bool) := c ← gget; mret (c_proposals c).

Definition Propose (address : Address) (auth : bool) : go Clique unit :=
  gmodify (fun c => with_proposals (<[address := auth]> (c_proposals c)) c).

Definition Discard (address : Address) : go Clique unit :=
  gmodify (fun c => with_proposals (delete address (c_proposals c)) c).

End search.

End engine.
