(* ===== verification/CliqueEngineProps.v ===== *)
(** * What the proof-of-authority engine guarantees

    The snapshot the engine finds for a block, whatever its cache and database
    hold, is the one its headers give from the genesis block on; what it seals
    is what it verifies and what the next snapshot accepts. *)
From S2P Require Import Prelude GoMonad Clique CliqueProps CliqueEngine.
Local Open Scope Z_scope.

Section replay.
Context `{CliqueLib}.

(** ** Headers applied in pieces *)

(** The number and hash of a snapshot take no part in the votes. *)
Definition restamp (n h : Z) (s : Snapshot) : Snapshot :=
  mkSnapshot n h (Signers s) (Recents s) (Votes s) (s_Tally s).

Lemma restamp_uncast n h a b s : snd (uncast a b (restamp n h s)) = restamp n h (snd (uncast a b s)).
Proof. unfold uncast. cbn [s_Tally restamp]. repeat case_match; done. Qed.

Lemma restamp_cast n h a b s : cast a b (restamp n h s) = prod_map id (restamp n h) (cast a b s).
Proof.
  unfold cast. change (validVote (restamp n h s) a b) with (validVote s a b). cbn [s_Tally restamp].
  repeat case_match; done.
Qed.

Lemma restamp_shift n h k s : shift_recents k (restamp n h s) = restamp n h (shift_recents k s).
Proof. unfold shift_recents. change (signer_limit (restamp n h s)) with (signer_limit s). by destruct (_ >=? _). Qed.

Lemma restamp_discard n h signer a votes : forall before s,
  discard_vote signer a before votes (restamp n h s) = restamp n h (discard_vote signer a before votes s).
Proof.
  induction votes as [|v votes IH]; intros before s; cbn [discard_vote]; [done|].
  destruct (_ && _); [by rewrite restamp_uncast|apply IH].
Qed.

Lemma restamp_discard_of n h signer votes : forall s,
  discard_votes_of signer votes (restamp n h s) = prod_map id (restamp n h) (discard_votes_of signer votes s).
Proof.
  induction votes as [|v votes IH]; intros s; cbn [discard_votes_of]; [done|].
  destruct (_ =? _); [by rewrite restamp_uncast, IH|by rewrite IH].
Qed.

Lemma restamp_pass n h k a b s : pass_vote k a b (restamp n h s) = restamp n h (pass_vote k a b s).
Proof.
  unfold pass_vote. destruct b; [done|].
  change (with_signers (Signers (restamp n h s) ∖ {[a]}) (restamp n h s)) with (restamp n h (with_signers (Signers s ∖ {[a]}) s)).
  rewrite restamp_shift. change (Votes (restamp n h ?x)) with (Votes x). by rewrite restamp_discard_of.
Qed.

Lemma restamp_header n h epoch s header :
  apply_header epoch (restamp n h s) header = cbind (apply_header epoch s header) (fun s' => fine (restamp n h s')).
Proof.
  unfold apply_header. destruct (header_number header) as [k| |]; [|done..]. destruct (epoch =? 0); [done|].
  replace (if k mod epoch =? 0 then with_tally ∅ (with_votes [] (restamp n h s)) else restamp n h s)
    with (restamp n h (if k mod epoch =? 0 then with_tally ∅ (with_votes [] s) else s)) by (by destruct (_ =? 0)).
  rewrite restamp_shift. set (s1 := shift_recents k _). change (authorized header (restamp n h s1)) with (authorized header s1).
  destruct (authorized header s1) as [[signer|]| |]; cbn [cbind]; try done.
  change (with_recents (<[k := signer]> (Recents (restamp n h s1))) (restamp n h s1))
    with (restamp n h (with_recents (<[k := signer]> (Recents s1)) s1)).
  set (s2 := with_recents _ s1). unfold count_vote. change (Votes (restamp n h s2)) with (Votes s2).
  rewrite restamp_discard. destruct (nonce_vote (Nonce header)) as [b|]; [|done]. rewrite restamp_cast.
  destruct (cast (Coinbase header) b _) as [[|] s3]; cbn [fst snd prod_map id cbind fine];
    [change (with_votes (Votes (restamp n h s3) ++ ?l) (restamp n h s3)) with (restamp n h (with_votes (Votes s3 ++ l) s3))|];
    rewrite restamp_pass; change (s_Tally (restamp n h ?x)) with (s_Tally x); change (Signers (restamp n h ?x)) with (Signers x);
    by destruct (_ >? _).
Qed.

Lemma restamp_loop n h epoch headers : forall s,
  apply_loop epoch headers (restamp n h s) = cbind (apply_loop epoch headers s) (fun s' => fine (restamp n h s')).
Proof.
  induction headers as [|x headers IH]; intros s; cbn [apply_loop]; [done|]. rewrite restamp_header.
  destruct (apply_header epoch s x) as [[s1|]| |]; cbn [cbind fine]; [apply IH|done..].
Qed.

(** Headers numbered one by one from [n + 1]. *)
Definition numbered (n : Z) (headers : list Header) : Prop :=
  forall i h, headers !! i = Some h -> header_number h = Ret (n + 1 + Z.of_nat i).

Lemma numbered_cons n h l : numbered n (h :: l) <-> header_number h = Ret (n + 1) /\ numbered (n + 1) l.
Proof.
  split.
  - intros Hn. split; [specialize (Hn 0%nat h eq_refl); by rewrite Hn, Z.add_0_r|].
    intros i x Hx. rewrite (Hn (S i) x Hx). f_equal. lia.
  - intros [Hh Hl] [|i] x; cbn; [intros [= <-]; by rewrite Hh, Z.add_0_r|]. intros Hx. rewrite (Hl i x Hx). f_equal. lia.
Qed.

Lemma numbered_app n l1 l2 : numbered n (l1 ++ l2) <-> numbered n l1 /\ numbered (n + Z.of_nat (length l1)) l2.
Proof.
  revert n. induction l1 as [|h l1 IH]; intros n; cbn [app length].
  - rewrite Z.add_0_r. split; [|tauto]. intros ?. split; [|done]. by intros i x.
  - rewrite !numbered_cons, IH. replace (n + 1 + Z.of_nat (length l1)) with (n + Z.of_nat (S (length l1))) by lia. tauto.
Qed.

Lemma numbered_consecutive l : forall n, 0 <= n -> n + Z.of_nat (length l) <= MaxUint64 -> numbered n l ->
  consecutive l = Ret true.
Proof.
  induction l as [|h [|h' l] IH]; intros n Hn Hmax; [done..|]. intros [Hh Hl]%numbered_cons.
  pose proof Hl as [Hh' _]%numbered_cons. cbn [length] in *.
  change (consecutive (h :: h' :: l)) with
    (a ← header_number h; b ← header_number h'; if negb (b =? u64 (a + 1)) then Ret false else consecutive (h' :: l)).
  rewrite Hh, Hh'. cbn [mbind outcome_bind]. rewrite u64_small by (unfold is_u64; lia). rewrite Z.eqb_refl. cbn [negb].
  apply (IH (n + 1)); [lia|lia|done].
Qed.

Lemma consecutive_numbered l : forall n h, 0 <= n -> n + Z.of_nat (length (h :: l)) <= MaxUint64 ->
  header_number h = Ret (n + 1) -> consecutive (h :: l) = Ret true -> numbered n (h :: l).
Proof.
  induction l as [|h' l IH]; intros n h Hn Hmax Hh Hc.
  - rewrite numbered_cons. split; [done|]. by intros i x.
  - apply consecutive_cons in Hc as (a & Ha & Hh' & Hc). rewrite Hh in Ha. injection Ha as <-. cbn [length] in *.
    rewrite u64_small in Hh' by (unfold is_u64; lia). rewrite numbered_cons. split; [done|]. apply IH; [lia|cbn [length]; lia|done|done].
Qed.

(** Well-numbered headers are applied one by one, then the snapshot is stamped
    with the last of them. *)
Definition stamp (s : Snapshot) (headers : list Header) (s' : Snapshot) : Snapshot :=
  match last headers with
  | Some h => restamp (s_Number s + Z.of_nat (length headers)) (Header_Hash h) s'
  | None => s'
  end.

Lemma apply_loop_number epoch headers : forall s s',
  apply_loop epoch headers s = Ret (inl s') -> s_Number s' = s_Number s.
Proof.
  induction headers as [|h headers IH]; intros s s'; cbn; [by intros [= <-]|].
  destruct (apply_header epoch s h) as [[s1|]| |] eqn:E; try done. cbn. intros E'.
  rewrite (IH _ _ E'). by eapply apply_header_number.
Qed.

Lemma apply_numbered epoch s headers :
  0 <= s_Number s -> s_Number s + Z.of_nat (length headers) <= MaxUint64 -> numbered (s_Number s) headers ->
  apply epoch s headers = cbind (apply_loop epoch headers s) (fun s' => fine (stamp s headers s')).
Proof.
  intros Hn Hmax Hnum. unfold apply. destruct headers as [|h rest]; [done|].
  rewrite (numbered_consecutive _ (s_Number s)) by done. pose proof Hnum as [Hh _]%numbered_cons. rewrite Hh.
  cbn [length] in Hmax. rewrite u64_small by (unfold is_u64; lia). rewrite Z.eqb_refl. cbn [negb].
  destruct (apply_loop epoch (h :: rest) s) as [[s'|]| |] eqn:E; cbn [cbind]; try done.
  unfold stamp. destruct (last (h :: rest)) eqn:El; [|by apply last_None in El].
  unfold restamp. rewrite (apply_loop_number _ _ _ _ E). rewrite u64_small; [done|]. unfold is_u64. cbn [length]. lia.
Qed.

Lemma apply_loop_app epoch l1 l2 : forall s,
  apply_loop epoch (l1 ++ l2) s = cbind (apply_loop epoch l1 s) (apply_loop epoch l2).
Proof.
  induction l1 as [|h l1 IH]; intros s; cbn; [done|]. destruct (apply_header epoch s h) as [[s1|]| |]; cbn; auto.
Qed.

Lemma apply_app epoch s l1 l2 :
  0 <= s_Number s -> s_Number s + Z.of_nat (length (l1 ++ l2)) <= MaxUint64 -> numbered (s_Number s) (l1 ++ l2) ->
  apply epoch s (l1 ++ l2) = cbind (apply epoch s l1) (fun s' => apply epoch s' l2).
Proof.
  intros Hn Hmax Hnum. rewrite length_app in Hmax. pose proof Hnum as [Hn1 Hn2]%numbered_app.
  rewrite (apply_numbered epoch s (l1 ++ l2)) by (rewrite ?length_app; lia || done). rewrite apply_loop_app.
  rewrite (apply_numbered epoch s l1) by (lia || done).
  destruct (apply_loop epoch l1 s) as [[s1|]| |] eqn:E; cbn [cbind fine]; try done.
  pose proof (apply_loop_number _ _ _ _ E) as En.
  destruct l1 as [|x l1']; [cbn in E; injection E as <-; cbn [app length stamp last] in *; by rewrite apply_numbered by (lia || done)|].
  set (l1 := x :: l1') in *. destruct (last l1) as [y|] eqn:El; [|by apply last_None in El].
  assert (Es : stamp s l1 s1 = restamp (s_Number s + Z.of_nat (length l1)) (Header_Hash y) s1) by (unfold stamp; by rewrite El).
  rewrite Es. rewrite apply_numbered; cbn [s_Number restamp]; [|lia|lia|done]. rewrite restamp_loop.
  destruct (apply_loop epoch l2 s1) as [[s2|]| |]; cbn [cbind fine]; try done. unfold fine. do 2 f_equal.
  unfold stamp. rewrite last_app. destruct (last l2) as [z|] eqn:El2; cbn.
  - rewrite length_app. unfold restamp. cbn. f_equal. lia.
  - apply last_None in El2 as ->. rewrite El, app_nil_r. done.
Qed.

Lemma ecrecover_fuel h : ecrecover h <> OutOfFuel.
Proof.
  unfold ecrecover, sigHash. destruct (_ <? extraSeal); [done|]. destruct (_ <? 65); [done|].
  by destruct (Ecrecover _ _) as [[|]|].
Qed.

Lemma apply_loop_fuel epoch headers : forall s, apply_loop epoch headers s <> OutOfFuel.
Proof.
  induction headers as [|h headers IH]; intros s; cbn [apply_loop]; [done|].
  assert (Hh : apply_header epoch s h <> OutOfFuel).
  { unfold apply_header. destruct (header_number h); try done. destruct (_ =? _); [done|].
    destruct (authorized h _) as [[signer|]| |] eqn:E; cbn [cbind]; try done.
    - unfold count_vote. by destruct (nonce_vote _).
    - intros _. revert E. unfold authorized. pose proof (ecrecover_fuel h).
      destruct (ecrecover h) as [[x|]| |]; cbn [cbind]; try done. by repeat destruct (bool_decide _). }
  destruct (apply_header epoch s h) as [[s1|]| |]; cbn [cbind]; auto.
Qed.

Lemma apply_fuel epoch s headers : apply epoch s headers <> OutOfFuel.
Proof.
  unfold apply. destruct headers as [|h rest]; [done|]. destruct (consecutive _) as [[|]| |]; try done;
    destruct (header_number h); try done. destruct (negb _); [done|]. pose proof (apply_loop_fuel epoch (h :: rest) s).
  by destruct (apply_loop _ _ _) as [[|]| |].
Qed.

End replay.

(** ** The laws of the libraries *)

(** A cache returns what was added last under a key, or nothing; a database
    returns what was put last; the JSON form of a snapshot can be read back;
    distinct hashes have distinct bytes and distinct headers distinct hashes. *)
Class EngineLaws `{CliqueLib, EngineLib} : Prop := {
  NewARC_empty : forall n h, fst (ARC_Get (NewARC n) h) = None;
  ARC_Get_keeps : forall c h h' s, fst (ARC_Get (snd (ARC_Get c h)) h') = Some s -> fst (ARC_Get c h') = Some s;
  ARC_Add_keeps : forall c h s h' s', fst (ARC_Get (ARC_Add c h s) h') = Some s' ->
    (h' = h /\ s' = s) \/ fst (ARC_Get c h') = Some s';
  db_Put_keeps : forall db k v k' v', db_Get (snd (db_Put db k v)) k' = Ok v' ->
    (k' = k /\ v' = v) \/ db_Get db k' = Ok v';
  Hash_list_inj : forall h h', Hash_list h = Hash_list h' -> h = h';
  json_read_back : forall s blob, json_Marshal s = Ok blob -> json_Unmarshal blob = Ok s;
  Header_Hash_inj : forall x y, Header_Hash x = Header_Hash y -> x = y
}.

Section equivalence.
Context `{CL : CliqueLib, EL : EngineLib, Laws : !EngineLaws}.
Context (now : Z) (chain : ChainReader) (config : CliqueConfig) (genesis : Header).
Context (signer : Z) (signFn : option SignerFn).

(** ** Chains of headers from the genesis block *)

(** Every header names the one before it as its parent. *)
Fixpoint linked (parent : Header) (headers : list Header) : Prop :=
  match headers with
  | [] => True
  | h :: rest => ParentHash h = Header_Hash parent /\ linked h rest
  end.

Definition tip (headers : list Header) : Header := default genesis (last headers).

Record chain_of (headers : list Header) : Prop := {
  chain_linked : linked genesis headers;
  chain_numbered : numbered 0 headers;
  chain_length : Z.of_nat (length headers) <= MaxUint64
}.

(** What the engine may hold for a hash: the snapshot of a chain from the
    genesis block with that hash at its tip. *)
Definition replayed (hash : Z) (s : Snapshot) : Prop :=
  exists l, chain_of l /\ Header_Hash (tip l) = hash /\ apply (Epoch config) (genesis_snapshot genesis) l = Ret (inl s).

Record engine_ok (c : Clique) : Prop := {
  ok_config : c_config c = config;
  ok_recents : forall h s, fst (ARC_Get (c_recents c) h) = Some s -> replayed h s;
  ok_db : forall h s, loadSnapshot (c_db c) h = Ok s -> replayed h s;
  ok_signer : c_signer c = signer;
  ok_signFn : c_signFn c = signFn
}.

Lemma tip_snoc l h : tip (l ++ [h]) = h.
Proof. unfold tip. by rewrite last_snoc. Qed.

Lemma linked_snoc l h : forall p, linked p (l ++ [h]) <-> linked p l /\ ParentHash h = Header_Hash (default p (last l)).
Proof.
  induction l as [|x l IH]; intros p; cbn [app linked]; [cbn; tauto|]. rewrite IH, last_cons.
  destruct (last l); cbn; tauto.
Qed.

Lemma chain_of_snoc l h : chain_of (l ++ [h]) <->
  chain_of l /\ ParentHash h = Header_Hash (tip l) /\ header_number h = Ret (Z.of_nat (length l) + 1) /\
  Z.of_nat (length l) + 1 <= MaxUint64.
Proof.
  split.
  - intros [Hl Hn Hlen]. apply linked_snoc in Hl as [Hl Hp]. apply numbered_app in Hn as [Hn [Hh _]%numbered_cons].
    rewrite length_app in Hlen. cbn in Hlen. split_and!; [split; [done|done|lia]|done|by rewrite Hh|lia].
  - intros ([Hl Hn Hlen] & Hp & Hh & Hmax). split.
    + by apply linked_snoc.
    + apply numbered_app. split; [done|]. apply numbered_cons. split; [by rewrite Hh|by intros i x].
    + rewrite length_app. cbn. lia.
Qed.

Context (genesis_number : Number genesis = Some 0).

Lemma tip_number l : chain_of l -> header_number (tip l) = Ret (Z.of_nat (length l)).
Proof.
  destruct l as [|x l _] using rev_ind.
  - intros _. unfold header_number. cbn. by rewrite genesis_number.
  - intros (_ & _ & Hh & _)%chain_of_snoc. rewrite tip_snoc, Hh, length_app. cbn. f_equal. lia.
Qed.

(** The tip determines the chain. *)
Lemma tip_inj l1 : forall l2, chain_of l1 -> chain_of l2 -> tip l1 = tip l2 -> l1 = l2.
Proof.
  induction l1 as [|x l1 IH] using rev_ind; intros l2 H1 H2 Et;
    pose proof (tip_number _ H1) as N1; rewrite Et, (tip_number _ H2) in N1; injection N1 as N1;
    rewrite ?length_app in N1; cbn in N1.
  - destruct l2; [done|cbn in N1; lia].
  - destruct l2 as [|y l2 _] using rev_ind; [cbn in N1; lia|]. rewrite !tip_snoc in Et. subst y.
    apply chain_of_snoc in H1 as (H1 & P1 & _). apply chain_of_snoc in H2 as (H2 & P2 & _).
    f_equal. apply IH; [done|done|]. apply Header_Hash_inj. congruence.
Qed.

Lemma replayed_chain l s : chain_of l -> replayed (Header_Hash (tip l)) s ->
  apply (Epoch config) (genesis_snapshot genesis) l = Ret (inl s).
Proof.
  intros Hl (l' & Hl' & Ht & E). apply Header_Hash_inj in Ht. by rewrite <- (tip_inj _ _ Hl' Hl Ht).
Qed.

Lemma replayed_tip l s : chain_of l -> apply (Epoch config) (genesis_snapshot genesis) l = Ret (inl s) ->
  s_Hash s = Header_Hash (tip l) /\ s_Number s = Z.of_nat (length l).
Proof.
  intros [_ Hn Hmax]. rewrite apply_numbered by (cbn; lia || done).
  destruct (apply_loop _ l _) as [[s'|]| |] eqn:E; cbn [cbind]; try done. intros <-%fine_inj. unfold stamp, tip.
  destruct (last l) as [h|] eqn:El; cbn; [done|]. apply last_None in El as ->. cbn in E. injection E as <-. done.
Qed.

(** ** The state of the engine *)
Lemma ok_get h c : engine_ok c -> engine_ok (with_cache (snd (ARC_Get (c_recents c) h)) c).
Proof. intros [Hcf Hre Hdb Hs Hf]. split; [done| |done..]. cbn. intros h' s Hs'. apply Hre. by eapply ARC_Get_keeps. Qed.

Lemma ok_add s c : engine_ok c -> replayed (s_Hash s) s -> engine_ok (with_cache (ARC_Add (c_recents c) (s_Hash s) s) c).
Proof.
  intros [Hcf Hre Hdb Hs Hf] Hr. split; [done| |done..]. cbn. intros h' s' Hk.
  destruct (ARC_Add_keeps _ _ _ _ _ Hk) as [[-> ->]|Hk']; auto.
Qed.

Lemma ok_store s c : engine_ok c -> replayed (s_Hash s) s -> engine_ok (with_db (snd (store s (c_db c))) c).
Proof.
  intros [Hcf Hre Hdb Hs Hf] Hr. split; [done|done| |done..]. cbn. intros h' s'. unfold store, loadSnapshot.
  destruct (json_Marshal s) as [blob|] eqn:Ej; cbn; [|apply Hdb].
  destruct (db_Get (snd (db_Put _ _ _)) _) as [blob'|] eqn:Eg; [|done].
  destruct (db_Put_keeps _ _ _ _ _ Eg) as [[Ek ->]|Eg'].
  - rewrite (json_read_back _ _ Ej). intros [= <-]. injection Ek as Ek.
    apply Hash_list_inj in Ek as ->. done.
  - intros Hk. apply Hdb. unfold loadSnapshot, snapshot_key. cbn. by rewrite Eg'.
Qed.

Lemma recents_Get_run h c : recents_Get h c =
  Ret (inl (fst (ARC_Get (c_recents c) h)), with_cache (snd (ARC_Get (c_recents c) h)) c).
Proof. done. Qed.

Context (store_succeeds : forall s db, fst (store s db) = Ok tt).

Lemma store_snapshot_run s c : engine_ok c -> replayed (s_Hash s) s ->
  exists c', store_snapshot s c = Ret (inl tt, c') /\ engine_ok c'.
Proof.
  intros Hc Hr. exists (with_db (snd (store s (c_db c))) c). split; [|by apply ok_store].
  unfold store_snapshot. rewrite (ebind_run _ _ c c c) by done. cbn zeta.
  rewrite (ebind_run _ _ c tt (with_db (snd (store s (c_db c))) c)) by done. by rewrite store_succeeds.
Qed.

Context (genesis_found : GetHeaderByNumber chain 0 = Some genesis).
Context (genesis_valid : verify_fields now config genesis 0 = fine tt).

Lemma genesis_verifies find c : engine_ok c -> verifyHeader_with now chain find genesis [] c = Ret (inl tt, c).
Proof.
  intros Hc. unfold verifyHeader_with. rewrite genesis_number.
  rewrite (ebind_run _ _ c (c_config c) c) by done. change (u64 (Z.abs 0)) with 0.
  rewrite (ok_config _ Hc). rewrite (ebind_run _ _ c tt c) by (unfold lift; by rewrite genesis_valid).
  unfold verifyCascadingFields_with, header_number. rewrite genesis_number. done.
Qed.

Lemma replayed_genesis : replayed (s_Hash (genesis_snapshot genesis)) (genesis_snapshot genesis).
Proof. exists []. split; [|done]. split; cbn; [done|by intros i x|done]. Qed.

(** Going back from the tip of a chain whose first part is stored, the engine
    finds the snapshot of some prefix, with the headers after it. *)
Definition stored_in_chain (stored : list Header) : Prop :=
  forall i h, stored !! i = Some h -> GetHeader chain (Header_Hash h) (Z.of_nat i + 1) = Some h.

Lemma gather_tip stored parents pre h : stored_in_chain stored -> chain_of (pre ++ [h]) ->
  stored ++ parents = pre ++ [h] -> exists stored' parents',
  gather chain (Z.of_nat (length (pre ++ [h]))) (Header_Hash h) parents = fine (h, parents') /\
  pre = stored' ++ parents' /\ stored_in_chain stored'.
Proof.
  intros Hst (Hc & Hp & Hh & Hmax)%chain_of_snoc E. unfold gather.
  assert (El : Z.of_nat (length (pre ++ [h])) = Z.of_nat (length pre) + 1) by (rewrite length_app; cbn; lia). rewrite El.
  destruct parents as [|x parents _] using rev_ind.
  - rewrite app_nil_r in E. subst stored. cbn [last]. exists pre, [].
    assert (Hg := Hst (length pre) h (list_lookup_middle pre [] h _ eq_refl)).
    rewrite Hg. split_and!; [done|by rewrite app_nil_r|].
    intros i y Hy. apply Hst. by apply lookup_app_l_Some.
  - rewrite app_assoc in E. apply app_inj_tail in E as [E ->]. rewrite last_snoc, Z.eqb_refl, Hh. cbn [negb].
    exists stored, parents. rewrite Z.eqb_refl. cbn [negb]. by rewrite removelast_last.
Qed.

Lemma load_checkpoint_run number h c : engine_ok c -> exists r,
  load_checkpoint number h c = Ret (inl r, c) /\ forall s, r = Some s -> replayed h s.
Proof.
  intros Hc. unfold load_checkpoint. destruct (_ =? 0); [|by exists None].
  eexists. split; [reflexivity|]. intros s. destruct (loadSnapshot (c_db c) h) as [s'|] eqn:E; [|done].
  intros [= <-]. by apply (ok_db _ Hc).
Qed.

Lemma find_snapshot_spec fuel : forall stored parents pre post c,
  stored_in_chain stored -> pre = stored ++ parents -> chain_of pre -> (length pre < fuel)%nat -> engine_ok c ->
  exists c' s pre' post',
    find_snapshot now chain fuel (Z.of_nat (length pre)) (Header_Hash (tip pre)) parents (rev post) c =
      Ret (inl (s, rev post'), c') /\
    pre ++ post = pre' ++ post' /\ chain_of pre' /\
    apply (Epoch config) (genesis_snapshot genesis) pre' = Ret (inl s) /\ engine_ok c'.
Proof.
  induction fuel as [|fuel IH]; intros stored parents pre post c Hst Epre Hpre Hf Hc; [lia|]. cbn [find_snapshot].
  rewrite (ebind_run _ _ _ _ _ (recents_Get_run _ _)).
  pose proof (ok_get (Header_Hash (tip pre)) c Hc) as Hc1.
  destruct (fst (ARC_Get _ _)) as [s|] eqn:Eg.
  { eexists _, s, pre, post. split_and!; [reflexivity|done|done| |done].
    apply replayed_chain; [done|]. by apply (ok_recents _ Hc). }
  set (c1 := with_cache _ c) in *. clearbody c1. clear c Hc Eg.
  destruct (load_checkpoint_run (Z.of_nat (length pre)) (Header_Hash (tip pre)) c1 Hc1) as (r & Er & Hr).
  rewrite (ebind_run _ _ _ _ _ Er). destruct r as [s|].
  { eexists _, s, pre, post. split_and!; [reflexivity|done|done| |done]. apply replayed_chain; auto. }
  clear Er Hr. destruct pre as [|h pre _] using rev_ind.
  - rewrite genesis_found. change (Z.of_nat (length []) =? 0) with true. cbn iota.
    rewrite (ebind_run _ _ _ _ _ (genesis_verifies _ _ Hc1)).
    destruct (store_snapshot_run _ _ Hc1 replayed_genesis) as (c2 & Es & Hc2). rewrite (ebind_run _ _ _ _ _ Es).
    eexists c2, _, [], post. done.
  - destruct (gather_tip _ _ _ _ Hst Hpre (eq_sym Epre)) as (stored' & parents' & Eg & Epre' & Hst').
    apply chain_of_snoc in Hpre as (Hpre & Hp & _ & Hmax). rewrite tip_snoc.
    destruct (Z.eqb_spec (Z.of_nat (length (pre ++ [h]))) 0) as [E0|_]; [rewrite length_app in E0; cbn in E0; lia|].
    rewrite (ebind_run _ _ c1 (h, parents') c1) by (unfold lift; rewrite Eg; done). cbn [fst snd].
    rewrite length_app in Hf |- *. cbn [length] in Hf |- *.
    replace (u64 (Z.of_nat (length pre + 1) - 1)) with (Z.of_nat (length pre)) by (rewrite u64_small; unfold is_u64; lia).
    rewrite Hp. destruct (IH stored' parents' pre (h :: post) c1 Hst' Epre' Hpre) as (c' & s & pre' & post' & E & Eapp & Hrest);
      [lia|done|]. exists c', s, pre', post'. cbn [rev] in E. rewrite E. split; [done|]. by rewrite <- app_assoc.
Qed.

Lemma replayed_ok l s : chain_of l -> apply (Epoch config) (genesis_snapshot genesis) l = Ret (inl s) -> replayed (s_Hash s) s.
Proof. intros Hl E. destruct (replayed_tip _ _ Hl E) as [Eh _]. exists l. by rewrite Eh. Qed.

(** The snapshot found, with the headers after it applied, cached and stored. *)
Lemma apply_gathered_spec pre post s c : chain_of (pre ++ post) -> chain_of pre -> engine_ok c ->
  apply (Epoch config) (genesis_snapshot genesis) pre = Ret (inl s) ->
  match apply (Epoch config) (genesis_snapshot genesis) (pre ++ post) with
  | Ret r => exists c', apply_gathered (s, rev post) c = Ret (r, c') /\ engine_ok c'
  | Panic => apply_gathered (s, rev post) c = Panic
  | OutOfFuel => False
  end.
Proof.
  intros Hl Hpre Hc E.
  assert (Ea : apply (Epoch config) (genesis_snapshot genesis) (pre ++ post) = apply (Epoch config) s post).
  { destruct Hl as [_ Hn Hmax]. rewrite apply_app by (cbn; lia || done). by rewrite E. }
  pose proof (apply_fuel (Epoch config) s post) as Hfuel. pose proof (replayed_ok (pre ++ post)) as Hr.
  rewrite Ea in *. unfold apply_gathered. cbn [fst snd]. rewrite rev_involutive.
  rewrite (ebind_run _ _ c c c) by done. cbn zeta. rewrite (ok_config _ Hc).
  destruct (apply (Epoch config) s post) as [[snap|e]| |]; [| |done|done].
  - specialize (Hr snap Hl eq_refl). rewrite (ebind_run _ _ c snap c) by done.
    rewrite (ebind_run _ _ c tt (with_cache (ARC_Add (c_recents c) (s_Hash snap) snap) c)) by done.
    pose proof (ok_add snap c Hc Hr) as Hc1. destruct (_ && _); [|eexists; by split].
    destruct (store_snapshot_run _ _ Hc1 Hr) as (c2 & Es & Hc2). rewrite (ebind_run _ _ _ _ _ Es). by exists c2.
  - by exists c.
Qed.

Lemma snapshot_spec fuel stored parents c :
  stored_in_chain stored -> chain_of (stored ++ parents) -> (length (stored ++ parents) < fuel)%nat -> engine_ok c ->
  let headers := stored ++ parents in
  let run := snapshot now chain fuel (Z.of_nat (length headers)) (Header_Hash (tip headers)) parents c in
  match apply (Epoch config) (genesis_snapshot genesis) headers with
  | Ret r => exists c', run = Ret (r, c') /\ engine_ok c'
  | Panic => run = Panic
  | OutOfFuel => False
  end.
Proof.
  intros Hst Hl Hf Hc. cbn zeta. unfold snapshot.
  destruct (find_snapshot_spec fuel stored parents _ [] c Hst eq_refl Hl Hf Hc) as (c1 & s & pre & post & E & Eapp & Hpre & Ep & Hc1).
  cbn [rev] in E. rewrite (ebind_run _ _ _ _ _ E). rewrite app_nil_r in Eapp. rewrite Eapp in *. by apply apply_gathered_spec.
Qed.

(** C26. The snapshot of a block does not depend on what the engine has cached or
    stored: for the tip of any chain of headers from the genesis block, some of
    them stored and the rest given as parents, and with enough fuel to go back to
    block zero, the snapshot the engine returns, or its error, is what the whole
    chain gives when its headers are applied one by one to the genesis snapshot,
    and what the engine then holds is again only such snapshots, its signer
    being the same. *)
Theorem snapshot_replays fuel stored parents c :
  stored_in_chain stored -> chain_of (stored ++ parents) -> (length (stored ++ parents) < fuel)%nat -> engine_ok c ->
  let headers := stored ++ parents in
  let run := snapshot now chain fuel (Z.of_nat (length headers)) (Header_Hash (tip headers)) parents c in
  match apply (Epoch config) (genesis_snapshot genesis) headers with
  | Ret r => exists c', run = Ret (r, c') /\ engine_ok c'
  | Panic => run = Panic
  | OutOfFuel => False
  end.
Proof. apply snapshot_spec. Qed.

(** ** Sealing *)

(** What a correct key does: its signatures, of the length of a seal, recover to
    its account. *)
Definition signs_for (account : Z) (sign : SignerFn) : Prop :=
  forall h sig, sign account h = Ok sig -> length sig = Z.to_nat extraSeal /\
    exists k key, Ecrecover h sig = Ok (k :: key) /\ Address_of (drop 12 (Keccak256 key)) = account.

Lemma seal_extra_spec extra sig : (65 <= length extra)%nat -> length sig = 65%nat ->
  seal_extra extra sig = take (length extra - 65) extra ++ sig.
Proof.
  intros Hl Hs. unfold seal_extra, copy_bytes. change (Z.to_nat extraSeal) with 65%nat. f_equal.
  assert (Hd : length (drop (length extra - 65) extra) = 65%nat) by (rewrite length_drop; lia).
  rewrite Hd, take_ge, drop_ge, app_nil_r by lia. done.
Qed.

Lemma ecrecover_sealed header sign sig h : (65 <= length (Extra header))%nat -> signs_for signer sign ->
  sigHash header = Ret h -> sign signer h = Ok sig ->
  ecrecover (with_extra (seal_extra (Extra header) sig) header) = fine signer.
Proof.
  intros Hl Hs Hh Hsig. destruct (Hs h sig Hsig) as (Hlen & k & key & Er & Ea).
  change (Z.to_nat extraSeal) with 65%nat in Hlen. rewrite seal_extra_spec by done.
  assert (Hl' : length (take (length (Extra header) - 65) (Extra header) ++ sig) = length (Extra header)).
  { rewrite length_app, length_take. lia. }
  unfold ecrecover. cbn [Extra with_extra]. rewrite Hl'. unfold extraSeal at 1.
  destruct (Z.ltb_spec (Z.of_nat (length (Extra header))) 65) as [?|_]; [lia|].
  change (Z.to_nat extraSeal) with 65%nat. rewrite drop_app_length' by (rewrite length_take; lia).
  assert (Eh : sigHash (with_extra (take (length (Extra header) - 65) (Extra header) ++ sig) header) = Ret h).
  { rewrite <- Hh. unfold sigHash. cbn [Extra with_extra]. rewrite Hl'. destruct (_ <? 65); [done|].
    rewrite take_app_length' by (rewrite length_take; lia). done. }
  by rewrite Eh, Er, Ea.
Qed.

(** What [Prepare] leaves in a header. *)
Record prepared_for (snap : Snapshot) (number : Z) (header p : Header) : Prop := {
  prep_parent : ParentHash p = ParentHash header;
  prep_number : Number p = Number header;
  prep_vote : exists b, nonce_vote (Nonce p) = Some b;
  prep_turn : exists turn, inturn snap number signer = Ret turn /\ Difficulty p = Some (if turn then diffInTurn else diffNoTurn);
  prep_extra : (65 <= length (Extra p))%nat
}.

Lemma pick_vote_shape intn `{MapOrder Z bool} proposals snap header h1 :
  nonce_vote (Nonce header) = Some false -> pick_vote intn proposals snap header = Ret h1 ->
  ParentHash h1 = ParentHash header /\ Number h1 = Number header /\ exists b, nonce_vote (Nonce h1) = Some b.
Proof.
  intros Hv. unfold pick_vote. destruct (_ =? 0)%nat; [intros [= <-]; by eauto|].
  destruct (_ !! _) as [a|]; [|done]. intros [= <-]. cbn. split_and!; [done..|].
  destruct (default false (proposals !! a)); [by exists true|by exists false].
Qed.

Lemma prepare_extra_length snap b extra : (65 <= length (prepare_extra snap b extra))%nat.
Proof. unfold prepare_extra. rewrite !length_app, length_replicate. change (Z.to_nat extraSeal) with 65%nat. lia. Qed.

(** The chain the sealed block goes on top of, and its snapshot. *)
Context (fuel : nat) (headers : list Header) (snap : Snapshot).
Context (headers_stored : stored_in_chain headers) (headers_chain : chain_of headers).
Context (enough_fuel : (length headers < fuel)%nat).
Context (headers_snap : apply (Epoch config) (genesis_snapshot genesis) headers = Ret (inl snap)).
Context (below_max : Z.of_nat (length headers) + 1 <= MaxUint64).
Local Abbreviation number := (Z.of_nat (length headers) + 1).

Lemma snapshot_run c : engine_ok c -> exists c',
  snapshot now chain fuel (u64 (number - 1)) (Header_Hash (tip headers)) [] c = Ret (inl snap, c') /\ engine_ok c'.
Proof.
  intros Hc. pose proof (snapshot_spec fuel headers [] c) as Hs. rewrite app_nil_r in Hs. cbn zeta in Hs.
  rewrite headers_snap in Hs. replace (u64 (number - 1)) with (Z.of_nat (length headers)) by (rewrite u64_small; unfold is_u64; lia).
  by apply Hs.
Qed.

Lemma Prepare_spec intn `{MapOrder Z bool} header p c c' :
  engine_ok c -> ParentHash header = Header_Hash (tip headers) -> header_number header = Ret number ->
  Prepare now chain fuel intn header c = Ret (inl p, c') ->
  engine_ok c' /\ prepared_for snap number header p /\ Epoch config <> 0.
Proof.
  intros Hc Hp Hn E. unfold Prepare in E. apply ebind_inv in E as (n & c0 & [En ->]%deref_inv & E).
  change (header_number (with_vote 0 (replicate 8 0) header)) with (header_number header) in En.
  rewrite Hn in En. injection En as <-. apply ebind_inv in E as (snap' & c1 & Es & E).
  change (ParentHash (with_vote 0 (replicate 8 0) header)) with (ParentHash header) in Es. rewrite Hp in Es.
  destruct (snapshot_run c Hc) as (c1' & Es' & Hc1). rewrite Es' in Es. injection Es as <- <-.
  rewrite (ebind_run _ _ c1' c1' c1') in E by done. rewrite (ok_config _ Hc1) in E.
  destruct (Z.eqb_spec (Epoch config) 0) as [|He]; [done|]. cbn zeta in E.
  apply ebind_inv in E as (h1 & c2 & [Eh1 ->]%deref_inv & E). apply ebind_inv in E as (turn & c2 & [Et ->]%deref_inv & E).
  rewrite (ok_signer _ Hc1) in Et.
  assert (Hh1 : ParentHash h1 = ParentHash header /\ Number h1 = Number header /\ exists b, nonce_vote (Nonce h1) = Some b).
  { destruct (is_checkpoint _ _); [injection Eh1 as <-; cbn; by eauto|].
    by apply (pick_vote_shape _ _ _ (with_vote 0 (replicate 8 0) header)) in Eh1. }
  destruct Hh1 as (Hp1 & Hn1 & Hv1). destruct (GetHeader _ _ _) as [parent|]; [|done].
  destruct (Time parent) as [pt|]; [|done]. apply ebind_inv in E as (t64 & c2 & [_ ->]%deref_inv & E).
  injection E as <- <-. split; [done|]. split; [|done].
  split; [done|done|done|by exists turn|apply prepare_extra_length].
Qed.

Lemma signer_limit_pos s : 0 < signer_limit s.
Proof. unfold signer_limit. pose proof (Z.div_pos (Z.of_nat (size (Signers s))) 2). lia. Qed.

(** The signer of [snap] that does not have to wait may sign the next block. *)
Lemma must_wait_false s : window 0 (number - 1) s -> must_wait s number signer = false ->
  signed_recently s number signer = false /\ forall k, Recents (shift_recents number s) !! k <> Some signer.
Proof.
  intros Hw Hm. unfold must_wait, signed_recently in *.
  assert (Hno : forall k, Recents s !! k = Some signer -> signer_limit s <= number /\ k <= number - signer_limit s).
  { intros k Hk. assert (Hin : (k, signer) ∈ map_to_list (Recents s)) by (by apply elem_of_map_to_list).
    destruct (Z.ltb_spec number (signer_limit s)) as [Hlt|Hge].
    { exfalso. apply not_true_iff_false in Hm. apply Hm. apply existsb_exists. exists (k, signer).
      split; [by apply list_elem_of_In|]. cbn. by rewrite Z.eqb_refl. }
    split; [done|]. apply Z.nlt_ge. intros Hgt. apply not_true_iff_false in Hm. apply Hm. apply existsb_exists.
    exists (k, signer). split; [by apply list_elem_of_In|]. cbn. rewrite Z.eqb_refl. cbn. rewrite Z.gtb_ltb. apply Z.ltb_lt.
    pose proof (signer_limit_pos s).
    rewrite u64_small; unfold is_u64; lia. }
  split.
  - apply not_true_iff_false. intros ((k & a) & Hin & E)%existsb_exists. cbn in E.
    apply andb_true_iff in E as [->%Z.eqb_eq E]. apply list_elem_of_In, elem_of_map_to_list in Hin.
    destruct (Hno k Hin) as [Hl Hk].
    pose proof (signer_limit_pos s).
    rewrite Z.gtb_ltb, Z.ltb_lt, u64_small in E; unfold is_u64; lia.
  - intros k Hk. unfold shift_recents in Hk. rewrite Z.geb_leb in Hk.
    destruct (Z.leb_spec (signer_limit s) number) as [Hle|Hlt].
    + cbn in Hk. apply lookup_delete_Some in Hk as [Hne Hk]. destruct (Hno k Hk) as [_ Hk2]. specialize (Hw k _ Hk). lia.
    + destruct (Hno k Hk). lia.
Qed.

Lemma snap_reachable : reachable (Epoch config) snap /\ s_Number snap = number - 1.
Proof.
  destruct (replayed_tip _ _ headers_chain headers_snap) as [_ En]. split; [|lia].
  eapply reachable_apply; [apply reachable_genesis| |exact headers_snap]. cbn. lia.
Qed.

Lemma Seal_spec p c c' sealed :
  engine_ok c -> ParentHash p = Header_Hash (tip headers) -> header_number p = Ret number ->
  Seal now chain fuel false p c = Ret (inl (Some sealed), c') ->
  engine_ok c' /\ signer ∈ Signers snap /\ must_wait snap number signer = false /\
  exists sign h sig, signFn = Some sign /\ sigHash p = Ret h /\ sign signer h = Ok sig /\
    sealed = with_extra (seal_extra (Extra p) sig) p.
Proof.
  intros Hc Hp Hn E. unfold Seal in E. apply ebind_inv in E as (n & c0 & [En ->]%deref_inv & E).
  rewrite Hn in En. injection En as <-. destruct (Z.eqb_spec number 0) as [|_]; [lia|].
  rewrite (ebind_run _ _ c c c) in E by done. rewrite (ok_signer _ Hc), (ok_signFn _ Hc), Hp in E. cbn zeta in E.
  destruct (snapshot_run c Hc) as (c1 & Es & Hc1). rewrite (ebind_run _ _ _ _ _ Es) in E.
  destruct (bool_decide_reflect (signer ∈ Signers snap)) as [Hin|]; [|done]. cbn [negb] in E.
  destruct (must_wait snap number signer) eqn:Hm; [done|].
  destruct (Time p), (Difficulty p); try done. apply ebind_inv in E as (h & c2 & [Eh ->]%deref_inv & E).
  destruct signFn as [sign|] eqn:Ef; [|done]. destruct (sign signer h) as [sig|] eqn:Esig; [|done].
  injection E as <- <-. split_and!; try done. by exists sign, h, sig.
Qed.

(** The headers sealed by the engine pass [authorized]. *)
Lemma sealed_applies sealed : Epoch config <> 0 -> header_number sealed = Ret number ->
  ecrecover sealed = fine signer -> signer ∈ Signers snap -> must_wait snap number signer = false ->
  (exists b, nonce_vote (Nonce sealed) = Some b) -> exists s', apply_header (Epoch config) snap sealed = Ret (inl s').
Proof.
  intros He Hn Hec Hin Hm [b Hb]. destruct snap_reachable as [Hr En].
  destruct (reachable_inv _ _ Hr) as (_ & Hw & _). rewrite En in Hw.
  unfold apply_header. rewrite Hn. rewrite (proj2 (Z.eqb_neq _ _) He).
  set (s0 := if number mod Epoch config =? 0 then with_tally ∅ (with_votes [] snap) else snap).
  assert (E0 : Signers s0 = Signers snap /\ Recents s0 = Recents snap) by (unfold s0; by destruct (_ =? 0)).
  destruct E0 as [Es0 Er0].
  assert (Er : Recents (shift_recents number s0) = Recents (shift_recents number snap)).
  { unfold shift_recents, signer_limit. rewrite Es0. destruct (_ >=? _); cbn; by rewrite Er0. }
  assert (Es : Signers (shift_recents number s0) = Signers snap) by (unfold shift_recents; by destruct (_ >=? _)).
  assert (Ha : authorized sealed (shift_recents number s0) = fine signer).
  { unfold authorized. rewrite Hec. cbn [fine cbind]. rewrite bool_decide_eq_true_2 by (by rewrite Es). cbn [negb].
    rewrite bool_decide_eq_false_2; [done|]. intros ((k & a) & Ek & Hk%elem_of_map_to_list)%list_elem_of_fmap.
    cbn in Ek. subst a. rewrite Er in Hk. by apply (must_wait_false snap) in Hk. }
  rewrite Ha. cbn [fine cbind]. unfold count_vote. rewrite Hb. by eexists.
Qed.

(** C11. What the engine prepares and seals on top of a chain it verifies, and the
    next snapshot accepts: the block has a seal that recovers to the engine's own
    account, the difficulty of its turn and a vote that counts, so neither the
    verification of its seal nor its application to the snapshot fails. *)
Theorem sealed_blocks_verify intn `{MapOrder Z bool} header p sealed c c1 c2 sign :
  engine_ok c -> ParentHash header = Header_Hash (tip headers) -> header_number header = Ret number ->
  signFn = Some sign -> signs_for signer sign ->
  Prepare now chain fuel intn header c = Ret (inl p, c1) ->
  Seal now chain fuel false p c1 = Ret (inl (Some sealed), c2) ->
  (exists c3, VerifySeal now chain fuel sealed c2 = Ret (inl tt, c3)) /\
  exists s', apply_header (Epoch config) snap sealed = Ret (inl s').
Proof.
  intros Hc Hp Hn Hsf Hsign E1 E2. destruct (Prepare_spec _ _ _ _ _ Hc Hp Hn E1) as (Hc1 & [Hpp Hpn Hv Ht He] & Hep).
  assert (Hnp : header_number p = Ret number) by (unfold header_number in *; by rewrite Hpn).
  rewrite Hp in Hpp. destruct (Seal_spec p c1 c2 sealed Hc1 Hpp Hnp E2) as (Hc2 & Hin & Hm & sign' & h & sig & Hs & Hh & Hsig & ->).
  rewrite Hsf in Hs. injection Hs as <-. pose proof (ecrecover_sealed p sign sig h He Hsign Hh Hsig) as Hec.
  set (sealed := with_extra _ p) in *. assert (Hns : header_number sealed = Ret number) by done.
  split; [|by apply sealed_applies]. unfold VerifySeal, verifySeal, verifySeal_with.
  rewrite (ebind_run _ _ c2 number c2) by (by rewrite Hns). rewrite (proj2 (Z.eqb_neq _ _)) by lia.
  change (ParentHash sealed) with (ParentHash p). rewrite Hpp.
  destruct (snapshot_run c2 Hc2) as (c3 & Es & _). rewrite (ebind_run _ _ _ _ _ Es).
  rewrite (ebind_run _ _ c3 signer c3) by (unfold lift; by rewrite Hec).
  rewrite bool_decide_eq_true_2 by done. cbn [negb].
  destruct snap_reachable as [Hr En]. destruct (reachable_inv _ _ Hr) as (_ & Hw & _). rewrite En in Hw.
  destruct (must_wait_false snap Hw Hm) as [-> _]. destruct Ht as (turn & Et & Ed).
  rewrite (ebind_run _ _ c3 turn c3) by (by rewrite Et). change (Difficulty sealed) with (Difficulty p). rewrite Ed.
  exists c3. by destruct turn.
Qed.

End equivalence.

(** ** The window in the first blocks *)
Section early.
Context `{CliqueLib, EngineLib}.

(** In the first blocks, before as many as half of the signers have signed,
    the verification of a seal does not see recent signers: its bound wraps
    around, so it accepts a block whose signer has just signed, and the snapshot
    then refuses that block, with every block after it. *)
Theorem early_seal_gap epoch s k signer turn header find parents c c' :
  epoch <> 0 -> reachable epoch s -> Recents s !! k = Some signer -> signer ∈ Signers s ->
  s_Number s + 1 < signer_limit s <= MaxUint64 ->
  ecrecover header = fine signer -> header_number header = Ret (s_Number s + 1) ->
  inturn s (s_Number s + 1) signer = Ret turn ->
  Difficulty header = Some (if turn then diffInTurn else diffNoTurn) ->
  find (s_Number s) (ParentHash header) parents c = Ret (inl s, c') ->
  verifySeal_with find header parents c = Ret (inl tt, c') /\
  apply_header epoch s header = Ret (inr errUnauthorized).
Proof.
  intros He Hr Hk Hin [Hlo Hhi] Hec Hn Ht Hd Hf. destruct (reachable_inv _ _ Hr) as (_ & Hw & Hge). split.
  - unfold verifySeal_with. rewrite (ebind_run _ _ c (s_Number s + 1) c) by (by rewrite Hn).
    rewrite (proj2 (Z.eqb_neq _ _)) by lia.
    replace (u64 (s_Number s + 1 - 1)) with (s_Number s) by (rewrite u64_small; unfold is_u64; lia).
    rewrite (ebind_run _ _ _ _ _ Hf). rewrite (ebind_run _ _ c' signer c') by (unfold lift; by rewrite Hec).
    rewrite bool_decide_eq_true_2 by done. cbn [negb].
    replace (signed_recently s (s_Number s + 1) signer) with false.
    + rewrite (ebind_run _ _ c' turn c') by (by rewrite Ht). rewrite Hd. by destruct turn.
    + symmetry. apply not_true_iff_false. unfold signed_recently. intros ((j & a) & Hj & E)%existsb_exists.
      apply list_elem_of_In, elem_of_map_to_list, Hw in Hj. cbn in E.
      apply andb_true_iff in E as [_ E]. rewrite Z.gtb_ltb, Z.ltb_lt in E.
      assert (u64 (s_Number s + 1 - signer_limit s) = s_Number s + 1 - signer_limit s + 18446744073709551616).
      { unfold u64. rewrite <- (Z.mod_small (_ + 18446744073709551616) 18446744073709551616) by (unfold MaxUint64 in *; lia).
        rewrite <- (Z.mod_add (s_Number s + 1 - signer_limit s) 1) by lia. f_equal. }
      unfold MaxUint64 in *. lia.
  - unfold apply_header. rewrite Hn, (proj2 (Z.eqb_neq _ _) He).
    set (s0 := if _ =? 0 then with_tally ∅ (with_votes [] s) else s).
    assert (E0 : Signers s0 = Signers s /\ Recents s0 = Recents s) by (unfold s0; by destruct (_ =? 0)).
    destruct E0 as [Es0 Er0]. unfold shift_recents, signer_limit. rewrite Es0. fold (signer_limit s).
    rewrite Z.geb_leb. destruct (Z.leb_spec (signer_limit s) (s_Number s + 1)) as [|_]; [lia|].
    unfold authorized. rewrite Hec. cbn [fine cbind]. rewrite Es0, Er0, bool_decide_eq_true_2 by done. cbn [negb].
    rewrite bool_decide_eq_true_2; [done|]. apply list_elem_of_fmap. exists (k, signer). split; [done|].
    by apply elem_of_map_to_list.
Qed.

End early.
