(* ===== verification/StateTransition.v ===== *)
(** * Applying messages and transactions (core/state_transition.go, gaspool.go,
      state_processor.go, block_validator.go)

    A message buys its gas from the sender and from the gas pool of the block,
    runs, and settles what is left.  A block applies its transactions one by one
    from a pool of its gas limit.  The state database and the virtual machine are
    MoacLib's. *)
From S2P Require Import Prelude GoMonad.
Local Open Scope Z_scope.

Abbreviation Address := Z (only parsing).
Abbreviation Hash := Z (only parsing).

Inductive TxError :=
| vm_ErrOutOfGas
| errInsufficientBalanceForGas
| ErrGasLimitReached
| ErrNonceTooHigh
| ErrNonceTooLow
| vm_ErrInsufficientBalance
| errInvalidSender.

(** How a run of the virtual machine ends. *)
Inductive VmResult :=
| VmOk
| VmInsufficientBalance
| VmFailed.

(** [Message] *)
Record Message := mkMessage {
  From : Address;
  To : option Address;
  WaitBlockNumber : Z;
  ShardFlag : Z;
  GasPrice : Z;
  m_GasLimit : Z;
  Value : Z;
  m_Nonce : Z;
  CheckNonce : bool;
  Data : list Z;
  GetSystem : Z
}.

(** What the transition uses of MoacLib: the state database, the virtual machine
    and the gas prices of its parameters.  A run of the machine gets the gas it
    may use and returns what is left. *)
Class EvmLib := {
  StateDB : Type;
  Exist : StateDB -> Address -> bool;
  CreateAccount : StateDB -> Address -> StateDB;
  GetBalance : StateDB -> Address -> Z;
  SubBalance : StateDB -> Address -> Z -> StateDB;
  AddBalance : StateDB -> Address -> Z -> StateDB;
  GetNonce : StateDB -> Address -> Z;
  SetNonce : StateDB -> Address -> Z -> StateDB;
  GetRefund : StateDB -> Z;
  evm_Create : StateDB -> Address -> list Z -> Z -> Z -> Z -> Z * VmResult * StateDB;
  evm_CreateSystemContract : StateDB -> Address -> list Z -> VmResult * StateDB;
  evm_Call : StateDB -> Address -> Address -> list Z -> Z -> Z -> bool -> Z -> Z * VmResult * StateDB;
  TxGas : Z;
  TxGasContractCreation : Z;
  TxDataNonZeroGas : Z;
  TxDataZeroGas : Z
}.

(** The environment of a run: the account the fees go to, the rules of the block,
    and whether there is a network relay to notify. *)
Record EVM := mkEVM {
  evm_Coinbase : Address;
  evm_IsPangu : bool;
  evm_Nr : bool
}.

(** ** The white list contract (core/contracts/contracts.go) *)
Definition whiteListContractCallAddr : Address := 0x406f4c2d1ca8be4709b6a3cc66066cf176aa01ca.
Definition registerHash : list Z := [0xe1; 0xfa; 0x8e; 0x84].
Definition registerFuncHash : list Z := [0xdc; 0xcb; 0xd0; 0x14].
Definition removeHash : list Z := [0x95; 0xbc; 0x26; 0x73].
Definition removeFuncHash : list Z := [0x21; 0xb0; 0x4c; 0x93].

Definition IsWhiteListCall (addr : Address) (data : list Z) : bool :=
  (addr =? whiteListContractCallAddr) &&
  (bool_decide (data = registerFuncHash) || bool_decide (data = removeFuncHash) ||
   bool_decide (data = registerHash) || bool_decide (data = removeHash)).

Section transition.
Context `{EvmLib}.

(** ** The gas pool of a block (gaspool.go) *)
Definition AddGas (gp amount : Z) : Z := gp + amount.

Definition SubGas (gp amount : Z) : Z + TxError :=
  if gp <? amount then inr ErrGasLimitReached else inl (gp - amount).

(** ** One message *)
Definition IntrinsicGas (data : list Z) (contractCreation pangu : bool) : Z :=
  let igas := if contractCreation && pangu then TxGasContractCreation else TxGas in
  let nz := Z.of_nat (length (filter (fun b => b <> 0) data)) in
  igas + nz * TxDataNonZeroGas + (Z.of_nat (length data) - nz) * TxDataZeroGas.

(** The state of a transition: the pool and the database it shares with the
    block, its own gas, and the updates of the white list it notified. *)
Record StateTransition := mkTransition {
  gp : Z;
  state : StateDB;
  gasRemaining : Z;
  initialGas : Z;
  notified : list Z
}.

Definition NewStateTransition (pool : Z) (db : StateDB) (nr : list Z) : StateTransition :=
  mkTransition pool db 0 0 nr.

Definition with_state (f : StateDB -> StateDB) (st : StateTransition) : StateTransition :=
  mkTransition (gp st) (f (state st)) (gasRemaining st) (initialGas st) (notified st).

Definition with_pool (g : Z) (st : StateTransition) : StateTransition :=
  mkTransition g (state st) (gasRemaining st) (initialGas st) (notified st).

Definition with_remaining (g : Z) (st : StateTransition) : StateTransition :=
  mkTransition (gp st) (state st) g (initialGas st) (notified st).

Definition with_initial (g : Z) (st : StateTransition) : StateTransition :=
  mkTransition (gp st) (state st) (gasRemaining st) g (notified st).

Definition with_notice (n : Z) (st : StateTransition) : StateTransition :=
  mkTransition (gp st) (state st) (gasRemaining st) (initialGas st) (notified st ++ [n]).

Definition transition (A : Type) : Type := throws StateTransition TxError A.

(** The account of a message, created when it does not exist. *)
Definition ensure (a : Address) (db : StateDB) : StateDB := if Exist db a then db else CreateAccount db a.

Definition from (msg : Message) : transition Address :=
  _ <-! update (with_state (ensure (From msg)));; returns (From msg).

Definition to (msg : Message) : transition Address :=
  match To msg with
  | None => returns 0
  | Some a => _ <-! update (with_state (ensure a));; returns a
  end.

Definition useGas (amount : Z) : transition unit :=
  st <-! the_state;;
  if gasRemaining st <? amount then errs vm_ErrOutOfGas
  else update (with_remaining (u64 (gasRemaining st - amount))).

(** [BitLen() > 64] *)
Definition exceeds_64_bits (z : Z) : bool := 18446744073709551616 <=? Z.abs z.

Definition buyGas (msg : Message) : transition unit :=
  let mgas := m_GasLimit msg in
  if exceeds_64_bits mgas then errs vm_ErrOutOfGas
  else
    let mgval := mgas * GasPrice msg in
    sender <-! from msg;;
    st <-! the_state;;
    if GetBalance (state st) sender <? mgval then errs errInsufficientBalanceForGas
    else
      match SubGas (gp st) mgas with
      | inr e => errs e
      | inl pool =>
          _ <-! update (with_pool pool);;
          _ <-! update (with_remaining (u64 (gasRemaining st + u64 (Z.abs mgas))));;
          _ <-! update (with_initial mgas);;
          update (with_state (fun db => SubBalance db sender mgval))
      end.

Definition preCheck (msg : Message) : transition unit :=
  sender <-! from msg;;
  st <-! the_state;;
  let nonce := GetNonce (state st) sender in
  if CheckNonce msg && (nonce <? m_Nonce msg) then errs ErrNonceTooHigh
  else if CheckNonce msg && (nonce >? m_Nonce msg) then errs ErrNonceTooLow
  else buyGas msg.

Definition gasUsed (st : StateTransition) : Z :=
  if initialGas st >? gasRemaining st then initialGas st - gasRemaining st else 0.

Definition refundGas (msg : Message) : transition unit :=
  sender <-! from msg;;
  st <-! the_state;;
  let remaining := gasRemaining st * GasPrice msg in
  _ <-! (if initialGas st >? gasRemaining st
         then update (with_state (fun db => AddBalance db sender remaining)) else returns tt);;
  st <-! the_state;;
  let uhalf := gasUsed st / 2 in
  let refund := Z.min uhalf (GetRefund (state st)) in
  _ <-! update (with_remaining (u64 (gasRemaining st + u64 (Z.abs refund))));;
  _ <-! update (with_state (fun db => AddBalance db sender (refund * GasPrice msg)));;
  st <-! the_state;;
  if initialGas st >? gasRemaining st then update (with_pool (AddGas (gp st) (gasRemaining st))) else returns tt.

(** [common.BytesToAddress([]byte{byte(system)})] *)
Definition system_address (system : Z) : Address := system mod 256.

(** The run of the machine: a contract is created, by the system or by the
    sender, or called. *)
Definition run_create (msg : Message) (sender : Address) : transition VmResult :=
  st <-! the_state;;
  if GetSystem msg >? 0 then
    let r := evm_CreateSystemContract (state st) (system_address (GetSystem msg)) (Data msg) in
    _ <-! update (with_state (fun _ => snd r));; returns (fst r)
  else
    let r := evm_Create (state st) sender (Data msg) (gasRemaining st) (Value msg) (ShardFlag msg) in
    _ <-! update (with_remaining (fst (fst r)));;
    _ <-! update (with_state (fun _ => snd r));;
    returns (snd (fst r)).

Definition run_call (msg : Message) (sender : Address) : transition (Address * VmResult) :=
  _ <-! update (with_state (fun db => SetNonce db sender (u64 (GetNonce db sender + 1))));;
  dest <-! to msg;;
  st <-! the_state;;
  let r := evm_Call (state st) sender dest (Data msg) (gasRemaining st) (Value msg) (WaitBlockNumber msg =? 0)
             (ShardFlag msg) in
  _ <-! update (with_remaining (fst (fst r)));;
  _ <-! update (with_state (fun _ => snd r));;
  returns (dest, snd (fst r)).

(** The relay is told of a successful change of the white list. *)
Definition notify (evm : EVM) (msg : Message) (dest : Address) (vmerr : VmResult) : transition unit :=
  match vmerr with
  | VmOk =>
      if evm_Nr evm && (4 <=? Z.of_nat (length (Data msg))) && IsWhiteListCall dest (take 4 (Data msg))
      then update (with_notice 0) else returns tt
  | _ => returns tt
  end.

(** The machine is done: refunds, fees, and the gas used before and after the
    refund. *)
Definition settle (evm : EVM) (msg : Message) (vmerr : VmResult) : transition (Z * Z * bool) :=
  match vmerr with
  | VmInsufficientBalance => errs vm_ErrInsufficientBalance
  | _ =>
      st <-! the_state;;
      let requiredGas := gasUsed st in
      _ <-! refundGas msg;;
      st <-! the_state;;
      _ <-! update (with_state (fun db => AddBalance db (evm_Coinbase evm) (gasUsed st * GasPrice msg)));;
      returns (requiredGas, gasUsed st, match vmerr with VmOk => false | _ => true end)
  end.

(** What both transitions do after the gas is bought. *)
Definition pay_intrinsic (evm : EVM) (msg : Message) : transition unit :=
  let intrinsicGas := IntrinsicGas (Data msg) (bool_decide (To msg = None)) (evm_IsPangu evm) in
  if exceeds_64_bits intrinsicGas then errs vm_ErrOutOfGas
  else if GetSystem msg =? 0 then useGas (u64 (Z.abs intrinsicGas))
  else returns tt.

Definition TransitionDb (evm : EVM) (msg : Message) : transition (Z * Z * bool) :=
  _ <-! preCheck msg;;
  sender <-! from msg;;
  _ <-! pay_intrinsic evm msg;;
  vmerr <-! (match To msg with
             | None => run_create msg sender
             | Some _ =>
                 r <-! run_call msg sender;;
                 _ <-! notify evm msg (fst r) (snd r);;
                 returns (snd r)
             end);;
  settle evm msg vmerr.

(** The transition that estimates gas: no nonce, no notification. *)
Definition TransitionDbForCalculateGas (evm : EVM) (msg : Message) : transition (Z * Z * bool) :=
  _ <-! buyGas msg;;
  sender <-! from msg;;
  _ <-! pay_intrinsic evm msg;;
  vmerr <-! (match To msg with
             | None => run_create msg sender
             | Some _ => r <-! run_call msg sender;; returns (snd r)
             end);;
  settle evm msg vmerr.

(** The gas used and whether the machine failed, or an error, with the pool and
    the database left behind. *)
Definition used_and_failed (o : outcome ((Z * Z * bool + TxError) * StateTransition))
    : outcome ((Z * bool + TxError) * StateTransition) :=
  match o with
  | Ret (inl r, st) => Ret (inl (snd (fst r), snd r), st)
  | Ret (inr e, st) => Ret (inr e, st)
  | Panic => Panic
  | OutOfFuel => OutOfFuel
  end.

Definition ApplyMessage (evm : EVM) (msg : Message) (pool : Z) (db : StateDB) (nr : list Z)
    : outcome ((Z * bool + TxError) * StateTransition) :=
  used_and_failed (TransitionDb evm msg (NewStateTransition pool db nr)).

Definition ApplyMessageForCalculateGas (evm : EVM) (msg : Message) (pool : Z) (db : StateDB) (nr : list Z)
    : outcome ((Z * bool + TxError) * StateTransition) :=
  used_and_failed (TransitionDbForCalculateGas evm msg (NewStateTransition pool db nr)).

End transition.

(** ** Blocks of transactions (state_processor.go) *)

Record Log := mkLog {
  l_Address : Address;
  l_Data : list Z
}.

Record Receipt := mkReceipt {
  r_Failed : bool;
  CumulativeGasUsed : Z;
  r_TxHash : Hash;
  r_GasUsed : Z;
  ContractAddress : Address;
  Logs : list Log;
  r_Bloom : list Z
}.

(** What the processor uses of MoacLib. *)
Class ProcessorLib `{EvmLib} := {
  Tx : Type;
  AsMessage : Tx -> result Message;
  t_Hash : Tx -> Hash;
  t_Nonce : Tx -> Z;
  GetFlag : StateDB -> Address -> Z;
  SetFlag : StateDB -> Address -> Z -> StateDB;
  Prepare_tx : StateDB -> Hash -> Hash -> nat -> StateDB;
  Finalise : StateDB -> StateDB;
  GetLogs : StateDB -> Hash -> list Log;
  CreateAddress : Address -> Z -> Address;
  CreateBloom : list (list Log) -> list Z;
  DeriveSha_receipts : list Receipt -> Hash;
  DeriveSha_txs : list Tx -> Hash;
  IntermediateRoot : StateDB -> Hash
}.

Section processor.
Context `{ProcessorLib}.

Definition SetShardingFlag (flag : Z) (m : Message) : Message :=
  mkMessage (From m) (To m) (WaitBlockNumber m) flag (GasPrice m) (m_GasLimit m) (Value m) (m_Nonce m) (CheckNonce m)
    (Data m) (GetSystem m).

(** The state of a block: the pool, the database, what was notified and the
    total of the gas used. *)
Record BlockState := mkBlockState {
  b_pool : Z;
  b_state : StateDB;
  b_notified : list Z;
  b_used : Z
}.

(** A transaction applied with one of the two ways to apply its message. *)
Definition apply_transaction
    (apply : EVM -> Message -> Z -> StateDB -> list Z -> outcome ((Z * bool + TxError) * StateTransition))
    (evm : EVM) (tx : Tx) (b : BlockState) : outcome ((Receipt * Z + TxError) * BlockState) :=
  match AsMessage tx with
  | Err => Ret (inr errInvalidSender, b)
  | Ok m =>
      let msg := SetShardingFlag (match To m with Some a => GetFlag (b_state b) a | None => 0 end) m in
      match apply evm msg (b_pool b) (b_state b) (b_notified b) with
      | Ret (inl (gas, failed), st) =>
          let db := Finalise (state st) in
          let used := b_used b + gas in
          let addr := match To msg with Some a => a | None => CreateAddress (From msg) (t_Nonce tx) end in
          let db' := match To msg with Some _ => db | None => SetFlag db addr 0 end in
          let logs := GetLogs db' (t_Hash tx) in
          Ret (inl (mkReceipt failed used (t_Hash tx) gas addr logs (CreateBloom [logs]), gas),
               mkBlockState (gp st) db' (notified st) used)
      | Ret (inr e, st) => Ret (inr e, mkBlockState (gp st) (state st) (notified st) (b_used b))
      | Panic => Panic
      | OutOfFuel => OutOfFuel
      end
  end.

Definition ApplyTransaction := apply_transaction ApplyMessage.

Definition ApplyTransactionForCalculateGas := apply_transaction ApplyMessageForCalculateGas.

(** The loop of [Process], with the receipts so far. *)
Fixpoint process_loop (evm : EVM) (blockHash : Hash) (i : nat) (txs : list Tx) (receipts : list Receipt) (b : BlockState)
    : outcome ((list Receipt + TxError) * BlockState) :=
  match txs with
  | [] => Ret (inl receipts, b)
  | tx :: rest =>
      let b0 := mkBlockState (b_pool b) (Prepare_tx (b_state b) (t_Hash tx) blockHash i) (b_notified b) (b_used b) in
      match ApplyTransaction evm tx b0 with
      | Ret (inl (receipt, _), b') => process_loop evm blockHash (S i) rest (receipts ++ [receipt]) b'
      | Ret (inr e, b') => Ret (inr e, b')
      | Panic => Panic
      | OutOfFuel => OutOfFuel
      end
  end.

(** The receipts, the logs and the gas used, with the state the engine finalized. *)
Definition Process (evm : EVM) (finalize : StateDB -> list Tx -> list Receipt -> StateDB) (blockHash : Hash)
    (gasLimit : Z) (txs : list Tx) (db : StateDB) (nr : list Z)
    : outcome ((list Receipt * list Log * Z + TxError) * StateDB) :=
  match process_loop evm blockHash 0 txs [] (mkBlockState (AddGas 0 gasLimit) db nr 0) with
  | Ret (inl receipts, b) =>
      Ret (inl (receipts, concat (Logs <$> receipts), b_used b), finalize (b_state b) txs receipts)
  | Ret (inr e, b) => Ret (inr e, b_state b)
  | Panic => Panic
  | OutOfFuel => OutOfFuel
  end.

(** ** Validation (block_validator.go) *)
Inductive ValidationError :=
| ErrKnownBlock
| val_ErrUnknownAncestor
| errUncles
| errUncleRoot
| errTxRoot
| errGasUsed
| errBloom
| errReceiptRoot
| errStateRoot.

(** What a block header commits to. *)
Record Commitment := mkCommitment {
  k_GasUsed : Z;
  k_Bloom : list Z;
  k_TxHash : Hash;
  k_UncleHash : Hash;
  k_ReceiptHash : Hash;
  k_Root : Hash
}.

Definition ValidateBody (known parentKnown unclesOk : bool) (uncleHash : Hash) (header : Commitment) (txs : list Tx)
    : unit + ValidationError :=
  if known then inr ErrKnownBlock
  else if negb parentKnown then inr val_ErrUnknownAncestor
  else if negb unclesOk then inr errUncles
  else if negb (uncleHash =? k_UncleHash header) then inr errUncleRoot
  else if negb (DeriveSha_txs txs =? k_TxHash header) then inr errTxRoot
  else inl tt.

Definition ValidateState (header : Commitment) (db : StateDB) (receipts : list Receipt) (usedGas : Z)
    : unit + ValidationError :=
  if negb (k_GasUsed header =? usedGas) then inr errGasUsed
  else if negb (bool_decide (CreateBloom (Logs <$> receipts) = k_Bloom header)) then inr errBloom
  else if negb (DeriveSha_receipts receipts =? k_ReceiptHash header) then inr errReceiptRoot
  else if negb (k_Root header =? IntermediateRoot db) then inr errStateRoot
  else inl tt.

End processor.

(** The parameters of MoacLib that bound gas limits. *)
Class GasLimits := {
  GasLimitBoundDivisor : Z;
  MinGasLimit : Z;
  TargetGasLimit : Z
}.

Definition CalcGasLimit `{GasLimits} (parentGasUsed parentGasLimit : Z) : Z :=
  let contrib := (parentGasUsed * 3) / 2 / GasLimitBoundDivisor in
  let decay := parentGasLimit / GasLimitBoundDivisor - 1 in
  let gl := Z.max (parentGasLimit - decay + contrib) MinGasLimit in
  if gl <? TargetGasLimit then Z.min (parentGasLimit + decay) TargetGasLimit else gl.
