(* ===== verification/StateTransitionProps.v ===== *)
(** * Gas is settled exactly

    Nothing of the gas a message buys is lost or made: the sender pays for what
    was used, the fees go to the coinbase, and the rest returns to the sender and
    to the pool of the block. *)
From S2P Require Import Prelude GoMonad StateTransition.
Local Open Scope Z_scope.

(** The documented behaviour of the state database and of the machine: balances
    change by what is added and subtracted, creating an absent account or
    setting a nonce changes none, a run returns part of the gas it was given. *)
Class EvmLaws `{EvmLib} : Prop := {
  AddBalance_spec : forall db a v b, GetBalance (AddBalance db a v) b = GetBalance db b + (if a =? b then v else 0);
  SubBalance_spec : forall db a v b, GetBalance (SubBalance db a v) b = GetBalance db b - (if a =? b then v else 0);
  CreateAccount_balance : forall db a b, Exist db a = false -> GetBalance (CreateAccount db a) b = GetBalance db b;
  SetNonce_balance : forall db a n b, GetBalance (SetNonce db a n) b = GetBalance db b;
  GetRefund_nonneg : forall db, 0 <= GetRefund db;
  evm_Create_gas : forall db a d gas v f, 0 <= gas -> 0 <= fst (fst (evm_Create db a d gas v f)) <= gas;
  evm_Call_gas : forall db a b d gas v w f, 0 <= gas -> 0 <= fst (fst (evm_Call db a b d gas v w f)) <= gas;
  TxGas_pos : 0 < TxGas;
  TxGasContractCreation_pos : 0 < TxGasContractCreation;
  TxDataNonZeroGas_nonneg : 0 <= TxDataNonZeroGas;
  TxDataZeroGas_nonneg : 0 <= TxDataZeroGas
}.

Section gas.
Context `{EL : EvmLib, Laws : !EvmLaws}.

Lemma ensure_balance a db b : GetBalance (ensure a db) b = GetBalance db b.
Proof. unfold ensure. destruct (Exist db a) eqn:E; [done|]. by apply CreateAccount_balance. Qed.

Lemma IntrinsicGas_pos data c p : 0 < IntrinsicGas data c p.
Proof.
  unfold IntrinsicGas. pose proof TxGas_pos. pose proof TxGasContractCreation_pos.
  pose proof TxDataNonZeroGas_nonneg. pose proof TxDataZeroGas_nonneg.
  pose proof (length_filter (fun b => b <> 0) data) as Hl.
  set (nz := length _) in *. assert (0 <= Z.of_nat nz * TxDataNonZeroGas) by (apply Z.mul_nonneg_nonneg; lia).
  assert (0 <= (Z.of_nat (length data) - Z.of_nat nz) * TxDataZeroGas) by (apply Z.mul_nonneg_nonneg; lia).
  destruct (c && p); lia.
Qed.

(** What [buyGas] has done when it succeeds. *)
Lemma buyGas_spec msg st st' : 0 <= m_GasLimit msg -> gasRemaining st = 0 -> buyGas msg st = Ret (inl tt, st') ->
  m_GasLimit msg <= MaxUint64 /\ m_GasLimit msg <= gp st /\
  m_GasLimit msg * GasPrice msg <= GetBalance (state st) (From msg) /\
  gp st' = gp st - m_GasLimit msg /\ gasRemaining st' = m_GasLimit msg /\ initialGas st' = m_GasLimit msg /\
  notified st' = notified st /\
  forall b, GetBalance (state st') b = GetBalance (state st) b - (if From msg =? b then m_GasLimit msg * GasPrice msg else 0).
Proof.
  intros H0 Hr. unfold buyGas, exceeds_64_bits.
  destruct (Z.leb_spec 18446744073709551616 (Z.abs (m_GasLimit msg))) as [|Hlt]; [done|].
  unfold from, ebind, update, the_state, returns, SubGas. cbn -[u64].
  destruct (Z.ltb_spec (GetBalance (ensure (From msg) (state st)) (From msg)) (m_GasLimit msg * GasPrice msg)) as [|Hb]; [done|].
  destruct (Z.ltb_spec (gp st) (m_GasLimit msg)) as [|Hp]; [done|]. cbn -[u64]. intros [= <-]. cbn -[u64].
  rewrite ensure_balance in Hb. rewrite Hr, Z.abs_eq in * by lia. unfold MaxUint64.
  rewrite !u64_small by (unfold is_u64, MaxUint64; rewrite ?u64_small; unfold is_u64, MaxUint64; lia).
  split_and!; try lia; [done|]. intros b. by rewrite SubBalance_spec, ensure_balance.
Qed.

Lemma preCheck_buys msg st st' : preCheck msg st = Ret (inl tt, st') ->
  buyGas msg (with_state (ensure (From msg)) st) = Ret (inl tt, st').
Proof.
  unfold preCheck, from. rewrite (ebind_run _ _ _ (From msg) (with_state (ensure (From msg)) st)) by done.
  rewrite (ebind_run _ _ _ _ _ eq_refl). cbn zeta. repeat (destruct (_ && _); [done|]). done.
Qed.

(** What [refundGas] does when some gas was used: at most half of it comes back
    from the refund counter, and all that is left returns to the sender and to
    the pool. *)
Lemma refundGas_spec msg st : 0 <= gasRemaining st < initialGas st -> initialGas st <= MaxUint64 ->
  exists refund st', refundGas msg st = Ret (inl tt, st') /\
    0 <= refund <= (initialGas st - gasRemaining st) / 2 /\
    gasRemaining st' = gasRemaining st + refund /\ initialGas st' = initialGas st /\ notified st' = notified st /\
    gp st' = gp st + gasRemaining st + refund /\
    forall b, GetBalance (state st') b = GetBalance (state st) b +
      (if From msg =? b then (gasRemaining st + refund) * GasPrice msg else 0).
Proof.
  intros Hr Hmax. unfold refundGas, from, ebind, update, the_state, returns. cbn -[u64].
  assert (Hgt : (initialGas st >? gasRemaining st) = true) by lia. rewrite Hgt. cbn -[u64].
  set (db := AddBalance _ _ _). unfold gasUsed. cbn -[u64]. rewrite Hgt.
  set (refund := Z.min _ _). assert (Href : 0 <= refund <= (initialGas st - gasRemaining st) / 2).
  { unfold refund. pose proof (GetRefund_nonneg db). pose proof (Z.div_pos (initialGas st - gasRemaining st) 2). lia. }
  pose proof (Z.mul_div_le (initialGas st - gasRemaining st) 2 ltac:(lia)) as Hhalf.
  rewrite Z.abs_eq, (u64_small refund), u64_small by (unfold is_u64; lia).
  rewrite Z.gtb_ltb. destruct (Z.ltb_spec (gasRemaining st + refund) (initialGas st)) as [_|?]; [|lia].
  eexists refund, _. split; [reflexivity|]. cbn. unfold AddGas. split_and!; [lia|lia|done..|lia|].
  intros b. unfold db. rewrite !AddBalance_spec, ensure_balance. destruct (From msg =? b); lia.
Qed.

(** The sender paid for the gas used, at its price, to the coinbase. *)
Definition fees_paid (msg : Message) (coinbase used : Z) (db db' : StateDB) : Prop :=
  forall b, GetBalance db' b = GetBalance db b +
    (if From msg =? b then (m_GasLimit msg - used) * GasPrice msg else 0) +
    (if coinbase =? b then used * GasPrice msg else 0).

Lemma settle_spec evm msg v st r st' :
  0 <= gasRemaining st < initialGas st -> initialGas st = m_GasLimit msg -> initialGas st <= MaxUint64 ->
  settle evm msg v st = Ret (inl r, st') ->
  let used := snd (fst r) in
  v <> VmInsufficientBalance /\ fst (fst r) = initialGas st - gasRemaining st /\
  0 < used <= initialGas st - gasRemaining st /\ initialGas st - gasRemaining st <= 2 * used /\
  gp st' = gp st + initialGas st - used /\ fees_paid msg (evm_Coinbase evm) used (state st) (state st').
Proof.
  intros Hr Hi Hmax. destruct (refundGas_spec msg st Hr Hmax) as (refund & st1 & E & Href & Hrem & Hini & Hnot & Hgp & Hbal).
  pose proof (Z.mul_div_le (initialGas st - gasRemaining st) 2 ltac:(lia)) as Hhalf.
  assert (Hused : gasUsed st1 = initialGas st - gasRemaining st - refund).
  { unfold gasUsed. rewrite Hrem, Hini, Z.gtb_ltb. destruct (Z.ltb_spec (gasRemaining st + refund) (initialGas st)); lia. }
  assert (Hreq : gasUsed st = initialGas st - gasRemaining st).
  { unfold gasUsed. rewrite Z.gtb_ltb. destruct (Z.ltb_spec (gasRemaining st) (initialGas st)); lia. }
  intros Es. assert (Hv : v <> VmInsufficientBalance) by (intros ->; done).
  assert (Er : exists b, r = (gasUsed st, gasUsed st1, b) /\
    st' = with_state (fun db => AddBalance db (evm_Coinbase evm) (gasUsed st1 * GasPrice msg)) st1).
  { destruct v; [|done|]; cbn [settle] in Es; rewrite (ebind_run _ _ st st st) in Es by done;
      rewrite (ebind_run _ _ _ _ _ E) in Es; rewrite (ebind_run _ _ st1 st1 st1) in Es by done;
      injection Es as <- <-; by eexists. }
  destruct Er as (b & -> & ->). cbn. rewrite Hused, Hreq. split_and!; [done|done|lia|lia|lia|lia|].
  intros a. cbn. rewrite AddBalance_spec, Hbal, Hi.
  replace (m_GasLimit msg - (m_GasLimit msg - gasRemaining st - refund)) with (gasRemaining st + refund) by lia. lia.
Qed.

(** What the machine is run on. *)
Definition machine (msg : Message) (gas : Z) (db : StateDB) (left : Z) (v : VmResult) (db' : StateDB) : Prop :=
  match To msg with
  | None => evm_Create db (From msg) (Data msg) gas (Value msg) (ShardFlag msg) = (left, v, db')
  | Some a =>
      evm_Call db (From msg) a (Data msg) gas (Value msg) (WaitBlockNumber msg =? 0) (ShardFlag msg) = (left, v, db')
  end.

Lemma pay_intrinsic_spec evm msg st st' : 0 <= gasRemaining st <= MaxUint64 -> GetSystem msg = 0 ->
  pay_intrinsic evm msg st = Ret (inl tt, st') ->
  let igas := IntrinsicGas (Data msg) (bool_decide (To msg = None)) (evm_IsPangu evm) in
  igas <= gasRemaining st /\ st' = with_remaining (gasRemaining st - igas) st.
Proof.
  intros Hr Hs. unfold pay_intrinsic, exceeds_64_bits. set (igas := IntrinsicGas _ _ _). cbn zeta.
  assert (Hpos : 0 < igas) by apply IntrinsicGas_pos. rewrite Z.abs_eq by lia.
  destruct (Z.leb_spec 18446744073709551616 igas) as [|Hlt]; [done|]. rewrite Hs. cbn [Z.eqb].
  unfold useGas. rewrite (ebind_run _ _ st st st) by done. rewrite (u64_small igas) by (unfold is_u64, MaxUint64; lia).
  destruct (Z.ltb_spec (gasRemaining st) igas) as [|Hle]; [done|]. unfold update. intros [= <-]. split; [done|].
  by rewrite u64_small by (unfold is_u64; lia).
Qed.

Lemma run_create_spec msg st v st' : GetSystem msg = 0 -> To msg = None -> 0 <= gasRemaining st ->
  run_create msg (From msg) st = Ret (inl v, st') ->
  machine msg (gasRemaining st) (state st) (gasRemaining st') v (state st') /\
  0 <= gasRemaining st' <= gasRemaining st /\ gp st' = gp st /\ initialGas st' = initialGas st.
Proof.
  intros Hs Ht Hg. unfold run_create, machine. rewrite Hs, Ht. rewrite (ebind_run _ _ st st st) by done. cbn [Z.gtb Z.compare].
  pose proof (evm_Create_gas (state st) (From msg) (Data msg) (gasRemaining st) (Value msg) (ShardFlag msg) Hg) as Hleft.
  destruct (evm_Create _ _ _ _ _ _) as [[left v'] db']. cbn. intros [= <- <-]. cbn in *. split_and!; done || lia.
Qed.

Lemma run_call_spec msg a st r st' : To msg = Some a -> 0 <= gasRemaining st ->
  run_call msg (From msg) st = Ret (inl r, st') -> exists db1,
  machine msg (gasRemaining st) db1 (gasRemaining st') (snd r) (state st') /\
  (forall b, GetBalance db1 b = GetBalance (state st) b) /\
  0 <= gasRemaining st' <= gasRemaining st /\ gp st' = gp st /\ initialGas st' = initialGas st.
Proof.
  intros Ht Hg. unfold run_call, to, machine. rewrite Ht. unfold ebind, update, the_state, returns. cbn -[u64].
  set (db1 := ensure a _).
  pose proof (evm_Call_gas db1 (From msg) a (Data msg) (gasRemaining st) (Value msg) (WaitBlockNumber msg =? 0) (ShardFlag msg) Hg) as Hleft.
  destruct (evm_Call _ _ _ _ _ _ _ _) as [[left v'] db'] eqn:E. cbn. intros [= <- <-]. exists db1. cbn in *.
  split_and!; try done; try lia. intros b. unfold db1. by rewrite ensure_balance, SetNonce_balance.
Qed.

Lemma notify_spec evm msg dest v st u st' : notify evm msg dest v st = Ret (inl u, st') ->
  gp st' = gp st /\ state st' = state st /\ gasRemaining st' = gasRemaining st /\ initialGas st' = initialGas st.
Proof. unfold notify. destruct v; [destruct (_ && _)|..]; by intros [= <- <-]. Qed.

(** The machine's part of a transition. *)
Lemma run_spec evm msg st v st' : GetSystem msg = 0 -> 0 <= gasRemaining st ->
  (match To msg with
   | None => run_create msg (From msg)
   | Some _ => r <-! run_call msg (From msg);; _ <-! notify evm msg (fst r) (snd r);; returns (snd r)
   end) st = Ret (inl v, st') -> exists db1,
  machine msg (gasRemaining st) db1 (gasRemaining st') v (state st') /\
  (forall b, GetBalance db1 b = GetBalance (state st) b) /\
  0 <= gasRemaining st' <= gasRemaining st /\ gp st' = gp st /\ initialGas st' = initialGas st.
Proof.
  intros Hs Hg. destruct (To msg) as [a|] eqn:Ht.
  - intros E. apply ebind_inv in E as (r & st1 & E1 & E). apply ebind_inv in E as (u & st2 & E2 & [= <- <-]).
    apply notify_spec in E2 as (-> & -> & -> & ->). by eapply run_call_spec.
  - intros E. apply run_create_spec in E as (Hm & Hrest); [|done..]. by exists (state st).
Qed.

Lemma message_settled evm msg pool db nr used failed st' :
  0 <= m_GasLimit msg -> GetSystem msg = 0 ->
  ApplyMessage evm msg pool db nr = Ret (inl (used, failed), st') ->
  let limit := m_GasLimit msg in
  let igas := IntrinsicGas (Data msg) (bool_decide (To msg = None)) (evm_IsPangu evm) in
  limit <= pool /\ limit * GasPrice msg <= GetBalance db (From msg) /\ gp st' = pool - used /\
  exists db1 left v db2,
    (forall b, GetBalance db1 b = GetBalance db b - (if From msg =? b then limit * GasPrice msg else 0)) /\
    machine msg (limit - igas) db1 left v db2 /\ v <> VmInsufficientBalance /\
    0 <= left <= limit - igas /\ 0 < used <= limit - left /\ limit - left <= 2 * used /\
    fees_paid msg (evm_Coinbase evm) used db2 (state st').
Proof.
  intros H0 Hs. unfold ApplyMessage.
  destruct (TransitionDb evm msg (NewStateTransition pool db nr)) as [[[r|] st]| |] eqn:E; try done.
  cbn. intros [= <- <- <-]. unfold TransitionDb in E. apply ebind_inv in E as (u & st1 & E1 & E). destruct u.
  apply preCheck_buys, buyGas_spec in E1 as (Hmax & Hpool & Hbal & Hgp & Hrem & Hini & _ & Hdb1); [|done|done]. cbn in Hpool, Hbal, Hgp.
  apply ebind_inv in E as (sender & st2 & E2 & E). unfold from, ebind, update, returns in E2. injection E2 as <- <-.
  apply ebind_inv in E as (u & st3 & E3 & E). destruct u. apply pay_intrinsic_spec in E3 as [Hig ->]; [|cbn; lia|done].
  cbn in Hig. rewrite Hrem in Hig. apply ebind_inv in E as (v & st4 & E4 & E).
  pose proof (IntrinsicGas_pos (Data msg) (bool_decide (To msg = None)) (evm_IsPangu evm)) as Hpos.
  apply run_spec in E4 as (db1 & Hm & Hb1 & Hleft & Hgp4 & Hini4); [|done|cbn; lia]. cbn in *. rewrite Hrem in Hm, Hleft.
  rewrite Hini in Hini4. apply settle_spec in E as (Hv & _ & Hused & Hhalf & Hgp' & Hfees); [|lia..].
  rewrite ensure_balance in Hbal. split_and!; [lia|done|lia|]. exists db1, (gasRemaining st4), v, (state st4).
  split_and!; try done; try lia. intros b. by rewrite Hb1, ensure_balance, Hdb1, ensure_balance.
Qed.

(** C13. The gas of a message is settled exactly.  When an ordinary message is
    applied, the sender could pay for its gas limit and the pool had that much;
    the machine ran on the state with that payment taken and with the gas left
    after the intrinsic gas; at least half of the gas it left unreturned was used
    for good; and in the end the pool lost exactly the gas used, the coinbase got
    its price, and the sender got back the price of all the rest. *)
Theorem message_settles evm msg pool db nr used failed st' :
  0 <= m_GasLimit msg -> GetSystem msg = 0 ->
  ApplyMessage evm msg pool db nr = Ret (inl (used, failed), st') ->
  let limit := m_GasLimit msg in
  let igas := IntrinsicGas (Data msg) (bool_decide (To msg = None)) (evm_IsPangu evm) in
  limit <= pool /\ limit * GasPrice msg <= GetBalance db (From msg) /\ gp st' = pool - used /\
  exists db1 left v db2,
    (forall b, GetBalance db1 b = GetBalance db b - (if From msg =? b then limit * GasPrice msg else 0)) /\
    machine msg (limit - igas) db1 left v db2 /\ v <> VmInsufficientBalance /\
    0 <= left <= limit - igas /\ 0 < used <= limit - left /\ limit - left <= 2 * used /\
    fees_paid msg (evm_Coinbase evm) used db2 (state st').
Proof. apply message_settled. Qed.

(** When no gas was used nothing is settled. *)
Lemma settle_idle evm msg v st r st' :
  gasRemaining st = initialGas st -> 0 <= initialGas st <= MaxUint64 -> settle evm msg v st = Ret (inl r, st') ->
  r.1.2 = 0 /\ gp st' = gp st /\ forall b, GetBalance (state st') b = GetBalance (state st) b.
Proof.
  intros Hr Hmax.
  assert (Hz : (initialGas st >? gasRemaining st) = false) by lia.
  assert (E : exists st1, refundGas msg st = Ret (inl tt, st1) /\ gp st1 = gp st /\ gasUsed st1 = 0 /\
    forall b, GetBalance (state st1) b = GetBalance (state st) b).
  { unfold refundGas, from, ebind, update, the_state, returns. cbn -[u64]. rewrite Hz. unfold gasUsed. cbn -[u64].
    rewrite Hz. cbn -[u64]. rewrite Z.min_l by apply GetRefund_nonneg. cbn -[u64].
    change (u64 0) with 0. rewrite Z.add_0_r, u64_small, Hz by (unfold is_u64; lia). eexists. split; [reflexivity|]. cbn. rewrite Hz. split_and!; try done.
    intros b. rewrite AddBalance_spec, ensure_balance. change (0 / 2) with 0. destruct (_ =? _); lia. }
  destruct E as (st1 & E & Hgp & Hu & Hb).
  destruct v; [|done|]; unfold settle; rewrite (ebind_run _ _ st st st) by done;
    rewrite (ebind_run _ _ _ _ _ E), (ebind_run _ _ st1 st1 st1) by done; cbn; rewrite Hu; intros [= <- <-]; cbn;
    split_and!; try done; intros b; rewrite AddBalance_spec, Hb; destruct (_ =? _); lia.
Qed.

(** Gas bought by a system message is lost: when a message of the system
    creates a contract, no gas is used, and since the refund asks for some to
    have been used, neither the sender gets the price of its limit back nor the
    pool of the block the limit. *)
Theorem system_message_loses_gas evm msg pool db nr used failed st' :
  0 <= m_GasLimit msg -> 0 < GetSystem msg -> To msg = None ->
  ApplyMessage evm msg pool db nr = Ret (inl (used, failed), st') ->
  used = 0 /\ gp st' = pool - m_GasLimit msg /\
  exists db1 v db2,
    (forall b, GetBalance db1 b = GetBalance db b - (if From msg =? b then m_GasLimit msg * GasPrice msg else 0)) /\
    evm_CreateSystemContract db1 (system_address (GetSystem msg)) (Data msg) = (v, db2) /\
    forall b, GetBalance (state st') b = GetBalance db2 b.
Proof.
  intros H0 Hs Ht. unfold ApplyMessage.
  destruct (TransitionDb evm msg (NewStateTransition pool db nr)) as [[[r|] st]| |] eqn:E; try done.
  cbn. intros [= <- <- <-]. unfold TransitionDb in E. apply ebind_inv in E as (u & st1 & E1 & E). destruct u.
  apply preCheck_buys, buyGas_spec in E1 as (Hmax & Hpool & Hbal & Hgp & Hrem & Hini & _ & Hdb1); [|done|done]. cbn in Hpool, Hbal, Hgp.
  apply ebind_inv in E as (sender & st2 & E2 & E). unfold from, ebind, update, returns in E2. injection E2 as <- <-.
  apply ebind_inv in E as (u & st3 & E3 & E). unfold pay_intrinsic in E3.
  destruct (exceeds_64_bits _); [done|]. rewrite (proj2 (Z.eqb_neq _ _)) in E3 by lia. injection E3 as <- <-.
  apply ebind_inv in E as (v & st4 & E4 & E). rewrite Ht in E4. unfold run_create in E4.
  rewrite (ebind_run _ _ _ _ _ eq_refl) in E4. rewrite Z.gtb_ltb, (proj2 (Z.ltb_lt _ _) Hs) in E4.
  set (db1 := ensure (From msg) (state st1)) in *. cbn in E4. fold db1 in E4.
  destruct (evm_CreateSystemContract db1 _ _) as [v' db2] eqn:Ev. cbn in E4. injection E4 as <- <-.
  assert (Es : r.1.2 = 0 /\ gp st = gp st1 /\ forall b, GetBalance (state st) b = GetBalance db2 b).
  { eapply settle_idle in E; [exact E|cbn; lia|cbn; lia]. }
  destruct Es as (-> & -> & Hb). split_and!; [done|lia|]. exists db1, v', db2. split_and!; try done.
  intros b. unfold db1. by rewrite ensure_balance, Hdb1; cbn; rewrite ensure_balance.
Qed.

End gas.

(** ** Blocks *)
Section blocks.
Context `{EL : EvmLib, Laws : !EvmLaws, PL : !ProcessorLib}.

(** A transaction users can send: its message is not the system's. *)
Definition ordinary (tx : Tx) : Prop :=
  forall m, AsMessage tx = Ok m -> 0 <= m_GasLimit m /\ GetSystem m = 0.

Definition gas_sum (receipts : list Receipt) : Z := foldr Z.add 0 (r_GasUsed <$> receipts).

Lemma gas_sum_snoc l r : gas_sum (l ++ [r]) = gas_sum l + r_GasUsed r.
Proof. unfold gas_sum. rewrite fmap_app, foldr_app. cbn. induction (r_GasUsed <$> l); cbn; lia. Qed.

(** The receipts of the first transactions: one for each, in order, with the
    running total of the gas used. *)
Record receipts_ok (txs : list Tx) (receipts : list Receipt) : Prop := {
  rec_hash : r_TxHash <$> receipts = t_Hash <$> txs;
  rec_used : forall i r, receipts !! i = Some r ->
    0 < r_GasUsed r /\ CumulativeGasUsed r = gas_sum (take (S i) receipts)
}.

Lemma ApplyTransaction_spec evm tx b receipt gas b' : ordinary tx ->
  ApplyTransaction evm tx b = Ret (inl (receipt, gas), b') ->
  r_TxHash receipt = t_Hash tx /\ r_GasUsed receipt = gas /\ CumulativeGasUsed receipt = b_used b + gas /\
  0 < gas <= b_pool b /\ b_pool b' = b_pool b - gas /\ b_used b' = b_used b + gas.
Proof.
  intros Ho. unfold ApplyTransaction, apply_transaction. destruct (AsMessage tx) as [m|] eqn:Em; [|done].
  destruct (Ho m Em) as [Hl Hs]. set (msg := SetShardingFlag _ m).
  destruct (ApplyMessage evm msg _ _ _) as [[[[used failed]|] st]| |] eqn:E; try done. intros [= <- <- <-].
  apply message_settled in E as (Hp & _ & Hgp & db1 & left & v & db2 & _ & _ & _ & Hleft & Hused & _ & _); [|done..].
  change (m_GasLimit msg) with (m_GasLimit m) in *. cbn. split_and!; try done; lia.
Qed.

Lemma process_loop_spec evm blockHash gasLimit txs : forall i done_txs receipts b receipts' b',
  Forall ordinary txs -> receipts_ok done_txs receipts -> b_used b = gas_sum receipts ->
  b_pool b + b_used b = gasLimit -> 0 <= b_pool b ->
  process_loop evm blockHash i txs receipts b = Ret (inl receipts', b') ->
  receipts_ok (done_txs ++ txs) receipts' /\ b_used b' = gas_sum receipts' /\
  b_pool b' + b_used b' = gasLimit /\ 0 <= b_pool b'.
Proof.
  induction txs as [|tx txs IH]; intros i done_txs receipts b receipts' b' Ho [Hh Hu] Hsum Hlim Hpool; cbn [process_loop].
  { intros [= <- <-]. by rewrite app_nil_r. }
  apply Forall_cons in Ho as [Ho Hos]. set (b0 := mkBlockState _ _ _ _).
  destruct (ApplyTransaction evm tx b0) as [[[[receipt gas]|] b1]| |] eqn:E; try done. intros Er.
  apply ApplyTransaction_spec in E as (Eh & Eg & Ec & Hg & Hp1 & Hu1); [|done]. cbn in Ec, Hg, Hp1, Hu1.
  apply (IH _ (done_txs ++ [tx])) in Er; [by rewrite <- app_assoc in Er|done| |by rewrite gas_sum_snoc, Eg, Hu1, Hsum|lia|lia].
  split; [by rewrite !fmap_app, Hh; cbn; rewrite Eh|]. intros j r Hj.
  destruct (decide (j < length receipts)%nat) as [Hlt|Hge].
  - rewrite lookup_app_l in Hj by done. rewrite take_app_le by lia. by apply Hu.
  - apply lookup_snoc_Some in Hj as [[? _]|[-> ->]]; [lia|]. rewrite take_ge by (rewrite length_app; cbn; lia).
    rewrite gas_sum_snoc, Eg, Ec, Hsum. lia.
Qed.

(** C37. A block never uses more gas than its limit: when its transactions, none of
    the system, are processed, there is a receipt for each of them, in their
    order and with the running total of the gas, and the total is the sum of what
    they used and at most the gas limit. *)
Theorem block_gas evm finalize blockHash gasLimit txs db nr receipts logs used db' :
  Forall ordinary txs -> 0 <= gasLimit ->
  Process evm finalize blockHash gasLimit txs db nr = Ret (inl (receipts, logs, used), db') ->
  receipts_ok txs receipts /\ used = gas_sum receipts /\ used <= gasLimit /\ logs = concat (Logs <$> receipts).
Proof.
  intros Ho Hl. unfold Process. destruct (process_loop _ _ _ _ _ _) as [[[rs|] b]| |] eqn:E; try done.
  intros [= <- <- <- <-]. apply (process_loop_spec _ _ gasLimit _ _ []) in E as (Hok & Hused & Hlim & Hp);
    [|done|by split|done|unfold AddGas; cbn; lia|unfold AddGas; cbn; lia].
  split_and!; [done|done|lia|done].
Qed.

End blocks.
