(* ===== verification/TxPool.v ===== *)
(** * The transaction pool (core/tx_pool.go)

    The pool keeps the transactions of each account in two lists, the pending
    ones, which can be executed on the current state, and the queued ones, which
    cannot yet, with all of them by hash and by price.  Transactions enter through
    [add], move between the lists as the state of the chain changes, and leave
    when they are mined, replaced, too expensive or over a limit. *)
From S2P Require Import Prelude GoMonad Heap TxList StateTransition.
Local Open Scope Z_scope.

Abbreviation Address := Z (only parsing).
Abbreviation Hash := Z (only parsing).

Inductive PoolError :=
| ErrInvalidSender
| pool_ErrNonceTooLow
| ErrUnderpriced
| ErrReplaceUnderpriced
| ErrInsufficientFunds
| ErrIntrinsicGas
| ErrGasLimit
| ErrNegativeValue
| ErrOversizedData
| ErrMaximumChainId
| ErrClassicTxNotEnabled
| errKnownTransaction.

Record TxPoolConfig := mkTxPoolConfig {
  NoLocals : bool;
  PriceLimit : Z;
  PriceBump : Z;
  AccountSlots : Z;
  GlobalSlots : Z;
  AccountQueue : Z;
  GlobalQueue : Z;
  Lifetime : Z;
  Rejournal : Z
}.

Definition second : Z := 1000000000.

Definition DefaultTxPoolConfig : TxPoolConfig :=
  mkTxPoolConfig false 1000000000 10 8196 40960 8196 8196 (60 * second) (3600 * second).

Definition sanitize (conf : TxPoolConfig) : TxPoolConfig :=
  mkTxPoolConfig (NoLocals conf)
    (if PriceLimit conf <? 1 then PriceLimit DefaultTxPoolConfig else PriceLimit conf)
    (if PriceBump conf <? 1 then PriceBump DefaultTxPoolConfig else PriceBump conf)
    (AccountSlots conf) (GlobalSlots conf) (AccountQueue conf) (GlobalQueue conf) (Lifetime conf)
    (if Rejournal conf <? second then second else Rejournal conf).

(** What the pool uses of MoacLib and of the prque library: more of a transaction,
    the state that tracks virtual nonces, the order in which a priority queue
    gives back accounts with priorities; and the order in which [sort.Sort] leaves
    accounts with heartbeats. *)
Class PoolLib `{TxLib, EvmLib} := {
  Tx_Size : Transaction -> Z;
  Tx_Value : Transaction -> Z;
  Tx_IsClassic : Transaction -> bool;
  Tx_ChainId : Transaction -> Z;
  Tx_Data : Transaction -> list Z;
  Tx_To : Transaction -> option Address;
  MaximumTxSize : Z;
  MaxChainId : Z;
  ManagedState : Type;
  ManageState : StateDB -> ManagedState;
  ms_GetNonce : ManagedState -> Address -> Z;
  ms_SetNonce : ManagedState -> Address -> Z -> ManagedState;
  prque_order : list (Address * Z) -> list Address;
  sort_beats : list (Address * Z) -> list (Address * Z);
  TxDifference : list Transaction -> list Transaction -> list Transaction
}.

Section pool.
Context `{PoolLib} `{!MapOrder Z Transaction} `{!MapOrder Z txList} `{!MapOrder Z unit}.

(** The journal of local transactions: the file, if there is one, and whether it
    is open for writing. *)
Record txJournal := mkTxJournal {
  disk : option (list Transaction);
  writer : bool
}.

(** The pool, with the transactions it announced. *)
Record TxPool := mkTxPool {
  config : TxPoolConfig;
  gasPrice : Z;
  currentState : StateDB;
  pendingState : ManagedState;
  currentMaxGas : Z;
  locals : gset Address;
  pending : gmap Address txList;
  queue : gmap Address txList;
  beats : gmap Address Z;
  all : gmap Hash Transaction;
  priced : txPricedList;
  pangu : bool;
  journal : option txJournal;
  announced : list Transaction
}.

Definition with_pending (f : gmap Address txList -> gmap Address txList) (p : TxPool) : TxPool :=
  mkTxPool (config p) (gasPrice p) (currentState p) (pendingState p) (currentMaxGas p) (locals p) (f (pending p)) (queue p)
    (beats p) (all p) (priced p) (pangu p) (journal p) (announced p).

Definition with_queue (f : gmap Address txList -> gmap Address txList) (p : TxPool) : TxPool :=
  mkTxPool (config p) (gasPrice p) (currentState p) (pendingState p) (currentMaxGas p) (locals p) (pending p) (f (queue p))
    (beats p) (all p) (priced p) (pangu p) (journal p) (announced p).

Definition with_beats (f : gmap Address Z -> gmap Address Z) (p : TxPool) : TxPool :=
  mkTxPool (config p) (gasPrice p) (currentState p) (pendingState p) (currentMaxGas p) (locals p) (pending p) (queue p)
    (f (beats p)) (all p) (priced p) (pangu p) (journal p) (announced p).

Definition with_index (a : gmap Hash Transaction) (l : txPricedList) (p : TxPool) : TxPool :=
  mkTxPool (config p) (gasPrice p) (currentState p) (pendingState p) (currentMaxGas p) (locals p) (pending p) (queue p)
    (beats p) a l (pangu p) (journal p) (announced p).

Definition with_nonces (f : ManagedState -> ManagedState) (p : TxPool) : TxPool :=
  mkTxPool (config p) (gasPrice p) (currentState p) (f (pendingState p)) (currentMaxGas p) (locals p) (pending p) (queue p)
    (beats p) (all p) (priced p) (pangu p) (journal p) (announced p).

Definition with_local (a : Address) (p : TxPool) : TxPool :=
  mkTxPool (config p) (gasPrice p) (currentState p) (pendingState p) (currentMaxGas p) ({[a]} ∪ locals p) (pending p) (queue p)
    (beats p) (all p) (priced p) (pangu p) (journal p) (announced p).

Definition with_journal (j : option txJournal) (p : TxPool) : TxPool :=
  mkTxPool (config p) (gasPrice p) (currentState p) (pendingState p) (currentMaxGas p) (locals p) (pending p) (queue p)
    (beats p) (all p) (priced p) (pangu p) j (announced p).

Definition announce (tx : Transaction) (p : TxPool) : TxPool :=
  mkTxPool (config p) (gasPrice p) (currentState p) (pendingState p) (currentMaxGas p) (locals p) (pending p) (queue p)
    (beats p) (all p) (priced p) (pangu p) (journal p) (announced p ++ [tx]).

Definition with_price (price : Z) (p : TxPool) : TxPool :=
  mkTxPool (config p) price (currentState p) (pendingState p) (currentMaxGas p) (locals p) (pending p) (queue p)
    (beats p) (all p) (priced p) (pangu p) (journal p) (announced p).

Definition with_head (db : StateDB) (maxGas : Z) (p : TxPool) : TxPool :=
  mkTxPool (config p) (gasPrice p) db (ManageState db) maxGas (locals p) (pending p) (queue p)
    (beats p) (all p) (priced p) (pangu p) (journal p) (announced p).

(** [from, _ := types.Sender(...)]: the zero address when there is none. *)
Definition sender_of (tx : Transaction) : Address := match Tx_Sender tx with Ok a => a | Err => 0 end.

(** ** Bookkeeping *)

(** [delete(pool.all, hash); pool.priced.Removed()] *)
Definition forget (hash : Hash) (p : TxPool) : TxPool :=
  let a := delete hash (all p) in with_index a (Removed a (priced p)) p.

(** [pool.all[hash] = tx; pool.priced.Put(tx)] *)
Definition know (hash : Hash) (tx : Transaction) (p : TxPool) : TxPool :=
  with_index (<[hash := tx]> (all p)) (Priced_Put tx (priced p)) p.

(** A loop that forgets the transactions a list gave up. *)
Fixpoint forget_all (txs : Transactions) (p : TxPool) : outcome TxPool :=
  match txs with
  | [] => Ret p
  | Some tx :: rest => forget_all rest (forget (Tx_Hash tx) p)
  | None :: _ => Panic
  end.

(** ** Validation *)
(** The rules that do not look at the head of the chain. *)
Definition validate_basic (classicEnabled : bool) (tx : Transaction) : option PoolError :=
  if Tx_Size tx >? MaximumTxSize then Some ErrOversizedData
  else if Tx_Value tx <? 0 then Some ErrNegativeValue
  else if Tx_IsClassic tx && negb classicEnabled then Some ErrClassicTxNotEnabled
  else if Tx_ChainId tx >=? MaxChainId then Some ErrMaximumChainId
  else None.

Definition validateTx (classicEnabled : bool) (tx : Transaction) (local : bool) (p : TxPool) : unit + PoolError :=
  match validate_basic classicEnabled tx with
  | Some e => inr e
  | None =>
  if currentMaxGas p <? Tx_GasLimit tx then inr ErrGasLimit
  else
    match Tx_Sender tx with
    | Err => inr ErrInvalidSender
    | Ok from =>
        if negb (local || contains (locals p) from) && (gasPrice p >? Tx_GasPrice tx) then inr ErrUnderpriced
        else if GetNonce (currentState p) from >? Tx_Nonce tx then inr pool_ErrNonceTooLow
        else if GetBalance (currentState p) from <? Tx_Cost tx then inr ErrInsufficientFunds
        else if Tx_GasLimit tx <? IntrinsicGas (Tx_Data tx) (bool_decide (Tx_To tx = None)) (pangu p)
        then inr ErrIntrinsicGas
        else inl tt
    end
  end.

(** ** Moving transactions *)
Definition pool_call (A : Type) : Type := throws TxPool PoolError A.

Definition enqueueTx (hash : Hash) (tx : Transaction) (p : TxPool) : (bool + PoolError) * TxPool :=
  let from := sender_of tx in
  let list := default (newTxList false) (queue p !! from) in
  let '((inserted, old), list') := List_Add tx (PriceBump (config p)) list in
  let p1 := with_queue (insert from list') p in
  if negb inserted then (inr ErrReplaceUnderpriced, p1)
  else
    let p2 := match old with Some o => forget (Tx_Hash o) p1 | None => p1 end in
    (inl (found old), know hash tx p2).

Fixpoint enqueue_all (txs : list Transaction) (p : TxPool) : TxPool :=
  match txs with
  | [] => p
  | tx :: rest => enqueue_all rest (snd (enqueueTx (Tx_Hash tx) tx p))
  end.

(** The journal's [insert]; its error is only logged. *)
Definition journal_insert (tx : Transaction) (j : txJournal) : txJournal :=
  if writer j then mkTxJournal (Some (default [] (disk j) ++ [tx])) true else j.

Definition journalTx (from : Address) (tx : Transaction) (p : TxPool) : TxPool :=
  match journal p with
  | Some j => if contains (locals p) from then with_journal (Some (journal_insert tx j)) p else p
  | None => p
  end.

Definition promoteTx (now : Z) (addr : Address) (hash : Hash) (tx : Transaction) (p : TxPool) : TxPool :=
  let list := default (newTxList true) (pending p !! addr) in
  let '((inserted, old), list') := List_Add tx (PriceBump (config p)) list in
  let p1 := with_pending (insert addr list') p in
  if negb inserted then forget hash p1
  else
    let p2 := match old with Some o => forget (Tx_Hash o) p1 | None => p1 end in
    let p3 := if found (all p2 !! hash) then p2 else know hash tx p2 in
    let p4 := with_beats (insert addr now) p3 in
    announce tx (with_nonces (fun ms => ms_SetNonce ms addr (u64 (Tx_Nonce tx + 1))) p4).

Fixpoint promote_all (now : Z) (addr : Address) (txs : Transactions) (p : TxPool) : outcome TxPool :=
  match txs with
  | [] => Ret p
  | Some tx :: rest => promote_all now addr rest (promoteTx now addr (Tx_Hash tx) tx p)
  | None :: _ => Panic
  end.

(** The virtual nonce of the account falls back to a removed transaction. *)
Definition lower_nonce (addr : Address) (nonce : Z) (p : TxPool) : TxPool :=
  if ms_GetNonce (pendingState p) addr >? nonce then with_nonces (fun ms => ms_SetNonce ms addr nonce) p else p.

Definition removeTx (hash : Hash) (p : TxPool) : outcome TxPool :=
  match all p !! hash with
  | None => Ret p
  | Some tx =>
      let addr := sender_of tx in
      let p1 := forget hash p in
      let in_queue (p1 : TxPool) : outcome TxPool :=
        match queue p1 !! addr with
        | None => Ret p1
        | Some future =>
            r ← List_Remove tx future;
            Ret (if Empty (snd r) then with_queue (delete addr) p1 else with_queue (insert addr (snd r)) p1)
        end in
      match pending p1 !! addr with
      | None => in_queue p1
      | Some list =>
          r ← List_Remove tx list;
          let p2 := with_pending (insert addr (snd r)) p1 in
          if (fst (fst r) : bool) then
            let p3 := if Empty (snd r) then with_beats (delete addr) (with_pending (delete addr) p2)
                      else enqueue_all (snd (fst r)) p2 in
            Ret (lower_nonce addr (Tx_Nonce tx) p3)
          else in_queue p2
      end
  end.

Fixpoint remove_all (txs : list Transaction) (p : TxPool) : outcome TxPool :=
  match txs with
  | [] => Ret p
  | tx :: rest => p' ← removeTx (Tx_Hash tx) p; remove_all rest p'
  end.

(** ** Adding *)

(** A full pool refuses a transaction no better than its cheapest remote one, or
    drops its cheapest ones. *)
Definition make_room (tx : Transaction) : pool_call unit :=
  p <-! the_state;;
  let slots := u64 (GlobalSlots (config p) + GlobalQueue (config p)) in
  if u64 (Z.of_nat (size (all p))) >=? slots then
    r <-! deref (Underpriced tx (locals p) (all p) (priced p));;
    _ <-! update (with_index (all p) (snd r));;
    if (fst r : bool) then errs ErrUnderpriced
    else
      d <-! deref (Discard (i64 (Z.of_nat (size (all p)) - i64 (u64 (slots - 1)))) (locals p) (all p) (snd r));;
      _ <-! update (with_index (all p) (snd d));;
      p1 <-! the_state;;
      p2 <-! deref (remove_all (fst d) p1);;
      update (fun _ => p2)
  else returns tt.

(** A transaction whose nonce is pending replaces the pending one. *)
Definition replace_pending (tx : Transaction) (list : txList) : pool_call bool :=
  p <-! the_state;;
  let from := sender_of tx in
  let '((inserted, old), list') := List_Add tx (PriceBump (config p)) list in
  let p1 := with_pending (insert from list') p in
  if negb inserted then errs ErrReplaceUnderpriced
  else
    let p2 := match old with Some o => forget (Tx_Hash o) p1 | None => p1 end in
    _ <-! update (fun _ => announce tx (journalTx from tx (know (Tx_Hash tx) tx p2)));;
    returns (found old).

Definition add_queued (tx : Transaction) (local : bool) : pool_call bool :=
  p <-! the_state;;
  let from := sender_of tx in
  match enqueueTx (Tx_Hash tx) tx p with
  | (inr e, p1) => _ <-! update (fun _ => p1);; errs e
  | (inl replace, p1) =>
      _ <-! update (fun _ => journalTx from tx (if local then with_local from p1 else p1));;
      returns replace
  end.

Definition add (classicEnabled : bool) (tx : Transaction) (local : bool) : pool_call bool :=
  p <-! the_state;;
  if found (all p !! Tx_Hash tx) then errs errKnownTransaction
  else
    match validateTx classicEnabled tx local p with
    | inr e => errs e
    | inl _ =>
        _ <-! make_room tx;;
        p <-! the_state;;
        match pending p !! sender_of tx with
        | Some list => if Overlaps tx list then replace_pending tx list else add_queued tx local
        | None => add_queued tx local
        end
    end.

(** ** Promotion *)

(** The queue of one account: transactions that became old or too expensive are
    dropped, the executable ones promoted, those over the limit dropped. *)
Definition promote_account (now : Z) (addr : Address) (p : TxPool) : outcome TxPool :=
  match queue p !! addr with
  | None => Ret p
  | Some list =>
      r1 ← List_Forward (GetNonce (currentState p) addr) list;
      p1 ← forget_all (fst r1) (with_queue (insert addr (snd r1)) p);
      let '((drops, _), list2) := List_Filter (GetBalance (currentState p) addr) (currentMaxGas p) (snd r1) in
      p2 ← forget_all (Some <$> drops) (with_queue (insert addr list2) p1);
      r3 ← List_Ready (ms_GetNonce (pendingState p2) addr) list2;
      p3 ← promote_all now addr (fst r3) (with_queue (insert addr (snd r3)) p2);
      r4 ← (if contains (locals p3) addr then Ret ([], snd r3) else List_Cap (i64 (AccountQueue (config p3))) (snd r3));
      p4 ← forget_all (fst r4) (with_queue (insert addr (snd r4)) p3);
      Ret (if Empty (snd r4) then with_queue (delete addr) p4 else p4)
  end.

Fixpoint promote_accounts (now : Z) (accounts : list Address) (p : TxPool) : outcome TxPool :=
  match accounts with
  | [] => Ret p
  | addr :: rest => p' ← promote_account now addr p; promote_accounts now rest p'
  end.

(** The number of transactions in the lists. *)
Definition count (lists : gmap Address txList) : Z :=
  foldr (fun e acc => List_Len e.2 + acc) 0 (range lists).

(** [pool.pending[addr].Len()], which panics when there is no list. *)
Definition pending_len (addr : Address) (p : TxPool) : outcome Z :=
  match pending p !! addr with Some l => Ret (List_Len l) | None => Panic end.

(** The loop over what the cap gave up. *)
Fixpoint drop_each (addr : Address) (txs : Transactions) (p : TxPool) : outcome TxPool :=
  match txs with
  | [] => Ret p
  | Some tx :: rest => drop_each addr rest (lower_nonce addr (Tx_Nonce tx) (forget (Tx_Hash tx) p))
  | None :: _ => Panic
  end.

(** The last transaction of an offender is dropped. *)
Definition drop_last (addr : Address) (p : TxPool) : outcome TxPool :=
  match pending p !! addr with
  | None => Panic
  | Some list =>
      r ← List_Cap (List_Len list - 1) list;
      drop_each addr (fst r) (with_pending (insert addr (snd r)) p)
  end.

Fixpoint drop_lasts (addrs : list Address) (p : TxPool) : outcome TxPool :=
  match addrs with
  | [] => Ret p
  | addr :: rest => p' ← drop_last addr p; drop_lasts rest p'
  end.

(** Drop from the accounts until there are few enough transactions or the given
    account has no more than [floor]. *)
Fixpoint reduce (fuel : nat) (addrs : list Address) (reference : Address) (floor : Z) (n : Z) (p : TxPool)
    : outcome (Z * TxPool) :=
  if n >? GlobalSlots (config p) then
    len ← pending_len reference p;
    if len >? floor then
      match fuel with
      | O => OutOfFuel
      | S f => p' ← drop_lasts addrs p; reduce f addrs reference floor (u64 (n - Z.of_nat (length addrs))) p'
      end
    else Ret (n, p)
  else Ret (n, p).

(** The largest accounts one after the other: the ones before are reduced to the
    size of the next. *)
Fixpoint equalize (spammers : list Address) (offenders : list Address) (n : Z) (p : TxPool)
    : outcome (list Address * Z * TxPool) :=
  match spammers with
  | [] => Ret (offenders, n, p)
  | offender :: rest =>
      if n >? GlobalSlots (config p) then
        match last offenders with
        | None => equalize rest [offender] n p
        | Some previous =>
            threshold ← pending_len offender p;
            r ← reduce (Z.to_nat n) offenders previous threshold n p;
            equalize rest (offenders ++ [offender]) (fst r) (snd r)
        end
      else Ret (offenders, n, p)
  end.

(** The accounts above their slots come by decreasing priority, the [float32] of the
    length. *)
Definition limit_pending (p : TxPool) : outcome TxPool :=
  let n := count (pending p) in
  if n >? GlobalSlots (config p) then
    let big := filter (fun e => contains (locals p) e.1 = false /\ AccountSlots (config p) < List_Len e.2) (range (pending p)) in
    r ← equalize (prque_order ((fun e => (e.1, float32 (List_Len e.2))) <$> big)) [] n p;
    let '(offenders, n1, p1) := r in
    match last offenders with
    | None => Ret p1
    | Some reference =>
        r ← reduce (Z.to_nat n1) offenders reference (AccountSlots (config p1)) n1 p1;
        Ret (snd r)
    end
  else Ret p.

(** The queue over its limit: whole accounts are dropped, from the last of the
    order of heartbeats, then the last transactions of one. *)
Fixpoint drop_queued (addresses : list (Address * Z)) (drop : Z) (p : TxPool) : outcome TxPool :=
  match addresses with
  | [] => Ret p
  | (addr, _) :: rest =>
      if drop >? 0 then
        match queue p !! addr with
        | None => Panic
        | Some list =>
            let r := List_Flatten list in
            let p1 := with_queue (insert addr (snd r)) p in
            if List_Len list <=? drop then
              p2 ← remove_all (fst r) p1; drop_queued rest (drop - List_Len list) p2
            else remove_all (take (Z.to_nat drop) (rev (fst r))) p1
        end
      else Ret p
  end.

Definition limit_queue (p : TxPool) : outcome TxPool :=
  let queued := count (queue p) in
  if queued >? GlobalQueue (config p) then
    let addresses := (fun e => (e.1, default 0 (beats p !! e.1))) <$>
                     filter (fun e => contains (locals p) e.1 = false) (range (queue p)) in
    drop_queued (rev (sort_beats addresses)) (queued - GlobalQueue (config p)) p
  else Ret p.

Definition promoteExecutables (now : Z) (accounts : option (list Address)) (p : TxPool) : outcome TxPool :=
  p1 ← promote_accounts now (match accounts with Some l => l | None => (range (queue p)).*1 end) p;
  p2 ← limit_pending p1;
  limit_queue p2.

Definition addTx (classicEnabled : bool) (now : Z) (tx : Transaction) (local : bool) : pool_call unit :=
  match Tx_Sender tx with
  | Err => errs ErrInvalidSender
  | Ok from =>
      replace <-! add classicEnabled tx local;;
      if (replace : bool) then returns tt
      else
        p <-! the_state;;
        p' <-! deref (promoteExecutables now (Some [from]) p);;
        update (fun _ => p')
  end.

Definition AddLocal (classicEnabled : bool) (now : Z) (tx : Transaction) : pool_call unit :=
  p <-! the_state;; addTx classicEnabled now tx (negb (NoLocals (config p))).

Definition AddRemote (classicEnabled : bool) (now : Z) (tx : Transaction) : pool_call unit :=
  addTx classicEnabled now tx false.

(** The senders of the transactions that were added and replaced nothing. *)
Fixpoint add_each (classicEnabled : bool) (txs : list Transaction) (local : bool) (dirty : gmap Address unit) (p : TxPool)
    : outcome (gmap Address unit * TxPool) :=
  match txs with
  | [] => Ret (dirty, p)
  | tx :: rest =>
      match add classicEnabled tx local p with
      | Ret (inl replace, p') =>
          add_each classicEnabled rest local (if (replace : bool) then dirty else <[sender_of tx := tt]> dirty) p'
      | Ret (inr _, p') => add_each classicEnabled rest local dirty p'
      | Panic => Panic
      | OutOfFuel => OutOfFuel
      end
  end.

Definition addTxsLocked (classicEnabled : bool) (now : Z) (txs : list Transaction) (local : bool) (p : TxPool)
    : outcome TxPool :=
  r ← add_each classicEnabled txs local ∅ p;
  if Nat.ltb 0 (size (fst r)) then promoteExecutables now (Some (range (fst r)).*1) (snd r) else Ret (snd r).

Definition AddLocals (classicEnabled : bool) (now : Z) (txs : list Transaction) (p : TxPool) : outcome TxPool :=
  addTxsLocked classicEnabled now txs (negb (NoLocals (config p))) p.

Definition AddRemotes (classicEnabled : bool) (now : Z) (txs : list Transaction) (p : TxPool) : outcome TxPool :=
  addTxsLocked classicEnabled now txs false p.

(** ** Following the chain *)

(** The transactions behind pointers. *)
Fixpoint pointees (txs : Transactions) : outcome (list Transaction) :=
  match txs with
  | [] => Ret []
  | Some tx :: rest => l ← pointees rest; Ret (tx :: l)
  | None :: _ => Panic
  end.

(** One account's pending list on a new state. *)
Definition demote_account (addr : Address) (p : TxPool) : outcome TxPool :=
  match pending p !! addr with
  | None => Ret p
  | Some list =>
      let nonce := GetNonce (currentState p) addr in
      r1 ← List_Forward nonce list;
      p1 ← forget_all (fst r1) (with_pending (insert addr (snd r1)) p);
      let '((drops, invalids), list2) := List_Filter (GetBalance (currentState p) addr) (currentMaxGas p) (snd r1) in
      p2 ← forget_all (Some <$> drops) (with_pending (insert addr list2) p1);
      let p3 := enqueue_all invalids p2 in
      r4 ← (if (List_Len list2 >? 0) && negb (found (Get nonce (txs list2))) then List_Cap 0 list2 else Ret ([], list2));
      gapped ← pointees (fst r4);
      let p4 := enqueue_all gapped (with_pending (insert addr (snd r4)) p3) in
      Ret (if Empty (snd r4) then with_beats (delete addr) (with_pending (delete addr) p4) else p4)
  end.

Fixpoint demote_accounts (accounts : list Address) (p : TxPool) : outcome TxPool :=
  match accounts with
  | [] => Ret p
  | addr :: rest => p' ← demote_account addr p; demote_accounts rest p'
  end.

Definition demoteUnexecutables (p : TxPool) : outcome TxPool := demote_accounts (range (pending p)).*1 p.

(** The virtual nonce of each account after its last pending transaction. *)
Fixpoint set_nonces (accounts : list Address) (p : TxPool) : outcome TxPool :=
  match accounts with
  | [] => Ret p
  | addr :: rest =>
      match pending p !! addr with
      | None => Panic
      | Some list =>
          let r := List_Flatten list in
          match last (fst r) with
          | None => Panic
          | Some tx =>
              set_nonces rest (with_nonces (fun ms => ms_SetNonce ms addr (u64 (Tx_Nonce tx + 1)))
                                (with_pending (insert addr (snd r)) p))
          end
      end
  end.

(** The blocks of the old and of the new chain, for a reorganization. *)
Record PoolBlock := mkPoolBlock {
  pb_Hash : Hash;
  pb_ParentHash : Hash;
  pb_Number : Z;
  pb_Transactions : list Transaction
}.

Section reorg.
Context (GetBlock : Hash -> Z -> option PoolBlock).

Definition parent_block (b : PoolBlock) : option PoolBlock := GetBlock (pb_ParentHash b) (u64 (pb_Number b - 1)).

(** Go back from a block to the number [target]; [None] at the end of the chain. *)
Fixpoint go_back (fuel : nat) (b : PoolBlock) (target : Z) (txs : list Transaction)
    : outcome (option (PoolBlock * list Transaction)) :=
  if pb_Number b >? target then
    match fuel with
    | O => OutOfFuel
    | S f =>
        match parent_block b with
        | None => Ret None
        | Some b' => go_back f b' target (txs ++ pb_Transactions b)
        end
    end
  else Ret (Some (b, txs)).

(** Go back on both chains to the common block. *)
Fixpoint go_back_both (fuel : nat) (rem add : PoolBlock) (discarded included : list Transaction)
    : outcome (option (list Transaction * list Transaction)) :=
  if pb_Hash rem =? pb_Hash add then Ret (Some (discarded, included))
  else
    match fuel with
    | O => OutOfFuel
    | S f =>
        match parent_block rem with
        | None => Ret None
        | Some rem' =>
            match parent_block add with
            | None => Ret None
            | Some add' =>
                go_back_both f rem' add' (discarded ++ pb_Transactions rem) (included ++ pb_Transactions add)
            end
        end
    end.

(** How deep a reorganization is, in [float64]. *)
Definition depth (oldNumber newNumber : Z) : Z := float64 (Z.abs (float64 oldNumber - float64 newNumber)).

(** The transactions of the old chain that the new one does not have; none when
    the reorganization is deep, [None] when a chain is cut short. *)
Definition reinjected (fuel : nat) (oldHash oldNumber newHash newNumber : Z) : outcome (option (list Transaction)) :=
  if depth oldNumber newNumber >? 64 then Ret (Some [])
  else
    match GetBlock oldHash oldNumber, GetBlock newHash newNumber with
    | Some rem, Some add =>
        r1 ← go_back fuel rem (pb_Number add) [];
        match r1 with
        | None => Ret None
        | Some (rem1, discarded) =>
            r2 ← go_back fuel add (pb_Number rem1) [];
            match r2 with
            | None => Ret None
            | Some (add1, included) =>
                r3 ← go_back_both fuel rem1 add1 discarded included;
                match r3 with
                | None => Ret None
                | Some (d, i) => Ret (Some (TxDifference d i))
                end
            end
        end
    | _, _ => Panic
    end.

End reorg.

(** The pending transactions on a new head: those that cannot be executed leave, and
    the virtual nonces follow. *)
Definition revalidate (now : Z) (p : TxPool) : outcome TxPool :=
  p2 ← demoteUnexecutables p;
  p3 ← set_nonces (range (pending p2)).*1 p2;
  promoteExecutables now None p3.

(** The part of [reset] after the transactions of a reorganized chain are known. *)
Definition reset_to (classicEnabled : bool) (now : Z) (reinject : list Transaction) (db : StateDB) (maxGas : Z) (p : TxPool)
    : outcome TxPool :=
  p1 ← addTxsLocked classicEnabled now reinject false (with_head db maxGas p);
  revalidate now p1.

(** A head of the chain: its block, its state, if that can be opened, and its gas
    limit. *)
Record Head := mkHead {
  hd_Hash : Hash;
  hd_ParentHash : Hash;
  hd_Number : Z;
  hd_State : result StateDB;
  hd_GasLimit : Z
}.

(** The transactions to inject again when the head moves from a block, given by
    hash and number. *)
Definition reinject (fuel : nat) (GetBlock : Hash -> Z -> option PoolBlock) (old : option (Hash * Z)) (head : Head)
    : outcome (option (list Transaction)) :=
  match old with
  | Some (oldHash, oldNumber) =>
      if oldHash =? hd_ParentHash head then Ret (Some [])
      else reinjected GetBlock fuel oldHash oldNumber (hd_Hash head) (hd_Number head)
  | None => Ret (Some [])
  end.

Definition reset (classicEnabled : bool) (now : Z) (fuel : nat) (GetBlock : Hash -> Z -> option PoolBlock)
    (old : option (Hash * Z)) (head : Head) (p : TxPool) : outcome TxPool :=
  r ← reinject fuel GetBlock old head;
  match r, hd_State head with
  | Some txs, Ok db => reset_to classicEnabled now txs db (hd_GasLimit head) p
  | _, _ => Ret p
  end.

Definition with_pangu (b : bool) (p : TxPool) : TxPool :=
  mkTxPool (config p) (gasPrice p) (currentState p) (pendingState p) (currentMaxGas p) (locals p) (pending p) (queue p)
    (beats p) (all p) (priced p) (pangu p || b) (journal p) (announced p).

(** A new head in [loop]; [isPangu] is whether the fork is active at its number. *)
Definition head_event (classicEnabled isPangu : bool) (now : Z) (fuel : nat) (GetBlock : Hash -> Z -> option PoolBlock)
    (old : Hash * Z) (head : Head) (p : TxPool) : outcome TxPool :=
  reset classicEnabled now fuel GetBlock (Some old) head (with_pangu isPangu p).

(** ** Limits and queries *)
Definition SetGasPrice (price : Z) (p : TxPool) : outcome TxPool :=
  let p1 := with_price price p in
  r ← Priced_Cap price (locals p1) (all p1) (priced p1);
  remove_all (fst r) (with_index (all p1) (snd r) p1).

(** The eviction tick of [loop]: the queues of remote accounts without a recent
    heartbeat are dropped. *)
Fixpoint evict (now : Z) (accounts : list Address) (p : TxPool) : outcome TxPool :=
  match accounts with
  | [] => Ret p
  | addr :: rest =>
      if contains (locals p) addr then evict now rest p
      else
        match queue p !! addr with
        | None => evict now rest p
        | Some list =>
            if now - default 0 (beats p !! addr) >? Lifetime (config p) then
              let r := List_Flatten list in
              p' ← remove_all (fst r) (with_queue (insert addr (snd r)) p); evict now rest p'
            else evict now rest p
        end
  end.

Definition evict_tick (now : Z) (p : TxPool) : outcome TxPool := evict now (range (queue p)).*1 p.

Definition stats (p : TxPool) : Z * Z := (count (pending p), count (queue p)).

(** The transactions of each account, sorted; flattening caches the order. *)
Definition flatten_lists (lists : gmap Address txList) : gmap Address (list Transaction) :=
  (fun l => fst (List_Flatten l)) <$> lists.

Definition cache_lists (lists : gmap Address txList) : gmap Address txList := (fun l => snd (List_Flatten l)) <$> lists.

Definition Content (p : TxPool) : gmap Address (list Transaction) * gmap Address (list Transaction) * TxPool :=
  (flatten_lists (pending p), flatten_lists (queue p), with_queue cache_lists (with_pending cache_lists p)).

Definition Pending (p : TxPool) : gmap Address (list Transaction) * TxPool :=
  (flatten_lists (pending p), with_pending cache_lists p).

(** ** The journal *)

(** The local transactions: those of each local account, pending then queued;
    flattening caches the order. *)
Definition local_of (p : TxPool) (addr : Address) : list Transaction :=
  (match pending p !! addr with Some l => fst (List_Flatten l) | None => [] end) ++
  (match queue p !! addr with Some l => fst (List_Flatten l) | None => [] end).

Definition flatten_local (accounts : gset Address) (lists : gmap Address txList) : gmap Address txList :=
  map_imap (fun addr l => Some (if contains accounts addr then snd (List_Flatten l) else l)) lists.

Definition local (accounts : list Address) (p : TxPool) : list (Address * list Transaction) * TxPool :=
  (filter (fun e => found (pending p !! e.1) || found (queue p !! e.1) = true) ((fun addr => (addr, local_of p addr)) <$> accounts),
   with_queue (flatten_local (locals p)) (with_pending (flatten_local (locals p)) p)).

(** How far [rotate] gets: closing the file fails, writing the new one fails,
    reopening it fails, or none of these. *)
Inductive RotateIO := CloseFails | WriteFails | ReopenFails | Rotates.

Definition rotate (io : RotateIO) (all : list (Address * list Transaction)) (j : txJournal) : txJournal :=
  match io with
  | CloseFails => j
  | WriteFails => mkTxJournal (disk j) false
  | ReopenFails => mkTxJournal (Some (all ≫= snd)) false
  | Rotates => mkTxJournal (Some (all ≫= snd)) true
  end.

(** The journal tick of [loop]; [accounts] are the local accounts in the order of
    the iteration. *)
Definition journal_tick (io : RotateIO) (accounts : list Address) (p : TxPool) : TxPool :=
  match journal p with
  | None => p
  | Some j => let r := local accounts p in with_journal (Some (rotate io (fst r) j)) (snd r)
  end.

(** [load] with [AddLocal], whose errors are only counted. *)
Fixpoint load (classicEnabled : bool) (now : Z) (txs : list Transaction) (p : TxPool) : outcome TxPool :=
  match txs with
  | [] => Ret p
  | tx :: rest =>
      match AddLocal classicEnabled now tx p with
      | Ret (_, p') => load classicEnabled now rest p'
      | Panic => Panic
      | OutOfFuel => OutOfFuel
      end
  end.

(** ** Starting *)

(** A pool whose first head had no state that could be opened: its state, its virtual
    nonces and its gas limit are nil pointers, and nothing is in it. *)
Record Stateless := mkStateless {
  sl_config : TxPoolConfig;
  sl_gasPrice : Z;
  sl_pangu : bool;
  sl_journal : option txJournal
}.

Definition sl_with_price (price : Z) (s : Stateless) : Stateless := mkStateless (sl_config s) price (sl_pangu s) (sl_journal s).
Definition sl_with_pangu (b : bool) (s : Stateless) : Stateless := mkStateless (sl_config s) (sl_gasPrice s) (sl_pangu s || b) (sl_journal s).
Definition sl_with_journal (j : option txJournal) (s : Stateless) : Stateless := mkStateless (sl_config s) (sl_gasPrice s) (sl_pangu s) j.

(** Such a pool with the state of a head. *)
Definition empty_pool (s : Stateless) (db : StateDB) : TxPool :=
  mkTxPool (sl_config s) (sl_gasPrice s) db (ManageState db) 0 ∅ ∅ ∅ ∅ ∅ newTxPricedList (sl_pangu s) (sl_journal s) [].

(** [add] without a state: a transaction is refused by the first rules, or the nil gas
    limit is dereferenced. *)
Definition sl_add (classicEnabled : bool) (tx : Transaction) : outcome PoolError :=
  match validate_basic classicEnabled tx with Some e => Ret e | None => Panic end.

Definition sl_addTx (classicEnabled : bool) (tx : Transaction) : outcome PoolError :=
  match Tx_Sender tx with Err => Ret ErrInvalidSender | Ok _ => sl_add classicEnabled tx end.

Fixpoint sl_each (add1 : Transaction -> outcome PoolError) (txs : list Transaction) : outcome unit :=
  match txs with
  | [] => Ret tt
  | tx :: rest => _ ← add1 tx; sl_each add1 rest
  end.

Definition sl_journal_tick (io : RotateIO) (s : Stateless) : Stateless := sl_with_journal (rotate io [] <$> sl_journal s) s.

(** [reset] without a state so far; with a state that opens the pool has one. *)
Definition sl_reset (classicEnabled : bool) (now : Z) (fuel : nat) (GetBlock : Hash -> Z -> option PoolBlock)
    (old : option (Hash * Z)) (head : Head) (s : Stateless) : outcome (Stateless + TxPool) :=
  r ← reinject fuel GetBlock old head;
  match r, hd_State head with
  | Some txs, Ok db => p ← reset_to classicEnabled now txs db (hd_GasLimit head) (empty_pool s db); Ret (inr p)
  | _, _ => Ret (inl s)
  end.

(** The journal of a new pool is loaded and rotated. *)
Definition load_journal (classicEnabled : bool) (now : Z) (d : option (list Transaction)) (io : RotateIO) (order : gset Address -> list Address)
    (x : Stateless + TxPool) : outcome (Stateless + TxPool) :=
  match x with
  | inl s =>
      _ ← sl_each (sl_addTx classicEnabled) (default [] d);
      Ret (inl (sl_journal_tick io (sl_with_journal (Some (mkTxJournal d false)) s)))
  | inr p =>
      p1 ← load classicEnabled now (default [] d) (with_journal (Some (mkTxJournal d false)) p);
      Ret (inr (journal_tick io (order (locals p1)) p1))
  end.

(** [file] is the journal file when one is configured, with the transactions that
    can be read from it.  The loop is started with the pool returned. *)
Definition NewTxPool (classicEnabled : bool) (now : Z) (conf : TxPoolConfig) (GetBlock : Hash -> Z -> option PoolBlock) (head : Head)
    (file : option (option (list Transaction))) (io : RotateIO) (order : gset Address -> list Address) : outcome (Stateless + TxPool) :=
  let c := sanitize conf in
  x ← sl_reset classicEnabled now 0 GetBlock None head (mkStateless c (PriceLimit c) false None);
  match file with
  | Some d => if NoLocals c then Ret x else load_journal classicEnabled now d io order x
  | None => Ret x
  end.

Definition pool_Get (hash : Hash) (p : TxPool) : option Transaction := all p !! hash.

End pool.
