(* ===== verification/TxPoolInv.v ===== *)
(** * The invariant of the transaction pool

    What the operations on the list of one account take out of it; the
    transactions of the pool by account and nonce; and the invariant that ties the
    lists, the transactions by hash and the price heap together, with the steps
    that keep it. *)
From S2P Require Import Prelude GoMonad Heap TxList TxListProps TxPricedProps StateTransition TxPool.
Local Open Scope Z_scope.

Section lists.
Context `{TxLib} `{!MapOrder Z Transaction}.

Definition lmap (l : txList) : gmap Z Transaction := items (txs l).

Definition lok (l : txList) : Prop := list_ok l (lmap l).

Lemma list_ok_lok l m : list_ok l m -> lok l /\ lmap l = m.
Proof. intros Hl. assert (lmap l = m) as E by apply (ok_rep _ _ Hl). split; [|done]. unfold lok. by rewrite E. Qed.

Lemma lok_nonce l n tx : lok l -> lmap l !! n = Some tx -> Tx_Nonce tx = n.
Proof. intros [Hr _]. apply Hr. Qed.

Lemma newTxList_lok b : lok (newTxList b).
Proof. apply newTxList_ok. Qed.

(** [takes l out l']: the transactions [out] were taken out of the list [l], and
    [l'] has the others. *)
Record takes (l : txList) (out : list Transaction) (l' : txList) : Prop := {
  tk_ok : lok l';
  tk_strict : strict l' = strict l;
  tk_nodup : NoDup out;
  tk_out : forall tx, tx ∈ out -> lmap l !! Tx_Nonce tx = Some tx /\ lmap l' !! Tx_Nonce tx = None;
  tk_rest : forall n tx, lmap l !! n = Some tx -> tx ∈ out \/ lmap l' !! n = Some tx;
  tk_sub : forall n tx, lmap l' !! n = Some tx -> lmap l !! n = Some tx
}.

Lemma takes_refl l : lok l -> takes l [] l.
Proof. intros Hl. split; try done; [constructor|by intros tx ?%elem_of_nil|by right]. Qed.

(** Taking out the contents of the keys that are gone. *)
Lemma takes_contents l m r m' ks : list_ok l m -> represents r m' -> NoDup ks ->
  (forall n, m' !! n = if decide (n ∈ ks) then None else m !! n) ->
  exists out, contents m (filter (fun n => is_Some (m !! n)) ks) = Some <$> out /\ takes l out (with_txs r l).
Proof.
  intros Hl Hr Hks Hm'. destruct (list_ok_lok _ _ Hl) as [Hlok Em].
  assert (Hl' : list_ok (with_txs r l) m').
  { apply (list_ok_sub _ _ _ _ Hl Hr). intros n tx. rewrite Hm'. by case_decide. }
  destruct (list_ok_lok _ _ Hl') as [Hlok' Em'].
  assert (Hn : forall n tx, m !! n = Some tx -> Tx_Nonce tx = n) by apply Hl.
  exists (omap (fun n => m !! n) ks). split.
  { clear -Hks. induction ks as [|k ks IH]; [done|]. apply NoDup_cons in Hks as [_ Hks].
    specialize (IH Hks). rewrite filter_cons. cbn [omap list_omap]. destruct (m !! k) as [tx|] eqn:E.
    - rewrite decide_True by by eexists. unfold contents in *. rewrite fmap_cons, E, IH. done.
    - rewrite decide_False by (by intros []). done. }
  assert (Hin : forall tx, tx ∈ omap (fun n => m !! n) ks <-> Tx_Nonce tx ∈ ks /\ m !! Tx_Nonce tx = Some tx).
  { intros tx. rewrite list_elem_of_omap. split; [|naive_solver]. intros (n & Hk & Hm). by rewrite (Hn _ _ Hm). }
  split; try done; rewrite ?Em, ?Em'.
  - clear -Hks Hn. induction Hks as [|k ks Hk Hks IH]; [constructor|]. cbn. destruct (m !! k) as [tx|] eqn:E; [|done].
    constructor; [|done]. intros (n & Hk' & Hm)%list_elem_of_omap. apply Hk.
    by rewrite <- (Hn _ _ E), (Hn _ _ Hm).
  - intros tx [Hk Hm]%Hin. split; [done|]. by rewrite Hm', decide_True.
  - intros n tx Hm. rewrite Hm'. case_decide; [|by right]. left. apply Hin. by rewrite (Hn _ _ Hm).
  - intros n tx. rewrite Hm'. by case_decide.
Qed.

(** The same when every key has a transaction. *)
Lemma takes_keys l m r m' ks : list_ok l m -> represents r m' -> NoDup ks ->
  (forall n, n ∈ ks -> is_Some (m !! n)) ->
  (forall n, m' !! n = if decide (n ∈ ks) then None else m !! n) ->
  exists out, contents m ks = Some <$> out /\ takes l out (with_txs r l).
Proof.
  intros Hl Hr Hks Hall Hm'. destruct (takes_contents l m r m' ks Hl Hr Hks Hm') as (out & E & Ht).
  rewrite filter_every in E by done. by exists out.
Qed.

Lemma List_Forward_takes t l : lok l ->
  exists out l', List_Forward t l = Ret (Some <$> out, l') /\ takes l out l'.
Proof.
  intros Hl. destruct (Forward_refines t _ _ (ok_rep _ _ Hl)) as (r & E & Hr). unfold List_Forward. rewrite E.
  cbn [mbind outcome_bind fst snd].
  destruct (takes_keys l _ r _ (filter (fun k => k < t) (keys (lmap l))) Hl Hr) as (out & -> & Ht).
  - apply NoDup_filter, NoDup_keys.
  - intros n [_ Hn%elem_of_keys]%list_elem_of_filter. done.
  - intros n. case_decide as Hn; rewrite list_elem_of_filter, elem_of_keys in Hn.
    + apply map_lookup_filter_None. right. intros x _. cbn. lia.
    + destruct (lmap l !! n) as [v|] eqn:Ev; [|apply map_lookup_filter_None; by left].
      apply map_lookup_filter_Some. split; [done|]. cbn. destruct (Z.le_gt_cases t n); [done|]. exfalso. apply Hn. by split.
  - eauto.
Qed.

Lemma List_Cap_takes t l : 0 <= t -> lok l ->
  exists out l', List_Cap t l = Ret (Some <$> out, l') /\ takes l out l' /\ List_Len l' = Z.min t (List_Len l).
Proof.
  intros Ht0 Hl. destruct (Cap_refines t _ _ Ht0 (ok_rep _ _ Hl)) as (r & E & Hr). unfold List_Cap. rewrite E.
  cbn [mbind outcome_bind fst snd].
  pose proof (NoDup_keys (lmap l)) as Hnd. rewrite <- (take_drop (Z.to_nat t) (keys (lmap l))) in Hnd.
  apply NoDup_app in Hnd as (_ & Hd & Hnd).
  assert (Hin : forall n, is_Some (lmap l !! n) <-> n ∈ take (Z.to_nat t) (keys (lmap l)) \/ n ∈ drop (Z.to_nat t) (keys (lmap l))).
  { intros n. by rewrite <- elem_of_app, take_drop, elem_of_keys. }
  destruct (takes_keys l _ r _ (reverse (drop (Z.to_nat t) (keys (lmap l)))) Hl Hr) as (out & -> & Ht).
  - by rewrite reverse_Permutation.
  - intros n. rewrite reverse_Permutation, Hin. by right.
  - intros n. rewrite among_lookup. case_decide as H1; case_decide as H2; try done; rewrite reverse_Permutation in H2;
      [by apply Hd in H2|].
    destruct (lmap l !! n) eqn:Ev; [|done]. exfalso.
    destruct (Hin n) as [Hx _]. rewrite Ev in Hx. by destruct Hx as [?|?]; [eexists| |].
  - exists out, (with_txs r l). split; [done|]. split; [done|]. unfold List_Len, Len. cbn.
    rewrite (rep_items _ _ Hr), <- length_keys, keys_among_take, length_take, <- length_keys. fold (lmap l). lia.
Qed.

Lemma List_Ready_takes start l : lok l ->
  exists out l', List_Ready start l = Ret (Some <$> out, l') /\ takes l out l'.
Proof.
  intros Hl. destruct (Ready_refines start _ _ (ok_rep _ _ Hl)) as (txs & r & m' & E & Hs & Hr). unfold List_Ready. rewrite E.
  cbn [mbind outcome_bind fst snd]. inversion Hs as [| | | | | |? ? Hno|? ? first ks len Hk Hfirst Hlen Hall Hnone| |]; subst.
  - exists [], (with_txs r l). split; [done|]. destruct (takes_keys l _ r _ [] Hl Hr) as (out & Eo & Ht); try done.
    + constructor.
    + by intros n ?%elem_of_nil.
    + by destruct out.
  - destruct (keys_first _ _ _ Hk) as (_ & Hmin & _).
    destruct (takes_keys l _ r _ (seqZ first len) Hl Hr) as (out & -> & Ht); [apply NoDup_seqZ| | |by eauto].
    + intros n Hn%elem_of_seqZ. by apply Hall.
    + intros n. case_decide as Hn; rewrite elem_of_seqZ in Hn.
      * apply map_lookup_filter_None. right. intros x _. cbn. lia.
      * destruct (lmap l !! n) as [v|] eqn:Ev; [|apply map_lookup_filter_None; by left].
        apply map_lookup_filter_Some. split; [done|]. cbn. assert (first <= n) by (apply Hmin; by eexists). lia.
Qed.

Lemma takes_trans l out l1 out' l2 : takes l out l1 -> takes l1 out' l2 -> takes l (out ++ out') l2.
Proof.
  intros [Ho Hs Hn Hout Hr Hsub] [Ho' Hs' Hn' Hout' Hr' Hsub']. split; [done|congruence| | | |by auto].
  - apply NoDup_app. split; [done|]. split; [|done]. intros tx [_ H1]%Hout [H2 _]%Hout'. congruence.
  - intros tx [[H1 H2]%Hout|[H1 H2]%Hout']%elem_of_app; (split; [by eauto|]); [|done].
    destruct (lmap l2 !! Tx_Nonce tx) as [t|] eqn:E; [|done]. apply Hsub' in E. congruence.
  - intros n tx [?|[?|?]%Hr']%Hr; rewrite elem_of_app; auto.
Qed.

#[local] Instance orphan_dec c g l m n : Decision (orphan c g l m n).
Proof.
  refine (cast_if (decide (strict l = true /\ map_Exists (fun n' tx' => unaffordable c g tx' = true /\ n' < n) m)));
    unfold orphan, map_Exists in *; naive_solver.
Defined.

Lemma List_Filter_takes c g l : lok l ->
  exists drops invalids l', List_Filter c g l = ((drops, invalids), l') /\ takes l (drops ++ invalids) l' /\
    (strict l = false -> invalids = []).
Proof.
  intros Hl. destruct (List_Filter_spec c g l _ Hl) as (d & i & l' & m' & E & Hl' & Hnd & Hd & Hi & Hm').
  exists d, i, l'. split; [done|]. destruct (list_ok_lok _ _ Hl') as [Hlok' Em'].
  split; [|intros Hs; destruct i as [|x i]; [done|]; destruct (Hi x) as [(_ & _ & ? & _) _]; [by left|congruence]].
  assert (Hst : strict l' = strict l).
  { unfold List_Filter in E. destruct (_ && _); [by injection E as <- <- <-|].
    destruct (strict l && _) eqn:Es; injection E as <- <- <-; done. }
  split; try done; rewrite ?Em'.
  - intros tx Hin. assert (Hm : lmap l !! Tx_Nonce tx = Some tx).
    { apply elem_of_app in Hin as [Hin|Hin]; [by apply Hd in Hin as []|by apply Hi in Hin as []]. }
    split; [done|]. destruct (m' !! Tx_Nonce tx) as [tx'|] eqn:Ev; [|done]. exfalso.
    apply Hm' in Ev as (Hm2 & Hb2 & Ho2). rewrite Hm in Hm2. injection Hm2 as <-.
    apply elem_of_app in Hin as [[_ Hb]%Hd|(_ & _ & Ho)%Hi]; [congruence|done].
  - intros n tx Hm. pose proof (lok_nonce _ _ _ Hl Hm) as <-.
    destruct (m' !! Tx_Nonce tx) as [tx'|] eqn:Ev; [right; apply Hm' in Ev as (? & _); by simplify_eq|]. left.
    rewrite elem_of_app, Hd, Hi. destruct (unaffordable c g tx) eqn:Hb; [by left|]. right. split_and!; [done..|].
    destruct (orphan_dec c g l (lmap l) (Tx_Nonce tx)) as [|Ho]; [done|].
    assert (m' !! Tx_Nonce tx = Some tx) by by apply Hm'. congruence.
  - intros n tx (? & _)%Hm'. done.
Qed.

Lemma List_Remove_takes tx l : lok l ->
  exists b invalids l', List_Remove tx l = Ret ((b, invalids), l') /\ lok l' /\
    match lmap l !! Tx_Nonce tx with
    | Some o => b = true /\ takes l (o :: invalids) l' /\ (strict l = false -> invalids = []) /\
        (strict l = true -> forall n t, lmap l' !! n = Some t -> n < Tx_Nonce tx)
    | None => b = false /\ takes l [] l'
    end.
Proof.
  intros Hl. destruct (Remove_refines (Tx_Nonce tx) _ _ (ok_rep _ _ Hl)) as (r & E & Hr). unfold List_Remove. rewrite E.
  cbn [mbind outcome_bind fst snd]. fold (lmap l).
  assert (Hl1 : list_ok (with_txs r l) (delete (Tx_Nonce tx) (lmap l))).
  { apply (list_ok_sub _ _ _ _ Hl Hr). intros n t. by intros [_ ?]%lookup_delete_Some. }
  destruct (list_ok_lok _ _ Hl1) as [Hlok1 Em1].
  assert (Hlook : forall n, lmap (with_txs r l) !! n = if decide (n = Tx_Nonce tx) then None else lmap l !! n).
  { intros n. rewrite Em1. case_decide as Hn; [rewrite Hn; apply lookup_delete_eq|by apply lookup_delete_ne]. }
  clear Em1. destruct (lmap l !! Tx_Nonce tx) as [o|] eqn:Eo.
  2: { rewrite bool_decide_eq_false_2 by by intros []. eexists _, _, _. split; [done|]. split; [done|]. split; [done|].
       split; try done; [constructor|by intros ? ?%elem_of_nil| |]; intros n t; rewrite Hlook; case_decide; naive_solver. }
  rewrite bool_decide_eq_true_2 by by eexists. cbn [negb]. pose proof (lok_nonce _ _ _ Hl Eo) as Hon.
  assert (Ht1 : takes l [o] (with_txs r l)).
  { split; try done; [apply NoDup_singleton| | |].
    - intros t ->%list_elem_of_singleton. rewrite Hlook, Hon, decide_True by done. done.
    - intros n t. rewrite Hlook, list_elem_of_singleton. case_decide; naive_solver.
    - intros n t. rewrite Hlook. by case_decide. }
  destruct (strict l) eqn:Hs; [|by eexists _, _, _].
  destruct (Filter _ (txs (with_txs r l))) as [inv r2] eqn:Ef.
  destruct (Filter_members _ _ _ _ _ (ok_rep _ _ Hlok1) Ef) as (Hr2 & Hnd & Hmem). cbn [fst snd].
  eexists true, inv, _. split; [done|].
  assert (Hl2 : list_ok (with_txs r2 (with_txs r l)) (filter (fun e => (Tx_Nonce e.2 >? Tx_Nonce tx) = false) (lmap (with_txs r l)))).
  { apply (list_ok_sub _ _ _ _ Hlok1 Hr2). by intros n t [? _]%map_lookup_filter_Some. }
  destruct (list_ok_lok _ _ Hl2) as [Hlok2 Em2]. split; [done|]. split; [done|]. split; [|split; [done|]].
  2: { intros _ n t. rewrite Em2, map_lookup_filter_Some, Hlook. cbn. intros [Ht Hb]. case_decide; [done|].
       rewrite (lok_nonce _ _ _ Hl Ht) in Hb. rewrite Z.gtb_ltb, Z.ltb_ge in Hb. lia. }
  apply (takes_trans l [o] _ inv _ Ht1). split; try done; rewrite ?Em2.
  - intros t [Hm Hb]%Hmem. split; [done|]. apply map_lookup_filter_None. right. intros t' Ht'. cbn.
    fold (lmap (with_txs r l)) in Hm. rewrite Hm in Ht'. injection Ht' as <-. by rewrite Hb.
  - intros n t Hm. rewrite map_lookup_filter_Some. rewrite Hmem. cbn. fold (lmap (with_txs r l)).
    rewrite (lok_nonce _ _ _ Hlok1 Hm). destruct (n >? Tx_Nonce tx); [by left|by right].
  - by intros n t [? _]%map_lookup_filter_Some.
Qed.

Lemma List_Flatten_ok l : lok l ->
  exists ts l', List_Flatten l = (ts, l') /\ lok l' /\ lmap l' = lmap l /\ strict l' = strict l /\ NoDup ts /\
    (length ts = size (lmap l)) /\ forall tx, tx ∈ ts <-> lmap l !! Tx_Nonce tx = Some tx.
Proof.
  intros Hl. destruct (Flatten_refines _ _ (ok_rep _ _ Hl)) as (ts & r & E & Hts & Hr). unfold List_Flatten. rewrite E.
  cbn [fst snd]. exists ts, (with_txs r l). split; [done|].
  assert (Hl' : list_ok (with_txs r l) (lmap l)) by (by apply (list_ok_sub _ _ _ _ Hl Hr)).
  destruct (list_ok_lok _ _ Hl') as [Hlok' Em']. split_and!; try done.
  - apply (NoDup_fmap_1 Some). rewrite Hts. unfold contents. apply NoDup_fmap_2_strong; [|apply NoDup_keys].
    intros n1 n2 [t1 H1]%elem_of_keys [t2 H2]%elem_of_keys E12. rewrite H1, H2 in E12. injection E12 as ->.
    by rewrite <- (lok_nonce _ _ _ Hl H1), <- (lok_nonce _ _ _ Hl H2).
  - rewrite <- (length_fmap Some), Hts. unfold contents. by rewrite length_fmap, length_keys.
  - intros tx. rewrite <- (list_elem_of_fmap_inj Some). rewrite Hts. unfold contents. rewrite list_elem_of_fmap. split.
    + intros (n & E' & _). by rewrite (lok_nonce _ n tx Hl).
    + intros Hm. exists (Tx_Nonce tx). split; [done|]. apply elem_of_keys. by exists tx.
Qed.

End lists.

(** ** What the pool relies on

    Hashes do not collide; the priority queue gives back its accounts, the ones of
    highest priority first; sorting permutes. *)
Class PoolLaws `{PoolLib} : Prop := {
  Tx_Hash_inj : forall tx tx', Tx_Hash tx = Tx_Hash tx' -> tx = tx';
  prque_perm : forall l, prque_order l ≡ₚ l.*1;
  prque_sorted : forall l, NoDup l.*1 ->
    StronglySorted (fun a b => forall n m, (a, n) ∈ l -> (b, m) ∈ l -> m <= n) (prque_order l);
  sort_beats_perm : forall l, sort_beats l ≡ₚ l
}.

Section invariant.
Context `{PL : PoolLib} `{!MapOrder Z Transaction} `{!MapOrder Z txList} `{Laws : !PoolLaws}.
Implicit Types p : TxPool.

(** The transaction of an account with a nonce. *)
Definition at_ (lists : gmap Z txList) (a n : Z) : option Transaction := lists !! a ≫= fun l => lmap l !! n.

Definition well_formed (b : bool) (lists : gmap Z txList) : Prop :=
  forall a l, lists !! a = Some l -> lok l /\ strict l = b.

(** The transactions by hash are under their hash, and the price heap has them,
    those of [D] apart. *)
Record index_ok (D : list Transaction) (all : gmap Z Transaction) (l : txPricedList) : Prop := {
  ix_hash : forall h tx, all !! h = Some tx -> Tx_Hash tx = h;
  ix_heap : is_heap cheaper (prices l);
  ix_entry : forall h tx, all !! h = Some tx -> tx ∉ D -> tx ∈ prices l
}.

(** A transaction of the lists is known, under its account and nonce, and in one
    list only; each has an entry in the price heap. *)
Record pool_ok_but (D : list Transaction) (p : TxPool) : Prop := {
  po_pending : well_formed true (pending p);
  po_queue : well_formed false (queue p);
  po_listed : forall a n tx, at_ (pending p) a n = Some tx \/ at_ (queue p) a n = Some tx ->
    Tx_Nonce tx = n /\ Tx_Sender tx = Ok a /\ all p !! Tx_Hash tx = Some tx;
  po_once : forall a n, at_ (pending p) a n = None \/ at_ (queue p) a n = None;
  po_index : index_ok D (all p) (priced p)
}.

Definition pool_ok : TxPool -> Prop := pool_ok_but [].

Lemma index_priced all l : index_ok [] all l <-> priced_ok all l.
Proof.
  split.
  - intros [H1 H2 H3]. split; [done..| |].
    + intros h tx Htx. apply (H3 h tx Htx). by intros ?%elem_of_nil.
    + intros tx tx' _ Htx. apply Tx_Hash_inj. by apply H1.
  - intros [H1 H2 H3 _]. split; eauto.
Qed.

Lemma index_forget D all all' l : index_ok D all l -> all' ⊆ all -> index_ok D all' (Removed all' l).
Proof.
  intros [Hk Hh He] Hs.
  assert (Hk' : forall h tx, all' !! h = Some tx -> Tx_Hash tx = h) by (intros h tx ?; eapply Hk, lookup_weaken; eauto).
  unfold Removed. destruct (_ <=? _); split; cbn; try done.
  - intros h tx Htx. eapply He, lookup_weaken; eauto.
  - by destruct (Init_heap cheaper (range all').*2).
  - intros h tx Htx _. destruct (Init_heap cheaper (range all').*2) as [_ ->].
    apply list_elem_of_fmap. exists (h, tx). split; [done|]. by apply elem_of_range.
Qed.

Lemma index_know D all l tx : index_ok D all l -> index_ok D (<[Tx_Hash tx := tx]> all) (Priced_Put tx l).
Proof.
  intros [Hk Hh He]. destruct (Push_heap cheaper (prices l) tx Hh) as [H1 H2]. split; cbn; [|done|].
  - intros h t [[<- <-]|[_ ?]]%lookup_insert_Some; [done|by apply Hk].
  - intros h t [[<- <-]|[_ ?]]%lookup_insert_Some ?; rewrite H2; [by left|]. right. by eapply He.
Qed.

Lemma at_insert lists a l b n : at_ (<[a := l]> lists) b n = if decide (a = b) then lmap l !! n else at_ lists b n.
Proof. unfold at_. case_decide as E; [subst; by rewrite lookup_insert_eq|by rewrite lookup_insert_ne]. Qed.

Lemma at_delete lists a b n : at_ (delete a lists) b n = if decide (a = b) then None else at_ lists b n.
Proof. unfold at_. case_decide as E; [subst; by rewrite lookup_delete_eq|by rewrite lookup_delete_ne]. Qed.

Lemma at_list lists a l n : lists !! a = Some l -> at_ lists a n = lmap l !! n.
Proof. unfold at_. by intros ->. Qed.

Lemma at_default lists a b n : lmap (default (newTxList b) (lists !! a)) !! n = at_ lists a n.
Proof. unfold at_. by destruct (lists !! a). Qed.

Lemma well_formed_insert b lists a l : well_formed b lists -> lok l -> strict l = b -> well_formed b (<[a := l]> lists).
Proof. intros Hw Hl Hs c l' [[<- <-]|[_ ?]]%lookup_insert_Some; [done|by eapply Hw]. Qed.

Lemma well_formed_delete b lists a : well_formed b lists -> well_formed b (delete a lists).
Proof. intros Hw c l' [_ ?]%lookup_delete_Some. by eapply Hw. Qed.

Lemma well_formed_default b lists a : well_formed b lists ->
  lok (default (newTxList b) (lists !! a)) /\ strict (default (newTxList b) (lists !! a)) = b.
Proof. intros Hw. destruct (lists !! a) as [l|] eqn:E; [by eapply Hw|]. split; [apply newTxList_lok|done]. Qed.

(** ** Steps that keep the invariant *)

(** Lists that lose transactions. *)
Lemma ok_sub D p p' : pool_ok_but D p -> all p' = all p -> priced p' = priced p ->
  well_formed true (pending p') -> well_formed false (queue p') ->
  (forall a n tx, at_ (pending p') a n = Some tx -> at_ (pending p) a n = Some tx) ->
  (forall a n tx, at_ (queue p') a n = Some tx -> at_ (queue p) a n = Some tx) -> pool_ok_but D p'.
Proof.
  intros [_ _ Hl Ho Hx] Ea Ep Hwp Hwq HP HQ. split; rewrite ?Ea, ?Ep; try done.
  - intros a n tx [?%HP|?%HQ]; eauto.
  - intros a n. destruct (at_ (pending p') a n) as [x|] eqn:E1; [|by left].
    destruct (at_ (queue p') a n) as [y|] eqn:E2; [|by right]. apply HP in E1. apply HQ in E2.
    destruct (Ho a n); congruence.
Qed.

Lemma ok_pending_sub D p a l l' : pool_ok_but D p -> pending p !! a = Some l -> lok l' -> strict l' = strict l ->
  (forall n tx, lmap l' !! n = Some tx -> lmap l !! n = Some tx) ->
  pool_ok_but D (with_pending (insert a l') p).
Proof.
  intros Hok Hl Hl' Hs Hsub. destruct (po_pending _ _ Hok a l Hl) as [_ Hst].
  apply (ok_sub D p); try done; try apply Hok; cbn.
  - apply well_formed_insert; [apply Hok|done|congruence].
  - intros b n tx. rewrite at_insert. case_decide as E; [subst b|done]. rewrite (at_list _ _ _ _ Hl). apply Hsub.
Qed.

Lemma ok_queue_sub D p a l l' : pool_ok_but D p -> queue p !! a = Some l -> lok l' -> strict l' = strict l ->
  (forall n tx, lmap l' !! n = Some tx -> lmap l !! n = Some tx) ->
  pool_ok_but D (with_queue (insert a l') p).
Proof.
  intros Hok Hl Hl' Hs Hsub. destruct (po_queue _ _ Hok a l Hl) as [_ Hst].
  apply (ok_sub D p); try done; try apply Hok; cbn.
  - apply well_formed_insert; [apply Hok|done|congruence].
  - intros b n tx. rewrite at_insert. case_decide as E; [subst b|done]. rewrite (at_list _ _ _ _ Hl). apply Hsub.
Qed.

Lemma ok_pending_delete D p a : pool_ok_but D p -> pool_ok_but D (with_pending (delete a) p).
Proof.
  intros Hok. apply (ok_sub D p); try done; try apply Hok; cbn; [by apply well_formed_delete, Hok|].
  intros b n tx. rewrite at_delete. by case_decide.
Qed.

Lemma ok_queue_delete D p a : pool_ok_but D p -> pool_ok_but D (with_queue (delete a) p).
Proof.
  intros Hok. apply (ok_sub D p); try done; try apply Hok; cbn; [by apply well_formed_delete, Hok|].
  intros b n tx. rewrite at_delete. by case_decide.
Qed.

(** Forgetting a transaction that is in no list. *)
Definition unlisted (p : TxPool) (tx : Transaction) : Prop :=
  forall a n, at_ (pending p) a n <> Some tx /\ at_ (queue p) a n <> Some tx.

Lemma ok_forget D p tx : pool_ok_but D p -> unlisted p tx -> pool_ok_but D (forget (Tx_Hash tx) p).
Proof.
  intros [Hp Hq Hl Ho Hx] Hu. split; cbn; try done.
  - intros a n t Ht. destruct (Hl a n t Ht) as (? & ? & Ha). split_and!; [done..|].
    rewrite lookup_delete_ne; [done|]. intros E%Tx_Hash_inj. subst t. destruct (Hu a n). by destruct Ht.
  - apply index_forget with (all := all p); [done|]. apply delete_subseteq.
Qed.

(** A transaction enters a list: its nonce is free in the other one, it is known
    in the end, and only the one it replaces is forgotten. *)
Lemma ok_enter_queue D p p' a tx l : pool_ok_but D p ->
  pending p' = pending p -> queue p' = <[a := l]> (queue p) -> index_ok D (all p') (priced p') ->
  Tx_Sender tx = Ok a -> at_ (pending p) a (Tx_Nonce tx) = None -> all p' !! Tx_Hash tx = Some tx ->
  (forall t, all p !! Tx_Hash t = Some t -> at_ (queue p) a (Tx_Nonce tx) <> Some t -> all p' !! Tx_Hash t = Some t) ->
  lok l -> strict l = false -> lmap l = <[Tx_Nonce tx := tx]> (lmap (default (newTxList false) (queue p !! a))) ->
  pool_ok_but D p'.
Proof.
  intros [Hp Hq Hl Ho Hx] Ep Eq Hx' Hs Hfree Ha Hkeep Hlok Hst Hlook. split; rewrite ?Ep, ?Eq; try done.
  - by apply well_formed_insert.
  - intros b n t Ht. rewrite at_insert, Hlook in Ht.
    assert (G : (at_ (pending p) b n = Some t \/ at_ (queue p) b n = Some t /\ (a = b -> n <> Tx_Nonce tx)) \/
                (a = b /\ n = Tx_Nonce tx /\ t = tx)).
    { destruct Ht as [?|Ht]; [by auto|]. case_decide as Eb; [|left; right; split; [done|by intros ?]]. subst b.
      apply lookup_insert_Some in Ht as [[<- <-]|[Hn Ht]]; [by auto|]. rewrite at_default in Ht. auto. }
    destruct G as [G|(<- & -> & ->)]; [|done].
    destruct (Hl b n t) as (Hn & Hb & Hall); [tauto|]. split_and!; [done..|]. apply Hkeep; [done|].
    intros Hold. destruct (Hl a (Tx_Nonce tx) t) as (Hn' & Ha' & _); [by auto|].
    assert (a = b) as <- by congruence. subst n. rewrite Hn' in G. destruct G as [G|[_ G]]; [congruence|by apply G].
  - intros b n. rewrite at_insert, Hlook. case_decide as Eb; [subst b|done].
    destruct (decide (n = Tx_Nonce tx)) as [->|Hn]; [by left|]. rewrite lookup_insert_ne, at_default; done.
Qed.

Lemma ok_enter_pending D p p' a tx l : pool_ok_but D p ->
  queue p' = queue p -> pending p' = <[a := l]> (pending p) -> index_ok D (all p') (priced p') ->
  Tx_Sender tx = Ok a -> at_ (queue p) a (Tx_Nonce tx) = None -> all p' !! Tx_Hash tx = Some tx ->
  (forall t, all p !! Tx_Hash t = Some t -> at_ (pending p) a (Tx_Nonce tx) <> Some t -> all p' !! Tx_Hash t = Some t) ->
  lok l -> strict l = true -> lmap l = <[Tx_Nonce tx := tx]> (lmap (default (newTxList true) (pending p !! a))) ->
  pool_ok_but D p'.
Proof.
  intros [Hp Hq Hl Ho Hx] Eq Ep Hx' Hs Hfree Ha Hkeep Hlok Hst Hlook. split; rewrite ?Ep, ?Eq; try done.
  - by apply well_formed_insert.
  - intros b n t Ht. rewrite at_insert, Hlook in Ht.
    assert (G : (at_ (queue p) b n = Some t \/ at_ (pending p) b n = Some t /\ (a = b -> n <> Tx_Nonce tx)) \/
                (a = b /\ n = Tx_Nonce tx /\ t = tx)).
    { destruct Ht as [Ht|?]; [|by auto]. case_decide as Eb; [|left; right; split; [done|by intros ?]]. subst b.
      apply lookup_insert_Some in Ht as [[<- <-]|[Hn Ht]]; [by auto|]. rewrite at_default in Ht. auto. }
    destruct G as [G|(<- & -> & ->)]; [|done].
    destruct (Hl b n t) as (Hn & Hb & Hall); [tauto|]. split_and!; [done..|]. apply Hkeep; [done|].
    intros Hold. destruct (Hl a (Tx_Nonce tx) t) as (Hn' & Ha' & _); [by auto|].
    assert (a = b) as <- by congruence. subst n. rewrite Hn' in G. destruct G as [G|[_ G]]; [congruence|by apply G].
  - intros b n. rewrite at_insert, Hlook. case_decide as Eb; [subst b|done].
    destruct (decide (n = Tx_Nonce tx)) as [->|Hn]; [by right|]. rewrite lookup_insert_ne, at_default; done.
Qed.

(** A change that leaves the lists and the index alone. *)
Lemma ok_same D p p' : pool_ok_but D p -> pending p' = pending p -> queue p' = queue p -> all p' = all p ->
  priced p' = priced p -> pool_ok_but D p'.
Proof. intros [] E1 E2 E3 E4. by split; rewrite ?E1, ?E2, ?E3, ?E4. Qed.

End invariant.
