(* ===== verification/TxPoolProps.v ===== *)
(** * Properties of the transaction pool

    Every operation of the pool returns and keeps the invariant of TxPoolInv.v:
    the two lists of each account hold transactions of that account, each in one
    list only, all of them known by hash, and the price heap has an entry for
    every transaction. *)
From S2P Require Import Prelude GoMonad Heap TxList TxListProps TxPricedProps StateTransition TxPool TxPoolInv.
Local Open Scope Z_scope.

Section operations.
Context `{PL : PoolLib} `{!MapOrder Z Transaction} `{!MapOrder Z txList} `{Laws : !PoolLaws}.
Implicit Types p : TxPool.

(** What every operation but [add] leaves alone: transactions are forgotten, none
    is added. *)
Record frame (p p' : TxPool) : Prop := {
  fr_config : config p' = config p;
  fr_locals : locals p' = locals p;
  fr_all : all p' ⊆ all p
}.

#[export] Instance frame_preorder : PreOrder frame.
Proof.
  split; [by split|]. intros x y z [] []. split; [congruence..|]. by etrans.
Qed.

Lemma frame_same p p' : config p' = config p -> locals p' = locals p -> all p' = all p -> frame p p'.
Proof. intros ? ? E. split; [done..|by rewrite E]. Qed.

(** ** Where a transaction can be listed *)
Lemma unlisted_at D p tx : pool_ok_but D p ->
  at_ (pending p) (sender_of tx) (Tx_Nonce tx) <> Some tx -> at_ (queue p) (sender_of tx) (Tx_Nonce tx) <> Some tx ->
  unlisted p tx.
Proof.
  intros Hok H1 H2 a n. unfold sender_of in *.
  split; intros Ht; destruct (po_listed _ _ Hok a n tx) as (<- & Hs & _); auto; rewrite Hs in *; done.
Qed.

Lemma takes_nonces l out l' : takes l out l' -> NoDup (Tx_Nonce <$> out).
Proof.
  intros Ht. apply NoDup_fmap_2_strong; [|by apply Ht]. intros x y [Hx _]%(tk_out _ _ _ Ht) [Hy _]%(tk_out _ _ _ Ht) E.
  rewrite E in Hx. congruence.
Qed.

(** A transaction that is known, of the account, and in neither list. *)
Record loose (p : TxPool) (a : Z) (tx : Transaction) : Prop := {
  lo_sender : Tx_Sender tx = Ok a;
  lo_known : all p !! Tx_Hash tx = Some tx;
  lo_pending : at_ (pending p) a (Tx_Nonce tx) = None;
  lo_queue : at_ (queue p) a (Tx_Nonce tx) = None
}.

Lemma loose_sender p a tx : loose p a tx -> sender_of tx = a.
Proof. intros []. unfold sender_of. by destruct (Tx_Sender tx); simplify_eq. Qed.

Lemma loose_unlisted D p a tx : pool_ok_but D p -> loose p a tx -> unlisted p tx.
Proof.
  intros Hok Hl. apply (unlisted_at D); [done|..]; rewrite (loose_sender _ _ _ Hl); destruct Hl; congruence.
Qed.

Lemma taken_pending D p a l out l' tx : pool_ok_but D p -> pending p !! a = Some l -> takes l out l' -> tx ∈ out ->
  loose (with_pending (insert a l') p) a tx.
Proof.
  intros Hok Hl Ht Hin. destruct (tk_out _ _ _ Ht tx Hin) as [H1 H2].
  assert (Hat : at_ (pending p) a (Tx_Nonce tx) = Some tx) by by rewrite (at_list _ _ _ _ Hl).
  destruct (po_listed _ _ Hok a (Tx_Nonce tx) tx) as (_ & Hs & Ha); [by left|].
  split; [done|done|cbn|cbn]; [by rewrite at_insert, decide_True|].
  destruct (po_once _ _ Hok a (Tx_Nonce tx)); congruence.
Qed.

Lemma taken_queue D p a l out l' tx : pool_ok_but D p -> queue p !! a = Some l -> takes l out l' -> tx ∈ out ->
  loose (with_queue (insert a l') p) a tx.
Proof.
  intros Hok Hl Ht Hin. destruct (tk_out _ _ _ Ht tx Hin) as [H1 H2].
  assert (Hat : at_ (queue p) a (Tx_Nonce tx) = Some tx) by by rewrite (at_list _ _ _ _ Hl).
  destruct (po_listed _ _ Hok a (Tx_Nonce tx) tx) as (_ & Hs & Ha); [by right|].
  split; [done|done|cbn|cbn]; [|by rewrite at_insert, decide_True].
  destruct (po_once _ _ Hok a (Tx_Nonce tx)); congruence.
Qed.

Lemma ok_pending_takes D p a l out l' : pool_ok_but D p -> pending p !! a = Some l -> takes l out l' ->
  pool_ok_but D (with_pending (insert a l') p).
Proof. intros Hok Hl Ht. by apply (ok_pending_sub D p a l l'); try apply Ht. Qed.

Lemma ok_queue_takes D p a l out l' : pool_ok_but D p -> queue p !! a = Some l -> takes l out l' ->
  pool_ok_but D (with_queue (insert a l') p).
Proof. intros Hok Hl Ht. by apply (ok_queue_sub D p a l l'); try apply Ht. Qed.

(** ** Forgetting, queueing and promoting what was taken out *)
Lemma forget_all_ok D out : forall p, pool_ok_but D p -> (forall tx, tx ∈ out -> unlisted p tx) ->
  exists al pl, forget_all (Some <$> out) p = Ret (with_index al pl p) /\ pool_ok_but D (with_index al pl p) /\
    al ⊆ all p /\ (forall h tx, all p !! h = Some tx -> tx ∉ out -> al !! h = Some tx).
Proof.
  induction out as [|tx out IH]; intros p Hok Hu; cbn.
  { exists (all p), (priced p). split_and!; try done; by destruct p. }
  destruct (IH (forget (Tx_Hash tx) p)) as (al & pl & E & Hok' & Hsub & Hkeep).
  - apply ok_forget; [done|]. apply Hu. by left.
  - intros t Ht. apply (Hu t). by right.
  - exists al, pl. split_and!; [done|done| |].
    + etrans; [done|]. apply delete_subseteq.
    + intros h t Ht Hn. apply Hkeep; [|by intros ?; apply Hn; right]. cbn. rewrite lookup_delete_ne; [done|].
      intros <-. apply Hn. apply (ix_hash _ _ _ (po_index _ _ Hok)) in Ht. apply Tx_Hash_inj in Ht as ->. by left.
Qed.

Lemma List_Add_free tx bump l : lok l -> lmap l !! Tx_Nonce tx = None ->
  exists l', List_Add tx bump l = ((true, None), l') /\ lok l' /\ strict l' = strict l /\
    lmap l' = <[Tx_Nonce tx := tx]> (lmap l).
Proof.
  intros Hl Hn. pose proof (List_Add_ok tx bump l _ Hl) as Hadd.
  assert (Hst : strict (snd (List_Add tx bump l)) = strict l) by (unfold List_Add; by destruct (match _ with Some _ => _ | None => _ end)).
  destruct (List_Add tx bump l) as [[[|] old] l']; cbn [fst snd] in *.
  - destruct Hadd as [-> Hl']. destruct (list_ok_lok _ _ Hl'). rewrite Hn. eauto.
  - destruct Hadd as (_ & o & Ho & _). congruence.
Qed.

Lemma enqueueTx_loose D p a tx : pool_ok_but D p -> loose p a tx ->
  exists l pl, enqueueTx (Tx_Hash tx) tx p = (inl false, with_index (all p) pl (with_queue (insert a l) p)) /\
    pool_ok_but D (with_index (all p) pl (with_queue (insert a l) p)) /\
    lmap l = <[Tx_Nonce tx := tx]> (lmap (default (newTxList false) (queue p !! a))).
Proof.
  intros Hok Hlo. pose proof Hlo as [Hs Ha Hp Hq]. destruct (well_formed_default false (queue p) a) as [Hl Hst]; [apply Hok|].
  unfold enqueueTx. rewrite (loose_sender _ _ _ Hlo).
  destruct (List_Add_free tx (PriceBump (config p)) _ Hl) as (l' & -> & Hl' & Hst' & El'); [by rewrite at_default|].
  cbn [negb found]. exists l', (Priced_Put tx (priced p)).
  assert (E : know (Tx_Hash tx) tx (with_queue (insert a l') p) =
              with_index (all p) (Priced_Put tx (priced p)) (with_queue (insert a l') p)).
  { unfold know. cbn. by rewrite insert_id. }
  rewrite E. split; [done|]. split; [|done]. apply (ok_enter_queue D p _ a tx l'); try done; [|congruence]. cbn.
  rewrite <- (insert_id (all p) (Tx_Hash tx) tx) by done. apply index_know, Hok.
Qed.

(** What queueing loose transactions of an account changes. *)
Record queued (a : Z) (p p' : TxPool) : Prop := {
  qd_frame : frame p p';
  qd_all : all p' = all p;
  qd_pending : pending p' = pending p;
  qd_other : forall b, b <> a -> queue p' !! b = queue p !! b;
  qd_nonces : pendingState p' = pendingState p
}.

Lemma enqueue_all_ok D a txs : forall p, pool_ok_but D p -> (forall tx, tx ∈ txs -> loose p a tx) ->
  NoDup (Tx_Nonce <$> txs) -> pool_ok_but D (enqueue_all txs p) /\ queued a p (enqueue_all txs p).
Proof.
  induction txs as [|tx txs IH]; intros p Hok Hlo Hnd; cbn [enqueue_all].
  { split; [done|]. split; done. }
  cbn in Hnd. apply NoDup_cons in Hnd as [Hn Hnd].
  destruct (enqueueTx_loose D p a tx Hok) as (l & pl & E & Hok' & El); [apply Hlo; by left|]. rewrite E. cbn [snd].
  destruct (IH _ Hok') as [Hok2 [Hf Ha Hp Ho Hs]]; [|done|].
  - intros t Ht. destruct (Hlo t) as [H1 H2 H3 H4]; [by right|]. split; cbn; try done.
    rewrite at_insert, decide_True, El, lookup_insert_ne, at_default; [done| |done].
    intros E'. apply Hn. rewrite E'. by apply list_elem_of_fmap_2.
  - split; [done|]. split; cbn in *; try done.
    + etrans; [|done]. by apply frame_same.
    + intros b Hb. rewrite Ho by done. by apply lookup_insert_ne.
Qed.

Lemma promoteTx_loose D now p a tx : pool_ok_but D p -> loose p a tx ->
  let p' := promoteTx now a (Tx_Hash tx) tx p in
  pool_ok_but D p' /\ frame p p' /\ all p' = all p /\ queue p' = queue p /\
  exists l, pending p' = <[a := l]> (pending p) /\
    lmap l = <[Tx_Nonce tx := tx]> (lmap (default (newTxList true) (pending p !! a))).
Proof.
  intros Hok Hlo. pose proof Hlo as [Hs Ha Hp Hq]. destruct (well_formed_default true (pending p) a) as [Hl Hst]; [apply Hok|].
  unfold promoteTx.
  destruct (List_Add_free tx (PriceBump (config p)) _ Hl) as (l' & -> & Hl' & Hst' & El'); [by rewrite at_default|].
  cbn [negb found]. cbn. rewrite Ha. cbn [found]. cbn. split_and!; [|by apply frame_same|done|done|by eauto].
  apply (ok_enter_pending D p _ a tx l'); try done; [apply Hok|congruence].
Qed.

Lemma promote_all_ok D now a txs : forall p, pool_ok_but D p -> (forall tx, tx ∈ txs -> loose p a tx) ->
  NoDup (Tx_Nonce <$> txs) ->
  exists p', promote_all now a (Some <$> txs) p = Ret p' /\ pool_ok_but D p' /\ frame p p' /\ queue p' = queue p.
Proof.
  induction txs as [|tx txs IH]; intros p Hok Hlo Hnd; cbn; [by exists p|].
  apply NoDup_cons in Hnd as [Hn Hnd].
  destruct (promoteTx_loose D now p a tx Hok) as (Hok' & Hf & Ha & Hq & l & Ep & El); [apply Hlo; by left|].
  destruct (IH _ Hok') as (p' & E & Hok2 & Hf2 & Hq2); [|done|].
  - intros t Ht. destruct (Hlo t) as [H1 H2 H3 H4]; [by right|]. split; try done; [by rewrite Ha| |by rewrite Hq].
    rewrite Ep, at_insert, decide_True, El, lookup_insert_ne, at_default; [done| |done].
    intros E'. apply Hn. rewrite E'. by apply list_elem_of_fmap_2.
  - exists p'. split_and!; [done|done|by etrans|congruence].
Qed.

(** ** Removing *)

(** What removing a transaction of an account changes. *)
Record removed (a : Z) (p p' : TxPool) : Prop := {
  rm_frame : frame p p';
  rm_other : forall b, b <> a -> queue p' !! b = queue p !! b
}.

#[local] Instance removed_preorder a : PreOrder (removed a).
Proof.
  split; [by split|]. intros x y z [? H1] [? H2]. split; [by etrans|]. intros b Hb. by rewrite H2, H1.
Qed.

Lemma lower_nonce_ok D a n p : pool_ok_but D p -> pool_ok_but D (lower_nonce a n p).
Proof. intros Hok. unfold lower_nonce. destruct (_ >? _); [|done]. by apply (ok_same D p). Qed.

Lemma lower_nonce_same a n p : all (lower_nonce a n p) = all p /\ queue (lower_nonce a n p) = queue p /\
  pending (lower_nonce a n p) = pending p /\ config (lower_nonce a n p) = config p /\ locals (lower_nonce a n p) = locals p.
Proof. unfold lower_nonce. by destruct (_ >? _). Qed.

(** The queue's part of [removeTx]. *)
Definition unqueue (tx : Transaction) (p : TxPool) : outcome TxPool :=
  match queue p !! sender_of tx with
  | None => Ret p
  | Some future =>
      r ← List_Remove tx future;
      Ret (if Empty (snd r) then with_queue (delete (sender_of tx)) p else with_queue (insert (sender_of tx) (snd r)) p)
  end.

Lemma unqueue_ok D tx p : pool_ok_but D p -> at_ (pending p) (sender_of tx) (Tx_Nonce tx) <> Some tx ->
  exists p', unqueue tx (forget (Tx_Hash tx) p) = Ret p' /\ pool_ok_but D p' /\ removed (sender_of tx) p p' /\
    all p' !! Tx_Hash tx = None.
Proof.
  intros Hok Hp. set (a := sender_of tx) in *. unfold unqueue. cbn. fold a.
  destruct (queue p !! a) as [l|] eqn:El.
  2: { eexists. split; [done|]. split; [|split; [|apply lookup_delete_eq]].
       - apply ok_forget; [done|]. apply (unlisted_at D); [done|done|]. unfold at_. fold a. by rewrite El.
       - split; [|done]. split; [done..|]. apply delete_subseteq. }
  destruct (po_queue _ _ Hok a l El) as [Hl Hst].
  destruct (List_Remove_takes tx l Hl) as (b & inv & l' & -> & Hl' & Hcase). cbn [mbind outcome_bind fst snd].
  assert (Ht : exists out, takes l out l' /\ lmap l' !! Tx_Nonce tx = None).
  { destruct (lmap l !! Tx_Nonce tx) as [o|] eqn:Eo.
    - destruct Hcase as (_ & Ht & _). exists (o :: inv). split; [done|].
      pose proof (tk_out _ _ _ Ht o) as Hout. rewrite (lok_nonce _ _ _ Hl Eo) in Hout. apply Hout. by left.
    - destruct Hcase as (_ & Ht). exists []. split; [done|].
      destruct (lmap l' !! Tx_Nonce tx) as [x|] eqn:Ex; [|done]. apply (tk_sub _ _ _ Ht) in Ex. congruence. }
  destruct Ht as (out & Ht & Hnone).
  assert (Hok1 : pool_ok_but D (with_queue (insert a l') p)) by (by eapply ok_queue_takes).
  assert (Hok2 : pool_ok_but D (forget (Tx_Hash tx) (with_queue (insert a l') p))).
  { apply ok_forget; [done|]. apply (unlisted_at D); [done|done|]. cbn. fold a. by rewrite at_insert, decide_True, Hnone. }
  destruct (Empty l'); eexists; (split; [done|]).
  - split; [|split; [|apply lookup_delete_eq]].
    + apply (ok_queue_delete D _ a) in Hok2. apply (ok_same D _ _ Hok2); try done. cbn. by rewrite delete_insert_eq.
    + split; [split; [done..|apply delete_subseteq]|]. intros c Hc. by apply lookup_delete_ne.
  - split; [done|]. split; [|apply lookup_delete_eq]. split; [split; [done..|apply delete_subseteq]|].
    intros c Hc. by apply lookup_insert_ne.
Qed.

(** The pending list gives up a nonce: the transactions above it are queued. *)
Lemma unpend_ok D p tx l o inv l' : pool_ok_but D p -> pending p !! sender_of tx = Some l ->
  lmap l !! Tx_Nonce tx = Some o -> takes l (o :: inv) l' ->
  let p2 := forget (Tx_Hash tx) (with_pending (insert (sender_of tx) l') p) in
  pool_ok_but D p2 /\ (forall t, t ∈ inv -> loose p2 (sender_of tx) t) /\ NoDup (Tx_Nonce <$> inv).
Proof.
  intros Hok El Eo Ht. set (a := sender_of tx) in *. cbn zeta.
  pose proof (ok_pending_takes _ _ _ _ _ _ Hok El Ht) as Hok1.
  assert (Hl : lok l) by by apply (po_pending _ _ Hok a).
  assert (Hat : at_ (pending p) a (Tx_Nonce tx) = Some o) by by rewrite (at_list _ _ _ _ El).
  split_and!.
  - apply ok_forget; [done|]. apply (unlisted_at D); [done| |]; cbn; fold a.
    + rewrite at_insert, decide_True by done. destruct (tk_out _ _ _ Ht o) as [_ Hn]; [by left|].
      rewrite (lok_nonce _ _ _ Hl Eo) in Hn. by rewrite Hn.
    + destruct (po_once _ _ Hok a (Tx_Nonce tx)); congruence.
  - intros t Hin. destruct (taken_pending D p a l _ l' t Hok El Ht) as [H1 H2 H3 H4]; [by right|].
    split; try done. cbn. rewrite lookup_delete_ne; [done|]. intros E%Tx_Hash_inj. subst t.
    destruct (tk_out _ _ _ Ht tx) as [Hx _]; [by right|]. rewrite Eo in Hx. injection Hx as ->.
    apply tk_nodup, NoDup_cons in Ht as [Ht _]. done.
  - apply takes_nonces in Ht. cbn in Ht. by apply NoDup_cons in Ht as [_ Ht].
Qed.

Lemma removeTx_ok D p h : pool_ok_but D p ->
  exists p', removeTx h p = Ret p' /\ pool_ok_but D p' /\ frame p p' /\ all p' !! h = None /\
    (forall b, (forall tx, all p !! h = Some tx -> b <> sender_of tx) -> queue p' !! b = queue p !! b).
Proof.
  intros Hok. unfold removeTx. destruct (all p !! h) as [tx|] eqn:Eh; [|by exists p].
  assert (Tx_Hash tx = h) as <- by by apply (ix_hash _ _ _ (po_index _ _ Hok)).
  set (a := sender_of tx) in *. change (pending (forget (Tx_Hash tx) p)) with (pending p).
  destruct (pending p !! a) as [l|] eqn:El.
  2: { destruct (unqueue_ok D tx p Hok) as (p' & E & Hok' & [Hf Ho] & Hn); [unfold at_; fold a; by rewrite El|].
       exists p'. split_and!; [exact E|done|done|done|]. intros b Hb. by apply Ho, Hb. }
  destruct (po_pending _ _ Hok a l El) as [Hl Hst].
  destruct (List_Remove_takes tx l Hl) as (b & inv & l' & -> & Hl' & Hcase). cbn [mbind outcome_bind fst snd].
  destruct (lmap l !! Tx_Nonce tx) as [o|] eqn:Eo.
  2: { destruct Hcase as [-> Ht]. pose proof (ok_pending_takes _ _ _ _ _ _ Hok El Ht) as Hok1.
       destruct (unqueue_ok D tx _ Hok1) as (p' & E & Hok' & [Hf Ho] & Hn).
       { cbn. fold a. rewrite at_insert, decide_True by done. intros Hx%(tk_sub _ _ _ Ht). congruence. }
       exists p'. split_and!; [exact E|done| |done|].
       - etrans; [|done]. by apply frame_same.
       - intros c Hc. by apply Ho, Hc. }
  destruct Hcase as (-> & Ht & _ & _). destruct (unpend_ok D p tx l o inv l' Hok El Eo Ht) as (Hok2 & Hlo & Hnd).
  fold a in Hok2, Hlo. set (p2 := forget (Tx_Hash tx) (with_pending (insert a l') p)) in *.
  change (with_pending (insert a l') (forget (Tx_Hash tx) p)) with p2.
  assert (Hf2 : frame p p2) by (split; [done..|apply delete_subseteq]).
  assert (Hn2 : all p2 !! Tx_Hash tx = None) by apply lookup_delete_eq.
  eexists. split; [done|]. set (p3 := if Empty l' then _ else _).
  assert (Hp3 : pool_ok_but D p3 /\ queued a (with_pending (fun _ => pending p3) p2) p3).
  { unfold p3. destruct (Empty l').
    - split; [|split; done]. apply (ok_pending_delete D _ a) in Hok2. by apply (ok_same D _ _ Hok2).
    - destruct (enqueue_all_ok D a inv p2 Hok2 Hlo Hnd) as [Hok3 [[? ? ?] ? ? ? ?]].
      split; [done|]. split; done. }
  destruct Hp3 as [Hok3 [Hf3 Ha3 _ Ho3 _]]. clearbody p3.
  destruct (lower_nonce_same a (Tx_Nonce tx) p3) as (E1 & E2 & _ & E4 & E5). split_and!.
  - by apply lower_nonce_ok.
  - etrans; [done|]. etrans; [|by apply (frame_same p3)]. destruct Hf3 as [H1 H2 H3]. by split.
  - by rewrite E1, Ha3.
  - intros c Hc. rewrite E2, Ho3; [done|]. by apply Hc.
Qed.

Lemma remove_all_ok D txs : forall p, pool_ok_but D p ->
  exists p', remove_all txs p = Ret p' /\ pool_ok_but D p' /\ frame p p' /\
    (forall tx, tx ∈ txs -> all p' !! Tx_Hash tx = None) /\
    (forall a, (forall tx, tx ∈ txs -> sender_of tx = a) -> forall b, b <> a -> queue p' !! b = queue p !! b).
Proof.
  induction txs as [|tx txs IH]; intros p Hok; cbn [remove_all].
  { exists p. split_and!; try done. by intros ? ?%elem_of_nil. }
  destruct (removeTx_ok D p (Tx_Hash tx) Hok) as (p1 & -> & Hok1 & Hf1 & Hn1 & Ho1). cbn [mbind outcome_bind].
  destruct (IH p1 Hok1) as (p2 & E2 & Hok2 & Hf2 & Hn2 & Ho2). exists p2. split_and!; [done|done|by etrans| |].
  - intros t [->|Ht]%elem_of_cons; [|by apply Hn2]. by eapply lookup_weaken_None; [|apply Hf2].
  - intros a Hs b Hb. rewrite (Ho2 a); [|intros t Ht; apply Hs; by right|done].
    apply Ho1. intros t Et. apply (ix_hash _ _ _ (po_index _ _ Hok)), Tx_Hash_inj in Et as ->. rewrite Hs; [done|by left].
Qed.

(** A heap without the transactions of [D] is complete once they are gone. *)
Lemma pool_ok_but_gone D p : pool_ok_but D p -> (forall tx, tx ∈ D -> all p !! Tx_Hash tx = None) -> pool_ok p.
Proof.
  intros [H1 H2 H3 H4 [H5 H6 H7]] Hd. split; try done. split; try done. intros h tx Htx _. eapply H7; [done|].
  intros Hin%Hd. rewrite (H5 _ _ Htx) in Hin. congruence.
Qed.

Lemma pool_ok_priced p : pool_ok p -> priced_ok (all p) (priced p).
Proof. intros Hok. apply index_priced, Hok. Qed.

(** A heap that has lost the transactions of [D]. *)
Lemma ok_without D p l : pool_ok p -> priced_ok (filter (fun e => e.2 ∉ D) (all p)) l ->
  pool_ok_but D (with_index (all p) l p).
Proof.
  intros [H1 H2 H3 H4 [H5 H6 H7]] [Hh _ He _]. split; try done. split; cbn; try done.
  intros h tx Htx Hn. apply (He h tx). by apply map_lookup_filter_Some.
Qed.

Lemma remove_dropped D p l : pool_ok p -> priced_ok (filter (fun e => e.2 ∉ D) (all p)) l ->
  exists p', remove_all D (with_index (all p) l p) = Ret p' /\ pool_ok p' /\ frame p p'.
Proof.
  intros Hok Hl. destruct (remove_all_ok D D _ (ok_without D p l Hok Hl)) as (p' & E & Hok' & Hf & Hn & _).
  exists p'. split; [done|]. split; [by eapply pool_ok_but_gone|]. destruct Hf. by split.
Qed.

Lemma SetGasPrice_ok price p : pool_ok p -> exists p', SetGasPrice price p = Ret p' /\ pool_ok p' /\ frame p p'.
Proof.
  intros Hok. unfold SetGasPrice.
  assert (Hok1 : pool_ok (with_price price p)) by by apply (ok_same [] p).
  destruct (Priced_Cap_spec price (locals p) (all p) (priced p)) as (d & l & E & _ & Hl); [by apply pool_ok_priced|].
  cbn in *. rewrite E. cbn [mbind outcome_bind fst snd].
  destruct (remove_dropped d (with_price price p) l Hok1 Hl) as (p' & E' & Hok' & Hf). exists p'.
  split; [done|]. split; [done|]. destruct Hf. by split.
Qed.

(** ** Adding *)
Lemma List_Add_strict tx bump l : strict (snd (List_Add tx bump l)) = strict l.
Proof. unfold List_Add. by destruct (match _ with Some _ => _ | None => _ end). Qed.

(** The index once a transaction has taken the place of another one. *)
Definition replacing (old : option Transaction) (tx : Transaction) (p : TxPool) : TxPool :=
  know (Tx_Hash tx) tx (match old with Some o => forget (Tx_Hash o) p | None => p end).

Lemma replacing_index D p old tx : index_ok D (all p) (priced p) ->
  let p' := replacing old tx p in
  index_ok D (all p') (priced p') /\ all p' !! Tx_Hash tx = Some tx /\ all p' ⊆ <[Tx_Hash tx := tx]> (all p) /\
  (forall t, all p !! Tx_Hash t = Some t -> old <> Some t -> all p' !! Tx_Hash t = Some t).
Proof.
  intros Hix. unfold replacing. destruct old as [o|]; cbn; split_and!.
  - apply index_know, index_forget with (all := all p); [done|apply delete_subseteq].
  - apply lookup_insert_eq.
  - apply insert_mono, delete_subseteq.
  - intros t Ht Hne. destruct (decide (t = tx)) as [->|Hne2]; [apply lookup_insert_eq|].
    rewrite lookup_insert_ne by (by intros E%Tx_Hash_inj). rewrite lookup_delete_ne; [done|].
    intros E%Tx_Hash_inj. by subst t.
  - by apply index_know.
  - apply lookup_insert_eq.
  - done.
  - intros t Ht _. destruct (decide (t = tx)) as [->|Hne2]; [apply lookup_insert_eq|].
    by rewrite lookup_insert_ne by (by intros E%Tx_Hash_inj).
Qed.

(** What [add] may change: one transaction is added. *)
Record added (tx : Transaction) (p p' : TxPool) : Prop := {
  ad_config : config p' = config p;
  ad_all : all p' ⊆ <[Tx_Hash tx := tx]> (all p)
}.

Lemma frame_added D tx p p' : pool_ok_but D p -> frame p p' -> added tx p p'.
Proof.
  intros Hok [Hc _ Ha]. split; [done|]. etrans; [done|].
  destruct (all p !! Tx_Hash tx) as [t|] eqn:Et; [|by apply insert_subseteq].
  pose proof (ix_hash _ _ _ (po_index _ _ Hok) _ _ Et) as E%Tx_Hash_inj. subst t. by rewrite insert_id.
Qed.

Lemma enqueueTx_new D p a tx : pool_ok_but D p -> Tx_Sender tx = Ok a -> at_ (pending p) a (Tx_Nonce tx) = None ->
  pool_ok_but D (snd (enqueueTx (Tx_Hash tx) tx p)) /\ added tx p (snd (enqueueTx (Tx_Hash tx) tx p)).
Proof.
  intros Hok Hs Hfree. destruct (well_formed_default false (queue p) a) as [Hl Hst]; [apply Hok|].
  unfold enqueueTx. assert (sender_of tx = a) as -> by (unfold sender_of; by rewrite Hs).
  pose proof (List_Add_ok tx (PriceBump (config p)) _ _ Hl) as Hadd.
  set (l := default (newTxList false) (queue p !! a)) in *.
  pose proof (List_Add_strict tx (PriceBump (config p)) l) as Hst'.
  destruct (List_Add tx (PriceBump (config p)) l) as [[[|] old] l']; cbn [fst snd negb] in *.
  - destruct Hadd as [Eold Hl']. apply list_ok_lok in Hl' as [Hlok' Em']. unfold l in Eold. rewrite at_default in Eold.
    fold (replacing old tx (with_queue (insert a l') p)).
    destruct (replacing_index D (with_queue (insert a l') p) old tx) as (H1 & H2 & H3 & H4); [apply Hok|].
    split; [|split; [by destruct old|done]].
    apply (ok_enter_queue D p _ a tx l'); try done; [by destruct old..| |congruence]. intros t Ht Hne. apply H4; [done|congruence].
  - destruct Hadd as (-> & o & Ho & _). split; [|by eapply frame_added, frame_same].
    assert (queue p !! a = Some l) as Eq by (unfold l in Ho |- *; by destruct (queue p !! a)).
    by apply (ok_queue_sub D p a l l).
Qed.

Lemma journalTx_same a tx p : pending (journalTx a tx p) = pending p /\ queue (journalTx a tx p) = queue p /\
  all (journalTx a tx p) = all p /\ priced (journalTx a tx p) = priced p /\ config (journalTx a tx p) = config p.
Proof. unfold journalTx. destruct (journal p); [|done]. by destruct (contains _ _). Qed.

Lemma replace_pending_ok D p a tx l : pool_ok_but D p -> Tx_Sender tx = Ok a -> pending p !! a = Some l ->
  Overlaps tx l = true ->
  exists r p', replace_pending tx l p = Ret (r, p') /\ pool_ok_but D p' /\ added tx p p'.
Proof.
  intros Hok Hs El Hov. destruct (po_pending _ _ Hok a l El) as [Hl Hst].
  assert (Hfree : at_ (queue p) a (Tx_Nonce tx) = None).
  { unfold Overlaps, Get in Hov. fold (lmap l) in Hov.
    destruct (po_once _ _ Hok a (Tx_Nonce tx)) as [E|]; [|done]. rewrite (at_list _ _ _ _ El) in E. by rewrite E in Hov. }
  unfold replace_pending. assert (sender_of tx = a) as -> by (unfold sender_of; by rewrite Hs). cbn [ebind the_state].
  pose proof (List_Add_ok tx (PriceBump (config p)) l _ Hl) as Hadd.
  pose proof (List_Add_strict tx (PriceBump (config p)) l) as Hst'.
  unfold ebind, the_state.
  destruct (List_Add tx (PriceBump (config p)) l) as [[[|] old] l']; cbn [fst snd negb] in *.
  2: { eexists _, _. split; [done|]. split; [done|]. by eapply frame_added. }
  destruct Hadd as [Eold Hl']. apply list_ok_lok in Hl' as [Hlok' Em']. rewrite <- (at_list _ _ _ _ El) in Eold.
  fold (replacing old tx (with_pending (insert a l') p)). unfold update, returns.
  destruct (replacing_index D (with_pending (insert a l') p) old tx) as (H1 & H2 & H3 & H4); [apply Hok|].
  set (p1 := replacing old tx (with_pending (insert a l') p)) in *.
  destruct (journalTx_same a tx p1) as (E1 & E2 & E3 & E4 & E5).
  eexists _, _. split; [done|]. split; [|split; cbn; rewrite ?E3, ?E5; [by destruct old|done]].
  apply (ok_same D p1); cbn; try done.
  apply (ok_enter_pending D p _ a tx l'); try done; [by destruct old..| |congruence|].
  - intros t Ht Hne. apply H4; [done|congruence].
  - by rewrite Em', El.
Qed.

Lemma add_queued_ok D p a tx local : pool_ok_but D p -> Tx_Sender tx = Ok a -> at_ (pending p) a (Tx_Nonce tx) = None ->
  exists r p', add_queued tx local p = Ret (r, p') /\ pool_ok_but D p' /\ added tx p p'.
Proof.
  intros Hok Hs Hfree. destruct (enqueueTx_new D p a tx Hok Hs Hfree) as [Hok1 [Hc Ha]].
  unfold add_queued, ebind, the_state. destruct (enqueueTx (Tx_Hash tx) tx p) as [[r|e] p1]; cbn [snd] in *.
  2: { eexists _, _. by split; [|split]. }
  unfold update, returns. eexists _, _. split; [done|]. set (p2 := if local then with_local _ p1 else p1).
  assert (Hok2 : pool_ok_but D p2 /\ added tx p p2).
  { unfold p2. destruct local; [|done]. split; [by apply (ok_same D p1)|done]. }
  destruct (journalTx_same (sender_of tx) tx p2) as (E1 & E2 & E3 & E4 & E5). destruct Hok2 as [Hok2 []].
  split; [by apply (ok_same D p2)|]. split; [by rewrite E5|by rewrite E3].
Qed.

(** A configuration whose limits are lengths, and a pool that fits in memory. *)
Record config_ok (c : TxPoolConfig) : Prop := {
  co_account : 0 <= AccountSlots c;
  co_slots : 0 <= GlobalSlots c;
  co_global : 0 <= GlobalQueue c;
  co_total : GlobalSlots c + GlobalQueue c < 2 ^ 62;
  co_queue : 0 <= AccountQueue c < 2 ^ 62
}.

Definition below (bound n : Z) (p : TxPool) : Prop := Z.of_nat (size (all p)) + n < bound.
Definition fits : Z -> TxPool -> Prop := below (2 ^ 62).

Lemma below_sub bound n p p' : below bound n p -> all p' ⊆ all p -> below bound n p'.
Proof. intros Hf Hs%map_subseteq_size. unfold below in *. lia. Qed.

Lemma below_weaken bound n m p : below bound n p -> m <= n -> below bound m p.
Proof. unfold below. lia. Qed.

Lemma fits_sub n p p' : fits n p -> all p' ⊆ all p -> fits n p'.
Proof. apply below_sub. Qed.

Lemma i64_pred z : 0 <= z < 2 ^ 63 -> i64 (u64 (z - 1)) = z - 1.
Proof.
  intros Hz. destruct (decide (z = 0)) as [->|Hn]; [done|].
  rewrite u64_small by (unfold is_u64, MaxUint64; lia). apply i64_small. lia.
Qed.

Lemma make_room_ok tx p : pool_ok p -> config_ok (config p) -> fits 1 p ->
  exists r p', make_room tx p = Ret (r, p') /\ pool_ok p' /\ frame p p'.
Proof.
  intros Hok [Hc1 Hc2 Hc3 Hc4 Hc5] Hfit. unfold make_room, ebind, the_state. unfold fits, below in Hfit.
  rewrite !u64_small by (unfold is_u64, MaxUint64; lia).
  destruct (_ >=? _) eqn:Hfull; [|by eexists _, p]. boolp.
  destruct (Underpriced_correct tx (locals p) (all p) (priced p)) as (b & l1 & -> & Hl1 & _); [by apply pool_ok_priced|].
  cbn [deref fst snd]. unfold update.
  assert (Hok1 : pool_ok (with_index (all p) l1 p)).
  { destruct Hok as [? ? ? ? ?]. split; try done. by apply index_priced. }
  destruct b; [eexists _, _; split; [done|]; split; [done|by apply frame_same]|].
  rewrite i64_pred, i64_small by lia.
  destruct (Discard_spec (Z.of_nat (size (all p)) - (GlobalSlots (config p) + GlobalQueue (config p) - 1)) (locals p) (all p) l1)
    as (d & l2 & E & _ & _ & _ & Hl2); [lia|done|]. cbn in *. rewrite E. cbn [deref fst snd].
  destruct (remove_dropped d (with_index (all p) l1 p) l2 Hok1 Hl2) as (p' & E' & Hok' & Hf).
  change (with_index (all p) l2 (with_index (all p) l1 p)) with
    (with_index (all (with_index (all p) l1 p)) l2 (with_index (all p) l1 p)).
  rewrite E'. eexists _, p'. split; [done|]. split; [done|]. destruct Hf. by split.
Qed.

Lemma validateTx_sender ce tx local p : validateTx ce tx local p = inl tt -> exists a, Tx_Sender tx = Ok a.
Proof. unfold validateTx. destruct (validate_basic ce tx); [done|]. destruct (_ : bool); [done|]. destruct (Tx_Sender tx) as [a|]; [by eexists|done]. Qed.

Lemma add_ok ce tx local p : pool_ok p -> config_ok (config p) -> fits 1 p ->
  exists r p', add ce tx local p = Ret (r, p') /\ pool_ok p' /\ added tx p p'.
Proof.
  intros Hok Hc Hf. assert (Hsame : added tx p p) by by eapply frame_added.
  unfold add. erewrite ebind_run by done. destruct (found _); [by eexists _, p|].
  destruct (validateTx ce tx local p) as [[]|e] eqn:Ev; [|by eexists _, p].
  destruct (validateTx_sender _ _ _ _ Ev) as [a Ha].
  destruct (make_room_ok tx p Hok Hc Hf) as (r & p1 & E1 & Hok1 & Hf1).
  destruct r as [[]|e]; [|exists (inr e), p1; split; [by apply ebind_err|]; split; [done|by eapply frame_added]].
  rewrite (ebind_run _ _ _ _ _ E1). erewrite ebind_run by done.
  assert (sender_of tx = a) as Es by (unfold sender_of; by rewrite Ha). rewrite Es.
  assert (G : forall r p2 (m : pool_call bool), m p1 = Ret (r, p2) -> pool_ok p2 /\ added tx p1 p2 ->
    exists r p', m p1 = Ret (r, p') /\ pool_ok p' /\ added tx p p').
  { intros r p2 m E [Hok2 [H1 H2]]. exists r, p2. split; [done|]. split; [done|]. destruct Hf1 as [H3 _ H4].
    split; [congruence|]. etrans; [done|]. by apply insert_mono. }
  destruct (pending p1 !! a) as [l|] eqn:El.
  - destruct (Overlaps tx l) eqn:Ho.
    + destruct (replace_pending_ok [] p1 a tx l Hok1 Ha El Ho) as (r & p2 & E & ?). by eapply G.
    + destruct (add_queued_ok [] p1 a tx local Hok1 Ha) as (r & p2 & E & ?); [|by eapply G].
      rewrite (at_list _ _ _ _ El). unfold Overlaps, Get in Ho. unfold lmap. by destruct (items (txs l) !! Tx_Nonce tx).
  - destruct (add_queued_ok [] p1 a tx local Hok1 Ha) as (r & p2 & E & ?); [|by eapply G]. unfold at_. by rewrite El.
Qed.

(** ** Promotion and demotion *)

(** The queue of an account gives up transactions, which are forgotten. *)
Lemma drop_from_queue D p a l out l' : pool_ok_but D p -> queue p !! a = Some l -> takes l out l' ->
  exists al pl, let p' := with_index al pl (with_queue (insert a l') p) in
    forget_all (Some <$> out) (with_queue (insert a l') p) = Ret p' /\ pool_ok_but D p' /\ frame p p'.
Proof.
  intros Hok El Ht. pose proof (ok_queue_takes _ _ _ _ _ _ Hok El Ht) as Hok1.
  destruct (forget_all_ok D out _ Hok1) as (al & pl & E & Hok' & Hs & _).
  { intros tx Hin. eapply loose_unlisted; [done|]. by eapply taken_queue. }
  exists al, pl. by split_and!.
Qed.

Lemma promote_account_ok now a p : pool_ok p -> config_ok (config p) ->
  exists p', promote_account now a p = Ret p' /\ pool_ok p' /\ frame p p'.
Proof.
  intros Hok Hc. unfold promote_account. destruct (queue p !! a) as [l|] eqn:El; [|by exists p].
  destruct (po_queue _ _ Hok a l El) as [Hl Hst].
  destruct (List_Forward_takes (GetNonce (currentState p) a) l Hl) as (o1 & l1 & -> & T1). cbn [mbind outcome_bind fst snd].
  destruct (drop_from_queue [] p a l o1 l1 Hok El T1) as (al1 & pl1 & -> & Hok1 & Hf1). cbn [mbind outcome_bind].
  set (p1 := with_index al1 pl1 _) in *. assert (E1 : queue p1 !! a = Some l1) by apply lookup_insert_eq.
  destruct (List_Filter_takes (GetBalance (currentState p) a) (currentMaxGas p) l1) as (d2 & i2 & l2 & -> & T2 & Hi2); [apply T1|].
  rewrite Hi2, app_nil_r in T2 by (by rewrite (tk_strict _ _ _ T1)). cbn beta iota.
  destruct (drop_from_queue [] p1 a l1 d2 l2 Hok1 E1 T2) as (al2 & pl2 & -> & Hok2 & Hf2). cbn [mbind outcome_bind].
  set (p2 := with_index al2 pl2 _) in *. assert (E2 : queue p2 !! a = Some l2) by apply lookup_insert_eq.
  destruct (List_Ready_takes (ms_GetNonce (pendingState p2) a) l2) as (o3 & l3 & -> & T3); [apply T2|].
  cbn [mbind outcome_bind fst snd]. pose proof (ok_queue_takes _ _ _ _ _ _ Hok2 E2 T3) as Hok2'.
  destruct (promote_all_ok [] now a o3 _ Hok2') as (p3 & -> & Hok3 & Hf3 & Hq3).
  { intros tx Hin. by eapply taken_queue. }
  { by eapply takes_nonces. }
  cbn [mbind outcome_bind]. assert (E3 : queue p3 !! a = Some l3) by (rewrite Hq3; apply lookup_insert_eq).
  assert (Hf : frame p p3) by (etrans; [done|]; etrans; [done|]; etrans; [|done]; by apply frame_same).
  assert (G : exists o4 l4, (if contains (locals p3) a then Ret ([], l3) else List_Cap (i64 (AccountQueue (config p3))) l3) =
      Ret (Some <$> o4, l4) /\ takes l3 o4 l4).
  { destruct (contains _ _); [exists [], l3; split; [done|]; apply takes_refl, T3|].
    rewrite (fr_config _ _ Hf). destruct Hc. rewrite i64_small by lia.
    destruct (List_Cap_takes (AccountQueue (config p)) l3) as (o & l' & ? & ? & _); [lia|apply T3|by eauto]. }
  destruct G as (o4 & l4 & -> & T4). cbn [mbind outcome_bind fst snd].
  destruct (drop_from_queue [] p3 a l3 o4 l4 Hok3 E3 T4) as (al4 & pl4 & -> & Hok4 & Hf4). cbn [mbind outcome_bind].
  eexists. split; [done|]. split; [|destruct (Empty l4); (etrans; [done|]); [etrans; [done|]; by apply frame_same|done]].
  destruct (Empty l4); [by apply ok_queue_delete|done].
Qed.

Lemma promote_accounts_ok now accounts : forall p, pool_ok p -> config_ok (config p) ->
  exists p', promote_accounts now accounts p = Ret p' /\ pool_ok p' /\ frame p p'.
Proof.
  induction accounts as [|a accounts IH]; intros p Hok Hc; cbn [promote_accounts]; [by exists p|].
  destruct (promote_account_ok now a p Hok Hc) as (p1 & -> & Hok1 & Hf1). cbn [mbind outcome_bind].
  destruct (IH p1 Hok1) as (p2 & E & Hok2 & Hf2); [by rewrite (fr_config _ _ Hf1)|].
  exists p2. split_and!; [done|done|by etrans].
Qed.

(** A pending list gives up transactions: they are forgotten or queued. *)
Lemma drop_from_pending D p a l out out2 l' : pool_ok_but D p -> pending p !! a = Some l -> takes l (out ++ out2) l' ->
  exists al pl, let p' := with_index al pl (with_pending (insert a l') p) in
    forget_all (Some <$> out) (with_pending (insert a l') p) = Ret p' /\ pool_ok_but D p' /\ frame p p' /\
    forall tx, tx ∈ out2 -> loose p' a tx.
Proof.
  intros Hok El Ht. pose proof (ok_pending_takes _ _ _ _ _ _ Hok El Ht) as Hok1.
  assert (Hlo : forall tx, tx ∈ out ++ out2 -> loose (with_pending (insert a l') p) a tx).
  { intros tx Hin. by eapply taken_pending. }
  destruct (forget_all_ok D out _ Hok1) as (al & pl & E & Hok' & Hs & Hkeep).
  { intros tx Hin. eapply loose_unlisted; [done|]. apply Hlo, elem_of_app. by left. }
  exists al, pl. split_and!; [done..|]. intros tx Hin.
  destruct (Hlo tx) as [H1 H2 H3 H4]; [apply elem_of_app; by right|]. split; try done. cbn.
  apply Hkeep; [done|]. pose proof (tk_nodup _ _ _ Ht) as (_ & Hd & _)%NoDup_app. intros Hin'. by apply (Hd tx).
Qed.

Lemma pointees_Some (l : list Transaction) : pointees (Some <$> l) = Ret l.
Proof. induction l as [|x l IH]; [done|]. cbn in *. by rewrite IH. Qed.

Lemma demote_account_ok a p : pool_ok p ->
  exists p', demote_account a p = Ret p' /\ pool_ok p' /\ frame p p' /\
    (forall b, b <> a -> pending p' !! b = pending p !! b) /\
    (forall l, pending p' !! a = Some l -> List_Len l <> 0).
Proof.
  intros Hok. unfold demote_account. destruct (pending p !! a) as [l|] eqn:El.
  2: { exists p. split_and!; try done. intros l. by rewrite El. }
  destruct (po_pending _ _ Hok a l El) as [Hl Hst].
  destruct (List_Forward_takes (GetNonce (currentState p) a) l Hl) as (o1 & l1 & -> & T1). cbn [mbind outcome_bind fst snd].
  destruct (drop_from_pending [] p a l o1 [] l1 Hok El) as (al1 & pl1 & -> & Hok1 & Hf1 & _); [by rewrite app_nil_r|].
  cbn [mbind outcome_bind]. set (p1 := with_index al1 pl1 _) in *. assert (E1 : pending p1 !! a = Some l1) by apply lookup_insert_eq.
  destruct (List_Filter_takes (GetBalance (currentState p) a) (currentMaxGas p) l1) as (d2 & i2 & l2 & -> & T2 & _); [apply T1|].
  cbn beta iota. destruct (drop_from_pending [] p1 a l1 d2 i2 l2 Hok1 E1 T2) as (al2 & pl2 & -> & Hok2 & Hf2 & Hlo2). cbn [mbind outcome_bind].
  set (p2 := with_index al2 pl2 _) in *. assert (E2 : pending p2 !! a = Some l2) by apply lookup_insert_eq.
  assert (Hnd2 : NoDup (Tx_Nonce <$> i2)).
  { apply takes_nonces in T2. rewrite fmap_app in T2. by apply NoDup_app in T2 as (_ & _ & ?). }
  destruct (enqueue_all_ok [] a i2 p2 Hok2 Hlo2 Hnd2) as [Hok3 [Hf3 _ Hp3 _ _]]. set (p3 := enqueue_all i2 p2) in *.
  assert (E3 : pending p3 !! a = Some l2) by by rewrite Hp3.
  match goal with |- context [if ?c then List_Cap 0 l2 else _] =>
    assert (G : exists o4 l4, (if c then List_Cap 0 l2 else Ret ([], l2)) = Ret (Some <$> o4, l4) /\ takes l2 o4 l4) end.
  { destruct (_ && _); [|exists [], l2; split; [done|]; apply takes_refl, T2].
    destruct (List_Cap_takes 0 l2) as (o & l' & ? & ? & _); [lia|apply T2|by eauto]. }
  destruct G as (o4 & l4 & -> & T4). cbn [mbind outcome_bind fst snd]. rewrite pointees_Some. cbn [mbind outcome_bind].
  pose proof (ok_pending_takes _ _ _ _ _ _ Hok3 E3 T4) as Hok3'.
  destruct (enqueue_all_ok [] a o4 _ Hok3') as [Hok4 [Hf4 _ Hp4 _ _]].
  { intros tx Hin. by eapply taken_pending. }
  { by eapply takes_nonces. }
  set (p4 := enqueue_all o4 _) in *.
  assert (Hf : frame p p4) by (etrans; [done|]; etrans; [done|]; etrans; [done|]; etrans; [|done]; by apply frame_same).
  assert (Ho : forall b, b <> a -> pending p4 !! b = pending p !! b).
  { intros b Hb. rewrite Hp4. cbn. rewrite lookup_insert_ne, Hp3 by done. cbn. by rewrite !lookup_insert_ne. }
  assert (E4 : pending p4 !! a = Some l4) by (rewrite Hp4; apply lookup_insert_eq).
  eexists. split; [done|]. unfold Empty. destruct (Z.eqb_spec (List_Len l4) 0) as [Hz|Hz]; split_and!.
  - apply (ok_same [] (with_pending (delete a) p4)); try done. by apply ok_pending_delete.
  - etrans; [done|]. by apply frame_same.
  - intros b Hb. cbn. rewrite lookup_delete_ne by done. by apply Ho.
  - intros l' Hl'. cbn in Hl'. by rewrite lookup_delete_eq in Hl'.
  - done.
  - done.
  - done.
  - intros l' Hl'. congruence.
Qed.

Lemma demote_accounts_ok accounts : forall p, pool_ok p ->
  exists p', demote_accounts accounts p = Ret p' /\ pool_ok p' /\ frame p p' /\
    (forall b, b ∉ accounts -> pending p' !! b = pending p !! b) /\
    (forall b l, b ∈ accounts -> pending p' !! b = Some l -> List_Len l <> 0).
Proof.
  induction accounts as [|a accounts IH]; intros p Hok; cbn [demote_accounts].
  { exists p. split_and!; try done. by intros b l ?%elem_of_nil. }
  destruct (demote_account_ok a p Hok) as (p1 & -> & Hok1 & Hf1 & Ho1 & Hn1). cbn [mbind outcome_bind].
  destruct (IH p1 Hok1) as (p2 & E & Hok2 & Hf2 & Ho2 & Hn2).
  exists p2. split_and!; [done|done|by etrans| |].
  - intros b Hb. apply not_elem_of_cons in Hb as [Hb1 Hb2]. rewrite Ho2, Ho1; done.
  - intros b l Hb Hl. destruct (decide (b ∈ accounts)) as [Hb2|Hb2]; [by eapply Hn2|].
    apply elem_of_cons in Hb as [->|?]; [|done]. rewrite Ho2 in Hl by done. by eapply Hn1.
Qed.

(** After demotion no pending list is empty. *)
Lemma demoteUnexecutables_ok p : pool_ok p ->
  exists p', demoteUnexecutables p = Ret p' /\ pool_ok p' /\ frame p p' /\
    (forall a l, pending p' !! a = Some l -> List_Len l <> 0).
Proof.
  intros Hok. destruct (demote_accounts_ok (range (pending p)).*1 p Hok) as (p' & E & Hok' & Hf & Ho & Hn).
  exists p'. split_and!; [done..|]. intros a l Hl. destruct (decide (a ∈ (range (pending p)).*1)) as [Ha|Ha]; [by eapply Hn|].
  rewrite Ho in Hl by done. exfalso. apply Ha, list_elem_of_fmap. exists (a, l). split; [done|]. by apply elem_of_range.
Qed.

Lemma flatten_pending_ok D p a l ts l' : pool_ok_but D p -> pending p !! a = Some l -> List_Flatten l = (ts, l') ->
  pool_ok_but D (with_pending (insert a l') p) /\ lmap l' = lmap l.
Proof.
  intros Hok El E. destruct (po_pending _ _ Hok a l El) as [Hl Hst].
  destruct (List_Flatten_ok l Hl) as (ts' & l'' & E' & Hl' & Em & Hs & _). rewrite E in E'. injection E' as <- <-.
  split; [|done]. apply (ok_pending_sub D p a l l'); try done. by rewrite Em.
Qed.

Lemma set_nonces_ok accounts : forall p, pool_ok p ->
  (forall a, a ∈ accounts -> exists l, pending p !! a = Some l) ->
  (forall a l, pending p !! a = Some l -> List_Len l <> 0) ->
  exists p', set_nonces accounts p = Ret p' /\ pool_ok p' /\ frame p p'.
Proof.
  induction accounts as [|a accounts IH]; intros p Hok Hin Hne; cbn [set_nonces]; [by exists p|].
  destruct (Hin a) as [l El]; [by left|]. rewrite El.
  destruct (po_pending _ _ Hok a l El) as [Hl _].
  destruct (List_Flatten_ok l Hl) as (ts & l' & Ef & _ & Em & _ & _ & Hlen & _). rewrite Ef. cbn [fst snd].
  destruct (flatten_pending_ok [] p a l ts l' Hok El Ef) as [Hok1 _].
  destruct (last ts) as [tx|] eqn:Elast.
  2: { apply last_None in Elast as ->. exfalso. apply (Hne a l El). unfold List_Len, Len. fold (lmap l). cbn in Hlen. lia. }
  set (p1 := with_nonces _ _). destruct (IH p1) as (p' & E & Hok' & Hf').
  - by apply (ok_same [] (with_pending (insert a l') p)).
  - intros b Hb. cbn. destruct (decide (a = b)) as [->|Hab]; [rewrite lookup_insert_eq; by eexists|].
    rewrite lookup_insert_ne by done. apply Hin. by right.
  - intros b l0. cbn. intros [[<- <-]|[_ ?]]%lookup_insert_Some; [|by eapply Hne].
    unfold List_Len, Len. fold (lmap l'). rewrite Em. by apply (Hne a l).
  - exists p'. split_and!; [done|done|]. etrans; [|done]. by apply frame_same.
Qed.

(** ** The limit of the queue and eviction *)
Lemma flatten_queue_ok D p a l ts l' : pool_ok_but D p -> queue p !! a = Some l -> List_Flatten l = (ts, l') ->
  pool_ok_but D (with_queue (insert a l') p) /\ forall tx, tx ∈ ts -> sender_of tx = a.
Proof.
  intros Hok El E. destruct (po_queue _ _ Hok a l El) as [Hl Hst].
  destruct (List_Flatten_ok l Hl) as (ts' & l'' & E' & Hl' & Em & Hs & _ & _ & Hin). rewrite E in E'. injection E' as <- <-.
  split.
  - apply (ok_queue_sub D p a l l'); try done. by rewrite Em.
  - intros tx Ht%Hin. destruct (po_listed _ _ Hok a (Tx_Nonce tx) tx) as (_ & Hx & _).
    + right. by rewrite (at_list _ _ _ _ El).
    + unfold sender_of. by rewrite Hx.
Qed.

Lemma remove_queue_ok p a l ts l' txs : pool_ok p -> queue p !! a = Some l -> List_Flatten l = (ts, l') ->
  (forall tx, tx ∈ txs -> tx ∈ ts) ->
  exists p', remove_all txs (with_queue (insert a l') p) = Ret p' /\ pool_ok p' /\ frame p p' /\
    forall b, b <> a -> queue p' !! b = queue p !! b.
Proof.
  intros Hok El Ef Hsub. destruct (flatten_queue_ok [] p a l ts l' Hok El Ef) as [Hok1 Hs].
  destruct (remove_all_ok [] txs _ Hok1) as (p' & E & Hok' & [H1 H2 H3] & _ & Ho). exists p'. split_and!; [done|done|by split|].
  intros b Hb. rewrite (Ho a); [|by auto|done]. cbn. by apply lookup_insert_ne.
Qed.

Lemma drop_queued_ok addresses : forall drop p, pool_ok p -> NoDup addresses.*1 ->
  (forall a, a ∈ addresses.*1 -> exists l, queue p !! a = Some l) ->
  exists p', drop_queued addresses drop p = Ret p' /\ pool_ok p' /\ frame p p'.
Proof.
  induction addresses as [|[a t] addresses IH]; intros drop p Hok Hnd Hin; cbn [drop_queued]; [by exists p|].
  destruct (drop >? 0); [|by exists p]. cbn in Hnd. apply NoDup_cons in Hnd as [Hna Hnd].
  destruct (Hin a) as [l El]; [by left|]. rewrite El. destruct (List_Flatten l) as [ts l'] eqn:Ef. cbn [fst snd].
  destruct (_ <=? _).
  - destruct (remove_queue_ok p a l ts l' ts Hok El Ef) as (p1 & -> & Hok1 & Hf1 & Ho1); [done|]. cbn [mbind outcome_bind].
    destruct (IH (drop - List_Len l) p1 Hok1 Hnd) as (p2 & E & Hok2 & Hf2).
    + intros b Hb. rewrite Ho1 by (by intros ->). apply Hin. by right.
    + exists p2. split_and!; [done|done|by etrans].
  - destruct (remove_queue_ok p a l ts l' (take (Z.to_nat drop) (rev ts)) Hok El Ef) as (p1 & E & Hok1 & Hf1 & _); [|by eauto].
    intros tx Ht. apply elem_of_take in Ht as (i & Hi%list_elem_of_lookup_2 & _). by rewrite <- Permutation_rev in Hi.
Qed.

Lemma limit_queue_ok p : pool_ok p -> exists p', limit_queue p = Ret p' /\ pool_ok p' /\ frame p p'.
Proof.
  intros Hok. unfold limit_queue. destruct (_ >? _); [|by exists p]. set (addresses := _ <$> filter _ _).
  assert (Hp : (rev (sort_beats addresses)).*1 ≡ₚ (filter (fun e => contains (locals p) e.1 = false) (range (queue p))).*1).
  { rewrite <- Permutation_rev, sort_beats_perm. unfold addresses. by rewrite <- list_fmap_compose. }
  apply drop_queued_ok; [done| |].
  - rewrite Hp. apply NoDup_fmap_filter, NoDup_range_keys.
  - intros a. rewrite Hp, list_elem_of_fmap. intros ([b l] & -> & [_ Hr%elem_of_range]%list_elem_of_filter). eauto.
Qed.

Lemma evict_ok now accounts : forall p, pool_ok p -> exists p', evict now accounts p = Ret p' /\ pool_ok p' /\ frame p p'.
Proof.
  induction accounts as [|a accounts IH]; intros p Hok; cbn [evict]; [by exists p|].
  destruct (contains _ _); [by apply IH|]. destruct (queue p !! a) as [l|] eqn:El; [|by apply IH].
  destruct (_ >? _); [|by apply IH]. destruct (List_Flatten l) as [ts l'] eqn:Ef. cbn [fst snd].
  destruct (remove_queue_ok p a l ts l' ts Hok El Ef) as (p1 & -> & Hok1 & Hf1 & _); [done|]. cbn [mbind outcome_bind].
  destruct (IH p1 Hok1) as (p2 & E & Hok2 & Hf2). exists p2. split_and!; [done|done|by etrans].
Qed.

End operations.
