(* ===== verification/TxPoolLimits.v ===== *)
(** * The limit of the pending transactions

    When there are more pending transactions than the pool allows, the largest
    remote accounts lose their last ones, the largest first, until there are few
    enough or each is down to the slots an account is guaranteed.  The order comes from
    priorities that are [float32] numbers, exact below 2^24 transactions; above that
    the accounts may come in another order, and only the consistency of the pool
    is left. *)
From S2P Require Import Prelude GoMonad Heap TxList TxListProps TxPricedProps StateTransition TxPool TxPoolInv TxPoolProps.
Local Open Scope Z_scope.

Section limits.
Context `{PL : PoolLib} `{!MapOrder Z Transaction} `{!MapOrder Z txList} `{Laws : !PoolLaws}.
Implicit Types p : TxPool.

(** ** Counting *)
Definition total (l : list (Z * txList)) : Z := foldr (fun e acc => List_Len e.2 + acc) 0 l.

Lemma total_perm l l' : l ≡ₚ l' -> total l = total l'.
Proof. unfold total. induction 1; cbn [foldr]; lia. Qed.

Lemma count_total (lists : gmap Z txList) : count lists = total (map_to_list lists).
Proof. apply total_perm, range_perm. Qed.

Lemma List_Len_pos l : 0 <= List_Len l.
Proof. unfold List_Len, Len. lia. Qed.

Lemma count_pos (lists : gmap Z txList) : 0 <= count lists.
Proof.
  rewrite count_total. generalize (map_to_list lists). intros l. unfold total. induction l as [|e l IH]; cbn [foldr]; [done|].
  pose proof (List_Len_pos e.2). lia.
Qed.

Lemma count_delete (lists : gmap Z txList) a l : lists !! a = Some l -> count lists = List_Len l + count (delete a lists).
Proof. intros E. rewrite !count_total, <- (insert_delete_id lists a l) at 1 by done. by rewrite (total_perm _ _ (map_to_list_insert _ _ _ (lookup_delete_eq _ _))). Qed.

Lemma count_insert (lists : gmap Z txList) a l l' : lists !! a = Some l ->
  count (<[a := l']> lists) = count lists - List_Len l + List_Len l'.
Proof.
  intros E. rewrite (count_delete _ a l' (lookup_insert_eq _ _ _)), (count_delete lists a l E), delete_insert_eq. lia.
Qed.

Lemma count_members (O : list Z) : forall lists : gmap Z txList, NoDup O ->
  (forall a, a ∈ O -> exists l, lists !! a = Some l /\ 1 <= List_Len l) -> Z.of_nat (length O) <= count lists.
Proof.
  induction O as [|a O IH]; intros lists Hnd Hin; [apply count_pos|]. apply NoDup_cons in Hnd as [Ha Hnd].
  destruct (Hin a) as (l & El & Hl); [by left|]. rewrite (count_delete lists a l El). cbn.
  assert (Z.of_nat (length O) <= count (delete a lists)); [|lia]. apply IH; [done|]. intros b Hb.
  destruct (Hin b) as (lb & Eb & Hlb); [by right|]. exists lb. split; [|done]. rewrite lookup_delete_ne; [done|]. by intros ->.
Qed.

(** Every listed transaction is a different one of the pool. *)
Definition listed_txs (lists : gmap Z txList) : list Transaction :=
  map_to_list lists ≫= fun e => (map_to_list (lmap e.2)).*2.

Lemma length_listed lists : Z.of_nat (length (listed_txs lists)) = count lists.
Proof.
  rewrite count_total. unfold listed_txs. generalize (map_to_list lists). intros l. unfold total. induction l as [|e l IH]; [done|].
  cbn [foldr mbind list_bind]. rewrite length_app, length_fmap, length_map_to_list. unfold List_Len, Len, lmap in *. lia.
Qed.

Lemma elem_of_listed lists tx : tx ∈ listed_txs lists <-> exists a n, at_ lists a n = Some tx.
Proof.
  unfold listed_txs. rewrite list_elem_of_bind. split.
  - intros ([a l] & ([n t] & -> & Hn%elem_of_map_to_list)%list_elem_of_fmap & Hl%elem_of_map_to_list).
    exists a, n. unfold at_. by rewrite Hl.
  - intros (a & n & Hat). unfold at_ in Hat. destruct (lists !! a) as [l|] eqn:El; [|done]. exists (a, l).
    split; [|by apply elem_of_map_to_list]. apply list_elem_of_fmap. exists (n, tx). split; [done|]. by apply elem_of_map_to_list.
Qed.

Lemma count_pending_all D p : pool_ok_but D p -> count (pending p) <= Z.of_nat (size (all p)).
Proof.
  intros Hok. rewrite <- length_listed, <- length_map_to_list, <- (length_fmap snd). apply inj_le.
  apply submseteq_length, NoDup_submseteq.
  - unfold listed_txs. apply NoDup_bind.
    + intros [a1 l1] [a2 l2] tx H1 H2 H3 H4. cbn in *.
      assert (G : forall a l, (a, l) ∈ map_to_list (pending p) -> tx ∈ (map_to_list (lmap l)).*2 -> Tx_Sender tx = Ok a).
      { intros a l Hl%elem_of_map_to_list ([n t] & -> & Hn%elem_of_map_to_list)%list_elem_of_fmap.
        apply (po_listed _ _ Hok a n t). left. unfold at_. by rewrite Hl. }
      pose proof (G _ _ H1 H3) as E1. pose proof (G _ _ H2 H4) as E2. rewrite E1 in E2. injection E2 as <-.
      apply elem_of_map_to_list in H1, H2. congruence.
    + intros [a l] Hl%elem_of_map_to_list. cbn. destruct (po_pending _ _ Hok a l Hl) as [Hlok _].
      apply NoDup_fmap_2_strong; [|apply NoDup_map_to_list]. intros [n1 t1] [n2 t2] H1%elem_of_map_to_list H2%elem_of_map_to_list.
      cbn. intros <-. f_equal. by rewrite <- (lok_nonce _ _ _ Hlok H1), <- (lok_nonce _ _ _ Hlok H2).
    + apply NoDup_map_to_list.
  - intros tx (a & n & Hat)%elem_of_listed. destruct (po_listed _ _ Hok a n tx) as (_ & _ & Ha); [by left|].
    apply list_elem_of_fmap. exists (Tx_Hash tx, tx). split; [done|]. by apply elem_of_map_to_list.
Qed.

(** ** Dropping the last transactions *)

(** The number of pending transactions of an account. *)
Definition len (p : TxPool) (a : Z) : option Z := List_Len <$> pending p !! a.

Lemma drop_each_ok D a out : forall p, pool_ok_but D p -> (forall tx, tx ∈ out -> unlisted p tx) ->
  exists p', drop_each a (Some <$> out) p = Ret p' /\ pool_ok_but D p' /\ frame p p' /\ pending p' = pending p.
Proof.
  induction out as [|tx out IH]; intros p Hok Hu; cbn [drop_each fmap list_fmap]; [by exists p|].
  destruct (lower_nonce_same a (Tx_Nonce tx) (forget (Tx_Hash tx) p)) as (E1 & E2 & E3 & E4 & E5).
  destruct (IH (lower_nonce a (Tx_Nonce tx) (forget (Tx_Hash tx) p))) as (p' & E & Hok' & Hf & Hp).
  - apply lower_nonce_ok, ok_forget; [done|]. apply Hu. by left.
  - intros t Ht b n. rewrite E2, E3. apply (Hu t). by right.
  - exists p'. split_and!; [done|done| |by rewrite Hp, E3]. etrans; [|done]. split; [done..|]. rewrite E1. apply delete_subseteq.
Qed.

Lemma drop_last_ok p a k : pool_ok p -> len p a = Some k -> 1 <= k ->
  exists p', drop_last a p = Ret p' /\ pool_ok p' /\ frame p p' /\ len p' a = Some (k - 1) /\
    (forall b, b <> a -> pending p' !! b = pending p !! b) /\ count (pending p') = count (pending p) - 1.
Proof.
  intros Hok Hk H1. unfold len in Hk. destruct (pending p !! a) as [l|] eqn:El; [|done]. injection Hk as <-.
  unfold drop_last. rewrite El. destruct (po_pending _ _ Hok a l El) as [Hl _].
  destruct (List_Cap_takes (List_Len l - 1) l) as (out & l' & -> & Ht & Hlen); [lia|done|]. cbn [mbind outcome_bind fst snd].
  pose proof (ok_pending_takes _ _ _ _ _ _ Hok El Ht) as Hok1.
  destruct (drop_each_ok [] a out _ Hok1) as (p' & E & Hok' & [Hf1 Hf2 Hf3] & Hp).
  { intros tx Hin. eapply loose_unlisted; [done|]. by eapply taken_pending. }
  exists p'. split_and!; [done|done|by split| | |].
  - unfold len. rewrite Hp. cbn. rewrite lookup_insert_eq. cbn. f_equal. lia.
  - intros b Hb. rewrite Hp. cbn. by apply lookup_insert_ne.
  - rewrite Hp. cbn. rewrite (count_insert _ _ _ _ El). lia.
Qed.

Lemma drop_lasts_ok O : forall p k, pool_ok p -> NoDup O -> 1 <= k -> (forall a, a ∈ O -> len p a = Some k) ->
  exists p', drop_lasts O p = Ret p' /\ pool_ok p' /\ frame p p' /\
    (forall a, a ∈ O -> len p' a = Some (k - 1)) /\ (forall b, b ∉ O -> pending p' !! b = pending p !! b) /\
    count (pending p') = count (pending p) - Z.of_nat (length O).
Proof.
  induction O as [|a O IH]; intros p k Hok Hnd Hk Hlen; cbn [drop_lasts].
  { exists p. split_and!; try done; [by intros ? ?%elem_of_nil|cbn; lia]. }
  apply NoDup_cons in Hnd as [Ha Hnd].
  destruct (drop_last_ok p a k Hok) as (p1 & -> & Hok1 & Hf1 & Hl1 & Ho1 & Hc1); [apply Hlen; by left|done|].
  cbn [mbind outcome_bind]. destruct (IH p1 k Hok1 Hnd Hk) as (p2 & E & Hok2 & Hf2 & Hl2 & Ho2 & Hc2).
  - intros b Hb. unfold len. rewrite Ho1 by (by intros ->). apply Hlen. by right.
  - exists p2. split_and!; [done|done|by etrans| | |cbn; lia].
    + intros b [->|Hb]%elem_of_cons; [|by apply Hl2]. unfold len. by rewrite Ho2.
    + intros b [Hb1 Hb2]%not_elem_of_cons. by rewrite Ho2, Ho1.
Qed.

(** All the accounts have the same number of transactions. *)
Definition even (p : TxPool) (O : list Z) (k : Z) : Prop := forall a, a ∈ O -> len p a = Some k.

Lemma reduce_ok O ref floor fuel : forall n p k,
  pool_ok p -> config_ok (config p) -> fits 0 p -> NoDup O -> ref ∈ O -> even p O k -> 0 <= floor ->
  n = count (pending p) -> n <= Z.of_nat fuel ->
  exists n' p' k', reduce fuel O ref floor n p = Ret (n', p') /\ pool_ok p' /\ frame p p' /\ n' = count (pending p') /\
    (forall b, b ∉ O -> pending p' !! b = pending p !! b) /\ even p' O k' /\ Z.min k floor <= k' <= k /\
    (n' <= GlobalSlots (config p) \/ k' = Z.min k floor).
Proof.
  induction fuel as [|fuel IH]; intros n p k Hok Hc Hfit Hnd Href Hev Hfl Hn Hfuel; cbn [reduce];
    (destruct (n >? GlobalSlots (config p)) eqn:Hgt; boolp;
     [|exists n, p, k; split_and!; try done; try lia; by left]).
  { destruct Hc. lia. }
  assert (Hlen : pending_len ref p = Ret k).
  { unfold pending_len. specialize (Hev ref Href). unfold len in Hev. destruct (pending p !! ref); [|done]. by injection Hev as ->. }
  rewrite Hlen. cbn [mbind outcome_bind]. destruct (k >? floor) eqn:Hk; boolp.
  2: { exists n, p, k. split_and!; try done; try lia. }
  destruct (drop_lasts_ok O p k Hok Hnd) as (p1 & -> & Hok1 & Hf1 & Hl1 & Ho1 & Hc1); [lia|done|]. cbn [mbind outcome_bind].
  assert (HO : (1 <= length O)%nat) by (destruct O; [by apply elem_of_nil in Href|cbn; lia]).
  pose proof (count_pos (pending p1)). pose proof (count_pending_all _ _ Hok). unfold fits, below in Hfit.
  rewrite u64_small by (unfold is_u64, MaxUint64; lia).
  destruct (IH (n - Z.of_nat (length O)) p1 (k - 1)) as (n' & p' & k' & E & Hok' & Hf' & Hn' & Ho' & Hev' & Hk' & Hend);
    try done; [by rewrite (fr_config _ _ Hf1)|by eapply fits_sub, Hf1|lia|lia|].
  exists n', p', k'. split_and!; try done; try lia; [by etrans| |].
  - intros b Hb. by rewrite Ho', Ho1.
  - rewrite (fr_config _ _ Hf1) in Hend. destruct Hend; [by left|right; lia].
Qed.

(** ** Equalizing the largest accounts *)

(** The accounts keep at least [A] transactions each. *)
Definition at_least (p : TxPool) (O : list Z) (A : Z) : Prop := forall a, a ∈ O -> exists m, len p a = Some m /\ A <= m.

Lemma len_pending p p' a : pending p' !! a = pending p !! a -> len p' a = len p a.
Proof. unfold len. by intros ->. Qed.

Lemma at_least_weaken p p' O A : at_least p O A -> (forall a, a ∈ O -> pending p' !! a = pending p !! a) -> at_least p' O A.
Proof. intros Hal Hs a Ha. rewrite (len_pending p p') by by apply Hs. by apply Hal. Qed.

Lemma even_app p O a k : even p O k -> len p a = Some k -> even p (O ++ [a]) k.
Proof. intros He Ha b [Hb| ->%list_elem_of_singleton]%elem_of_app; [by apply He|done]. Qed.

(** Each spammer has at least as many transactions as the ones after it. *)
Definition decreasing (p : TxPool) : list Z -> Prop :=
  StronglySorted (fun a b => forall n m, len p a = Some n -> len p b = Some m -> m <= n).

Lemma decreasing_same p p' l : decreasing p l -> (forall a, a ∈ l -> pending p' !! a = pending p !! a) -> decreasing p' l.
Proof.
  induction 1 as [|a l Hs IH Ha]; intros Heq; constructor.
  - apply IH. intros b Hb. apply Heq. by right.
  - rewrite Forall_forall in Ha |- *. intros b Hb n m.
    rewrite !(len_pending p p') by (apply Heq; first [by left|by right]). by apply Ha.
Qed.

Lemma equalize_ok A spammers : forall O n p k,
  pool_ok p -> config_ok (config p) -> fits 0 p -> NoDup (O ++ spammers) -> 0 <= A ->
  n = count (pending p) -> at_least p (O ++ spammers) A -> decreasing p spammers ->
  (GlobalSlots (config p) < n -> even p O k /\ forall a m, O <> [] -> a ∈ spammers -> len p a = Some m -> m <= k) ->
  exists O' n' p' k', equalize spammers O n p = Ret (O', n', p') /\ pool_ok p' /\ frame p p' /\ n' = count (pending p') /\
    (forall b, b ∉ O ++ spammers -> pending p' !! b = pending p !! b) /\ at_least p' (O ++ spammers) A /\
    (GlobalSlots (config p) < n' -> O' = O ++ spammers /\ even p' O' k').
Proof.
  induction spammers as [|a spammers IH]; intros O n p k Hok Hc Hfit Hnd HA Hn Hal Hdec Hev; cbn [equalize].
  { rewrite app_nil_r in *. exists O, n, p, k. split_and!; try done. intros Hgt. split; [done|]. by apply Hev. }
  destruct (n >? GlobalSlots (config p)) eqn:Hgt; boolp.
  2: { exists O, n, p, k. split_and!; try done. lia. }
  destruct (Hev Hgt) as [Hev1 Hev2]. apply StronglySorted_inv in Hdec as [Hdec Hfirst].
  destruct (Hal a) as (m & Hm & HAm); [apply elem_of_app; right; by left|].
  assert (Hassoc : O ++ a :: spammers = (O ++ [a]) ++ spammers) by by rewrite <- app_assoc.
  assert (Hlater : forall b, b ∈ spammers -> forall mb, len p b = Some mb -> mb <= m).
  { rewrite Forall_forall in Hfirst. intros b Hb mb Hmb. by eapply Hfirst. }
  destruct (last O) as [previous|] eqn:Elast.
  2: { apply last_None in Elast as ->. cbn in *.
       destruct (IH [a] n p m) as (O' & n' & p' & k' & ?); try done; [|by exists O', n', p', k'].
       intros _. split; [|by eauto]. by intros b ->%list_elem_of_singleton. }
  assert (Hprev : previous ∈ O) by (by apply last_Some_elem_of).
  assert (HO : O <> []) by (by intros ->). rewrite Hassoc in *.
  pose proof (proj1 (NoDup_app _ _) Hnd) as (Hnd1 & Hdisj & _). apply NoDup_app in Hnd1 as (HndO & Hdisj2 & _).
  assert (Hpl : pending_len a p = Ret m).
  { unfold pending_len. unfold len in Hm. destruct (pending p !! a); [|done]. by injection Hm as ->. }
  rewrite Hpl. cbn [mbind outcome_bind]. pose proof (count_pos (pending p)).
  destruct (reduce_ok O previous m (Z.to_nat n) n p k) as (n1 & p1 & k1 & -> & Hok1 & Hf1 & Hn1 & Ho1 & Hev3 & Hk1 & Hend1);
    try done; [lia|lia|]. cbn [mbind outcome_bind fst snd].
  assert (Hkm : m <= k) by (eapply Hev2; [done|by left|done]).
  assert (Ha1 : len p1 a = Some m).
  { rewrite <- Hm. apply len_pending, Ho1. intros Hin. apply (Hdisj2 a); [done|]. by left. }
  assert (Hrest : forall b, b ∈ spammers -> pending p1 !! b = pending p !! b).
  { intros b Hb. apply Ho1. intros Hin. apply (Hdisj b); [|done]. apply elem_of_app. by left. }
  assert (Hal1 : at_least p1 ((O ++ [a]) ++ spammers) A).
  { intros b [[Hb| ->%list_elem_of_singleton]%elem_of_app|Hb]%elem_of_app.
    - exists k1. split; [by apply Hev3|lia].
    - eauto.
    - rewrite (len_pending p p1) by by apply Hrest. apply Hal, elem_of_app. by right. }
  destruct (IH (O ++ [a]) n1 p1 m) as (O' & n' & p' & k' & E & Hok' & Hf' & Hn' & Ho' & Hal' & Hend'); try done.
  - by rewrite (fr_config _ _ Hf1).
  - by eapply fits_sub, Hf1.
  - by eapply decreasing_same.
  - rewrite (fr_config _ _ Hf1). intros Hgt1. destruct Hend1 as [|Hk]; [lia|]. replace m with k1 in * by lia. split.
    + by apply even_app.
    + intros b mb _ Hb. rewrite (len_pending p p1) by by apply Hrest. by apply Hlater.
  - exists O', n', p', k'. split_and!; try done; [by etrans| |by rewrite <- (fr_config _ _ Hf1)].
    intros b Hb. rewrite Ho' by done. apply Ho1. intros Hin. apply Hb. rewrite !elem_of_app. by auto.
Qed.

(** What limiting the pending transactions does: accounts that are local or within
    their slots are left alone, every account keeps its slots, and in the end
    there are few enough transactions, or no remote account has more than its
    slots. *)
Record limited (p p' : TxPool) : Prop := {
  li_spared : forall a l, pending p !! a = Some l ->
    contains (locals p) a = true \/ List_Len l <= AccountSlots (config p) -> pending p' !! a = Some l;
  li_slots : forall a l, pending p !! a = Some l ->
    exists l', pending p' !! a = Some l' /\ Z.min (List_Len l) (AccountSlots (config p)) <= List_Len l';
  li_limit : count (pending p') <= GlobalSlots (config p) \/
    forall a l, pending p' !! a = Some l -> contains (locals p) a = false -> List_Len l <= AccountSlots (config p)
}.

(** The largest accounts, and what the priority queue makes of them. *)
Lemma spammers_ok p : pool_ok p -> below (2 ^ 24) 0 p ->
  let big := filter (fun e => contains (locals p) e.1 = false /\ AccountSlots (config p) < List_Len e.2) (range (pending p)) in
  let spammers := prque_order ((fun e => (e.1, float32 (List_Len e.2))) <$> big) in
  NoDup spammers /\ decreasing p spammers /\
  (forall a, a ∈ spammers <-> exists l, pending p !! a = Some l /\ contains (locals p) a = false /\ AccountSlots (config p) < List_Len l).
Proof.
  intros Hok Hsmall big spammers.
  assert (Hfl : forall a l, pending p !! a = Some l -> float32 (List_Len l) = List_Len l).
  { intros a l El. apply float32_small. split; [apply List_Len_pos|]. pose proof (count_pending_all _ _ Hok) as Hc.
    rewrite (count_delete _ _ _ El) in Hc. pose proof (count_pos (delete a (pending p))). unfold below in Hsmall. lia. }
  assert (Hp : spammers ≡ₚ big.*1).
  { unfold spammers. rewrite prque_perm, <- list_fmap_compose. done. }
  assert (Hnd : NoDup big.*1) by apply NoDup_fmap_filter, NoDup_range_keys.
  assert (Hin : forall a l, (a, l) ∈ big <-> pending p !! a = Some l /\ contains (locals p) a = false /\ AccountSlots (config p) < List_Len l).
  { intros a l. unfold big. rewrite list_elem_of_filter, elem_of_range. cbn. tauto. }
  assert (Hmem : forall a, a ∈ spammers <-> exists l, (a, l) ∈ big).
  { intros a. rewrite Hp, list_elem_of_fmap. split; [by intros ([b l] & -> & ?); eauto|]. intros [l ?]. by exists (a, l). }
  split_and!; [by rewrite Hp| |].
  - assert (Hs : StronglySorted _ spammers) by (apply prque_sorted; by rewrite <- list_fmap_compose).
    assert (Hsub : forall a, a ∈ spammers -> exists l, (a, l) ∈ big) by (intros a; apply Hmem).
    clearbody spammers. clear Hp Hmem. induction Hs as [|a l Hs IH Ha]; constructor.
    + apply IH. intros b Hb. apply Hsub. by right.
    + rewrite Forall_forall in Ha |- *. intros b Hb n m Hn Hm.
      destruct (Hsub a) as [la Hla]; [by left|]. destruct (Hsub b) as [lb Hlb]; [by right|].
      apply (Ha b Hb); apply list_elem_of_fmap; [exists (a, la)|exists (b, lb)]; (split; [|done]); cbn; f_equal;
        [apply Hin in Hla as [E _]|apply Hin in Hlb as [E _]]; rewrite (Hfl _ _ E); unfold len in *; rewrite E in *; cbn in *; congruence.
  - intros a. rewrite Hmem. by setoid_rewrite Hin.
Qed.

Lemma len_Some p a m : len p a = Some m <-> exists l, pending p !! a = Some l /\ List_Len l = m.
Proof. unfold len. destruct (pending p !! a); cbn; naive_solver. Qed.

Lemma limit_pending_ok p : pool_ok p -> config_ok (config p) -> below (2 ^ 24) 0 p ->
  exists p', limit_pending p = Ret p' /\ pool_ok p' /\ frame p p' /\ limited p p'.
Proof.
  intros Hok Hc Hsmall. assert (Hfit : fits 0 p) by (unfold fits, below in *; lia). unfold limit_pending. set (n := count (pending p)).
  destruct (n >? GlobalSlots (config p)) eqn:Hgt; boolp.
  2: { exists p. split_and!; try done. split; [done| |by left]. intros a l E. exists l. split; [done|lia]. }
  destruct (spammers_ok p Hok Hsmall) as (Hnd & Hdec & Hin). set (spammers := prque_order _) in *.
  set (A := AccountSlots (config p)) in *. assert (HA : 0 <= A) by apply Hc.
  destruct (equalize_ok A spammers [] n p 0) as (O & n1 & p1 & k1 & -> & Hok1 & Hf1 & Hn1 & Ho1 & Hal1 & Hend1); try done.
  { intros a (l & El & _ & Hl)%Hin. exists (List_Len l). unfold len. rewrite El. split; [done|lia]. }
  { intros _. split; [by intros a ?%elem_of_nil|done]. }
  cbn [mbind outcome_bind app] in *.
  assert (G : forall p2, (forall b, b ∉ spammers -> pending p2 !! b = pending p !! b) -> at_least p2 spammers A ->
    (count (pending p2) <= GlobalSlots (config p) \/ forall a m, a ∈ spammers -> len p2 a = Some m -> m <= A) -> limited p p2).
  { intros p2 Ho Hal Hl. split.
    - intros a l El Hs. rewrite Ho; [done|]. intros (l' & El' & Hloc & Hlt)%Hin. rewrite El in El'. injection El' as <-.
      destruct Hs as [Hs|Hs]; [congruence|fold A in Hs; lia].
    - intros a l El. destruct (decide (a ∈ spammers)) as [Ha|Ha].
      + destruct (Hal a Ha) as (m & (l' & El' & <-)%len_Some & Hm). exists l'. split; [done|]. fold A. lia.
      + exists l. rewrite Ho by done. split; [done|lia].
    - destruct Hl as [|Hl]; [by left|right]. intros a l El Hloc. fold A. destruct (decide (a ∈ spammers)) as [Ha|Ha].
      + apply (Hl a); [done|]. unfold len. by rewrite El.
      + rewrite Ho in El by done. destruct (Z.le_gt_cases (List_Len l) A); [done|]. exfalso. apply Ha, Hin. eauto. }
  destruct (decide (GlobalSlots (config p) < n1)) as [Hgt1|Hle1].
  2: { assert (Hl1 : limited p p1) by (apply G; try done; left; lia).
       destruct (last O) as [ref|]; [|by exists p1].
       assert (Er : forall f O r fl, reduce f O r fl n1 p1 = Ret (n1, p1)).
       { intros f O0 r fl. rewrite <- (fr_config _ _ Hf1) in Hle1. destruct f; cbn [reduce];
           (destruct (n1 >? GlobalSlots (config p1)) eqn:Hx; [boolp; lia|done]). }
       rewrite Er. by exists p1. }
  destruct (Hend1 Hgt1) as [-> Hev]. destruct (last spammers) as [ref|] eqn:Elast.
  2: { apply last_None in Elast. exists p1. split_and!; try done. apply G; try done. right. rewrite Elast. by intros a m ?%elem_of_nil. }
  pose proof (count_pos (pending p1)).
  destruct (reduce_ok spammers ref (AccountSlots (config p1)) (Z.to_nat n1) n1 p1 k1)
    as (n2 & p2 & k2 & -> & Hok2 & Hf2 & Hn2 & Ho2 & Hev2 & Hk2 & Hend2); try done.
  - by rewrite (fr_config _ _ Hf1).
  - by eapply fits_sub, Hf1.
  - by apply last_Some_elem_of.
  - by rewrite (fr_config _ _ Hf1).
  - lia.
  - rewrite (fr_config _ _ Hf1) in *. fold A in Hk2, Hend2. exists p2. split_and!; [done|done|by etrans|].
    apply G; [intros b Hb; by rewrite Ho2, Ho1| |].
    + intros a Ha. exists k2. split; [by apply Hev2|]. destruct (Hal1 a Ha) as (m & Hm & HAm). rewrite (Hev a Ha) in Hm.
      injection Hm as ->. lia.
    + destruct Hend2 as [|Hk]; [left; lia|right]. intros a m Ha Hm. rewrite (Hev2 a Ha) in Hm. injection Hm as <-. lia.
Qed.


(** ** Any number of transactions

    Without the order of the priorities, dropping transactions still keeps the pool
    consistent. *)
Lemma Cap_empty l k : k < 0 -> List_Len l = 0 -> List_Cap k l = Panic.
Proof.
  intros Hk Hl. unfold List_Len, Len in Hl. unfold List_Cap, Cap. rewrite Hl.
  destruct (0 <=? k) eqn:Hle; boolp; [lia|]. destruct (Z.to_nat (0 - k)) eqn:E; [lia|]. done.
Qed.

Lemma drop_last_sound a p : pool_ok p -> returns_when False (fun p' => pool_ok p' /\ frame p p') (drop_last a p).
Proof.
  intros Hok. destruct (len p a) as [k|] eqn:Ek.
  - destruct (decide (1 <= k)) as [Hk|Hk].
    + destruct (drop_last_ok p a k Hok Ek Hk) as (p' & -> & ? & ? & _). done.
    + unfold drop_last. unfold len in Ek. destruct (pending p !! a) as [l|]; [|by intros []]. injection Ek as <-.
      pose proof (List_Len_pos l). rewrite Cap_empty by lia. by intros [].
  - unfold drop_last. unfold len in Ek. destruct (pending p !! a); [done|]. by intros [].
Qed.

Lemma drop_lasts_sound O : forall p, pool_ok p -> returns_when False (fun p' => pool_ok p' /\ frame p p') (drop_lasts O p).
Proof.
  induction O as [|a O IH]; intros p Hok; cbn [drop_lasts]; [by split|].
  eapply when_bind; [by apply drop_last_sound|]. intros p1 [Hok1 Hf1].
  eapply when_impl; [by apply IH|done|]. intros p2 [Hok2 Hf2]. split; [done|by etrans].
Qed.

Lemma reduce_sound O ref floor fuel : forall n p, pool_ok p ->
  returns_when False (fun r => pool_ok (snd r) /\ frame p (snd r)) (reduce fuel O ref floor n p).
Proof.
  induction fuel as [|fuel IH]; intros n p Hok; cbn [reduce]; (destruct (_ >? _); [|by split]);
    unfold pending_len; (destruct (pending p !! ref) as [l|]; [|by intros []]); cbn [mbind outcome_bind]; (destruct (_ >? _); [|by split]); [by intros []|].
  eapply when_bind; [by apply drop_lasts_sound|]. intros p1 [Hok1 Hf1].
  eapply when_impl; [by apply IH|done|]. intros [n2 p2] [Hok2 Hf2]. split; [done|by etrans].
Qed.

Lemma equalize_sound spammers : forall O n p, pool_ok p ->
  returns_when False (fun r => pool_ok (snd r) /\ frame p (snd r)) (equalize spammers O n p).
Proof.
  induction spammers as [|a spammers IH]; intros O n p Hok; cbn [equalize]; [by split|].
  destruct (_ >? _); [|by split]. destruct (last O) as [previous|]; [|by apply IH].
  unfold pending_len. destruct (pending p !! a) as [l|]; [|by intros []]. cbn [mbind outcome_bind].
  eapply when_bind; [by apply reduce_sound|]. intros [n1 p1] [Hok1 Hf1].
  eapply when_impl; [by apply IH|done|]. intros [[O2 n2] p2] [Hok2 Hf2]. split; [done|by etrans].
Qed.

Lemma limit_pending_sound p : pool_ok p -> returns_when False (fun p' => pool_ok p' /\ frame p p') (limit_pending p).
Proof.
  intros Hok. unfold limit_pending. destruct (_ >? _); [|by split].
  eapply when_bind; [by apply equalize_sound|]. intros [[O n1] p1] [Hok1 Hf1]. cbn [snd] in *.
  destruct (last O) as [ref|]; [|by split]. eapply when_bind; [by apply reduce_sound|].
  intros [n2 p2] [Hok2 Hf2]. split; [done|by etrans].
Qed.

(** Limiting keeps the pool consistent, and returns when the priorities are exact. *)
Lemma limit_pending_returns p : pool_ok p -> config_ok (config p) ->
  returns_when (below (2 ^ 24) 0 p) (fun p' => pool_ok p' /\ frame p p') (limit_pending p).
Proof.
  intros Hok Hc. pose proof (limit_pending_sound p Hok) as Hs. pose proof (limit_pending_ok p Hok Hc) as Ht.
  destruct (limit_pending p); [done|..]; intros Hb; destruct (Ht Hb) as (? & ? & _); done.
Qed.


End limits.
