(* ===== verification/TxPoolReach.v ===== *)
(** * The transaction pool in use

    The operations the rest of the node calls and the events of the pool's loop,
    in any order, from a new pool, with or without the state of a head: each returns,
    and the pool stays consistent; what a reorganization gives back; what limiting
    the pending transactions guarantees; and a path on which transactions are lost. *)
From S2P Require Import Prelude GoMonad Heap TxList TxListProps TxPricedProps StateTransition TxPool TxPoolInv TxPoolProps TxPoolLimits.
Local Open Scope Z_scope.

Section reach.
Context `{PL : PoolLib} `{!MapOrder Z Transaction} `{!MapOrder Z txList} `{!MapOrder Z unit} `{Laws : !PoolLaws}.
Implicit Types p : TxPool.

(** ** Adding and following the chain

    The results of these are consistent pools; that they return needs the exact
    priorities of fewer than 2^24 transactions. *)
Definition small : Z -> TxPool -> Prop := below (2 ^ 24).

Lemma promoteExecutables_ok now accounts p : pool_ok p -> config_ok (config p) ->
  returns_when (small 0 p) (fun p' => pool_ok p' /\ frame p p') (promoteExecutables now accounts p).
Proof.
  intros Hok Hc. unfold promoteExecutables.
  destruct (promote_accounts_ok now (match accounts with Some l => l | None => (range (queue p)).*1 end) p Hok Hc)
    as (p1 & -> & Hok1 & Hf1). cbn [mbind outcome_bind].
  eapply when_bind.
  { eapply when_impl; [apply limit_pending_returns; [done|by rewrite (fr_config _ _ Hf1)]| |done].
    intros Hs. by eapply below_sub, Hf1. }
  intros p2 [Hok2 Hf2]. destruct (limit_queue_ok p2 Hok2) as (p3 & -> & Hok3 & Hf3). split; [done|]. etrans; [done|]. by etrans.
Qed.

(** At most [n] more transactions. *)
Definition grows (n : Z) (p p' : TxPool) : Prop := Z.of_nat (size (all p')) <= Z.of_nat (size (all p)) + n.

Lemma grows_below bound n m p p' : grows n p p' -> below bound (n + m) p -> below bound m p'.
Proof. unfold grows, below. lia. Qed.

Lemma grows_trans n m p p' p'' : grows n p p' -> grows m p' p'' -> grows (n + m) p p''.
Proof. unfold grows. lia. Qed.

Lemma frame_grows p p' : frame p p' -> grows 0 p p'.
Proof. intros [_ _ Hs%map_subseteq_size]. unfold grows. lia. Qed.

Lemma added_grows tx p p' : added tx p p' -> grows 1 p p'.
Proof.
  intros [_ Ha%map_subseteq_size]. unfold grows. pose proof (map_size_insert (Tx_Hash tx) tx (all p)).
  destruct (all p !! Tx_Hash tx); cbn in *; lia.
Qed.

(** A consistent pool with a sensible configuration. *)
Definition sound (p : TxPool) : Prop := pool_ok p /\ config_ok (config p).

Lemma frame_sound p p' : pool_ok p' -> frame p p' -> config_ok (config p) -> sound p'.
Proof. intros Hok Hf Hc. split; [done|]. by rewrite (fr_config _ _ Hf). Qed.

Lemma promoteExecutables_sound now accounts p : sound p ->
  returns_when (small 0 p) (fun p' => sound p' /\ grows 0 p p') (promoteExecutables now accounts p).
Proof.
  intros [Hok Hc]. eapply when_impl; [by apply promoteExecutables_ok|done|]. intros p' [Hok' Hf].
  split; [by eapply frame_sound|by apply frame_grows].
Qed.

Lemma addTx_ok ce now tx local p : sound p -> fits 1 p ->
  returns_when (small 1 p) (fun r => sound (snd r) /\ grows 1 p (snd r)) (addTx ce now tx local p).
Proof.
  intros [Hok Hc] Hf. unfold addTx. destruct (Tx_Sender tx) as [a|]; [|split; [done|unfold grows; cbn; lia]].
  destruct (add_ok ce tx local p Hok Hc Hf) as (r & p1 & E1 & Hok1 & Ha1).
  assert (Hs1 : sound p1) by (split; [done|by rewrite (ad_config _ _ _ Ha1)]). apply added_grows in Ha1.
  destruct r as [replace|e]; [|by rewrite (ebind_err _ _ _ _ _ E1)].
  rewrite (ebind_run _ _ _ _ _ E1). destruct replace; [done|]. erewrite ebind_run by done.
  pose proof (promoteExecutables_sound now (Some [a]) p1 Hs1) as Hp. unfold ebind at 1, deref.
  destruct (promoteExecutables now (Some [a]) p1) as [p2| |].
  - destruct Hp as [Hs2 Hg2]. split; [done|]. change 1 with (1 + 0). by eapply grows_trans.
  - intros Hb. apply Hp. by eapply grows_below.
  - intros Hb. apply Hp. by eapply grows_below.
Qed.

Lemma add_each_ok ce txs local : forall dirty p, sound p -> fits (Z.of_nat (length txs)) p ->
  exists d p', add_each ce txs local dirty p = Ret (d, p') /\ sound p' /\ grows (Z.of_nat (length txs)) p p'.
Proof.
  induction txs as [|tx txs IH]; intros dirty p [Hok Hc] Hf; cbn [add_each].
  { exists dirty, p. split_and!; [done..|]. unfold grows. lia. }
  cbn [length] in *. replace (Z.of_nat (S (length txs))) with (1 + Z.of_nat (length txs)) in * by lia.
  destruct (add_ok ce tx local p Hok Hc) as (r & p1 & -> & Hok1 & Ha1); [eapply below_weaken; [done|lia]|].
  assert (Hs1 : sound p1) by (split; [done|by rewrite (ad_config _ _ _ Ha1)]). apply added_grows in Ha1.
  assert (Hn : forall d, exists d' p', add_each ce txs local d p1 = Ret (d', p') /\ sound p' /\ grows (1 + Z.of_nat (length txs)) p p').
  { intros d. destruct (IH d p1 Hs1) as (d' & p' & E & Hs' & Hg); [by eapply grows_below|]. exists d', p'. split_and!; [done..|by eapply grows_trans]. }
  destruct r; apply Hn.
Qed.

Lemma addTxsLocked_ok ce now txs local p : sound p -> fits (Z.of_nat (length txs)) p ->
  returns_when (small (Z.of_nat (length txs)) p) (fun p' => sound p' /\ grows (Z.of_nat (length txs)) p p')
    (addTxsLocked ce now txs local p).
Proof.
  intros Hs Hf. unfold addTxsLocked. destruct (add_each_ok ce txs local ∅ p Hs Hf) as (d & p1 & -> & Hs1 & Hg1).
  cbn [mbind outcome_bind fst snd]. destruct (Nat.ltb _ _); [|done].
  eapply when_impl; [by apply promoteExecutables_sound| |].
  - intros Hb. eapply grows_below; [done|]. by rewrite Z.add_0_r.
  - intros p2 [Hs2 Hg2]. split; [done|]. rewrite <- (Z.add_0_r (Z.of_nat _)). by eapply grows_trans.
Qed.

Lemma revalidate_ok now p : sound p -> returns_when (small 0 p) (fun p' => sound p' /\ grows 0 p p') (revalidate now p).
Proof.
  intros [Hok Hc]. unfold revalidate. destruct (demoteUnexecutables_ok p Hok) as (p2 & -> & Hok2 & Hf2 & Hne). cbn [mbind outcome_bind].
  destruct (set_nonces_ok (range (pending p2)).*1 p2 Hok2) as (p3 & -> & Hok3 & Hf3); [|done|].
  { intros a ([b l] & -> & Hl%elem_of_range)%list_elem_of_fmap. eauto. }
  cbn [mbind outcome_bind]. assert (Hf : frame p p3) by by etrans.
  eapply when_impl; [apply (promoteExecutables_sound now None p3); by eapply frame_sound| |].
  - intros Hb. by eapply below_sub, Hf.
  - intros p4 [Hs4 Hg4]. split; [done|]. eapply (grows_trans 0 0); [by apply frame_grows|done].
Qed.

Lemma reset_to_ok ce now txs db gas p : sound p -> fits (Z.of_nat (length txs)) p ->
  returns_when (small (Z.of_nat (length txs)) p) (fun p' => sound p' /\ grows (Z.of_nat (length txs)) p p')
    (reset_to ce now txs db gas p).
Proof.
  intros [Hok Hc] Hf. unfold reset_to. eapply when_bind.
  { apply (addTxsLocked_ok ce now txs false (with_head db gas p)); [|done]. split; [by apply (ok_same [] p)|done]. }
  intros p1 [Hs1 Hg1]. eapply when_impl; [by apply revalidate_ok| |].
  - intros Hb. eapply grows_below; [done|]. by rewrite Z.add_0_r.
  - intros p2 [Hs2 Hg2]. split; [done|]. rewrite <- (Z.add_0_r (Z.of_nat _)). by eapply grows_trans.
Qed.

(** The transactions of a reorganization, when there is one. *)
Definition reinjects (bound : Z) (fuel : nat) (GetBlock : Z -> Z -> option PoolBlock) (old : option (Z * Z)) (head : Head) (p : TxPool) : Prop :=
  forall txs, reinject fuel GetBlock old head = Ret (Some txs) -> below bound (Z.of_nat (length txs)) p.

Lemma reset_ok ce now fuel GetBlock old head p : sound p -> reinjects (2 ^ 62) fuel GetBlock old head p ->
  returns_when ((exists r, reinject fuel GetBlock old head = Ret r) /\ reinjects (2 ^ 24) fuel GetBlock old head p) sound
    (reset ce now fuel GetBlock old head p).
Proof.
  intros Hs Hf. unfold reset. destruct (reinject fuel GetBlock old head) as [r| |] eqn:Er; [|by intros [[? [=]] _]..].
  cbn [mbind outcome_bind]. destruct r as [txs|]; [|done]. destruct (hd_State head) as [db|]; [|done].
  eapply when_impl; [apply (reset_to_ok ce now txs db (hd_GasLimit head) p Hs); by apply Hf| |by intros p' [? _]].
  intros [_ Hb]. by apply Hb.
Qed.

(** Flattening the lists leaves them alone. *)
Lemma ok_flatten D p p' : pool_ok_but D p -> all p' = all p -> priced p' = priced p ->
  (forall a, pending p' !! a = pending p !! a \/ pending p' !! a = (fun l => snd (List_Flatten l)) <$> pending p !! a) ->
  (forall a, queue p' !! a = queue p !! a \/ queue p' !! a = (fun l => snd (List_Flatten l)) <$> queue p !! a) ->
  pool_ok_but D p'.
Proof.
  intros Hok Ea El Hp Hq.
  assert (G : forall b (lists lists' : gmap Z txList), well_formed b lists ->
    (forall a, lists' !! a = lists !! a \/ lists' !! a = (fun l => snd (List_Flatten l)) <$> lists !! a) ->
    well_formed b lists' /\ forall a n, at_ lists' a n = at_ lists a n).
  { intros b lists lists' Hw Hsame.
    assert (Hl : forall a l', lists' !! a = Some l' -> exists l, lists !! a = Some l /\ lok l' /\ strict l' = b /\ lmap l' = lmap l).
    { intros a l' Hl'. destruct (Hsame a) as [E|E]; rewrite E in Hl'; [destruct (Hw a l' Hl'); by eauto|].
      apply fmap_Some in Hl' as (l & Ela & ->). destruct (Hw a l Ela) as [Hl Hs].
      destruct (List_Flatten_ok l Hl) as (ts & l' & Ef & ? & ? & ? & _). rewrite Ef. cbn [snd]. exists l. split_and!; [done..|congruence|done]. }
    split; [intros a l' Hl'; destruct (Hl a l' Hl') as (? & ? & ? & ? & ?); by split|].
    intros a n. unfold at_. destruct (lists' !! a) as [l'|] eqn:E.
    - destruct (Hl a l' E) as (l & -> & _ & _ & Em). cbn. by rewrite Em.
    - destruct (Hsame a) as [E'|E']; rewrite E in E'; [by rewrite <- E'|]. by destruct (lists !! a). }
  destruct (G true _ _ (po_pending _ _ Hok) Hp) as [Hwp HatP]. destruct (G false _ _ (po_queue _ _ Hok) Hq) as [Hwq HatQ].
  apply (ok_sub D p); try done; intros a n tx; [by rewrite HatP|by rewrite HatQ].
Qed.

Lemma cache_lists_lookup (lists : gmap Z txList) a : cache_lists lists !! a = (fun l => snd (List_Flatten l)) <$> lists !! a.
Proof. apply lookup_fmap. Qed.

Lemma flatten_local_lookup S (lists : gmap Z txList) a : flatten_local S lists !! a = lists !! a \/
  flatten_local S lists !! a = (fun l => snd (List_Flatten l)) <$> lists !! a.
Proof.
  unfold flatten_local. rewrite map_lookup_imap. destruct (lists !! a) as [l|]; [|by left]. cbn.
  destruct (contains S a); [by right|by left].
Qed.

Lemma Content_ok p : sound p -> sound (snd (Content p)).
Proof.
  intros [Hok Hc]. split; [|done]. apply (ok_flatten [] p); try done; intros a; right; apply cache_lists_lookup.
Qed.

Lemma Pending_ok p : sound p -> sound (snd (Pending p)).
Proof.
  intros [Hok Hc]. split; [|done]. apply (ok_flatten [] p); try done; intros a; [right; apply cache_lists_lookup|by left].
Qed.

Lemma journal_tick_ok io accounts p : sound p -> sound (journal_tick io accounts p).
Proof.
  intros [Hok Hc]. unfold journal_tick. destruct (journal p); [|done]. split; [|done].
  apply (ok_flatten [] p); try done; intros a; apply flatten_local_lookup.
Qed.

(** ** Reorganizations *)

(** The difference of two lists of transactions, by their hashes. *)
Class TxDifferenceLaw : Prop := {
  TxDifference_in : forall l l' tx,
    tx ∈ TxDifference l l' <-> tx ∈ l /\ forall t, t ∈ l' -> Tx_Hash t <> Tx_Hash tx
}.

Section reorg.
Context (GetBlock : Z -> Z -> option PoolBlock).

(** The blocks the chain gives back are under their hash and number, have a parent
    down to the genesis block, and hashes do not collide. *)
Record chain_ok : Prop := {
  ch_found : forall h n b, GetBlock h n = Some b -> pb_Hash b = h /\ pb_Number b = n /\ is_u64 n;
  ch_unique : forall h n n' b b', GetBlock h n = Some b -> GetBlock h n' = Some b' -> b = b';
  ch_parent : forall h n b, GetBlock h n = Some b -> 0 < n -> exists b', GetBlock (pb_ParentHash b) (n - 1) = Some b';
  ch_genesis : forall h h' b b', GetBlock h 0 = Some b -> GetBlock h' 0 = Some b' -> h = h'
}.

Definition in_chain (b : PoolBlock) : Prop := GetBlock (pb_Hash b) (pb_Number b) = Some b.

(** The blocks from one down to, and without, an ancestor. *)
Inductive branch : PoolBlock -> PoolBlock -> list PoolBlock -> Prop :=
| branch_nil b : branch b b []
| branch_cons b b' c bs : parent_block GetBlock b = Some b' -> branch b' c bs -> branch b c (b :: bs).

Definition txs_of (bs : list PoolBlock) : list Transaction := bs ≫= pb_Transactions.

Lemma branch_app b c d bs bs' : branch b c bs -> branch c d bs' -> branch b d (bs ++ bs').
Proof. induction 1; [done|]. intros. econstructor; eauto. Qed.

Lemma txs_of_cons b bs : txs_of (b :: bs) = pb_Transactions b ++ txs_of bs.
Proof. done. Qed.

Lemma txs_of_app bs bs' : txs_of (bs ++ bs') = txs_of bs ++ txs_of bs'.
Proof. apply bind_app. Qed.

Hypothesis Hchain : chain_ok.

Lemma found_in_chain h n b : GetBlock h n = Some b -> in_chain b /\ pb_Hash b = h /\ pb_Number b = n.
Proof. intros Hb. destruct (ch_found Hchain h n b Hb) as (<- & <- & _). done. Qed.

Lemma parent_in_chain b : in_chain b -> 0 < pb_Number b ->
  exists b', parent_block GetBlock b = Some b' /\ in_chain b' /\ pb_Number b' = pb_Number b - 1.
Proof.
  intros Hb Hn. destruct (ch_parent Hchain _ _ _ Hb Hn) as [b' Hb']. exists b'. unfold parent_block.
  destruct (ch_found Hchain _ _ _ Hb) as (_ & _ & Hu). unfold is_u64 in Hu.
  rewrite u64_small by (unfold is_u64; lia). destruct (found_in_chain _ _ _ Hb') as (? & ? & ?). done.
Qed.

Lemma in_chain_number b : in_chain b -> 0 <= pb_Number b.
Proof. intros Hb. destruct (ch_found Hchain _ _ _ Hb) as (_ & _ & ?). unfold is_u64 in *. lia. Qed.

Lemma same_hash b b' : in_chain b -> in_chain b' -> pb_Hash b = pb_Hash b' -> b = b'.
Proof. unfold in_chain. intros Hb Hb' E. rewrite E in Hb. by eapply ch_unique. Qed.

Lemma go_back_spec target fuel : forall b acc, in_chain b -> 0 <= target -> pb_Number b <= Z.of_nat fuel ->
  exists c bs, go_back GetBlock fuel b target acc = Ret (Some (c, acc ++ txs_of bs)) /\ branch b c bs /\ in_chain c /\
    pb_Number c = Z.min (pb_Number b) target /\
    forall x, x ∈ bs -> in_chain x /\ target < pb_Number x <= pb_Number b.
Proof.
  induction fuel as [|fuel IH]; intros b acc Hb Ht Hf; cbn [go_back]; (destruct (pb_Number b >? target) eqn:Hgt; boolp;
    [|exists b, []; cbn; rewrite app_nil_r; split_and!; [done|constructor|done|lia|by intros x ?%elem_of_nil]]).
  { cbn in Hf. lia. }
  destruct (parent_in_chain b Hb) as (b' & Hp & Hb' & Hn'); [lia|]. rewrite Hp.
  destruct (IH b' (acc ++ pb_Transactions b) Hb' Ht) as (c & bs & -> & Hbr & Hc & Hmin & Hin); [lia|].
  exists c, (b :: bs). split_and!; [by rewrite txs_of_cons, app_assoc|by econstructor|done|lia|].
  intros x [->|Hx]%elem_of_cons; [split; [done|lia]|]. destruct (Hin x Hx). split; [done|lia].
Qed.

Lemma go_back_both_spec fuel : forall rem add d i, in_chain rem -> in_chain add -> pb_Number rem = pb_Number add ->
  pb_Number rem < Z.of_nat fuel ->
  exists c bs bs', go_back_both GetBlock fuel rem add d i = Ret (Some (d ++ txs_of bs, i ++ txs_of bs')) /\
    branch rem c bs /\ branch add c bs' /\ (forall x y, x ∈ bs -> y ∈ bs' -> pb_Hash x <> pb_Hash y) /\
    (forall x, x ∈ bs \/ x ∈ bs' -> in_chain x /\ pb_Number x <= pb_Number rem).
Proof.
  induction fuel as [|fuel IH]; intros rem add d i Hr Ha En Hf; cbn [go_back_both];
    (destruct (Z.eqb_spec (pb_Hash rem) (pb_Hash add)) as [Eh|Hne];
     [assert (rem = add) as <- by (by apply same_hash); exists rem, [], []; cbn; rewrite !app_nil_r;
      split_and!; try done; [constructor|constructor|by intros x y ?%elem_of_nil|by intros x [?%elem_of_nil|?%elem_of_nil]]|]).
  { pose proof (in_chain_number rem Hr). cbn in Hf. lia. }
  assert (Hpos : 0 < pb_Number rem).
  { pose proof (in_chain_number rem Hr). destruct (decide (pb_Number rem = 0)) as [Hz|]; [|lia]. exfalso. apply Hne.
    unfold in_chain in Hr, Ha. rewrite <- En, Hz in Ha. rewrite Hz in Hr. by eapply ch_genesis. }
  destruct (parent_in_chain rem Hr) as (rem' & Hp1 & Hr' & Hn1); [lia|].
  destruct (parent_in_chain add Ha) as (add' & Hp2 & Ha' & Hn2); [lia|]. rewrite Hp1, Hp2.
  destruct (IH rem' add' (d ++ pb_Transactions rem) (i ++ pb_Transactions add) Hr' Ha')
    as (c & bs & bs' & -> & Hb1 & Hb2 & Hd & Hin); [lia|lia|].
  exists c, (rem :: bs), (add :: bs'). split_and!; [by rewrite !txs_of_cons, !app_assoc|by econstructor|by econstructor| |].
  - assert (Hup : forall z x, in_chain z -> pb_Number z = pb_Number rem -> x ∈ bs \/ x ∈ bs' -> pb_Hash z <> pb_Hash x).
    { intros z x Hz Ez Hx E. destruct (Hin x Hx) as [Hxc Hle]. apply same_hash in E; [|done|done]. subst x. lia. }
    intros x y [->|Hx]%elem_of_cons [->|Hy]%elem_of_cons; [done|by eauto| |by apply Hd].
    intros E. symmetry in E. revert E. apply (Hup add x Ha (eq_sym En)). by left.
  - intros x Hx. rewrite !elem_of_cons in Hx. destruct Hx as [[->|Hx]|[->|Hx]]; try (split; [done|lia]);
      (destruct (Hin x) as [? Hle]; [by auto|]; split; [done|lia]).
Qed.

(** The two branches of a reorganization that is not deep, and what the pool gets
    back from them. *)
Lemma reinject_spec fuel oldHash oldNumber head b1 b2 :
  GetBlock oldHash oldNumber = Some b1 -> GetBlock (hd_Hash head) (hd_Number head) = Some b2 ->
  oldHash <> hd_ParentHash head -> depth oldNumber (hd_Number head) <= 64 ->
  oldNumber < Z.of_nat fuel -> hd_Number head < Z.of_nat fuel ->
  exists c bs1 bs2,
    reinject fuel GetBlock (Some (oldHash, oldNumber)) head = Ret (Some (TxDifference (txs_of bs1) (txs_of bs2))) /\
    branch b1 c bs1 /\ branch b2 c bs2 /\ (forall x y, x ∈ bs1 -> y ∈ bs2 -> pb_Hash x <> pb_Hash y).
Proof.
  intros H1 H2 Hne Hdep Hf1 Hf2. destruct (found_in_chain _ _ _ H1) as (Hc1 & _ & En1).
  destruct (found_in_chain _ _ _ H2) as (Hc2 & _ & En2). pose proof (in_chain_number _ Hc1). pose proof (in_chain_number _ Hc2).
  unfold reinject. rewrite (proj2 (Z.eqb_neq _ _) Hne). unfold reinjected.
  destruct (_ >? 64) eqn:Hgt; [boolp; lia|]. rewrite H1, H2.
  destruct (go_back_spec (pb_Number b2) fuel b1 [] Hc1) as (r1 & B1 & -> & Hb1 & Hr1 & Hm1 & Hi1); [lia|lia|].
  cbn [mbind outcome_bind app].
  destruct (go_back_spec (pb_Number r1) fuel b2 [] Hc2) as (a1 & B2 & -> & Hb2 & Ha1 & Hm2 & Hi2); [lia|lia|].
  cbn [mbind outcome_bind app].
  destruct (go_back_both_spec fuel r1 a1 (txs_of B1) (txs_of B2) Hr1 Ha1) as (c & D1 & D2 & -> & Hd1 & Hd2 & Hd & Hi3);
    [lia|lia|]. cbn [mbind outcome_bind].
  exists c, (B1 ++ D1), (B2 ++ D2). rewrite !txs_of_app. split_and!; [done|by eapply branch_app|by eapply branch_app|].
  intros x y Hx Hy E. assert (Hxc : in_chain x).
  { apply elem_of_app in Hx as [Hx|Hx]; [by apply Hi1|apply Hi3; by left]. }
  assert (Hyc : in_chain y).
  { apply elem_of_app in Hy as [Hy|Hy]; [by apply Hi2|apply Hi3; by right]. }
  pose proof (same_hash x y Hxc Hyc E) as <-.
  apply elem_of_app in Hx as [Hx|Hx]; apply elem_of_app in Hy as [Hy|Hy].
  - pose proof (Hi1 x Hx) as [_ ?]. pose proof (Hi2 x Hy) as [_ ?]. lia.
  - pose proof (Hi1 x Hx) as [_ ?]. pose proof (Hi3 x (or_intror Hy)) as [_ ?]. lia.
  - pose proof (Hi3 x (or_introl Hx)) as [_ ?]. pose proof (Hi2 x Hy) as [_ ?]. lia.
  - by apply (Hd x x).
Qed.

Lemma depth_exact n m : 0 <= n < 2 ^ 53 -> 0 <= m < 2 ^ 53 -> depth n m = Z.abs (n - m).
Proof. intros Hn Hm. unfold depth. rewrite (float64_small n), (float64_small m) by done. apply float64_small. lia. Qed.

(** The pool can follow the chain from one head to the next: the next is its child,
    or far away, or the chain has both. *)
Definition followable (fuel : nat) (old : Z * Z) (head : Head) : Prop :=
  old.1 = hd_ParentHash head \/ 64 < depth old.2 (hd_Number head) \/
  is_Some (GetBlock old.1 old.2) /\ is_Some (GetBlock (hd_Hash head) (hd_Number head)) /\
  old.2 < Z.of_nat fuel /\ hd_Number head < Z.of_nat fuel.

Lemma followable_returns fuel old head : followable fuel old head -> exists r, reinject fuel GetBlock (Some old) head = Ret r.
Proof.
  destruct old as [h n]. unfold followable. cbn [fst snd]. intros Hf.
  destruct (decide (h = hd_ParentHash head)) as [E|Hne].
  { exists (Some []). unfold reinject. by rewrite (proj2 (Z.eqb_eq _ _) E). }
  destruct (decide (64 < depth n (hd_Number head))) as [Hd|Hd].
  { exists (Some []). unfold reinject, reinjected. rewrite (proj2 (Z.eqb_neq _ _) Hne). by rewrite (proj2 (Z.gtb_lt _ _) Hd). }
  destruct Hf as [?|[?|([b1 H1] & [b2 H2] & Hn1 & Hn2)]]; [done..|].
  destruct (reinject_spec fuel h n head b1 b2 H1 H2 Hne) as (c & bs1 & bs2 & E & _); [lia..|]. eauto.
Qed.

(** C34. When the head of the chain moves to a block that is not a child of the old
    head and at most 64 numbers away, the pool gets back the transactions of the
    blocks that were left: those of the blocks from the old head down to the last
    block the two branches share, without those the new branch includes; the
    branches end at that common block and have no other in common.  When the state
    of the new head opens, the pool adds exactly these, as remote transactions on
    the new state and gas limit, and then demotes, renews the nonces and promotes.
    Assumed: the chain has both heads (with numbers below 2^53, where [float64] is
    exact), every block it has is under its hash and number and has its parent down
    to one genesis block, and hashes do not collide. *)
Theorem reorg_reinjects `{Difference : !TxDifferenceLaw} ce now fuel oldHash oldNumber head db p b1 b2 :
  GetBlock oldHash oldNumber = Some b1 -> GetBlock (hd_Hash head) (hd_Number head) = Some b2 ->
  oldHash <> hd_ParentHash head -> Z.abs (oldNumber - hd_Number head) <= 64 ->
  oldNumber < 2 ^ 53 -> hd_Number head < 2 ^ 53 ->
  oldNumber < Z.of_nat fuel -> hd_Number head < Z.of_nat fuel -> hd_State head = Ok db ->
  exists c bs1 bs2 txs,
    branch b1 c bs1 /\ branch b2 c bs2 /\ (forall x y, x ∈ bs1 -> y ∈ bs2 -> pb_Hash x <> pb_Hash y) /\
    (forall tx, tx ∈ txs <-> tx ∈ txs_of bs1 /\ forall t, t ∈ txs_of bs2 -> Tx_Hash t <> Tx_Hash tx) /\
    reset ce now fuel GetBlock (Some (oldHash, oldNumber)) head p =
      (p1 ← addTxsLocked ce now txs false (with_head db (hd_GasLimit head) p); revalidate now p1).
Proof.
  intros H1 H2 Hne Habs Hs1 Hs2 Hf1 Hf2 Hdb.
  pose proof (in_chain_number _ (proj1 (found_in_chain _ _ _ H1))). pose proof (in_chain_number _ (proj1 (found_in_chain _ _ _ H2))).
  destruct (found_in_chain _ _ _ H1) as (_ & _ & En1). destruct (found_in_chain _ _ _ H2) as (_ & _ & En2).
  destruct (reinject_spec fuel oldHash oldNumber head b1 b2 H1 H2 Hne) as (c & bs1 & bs2 & E & Hb1 & Hb2 & Hd); [|done|done|].
  { rewrite depth_exact; lia. }
  exists c, bs1, bs2, (TxDifference (txs_of bs1) (txs_of bs2)). split_and!; [done..|apply TxDifference_in|].
  unfold reset. rewrite E, Hdb. done.
Qed.

End reorg.

(** ** The operations *)

(** What the node calls, and the events of the pool's loop. *)
Inductive pool_op :=
| OpAdd (ce : bool) (now : Z) (tx : Transaction) (local : bool)
| OpAdds (ce : bool) (now : Z) (txs : list Transaction) (local : bool)
| OpHead (ce isPangu : bool) (now : Z) (fuel : nat) (GetBlock : Z -> Z -> option PoolBlock) (old : Z * Z) (head : Head)
| OpPrice (price : Z)
| OpEvict (now : Z)
| OpJournal (io : RotateIO) (accounts : list Z)
| OpContent
| OpPending.

Definition run (o : pool_op) (p : TxPool) : outcome TxPool :=
  match o with
  | OpAdd ce now tx local => r ← addTx ce now tx local p; Ret (snd r)
  | OpAdds ce now txs local => addTxsLocked ce now txs local p
  | OpHead ce isPangu now fuel GetBlock old head => head_event ce isPangu now fuel GetBlock old head p
  | OpPrice price => SetGasPrice price p
  | OpEvict now => evict_tick now p
  | OpJournal io accounts => Ret (journal_tick io accounts p)
  | OpContent => Ret (snd (Content p))
  | OpPending => Ret (snd (Pending p))
  end.

(** The pool stays below a size with what the operation adds. *)
Definition room (bound : Z) (o : pool_op) (p : TxPool) : Prop :=
  match o with
  | OpAdd _ _ _ _ => below bound 1 p
  | OpAdds _ _ txs _ => below bound (Z.of_nat (length txs)) p
  | OpHead _ _ _ fuel GetBlock old head => reinjects bound fuel GetBlock (Some old) head p
  | _ => True
  end.

(** The chain behind a new head. *)
Definition has_chain (o : pool_op) : Prop :=
  match o with
  | OpHead _ _ _ fuel GetBlock old head => chain_ok GetBlock /\ followable GetBlock fuel old head
  | _ => True
  end.

Lemma room_weaken bound bound' o p : room bound o p -> bound <= bound' -> room bound' o p.
Proof. destruct o; cbn; unfold reinjects, below; try done; [lia|lia|]. intros H1 H2 txs E. specialize (H1 txs E). lia. Qed.

Lemma run_ok o p : sound p -> room (2 ^ 62) o p -> returns_when (has_chain o /\ room (2 ^ 24) o p) sound (run o p).
Proof.
  intros Hs Hr. pose proof Hs as [Hok Hc]. destruct o; cbn [run room has_chain] in *.
  - eapply when_bind; [eapply when_impl; [by apply (addTx_ok ce now tx local p Hs Hr)|by intros [_ ?]|done]|]. by intros r [? _].
  - eapply when_impl; [by apply addTxsLocked_ok|by intros [_ ?]|by intros p' [? _]].
  - eapply when_impl; [eapply reset_ok; [|done]; split; [by apply (ok_same [] p)|done]| |done].
    intros [[Hch Hfo] Hb]. split; [by apply followable_returns|done].
  - apply returns_always. destruct (SetGasPrice_ok price p Hok) as (p' & -> & Hok' & Hf). exists p'. split; [done|by eapply frame_sound].
  - apply returns_always. unfold evict_tick. destruct (evict_ok now (range (queue p)).*1 p Hok) as (p' & -> & Hok' & Hf).
    exists p'. split; [done|by eapply frame_sound].
  - by apply journal_tick_ok.
  - by apply Content_ok.
  - by apply Pending_ok.
Qed.

(** ** Starting *)

Lemma empty_pool_sound s db : config_ok (sl_config s) -> sound (empty_pool s db).
Proof.
  intros Hc. split; [|done]. assert (Hn : forall a n, at_ (∅ : gmap Z txList) a n = None) by (intros a n; unfold at_; by rewrite lookup_empty).
  split; cbn.
  - by intros a l ?%lookup_empty_Some.
  - by intros a l ?%lookup_empty_Some.
  - intros a n tx. rewrite Hn. by intros [].
  - intros a n. by left.
  - apply index_priced, newTxPricedList_ok.
Qed.

(** A pool without a state has a sensible configuration, one with a state is
    consistent. *)
Definition sound_either (x : Stateless + TxPool) : Prop :=
  match x with inl s => config_ok (sl_config s) | inr p => sound p end.

Lemma load_ok ce now txs : forall p, sound p -> fits (Z.of_nat (length txs)) p ->
  returns_when False sound (load ce now txs p).
Proof.
  induction txs as [|tx txs IH]; intros p Hs Hf; cbn [load]; [done|]. cbn [length] in Hf.
  replace (Z.of_nat (S (length txs))) with (1 + Z.of_nat (length txs)) in Hf by lia.
  unfold AddLocal. erewrite ebind_run by done.
  pose proof (addTx_ok ce now tx (negb (NoLocals (config p))) p Hs) as Hadd.
  destruct (addTx _ _ _ _ _) as [[r p1]| |]; [|by intros []..].
  destruct Hadd as [Hs1 Hg]; [eapply below_weaken; [done|lia]|]. apply IH; [done|]. by eapply grows_below.
Qed.

(** The transactions a first head brings: none, or those of a reorganization. *)
Lemma sl_reset_ok ce now fuel GetBlock old head s : config_ok (sl_config s) ->
  (forall txs, reinject fuel GetBlock old head = Ret (Some txs) -> Z.of_nat (length txs) < 2 ^ 62) ->
  returns_when False (fun x => sound_either x /\ (old = None -> forall p, x = inr p -> grows 0 (empty_pool s (currentState p)) p))
    (sl_reset ce now fuel GetBlock old head s).
Proof.
  intros Hc Hf. unfold sl_reset. destruct (reinject _ _ _ _) as [[txs|]| |] eqn:Er; [|by split|by intros []..].
  cbn [mbind outcome_bind]. destruct (hd_State head) as [db|]; [|by split]. eapply when_bind.
  { eapply when_impl; [apply (reset_to_ok ce now txs db (hd_GasLimit head)); [by apply empty_pool_sound|]|by intros []|done].
    unfold fits, below. cbn [all empty_pool]. rewrite map_size_empty. by apply Hf. }
  intros p [Hs Hg]. split; [done|]. intros ->. cbn in Er. injection Er as <-. intros p' [= <-]. unfold grows in *. cbn in *. lia.
Qed.

Lemma load_journal_ok ce now d io order x : sound_either x ->
  (forall p, x = inr p -> fits (Z.of_nat (length (default [] d))) p) -> returns_when False sound_either (load_journal ce now d io order x).
Proof.
  destruct x as [s|p]; intros Hs Hf; cbn [load_journal].
  - destruct (sl_each _ _); [done|by intros []..].
  - eapply when_bind.
    + apply (load_ok ce now (default [] d)); [|by apply (Hf p)]. destruct Hs as [Hok ?]. split; [by apply (ok_same [] p)|done].
    + intros p1 Hs1. by apply journal_tick_ok.
Qed.

Lemma NewTxPool_ok ce now conf GetBlock head file io order : config_ok (sanitize conf) ->
  Z.of_nat (length (default [] (default None file))) < 2 ^ 62 ->
  returns_when False sound_either (NewTxPool ce now conf GetBlock head file io order).
Proof.
  intros Hc Hf. unfold NewTxPool. eapply when_bind; [apply sl_reset_ok; [done|]|].
  { cbn. by intros txs [= <-]. }
  intros x [Hx Hg]. destruct file as [d|]; [|done]. destruct (NoLocals _); [done|]. apply load_journal_ok; [done|].
  intros p ->. change (default None (Some d)) with d in Hf. specialize (Hg eq_refl p eq_refl). unfold grows, fits, below in *. cbn [all empty_pool] in *.
  rewrite map_size_empty in Hg. lia.
Qed.

(** The operations and events of a pool without a state. *)
Definition sl_run (o : pool_op) (s : Stateless) : outcome (Stateless + TxPool) :=
  match o with
  | OpAdd ce now tx local => _ ← sl_addTx ce tx; Ret (inl s)
  | OpAdds ce now txs local => _ ← sl_each (sl_add ce) txs; Ret (inl s)
  | OpHead ce isPangu now fuel GetBlock old head => sl_reset ce now fuel GetBlock (Some old) head (sl_with_pangu isPangu s)
  | OpPrice price => Ret (inl (sl_with_price price s))
  | OpJournal io accounts => Ret (inl (sl_journal_tick io s))
  | OpEvict _ | OpContent | OpPending => Ret (inl s)
  end.

Definition sl_room (o : pool_op) : Prop :=
  match o with
  | OpHead _ _ _ fuel GetBlock old head =>
      forall txs, reinject fuel GetBlock (Some old) head = Ret (Some txs) -> Z.of_nat (length txs) < 2 ^ 62
  | _ => True
  end.

Lemma sl_run_ok o s : config_ok (sl_config s) -> sl_room o -> returns_when False sound_either (sl_run o s).
Proof.
  intros Hc Hr. destruct o; cbn [sl_run] in *; try done.
  - destruct (sl_addTx _ _); [done|by intros []..].
  - destruct (sl_each _ _); [done|by intros []..].
  - eapply when_impl; [by apply sl_reset_ok|done|]. by intros x [? _].
Qed.

(** Until the state of a head opens, the first transaction that the first rules let
    through brings the node down. *)
Lemma stateless_panics ce now tx local s a : Tx_Sender tx = Ok a -> validate_basic ce tx = None ->
  sl_run (OpAdd ce now tx local) s = Panic.
Proof. intros Hs Hv. cbn. unfold sl_addTx, sl_add. by rewrite Hs, Hv. Qed.

(** ** Every operation returns *)

(** The pools a node can have, with and without a state. *)
Inductive reachable_either : Stateless + TxPool -> Prop :=
| reach_new ce now conf GetBlock head file io order x :
    config_ok (sanitize conf) -> Z.of_nat (length (default [] (default None file))) < 2 ^ 62 ->
    NewTxPool ce now conf GetBlock head file io order = Ret x -> reachable_either x
| reach_stateless o s x : reachable_either (inl s) -> sl_room o -> sl_run o s = Ret x -> reachable_either x
| reach_run o p p' : reachable_either (inr p) -> room (2 ^ 62) o p -> run o p = Ret p' -> reachable_either (inr p').

Definition pool_reachable (p : TxPool) : Prop := reachable_either (inr p).

Lemma reachable_either_sound x : reachable_either x -> sound_either x.
Proof.
  induction 1 as [ce now conf GetBlock head file io order x Hc Hf E|o s x _ IH Hr E|o p p' _ IH Hr E].
  - by eapply when_result; [by apply (NewTxPool_ok ce now conf GetBlock head file io order)|].
  - by eapply when_result; [by apply (sl_run_ok o s)|].
  - by eapply (when_result _ sound); [by apply (run_ok o p)|].
Qed.

Lemma reachable_sound p : pool_reachable p -> sound p.
Proof. apply (reachable_either_sound (inr p)). Qed.

(** C1. In every pool a node can have, the lists are consistent: a transaction
    listed under an account and a nonce is signed by that account, has that nonce
    and is known by its hash; no nonce of an account is both pending and queued;
    and every known transaction has an entry in the price heap. *)
Theorem pool_consistent p : pool_reachable p ->
  (forall a n tx, at_ (pending p) a n = Some tx \/ at_ (queue p) a n = Some tx ->
     Tx_Sender tx = Ok a /\ Tx_Nonce tx = n /\ pool_Get (Tx_Hash tx) p = Some tx) /\
  (forall a n, at_ (pending p) a n = None \/ at_ (queue p) a n = None) /\
  priced_ok (all p) (priced p).
Proof.
  intros [Hok _]%reachable_sound. split_and!.
  - intros a n tx Ht. by destruct (po_listed _ _ Hok a n tx Ht) as (? & ? & ?).
  - apply Hok.
  - by apply pool_ok_priced.
Qed.

(** C33. No operation of a pool that has the state of a head, and no event of its
    loop, panics or fails to return: adding one or many transactions, following the
    chain to a new head, raising the price, evicting, rotating the journal and
    listing all return a pool, which is again one a node can have.  Assumed: the
    pool holds fewer than 2^24 transactions with those it is given (the priorities
    are exact up to there); and for a head that is neither the child of the old one
    nor more than 64 numbers away, the chain has both heads, with numbers below the
    fuel, every block it has is under its hash and number and has its parent down to
    one genesis block, and hashes do not collide. *)
Theorem pool_never_panics p o : pool_reachable p -> room (2 ^ 24) o p -> has_chain o ->
  exists p', run o p = Ret p' /\ pool_reachable p'.
Proof.
  intros Hp Hr Hc. assert (Hr' : room (2 ^ 62) o p) by (eapply room_weaken; [done|lia]).
  destruct (when_returns _ _ _ (run_ok o p (reachable_sound p Hp) Hr')) as (p' & E & _); [done|].
  exists p'. split; [done|]. by eapply reach_run.
Qed.

(** C22. Promoting accounts of a consistent pool of fewer than 2^24 transactions, whose
    configured limits are lengths, returns: it promotes, then limits the pending transactions, then the queued
    ones; and limiting the pending ones leaves local accounts and those within their
    slots alone, lets every account keep the slots it is guaranteed, and ends with
    no more transactions than the pool allows, or with no remote account above its
    slots. *)
Theorem pending_limit now accounts p : sound p -> small 0 p ->
  exists p1 p2 p3,
    promote_accounts now (match accounts with Some l => l | None => (range (queue p)).*1 end) p = Ret p1 /\
    limit_pending p1 = Ret p2 /\ limited p1 p2 /\ limit_queue p2 = Ret p3 /\ promoteExecutables now accounts p = Ret p3.
Proof.
  intros [Hok Hc] Hs. unfold promoteExecutables.
  destruct (promote_accounts_ok now (match accounts with Some l => l | None => (range (queue p)).*1 end) p Hok Hc) as (p1 & E1 & Hok1 & Hf1).
  destruct (limit_pending_ok p1 Hok1) as (p2 & E2 & Hok2 & _ & Hl); [by rewrite (fr_config _ _ Hf1)|by eapply below_sub, Hf1|].
  destruct (limit_queue_ok p2 Hok2) as (p3 & E3 & _). exists p1, p2, p3. split_and!; try done.
  rewrite E1. cbn [mbind outcome_bind]. rewrite E2. done.
Qed.

(** When the first pending transaction of an account is removed, the later ones
    are lost, while the comment of [removeTx] says that they move to the queue:
    they are in no list, yet still known, so adding one of them again is refused. *)
Theorem removed_first_loses_rest ce local p a l tx tx' :
  pool_reachable p -> pending p !! a = Some l ->
  lmap l !! Tx_Nonce tx = Some tx -> (forall n, is_Some (lmap l !! n) -> Tx_Nonce tx <= n) ->
  lmap l !! Tx_Nonce tx' = Some tx' -> tx' <> tx ->
  exists p', removeTx (Tx_Hash tx) p = Ret p' /\ unlisted p' tx' /\ pool_Get (Tx_Hash tx') p' = Some tx' /\
    add ce tx' local p' = Ret (inr errKnownTransaction, p').
Proof.
  intros [Hok _]%reachable_sound El Htx Hmin Htx' Hne. destruct (po_pending _ _ Hok a l El) as [Hl Hst].
  assert (Hlisted : forall t, lmap l !! Tx_Nonce t = Some t -> Tx_Sender t = Ok a /\ all p !! Tx_Hash t = Some t).
  { intros t Ht. apply (po_listed _ _ Hok a (Tx_Nonce t) t). left. by rewrite (at_list _ _ _ _ El). }
  destruct (Hlisted tx Htx) as [Hs Ha]. destruct (Hlisted tx' Htx') as [Hs' Ha'].
  unfold removeTx. rewrite Ha. assert (sender_of tx = a) as -> by (unfold sender_of; by rewrite Hs).
  change (pending (forget (Tx_Hash tx) p)) with (pending p). rewrite El.
  destruct (List_Remove_takes tx l Hl) as (b & inv & l' & -> & _ & Hcase). rewrite Htx in Hcase.
  destruct Hcase as (-> & Ht & _ & Hlow). cbn [mbind outcome_bind fst snd].
  assert (Hempty : lmap l' = ∅).
  { apply map_empty. intros n. destruct (lmap l' !! n) as [t|] eqn:En; [|done]. pose proof (Hlow Hst n t En).
    apply (tk_sub _ _ _ Ht) in En. assert (Tx_Nonce tx <= n) by (apply Hmin; by eexists). lia. }
  assert (Empty l' = true) as ->.
  { unfold Empty, List_Len, Len. fold (lmap l'). by rewrite Hempty, map_size_empty. }
  destruct (lower_nonce_same a (Tx_Nonce tx) (with_beats (delete a) (with_pending (delete a)
    (with_pending (insert a l') (forget (Tx_Hash tx) p))))) as (E1 & E2 & E3 & _).
  eexists. split; [done|]. unfold pool_Get. rewrite E1. cbn [all with_beats with_pending forget with_index].
  assert (Hk : delete (Tx_Hash tx) (all p) !! Tx_Hash tx' = Some tx').
  { rewrite lookup_delete_ne; [done|]. by intros ?%Tx_Hash_inj. }
  split_and!; [|done|].
  - intros c n. rewrite E2, E3. cbn. rewrite at_delete. split.
    + case_decide; [done|]. intros Hc. rewrite at_insert, decide_False in Hc by done. destruct (po_listed _ _ Hok c n tx') as (_ & Hx & _); [by left|]. congruence.
    + intros Hc. destruct (po_listed _ _ Hok c n tx') as (<- & Hx & _); [by right|]. assert (c = a) as -> by congruence.
      destruct (po_once _ _ Hok a (Tx_Nonce tx')) as [Hx'|]; [|congruence]. rewrite (at_list _ _ _ _ El) in Hx'. congruence.
  - unfold add. erewrite ebind_run by done. rewrite E1. cbn [all with_beats with_pending forget with_index]. by rewrite Hk.
Qed.

End reach.
