(* ===== verification/Ethash.v ===== *)
(** * Proof of work (consensus/ethash/algorithm.go, algorithm_go1.8.go, sealer.go)

    The verification cache and the mining dataset of an epoch, the hash that
    miners compute from the dataset and verifiers from the cache, and the search
    for a nonce.  Keccak is MoacLib's. *)
From S2P Require Import Prelude GoMonad Clique EthashSizes.
Local Open Scope Z_scope.

Definition epoch_blocks : Z := 30000.
Definition datasetInitBytes : Z := 2 ^ 30.
Definition datasetGrowthBytes : Z := 2 ^ 23.
Definition cacheInitBytes : Z := 2 ^ 24.
Definition cacheGrowthBytes : Z := 2 ^ 17.
Definition mixBytes : Z := 128.
Definition hashBytes : Z := 64.
Definition hashWords : nat := 16.
Definition datasetParents : nat := 256.
Definition cacheRounds : nat := 3.
Definition loopAccesses : nat := 64.

(** What the algorithm uses of MoacLib: the hashes, the hash of a header without
    its seal, the bytes of a hash and the number of a nonce. *)
Class PowLib := {
  Sum256 : list Z -> list Z;
  Sum512 : list Z -> list Z;
  HashNoNonce : Header -> list Z;
  Hash_bytes : Z -> list Z;
  BytesToHash : list Z -> Z;
  Nonce_Uint64 : list Z -> Z;
  EncodeNonce : Z -> list Z
}.

(** ** Words *)
Definition u32 (z : Z) : Z := z mod 4294967296.

(** [binary.LittleEndian]. *)
Definition Uint32 (b : list Z) : Z :=
  match b with
  | b0 :: b1 :: b2 :: b3 :: _ => b0 + b1 * 256 + b2 * 65536 + b3 * 16777216
  | _ => 0
  end.

Definition byte (z : Z) (i : Z) : Z := Z.shiftr z (8 * i) mod 256.

Definition PutUint32 (w : Z) : list Z := [byte w 0; byte w 1; byte w 2; byte w 3].

Definition PutUint64 (w : Z) : list Z := byte w <$> [0; 1; 2; 3; 4; 5; 6; 7].

(** The words of a buffer, four bytes each. *)
Fixpoint words_of (n : nat) (b : list Z) : list Z :=
  match n with
  | O => []
  | S n' => Uint32 b :: words_of n' (drop 4 b)
  end.

Definition bytes_of (ws : list Z) : list Z := ws ≫= PutUint32.

Definition fnv (a b : Z) : Z := Z.lxor (u32 (a * 0x01000193)) b.

Definition fnvHash (mix data : list Z) : list Z := zip_with fnv mix data.

(** The big-endian number of [SetBytes]. *)
Definition SetBytes (b : list Z) : Z := foldl (fun acc x => acc * 256 + x) 0 b.

Section algorithm.
Context `{PowLib}.

(** ** Seed and cache *)
Definition seedHash (block : Z) : list Z :=
  let seed := replicate 32 0 in
  if block <? epoch_blocks then seed else Nat.iter (Z.to_nat (block / epoch_blocks)) Sum256 seed.

(** The rows of the cache, each the hash of the one before. *)
Fixpoint fill_rows (n : nat) (prev : list Z) : list (list Z) :=
  match n with
  | O => []
  | S n' => let row := Sum512 prev in row :: fill_rows n' row
  end.

(** One step of randmemohash on the rows. *)
Definition memo_step (rows : list (list Z)) (j : nat) : list (list Z) :=
  let n := length rows in
  let src := default [] (rows !! ((j + n - 1) mod n)%nat) in
  let dst := default [] (rows !! j) in
  let x := default [] (rows !! Z.to_nat (Uint32 dst mod u32 (Z.of_nat n))) in
  <[j := Sum512 (zip_with Z.lxor src x)]> rows.

Definition memo_round (rows : list (list Z)) : list (list Z) := foldl memo_step rows (seq 0 (length rows)).

(** The cache of [size] bytes as words. *)
Definition generateCache (size : Z) (seed : list Z) : list Z :=
  let n := Z.to_nat (size / hashBytes) in
  let rows := Nat.iter cacheRounds memo_round (fill_rows n seed) in
  words_of (n * hashWords) (concat rows).

(** ** Items of the dataset *)

(** [cache[off : off + n]] and beyond, for an offset in range. *)
Definition cache_row (cache : list Z) (row : Z) : list Z := drop (Z.to_nat row * hashWords) cache.

Definition item_mix (cache : list Z) (rows index : Z) (mix : list Z) (i : nat) : list Z :=
  let parent := fnv (Z.lxor index (Z.of_nat i)) (mix !!! (i mod 16)%nat) mod rows in
  fnvHash mix (cache_row cache parent).

Definition generateDatasetItem (cache : list Z) (index : Z) : outcome (list Z) :=
  let rows := u32 (Z.of_nat (length cache / hashWords)) in
  if rows =? 0 then Panic
  else
    let row := take hashWords (cache_row cache (index mod rows)) in
    let start := match row with w :: ws => Z.lxor w index :: ws | [] => [] end in
    let mix := words_of hashWords (Sum512 (bytes_of start)) in
    let mix' := foldl (item_mix cache rows index) mix (seq 0 datasetParents) in
    Ret (Sum512 (bytes_of mix')).

(** ** The dataset *)

(** The items a thread generates. *)
Definition thread_items (size threads id : Z) : list Z :=
  let batch := u32 ((size + hashBytes * threads - 1) / (hashBytes * threads)) in
  let first := u32 (id * batch) in
  let limit := Z.min (u32 (first + batch)) (u32 (size / hashBytes)) in
  (fun k => first + Z.of_nat k) <$> seq 0 (Z.to_nat (limit - first)).

Definition all_items (size threads : Z) : list Z := seq 0 (Z.to_nat threads) ≫= (fun id => thread_items size threads (Z.of_nat id)).

(** [copy(dest[off:], src)]. *)
Definition copy_at (off : nat) (src dest : list Z) : list Z :=
  take off dest ++ take (length dest - off) src ++ drop (off + length src) dest.

(** One item into the dataset, at a 32-bit offset in bytes; the progress report
    divides by the hundredth part of the number of items. *)
Definition generate_item (cache : list Z) (size : Z) (dest : list Z) (index : Z) : outcome (list Z) :=
  item ← generateDatasetItem cache index;
  let off := u32 (index * hashBytes) in
  let dest' := copy_at (Z.to_nat (off / 4)) (words_of hashWords item) dest in
  if u32 (size / hashBytes / 100) =? 0 then Panic else Ret dest'.

Fixpoint generate_items (cache : list Z) (size : Z) (order : list Z) (dest : list Z) : outcome (list Z) :=
  match order with
  | [] => Ret dest
  | index :: rest => dest' ← generate_item cache size dest index; generate_items cache size rest dest'
  end.

(** The threads fill a dataset of [words] words, their items interleaved in some
    order. *)
Definition generateDataset (words : nat) (cache : list Z) (order : list Z) : outcome (list Z) :=
  generate_items cache (Z.of_nat words * 4) order (replicate words 0).

(** ** The hash *)
Definition hashimoto_mix (rows seedHead : Z) (lookup : Z -> outcome (list Z)) (mix : list Z) (i : nat) : outcome (list Z) :=
  let parent := fnv (Z.lxor (Z.of_nat i) seedHead) (mix !!! (i mod 32)%nat) mod rows in
  a ← lookup (u32 (2 * parent));
  b ← lookup (u32 (2 * parent + 1));
  Ret (fnvHash mix (a ++ b)).

Fixpoint hashimoto_loop (rows seedHead : Z) (lookup : Z -> outcome (list Z)) (accesses : list nat) (mix : list Z)
    : outcome (list Z) :=
  match accesses with
  | [] => Ret mix
  | i :: rest => mix' ← hashimoto_mix rows seedHead lookup mix i; hashimoto_loop rows seedHead lookup rest mix'
  end.

Fixpoint compress_mix (mix : list Z) : list Z :=
  match mix with
  | a :: b :: c :: d :: rest => fnv (fnv (fnv a b) c) d :: compress_mix rest
  | _ => []
  end.

Definition hashimoto (hash : list Z) (nonce size : Z) (lookup : Z -> outcome (list Z)) : outcome (list Z * list Z) :=
  let rows := u32 (size / mixBytes) in
  let seed := Sum512 (take 32 (hash ++ replicate 32 0) ++ PutUint64 nonce) in
  if rows =? 0 then Panic
  else
    let words := words_of 16 seed in
    mix ← hashimoto_loop rows (Uint32 seed) lookup (seq 0 loopAccesses) (words ++ words);
    let digest := bytes_of (compress_mix mix) in
    Ret (digest, Sum256 (seed ++ digest)).

Definition light_lookup (cache : list Z) (index : Z) : outcome (list Z) :=
  item ← generateDatasetItem cache index; Ret (words_of hashWords item).

Definition hashimotoLight (size : Z) (cache hash : list Z) (nonce : Z) : outcome (list Z * list Z) :=
  hashimoto hash nonce size (light_lookup cache).

(** [dataset[offset : offset+hashWords]], which panics out of range. *)
Definition full_lookup (dataset : list Z) (index : Z) : outcome (list Z) :=
  let offset := u32 (index * 16) in
  let stop := u32 (offset + 16) in
  if (stop <? offset) || (Z.of_nat (length dataset) <? stop) then Panic
  else Ret (take (Z.to_nat (stop - offset)) (drop (Z.to_nat offset) dataset)).

Definition hashimotoFull (dataset hash : list Z) (nonce : Z) : outcome (list Z * list Z) :=
  hashimoto hash nonce (Z.of_nat (length dataset) * 4) (full_lookup dataset).

(** ** Sizes (algorithm_go1.8.go)

    [ProbablyPrime], which is accurate below 2^64. *)
Definition prime (n : Z) : bool := (1 <? n) && forallb (fun d => negb (n mod d =? 0)) (seqZ 2 (n - 2)).

(** The highest size below a threshold that is a prime number of units. *)
Fixpoint prime_size (fuel : nat) (unit_bytes size : Z) : outcome Z :=
  if prime (size / unit_bytes) then Ret size
  else
    match fuel with
    | O => OutOfFuel
    | S f => prime_size f unit_bytes (u64 (size - 2 * unit_bytes))
    end.

Definition calcCacheSize (epoch : Z) : outcome Z :=
  let size := u64 (cacheInitBytes + cacheGrowthBytes * epoch - hashBytes) in
  prime_size (Z.to_nat size) hashBytes size.

Definition calcDatasetSize (epoch : Z) : outcome Z :=
  let size := u64 (datasetInitBytes + datasetGrowthBytes * epoch - mixBytes) in
  prime_size (Z.to_nat size) mixBytes size.

(** Up to [maxEpoch] the sizes are in tables. *)
Definition table_size (table : list Z) (epoch : Z) : outcome Z :=
  match table !! Z.to_nat epoch with
  | Some size => Ret size
  | None => Panic
  end.

Definition cacheSize (block : Z) : outcome Z :=
  let epoch := block / epoch_blocks in
  if epoch <? maxEpoch then table_size cacheSizes epoch else calcCacheSize epoch.

Definition datasetSize (block : Z) : outcome Z :=
  let epoch := block / epoch_blocks in
  if epoch <? maxEpoch then table_size datasetSizes epoch else calcDatasetSize epoch.

(** ** Seals (consensus.go, sealer.go) *)
Inductive PowError :=
| errNonceOutOfRange
| pow_errInvalidDifficulty
| pow_errInvalidMixDigest
| errInvalidPoW.

(** The engine's hooks for testing. *)
Record EthashMode := mkEthashMode {
  tester : bool;
  fakeMode : bool;
  fakeFull : bool;
  fakeFail : Z
}.

(** The constant called [maxUint256]. *)
Definition maxUint256 : Z := 2 ^ 256.

(** [Div] of [math/big] rounds so that the remainder is not negative. *)
Definition big_Div (a b : Z) : Z := if b <? 0 then - (a / - b) else a / b.

Definition pow_target (difficulty : Z) : Z := big_Div maxUint256 difficulty.

(** The digest of the header is the one of its nonce, and the value is at most
    the target of its difficulty. *)
Definition VerifySeal (mode : EthashMode) (cache_of : Z -> list Z) (header : Header) : outcome (unit + PowError) :=
  number ← big_Uint64 (Number header);
  if fakeMode mode then Ret (if fakeFail mode =? number then inr errInvalidPoW else inl tt)
  else if number / epoch_blocks >=? maxEpoch then Ret (inr errNonceOutOfRange)
  else
    match Difficulty header with
    | None => Panic
    | Some d =>
        if d <=? 0 then Ret (inr pow_errInvalidDifficulty)
        else
          size0 ← datasetSize number;
          let size := if tester mode then 32 * 1024 else size0 in
          r ← hashimotoLight size (cache_of (number / epoch_blocks)) (HashNoNonce header) (Nonce_Uint64 (Nonce header));
          if negb (bool_decide (Hash_bytes (MixDigest header) = fst r)) then Ret (inr pow_errInvalidMixDigest)
          else if SetBytes (snd r) >? pow_target d then Ret (inr errInvalidPoW)
          else Ret (inl tt)
    end.

Definition with_seal (nonce : list Z) (digest : Z) (h : Header) : Header :=
  mkHeader (ParentHash h) (UncleHash h) (Coinbase h) (Root h) (TxHash h) (ReceiptHash h) (Bloom h) (Difficulty h)
    (Number h) (GasLimit h) (GasUsed h) (Time h) (Extra h) digest nonce.

(** The search for a nonce, aborted after the given number of attempts. *)
Fixpoint mine_loop (attempts : nat) (dataset hash : list Z) (target : Z) (header : Header) (nonce : Z)
    : outcome (option Header) :=
  match attempts with
  | O => Ret None
  | S n =>
      r ← hashimotoFull dataset hash nonce;
      if SetBytes (snd r) <=? target
      then Ret (Some (with_seal (EncodeNonce nonce) (BytesToHash (fst r)) header))
      else mine_loop n dataset hash target header (u64 (nonce + 1))
  end.

Definition mine (attempts : nat) (dataset : list Z) (header : Header) (seed : Z) : outcome (option Header) :=
  match Difficulty header with
  | None => Panic
  | Some d =>
      if d =? 0 then Panic
      else mine_loop attempts dataset (HashNoNonce header) (pow_target d) header seed
  end.

End algorithm.
