(* ===== verification/EthashProps.v ===== *)
(** * Proof of work: mining and verification agree

    The hash of the full dataset is the hash computed from the cache, whatever
    the number of threads that generate the dataset and however they interleave,
    so a nonce that mining finds is one that verification accepts; past four
    gigabytes the dataset is not generated correctly any more. *)
From S2P Require Import Prelude GoMonad Clique EthashSizes Ethash.
Local Open Scope Z_scope.

(** The documented behaviour of MoacLib: 32 bytes are the bytes of their hash, a
    nonce is the number it encodes, and the seal is no part of the hash without
    nonce. *)
Class PowLaws `{PowLib} : Prop := {
  Hash_bytes_BytesToHash : forall b, length b = 32%nat -> Hash_bytes (BytesToHash b) = b;
  Nonce_EncodeNonce : forall n, is_u64 n -> Nonce_Uint64 (EncodeNonce n) = n;
  HashNoNonce_seal : forall n d h, HashNoNonce (with_seal n d h) = HashNoNonce h
}.

Section items.

(** ** The items of the threads *)
Lemma u32_small z : 0 <= z < 4294967296 -> u32 z = z.
Proof. intros ?. unfold u32. by apply Z.mod_small. Qed.

Lemma thread_items_spec n threads id : 0 <= n <= 67108864 -> 0 < threads <= 2147483648 -> 0 <= id < threads ->
  let batch := (n + threads - 1) / threads in
  thread_items (n * 64) threads id = seqZ (id * batch) (Z.min (id * batch + batch) n - id * batch).
Proof.
  intros Hn Ht Hid batch. unfold thread_items, hashBytes.
  assert (Hb : (n * 64 + 64 * threads - 1) / (64 * threads) = batch).
  { replace (n * 64 + 64 * threads - 1) with (63 + (n + threads - 1) * 64) by lia.
    rewrite <- Z.div_div, Z.div_add by lia. done. }
  rewrite Hb, Z.div_mul by lia.
  assert (Hmul : threads * batch <= n + threads - 1) by (apply Z.mul_div_le; lia).
  assert (Hb0 : 0 <= batch) by (apply Z.div_pos; lia).
  assert (id * batch + batch <= threads * batch) by nia.
  rewrite (u32_small batch), (u32_small (id * batch)), (u32_small (id * batch + batch)), (u32_small n) by nia.
  unfold seqZ. apply list_fmap_ext. intros i x _. lia.
Qed.

Lemma all_items_spec n threads : 0 <= n <= 67108864 -> 0 < threads <= 2147483648 ->
  all_items (n * 64) threads = seqZ 0 n.
Proof.
  intros Hn Ht. set (batch := (n + threads - 1) / threads).
  assert (Hb0 : 0 <= batch) by (apply Z.div_pos; lia).
  assert (Hpre : forall k, Z.of_nat k <= threads ->
    seq 0 k ≫= (fun id => thread_items (n * 64) threads (Z.of_nat id)) = seqZ 0 (Z.min (Z.of_nat k * batch) n)).
  { induction k as [|k IH]; intros Hk; [by rewrite Z.min_l by lia|]. rewrite seq_S, bind_app, IH by lia. cbn [mbind list_bind].
    rewrite app_nil_r. cbn [Nat.add]. rewrite thread_items_spec by lia. fold batch.
    destruct (Z.le_ge_cases (Z.of_nat k * batch) n) as [Hle|Hge].
    - rewrite (Z.min_l _ _ Hle). rewrite <- seqZ_app by lia. f_equal. lia.
    - rewrite !Z.min_r by nia. replace (seqZ (Z.of_nat k * batch) _) with (@nil Z); [by rewrite app_nil_r|].
      symmetry. apply seqZ_nil. lia. }
  unfold all_items. rewrite Hpre by lia. f_equal. apply Z.min_r. rewrite Z2Nat.id by lia.
  pose proof (Z.div_mod (n + threads - 1) threads) as Hdm. pose proof (Z.mod_pos_bound (n + threads - 1) threads).
  fold batch in Hdm. lia.
Qed.

(** ** The slots of a dataset *)
Definition slot (ds : list Z) (i : nat) : list Z := take 16 (drop (16 * i) ds).

Lemma length_copy_at off src ds : (off + length src <= length ds)%nat -> length (copy_at off src ds) = length ds.
Proof. intros Hl. unfold copy_at. rewrite !length_app, !length_take, length_drop. lia. Qed.

Lemma copy_at_lookup off src ds j : (off + length src <= length ds)%nat ->
  copy_at off src ds !! j = if decide (off <= j < off + length src)%nat then src !! (j - off)%nat else ds !! j.
Proof.
  intros Hl. unfold copy_at. rewrite (take_ge src) by lia.
  assert (Ht : length (take off ds) = off) by (rewrite length_take; lia).
  case_decide as Hd.
  - rewrite lookup_app_r by lia. rewrite lookup_app_l by lia. by rewrite Ht.
  - destruct (decide (j < off)%nat).
    + rewrite lookup_app_l by lia. by rewrite lookup_take_lt.
    + rewrite !lookup_app_r by lia. rewrite lookup_drop. f_equal. lia.
Qed.

Lemma slot_copy_at i j src ds : length src = 16%nat -> (16 * i + 16 <= length ds)%nat ->
  slot (copy_at (16 * i) src ds) j = if decide (i = j) then src else slot ds j.
Proof.
  intros Hs Hl. apply list_eq. intros k. unfold slot. destruct (decide (k < 16)%nat) as [Hk|Hk].
  - rewrite lookup_take_lt, lookup_drop, copy_at_lookup by lia. case_decide as Hd.
    + case_decide as Hij; [f_equal; lia|lia].
    + case_decide as Hij; [lia|]. by rewrite lookup_take_lt, lookup_drop by lia.
  - rewrite lookup_take_ge by lia. symmetry. case_decide; [apply lookup_ge_None; lia|]. by rewrite lookup_take_ge by lia.
Qed.

End items.

Section agreement.
Context `{PL : PowLib}.

Lemma length_words_of n b : length (words_of n b) = n.
Proof. revert b. induction n as [|n IH]; intros b; cbn; [done|by rewrite IH]. Qed.

(** A cache with at least one row, and rows that 32 bits can count. *)
Definition cache_ok (cache : list Z) : Prop := (16 <= length cache)%nat /\ Z.of_nat (length cache) < 2 ^ 32.

Lemma item_returns cache index : cache_ok cache -> exists item, generateDatasetItem cache index = Ret item.
Proof.
  intros [Hc1 Hc2]. unfold generateDatasetItem, hashWords.
  assert (Hr : (1 <= length cache / 16)%nat) by (apply Nat.div_le_lower_bound; lia).
  assert (Hr2 : (length cache / 16 <= length cache)%nat) by (apply Nat.Div0.div_le_upper_bound; lia).
  rewrite u32_small by lia. destruct (Z.eqb_spec (Z.of_nat (length cache / 16)) 0); [lia|]. by eexists.
Qed.

(** Items generated in any order, each once. *)
Lemma generate_items_spec cache n order : forall ds,
  cache_ok cache -> 100 <= n <= 67108864 -> length ds = Z.to_nat (n * 16) ->
  (forall i, i ∈ order -> 0 <= i < n) ->
  exists ds', generate_items cache (n * 64) order ds = Ret ds' /\ length ds' = length ds /\
    forall i, 0 <= i < n ->
      if decide (i ∈ order) then light_lookup cache i = Ret (slot ds' (Z.to_nat i))
      else slot ds' (Z.to_nat i) = slot ds (Z.to_nat i).
Proof.
  induction order as [|index order IH]; intros ds Hc Hn Hl Hin; cbn [generate_items].
  { exists ds. split_and!; [done|done|]. intros i Hi. rewrite decide_False by (by apply not_elem_of_nil). done. }
  assert (Hi : 0 <= index < n) by (apply Hin; by left).
  destruct (item_returns cache index Hc) as [item Ei].
  assert (Eg : generate_item cache (n * 64) ds index = Ret (copy_at (16 * Z.to_nat index) (words_of hashWords item) ds)).
  { unfold generate_item, hashBytes. rewrite Ei. cbn [mbind outcome_bind]. rewrite Z.div_mul by lia.
    assert (1 <= n / 100) by (apply Z.div_le_lower_bound; lia).
    assert (n / 100 <= n) by (apply Z.div_le_upper_bound; lia).
    rewrite (u32_small (n / 100)) by lia. destruct (Z.eqb_spec (n / 100) 0); [lia|].
    rewrite u32_small by lia. replace (index * 64 / 4) with (index * 16) by (replace (index * 64) with (index * 16 * 4) by lia; by rewrite Z.div_mul).
    do 2 f_equal. lia. }
  rewrite Eg. cbn [mbind outcome_bind]. set (ds1 := copy_at _ _ ds).
  assert (Hw : length (words_of hashWords item) = 16%nat) by apply length_words_of.
  assert (Hl1 : length ds1 = length ds) by (apply length_copy_at; rewrite Hw; lia).
  destruct (IH ds1) as (ds' & E & Hl' & Hs); [done|done|lia|intros i Hio; apply Hin; by right|].
  exists ds'. split_and!; [done|lia|]. intros i Hi'. specialize (Hs i Hi').
  destruct (decide (i ∈ order)) as [Ho|Ho].
  - rewrite decide_True by (by right). done.
  - unfold ds1 in Hs. rewrite slot_copy_at in Hs by (rewrite ?Hw; lia). destruct (decide (index = i)) as [->|Hne].
    + rewrite decide_True in Hs by done. rewrite decide_True by (by left). unfold light_lookup. rewrite Ei, Hs. done.
    + rewrite decide_False in Hs by lia. rewrite decide_False; [done|]. by intros [->|?]%elem_of_cons.
Qed.

(** The lookups of miners and of verifiers agree. *)
Lemma generateDataset_spec cache n threads order :
  cache_ok cache -> 100 <= n <= 67108864 -> 0 < threads <= 2147483648 -> order ≡ₚ all_items (n * 64) threads ->
  exists ds, generateDataset (Z.to_nat (n * 16)) cache order = Ret ds /\ length ds = Z.to_nat (n * 16) /\
    forall i, 0 <= i < n -> full_lookup ds i = light_lookup cache i.
Proof.
  intros Hc Hn Ht Ho. rewrite all_items_spec in Ho by lia. unfold generateDataset.
  replace (Z.of_nat (Z.to_nat (n * 16)) * 4) with (n * 64) by lia.
  destruct (generate_items_spec cache n order (replicate (Z.to_nat (n * 16)) 0)) as (ds & E & Hl & Hs);
    [done|done|by rewrite length_replicate|intros i Hi; rewrite Ho, elem_of_seqZ in Hi; lia|].
  rewrite length_replicate in Hl. exists ds. split_and!; [done|done|]. intros i Hi. specialize (Hs i Hi).
  rewrite decide_True in Hs by (rewrite Ho, elem_of_seqZ; lia). rewrite Hs. unfold full_lookup.
  rewrite (u32_small (i * 16)), u32_small by lia. rewrite (proj2 (Z.ltb_ge _ _)), (proj2 (Z.ltb_ge _ _)) by lia. cbn [orb].
  unfold slot. do 2 f_equal; [lia|]. f_equal. lia.
Qed.

(** The hash only looks at items below twice the number of its rows. *)
Lemma hashimoto_loop_ext rows seedHead l1 l2 accesses : forall mix, 0 < rows < 2147483648 ->
  (forall i, 0 <= i < 2 * rows -> l1 i = l2 i) ->
  hashimoto_loop rows seedHead l1 accesses mix = hashimoto_loop rows seedHead l2 accesses mix.
Proof.
  induction accesses as [|i accesses IH]; intros mix Hr Hl; cbn [hashimoto_loop]; [done|].
  assert (E : hashimoto_mix rows seedHead l1 mix i = hashimoto_mix rows seedHead l2 mix i).
  { unfold hashimoto_mix. pose proof (Z.mod_pos_bound (fnv (Z.lxor (Z.of_nat i) seedHead) (mix !!! (i mod 32)%nat)) rows) as Hb.
    rewrite !u32_small by lia. rewrite !Hl by lia. done. }
  rewrite E. destruct (hashimoto_mix rows seedHead l2 mix i); cbn; [by apply IH|done..].
Qed.

Lemma hashimoto_ext hash nonce size l1 l2 : 0 <= size < 2 ^ 36 ->
  (forall i, 0 <= i < 2 * (size / mixBytes) -> l1 i = l2 i) -> hashimoto hash nonce size l1 = hashimoto hash nonce size l2.
Proof.
  intros Hs Hl. unfold hashimoto, mixBytes in *.
  pose proof (Z.div_pos size 128 ltac:(lia) ltac:(lia)). assert (size / 128 < 2147483648) by (apply Z.div_lt_upper_bound; lia).
  rewrite u32_small by lia. destruct (Z.eqb_spec (size / 128) 0); [done|].
  rewrite (hashimoto_loop_ext _ _ l1 l2); [done|lia|done].
Qed.

Lemma hashimoto_agree cache n threads order :
  cache_ok cache -> 100 <= n <= 67108864 -> 0 < threads <= 2147483648 -> order ≡ₚ all_items (n * 64) threads ->
  exists ds, generateDataset (Z.to_nat (n * 16)) cache order = Ret ds /\
    forall hash nonce, hashimotoFull ds hash nonce = hashimotoLight (n * 64) cache hash nonce.
Proof.
  intros Hc Hn Ht Ho. destruct (generateDataset_spec cache n threads order Hc Hn Ht Ho) as (ds & E & Hl & Hlook).
  exists ds. split; [done|]. intros hash nonce. unfold hashimotoFull, hashimotoLight. rewrite Hl.
  replace (Z.of_nat (Z.to_nat (n * 16)) * 4) with (n * 64) by lia. apply hashimoto_ext; [lia|].
  unfold mixBytes. intros i Hi. apply Hlook. pose proof (Z.mul_div_le (n * 64) 128). lia.
Qed.

Lemma length_bytes_of ws : length (bytes_of ws) = (4 * length ws)%nat.
Proof. induction ws as [|w ws IH]; [done|]. unfold bytes_of in *. cbn. rewrite IH. lia. Qed.

Lemma light_lookup_length cache i ws : light_lookup cache i = Ret ws -> length ws = 16%nat.
Proof.
  unfold light_lookup. destruct (generateDatasetItem cache i) as [b| |]; cbn [mbind outcome_bind]; try done.
  intros [= <-]. done.
Qed.

Lemma hashimoto_loop_length rows seedHead cache accesses : forall mix mix',
  length mix = 32%nat -> hashimoto_loop rows seedHead (light_lookup cache) accesses mix = Ret mix' -> length mix' = 32%nat.
Proof.
  induction accesses as [|i accesses IH]; intros mix mix' Hm; cbn [hashimoto_loop]; [by intros [= <-]|].
  unfold hashimoto_mix. destruct (light_lookup cache (u32 (2 * _))) as [a| |] eqn:Ea; cbn [mbind outcome_bind]; try done.
  destruct (light_lookup cache (u32 (_ + 1))) as [b| |] eqn:Eb; cbn [mbind outcome_bind]; try done. intros E. eapply IH; [|exact E].
  apply light_lookup_length in Ea, Eb. unfold fnvHash. rewrite length_zip_with, length_app, Ea, Eb, Hm. done.
Qed.

Lemma hashimotoLight_digest size cache hash nonce digest result :
  hashimotoLight size cache hash nonce = Ret (digest, result) -> length digest = 32%nat.
Proof.
  unfold hashimotoLight, hashimoto. destruct (_ =? 0); [done|].
  destruct (hashimoto_loop _ _ _ _ _) as [mix| |] eqn:E; cbn [mbind outcome_bind]; try done. intros [= <- _].
  apply hashimoto_loop_length in E; [|by rewrite length_app, !length_words_of].
  rewrite length_bytes_of. do 32 (destruct mix as [|? mix]; [done|]). destruct mix; [done|done].
Qed.

Lemma mine_loop_spec attempts ds hash target header : forall nonce sealed, is_u64 nonce ->
  mine_loop attempts ds hash target header nonce = Ret (Some sealed) ->
  exists n r, is_u64 n /\ hashimotoFull ds hash n = Ret r /\ SetBytes (snd r) <= target /\
    sealed = with_seal (EncodeNonce n) (BytesToHash (fst r)) header.
Proof.
  induction attempts as [|attempts IH]; intros nonce sealed Hn; cbn [mine_loop]; [done|].
  destruct (hashimotoFull ds hash nonce) as [r| |] eqn:E; cbn [mbind outcome_bind]; try done.
  destruct (Z.leb_spec (SetBytes r.2) target) as [Hle|Hgt]; [intros [= <-]; by exists nonce, r|].
  apply IH, u64_range.
Qed.

(** ** The tables *)
Definition size_ok (size : Z) : bool := (size mod 128 =? 0) && (6400 <=? size) && (size <? 2 ^ 36).

Lemma datasetSizes_ok : forallb size_ok datasetSizes = true.
Proof. vm_compute. reflexivity. Qed.

Lemma datasetSize_ok block size : block / epoch_blocks < maxEpoch -> datasetSize block = Ret size ->
  exists n, size = n * 64 /\ 100 <= n < 2 ^ 30.
Proof.
  intros Hep. unfold datasetSize. rewrite (proj2 (Z.ltb_lt _ _) Hep). unfold table_size.
  destruct (datasetSizes !! _) as [s|] eqn:E; [|done]. intros [= ->]. apply list_elem_of_lookup_2, list_elem_of_In in E.
  pose proof (proj1 (forallb_forall _ _) datasetSizes_ok _ E) as Hs. apply andb_true_iff in Hs as [Hs Hu%Z.ltb_lt].
  apply andb_true_iff in Hs as [Hm%Z.eqb_eq Hl%Z.leb_le].
  exists (size / 128 * 2). pose proof (Z.div_mod size 128). lia.
Qed.

Definition large_ok (size : Z) : bool := 2 ^ 32 <? size.

Lemma datasetSizes_large : forallb large_ok (drop 385 datasetSizes) = true /\ length datasetSizes = 2048%nat.
Proof. vm_compute. split; reflexivity. Qed.

Lemma datasetSize_large block size : 385 <= block / epoch_blocks < maxEpoch -> datasetSize block = Ret size -> 2 ^ 32 < size.
Proof.
  intros Hb. unfold datasetSize. rewrite (proj2 (Z.ltb_lt _ _) (proj2 Hb)). unfold table_size. destruct (datasetSizes !! _) as [s|] eqn:E; [|done]. intros [= ->].
  replace (Z.to_nat (block / epoch_blocks)) with (385 + (Z.to_nat (block / epoch_blocks) - 385))%nat in E by lia.
  rewrite <- lookup_drop in E. apply list_elem_of_lookup_2, list_elem_of_In in E.
  by apply Z.ltb_lt, (proj1 (forallb_forall _ _) (proj1 datasetSizes_large) _ E).
Qed.

Lemma item_offset index : 0 <= u32 (index * hashBytes) / 4 <= 2 ^ 30 - 16.
Proof.
  unfold u32, hashBytes. change 4294967296 with (67108864 * 64). rewrite Z.mul_mod_distr_r by lia.
  pose proof (Z.mod_pos_bound index 67108864 ltac:(lia)).
  replace (index mod 67108864 * 64) with (index mod 67108864 * 16 * 4) by lia. rewrite Z.div_mul by lia. lia.
Qed.

(** Nothing is written past the first 2^30 words. *)
Lemma generate_items_tail cache size order : forall ds,
  cache_ok cache -> u32 (size / hashBytes / 100) <> 0 -> 2 ^ 30 <= Z.of_nat (length ds) ->
  exists ds', generate_items cache size order ds = Ret ds' /\ length ds' = length ds /\
    forall i, 2 ^ 30 <= Z.of_nat i -> ds' !! i = ds !! i.
Proof.
  induction order as [|index order IH]; intros ds Hc Hp Hl; cbn [generate_items]; [by exists ds|].
  destruct (item_returns cache index Hc) as [item Ei]. unfold generate_item. rewrite Ei. cbn [mbind outcome_bind].
  rewrite (proj2 (Z.eqb_neq _ _) Hp). cbn [mbind outcome_bind]. set (ws := words_of hashWords item).
  assert (Hw : length ws = 16%nat) by apply length_words_of. pose proof (item_offset index) as Ho.
  assert (Hfit : (Z.to_nat (u32 (index * hashBytes) / 4) + length ws <= length ds)%nat) by lia.
  destruct (IH (copy_at (Z.to_nat (u32 (index * hashBytes) / 4)) ws ds)) as (ds' & E & Hl' & Ht); [done|done|by rewrite length_copy_at|].
  exists ds'. rewrite length_copy_at in Hl' by done. split_and!; [done|done|]. intros i Hi. rewrite Ht by done.
  rewrite copy_at_lookup by done. case_decide; [lia|done].
Qed.

(** Past four gigabytes, from epoch 385 on, the dataset is not generated: the
    offset of an item is computed in 32 bits, so whatever the order of the items
    the words from 2^30 on are never written and stay zero, while the first ones
    are overwritten by the items that should be there. *)
Theorem dataset_tail_lost number size cache order :
  385 <= number / epoch_blocks < maxEpoch -> datasetSize number = Ret size -> cache_ok cache ->
  2 ^ 30 < size / 4 /\
  exists ds, generateDataset (Z.to_nat (size / 4)) cache order = Ret ds /\
    forall i, 2 ^ 30 <= Z.of_nat i -> Z.of_nat i < size / 4 -> ds !! i = Some 0.
Proof.
  intros He Hs Hc. pose proof (datasetSize_large _ _ He Hs) as Hlarge. destruct (datasetSize_ok _ _ (proj2 He) Hs) as (n & -> & Hn).
  replace (n * 64 / 4) with (n * 16) by (replace (n * 64) with (n * 16 * 4) by lia; by rewrite Z.div_mul).
  split; [lia|]. unfold generateDataset. replace (Z.of_nat (Z.to_nat (n * 16)) * 4) with (n * 64) by lia.
  assert (1 <= n / 100) by (apply Z.div_le_lower_bound; lia).
  assert (n / 100 <= n) by (apply Z.div_le_upper_bound; lia).
  destruct (generate_items_tail cache (n * 64) order (replicate (Z.to_nat (n * 16)) 0)) as (ds & E & Hl & Ht);
    [done|unfold hashBytes; rewrite Z.div_mul, u32_small by lia; lia|rewrite length_replicate; lia|].
  exists ds. split; [done|]. intros i Hi Hlt. rewrite Ht by done. apply lookup_replicate_2. lia.
Qed.

Context `{Laws : !PowLaws}.

(** C28. What a miner finds a verifier accepts.  For a block of positive difficulty
    whose dataset has at most four gigabytes, with the dataset generated from the
    cache of the epoch by any number of threads in any order: the generation
    returns, and every seal the search finds in it, from any start and after any
    number of attempts, passes the verification, which only uses the cache. *)
Theorem mined_seal_verifies mode cache_of header number size d threads order :
  fakeMode mode = false -> tester mode = false ->
  Number header = Some number -> 0 <= number <= MaxUint64 -> number / epoch_blocks < maxEpoch ->
  Difficulty header = Some d -> 0 < d -> datasetSize number = Ret size -> size <= 2 ^ 32 ->
  cache_ok (cache_of (number / epoch_blocks)) -> 0 < threads <= 2147483648 -> order ≡ₚ all_items size threads ->
  exists dataset, generateDataset (Z.to_nat (size / 4)) (cache_of (number / epoch_blocks)) order = Ret dataset /\
    forall attempts seed sealed, is_u64 seed -> mine attempts dataset header seed = Ret (Some sealed) ->
      VerifySeal mode cache_of sealed = Ret (inl tt).
Proof.
  intros Hf Hte Hnum Hn He Hd Hpos Hsize Hmax Hc Ht Ho. destruct (datasetSize_ok _ _ He Hsize) as (n & -> & Hn100).
  replace (n * 64 / 4) with (n * 16) by (replace (n * 64) with (n * 16 * 4) by lia; by rewrite Z.div_mul).
  destruct (hashimoto_agree _ n threads order Hc) as (ds & E & Hagree); [lia|done|done|]. exists ds. split; [done|].
  intros attempts seed sealed Hseed. unfold mine. rewrite Hd, (proj2 (Z.eqb_neq _ _)) by lia.
  intros (nonce & r & Hu & Eh & Hle & ->)%mine_loop_spec; [|done]. rewrite Hagree in Eh. unfold VerifySeal.
  change (Number (with_seal _ _ header)) with (Number header). rewrite Hnum. cbn [big_Uint64 mbind outcome_bind].
  rewrite Z.abs_eq, u64_small by (unfold is_u64; lia). rewrite Hf. unfold maxEpoch in *.
  destruct (Z.geb_spec (number / epoch_blocks) 2048); [lia|].
  change (Difficulty (with_seal _ _ header)) with (Difficulty header). rewrite Hd, (proj2 (Z.leb_gt _ _)) by lia.
  rewrite Hsize. cbn [mbind outcome_bind]. rewrite Hte, HashNoNonce_seal.
  change (Nonce (with_seal _ _ header)) with (EncodeNonce nonce). rewrite Nonce_EncodeNonce, Eh by done. cbn [mbind outcome_bind].
  change (MixDigest (with_seal _ _ header)) with (BytesToHash (fst r)). destruct r as [digest result].
  rewrite Hash_bytes_BytesToHash by (by eapply hashimotoLight_digest). cbn [fst snd] in *.
  rewrite bool_decide_eq_true_2 by done. cbn [negb]. rewrite Z.gtb_ltb, (proj2 (Z.ltb_ge _ _)) by lia. done.
Qed.

End agreement.
