(* ===== verification/EthashConsensus.v ===== *)
(** * Headers, uncles and rewards under proof of work
      (consensus/ethash/consensus.go, consensus/pos/consensus.go)

    The rules of a header against its parent, the difficulty and the rewards, and
    the pool of workers that verifies a batch of headers and reports the results
    in order. *)
From S2P Require Import Prelude GoMonad Clique CliqueEngine StateTransition EthashSizes Ethash.
Local Open Scope Z_scope.

Abbreviation Address := Z (only parsing).
Abbreviation Hash := Z (only parsing).

Inductive EthError :=
| errExtraTooLong
| errLargeBlockTime
| eth_ErrFutureBlock
| errZeroBlockTime
| errWrongDifficulty
| errGasLimitTooBig
| errGasUsedAboveLimit
| errGasLimitBounds
| ErrInvalidNumber
| errSeal (e : PowError)
| eth_ErrUnknownAncestor
| errTooManyUncles
| errDuplicateUncle
| errUncleIsAncestor
| errDanglingUncle
| eth_errUnclesNotAllowed.

Definition checks (A : Type) : Type := outcome (A + EthError).

(** [if b { return e }; k] *)
Definition refuse (b : bool) (e : EthError) (k : checks unit) : checks unit := if b then Ret (inr e) else k.

(** The parameters of MoacLib and of the chain. *)
Class PowParams := {
  MaximumExtraDataSize : Z;
  DifficultyBoundDivisor : Z;
  MinimumDifficulty : Z;
  MaxBig63 : Z;
  MaxBig256 : Z;
  DiffBombDefuseBlock : Z;
  pow_limits :: GasLimits
}.

(** ** Rewards *)
Definition HalvBlockInterval : Z := 12500000.
Definition HalvBlockInterval2 : Z := 25000000.
Definition HalvBlockInterval4 : Z := 37500000.
Definition HalvBlockInterval5 : Z := 50000000.
Definition HalvBlockInterval6 : Z := 62500000.

Definition calcBlockReward (num : Z) : Z :=
  if num <=? HalvBlockInterval then 2000000000000000000
  else if num <=? HalvBlockInterval2 then 1000000000000000000
  else if num <=? HalvBlockInterval4 then 500000000000000000
  else if num <=? HalvBlockInterval5 then 250000000000000000
  else if num <=? HalvBlockInterval6 then 125000000000000000
  else 100000000000000000.

(** What one uncle earns its miner. *)
Definition uncle_reward (number blockReward uncleNumber : Z) : Z := (uncleNumber + 8 - number) * blockReward / 8.

(** The uncles are rewarded, then the miner, with a share for each uncle. *)
Definition AccumulateRewards `{EvmLib} (db : StateDB) (number coinbase : Z) (uncles : list (Z * Z)) : StateDB :=
  let blockReward := calcBlockReward number in
  let r := foldl (fun acc u =>
      (AddBalance (fst acc) (snd u) (uncle_reward number blockReward (fst u)), snd acc + blockReward / 32))
    (db, blockReward) uncles in
  AddBalance (fst r) coinbase (snd r).

(** ** Difficulty *)
Section rules.
Context `{PowParams, CliqueLib}.

Definition big2999999 : Z := 2999999.
Definition expDiffPeriod : Z := 100000.
Definition BlockInterval : Z := 3.

(** The change of the difficulty, before the minimum and the bomb. *)
Definition difficulty_step (time parentTime parentDifficulty : Z) (uncles : bool) : Z :=
  let x := (if uncles then 2 else 1) - (time - parentTime) / BlockInterval in
  parentDifficulty + parentDifficulty / DifficultyBoundDivisor * Z.max x (-99).

Definition bomb (parentNumber : Z) : Z :=
  let fake := if (parentNumber >=? big2999999) && (parentNumber <? DiffBombDefuseBlock)
              then parentNumber - big2999999 else 0 in
  let periodCount := fake / expDiffPeriod in
  if periodCount >? 1 then 2 ^ (periodCount - 2) else 0.

Definition calcDifficultyPangu (time : Z) (parent : Header) : outcome Z :=
  match Time parent, Difficulty parent, Number parent with
  | Some pt, Some pd, Some pn =>
      let x := difficulty_step time pt pd (negb (UncleHash parent =? emptyUncles)) in
      Ret (Z.max x MinimumDifficulty + bomb pn)
  | _, _, _ => Panic
  end.

Definition CalcDifficulty := calcDifficultyPangu.

(** ** Headers *)
Definition big (p : option Z) : checks Z := match p with Some z => Ret (inl z) | None => Panic end.

Definition then_check {A : Type} (m : checks A) (f : A -> checks unit) : checks unit :=
  match m with
  | Ret (inl a) => f a
  | Ret (inr e) => Ret (inr e)
  | Panic => Panic
  | OutOfFuel => OutOfFuel
  end.
Notation "x <-? m ;; f" := (then_check m (fun x => f)) (at level 100, m at next level, right associativity).

(** The gas limit moves by less than a fraction of the parent's and stays above
    the minimum. *)
Definition gas_limit_bounds (parentLimit limit : Z) : bool :=
  negb ((Z.abs (parentLimit - limit) >=? parentLimit / GasLimitBoundDivisor) || (limit <? MinGasLimit)).

Definition verifyHeader (now : Z) (verifySeal : Header -> outcome (unit + PowError)) (header parent : Header)
    (uncle seal : bool) : checks unit :=
  refuse (Z.of_nat (length (Extra header)) >? MaximumExtraDataSize) errExtraTooLong (
  time <-? big (Time header);;
  refuse (uncle && (time >? MaxBig256)) errLargeBlockTime (
  refuse (negb uncle && (time >? now)) eth_ErrFutureBlock (
  parentTime <-? big (Time parent);;
  refuse (time <=? parentTime) errZeroBlockTime (
  match CalcDifficulty (u64 (Z.abs time)) parent with
  | Ret expected =>
      difficulty <-? big (Difficulty header);;
      refuse (negb (expected =? difficulty)) errWrongDifficulty (
      gasLimit <-? big (GasLimit header);;
      refuse (gasLimit >? MaxBig63) errGasLimitTooBig (
      gasUsed <-? big (GasUsed header);;
      refuse (gasUsed >? gasLimit) errGasUsedAboveLimit (
      parentLimit <-? big (GasLimit parent);;
      refuse (negb (gas_limit_bounds parentLimit gasLimit)) errGasLimitBounds (
      number <-? big (Number header);;
      parentNumber <-? big (Number parent);;
      refuse (negb (number - parentNumber =? 1)) ErrInvalidNumber (
      if seal then
        match verifySeal header with
        | Ret (inl _) => Ret (inl tt)
        | Ret (inr e) => Ret (inr (errSeal e))
        | Panic => Panic
        | OutOfFuel => OutOfFuel
        end
      else Ret (inl tt))))))
  | Panic => Panic
  | OutOfFuel => OutOfFuel
  end)))).

Definition VerifyHeader (now : Z) (mode : EthashMode) (verifySeal : Header -> outcome (unit + PowError))
    (chain : ChainReader) (header : Header) (seal : bool) : checks unit :=
  if fakeFull mode then Ret (inl tt)
  else
    match header_number header with
    | Ret number =>
        match GetHeader chain (Header_Hash header) number with
        | Some _ => Ret (inl tt)
        | None =>
            match GetHeader chain (ParentHash header) (u64 (number - 1)) with
            | None => Ret (inr eth_ErrUnknownAncestor)
            | Some parent => verifyHeader now verifySeal header parent false seal
            end
        end
    | _ => Panic
    end.

(** One header of a batch, with the one before it as its parent. *)
Definition verifyHeaderWorker (now : Z) (verifySeal : Header -> outcome (unit + PowError)) (chain : ChainReader)
    (headers : list Header) (seals : list bool) (index : nat) : checks unit :=
  match headers !! index, seals !! index with
  | Some header, Some seal =>
      match header_number header with
      | Ret number =>
          let parent :=
            match index with
            | O => GetHeader chain (ParentHash header) (u64 (number - 1))
            | S i =>
                match headers !! i with
                | Some prev => if Header_Hash prev =? ParentHash header then Some prev else None
                | None => None
                end
            end in
          match parent with
          | None => Ret (inr eth_ErrUnknownAncestor)
          | Some p =>
              match GetHeader chain (Header_Hash header) number with
              | Some _ => Ret (inl tt)
              | None => verifyHeader now verifySeal header p false seal
              end
          end
      | _ => Panic
      end
  | _, _ => Panic
  end.

(** ** Uncles *)
Definition maxUncles : Z := 2.

Record Block := mkBlock {
  b_header : Header;
  b_uncles : list Header
}.

(** The ancestors of a block and their uncles, going back at most [n] blocks. *)
Fixpoint gather_ancestors (GetBlock : Hash -> Z -> option Block) (n : nat) (parent : Hash) (number : Z)
    (ancestors : gmap Hash Header) (uncles : gset Hash) : gmap Hash Header * gset Hash :=
  match n with
  | O => (ancestors, uncles)
  | S n' =>
      match GetBlock parent number with
      | None => (ancestors, uncles)
      | Some ancestor =>
          gather_ancestors GetBlock n' (ParentHash (b_header ancestor)) (u64 (number - 1))
            (<[Header_Hash (b_header ancestor) := b_header ancestor]> ancestors)
            (uncles ∪ list_to_set (Header_Hash <$> b_uncles ancestor))
      end
  end.

Fixpoint verify_uncles (now : Z) (verifySeal : Header -> outcome (unit + PowError)) (parentHash : Hash)
    (ancestors : gmap Hash Header) (seen : gset Hash) (uncles : list Header) : checks unit :=
  match uncles with
  | [] => Ret (inl tt)
  | uncle :: rest =>
      let hash := Header_Hash uncle in
      if bool_decide (hash ∈ seen) then Ret (inr errDuplicateUncle)
      else
        match ancestors !! hash with
        | Some _ => Ret (inr errUncleIsAncestor)
        | None =>
            match ancestors !! ParentHash uncle with
            | None => Ret (inr errDanglingUncle)
            | Some parent =>
                if ParentHash uncle =? parentHash then Ret (inr errDanglingUncle)
                else
                  _ <-? verifyHeader now verifySeal uncle parent true true;;
                  verify_uncles now verifySeal parentHash ancestors ({[hash]} ∪ seen) rest
            end
        end
  end.

Definition VerifyUncles (now : Z) (mode : EthashMode) (verifySeal : Header -> outcome (unit + PowError))
    (GetBlock : Hash -> Z -> option Block) (block : Block) : checks unit :=
  if fakeFull mode then Ret (inl tt)
  else if Z.of_nat (length (b_uncles block)) >? maxUncles then Ret (inr errTooManyUncles)
  else
    match header_number (b_header block) with
    | Ret number =>
        let g := gather_ancestors GetBlock 7 (ParentHash (b_header block)) (u64 (number - 1)) ∅ ∅ in
        let hash := Header_Hash (b_header block) in
        verify_uncles now verifySeal (ParentHash (b_header block)) (<[hash := b_header block]> (fst g))
          ({[hash]} ∪ snd g) (b_uncles block)
    | _ => Panic
    end.

(** ** Preparing a header *)
Definition Prepare (chain : ChainReader) (header : Header) : checks Header :=
  match header_number header with
  | Ret number =>
      match GetHeader chain (ParentHash header) (u64 (number - 1)) with
      | None => Ret (inr eth_ErrUnknownAncestor)
      | Some parent =>
          match big_Uint64 (Time header) with
          | Ret time =>
              match CalcDifficulty time parent with
              | Ret d =>
                  Ret (inl (mkHeader (ParentHash header) (UncleHash header) (Coinbase header) (Root header) (TxHash header)
                    (ReceiptHash header) (Bloom header) (Some d) (Number header) (GasLimit header) (GasUsed header)
                    (Time header) (Extra header) (MixDigest header) (Nonce header)))
              | _ => Panic
              end
          | _ => Panic
          end
      end
  | _ => Panic
  end.

End rules.
