(* ===== verification/EthashConsensusProps.v ===== *)
(** * Proof-of-work headers

    What a miner prepares is what the rules ask for, the difficulty moves within
    bounds, and accepted uncles are recent relatives rewarded once. *)
From S2P Require Import Prelude GoMonad Clique CliqueEngine StateTransition EthashSizes Ethash EthashConsensus.
Local Open Scope Z_scope.

Section rules.
Context `{PP : PowParams, CL : CliqueLib}.

(** ** Gas limits *)
Lemma CalcGasLimit_bounds used limit :
  0 < GasLimitBoundDivisor -> 0 <= used <= limit -> 5 * GasLimitBoundDivisor <= limit -> MinGasLimit <= limit ->
  gas_limit_bounds limit (CalcGasLimit used limit) = true.
Proof.
  intros Hd Hu Hl Hm. unfold gas_limit_bounds, CalcGasLimit. set (div := GasLimitBoundDivisor) in *.
  set (q := limit / div). set (contrib := used * 3 / 2 / div).
  assert (Hq : 5 <= q) by (apply Z.div_le_lower_bound; lia).
  assert (Hq2 : div * q <= limit) by (apply Z.mul_div_le; lia).
  assert (Hq3 : limit < div * q + div) by (pose proof (Z.mul_succ_div_gt limit div Hd); lia).
  assert (Hc0 : 0 <= contrib) by (apply Z.div_pos; [apply Z.div_pos; lia|lia]).
  assert (Hc : contrib <= q + (q + 2) / 2).
  { assert (H1 : used * 3 / 2 < div * (q + (q + 2) / 2 + 1)).
    { apply Z.div_lt_upper_bound; [lia|]. pose proof (Z.mul_succ_div_gt (q + 2) 2 ltac:(lia)). nia. }
    unfold contrib. apply Z.lt_succ_r. apply Z.div_lt_upper_bound; lia. }
  pose proof (Z.mul_div_le (q + 2) 2 ltac:(lia)) as Hhalf.
  set (gl := Z.max (limit - (q - 1) + contrib) MinGasLimit).
  assert (Hg : limit - (q - 1) <= gl <= limit + (q - 1) /\ MinGasLimit <= gl) by (unfold gl; lia).
  fold q. rewrite negb_true_iff, orb_false_iff.
  assert (Hr : forall x, limit - (q - 1) <= x <= limit + (q - 1) -> MinGasLimit <= x ->
    (Z.abs (limit - x) >=? q) = false /\ (x <? MinGasLimit) = false).
  { intros x Hx Hmx. rewrite Z.geb_leb, Z.leb_gt, Z.ltb_ge. lia. }
  destruct (Z.ltb_spec gl TargetGasLimit); apply Hr; lia.
Qed.

(** ** Difficulty *)
Lemma difficulty_step_bounds time parentTime pd uncles :
  0 <= pd -> 0 < DifficultyBoundDivisor -> parentTime < time ->
  pd - 99 * (pd / DifficultyBoundDivisor) <= difficulty_step time parentTime pd uncles <=
  pd + (if uncles then 2 else 1) * (pd / DifficultyBoundDivisor).
Proof.
  intros Hp Hd Ht. unfold difficulty_step, BlockInterval.
  pose proof (Z.div_pos pd DifficultyBoundDivisor Hp Hd) as Hy. pose proof (Z.div_pos (time - parentTime) 3 ltac:(lia) ltac:(lia)).
  set (y := pd / DifficultyBoundDivisor) in *. set (t := (time - parentTime) / 3) in *. destruct uncles; nia.
Qed.

(** The bomb is off before block three million and from its defusal on. *)
Lemma bomb_off n : n < big2999999 \/ DiffBombDefuseBlock <= n -> bomb n = 0.
Proof.
  intros Hn. unfold bomb. replace ((n >=? big2999999) && (n <? DiffBombDefuseBlock)) with false; [done|].
  symmetry. apply andb_false_iff. rewrite Z.geb_leb, Z.leb_gt, Z.ltb_ge. done.
Qed.

Lemma bomb_nonneg n : 0 <= bomb n.
Proof. unfold bomb. destruct (_ >? 1); [|done]. apply Z.pow_nonneg. lia. Qed.

(** The difficulty of a block is within bounds of its parent's: it is never
    below the minimum; when the bomb is off it drops by at most ninety-nine
    2048ths of the parent's difficulty and grows by at most one, or two when the
    parent has uncles, or it is the minimum. *)
Theorem difficulty_bounds time parent pt pd pn :
  Time parent = Some pt -> Difficulty parent = Some pd -> Number parent = Some pn ->
  pt < time -> 0 <= pd -> 0 < DifficultyBoundDivisor -> exists d, CalcDifficulty time parent = Ret d /\
  MinimumDifficulty <= d /\ pd - 99 * (pd / DifficultyBoundDivisor) <= d /\
  (pn < big2999999 \/ DiffBombDefuseBlock <= pn ->
   d <= Z.max MinimumDifficulty (pd + (if UncleHash parent =? emptyUncles then 1 else 2) * (pd / DifficultyBoundDivisor))).
Proof.
  intros Ht Hp Hn Hlt Hpd Hd. unfold CalcDifficulty, calcDifficultyPangu. rewrite Ht, Hp, Hn.
  eexists. split; [reflexivity|]. pose proof (bomb_nonneg pn).
  pose proof (difficulty_step_bounds time pt pd (negb (UncleHash parent =? emptyUncles)) Hpd Hd Hlt) as Hb.
  split_and!; [lia|lia|]. intros Hoff%bomb_off. rewrite Hoff. revert Hb. destruct (UncleHash parent =? emptyUncles); cbn [negb]; lia.
Qed.

(** ** Preparing and verifying *)

(** What a miner prepares passes the rules.  A header built on a known parent,
    later than it and not in the future, with the parent's number plus one, the
    gas limit of the miner's strategy and no more gas used than that, which
    [Prepare] completes, is accepted, apart from its seal, by the verification of
    headers. *)
Theorem prepared_header_verifies now verifySeal chain header h parent t pt pd pn pl pu used number :
  GetHeader chain (ParentHash header) (u64 (number - 1)) = Some parent ->
  header_number header = Ret number -> Prepare chain header = Ret (inl h) ->
  Time header = Some t -> Time parent = Some pt -> 0 <= pt < t -> t <= now -> t <= MaxUint64 ->
  Difficulty parent = Some pd -> Number parent = Some pn -> Number header = Some (pn + 1) ->
  GasLimit parent = Some pl -> GasUsed parent = Some pu -> 0 <= pu <= pl ->
  0 < GasLimitBoundDivisor -> 5 * GasLimitBoundDivisor <= pl -> MinGasLimit <= pl ->
  GasLimit header = Some (CalcGasLimit pu pl) -> CalcGasLimit pu pl <= MaxBig63 ->
  GasUsed header = Some used -> used <= CalcGasLimit pu pl ->
  Z.of_nat (length (Extra header)) <= MaximumExtraDataSize ->
  verifyHeader now verifySeal h parent false false = Ret (inl tt).
Proof.
  intros Hg Hn Hp Ht Hpt Hlt Hnow Hmax Hpd Hpn Hnum Hpl Hpu Hused Hdiv H5 Hmin Hgl H63 Hgu Hgl2 He.
  unfold Prepare in Hp. rewrite Hn, Hg, Ht in Hp. cbn [big_Uint64] in Hp.
  destruct (CalcDifficulty (u64 (Z.abs t)) parent) as [d| |] eqn:Ed; try done. injection Hp as <-.
  unfold verifyHeader. cbn [Extra Time Difficulty GasLimit GasUsed Number].
  cbn [big then_check andb negb]. rewrite Hpt, Ed, Hgl, Hgu, Hpl, Hpn, Hnum. cbn [big then_check andb negb].
  rewrite (CalcGasLimit_bounds pu pl) by done. replace (pn + 1 - pn =? 1) with true by (symmetry; apply Z.eqb_eq; lia).
  rewrite Z.eqb_refl, !Z.gtb_ltb. cbn [negb].
  rewrite !(proj2 (Z.ltb_ge _ _)) by lia. rewrite (proj2 (Z.leb_gt _ _)) by lia. done.
Qed.

(** ** Uncles *)

(** Each uncle accepted: new, no ancestor, the child of an ancestor but not of the
    parent, and valid as an uncle. *)
Definition uncle_ok (now : Z) (verifySeal : Header -> outcome (unit + PowError)) (parentHash : Z)
    (ancestors : gmap Z Header) (seen : gset Z) (uncle : Header) : Prop :=
  Header_Hash uncle ∉ seen /\ ancestors !! Header_Hash uncle = None /\ ParentHash uncle <> parentHash /\
  exists parent, ancestors !! ParentHash uncle = Some parent /\ verifyHeader now verifySeal uncle parent true true = Ret (inl tt).

Lemma verify_uncles_spec now verifySeal parentHash ancestors uncles : forall seen,
  verify_uncles now verifySeal parentHash ancestors seen uncles = Ret (inl tt) <->
  NoDup (Header_Hash <$> uncles) /\ Forall (uncle_ok now verifySeal parentHash ancestors seen) uncles.
Proof.
  induction uncles as [|u uncles IH]; intros seen; cbn [verify_uncles fmap list_fmap].
  { split; [intros _; by split; constructor|done]. }
  rewrite NoDup_cons, Forall_cons. unfold uncle_ok at 1.
  destruct (bool_decide_reflect (Header_Hash u ∈ seen)) as [Hs|Hs]; [split; [done|intros (_ & (? & _) & _); done]|].
  destruct (ancestors !! Header_Hash u) as [|] eqn:Ea; [split; [done|intros (_ & (_ & ? & _) & _); done]|].
  destruct (ancestors !! ParentHash u) as [parent|] eqn:Ep; [|split; [done|intros (_ & (_ & _ & _ & ? & ? & _) & _); done]].
  destruct (Z.eqb_spec (ParentHash u) parentHash) as [He|He]; [split; [done|intros (_ & (_ & _ & ? & _) & _); done]|].
  assert (Hext : NoDup (Header_Hash <$> uncles) /\ Forall (uncle_ok now verifySeal parentHash ancestors ({[Header_Hash u]} ∪ seen)) uncles <->
    (Header_Hash u ∉ Header_Hash <$> uncles /\ NoDup (Header_Hash <$> uncles)) /\ Forall (uncle_ok now verifySeal parentHash ancestors seen) uncles).
  { rewrite !Forall_forall. unfold uncle_ok. split.
    - intros [Hnd Hf]. split_and!; [|done|].
      + intros (x & Ex & Hx)%list_elem_of_fmap. destruct (Hf x Hx) as [Hn _]. set_solver.
      + intros x Hx. destruct (Hf x Hx) as [Hn Hrest]. split; [set_solver|done].
    - intros [[Hni Hnd] Hf]. split; [done|]. intros x Hx. destruct (Hf x Hx) as [Hn Hrest]. split; [|done].
      rewrite elem_of_union, elem_of_singleton. intros [Ex|?]; [|done]. apply Hni. rewrite <- Ex. by apply list_elem_of_fmap_2. }
  destruct (verifyHeader now verifySeal u parent true true) as [[[]|]| |] eqn:Ev; cbn [then_check].
  - rewrite IH, Hext. split; [intros [[? ?] ?]; split_and!; try done; by exists parent|tauto].
  - split; [done|]. intros (_ & (_ & _ & _ & p & [= <-] & ?) & _). congruence.
  - split; [done|]. intros (_ & (_ & _ & _ & p & [= <-] & ?) & _). congruence.
  - split; [done|]. intros (_ & (_ & _ & _ & p & [= <-] & ?) & _). congruence.
Qed.

(** The ancestor [k + 1] generations back. *)
Fixpoint ancestor (GetBlock : Z -> Z -> option Block) (parent number : Z) (k : nat) : option Block :=
  match k, GetBlock parent number with
  | O, b => b
  | S k', Some b => ancestor GetBlock (ParentHash (b_header b)) (u64 (number - 1)) k'
  | S _, None => None
  end.

Lemma gather_spec GetBlock n : forall parent number ancestors uncles h,
  let g := gather_ancestors GetBlock n parent number ancestors uncles in
  (forall hd, fst g !! h = Some hd -> ancestors !! h = Some hd \/
     exists k b, (k < n)%nat /\ ancestor GetBlock parent number k = Some b /\ b_header b = hd /\ Header_Hash hd = h) /\
  (fst g !! h = None -> ancestors !! h = None /\
     forall k b, (k < n)%nat -> ancestor GetBlock parent number k = Some b -> Header_Hash (b_header b) <> h) /\
  (h ∉ snd g -> h ∉ uncles /\
     forall k b u, (k < n)%nat -> ancestor GetBlock parent number k = Some b -> u ∈ b_uncles b -> Header_Hash u <> h).
Proof.
  induction n as [|n IH]; intros parent number ancestors uncles h; cbn [gather_ancestors].
  { split_and!; [by left|intros; split; [done|lia]|intros; split; [done|lia]]. }
  destruct (GetBlock parent number) as [b|] eqn:E; cbn [fst snd].
  2: { assert (Hno : forall k b, ancestor GetBlock parent number k <> Some b) by (intros [|k] b; cbn; by rewrite E).
       split_and!; [by left|intros Hn; split; [done|intros k b _ Hb; by apply Hno in Hb]|].
       intros Hn. split; [done|]. intros k b u _ Hb. by apply Hno in Hb. }
  assert (Hanc : forall k b', ancestor GetBlock parent number k = Some b' ->
    match k with O => b' = b | S k' => ancestor GetBlock (ParentHash (b_header b)) (u64 (number - 1)) k' = Some b' end).
  { intros [|k] b'; cbn; rewrite E; [by intros [= <-]|done]. }
  destruct (IH (ParentHash (b_header b)) (u64 (number - 1)) (<[Header_Hash (b_header b) := b_header b]> ancestors)
    (uncles ∪ list_to_set (Header_Hash <$> b_uncles b)) h) as (I1 & I2 & I3).
  split_and!.
  - intros hd Hh. destruct (I1 hd Hh) as [Ha|(k & b' & Hk & Hb & Hrest)].
    + apply lookup_insert_Some in Ha as [[? <-]|[_ Ha]]; [|by left]. right. exists 0%nat, b. cbn. rewrite E.
      split_and!; [lia|done..].
    + right. exists (S k), b'. cbn. rewrite E. split_and!; [lia|done|apply Hrest..].
  - intros Hn. destruct (I2 Hn) as [Ha Hk]. apply lookup_insert_None in Ha as [Ha Hne]. split; [done|].
    intros [|k] b' Hlt Hb; apply Hanc in Hb; [by subst b'|]. apply (Hk k b'); [lia|done].
  - intros Hn. destruct (I3 Hn) as [Hu Hk]. apply not_elem_of_union in Hu as [Hu Hl]. split; [done|].
    intros [|k] b' u Hlt Hb Hin; apply Hanc in Hb; [|by apply (Hk k b'); [lia|..]]. subst b'. intros <-. apply Hl.
    apply elem_of_list_to_set. by apply list_elem_of_fmap_2.
Qed.

(** C38. Uncles are recent relatives, rewarded once.  When the uncles of a block
    are accepted there are at most two, all different; none of them is the block,
    one of its last seven ancestors or an uncle of one of those; and each is
    valid, as an uncle, after an ancestor two to seven generations back (or
    claims the block itself as its parent). *)
Theorem uncles_recent now mode verifySeal GetBlock block number :
  (forall h n b, GetBlock h n = Some b -> Header_Hash (b_header b) = h) ->
  fakeFull mode = false -> header_number (b_header block) = Ret number ->
  VerifyUncles now mode verifySeal GetBlock block = Ret (inl tt) ->
  let generation := ancestor GetBlock (ParentHash (b_header block)) (u64 (number - 1)) in
  (length (b_uncles block) <= 2)%nat /\ NoDup (Header_Hash <$> b_uncles block) /\
  forall u, u ∈ b_uncles block ->
    Header_Hash u <> Header_Hash (b_header block) /\
    (forall k b, (k < 7)%nat -> generation k = Some b ->
       Header_Hash u <> Header_Hash (b_header b) /\ Header_Hash u ∉ Header_Hash <$> b_uncles b) /\
    exists parent, verifyHeader now verifySeal u parent true true = Ret (inl tt) /\
      (parent = b_header block \/
       exists k b, (1 <= k < 7)%nat /\ generation k = Some b /\ b_header b = parent).
Proof.
  intros Hget Hf Hn. unfold VerifyUncles. rewrite Hf, Hn. unfold maxUncles. rewrite Z.gtb_ltb.
  destruct (Z.ltb_spec 2 (Z.of_nat (length (b_uncles block)))) as [|Hle]; [done|]. set (g := gather_ancestors _ _ _ _ _ _).
  intros [Hnd Hall]%verify_uncles_spec. cbn zeta. split_and!; [lia|done|]. rewrite Forall_forall in Hall.
  intros u (Hs & Ha & Hp & parent & Hpar & Hv)%Hall. apply not_elem_of_union in Hs as [Hs1 Hs2].
  apply lookup_insert_None in Ha as [Ha Hne].
  destruct (gather_spec GetBlock 7 (ParentHash (b_header block)) (u64 (number - 1)) ∅ ∅ (Header_Hash u)) as (_ & I2 & I3).
  destruct (I2 Ha) as [_ Hanc]. destruct (I3 Hs2) as [_ Hunc]. split_and!; [set_solver| |].
  - intros k b Hk Hb. split; [intros Hx; by apply (Hanc k b Hk Hb)|]. intros (x & Hx & Hin)%list_elem_of_fmap.
    by apply (Hunc k b x Hk Hb Hin).
  - exists parent. split; [done|]. apply lookup_insert_Some in Hpar as [[_ <-]|[_ Hpar]]; [by left|]. right.
    destruct (gather_spec GetBlock 7 (ParentHash (b_header block)) (u64 (number - 1)) ∅ ∅ (ParentHash u)) as (I1 & _).
    destruct (I1 parent Hpar) as [?|(k & b & Hk & Hb & <- & Hh)]; [done|]. exists k, b. split_and!; [|lia|done|done].
    destruct k as [|k]; [|lia]. cbn in Hb. apply Hget in Hb. congruence.
Qed.

End rules.
