(* ===== verification/HeaderPipeline.v ===== *)
(** * The workers that verify a batch of headers
      ([VerifyHeaders] of consensus/ethash/consensus.go and
      consensus/pos/consensus.go)

    A coordinator hands the indices of the headers to workers over a channel,
    receives the finished ones over another, and sends the results on, in the
    order of the headers, as soon as they are complete.  The caller can abort. *)
From S2P Require Import Prelude.
Local Open Scope nat_scope.

Section pipeline.
Context {R : Type} (verify : nat -> R) (nilerr : R).
Context (n workers : nat).

(** The coordinator's variables, the indices with the workers, the channel of the
    finished ones, the slice of the results, what was sent on, whether the
    coordinator has returned and whether the caller has closed [abort]. *)
Record Pipeline := mkPipeline {
  p_in : nat;
  p_out : nat;
  p_checked : gset nat;
  p_busy : gset nat;
  p_done : list nat;
  p_errors : gmap nat R;
  p_sent : list R;
  p_returned : bool;
  p_aborted : bool
}.

Definition start : Pipeline := mkPipeline 0 0 ∅ ∅ [] ∅ [] false false.

(** [for checked[index] = true; checked[out]; out++ { errorsOut <- errors[out]; ... }]
    with the number of headers as fuel: the result says whether the last one was
    sent. *)
Fixpoint drain (fuel : nat) (checked : gset nat) (errors : gmap nat R) (out : nat) (sent : list R)
    : nat * list R * bool :=
  match fuel with
  | O => (out, sent, false)
  | S f =>
      if bool_decide (out ∈ checked) then
        let sent' := sent ++ [default nilerr (errors !! out)] in
        if out =? n - 1 then (out, sent', true) else drain f checked errors (S out) sent'
      else (out, sent, false)
  end.

(** An index goes to an idle worker. *)
Definition send (s : Pipeline) : Pipeline :=
  mkPipeline (S (p_in s)) (p_out s) (p_checked s) ({[p_in s]} ∪ p_busy s) (p_done s) (p_errors s) (p_sent s) (p_returned s)
    (p_aborted s).

(** A worker stores its result and reports the index. *)
Definition finish (i : nat) (s : Pipeline) : Pipeline :=
  mkPipeline (p_in s) (p_out s) (p_checked s) (p_busy s ∖ {[i]}) (p_done s ++ [i]) (<[i := verify i]> (p_errors s))
    (p_sent s) (p_returned s) (p_aborted s).

(** The coordinator receives an index. *)
Definition receive (i : nat) (rest : list nat) (s : Pipeline) : Pipeline :=
  let checked := {[i]} ∪ p_checked s in
  let r := drain n checked (p_errors s) (p_out s) (p_sent s) in
  mkPipeline (p_in s) (fst (fst r)) checked (p_busy s) rest (p_errors s) (snd (fst r)) (snd r) (p_aborted s).

(** It returns when [abort] is closed. *)
Definition quit (s : Pipeline) : Pipeline :=
  mkPipeline (p_in s) (p_out s) (p_checked s) (p_busy s) (p_done s) (p_errors s) (p_sent s) true (p_aborted s).

(** The caller closes [abort]. *)
Definition abort (s : Pipeline) : Pipeline :=
  mkPipeline (p_in s) (p_out s) (p_checked s) (p_busy s) (p_done s) (p_errors s) (p_sent s) (p_returned s) true.

(** The cases of the [select] of the coordinator, and what a worker does. *)
Inductive coordinator : Pipeline -> Pipeline -> Prop :=
| step_send s : p_returned s = false -> p_in s < n -> size (p_busy s) < workers -> coordinator s (send s)
| step_receive i rest s : p_returned s = false -> p_done s = i :: rest -> coordinator s (receive i rest s)
| step_quit s : p_returned s = false -> p_aborted s = true -> coordinator s (quit s).

Inductive worker : Pipeline -> Pipeline -> Prop :=
| step_finish i s : i ∈ p_busy s -> length (p_done s) < workers -> worker s (finish i s).

Definition step (s s' : Pipeline) : Prop := coordinator s s' \/ worker s s'.

(** The states of a batch: the caller may abort at any time. *)
Inductive reaches : Pipeline -> Prop :=
| reaches_start : reaches start
| reaches_step s s' : reaches s -> step s s' -> reaches s'
| reaches_abort s : reaches s -> reaches (abort s).

(** ** The invariant *)
Record pipeline_ok (s : Pipeline) : Prop := {
  ok_in : p_in s <= n;
  ok_parts : forall i, i < p_in s <-> (i ∈ p_busy s \/ i ∈ p_done s \/ i ∈ p_checked s);
  ok_busy : forall i, i ∈ p_busy s -> i ∉ p_done s /\ i ∉ p_checked s;
  ok_done : NoDup (p_done s) /\ (forall i, i ∈ p_done s -> i ∉ p_checked s);
  ok_errors : forall i, i ∈ p_done s \/ i ∈ p_checked s -> p_errors s !! i = Some (verify i);
  ok_sent : if p_returned s then p_sent s = verify <$> seq 0 n \/ (p_aborted s = true /\ exists k, k <= n /\ p_sent s = verify <$> seq 0 k)
            else p_sent s = verify <$> seq 0 (p_out s) /\ p_out s < n /\ p_out s ∉ p_checked s
}.

Lemma drain_spec checked errors : forall fuel out,
  (forall i, i ∈ checked -> i < n /\ errors !! i = Some (verify i)) -> out < n -> n <= out + fuel ->
  let r := drain fuel checked errors out (verify <$> seq 0 out) in
  if snd r then snd (fst r) = verify <$> seq 0 n
  else snd (fst r) = verify <$> seq 0 (fst (fst r)) /\ fst (fst r) < n /\ fst (fst r) ∉ checked.
Proof.
  induction fuel as [|fuel IH]; intros out Hc Hout Hf; [lia|]. cbn [drain]. cbn zeta.
  destruct (bool_decide_reflect (out ∈ checked)) as [Hin|Hin]; [|done].
  destruct (Hc out Hin) as [_ ->]. cbn [default].
  assert (E : (verify <$> seq 0 out) ++ [verify out] = verify <$> seq 0 (S out)).
  { rewrite seq_S, fmap_app. done. }
  unfold id. rewrite E. destruct (Nat.eqb_spec out (n - 1)) as [He|He].
  - cbn [fst snd]. do 2 f_equal. lia.
  - apply IH; [done|lia|lia].
Qed.

Lemma step_ok s s' : pipeline_ok s -> step s s' -> pipeline_ok s'.
Proof.
  intros [Hin Hp Hb [Hnd Hd] He Hs]. intros [H|H]; [destruct H as [s Hr Hlt _|i rest s Hr E|s Hr Ha]|destruct H as [i s Hi _]]; cbn in *.
  - split; cbn; [lia| | |done|done|done].
    + intros i. rewrite elem_of_union, elem_of_singleton. specialize (Hp i). destruct (decide (i = p_in s)); [lia|].
      assert (i < S (p_in s) <-> i < p_in s) by lia. tauto.
    + intros i [Hi%elem_of_singleton|Hi]%elem_of_union; [subst i|by apply Hb].
      split; intros Hx; assert (p_in s < p_in s) by (apply Hp; tauto); lia.
  - rewrite E in *. rewrite Hr in Hs. destruct Hs as (Hs & Hout & Hno). apply NoDup_cons in Hnd as [Hni Hnd].
    assert (Hck : forall j, j ∈ {[i]} ∪ p_checked s -> j < n /\ p_errors s !! j = Some (verify j)).
    { intros j Hj. assert (Hj' : j ∈ i :: rest \/ j ∈ p_checked s).
      { apply elem_of_union in Hj as [Hj%elem_of_singleton|]; [subst j; left; by left|by right]. }
      split; [|by apply He]. assert (j < p_in s) by (apply Hp; tauto). lia. }
    split; cbn; [done| | | | |].
    + intros j. specialize (Hp j). rewrite elem_of_cons in Hp. rewrite elem_of_union, elem_of_singleton. tauto.
    + intros j Hj. destruct (Hb j Hj) as [H1 H2]. rewrite elem_of_cons in H1. rewrite elem_of_union, elem_of_singleton. tauto.
    + split; [done|]. intros j Hj. rewrite elem_of_union, elem_of_singleton. specialize (Hd j). rewrite elem_of_cons in Hd.
      intros [->|?]; [done|]. tauto.
    + intros j Hj. apply He. rewrite elem_of_cons. rewrite elem_of_union, elem_of_singleton in Hj. tauto.
    + rewrite Hs. pose proof (drain_spec ({[i]} ∪ p_checked s) (p_errors s) n (p_out s) Hck Hout ltac:(lia)) as Hx. cbn zeta in Hx.
      destruct (snd (drain _ _ _ _ _)); [by left|done].
  - rewrite Hr in Hs. destruct Hs as (Hs & Hout & _). split; cbn; try done. right. split; [done|]. exists (p_out s). split; [lia|done].
  - destruct (Hb i Hi) as [Hid Hic]. split; cbn; [done| | | | |done].
    + intros j. specialize (Hp j). rewrite elem_of_difference, elem_of_app, elem_of_singleton, list_elem_of_singleton.
      destruct (decide (j = i)) as [->|]; tauto.
    + intros j [Hj Hne]%elem_of_difference. rewrite not_elem_of_singleton in Hne. destruct (Hb j Hj).
      rewrite elem_of_app, list_elem_of_singleton. tauto.
    + split.
      * apply NoDup_app. split_and!; [done| |apply NoDup_singleton]. intros x Hx Hxi%list_elem_of_singleton. by subst x.
      * intros j [Hj|Hj%list_elem_of_singleton]%elem_of_app; subst; auto.
    + intros j Hj. destruct (decide (j = i)) as [->|Hne]; [by rewrite lookup_insert_eq|].
      rewrite lookup_insert_ne by done. apply He. rewrite elem_of_app, list_elem_of_singleton in Hj. tauto.
Qed.

Context (some_header : 0 < n) (some_worker : 0 < workers).

Lemma reaches_ok s : reaches s -> pipeline_ok s.
Proof.
  induction 1 as [|s s' _ IH Hst|s _ [H1 H2 H3 H4 H5 H6]]; [|by eapply step_ok|].
  2: { split; try done. cbn. destruct (p_returned s); [|done]. destruct H6 as [?|[_ ?]]; auto. }
  split; cbn; [lia| | | | |by split].
  - intros i. rewrite !elem_of_empty, elem_of_nil. lia.
  - intros i. set_solver.
  - split; [constructor|]. intros i ?%elem_of_nil. done.
  - intros i [?%elem_of_nil|?%elem_of_empty]; done.
Qed.

(** What is left to do, the return of the coordinator included. *)
Definition work (s : Pipeline) : nat :=
  3 * (n - p_in s) + 2 * size (p_busy s) + length (p_done s) + (if p_returned s then 0 else 1).

Lemma step_work s s' : pipeline_ok s -> step s s' -> work s' < work s.
Proof.
  intros [Hin Hp Hb _ _ _]. intros [H|H]; [destruct H as [s Hr Hlt _|i rest s Hr E|s Hr Ha]|destruct H as [i s Hi _]]; unfold work; cbn.
  - assert (Hni : p_in s ∉ p_busy s) by (intros Hx; assert (p_in s < p_in s) by (apply Hp; tauto); lia).
    rewrite size_union, size_singleton by set_solver. lia.
  - rewrite E, Hr. cbn. destruct (snd _); lia.
  - rewrite Hr. lia.
  - rewrite size_difference, size_singleton by set_solver. rewrite length_app. cbn.
    assert (size (p_busy s) <> 0) by (intros Hz%size_empty_inv; set_solver). lia.
Qed.

(** A coordinator that has not returned waits for one worker at most. *)
Lemma no_deadlock s : pipeline_ok s -> p_returned s = false -> exists s1, (s1 = s \/ worker s s1) /\ exists s2, coordinator s1 s2.
Proof.
  intros [Hin Hp Hb Hd He Hs] Hr. rewrite Hr in Hs. destruct Hs as (_ & Hout & Hno).
  destruct (p_done s) as [|i rest] eqn:E; [|exists s; split; [by left|]; by eexists; apply (step_receive i rest)].
  destruct (decide (p_busy s = ∅)) as [Hbe|Hbe].
  - exists s. split; [by left|]. destruct (decide (p_in s < n)) as [Hlt|Hge]; [eexists; apply step_send; [done|done|by rewrite Hbe, size_empty]|].
    exfalso. apply Hno. assert (Hx : p_out s < p_in s) by lia. apply Hp in Hx as [Hx|[?%elem_of_nil|?]]; [|done..].
    rewrite Hbe in Hx. by apply elem_of_empty in Hx.
  - apply set_choose_L in Hbe as [i Hi]. exists (finish i s). split; [right; apply step_finish; [done|]; rewrite E; cbn; lia|].
    eexists. apply (step_receive i []); [done|]. cbn. by rewrite E.
Qed.

Lemma reaches_work s : reaches s -> work s <= 3 * n + 1.
Proof.
  induction 1 as [|s s' Hr IH Hst|s _ IH]; [unfold work; cbn; rewrite size_empty; lia| |done].
  pose proof (step_work s s' (reaches_ok s Hr) Hst). lia.
Qed.

(** C39. The results of a batch come in the order of the headers, and unless the
    caller aborts all of them come.  With at least one header and one worker,
    however the workers, the coordinator and an abort interleave, what has been
    sent is the results of the first headers in their order; until it returns the
    coordinator can move, at once or after a step of one worker, so it is never
    stuck; every step uses up work, at most three steps a header and one to
    return; and when it has returned and the caller has not aborted, it has sent
    the result of every header. *)
Theorem pipeline_in_order s : reaches s ->
  (exists k, k <= n /\ p_sent s = verify <$> seq 0 k) /\
  (p_returned s = true -> p_aborted s = false -> p_sent s = verify <$> seq 0 n) /\
  (p_returned s = false -> exists s1, (s1 = s \/ worker s s1) /\ exists s2, coordinator s1 s2) /\
  work s <= 3 * n + 1 /\ forall s', step s s' -> work s' < work s.
Proof.
  intros Hr. pose proof (reaches_ok s Hr) as Hok. split_and!.
  - destruct Hok as [_ _ _ _ _ Hs]. destruct (p_returned s); [destruct Hs as [Hs|[_ Hs]]; [by exists n|done]|].
    exists (p_out s). destruct Hs as (? & ? & _). split; [lia|done].
  - intros E Ea. destruct Hok as [_ _ _ _ _ Hs]. rewrite E, Ea in Hs. by destruct Hs as [|[]].
  - intros E. by apply no_deadlock.
  - by apply reaches_work.
  - intros s' Hst. by apply step_work.
Qed.

End pipeline.
