(* ===== verification/Event.v ===== *)
(** * Vault events and token mappings (sentinel/event.go, sentinel/config.go,
    sentinel/util.go)

    A vault event is the record of one deposit or burn on a source chain.
    Events are filed in the xevents contract under the digest of their
    token-mapping string, and fetched back under the digest of the mapping
    string of the configuration file, so the two strings must agree exactly
    when the mappings do. *)
From S2P Require Import Prelude Fmt Sha256.
Local Open Scope Z_scope.

(** [common.Address] and [common.Hash] are byte arrays, kept as their
    big-endian value; a [[]byte] is a [string]. *)
Abbreviation Address := Z (only parsing).
Abbreviation Hash := Z (only parsing).
Abbreviation bytes := string (only parsing).

Definition is_address (a : Address) : Prop := 0 <= a < 256 ^ 20.

(** [Address.Bytes()]. *)
Definition Address_Bytes (a : Address) : bytes := be_bytes 20 a.

Record VaultEvent := mkVaultEvent {
  Vault : Address;
  SourceChainid : option Z;
  SourceToken : Address;
  MappedChainid : option Z;
  MappedToken : Address;
  To : Address;
  Amount : option Z;
  Nonce : option Z;
  TotalNonce : option Z;
  BlockNumber : option Z;
  Tip : option Z
}.

#[export] Instance VaultEvent_eq_dec : EqDecision VaultEvent.
Proof. solve_decision. Defined.

Record VaultEventWithSig := mkVaultEventWithSig {
  Event : VaultEvent;
  Blssig : bytes
}.

(** What the sentinel uses of the MoacLib package: the RLP hash and encoding
    of an event, the value an RLP decode leaves in a zero [VaultEvent]
    variable, the conversion of a configured address, the [%x] and
    [String()] forms of an [Address], and the Keccak-256 digest. *)
Class MoacLib := {
  RlpHash : VaultEvent -> Hash;
  EncodeToBytes : VaultEvent -> result bytes;
  DecodeBytes : bytes -> VaultEvent;
  HexToAddress : string -> Address;
  HexToAddress_range : forall s, is_address (HexToAddress s);
  Address_x : Address -> string;
  Address_String : Address -> string;
  Keccak256 : bytes -> Hash
}.

Section event.
Context `{MoacLib}.

Definition VaultEvent_Hash (vaultEvent : VaultEvent) : Hash := RlpHash vaultEvent.

Definition TokenMappingString
    (sourceChainid : option Z) (sourceToken : bytes)
    (mappedChainid : option Z) (mappedToken : bytes) : string :=
  fmt_d sourceChainid +:+ "," +:+ hex sourceToken +:+ "," +:+
  fmt_d mappedChainid +:+ "," +:+ hex mappedToken.

Definition VaultEvent_TokenMapping (vaultEvent : VaultEvent) : string :=
  TokenMappingString
    (SourceChainid vaultEvent) (Address_Bytes (SourceToken vaultEvent))
    (MappedChainid vaultEvent) (Address_Bytes (MappedToken vaultEvent)).

Definition TokenMappingSha256 (tokenMappingString : string) : Hash :=
  sha256 tokenMappingString.

Definition VaultEvent_TokenMappingSha256 (vaultEvent : VaultEvent) : Hash :=
  TokenMappingSha256 (VaultEvent_TokenMapping vaultEvent).

Definition TokenMappingWithVault (vaultEvent : VaultEvent) : string :=
  hex (Address_Bytes (Vault vaultEvent)) +:+ "," +:+
  fmt_d (SourceChainid vaultEvent) +:+ "," +:+
  hex (Address_Bytes (SourceToken vaultEvent)) +:+ "," +:+
  fmt_d (MappedChainid vaultEvent) +:+ "," +:+
  hex (Address_Bytes (MappedToken vaultEvent)).

Definition VaultEvent_Bytes (vaultEvent : VaultEvent) : bytes :=
  match EncodeToBytes vaultEvent with
  | Err => ""
  | Ok data => data
  end.

(** ** Configuration (sentinel/config.go) *)
Record TokenMapping := mkTokenMapping {
  tm_SourceChainId : Z;
  tm_SourceToken : string;
  tm_MappedChainId : Z;
  tm_MappedToken : string
}.

Record VaultConfig := mkVaultConfig {
  ChainId : Z;
  ChainRPC : string;
  ChainWS : string;
  ChainFuncPrefix : string;
  VaultAddress : string;
  GasPrice : Z;
  AvgBlockTime : Z
}.

Record VaultPairConfig := mkVaultPairConfig {
  VaultX : VaultConfig;
  VaultY : VaultConfig;
  TokenMappings : list TokenMapping
}.

Record VaultPairListConfig := mkVaultPairListConfig { Vaults : list VaultPairConfig }.

Definition VaultPairConfig_Id (pair : VaultPairConfig) : string :=
  dec (ChainId (VaultX pair)) +:+ "," +:+ VaultAddress (VaultX pair) +:+ "," +:+
  dec (ChainId (VaultY pair)) +:+ "," +:+ VaultAddress (VaultY pair).

Definition TokenMapping_String (pair : TokenMapping) : string :=
  dec (tm_SourceChainId pair) +:+ "," +:+
  hex (Address_Bytes (HexToAddress (tm_SourceToken pair))) +:+ "," +:+
  dec (tm_MappedChainId pair) +:+ "," +:+
  hex (Address_Bytes (HexToAddress (tm_MappedToken pair))).

Definition TokenMapping_Sha256 (pair : TokenMapping) : Hash := sha256 (TokenMapping_String pair).

(** ** sentinel/util.go *)
Definition Max (input : list Z) : Z * option string :=
  let max := 0 in
  match input with
  | [] => (max, Some "Empty input array")
  | _ => (foldl (fun max n => if n >? max then n else max) max input, None)
  end.

Definition Min (input : list Z) : Z * option string :=
  let min := MaxUint64 in
  match input with
  | [] => (min, Some "Empty input array")
  | _ => (foldl (fun min n => if n <? min then n else min) min input, None)
  end.

(** ** Lemmas *)
Lemma TokenMappingString_inj a t b u a' t' b' u' :
  TokenMappingString a t b u = TokenMappingString a' t' b' u' ->
  a = a' /\ t = t' /\ b = b' /\ u = u'.
Proof.
  intros E. unfold TokenMappingString in E.
  apply split_comma in E as [E1 E]; [|apply fmt_d_no_comma..].
  apply split_comma in E as [E2 E]; [|apply hex_no_comma..].
  apply split_comma in E as [E3 E4]; [|apply fmt_d_no_comma..].
  apply fmt_d_inj in E1, E3. apply hex_inj in E2, E4. done.
Qed.

Lemma Address_Bytes_inj a b :
  is_address a -> is_address b -> Address_Bytes a = Address_Bytes b -> a = b.
Proof. apply (be_bytes_inj 20). Qed.

Lemma dec_fmt_d z : 0 <= z -> dec z = fmt_d (Some z).
Proof. intros Hz. unfold fmt_d. destruct (Z.ltb_spec z 0); [lia|done]. Qed.

Lemma TokenMapping_String_eq tm :
  0 <= tm_SourceChainId tm -> 0 <= tm_MappedChainId tm ->
  TokenMapping_String tm =
  TokenMappingString
    (Some (tm_SourceChainId tm)) (Address_Bytes (HexToAddress (tm_SourceToken tm)))
    (Some (tm_MappedChainId tm)) (Address_Bytes (HexToAddress (tm_MappedToken tm))).
Proof.
  intros H1 H2. unfold TokenMapping_String, TokenMappingString.
  by rewrite !dec_fmt_d by done.
Qed.

Lemma foldl_max_spec (l : list Z) : forall m,
  let r := foldl (fun max n => if n >? max then n else max) m l in
  m <= r /\ (forall x, x ∈ l -> x <= r) /\ (r = m \/ r ∈ l).
Proof.
  induction l as [|y l IH]; intros m; cbn.
  - split; [lia|]. split; [set_solver|by left].
  - destruct (IH (if y >? m then y else m)) as (H1&H2&H3). rewrite Z.gtb_ltb in *.
    destruct (Z.ltb_spec m y);
      (split; [lia|]; split;
       [intros x [->|Hx]%elem_of_cons; [lia|by apply H2]|rewrite elem_of_cons; tauto]).
Qed.

(** The string under which an event is filed is the string under which the
    configured mapping looks it up exactly when the event belongs to that
    mapping: same chain ids and same token addresses. *)
Theorem token_mapping_agrees (e : VaultEvent) (tm : TokenMapping) :
  is_address (SourceToken e) -> is_address (MappedToken e) ->
  is_u64 (tm_SourceChainId tm) -> is_u64 (tm_MappedChainId tm) ->
  VaultEvent_TokenMapping e = TokenMapping_String tm <->
  SourceChainid e = Some (tm_SourceChainId tm) /\
  SourceToken e = HexToAddress (tm_SourceToken tm) /\
  MappedChainid e = Some (tm_MappedChainId tm) /\
  MappedToken e = HexToAddress (tm_MappedToken tm).
Proof.
  intros Hs Hm [H1 _] [H2 _]. rewrite TokenMapping_String_eq by done. split.
  - intros (->&E2&->&E4)%TokenMappingString_inj.
    apply Address_Bytes_inj in E2, E4; auto using HexToAddress_range.
  - unfold VaultEvent_TokenMapping. by intros (->&->&->&->).
Qed.

End event.
