(* ===== verification/Bind.v ===== *)
(** * Contract transactions (accounts/abi/bind/base.go, accounts/abi/bind/auth.go)

    The wrapper through which every component sends contract transactions.  The
    options of a transaction are a pointer shared by its callers: the gas price
    they hold is multiplied in place, so the model returns the options as the
    call leaves them. *)
From S2P Require Import Prelude Event.
Local Open Scope Z_scope.

Definition GasLimitInflation : Z := 110.
Definition GasPriceInflation : Z := 150.

(** [types.Transaction] as the wrapper fills it in. *)
Record RawTx := mkRawTx {
  tx_Nonce : Z;
  tx_To : option Address;
  tx_Value : Z;
  tx_GasLimit : Z;
  tx_GasPrice : Z;
  tx_Data : bytes
}.

Record TransactOpts := mkTransactOpts {
  From : Address;
  opt_Nonce : option Z;
  Signer : option (Address -> RawTx -> result RawTx);
  Value : option Z;
  opt_GasPrice : option Z;
  GasLimit : Z;
  NoSend : bool
}.

Record CallMsg := mkCallMsg {
  msg_From : Address;
  msg_To : option Address;
  msg_GasPrice : option Z;
  msg_Value : option Z;
  msg_Data : bytes
}.

(** The remote node, as it answers during one call. *)
Record ContractBackend := mkContractBackend {
  PendingNonceAt : Address -> result Z;
  SuggestGasPrice : result Z;
  PendingCodeAt : Address -> result bytes;
  EstimateGas : CallMsg -> result Z;
  SendTransaction : RawTx -> bool;
  CallContract : CallMsg -> option Z -> result bytes;
  CodeAt : Address -> option Z -> result bytes;
  PendingCallContract : option (CallMsg -> result bytes)
}.

(** Why a call fails. *)
Inductive BindError : Type :=
| ErrNonce | ErrGasPrice | ErrCode | ErrNoCode | ErrEstimate | ErrNoSigner | ErrSign | ErrSend
| ErrPack | ErrNoPendingState | ErrCall | ErrNoChainID.

Definition with_GasPrice (p : option Z) (o : TransactOpts) : TransactOpts :=
  mkTransactOpts (From o) (opt_Nonce o) (Signer o) (Value o) p (GasLimit o) (NoSend o).

(** The in-place [Mul] and [Div]. *)
Definition inflate_price (p : Z) : Z := p * GasPriceInflation / 100.

Definition inflate_limit (g : Z) : Z := u64 (g * GasLimitInflation) / 100.

Section bind.
Variable backend : ContractBackend.

(** The gas limit, estimated when the options give none. *)
Definition gas_limit (address : Address) (opts : TransactOpts) (contract : option Address)
    (gasPrice value : Z) (input : bytes) : Z + BindError :=
  if GasLimit opts =? 0 then
    let estimate :=
      match EstimateGas backend
              (mkCallMsg (From opts) contract (Some gasPrice) (Some value) input) with
      | Err => inr ErrEstimate
      | Ok g => inl g
      end in
    match contract with
    | Some _ =>
        match PendingCodeAt backend address with
        | Err => inr ErrCode
        | Ok code => if Nat.eqb (String.length code) 0 then inr ErrNoCode else estimate
        end
    | None => estimate
    end
  else inl (GasLimit opts).

(** The account nonce: the options' or the pending one. *)
Definition account_nonce (opts : TransactOpts) : option Z :=
  match opt_Nonce opts with
  | None => match PendingNonceAt backend (From opts) with Err => None | Ok n => Some n end
  | Some n => Some (u64 (Z.abs n))
  end.

(** The inflated gas price, and the options once it is computed: a price taken
    from the options is multiplied where it stands. *)
Definition gas_price (opts : TransactOpts) : option (Z * TransactOpts) :=
  match opt_GasPrice opts with
  | None =>
      match SuggestGasPrice backend with
      | Err => None
      | Ok p => Some (inflate_price p, opts)
      end
  | Some p => Some (inflate_price p, with_GasPrice (Some (inflate_price p)) opts)
  end.

Definition recipient (address : Address) (contract : option Address) : option Address :=
  match contract with None => None | Some _ => Some address end.

(** [transact]: the transaction or an error, and the options afterwards.  The
    log line takes [input[:4]], which panics when the capacity of the slice is
    below four; [spare] is its capacity beyond its length. *)
Definition transact (address : Address) (opts : TransactOpts) (contract : option Address)
    (input : bytes) (spare : nat) : outcome ((RawTx + BindError) * TransactOpts) :=
  let value := default 0 (Value opts) in
  match account_nonce opts with
  | None => Ret (inr ErrNonce, opts)
  | Some nonce =>
      match gas_price opts with
      | None => Ret (inr ErrGasPrice, opts)
      | Some (gasPrice, opts') =>
          match gas_limit address opts contract gasPrice value input with
          | inr e => Ret (inr e, opts')
          | inl g =>
              if Nat.ltb (String.length input + spare) 4 then Panic
              else
                let rawTx :=
                  mkRawTx nonce (recipient address contract) value (inflate_limit g) gasPrice input in
                match Signer opts with
                | None => Ret (inr ErrNoSigner, opts')
                | Some signer =>
                    match signer (From opts) rawTx with
                    | Err => Ret (inr ErrSign, opts')
                    | Ok signedTx =>
                        if NoSend opts then Ret (inl signedTx, opts')
                        else if SendTransaction backend signedTx then Ret (inl signedTx, opts')
                        else Ret (inr ErrSend, opts')
                    end
                end
          end
      end
  end.

(** [Transact], with the packing of the method and its arguments given: packed
    call data starts with the four bytes of the method's selector, so that the
    spare capacity of the slice does not matter. *)
Definition Transact (address : Address) (opts : TransactOpts) (packed : result bytes)
    : outcome ((RawTx + BindError) * TransactOpts) :=
  match packed with
  | Err => Ret (inr ErrPack, opts)
  | Ok input => transact address opts (Some address) input 0
  end.

Definition RawTransact (address : Address) (opts : TransactOpts) (calldata : bytes)
    (spare : nat) : outcome ((RawTx + BindError) * TransactOpts) :=
  transact address opts (Some address) calldata spare.

Definition Transfer (address : Address) (opts : TransactOpts)
    : outcome ((RawTx + BindError) * TransactOpts) :=
  transact address opts (Some address) "" 0.

(** [DeployContract]; [CreateAddress] is the crypto library's, [spare] the spare
    capacity of the slice that [append] returns. *)
Definition DeployContract (CreateAddress : Address -> Z -> Address) (opts : TransactOpts)
    (bytecode : bytes) (packed : result bytes) (spare : nat)
    : outcome ((Address * RawTx + BindError) * TransactOpts) :=
  match packed with
  | Err => Ret (inr ErrPack, opts)
  | Ok input =>
      r ← transact 0 opts None (bytecode +:+ input) spare;
      match fst r with
      | inr e => Ret (inr e, snd r)
      | inl tx => Ret (inl (CreateAddress (From opts) (tx_Nonce tx), tx), snd r)
      end
  end.

(** [Call] up to the unpacking of the output. *)
Definition Call (address : Address) (pending : bool) (from : Address) (blockNumber : option Z)
    (packed : result bytes) : bytes + BindError :=
  match packed with
  | Err => inr ErrPack
  | Ok input =>
      let msg := mkCallMsg from (Some address) None None input in
      if pending then
        match PendingCallContract backend with
        | None => inr ErrNoPendingState
        | Some pcall =>
            match pcall msg with
            | Err => inl ""
            | Ok output =>
                if Nat.eqb (String.length output) 0 then
                  match PendingCodeAt backend address with
                  | Err => inr ErrCall
                  | Ok code => if Nat.eqb (String.length code) 0 then inr ErrNoCode else inl output
                  end
                else inl output
            end
        end
      else
        match CallContract backend msg blockNumber with
        | Err => inr ErrCall
        | Ok output =>
            if Nat.eqb (String.length output) 0 then
              match CodeAt backend address blockNumber with
              | Err => inr ErrCall
              | Ok code => if Nat.eqb (String.length code) 0 then inr ErrNoCode else inl output
              end
            else inl output
        end
  end.

End bind.

(** [NewKeyedTransactorWithChainID]: the signer refuses other addresses;
    [sign] is the signature of the crypto library for the chain and the key. *)
Definition NewKeyedTransactorWithChainID (keyAddr : Address) (sign : Z -> RawTx -> result RawTx)
    (chainID : option Z) : TransactOpts + BindError :=
  match chainID with
  | None => inr ErrNoChainID
  | Some id =>
      inl (mkTransactOpts keyAddr None
             (Some (fun address tx => if address =? keyAddr then sign id tx else Err))
             None None 0 false)
  end.

(** A sequence of transactions sent with the same options: the gas prices of
    those accepted, in order, and the options afterwards. *)
Fixpoint transact_all (backends : list (ContractBackend * (Address * bytes))) (opts : TransactOpts)
    : outcome (list Z * TransactOpts) :=
  match backends with
  | [] => Ret ([], opts)
  | (b, (address, input)) :: rest =>
      r ← Transact b address opts (Ok input);
      r' ← transact_all rest (snd r);
      match fst r with
      | inl tx => Ret (tx_GasPrice tx :: fst r', snd r')
      | inr _ => Ret r'
      end
  end.

(** * Facts *)

(** A backend and options with which a transaction of [input] is accepted. *)
Definition accepting (opts : TransactOpts) (x : ContractBackend * (Address * bytes)) : Prop :=
  (exists n, PendingNonceAt (fst x) (From opts) = Ok n) /\
  (forall tx, SendTransaction (fst x) tx = true) /\ (4 <= String.length (snd (snd x)))%nat.

Lemma gas_price_cases backend opts gp opts' :
  gas_price backend opts = Some (gp, opts') ->
  exists price, gp = inflate_price price /\
    (opt_GasPrice opts = Some price /\ opts' = with_GasPrice (Some (inflate_price price)) opts \/
     opt_GasPrice opts = None /\ SuggestGasPrice backend = Ok price /\ opts' = opts).
Proof.
  unfold gas_price. destruct (opt_GasPrice opts) as [p|]; [intros [= <- <-]; eauto 6|].
  destruct (SuggestGasPrice backend) as [p|]; [|done]. intros [= <- <-]. eauto 7.
Qed.

Lemma transact_accepting b address opts input price signer :
  accepting opts (b, (address, input)) -> opt_GasPrice opts = Some price -> GasLimit opts <> 0 ->
  Signer opts = Some signer ->
  (forall a tx, exists signed, signer a tx = Ok signed /\ tx_GasPrice signed = tx_GasPrice tx) ->
  exists tx, Transact b address opts (Ok input) =
    Ret (inl tx, with_GasPrice (Some (inflate_price price)) opts) /\
    tx_GasPrice tx = inflate_price price.
Proof.
  intros ([n Hn] & Hsend & Hlen) Hp Hg Hs Hsign. cbn in *. unfold transact.
  assert (Hnonce : exists m, account_nonce b opts = Some m)
    by (unfold account_nonce; rewrite Hn; destruct (opt_Nonce opts); eauto).
  destruct Hnonce as [m ->]. unfold gas_price, gas_limit. rewrite Hp.
  destruct (Z.eqb_spec (GasLimit opts) 0); [done|].
  destruct (Nat.ltb_spec (String.length input + 0) 4); [lia|]. rewrite Hs.
  edestruct Hsign as (signed & Es & Hpr). rewrite Es. exists signed.
  rewrite Hsend. split; [by destruct (NoSend opts)|]. exact Hpr.
Qed.

(** What a successful [transact] has done: the transaction returned is the
    signature, by the options' signer, of a transaction with the given input,
    addressed to the contract (to nobody for a deployment), its gas price one
    and a half times the options' or the suggested one, its limit one tenth
    above the options' or the estimated one; it was handed to the network
    unless the options forbid it; only the gas price of the options changed. *)
Theorem transact_success backend address opts contract input spare tx opts' :
  transact backend address opts contract input spare = Ret (inl tx, opts') ->
  exists nonce price g signer raw,
    raw = mkRawTx nonce (recipient address contract) (default 0 (Value opts))
            (inflate_limit g) (inflate_price price) input /\
    Signer opts = Some signer /\ signer (From opts) raw = Ok tx /\
    (NoSend opts = false -> SendTransaction backend tx = true) /\
    (opt_GasPrice opts = Some price /\ opts' = with_GasPrice (Some (inflate_price price)) opts \/
     opt_GasPrice opts = None /\ SuggestGasPrice backend = Ok price /\ opts' = opts) /\
    (GasLimit opts <> 0 -> g = GasLimit opts) /\
    (4 <= String.length input + spare)%nat.
Proof.
  unfold transact. intros E. destruct (account_nonce backend opts) as [nonce|]; [|done].
  destruct (gas_price backend opts) as [[gp optsp]|] eqn:Ep; [|done].
  apply gas_price_cases in Ep as (price & -> & Hp).
  destruct (gas_limit _ _ _ _ _ _ _) as [g|e] eqn:Eg; [|done].
  destruct (Nat.ltb_spec (String.length input + spare) 4); [done|].
  destruct (Signer opts) as [signer|] eqn:Es; [|done].
  destruct (signer _ _) as [signed|] eqn:Esig; [|done].
  exists nonce, price, g, signer. eexists. split; [reflexivity|].
  assert (signed = tx /\ optsp = opts') as [-> ->].
  { destruct (NoSend opts); [by simplify_eq|]. destruct (SendTransaction _ _); by simplify_eq. }
  split_and!; try done.
  - intros Hn. rewrite Hn in E. by destruct (SendTransaction backend tx).
  - intros Hg. unfold gas_limit in Eg. destruct (Z.eqb_spec (GasLimit opts) 0); [done|]. by simplify_eq.
Qed.

(** A node that accepts everything. *)
Definition open_backend : ContractBackend :=
  mkContractBackend (fun _ => Ok 7) (Ok 10) (fun _ => Ok "code") (fun _ => Ok 21000) (fun _ => true)
    (fun _ _ => Ok "") (fun _ _ => Ok "code") None.

Definition open_opts (price : Z) : TransactOpts :=
  mkTransactOpts 5 None (Some (fun _ tx => Ok tx)) None (Some price) 300000 false.

Lemma transact_success_witness :
  exists nonce price g signer raw,
    raw = mkRawTx nonce (Some 9) 0 (inflate_limit g) (inflate_price price) "data" /\
    signer (From (open_opts 20)) raw = Ok (mkRawTx 7 (Some 9) 0 330000 30 "data").
Proof.
  destruct (transact_success open_backend 9 (open_opts 20) (Some 9) "data" 0
    (mkRawTx 7 (Some 9) 0 330000 30 "data") (open_opts 30)) as (n & p & g & sg & raw & E & _ & Es & _).
  - vm_compute. reflexivity.
  - exists n, p, g, sg, raw. split; [exact E|exact Es].
Defined.

(** The gas price of the options compounds: sending several transactions
    with the same options, as the mint loop of the sentinel does, multiplies
    the price by one and a half for every transaction, because the price is
    inflated in place. *)
Theorem gas_price_compounds opts price xs signer :
  Signer opts = Some signer ->
  (forall a tx, exists signed, signer a tx = Ok signed /\ tx_GasPrice signed = tx_GasPrice tx) ->
  opt_GasPrice opts = Some price -> GasLimit opts <> 0 -> Forall (accepting opts) xs ->
  transact_all xs opts =
    Ret ((fun k => Nat.iter (S k) inflate_price price) <$> seq 0 (length xs),
         with_GasPrice (Some (Nat.iter (length xs) inflate_price price)) opts).
Proof.
  intros Hs Hsign Hp Hg Hacc. revert price Hp.
  assert (G : forall os price, Forall (accepting opts) xs -> os = with_GasPrice (Some price) opts ->
    transact_all xs os = Ret ((fun k => Nat.iter (S k) inflate_price price) <$> seq 0 (length xs),
         with_GasPrice (Some (Nat.iter (length xs) inflate_price price)) opts)).
  { clear Hacc. induction xs as [|[b [address input]] xs IH]; intros os price Hacc ->; cbn [transact_all]; [done|].
    apply Forall_cons in Hacc as [Hx Hacc].
    destruct (transact_accepting b address (with_GasPrice (Some price) opts) input price signer)
      as (tx & -> & Hpr); [done..|].
    cbn [mbind outcome_bind snd fst]. rewrite (IH _ (inflate_price price) Hacc (eq_refl : with_GasPrice _ (with_GasPrice _ opts) = _)).
    cbn [mbind outcome_bind snd fst length seq fmap list_fmap]. rewrite Hpr. do 2 f_equal.
    - f_equal. rewrite <- fmap_S_seq, <- list_fmap_compose. apply list_fmap_ext. intros i x _.
      symmetry. apply (Nat.iter_succ_r (S x)).
    - do 2 f_equal. symmetry. apply (Nat.iter_succ_r (length xs)). }
  intros price Hp. apply G; [done|]. destruct opts. cbn in *. by subst.
Qed.

Lemma gas_price_compounds_witness :
  transact_all (replicate 30 (open_backend, (9, "data"))) (open_opts 20000000000) =
    Ret ((fun k => Nat.iter (S k) inflate_price 20000000000) <$> seq 0 30,
         open_opts (Nat.iter 30 inflate_price 20000000000)) /\
  190000 * 20000000000 < Nat.iter 30 inflate_price 20000000000.
Proof.
  split; [|vm_compute; reflexivity].
  apply (gas_price_compounds (open_opts 20000000000) 20000000000
    (replicate 30 (open_backend, (9, "data"))) (fun _ tx => Ok tx)).
  - reflexivity.
  - intros a tx. exists tx. split; reflexivity.
  - reflexivity.
  - discriminate.
  - apply Forall_replicate. split; [exists 7; reflexivity|]. split; [reflexivity|cbn; lia].
Defined.

(** A plain transfer to a contract never succeeds: the log line slices the
    first four bytes of an empty input, so [Transfer] panics whenever the
    nonce, the gas price and the gas limit could be determined. *)
Theorem Transfer_panics backend address opts nonce price opts' g :
  account_nonce backend opts = Some nonce -> gas_price backend opts = Some (price, opts') ->
  gas_limit backend address opts (Some address) price (default 0 (Value opts)) "" = inl g ->
  Transfer backend address opts = Panic.
Proof. intros Hn Hp Hg. unfold Transfer, transact. by rewrite Hn, Hp, Hg. Qed.

Lemma Transfer_panics_witness : Transfer open_backend 9 (open_opts 20) = Panic.
Proof.
  apply (Transfer_panics open_backend 9 (open_opts 20) 7 30 (open_opts 30) 300000); reflexivity.
Defined.
