(* ===== verification/DkgBase.v ===== *)
(** * Distributed key generation: state, contract reads, signatures (dkg/dkg.go)

    The DKG component of a node keeps the BLS settings negotiated through the
    vssbase contract of the vnode chain.  The contract, the clock and the
    chain head are read through remote calls whose answers may change from one
    call to the next: the world carries a call counter, and the answer to the
    [n]-th call is taken from an arbitrary sequence of contract views.
    Transactions sent to the contract are recorded in order. *)
From S2P Require Import Prelude GoMonad Fmt Event.
Local Open Scope Z_scope.

(** ** The cryptographic libraries (go.dedis.ch/kyber, innowells/bls_lib) *)
Record Share (V : Type) := mkShare { share_I : Z; share_V : V }.
Arguments mkShare {V} _ _.
Arguments share_I {V} _.
Arguments share_V {V} _.

(** [PersistPublicShares] and [PersistPrivateShares]: the serialized shares and
    the sender's signature over them. *)
Record SignedShares := mkSignedShares { ss_shares : bytes; ss_sig : bytes }.

Class Kyber := {
  Scalar : Type;
  Point : Type;
  EdScalar : Type;
  EdPoint : Type;
  PubPoly : Type;
  Secret : Type;
  Scalar_Zero : Scalar;
  Scalar_Add : Scalar -> Scalar -> Scalar;
  Scalar_MarshalBinary : Scalar -> bytes;
  Scalar_UnmarshalBinary : bytes -> Scalar;
  Point_Null : Point;
  Point_Mul : Scalar -> Point;
  Point_Equal : Point -> Point -> bool;
  Point_UnmarshalFrom : bytes -> Point;
  RecoverPubPoly : list (option (Share Point)) -> Z -> Z -> option PubPoly;
  PubPoly_Add : PubPoly -> PubPoly -> option PubPoly;
  PubPoly_Eval : PubPoly -> Z -> Point;
  PubPoly_Commit : PubPoly -> Point;
  bls_Verify : Point -> bytes -> bytes -> option string;
  EdPoint_UnmarshalFrom : bytes -> EdPoint;
  VerifyED25519 : EdPoint -> bytes -> bytes -> bool * bool;
  EdDSA_Secret : EdScalar -> EdScalar;
  UnmarshalPublicShares : bytes -> EdPoint -> list (Share Point) * SignedShares;
  UnmarshalPrivateShares : bytes -> EdScalar -> Z -> EdPoint -> list (Share Scalar) * SignedShares;
  MarshalPublicShares : list (Share Point) -> EdScalar -> bytes;
  MarshalPrivateShares : list (Share Scalar) -> gmap Z EdPoint -> EdScalar -> bytes;
  json_PubShareIndexes : bytes -> list (Z * bytes);
  json_PriShareIndexes : bytes -> list Z;
  gzip_Copy : bytes -> option bytes;
  gzip_Write : bytes -> bytes
}.

(** The indexes of the usable shares among [n] nodes. *)
Definition valid_indexes `{Kyber} (n : Z) (shares : list (option (Share Point))) : gset Z :=
  list_to_set (share_I <$> filter (fun s => 0 <= share_I s < n) (omap id shares)).

(** What the group arithmetic relies on: points form the image of the scalars
    under a homomorphism, and the polynomial recovered from at least [t]
    shares of a dealing of threshold [t] is the commitment to that dealing.
    [sharing t f] says that [f] is a dealing of threshold [t] (a polynomial of
    degree below [t]) and [commits t p f] that [p] is its public polynomial. *)
Class KyberLaws `{Kyber} := {
  Point_Add : Point -> Point -> Point;
  sharing : Z -> (Z -> Scalar) -> Prop;
  commits : Z -> PubPoly -> (Z -> Scalar) -> Prop;
  Point_Equal_spec : forall p q, Point_Equal p q = true <-> p = q;
  Scalar_Add_comm : forall a b, Scalar_Add a b = Scalar_Add b a;
  Scalar_Add_assoc : forall a b c, Scalar_Add a (Scalar_Add b c) = Scalar_Add (Scalar_Add a b) c;
  Scalar_Add_0_l : forall a, Scalar_Add Scalar_Zero a = a;
  Point_Mul_Add : forall a b, Point_Mul (Scalar_Add a b) = Point_Add (Point_Mul a) (Point_Mul b);
  RecoverPubPoly_sound : forall shares t n f,
    sharing t f ->
    (forall s, Some s ∈ shares -> 0 <= share_I s -> share_V s = Point_Mul (f (share_I s))) ->
    t <= Z.of_nat (size (valid_indexes n shares)) ->
    exists p, RecoverPubPoly shares t n = Some p /\ commits t p f;
  PubPoly_Add_commits : forall t p q f g,
    commits t p f -> commits t q g ->
    exists r, PubPoly_Add p q = Some r /\ commits t r (fun i => Scalar_Add (f i) (g i));
  PubPoly_Eval_commits : forall t p f i,
    commits t p f -> 0 <= i -> PubPoly_Eval p i = Point_Mul (f i)
}.

(** [blslib.BLS]: the fields the node reads and writes, the rest opaque. *)
Record BLS `{Kyber} := mkBLS {
  Threshold : Z;
  N : Z;
  TotalN : Z;
  NodeIndex : Z;
  GroupPublicPoly : option PubPoly;
  GroupPrivateShare : option (Share Scalar);
  bls_secret : Secret
}.

(** [NewBLS] draws a random polynomial: its first argument stands for the state
    of the random source. *)
Class BlsLib `{Kyber} := {
  NewBLS : nat -> Z -> list Address -> Z -> Z -> BLS;
  GetPrivateShares : BLS -> Z -> list (Share Scalar);
  GetPublicShares : BLS -> Z -> list (Share Point);
  GenerateRandomNumber : BLS -> bytes -> gmap Z bytes -> result bytes;
  SignBytes : BLS -> bytes -> bytes
}.

(** ** Constants (dkg/dkg.go, params/vss.go) *)
Definition VssConfigVote : Z := 0.
Definition VssConfigReveal : Z := 1.
Definition VssConfigRecheck : Z := 2.
Definition VssConfigOmit : Z := 3.
Definition SlashReveal : Z := 0.
Definition CounterSlashReveal : Z := 1.
Definition NoSlashAction : Z := 2.
Definition second : Z := 1000000000.
Definition MaxConfigUploadTimeoutInSeconds : Z := 120 * second.
Definition GetVSSSharesTimeout : Z := 60 * second.
Definition MinVSSRunInterval : Z := 2.
Definition MaximumBLSHistorySize : Z := 100.
Definition MinBLSBlockNumber : Z := 1.
Definition BlockInterval : Z := 10.

Record RevealedShare := mkRevealedShare {
  PubShare : bytes;
  PubSig : bytes;
  PriShare : bytes;
  PriSig : bytes;
  Revealed : bytes;
  Violator : Address;
  Whistleblower : Address
}.

(** ** One view of the contract, the chain head and the clock

    A reading that returns a [*big.Int] is [None] when the call failed: the
    binding returns a nil pointer with the error.  A failed call that returns
    a slice gives the empty slice, a failed boolean call [false]. *)
Record VssBase := mkVssBase {
  vb_VssThreshold : option Z;
  vb_GetVSSNodeIndex : Address -> option Z;
  vb_IsConfigReady : Z -> bool;
  vb_GetVSSNodesPubkey : list Address -> list bytes;
  vb_VssNodeMemberships : Address -> option Z;
  vb_GetVSSNodesIndexs : list Address -> list Z;
  vb_GetActiveVSSMemberList : result (list Address);
  vb_GetLastSlashVoted : Address -> option Z;
  vb_LastConfigUpload : Address -> option Z;
  vb_VssNodeCount : option Z;
  vb_VssConfigVersion : option Z;
  vb_RevealIndex : option Z;
  vb_LastNodeChangeConfigVersion : option Z;
  vb_LastNodeChangeBlock : option Z;
  vb_SlowNodeThreshold : option Z;
  vb_GetPublicShares : Address -> bytes;
  vb_GetPrivateShares : Address -> bytes;
  vb_GetRevealedShare : Z -> result RevealedShare;
  vb_BlockNumber : Z;
  vb_Now : Z
}.

(** Transactions the node sends to the contract. *)
Inductive Tx : Type :=
| TxVote (configVersion : Z)
| TxReveal (violator : Address) (pubShare pubSig priShare priSig revealed : bytes)
| TxUploadVSSConfig (publicShares privateShares : bytes)
| TxReportSlowNode (slowNode : Address)
| TxSlashing (index : Z) (slash : bool)
| TxRegisterVSS (vssid : Address) (pubkey : bytes)
| TxActivateVSS (vssid : Address).

Section dkg.
Context `{Kyber} `{!BlsLib} `{MoacLib}.

Record DKG := mkDKG {
  Vssid : Address;
  Bls : option BLS;
  prevbls : list BLS;
  AllSigs : gmap string bytes;
  VssKey_Private : EdScalar;
  VssKey_Public : bytes;
  vssEnabled : bool;
  nodesPubkey : gmap Address bytes;
  NodeList : list Address;
  vssSeenConfigs : gmap Z bool;
  vssSettings : gmap Z BLS;
  currentConfigVersion : Z;
  uploadedConfigTime : Z;
  AddressToIndex : gmap string Z;
  IndexToAddress : gmap Z string;
  VssBaseAddr : string
}.

Record World := mkWorld { w_dkg : DKG; w_tick : nat; w_txs : list Tx }.

(** Field updates. *)
Definition with_NodeList (l : list Address) (d : DKG) : DKG :=
  mkDKG (Vssid d) (Bls d) (prevbls d) (AllSigs d) (VssKey_Private d) (VssKey_Public d)
    (vssEnabled d) (nodesPubkey d) l (vssSeenConfigs d) (vssSettings d)
    (currentConfigVersion d) (uploadedConfigTime d) (AddressToIndex d) (IndexToAddress d)
    (VssBaseAddr d).

Definition with_nodesPubkey (m : gmap Address bytes) (d : DKG) : DKG :=
  mkDKG (Vssid d) (Bls d) (prevbls d) (AllSigs d) (VssKey_Private d) (VssKey_Public d)
    (vssEnabled d) m (NodeList d) (vssSeenConfigs d) (vssSettings d)
    (currentConfigVersion d) (uploadedConfigTime d) (AddressToIndex d) (IndexToAddress d)
    (VssBaseAddr d).

Definition with_Indexes (a2i : gmap string Z) (i2a : gmap Z string) (d : DKG) : DKG :=
  mkDKG (Vssid d) (Bls d) (prevbls d) (AllSigs d) (VssKey_Private d) (VssKey_Public d)
    (vssEnabled d) (nodesPubkey d) (NodeList d) (vssSeenConfigs d) (vssSettings d)
    (currentConfigVersion d) (uploadedConfigTime d) a2i i2a (VssBaseAddr d).

Definition with_vssSettings (m : gmap Z BLS) (d : DKG) : DKG :=
  mkDKG (Vssid d) (Bls d) (prevbls d) (AllSigs d) (VssKey_Private d) (VssKey_Public d)
    (vssEnabled d) (nodesPubkey d) (NodeList d) (vssSeenConfigs d) m
    (currentConfigVersion d) (uploadedConfigTime d) (AddressToIndex d) (IndexToAddress d)
    (VssBaseAddr d).

Definition with_vssSeenConfigs (m : gmap Z bool) (d : DKG) : DKG :=
  mkDKG (Vssid d) (Bls d) (prevbls d) (AllSigs d) (VssKey_Private d) (VssKey_Public d)
    (vssEnabled d) (nodesPubkey d) (NodeList d) m (vssSettings d)
    (currentConfigVersion d) (uploadedConfigTime d) (AddressToIndex d) (IndexToAddress d)
    (VssBaseAddr d).

Definition with_Bls (b : option BLS) (prev : list BLS) (version : Z) (d : DKG) : DKG :=
  mkDKG (Vssid d) b prev (AllSigs d) (VssKey_Private d) (VssKey_Public d)
    (vssEnabled d) (nodesPubkey d) (NodeList d) (vssSeenConfigs d) (vssSettings d)
    version (uploadedConfigTime d) (AddressToIndex d) (IndexToAddress d) (VssBaseAddr d).

Definition with_AllSigs (m : gmap string bytes) (d : DKG) : DKG :=
  mkDKG (Vssid d) (Bls d) (prevbls d) m (VssKey_Private d) (VssKey_Public d)
    (vssEnabled d) (nodesPubkey d) (NodeList d) (vssSeenConfigs d) (vssSettings d)
    (currentConfigVersion d) (uploadedConfigTime d) (AddressToIndex d) (IndexToAddress d)
    (VssBaseAddr d).

Definition with_uploadedConfigTime (t : Z) (d : DKG) : DKG :=
  mkDKG (Vssid d) (Bls d) (prevbls d) (AllSigs d) (VssKey_Private d) (VssKey_Public d)
    (vssEnabled d) (nodesPubkey d) (NodeList d) (vssSeenConfigs d) (vssSettings d)
    (currentConfigVersion d) t (AddressToIndex d) (IndexToAddress d) (VssBaseAddr d).

Definition gdkg : go World DKG := fun w => Ret (w_dkg w, w).

(** The state of the random source, which changes with every call. *)
Definition gentropy : go World nat := fun w => Ret (w_tick w, w).

Definition gupd (f : DKG -> DKG) : go World unit :=
  gmodify (fun w => mkWorld (f (w_dkg w)) (w_tick w) (w_txs w)).

Definition gsend (tx : Tx) : go World unit :=
  gmodify (fun w => mkWorld (w_dkg w) (w_tick w) (w_txs w ++ [tx])).

(** ** Readiness and validation *)
Definition IsVSSReady (dkg : DKG) : bool :=
  vssEnabled dkg &&
  match Bls dkg with
  | Some b => found (GroupPrivateShare b)
  | None => false
  end.

Definition ShouldSkipVSS (dkg : DKG) (blockNumber : Z) : bool :=
  negb (vssEnabled dkg) || (blockNumber <? MinBLSBlockNumber).

Definition IsVSSEnabled (dkg : DKG) : bool := negb (HexToAddress (VssBaseAddr dkg) =? 0).

(** [GetBlsSig]: the signature cache is filled by another goroutine; [probe i]
    is what it holds for the key at the [i]-th look. *)
Fixpoint GetBlsSig_loop (probe : nat -> option bytes) (i n : nat) : bytes * option string :=
  match n with
  | O => ("", Some "wait for vss result timeout")
  | S n' =>
      match probe i with
      | Some sig => (sig, None)
      | None => GetBlsSig_loop probe (S i) n'
      end
  end.

Definition GetBlsSig (probe : nat -> option bytes) : bytes * option string :=
  GetBlsSig_loop probe 0 (Z.to_nat BlockInterval).

Definition ValidateProposerSig (dkg : DKG) (proposerSig : bytes) (proposer : Address)
    (blsSig : bytes) (syncBlock : bool) (blockNumber : Z) : bool :=
  if syncBlock then true
  else if ShouldSkipVSS dkg blockNumber then true
  else if negb (IsVSSReady dkg) then false
  else
    match nodesPubkey dkg !! proposer with
    | Some pubkeyBytes =>
        let pubkey := EdPoint_UnmarshalFrom pubkeyBytes in
        let '(validated, _) := VerifyED25519 pubkey blsSig proposerSig in
        validated
    | None => false
    end.

(** The signature check against one BLS setting, with the library's error; a
    setting without a group polynomial dereferences a nil pointer. *)
Definition verify_with (bls : BLS) (toSign blsSig : bytes) : outcome (option string) :=
  match GroupPublicPoly bls with
  | Some poly => Ret (bls_Verify (PubPoly_Commit poly) toSign blsSig)
  | None => Panic
  end.

(** The loop over the previous BLS settings, front to back: whether one of
    them verifies the signature. *)
Fixpoint verify_prev (prev : list BLS) (toSign blsSig : bytes) : outcome bool :=
  match prev with
  | [] => Ret false
  | bls :: prev' =>
      errVerify ← verify_with bls toSign blsSig;
      match errVerify with
      | None => Ret true
      | Some _ => verify_prev prev' toSign blsSig
      end
  end.

Definition ValidateBLSSig (dkg : DKG) (toSign blsSig : bytes) (syncBlock : bool)
    (blockNumber : Z) : outcome (bool * option string) :=
  if syncBlock then Ret (true, None)
  else if ShouldSkipVSS dkg blockNumber then Ret (true, None)
  else if negb (IsVSSReady dkg) then Ret (false, Some "bls is not ready")
  else
    match Bls dkg with
    | None => Panic
    | Some bls =>
        errVerify ← verify_with bls toSign blsSig;
        match errVerify with
        | None => Ret (true, None)
        | Some e =>
            okprev ← verify_prev (prevbls dkg) toSign blsSig;
            if (okprev : bool) then Ret (true, None) else Ret (false, Some e)
        end
    end.

(** ** Threshold signatures: [HandleSigShares] *)
Record SigShareMessage := mkSigShareMessage {
  sm_Key : string;
  sm_FromIndex : option Z;
  sm_Sig : bytes
}.

(** One iteration of the receive loop, on the local table of shares
    (key -> node index -> share). *)
Definition HandleSigShare (sigShare : SigShareMessage) (dkg : DKG)
    (allSigShares : gmap string (gmap Z bytes)) : outcome (DKG * gmap string (gmap Z bytes)) :=
  let sigShareKey := sm_Key sigShare in
  let sigs0 := default ∅ (allSigShares !! sigShareKey) in
  fromIndex ← big_Int64 (sm_FromIndex sigShare);
  let sigs := <[fromIndex := sm_Sig sigShare]> sigs0 in
  let all1 := <[sigShareKey := sigs]> allSigShares in
  if IsVSSReady dkg then
    match Bls dkg with
    | None => Panic
    | Some bls =>
        if Z.of_nat (size sigs) <? Threshold bls then Ret (dkg, all1)
        else
          match GenerateRandomNumber bls sigShareKey sigs with
          | Ok sig =>
              Ret (with_AllSigs (<[sigShareKey := sig]> (AllSigs dkg)) dkg,
                   delete sigShareKey all1)
          | Err => Ret (dkg, all1)
          end
    end
  else Ret (dkg, all1).

Fixpoint HandleSigShares (msgs : list SigShareMessage) (dkg : DKG)
    (allSigShares : gmap string (gmap Z bytes)) : outcome (DKG * gmap string (gmap Z bytes)) :=
  match msgs with
  | [] => Ret (dkg, allSigShares)
  | m :: msgs' =>
      st ← HandleSigShare m dkg allSigShares;
      HandleSigShares msgs' (fst st) (snd st)
  end.

(** ** Contract reads *)
Section env.
Variable env : nat -> VssBase.

Definition call {A : Type} (f : VssBase -> A) : go World A :=
  fun w => Ret (f (env (w_tick w)), mkWorld (w_dkg w) (S (w_tick w)) (w_txs w)).

Definition gnow : go World Z := call vb_Now.

Definition GetVssThreshold : go World Z :=
  n ← call vb_VssThreshold; glift (big_Uint64 n).

Definition GetVSSNodeIndex : go World (option Z) :=
  d ← gdkg; call (fun vb => vb_GetVSSNodeIndex vb (Vssid d)).

Definition isVSSConfigReady (configVersion : Z) : go World bool :=
  call (fun vb => vb_IsConfigReady vb configVersion).

(** [result[addr] = publickeys[i][:]], counting the keys whose length is 32:
    every [[32]byte] has that length. *)
Fixpoint pubkeys_loop (i : nat) (activeNodeList : list Address) (publickeys : list bytes)
    (result : gmap Address bytes) (emptyPubkey : Z) : outcome (gmap Address bytes * Z) :=
  match activeNodeList with
  | [] => Ret (result, emptyPubkey)
  | addr :: rest =>
      match publickeys !! i with
      | None => Panic
      | Some pk =>
          pubkeys_loop (S i) rest publickeys (<[addr := pk]> result)
            (if Nat.eqb (String.length pk) 32 then emptyPubkey + 1 else emptyPubkey)
      end
  end.

Definition GetVSSNodesPubkey (activeNodeList : list Address)
    : go World (gmap Address bytes * option string) :=
  publickeys ← call (fun vb => vb_GetVSSNodesPubkey vb activeNodeList);
  r ← glift (pubkeys_loop 0 activeNodeList publickeys ∅ 0);
  if snd r >? 0 then mret (fst r, Some "empty pub key in for active node.")
  else mret (fst r, None).

Definition IsActiveVss : go World bool :=
  d ← gdkg;
  ret ← call (fun vb => vb_VssNodeMemberships vb (Vssid d));
  n ← glift (big_Int64 ret);
  mret (n =? 1).

Fixpoint indexs_loop (i : nat) (activeMemberList : list Address) (indexs : list Z)
    (result : gmap Address Z) : outcome (gmap Address Z) :=
  match activeMemberList with
  | [] => Ret result
  | addr :: rest =>
      match indexs !! i with
      | None => Panic
      | Some z => n ← big_Int64 (Some z); indexs_loop (S i) rest indexs (<[addr := n]> result)
      end
  end.

Definition GetVSSNodesIndexs (activeMemberList : list Address) : go World (gmap Address Z) :=
  indexs ← call (fun vb => vb_GetVSSNodesIndexs vb activeMemberList);
  glift (indexs_loop 0 activeMemberList indexs ∅).

Definition GetActiveVSSMemberList : go World (list Address * bool) :=
  r ← call vb_GetActiveVSSMemberList;
  match r with
  | Ok l => mret (l, false)
  | Err => mret ([], true)
  end.

Definition GetLastSlashVoted : go World Z :=
  d ← gdkg; n ← call (fun vb => vb_GetLastSlashVoted vb (Vssid d)); glift (big_Uint64 n).

Definition GetLastConfigUpload (address : Address) : go World Z :=
  n ← call (fun vb => vb_LastConfigUpload vb address); glift (big_Uint64 n).

Definition GetVssNodeCount : go World Z := n ← call vb_VssNodeCount; glift (big_Uint64 n).

Definition GetVssConfigVersion : go World Z := n ← call vb_VssConfigVersion; glift (big_Uint64 n).

Definition GetRevealIndex : go World Z := n ← call vb_RevealIndex; glift (big_Uint64 n).

Definition GetLastNodeChangeConfigVersion : go World Z :=
  n ← call vb_LastNodeChangeConfigVersion; glift (big_Uint64 n).

Definition GetLastNodeChangeBlock : go World Z :=
  n ← call vb_LastNodeChangeBlock; glift (big_Uint64 n).

Definition GetSlowNodeThreshold : go World Z :=
  n ← call vb_SlowNodeThreshold; glift (big_Uint64 n).

(** ** Waiting for the uploaded shares

    One pass over the active nodes: a share longer than one byte is unzipped
    and kept; the error of the gzip reader is ignored, so a malformed upload
    dereferences a nil reader. *)
Definition GetVSSShares_pass (endpoint : string) (activeNodeList : list Address)
    (received : gmap Address bytes) : go World (gmap Address bytes) :=
  for_each (fun received addr =>
    if found (received !! addr) then mret received
    else
      vssShares ←
        (if bool_decide (endpoint = "getPublicShares")
         then call (fun vb => vb_GetPublicShares vb addr)
         else call (fun vb => vb_GetPrivateShares vb addr));
      if Nat.ltb 1 (String.length vssShares) then
        match gzip_Copy vssShares with
        | None => gpanic
        | Some data => mret (<[addr := data]> received)
        end
      else mret received)
    received activeNodeList.

Fixpoint GetVSSShares_loop (fuel : nat) (endpoint : string) (activeNodeList : list Address)
    (timeout : Z) (received : gmap Address bytes)
    : go World (gmap Address bytes * option (list Address)) :=
  match fuel with
  | O => gfuel
  | S fuel' =>
      received' ← GetVSSShares_pass endpoint activeNodeList received;
      if Nat.eqb (size received') (length activeNodeList) then mret (received', None)
      else
        now ← gnow;
        if now >? timeout then
          mret (received', Some (filter (fun addr => received' !! addr = None) activeNodeList))
        else GetVSSShares_loop fuel' endpoint activeNodeList timeout received'
  end.

(** [GetVSSShares]: the shares received, and the missing senders when the wait
    timed out. *)
Definition GetVSSShares (fuel : nat) (endpoint : string) (activeNodeList : list Address)
    : go World (gmap Address bytes * option (list Address)) :=
  now ← gnow;
  GetVSSShares_loop fuel endpoint activeNodeList (now + GetVSSSharesTimeout) ∅.

(** ** Membership *)
Definition IsNodeActive (dkg : DKG) (activeNodeList : list Address) : bool :=
  foldl (fun isNodeActive nodeAddr => if Vssid dkg =? nodeAddr then true else isNodeActive)
    false activeNodeList.

Fixpoint find_index (i : Z) (nodelist : list Address) (myAddr : Address) : Z :=
  match nodelist with
  | [] => -1
  | a :: rest => if a =? myAddr then i else find_index (i + 1) rest myAddr
  end.

Definition FindAddressInNodelist (myAddr : Address) : go World (Z * Z) :=
  r ← GetActiveVSSMemberList;
  mret (find_index 0 (fst r) myAddr, Z.of_nat (length (fst r))).

(** ** Transactions *)
Definition vssVote (configVersion : Z) : go World unit := gsend (TxVote configVersion).

Definition vssReveal (violator : Address) (pubShare pubSig priShare priSig revealed : bytes)
    : go World unit :=
  gsend (TxReveal violator pubShare pubSig priShare priSig revealed).

Definition vssSlashing (index : Z) (slash : bool) : go World unit := gsend (TxSlashing index slash).

Definition vssReportSlowNode (slowNode : Address) : go World unit := gsend (TxReportSlowNode slowNode).

Definition SendUploadVSSConfig (publicShares privateShares : bytes) : go World unit :=
  gsend (TxUploadVSSConfig publicShares privateShares).

Definition registerVss : go World unit :=
  d ← gdkg;
  if Nat.ltb (String.length (VssKey_Public d)) 32 then gpanic
  else gsend (TxRegisterVSS (Vssid d) (String.substring 0 32 (VssKey_Public d))).

Definition activateVss : go World unit := d ← gdkg; gsend (TxActivateVSS (Vssid d)).

End env.
End dkg.

(** * Facts *)
Section facts.
Context `{Kyber} `{!BlsLib} `{MoacLib}.

(** A BLS setting accepts a signature. *)
Definition accepts (toSign blsSig : bytes) (b : BLS) : Prop :=
  exists p, GroupPublicPoly b = Some p /\ bls_Verify (PubPoly_Commit p) toSign blsSig = None.

(** A message delivers share [s] of node [i] for key [k]. *)
Definition delivers (msgs : list SigShareMessage) (k : string) (i : Z) (s : bytes) : Prop :=
  exists m, m ∈ msgs /\ sm_Key m = k /\ big_Int64 (sm_FromIndex m) = Ret i /\ sm_Sig m = s.

(** The table of shares only holds delivered shares. *)
Definition shares_delivered (msgs : list SigShareMessage) (all : gmap string (gmap Z bytes)) : Prop :=
  forall k sigs i s, all !! k = Some sigs -> sigs !! i = Some s -> delivers msgs k i s.

(** A cached group signature was there before, or was made by the current BLS
    setting from at least a threshold of delivered shares. *)
Definition sig_justified (msgs : list SigShareMessage) (before : DKG) (k : string) (sig : bytes)
    : Prop :=
  AllSigs before !! k = Some sig \/
  exists bls sigs,
    Bls before = Some bls /\ Threshold bls <= Z.of_nat (size sigs) /\
    (forall i s, sigs !! i = Some s -> delivers msgs k i s) /\
    GenerateRandomNumber bls k sigs = Ok sig.

Lemma find_index_notin l a : forall i, a ∉ l -> find_index i l a = -1.
Proof.
  induction l as [|b l IH]; intros i Hn; cbn; [done|].
  destruct (Z.eqb_spec b a); [set_solver|]. apply IH. set_solver.
Qed.

Lemma find_index_range l a : forall i, a ∈ l -> i <= find_index i l a < i + Z.of_nat (length l).
Proof.
  induction l as [|b l IH]; intros i Ha; [by apply elem_of_nil in Ha|]. cbn [find_index length].
  destruct (Z.eqb_spec b a) as [->|Hne]; [lia|].
  apply elem_of_cons in Ha as [->|Ha]; [done|]. specialize (IH (i + 1) Ha). lia.
Qed.

Lemma find_index_lookup l a : forall i (j : nat),
  NoDup l -> l !! j = Some a -> find_index i l a = i + Z.of_nat j.
Proof.
  induction l as [|b l IH]; intros i j Hnd Hj; cbn; [done|].
  apply NoDup_cons in Hnd as [Hb Hnd].
  destruct j as [|j]; cbn in Hj; simplify_eq.
  - rewrite Z.eqb_refl. lia.
  - destruct (Z.eqb_spec b a) as [->|].
    + apply list_elem_of_lookup_2 in Hj. done.
    + rewrite (IH _ j) by done. lia.
Qed.

Lemma IsNodeActive_spec dkg l : IsNodeActive dkg l = true <-> Vssid dkg ∈ l.
Proof.
  assert (G : forall b, foldl (fun acc a => if Vssid dkg =? a then true else acc) b l = true <->
              b = true \/ Vssid dkg ∈ l).
  { induction l as [|a l IH]; intros b; cbn.
    - rewrite elem_of_nil. tauto.
    - rewrite IH, elem_of_cons. destruct (Z.eqb_spec (Vssid dkg) a); intuition congruence. }
  unfold IsNodeActive. rewrite G. intuition congruence.
Qed.

Lemma verify_prev_spec toSign blsSig prev :
  Forall (fun b => is_Some (GroupPublicPoly b)) prev ->
  exists ok, verify_prev prev toSign blsSig = Ret ok /\
    (ok = true <-> Exists (accepts toSign blsSig) prev).
Proof.
  induction 1 as [|b prev [p Hp] _ (ok & E & Hok)]; cbn.
  - exists false. split; [done|]. rewrite Exists_nil. done.
  - unfold verify_with. rewrite Hp. cbn.
    destruct (bls_Verify _ _ _) eqn:Ev.
    + exists ok. split; [done|]. rewrite Hok, Exists_cons. split; [auto|].
      intros [(p' & Hp' & Hv)|]; [|done]. congruence.
    + exists true. split; [done|]. rewrite Exists_cons. split; [|done].
      intros _. left. exists p. done.
Qed.

Lemma HandleSigShare_cases m dkg all dkg' all' :
  HandleSigShare m dkg all = Ret (dkg', all') ->
  exists i, big_Int64 (sm_FromIndex m) = Ret i /\
  let sigs := <[i := sm_Sig m]> (default ∅ (all !! sm_Key m)) in
  (dkg' = dkg /\ all' = <[sm_Key m := sigs]> all) \/
  (exists bls sig, Bls dkg = Some bls /\ Threshold bls <= Z.of_nat (size sigs) /\
     GenerateRandomNumber bls (sm_Key m) sigs = Ok sig /\
     dkg' = with_AllSigs (<[sm_Key m := sig]> (AllSigs dkg)) dkg /\
     all' = delete (sm_Key m) (<[sm_Key m := sigs]> all)).
Proof.
  unfold HandleSigShare. destruct (big_Int64 _) as [i| |]; cbn; [|done..].
  intros E. exists i. split; [done|]. cbn.
  destruct (IsVSSReady dkg); [|left; by simplify_eq].
  destruct (Bls dkg) as [bls|] eqn:Eb; [|done].
  destruct (Z.ltb_spec (Z.of_nat (size (<[i := sm_Sig m]> (default ∅ (all !! sm_Key m)))))
              (Threshold bls)); [left; by simplify_eq|].
  destruct (GenerateRandomNumber _ _ _) as [sig|] eqn:Eg; [|left; by simplify_eq].
  right. exists bls, sig. simplify_eq. done.
Qed.

Lemma delivers_app msgs msgs' k i s :
  delivers msgs k i s -> delivers (msgs ++ msgs') k i s.
Proof. intros (m & Hm & ?). exists m. split; [apply elem_of_app; auto|done]. Qed.

Lemma HandleSigShare_shares pre m dkg all dkg' all' :
  HandleSigShare m dkg all = Ret (dkg', all') ->
  shares_delivered pre all ->
  shares_delivered (pre ++ [m]) all' /\
  forall k sig, AllSigs dkg' !! k = Some sig ->
    AllSigs dkg !! k = Some sig \/ sig_justified (pre ++ [m]) dkg k sig.
Proof.
  intros E Hd. destruct (HandleSigShare_cases _ _ _ _ _ E) as (i & Ei & Hc). cbn in Hc.
  set (sigs := <[i := sm_Sig m]> (default ∅ (all !! sm_Key m))) in *.
  assert (Hs : forall j s, sigs !! j = Some s -> delivers (pre ++ [m]) (sm_Key m) j s).
  { intros j s Hj. unfold sigs in Hj. apply lookup_insert_Some in Hj as [[<- <-]|[_ Hj]].
    - exists m. split; [apply elem_of_app; right; by apply list_elem_of_singleton|done].
    - destruct (all !! sm_Key m) as [t|] eqn:Et; cbn in Hj; [|set_solver].
      apply delivers_app. by eapply Hd. }
  assert (Hall : shares_delivered (pre ++ [m]) (<[sm_Key m := sigs]> all)).
  { intros k t j s Hk Hj. apply lookup_insert_Some in Hk as [[<- <-]|[_ Hk]]; [auto|].
    apply delivers_app. by eapply Hd. }
  destruct Hc as [[-> ->]|(bls & sig & Hb & Ht & Hg & -> & ->)]; (split; [|intros k sig' Hk]).
  - done.
  - by left.
  - intros k t j s Hk. apply lookup_delete_Some in Hk as [_ Hk]. by apply Hall.
  - cbn in Hk. apply lookup_insert_Some in Hk as [[<- <-]|[_ Hk]]; [|by left].
    right. right. exists bls, sigs. done.
Qed.

Lemma HandleSigShare_Bls m dkg all dkg' all' :
  HandleSigShare m dkg all = Ret (dkg', all') -> Bls dkg' = Bls dkg.
Proof.
  intros E. destruct (HandleSigShare_cases _ _ _ _ _ E) as (i & _ & Hc).
  by destruct Hc as [[-> _]|(? & ? & _ & _ & _ & -> & _)].
Qed.

Lemma HandleSigShares_shares msgs : forall pre dkg all dkg' all',
  HandleSigShares msgs dkg all = Ret (dkg', all') ->
  shares_delivered pre all ->
  forall k sig, AllSigs dkg' !! k = Some sig -> sig_justified (pre ++ msgs) dkg k sig.
Proof.
  induction msgs as [|m msgs IH]; intros pre dkg all dkg' all' E Hd k sig Hk; cbn in E.
  - simplify_eq. by left.
  - destruct (HandleSigShare m dkg all) as [[dkg1 all1]| |] eqn:E1; cbn in E; [|done..].
    destruct (HandleSigShare_shares pre _ _ _ _ _ E1 Hd) as [Hd1 Hs1].
    specialize (IH (pre ++ [m]) _ _ _ _ E Hd1 k sig Hk).
    rewrite <- app_assoc in IH. cbn in IH.
    destruct IH as [Hold|(bls & sigs & Hb & Ht & Hdel & Hg)].
    + destruct (Hs1 _ _ Hold) as [|[|(bls & sigs & Hb & Ht & Hdel & Hg)]]; [by left|by left|].
      right. exists bls, sigs. split_and!; try done.
      intros i s Hi. apply Hdel in Hi. apply (delivers_app _ msgs) in Hi.
      by rewrite <- app_assoc in Hi.
    + right. exists bls, sigs. rewrite (HandleSigShare_Bls _ _ _ _ _ E1) in Hb. done.
Qed.

Lemma HandleSigShares_total msgs : forall dkg all,
  Forall (fun m => is_Some (sm_FromIndex m)) msgs ->
  exists dkg' all', HandleSigShares msgs dkg all = Ret (dkg', all').
Proof.
  induction msgs as [|m msgs IH]; intros dkg all Hf; cbn; [eauto|].
  apply Forall_cons in Hf as [[z Hz] Hf].
  assert (G : exists st, HandleSigShare m dkg all = Ret st).
  { unfold HandleSigShare. rewrite Hz. cbn. unfold IsVSSReady.
    destruct (vssEnabled dkg), (Bls dkg) as [bls|]; cbn; eauto.
    destruct (found _); eauto. split_if; eauto. destruct (GenerateRandomNumber _ _ _); eauto. }
  destruct G as [[d a] ->]. cbn. by apply IH.
Qed.

Lemma pubkeys_loop_count : forall l i pks m n,
  Forall (fun pk => String.length pk = 32%nat) pks -> (i + length l = length pks)%nat ->
  exists m', pubkeys_loop i l pks m n = Ret (m', n + Z.of_nat (length l)).
Proof.
  induction l as [|a l IH]; intros i pks m n Hf Hl; cbn.
  - rewrite Z.add_0_r. eauto.
  - cbn in Hl. destruct (lookup_lt_is_Some_2 pks i) as [pk Hpk]; [lia|]. rewrite Hpk.
    rewrite Forall_lookup in Hf. rewrite (Hf _ _ Hpk). cbn.
    destruct (IH (S i) pks (<[a := pk]> m) (n + 1)) as [m' ->]; [by apply Forall_lookup|lia|].
    exists m'. do 2 f_equal. lia.
Qed.

Section shares.
Variable env : nat -> VssBase.

Lemma GetVSSShares_pass_dom endpoint l received w received' w' :
  GetVSSShares_pass env endpoint l received w = Ret (received', w') ->
  dom received ⊆ list_to_set l -> dom received' ⊆@{gset Z} list_to_set l.
Proof.
  intros E Hd.
  refine (triple_for_each (fun acc (_ : World) => dom acc ⊆@{gset Z} list_to_set l) _ l _
            received w received' w' Hd E).
  intros acc addr Hin s a s' Hacc Es. destruct (found (acc !! addr)).
  - by injection Es as <- <-.
  - go_inv Es. destruct (Nat.ltb 1 _); [|by injection Es as <- <-].
    destruct (gzip_Copy _); [|done]. injection Es as <- <-.
    rewrite dom_insert_L. apply union_subseteq; split; [|done].
    intros x ->%elem_of_singleton. by apply elem_of_list_to_set.
Qed.

Lemma GetVSSShares_loop_complete fuel endpoint l timeout : forall received w r w',
  NoDup l -> dom received ⊆@{gset Z} list_to_set l ->
  GetVSSShares_loop env fuel endpoint l timeout received w = Ret (r, w') ->
  match snd r with
  | None => forall a, a ∈ l <-> is_Some (fst r !! a)
  | Some missing => missing <> [] /\ forall a, a ∈ missing <-> a ∈ l /\ fst r !! a = None
  end.
Proof.
  induction fuel as [|fuel IH]; intros received w r w' Hnd Hdom E; cbn in E; [done|].
  go_inv E. rename a into received'.
  assert (Hdom' := GetVSSShares_pass_dom _ _ _ _ _ _ E0 Hdom).
  assert (Hsz : size (list_to_set (C:=gset Z) l) = length l) by by apply size_list_to_set.
  destruct (Nat.eqb_spec (size received') (length l)) as [Heq|Hne].
  - injection E as <- <-. cbn. intros a. rewrite <- elem_of_dom.
    assert (dom received' = list_to_set (C:=gset Z) l) as ->; [|by rewrite elem_of_list_to_set].
    apply set_subseteq_size_eq; [done|]. rewrite Hsz, size_dom. lia.
  - go_inv E. destruct (a >? timeout).
    + injection E as <- <-. cbn. split.
      * intros Hnil. apply Hne. rewrite <- Hsz, <- (size_dom (D:=gset Z)). f_equal.
        apply set_eq. intros x. split; [apply Hdom'|]. rewrite elem_of_list_to_set. intros Hx.
        apply elem_of_dom. destruct (received' !! x) eqn:Ex; [done|].
        assert (Hf : x ∈ filter (fun addr => received' !! addr = None) l)
          by (by apply list_elem_of_filter).
        rewrite Hnil in Hf. by apply elem_of_nil in Hf.
      * intros a'. rewrite list_elem_of_filter. tauto.
    + by eapply IH.
Qed.

End shares.
End facts.
