(* ===== verification/DkgConfig.v ===== *)
(** * Distributed key generation: the configuration state machine (dkg/dkg.go)

    On every new vnode block a node checks the configuration version of the
    vssbase contract: the first time it sees a version it downloads and checks
    the shares of all active nodes and votes for the configuration, or reveals
    a bad share; later, once the contract reports the configuration ready, it
    switches to it.  Another loop uploads the node's own shares. *)
From S2P Require Import Prelude GoMonad Fmt Event Bind DkgBase.
Local Open Scope Z_scope.

(** What the decode loops of [UpdateVSSConfig] accumulate: the shares in order
    of arrival, by sender, and with their senders' signatures. *)
Record Decoded (V : Type) := mkDecoded {
  dec_all : list (list (Share V));
  dec_verify : gmap Address (list (Share V));
  dec_signed : gmap Address SignedShares
}.
Arguments mkDecoded {V} _ _ _.
Arguments dec_all {V} _.
Arguments dec_verify {V} _.
Arguments dec_signed {V} _.

(** Why [ShouldUploadVSSConfig] refuses. *)
Inductive UploadRefusal : Type := NodeNotActive | NoRepeatUpload | NoChange.

Section dkg.
Context `{Kyber} `{!BlsLib} `{MoacLib}.
Context `{!MapOrder Address bytes} `{!MapOrder Address Z} `{!MapOrder Address (Share Scalar)}
  `{!MapOrder Address (list (Share Point))}.
Variable env : nat -> VssBase.

(** ** Share verification *)
Definition verifyShares (sciBls : BLS)
    (verifyPublicShares : gmap Address (list (Share Point)))
    (verifyPrivateShares : gmap Address (list (Share Scalar)))
    : gmap Address (Share Scalar) :=
  foldl (fun notVerify '(sender, pubshares) =>
    foldl (fun notVerify pubshare =>
      if share_I pubshare =? NodeIndex sciBls then
        match verifyPrivateShares !! sender with
        | Some prishares =>
            foldl (fun notVerify prishare =>
              if share_I prishare =? NodeIndex sciBls then
                if Point_Equal (Point_Mul (share_V prishare)) (share_V pubshare)
                then notVerify
                else <[sender := prishare]> notVerify
              else notVerify)
              notVerify prishares
        | None => notVerify
        end
      else notVerify)
      notVerify pubshares)
    ∅ (range verifyPublicShares).

(** ** The group key

    Shares of negative index are padding and become nil for the recovery. *)
Definition nil_negative (ps : list (Share Point)) : list (option (Share Point)) :=
  (fun p => if share_I p <? 0 then None else Some p) <$> ps.

Definition recover (sciBls : BLS) (ps : list (Share Point)) : option PubPoly :=
  RecoverPubPoly (nil_negative ps) (Threshold sciBls) (TotalN sciBls).

Fixpoint combine_polys (sciBls : BLS) (acc : PubPoly) (rest : list (list (Share Point)))
    : option PubPoly :=
  match rest with
  | [] => Some acc
  | ps :: rest' =>
      match recover sciBls ps with
      | None => None
      | Some pubpoly =>
          match PubPoly_Add acc pubpoly with
          | None => None
          | Some acc' => combine_polys sciBls acc' rest'
          end
      end
  end.

Definition group_private_share (nodeIndex : Z) (allPrivateShares : list (list (Share Scalar)))
    : Scalar :=
  foldl (fun acc privateShares =>
    foldl (fun acc prishare =>
      if share_I prishare =? nodeIndex then Scalar_Add acc (share_V prishare) else acc)
      acc privateShares)
    Scalar_Zero allPrivateShares.

Definition with_group (poly : PubPoly) (priv : Share Scalar) (b : BLS) : BLS :=
  mkBLS _ (Threshold b) (N b) (TotalN b) (NodeIndex b) (Some poly) (Some priv) (bls_secret b).

(** ** [shouldUpdateVSSConfig] *)
Definition count_upto_date (lastNodeChangeConfigVersion : Z) (activeNodeList : list Address)
    : go World (bool * Z) :=
  for_each (fun '(allNodesUptoDate, nodeUptoDateCount) addr =>
    lastConfigUpload ← GetLastConfigUpload env addr;
    if lastConfigUpload <? lastNodeChangeConfigVersion
    then mret (false, nodeUptoDateCount)
    else mret (allNodesUptoDate, nodeUptoDateCount + 1))
    (true, 0) activeNodeList.

Fixpoint shouldUpdate_loop (fuel : nat) (activeNodeList : list Address) (timeout : Z)
    : go World bool :=
  match fuel with
  | O => gfuel
  | S fuel' =>
      lastNodeChangeConfigVersion ← GetLastNodeChangeConfigVersion env;
      threshold ← GetVssThreshold env;
      r ← count_upto_date lastNodeChangeConfigVersion activeNodeList;
      if fst r : bool then mret true
      else
        now ← gnow env;
        if now >? timeout then mret (snd r >=? i64 threshold)
        else shouldUpdate_loop fuel' activeNodeList timeout
  end.

Definition shouldUpdateVSSConfig (fuel : nat) (vssConfigVersion : Z)
    (activeNodeList : list Address) : go World bool :=
  d ← gdkg;
  if currentConfigVersion d <? vssConfigVersion then
    now ← gnow env;
    shouldUpdate_loop fuel activeNodeList (now + GetVSSSharesTimeout)
  else mret false.

(** ** [UpdateVSSConfig], part by part *)

(** The tables address -> index and index -> address, rebuilt. *)
Definition index_tables (addressToIndex : gmap Address Z) : gmap string Z * gmap Z string :=
  foldl (fun '(a2i, i2a) '(address, index) =>
    (<[Address_String address := index]> a2i, <[index := Address_String address]> i2a))
    (∅, ∅) (range addressToIndex).

(** The upload versions of all active nodes, before the download. *)
Definition uploads_before (activeNodeList : list Address) : go World (gmap Address Z) :=
  for_each (fun m addr => n ← GetLastConfigUpload env addr; mret (<[addr := n]> m))
    ∅ activeNodeList.

(** Whether they are the same after it. *)
Definition uploads_unchanged (before : gmap Address Z) (activeNodeList : list Address)
    : go World bool :=
  r ← for_until (fun (_ : unit) addr =>
        after ← GetLastConfigUpload env addr;
        if default 0 (before !! addr) =? after then mret (inl tt) else mret (inr tt))
        tt activeNodeList;
  match r with
  | inl _ => mret true
  | inr _ => mret false
  end.

(** Decode every received share whose sender has a public key. *)
Definition decode_shares {V : Type} (unmarshal : bytes -> EdPoint -> list (Share V) * SignedShares)
    (pubkeys : gmap Address bytes) (received : list (Address * bytes)) : Decoded V :=
  foldl (fun acc '(addr, data) =>
    match pubkeys !! addr with
    | Some pubkeyBytes =>
        let pubkey := EdPoint_UnmarshalFrom pubkeyBytes in
        let '(shares, signedShares) := unmarshal data pubkey in
        mkDecoded (dec_all acc ++ [shares]) (<[addr := shares]> (dec_verify acc))
          (<[addr := signedShares]> (dec_signed acc))
    | None => acc
    end)
    (mkDecoded [] ∅ ∅) received.

(** Report every sender whose share does not verify. *)
Definition reveal_all (notVerify : gmap Address (Share Scalar))
    (pub pri : gmap Address SignedShares) : go World unit :=
  for_each (fun (_ : unit) '(addr, myPriShare) =>
    let signedPubShare := default (mkSignedShares "" "") (pub !! addr) in
    let signedPriShare := default (mkSignedShares "" "") (pri !! addr) in
    vssReveal addr (ss_shares signedPubShare) (ss_sig signedPubShare)
      (ss_shares signedPriShare) (ss_sig signedPriShare)
      (Scalar_MarshalBinary (share_V myPriShare)))
    tt (range notVerify).

(** From the decoded shares to the verdict: reveal bad shares, or rebuild the
    group polynomial and this node's share of the group secret, and vote when
    they match. *)
Definition conclude (vssConfigVersion : Z) (activeNodeList : list Address) (sciBls : BLS)
    (pub : Decoded Point) (pri : Decoded Scalar) : go World Z :=
  let notVerify := verifyShares sciBls (dec_verify pub) (dec_verify pri) in
  if Nat.ltb 0 (size notVerify) then
    _ ← GetVSSNodesIndexs env activeNodeList;
    _ ← reveal_all notVerify (dec_signed pub) (dec_signed pri);
    mret VssConfigReveal
  else
    match dec_all pub with
    | [] => gpanic
    | ps :: rest =>
        match recover sciBls ps with
        | None => mret VssConfigRecheck
        | Some pubpoly =>
            match combine_polys sciBls pubpoly rest with
            | None => mret VssConfigRecheck
            | Some groupPublicPoly =>
                let groupPrivateShare :=
                  mkShare (NodeIndex sciBls)
                    (group_private_share (NodeIndex sciBls) (dec_all pri)) in
                let verifyPubShareV := Point_Mul (share_V groupPrivateShare) in
                if Point_Equal (PubPoly_Eval groupPublicPoly (NodeIndex sciBls)) verifyPubShareV
                then
                  _ ← vssVote (i64 vssConfigVersion);
                  _ ← gupd (fun d => with_vssSettings
                        (<[i64 vssConfigVersion :=
                             with_group groupPublicPoly groupPrivateShare sciBls]>
                           (vssSettings d)) d);
                  mret VssConfigVote
                else mret VssConfigRecheck
            end
        end
    end.

(** The download of all shares, with the check that no node uploaded again in
    the meantime. *)
Definition download (fuel : nat) (vssConfigVersion : Z) (activeNodeList : list Address)
    (sciBls : BLS) : go World Z :=
  before ← uploads_before activeNodeList;
  pubr ← GetVSSShares env fuel "getPublicShares" activeNodeList;
  match snd pubr with
  | Some _ => mret VssConfigRecheck
  | None =>
      d ← gdkg;
      let pub := decode_shares UnmarshalPublicShares (nodesPubkey d) (range (fst pubr)) in
      prir ← GetVSSShares env fuel "getPrivateShares" activeNodeList;
      match snd prir with
      | Some _ => mret VssConfigRecheck
      | None =>
          same ← uploads_unchanged before activeNodeList;
          if negb same then mret VssConfigRecheck
          else
            d ← gdkg;
            let pri :=
              decode_shares
                (fun data => UnmarshalPrivateShares data (EdDSA_Secret (VssKey_Private d))
                               (NodeIndex sciBls))
                (nodesPubkey d) (range (fst prir)) in
            conclude vssConfigVersion activeNodeList sciBls pub pri
      end
  end.

Definition UpdateVSSConfig (fuel : nat) : go World Z :=
  vssConfigVersion ← GetVssConfigVersion env;
  r ← GetActiveVSSMemberList env;
  let activeNodeList := fst r in
  let listErr := snd r in
  _ ← gupd (with_NodeList activeNodeList);
  addressToIndex ← GetVSSNodesIndexs env activeNodeList;
  _ ← gupd (with_Indexes (fst (index_tables addressToIndex)) (snd (index_tables addressToIndex)));
  if (listErr : bool) then mret VssConfigRecheck
  else
    should ← shouldUpdateVSSConfig fuel (i64 vssConfigVersion) activeNodeList;
    if negb should then mret VssConfigOmit
    else
      threshold ← GetVssThreshold env;
      vssNodeIndex ← GetVSSNodeIndex env;
      vssNodeCount ← GetVssNodeCount env;
      d ← gdkg;
      if negb (IsNodeActive d activeNodeList) then mret VssConfigRecheck
      else
        pk ← GetVSSNodesPubkey env activeNodeList;
        _ ← gupd (with_nodesPubkey (fst pk));
        if Z.of_nat (length activeNodeList) <? i64 threshold then mret VssConfigRecheck
        else
          idx ← glift (big_Int64 vssNodeIndex);
          rnd ← gentropy;
          let sciBls := NewBLS rnd (i64 threshold) activeNodeList idx (i64 vssNodeCount) in
          download fuel vssConfigVersion activeNodeList sciBls.

(** ** The state machine *)
Definition setVssConfig (vssConfigVersion : Z) (dkg : DKG) : DKG :=
  match vssSettings dkg !! vssConfigVersion with
  | Some bls =>
      if currentConfigVersion dkg <? vssConfigVersion then
        let prev := match Bls dkg with Some b => b :: prevbls dkg | None => prevbls dkg end in
        let prev' :=
          if Z.of_nat (length prev) >? MaximumBLSHistorySize
          then take (length prev - 1) prev else prev in
        with_Bls (Some bls) prev' vssConfigVersion dkg
      else dkg
  | None => dkg
  end.

Definition RunVssStateMachine (fuel : nat) : go World unit :=
  vssConfigVersion ← GetVssConfigVersion env;
  d ← gdkg;
  if negb (default false (vssSeenConfigs d !! i64 vssConfigVersion)) then
    updateResult ← UpdateVSSConfig fuel;
    if negb (updateResult =? VssConfigRecheck) then
      gupd (fun d => with_vssSeenConfigs
                       (<[i64 vssConfigVersion := true]> (vssSeenConfigs d)) d)
    else mret tt
  else
    ready ← isVSSConfigReady env (i64 vssConfigVersion);
    if (ready : bool) then gupd (setVssConfig (i64 vssConfigVersion)) else mret tt.

(** [VssStateLoop]: one run of the machine per block received. *)
Fixpoint VssStateLoop (fuel : nat) (blocks : nat) : go World unit :=
  match blocks with
  | O => mret tt
  | S n => _ ← RunVssStateMachine fuel; VssStateLoop fuel n
  end.

(** [NewVnodeBlockLoop]: one tick of the poll, with the number sent on the two
    channels. *)
Definition poll_interval : Z :=
  let interval := BlockInterval / 2 in
  if interval <? MinVSSRunInterval then MinVSSRunInterval else interval.

Definition NewVnodeBlock (currentVnodeBlockNumber lastBlock : Z) : Z * option Z :=
  if currentVnodeBlockNumber >? lastBlock
  then (currentVnodeBlockNumber, Some currentVnodeBlockNumber)
  else (lastBlock, None).

(** ** Upload *)
Definition ShouldUploadVSSConfig (activeNodeList : list Address) (threshold : Z)
    (forceUpdate : bool) : go World (bool * option UploadRefusal) :=
  d ← gdkg;
  if negb (IsNodeActive d activeNodeList) then mret (false, Some NodeNotActive)
  else if forceUpdate then mret (true, None)
  else
    now ← gnow env;
    if now <? uploadedConfigTime d + MaxConfigUploadTimeoutInSeconds
    then mret (false, Some NoRepeatUpload)
    else
      lastConfigUpload ← GetLastConfigUpload env (Vssid d);
      lastNodeChangeConfigVersion ← GetLastNodeChangeConfigVersion env;
      if lastConfigUpload =? 0 then mret (true, None)
      else if lastConfigUpload <=? lastNodeChangeConfigVersion then mret (true, None)
      else mret (false, Some NoChange).

(** The public keys of the active nodes by index. *)
Definition index_pubkeys (addressPubkeys : gmap Address bytes) (addressIndex : gmap Address Z)
    : gmap Z EdPoint :=
  foldl (fun m '(address, pk) =>
    match addressIndex !! address with
    | Some index => <[index := EdPoint_UnmarshalFrom pk]> m
    | None => m
    end)
    ∅ (range addressPubkeys).

(** The shares of the active nodes, padded with empty shares of index -1. *)
Definition active_shares {V : Type} (addressIndex : list (Address * Z)) (shares : list (Share V))
    : list (Share V) :=
  foldl (fun acc '(_, nodeIndex) =>
    foldl (fun acc ps => if share_I ps =? nodeIndex then acc ++ [ps] else acc) acc shares)
    [] addressIndex.

Definition padded_shares {V : Type} (empty : V) (n totalN : Z) (active : list (Share V))
    : list (Share V) :=
  active ++ replicate (Z.to_nat (totalN - n)) (mkShare (-1) empty).

Definition UploadVSSConfig (forceUpdate : bool) : go World (result unit) :=
  r ← GetActiveVSSMemberList env;
  let activeNodeList := fst r in
  _ ← gupd (with_NodeList activeNodeList);
  if (snd r : bool) then mret Err
  else
    threshold ← GetVssThreshold env;
    should ← ShouldUploadVSSConfig activeNodeList (i64 threshold) forceUpdate;
    if negb (fst should) then mret (Ok tt)
    else
      vssNodeIndex ← GetVSSNodeIndex env;
      activeNodeAddressAndIndex ← GetVSSNodesIndexs env activeNodeList;
      vssNodeCount ← GetVssNodeCount env;
      pk ← GetVSSNodesPubkey env activeNodeList;
      let vssAddressPublicKeys := fst pk in
      _ ← gupd (with_nodesPubkey vssAddressPublicKeys);
      let vssIndexPublicKeys := index_pubkeys vssAddressPublicKeys activeNodeAddressAndIndex in
      idx ← glift (big_Int64 vssNodeIndex);
      rnd ← gentropy;
      let sciBls := NewBLS rnd (i64 threshold) activeNodeList idx (i64 vssNodeCount) in
      let privateShares := GetPrivateShares sciBls (TotalN sciBls) in
      let publicShares := GetPublicShares sciBls (TotalN sciBls) in
      let allPublicShares :=
        padded_shares Point_Null (N sciBls) (TotalN sciBls)
          (active_shares (range activeNodeAddressAndIndex) publicShares) in
      let allPrivateShares :=
        padded_shares Scalar_Zero (N sciBls) (TotalN sciBls)
          (active_shares (range activeNodeAddressAndIndex) privateShares) in
      d ← gdkg;
      let _publicShares := MarshalPublicShares allPublicShares (VssKey_Private d) in
      let _privateShares :=
        MarshalPrivateShares allPrivateShares vssIndexPublicKeys (VssKey_Private d) in
      _ ← SendUploadVSSConfig (gzip_Write _publicShares) (gzip_Write _privateShares);
      now ← gnow env;
      _ ← gupd (with_uploadedConfigTime now);
      mret (Ok tt).

(** ** Revealed shares and slashing *)

(** The inner loop for one public share: leaves with [true] when the revealed
    scalar does not match it. *)
Fixpoint reveal_inner (index : Z) (pubshare : Z * bytes) (revealed : bytes) (priShares : list Z)
    : bool :=
  match priShares with
  | [] => false
  | i :: rest =>
      if (fst pubshare =? index) && (i =? index) then
        let pub := Point_UnmarshalFrom (snd pubshare) in
        let pri := Scalar_UnmarshalBinary revealed in
        negb (Point_Equal (Point_Mul pri) pub)
      else reveal_inner index pubshare revealed rest
  end.

Definition verifyRevealedShare (revealedShare : RevealedShare) : go World (Address * Z * option string) :=
  d ← gdkg;
  match Bls d with
  | None => mret (Violator revealedShare, NoSlashAction, Some "vss verifyRevealedShare dkg.Bls is nil")
  | Some _ =>
      match nodesPubkey d !! Violator revealedShare with
      | None =>
          mret (Violator revealedShare, NoSlashAction,
                Some ("vss verifyRevealedShare can not find pubkey for " +:+
                      Address_x (Violator revealedShare)))
      | Some pubkeyBytes =>
          let pubkey := EdPoint_UnmarshalFrom pubkeyBytes in
          let '(verifiedPub, errPub) :=
            VerifyED25519 pubkey (PubShare revealedShare) (PubSig revealedShare) in
          let '(verifiedPri, errPri) :=
            VerifyED25519 pubkey (PriShare revealedShare) (PriSig revealedShare) in
          if negb verifiedPub || negb verifiedPri || errPub || errPri then
            mret (Violator revealedShare, CounterSlashReveal,
                  Some ("vss verifyRevealedShare sig does not verify for " +:+
                        Address_x (Violator revealedShare)))
          else
            r ← GetActiveVSSMemberList env;
            activeNodeAddressAndIndex ← GetVSSNodesIndexs env (fst r);
            let index := default 0 (activeNodeAddressAndIndex !! Whistleblower revealedShare) in
            let bad :=
              existsb (fun pubshare =>
                reveal_inner index pubshare (Revealed revealedShare)
                  (json_PriShareIndexes (PriShare revealedShare)))
                (json_PubShareIndexes (PubShare revealedShare)) in
            if bad then mret (Violator revealedShare, SlashReveal, None)
            else mret (Violator revealedShare, NoSlashAction, None)
      end
  end.

(** [VssSlashingLoop], the case of a new block to check for slow nodes. *)
Definition SlowNodeCase : go World unit :=
  r ← GetActiveVSSMemberList env;
  for_each (fun (_ : unit) addr =>
    lastConfigUpload ← GetLastConfigUpload env addr;
    lastNodeChangeConfigVersion ← GetLastNodeChangeConfigVersion env;
    lastNodeChangeBlock ← GetLastNodeChangeBlock env;
    threshold ← GetSlowNodeThreshold env;
    currentVnodeBlockNumber ← call env vb_BlockNumber;
    if (lastConfigUpload <? lastNodeChangeConfigVersion) &&
       (u64 (currentVnodeBlockNumber - lastNodeChangeBlock) >? threshold)
    then vssReportSlowNode addr
    else mret tt)
    tt (fst r).

(** [VssSlashingLoop], the case of a block to check for revealed shares: the
    loop over the indexes, [slashed] being the local table. *)
Fixpoint slash_loop (fuel : nat) (index lastRevealedIndex : Z) (slashed : gmap Z bool)
    : go World (gmap Z bool) :=
  match fuel with
  | O => gfuel
  | S fuel' =>
      if index <=? lastRevealedIndex then
        slashed' ←
          (if default false (slashed !! index) then mret slashed
           else
             r ← call env (fun vb => vb_GetRevealedShare vb (i64 index));
             match r with
             | Ok revealedShare =>
                 v ← verifyRevealedShare revealedShare;
                 let slash := snd (fst v) in
                 if slash =? SlashReveal then mret (<[index := true]> slashed)
                 else if slash =? CounterSlashReveal then mret (<[index := true]> slashed)
                 else mret slashed
             | Err => mret slashed
             end);
        slash_loop fuel' (u64 (index + 1)) lastRevealedIndex slashed'
      else mret slashed
  end.

Definition RevealedShareCase (fuel : nat) (slashed : gmap Z bool) : go World (gmap Z bool) :=
  lastSlashVoted ← GetLastSlashVoted env;
  contractRevealIndex ← GetRevealIndex env;
  let lastRevealedIndex := u64 (contractRevealIndex - 1) in
  if lastSlashVoted <? lastRevealedIndex
  then slash_loop fuel lastSlashVoted lastRevealedIndex slashed
  else mret slashed.

End dkg.

(** * Facts: safety of the state machine *)
Section safety.
Context `{Kyber} `{!BlsLib} `{MoacLib}.
Context `{!MapOrder Address bytes} `{!MapOrder Address Z} `{!MapOrder Address (Share Scalar)}
  `{!MapOrder Address (list (Share Point))}.
Variable env : nat -> VssBase.

(** A BLS setting whose private share of the group secret matches the group
    polynomial at this node's index. *)
Definition checked (b : BLS) : Prop :=
  exists poly share,
    GroupPublicPoly b = Some poly /\ GroupPrivateShare b = Some share /\
    share_I share = NodeIndex b /\
    Point_Equal (PubPoly_Eval poly (NodeIndex b)) (Point_Mul (share_V share)) = true.

Record dkg_inv (w : World) : Prop := {
  inv_settings : forall v b, vssSettings (w_dkg w) !! v = Some b -> checked b /\ TxVote v ∈ w_txs w;
  inv_current : forall b, Bls (w_dkg w) = Some b ->
    vssSettings (w_dkg w) !! currentConfigVersion (w_dkg w) = Some b;
  inv_prev : Forall checked (prevbls (w_dkg w));
  inv_history : Z.of_nat (length (prevbls (w_dkg w))) <= MaximumBLSHistorySize
}.

(** The invariant, at a given active configuration version. *)
Definition at_version (c : Z) (w : World) : Prop :=
  dkg_inv w /\ currentConfigVersion (w_dkg w) = c.

(** The goroutines of a node, interleaved call by call. *)
Inductive dkg_step : World -> World -> Prop :=
| step_state fuel w w' :
    RunVssStateMachine env fuel w = Ret (tt, w') -> dkg_step w w'
| step_upload force w r w' :
    UploadVSSConfig env force w = Ret (r, w') -> dkg_step w w'
| step_sigshare m w all d' all' :
    HandleSigShare m (w_dkg w) all = Ret (d', all') ->
    dkg_step w (mkWorld d' (w_tick w) (w_txs w)).

(** The state [New] creates: no BLS setting, empty tables, version zero, and
    the zero time, the origin of the clock, as the time of the last upload. *)
Definition initial (vssid : Address) (priv : EdScalar) (pub : bytes) (nodes : list Address)
    (vssBaseAddr : string) (tick : nat) : World :=
  mkWorld
    (mkDKG vssid None [] ∅ priv pub true ∅ nodes ∅ ∅ 0 0 ∅ ∅ vssBaseAddr) tick [].

(** [New]: [dialed] and [bound] say whether the vnode client and the contract
    binding could be made, [chainId_] is the chain id the client reports,
    [keyAddr] and [sign] belong to the keystore's key, [priv] and [pub] are the
    VSS key [LoadVSSKey] reads; every failure panics. *)
Definition New (dialed : bool) (chainId_ : result Z) (bound : bool) (keyAddr : Address)
    (sign : Z -> RawTx -> result RawTx) (cfgChainId : Z) (vssBaseAddr : string) (vssid : Address)
    (priv : EdScalar) (pub : bytes) (tick : nat) : outcome World :=
  if negb dialed then Panic
  else
    match chainId_ with
    | Err => Panic
    | Ok id =>
        chainId ← big_Uint64 (Some id);
        if negb (u64 cfgChainId =? chainId) then Panic
        else if negb bound then Panic
        else
          match NewKeyedTransactorWithChainID keyAddr sign (Some (i64 cfgChainId)) with
          | inr _ => Panic
          | inl _ =>
              r ← GetActiveVSSMemberList env (initial vssid priv pub [] vssBaseAddr tick);
              Ret (initial vssid priv pub (fst (fst r)) vssBaseAddr (w_tick (snd r)))
          end
    end.

(** Updates of the world that touch none of the invariant's fields. *)
Lemma at_version_frame c w d' t' :
  Bls d' = Bls (w_dkg w) -> prevbls d' = prevbls (w_dkg w) ->
  vssSettings d' = vssSettings (w_dkg w) ->
  currentConfigVersion d' = currentConfigVersion (w_dkg w) ->
  at_version c w -> at_version c (mkWorld d' t' (w_txs w)).
Proof.
  intros E1 E2 E3 E4 [[I1 I2 I3 I4] Hv].
  split; [split|]; cbn; rewrite ?E1, ?E2, ?E3, ?E4; auto.
Qed.

Lemma at_version_send c w tx : at_version c w -> at_version c (mkWorld (w_dkg w) (w_tick w) (w_txs w ++ [tx])).
Proof.
  intros [[I1 I2 I3 I4] Hv]. split; [split|]; cbn; auto.
  intros u b Hb. destruct (I1 u b Hb). rewrite elem_of_app. auto.
Qed.

Lemma preserves_call {A : Type} c (f : VssBase -> A) : preserves (at_version c) (call env f).
Proof. intros w a w' HI E. injection E as <- <-. by apply at_version_frame. Qed.

Lemma preserves_gdkg c : preserves (at_version c) gdkg.
Proof. intros w a w' HI E. by injection E as <- <-. Qed.

Lemma preserves_gentropy c : preserves (at_version c) gentropy.
Proof. intros w a w' HI E. by injection E as <- <-. Qed.

Lemma preserves_gsend c tx : preserves (at_version c) (gsend tx).
Proof. apply preserves_modify. intros w. apply at_version_send. Qed.

Lemma preserves_gupd c f :
  (forall d, Bls (f d) = Bls d) -> (forall d, prevbls (f d) = prevbls d) ->
  (forall d, vssSettings (f d) = vssSettings d) ->
  (forall d, currentConfigVersion (f d) = currentConfigVersion d) ->
  preserves (at_version c) (gupd f).
Proof. intros. apply preserves_modify. intros w. by apply at_version_frame. Qed.

Hint Resolve preserves_call preserves_gdkg preserves_gentropy preserves_gsend : xchain.

Ltac reads := preserve; try (first [apply preserves_gupd; done | apply at_version_frame; done]).

Lemma preserves_getters c :
  preserves (at_version c) (GetVssThreshold env) /\ preserves (at_version c) (GetVSSNodeIndex env) /\
  preserves (at_version c) (GetVssNodeCount env) /\ preserves (at_version c) (GetVssConfigVersion env) /\
  preserves (at_version c) (GetActiveVSSMemberList env) /\
  preserves (at_version c) (GetLastNodeChangeConfigVersion env) /\
  preserves (at_version c) (gnow env) /\
  (forall a, preserves (at_version c) (GetLastConfigUpload env a)) /\
  (forall l, preserves (at_version c) (GetVSSNodesIndexs env l)) /\
  (forall l, preserves (at_version c) (GetVSSNodesPubkey env l)).
Proof.
  split_and!; intros;
    unfold GetVssThreshold, GetVSSNodeIndex, GetVssNodeCount, GetVssConfigVersion,
      GetActiveVSSMemberList, GetLastNodeChangeConfigVersion, gnow, GetLastConfigUpload,
      GetVSSNodesIndexs, GetVSSNodesPubkey; reads.
Qed.

Lemma preserves_GetVSSShares c fuel e l : preserves (at_version c) (GetVSSShares env fuel e l).
Proof.
  unfold GetVSSShares. destruct (preserves_getters c) as (_&_&_&_&_&_&Hn&_).
  apply preserves_bind; [done|]. intros t. generalize (t + GetVSSSharesTimeout). clear t.
  generalize (∅ : gmap Z string). induction fuel as [|fuel IH]; intros m t; cbn.
  - apply preserves_fuel.
  - apply preserves_bind; [unfold GetVSSShares_pass; reads|]. intros m'.
    destruct (Nat.eqb _ _); [apply preserves_ret|].
    apply preserves_bind; [done|]. intros now. destruct (now >? t); auto using preserves_ret.
Qed.

Lemma preserves_shouldUpdate c fuel ver l :
  preserves (at_version c) (shouldUpdateVSSConfig env fuel ver l).
Proof.
  destruct (preserves_getters c) as (Ht&_&_&_&_&Hc&Hn&Hu&_).
  unfold shouldUpdateVSSConfig. apply preserves_bind; [auto with xchain|]. intros d.
  destruct (_ <? _); [|apply preserves_ret].
  apply preserves_bind; [done|]. intros t. generalize (t + GetVSSSharesTimeout). clear t.
  induction fuel as [|fuel IH]; intros t; cbn; [apply preserves_fuel|].
  do 2 (apply preserves_bind; [done|]; intros ?).
  apply preserves_bind; [|intros [b n]].
  - unfold count_upto_date. apply preserves_for_each. intros [x y] z.
    apply preserves_bind; [done|]. intros u. destruct (_ <? _); apply preserves_ret.
  - destruct b; cbn; [apply preserves_ret|]. apply preserves_bind; [done|].
    intros now. destruct (now >? t); auto using preserves_ret.
Qed.

Lemma at_version_store c v w b :
  at_version c w -> c < v -> checked b -> TxVote v ∈ w_txs w ->
  at_version c (mkWorld (with_vssSettings (<[v := b]> (vssSettings (w_dkg w))) (w_dkg w))
             (w_tick w) (w_txs w)).
Proof.
  intros [[I1 I2 I3 I4] Hv] Hlt Hb Htx. split; [split|]; cbn; auto.
  - intros u d [[<- <-]|[_ Hu]]%lookup_insert_Some; auto.
  - intros d Hd. rewrite lookup_insert_ne by lia. auto.
Qed.

Lemma preserves_conclude c v l bls pub pri :
  c < i64 v -> preserves (at_version c) (conclude env v l bls pub pri).
Proof.
  intros Hlt. destruct (preserves_getters c) as (_&_&_&_&_&_&_&_&Hi&_).
  unfold conclude. destruct (Nat.ltb _ _).
  { apply preserves_bind; [done|]. intros _. apply preserves_bind; [|intros; apply preserves_ret].
    unfold reveal_all, vssReveal. apply preserves_for_each. intros _ [x y].
    apply preserves_gsend. }
  destruct (dec_all pub) as [|ps rest]; [apply preserves_panic|].
  destruct (recover _ _) as [p|]; [|apply preserves_ret].
  destruct (combine_polys _ _ _) as [g|]; [|apply preserves_ret]. cbn [share_V].
  destruct (Point_Equal _ _) eqn:Eq; [|apply preserves_ret].
  intros w r w' Hw E. cbn in E. injection E as <- <-.
  pose proof (at_version_send _ _ (TxVote (i64 v)) Hw) as Hs.
  eapply (at_version_store _ _ _ (with_group g _ bls)) in Hs; [exact Hs|done| |].
  - eexists _, _. cbn. split_and!; done.
  - cbn. apply elem_of_app. right. by apply list_elem_of_singleton.
Qed.

Lemma preserves_download c fuel v l bls :
  c < i64 v -> preserves (at_version c) (download env fuel v l bls).
Proof.
  intros Hlt.
  destruct (preserves_getters c) as (_&_&_&_&_&_&_&Hu&_&_).
  unfold download. apply preserves_bind.
  { unfold uploads_before. apply preserves_for_each. intros m x.
    apply preserves_bind; [done|]. intros; apply preserves_ret. }
  intros before. apply preserves_bind; [apply preserves_GetVSSShares|]. intros [m1 [e|]]; cbn.
  { apply preserves_ret. }
  apply preserves_bind; [auto with xchain|]. intros d.
  apply preserves_bind; [apply preserves_GetVSSShares|]. intros [m2 [e|]]; cbn.
  { apply preserves_ret. }
  apply preserves_bind.
  { unfold uploads_unchanged. apply preserves_bind; [|intros [|]; apply preserves_ret].
    apply preserves_for_until. intros _ x. apply preserves_bind; [done|].
    intros n. destruct (_ =? _); apply preserves_ret. }
  intros [|]; cbn; [|apply preserves_ret].
  apply preserves_bind; [auto with xchain|]. intros d'. by apply preserves_conclude.
Qed.

(** [shouldUpdateVSSConfig] only agrees when the active version is lower. *)
Lemma shouldUpdate_lower c fuel ver l w w' :
  shouldUpdateVSSConfig env fuel ver l w = Ret (true, w') -> at_version c w -> c < ver.
Proof.
  intros E [HI Hc]. unfold shouldUpdateVSSConfig in E. go_inv E. cbn in E0.
  injection E0 as <- <-. destruct (Z.ltb_spec (currentConfigVersion (w_dkg w)) ver).
  - lia.
  - by injection E.
Qed.

Lemma preserves_Update c fuel : preserves (at_version c) (UpdateVSSConfig env fuel).
Proof.
  destruct (preserves_getters c) as (Ht&Hx&Hn&Hv&Hl&_&_&_&Hi&Hp).
  unfold UpdateVSSConfig. apply preserves_bind; [done|]. intros ver.
  apply preserves_bind; [done|]. intros [l err]. cbn [fst snd].
  apply preserves_bind; [by apply preserves_gupd|]. intros _.
  apply preserves_bind; [done|]. intros a2i.
  apply preserves_bind; [by apply preserves_gupd|]. intros _.
  destruct err; [apply preserves_ret|].
  intros w r w' Hw E. go_inv E. pose proof (preserves_shouldUpdate _ _ _ _ _ _ _ Hw E0) as Hs.
  destruct a; cbn in E; [|by injection E as <- <-].
  pose proof (shouldUpdate_lower _ _ _ _ _ _ E0 Hw) as Hlt. clear E0 Hw. revert E. revert Hs.
  pose proof (preserves_download c) as Hd. revert s r w'. reads.
Qed.

Lemma preserves_Upload c force : preserves (at_version c) (UploadVSSConfig env force).
Proof.
  destruct (preserves_getters c) as (Ht&Hx&Hn&_&Hl&Hc&Hw&Hu&Hi&Hp).
  unfold UploadVSSConfig, ShouldUploadVSSConfig, SendUploadVSSConfig. reads.
Qed.

(** Switching to a configuration keeps the invariant and never goes back to a
    lower version. *)
Lemma setVssConfig_inv v w :
  dkg_inv w ->
  dkg_inv (mkWorld (setVssConfig v (w_dkg w)) (w_tick w) (w_txs w)) /\
  currentConfigVersion (w_dkg w) <= currentConfigVersion (setVssConfig v (w_dkg w)).
Proof.
  intros [I1 I2 I3 I4]. unfold setVssConfig.
  destruct (vssSettings (w_dkg w) !! v) as [b|] eqn:Ev; [|split; [by split|lia]].
  destruct (Z.ltb_spec (currentConfigVersion (w_dkg w)) v); [|split; [by split|lia]].
  split; [|cbn; lia].
  set (prev := match Bls (w_dkg w) with Some b => b :: _ | None => _ end).
  assert (Hp : Forall checked prev).
  { unfold prev. destruct (Bls (w_dkg w)) as [b0|] eqn:E0; [|done].
    constructor; [|done]. by apply (I1 _ _ (I2 _ eq_refl)). }
  assert (Hl : Z.of_nat (length prev) <= MaximumBLSHistorySize + 1).
  { unfold prev. destruct (Bls (w_dkg w)); cbn; lia. }
  split; cbn [w_dkg w_txs with_Bls Bls prevbls vssSettings currentConfigVersion]; auto.
  - by intros b' [= <-].
  - destruct (_ >? _); [by apply Forall_take|done].
  - rewrite Z.gtb_ltb. destruct (Z.ltb_spec MaximumBLSHistorySize (Z.of_nat (length prev)));
      [rewrite length_take|]; unfold MaximumBLSHistorySize in *; lia.
Qed.

Lemma RunVssStateMachine_inv fuel w w' :
  RunVssStateMachine env fuel w = Ret (tt, w') -> dkg_inv w ->
  dkg_inv w' /\ currentConfigVersion (w_dkg w) <= currentConfigVersion (w_dkg w').
Proof.
  intros E HI. set (c := currentConfigVersion (w_dkg w)).
  assert (Hw : at_version c w) by done.
  unfold RunVssStateMachine in E. go_inv E.
  apply (proj1 (proj2 (proj2 (proj2 (preserves_getters c))))) in E0; [|done].
  go_inv E. cbn in E1. injection E1 as <- <-. destruct (negb _).
  - go_inv E. apply preserves_Update with (c := c) in E1; [|done].
    destruct (negb _); [|injection E as <-; destruct E1; split; [done|lia]].
    eapply (preserves_gupd c) in E as [? ?]; [split; [done|lia]|done..].
  - go_inv E. apply preserves_call with (c := c) in E1; [|done]. destruct E1 as [HI1 Hc1].
    destruct a0; [|injection E as <-; split; [done|lia]].
    cbn in E. injection E as <-. destruct (setVssConfig_inv (i64 a) s0 HI1). split; [done|].
    cbn. lia.
Qed.

Lemma dkg_step_inv w w' :
  dkg_step w w' -> dkg_inv w ->
  dkg_inv w' /\ currentConfigVersion (w_dkg w) <= currentConfigVersion (w_dkg w').
Proof.
  intros [fuel v v' E|force v r v' E|m v all d' all' E] HI.
  - by eapply RunVssStateMachine_inv.
  - eapply (preserves_Upload (currentConfigVersion (w_dkg v))) in E as [? ?]; [split; [done|lia]|done].
  - destruct (HandleSigShare_cases _ _ _ _ _ E) as (i & _ & [[-> _]|(b & sig & _ & _ & _ & -> & _)]).
    + split; [|done]. by destruct v.
    + destruct HI as [I1 I2 I3 I4]. by split.
Qed.

Lemma New_inv dialed id bound keyAddr sign cid addr vssid priv pub tick w :
  New dialed id bound keyAddr sign cid addr vssid priv pub tick = Ret w -> dkg_inv w.
Proof.
  unfold New. intros E. destruct dialed; [|done]. destruct id as [id|]; [|done]. cbn in E.
  destruct (negb _); [done|]. destruct bound; [|done]. cbn in E.
  destruct (GetActiveVSSMemberList _ _); [|done..]. injection E as <-. split; cbn; done.
Qed.

Lemma dkg_reachable_inv w0 w : dkg_inv w0 -> rtc dkg_step w0 w -> dkg_inv w.
Proof. intros HI Hr. induction Hr as [|x y z Hxy _ IH]; [done|]. by apply IH, (dkg_step_inv x). Qed.

End safety.
