(* ===== verification/Instances.v ===== *)
(** * Concrete instances of the external libraries

    Small executable stand-ins for the libraries the sources call, satisfying
    the laws the theorems ask of them: with them every theorem that is stated
    for an arbitrary library is evaluated on a concrete run.  Scalars and
    points are integers, a point being five times its scalar; dealings are
    lines (threshold two) and a public polynomial is the pair of its
    coefficients; shares are serialized one byte per share, in index order. *)
From S2P Require Import Prelude GoMonad Fmt Sha256 Event DkgBase Abi AbiProps Rle.
Local Open Scope Z_scope.

Fixpoint number_shares (i : Z) (l : list Z) : list (Share Z) :=
  match l with
  | [] => []
  | v :: l' => mkShare i v :: number_shares (i + 1) l'
  end.

(** The line through two shares of different index. *)
Definition line_through (s1 s2 : Share Z) : Z * Z :=
  let slope := (share_V s2 - share_V s1) / (share_I s2 - share_I s1) in
  (share_V s1 - slope * share_I s1, slope).

Definition line_recover (shares : list (option (Share Z))) (t n : Z) : option (Z * Z) :=
  match filter (fun s => 0 <= share_I s < n) (omap id shares) with
  | [] => None
  | s1 :: rest =>
      match filter (fun s => share_I s <> share_I s1) rest with
      | [] => None
      | s2 :: _ => if t =? 2 then Some (line_through s1 s2) else None
      end
  end.

Definition line_add (p q : Z * Z) : option (Z * Z) := Some (fst p + fst q, snd p + snd q).

Definition line_eval (p : Z * Z) (i : Z) : Z := fst p + snd p * i.

#[export] Instance kyberZ : Kyber := {
  Scalar := Z; Point := Z; EdScalar := Z; EdPoint := Z; PubPoly := Z * Z; Secret := Z;
  Scalar_Zero := 0;
  Scalar_Add := Z.add;
  Scalar_MarshalBinary := fun s => bytes_string [s];
  Scalar_UnmarshalBinary := fun b => default 0 (head (string_bytes b));
  Point_Null := 0;
  Point_Mul := fun s => 5 * s;
  Point_Equal := Z.eqb;
  Point_UnmarshalFrom := fun b => default 0 (head (string_bytes b));
  RecoverPubPoly := line_recover;
  PubPoly_Add := line_add;
  PubPoly_Eval := line_eval;
  PubPoly_Commit := fst;
  bls_Verify := fun pk msg sig =>
    if bool_decide (sig = fmt_d (Some pk) +:+ msg) then None else Some "bls: invalid signature";
  EdPoint_UnmarshalFrom := fun b => default 0 (head (string_bytes b));
  VerifyED25519 := fun pk msg sig => (bool_decide (sig = fmt_d (Some pk) +:+ msg), false);
  EdDSA_Secret := fun k => k;
  UnmarshalPublicShares := fun b _ => (number_shares 0 (string_bytes b), mkSignedShares b "");
  UnmarshalPrivateShares := fun b _ _ _ => (number_shares 0 (string_bytes b), mkSignedShares b "");
  MarshalPublicShares := fun l _ => bytes_string (share_V <$> l);
  MarshalPrivateShares := fun l _ _ => bytes_string (share_V <$> l);
  json_PubShareIndexes := fun b => [(0, b)];
  json_PriShareIndexes := fun _ => [0];
  gzip_Copy := Some;
  gzip_Write := fun b => b
}.

(** Dealings of threshold two are lines. *)
Definition line_sharing (t : Z) (f : Z -> Z) : Prop :=
  t = 2 /\ exists a b, forall i, f i = a + b * i.

Definition line_commits (t : Z) (p : Z * Z) (f : Z -> Z) : Prop :=
  t = 2 /\ forall i, f i * 5 = line_eval p i.

Lemma line_through_spec a b s1 s2 :
  share_I s1 <> share_I s2 ->
  share_V s1 = 5 * (a + b * share_I s1) -> share_V s2 = 5 * (a + b * share_I s2) ->
  line_through s1 s2 = (5 * a, 5 * b).
Proof.
  intros Hne E1 E2. unfold line_through. rewrite E1, E2.
  replace (5 * (a + b * share_I s2) - 5 * (a + b * share_I s1))
    with (5 * b * (share_I s2 - share_I s1)) by ring.
  rewrite Z.div_mul by lia. f_equal; ring.
Qed.

Lemma line_recover_sound (shares : list (option (Share Z))) t n f :
  line_sharing t f ->
  (forall s, Some s ∈ shares -> 0 <= share_I s -> share_V s = 5 * f (share_I s)) ->
  t <= Z.of_nat (size (valid_indexes n shares)) ->
  exists p, line_recover shares t n = Some p /\ line_commits t p f.
Proof.
  intros [-> (a & b & Hf)] Hs Hsz. unfold line_recover, valid_indexes in *.
  assert (Hin : forall s, s ∈ filter (fun s => 0 <= share_I s < n) (omap id shares) ->
            share_V s = 5 * (a + b * share_I s)).
  { intros s [Hi Hm]%list_elem_of_filter. apply list_elem_of_omap in Hm as (o & Ho & Eo).
    cbn in Eo. subst o. rewrite <- Hf. apply Hs; [done|lia]. }
  cbn in Hin, Hsz |- *.
  destruct (filter _ (omap id shares)) as [|s1 rest]; [cbn in Hsz; rewrite size_empty in Hsz; lia|].
  destruct (filter (fun s => share_I s <> share_I s1) rest) as [|s2 more] eqn:E2.
  - exfalso. assert (Hsub : list_to_set (C := gset Z) (share_I <$> s1 :: rest) ⊆ {[share_I s1]}).
    { intros i (s & -> & Hi)%elem_of_list_to_set%list_elem_of_fmap.
      apply elem_of_singleton. apply elem_of_cons in Hi as [->|Hi]; [done|].
      destruct (decide (share_I s = share_I s1)) as [|Hn]; [done|].
      assert (Hx : s ∈ filter (fun s => share_I s <> share_I s1) rest) by by apply list_elem_of_filter.
      rewrite E2 in Hx. by apply elem_of_nil in Hx. }
    apply subseteq_size in Hsub. rewrite size_singleton in Hsub. lia.
  - assert (Hx : s2 ∈ filter (fun s => share_I s <> share_I s1) rest) by (rewrite E2; left).
    apply list_elem_of_filter in Hx as [Hne Hx].
    exists (5 * a, 5 * b). cbn. split.
    + f_equal. apply line_through_spec; [done|..]; apply Hin; [left|by right].
    + split; [done|]. intros i. rewrite Hf. unfold line_eval. cbn. ring.
Qed.

#[export] Program Instance kyberZ_laws : KyberLaws := {
  Point_Add := Z.add;
  sharing := line_sharing;
  commits := line_commits
}.
Next Obligation. cbn. intros. apply Z.eqb_eq. Qed.
Next Obligation. cbn. lia. Qed.
Next Obligation. cbn. lia. Qed.
Next Obligation. done. Qed.
Next Obligation. cbn. intros. lia. Qed.
Next Obligation. cbn. apply line_recover_sound. Qed.
Next Obligation.
  cbn. intros t p q f g [-> Hf] [_ Hg]. eexists. split; [done|]. split; [done|].
  intros i. specialize (Hf i). specialize (Hg i). unfold line_eval in *. cbn. lia.
Qed.
Next Obligation. cbn. intros t p f i [_ Hf] _. rewrite <- Hf. lia. Qed.

#[export] Instance blsZ : BlsLib := {
  NewBLS := fun rnd threshold l index total =>
    mkBLS _ threshold (Z.of_nat (length l)) total index None None (Z.of_nat rnd);
  GetPrivateShares := fun b n => (fun i => mkShare i (bls_secret b + i)) <$> seqZ 0 n;
  GetPublicShares := fun b n => (fun i => mkShare i (5 * (bls_secret b + i))) <$> seqZ 0 n;
  GenerateRandomNumber := fun b toSign sigs =>
    if Z.of_nat (size sigs) <? Threshold b then Err
    else Ok ((fmt_d (fst <$> GroupPublicPoly b)) +:+ toSign);
  SignBytes := fun b data =>
    match GroupPrivateShare b with
    | Some s => fmt_d (Some (share_V s)) +:+ data
    | None => ""
    end
}.

(** The value of a hexadecimal string after its [0x] prefix, cut to the
    address width. *)
Fixpoint unhex (v : Z) (s : string) : Z :=
  match s with
  | EmptyString => v
  | String c s' =>
      let b := byte_of c in
      unhex (16 * v + (if b <? 58 then b - 48 else b - 87)) s'
  end.

Definition hex_to_address (s : string) : Z := unhex 0 (String.substring 2 40 s) mod 256 ^ 20.

Lemma hex_to_address_range s : is_address (hex_to_address s).
Proof. unfold is_address, hex_to_address. apply Z.mod_pos_bound. lia. Qed.

Definition event_bytes (e : VaultEvent) : string :=
  VaultEvent_TokenMapping e +:+ "," +:+ hex (Address_Bytes (Vault e)) +:+ "," +:+
  hex (Address_Bytes (To e)) +:+ "," +:+ fmt_d (Amount e) +:+ "," +:+ fmt_d (Nonce e) +:+ "," +:+
  fmt_d (TotalNonce e) +:+ "," +:+ fmt_d (BlockNumber e) +:+ "," +:+ fmt_d (Tip e).

#[export] Instance moacZ : MoacLib := {
  RlpHash := fun e => sha256 (event_bytes e);
  EncodeToBytes := fun e => Ok (event_bytes e);
  DecodeBytes := fun d =>
    if bool_decide (d = "") then mkVaultEvent 0 None 0 None 0 0 None None None None None
    else mkVaultEvent 7 (Some 101) 2 (Some 102) 3 4 (Some (undec 0 d)) (Some (undec 0 d))
           (Some (undec 0 d)) (Some 0) (Some 0);
  HexToAddress := hex_to_address;
  HexToAddress_range := hex_to_address_range;
  Address_x := fun a => hex (Address_Bytes a);
  Address_String := fun a => "0x" +:+ hex (Address_Bytes a);
  Keccak256 := sha256
}.

Lemma token_mapping_agrees_witness :
  let e := mkVaultEvent 7 (Some 101) 2 (Some 102) 3 4 (Some 5) (Some 6) (Some 8) (Some 0) (Some 1) in
  let tm := mkTokenMapping 101 "0x02" 102 "0x03" in
  VaultEvent_TokenMapping e = TokenMapping_String tm <->
  SourceChainid e = Some 101 /\ SourceToken e = HexToAddress "0x02" /\
  MappedChainid e = Some 102 /\ MappedToken e = HexToAddress "0x03".
Proof.
  apply (token_mapping_agrees
    (mkVaultEvent 7 (Some 101) 2 (Some 102) 3 4 (Some 5) (Some 6) (Some 8) (Some 0) (Some 1))
    (mkTokenMapping 101 "0x02" 102 "0x03")); vm_compute; split; discriminate || reflexivity.
Defined.

(** ** Padding and numbers of the ABI codec *)
#[export] Instance commonZ : CommonLib := {
  RightPadBytes := fun bs l => bs ++ zeros (l - length bs);
  LeftPadBytes := fun bs l => zeros (l - length bs) ++ bs;
  PaddedBigBytes := fun z n => be n z;
  math_U256 := fun z => z mod 2 ^ 256;
  BytesToAddress := fun b => drop (length b - 20) b
}.

#[export] Instance commonZ_laws : CommonLaws commonZ.
Proof. split; reflexivity. Qed.

Definition sample_types : list Ty :=
  [UintTy 256; StringTy; ArrayTy 2 (UintTy 8); SliceTy StringTy; TupleTy [BoolTy; BytesTy; IntTy 16]].

Definition sample_values : list val :=
  [VBig (Some 1000); VString [97; 98; 99];
   VSeq true (KInt true 8) [VInt true 8 7; VInt true 8 255];
   VSeq false KString [VString [120]; VString []];
   VStruct [VBool true; VBytes false [1; 2; 3]; VInt false 16 (-2)]].

Lemma abi_roundtrip_witness :
  exists data, Arguments_Pack sample_types sample_values = ok data /\
    forall rest, Z.of_nat (length (data ++ rest)) < 2 ^ 63 ->
      Arguments_Unpack sample_types (data ++ rest) = ok sample_values.
Proof.
  apply (abi_roundtrip sample_types sample_values); [reflexivity|].
  unfold typed_args, sample_types, sample_values. repeat (constructor; [vm_compute; reflexivity|]). constructor.
Defined.

Lemma abi_unpack_safe_witness : exists r, Arguments_Unpack sample_types (replicate 100 255) = Ret r.
Proof.
  apply (abi_unpack_safe sample_types (replicate 100 255)); [reflexivity| |].
  - apply Forall_replicate. lia.
  - vm_compute. reflexivity.
Defined.

(** Beyond these sizes decoding does panic: the length check of [uint256[2^62]] wraps
    around to zero, and there is no Go array type of that size. *)
Definition huge : Ty := ArrayTy (Z.to_nat (2 ^ 62)) (UintTy 256).

Lemma huge_array_panics : Arguments_Unpack [huge] (zeros 32) = Panic.
Proof.
  assert (Hn : Z.of_nat (Z.to_nat (2 ^ 62)) = 2 ^ 62) by (by rewrite Z2Nat.id).
  unfold Arguments_Unpack, UnpackValues, huge. cbn [unpack_args toGoType isDynamicType length]. rewrite Hn.
  unfold forEachUnpack, GetType. cbn [GetType_ok layout fst]. rewrite Hn. reflexivity.
Qed.

(** ** The digests of the run-length encoding *)
#[export] Instance rle_digests : RleDigests := {
  empty := be 32 0xc5d2460186f7233c927e7db2dcc703c0e500b653ca82273b7bfad8045d85a470;
  emptyList := be 32 0x56e81f171bcc55a6ff8345e692c0f86e5b48e01b996cadc001622fb5e363b421
}.

#[export] Instance rle_digest_laws : RleDigestLaws rle_digests.
Proof.
  split.
  - exists (take 31 (be 32 0xc5d2460186f7233c927e7db2dcc703c0e500b653ca82273b7bfad8045d85a470)), 0x70.
    by split_and!.
  - exists (take 31 (be 32 0x56e81f171bcc55a6ff8345e692c0f86e5b48e01b996cadc001622fb5e363b421)), 0x21.
    by split_and!.
Qed.

(** Ten zeros come back; two hundred and fifty-one do not. *)
Lemma rle_roundtrip_witness :
  (exists buf, Compress (7 :: replicate 10 0) = Ret buf /\ Decompress buf = Ok (7 :: replicate 10 0)) /\
  (exists buf d, Compress (replicate 251 0) = Ret buf /\ Decompress buf = Ok d /\ d <> replicate 251 0).
Proof.
  split.
  - destruct (rle_roundtrip (7 :: replicate 10 0)) as (buf & d & Ec & Ed & [_ Hd] & _).
    exists buf. split; [exact Ec|]. rewrite Ed, (Hd eq_refl). reflexivity.
  - destruct (rle_roundtrip (replicate 251 0)) as (buf & d & Ec & Ed & [Hd _] & _).
    exists buf, d. split; [exact Ec|]. split; [exact Ed|]. intros E. specialize (Hd E). vm_compute in Hd. discriminate.
Defined.
