(* ===== verification/DkgProps.v ===== *)
(** * Distributed key generation: what the node guarantees (dkg/dkg.go)

    Safety of the state machine in every reachable state, correctness of the
    share verification and of the group key, and the signature checks, each
    with a concrete run. *)
From S2P Require Import Prelude GoMonad Fmt Event Bind DkgBase DkgConfig Instances.
Local Open Scope Z_scope.

(** ** Folds that add entries to a table *)
Section folds.
Context {A K V : Type} `{Countable K} (f : gmap K V -> A -> gmap K V).

Lemma foldl_dom (D : A -> K -> Prop) :
  (forall m x k, is_Some (f m x !! k) <-> is_Some (m !! k) \/ D x k) ->
  forall l m k, is_Some (foldl f m l !! k) <-> is_Some (m !! k) \/ exists x, x ∈ l /\ D x k.
Proof.
  intros Hf. induction l as [|x l IH]; intros m k; cbn.
  - split; [auto|]. intros [?|(x & Hx & _)]; [done|]. by apply elem_of_nil in Hx.
  - rewrite IH, Hf. setoid_rewrite elem_of_cons. firstorder congruence.
Qed.

Lemma foldl_val (C : A -> K -> V -> Prop) :
  (forall m x k v, f m x !! k = Some v -> m !! k = Some v \/ C x k v) ->
  forall l m k v, foldl f m l !! k = Some v ->
    m !! k = Some v \/ exists x, x ∈ l /\ C x k v.
Proof.
  intros Hf. induction l as [|x l IH]; intros m k v Hv; cbn in Hv; [auto|].
  apply IH in Hv as [[?|HC]%Hf|(y & Hy & HC)]; [auto|..]; right; eexists; (split; [|exact HC]).
  - left.
  - by right.
Qed.

End folds.

Section shares.
Context `{Kyber} `{!BlsLib} `{MoacLib} `{!MapOrder Address (list (Share Point))}.

(** The private share [q] from a sender contradicts the public share [p] they
    published for this node. *)
Definition mismatch (index : Z) (p : Share Point) (q : Share Scalar) : Prop :=
  share_I p = index /\ share_I q = index /\ Point_Equal (Point_Mul (share_V q)) (share_V p) = false.

(** The shares [sender] published contain such a pair, with private share [q]. *)
Definition bad_sender (index : Z) (pub : gmap Address (list (Share Point)))
    (pri : gmap Address (list (Share Scalar))) (sender : Address) (q : Share Scalar) : Prop :=
  exists ps qs p, pub !! sender = Some ps /\ pri !! sender = Some qs /\
    p ∈ ps /\ q ∈ qs /\ mismatch index p q.

Lemma verifyShares_dom b pub pri sender :
  is_Some (verifyShares b pub pri !! sender) <->
  exists q, bad_sender (NodeIndex b) pub pri sender q.
Proof.
  unfold verifyShares.
  erewrite foldl_dom with (D := fun x k => k = fst x /\ exists qs p q,
    pri !! fst x = Some qs /\ p ∈ snd x /\ q ∈ qs /\ mismatch (NodeIndex b) p q).
  { rewrite lookup_empty. unfold bad_sender. split.
    - intros [[? ?]|((a & ps) & Hin%elem_of_range & -> & qs & p & q & ?)]; [done|].
      exists q, ps, qs, p. tauto.
    - intros (q & ps & qs & p & Hps & ?). right. exists (sender, ps).
      rewrite elem_of_range. cbn. split; [done|]. split; [done|]. exists qs, p, q. tauto. }
  intros m [a ps] k. cbn.
  erewrite foldl_dom with (D := fun p k => k = a /\ exists qs q,
    pri !! a = Some qs /\ q ∈ qs /\ mismatch (NodeIndex b) p q).
  { firstorder. }
  clear m k ps. intros m p k. unfold mismatch. destruct (Z.eqb_spec (share_I p) (NodeIndex b)).
  2: { split; [auto|]. intros [?|(_ & qs & q & _ & _ & ? & _)]; [done|congruence]. }
  destruct (pri !! a) as [qs|]; [|split; [auto|]; intros [?|(_ & ? & ? & ? & _)]; done].
  erewrite foldl_dom with (D := fun q k => k = a /\ mismatch (NodeIndex b) p q).
  { unfold mismatch. split.
    - intros [?|(q & Hq & -> & ?)]; [auto|]. right. split; [done|]. exists qs, q. tauto.
    - intros [?|(-> & qs' & q & [= <-] & ?)]; [auto|]. right. exists q. tauto. }
  clear m k. intros m q k. unfold mismatch. destruct (Z.eqb_spec (share_I q) (NodeIndex b)).
  2: { split; [auto|]. intros [?|(_ & _ & ? & _)]; [done|congruence]. }
  destruct (Point_Equal _ _) eqn:Eq; [split; [auto|]; intros [?|?]; [done|intuition congruence]|].
  destruct (decide (k = a)) as [->|Hne].
  - rewrite lookup_insert_eq. split; [|eauto]. intros _. right. tauto.
  - rewrite lookup_insert_ne by done. split; [auto|]. intros [?|[? _]]; done.
Qed.

Lemma verifyShares_val b pub pri sender q :
  verifyShares b pub pri !! sender = Some q -> bad_sender (NodeIndex b) pub pri sender q.
Proof.
  unfold verifyShares.
  intros Hq. apply foldl_val with (C := fun x k q => k = fst x /\ exists qs p,
    pri !! fst x = Some qs /\ p ∈ snd x /\ q ∈ qs /\ mismatch (NodeIndex b) p q) in Hq.
  { destruct Hq as [Hq|((a & ps) & Hin%elem_of_range & -> & qs & p & ?)]; [set_solver|].
    exists ps, qs, p. tauto. }
  clear. intros m [a ps] k q Hq. cbn in Hq |- *.
  apply foldl_val with (C := fun p k q => k = a /\ exists qs,
    pri !! a = Some qs /\ q ∈ qs /\ mismatch (NodeIndex b) p q) in Hq; [firstorder|].
  clear. intros m p k q Hq. destruct (Z.eqb_spec (share_I p) (NodeIndex b)); [|auto].
  destruct (pri !! a) as [qs|]; [|auto].
  apply foldl_val with (C := fun q' k q => k = a /\ q' = q /\ mismatch (NodeIndex b) p q) in Hq.
  { destruct Hq as [?|(q' & ? & -> & -> & ?)]; [auto|]. right. eauto. }
  clear - e. intros m q' k q Hq. destruct (Z.eqb_spec (share_I q') (NodeIndex b)); [|auto].
  destruct (Point_Equal _ _) eqn:Eq; [auto|].
  apply lookup_insert_Some in Hq as [[<- <-]|[_ Hq]]; [right|auto]. done.
Qed.

End shares.

(** ** Honest dealers *)
Section honest.
Context `{Kyber} `{!BlsLib} `{!KyberLaws} `{MoacLib}.
Context `{!MapOrder Address bytes} `{!MapOrder Address Z} `{!MapOrder Address (Share Scalar)}
  `{!MapOrder Address (list (Share Point))}.

Definition scalar_sum (l : list Scalar) : Scalar := foldr Scalar_Add Scalar_Zero l.

(** The dealing of the group: the sum of the dealings of all senders. *)
Definition group_dealing (dealers : gset Address) (f : Address -> Z -> Scalar) (i : Z) : Scalar :=
  scalar_sum ((fun a => f a i) <$> elements dealers).

Definition sender_key (pks : gmap Address bytes) (a : Address) : EdPoint :=
  EdPoint_UnmarshalFrom (default "" (pks !! a)).

(** Every sender [a] dealt [f a]: their public shares commit to it, at least a
    threshold of them, and the private share addressed to this node is its
    value at the node's index. *)
Record honest (b : BLS) (pks pubr prir : gmap Address bytes) (sk : EdScalar)
    (f : Address -> Z -> Scalar) : Prop := {
  honest_index : 0 <= NodeIndex b;
  honest_some : pubr <> ∅;
  honest_senders : dom pubr = dom prir;
  honest_known : forall a, a ∈ dom pubr -> is_Some (pks !! a);
  honest_sharing : forall a, a ∈ dom pubr -> sharing (Threshold b) (f a);
  honest_public : forall a data p, pubr !! a = Some data ->
    p ∈ fst (UnmarshalPublicShares data (sender_key pks a)) ->
    0 <= share_I p -> share_V p = Point_Mul (f a (share_I p));
  honest_enough : forall a data, pubr !! a = Some data ->
    Threshold b <= Z.of_nat (size (valid_indexes (TotalN b)
      (nil_negative (fst (UnmarshalPublicShares data (sender_key pks a))))));
  honest_private : forall a data, prir !! a = Some data ->
    filter (fun q => share_I q = NodeIndex b)
      (fst (UnmarshalPrivateShares data sk (NodeIndex b) (sender_key pks a))) =
    [mkShare (NodeIndex b) (f a (NodeIndex b))]
}.

Lemma scalar_sum_perm l k : l ≡ₚ k -> scalar_sum l = scalar_sum k.
Proof.
  induction 1 as [|x l k _ IH|x y l|l k m _ IH1 _ IH2]; cbn; [done|by f_equal| |congruence].
  by rewrite !Scalar_Add_assoc, (Scalar_Add_comm y x).
Qed.

Lemma foldl_scalar_sum l : forall x, foldl Scalar_Add x l = Scalar_Add x (scalar_sum l).
Proof.
  induction l as [|y l IH]; intros x; cbn.
  - by rewrite Scalar_Add_comm, Scalar_Add_0_l.
  - rewrite IH. by rewrite Scalar_Add_assoc.
Qed.

Lemma private_inner index qs : forall acc,
  foldl (fun acc q => if share_I q =? index then Scalar_Add acc (share_V q) else acc) acc qs =
  foldl Scalar_Add acc (share_V <$> filter (fun q => share_I q = index) qs).
Proof.
  induction qs as [|q qs IH]; intros acc; [done|]. rewrite filter_cons. cbn [foldl]. rewrite IH.
  destruct (Z.eqb_spec (share_I q) index); by case_decide.
Qed.

Lemma group_private_share_sum index (vs : list Scalar) qss :
  Forall2 (fun qs v => filter (fun q => share_I q = index) qs = [mkShare index v]) qss vs ->
  group_private_share index qss = scalar_sum vs.
Proof.
  intros Hq. unfold group_private_share.
  rewrite <- (Scalar_Add_0_l (scalar_sum vs)), <- foldl_scalar_sum. generalize Scalar_Zero.
  induction Hq as [|qs v qss vs Hqs _ IH]; intros acc; cbn; [done|].
  by rewrite private_inner, Hqs, IH.
Qed.

Lemma combine_polys_sum b pss gs :
  Forall2 (fun ps g => exists p, recover b ps = Some p /\ commits (Threshold b) p g) pss gs ->
  forall acc g0, commits (Threshold b) acc g0 ->
  exists r g, combine_polys b acc pss = Some r /\ commits (Threshold b) r g /\
    forall i, g i = foldl Scalar_Add (g0 i) ((fun g => g i) <$> gs).
Proof.
  induction 1 as [|ps g pss gs (p & Hp & Hc) _ IH]; intros acc g0 Hacc; cbn.
  - exists acc, g0. done.
  - rewrite Hp. destruct (PubPoly_Add_commits _ _ _ _ _ Hacc Hc) as (r & -> & Hr).
    destruct (IH r _ Hr) as (r' & g' & ? & ? & Hg'). eauto.
Qed.

(** Decoding the shares of senders that all have a public key. *)
Lemma decode_shares_known {V : Type} (u : bytes -> EdPoint -> list (Share V) * SignedShares) pks
    (received : list (Address * bytes)) :
  Forall (fun x => is_Some (pks !! fst x)) received ->
  let d := decode_shares u pks received in
  dec_all d = (fun x => fst (u (snd x) (sender_key pks (fst x)))) <$> received /\
  forall a shares, dec_verify d !! a = Some shares ->
    exists data, (a, data) ∈ received /\ shares = fst (u data (sender_key pks a)).
Proof.
  intros Hk. cbn.
  assert (G : forall acc,
    let d := foldl (fun acc '(addr, data) =>
      match pks !! addr with
      | Some pubkeyBytes =>
          let pubkey := EdPoint_UnmarshalFrom pubkeyBytes in
          let '(shares, signedShares) := u data pubkey in
          mkDecoded (dec_all acc ++ [shares]) (<[addr := shares]> (dec_verify acc))
            (<[addr := signedShares]> (dec_signed acc))
      | None => acc
      end) acc received in
    dec_all d = dec_all acc ++ ((fun x => fst (u (snd x) (sender_key pks (fst x)))) <$> received) /\
    forall a shares, dec_verify d !! a = Some shares -> dec_verify acc !! a = Some shares \/
      exists data, (a, data) ∈ received /\ shares = fst (u data (sender_key pks a))).
  { induction Hk as [|[a data] received [pk Hpk] _ IH]; intros acc; cbn.
    - rewrite app_nil_r. auto.
    - cbn in Hpk. unfold sender_key at 1. rewrite Hpk. cbn.
      destruct (u data (EdPoint_UnmarshalFrom pk)) as [shares signed] eqn:Eu.
      edestruct IH as [IH1 IH2]. rewrite IH1. cbn. split.
      + rewrite <- app_assoc. done.
      + intros a' shares' [Hv|(data' & Hin & ->)]%IH2.
        * cbn in Hv. apply lookup_insert_Some in Hv as [[<- <-]|[_ Hv]]; [|auto].
          right. exists data. split; [left|]. unfold sender_key. rewrite Hpk. cbn. by rewrite Eu.
        * right. exists data'. split; [by right|done]. }
  destruct (G (mkDecoded [] ∅ ∅)) as [G1 G2]. split; [done|].
  intros a shares [Hv|?]%G2; [|done]. cbn in Hv. by rewrite lookup_empty in Hv.
Qed.

Section dealing.
Variables (b : BLS) (pks pubr prir : gmap Address bytes) (sk : EdScalar).
Variable f : Address -> Z -> Scalar.
Hypothesis Hh : honest b pks pubr prir sk f.

Abbreviation pub := (decode_shares UnmarshalPublicShares pks (range pubr)).
Abbreviation pri :=
  (decode_shares (fun data => UnmarshalPrivateShares data sk (NodeIndex b)) pks (range prir)).

Lemma honest_range_known (m : gmap Address bytes) :
  dom m = dom pubr -> Forall (fun x => is_Some (pks !! fst x)) (range m).
Proof.
  intros Hd. apply Forall_forall. intros [a data] Hin%elem_of_range. cbn.
  apply (honest_known _ _ _ _ _ _ Hh). rewrite <- Hd. apply elem_of_dom. eauto.
Qed.

Lemma honest_none_bad : verifyShares b (dec_verify pub) (dec_verify pri) = ∅.
Proof.
  apply map_eq. intros a. rewrite lookup_empty. apply eq_None_not_Some. rewrite verifyShares_dom.
  intros (q & ps & qs & p & Hps & Hqs & Hp & Hq & Ep & Eq & Hneq).
  apply decode_shares_known in Hps as (d1 & Hin1%elem_of_range & ->); [|by apply honest_range_known].
  apply decode_shares_known in Hqs as (d2 & Hin2%elem_of_range & ->);
    [|apply honest_range_known; symmetry; apply Hh].
  assert (Hf : q ∈ filter (fun q => share_I q = NodeIndex b)
    (fst (UnmarshalPrivateShares d2 sk (NodeIndex b) (sender_key pks a)))) by by apply list_elem_of_filter.
  rewrite (honest_private _ _ _ _ _ _ Hh _ _ Hin2) in Hf. apply list_elem_of_singleton in Hf as ->.
  rewrite (honest_public _ _ _ _ _ _ Hh _ _ _ Hin1 Hp), Ep in Hneq.
  - cbn in Hneq. assert (Point_Equal (Point_Mul (f a (NodeIndex b))) (Point_Mul (f a (NodeIndex b))) = true)
      by by apply Point_Equal_spec. congruence.
  - rewrite Ep. apply Hh.
Qed.

Lemma honest_recover :
  Forall2 (fun ps g => exists p, recover b ps = Some p /\ commits (Threshold b) p g)
    (dec_all pub) (f <$> (range pubr).*1).
Proof.
  rewrite (proj1 (decode_shares_known _ _ _ (honest_range_known pubr eq_refl))).
  rewrite <- list_fmap_compose. apply Forall2_fmap, Forall_Forall2_diag, Forall_forall.
  intros [a data] Hin%elem_of_range. cbn. apply RecoverPubPoly_sound.
  - apply Hh, elem_of_dom. eauto.
  - intros s Hs. apply list_elem_of_fmap in Hs as (p & Ep & Hp).
    destruct (share_I p <? 0); simplify_eq. by apply (honest_public _ _ _ _ _ _ Hh _ _ _ Hin).
  - by apply (honest_enough _ _ _ _ _ _ Hh).
Qed.

Lemma dealers_sum (m : gmap Address bytes) i :
  dom m = dom pubr ->
  scalar_sum ((fun a => f a i) <$> (range m).*1) = group_dealing (dom pubr) f i.
Proof.
  intros <-. apply scalar_sum_perm, fmap_Permutation. rewrite range_perm.
  apply NoDup_Permutation; [apply NoDup_fst_map_to_list|apply NoDup_elements|].
  intros a. rewrite elem_of_elements, elem_of_dom, list_elem_of_fmap. split.
  - intros ([a' d] & -> & Hin%elem_of_map_to_list). eauto.
  - intros [d Hd]. exists (a, d). split; [done|]. by apply elem_of_map_to_list.
Qed.

Lemma honest_private_share :
  group_private_share (NodeIndex b) (dec_all pri) = group_dealing (dom pubr) f (NodeIndex b).
Proof.
  assert (Hd : dom prir = dom pubr) by (symmetry; apply Hh).
  rewrite <- (dealers_sum prir _ Hd). apply group_private_share_sum.
  rewrite (proj1 (decode_shares_known _ _ _ (honest_range_known prir Hd))).
  rewrite <- list_fmap_compose. apply Forall2_fmap, Forall_Forall2_diag, Forall_forall.
  intros [a data] Hin%elem_of_range. cbn. by apply (honest_private _ _ _ _ _ _ Hh).
Qed.

Lemma honest_group_poly :
  exists ps rest p r, dec_all pub = ps :: rest /\ recover b ps = Some p /\
    combine_polys b p rest = Some r /\
    forall i, 0 <= i -> PubPoly_Eval r i = Point_Mul (group_dealing (dom pubr) f i).
Proof.
  pose proof honest_recover as Hr. pose proof (dealers_sum pubr) as Hsum.
  assert (Hne : (range pubr).*1 <> []).
  { intros E%fmap_nil_inv. apply (honest_some _ _ _ _ _ _ Hh), map_size_empty_inv.
    by rewrite <- length_range, E. }
  destruct ((range pubr).*1) as [|a l]; [done|]. cbn in Hr.
  apply Forall2_cons_inv_r in Hr as (ps & rest & (p & Hp & Hc) & Hrest & Hall).
  destruct (combine_polys_sum b rest (f <$> l) Hrest p (f a) Hc) as (r & g & Hcomb & Hcr & Hg).
  exists ps, rest, p, r. split_and!; [done..|]. intros i Hi.
  rewrite (PubPoly_Eval_commits _ _ _ _ Hcr Hi), Hg, foldl_scalar_sum, <- (Hsum i) by done.
  by rewrite <- list_fmap_compose.
Qed.

End dealing.
End honest.

(** ** Verdict on a configuration *)
Section verdict.
Context `{Kyber} `{!BlsLib} `{MoacLib}.
Context `{!MapOrder Address bytes} `{!MapOrder Address Z} `{!MapOrder Address (Share Scalar)}
  `{!MapOrder Address (list (Share Point))}.
Variable env : nat -> VssBase.

(** The report of one bad private share. *)
Definition reveal_tx (pub pri : gmap Address SignedShares) (x : Address * Share Scalar) : Tx :=
  let sp := default (mkSignedShares "" "") (pub !! fst x) in
  let sq := default (mkSignedShares "" "") (pri !! fst x) in
  TxReveal (fst x) (ss_shares sp) (ss_sig sp) (ss_shares sq) (ss_sig sq)
    (Scalar_MarshalBinary (share_V (snd x))).

Lemma reveal_all_run m pub pri w :
  reveal_all m pub pri w =
  Ret (tt, mkWorld (w_dkg w) (w_tick w) (w_txs w ++ (reveal_tx pub pri <$> range m))).
Proof.
  unfold reveal_all. generalize (range m). intros l. revert w.
  induction l as [|[a q] l IH]; intros w; cbn [for_each fmap list_fmap].
  - rewrite app_nil_r. by destruct w.
  - erewrite bind_run by reflexivity. rewrite IH. cbn. by rewrite <- app_assoc.
Qed.

Lemma indexs_loop_total l : forall i ids m,
  (i + length l <= length ids)%nat -> exists m', indexs_loop i l ids m = Ret m'.
Proof.
  induction l as [|a l IH]; intros i ids m Hl; cbn in *; [eauto|].
  destruct (lookup_lt_is_Some_2 ids i) as [z ->]; [lia|]. cbn. apply IH. lia.
Qed.

Lemma GetVSSNodesIndexs_run l w :
  (length l <= length (vb_GetVSSNodesIndexs (env (w_tick w)) l))%nat ->
  exists m, GetVSSNodesIndexs env l w = Ret (m, mkWorld (w_dkg w) (S (w_tick w)) (w_txs w)).
Proof.
  intros Hl. destruct (indexs_loop_total l 0 _ ∅ Hl) as [m Hm]. exists m.
  unfold GetVSSNodesIndexs. erewrite bind_run by reflexivity. unfold glift. by rewrite Hm.
Qed.

End verdict.

(** Whatever order the maps are visited in: when the shares received
    contain private shares for this node that contradict the public ones, the
    node reports exactly the senders of such shares, each with a share that
    does contradict, returns the reveal verdict, and changes nothing else; in
    particular it does not vote. *)
Theorem conclude_reveals_bad_shares `{Kyber} `{!BlsLib} `{MoacLib}
    `{!MapOrder Address bytes} `{!MapOrder Address Z} `{!MapOrder Address (Share Scalar)}
    `{!MapOrder Address (list (Share Point))}
    (env : nat -> VssBase) v l b (pub : Decoded Point) (pri : Decoded Scalar) w :
  (exists a q, bad_sender (NodeIndex b) (dec_verify pub) (dec_verify pri) a q) ->
  (length l <= length (vb_GetVSSNodesIndexs (env (w_tick w)) l))%nat ->
  exists reports,
    conclude env v l b pub pri w =
      Ret (VssConfigReveal,
           mkWorld (w_dkg w) (S (w_tick w))
             (w_txs w ++ (reveal_tx (dec_signed pub) (dec_signed pri) <$> reports))) /\
    NoDup reports.*1 /\
    (forall a, a ∈ reports.*1 <->
       exists q, bad_sender (NodeIndex b) (dec_verify pub) (dec_verify pri) a q) /\
    forall a q, (a, q) ∈ reports -> bad_sender (NodeIndex b) (dec_verify pub) (dec_verify pri) a q.
Proof.
  intros (a0 & q0 & Hbad) Hlen.
  set (m := verifyShares b (dec_verify pub) (dec_verify pri)).
  exists (range m). split_and!.
  - unfold conclude. fold m.
    assert (Hm : is_Some (m !! a0)) by (apply verifyShares_dom; eauto).
    assert (Hs : (size m <> 0)%nat).
    { intros E%map_size_empty_inv. rewrite E, lookup_empty in Hm. by destruct Hm. }
    destruct (Nat.ltb_spec 0 (size m)); [|lia].
    destruct (GetVSSNodesIndexs_run env l w Hlen) as [m' Hm'].
    rewrite (bind_run _ _ _ _ _ Hm'). by rewrite (bind_run _ _ _ _ _ (reveal_all_run _ _ _ _)).
  - apply NoDup_range_keys.
  - intros a. rewrite <- verifyShares_dom. fold m. rewrite list_elem_of_fmap. split.
    + intros ([a' q] & -> & Hin%elem_of_range). eauto.
    + intros [q Hq]. exists (a, q). split; [done|]. by apply elem_of_range.
  - intros a q Hin%elem_of_range. by apply verifyShares_val.
Qed.

(** C4. When every sender dealt honestly, the node votes for the
    configuration and stores a BLS setting whose group polynomial commits to
    the sum of all the dealings and whose private share is the value of that
    sum at the node's index, whatever the order in which the shares were
    received and decoded: all honest nodes obtain shares of one group key. *)
Theorem conclude_honest_votes `{Kyber} `{!BlsLib} `{!KyberLaws} `{MoacLib}
    `{!MapOrder Address bytes} `{!MapOrder Address Z} `{!MapOrder Address (Share Scalar)}
    `{!MapOrder Address (list (Share Point))}
    (env : nat -> VssBase) v l b pks pubr prir sk f w :
  honest b pks pubr prir sk f ->
  exists poly,
    conclude env v l b
      (decode_shares UnmarshalPublicShares pks (range pubr))
      (decode_shares (fun data => UnmarshalPrivateShares data sk (NodeIndex b)) pks (range prir)) w =
    Ret (VssConfigVote,
         mkWorld
           (with_vssSettings
              (<[i64 v := with_group poly
                   (mkShare (NodeIndex b) (group_dealing (dom pubr) f (NodeIndex b))) b]>
                 (vssSettings (w_dkg w))) (w_dkg w))
           (w_tick w) (w_txs w ++ [TxVote (i64 v)])) /\
    forall i, 0 <= i -> PubPoly_Eval poly i = Point_Mul (group_dealing (dom pubr) f i).
Proof.
  intros Hh. destruct (honest_group_poly b pks pubr prir sk f Hh) as (ps & rest & p & r & E & Ep & Er & Hr).
  exists r. split; [|done]. unfold conclude. rewrite (honest_none_bad _ _ _ _ _ _ Hh).
  rewrite map_size_empty. cbn [Nat.ltb Nat.leb]. rewrite E, Ep, Er, (honest_private_share _ _ _ _ _ _ Hh).
  cbn [share_V]. rewrite Hr by apply Hh.
  assert (Point_Equal (Point_Mul (group_dealing (dom pubr) f (NodeIndex b)))
            (Point_Mul (group_dealing (dom pubr) f (NodeIndex b))) = true) as ->
    by by apply Point_Equal_spec.
  done.
Qed.

(** ** A committee of two

    Nodes 11 and 12 with threshold two, seen from node 11: node 11 deals the
    line [3 + i], node 12 the line [1 + i]. *)
Definition pair_public : gmap Address bytes :=
  <[11 := bytes_string [15; 20]]> (<[12 := bytes_string [5; 10]]> ∅).

Definition pair_private : gmap Address bytes :=
  <[11 := bytes_string [3; 4]]> (<[12 := bytes_string [1; 2]]> ∅).

(** The same with a wrong private share from node 12. *)
Definition pair_cheated : gmap Address bytes :=
  <[11 := bytes_string [3; 4]]> (<[12 := bytes_string [9; 2]]> ∅).

Definition pair_keys : gmap Address bytes := <[11 := "A"]> (<[12 := "B"]> ∅).

Definition pair_dealing (a i : Z) : Z := if a =? 11 then 3 + i else 1 + i.

Definition pair_bls : BLS := NewBLS 0 2 [11; 12] 0 2.

Definition pair_sk : @EdScalar kyberZ := 0.

Definition pair_view (now : Z) : VssBase :=
  mkVssBase (Some 2) (fun a => Some (if a =? 11 then 0 else 1)) (fun v => v =? 1)
    (fun l => (fun a => if a =? 11 then "A" else "B") <$> l) (fun _ => Some 1)
    (fun l => (fun a => if a =? 11 then 0 else 1) <$> l) (Ok [11; 12]) (fun _ => Some 0)
    (fun _ => Some 1) (Some 2) (Some 1) (Some 0) (Some 1) (Some 0) (Some 5)
    (fun a => default "" (pair_public !! a)) (fun a => default "" (pair_private !! a))
    (fun _ => Err) 7 now.

(** The contract answers the same at every call, one second apart. *)
Definition pair_env (n : nat) : VssBase := pair_view (Z.of_nat n * second).

Definition pair_world : World := initial 11 pair_sk "key" [11; 12] "0x01" 1.

Lemma pair_public_lookup a d : pair_public !! a = Some d ->
  (a = 11 /\ d = bytes_string [15; 20]) \/ (a = 12 /\ d = bytes_string [5; 10]).
Proof.
  unfold pair_public. rewrite !lookup_insert_Some, lookup_empty. intuition congruence.
Qed.

Lemma pair_private_lookup a d : pair_private !! a = Some d ->
  (a = 11 /\ d = bytes_string [3; 4]) \/ (a = 12 /\ d = bytes_string [1; 2]).
Proof.
  unfold pair_private. rewrite !lookup_insert_Some, lookup_empty. intuition congruence.
Qed.

Lemma pair_honest : honest pair_bls pair_keys pair_public pair_private pair_sk pair_dealing.
Proof.
  split.
  - done.
  - done.
  - vm_compute. reflexivity.
  - intros a [d [[-> _]|[-> _]]%pair_public_lookup]%elem_of_dom; done.
  - intros a _. split; [done|]. unfold pair_dealing. destruct (a =? 11).
    + exists 3, 1. lia.
    + exists 1, 1. lia.
  - intros a d p [[-> ->]|[-> ->]]%pair_public_lookup; cbn;
      rewrite !elem_of_cons, elem_of_nil; intros [->|[->|[]]] _; reflexivity.
  - intros a d [[-> ->]|[-> ->]]%pair_public_lookup; vm_compute; discriminate.
  - intros a d [[-> ->]|[-> ->]]%pair_private_lookup; vm_compute; reflexivity.
Qed.

Lemma conclude_honest_votes_witness :
  exists poly,
    conclude pair_env 1 [11; 12] pair_bls
      (decode_shares UnmarshalPublicShares pair_keys (range pair_public))
      (decode_shares (fun data => UnmarshalPrivateShares data pair_sk 0) pair_keys (range pair_private))
      pair_world =
    Ret (VssConfigVote,
         mkWorld
           (with_vssSettings
              (<[1 := with_group poly (mkShare 0 4) pair_bls]> ∅) (w_dkg pair_world))
           1 [TxVote 1]) /\
    PubPoly_Eval poly 0 = 20 /\ PubPoly_Eval poly 1 = 30.
Proof.
  destruct (conclude_honest_votes pair_env 1 [11; 12] _ _ _ _ _ _ pair_world pair_honest)
    as (poly & E & Hp).
  exists poly. split; [exact E|]. split; [exact (Hp 0 ltac:(lia))|exact (Hp 1 ltac:(lia))].
Defined.

Lemma conclude_reveals_bad_shares_witness :
  let pub := decode_shares UnmarshalPublicShares pair_keys (range pair_public) in
  let pri := decode_shares (fun data => UnmarshalPrivateShares data pair_sk 0) pair_keys
               (range pair_cheated) in
  exists reports, 12 ∈ reports.*1 /\
    conclude pair_env 1 [11; 12] pair_bls pub pri pair_world =
    Ret (VssConfigReveal,
         mkWorld (w_dkg pair_world) 2 (reveal_tx (dec_signed pub) (dec_signed pri) <$> reports)).
Proof.
  cbv zeta.
  destruct (conclude_reveals_bad_shares pair_env 1 [11; 12] pair_bls
    (decode_shares UnmarshalPublicShares pair_keys (range pair_public))
    (decode_shares (fun data => UnmarshalPrivateShares data pair_sk 0) pair_keys (range pair_cheated))
    pair_world) as (reports & E & _ & Hin & _).
  - exists 12, (mkShare 0 9), [mkShare 0 5; mkShare 1 10], [mkShare 0 9; mkShare 1 2], (mkShare 0 5).
    split_and!; [reflexivity|reflexivity|left|left|by repeat split].
  - cbn. lia.
  - exists reports. split; [|exact E]. apply Hin.
    exists (mkShare 0 9), [mkShare 0 5; mkShare 1 10], [mkShare 0 9; mkShare 1 2], (mkShare 0 5).
    split_and!; [reflexivity|reflexivity|left|left|by repeat split].
Defined.

(** ** Reachable states *)

(** C19. In every state a node reaches, by any interleaving of its state
    machine, upload and signature goroutines and whatever the contract
    answers, the BLS setting it signs with holds a share of the group secret
    that matches the group polynomial, the node voted for that configuration,
    every earlier setting kept for validation was checked in the same way, and
    at most [MaximumBLSHistorySize] of them are kept. *)
Theorem dkg_reachable_safe `{Kyber} `{!BlsLib} `{MoacLib}
    `{!MapOrder Address bytes} `{!MapOrder Address Z} `{!MapOrder Address (Share Scalar)}
    `{!MapOrder Address (list (Share Point))}
    (env : nat -> VssBase) dialed id bound keyAddr sign cid addr vssid priv pub tick w0 w :
  New env dialed id bound keyAddr sign cid addr vssid priv pub tick = Ret w0 ->
  rtc (dkg_step env) w0 w ->
  (forall b, Bls (w_dkg w) = Some b ->
     checked b /\ TxVote (currentConfigVersion (w_dkg w)) ∈ w_txs w) /\
  Forall checked (prevbls (w_dkg w)) /\
  Z.of_nat (length (prevbls (w_dkg w))) <= MaximumBLSHistorySize.
Proof.
  intros HI%New_inv Hr. destruct (dkg_reachable_inv env w0 w HI Hr) as [I1 I2 I3 I4]. split_and!; [|done|done].
  intros b Hb. by apply I1, I2.
Qed.

(** The version of the configuration a node signs with never decreases. *)
Theorem dkg_version_monotone `{Kyber} `{!BlsLib} `{MoacLib}
    `{!MapOrder Address bytes} `{!MapOrder Address Z} `{!MapOrder Address (Share Scalar)}
    `{!MapOrder Address (list (Share Point))}
    (env : nat -> VssBase) dialed id bound keyAddr sign cid addr vssid priv pub tick w0 w w' :
  New env dialed id bound keyAddr sign cid addr vssid priv pub tick = Ret w0 ->
  rtc (dkg_step env) w0 w -> rtc (dkg_step env) w w' ->
  currentConfigVersion (w_dkg w) <= currentConfigVersion (w_dkg w').
Proof.
  intros Hi%New_inv Hw Hr. pose proof (dkg_reachable_inv env w0 w Hi Hw) as HI. clear Hw. induction Hr as [|x y z Hxy _ IH]; [lia|].
  destruct (dkg_step_inv env x y Hxy HI) as [HI' Hle]. specialize (IH HI'). lia.
Qed.

(** The node after the first run of the machine (vote), and after the second
    (switch to the configuration). *)
Definition run_world (w : World) : World :=
  match RunVssStateMachine pair_env 3 w with
  | Ret (_, w') => w'
  | _ => w
  end.

Definition run_returns (w : World) : bool :=
  match RunVssStateMachine pair_env 3 w with
  | Ret _ => true
  | _ => false
  end.

Definition pair_voted : World := run_world pair_world.

Definition pair_active : World := run_world pair_voted.

Lemma run_step w : run_returns w = true -> dkg_step pair_env w (run_world w).
Proof.
  intros Hr. apply (step_state _ 3). unfold run_returns, run_world in *.
  by destruct (RunVssStateMachine _ _ _) as [[[] w']| |].
Qed.

Lemma pair_voted_reached : rtc (dkg_step pair_env) pair_world pair_voted.
Proof. apply rtc_once, run_step. vm_compute. reflexivity. Qed.

Lemma pair_active_reached : rtc (dkg_step pair_env) pair_voted pair_active.
Proof. apply rtc_once, run_step. vm_compute. reflexivity. Qed.

Lemma dkg_reachable_safe_witness :
  exists b, Bls (w_dkg pair_active) = Some b /\ checked b /\
    TxVote (currentConfigVersion (w_dkg pair_active)) ∈ w_txs pair_active.
Proof.
  destruct (dkg_reachable_safe pair_env true (Ok 99) true 11 (fun _ tx => Ok tx) 99 "0x01" 11
    pair_sk "key" 0 pair_world pair_active eq_refl
    (transitivity pair_voted_reached pair_active_reached)) as [Hs _].
  assert (Hb : found (Bls (w_dkg pair_active)) = true) by (vm_compute; reflexivity).
  destruct (Bls (w_dkg pair_active)) as [b|]; [|done].
  exists b. split; [reflexivity|]. apply Hs. reflexivity.
Defined.

Lemma dkg_version_monotone_witness :
  currentConfigVersion (w_dkg pair_voted) = 0 /\ currentConfigVersion (w_dkg pair_active) = 1 /\
  currentConfigVersion (w_dkg pair_voted) <= currentConfigVersion (w_dkg pair_active).
Proof.
  split; [vm_compute; reflexivity|]. split; [vm_compute; reflexivity|].
  exact (dkg_version_monotone pair_env true (Ok 99) true 11 (fun _ tx => Ok tx) 99 "0x01" 11
    pair_sk "key" 0 pair_world pair_voted pair_active eq_refl pair_voted_reached pair_active_reached).
Defined.

(** ** Signatures *)

(** [ValidateBLSSig] on a node whose settings all have a group polynomial
    never panics, and accepts a signature exactly when the block is synced or
    below the first signed block, or the node is ready and the current or an
    earlier group key verifies it; a refusal carries an error. *)
Theorem ValidateBLSSig_correct `{Kyber} `{!BlsLib} `{MoacLib} dkg toSign blsSig syncBlock blockNumber :
  Forall (fun b => is_Some (GroupPublicPoly b)) (option_list (Bls dkg) ++ prevbls dkg) ->
  exists ok err, ValidateBLSSig dkg toSign blsSig syncBlock blockNumber = Ret (ok, err) /\
    (ok = true <->
       syncBlock = true \/ ShouldSkipVSS dkg blockNumber = true \/
       (IsVSSReady dkg = true /\
        Exists (accepts toSign blsSig) (option_list (Bls dkg) ++ prevbls dkg))) /\
    (err = None <-> ok = true).
Proof.
  intros Hp. unfold ValidateBLSSig.
  destruct syncBlock; [exists true, None; intuition|].
  destruct (ShouldSkipVSS _ _); [exists true, None; intuition|].
  destruct (IsVSSReady dkg) eqn:Er; cbn [negb].
  2: { exists false, (Some "bls is not ready"). intuition congruence. }
  destruct (Bls dkg) as [b|] eqn:Eb.
  2: { unfold IsVSSReady in Er. rewrite Eb in Er. by destruct (vssEnabled dkg). }
  cbn in Hp |- *. apply Forall_cons in Hp as [[p Hpb] Hp].
  destruct (verify_prev_spec toSign blsSig _ Hp) as (okp & Ep & Hokp).
  unfold verify_with. rewrite Hpb. cbn. setoid_rewrite Exists_cons.
  destruct (bls_Verify _ _ _) as [e|] eqn:Ev.
  - rewrite Ep. cbn. destruct okp.
    + exists true, None. intuition.
    + exists false, (Some e). split; [done|]. split; [|done]. split; [done|].
      intros [?|[?|[_ [(p' & ? & ?)|?]]]]; try congruence. intuition.
  - exists true, None. split; [done|]. split; [|done]. split; [|done]. intros _.
    right; right. split; [done|]. left. exists p. done.
Qed.

Lemma ValidateBLSSig_correct_witness :
  ValidateBLSSig (w_dkg pair_active) "m" "20m" false 5 = Ret (true, None) /\
  exists ok err, ValidateBLSSig (w_dkg pair_active) "m" "21m" false 5 = Ret (ok, err) /\
    (err = None <-> ok = true).
Proof.
  split; [vm_compute; reflexivity|].
  destruct (ValidateBLSSig_correct (w_dkg pair_active) "m" "21m" false 5) as (ok & err & E & _ & He).
  - apply Forall_impl with (P := fun b => Is_true (found (GroupPublicPoly b))).
    + apply forallb_True. vm_compute. exact I.
    + intros b Hb. destruct (GroupPublicPoly b); [eauto|done].
  - exists ok, err. split; [exact E|exact He].
Defined.

(** C32. The receive loop of the signature shares processes every batch of
    well-formed messages without a panic; each group signature it caches was
    cached before or was produced by the node's BLS setting from at least a
    threshold of shares of distinct nodes, all delivered for that key. *)
Theorem HandleSigShares_sound `{Kyber} `{!BlsLib} `{MoacLib} msgs dkg :
  Forall (fun m => is_Some (sm_FromIndex m)) msgs ->
  exists dkg' all', HandleSigShares msgs dkg ∅ = Ret (dkg', all') /\
    forall k sig, AllSigs dkg' !! k = Some sig -> sig_justified msgs dkg k sig.
Proof.
  intros Hm. destruct (HandleSigShares_total msgs dkg ∅ Hm) as (dkg' & all' & E).
  exists dkg', all'. split; [done|]. apply (HandleSigShares_shares msgs [] dkg ∅ dkg' all' E).
  intros k sigs i s Hk. by rewrite lookup_empty in Hk.
Qed.

Lemma HandleSigShares_sound_witness :
  let msgs := [mkSigShareMessage "m" (Some 0) "s0"; mkSigShareMessage "m" (Some 1) "s1"] in
  exists dkg' all', HandleSigShares msgs (w_dkg pair_active) ∅ = Ret (dkg', all') /\
    AllSigs dkg' !! "m" = Some "20m" /\ sig_justified msgs (w_dkg pair_active) "m" "20m".
Proof.
  cbv zeta.
  destruct (HandleSigShares_sound [mkSigShareMessage "m" (Some 0) "s0"; mkSigShareMessage "m" (Some 1) "s1"]
              (w_dkg pair_active)) as (dkg' & all' & E & Hj).
  - repeat constructor; eauto.
  - exists dkg', all'. split; [exact E|].
    assert (Hm : AllSigs dkg' !! "m" = Some "20m"); [|split; [exact Hm|by apply Hj]].
    assert (Hv : (st ← HandleSigShares [mkSigShareMessage "m" (Some 0) "s0"; mkSigShareMessage "m" (Some 1) "s1"]
      (w_dkg pair_active) ∅; Ret (AllSigs (fst st) !! "m")) = Ret (Some "20m")) by (vm_compute; reflexivity).
    rewrite E in Hv. by injection Hv.
Defined.
