(* ===== verification/DkgTotal.v ===== *)
(** * Distributed key generation: every run of the state machine returns
    (dkg/dkg.go)

    The waits of the component poll the contract until a deadline.  Against a
    contract that answers every call, with uploads that unzip and a clock that
    advances by at least [delta] per call, all of them end: the fuel that is
    enough is the number of polls the sixty-second deadline allows. *)
From S2P Require Import Prelude GoMonad Fmt Event DkgBase DkgConfig Instances DkgProps.
Local Open Scope Z_scope.

Section total.
Context `{Kyber} `{!BlsLib} `{MoacLib}.
Context `{!MapOrder Address bytes} `{!MapOrder Address Z} `{!MapOrder Address (Share Scalar)}
  `{!MapOrder Address (list (Share Point))}.
Variables (env : nat -> VssBase) (delta : Z).

Record responsive : Prop := {
  resp_delta : 0 < delta;
  resp_clock : forall n, vb_Now (env n) + delta <= vb_Now (env (S n));
  resp_threshold : forall n, is_Some (vb_VssThreshold (env n));
  resp_index : forall n a, is_Some (vb_GetVSSNodeIndex (env n) a);
  resp_count : forall n, is_Some (vb_VssNodeCount (env n));
  resp_version : forall n, is_Some (vb_VssConfigVersion (env n));
  resp_change : forall n, is_Some (vb_LastNodeChangeConfigVersion (env n));
  resp_upload : forall n a, is_Some (vb_LastConfigUpload (env n) a);
  resp_pubkeys : forall n l, length (vb_GetVSSNodesPubkey (env n) l) = length l;
  resp_indexs : forall n l, length (vb_GetVSSNodesIndexs (env n) l) = length l;
  resp_public : forall n a, (1 < String.length (vb_GetPublicShares (env n) a))%nat ->
    is_Some (gzip_Copy (vb_GetPublicShares (env n) a));
  resp_private : forall n a, (1 < String.length (vb_GetPrivateShares (env n) a))%nat ->
    is_Some (gzip_Copy (vb_GetPrivateShares (env n) a))
}.

(** A computation that returns, from any world, without touching the node's
    state, and with a result that satisfies [Q]. *)
Definition answers {A : Type} (c : go World A) (Q : A -> Prop) : Prop :=
  forall w, exists a w', c w = Ret (a, w') /\ Q a /\ w_dkg w' = w_dkg w /\
    (w_tick w <= w_tick w')%nat.

(** A computation that returns. *)
Definition returns {A : Type} (c : go World A) (Q : A -> Prop) : Prop :=
  forall w, exists a w', c w = Ret (a, w') /\ Q a.

Abbreviation any := (fun _ => True).

Lemma answers_ret {A : Type} (a : A) (Q : A -> Prop) : Q a -> answers (mret a) Q.
Proof. intros Ha w. exists a, w. split; [reflexivity|]. split; [done|]. split; [done|]. lia. Qed.

Lemma answers_bind {A B : Type} (c : go World A) (f : A -> go World B) P Q :
  answers c P -> (forall a, P a -> answers (f a) Q) -> answers (c ≫= f) Q.
Proof.
  intros Hc Hf w. destruct (Hc w) as (a & w1 & E1 & Ha & Hd1 & Ht1).
  destruct (Hf a Ha w1) as (b & w2 & E2 & Hb & Hd2 & Ht2).
  exists b, w2. rewrite (bind_run _ _ _ _ _ E1). split_and!; [done..|congruence|lia].
Qed.

Lemma answers_mono {A : Type} (c : go World A) (P Q : A -> Prop) :
  answers c P -> (forall a, P a -> Q a) -> answers c Q.
Proof. intros Hc HPQ w. destruct (Hc w) as (a & w1 & ? & ? & ?). eauto 10. Qed.

Lemma answers_lift {A : Type} (o : outcome A) a (Q : A -> Prop) : o = Ret a -> Q a -> answers (glift o) Q.
Proof. intros -> Ha. by apply (answers_ret a). Qed.

Lemma answers_call {A : Type} (f : VssBase -> A) (Q : A -> Prop) :
  (forall n, Q (f (env n))) -> answers (call env f) Q.
Proof. intros Hq w. eexists _, _. split; [reflexivity|]. cbn. split; [done|]. split; [done|]. lia. Qed.

Lemma answers_gdkg : answers gdkg any.
Proof. intros w. exists (w_dkg w), w. done. Qed.

Lemma answers_entropy : answers gentropy any.
Proof. intros w. exists (w_tick w), w. done. Qed.

Lemma answers_uint64 (f : VssBase -> option Z) :
  (forall n, is_Some (f (env n))) -> answers (n ← call env f; glift (big_Uint64 n)) any.
Proof.
  intros Hf. apply answers_bind with (P := is_Some); [by apply answers_call|].
  intros o [z ->]. by eapply answers_lift.
Qed.

Lemma answers_for_each {A B : Type} (f : B -> A -> go World B) (I : B -> Prop) l :
  (forall acc x, I acc -> answers (f acc x) I) -> forall acc, I acc -> answers (for_each f acc l) I.
Proof.
  intros Hf. induction l as [|x l IH]; intros acc Ha; cbn.
  - by apply answers_ret.
  - eapply answers_bind; [by apply Hf|done].
Qed.

Lemma answers_for_until {A B R : Type} (f : B -> A -> go World (B + R)) l :
  (forall acc x, answers (f acc x) any) -> forall acc, answers (for_until f acc l) any.
Proof.
  intros Hf. induction l as [|x l IH]; intros acc; cbn.
  - by apply answers_ret.
  - eapply answers_bind; [by apply Hf|]. intros [a|r] _; [done|by apply answers_ret].
Qed.

Lemma returns_answers {A B : Type} (c : go World A) (f : A -> go World B) P Q :
  answers c P -> (forall a, P a -> returns (f a) Q) -> returns (c ≫= f) Q.
Proof.
  intros Hc Hf w. destruct (Hc w) as (a & w1 & E1 & Ha & _).
  destruct (Hf a Ha w1) as (b & w2 & E2 & Hb). exists b, w2. by rewrite (bind_run _ _ _ _ _ E1).
Qed.

Lemma returns_bind {A B : Type} (c : go World A) (f : A -> go World B) P Q :
  returns c P -> (forall a, P a -> returns (f a) Q) -> returns (c ≫= f) Q.
Proof.
  intros Hc Hf w. destruct (Hc w) as (a & w1 & E1 & Ha).
  destruct (Hf a Ha w1) as (b & w2 & E2 & Hb). exists b, w2. by rewrite (bind_run _ _ _ _ _ E1).
Qed.

Lemma returns_ret {A : Type} (a : A) (Q : A -> Prop) : Q a -> returns (mret a) Q.
Proof. intros Ha w. by exists a, w. Qed.

Hypothesis Hr : responsive.

(** The number of polls within the deadline. *)
Definition polls : nat := Z.to_nat (GetVSSSharesTimeout / delta).

Lemma clock_advances n k : vb_Now (env n) + Z.of_nat k * delta <= vb_Now (env (n + k)).
Proof.
  induction k as [|k IH]; [rewrite Nat.add_0_r; lia|].
  pose proof (resp_clock Hr (n + k)). rewrite Nat.add_succ_r. lia.
Qed.

Lemma deadline_passes t0 n :
  (t0 + polls + 1 <= n)%nat -> vb_Now (env t0) + GetVSSSharesTimeout < vb_Now (env n).
Proof.
  intros Hn. pose proof (clock_advances t0 (n - t0)) as Hc. pose proof (resp_delta Hr) as Hd.
  replace (t0 + (n - t0))%nat with n in Hc by lia.
  pose proof (Z.mul_succ_div_gt GetVSSSharesTimeout delta Hd).
  assert (GetVSSSharesTimeout / delta + 1 <= Z.of_nat (n - t0)); [|nia].
  assert (0 <= GetVSSSharesTimeout / delta) by (apply Z.div_pos; [done|lia]).
  unfold polls in Hn. lia.
Qed.

Hint Resolve answers_gdkg answers_entropy : core.

Lemma answers_getters :
  answers (GetVssThreshold env) any /\ answers (GetVssNodeCount env) any /\
  answers (GetVssConfigVersion env) any /\ answers (GetLastNodeChangeConfigVersion env) any /\
  answers (gnow env) any /\ (forall a, answers (GetLastConfigUpload env a) any) /\
  answers (GetVSSNodeIndex env) is_Some /\ answers (GetActiveVSSMemberList env) any.
Proof.
  split_and!; intros; try (apply answers_uint64; intros; apply Hr).
  - by apply answers_call.
  - unfold GetVSSNodeIndex. eapply answers_bind; [done|]. intros d _.
    apply answers_call. intros. apply Hr.
  - unfold GetActiveVSSMemberList. eapply answers_bind; [by apply answers_call with (Q := any)|].
    intros [l|] _; by apply answers_ret.
Qed.

Lemma answers_indexs l : answers (GetVSSNodesIndexs env l) any.
Proof.
  unfold GetVSSNodesIndexs.
  eapply answers_bind; [apply answers_call with (Q := fun ids => length ids = length l); intros; apply Hr|].
  intros ids Hl. cbn in Hl. destruct (indexs_loop_total l 0 ids ∅) as [m Hm]; [lia|]. by eapply answers_lift.
Qed.

Lemma pubkeys_loop_total l : forall i pks m n,
  (i + length l <= length pks)%nat ->
  exists m' n', pubkeys_loop i l pks m n = Ret (m', n') /\
    forall a, a ∈ l \/ is_Some (m !! a) -> is_Some (m' !! a).
Proof.
  induction l as [|a l IH]; intros i pks m n Hl; cbn in *.
  - exists m, n. split; [done|]. intros a [Ha|?]; [|done]. by apply elem_of_nil in Ha.
  - destruct (lookup_lt_is_Some_2 pks i) as [pk ->]; [lia|].
    destruct (IH (S i) pks (<[a := pk]> m)
      (if Nat.eqb (String.length pk) 32 then n + 1 else n)) as (m' & n' & E & Hm); [lia|].
    exists m', n'. split; [exact E|]. intros a' Ha. apply Hm.
    destruct (decide (a' = a)) as [->|Hne]; [right; rewrite lookup_insert_eq; eauto|].
    rewrite lookup_insert_ne by done. destruct Ha as [[?|?]%elem_of_cons|?]; [done|auto|auto].
Qed.

Lemma answers_pubkeys l :
  answers (GetVSSNodesPubkey env l) (fun r => forall a, a ∈ l -> is_Some (fst r !! a)).
Proof.
  unfold GetVSSNodesPubkey.
  eapply answers_bind; [apply answers_call with (Q := fun ids => length ids = length l); intros; apply Hr|].
  intros pks Hl. cbn in Hl. destruct (pubkeys_loop_total l 0 pks ∅ 0) as (m & n & E & Hm); [lia|].
  eapply answers_bind with (P := eq (m, n)); [by eapply answers_lift|].
  intros ? <-. cbn. destruct (n >? 0); apply answers_ret; cbn; auto.
Qed.

Lemma answers_pass endpoint l received :
  answers (GetVSSShares_pass env endpoint l received) any.
Proof.
  apply answers_for_each; [|done]. intros acc a _. destruct (found _); [by apply answers_ret|].
  eapply answers_bind with (P := fun s => (1 < String.length s)%nat -> is_Some (gzip_Copy s)).
  - case_bool_decide; apply answers_call; intros; by apply Hr.
  - intros s Hs. destruct (Nat.ltb_spec 1 (String.length s)) as [Hl|]; [|by apply answers_ret].
    destruct (Hs Hl) as [d ->]. by apply answers_ret.
Qed.

(** A poll that runs before the deadline leaves fuel for the next one. *)
Lemma poll_fuel timeout N fuel t t' :
  (forall n, (N <= n)%nat -> timeout < vb_Now (env n)) ->
  vb_Now (env t') <= timeout -> (t <= t')%nat -> (N < S fuel + t)%nat ->
  (0 < fuel)%nat /\ (N < fuel + S t')%nat.
Proof.
  intros Hn Ht' Hle Hf. destruct (decide (N <= t')%nat) as [Hge|]; [|lia].
  specialize (Hn t' Hge). lia.
Qed.

Lemma GetVSSShares_loop_answers endpoint l timeout N :
  (forall n, (N <= n)%nat -> timeout < vb_Now (env n)) ->
  forall fuel received w, (0 < fuel)%nat -> (N < fuel + w_tick w)%nat ->
  exists r w', GetVSSShares_loop env fuel endpoint l timeout received w = Ret (r, w') /\
    w_dkg w' = w_dkg w /\ (w_tick w <= w_tick w')%nat /\
    (snd r = None -> size (fst r) = length l).
Proof.
  intros Hn. induction fuel as [|fuel IH]; intros received w H0f Hf; [lia|]. cbn.
  destruct (answers_pass endpoint l received w) as (rec' & w1 & E1 & _ & Hd1 & Ht1).
  rewrite (bind_run _ _ _ _ _ E1). destruct (Nat.eqb_spec (size rec') (length l)).
  - eexists _, w1. split; [reflexivity|]. done.
  - erewrite bind_run by reflexivity. destruct (Z.gtb_spec (vb_Now (env (w_tick w1))) timeout).
    + eexists _, _. split; [reflexivity|]. cbn. split_and!; [done|lia|done].
    + destruct (poll_fuel timeout N fuel _ _ Hn ltac:(done) Ht1 Hf).
      edestruct (IH rec' (mkWorld (w_dkg w1) (S (w_tick w1)) (w_txs w1)))
        as (r & w' & E & Hd & Ht & Hs); [done|cbn; lia|].
      exists r, w'. split; [exact E|]. cbn in Hd, Ht. split_and!; [congruence|lia|done].
Qed.

Lemma GetVSSShares_answers fuel endpoint l :
  (polls < fuel)%nat ->
  answers (GetVSSShares env fuel endpoint l) (fun r => snd r = None -> size (fst r) = length l).
Proof.
  intros Hf w. unfold GetVSSShares. erewrite bind_run by reflexivity.
  edestruct (GetVSSShares_loop_answers endpoint l
    (vb_Now (env (w_tick w)) + GetVSSSharesTimeout) (w_tick w + polls + 1)
    (fun n => deadline_passes (w_tick w) n) fuel ∅
    (mkWorld (w_dkg w) (S (w_tick w)) (w_txs w))) as (r & w' & E & Hd & Ht & Hs); [lia|cbn; lia|].
  exists r, w'. cbn in Hd, Ht. split_and!; [done|done|done|lia].
Qed.

Lemma GetVSSShares_loop_dom fuel endpoint l timeout : forall received w r w',
  dom received ⊆@{gset Z} list_to_set l ->
  GetVSSShares_loop env fuel endpoint l timeout received w = Ret (r, w') ->
  dom (fst r) ⊆@{gset Z} list_to_set l.
Proof.
  induction fuel as [|fuel IH]; intros received w r w' Hd E; cbn in E; [done|].
  go_inv E. pose proof (GetVSSShares_pass_dom _ _ _ _ _ _ _ E0 Hd) as Hd'.
  destruct (Nat.eqb _ _); [by injection E as <- <-|].
  go_inv E. destruct (_ >? _); [by injection E as <- <-|]. by eapply IH.
Qed.

Lemma GetVSSShares_known fuel endpoint l w received w' :
  GetVSSShares env fuel endpoint l w = Ret (received, w') ->
  forall x, x ∈ range (fst received) -> fst x ∈ l.
Proof.
  unfold GetVSSShares. intros E [a d] Hx%elem_of_range. go_inv E.
  apply GetVSSShares_loop_dom in E; [|by rewrite dom_empty_L].
  apply (elem_of_list_to_set (C := gset Z)), E, elem_of_dom. eauto.
Qed.

Lemma answers_count v l : answers (count_upto_date env v l) any.
Proof.
  apply answers_for_each; [|done]. intros [b n] a _.
  eapply answers_bind; [apply answers_getters|]. intros u _. destruct (_ <? _); by apply answers_ret.
Qed.

Lemma shouldUpdate_loop_answers l timeout N :
  (forall n, (N <= n)%nat -> timeout < vb_Now (env n)) ->
  forall fuel w, (0 < fuel)%nat -> (N < fuel + w_tick w)%nat ->
  exists r w', shouldUpdate_loop env fuel l timeout w = Ret (r, w') /\
    w_dkg w' = w_dkg w /\ (w_tick w <= w_tick w')%nat.
Proof.
  intros Hn. induction fuel as [|fuel IH]; intros w H0f Hf; [lia|]. cbn.
  destruct answers_getters as (At & _ & _ & Ac & _).
  destruct (Ac w) as (v & w1 & E1 & _ & Hd1 & Ht1). rewrite (bind_run _ _ _ _ _ E1).
  destruct (At w1) as (th & w2 & E2 & _ & Hd2 & Ht2). rewrite (bind_run _ _ _ _ _ E2).
  destruct (answers_count v l w2) as ([up cnt] & w3 & E3 & _ & Hd3 & Ht3).
  rewrite (bind_run _ _ _ _ _ E3). cbn [fst snd]. destruct up.
  - eexists _, w3. split; [reflexivity|]. split; [congruence|lia].
  - erewrite bind_run by reflexivity. destruct (Z.gtb_spec (vb_Now (env (w_tick w3))) timeout).
    + eexists _, _. split; [reflexivity|]. cbn. split; [congruence|lia].
    + destruct (poll_fuel timeout N fuel (w_tick w) (w_tick w3) Hn ltac:(done) ltac:(lia) Hf).
      edestruct (IH (mkWorld (w_dkg w3) (S (w_tick w3)) (w_txs w3)))
        as (r & w' & E & Hd & Ht); [done|cbn; lia|].
      exists r, w'. split; [exact E|]. cbn in Hd, Ht. split; [congruence|lia].
Qed.

Lemma shouldUpdate_answers fuel v l :
  (polls < fuel)%nat -> answers (shouldUpdateVSSConfig env fuel v l) any.
Proof.
  intros Hf. unfold shouldUpdateVSSConfig. eapply answers_bind; [done|]. intros d _.
  destruct (_ <? _); [|by apply answers_ret].
  intros w. erewrite bind_run by reflexivity.
  edestruct (shouldUpdate_loop_answers l (vb_Now (env (w_tick w)) + GetVSSSharesTimeout)
    (w_tick w + polls + 1) (fun n => deadline_passes (w_tick w) n) fuel
    (mkWorld (w_dkg w) (S (w_tick w)) (w_txs w))) as (r & w' & E & Hd & Ht); [lia|cbn; lia|].
  exists r, w'. cbn in Hd, Ht. split_and!; [done|done|done|lia].
Qed.

(** The verdicts of [UpdateVSSConfig]. *)
Definition verdict (r : Z) : Prop :=
  r ∈ [VssConfigVote; VssConfigReveal; VssConfigRecheck; VssConfigOmit].

Lemma is_verdict :
  verdict VssConfigVote /\ verdict VssConfigReveal /\ verdict VssConfigRecheck /\ verdict VssConfigOmit.
Proof. unfold verdict. rewrite !elem_of_cons. tauto. Qed.

Lemma conclude_returns v l b pub pri : dec_all pub <> [] -> returns (conclude env v l b pub pri) verdict.
Proof.
  intros Hne. destruct is_verdict as (Hv1 & Hv2 & Hv3 & _). unfold conclude. destruct (Nat.ltb _ _).
  - eapply returns_answers; [apply answers_indexs|]. intros m _ w.
    eexists _, _. by rewrite (bind_run _ _ _ _ _ (reveal_all_run _ _ _ _)).
  - destruct (dec_all pub) as [|ps rest]; [done|].
    destruct (recover b ps) as [p|]; [|by apply returns_ret].
    destruct (combine_polys b p rest); [|by apply returns_ret].
    destruct (Point_Equal _ _); [|by apply returns_ret].
    intros w. eexists _, _. split; [reflexivity|done].
Qed.

Lemma download_returns fuel v l b w :
  (polls < fuel)%nat -> l <> [] -> (forall a, a ∈ l -> is_Some (nodesPubkey (w_dkg w) !! a)) ->
  exists r w', download env fuel v l b w = Ret (r, w') /\ verdict r.
Proof.
  intros Hf Hl Hk. destruct answers_getters as (_ & _ & _ & _ & _ & Au & _).
  destruct is_verdict as (_ & _ & Hv3 & _). unfold download.
  assert (Ab : answers (uploads_before env l) any).
  { apply answers_for_each; [|done]. intros acc a _. eapply answers_bind; [apply Au|].
    intros n _. by apply answers_ret. }
  destruct (Ab w) as (bef & w1 & E1 & _ & Hd1 & _). rewrite (bind_run _ _ _ _ _ E1).
  destruct (GetVSSShares_answers fuel "getPublicShares" l Hf w1) as (pubr & w2 & E2 & Hs2 & Hd2 & _).
  rewrite (bind_run _ _ _ _ _ E2). destruct (snd pubr) eqn:Ep; [by eexists _, _|].
  erewrite bind_run by reflexivity.
  destruct (GetVSSShares_answers fuel "getPrivateShares" l Hf w2) as (prir & w3 & E3 & _ & Hd3 & _).
  rewrite (bind_run _ _ _ _ _ E3). destruct (snd prir); [by eexists _, _|].
  assert (Ac : answers (uploads_unchanged env bef l) any).
  { unfold uploads_unchanged. eapply answers_bind.
    - apply answers_for_until. intros acc a. eapply answers_bind; [apply Au|].
      intros n _. destruct (_ =? _); by apply answers_ret.
    - intros [|] _; by apply answers_ret. }
  destruct (Ac w3) as (same & w4 & E4 & _ & Hd4 & _). rewrite (bind_run _ _ _ _ _ E4).
  destruct same; [|by eexists _, _]. cbn [negb]. erewrite bind_run by reflexivity.
  apply conclude_returns.
  assert (Hk2 : Forall (fun x => is_Some (nodesPubkey (w_dkg w2) !! fst x)) (range (fst pubr))).
  { apply Forall_forall. intros x Hx. rewrite Hd2, Hd1. apply Hk.
    exact (GetVSSShares_known _ _ _ _ _ _ E2 x Hx). }
  rewrite (proj1 (decode_shares_known UnmarshalPublicShares _ _ Hk2)).
  intros E%fmap_nil_inv. apply (f_equal length) in E. rewrite length_range, Hs2 in E by done.
  by destruct l.
Qed.

Lemma UpdateVSSConfig_returns fuel : (polls < fuel)%nat -> returns (UpdateVSSConfig env fuel) verdict.
Proof.
  intros Hf. destruct answers_getters as (At & An & Av & _ & _ & _ & Ai & Al).
  destruct is_verdict as (_ & _ & Hv3 & Hv4). unfold UpdateVSSConfig.
  eapply returns_answers; [apply Av|]. intros v _.
  eapply returns_answers; [apply Al|]. intros [l err] _. cbn [fst snd].
  eapply returns_bind with (P := any); [intros w; eexists _, _; split; reflexivity|]. intros _ _.
  eapply returns_answers; [apply answers_indexs|]. intros a2i _.
  eapply returns_bind with (P := any); [intros w; eexists _, _; split; reflexivity|]. intros _ _.
  destruct err; [by apply returns_ret|].
  eapply returns_answers; [by apply shouldUpdate_answers|]. intros [] _; [|by apply returns_ret].
  cbn [negb]. eapply returns_answers; [apply At|]. intros th _.
  eapply returns_answers; [apply Ai|]. intros o [ix ->].
  eapply returns_answers; [apply An|]. intros cnt _.
  eapply returns_answers; [apply answers_gdkg|]. intros d _.
  destruct (IsNodeActive d l) eqn:Ea; [|by apply returns_ret]. cbn [negb].
  assert (Hl : l <> []) by (intros ->; done).
  eapply returns_answers; [apply answers_pubkeys|]. intros pk Hpk w.
  erewrite bind_run by reflexivity. destruct (_ <? _); [by eexists _, _|].
  erewrite bind_run by reflexivity. erewrite bind_run by reflexivity. by apply download_returns.
Qed.

End total.

Arguments responsive {_} _ _.

(** C35. The state machine always finishes: against a contract that answers
    every call, with uploads that unzip and a clock that advances by at least
    [delta] per call, each run returns, with any fuel above the number of
    polls the deadline allows, from any state of the node.  There is no panic
    and no endless wait. *)
Theorem RunVssStateMachine_returns `{Kyber} `{!BlsLib} `{MoacLib}
    `{!MapOrder Address bytes} `{!MapOrder Address Z} `{!MapOrder Address (Share Scalar)}
    `{!MapOrder Address (list (Share Point))}
    (env : nat -> VssBase) (delta : Z) fuel w :
  responsive env delta -> (polls delta < fuel)%nat ->
  exists w', RunVssStateMachine env fuel w = Ret (tt, w').
Proof.
  intros Hr Hf.
  assert (G : returns (RunVssStateMachine env fuel) (fun _ => True)); [|destruct (G w) as ([] & ? & ? & _); eauto].
  unfold RunVssStateMachine.
  eapply returns_answers; [apply (answers_getters env delta Hr)|]. intros v _.
  eapply returns_answers; [apply answers_gdkg|]. intros d _. destruct (negb _).
  - eapply returns_bind; [by eapply UpdateVSSConfig_returns|]. intros r _.
    destruct (negb _); intros w1; eexists _, _; split; reflexivity.
  - eapply returns_answers; [by apply answers_call with (Q := fun _ => True)|].
    intros [] _ w1; eexists _, _; split; reflexivity.
Qed.

(** Waiting for the shares of the active nodes ends before the deadline's
    last poll, and its answer is complete: either the shares of exactly the
    active nodes, or an error naming exactly the active nodes whose shares are
    missing, of which there is at least one. *)
Theorem GetVSSShares_complete `{Kyber} `{!BlsLib} `{MoacLib}
    (env : nat -> VssBase) (delta : Z) fuel endpoint l w :
  responsive env delta -> (polls delta < fuel)%nat -> NoDup l ->
  exists received err w', GetVSSShares env fuel endpoint l w = Ret ((received, err), w') /\
    match err with
    | None => forall a, a ∈ l <-> is_Some (received !! a)
    | Some missing =>
        missing <> [] /\ forall a, a ∈ missing <-> a ∈ l /\ received !! a = None
    end.
Proof.
  intros Hr Hf Hnd.
  destruct (GetVSSShares_answers env delta Hr fuel endpoint l Hf w) as ([rec err] & w' & E & _).
  exists rec, err, w'. split; [exact E|]. unfold GetVSSShares in E. go_inv E.
  by apply (GetVSSShares_loop_complete _ _ _ _ _ _ _ _ _ Hnd) in E; [|rewrite dom_empty_L].
Qed.

Lemma pair_responsive : responsive pair_env second.
Proof. split; intros; unfold pair_env, second; cbn; try done; try lia; try (by rewrite length_fmap). all: eauto. Qed.

Lemma RunVssStateMachine_returns_witness :
  exists w', RunVssStateMachine pair_env 62 pair_world = Ret (tt, w').
Proof.
  apply (RunVssStateMachine_returns pair_env second 62 pair_world pair_responsive).
  vm_compute. lia.
Defined.

Lemma GetVSSShares_complete_witness :
  exists received err w',
    GetVSSShares pair_env 62 "getPublicShares" [11; 12; 13] pair_world = Ret ((received, err), w') /\
    match err with
    | None => forall a, a ∈ [11; 12; 13] <-> is_Some (received !! a)
    | Some missing =>
        missing <> [] /\ forall a, a ∈ missing <-> a ∈ [11; 12; 13] /\ received !! a = None
    end.
Proof.
  apply (GetVSSShares_complete pair_env second 62 "getPublicShares" [11; 12; 13] pair_world pair_responsive).
  - vm_compute. lia.
  - apply NoDup_ListNoDup. repeat constructor; cbn; intuition discriminate.
Defined.
