(* ===== verification/DkgUpload.v ===== *)
(** * Distributed key generation: uploads and public keys (dkg/dkg.go)

    What a node uploads, when it uploads, and what the table of public keys
    reports. *)
From S2P Require Import Prelude GoMonad Fmt Event DkgBase DkgConfig Instances DkgProps DkgTotal.
Local Open Scope Z_scope.

Section uploaded.
Context {V : Type}.
Implicit Types (shares : list (Share V)) (l : list (Address * Z)).

Lemma active_inner i shares : forall acc,
  foldl (fun acc ps => if share_I ps =? i then acc ++ [ps] else acc) acc shares =
  acc ++ filter (fun s => share_I s = i) shares.
Proof.
  induction shares as [|s shares IH]; intros acc; [by rewrite app_nil_r|].
  rewrite filter_cons. cbn [foldl]. rewrite IH.
  destruct (Z.eqb_spec (share_I s) i); case_decide; try done. by rewrite <- app_assoc.
Qed.

Lemma active_shares_concat l shares :
  active_shares l shares = concat ((fun x => filter (fun s => share_I s = snd x) shares) <$> l).
Proof.
  unfold active_shares.
  assert (G : forall acc, foldl (fun acc '(_, nodeIndex) =>
      foldl (fun acc ps => if share_I ps =? nodeIndex then acc ++ [ps] else acc) acc shares) acc l =
    acc ++ concat ((fun x => filter (fun s => share_I s = snd x) shares) <$> l)); [|apply (G [])].
  induction l as [|[a i] l IH]; intros acc; cbn [foldl fmap list_fmap concat]; [by rewrite app_nil_r|].
  by rewrite active_inner, IH, app_assoc.
Qed.

Lemma filter_index_one i shares :
  NoDup (share_I <$> shares) -> i ∈ share_I <$> shares ->
  length (filter (fun s => share_I s = i) shares) = 1%nat.
Proof.
  induction shares as [|s shares IH]; intros Hnd Hi; [by apply elem_of_nil in Hi|].
  apply NoDup_cons in Hnd as [Hs Hnd]. rewrite filter_cons.
  apply elem_of_cons in Hi as [->|Hi]; case_decide as Hd; cbn; try done.
  - assert (filter (fun s' => share_I s' = share_I s) shares = []) as ->; [|done].
    apply elem_of_nil_inv. intros s' [E Hin]%list_elem_of_filter. apply Hs, list_elem_of_fmap. eauto.
  - exfalso. apply Hs. cbn in Hd. by rewrite Hd.
  - by apply IH.
Qed.

Lemma active_shares_length l shares :
  NoDup (share_I <$> shares) -> Forall (fun x => snd x ∈ share_I <$> shares) l ->
  length (active_shares l shares) = length l.
Proof.
  intros Hnd Hl. rewrite active_shares_concat.
  induction Hl as [|x l Hx _ IH]; cbn; [done|]. by rewrite length_app, filter_index_one, IH.
Qed.

End uploaded.

(** The bundle of shares a node uploads has one entry per node of the
    contract: exactly the shares of the active nodes, in some order, then
    padding of index -1. *)
Theorem upload_bundle_complete {V : Type} `{!MapOrder Address Z} (empty : V)
    (activeNodeAddressAndIndex : gmap Address Z) (shares : list (Share V)) (n totalN : Z) :
  NoDup (share_I <$> shares) ->
  (forall a i, activeNodeAddressAndIndex !! a = Some i -> i ∈ share_I <$> shares) ->
  n = Z.of_nat (size activeNodeAddressAndIndex) -> n <= totalN ->
  let active := active_shares (range activeNodeAddressAndIndex) shares in
  Z.of_nat (length (padded_shares empty n totalN active)) = totalN /\
  (forall s, s ∈ active <-> s ∈ shares /\ exists a, activeNodeAddressAndIndex !! a = Some (share_I s)) /\
  forall s, s ∈ padded_shares empty n totalN active -> s ∈ active \/ s = mkShare (-1) empty.
Proof.
  intros Hnd Hidx Hn Htot. cbn zeta. split_and!.
  - unfold padded_shares. rewrite length_app, length_replicate, active_shares_length, length_range; try done.
    + lia.
    + apply Forall_forall. intros [a i] Hin%elem_of_range. eauto.
  - intros s. rewrite active_shares_concat, list_elem_of_In, in_concat.
    setoid_rewrite <- list_elem_of_In. split.
    + intros (k & ([a i] & -> & Hin%elem_of_range)%list_elem_of_fmap & [E Hs]%list_elem_of_filter).
      cbn in E. subst i. eauto.
    + intros [Hs [a Ha]]. exists (filter (fun s' => share_I s' = share_I s) shares).
      split; [|by apply list_elem_of_filter].
      apply list_elem_of_fmap. exists (a, share_I s). split; [done|]. by apply elem_of_range.
  - intros s [?|Hs]%elem_of_app; [auto|]. right. by apply elem_of_replicate in Hs as [-> _].
Qed.

Lemma upload_bundle_complete_witness :
  let active := active_shares (range (<[11 := 0]> (<[12 := 2]> ∅) : gmap Address Z))
                  [mkShare 0 10; mkShare 1 11; mkShare 2 12] in
  Z.of_nat (length (padded_shares 0 2 5 active)) = 5 /\
  forall s, s ∈ padded_shares 0 2 5 active -> s ∈ active \/ s = mkShare (-1) 0.
Proof.
  cbv zeta.
  destruct (upload_bundle_complete 0 (<[11 := 0]> (<[12 := 2]> ∅))
    [mkShare 0 10; mkShare 1 11; mkShare 2 12] 2 5) as (H1 & _ & H3).
  - apply NoDup_ListNoDup. repeat constructor; cbn; intuition discriminate.
  - intros a i. rewrite !lookup_insert_Some, lookup_empty. cbn.
    intros [[_ <-]|[_ [[_ <-]|[_ ?]]]]; [left|right; right; left|discriminate].
  - reflexivity.
  - lia.
  - split; [exact H1|exact H3].
Defined.

(** Within two minutes of its last upload a node uploads nothing unless it
    is forced to: the run returns, no transaction is sent and the time of the
    last upload stays. *)
Theorem UploadVSSConfig_rate_limited `{Kyber} `{!BlsLib} `{MoacLib}
    `{!MapOrder Address bytes} `{!MapOrder Address Z}
    (env : nat -> VssBase) (delta : Z) w :
  responsive env delta ->
  (forall n, (n <= w_tick w + 2)%nat ->
     vb_Now (env n) < uploadedConfigTime (w_dkg w) + MaxConfigUploadTimeoutInSeconds) ->
  exists r w', UploadVSSConfig env false w = Ret (r, w') /\ w_txs w' = w_txs w /\
    uploadedConfigTime (w_dkg w') = uploadedConfigTime (w_dkg w).
Proof.
  intros Hr Hnow. unfold UploadVSSConfig, GetActiveVSSMemberList.
  assert (El : exists l err, (r ← call env vb_GetActiveVSSMemberList;
      match r with Ok l => mret (l, false) | Err => mret ([], true) end) w =
    Ret ((l, err), mkWorld (w_dkg w) (S (w_tick w)) (w_txs w))).
  { erewrite bind_run by reflexivity. destruct (vb_GetActiveVSSMemberList _); by eexists _, _. }
  destruct El as (l & err & El). rewrite (bind_run _ _ _ _ _ El). cbn [fst snd].
  erewrite bind_run by reflexivity. destruct err; [by eexists _, _|].
  destruct (resp_threshold _ _ Hr (S (w_tick w))) as [th Hth].
  erewrite bind_run; [|unfold GetVssThreshold; erewrite bind_run by reflexivity; cbn; rewrite Hth; reflexivity].
  assert (Es : exists why w', ShouldUploadVSSConfig env l (i64 (u64 (Z.abs th))) false
      (mkWorld (with_NodeList l (w_dkg w)) (S (S (w_tick w))) (w_txs w)) = Ret ((false, why), w') /\
      w_txs w' = w_txs w /\ w_dkg w' = with_NodeList l (w_dkg w)).
  { unfold ShouldUploadVSSConfig. erewrite bind_run by reflexivity. cbn [w_dkg].
    destruct (IsNodeActive _ _); [|by eexists _, _]. cbn [negb]. erewrite bind_run by reflexivity.
    cbn [w_tick w_dkg uploadedConfigTime with_NodeList].
    specialize (Hnow (S (S (w_tick w))) ltac:(lia)). apply Z.ltb_lt in Hnow. rewrite Hnow.
    by eexists _, _. }
  destruct Es as (why & w' & Es & Ht & Hd). rewrite (bind_run _ _ _ _ _ Es). cbn [fst negb].
  eexists _, w'. split; [reflexivity|]. by rewrite Hd.
Qed.

Definition pair_uploaded : World :=
  mkWorld (with_uploadedConfigTime (5 * second) (w_dkg pair_world)) 10 [].

Lemma UploadVSSConfig_rate_limited_witness :
  exists r w', UploadVSSConfig pair_env false pair_uploaded = Ret (r, w') /\ w_txs w' = [] /\
    uploadedConfigTime (w_dkg w') = 5 * second.
Proof.
  apply (UploadVSSConfig_rate_limited pair_env second pair_uploaded pair_responsive).
  intros n Hn. change (w_tick pair_uploaded) with 10%nat in Hn.
  change (Z.of_nat n * second < 5 * second + 120 * second). unfold second. lia.
Defined.

(** [GetVSSNodesPubkey] always reports an error for a non-empty node list:
    it counts as empty every key of 32 bytes, which is the length of all of
    them. *)
Theorem GetVSSNodesPubkey_always_errs `{Kyber} `{!BlsLib} `{MoacLib} (env : nat -> VssBase) l w :
  l <> [] ->
  length (vb_GetVSSNodesPubkey (env (w_tick w)) l) = length l ->
  Forall (fun pk => String.length pk = 32%nat) (vb_GetVSSNodesPubkey (env (w_tick w)) l) ->
  exists keys w', GetVSSNodesPubkey env l w =
    Ret ((keys, Some "empty pub key in for active node."), w').
Proof.
  intros Hl Hlen H32.
  destruct (pubkeys_loop_count l 0 _ ∅ 0 H32) as [m Hm]; [lia|].
  unfold GetVSSNodesPubkey. erewrite bind_run by reflexivity.
  rewrite Hm. erewrite bind_run by reflexivity. cbn [snd].
  destruct (Z.gtb_spec (0 + Z.of_nat (length l)) 0); [by eexists _, _|]. destruct l; [done|cbn in *; lia].
Qed.

(** A contract with full-length keys. *)
Definition full_env (n : nat) : VssBase :=
  mkVssBase (Some 2) (fun _ => Some 0) (fun _ => false) (fun l => (fun a => be_bytes 32 a) <$> l)
    (fun _ => Some 1) (fun l => l) (Ok [11; 12]) (fun _ => Some 0) (fun _ => Some 1) (Some 2) (Some 1)
    (Some 0) (Some 1) (Some 0) (Some 5) (fun _ => "") (fun _ => "") (fun _ => Err) 7 (Z.of_nat n).

Lemma GetVSSNodesPubkey_always_errs_witness :
  exists keys w', GetVSSNodesPubkey full_env [11; 12] pair_world =
    Ret ((keys, Some "empty pub key in for active node."), w').
Proof.
  apply (GetVSSNodesPubkey_always_errs full_env [11; 12] pair_world).
  - discriminate.
  - reflexivity.
  - repeat constructor.
Defined.
