(* ===== verification/Sentinel.v ===== *)
(** * The sentinel (sentinel/sentinel.go)

    The shared state of the cross-chain component: the vault events received
    with their signatures, the statistics of remote calls, the configuration
    and the loop that starts the worker goroutines of a configuration.  What it
    needs of the distributed key generation is the interface [Committee]. *)
From S2P Require Import Prelude GoMonad Fmt Sha256 Event DkgBase Bind.
Local Open Scope Z_scope.

(** ** What the sentinel relies on from the key generation

    [Locate] is the index of this node among the active nodes and their number;
    the index is -1 when the node is not among them.  [CommitteeSign] signs
    with the node's share and dereferences the BLS setting. *)
Class Committee (W : Type) := {
  CommitteeReady : W -> bool;
  CommitteeThreshold : W -> Z;
  CommitteeSign : W -> bytes -> outcome bytes;
  Locate : go W (Z * Z);
  Locate_range : forall w r w', Locate w = Ret (r, w') -> fst r = -1 \/ 0 <= fst r < snd r;
  Sign_ready : forall w data, CommitteeReady w = true -> exists sig, CommitteeSign w data = Ret sig
}.

(** ** State *)
Record VaultEventsBatch := mkVaultEventsBatch {
  Batch : gmap Hash bool;
  batch_Vault : Address;
  batch_Start : Z;
  batch_End : Z
}.

Record Sentinel := mkSentinel {
  vaultsConfig : VaultPairListConfig;
  configVersion : Z;
  batchNumber : Z;
  VaultEventsSigs : gmap Hash (gset string);
  VaultEvents : gmap Hash VaultEventWithSig;
  RpcCallPerClient : gmap string (gmap string Z);
  workerStatus : gmap string Z
}.

(** The state [New] builds. *)
Definition sentinel_initial (config : VaultPairListConfig) : Sentinel :=
  mkSentinel config 0 0 ∅ ∅ ∅ ∅.

(** [New], up to the start of its goroutines; [initXconfig] says whether the
    client and the binding of the configuration contract could be made. *)
Definition Sentinel_New (initXconfig : bool) (config : VaultPairListConfig) : outcome Sentinel :=
  if negb initXconfig then Panic else Ret (sentinel_initial config).

(** ** Event types and contexts (sentinel/xdefi.go) *)
Definition DEPOSIT : Z := 10.
Definition BURN : Z := 11.

Record XdefiContextConfig := mkXdefiContextConfig {
  XChainId : Z;
  XChainFuncPrefix : string;
  XChainRPC : string;
  XChainWS : string;
  YChainId : Z;
  YChainFuncPrefix : string;
  YChainRPC : string;
  YChainWS : string;
  VaultXAddr : Address;
  VaultYAddr : Address;
  ctx_ConfigVersion : Z
}.

(** The goroutines the sentinel starts, each with the configuration and the
    event type of its context. *)
Inductive Worker : Type :=
| WScan (cfg : XdefiContextConfig) (eventType : Z)
| WQueue (cfg : XdefiContextConfig) (eventType : Z)
| WPending (cfg : XdefiContextConfig) (eventType : Z)
| WMint (cfg : XdefiContextConfig) (eventType : Z) (tm : TokenMapping)
| WReject (cfg : XdefiContextConfig) (eventType : Z) (tm : TokenMapping)
| WStatus (cfg : XdefiContextConfig) (eventType : Z) (tm : TokenMapping).

Section sentinel.
Context `{MoacLib} {W : Type} `{!Committee W}.

Definition Sentinel_Threshold (w : W) : Z :=
  if CommitteeReady w then CommitteeThreshold w else 0.

Definition with_RpcCall (m : gmap string (gmap string Z)) (s : Sentinel) : Sentinel :=
  mkSentinel (vaultsConfig s) (configVersion s) (batchNumber s) (VaultEventsSigs s) (VaultEvents s) m (workerStatus s).

Definition LogRpcStat (client method : string) (s : Sentinel) : Sentinel :=
  match RpcCallPerClient s !! client with
  | Some clientStat =>
      with_RpcCall
        (<[client := <[method := i64 (default 0 (clientStat !! method) + 1)]> clientStat]>
           (RpcCallPerClient s)) s
  | None =>
      let clientStat := <[method := i64 (0 + 1)]> ∅ in
      with_RpcCall (<[client := clientStat]> (RpcCallPerClient s)) s
  end.

(** [PrintRpcStat]: the lines it logs, one per method and a total per client. *)
Definition PrintRpcStat `{!MapOrder string (gmap string Z)} `{!MapOrder string Z} (s : Sentinel)
    : list (string * list (string * Z) * Z) :=
  (fun '(client, clientStat) =>
     (client, range clientStat,
      foldl (fun allCount '(_, count) => i64 (allCount + count)) 0 (range clientStat)))
    <$> range (RpcCallPerClient s).

(** [getTransactor]: [None] when the chain id could not be read; [keyAddr] and
    [sign] stand for the sentinel's key. *)
Definition getTransactor (keyAddr : Address) (sign : Z -> RawTx -> result RawTx)
    (chainId : result Z) (gasPrice gasLimit : Z) (s : Sentinel) : option TransactOpts * Sentinel :=
  match chainId with
  | Err => (None, s)
  | Ok id =>
      let s' := LogRpcStat "vault" "ChainID" s in
      match NewKeyedTransactorWithChainID keyAddr sign (Some id) with
      | inr _ => (None, s')
      | inl t =>
          (Some (mkTransactOpts (From t) (opt_Nonce t) (Signer t) (Value t) (Some gasPrice)
                   (u64 gasLimit) (NoSend t)), s')
      end
  end.

(** The first signature of an event is recorded in hexadecimal, the later ones
    as they are. *)
Definition ProcessVaultEventWithSig (e : VaultEventWithSig) (s : Sentinel) : Hash * Sentinel :=
  let vaultEventHash := VaultEvent_Hash (Event e) in
  let received :=
    match VaultEventsSigs s !! vaultEventHash with
    | Some received => {[ Blssig e ]} ∪ received
    | None => {[ hex (Blssig e) ]}
    end in
  (vaultEventHash,
   mkSentinel (vaultsConfig s) (configVersion s) (batchNumber s)
     (<[vaultEventHash := received]> (VaultEventsSigs s))
     (<[vaultEventHash := e]> (VaultEvents s)) (RpcCallPerClient s) (workerStatus s)).

Definition myTurn (number : Z) : go W bool :=
  r ← Locate;
  let '(nodeIndex, nodeCount) := (r : Z * Z) in
  if nodeIndex =? -1 then mret false
  else if u64 nodeCount =? 0 then gpanic
  else mret (number mod u64 nodeCount =? u64 nodeIndex).

Definition with_workerStatus (m : gmap string Z) (s : Sentinel) : Sentinel :=
  mkSentinel (vaultsConfig s) (configVersion s) (batchNumber s) (VaultEventsSigs s) (VaultEvents s)
    (RpcCallPerClient s) m.

Definition addWorker (worker : string) (s : Sentinel) : Sentinel :=
  with_workerStatus
    (<[worker := i64 (default 0 (workerStatus s !! worker) + 1)]> (workerStatus s)) s.

Definition reduceWorker (worker : string) (s : Sentinel) : Sentinel :=
  with_workerStatus
    (<[worker := i64 (default 0 (workerStatus s !! worker) - 1)]> (workerStatus s)) s.

(** ** Configuration reload

    One tick of [ReloadConfigLoop]: the answers of the two contract calls; the
    JSON decoder is an argument.  The version is sent on the feed whenever the
    calls and the decoding succeed. *)
Section reload.
Variable json_Unmarshal : bytes -> result VaultPairListConfig.

Definition ReloadConfig (version : result Z) (configs : Z -> result bytes) (s : Sentinel)
    : Sentinel * option Z :=
  match version with
  | Err => (s, None)
  | Ok v =>
      match configs v with
      | Err => (s, None)
      | Ok newConfigBytes =>
          match json_Unmarshal newConfigBytes with
          | Err => (s, None)
          | Ok newConfig =>
              let v64 := u64 (Z.abs v) in
              let s' :=
                if v64 >? configVersion s
                then mkSentinel newConfig v64 (batchNumber s) (VaultEventsSigs s) (VaultEvents s)
                       (RpcCallPerClient s) (workerStatus s)
                else s in
              (s', Some v64)
          end
      end
  end.

End reload.

(** ** Workers of a configuration

    [prepareCommonContext]: the context is nil unless its clients and
    contracts are ready; [IsReady] stands for the initialization of a new
    context, which panics on a wrong chain id ([context_ready] of Xdefi). *)
Definition prepareCommonContext (IsReady : XdefiContextConfig -> Z -> outcome bool)
    (vaultx vaulty : VaultConfig) (version eventType : Z)
    : outcome (option (XdefiContextConfig * Z)) :=
  let cfg :=
    mkXdefiContextConfig (ChainId vaultx) (ChainFuncPrefix vaultx) (ChainRPC vaultx) (ChainWS vaultx)
      (ChainId vaulty) (ChainFuncPrefix vaulty) (ChainRPC vaulty) (ChainWS vaulty)
      (HexToAddress (VaultAddress vaultx)) (HexToAddress (VaultAddress vaulty)) version in
  ready ← IsReady cfg eventType;
  if ready : bool then Ret (Some (cfg, eventType)) else Ret None.

(** The goroutines of one direction: scan, queue, pending, and three per token
    mapping. *)
Definition direction_workers (ctx : XdefiContextConfig * Z) (tms : list TokenMapping) : list Worker :=
  let '(cfg, ty) := ctx in
  [WScan cfg ty; WQueue cfg ty; WPending cfg ty] ++
  concat ((fun tm => [WMint cfg ty tm; WReject cfg ty tm; WStatus cfg ty tm]) <$> tms).

(** The goroutines of one vault pair; a nil context is dereferenced. *)
Definition pair_workers (IsReady : XdefiContextConfig -> Z -> outcome bool) (version : Z)
    (p : VaultPairConfig) : outcome (list Worker) :=
  xdefiContextXY ← prepareCommonContext IsReady (VaultX p) (VaultY p) version DEPOSIT;
  xdefiContextYX ← prepareCommonContext IsReady (VaultX p) (VaultY p) version BURN;
  match xdefiContextXY, xdefiContextYX with
  | Some xy, Some yx =>
      if (snd xy =? DEPOSIT) && (snd yx =? BURN)
      then Ret (direction_workers xy (TokenMappings p) ++ direction_workers yx (TokenMappings p))
      else Panic
  | _, _ => Panic
  end.

Fixpoint config_workers (IsReady : XdefiContextConfig -> Z -> outcome bool) (version : Z)
    (pairs : list VaultPairConfig) : outcome (list Worker) :=
  match pairs with
  | [] => Ret []
  | p :: pairs' =>
      ws ← pair_workers IsReady version p;
      ws' ← config_workers IsReady version pairs';
      Ret (ws ++ ws')
  end.

(** [for i := 0; i < len(newConfigChan); i++ { newConfigVersion = <-newConfigChan }]:
    the length shrinks as the counter grows. *)
Fixpoint drain (i : nat) (version : Z) (chan : list Z) : Z * list Z :=
  match chan with
  | [] => (version, [])
  | v :: chan' =>
      if Nat.ltb i (length chan) then drain (S i) v chan' else (version, chan)
  end.

(** The local state of [startWatchersAndForwarders], its channel, and the
    goroutines it started with the version they were started for. *)
Record Watcher := mkWatcher {
  w_current : Z;
  w_chan : list Z;
  w_started : list (Z * list Worker)
}.

(** One round of the loop, when the channel holds a version. *)
Definition watch_round (IsReady : XdefiContextConfig -> Z -> outcome bool) (s : Sentinel) (wt : Watcher)
    : outcome Watcher :=
  match w_chan wt with
  | [] => Ret wt
  | v :: chan =>
      let '(newConfigVersion, chan') := drain 0 v chan in
      if configVersion s <=? w_current wt
      then Ret (mkWatcher (w_current wt) chan' (w_started wt))
      else if negb (newConfigVersion =? configVersion s)
      then Ret (mkWatcher (configVersion s) chan' (w_started wt))
      else
        ws ← config_workers IsReady (configVersion s) (Vaults (vaultsConfig s));
        Ret (mkWatcher (configVersion s) chan' (w_started wt ++ [(configVersion s, ws)]))
  end.

(** The two goroutines: the reload loop sends on the channel, which holds ten
    versions, and blocks when it is full. *)
Inductive config_step (json_Unmarshal : bytes -> result VaultPairListConfig)
    (IsReady : XdefiContextConfig -> Z -> outcome bool) : Sentinel * Watcher -> Sentinel * Watcher -> Prop :=
| step_reload_none version configs s s' wt :
    ReloadConfig json_Unmarshal version configs s = (s', None) ->
    config_step json_Unmarshal IsReady (s, wt) (s', wt)
| step_reload_send version configs s s' v cur chan started :
    ReloadConfig json_Unmarshal version configs s = (s', Some v) -> (length chan < 10)%nat ->
    config_step json_Unmarshal IsReady (s, mkWatcher cur chan started)
      (s', mkWatcher cur (chan ++ [v]) started)
| step_watch s wt wt' :
    watch_round IsReady s wt = Ret wt' ->
    config_step json_Unmarshal IsReady (s, wt) (s, wt').

End sentinel.

(** The statistics leave the rest of the sentinel alone. *)
Lemma LogRpcStat_same client method s : exists m, LogRpcStat client method s = with_RpcCall m s.
Proof. unfold LogRpcStat. destruct (_ !! client); eauto. Qed.

(** ** The key generation is such a committee *)
#[export] Program Instance dkg_committee `{Kyber} `{!BlsLib} (env : nat -> VssBase)
    : Committee World := {
  CommitteeReady := fun w => IsVSSReady (w_dkg w);
  CommitteeThreshold := fun w => match Bls (w_dkg w) with Some b => Threshold b | None => 0 end;
  CommitteeSign := fun w data =>
    match Bls (w_dkg w) with Some b => Ret (SignBytes b data) | None => Panic end;
  Locate := d ← gdkg; FindAddressInNodelist env (Vssid d)
}.
Next Obligation.
  intros K B env w r w' E. cbn in E. go_inv E. unfold FindAddressInNodelist in E. go_inv E.
  injection E as <- <-. cbn. destruct (decide (Vssid a ∈ fst a0)) as [Hin|Hn].
  - right. apply (find_index_range (fst a0) (Vssid a) 0 Hin).
  - left. by apply find_index_notin.
Qed.
Next Obligation.
  intros K B env w data Hr. cbn in Hr |- *. unfold IsVSSReady in Hr.
  destruct (Bls (w_dkg w)); [eauto|]. by rewrite andb_false_r in Hr.
Qed.
