(* ===== verification/SentinelProps.v ===== *)
(** * The sentinel: what it guarantees (sentinel/sentinel.go)

    Signature counting, the rotation of the committee, and the goroutines
    started for each configuration. *)
From S2P Require Import Prelude GoMonad Fmt Sha256 Event DkgBase DkgConfig Instances DkgProps Sentinel.
Local Open Scope Z_scope.

(** ** Signature counting *)
Section sigs.
Context `{MoacLib}.

(** A sequence of deliveries. *)
Definition process_all (es : list VaultEventWithSig) (s : Sentinel) : Sentinel :=
  foldl (fun s e => snd (ProcessVaultEventWithSig e s)) s es.

(** The signatures delivered for one event, in order. *)
Definition delivered_sigs (h : Hash) (es : list VaultEventWithSig) : list string :=
  Blssig <$> filter (fun e => VaultEvent_Hash (Event e) = h) es.

Lemma process_all_some h es : forall s received,
  VaultEventsSigs s !! h = Some received ->
  VaultEventsSigs (process_all es s) !! h =
    Some (list_to_set (delivered_sigs h es) ∪ received).
Proof.
  induction es as [|e es IH]; intros s received Hs.
  { cbn. rewrite Hs. f_equal. set_solver. }
  unfold delivered_sigs. rewrite filter_cons. cbn [process_all foldl]. case_decide as Hd.
  - fold (process_all es (snd (ProcessVaultEventWithSig e s))).
    rewrite (IH _ ({[Blssig e]} ∪ received)).
    + f_equal. cbn. unfold delivered_sigs. rewrite !(assoc_L (∪)). f_equal. by rewrite (comm_L (∪)).
    + cbn. rewrite Hd, Hs. by rewrite lookup_insert_eq.
  - apply IH. cbn. by rewrite lookup_insert_ne.
Qed.

Lemma process_all_none h es : forall s,
  VaultEventsSigs s !! h = None ->
  match delivered_sigs h es with
  | [] => VaultEventsSigs (process_all es s) !! h = None
  | first :: rest =>
      VaultEventsSigs (process_all es s) !! h = Some (list_to_set rest ∪ {[hex first]})
  end.
Proof.
  induction es as [|e es IH]; intros s Hs; [done|].
  unfold delivered_sigs. rewrite filter_cons. case_decide as Hd.
  - cbn. fold (process_all es (snd (ProcessVaultEventWithSig e s))).
    apply process_all_some. cbn. rewrite Hd, Hs. by rewrite lookup_insert_eq.
  - apply IH. cbn. by rewrite lookup_insert_ne.
Qed.

Lemma size_add_one (x : string) (X : gset string) :
  x ∉ X -> size (X ∪ {[x]}) = S (size X).
Proof. intros Hx. rewrite size_union, size_singleton by set_solver. lia. Qed.

Lemma size_add_in (x : string) (X : gset string) : x ∈ X -> {[x]} ∪ X = X.
Proof. set_solver. Qed.

End sigs.

(** For signatures of one length, the number of signatures counted for an
    event is the number of distinct signatures delivered for it, plus one when
    the first signature was delivered again: the first one is recorded in
    hexadecimal and its repetition as it is, so one signer counts twice. *)
Theorem signatures_counted `{MoacLib} (es : list VaultEventWithSig) (s : Sentinel) h first rest n :
  VaultEventsSigs s !! h = None ->
  delivered_sigs h es = first :: rest ->
  (0 < n)%nat -> Forall (fun sig => String.length sig = n) (first :: rest) ->
  exists counted, VaultEventsSigs (process_all es s) !! h = Some counted /\
    size counted =
      (size (list_to_set (first :: rest) : gset string) + (if decide (first ∈ rest) then 1 else 0))%nat.
Proof.
  intros Hs Hd Hn Hlen. pose proof (process_all_none h es s Hs) as Hp. rewrite Hd in Hp.
  exists (list_to_set rest ∪ {[hex first]}). split; [done|].
  apply Forall_cons in Hlen as [Hf Hr]. rewrite Forall_forall in Hr.
  rewrite size_add_one.
  2: { intros Hin%elem_of_list_to_set%Hr. rewrite length_hex in Hin. lia. }
  cbn. case_decide as Hin.
  - rewrite size_add_in by by apply elem_of_list_to_set. lia.
  - rewrite (comm_L (∪)), size_add_one by by rewrite elem_of_list_to_set. lia.
Qed.

Definition sample_event : VaultEvent :=
  mkVaultEvent 1 (Some 101) 2 (Some 102) 3 4 (Some 1000) (Some 1) (Some 1) (Some 50) (Some 0).

Lemma signatures_counted_witness :
  let e := mkVaultEventWithSig sample_event "sig" in
  exists counted,
    VaultEventsSigs (process_all [e; e] (sentinel_initial (mkVaultPairListConfig []))) !!
      VaultEvent_Hash sample_event = Some counted /\ size counted = 2%nat.
Proof.
  cbv zeta.
  destruct (signatures_counted
    [mkVaultEventWithSig sample_event "sig"; mkVaultEventWithSig sample_event "sig"]
    (sentinel_initial (mkVaultPairListConfig [])) (VaultEvent_Hash sample_event) "sig" ["sig"] 3)
    as (counted & E & Hc).
  - reflexivity.
  - unfold delivered_sigs. rewrite !filter_cons, !decide_True by reflexivity. reflexivity.
  - lia.
  - repeat constructor.
  - exists counted. split; [exact E|]. rewrite Hc. vm_compute. reflexivity.
Defined.

(** ** Whose turn it is *)

(** When the contract reports the list [l] of active nodes, every number
    designates exactly one of them: [myTurn] returns on every node, with [true]
    on that node and [false] everywhere else, members or not. *)
Theorem myTurn_unique `{Kyber} `{!BlsLib} (env : nat -> VssBase) (l : list Address) (number : Z) :
  (forall n, vb_GetActiveVSSMemberList (env n) = Ok l) ->
  NoDup l -> l <> [] -> Z.of_nat (length l) <= MaxUint64 -> 0 <= number ->
  exists leader, leader ∈ l /\ forall w,
    myTurn (Committee0 := dkg_committee env) number w =
      Ret (bool_decide (Vssid (w_dkg w) = leader), mkWorld (w_dkg w) (S (w_tick w)) (w_txs w)).
Proof.
  intros Henv Hnd Hne Hlen Hnum.
  set (len := Z.of_nat (length l)). assert (Hl : 0 < len) by (destruct l; [done|unfold len; cbn; lia]).
  pose proof (Z.mod_pos_bound number len Hl) as Hm.
  destruct (lookup_lt_is_Some_2 l (Z.to_nat (number mod len))) as [leader Hlead]; [lia|].
  exists leader. split; [by eapply list_elem_of_lookup_2|]. intros w.
  unfold myTurn. erewrite bind_run.
  2: { cbn [Locate dkg_committee]. erewrite bind_run by reflexivity. unfold FindAddressInNodelist.
       erewrite bind_run; [|unfold GetActiveVSSMemberList; erewrite bind_run by reflexivity;
                            rewrite Henv; reflexivity]. reflexivity. }
  cbn [fst]. assert (Hu : u64 len = len) by (apply u64_small; unfold is_u64, len in *; lia).
  fold len. rewrite Hu. destruct (Z.eqb_spec len 0); [lia|].
  destruct (decide (Vssid (w_dkg w) ∈ l)) as [Hin|Hout].
  - pose proof (find_index_range l _ 0 Hin) as Hr. fold len in Hr.
    destruct (Z.eqb_spec (find_index 0 l (Vssid (w_dkg w))) (-1)); [lia|].
    rewrite u64_small by (unfold is_u64, MaxUint64, len in *; lia).
    apply list_elem_of_lookup_1 in Hin as [j Hj].
    assert (Hjl : find_index 0 l (Vssid (w_dkg w)) = Z.of_nat j)
      by (by rewrite (find_index_lookup l _ 0 j)).
    rewrite Hjl. unfold mret, go_ret. do 2 f_equal.
    destruct (Z.eqb_spec (number mod len) (Z.of_nat j)) as [Hj'|Hj']; symmetry.
    + apply bool_decide_eq_true_2. rewrite Hj', Nat2Z.id in Hlead. congruence.
    + apply bool_decide_eq_false_2. intros E. rewrite <- E in Hlead.
      apply Hj'. rewrite <- (NoDup_lookup _ _ _ _ Hnd Hlead Hj). lia.
  - rewrite find_index_notin by done. cbn. unfold mret, go_ret. do 2 f_equal. symmetry.
    apply bool_decide_eq_false_2. intros <-. apply Hout. by eapply list_elem_of_lookup_2.
Qed.

Lemma myTurn_unique_witness :
  exists leader, leader ∈ [11; 12] /\ forall w,
    myTurn (Committee0 := dkg_committee pair_env) 10000 w =
      Ret (bool_decide (Vssid (w_dkg w) = leader), mkWorld (w_dkg w) (S (w_tick w)) (w_txs w)).
Proof.
  apply (myTurn_unique pair_env [11; 12] 10000).
  - reflexivity.
  - apply NoDup_ListNoDup. repeat constructor; cbn; intuition discriminate.
  - discriminate.
  - unfold MaxUint64. cbn. lia.
  - lia.
Defined.

(** ** Goroutines of a configuration *)
Section watcher.
Context `{MoacLib}.
Variables (json_Unmarshal : bytes -> result VaultPairListConfig)
  (IsReady : XdefiContextConfig -> Z -> outcome bool).

Abbreviation step := (config_step json_Unmarshal IsReady).

(** The versions started are strictly increasing, none above the version the
    watcher last took, itself not above the sentinel's. *)
Record watch_inv (c : Sentinel * Watcher) : Prop := {
  winv_sorted : StronglySorted Z.lt (w_started (snd c)).*1;
  winv_started : Forall (fun v => v <= w_current (snd c)) (w_started (snd c)).*1;
  winv_current : w_current (snd c) <= configVersion (fst c)
}.

Lemma ReloadConfig_version version configs s s' v :
  ReloadConfig json_Unmarshal version configs s = (s', v) -> configVersion s <= configVersion s'.
Proof.
  unfold ReloadConfig. intros E.
  destruct version as [z|]; [|by simplify_eq].
  destruct (configs z) as [d|]; [|by simplify_eq].
  destruct (json_Unmarshal d) as [cfg|]; [|by simplify_eq].
  injection E as <- _. destruct (Z.gtb_spec (u64 (Z.abs z)) (configVersion s)); cbn; lia.
Qed.

Lemma watch_round_inv s wt wt' :
  watch_round IsReady s wt = Ret wt' -> watch_inv (s, wt) -> watch_inv (s, wt').
Proof.
  intros E [I1 I2 I3]. cbn in I1, I2, I3. unfold watch_round in E.
  destruct (w_chan wt) as [|v chan]; [by simplify_eq|].
  destruct (drain 0 v chan) as [nv chan'].
  destruct (Z.leb_spec (configVersion s) (w_current wt)); [by simplify_eq|].
  destruct (negb _).
  - injection E as <-. split; cbn; [done| |lia]. eapply Forall_impl; [done|]. cbn. lia.
  - destruct (config_workers _ _ _) as [ws| |]; cbn in E; [|done..]. injection E as <-.
    split; cbn; [| |lia]; rewrite fmap_app; cbn.
    + apply StronglySorted_app. split_and!; [|done|by repeat constructor].
      intros x y Hx Hy%list_elem_of_singleton. rewrite Forall_forall in I2.
      specialize (I2 x Hx). cbn in Hy. lia.
    + apply Forall_app. split; [eapply Forall_impl; [done|]; cbn; lia|].
      constructor; [cbn; lia|done].
Qed.

Lemma config_step_inv c c' : step c c' -> watch_inv c -> watch_inv c'.
Proof.
  intros [version configs s s' wt E|version configs s s' v cur chan started E _|s wt wt' E] HI.
  - destruct HI as [I1 I2 I3]. split; cbn in *; [done..|].
    apply ReloadConfig_version in E. lia.
  - destruct HI as [I1 I2 I3]. split; cbn in *; [done..|].
    apply ReloadConfig_version in E. lia.
  - by eapply watch_round_inv.
Qed.

Lemma watch_reachable config c :
  rtc step (sentinel_initial config, mkWatcher 0 [] []) c -> watch_inv c.
Proof.
  intros Hr. remember (sentinel_initial config, mkWatcher 0 [] []) as c0 eqn:E0.
  assert (HI : watch_inv c0) by (subst; split; cbn; [constructor|done|lia]).
  clear E0. induction Hr as [|x y z Hxy _ IH]; [done|]. by apply IH, (config_step_inv x).
Qed.

Lemma config_step_version c c' : step c c' -> configVersion (fst c) <= configVersion (fst c').
Proof. intros [? ? ? ? ? E|? ? ? ? ? ? ? ? E _|? ? ? E]; cbn; [by eapply ReloadConfig_version..|lia]. Qed.

Lemma config_version_mono c c' : rtc step c c' -> configVersion (fst c) <= configVersion (fst c').
Proof. induction 1 as [|x y z Hxy _ IH]; [lia|]. apply config_step_version in Hxy. lia. Qed.

(** Once the watcher has taken a version, it starts nothing until the sentinel
    has a newer one. *)
Lemma taken_starts_nothing c c' :
  rtc step c c' -> configVersion (fst c') <= w_current (snd c) ->
  w_started (snd c') = w_started (snd c).
Proof.
  induction 1 as [|c c1 c' Hs Hr IH]; intros Hle; [done|].
  pose proof (config_version_mono _ _ Hr) as Hm. pose proof (config_step_version _ _ Hs) as Hv.
  assert (Hc : w_current (snd c1) = w_current (snd c) /\ w_started (snd c1) = w_started (snd c)).
  { destruct Hs as [|? ? ? ? ? ? ? ? E _|s wt wt' E]; cbn in *; [done..|].
    unfold watch_round in E. destruct (w_chan wt) as [|v chan]; [by simplify_eq|].
    destruct (drain 0 v chan) as [nv chan'].
    destruct (Z.leb_spec (configVersion s) (w_current wt)); [by injection E as <-|lia]. }
  destruct Hc as [Hc <-]. apply IH. lia.
Qed.

End watcher.

(** The goroutines of a configuration are started at most once: over any
    interleaving of reloads and rounds of the watcher, the versions for which
    goroutines were started strictly increase. *)
Theorem workers_started_once `{MoacLib} json_Unmarshal IsReady ready config s0 s wt :
  Sentinel_New ready config = Ret s0 ->
  rtc (config_step json_Unmarshal IsReady) (s0, mkWatcher 0 [] []) (s, wt) ->
  StronglySorted Z.lt (w_started wt).*1 /\ NoDup (w_started wt).*1 /\
  Forall (fun v => v <= configVersion s) (w_started wt).*1.
Proof.
  unfold Sentinel_New. destruct ready; [|done]. intros [= <-] [I1 I2 I3]%watch_reachable.
  cbn in *. split_and!; [done| |].
  - clear - I1. induction I1 as [|v l _ IH Hv]; constructor; [|done].
    intros Hin. rewrite Forall_forall in Hv. specialize (Hv v Hin). lia.
  - eapply Forall_impl; [done|]. cbn. lia.
Qed.

(** A run in which three versions wait in the channel when the watcher looks:
    the configuration is reloaded as versions 1, 1 and 2. *)
Definition no_json : bytes -> result VaultPairListConfig := fun _ => Ok (mkVaultPairListConfig []).

Definition all_ready : XdefiContextConfig -> Z -> outcome bool := fun _ _ => Ret true.

Definition empty_config : VaultPairListConfig := mkVaultPairListConfig [].

Definition at_config (v : Z) : Sentinel := mkSentinel empty_config v 0 ∅ ∅ ∅ ∅.

Lemma reload_1_1_2 :
  rtc (config_step no_json all_ready) (sentinel_initial empty_config, mkWatcher 0 [] [])
    (at_config 2, mkWatcher 0 [1; 1; 2] []).
Proof.
  eapply rtc_l; [apply (step_reload_send _ _ (Ok 1) (fun _ => Ok "") _ (at_config 1) 1 0 [] []); [done|cbn; lia]|].
  eapply rtc_l; [apply (step_reload_send _ _ (Ok 1) (fun _ => Ok "") _ (at_config 1) 1 0 [1] []); [done|cbn; lia]|].
  eapply rtc_l; [apply (step_reload_send _ _ (Ok 2) (fun _ => Ok "") _ (at_config 2) 2 0 [1; 1] []); [done|cbn; lia]|].
  constructor.
Qed.

Lemma reload_1_watch :
  rtc (config_step no_json all_ready) (sentinel_initial empty_config, mkWatcher 0 [] [])
    (at_config 1, mkWatcher 1 [] [(1, [])]).
Proof.
  eapply rtc_l; [apply (step_reload_send _ _ (Ok 1) (fun _ => Ok "") _ (at_config 1) 1 0 [] []); [done|cbn; lia]|].
  eapply rtc_l; [by apply step_watch|]. constructor.
Qed.

Lemma workers_started_once_witness :
  StronglySorted Z.lt [1] /\ NoDup [1] /\ Forall (fun v => v <= 1) [1].
Proof. exact (workers_started_once no_json all_ready true empty_config _ _ _ eq_refl reload_1_watch). Defined.

(** A configuration can be lost: when the watcher finds a stale version
    after draining only part of its channel, it records the new version as
    taken without starting its goroutines, and from then on no interleaving
    starts them as long as that version is the current one. *)
Theorem configuration_lost :
  exists s wt,
    rtc (config_step no_json all_ready) (sentinel_initial empty_config, mkWatcher 0 [] []) (s, wt) /\
    configVersion s = 2 /\ w_started wt = [] /\
    forall s' wt', rtc (config_step no_json all_ready) (s, wt) (s', wt') -> configVersion s' = 2 ->
      w_started wt' = [].
Proof.
  exists (at_config 2), (mkWatcher 2 [2] []). split_and!; [|done..|].
  { eapply rtc_r; [apply reload_1_1_2|]. by apply step_watch. }
  intros s' wt' Hr Hv. apply (taken_starts_nothing _ _ _ _ Hr). cbn. lia.
Qed.
