(* ===== verification/Xdefi.v ===== *)
(** * Scanning the vaults (sentinel/xdefi.go)

    One context per direction of a vault pair: it scans the vault of the source
    chain for events, signs and broadcasts them, and collects them in batches
    that other goroutines file in the xevents contract.  The chains, the
    contracts and the configuration channel are read through calls whose
    answers may change from one call to the next: they come from an arbitrary
    sequence of views. *)
From S2P Require Import Prelude GoMonad Fmt Sha256 Event DkgBase Bind Sentinel.
Local Open Scope Z_scope.

(** ** Constants *)
Definition VaultCheckInterval : Z := 5.
Definition BatchCommitThreshold : Z := 3.
Definition ScanRangeMulti : Z := 20.
Definition ScanRangeDouble : Z := 2.
Definition MinScanBlockNumber : Z := 20.
Definition CatchupWithinBlocks : Z := 100.
Definition VaultEventsChunkSize : nat := 3.
Definition Gwei : Z := 1000000000.
Definition DefaultGasPrice : Z := 20 * Gwei.
Definition DefaultGasLimit : Z := 300000.
Definition BlockDelay : Z := 12.
Definition MaxEmptyBatchBlocks : Z := 60.
Definition MintBatchSize : nat := 30.
Definition MyTurnSeed : Z := 10000.
Definition VaultScanStatusInterval : Z := 60.
Definition XeventsXYAddr : Address := 65537.
Definition XeventsYXAddr : Address := 65538.

(** ** Data *)

(** A [TokenDeposit] or [TokenBurn] log, as the binding decodes it. *)
Record RawEvent := mkRawEvent {
  ev_SourceChainid : option Z;
  ev_MappedChainid : option Z;
  ev_SourceToken : Address;
  ev_MappedToken : Address;
  ev_From : Address;
  ev_Amount : option Z;
  ev_Tip : option Z;
  ev_Nonce : option Z;
  ev_TotalNonce : option Z;
  ev_BlockNumber : option Z
}.

(** A [PrepareMints] log. *)
Record PrepareMints := mkPrepareMints {
  ToMints : list Hash;
  Signatures : list bytes;
  Validator : Address
}.

(** The event struct sent to the xevents contract. *)
Record VaultEventExt := mkVaultEventExt {
  ext_Blssig : bytes;
  ext_Vault : Address;
  ext_Nonce : option Z;
  ext_TokenMappingSha256 : Hash;
  ext_EventData : bytes
}.

(** Transactions the context sends. *)
Inductive XTx : Type :=
| TxRecordVaultEventBatch (exts : list VaultEventExt)
| TxUpdateVaultWatermark (vault : Address) (block : Z)
| TxPrepareMints (hashes : list Hash) (sigs : list bytes)
| TxWithdraw (sourceToken mappedToken to : Address) (amount tip nonce : option Z)
| TxRejectMint (toMint : Hash) (sig : bytes) (validator : Address).

Record XdefiContext := mkXdefiContext {
  EventType : Z;
  Config : XdefiContextConfig;
  ConfigVersion : Z;
  VaultScanBitmap : gmap Address (gmap Z bool);
  QueueVaultEventsBatchChan : list VaultEventsBatch;
  PendingVaultEventsBatchChan : list VaultEventsBatch
}.

Definition NewXdefiContext (eventType : Z) (cfg : XdefiContextConfig) (version : Z) : XdefiContext :=
  mkXdefiContext eventType cfg version ∅ [] [].

(** One view of the remote side.  [xv_NewConfig] is the version at the head of
    the configuration channel when it is not empty; [xv_Backend] answers the
    transaction sent at this call and [xv_Packed] is its packed input. *)
Record XView := mkXView {
  xv_Now : Z;
  xv_NewConfig : option Z;
  xv_BlockNumberFrom : result Z;
  xv_BlockNumberY : result Z;
  xv_BlockNumberXevents : result Z;
  xv_ChainID : result Z;
  xv_BalanceAt : Address -> result Z;
  xv_NonceAt : Address -> result Z;
  xv_FilterEvents : Z -> Z -> result (list RawEvent);
  xv_FilterPrepareMints : Z -> Z -> option (list PrepareMints);
  xv_VaultWatermark : Address -> result Z;
  xv_CreatedAt : result Z;
  xv_TokenMappingWatermark : Address -> Hash -> result Z;
  xv_VaultTokenMappingWatermark : Address -> Address -> result Z;
  xv_VaultEvents : Address -> Hash -> Z -> result bytes;
  xv_Backend : ContractBackend;
  xv_Packed : XTx -> result bytes
}.

Record XWorld (W : Type) := mkXWorld {
  x_sentinel : Sentinel;
  x_ctx : XdefiContext;
  x_committee : W;
  x_tick : nat;
  x_sent : list (XTx * (RawTx + BindError));
  x_broadcast : list VaultEventWithSig;
  x_committed : list VaultEventsBatch
}.
Arguments mkXWorld {W} _ _ _ _ _ _ _.
Arguments x_sentinel {W} _.
Arguments x_ctx {W} _.
Arguments x_committee {W} _.
Arguments x_tick {W} _.
Arguments x_sent {W} _.
Arguments x_broadcast {W} _.
Arguments x_committed {W} _.

(** ** Directions *)
Definition IsDeposit (ctx : XdefiContext) : bool := EventType ctx =? DEPOSIT.

Definition Xdefi_Type (ctx : XdefiContext) : string :=
  if EventType ctx =? DEPOSIT then "DEPOSIT" else "BURN".

Definition VaultAddrFrom (ctx : XdefiContext) : Address :=
  if IsDeposit ctx then VaultXAddr (Config ctx) else VaultYAddr (Config ctx).

Definition VaultAddrTo (ctx : XdefiContext) : Address :=
  if IsDeposit ctx then VaultYAddr (Config ctx) else VaultXAddr (Config ctx).

(** ** The record of scanned blocks *)
Definition with_Bitmap (m : gmap Address (gmap Z bool)) (ctx : XdefiContext) : XdefiContext :=
  mkXdefiContext (EventType ctx) (Config ctx) (ConfigVersion ctx) m
    (QueueVaultEventsBatchChan ctx) (PendingVaultEventsBatchChan ctx).

(** [for i := blockStart; i <= blockEnd; i++]: out of fuel when the loop does
    not end. *)
Definition RecordVaultScan (fuel : nat) (vault : Address) (blockStart blockEnd : Z)
    (ctx : XdefiContext) : outcome XdefiContext :=
  let scanned := default ∅ (VaultScanBitmap ctx !! vault) in
  match for_le fuel (fun i (m : gmap Z bool) => <[i := true]> m) blockStart blockEnd scanned with
  | Some m => Ret (with_Bitmap (<[vault := m]> (VaultScanBitmap ctx)) ctx)
  | None => OutOfFuel
  end.

(** [ClearVaultScan]: when there is no table for the vault, it ranges over the
    nil table; the context's tables are never touched. *)
Definition ClearVaultScan `{!MapOrder Z bool} (vault : Address) (watermark : Z) (ctx : XdefiContext)
    : XdefiContext :=
  match VaultScanBitmap ctx !! vault with
  | None =>
      let vaultScan : gmap Z bool := ∅ in
      let _ := foldl (fun m '(block, _) => if block <? watermark then delete block m else m)
                 vaultScan (range vaultScan) in
      ctx
  | Some _ => ctx
  end.

Fixpoint scan_exists (fuel : nat) (vaultScan : gmap Z bool) (i blockEnd : Z) : outcome bool :=
  match fuel with
  | O => OutOfFuel
  | S fuel' =>
      if i <=? blockEnd then
        if found (vaultScan !! i) then scan_exists fuel' vaultScan (u64 (i + 1)) blockEnd
        else Ret false
      else Ret true
  end.

Definition ScanExists (fuel : nat) (vault : Address) (blockStart blockEnd : Z) (ctx : XdefiContext)
    : outcome bool :=
  match VaultScanBitmap ctx !! vault with
  | Some vaultScan => scan_exists fuel vaultScan blockStart blockEnd
  | None => Ret false
  end.

(** ** The range of blocks of one filter call

    From the next block to scan and the horizon: the range filtered. *)
Definition scan_window (lastBlock scanHorizon : Z) : Z * Z :=
  let endBlock :=
    if u64 (u64 (lastBlock + ScanRangeMulti) - 1) <=? scanHorizon
    then u64 (u64 (lastBlock + ScanRangeMulti) - 1)
    else u64 (u64 (lastBlock + ScanRangeDouble) - 1) in
  let endBlock := if endBlock >? scanHorizon then scanHorizon else endBlock in
  let lastBlock := if lastBlock >? endBlock then endBlock else lastBlock in
  (lastBlock, endBlock).

(** The vault event of a log. *)
Definition vault_event (vault : Address) (ev : RawEvent) : VaultEvent :=
  mkVaultEvent vault (ev_SourceChainid ev) (ev_SourceToken ev) (ev_MappedChainid ev)
    (ev_MappedToken ev) (ev_From ev) (ev_Amount ev) (ev_Nonce ev) (ev_TotalNonce ev)
    (ev_BlockNumber ev) (ev_Tip ev).

(** ** Clients and contracts

    What dialling the endpoints of a configuration gives, and whether each
    contract can be bound to its client. *)
Record Dial := mkDial {
  dial_X : bool;
  dial_XChainID : result Z;
  dial_Xws : bool;
  dial_Y : bool;
  dial_YChainID : result Z;
  dial_Yws : bool;
  dial_Xevents : bool;
  bind_VaultX : bool;
  bind_VaultXws : bool;
  bind_VaultY : bool;
  bind_VaultYws : bool;
  bind_XeventsXY : bool;
  bind_XeventsYX : bool;
  bind_Xconfig : bool
}.

(** The client and contract pointers of a context: whether each is set. *)
Record Handles := mkHandles {
  ClientX : bool;
  ClientY : bool;
  ClientXws : bool;
  ClientYws : bool;
  ClientXevents : bool;
  VaultX_ : bool;
  VaultY_ : bool;
  VaultXws : bool;
  VaultYws : bool;
  XeventsXY : bool;
  XeventsYX : bool;
  Xconfig : bool
}.

Definition no_handles : Handles :=
  mkHandles false false false false false false false false false false false false.

(** [InitClients] sets all clients or none; a chain id other than the
    configured one panics, and the web socket clients may stay nil. *)
Definition InitClients (cfg : XdefiContextConfig) (d : Dial) (h : Handles) : outcome Handles :=
  if negb (dial_X d) then Ret h
  else
    match dial_XChainID d with
    | Err => Ret h
    | Ok idx =>
        if negb (XChainId cfg =? u64 (Z.abs idx)) then Panic
        else if negb (dial_Y d) then Ret h
        else
          match dial_YChainID d with
          | Err => Ret h
          | Ok idy =>
              if negb (YChainId cfg =? u64 (Z.abs idy)) then Panic
              else if negb (dial_Xevents d) then Ret h
              else
                Ret (mkHandles true true (dial_Xws d) (dial_Yws d) true (VaultX_ h) (VaultY_ h)
                       (VaultXws h) (VaultYws h) (XeventsXY h) (XeventsYX h) (Xconfig h))
          end
    end.

(** [InitContracts] binds the contracts to the clients, nil or not; a failure
    panics. *)
Definition InitContracts (d : Dial) (h : Handles) : outcome Handles :=
  if negb (bind_VaultX d) then Panic
  else if negb (bind_VaultXws d) then Panic
  else if negb (bind_VaultY d) then Panic
  else if negb (bind_VaultYws d) then Panic
  else if negb (bind_XeventsXY d) then Panic
  else if negb (bind_XeventsYX d) then Panic
  else if negb (bind_Xconfig d) then Panic
  else Ret (mkHandles (ClientX h) (ClientY h) (ClientXws h) (ClientYws h) (ClientXevents h)
              true true true true true true true).

Definition IsReady (h : Handles) : bool :=
  let oneIsNil := negb (ClientX h) in
  let oneIsNil := oneIsNil || negb (ClientY h) in
  let oneIsNil := oneIsNil || negb (ClientXevents h) in
  let oneIsNil := oneIsNil || negb (VaultX_ h) in
  let oneIsNil := oneIsNil || negb (VaultY_ h) in
  let oneIsNil := oneIsNil || negb (XeventsXY h) in
  let oneIsNil := oneIsNil || negb (XeventsYX h) in
  negb oneIsNil.

(** What [prepareCommonContext] learns of a new context: whether it is ready
    once its clients and contracts are initialized. *)
Definition context_ready (dial : XdefiContextConfig -> Z -> Dial) (cfg : XdefiContextConfig)
    (eventType : Z) : outcome bool :=
  h ← InitClients cfg (dial cfg eventType) no_handles;
  h' ← InitContracts (dial cfg eventType) h;
  Ret (IsReady h').

(** ** Slicing events into chunks

    [VaultEventsChunkGenerator]: the events of the iterator by total nonce, then
    chunks of [VaultEventsChunkSize] from the smallest nonce to the largest; a
    missing nonce gives the zero event. *)
Definition zero_event : VaultEvent := mkVaultEvent 0 None 0 None 0 0 None None None None None.

Fixpoint chunk_table (vault : Address) (evs : list RawEvent)
    (acc : gmap Z VaultEvent * Z * Z) : outcome (gmap Z VaultEvent * Z * Z) :=
  match evs with
  | [] => Ret acc
  | ev :: evs' =>
      let '(m, first, last) := acc in
      totalNonce ← big_Uint64 (ev_TotalNonce ev);
      let first' := if totalNonce <=? first then totalNonce else first in
      let last' := if totalNonce >=? last then totalNonce else last in
      chunk_table vault evs' (<[totalNonce := vault_event vault ev]> m, first', last')
  end.

(** One chunk, and the nonce after it. *)
Fixpoint chunk_from (m : gmap Z VaultEvent) (nonce : Z) (j : nat) : list VaultEvent * Z :=
  match j with
  | O => ([], nonce)
  | S j' =>
      let '(chunk, nonce') := chunk_from m (u64 (nonce + 1)) j' in
      (default zero_event (m !! nonce) :: chunk, nonce')
  end.

Fixpoint chunk_loop (fuel : nat) (m : gmap Z VaultEvent) (nonce last : Z)
    : outcome (list (list VaultEvent)) :=
  match fuel with
  | O => OutOfFuel
  | S fuel' =>
      if nonce <=? last then
        let '(chunk, nonce') := chunk_from m nonce VaultEventsChunkSize in
        rest ← chunk_loop fuel' m nonce' last;
        Ret (chunk :: rest)
      else Ret []
  end.

Definition VaultEventsChunkGenerator (fuel : nat) (vault : Address) (evs : list RawEvent)
    : outcome (list (list VaultEvent)) :=
  t ← chunk_table vault evs (∅, MaxUint64, 0);
  let '(m, first, last) := (t : gmap Z VaultEvent * Z * Z) in
  chunk_loop fuel m first last.

(** ** The scan *)
Section scan.
Context `{MoacLib} {W : Type} `{!Committee W}.
Variable xenv : nat -> XView.

Abbreviation world := (XWorld W).

Definition xcall {A : Type} (f : XView -> A) : go world A :=
  fun w => Ret (f (xenv (x_tick w)),
                mkXWorld (x_sentinel w) (x_ctx w) (x_committee w) (S (x_tick w)) (x_sent w)
                  (x_broadcast w) (x_committed w)).

Definition xsentinel : go world Sentinel := fun w => Ret (x_sentinel w, w).

Definition xctx : go world XdefiContext := fun w => Ret (x_ctx w, w).

Definition xcommittee : go world W := fun w => Ret (x_committee w, w).

Definition upd_sentinel (f : Sentinel -> Sentinel) : go world unit :=
  gmodify (fun w => mkXWorld (f (x_sentinel w)) (x_ctx w) (x_committee w) (x_tick w) (x_sent w)
                      (x_broadcast w) (x_committed w)).

Definition set_ctx (ctx : XdefiContext) : go world unit :=
  gmodify (fun w => mkXWorld (x_sentinel w) ctx (x_committee w) (x_tick w) (x_sent w)
                      (x_broadcast w) (x_committed w)).

Definition broadcast (e : VaultEventWithSig) : go world unit :=
  gmodify (fun w => mkXWorld (x_sentinel w) (x_ctx w) (x_committee w) (x_tick w) (x_sent w)
                      (x_broadcast w ++ [e]) (x_committed w)).

(** A computation of the committee, run on its part of the world. *)
Definition on_committee {A : Type} (c : go W A) : go world A :=
  fun w =>
    match c (x_committee w) with
    | Ret (a, com) =>
        Ret (a, mkXWorld (x_sentinel w) (x_ctx w) com (x_tick w) (x_sent w) (x_broadcast w)
                  (x_committed w))
    | Panic => Panic
    | OutOfFuel => OutOfFuel
    end.

Definition log_rpc (client method : string) : go world unit := upd_sentinel (LogRpcStat client method).

Definition with_batchNumber (n : Z) (s : Sentinel) : Sentinel :=
  mkSentinel (vaultsConfig s) (configVersion s) n (VaultEventsSigs s) (VaultEvents s)
    (RpcCallPerClient s) (workerStatus s).

Definition getLastBlock : go world Z :=
  ctx ← xctx;
  r ← xcall (fun v => xv_VaultWatermark v (VaultAddrFrom ctx));
  _ ← log_rpc "xevents" "VaultWatermark";
  match r with
  | Err => mret 0
  | Ok vaultWatermark =>
      if u64 (Z.abs vaultWatermark) =? 0 then
        c ← xcall xv_CreatedAt;
        _ ← log_rpc "vault" "CreateAt";
        match c with
        | Err => mret 0
        | Ok createdAt =>
            let lastBlock := u64 (Z.abs createdAt) in
            _ ← upd_sentinel (with_batchNumber lastBlock);
            mret lastBlock
        end
      else
        let lastBlock := u64 (u64 (Z.abs vaultWatermark) + 1) in
        _ ← upd_sentinel (with_batchNumber lastBlock);
        mret lastBlock
  end.

(** The body of the iterator loops: sign, process and broadcast one event. *)
Definition scan_event (vaultAddrFrom : Address) (acc : gmap Hash bool * Z) (ev : RawEvent)
    : go world (gmap Hash bool * Z) :=
  let '(rawBatch, eventCount) := acc in
  let vaultEvent := vault_event vaultAddrFrom ev in
  com ← xcommittee;
  blssig ← glift (CommitteeSign com (be_bytes 32 (VaultEvent_Hash vaultEvent)));
  let vaultEventWithSig := mkVaultEventWithSig vaultEvent blssig in
  _ ← upd_sentinel (fun s => snd (ProcessVaultEventWithSig vaultEventWithSig s));
  _ ← broadcast vaultEventWithSig;
  mret (<[VaultEvent_Hash vaultEvent := true]> rawBatch, u64 (eventCount + 1)).

(** A filtered range holds at most twenty blocks: the loop that records it
    needs one more step. *)
Definition scan_fuel : nat := 21.

(** One filter call and its events: [None] when the round must stop, the
    hashes of the events and their count otherwise. *)
Definition scan_range (lastBlock endBlock eventCount : Z) : go world (option (gmap Hash bool * Z)) :=
  ctx ← xctx;
  itr ← xcall (fun v => xv_FilterEvents v lastBlock endBlock);
  _ ← log_rpc "vault" (if IsDeposit ctx then "FilterTokenDeposit" else "FilterTokenBurn");
  match itr with
  | Err => mret None
  | Ok events =>
      com ← xcommittee;
      if negb (CommitteeReady com) then mret None
      else
        r ← for_each (scan_event (VaultAddrFrom ctx)) (∅, eventCount) events;
        ctx ← xctx;
        ctx' ← glift (RecordVaultScan scan_fuel (VaultAddrFrom ctx) lastBlock endBlock ctx);
        _ ← set_ctx ctx';
        mret (Some r)
  end.

(** The loop of [scanVaultEvents]. *)
Fixpoint scan_loop (fuel : nat) (startBlock lastBlock lastCurrentBlock eventCount : Z)
    : go world (option VaultEventsBatch) :=
  match fuel with
  | O => gfuel
  | S fuel' =>
      if eventCount >? 0 then mret None
      else
        ctx ← xctx;
        newConfig ← xcall xv_NewConfig;
        if match newConfig with Some v => v >? ConfigVersion ctx | None => false end
        then mret None
        else
          bn ← xcall xv_BlockNumberFrom;
          let currentBlock := match bn with Ok n => n | Err => 0 end in
          if (currentBlock =? lastCurrentBlock) &&
             (u64 (lastCurrentBlock - lastBlock) <? CatchupWithinBlocks)
          then scan_loop fuel' startBlock lastBlock lastCurrentBlock eventCount
          else
            let scanHorizon := u64 (currentBlock - BlockDelay) in
            if scanHorizon <? MinScanBlockNumber then mret None
            else
              let '(lastBlock, endBlock) := scan_window lastBlock scanHorizon in
              r ← scan_range lastBlock endBlock eventCount;
              match r with
              | None => mret None
              | Some (rawBatch, eventCount) =>
                  let batch :=
                    mkVaultEventsBatch rawBatch (VaultAddrFrom ctx) startBlock endBlock in
                  if Nat.eqb (size rawBatch) 0 then
                    if u64 (endBlock - startBlock) >=? MaxEmptyBatchBlocks then mret (Some batch)
                    else scan_loop fuel' startBlock (u64 (endBlock + 1)) currentBlock eventCount
                  else
                    s ← xsentinel;
                    if negb (batchNumber s =? 0) then
                      _ ← on_committee (myTurn MyTurnSeed);
                      mret (Some batch)
                    else scan_loop fuel' startBlock (u64 (endBlock + 1)) currentBlock eventCount
              end
  end.

Definition scanVaultEvents (fuel : nat) : go world (option VaultEventsBatch) :=
  lastBlock ← getLastBlock;
  scan_loop fuel lastBlock lastBlock 0 0.

End scan.
