(* ===== verification/XdefiScan.v ===== *)
(** * Scanning the vaults: what a batch contains (sentinel/xdefi.go)

    The blocks a scan covers, the events it collects, and the scans that leave
    the chain. *)
From S2P Require Import Prelude GoMonad Fmt Sha256 Event DkgBase DkgConfig Instances DkgProps Bind Sentinel Xdefi.
Local Open Scope Z_scope.

(** ** Machine arithmetic of the window *)
Lemma scan_window_spec lastBlock scanHorizon :
  0 <= lastBlock < 2 ^ 63 -> 0 <= scanHorizon < 2 ^ 63 ->
  let '(first, last) := scan_window lastBlock scanHorizon in
  first <= last <= scanHorizon /\ last - first < 20 /\ first <= lastBlock /\
  (lastBlock <= scanHorizon -> first = lastBlock) /\
  (scanHorizon < lastBlock -> first = scanHorizon /\ last = scanHorizon).
Proof.
  intros Hl Hh. unfold scan_window, ScanRangeMulti, ScanRangeDouble.
  rewrite !(u64_small (lastBlock + _)) by (unfold is_u64, MaxUint64; lia).
  rewrite !u64_small by (unfold is_u64, MaxUint64; lia).
  repeat split_if; lia.
Qed.

(** ** Recording scanned blocks *)
Lemma foldl_insert_true (l : list Z) : forall (m : gmap Z bool) i,
  is_Some (foldl (fun m k => <[k := true]> m) m l !! i) <-> i ∈ l \/ is_Some (m !! i).
Proof.
  induction l as [|k l IH]; intros m i; cbn.
  - rewrite elem_of_nil. tauto.
  - rewrite IH, elem_of_cons. destruct (decide (i = k)) as [->|Hne].
    + rewrite lookup_insert_eq. split; [auto|]. intros _. right. eauto.
    + rewrite lookup_insert_ne by done. tauto.
Qed.

Lemma RecordVaultScan_run fuel vault a b ctx :
  (0 < fuel)%nat -> 0 <= a -> b < 2 ^ 63 -> b - a < Z.of_nat fuel - 1 ->
  exists m, RecordVaultScan fuel vault a b ctx = Ret (with_Bitmap (<[vault := m]> (VaultScanBitmap ctx)) ctx) /\
    forall i, is_Some (m !! i) <->
      a <= i <= b \/ is_Some (default ∅ (VaultScanBitmap ctx !! vault) !! i).
Proof.
  intros H0 Ha Hb Hf. unfold RecordVaultScan.
  destruct (decide (a <= b)) as [Hab|Hab].
  - rewrite (for_le_seqZ _ b (Z.to_nat (b + 1 - a))) by (unfold MaxUint64; lia).
    eexists. split; [reflexivity|]. intros i. rewrite (foldl_insert_true _ _ i), elem_of_seqZ.
    split; (intros [?|?]; [left; lia|auto]).
  - destruct fuel as [|fuel]; [lia|]. cbn. destruct (Z.leb_spec a b); [lia|].
    eexists. split; [reflexivity|]. intros i. split; [auto|]. intros [?|?]; [lia|done].
Qed.

(** ** Events of a stable chain *)
Section scan.
Context `{MoacLib} {W : Type} `{!Committee W}.
Variable xenv : nat -> XView.
Implicit Types (w : XWorld W).

Definition event_block (ev : RawEvent) : Z := default 0 (ev_BlockNumber ev).

(** The events of the log in a range of blocks. *)
Definition events_in (log : list RawEvent) (first last : Z) : list RawEvent :=
  filter (fun ev => first <= event_block ev <= last) log.

(** Every filter call is answered from the same log. *)
Definition stable_log (log : list RawEvent) : Prop :=
  forall n first last, xv_FilterEvents (xenv n) first last = Ok (events_in log first last).

(** Every reading of the head is at least the block delay above [start]. *)
Definition head_ahead (start : Z) : Prop :=
  forall n, exists h, xv_BlockNumberFrom (xenv n) = Ok h /\ start + BlockDelay <= h < 2 ^ 62.

Definition event_hash (vault : Address) (ev : RawEvent) : Hash := VaultEvent_Hash (vault_event vault ev).

Definition hashes (vault : Address) (evs : list RawEvent) : gset Hash :=
  list_to_set (event_hash vault <$> evs).

Lemma events_in_elem log a b ev : ev ∈ events_in log a b <-> ev ∈ log /\ a <= event_block ev <= b.
Proof. unfold events_in. rewrite list_elem_of_filter. tauto. Qed.

Lemma hashes_elem vault evs h : h ∈ hashes vault evs <-> exists ev, ev ∈ evs /\ h = event_hash vault ev.
Proof. unfold hashes. rewrite elem_of_list_to_set, list_elem_of_fmap. firstorder. Qed.

(** What is kept when events are processed: everything but the tables of the
    sentinel and the broadcasts. *)
Definition same_context w w' : Prop :=
  x_ctx w' = x_ctx w /\ x_committee w' = x_committee w /\ x_tick w' = x_tick w /\
  x_sent w' = x_sent w /\ batchNumber (x_sentinel w') = batchNumber (x_sentinel w).

(** Processing the events of a filter call: the batch gains their hashes, each
    is recorded and broadcast. *)
Lemma scan_events_run vault evs : forall rawBatch count w,
  CommitteeReady (x_committee w) = true ->
  exists rawBatch' count' w',
    for_each (scan_event vault) (rawBatch, count) evs w = Ret ((rawBatch', count'), w') /\
    same_context w w' /\ dom rawBatch' = dom rawBatch ∪ hashes vault evs /\
    Event <$> x_broadcast w' = (Event <$> x_broadcast w) ++ (vault_event vault <$> evs) /\
    (forall h, is_Some (VaultEvents (x_sentinel w) !! h) \/ h ∈ hashes vault evs ->
       is_Some (VaultEvents (x_sentinel w') !! h)) /\
    (evs = [] -> count' = count).
Proof.
  induction evs as [|ev evs IH]; intros rawBatch count w Hr.
  - exists rawBatch, count, w. unfold hashes. cbn. rewrite app_nil_r, (right_id_L ∅ (∪)).
    split_and!; try done. intros h [?|He]; [done|]. by apply elem_of_empty in He.
  - cbn [for_each]. destruct (Sign_ready (x_committee w)
      (be_bytes 32 (event_hash vault ev)) Hr) as [sig Hsig].
    set (e := mkVaultEventWithSig (vault_event vault ev) sig).
    erewrite bind_run.
    2: { unfold scan_event. erewrite bind_run by reflexivity.
         erewrite bind_run by (unfold glift; fold (event_hash vault ev); rewrite Hsig; reflexivity).
         erewrite bind_run by reflexivity. erewrite bind_run by reflexivity. reflexivity. }
    destruct (IH (<[event_hash vault ev := true]> rawBatch) (u64 (count + 1))
      (mkXWorld (snd (ProcessVaultEventWithSig e (x_sentinel w))) (x_ctx w) (x_committee w) (x_tick w)
         (x_sent w) (x_broadcast w ++ [e]) (x_committed w)) Hr)
      as (rb & ct & w' & E & (S1 & S2 & S3 & S4 & S5) & Hd & Hb & Hv & _).
    exists rb, ct, w'. split; [exact E|]. split_and!; [by repeat split| | | |done].
    + rewrite Hd, dom_insert_L. unfold hashes. cbn. rewrite !(assoc_L (∪)). f_equal.
      apply (comm_L (∪)).
    + rewrite Hb. cbn. by rewrite fmap_app, <- app_assoc.
    + intros h Hh. apply Hv. cbn. fold (event_hash vault ev).
      destruct (decide (h = event_hash vault ev)) as [->|Hne]; [left; rewrite lookup_insert_eq; eauto|].
      rewrite lookup_insert_ne by done. destruct Hh as [?|Hh]; [auto|]. right.
      unfold hashes in Hh. cbn in Hh. apply elem_of_union in Hh as [Hh%elem_of_singleton|Hh]; done.
Qed.

(** The blocks of a vault recorded as scanned. *)
Definition scanned (ctx : XdefiContext) (vault : Address) (i : Z) : Prop :=
  is_Some (default ∅ (VaultScanBitmap ctx !! vault) !! i).

(** The state of the loop: no event of the log lies between the start of the
    round and the next block to scan, and those blocks are recorded. *)
Record scan_inv (log : list RawEvent) (start last : Z) (vault : Address) w : Prop := {
  sinv_range : 0 <= start <= last /\ last <= 2 ^ 62;
  sinv_vault : VaultAddrFrom (x_ctx w) = vault;
  sinv_batch : batchNumber (x_sentinel w) <> 0;
  sinv_empty : forall ev, ev ∈ log -> start <= event_block ev < last -> False;
  sinv_scanned : forall i, start <= i < last -> scanned (x_ctx w) vault i
}.

(** What a batch promises. *)
Record batch_complete (log : list RawEvent) (start : Z) (vault : Address) (batch : VaultEventsBatch) w
    : Prop := {
  bc_start : batch_Start batch = start;
  bc_vault : batch_Vault batch = vault;
  bc_range : start <= batch_End batch;
  bc_horizon : exists n h, xv_BlockNumberFrom (xenv n) = Ok h /\ batch_End batch + BlockDelay <= h;
  bc_events : dom (Batch batch) = hashes vault (events_in log start (batch_End batch));
  bc_known : forall h, h ∈ dom (Batch batch) -> is_Some (VaultEvents (x_sentinel w) !! h);
  bc_scanned : forall i, start <= i <= batch_End batch -> scanned (x_ctx w) vault i
}.

Lemma scanned_with_Bitmap ctx vault m i :
  scanned (with_Bitmap (<[vault := m]> (VaultScanBitmap ctx)) ctx) vault i <-> is_Some (m !! i).
Proof. unfold scanned. cbn. by rewrite lookup_insert_eq. Qed.

Lemma on_committee_ctx {A : Type} (c : go W A) w a w' :
  on_committee c w = Ret (a, w') -> x_ctx w' = x_ctx w /\ x_sentinel w' = x_sentinel w.
Proof. unfold on_committee. destruct (c (x_committee w)) as [[? ?]| |]; [|done..]. by intros [= <- <-]. Qed.

Section stable.
Variables (log : list RawEvent) (start : Z).
Hypothesis Hlog : stable_log log.
Hypothesis Hhead : head_ahead start.

(** The events of the filtered range are all those since the start. *)
Lemma window_events last first b vault w :
  scan_inv log start last vault w -> start <= first <= last ->
  hashes vault (events_in log first b) = hashes vault (events_in log start b).
Proof.
  intros [_ _ _ He _] Hf. apply set_eq. intros h. rewrite !hashes_elem.
  split; intros (ev & [Hin Hb]%events_in_elem & ->); exists ev; (split; [|done]);
    apply events_in_elem; (split; [done|]); [lia|].
  destruct (decide (event_block ev < last)) as [Hlt|Hge]; [|lia].
  destruct (He ev Hin). lia.
Qed.

(** One filter call over a window of the horizon. *)
Lemma scan_range_run first last w :
  0 <= first -> last < 2 ^ 63 -> last - first < 20 -> CommitteeReady (x_committee w) = true ->
  exists rb ct w', scan_range xenv first last 0 w = Ret (Some (rb, ct), w') /\
    dom rb = hashes (VaultAddrFrom (x_ctx w)) (events_in log first last) /\
    (rb = ∅ -> ct = 0) /\
    VaultAddrFrom (x_ctx w') = VaultAddrFrom (x_ctx w) /\
    batchNumber (x_sentinel w') = batchNumber (x_sentinel w) /\
    (forall h, h ∈ dom rb -> is_Some (VaultEvents (x_sentinel w') !! h)) /\
    forall i, first <= i <= last \/ scanned (x_ctx w) (VaultAddrFrom (x_ctx w)) i ->
      scanned (x_ctx w') (VaultAddrFrom (x_ctx w)) i.
Proof.
  intros Hf Hl Hw Hr. unfold scan_range. rewrite (bind_run _ _ _ _ _ eq_refl).
  rewrite (bind_run _ _ _ _ _ eq_refl). rewrite (bind_run _ _ _ _ _ eq_refl). rewrite Hlog.
  rewrite (bind_run _ _ _ _ _ eq_refl). cbn [x_committee]. rewrite Hr. cbn [negb].
  edestruct (scan_events_run (VaultAddrFrom (x_ctx w)) (events_in log first last) ∅ 0)
    as (rb & ct & w1 & E & (S1 & S2 & S3 & S4 & S5) & Hd & _ & Hk & Hc); [|rewrite (bind_run _ _ _ _ _ E)].
  { cbn. exact Hr. }
  cbn [x_ctx x_sentinel x_tick x_committee x_sent] in S1, S5, Hk. rewrite (bind_run _ _ _ _ _ eq_refl).
  destruct (RecordVaultScan_run scan_fuel (VaultAddrFrom (x_ctx w1)) first last (x_ctx w1))
    as (m & Em & Hm); [unfold scan_fuel; lia..|].
  rewrite (bind_run _ _ _ _ _ (glift_run _ _ _ Em)). rewrite (bind_run _ _ _ _ _ eq_refl).
  rewrite dom_empty_L, (left_id_L ∅ (∪)) in Hd. rewrite S1 in *.
  eexists rb, ct, _. split; [reflexivity|]. split_and!; [done| |done| | |].
  - intros ->. apply Hc. rewrite dom_empty_L in Hd.
    destruct (events_in log first last) as [|ev evs]; [done|]. exfalso.
    assert (Hin : event_hash (VaultAddrFrom (x_ctx w)) ev ∈ hashes (VaultAddrFrom (x_ctx w)) (ev :: evs))
      by (apply hashes_elem; exists ev; split; [left|done]).
    rewrite <- Hd in Hin. by apply elem_of_empty in Hin.
  - cbn. rewrite S5. edestruct LogRpcStat_same as [? ->]. done.
  - intros h Hh. apply Hk. right. by rewrite <- Hd.
  - intros i Hi. cbn. apply scanned_with_Bitmap, Hm. exact Hi.
Qed.

(** A filter call that returned, at one more block than those already empty:
    either the batch is complete, or the loop goes on from the next block. *)
Lemma scan_range_inv last first endb vault w rb ct w' :
  scan_inv log start last vault w -> start <= first <= last -> first <= endb < 2 ^ 62 ->
  endb - first < 20 -> (endb < last -> endb = first) ->
  scan_range xenv first endb 0 w = Ret (Some (rb, ct), w') ->
  dom rb = hashes vault (events_in log start endb) /\ (rb = ∅ -> ct = 0) /\
  VaultAddrFrom (x_ctx w') = vault /\ batchNumber (x_sentinel w') <> 0 /\
  (forall h, h ∈ dom rb -> is_Some (VaultEvents (x_sentinel w') !! h)) /\
  (forall i, start <= i <= endb -> scanned (x_ctx w') vault i) /\
  (rb = ∅ -> scan_inv log start (endb + 1) vault w').
Proof.
  intros HI Hf Hl H20 Hcl E.
  assert (Hr : CommitteeReady (x_committee w) = true).
  { destruct (CommitteeReady (x_committee w)) eqn:Hr; [done|]. unfold scan_range in E.
    rewrite (bind_run _ _ _ _ _ eq_refl) in E. rewrite (bind_run _ _ _ _ _ eq_refl) in E.
    rewrite (bind_run _ _ _ _ _ eq_refl) in E. rewrite Hlog in E.
    rewrite (bind_run _ _ _ _ _ eq_refl) in E. cbn [x_committee] in E. by rewrite Hr in E. }
  destruct HI as [Hrg Hv Hbn He Hs] eqn:EHI. clear EHI.
  destruct (scan_range_run first endb w) as (rb' & ct' & w1 & E1 & Hd & Hc & Hv1 & Hb1 & Hk & Hsc);
    [lia|lia|lia|done|].
  rewrite E1 in E. injection E as <- <- <-. rewrite Hv in *.
  pose proof (window_events last first endb vault w HI Hf) as Hwin. rewrite Hwin in Hd.
  assert (Hall : forall i, start <= i <= endb -> scanned (x_ctx w1) vault i).
  { intros i Hi. apply Hsc. destruct (decide (i < last)); [right; apply Hs; lia|left; lia]. }
  split_and!; try done; [congruence|]. intros Hrb. split; [lia|done|congruence| |].
  - intros ev Hin Hb. rewrite Hrb, dom_empty_L in Hd.
    assert (Hx : event_hash vault ev ∈ hashes vault (events_in log start endb)).
    { apply hashes_elem. exists ev. split; [|done]. apply events_in_elem. split; [done|lia]. }
    rewrite <- Hd in Hx. by apply elem_of_empty in Hx.
  - intros i Hi. apply Hall. lia.
Qed.

Lemma scan_loop_batch fuel : forall last lastCurrent vault w batch w',
  scan_inv log start last vault w ->
  scan_loop xenv fuel start last lastCurrent 0 w = Ret (Some batch, w') ->
  batch_complete log start vault batch w'.
Proof.
  induction fuel as [|fuel IH]; intros last lastCurrent vault w batch w' HI E; [done|].
  cbn [scan_loop] in E. change (0 >? 0) with false in E. cbn iota in E.
  rewrite (bind_run _ _ _ _ _ eq_refl) in E. rewrite (bind_run _ _ _ _ _ eq_refl) in E.
  destruct (match xv_NewConfig _ with Some _ => _ | None => _ end); [done|].
  rewrite (bind_run _ _ _ _ _ eq_refl) in E. cbn [x_tick] in E.
  destruct (Hhead (S (x_tick w))) as (h & Hh & Hb). rewrite Hh in E.
  pose proof HI as [Hrg Hv Hbn He Hs]. destruct (_ && _).
  { eapply IH, E. by split. }
  rewrite u64_small in E by (unfold is_u64, MaxUint64, BlockDelay in *; lia).
  destruct (_ <? MinScanBlockNumber); [done|]. unfold BlockDelay in *.
  pose proof (scan_window_spec last (h - 12) ltac:(lia) ltac:(lia)) as Hw.
  destruct (scan_window last (h - 12)) as [first endb]. destruct Hw as (Hw1 & Hw2 & Hw3 & Hw4 & Hw5).
  apply go_bind_Ret in E as (r & w1 & E1 & E). destruct r as [[rb ct]|]; [|done].
  apply (scan_range_inv last first endb vault) in E1 as (Hd & Hc & Hv1 & Hb1 & Hk & Hsc & Hn);
    [|by split|lia..]. rewrite Hv in E.
  assert (Hbc : forall w2, x_ctx w2 = x_ctx w1 -> x_sentinel w2 = x_sentinel w1 ->
    batch_complete log start vault (mkVaultEventsBatch rb vault start endb) w2).
  { intros w2 Ec Es. split; cbn; rewrite ?Ec, ?Es; try done; [lia|].
    exists (S (x_tick w)), h. unfold BlockDelay. split; [done|lia]. }
  destruct (Nat.eqb_spec (size rb) 0) as [H0%map_size_empty_inv|Hne].
  - destruct (_ >=? _); [injection E as <- <-; by apply Hbc|].
    rewrite (Hc H0), u64_small in E by (unfold is_u64, MaxUint64; lia). eapply IH, E. by apply Hn.
  - rewrite (bind_run _ _ _ _ _ eq_refl) in E. destruct (Z.eqb_spec (batchNumber (x_sentinel w1)) 0); [done|].
    cbn [negb] in E. apply go_bind_Ret in E as (t & w2 & E2 & E). injection E as <- <-.
    apply on_committee_ctx in E2 as [Ec Es]. by apply Hbc.
Qed.

(** The committee answers, and no new configuration arrives. *)
Definition committee_answers : Prop :=
  forall c : W, CommitteeReady c = true -> exists b c', myTurn MyTurnSeed c = Ret (b, c').

Definition no_new_config (ctx : XdefiContext) : Prop :=
  forall n, match xv_NewConfig (xenv n) with Some v => v <= ConfigVersion ctx | None => True end.

Lemma scan_range_ready first last w r w' :
  scan_range xenv first last 0 w = Ret (r, w') ->
  CommitteeReady (x_committee w') = CommitteeReady (x_committee w) /\
  ConfigVersion (x_ctx w') = ConfigVersion (x_ctx w).
Proof.
  unfold scan_range. intros E.
  do 3 rewrite (bind_run _ _ _ _ _ eq_refl) in E. rewrite Hlog in E.
  rewrite (bind_run _ _ _ _ _ eq_refl) in E. cbn [x_committee] in E.
  destruct (CommitteeReady (x_committee w)) eqn:Hr; cbn [negb] in E; [|by injection E as <- <-].
  apply go_bind_Ret in E as (p & w1 & E1 & E).
  edestruct (scan_events_run (VaultAddrFrom (x_ctx w)) (events_in log first last) ∅ 0)
    as (rb & ct & w2 & E2 & (S1 & S2 & _) & _); [|rewrite E2 in E1; injection E1 as <- <-].
  { cbn. exact Hr. }
  cbn in S1, S2. rewrite (bind_run _ _ _ _ _ eq_refl) in E. go_inv E. unfold glift, RecordVaultScan in E0.
  destruct (for_le _ _ _ _ _); [|done]. injection E0 as <- <-.
  rewrite (bind_run _ _ _ _ _ eq_refl) in E. injection E as <- <-. cbn. by rewrite S1, S2.
Qed.

(** Far from the head the loop needs at most four filter calls. *)
Lemma scan_loop_returns : committee_answers -> forall fuel last lastCurrent vault w,
  (forall n, exists h, xv_BlockNumberFrom (xenv n) = Ok h /\ start + 200 <= h < 2 ^ 62) ->
  scan_inv log start last vault w -> no_new_config (x_ctx w) ->
  CommitteeReady (x_committee w) = true ->
  last - start <= 60 -> 60 < last - start + 20 * Z.of_nat fuel ->
  exists batch w', scan_loop xenv fuel start last lastCurrent 0 w = Ret (Some batch, w').
Proof.
  intros Hcom. induction fuel as [|fuel IH]; intros last lastCurrent vault w Hfar HI Hcfg Hr Hlo Hhi; [lia|].
  cbn [scan_loop]. change (0 >? 0) with false. cbn iota. do 2 rewrite (bind_run _ _ _ _ _ eq_refl).
  pose proof (Hcfg (x_tick w)) as Hc0.
  assert (match xv_NewConfig (xenv (x_tick w)) with Some v => v >? ConfigVersion (x_ctx w) | None => false end
          = false) as ->.
  { destruct (xv_NewConfig _) as [v|]; [|done]. destruct (Z.gtb_spec v (ConfigVersion (x_ctx w))); [lia|done]. }
  rewrite (bind_run _ _ _ _ _ eq_refl). cbn [x_tick].
  destruct (Hfar (S (x_tick w))) as (h & -> & Hb). pose proof HI as [Hrg Hv Hbn He Hs].
  assert ((h =? lastCurrent) && (u64 (lastCurrent - last) <? CatchupWithinBlocks) = false) as ->.
  { destruct (Z.eqb_spec h lastCurrent) as [<-|]; [|done]. unfold CatchupWithinBlocks.
    rewrite u64_small by (unfold is_u64, MaxUint64; lia). apply Z.ltb_ge. lia. }
  rewrite u64_small by (unfold is_u64, MaxUint64, BlockDelay; lia). unfold BlockDelay, MinScanBlockNumber.
  destruct (Z.ltb_spec (h - 12) 20); [lia|].
  assert (scan_window last (h - 12) = (last, last + 19)) as ->.
  { unfold scan_window, ScanRangeMulti, ScanRangeDouble.
    rewrite !(u64_small (last + _)), !u64_small by (unfold is_u64, MaxUint64; lia).
    repeat split_if; try lia. f_equal. lia. }
  set (w1 := mkXWorld _ _ _ _ _ _ _).
  destruct (scan_range_run last (last + 19) w1) as (rb & ct & w2 & E1 & _); [lia|lia|lia|done|].
  rewrite (bind_run _ _ _ _ _ E1). destruct (scan_range_ready _ _ _ _ _ E1) as [Hr2 Hcv].
  assert (HI1 : scan_inv log start last vault w1) by by split.
  apply (scan_range_inv last last (last + 19) vault) in E1 as (_ & Hct & _ & Hb1 & _ & _ & Hn); [|done|lia..].
  destruct (Nat.eqb_spec (size rb) 0) as [Hz%map_size_empty_inv|Hne].
  - rewrite u64_small by (unfold is_u64, MaxUint64; lia). unfold MaxEmptyBatchBlocks.
    destruct (Z.geb_spec (last + 19 - start) 60); [by eexists _, _|].
    rewrite (Hct Hz), u64_small by (unfold is_u64, MaxUint64; lia).
    apply (IH _ _ vault w2); [done|by apply Hn| |by rewrite Hr2|lia|lia].
    intros n. specialize (Hcfg n). by rewrite Hcv.
  - rewrite (bind_run _ _ _ _ _ eq_refl). destruct (Z.eqb_spec (batchNumber (x_sentinel w2)) 0); [done|].
    cbn [negb]. destruct (Hcom (x_committee w2)) as (b & c' & Eb); [by rewrite Hr2|].
    eexists _, _. erewrite bind_run by (unfold on_committee; rewrite Eb; reflexivity). reflexivity.
Qed.

(** One round of the loop over blocks without events. *)
Lemma scan_round_empty fuel first0 last lastCurrent first e cur w :
  no_new_config (x_ctx w) -> CommitteeReady (x_committee w) = true ->
  match xv_BlockNumberFrom (xenv (S (x_tick w))) with Ok n => n | Err => 0 end = cur ->
  (cur =? lastCurrent) && (u64 (lastCurrent - last) <? CatchupWithinBlocks) = false ->
  MinScanBlockNumber <= u64 (cur - BlockDelay) ->
  scan_window last (u64 (cur - BlockDelay)) = (first, e) ->
  0 <= first -> e < 2 ^ 63 -> e - first < 20 -> events_in log first e = [] ->
  exists w2,
    scan_loop xenv (S fuel) first0 last lastCurrent 0 w =
      (if u64 (e - first0) >=? MaxEmptyBatchBlocks
       then mret (Some (mkVaultEventsBatch ∅ (VaultAddrFrom (x_ctx w)) first0 e))
       else scan_loop xenv fuel first0 (u64 (e + 1)) cur 0) w2 /\
    no_new_config (x_ctx w2) /\ CommitteeReady (x_committee w2) = true.
Proof.
  intros Hcfg Hr Hcur Hom Hmin Hwin Hf0 He Hlen Hev. cbn [scan_loop]. change (0 >? 0) with false. cbn iota.
  do 2 rewrite (bind_run _ _ _ _ _ eq_refl). pose proof (Hcfg (x_tick w)) as Hc0.
  assert (match xv_NewConfig (xenv (x_tick w)) with Some v => v >? ConfigVersion (x_ctx w) | None => false end
          = false) as ->.
  { destruct (xv_NewConfig _) as [v|]; [|done]. destruct (Z.gtb_spec v (ConfigVersion (x_ctx w))); [lia|done]. }
  rewrite (bind_run _ _ _ _ _ eq_refl). cbn [x_tick]. rewrite Hcur, Hom.
  destruct (Z.ltb_spec (u64 (cur - BlockDelay)) MinScanBlockNumber); [lia|]. rewrite Hwin.
  set (w1 := mkXWorld _ _ _ _ _ _ _).
  destruct (scan_range_run first e w1) as (rb & ct & w2 & E & Hd & Hct & _); [done..|].
  rewrite Hev in Hd. apply dom_empty_inv_L in Hd as ->.
  rewrite (bind_run _ _ _ _ _ E), (Hct eq_refl). destruct (scan_range_ready _ _ _ _ _ E) as [Hr2 Hcv].
  exists w2. split; [by destruct (_ >=? _)|]. rewrite Hr2. split; [|done].
  intros n. specialize (Hcfg n). by rewrite Hcv.
Qed.

End stable.
End scan.

(** Reading the watermark of a vault that has one. *)
Lemma getLastBlock_run `{MoacLib} {W : Type} (xenv : nat -> XView) (w : XWorld W) wm :
  xv_VaultWatermark (xenv (x_tick w)) (VaultAddrFrom (x_ctx w)) = Ok wm -> 0 < wm < 2 ^ 61 ->
  exists s', getLastBlock xenv w =
    Ret (wm + 1, mkXWorld s' (x_ctx w) (x_committee w) (S (x_tick w)) (x_sent w)
                   (x_broadcast w) (x_committed w)) /\ batchNumber s' = wm + 1.
Proof.
  intros Hwm Hb. unfold getLastBlock. do 2 rewrite (bind_run _ _ _ _ _ eq_refl). rewrite Hwm.
  rewrite (bind_run _ _ _ _ _ eq_refl).
  rewrite (u64_small (Z.abs wm)) by (unfold is_u64, MaxUint64; lia).
  destruct (Z.eqb_spec (Z.abs wm) 0); [lia|].
  rewrite u64_small by (unfold is_u64, MaxUint64; lia). replace (Z.abs wm + 1) with (wm + 1) by lia.
  rewrite (bind_run _ _ _ _ _ eq_refl). eexists. split; [reflexivity|]. done.
Qed.

Lemma scan_start `{MoacLib} {W : Type} (log : list RawEvent) (w : XWorld W) s' wm t :
  0 < wm < 2 ^ 61 -> batchNumber s' = wm + 1 ->
  scan_inv log (wm + 1) (wm + 1) (VaultAddrFrom (x_ctx w))
    (mkXWorld s' (x_ctx w) (x_committee w) t (x_sent w) (x_broadcast w) (x_committed w)).
Proof. intros Hb Hs. split; cbn; [lia|done|lia|lia|lia]. Qed.

(** C7. A batch holds exactly the events of its blocks.  When the log of the
    vault is stable, the watermark is positive and below 2^61, and every reading
    of the head is below 2^62 and above the watermark by more than the block
    delay, a batch returned by [scanVaultEvents] starts just above the
    watermark, ends at least [BlockDelay] below a reading of the head, and
    contains the hashes of all events of the log in its range and nothing else;
    all of them are recorded in the sentinel, and every block of the range is
    marked as scanned. *)
Theorem scan_batch_complete `{MoacLib} {W : Type} `{!Committee W} (xenv : nat -> XView)
    (log : list RawEvent) fuel (w : XWorld W) wm batch w' :
  stable_log xenv log ->
  xv_VaultWatermark (xenv (x_tick w)) (VaultAddrFrom (x_ctx w)) = Ok wm -> 0 < wm < 2 ^ 61 ->
  head_ahead xenv (wm + 1) ->
  scanVaultEvents xenv fuel w = Ret (Some batch, w') ->
  batch_complete xenv log (wm + 1) (VaultAddrFrom (x_ctx w)) batch w'.
Proof.
  intros Hlog Hwm Hb Hhead E. destruct (getLastBlock_run xenv w wm Hwm Hb) as (s' & Eg & Hs).
  unfold scanVaultEvents in E. rewrite (bind_run _ _ _ _ _ Eg) in E.
  eapply (scan_loop_batch xenv log (wm + 1) Hlog Hhead); [|exact E]. by apply scan_start.
Qed.

(** A scan that is far behind makes progress: when every reading of the
    head is at least two hundred blocks above the watermark, the committee is
    ready and no newer configuration arrives, four rounds are enough for
    [scanVaultEvents] to return a batch. *)
Theorem scan_returns_batch `{MoacLib} {W : Type} `{!Committee W} (xenv : nat -> XView)
    (log : list RawEvent) fuel (w : XWorld W) wm :
  stable_log xenv log ->
  xv_VaultWatermark (xenv (x_tick w)) (VaultAddrFrom (x_ctx w)) = Ok wm -> 0 < wm < 2 ^ 61 ->
  (forall n, exists h, xv_BlockNumberFrom (xenv n) = Ok h /\ wm + 1 + 200 <= h < 2 ^ 62) ->
  no_new_config xenv (x_ctx w) -> CommitteeReady (x_committee w) = true ->
  committee_answers (W := W) -> (4 <= fuel)%nat ->
  exists batch w', scanVaultEvents xenv fuel w = Ret (Some batch, w').
Proof.
  intros Hlog Hwm Hb Hfar Hcfg Hr Hcom Hf. destruct (getLastBlock_run xenv w wm Hwm Hb) as (s' & Eg & Hs).
  unfold scanVaultEvents. rewrite (bind_run _ _ _ _ _ Eg).
  eapply (scan_loop_returns xenv log (wm + 1) Hlog Hcom); [done|by apply scan_start|done|done|lia|lia].
Qed.

(** ** Concrete scans *)
Definition sample_log : list RawEvent :=
  [mkRawEvent (Some 101) (Some 102) 2 3 4 (Some 1000) (Some 0) (Some 1) (Some 1) (Some 105);
   mkRawEvent (Some 101) (Some 102) 2 3 5 (Some 2000) (Some 0) (Some 2) (Some 2) (Some 300)].

Definition sample_ctx : XdefiContext :=
  NewXdefiContext DEPOSIT (mkXdefiContextConfig 101 "mc" "" "" 102 "mc" "" "" 7 8 1) 1.

Definition sample_world : XWorld World :=
  mkXWorld (sentinel_initial (mkVaultPairListConfig [])) sample_ctx pair_active 0 [] [] [].

(** Views with a given head and log. *)
Definition chain_view (head : result Z) (log : list RawEvent) (watermark : Z) : XView :=
  mkXView 0 None head head head (Ok 1) (fun _ => Ok 1) (fun _ => Ok 0)
    (fun first last => Ok (events_in log first last)) (fun _ _ => Some [])
    (fun _ => Ok watermark) (Ok 50) (fun _ _ => Ok 0) (fun _ _ => Ok 0) (fun _ _ _ => Err)
    open_backend (fun _ => Ok "data").

Abbreviation scan_run head log watermark :=
  (scanVaultEvents (Committee0 := dkg_committee pair_env)
     (fun _ => chain_view head log watermark) 10 sample_world).

(** The range of the batch a scan returns. *)
Definition batch_range (r : outcome (option VaultEventsBatch * XWorld World)) : option (Z * Z * nat) :=
  match r with
  | Ret (Some b, _) => Some (batch_Start b, batch_End b, size (Batch b))
  | _ => None
  end.

Lemma batch_range_inv r x :
  batch_range r = Some x -> exists b w', r = Ret (Some b, w') /\ x = (batch_Start b, batch_End b, size (Batch b)).
Proof. destruct r as [[[b|] w']| |]; cbn; [|done..]. intros [= <-]. eauto. Qed.

Lemma scan_batch_complete_witness :
  exists batch w', scan_run (Ok 400) sample_log 100 = Ret (Some batch, w') /\ batch_End batch = 120 /\
    batch_complete (fun _ => chain_view (Ok 400) sample_log 100) sample_log 101 7 batch w'.
Proof.
  assert (Hr : batch_range (scan_run (Ok 400) sample_log 100) = Some (101, 120, 1%nat))
    by (vm_compute; reflexivity).
  apply batch_range_inv in Hr as (b & w' & E & Ex). exists b, w'. split; [exact E|].
  split; [congruence|].
  apply (scan_batch_complete (Committee0 := dkg_committee pair_env)
    (fun _ => chain_view (Ok 400) sample_log 100) sample_log 10 sample_world 100 b w').
  - intros n first last. reflexivity.
  - reflexivity.
  - lia.
  - intros n. exists 400. split; [reflexivity|]. unfold BlockDelay. lia.
  - exact E.
Defined.

(** With the head exactly the block delay above the watermark the scan goes back
    to the block of the watermark: the batch it returns ends below its start, and
    has the events of that block again. *)
Lemma scan_rescans_watermark :
  batch_range (scan_run (Ok 117) sample_log 105) = Some (106, 105, 1%nat).
Proof. vm_compute. reflexivity. Qed.

Lemma pair_committee_answers : committee_answers (Committee0 := dkg_committee pair_env).
Proof.
  intros c _. unfold myTurn. erewrite bind_run by reflexivity. cbv beta iota zeta.
  destruct (_ =? -1); [by eexists _, _|]. change (u64 _ =? 0) with false. by eexists _, _.
Qed.

Lemma scan_returns_batch_witness :
  exists batch w', scan_run (Ok 400) [] 100 = Ret (Some batch, w').
Proof.
  apply (scan_returns_batch (Committee0 := dkg_committee pair_env)
    (fun _ => chain_view (Ok 400) [] 100) [] 10 sample_world 100).
  - intros n first last. reflexivity.
  - reflexivity.
  - lia.
  - intros n. exists 400. split; [reflexivity|]. lia.
  - intros n. exact I.
  - vm_compute. reflexivity.
  - exact pair_committee_answers.
  - lia.
Defined.

(** The watermark can pass blocks that do not exist yet: while the head of
    the source chain cannot be read, the horizon wraps around and the scan
    walks on; after four empty filter calls it returns an empty batch that
    ends eighty blocks above the watermark, whatever the height of the chain. *)
Theorem scan_past_head `{MoacLib} {W : Type} `{!Committee W} (xenv : nat -> XView) fuel (w : XWorld W) wm :
  stable_log xenv [] -> (forall n, xv_BlockNumberFrom (xenv n) = Err) ->
  xv_VaultWatermark (xenv (x_tick w)) (VaultAddrFrom (x_ctx w)) = Ok wm -> 0 < wm < 2 ^ 61 ->
  no_new_config xenv (x_ctx w) -> CommitteeReady (x_committee w) = true -> (4 <= fuel)%nat ->
  exists batch w', scanVaultEvents xenv fuel w = Ret (Some batch, w') /\
    batch_Start batch = wm + 1 /\ batch_End batch = wm + 80 /\ Batch batch = ∅.
Proof.
  intros Hlog Herr Hwm Hb Hcfg Hr Hf. destruct (getLastBlock_run xenv w wm Hwm Hb) as (s' & Eg & _).
  unfold scanVaultEvents. rewrite (bind_run _ _ _ _ _ Eg).
  assert (Hround : forall fuel last w1, wm + 1 <= last <= wm + 61 ->
    no_new_config xenv (x_ctx w1) -> CommitteeReady (x_committee w1) = true ->
    exists w2, scan_loop xenv (S fuel) (wm + 1) last 0 0 w1 =
      (if u64 (last + 19 - (wm + 1)) >=? MaxEmptyBatchBlocks
       then mret (Some (mkVaultEventsBatch ∅ (VaultAddrFrom (x_ctx w1)) (wm + 1) (last + 19)))
       else scan_loop xenv fuel (wm + 1) (u64 (last + 19 + 1)) 0 0) w2 /\
      no_new_config xenv (x_ctx w2) /\ CommitteeReady (x_committee w2) = true).
  { intros f last w1 Hl Hc1 Hr1. apply (scan_round_empty xenv [] Hlog f (wm + 1) last 0 last); try done; try lia.
    - by rewrite Herr.
    - unfold CatchupWithinBlocks. rewrite u64_sub_wrap by (unfold is_u64, MaxUint64; lia).
      apply Z.ltb_ge. lia.
    - change (u64 (0 - BlockDelay)) with 18446744073709551604. unfold scan_window, ScanRangeMulti, ScanRangeDouble.
      rewrite !(u64_small (last + _)), !u64_small by (unfold is_u64, MaxUint64; lia).
      repeat split_if; try lia. f_equal. lia. }
  assert (Hstep : forall k fuel w1, (k < 3)%nat ->
    no_new_config xenv (x_ctx w1) -> CommitteeReady (x_committee w1) = true ->
    exists w2, scan_loop xenv (S fuel) (wm + 1) (wm + 1 + 20 * Z.of_nat k) 0 0 w1 =
        scan_loop xenv fuel (wm + 1) (wm + 1 + 20 * Z.of_nat (S k)) 0 0 w2 /\
      no_new_config xenv (x_ctx w2) /\ CommitteeReady (x_committee w2) = true).
  { intros k f w1 Hk Hc1 Hr1.
    destruct (Hround f (wm + 1 + 20 * Z.of_nat k) w1) as (w2 & -> & Hc2 & Hr2); [lia|done..|].
    exists w2. split; [|done]. rewrite !u64_small by (unfold is_u64, MaxUint64; lia). unfold MaxEmptyBatchBlocks.
    destruct (Z.geb_spec (wm + 1 + 20 * Z.of_nat k + 19 - (wm + 1)) 60); [lia|]. f_equal. lia. }
  do 4 (destruct fuel as [|fuel]; [lia|]). set (w1 := mkXWorld _ _ _ _ _ _ _).
  destruct (Hstep 0%nat (S (S (S fuel))) w1) as (w2 & E1 & Hc2 & Hr2); [lia|done..|].
  replace (wm + 1 + 20 * Z.of_nat 0) with (wm + 1) in E1 by lia. rewrite E1.
  destruct (Hstep 1%nat (S (S fuel)) w2) as (w3 & -> & Hc3 & Hr3); [lia|done..|].
  destruct (Hstep 2%nat (S fuel) w3) as (w4 & -> & Hc4 & Hr4); [lia|done..|].
  destruct (Hround fuel (wm + 1 + 20 * Z.of_nat 3) w4) as (w5 & -> & _); [lia|done..|].
  rewrite !u64_small by (unfold is_u64, MaxUint64; lia). unfold MaxEmptyBatchBlocks.
  destruct (Z.geb_spec (wm + 1 + 20 * Z.of_nat 3 + 19 - (wm + 1)) 60); [|lia].
  eexists _, w5. split; [reflexivity|]. cbn [batch_Start batch_End Batch]. split_and!; [done|lia|done].
Qed.

Lemma scan_past_head_witness :
  exists batch w', scan_run Err [] 100 = Ret (Some batch, w') /\
    batch_Start batch = 101 /\ batch_End batch = 180 /\ Batch batch = ∅.
Proof.
  apply (scan_past_head (Committee0 := dkg_committee pair_env)
    (fun _ => chain_view Err [] 100) 10 sample_world 100).
  - intros n first last. reflexivity.
  - reflexivity.
  - reflexivity.
  - lia.
  - intros n. exact I.
  - vm_compute. reflexivity.
  - lia.
Defined.

(** A scan that has caught up with its horizon returns an empty batch that
    ends below its start: the length of the range wraps around and passes for
    a long gap without events. *)
Theorem scan_caught_up_batch `{MoacLib} {W : Type} `{!Committee W} (xenv : nat -> XView) fuel
    (w : XWorld W) wm head :
  stable_log xenv [] -> (forall n, xv_BlockNumberFrom (xenv n) = Ok head) ->
  MinScanBlockNumber + BlockDelay <= head <= wm + BlockDelay ->
  xv_VaultWatermark (xenv (x_tick w)) (VaultAddrFrom (x_ctx w)) = Ok wm -> 0 < wm < 2 ^ 61 ->
  no_new_config xenv (x_ctx w) -> CommitteeReady (x_committee w) = true -> (1 <= fuel)%nat ->
  exists batch w', scanVaultEvents xenv fuel w = Ret (Some batch, w') /\
    batch_Start batch = wm + 1 /\ batch_End batch = head - BlockDelay /\
    batch_End batch < batch_Start batch /\ Batch batch = ∅.
Proof.
  unfold MinScanBlockNumber, BlockDelay. intros Hlog Hhead Hh Hwm Hb Hcfg Hr Hf.
  destruct (getLastBlock_run xenv w wm Hwm Hb) as (s' & Eg & _).
  unfold scanVaultEvents. rewrite (bind_run _ _ _ _ _ Eg). destruct fuel as [|fuel]; [lia|].
  edestruct (scan_round_empty xenv [] Hlog fuel (wm + 1) (wm + 1) 0 (head - 12) (head - 12) head)
    as (w2 & -> & _); [| | | | | | | | | |]; try done; try lia.
  - by rewrite Hhead.
  - unfold BlockDelay, MinScanBlockNumber. rewrite u64_small by (unfold is_u64, MaxUint64; lia). lia.
  - unfold BlockDelay, scan_window, ScanRangeMulti, ScanRangeDouble.
    rewrite !(u64_small (wm + 1 + _)), !u64_small by (unfold is_u64, MaxUint64; lia).
    repeat split_if; try lia; f_equal; lia.
  - rewrite u64_sub_wrap by (unfold is_u64, MaxUint64; lia). unfold MaxEmptyBatchBlocks.
    destruct (Z.geb_spec (head - 12 - (wm + 1) + 18446744073709551616) 60); [|lia].
    eexists _, _. split; [reflexivity|]. cbn. split_and!; [done|done|lia|done].
Qed.

Lemma scan_caught_up_batch_witness :
  exists batch w', scan_run (Ok 112) [] 100 = Ret (Some batch, w') /\
    batch_Start batch = 101 /\ batch_End batch = 100 /\ batch_End batch < batch_Start batch /\
    Batch batch = ∅.
Proof.
  apply (scan_caught_up_batch (Committee0 := dkg_committee pair_env)
    (fun _ => chain_view (Ok 112) [] 100) 10 sample_world 100 112).
  - intros n first last. reflexivity.
  - reflexivity.
  - unfold MinScanBlockNumber, BlockDelay. lia.
  - reflexivity.
  - lia.
  - intros n. exact I.
  - vm_compute. reflexivity.
  - lia.
Defined.
