(* ===== verification/XdefiCommit.v ===== *)
(** * Filing batches and minting (sentinel/xdefi.go)

    The batches a scan produced wait for enough signatures, are filed in the
    xevents contract in the order of their nonces, and move the vault watermark
    once every event is filed; other goroutines mint or withdraw on the target
    chain from the events filed. *)
From S2P Require Import Prelude GoMonad Fmt Sha256 Event DkgBase Bind Sentinel Xdefi.
Local Open Scope Z_scope.

(** What [commitVaultEvents] accumulates: the nonces already filed, those in
    error, and the events to file. *)
Record Committing := mkCommitting {
  cm_succeeded : list Z;
  cm_errors : list Z;
  cm_exts : list VaultEventExt
}.

(** The events of the select loops. *)
Inductive loop_event : Type :=
| LOther
| LNewConfig (version : Z)
| LTick.

Section commit.
Context `{MoacLib} {W : Type} `{!Committee W} `{!MapOrder Hash bool}.
Variable xenv : nat -> XView.
(** The sentinel's key. *)
Variables (keyAddr : Address) (sign : Z -> RawTx -> result RawTx).

Abbreviation world := (XWorld W).

(** ** Sending transactions *)
Definition record_sent (x : XTx * (RawTx + BindError)) : go world unit :=
  gmodify (fun w => mkXWorld (x_sentinel w) (x_ctx w) (x_committee w) (x_tick w) (x_sent w ++ [x])
                      (x_broadcast w) (x_committed w)).

(** A transaction through a binding: nil options are dereferenced after the
    arguments are packed. *)
Definition send_tx (address : Address) (transactor : option TransactOpts) (tx : XTx)
    : go world ((RawTx + BindError) * option TransactOpts) :=
  v ← xcall xenv (fun v => v);
  match transactor with
  | None =>
      match xv_Packed v tx with
      | Err => _ ← record_sent (tx, inr ErrPack); mret (inr ErrPack, None)
      | Ok _ => gpanic
      end
  | Some opts =>
      r ← glift (Transact (xv_Backend v) address opts (xv_Packed v tx));
      _ ← record_sent (tx, fst r);
      mret (fst r, Some (snd r))
  end.

Definition xtransactor (gasPrice gasLimit : Z) : go world (option TransactOpts) :=
  chainId ← xcall xenv xv_ChainID;
  s ← xsentinel;
  let '(t, s') := getTransactor keyAddr sign chainId gasPrice gasLimit s in
  _ ← upd_sentinel (fun _ => s');
  mret t.

Definition XeventsAddr (ctx : XdefiContext) : Address :=
  if IsDeposit ctx then XeventsXYAddr else XeventsYXAddr.

(** ** Waiting for signatures *)
Definition ReceivedAllSigs (batch : VaultEventsBatch) : go world (Z * bool) :=
  s ← xsentinel;
  com ← xcommittee;
  let readyCount :=
    foldl (fun readyCount '(vaultEventHash, _) =>
      match VaultEventsSigs s !! vaultEventHash with
      | Some sigs =>
          if Z.of_nat (size sigs) >=? Sentinel_Threshold com then readyCount + 1 else readyCount
      | None => readyCount
      end)
      0 (range (Batch batch)) in
  mret (readyCount, readyCount =? Z.of_nat (size (Batch batch))).

Definition push_pending (batch : VaultEventsBatch) : go world unit :=
  ctx ← xctx;
  set_ctx (mkXdefiContext (EventType ctx) (Config ctx) (ConfigVersion ctx) (VaultScanBitmap ctx)
             (QueueVaultEventsBatchChan ctx) (PendingVaultEventsBatchChan ctx ++ [batch])).

(** [QueueVaultEventsBatch], the case of a batch received from the queue. *)
Definition queue_batch (batch : VaultEventsBatch) : go world unit :=
  if Nat.eqb (size (Batch batch)) 0 then push_pending batch
  else
    r ← ReceivedAllSigs batch;
    if snd r : bool then push_pending batch else mret tt.

(** ** Filing a batch *)

(** The sort key of an event. *)
Definition commit_key (e : VaultEvent) : string :=
  Address_x (Vault e) +:+ "," +:+ hex (be_bytes 32 (VaultEvent_TokenMappingSha256 e)) +:+ "," +:+
  fmt_12d (Nonce e).

(** The keys of the events of a batch and the table from keys to hashes; an
    unknown event is dereferenced. *)
Fixpoint commit_keys (s : Sentinel) (hashes : list (Hash * bool))
    (acc : list string * gmap string Hash) : outcome (list string * gmap string Hash) :=
  match hashes with
  | [] => Ret acc
  | (h, _) :: rest =>
      match VaultEvents s !! h with
      | None => Panic
      | Some e =>
          let key := commit_key (Event e) in
          commit_keys s rest (fst acc ++ [key], <[key := h]> (snd acc))
      end
  end.

(** One event: already filed, in error, or to be filed. *)
Definition commit_event (noncesMap : gmap string Hash) (acc : Committing) (key : string)
    : go world Committing :=
  let vaultEventHash := default 0 (noncesMap !! key) in
  s ← xsentinel;
  match VaultEvents s !! vaultEventHash with
  | None => gpanic
  | Some ews =>
      let vaultEvent := Event ews in
      r ← xcall xenv (fun v => xv_TokenMappingWatermark v (Vault vaultEvent)
                                 (VaultEvent_TokenMappingSha256 vaultEvent));
      _ ← log_rpc "xevents" "VaultEventWatermark";
      nonce ← glift (big_Uint64 (Nonce vaultEvent));
      match r with
      | Err => mret (mkCommitting (cm_succeeded acc) (cm_errors acc ++ [nonce]) (cm_exts acc))
      | Ok watermark =>
          if u64 (Z.abs watermark) >? nonce
          then mret (mkCommitting (cm_succeeded acc ++ [nonce]) (cm_errors acc) (cm_exts acc))
          else
            mret (mkCommitting (cm_succeeded acc) (cm_errors acc)
                    (cm_exts acc ++
                     [mkVaultEventExt (Blssig ews) (Vault vaultEvent) (Nonce vaultEvent)
                        (VaultEvent_TokenMappingSha256 vaultEvent) (VaultEvent_Bytes vaultEvent)]))
      end
  end.

(** The nonces of the events sent. *)
Definition ext_nonces (exts : list VaultEventExt) : list Z :=
  (fun e => u64 (Z.abs (default 0 (ext_Nonce e)))) <$> exts.

Definition commitVaultEvents (batch : VaultEventsBatch)
    : go world (list Z * list Z * list Z * option TransactOpts) :=
  ctx ← xctx;
  balance ← xcall xenv (fun v => xv_BalanceAt v keyAddr);
  match balance with
  | Err => mret ([], [], [], None)
  | Ok balance =>
      nonceAt ← xcall xenv (fun v => xv_NonceAt v keyAddr);
      match nonceAt with
      | Err => mret ([], [], [], None)
      | Ok _ =>
          if u64 (Z.abs balance) =? 0 then mret ([], [], [], None)
          else
            vaultWatermark ← xcall xenv (fun v => xv_VaultWatermark v XeventsXYAddr);
            match vaultWatermark with
            | Err => mret ([], [], [], None)
            | Ok vaultWatermark =>
                _ ← log_rpc "xevents" "VaultWatermark";
                if u64 (Z.abs vaultWatermark) >=? batch_Start batch then mret ([], [], [], None)
                else
                  transactor ← xtransactor DefaultGasPrice DefaultGasLimit;
                  s ← xsentinel;
                  keys ← glift (commit_keys s (range (Batch batch)) ([], ∅));
                  let nonces := merge_sort str_le (fst keys) in
                  acc ← for_each (commit_event (snd keys)) (mkCommitting [] [] []) nonces;
                  match cm_exts acc with
                  | [] => mret (cm_succeeded acc, [], cm_errors acc, transactor)
                  | _ :: _ =>
                      match transactor with
                      | None => gpanic
                      | Some _ =>
                          r ← send_tx (XeventsAddr ctx) transactor
                                (TxRecordVaultEventBatch (cm_exts acc));
                          _ ← log_rpc "xevents" "Store Batch";
                          match fst r with
                          | inr _ =>
                              mret (cm_succeeded acc, [], cm_errors acc ++ ext_nonces (cm_exts acc), snd r)
                          | inl _ =>
                              mret (cm_succeeded acc, ext_nonces (cm_exts acc), cm_errors acc, snd r)
                          end
                      end
                  end
            end
      end
  end.

(** ** Moving the watermark *)
Fixpoint confirm_loop (fuel : nat) (batch : VaultEventsBatch) (succeeded : list Z)
    (transactor : option TransactOpts) (blockNumberBefore : Z) : go world (result unit) :=
  match fuel with
  | O => gfuel
  | S fuel' =>
      ctx ← xctx;
      newConfig ← xcall xenv xv_NewConfig;
      if match newConfig with Some v => v >? ConfigVersion ctx | None => false end
      then mret (Ok tt)
      else
        r ← xcall xenv xv_BlockNumberXevents;
        match r with
        | Err => mret Err
        | Ok blockNumberAfter =>
            if (blockNumberAfter >? blockNumberBefore) &&
               (Z.of_nat (length succeeded) =? Z.of_nat (size (Batch batch)))
            then
              _ ← send_tx (XeventsAddr ctx) transactor
                    (TxUpdateVaultWatermark (batch_Vault batch) (i64 (batch_End batch)));
              mret (Ok tt)
            else if u64 (blockNumberAfter - blockNumberBefore) >? BatchCommitThreshold
            then mret Err
            else confirm_loop fuel' batch succeeded transactor blockNumberBefore
        end
  end.

Definition confirmVaultEvents (fuel : nat) (batch : VaultEventsBatch) (succeeded : list Z)
    (transactor : option TransactOpts) : go world (result unit) :=
  r ← xcall xenv xv_BlockNumberXevents;
  match r with
  | Err => mret Err
  | Ok blockNumberBefore => confirm_loop fuel batch succeeded transactor blockNumberBefore
  end.

(** [PendingVaultEventsBatch], the case of a batch received. *)
Definition pending_batch (fuel : nat) (batch : VaultEventsBatch) : go world unit :=
  mine ← on_committee (myTurn MyTurnSeed);
  if mine : bool then
    r ← commitVaultEvents batch;
    let '(succeeded, committed, errors, transactor) :=
      (r : list Z * list Z * list Z * option TransactOpts) in
    match transactor with
    | None => mret tt
    | Some _ =>
        c ← confirmVaultEvents fuel batch succeeded transactor;
        match c with
        | Ok _ =>
            gmodify (fun w => mkXWorld (x_sentinel w) (x_ctx w) (x_committee w) (x_tick w) (x_sent w)
                                (x_broadcast w) (x_committed w ++ [batch]))
        | Err => mret tt
        end
    end
  else mret tt.

End commit.
