(* ===== verification/XdefiMint.v ===== *)
(** * Minting on the target chain, and the worker loops (sentinel/xdefi.go)

    [commitTokenMints] prepares mints (or withdraws) on the target chain for the
    events filed above the target's watermark and waits for the watermark to
    follow; [rejectTokenMints] reviews recent mints; the loops run them on a
    ticker. *)
From S2P Require Import Prelude GoMonad Fmt Sha256 Abi Event DkgBase Bind Sentinel Xdefi XdefiCommit.
Local Open Scope Z_scope.

Section mint.
Context `{MoacLib} `{CommonLib} {W : Type} `{!Committee W} `{!MapOrder Hash bool}.
Variable xenv : nat -> XView.
Variables (keyAddr : Address) (sign : Z -> RawTx -> result RawTx).

Abbreviation world := (XWorld W).

(** The argument [tokenMintType] describes, and the [VaultYtokenMint] of an
    event. *)
Definition tokenMintType : Ty :=
  TupleTy [AddressTy; AddressTy; AddressTy; UintTy 256; UintTy 256; UintTy 256].

Definition Address_val (a : Address) : val := VBytes true (be 20 a).

Definition tokenMint (e : VaultEvent) : val :=
  VStruct [Address_val (SourceToken e); Address_val (MappedToken e); Address_val (To e);
           VBig (Amount e); VBig (Tip e); VBig (Nonce e)].

(** [arguments.Pack(tokenMint)], the error dropped; packing a nil [*big.Int]
    dereferences it. *)
Definition pack_tokenMint (e : VaultEvent) : outcome bytes :=
  match Arguments_Pack [tokenMintType] [tokenMint e] with
  | Ret (Ok tokenMintBytes) => Ret (bytes_string tokenMintBytes)
  | Ret Err => Ret ""
  | Panic => Panic
  | OutOfFuel => OutOfFuel
  end.

(** [PackTokenMintData] on the mints of a list of events. *)
Fixpoint PackTokenMintData (com : W) (tokenMints : list VaultEvent)
    : outcome (list Hash * list bytes) :=
  match tokenMints with
  | [] => Ret ([], [])
  | e :: rest =>
      data ← pack_tokenMint e;
      let hash := Keccak256 data in
      sig ← CommitteeSign com (be_bytes 32 hash);
      r ← PackTokenMintData com rest;
      Ret (hash :: fst r, sig :: snd r)
  end.

(** The mint or withdrawal of one event. *)
Definition mint_one (vaultEvent : VaultEvent) (transactor : TransactOpts)
    : go world ((RawTx + BindError) * option TransactOpts) :=
  ctx ← xctx;
  if IsDeposit ctx then
    com ← xcommittee;
    hs ← glift (PackTokenMintData com [vaultEvent]);
    r ← send_tx xenv (VaultYAddr (Config ctx)) (Some transactor) (TxPrepareMints (fst hs) (snd hs));
    _ ← log_rpc "vault" "PrepareMint";
    mret r
  else
    r ← send_tx xenv (VaultXAddr (Config ctx)) (Some transactor)
          (TxWithdraw (SourceToken vaultEvent) (MappedToken vaultEvent) (To vaultEvent)
             (Amount vaultEvent) (Tip vaultEvent) (Nonce vaultEvent));
    _ ← log_rpc "vault" "Withdraw";
    mret r.

(** [vaultEvent.Amount == nil || vaultEvent.Amount.Int64() == 0]. *)
Definition no_amount (amount : option Z) : bool :=
  match amount with
  | None => true
  | Some _ => match big_Int64 amount with Ret n => n =? 0 | _ => false end
  end.

(** The query loop, [n] iterations from index [i]: the number of transactions
    accepted. *)
Fixpoint mint_loop (n : nat) (tm : TokenMapping) (waterMark : Z) (i : Z)
    (transactor : TransactOpts) (committed : Z) : go world Z :=
  match n with
  | O => mret committed
  | S n' =>
      ctx ← xctx;
      data ← xcall xenv (fun v => xv_VaultEvents v (VaultAddrFrom ctx) (TokenMapping_Sha256 tm)
                                    (i64 (i64 waterMark + i)));
      _ ← log_rpc "xevents" "VaultEvents";
      let vaultEvent := DecodeBytes (match data with Ok d => d | Err => "" end) in
      if no_amount (Amount vaultEvent) then mret committed
      else
        r ← mint_one vaultEvent transactor;
        match fst r with
        | inr _ => mint_loop n' tm waterMark (i + 1) (default transactor (snd r)) committed
        | inl _ => mint_loop n' tm waterMark (i + 1) (default transactor (snd r)) (u64 (committed + 1))
        end
  end.

(** The wait for the target's watermark: an error of the call is retried at
    once, without being counted. *)
Fixpoint mint_wait (fuel : nat) (tm : TokenMapping) (waterMarkBefore committed wait : Z)
    : go world unit :=
  match fuel with
  | O => gfuel
  | S fuel' =>
      if committed =? 0 then mret tt
      else
        r ← xcall xenv (fun v => xv_VaultTokenMappingWatermark v (HexToAddress (tm_SourceToken tm))
                                   (HexToAddress (tm_MappedToken tm)));
        _ ← log_rpc "vault" "TokenMappingWatermark";
        match r with
        | Err => mint_wait fuel' tm waterMarkBefore committed wait
        | Ok waterMark =>
            if u64 (Z.abs waterMark) =? u64 (waterMarkBefore + committed) then mret tt
            else if wait + 1 >? 20 then mret tt
            else
              ctx ← xctx;
              newConfig ← xcall xenv xv_NewConfig;
              if match newConfig with Some v => v >? ConfigVersion ctx | None => false end
              then mret tt
              else mint_wait fuel' tm waterMarkBefore committed (wait + 1)
        end
  end.

(** [s[:10]], for the log line. *)
Definition log_token (s : string) : go world unit :=
  if Nat.ltb (String.length s) 10 then gpanic else mret tt.

(** The result is the number of transactions accepted. *)
Definition commitTokenMints (fuel : nat) (tm : TokenMapping) : go world Z :=
  r ← xcall xenv (fun v => xv_VaultTokenMappingWatermark v (HexToAddress (tm_SourceToken tm))
                             (HexToAddress (tm_MappedToken tm)));
  _ ← log_rpc "vault" "TokenMappingWatermark";
  match r with
  | Err => mret 0
  | Ok waterMark =>
      _ ← log_token (tm_SourceToken tm);
      _ ← log_token (tm_MappedToken tm);
      mine ← on_committee (myTurn MyTurnSeed);
      if negb mine then mret 0
      else
        transactor ← xtransactor xenv keyAddr sign DefaultGasPrice DefaultGasLimit;
        match transactor with
        | None => mret 0
        | Some transactor =>
            balance ← xcall xenv (fun v => xv_BalanceAt v keyAddr);
            match balance with
            | Err => mret 0
            | Ok balance =>
                if u64 (Z.abs balance) =? 0 then mret 0
                else
                  committed ← mint_loop MintBatchSize tm (u64 (Z.abs waterMark)) 0 transactor 0;
                  _ ← mint_wait fuel tm (u64 (Z.abs waterMark)) committed 0;
                  mret committed
            end
        end
  end.

(** ** Reviewing mints *)
Definition checkPrepareMint (event : PrepareMints) : bool := true.

Definition validatePrepareMints (event : PrepareMints) : go world unit :=
  ctx ← xctx;
  transactor ← xtransactor xenv keyAddr sign DefaultGasPrice DefaultGasLimit;
  match ToMints event, Signatures event with
  | m :: _, s :: _ =>
      _ ← send_tx xenv (VaultYAddr (Config ctx)) transactor (TxRejectMint m s (Validator event));
      log_rpc "vault" "RejectTokenMint"
  | _, _ => gpanic
  end.

(** [startBlock < 0] never holds of a [uint64]. *)
Definition rejectTokenMints : go world unit :=
  r ← xcall xenv xv_BlockNumberY;
  match r with
  | Err => mret tt
  | Ok endBlock =>
      let startBlock := u64 (endBlock - 100) in
      let startBlock := if startBlock <? 0 then 0 else startBlock in
      itrY ← xcall xenv (fun v => xv_FilterPrepareMints v startBlock endBlock);
      _ ← log_rpc "vault" "FilterPrepareMint";
      match itrY with
      | None => mret tt
      | Some events =>
          for_each (fun (_ : unit) event =>
            if negb (checkPrepareMint event) then validatePrepareMints event else mret tt) tt events
      end
  end.

(** ** The worker loops

    One case of the select statement of the ticker loops: [body] is the work of
    a tick and returns [true] to leave the loop.  The time of the last call
    starts an hour back. *)
Definition ticker_case (interval : Z) (body : go world bool) (ev : loop_event) (lastCall : Z)
    : go world (option Z) :=
  match ev with
  | LOther => mret (Some lastCall)
  | LNewConfig v =>
      ctx ← xctx;
      if v >? ConfigVersion ctx then mret None else mret (Some lastCall)
  | LTick =>
      now ← xcall xenv xv_Now;
      if now >? lastCall + interval * second then mret (Some lastCall)
      else
        leave ← body;
        if leave : bool then mret None
        else
          now ← xcall xenv xv_Now;
          mret (Some now)
  end.

(** The loop over a sequence of events; [true] when it was left. *)
Fixpoint ticker_loop (interval : Z) (body : go world bool) (evs : list loop_event) (lastCall : Z)
    : go world bool :=
  match evs with
  | [] => mret false
  | ev :: evs' =>
      r ← ticker_case interval body ev lastCall;
      match r with
      | None => mret true
      | Some lastCall' => ticker_loop interval body evs' lastCall'
      end
  end.

(** A worker: registered when it starts, removed when it leaves its loop. *)
Definition ticker_worker (name : string) (interval : Z) (body : go world bool)
    (evs : list loop_event) : go world unit :=
  _ ← upd_sentinel (addWorker name);
  now ← xcall xenv xv_Now;
  left ← ticker_loop interval body evs (now - 3600 * second);
  if left : bool then upd_sentinel (reduceWorker name) else mret tt.

Definition push_queue (batch : VaultEventsBatch) : go world unit :=
  ctx ← xctx;
  set_ctx (mkXdefiContext (EventType ctx) (Config ctx) (ConfigVersion ctx) (VaultScanBitmap ctx)
             (QueueVaultEventsBatchChan ctx ++ [batch]) (PendingVaultEventsBatchChan ctx)).

(** The tick of [ScanVaultEvents]. *)
Definition scan_tick (fuel : nat) : go world bool :=
  ctx ← xctx;
  newConfig ← xcall xenv xv_NewConfig;
  if match newConfig with Some v => v >? ConfigVersion ctx | None => false end then mret true
  else
    batch ← scanVaultEvents xenv fuel;
    _ ← match batch with Some b => push_queue b | None => mret tt end;
    mret false.

Definition ScanVaultEvents (fuel : nat) (evs : list loop_event) : go world unit :=
  ticker_worker "scanVaultEvents" VaultCheckInterval (scan_tick fuel) evs.

Definition CommitTokenMints (fuel : nat) (tm : TokenMapping) (evs : list loop_event) : go world unit :=
  ticker_worker "PrepareTokenMint" VaultCheckInterval (_ ← commitTokenMints fuel tm; mret false) evs.

Definition RejectTokenMints (evs : list loop_event) : go world unit :=
  ticker_worker "RejectTokenMint" VaultCheckInterval (_ ← rejectTokenMints; mret false) evs.

(** The loops over the batch channels: a batch is taken from the head of its
    channel, a newer configuration ends the loop. *)
Inductive batch_event : Type :=
| BOther
| BNewConfig (version : Z)
| BReceive.

Definition pop_queue : go world (option VaultEventsBatch) :=
  ctx ← xctx;
  match QueueVaultEventsBatchChan ctx with
  | [] => mret None
  | batch :: rest =>
      _ ← set_ctx (mkXdefiContext (EventType ctx) (Config ctx) (ConfigVersion ctx)
                     (VaultScanBitmap ctx) rest (PendingVaultEventsBatchChan ctx));
      mret (Some batch)
  end.

Definition pop_pending : go world (option VaultEventsBatch) :=
  ctx ← xctx;
  match PendingVaultEventsBatchChan ctx with
  | [] => mret None
  | batch :: rest =>
      _ ← set_ctx (mkXdefiContext (EventType ctx) (Config ctx) (ConfigVersion ctx)
                     (VaultScanBitmap ctx) (QueueVaultEventsBatchChan ctx) rest);
      mret (Some batch)
  end.

Fixpoint batch_loop (pop : go world (option VaultEventsBatch))
    (handle : VaultEventsBatch -> go world unit) (evs : list batch_event) : go world bool :=
  match evs with
  | [] => mret false
  | BOther :: evs' => batch_loop pop handle evs'
  | BNewConfig v :: evs' =>
      ctx ← xctx;
      if v >? ConfigVersion ctx then mret true else batch_loop pop handle evs'
  | BReceive :: evs' =>
      b ← pop;
      _ ← match b with Some batch => handle batch | None => mret tt end;
      batch_loop pop handle evs'
  end.

Definition batch_worker (name : string) (pop : go world (option VaultEventsBatch))
    (handle : VaultEventsBatch -> go world unit) (evs : list batch_event) : go world unit :=
  _ ← upd_sentinel (addWorker name);
  left ← batch_loop pop handle evs;
  if left : bool then upd_sentinel (reduceWorker name) else mret tt.

Definition QueueVaultEventsBatch (evs : list batch_event) : go world unit :=
  batch_worker "QueueVaultEventsBatch" pop_queue queue_batch evs.

Definition PendingVaultEventsBatch (fuel : nat) (evs : list batch_event) : go world unit :=
  batch_worker "PendingVaultEventsBatch" pop_pending (pending_batch xenv keyAddr sign fuel) evs.

(** The tick of [VaultScanStatus] reads three watermarks for the log. *)
Definition status_tick (tm : TokenMapping) : go world bool :=
  ctx ← xctx;
  _ ← xcall xenv (fun v => xv_VaultWatermark v (VaultAddrFrom ctx));
  _ ← xcall xenv (fun v => xv_TokenMappingWatermark v (VaultAddrFrom ctx) (TokenMapping_Sha256 tm));
  _ ← xcall xenv (fun v => xv_VaultTokenMappingWatermark v (HexToAddress (tm_SourceToken tm))
                             (HexToAddress (tm_MappedToken tm)));
  mret false.

Definition VaultScanStatus (tm : TokenMapping) (evs : list loop_event) : go world unit :=
  now ← xcall xenv xv_Now;
  _ ← ticker_loop VaultScanStatusInterval (status_tick tm) evs (now - 3600 * second);
  mret tt.

End mint.
