(* ===== verification/XdefiProps.v ===== *)
(** * Filing and minting: what the contexts guarantee (sentinel/xdefi.go)

    The ticker loops, the wait for signatures, and the filing of a batch. *)
From S2P Require Import Prelude GoMonad Fmt Sha256 Event DkgBase DkgConfig Instances DkgProps Bind Sentinel SentinelProps Xdefi XdefiScan XdefiCommit XdefiMint.
Local Open Scope Z_scope.

(** ** The ticker loops *)
Section ticker.
Context `{MoacLib} {W : Type} `{!Committee W}.
Variable xenv : nat -> XView.
Hypothesis Hclock : forall n m, (n <= m)%nat -> xv_Now (xenv n) <= xv_Now (xenv m).

(** The world with a later call counter. *)
Definition later (w : XWorld W) (t : nat) : XWorld W :=
  mkXWorld (x_sentinel w) (x_ctx w) (x_committee w) t (x_sent w) (x_broadcast w) (x_committed w).

Lemma ticker_case_idle interval body ev lastCall w :
  lastCall + interval * second < xv_Now (xenv (x_tick w)) ->
  exists r t, ticker_case xenv interval body ev lastCall w = Ret (r, later w t) /\
    (r = None \/ r = Some lastCall) /\ (x_tick w <= t)%nat.
Proof.
  intros Hlate. destruct ev as [|v|]; cbn [ticker_case].
  - exists (Some lastCall), (x_tick w). split; [by destruct w|auto].
  - rewrite (bind_run _ _ _ _ _ eq_refl).
    destruct (v >? _); eexists _, (x_tick w); (split; [by destruct w|auto]).
  - rewrite (bind_run _ _ _ _ _ eq_refl).
    destruct (Z.gtb_spec (xv_Now (xenv (x_tick w))) (lastCall + interval * second)); [|lia].
    exists (Some lastCall), (S (x_tick w)). auto.
Qed.

Lemma ticker_loop_idle interval body evs lastCall : forall w,
  lastCall + interval * second < xv_Now (xenv (x_tick w)) ->
  exists r t, ticker_loop xenv interval body evs lastCall w = Ret (r, later w t).
Proof.
  induction evs as [|ev evs IH]; intros w Hlate; cbn [ticker_loop].
  - exists false, (x_tick w). by destruct w.
  - destruct (ticker_case_idle interval body ev lastCall w Hlate) as (r & t & E & Hr & Ht).
    rewrite (bind_run _ _ _ _ _ E). destruct Hr as [-> | ->]; [by exists true, t|].
    destruct (IH (later w t)) as (r' & t' & E'); [|by exists r', t'].
    cbn. specialize (Hclock _ _ Ht). lia.
Qed.

Lemma ticker_worker_idle name interval body evs w :
  0 <= interval < 3600 ->
  exists m t, ticker_worker xenv name interval body evs w =
    Ret (tt, later (mkXWorld (with_workerStatus m (x_sentinel w)) (x_ctx w) (x_committee w) (x_tick w)
                      (x_sent w) (x_broadcast w) (x_committed w)) t).
Proof.
  intros Hi. unfold ticker_worker. do 2 rewrite (bind_run _ _ _ _ _ eq_refl).
  edestruct (ticker_loop_idle interval body evs (xv_Now (xenv (x_tick w)) - 3600 * second)) as (r & t & E);
    [|rewrite (bind_run _ _ _ _ _ E); destruct r; eexists _, _; reflexivity].
  cbn. pose proof (Hclock (x_tick w) (S (x_tick w)) ltac:(lia)). unfold second. lia.
Qed.

End ticker.

(** The ticker loops never do their work.  The test that should throttle
    them skips every tick that comes later than the interval after the last
    call, and the last call starts an hour back: whatever events a worker
    receives, with a clock that does not go back, scanning, minting and
    rejecting leave the world as it is except for the worker counters. *)
Theorem workers_never_run `{MoacLib} {W : Type} `{!Committee W} (xenv : nat -> XView)
    (keyAddr : Address) (sign : Z -> RawTx -> result RawTx) fuel tm evs (w : XWorld W) :
  (forall n m, (n <= m)%nat -> xv_Now (xenv n) <= xv_Now (xenv m)) ->
  Forall (fun worker => exists m t,
    worker w = Ret (tt, mkXWorld (with_workerStatus m (x_sentinel w)) (x_ctx w) (x_committee w) t
                          (x_sent w) (x_broadcast w) (x_committed w)))
    [ScanVaultEvents xenv fuel evs; CommitTokenMints xenv keyAddr sign fuel tm evs;
     RejectTokenMints xenv keyAddr sign evs].
Proof.
  intros Hclock. rewrite !Forall_cons. split_and!; [..|done];
    (edestruct (ticker_worker_idle (W := W) xenv Hclock) as (m & t & E); [|exists m, t; exact E]);
    unfold VaultCheckInterval; lia.
Qed.

Lemma workers_never_run_witness :
  Forall (fun worker => exists m t,
    worker sample_world =
      Ret (tt, mkXWorld (with_workerStatus m (x_sentinel sample_world)) (x_ctx sample_world)
                 (x_committee sample_world) t [] [] []))
    [ScanVaultEvents (Committee0 := dkg_committee pair_env) (fun _ => chain_view (Ok 400) sample_log 100) 10
       [LTick; LTick];
     CommitTokenMints (Committee0 := dkg_committee pair_env) (fun _ => chain_view (Ok 400) sample_log 100)
       9 (fun _ tx => Ok tx) 10 (mkTokenMapping 101 "0x02" 102 "0x03") [LTick; LTick];
     RejectTokenMints (fun _ => chain_view (Ok 400) sample_log 100) 9 (fun _ tx => Ok tx) [LTick; LTick]].
Proof.
  apply (workers_never_run (Committee0 := dkg_committee pair_env)
    (fun _ => chain_view (Ok 400) sample_log 100) 9 (fun _ tx => Ok tx) 10
    (mkTokenMapping 101 "0x02" 102 "0x03") [LTick; LTick] sample_world).
  intros n m _. cbn. lia.
Defined.

(** ** Signatures of a batch *)
Lemma count_ready {A : Type} (f : Z -> A -> Z) (P : A -> bool) (l : list A) :
  (forall n x, f n x = if P x then n + 1 else n) -> forall n,
  foldl f n l = n + Z.of_nat (length (filter (fun x => P x = true) l)).
Proof.
  intros Hf. induction l as [|x l IH]; intros n; [cbn; lia|]. rewrite filter_cons. cbn [foldl].
  rewrite IH, Hf. destruct (P x); case_decide; try done; cbn [length]; lia.
Qed.

Lemma length_filter_full {A : Type} (P : A -> Prop) `{!forall x, Decision (P x)} (l : list A) :
  length (filter P l) = length l <-> Forall P l.
Proof.
  induction l as [|x l IH]; [done|]. rewrite filter_cons, Forall_cons. case_decide; cbn.
  - rewrite <- IH. split; [intros; split; [done|lia]|lia].
  - split; [|tauto]. intros Hl. pose proof (length_filter P l). lia.
Qed.

Section sigs.
Context `{MoacLib} {W : Type} `{!Committee W} `{!MapOrder Hash bool}.

(** Every event of the batch has at least a threshold of signatures. *)
Definition enough_sigs (w : XWorld W) (batch : VaultEventsBatch) : Prop :=
  forall h, h ∈ dom (Batch batch) -> exists sigs,
    VaultEventsSigs (x_sentinel w) !! h = Some sigs /\
    Sentinel_Threshold (x_committee w) <= Z.of_nat (size sigs).

(** The test of one event. *)
Definition sig_ready (w : XWorld W) (x : Hash * bool) : bool :=
  match VaultEventsSigs (x_sentinel w) !! fst x with
  | Some sigs => Z.of_nat (size sigs) >=? Sentinel_Threshold (x_committee w)
  | None => false
  end.

Lemma sig_ready_spec w x : sig_ready w x = true <-> exists sigs,
  VaultEventsSigs (x_sentinel w) !! fst x = Some sigs /\
  Sentinel_Threshold (x_committee w) <= Z.of_nat (size sigs).
Proof.
  unfold sig_ready. destruct (_ !! fst x) as [sigs|]; [|split; [done|intros (? & ? & _); done]].
  rewrite Z.geb_le. split; [eauto|]. by intros (? & [= <-] & ?).
Qed.

Lemma ReceivedAllSigs_run batch (w : XWorld W) :
  exists n ok, ReceivedAllSigs batch w = Ret ((n, ok), w) /\ (ok = true <-> enough_sigs w batch).
Proof.
  unfold ReceivedAllSigs. do 2 rewrite (bind_run _ _ _ _ _ eq_refl). eexists _, _. split; [reflexivity|].
  rewrite (count_ready _ (sig_ready w)).
  2: { intros n [h b]. unfold sig_ready. cbn. by destruct (_ !! h). }
  rewrite Z.eqb_eq, <- length_range, Z.add_0_l.
  transitivity (Forall (fun x => sig_ready w x = true) (range (Batch batch))).
  { rewrite <- length_filter_full. apply Nat2Z.inj_iff. }
  rewrite Forall_forall. unfold enough_sigs. split.
  - intros Hf h [b Hb]%elem_of_dom. apply (sig_ready_spec w (h, b)), Hf. by apply elem_of_range.
  - intros Hf [h b] Hin%elem_of_range. apply sig_ready_spec, Hf, elem_of_dom. eauto.
Qed.

End sigs.

(** A batch leaves the queue for the pending channel exactly when it is
    empty or each of its events has at least a threshold of signatures; nothing
    else changes. *)
Theorem queue_batch_threshold `{MoacLib} {W : Type} `{!Committee W} `{!MapOrder Hash bool}
    (batch : VaultEventsBatch) (w : XWorld W) :
  exists w', queue_batch batch w = Ret (tt, w') /\
    x_sentinel w' = x_sentinel w /\ x_sent w' = x_sent w /\
    (Batch batch = ∅ \/ enough_sigs w batch ->
       PendingVaultEventsBatchChan (x_ctx w') = PendingVaultEventsBatchChan (x_ctx w) ++ [batch]) /\
    (~ (Batch batch = ∅ \/ enough_sigs w batch) -> w' = w).
Proof.
  unfold queue_batch. destruct (Nat.eqb_spec (size (Batch batch)) 0) as [Hz%map_size_empty_inv|Hz].
  - eexists. split; [reflexivity|]. cbn. split_and!; [done..|]. intros Hn. destruct Hn. auto.
  - assert (Hne : Batch batch <> ∅) by (intros E; apply Hz; by rewrite E, map_size_empty).
    destruct (ReceivedAllSigs_run batch w) as (n & ok & E & Hok). rewrite (bind_run _ _ _ _ _ E). cbn [snd].
    destruct ok.
    + eexists. split; [reflexivity|]. cbn. split_and!; [done..|]. intros Hn. destruct Hn. right. by apply Hok.
    + exists w. split; [reflexivity|]. split_and!; [done..| |done].
      intros [?|Hen]; [done|]. by apply Hok in Hen.
Qed.

(** ** Filing a batch *)
Section commit.
Context `{MoacLib} {W : Type} `{!Committee W} `{!MapOrder Hash bool}.
Variable xenv : nat -> XView.
Variables (keyAddr : Address) (sign : Z -> RawTx -> result RawTx).

(** The struct filed for an event. *)
Definition ext_of (e : VaultEventWithSig) : VaultEventExt :=
  mkVaultEventExt (Blssig e) (Vault (Event e)) (Nonce (Event e))
    (VaultEvent_TokenMappingSha256 (Event e)) (VaultEvent_Bytes (Event e)).

(** The contract has filed the event: a reading of the watermark of its token
    mapping was above its nonce. *)
Definition filed (e : VaultEventWithSig) : Prop :=
  exists n watermark nonce,
    xv_TokenMappingWatermark (xenv n) (Vault (Event e)) (VaultEvent_TokenMappingSha256 (Event e)) =
      Ok watermark /\
    big_Uint64 (Nonce (Event e)) = Ret nonce /\ nonce < u64 (Z.abs watermark).

(** The event a sort key stands for. *)
Definition key_event (s : Sentinel) (m : gmap string Hash) (key : string) (e : VaultEventWithSig) : Prop :=
  VaultEvents s !! default 0 (m !! key) = Some e.

Lemma commit_keys_spec s l : forall ks m ks' m',
  commit_keys s l (ks, m) = Ret (ks', m') ->
  (exists es, Forall2 (fun x e => VaultEvents s !! fst x = Some e) l es /\
     ks' = ks ++ ((fun e => commit_key (Event e)) <$> es)) /\
  (forall key h, m' !! key = Some h -> m !! key = Some h \/
     exists e, h ∈ l.*1 /\ VaultEvents s !! h = Some e /\ commit_key (Event e) = key) /\
  (forall key, is_Some (m !! key) -> is_Some (m' !! key)) /\
  (forall h e, h ∈ l.*1 -> VaultEvents s !! h = Some e -> is_Some (m' !! commit_key (Event e))).
Proof.
  induction l as [|[h b] l IH]; intros ks m ks' m' E; cbn in E.
  - injection E as <- <-. split_and!; [exists []; by rewrite app_nil_r|auto|done|].
    intros h e Hh. by apply elem_of_nil in Hh.
  - destruct (VaultEvents s !! h) as [e|] eqn:Ee; [|done].
    apply IH in E as ((es & Hes & ->) & Hm & Hk & Hl). clear IH. split_and!.
    + exists (e :: es). split; [by constructor|]. cbn. by rewrite <- app_assoc.
    + intros key h' Hh'. apply Hm in Hh' as [Hi|(e' & Hin & ? & ?)].
      * apply lookup_insert_Some in Hi as [[<- <-]|[_ ?]]; [|auto]. right. exists e. split; [left|done].
      * right. exists e'. split; [by right|done].
    + intros key Hkey. apply Hk. destruct (decide (key = commit_key (Event e))) as [->|Hne].
      * rewrite lookup_insert_eq. eauto.
      * by rewrite lookup_insert_ne.
    + intros h' e' Hh' He'. cbn in Hh'. apply elem_of_cons in Hh' as [->|Hh']; [|eauto].
      rewrite Ee in He'. injection He' as <-. apply Hk. rewrite lookup_insert_eq. eauto.
Qed.

(** The frame of the loop over the keys. *)
Definition same_events (w w' : XWorld W) : Prop :=
  VaultEvents (x_sentinel w') = VaultEvents (x_sentinel w) /\ x_sent w' = x_sent w /\
  x_ctx w' = x_ctx w.

Lemma same_events_trans w1 w2 w3 : same_events w1 w2 -> same_events w2 w3 -> same_events w1 w3.
Proof. intros (? & ? & ?) (? & ? & ?). repeat split; congruence. Qed.

(** One event of the loop: it is already filed, in error, or added. *)
Lemma commit_event_cases m acc key w acc' w' :
  commit_event xenv m acc key w = Ret (acc', w') ->
  same_events w w' /\ exists e nonce,
    key_event (x_sentinel w) m key e /\ big_Uint64 (Nonce (Event e)) = Ret nonce /\
    (acc' = mkCommitting (cm_succeeded acc ++ [nonce]) (cm_errors acc) (cm_exts acc) /\ filed e \/
     acc' = mkCommitting (cm_succeeded acc) (cm_errors acc ++ [nonce]) (cm_exts acc) \/
     acc' = mkCommitting (cm_succeeded acc) (cm_errors acc) (cm_exts acc ++ [ext_of e])).
Proof.
  unfold commit_event. rewrite (bind_run _ _ _ _ _ eq_refl).
  destruct (VaultEvents (x_sentinel w) !! default 0 (m !! key)) as [e|] eqn:Ee; [|done].
  do 2 rewrite (bind_run _ _ _ _ _ eq_refl). intros E. apply go_bind_Ret in E as (nonce & w1 & En & E).
  assert (Hn : big_Uint64 (Nonce (Event e)) = Ret nonce /\ same_events w w1).
  { unfold glift in En. destruct (big_Uint64 _); [|done..]. injection En as <- <-. split; [done|].
    repeat split. cbn. edestruct LogRpcStat_same as [? ->]. done. }
  destruct Hn as [Hn Hsame].
  destruct (xv_TokenMappingWatermark _ _ _) as [wm|] eqn:Ew;
    [destruct (Z.gtb_spec (u64 (Z.abs wm)) nonce)|]; injection E as <- <-;
    (split; [done|]); exists e, nonce; (split_and!; [done..|]); [left|auto|auto].
  split; [done|]. by exists (x_tick w), wm, nonce.
Qed.

Definition committing_size (acc : Committing) : nat :=
  length (cm_succeeded acc) + length (cm_errors acc) + length (cm_exts acc).

(** The whole loop: every event is counted once; the events to file keep the
    order of their keys; if all are counted as succeeded, all are filed. *)
Lemma commit_loop_spec m l : forall acc w acc' w',
  for_each (commit_event xenv m) acc l w = Ret (acc', w') ->
  same_events w w' /\ committing_size acc' = (committing_size acc + length l)%nat /\
  (exists l' es, l' `sublist_of` l /\ Forall2 (key_event (x_sentinel w) m) l' es /\
     cm_exts acc' = cm_exts acc ++ (ext_of <$> es)) /\
  (length (cm_succeeded acc') <= length (cm_succeeded acc) + length l)%nat /\
  (length (cm_succeeded acc') = (length (cm_succeeded acc) + length l)%nat ->
     forall key, key ∈ l -> exists e, key_event (x_sentinel w) m key e /\ filed e).
Proof.
  induction l as [|key l IH]; intros acc w acc' w' E; cbn [for_each] in E.
  - injection E as <- <-. split; [done|]. split; [cbn; lia|]. split_and!; [|cbn; lia|].
    + exists [], []. rewrite app_nil_r. done.
    + intros _ key Hk. by apply elem_of_nil in Hk.
  - apply go_bind_Ret in E as (acc1 & w1 & E1 & E).
    apply commit_event_cases in E1 as (Hs1 & e & nonce & He & Hn & Hc).
    apply IH in E as (Hs2 & Hsz & (l' & es & Hsub & Hf2 & Hext) & Hle & Hall). clear IH.
    assert (Hkey : forall k e', key_event (x_sentinel w1) m k e' <-> key_event (x_sentinel w) m k e')
      by (intros k e'; unfold key_event; by rewrite (proj1 Hs1)).
    assert (Hf2' : Forall2 (key_event (x_sentinel w) m) l' es)
      by (eapply Forall2_impl; [exact Hf2|]; intros; by apply Hkey).
    split; [by eapply same_events_trans|]. unfold committing_size in *. cbn [length].
    destruct Hc as [[-> Hfil]|[-> | ->]]; cbn in *; rewrite ?length_app in *; cbn in *;
      (split; [lia|]); (split; [|split; [lia|intros Heq key' Hk']]); try lia.
    + exists l', es. split; [by apply sublist_cons|done].
    + apply elem_of_cons in Hk' as [->|Hk']; [by exists e|].
      destruct (Hall ltac:(lia) key' Hk') as (e' & ?%Hkey & ?). eauto.
    + exists l', es. split; [by apply sublist_cons|done].
    + exists (key :: l'), (e :: es). split; [by apply sublist_skip|]. split; [by constructor|].
      rewrite Hext. cbn. by rewrite <- app_assoc.
Qed.

Lemma sublist_sorted (l' l : list string) :
  l' `sublist_of` l -> StronglySorted str_le l -> StronglySorted str_le l'.
Proof.
  induction 1 as [|x l' l Hs IH|x l' l Hs IH]; intros Hl; [done|..];
    apply StronglySorted_cons in Hl as [Hx Hl]; [|auto].
  apply StronglySorted_cons. split; [|auto].
  rewrite Forall_forall in *. intros y Hy. apply Hx. by apply (sublist_subseteq _ _ Hs).
Qed.

Lemma sorted_lookup (l : list string) : StronglySorted str_le l ->
  forall i j a b, (i < j)%nat -> l !! i = Some a -> l !! j = Some b -> str_le a b.
Proof.
  induction 1 as [|x l Hl IH Hx]; intros i j a b Hij Ha Hb; [done|].
  destruct j as [|j]; [lia|]. cbn in Hb. destruct i as [|i]; cbn in Ha.
  - injection Ha as <-. rewrite Forall_forall in Hx. apply Hx. by eapply list_elem_of_lookup_2.
  - eapply (IH i j); [lia|done|done].
Qed.

(** Keys of one vault and token mapping order events by nonce. *)
Lemma commit_key_nonce e1 e2 a b :
  Vault e1 = Vault e2 -> VaultEvent_TokenMappingSha256 e1 = VaultEvent_TokenMappingSha256 e2 ->
  Nonce e1 = Some a -> Nonce e2 = Some b -> 0 <= a < 10 ^ 12 -> 0 <= b < 10 ^ 12 ->
  str_le (commit_key e1) (commit_key e2) -> a <= b.
Proof.
  intros Hv Hs Ha Hb Hra Hrb. unfold str_le, commit_key. rewrite Hv, Hs, Ha, Hb.
  do 4 rewrite compare_append. rewrite fmt_12d_compare by done. intros Hc. by apply Z.compare_le_iff.
Qed.

(** The events of a batch filed by one transaction, in the order of their
    nonces within each vault and token mapping. *)
Definition filed_in_order (w : XWorld W) (batch : VaultEventsBatch) (exts : list VaultEventExt) : Prop :=
  (forall x, x ∈ exts -> exists h e,
     h ∈ dom (Batch batch) /\ VaultEvents (x_sentinel w) !! h = Some e /\ x = ext_of e) /\
  (forall i j x y a b, (i < j)%nat -> exts !! i = Some x -> exts !! j = Some y ->
     ext_Vault x = ext_Vault y -> ext_TokenMappingSha256 x = ext_TokenMappingSha256 y ->
     ext_Nonce x = Some a -> ext_Nonce y = Some b ->
     0 <= a < 10 ^ 12 -> 0 <= b < 10 ^ 12 -> a <= b).

(** Every key stands for an event of the batch with that key. *)
Lemma commit_keys_event s batch ks m :
  commit_keys s (range (Batch batch)) ([], ∅) = Ret (ks, m) ->
  length ks = size (Batch batch) /\
  (forall key e, key ∈ ks -> key_event s m key e ->
     commit_key (Event e) = key /\ exists h, h ∈ dom (Batch batch) /\ VaultEvents s !! h = Some e) /\
  (forall h, h ∈ dom (Batch batch) -> exists e, VaultEvents s !! h = Some e /\ commit_key (Event e) ∈ ks).
Proof.
  intros Hk. apply commit_keys_spec in Hk as ((es & Hes & ->) & Hm & _ & Hl). cbn [app].
  split_and!.
  - rewrite length_fmap, <- (Forall2_length _ _ _ Hes). apply length_range.
  - intros key e Hin He. unfold key_event in He.
    assert (Hsome : is_Some (m !! key)).
    { apply list_elem_of_fmap in Hin as (e' & -> & [i Hi]%list_elem_of_lookup_1).
      destruct (Forall2_lookup_r _ _ _ _ _ Hes Hi) as (x & Hx & Hv).
      apply (Hl (fst x)); [|done]. apply list_elem_of_fmap. exists x. split; [done|].
      by eapply list_elem_of_lookup_2. }
    destruct Hsome as [h Eh]. rewrite Eh in He. cbn in He.
    destruct (Hm _ _ Eh) as [Hn|(e' & Hd & He' & Hc)]; [by rewrite lookup_empty in Hn|].
    rewrite He in He'. injection He' as <-. split; [done|]. exists h. split; [|done].
    apply list_elem_of_fmap in Hd as ([h' b] & -> & Hx%elem_of_range). apply elem_of_dom. eauto.
  - intros h [b Hb]%elem_of_dom. apply elem_of_range, list_elem_of_lookup_1 in Hb as [i Hi].
    destruct (Forall2_lookup_l _ _ _ _ _ Hes Hi) as (e & He & Hv). exists e. split; [done|].
    apply list_elem_of_fmap. exists e. split; [done|]. by eapply list_elem_of_lookup_2.
Qed.

Lemma sorted_exts_in_order w s batch ks m l' es :
  VaultEvents s = VaultEvents (x_sentinel w) ->
  commit_keys s (range (Batch batch)) ([], ∅) = Ret (ks, m) ->
  l' `sublist_of` merge_sort str_le ks -> Forall2 (key_event s m) l' es ->
  filed_in_order w batch (ext_of <$> es).
Proof.
  intros Hw (_ & Hall & _)%commit_keys_event Hsub Hf2.
  assert (Hin : forall key, key ∈ l' -> key ∈ ks).
  { intros key Hk. rewrite <- (merge_sort_Permutation str_le ks). by apply (sublist_subseteq _ _ Hsub). }
  assert (Hsort := sublist_sorted _ _ Hsub (StronglySorted_merge_sort str_le ks)). split.
  - intros x (e & -> & [i Hi]%list_elem_of_lookup_1)%list_elem_of_fmap.
    destruct (Forall2_lookup_r _ _ _ _ _ Hf2 Hi) as (key & Hkey & He).
    destruct (Hall key e) as (_ & h & Hd & Hv); [by eapply Hin, list_elem_of_lookup_2|done|].
    exists h, e. rewrite <- Hw. done.
  - intros i j x y a b Hij Hx Hy Hvault Hsha Ha Hb Hra Hrb.
    apply list_lookup_fmap_Some in Hx as (e1 & -> & H1), Hy as (e2 & -> & H2).
    destruct (Forall2_lookup_r _ _ _ _ _ Hf2 H1) as (k1 & Hk1 & He1).
    destruct (Forall2_lookup_r _ _ _ _ _ Hf2 H2) as (k2 & Hk2 & He2).
    destruct (Hall k1 e1) as [E1 _]; [by eapply Hin, list_elem_of_lookup_2|done|].
    destruct (Hall k2 e2) as [E2 _]; [by eapply Hin, list_elem_of_lookup_2|done|].
    eapply (commit_key_nonce (Event e1) (Event e2)); [done..|]. rewrite E1, E2.
    by eapply sorted_lookup.
Qed.

Lemma xcall_inv {A : Type} (f : XView -> A) (w : XWorld W) a w' :
  xcall xenv f w = Ret (a, w') -> same_events w w'.
Proof. intros [= _ <-]. done. Qed.

Lemma log_rpc_inv c m (w : XWorld W) a w' : log_rpc c m w = Ret (a, w') -> same_events w w'.
Proof. intros [= _ <-]. repeat split. cbn. edestruct LogRpcStat_same as [? ->]. done. Qed.

Lemma xtransactor_inv p l (w : XWorld W) t w' :
  xtransactor xenv keyAddr sign p l w = Ret (t, w') -> same_events w w'.
Proof.
  unfold xtransactor. do 2 rewrite (bind_run _ _ _ _ _ eq_refl). unfold getTransactor.
  destruct (xv_ChainID _); intros [= _ <-]; repeat split; cbn.
  edestruct LogRpcStat_same as [? ->]. done.
Qed.

Lemma send_tx_inv address opts tx (w : XWorld W) r w' :
  send_tx xenv address (Some opts) tx w = Ret (r, w') ->
  VaultEvents (x_sentinel w') = VaultEvents (x_sentinel w) /\ x_ctx w' = x_ctx w /\
  x_sent w' = x_sent w ++ [(tx, fst r)].
Proof.
  unfold send_tx. rewrite (bind_run _ _ _ _ _ eq_refl). intros E. go_inv E.
  unfold glift in E0. destruct (Transact _ _ _ _); [|done..]. injection E0 as <- <-.
  rewrite (bind_run _ _ _ _ _ eq_refl) in E. injection E as <- <-. done.
Qed.

(** The three ways [commitVaultEvents] returns: it skipped the batch, found
    nothing to file, or sent one transaction. *)
Lemma commitVaultEvents_cases batch w succ comm errs tr w' :
  commitVaultEvents xenv keyAddr sign batch w = Ret ((succ, comm, errs, tr), w') ->
  (succ = [] /\ comm = [] /\ errs = [] /\ tr = None /\ x_sent w' = x_sent w) \/
  exists w1 ks m acc w2,
    same_events w w1 /\
    commit_keys (x_sentinel w1) (range (Batch batch)) ([], ∅) = Ret (ks, m) /\
    for_each (commit_event xenv m) (mkCommitting [] [] []) (merge_sort str_le ks) w1 = Ret (acc, w2) /\
    succ = cm_succeeded acc /\
    (length comm + length errs = length (cm_exts acc) + length (cm_errors acc))%nat /\
    (x_sent w' = x_sent w /\ cm_exts acc = [] \/
     exists r, x_sent w' = x_sent w ++ [(TxRecordVaultEventBatch (cm_exts acc), r)]).
Proof.
  unfold commitVaultEvents. rewrite (bind_run _ _ _ _ _ eq_refl). intros E. go_inv E.
  destruct a as [balance|]; [|injection E as <- <- <- <- <-; left; apply xcall_inv in E0 as (_ & ? & _); done].
  go_inv E. assert (S1 := same_events_trans _ _ _ (xcall_inv _ _ _ _ E0) (xcall_inv _ _ _ _ E1)).
  clear E0 E1. destruct a; [|injection E as <- <- <- <- <-; left; by destruct S1 as (_ & ? & _)].
  destruct (_ =? 0); [injection E as <- <- <- <- <-; left; by destruct S1 as (_ & ? & _)|].
  go_inv E. assert (S2 := same_events_trans _ _ _ S1 (xcall_inv _ _ _ _ E0)). clear S1 E0.
  destruct a0 as [wm|]; [|injection E as <- <- <- <- <-; left; by destruct S2 as (_ & ? & _)].
  go_inv E. assert (S3 := same_events_trans _ _ _ S2 (log_rpc_inv _ _ _ _ _ E0)). clear S2 E0.
  destruct (_ >=? _); [injection E as <- <- <- <- <-; left; by destruct S3 as (_ & ? & _)|].
  go_inv E. assert (S4 := same_events_trans _ _ _ S3 (xtransactor_inv _ _ _ _ _ E0)). clear S3 E0.
  rename s3 into w1. rewrite (bind_run _ _ _ _ _ eq_refl) in E. go_inv E.
  unfold glift in E0. destruct (commit_keys _ _ _) as [[ks m]| |] eqn:Ek; [|done..].
  injection E0 as <- <-. cbn [fst snd] in E. apply go_bind_Ret in E as (acc & w2 & E0 & E).
  destruct (commit_loop_spec m _ _ _ _ _ E0) as (S5 & _).
  assert (S6 := same_events_trans _ _ _ S4 S5). right. exists w1, ks, m, acc, w2.
  destruct (cm_exts acc) as [|x xs] eqn:Ex.
  - injection E as <- <- <- <- <-. destruct S6 as (_ & ? & _). split_and!; [done..|]. auto.
  - destruct a1 as [opts|]; [|done]. apply go_bind_Ret in E as (r & w3 & E1 & E).
    apply send_tx_inv in E1 as (_ & _ & Es). apply go_bind_Ret in E as ([] & w4 & E1 & E).
    apply log_rpc_inv in E1 as (_ & El & _). destruct S6 as (_ & Ew2 & _).
    destruct (fst r) as [tx|e]; injection E as <- <- <- <- <-; (split_and!; [done..| |]);
      try (right; eexists; rewrite El, Es, Ew2; reflexivity);
      unfold ext_nonces; rewrite ?length_app; cbn; rewrite ?length_fmap; lia.
Qed.

(** Waiting for confirmation sends at most the watermark update, and only when
    every event of the batch was counted as succeeded. *)
Lemma confirm_loop_inv batch succ opts before : forall fuel (w : XWorld W) r w',
  confirm_loop xenv fuel batch succ (Some opts) before w = Ret (r, w') ->
  x_sent w' = x_sent w \/
  (length succ = size (Batch batch) /\ exists t,
     x_sent w' = x_sent w ++ [(TxUpdateVaultWatermark (batch_Vault batch) (i64 (batch_End batch)), t)]).
Proof.
  induction fuel as [|fuel IH]; intros w r w' E; [done|]. cbn [confirm_loop] in E.
  do 2 rewrite (bind_run _ _ _ _ _ eq_refl) in E.
  destruct (match xv_NewConfig _ with Some _ => _ | None => _ end); [injection E as <- <-; by left|].
  rewrite (bind_run _ _ _ _ _ eq_refl) in E. cbn [x_tick] in E.
  destruct (xv_BlockNumberXevents _) as [after|]; [|injection E as <- <-; by left].
  destruct ((after >? before) && _) eqn:Eb.
  - boolp. apply go_bind_Ret in E as (t & w1 & E1 & E). apply send_tx_inv in E1 as (_ & _ & Es).
    injection E as <- <-. right. split; [lia|]. eexists. exact Es.
  - destruct (u64 (after - before) >? BatchCommitThreshold); [injection E as <- <-; by left|]. by apply IH in E.
Qed.

Lemma confirmVaultEvents_inv fuel batch succ opts (w : XWorld W) r w' :
  confirmVaultEvents xenv fuel batch succ (Some opts) w = Ret (r, w') ->
  x_sent w' = x_sent w \/
  (length succ = size (Batch batch) /\ exists t,
     x_sent w' = x_sent w ++ [(TxUpdateVaultWatermark (batch_Vault batch) (i64 (batch_End batch)), t)]).
Proof.
  unfold confirmVaultEvents. rewrite (bind_run _ _ _ _ _ eq_refl). intros E.
  destruct (xv_BlockNumberXevents _); [|injection E as <- <-; by left].
  by apply confirm_loop_inv in E.
Qed.

(** The events of a batch have distinct sort keys. *)
Definition distinct_keys (w : XWorld W) (batch : VaultEventsBatch) : Prop :=
  forall h1 h2 e1 e2, h1 ∈ dom (Batch batch) -> h2 ∈ dom (Batch batch) ->
    VaultEvents (x_sentinel w) !! h1 = Some e1 -> VaultEvents (x_sentinel w) !! h2 = Some e2 ->
    commit_key (Event e1) = commit_key (Event e2) -> e1 = e2.

(** When [commitVaultEvents] counts as many successes as events, all of them
    are filed. *)
Lemma all_succeeded_filed batch w succ comm errs opts w' :
  commitVaultEvents xenv keyAddr sign batch w = Ret ((succ, comm, errs, Some opts), w') ->
  length succ = size (Batch batch) -> distinct_keys w batch ->
  forall h e, h ∈ dom (Batch batch) -> VaultEvents (x_sentinel w) !! h = Some e -> filed e.
Proof.
  intros E Hlen Hdk h e Hh He.
  apply commitVaultEvents_cases in E as [(_ & _ & _ & ? & _)|(w1 & ks & m & acc & w2 & S1 & Hk & El & -> & _)];
    [done|].
  apply commit_loop_spec in El as (_ & _ & _ & _ & Hall).
  apply commit_keys_event in Hk as (Hks & Hkey & Hdom).
  destruct (Hdom h Hh) as (e' & He' & Hin). rewrite (proj1 S1), He in He'. injection He' as <-.
  rewrite <- (merge_sort_Permutation str_le ks) in Hin.
  destruct (Hall ltac:(rewrite merge_sort_Permutation; cbn; lia) _ Hin) as (e'' & Hke & Hf).
  destruct (Hkey (commit_key (Event e)) e'') as (Hc & h'' & Hd'' & He'');
    [by rewrite <- (merge_sort_Permutation str_le ks)|done|].
  rewrite (proj1 S1) in He''. by rewrite (Hdk _ _ _ _ Hh Hd'' He He'' (eq_sym Hc)).
Qed.

End commit.

(** C12. Every event of a batch is accounted for: unless the batch is skipped,
    the nonces reported as filed, submitted or in error are as many as its
    events.  At most one transaction is sent; it carries events of the batch
    only, and those of one vault and token mapping in the order of their
    nonces (below 10^12). *)
Theorem commit_batch_in_order `{MoacLib} {W : Type} `{!MapOrder Hash bool}
    (xenv : nat -> XView) keyAddr sign batch (w : XWorld W) succ comm errs tr w' :
  commitVaultEvents xenv keyAddr sign batch w = Ret ((succ, comm, errs, tr), w') ->
  ((length succ + length comm + length errs)%nat = size (Batch batch) \/
   succ = [] /\ comm = [] /\ errs = [] /\ tr = None) /\
  (x_sent w' = x_sent w \/
   exists exts r, x_sent w' = x_sent w ++ [(TxRecordVaultEventBatch exts, r)] /\
     filed_in_order w batch exts).
Proof.
  intros E. apply commitVaultEvents_cases in E
    as [(-> & -> & -> & -> & ?)|(w1 & ks & m & acc & w2 & S1 & Hk & El & -> & Hlen & Hsent)]; [auto 6|].
  destruct (commit_loop_spec _ _ _ _ _ _ _ El) as (_ & Hsz & (l' & es & Hsub & Hf2 & Hext) & _).
  pose proof (commit_keys_event _ _ _ _ Hk) as (Hks & _). split.
  - left. unfold committing_size in Hsz. rewrite merge_sort_Permutation in Hsz. cbn in Hsz. lia.
  - destruct Hsent as [[? _]|[r Hr]]; [auto|]. right. exists (cm_exts acc), r. split; [done|].
    rewrite Hext. cbn [cm_exts app]. eapply sorted_exts_in_order; [apply S1|done..].
Qed.

(** C23. The vault watermark moves only over filed events: when a node handles
    a pending batch whose events have distinct keys, an update of the
    watermark it sends is for the vault and the last block of the batch, and
    every event of the batch was already recorded by the xevents contract. *)
Theorem watermark_after_filing `{MoacLib} {W : Type} `{!Committee W} `{!MapOrder Hash bool}
    (xenv : nat -> XView) keyAddr sign fuel batch (w w' : XWorld W) :
  pending_batch xenv keyAddr sign fuel batch w = Ret (tt, w') -> distinct_keys w batch ->
  forall vault block r, (TxUpdateVaultWatermark vault block, r) ∈ x_sent w' ->
  (TxUpdateVaultWatermark vault block, r) ∈ x_sent w \/
  vault = batch_Vault batch /\ block = i64 (batch_End batch) /\
  forall h e, h ∈ dom (Batch batch) -> VaultEvents (x_sentinel w) !! h = Some e -> filed xenv e.
Proof.
  intros E Hdk vault block r Hin. unfold pending_batch in E.
  apply go_bind_Ret in E as (mine & w0 & E0 & E).
  assert (H0 : x_sentinel w0 = x_sentinel w /\ x_sent w0 = x_sent w).
  { unfold on_committee in E0. destruct (myTurn _ _) as [[? ?]| |]; [|done..]. by injection E0 as <- <-. }
  destruct H0 as [Hs0 Ht0]. destruct mine; [|injection E as <-; left; by rewrite <- Ht0].
  apply go_bind_Ret in E as ([[[succ comm] errs] tr] & w1 & E1 & E).
  assert (Hc : forall x, x ∈ x_sent w1 -> x ∈ x_sent w \/ exists exts, fst x = TxRecordVaultEventBatch exts).
  { intros x. apply commitVaultEvents_cases in E1
      as [(_ & _ & _ & _ & ->)|(_ & _ & _ & acc & _ & _ & _ & _ & _ & _ & [[-> _]|[t ->]])]; rewrite Ht0; [auto..|].
    rewrite elem_of_app. intros [?|Hx%list_elem_of_singleton]; [auto|]. right. eexists. by rewrite Hx. }
  assert (Hold : (TxUpdateVaultWatermark vault block, r) ∈ x_sent w1 ->
                 (TxUpdateVaultWatermark vault block, r) ∈ x_sent w) by (intros [?|[? ?]]%Hc; done).
  destruct tr as [opts|]; [|injection E as <-; auto].
  apply go_bind_Ret in E as (c & w2 & E2 & E).
  assert (Hw' : x_sent w' = x_sent w2) by (destruct c; by injection E as <-).
  rewrite Hw' in Hin. apply confirmVaultEvents_inv in E2 as [E2|(Hlen & t & E2)]; rewrite E2 in Hin; [auto|].
  apply elem_of_app in Hin as [Hin|Hin%list_elem_of_singleton]; [auto|]. injection Hin as -> -> _.
  right. split_and!; [done..|]. rewrite <- Hs0. eapply all_succeeded_filed; [done|done|].
  unfold distinct_keys. by rewrite Hs0.
Qed.

(** ** A batch of one event *)
Definition one_event : VaultEventWithSig := mkVaultEventWithSig sample_event "sig".

Definition one_world : XWorld World :=
  mkXWorld (snd (ProcessVaultEventWithSig one_event (sentinel_initial (mkVaultPairListConfig []))))
    sample_ctx pair_active 0 [] [] [].

Definition one_batch : VaultEventsBatch :=
  mkVaultEventsBatch {[ VaultEvent_Hash sample_event := true ]} 7 101 120.

(** Blocks are mined at every call; the token mapping is filed up to [filed_to]. *)
Definition filing_env (filed_to : Z) (n : nat) : XView :=
  mkXView 0 None (Ok 400) (Ok 400) (Ok (Z.of_nat n)) (Ok 1) (fun _ => Ok 1) (fun _ => Ok 0)
    (fun _ _ => Ok []) (fun _ _ => Some []) (fun _ => Ok 100) (Ok 50) (fun _ _ => Ok filed_to)
    (fun _ _ => Ok 0) (fun _ _ _ => Err) open_backend (fun _ => Ok "data").

Abbreviation one_commit filed_to :=
  (commitVaultEvents (filing_env filed_to) 9 (fun _ tx => Ok tx)
     one_batch one_world).

Abbreviation one_pending filed_to :=
  (pending_batch (Committee0 := dkg_committee pair_env) (filing_env filed_to) 9 (fun _ tx => Ok tx) 5
     one_batch one_world).

Definition sent_by {A : Type} (r : outcome (A * XWorld World)) : option (list XTx) :=
  match r with Ret (_, w') => Some (x_sent w').*1 | _ => None end.

Lemma sent_by_inv {A : Type} (r : outcome (A * XWorld World)) l :
  sent_by r = Some l -> exists a w', r = Ret (a, w') /\ (x_sent w').*1 = l.
Proof. destruct r as [[a w']| |]; cbn; [|done..]. intros [= <-]. eauto. Qed.

Lemma commit_batch_in_order_witness :
  exists succ comm errs tr w', one_commit 0 = Ret ((succ, comm, errs, tr), w') /\
    (x_sent w').*1 = [TxRecordVaultEventBatch [ext_of one_event]] /\
    ((length succ + length comm + length errs)%nat = 1%nat \/
     succ = [] /\ comm = [] /\ errs = [] /\ tr = None).
Proof.
  assert (Hs : sent_by (one_commit 0) = Some [TxRecordVaultEventBatch [ext_of one_event]])
    by (vm_compute; reflexivity).
  apply sent_by_inv in Hs as ([[[succ comm] errs] tr] & w' & E & Hs).
  exists succ, comm, errs, tr, w'. split; [exact E|]. split; [exact Hs|].
  exact (proj1 (commit_batch_in_order (filing_env 0) 9 (fun _ tx => Ok tx)
    one_batch one_world succ comm errs tr w' E)).
Defined.

Lemma one_distinct : distinct_keys one_world one_batch.
Proof.
  intros h1 h2 e1 e2 H1 H2 He1 He2 _.
  unfold one_batch in H1, H2. cbn [Batch] in H1, H2. rewrite dom_singleton_L in H1, H2.
  apply elem_of_singleton in H1, H2. congruence.
Qed.

Lemma watermark_after_filing_witness :
  exists w' r, one_pending 5 = Ret (tt, w') /\ (TxUpdateVaultWatermark 7 120, r) ∈ x_sent w' /\
    ((TxUpdateVaultWatermark 7 120, r) ∈ x_sent one_world \/
     7 = 7 /\ 120 = 120 /\ forall h e, h ∈ dom (Batch one_batch) ->
       VaultEvents (x_sentinel one_world) !! h = Some e -> filed (filing_env 5) e).
Proof.
  assert (Hs : sent_by (one_pending 5) = Some [TxUpdateVaultWatermark 7 120]) by (vm_compute; reflexivity).
  apply sent_by_inv in Hs as ([] & w' & E & Hs).
  destruct (x_sent w') as [|[tx r] [|]] eqn:Ex; try discriminate Hs. injection Hs as ->.
  exists w', r. split; [exact E|]. rewrite Ex. split; [left|].
  apply (watermark_after_filing (Committee0 := dkg_committee pair_env) (filing_env 5) 9 (fun _ tx => Ok tx) 5
    one_batch one_world w' E one_distinct 7 120 r).
  rewrite Ex. left.
Defined.
