(* ===== verification/XdefiMintProps.v ===== *)
(** * Minting: what reaches the target chain (sentinel/xdefi.go)

    The data of a mint and the mints a round sends. *)
From S2P Require Import Prelude GoMonad Fmt Sha256 Abi AbiProps Event DkgBase DkgConfig Instances DkgProps Bind Sentinel SentinelProps Xdefi XdefiScan XdefiCommit XdefiMint XdefiProps.
Local Open Scope Z_scope.

Section mint.
Context `{MoacLib} `{CommonLib} {W : Type} `{!Committee W}.
Variable xenv : nat -> XView.
Variables (tm : TokenMapping) (store : Z -> VaultEvent).

(** Every query of the xevents contract for the token mapping is answered from
    the same list of events. *)
Definition stable_store (vault : Address) : Prop :=
  forall n i, exists d, xv_VaultEvents (xenv n) vault (TokenMapping_Sha256 tm) i = Ok d /\
    DecodeBytes d = store i.

(** The target chain accepts every transaction. *)
Definition accepting_chain (opts : TransactOpts) : Prop :=
  forall n tx, exists input, xv_Packed (xenv n) tx = Ok input /\
    accepting opts (xv_Backend (xenv n), (0, input)).

(** The events with an amount are complete. *)
Definition complete_store : Prop :=
  forall i, no_amount (Amount (store i)) = false ->
    is_Some (Tip (store i)) /\ is_Some (Nonce (store i)).

(** The mint prepared for an event. *)
Definition mint_tx (com : W) (e : VaultEvent) (tx : XTx) : Prop :=
  exists data sig, pack_tokenMint e = Ret data /\
    CommitteeSign com (be_bytes 32 (Keccak256 data)) = Ret sig /\
    tx = TxPrepareMints [Keccak256 data] [sig].

Lemma pack_Address a : pack AddressTy (Address_val a) = ok (LeftPadBytes (be 20 a) 32).
Proof.
  unfold pack, typeCheck, packElement, Address_val, GetType. cbn [kind_of VBytes GetType_Kind GetType_ok mbind outcome_bind].
  rewrite bool_decide_eq_true_2 by done. cbn [elift ok ebind negb]. fold (VBytes true (be 20 a)). by rewrite byte_slice_VBytes.
Qed.

Lemma pack_uint256 z : pack (UintTy 256) (VBig (Some z)) = ok (U256 z).
Proof. reflexivity. Qed.

Definition tokenMint_bytes (e : VaultEvent) (amount tip nonce : Z) : list Z :=
  LeftPadBytes (be 20 (SourceToken e)) 32 ++ LeftPadBytes (be 20 (MappedToken e)) 32 ++
  LeftPadBytes (be 20 (To e)) 32 ++ U256 amount ++ U256 tip ++ U256 nonce.

Lemma pack_tokenMint_eq e amount tip nonce :
  Amount e = Some amount -> Tip e = Some tip -> Nonce e = Some nonce ->
  pack_tokenMint e = Ret (bytes_string (tokenMint_bytes e amount tip nonce)).
Proof.
  intros Ha Ht Hn. unfold pack_tokenMint, Arguments_Pack, tokenMintType, tokenMint. rewrite Ha, Ht, Hn.
  cbn [length Nat.eqb negb pack_args]. rewrite pack_tuple by done.
  cbn [pack_args]. rewrite !pack_Address. rewrite !pack_uint256.
  cbn [isDynamicType existsb orb ebind ok fst snd]. by rewrite !app_nil_r.
Qed.

Lemma pack_tokenMint_complete e :
  no_amount (Amount e) = false -> is_Some (Tip e) -> is_Some (Nonce e) ->
  exists data, pack_tokenMint e = Ret data.
Proof.
  destruct (Amount e) eqn:Ha; [|done]. intros _ [tip Ht] [nonce Hn]. eexists. by apply pack_tokenMint_eq.
Qed.

(** The fields of a mint as the contract has them: addresses and [uint256]. *)
Definition mint_fields (e : VaultEvent) : Prop :=
  is_address (SourceToken e) /\ is_address (MappedToken e) /\ is_address (To e) /\
  exists amount tip nonce, Amount e = Some amount /\ Tip e = Some tip /\ Nonce e = Some nonce /\
    0 <= amount < 2 ^ 256 /\ 0 <= tip < 2 ^ 256 /\ 0 <= nonce < 2 ^ 256.

Section data.
Context `{!CommonLaws _}.

Lemma be_range n : forall z, Forall (fun b => 0 <= b < 256) (be n z).
Proof.
  induction n as [|n IH]; intros z; cbn; [constructor|]. apply Forall_app. split; [apply IH|].
  repeat constructor; apply Z.mod_pos_bound; lia.
Qed.

Lemma address_word a : LeftPadBytes (be 20 a) 32 = zeros 12 ++ be 20 a.
Proof. by rewrite LeftPadBytes_spec, length_be. Qed.

Lemma tokenMint_bytes_range e amount tip nonce :
  Forall (fun b => 0 <= b < 256) (tokenMint_bytes e amount tip nonce).
Proof.
  unfold tokenMint_bytes. rewrite !address_word, !U256_be.
  rewrite !Forall_app. split_and!; try apply be_range; apply Forall_replicate; lia.
Qed.

Lemma address_word_inj a b r1 r2 : is_address a -> is_address b ->
  LeftPadBytes (be 20 a) 32 ++ r1 = LeftPadBytes (be 20 b) 32 ++ r2 -> a = b /\ r1 = r2.
Proof.
  intros Ha Hb E. rewrite !address_word in E. apply app_inj_1 in E as [E ->]; [|by rewrite !length_app, !length_be].
  split; [|done]. apply app_inv_head, (f_equal SetBytes) in E. rewrite !SetBytes_be in E.
  unfold is_address in *. rewrite !Z.mod_small in E by lia. done.
Qed.

Lemma uint_word_inj a b r1 r2 : 0 <= a < 2 ^ 256 -> 0 <= b < 2 ^ 256 ->
  U256 a ++ r1 = U256 b ++ r2 -> a = b /\ r1 = r2.
Proof.
  intros Ha Hb E. apply app_inj_1 in E as [E ->]; [|by rewrite !length_U256].
  apply (f_equal SetBytes) in E. by rewrite !SetBytes_U256 in E by done.
Qed.

(** The data a mint is signed for determines the mint: two events with
    address and [uint256] fields that give the same bytes mint the same amount
    and tip of the same tokens to the same account under the same nonce. *)
Theorem mint_data_injective e1 e2 data :
  mint_fields e1 -> mint_fields e2 ->
  pack_tokenMint e1 = Ret data -> pack_tokenMint e2 = Ret data ->
  SourceToken e1 = SourceToken e2 /\ MappedToken e1 = MappedToken e2 /\ To e1 = To e2 /\
  Amount e1 = Amount e2 /\ Tip e1 = Tip e2 /\ Nonce e1 = Nonce e2.
Proof.
  intros (Hs1 & Hm1 & Ht1 & a1 & t1 & n1 & Ea1 & Et1 & En1 & ? & ? & ?)
    (Hs2 & Hm2 & Ht2 & a2 & t2 & n2 & Ea2 & Et2 & En2 & ? & ? & ?).
  rewrite (pack_tokenMint_eq _ _ _ _ Ea1 Et1 En1), (pack_tokenMint_eq _ _ _ _ Ea2 Et2 En2).
  intros [= <-] [= E]. apply bytes_string_inj in E; [|apply tokenMint_bytes_range..].
  unfold tokenMint_bytes in E. do 3 (apply address_word_inj in E as [? E]; [|done..]).
  do 2 (apply uint_word_inj in E as [? E]; [|done..]).
  rewrite <- (app_nil_r (U256 n1)), <- (app_nil_r (U256 n2)) in E.
  apply uint_word_inj in E as [? _]; [|done..]. subst. rewrite Ea1, Ea2, Et1, Et2, En1, En2.
  split_and!; congruence.
Qed.

End data.

Variable signer : Address -> RawTx -> result RawTx.
Hypothesis Hsigner : forall a tx, exists signed, signer a tx = Ok signed /\ tx_GasPrice signed = tx_GasPrice tx.

Lemma mint_one_run e data opts price (w : XWorld W) :
  pack_tokenMint e = Ret data ->
  IsDeposit (x_ctx w) = true -> CommitteeReady (x_committee w) = true ->
  accepting_chain opts -> Signer opts = Some signer -> opt_GasPrice opts = Some price -> GasLimit opts <> 0 ->
  exists rawtx tx s', mint_one xenv e opts w =
    Ret ((inl rawtx, Some (with_GasPrice (Some (inflate_price price)) opts)),
         mkXWorld s' (x_ctx w) (x_committee w) (S (x_tick w)) (x_sent w ++ [(tx, inl rawtx)])
           (x_broadcast w) (x_committed w)) /\ mint_tx (x_committee w) e tx.
Proof.
  intros Hpk Hd Hr Hacc Hs Hp Hg. unfold mint_one. rewrite (bind_run _ _ _ _ _ eq_refl), Hd.
  rewrite (bind_run _ _ _ _ _ eq_refl).
  destruct (Sign_ready (x_committee w) (be_bytes 32 (Keccak256 data)) Hr) as [sig Hsig].
  erewrite bind_run by (apply glift_run; cbn [PackTokenMintData]; rewrite Hpk; cbn [mbind outcome_bind]; rewrite Hsig; reflexivity). cbn [fst snd].
  set (tx := TxPrepareMints _ _). destruct (Hacc (x_tick w) tx) as (input & Hin & Ha).
  destruct (transact_accepting (xv_Backend (xenv (x_tick w))) (VaultYAddr (Config (x_ctx w))) opts input
    price signer) as (rawtx & Et & _); [exact Ha|done..|].
  erewrite bind_run.
  2: { unfold send_tx. rewrite (bind_run _ _ _ _ _ eq_refl), Hin.
       erewrite bind_run by (apply glift_run; exact Et).
       rewrite (bind_run _ _ _ _ _ eq_refl). reflexivity. }
  rewrite (bind_run _ _ _ _ _ eq_refl). cbn [fst snd].
  eexists rawtx, tx, _. split; [reflexivity|]. by exists data, sig.
Qed.

(** The loop stops at the first event without an amount. *)
Lemma mint_loop_stops n wm i opts committed (w : XWorld W) :
  (forall j idx, no_amount (Amount (DecodeBytes
     (match xv_VaultEvents (xenv j) (VaultAddrFrom (x_ctx w)) (TokenMapping_Sha256 tm) idx with
      | Ok d => d | Err => "" end))) = true) ->
  exists w', mint_loop xenv (S n) tm wm i opts committed w = Ret (committed, w') /\ x_sent w' = x_sent w.
Proof.
  intros Hna. cbn [mint_loop]. do 3 rewrite (bind_run _ _ _ _ _ eq_refl). rewrite Hna. by eexists.
Qed.

Lemma mint_loop_run n : forall wm i opts price committed (w : XWorld W),
  0 <= wm -> 0 <= i -> wm + i + Z.of_nat n < 2 ^ 63 -> 0 <= committed -> committed + Z.of_nat n < 2 ^ 63 ->
  stable_store (VaultAddrFrom (x_ctx w)) -> complete_store -> IsDeposit (x_ctx w) = true ->
  CommitteeReady (x_committee w) = true -> accepting_chain opts -> Signer opts = Some signer ->
  opt_GasPrice opts = Some price -> GasLimit opts <> 0 ->
  exists (k : nat) txs w', mint_loop xenv n tm wm i opts committed w = Ret (committed + Z.of_nat k, w') /\
    (k <= n)%nat /\ (k = n \/ no_amount (Amount (store (wm + i + Z.of_nat k))) = true) /\
    (forall j, (j < k)%nat -> no_amount (Amount (store (wm + i + Z.of_nat j))) = false) /\
    x_committee w' = x_committee w /\
    (x_sent w').*1 = (x_sent w).*1 ++ txs /\
    Forall2 (fun j tx => mint_tx (x_committee w) (store (wm + i + Z.of_nat j)) tx) (seq 0 k) txs.
Proof.
  induction n as [|n IH]; intros wm i opts price committed w Hwm Hi Hb Hc0 Hcb Hst Hcs Hd Hr Hacc Hs Hp Hg;
    cbn [mint_loop].
  - exists 0%nat, [], w. rewrite Z.add_0_r, app_nil_r. split_and!; try done; [auto|lia].
  - do 2 rewrite (bind_run _ _ _ _ _ eq_refl).
    assert (Hidx : i64 (i64 wm + i) = wm + i).
    { unfold i64, u64. rewrite !(Z.mod_small wm) by lia.
      destruct (Z.ltb_spec wm 9223372036854775808); [|lia]. rewrite !(Z.mod_small (wm + i)) by lia.
      destruct (Z.ltb_spec (wm + i) 9223372036854775808); lia. }
    rewrite Hidx. destruct (Hst (x_tick w) (wm + i)) as (d & -> & Hdec).
    rewrite (bind_run _ _ _ _ _ eq_refl), Hdec.
    destruct (no_amount (Amount (store (wm + i)))) eqn:Ena.
    + exists 0%nat, []. eexists. rewrite Z.add_0_r. split; [reflexivity|].
      rewrite app_nil_r, Z.add_0_r. split_and!; try done; [lia|auto|lia].
    + destruct (Hcs _ Ena) as [Htip Hnonce].
      destruct (pack_tokenMint_complete _ Ena Htip Hnonce) as [data Hpk].
      edestruct (mint_one_run (store (wm + i)) data opts price) as (rawtx & tx & s' & E & Htx);
        [| | | | | | |rewrite (bind_run _ _ _ _ _ E)]; [done..|]. cbn [fst snd default].
      rewrite u64_small by (unfold is_u64, MaxUint64; lia).
      edestruct (IH wm (i + 1) (with_GasPrice (Some (inflate_price price)) opts) (inflate_price price)
        (committed + 1)) as (k & txs & w' & E' & Hk & Hend & Hall & Hcom & Hsent & Hf2);
        [| | | | | | | | | | | | |rewrite E'; clear E E']; try done; [lia..|].
      exists (S k), (tx :: txs), w'. split_and!.
      * f_equal. f_equal. lia.
      * lia.
      * destruct Hend as [->|Hend]; [auto|right].
        by replace (wm + i + Z.of_nat (S k)) with (wm + (i + 1) + Z.of_nat k) by lia.
      * intros [|j] Hj; [by rewrite Z.add_0_r|].
        replace (wm + i + Z.of_nat (S j)) with (wm + (i + 1) + Z.of_nat j) by lia. apply Hall. lia.
      * done.
      * rewrite Hsent. cbn. rewrite fmap_app, <- app_assoc. done.
      * cbn [seq]. constructor; [by rewrite Z.add_0_r|]. rewrite <- fmap_S_seq. apply Forall2_fmap_l.
        eapply Forall2_impl; [exact Hf2|]. cbn. intros j t.
        by replace (wm + (i + 1) + Z.of_nat j) with (wm + i + Z.of_nat (S j)) by lia.
Qed.

End mint.

(** C27. Mints are consecutive: in a context for deposits with a committee that is
    ready, with the events of the token mapping stable and complete on the
    xevents contract, a watermark of the target below 2^62, a target chain that
    accepts transactions, and options with a gas price, a gas limit and a signer
    that signs every transaction and keeps its gas price, the node prepares one
    mint for each event from the target's watermark on, in order and without a
    gap, up to the first index without an amount and at most [MintBatchSize] of
    them, and reports how many. *)
Theorem mints_consecutive `{MoacLib} {W : Type} `{!Committee W} (xenv : nat -> XView) tm store
    signer wm opts price (w : XWorld W) :
  (forall a tx, exists signed, signer a tx = Ok signed /\ tx_GasPrice signed = tx_GasPrice tx) ->
  0 <= wm < 2 ^ 62 -> stable_store xenv tm store (VaultAddrFrom (x_ctx w)) -> complete_store store ->
  IsDeposit (x_ctx w) = true -> CommitteeReady (x_committee w) = true ->
  accepting_chain xenv opts -> Signer opts = Some signer -> opt_GasPrice opts = Some price ->
  GasLimit opts <> 0 ->
  exists (k : nat) txs w',
    mint_loop xenv MintBatchSize tm wm 0 opts 0 w = Ret (Z.of_nat k, w') /\
    (k <= MintBatchSize)%nat /\
    (k = MintBatchSize \/ no_amount (Amount (store (wm + Z.of_nat k))) = true) /\
    (forall j, (j < k)%nat -> no_amount (Amount (store (wm + Z.of_nat j))) = false) /\
    (x_sent w').*1 = (x_sent w).*1 ++ txs /\
    Forall2 (fun j tx => mint_tx (x_committee w) (store (wm + Z.of_nat j)) tx) (seq 0 k) txs.
Proof.
  intros Hsig Hwm Hst Hcs Hd Hr Hacc Hs Hp Hg.
  edestruct (mint_loop_run xenv tm store signer Hsig MintBatchSize wm 0 opts price 0 w)
    as (k & txs & w' & E & Hk & Hend & Hall & _ & Hsent & Hf2); try done; [unfold MintBatchSize; lia..|].
  rewrite Z.add_0_r in *. exists k, txs, w'. by rewrite E.
Qed.

(** An amount whose low 64 bits are zero blocks its token mapping: the
    test for a missing event reads the amount as an [int64], so when the event
    at the target's watermark has such an amount, no mint is ever prepared,
    neither for it nor for the events after it. *)
Theorem round_amount_blocks_mints `{MoacLib} {W : Type} `{!Committee W} (xenv : nat -> XView)
    keyAddr sign fuel tm (w : XWorld W) amount :
  (forall c : W, exists b c', myTurn MyTurnSeed c = Ret (b, c')) ->
  0 <= amount -> amount mod 2 ^ 64 = 0 ->
  (forall n vault sha i d, xv_VaultEvents (xenv n) vault sha i = Ok d -> Amount (DecodeBytes d) = Some amount) ->
  Amount (DecodeBytes "") = None -> (0 < fuel)%nat ->
  (10 <= String.length (tm_SourceToken tm))%nat -> (10 <= String.length (tm_MappedToken tm))%nat ->
  exists w', commitTokenMints xenv keyAddr sign fuel tm w = Ret (0, w') /\ x_sent w' = x_sent w.
Proof.
  intros Hcom H0 Hmod Hev Hz Hf Hl1 Hl2. unfold commitTokenMints. do 2 rewrite (bind_run _ _ _ _ _ eq_refl).
  destruct (xv_VaultTokenMappingWatermark _ _ _) as [wm|]; [|by eexists].
  unfold log_token. destruct (Nat.ltb_spec (String.length (tm_SourceToken tm)) 10); [lia|].
  destruct (Nat.ltb_spec (String.length (tm_MappedToken tm)) 10); [lia|].
  do 2 rewrite (bind_run _ _ _ _ _ eq_refl). destruct (Hcom (x_committee w)) as (b & c' & Eb).
  erewrite bind_run by (unfold on_committee; cbn [x_committee]; rewrite Eb; reflexivity).
  destruct b; [|by eexists]. cbn [negb].
  match goal with |- context [(xtransactor _ _ _ _ _ ≫= _) ?w1] => set (w2 := w1) end.
  assert (Ht : exists t w3, xtransactor xenv keyAddr sign DefaultGasPrice DefaultGasLimit w2 = Ret (t, w3) /\
    x_sent w3 = x_sent w).
  { unfold xtransactor. do 2 rewrite (bind_run _ _ _ _ _ eq_refl). unfold getTransactor.
    destruct (xv_ChainID _); eexists _, _; (split; [reflexivity|done]). }
  destruct Ht as (t & w3 & Et & Hw3). rewrite (bind_run _ _ _ _ _ Et).
  destruct t as [opts|]; [|by eexists]. rewrite (bind_run _ _ _ _ _ eq_refl).
  destruct (xv_BalanceAt _ _) as [balance|]; [|by eexists]. destruct (_ =? 0); [by eexists|].
  assert (Hna : forall n vault i, no_amount (Amount (DecodeBytes
    (match xv_VaultEvents (xenv n) vault (TokenMapping_Sha256 tm) i with Ok d => d | Err => "" end))) = true).
  { intros n vault i. destruct (xv_VaultEvents _ _ _ _) as [d|] eqn:Ed; [|by rewrite Hz].
    rewrite (Hev _ _ _ _ _ Ed). cbn. destruct (Z.ltb_spec amount 0); [lia|].
    unfold i64, u64. rewrite Z.abs_eq by done. change 18446744073709551616 with (2 ^ 64).
    by rewrite Hmod. }
  match goal with |- context [(mint_loop _ _ _ ?m ?i ?o ?c ≫= _) ?w1] =>
    destruct (mint_loop_stops xenv tm 29 m i o c w1) as (w5 & E5 & Hw5); [intros; apply Hna|] end.
  rewrite (bind_run _ _ _ _ _ E5). destruct fuel as [|fuel]; [lia|].
  exists w5. erewrite bind_run by reflexivity. split; [reflexivity|]. by rewrite Hw5.
Qed.

(** ** Concrete mints *)
Definition mint_view (event : Z -> string) : XView :=
  mkXView 0 None (Ok 400) (Ok 400) (Ok 400) (Ok 1) (fun _ => Ok 1) (fun _ => Ok 0)
    (fun _ _ => Ok []) (fun _ _ => Some []) (fun _ => Ok 100) (Ok 50) (fun _ _ => Ok 0)
    (fun _ _ => Ok 5) (fun _ _ i => Ok (event i)) open_backend (fun _ => Ok "data").

(** Three events, at indexes 5, 6 and 7. *)
Definition three_events (i : Z) : string := if (5 <=? i) && (i <? 8) then dec (10 * i) else "".

Definition sample_mapping : TokenMapping := 
  mkTokenMapping 101 "0x0000000002" 102 "0x0000000003".

Lemma mints_consecutive_witness :
  exists (k : nat) txs w',
    mint_loop (Committee0 := dkg_committee pair_env) (fun _ => mint_view three_events) MintBatchSize
      sample_mapping 5 0 (open_opts 20) 0 sample_world = Ret (Z.of_nat k, w') /\
    (x_sent w').*1 = txs /\ length txs = k /\ k = 3%nat.
Proof.
  destruct (mints_consecutive (Committee0 := dkg_committee pair_env) (fun _ => mint_view three_events)
    sample_mapping (fun i => DecodeBytes (three_events i)) (fun _ tx => Ok tx) 5 (open_opts 20) 20 sample_world)
    as (k & txs & w' & E & _ & _ & _ & Hs & Hf2).
  - intros a tx. exists tx. split; reflexivity.
  - lia.
  - intros n i. exists (three_events i). split; reflexivity.
  - intros i. cbn. destruct (bool_decide _); [discriminate|]. intros _. split; eexists; reflexivity.
  - reflexivity.
  - vm_compute. reflexivity.
  - intros n tx. exists "data". split; [reflexivity|]. split; [exists 7; reflexivity|].
    split; [reflexivity|cbn; lia].
  - reflexivity.
  - reflexivity.
  - discriminate.
  - assert (Hl : length txs = k) by (rewrite <- (Forall2_length _ _ _ Hf2); apply length_seq).
    exists k, txs, w'. split; [exact E|]. split; [exact Hs|]. split; [exact Hl|].
    assert (Hk : (r ← mint_loop (Committee0 := dkg_committee pair_env) (fun _ => mint_view three_events)
      MintBatchSize sample_mapping 5 0 (open_opts 20) 0 sample_world; Ret (fst r)) = Ret 3)
      by (vm_compute; reflexivity).
    rewrite E in Hk. injection Hk as Hk. lia.
Defined.

Lemma round_amount_blocks_mints_witness :
  exists w', commitTokenMints (Committee0 := dkg_committee pair_env)
      (fun _ => mint_view (fun _ => "18446744073709551616")) 9 (fun _ tx => Ok tx) 5 sample_mapping sample_world =
    Ret (0, w') /\ x_sent w' = [].
Proof.
  apply (round_amount_blocks_mints (Committee0 := dkg_committee pair_env)
    (fun _ => mint_view (fun _ => "18446744073709551616")) 9 (fun _ tx => Ok tx) 5 sample_mapping sample_world
    18446744073709551616).
  - intros c. unfold myTurn. erewrite bind_run by reflexivity. cbv beta iota zeta.
    destruct (_ =? -1); [by eexists _, _|]. change (u64 _ =? 0) with false. by eexists _, _.
  - lia.
  - reflexivity.
  - intros n vault sha i d Hd. injection Hd as <-. reflexivity.
  - reflexivity.
  - lia.
  - cbn. lia.
  - cbn. lia.
Defined.

(** Two deposits that differ in the total nonce and in the block only. *)
Definition deposit_at (total block : Z) : VaultEvent :=
  mkVaultEvent 1 (Some 101) 2 (Some 102) 3 9 (Some 1000) (Some 7) (Some total) (Some block) (Some 10).

Lemma deposit_fields total block : mint_fields (deposit_at total block).
Proof. split_and!; [done..|]. exists 1000, 10, 7. by split_and!. Qed.

Lemma deposit_data total block :
  pack_tokenMint (deposit_at total block) = Ret (bytes_string (tokenMint_bytes (deposit_at 0 0) 1000 10 7)).
Proof. exact (pack_tokenMint_eq (deposit_at total block) 1000 10 7 eq_refl eq_refl eq_refl). Qed.

Lemma mint_data_injective_witness :
  pack_tokenMint (deposit_at 4 90) = pack_tokenMint (deposit_at 5 91) /\
  To (deposit_at 4 90) = To (deposit_at 5 91) /\ Nonce (deposit_at 4 90) = Nonce (deposit_at 5 91).
Proof.
  split; [by rewrite !deposit_data|].
  destruct (mint_data_injective (deposit_at 4 90) (deposit_at 5 91)
    (bytes_string (tokenMint_bytes (deposit_at 0 0) 1000 10 7)))
    as (_ & _ & Hto & _ & _ & Hn); [apply deposit_fields|apply deposit_fields|apply deposit_data..|].
  split; [exact Hto|exact Hn].
Defined.
