(* ===== verification/CoreInstances.v ===== *)
(** * Concrete instances for the core and the pool

    Executable stand-ins for what the core uses of MoacLib and of the libraries
    around it, satisfying the laws the theorems ask for, and a run of each theorem
    on them.  A transaction is its nonce, price and sender; accounts start with a
    balance of a million; hashes are the stdpp encodings of what is hashed. *)
From S2P Require Import Prelude GoMonad Heap TxList TxListProps TxPricedProps StateTransition StateTransitionProps.
From S2P Require Import TxPool TxPoolInv TxPoolProps TxPoolLimits TxPoolReach.
Local Open Scope Z_scope.

(** ** The state and the virtual machine *)

(** Changes of the balances and the nonces. *)
#[export] Instance evmZ : EvmLib := {
  StateDB := gmap Z Z * gmap Z Z;
  Exist := fun _ _ => true;
  CreateAccount := fun db _ => db;
  GetBalance := fun db a => 1000000 + default 0 (db.1 !! a);
  SubBalance := fun db a v => (<[a := default 0 (db.1 !! a) - v]> db.1, db.2);
  AddBalance := fun db a v => (<[a := default 0 (db.1 !! a) + v]> db.1, db.2);
  GetNonce := fun db a => default 0 (db.2 !! a);
  SetNonce := fun db a n => (db.1, <[a := n]> db.2);
  GetRefund := fun _ => 4;
  evm_Create := fun db _ _ gas _ _ => (gas / 2, VmOk, db);
  evm_CreateSystemContract := fun db _ _ => (VmOk, db);
  evm_Call := fun db _ _ _ gas _ _ _ => (gas / 2, VmOk, db);
  TxGas := 21;
  TxGasContractCreation := 53;
  TxDataNonZeroGas := 2;
  TxDataZeroGas := 1
}.

#[export] Instance evmZ_laws : EvmLaws.
Proof.
  split; cbn; try done.
  - intros db a v b. destruct (Z.eqb_spec a b) as [->|Hn]; [rewrite lookup_insert_eq|rewrite lookup_insert_ne by done]; cbn; lia.
  - intros db a v b. destruct (Z.eqb_spec a b) as [->|Hn]; [rewrite lookup_insert_eq|rewrite lookup_insert_ne by done]; cbn; lia.
  - intros _ _ _ gas _ _ Hg. pose proof (Z.div_le_upper_bound gas 2 gas). pose proof (Z.div_pos gas 2). lia.
  - intros _ _ _ _ gas _ _ _ Hg. pose proof (Z.div_le_upper_bound gas 2 gas). pose proof (Z.div_pos gas 2). lia.
Qed.

#[export] Instance processorZ : ProcessorLib := {
  Tx := Message;
  AsMessage := fun m => Ok m;
  t_Hash := m_Nonce;
  t_Nonce := m_Nonce;
  GetFlag := fun _ _ => 0;
  SetFlag := fun db _ _ => db;
  Prepare_tx := fun db _ _ _ => db;
  Finalise := fun db => db;
  GetLogs := fun _ _ => [];
  CreateAddress := fun a n => a + n;
  CreateBloom := fun _ => [];
  DeriveSha_receipts := fun l => Z.of_nat (length l);
  DeriveSha_txs := fun l => Z.of_nat (length l);
  IntermediateRoot := fun _ => 0
}.

(** A call of account 7 to account 8. *)
Definition a_call (nonce : Z) : Message := mkMessage 7 (Some 8) 0 0 2 100 0 nonce true [1; 0] 0.

Definition the_evm : EVM := mkEVM 9 false false.

Definition db0 : StateDB := (∅, ∅).

(** What a run returned, and the state it left. *)
Definition got {A B : Type} (d : A) (o : outcome (A * B)) : A := match o with Ret (a, _) => a | _ => d end.

Definition left_in {A B : Type} (d : B) (o : outcome (A * B)) : B := match o with Ret (_, b) => b | _ => d end.

Definition after_call : StateTransition := Eval vm_compute in
  left_in (NewStateTransition 0 db0 []) (ApplyMessage the_evm (a_call 0) 1000 db0 []).

Lemma message_settles_witness :
  ApplyMessage the_evm (a_call 0) 1000 db0 [] = Ret (inl (58, false), after_call) /\ gp after_call = 1000 - 58.
Proof.
  assert (E : ApplyMessage the_evm (a_call 0) 1000 db0 [] = Ret (inl (58, false), after_call)) by evaluated.
  split; [exact E|].
  exact (proj1 (proj2 (proj2 (message_settles the_evm (a_call 0) 1000 db0 [] 58 false after_call ltac:(cbn; lia) eq_refl E)))).
Defined.

Definition two_calls : outcome ((list Receipt * list Log * Z + TxError) * StateDB) :=
  Process the_evm (fun db _ _ => db) 5 1000 [a_call 0; a_call 1] db0 [].

Definition two_receipts : list Receipt := Eval vm_compute in
  match two_calls with Ret (inl (r, _, _), _) => r | _ => [] end.

Definition db_after : StateDB := Eval vm_compute in left_in db0 two_calls.

Lemma block_gas_witness :
  two_calls = Ret (inl (two_receipts, [], 116), db_after) /\ length two_receipts = 2%nat /\
  receipts_ok [a_call 0; a_call 1] two_receipts /\ 116 <= 1000.
Proof.
  assert (E : two_calls = Ret (inl (two_receipts, [], 116), db_after)) by evaluated.
  assert (Ho : Forall ordinary [a_call 0; a_call 1]).
  { repeat constructor; injection H as <-; cbn; lia. }
  split; [exact E|]. split; [evaluated|].
  destruct (block_gas (PL := processorZ) the_evm (fun db _ _ => db) 5 1000 [a_call 0; a_call 1] db0 [] _ _ _ _ Ho ltac:(lia) E) as (H1 & _ & H2 & _).
  split; [exact H1|exact H2].
Defined.

(** ** The pool *)

(** A transaction: its nonce, price and sender. *)
#[export] Instance txZ : TxLib := {
  Transaction := Z * Z * Z;
  Tx_Nonce := fun t => u64 t.1.1;
  Tx_GasPrice := fun t => t.1.2;
  Tx_GasLimit := fun _ => 50;
  Tx_Cost := fun t => 50 * t.1.2;
  Tx_Hash := fun t => Z.pos (encode t);
  Tx_Sender := fun t => Ok t.2;
  Tx_Nonce_u64 := fun t => u64_range t.1.1
}.

Definition higher (x y : Z * Z) : Prop := y.2 <= x.2.

#[export] Instance higher_dec x y : Decision (higher x y).
Proof. unfold higher. apply _. Defined.

#[export] Instance higher_total : Total higher.
Proof. intros x y. unfold higher. lia. Qed.

#[export] Instance higher_trans : Transitive higher.
Proof. intros x y z. unfold higher. lia. Qed.

#[export] Instance poolZ : PoolLib := {
  Tx_Size := fun _ => 10;
  Tx_Value := fun _ => 0;
  Tx_IsClassic := fun _ => false;
  Tx_ChainId := fun _ => 1;
  Tx_Data := fun _ => [];
  Tx_To := fun _ => Some 8;
  MaximumTxSize := 100;
  MaxChainId := 10;
  ManagedState := gmap Z Z;
  ManageState := fun db => db.2;
  ms_GetNonce := fun ms a => default 0 (ms !! a);
  ms_SetNonce := fun ms a n => <[a := n]> ms;
  prque_order := fun l => (merge_sort higher l).*1;
  sort_beats := fun l => l;
  TxDifference := fun a b => filter (fun tx => tx ∉ b) a
}.

#[export] Instance poolZ_laws : PoolLaws.
Proof.
  split.
  - intros x y E. cbn in E. injection E as E. by apply (inj encode).
  - intros l. cbn. by rewrite merge_sort_Permutation.
  - intros l Hnd. cbn. pose proof (StronglySorted_merge_sort higher l) as Hs.
    assert (Hin : forall e, e ∈ merge_sort higher l -> e ∈ l) by (intros e; by rewrite merge_sort_Permutation).
    assert (Huniq : forall a n m, (a, n) ∈ l -> (a, m) ∈ l -> n = m).
    { clear -Hnd. intros a n m Hn Hm. induction l as [|[b k] l IH]; [by apply elem_of_nil in Hn|].
      cbn in Hnd. apply NoDup_cons in Hnd as [Hb Hnd].
      assert (G : forall j, (b, j) ∈ l -> False).
      { intros j Hj. apply Hb. apply list_elem_of_fmap. by exists (b, j). }
      apply elem_of_cons in Hn as [Hn|Hn]; apply elem_of_cons in Hm as [Hm|Hm]; simplify_eq; try done; [by apply G in Hm|by apply G in Hn|by apply IH]. }
    revert Hs Hin. generalize (merge_sort higher l). intros s Hs Hin.
    induction Hs as [|[a n] s Hs IH Ha]; [constructor|]. cbn. constructor.
    + apply IH. intros e He. apply Hin. by right.
    + apply Forall_forall. intros b ([b' m] & -> & Hb)%list_elem_of_fmap n' m' Hn Hm. cbn in *.
      pose proof (proj1 (Forall_forall _ _) Ha _ Hb) as Hle. unfold higher in Hle. cbn in Hle.
      rewrite (Huniq a n' n); [|done|apply Hin; by left]. rewrite (Huniq b' m' m); [done|done|apply Hin; by right].
  - done.
Qed.

(** A pool that keeps three pending transactions, two for each account, and four
    queued ones. *)
Definition small_config : TxPoolConfig := mkTxPoolConfig false 1 10 2 3 4 4 60 1000000000.

Lemma small_config_ok : config_ok (sanitize small_config).
Proof. split; cbn; lia. Qed.

Definition the {A : Type} (d : A) (o : outcome A) : A := match o with Ret a => a | _ => d end.

Definition no_blocks (h n : Z) : option PoolBlock := None.
Definition first_head : Head := mkHead 100 99 0 (Ok db0) 1000.

Definition pool0 : TxPool := Eval vm_compute in
  match NewTxPool false 0 small_config no_blocks first_head None Rotates elements with
  | Ret (inr p) => p
  | _ => empty_pool (mkStateless small_config 0 false None) db0
  end.

Definition pool_run (p : TxPool) (o : pool_op) : TxPool := the p (run o p).

(** The pool after transactions of accounts 7 and 5. *)
Definition some_txs : list Transaction := [(0, 5, 7); (1, 6, 7); (2, 4, 7); (0, 3, 5); (2, 9, 5)].

Definition pool1 : TxPool := Eval vm_compute in pool_run pool0 (OpAdds false 1 some_txs false).

Lemma pool0_reachable : pool_reachable pool0.
Proof.
  apply (reach_new false 0 small_config no_blocks first_head None Rotates elements); [apply small_config_ok|cbn; lia|evaluated].
Qed.

Lemma pool1_reachable : pool_reachable pool1.
Proof.
  apply (reach_run (OpAdds false 1 some_txs false) pool0); [apply pool0_reachable|vm_compute; reflexivity|evaluated].
Qed.

(** Two of the three transactions of account 7 are pending after the limit of
    three is enforced. *)
Lemma pool_consistent_witness :
  at_ (pending pool1) 7 1 = Some (1, 6, 7) /\ at_ (pending pool1) 7 2 = None /\ at_ (queue pool1) 5 2 = Some (2, 9, 5) /\
  pool_Get (Tx_Hash (1, 6, 7)) pool1 = Some (1, 6, 7).
Proof.
  assert (E : at_ (pending pool1) 7 1 = Some (1, 6, 7)) by evaluated.
  split; [exact E|]. split; [evaluated|]. split; [evaluated|].
  exact (proj2 (proj2 (proj1 (pool_consistent pool1 pool1_reachable) 7 1 _ (or_introl E)))).
Defined.

(** A transaction more for account 7 in the queue, before the accounts are promoted. *)
Definition pool2 : TxPool := Eval vm_compute in snd (the (inl false, pool1) (add false (2, 4, 7) false pool1)).

Lemma pool2_sound : sound pool2.
Proof.
  destruct (reachable_sound _ pool1_reachable) as [Hok Hc].
  assert (Hadd : exists r p, add false (2, 4, 7) false pool1 = Ret (r, p) /\ pool_ok p /\ added (2, 4, 7) pool1 p).
  { apply add_ok; [exact Hok|exact Hc|vm_compute; reflexivity]. }
  destruct Hadd as (r & p & E & Hok' & Ha).
  assert (E' : add false (2, 4, 7) false pool1 = Ret (inl false, pool2)) by evaluated.
  rewrite E in E'. injection E' as _ ->. split; [done|]. by rewrite (ad_config _ _ _ Ha).
Qed.

(** It is promoted, one transaction too many, and cut again. *)
Lemma pending_limit_witness :
  exists p1 p2 p3, promote_accounts 2 [7] pool2 = Ret p1 /\
    limit_pending p1 = Ret p2 /\ limited p1 p2 /\ limit_queue p2 = Ret p3 /\ promoteExecutables 2 (Some [7]) pool2 = Ret p3 /\
    at_ (pending p1) 7 2 = Some (2, 4, 7) /\ at_ (pending p2) 7 2 = None.
Proof.
  destruct (pending_limit 2 (Some [7]) pool2 pool2_sound) as (p1 & p2 & p3 & E1 & E2 & Hl & E3 & E); [vm_compute; reflexivity|].
  exists p1, p2, p3. do 5 (split; [done|]).
  assert (C1 : at_ (pending (the pool2 (promote_accounts 2 [7] pool2))) 7 2 = Some (2, 4, 7)) by evaluated.
  assert (C2 : at_ (pending (the pool2 (limit_pending (the pool2 (promote_accounts 2 [7] pool2))))) 7 2 = None) by evaluated.
  rewrite E1 in C1, C2. cbn [the] in C1, C2. rewrite E2 in C2. split; [exact C1|exact C2].
Defined.

Definition list_of_7 : txList := Eval vm_compute in default (newTxList true) (pending pool1 !! 7).

Lemma removed_first_loses_rest_witness :
  exists p', removeTx (Tx_Hash (0, 5, 7)) pool1 = Ret p' /\ unlisted p' (1, 6, 7) /\
    pool_Get (Tx_Hash (1, 6, 7)) p' = Some (1, 6, 7) /\
    add false (1, 6, 7) false p' = Ret (inr errKnownTransaction, p').
Proof.
  assert (El : pending pool1 !! 7 = Some list_of_7) by evaluated.
  assert (E0 : lmap list_of_7 !! Tx_Nonce (0, 5, 7) = Some (0, 5, 7)) by evaluated.
  assert (E1 : lmap list_of_7 !! Tx_Nonce (1, 6, 7) = Some (1, 6, 7)) by evaluated.
  apply (removed_first_loses_rest false false pool1 7 list_of_7 (0, 5, 7) (1, 6, 7) pool1_reachable El E0); [|exact E1|done].
  intros n [tx Htx]. destruct (reachable_sound _ pool1_reachable) as [Hok _].
  destruct (po_pending _ _ Hok 7 list_of_7 El) as [Hl _]. rewrite <- (lok_nonce _ _ _ Hl Htx).
  change (@Tx_Nonce txZ (0, 5, 7)) with 0. apply (Tx_Nonce_u64 tx).
Defined.

(** A genesis block, a block on it, and a branch of two blocks beside that. *)
Definition block_g : PoolBlock := mkPoolBlock 100 99 0 [].
Definition block_a : PoolBlock := mkPoolBlock 101 100 1 [(0, 5, 7); (1, 6, 7)].
Definition block_b1 : PoolBlock := mkPoolBlock 201 100 1 [(0, 5, 7)].
Definition block_b2 : PoolBlock := mkPoolBlock 202 201 2 [(0, 3, 5)].

Definition forked (h n : Z) : option PoolBlock :=
  if (h =? 100) && (n =? 0) then Some block_g
  else if (h =? 101) && (n =? 1) then Some block_a
  else if (h =? 201) && (n =? 1) then Some block_b1
  else if (h =? 202) && (n =? 2) then Some block_b2
  else None.

Lemma forked_inv h n b : forked h n = Some b ->
  (h = 100 /\ n = 0 /\ b = block_g) \/ (h = 101 /\ n = 1 /\ b = block_a) \/
  (h = 201 /\ n = 1 /\ b = block_b1) \/ (h = 202 /\ n = 2 /\ b = block_b2).
Proof.
  unfold forked.
  destruct (Z.eqb_spec h 100), (Z.eqb_spec n 0), (Z.eqb_spec h 101), (Z.eqb_spec n 1), (Z.eqb_spec h 201), (Z.eqb_spec h 202), (Z.eqb_spec n 2);
    cbn; intros E; try done; injection E as <-; auto 10.
Qed.

Lemma forked_ok : chain_ok forked.
Proof.
  split.
  - intros h n b Hb%forked_inv. unfold is_u64, MaxUint64. destruct Hb as [(-> & -> & ->)|[(-> & -> & ->)|[(-> & -> & ->)|(-> & -> & ->)]]]; cbn; lia.
  - intros h n n' b b' Hb%forked_inv Hb'%forked_inv.
    destruct Hb as [(-> & -> & ->)|[(-> & -> & ->)|[(-> & -> & ->)|(-> & -> & ->)]]],
      Hb' as [(E & -> & ->)|[(E & -> & ->)|[(E & -> & ->)|(E & -> & ->)]]]; done.
  - intros h n b Hb%forked_inv Hn. destruct Hb as [(-> & -> & ->)|[(-> & -> & ->)|[(-> & -> & ->)|(-> & -> & ->)]]]; [lia|eexists; done..].
  - intros h h' b b' Hb%forked_inv Hb'%forked_inv.
    destruct Hb as [(-> & E & ->)|[(-> & E & ->)|[(-> & E & ->)|(-> & E & ->)]]],
      Hb' as [(-> & E' & ->)|[(-> & E' & ->)|[(-> & E' & ->)|(-> & E' & ->)]]]; done.
Qed.

(** Moving from the short branch to the long one gives back what only the short one
    had. *)
Definition other_head : Head := mkHead 202 201 2 (Ok db0) 1000.

#[export] Instance difference_law : TxDifferenceLaw.
Proof.
  split. intros l l' tx. cbn. rewrite list_elem_of_filter. split.
  - intros [Hn Hl]. split; [done|]. intros t Ht E. apply Hn. injection E as E%(inj encode). by subst t.
  - intros [Hl Hn]. split; [|done]. intros Hin. by apply (Hn tx Hin).
Qed.

Lemma reorg_reinjects_witness :
  reinject 5 forked (Some (101, 1)) other_head = Ret (Some [(1, 6, 7)]) /\
  exists c bs1 bs2 txs,
    branch forked block_a c bs1 /\ branch forked block_b2 c bs2 /\ (forall x y, x ∈ bs1 -> y ∈ bs2 -> pb_Hash x <> pb_Hash y) /\
    (forall tx, tx ∈ txs <-> tx ∈ txs_of bs1 /\ forall t, t ∈ txs_of bs2 -> Tx_Hash t <> Tx_Hash tx) /\
    reset false 3 5 forked (Some (101, 1)) other_head pool1 =
      (p1 ← addTxsLocked false 3 txs false (with_head db0 1000 pool1); revalidate 3 p1).
Proof.
  split; [evaluated|].
  apply (reorg_reinjects forked forked_ok false 3 5 101 1 other_head db0 pool1 block_a block_b2); done.
Defined.

(** The pool follows the chain to the other branch. *)
Lemma pool_never_panics_witness :
  room (2 ^ 24) (OpHead false true 3 5 forked (101, 1) other_head) pool1 /\
  exists p', run (OpHead false true 3 5 forked (101, 1) other_head) pool1 = Ret p' /\ pool_reachable p'.
Proof.
  assert (E : reinject 5 forked (Some (101, 1)) other_head = Ret (Some [(1, 6, 7)])) by evaluated.
  assert (Hr : room (2 ^ 24) (OpHead false true 3 5 forked (101, 1) other_head) pool1).
  { intros txs Et. rewrite E in Et. injection Et as <-. vm_compute. reflexivity. }
  split; [exact Hr|]. apply (pool_never_panics pool1 _ pool1_reachable Hr).
  split; [apply forked_ok|]. right. right. split; [by eexists|]. split; [by eexists|]. cbn. lia.
Defined.

(** A pool whose first head has no state takes the first transaction for a reason to
    panic; with the next head it has a state. *)
Definition stateless0 : Stateless := mkStateless (sanitize small_config) 1 false None.

Lemma stateless_starts :
  NewTxPool false 0 small_config no_blocks (mkHead 100 99 0 Err 1000) None Rotates elements = Ret (inl stateless0) /\
  reachable_either (inl stateless0) /\ sl_run (OpAdd false 1 (0, 5, 7) false) stateless0 = Panic /\
  exists p, sl_run (OpHead false false 2 0 no_blocks (100, 0) (mkHead 101 100 1 (Ok db0) 1000)) stateless0 = Ret (inr p).
Proof.
  assert (E : NewTxPool false 0 small_config no_blocks (mkHead 100 99 0 Err 1000) None Rotates elements = Ret (inl stateless0)) by evaluated.
  split; [exact E|]. split; [|split].
  - apply (reach_new _ _ _ _ _ _ _ _ _ small_config_ok) in E; [exact E|cbn; lia].
  - by apply (stateless_panics _ _ _ _ _ 7).
  - eexists. cbn. reflexivity.
Qed.

(** ** Transaction lists *)
Definition tx_of (nonce price sender : Z) : Transaction := (nonce, price, sender).

Definition some_ops : list op := [OpPut (tx_of 3 5 7); OpPut (tx_of 4 5 7); OpReady 3; OpCap 0].

Lemma txSortedMap_refines_witness :
  exists res r m, txcalls some_ops newTxSortedMap = Ret (res, r) /\ specs some_ops ∅ res m /\ represents r m.
Proof. apply (txSortedMap_refines some_ops). repeat constructor; cbn; lia. Defined.

Lemma Discard_cheapest_witness :
  exists d l', Discard 1 ∅ (all pool1) (priced pool1) = Ret (d, l') /\ d = [(0, 3, 5)].
Proof.
  destruct (reachable_sound _ pool1_reachable) as [Hok _].
  destruct (Discard_cheapest 1 ∅ (all pool1) (priced pool1) ltac:(lia) (pool_ok_priced _ Hok)) as (d & l' & E & _).
  exists d, l'. split; [exact E|].
  assert (Ed : fst (the ([], priced pool1) (Discard 1 ∅ (all pool1) (priced pool1))) = [(0, 3, 5)]) by evaluated.
  rewrite E in Ed. exact Ed.
Defined.
