(* ===== verification/ConsensusInstances.v ===== *)
(** * Concrete instances for the consensus engines

    Executable stand-ins for the hashes, signatures, caches and stores the engines
    use, satisfying the laws the theorems ask for, and a run of each theorem on
    them.  A signature starts with the account that signed; the hash of a header is
    the stdpp encoding of its fields. *)
From S2P Require Import Prelude GoMonad Clique CliqueProps CliqueEngine CliqueEngineProps.
Local Open Scope Z_scope.

(** ** Headers *)
Definition optional (o : option Z) : list Z := match o with Some z => [1; z] | None => [0; 0] end.

Definition header_list (h : Header) : list Z :=
  [ParentHash h; UncleHash h; Coinbase h; Root h; TxHash h; ReceiptHash h] ++
  optional (Difficulty h) ++ optional (Number h) ++ optional (GasLimit h) ++ optional (GasUsed h) ++ optional (Time h) ++
  [MixDigest h; Z.of_nat (length (Bloom h)); Z.of_nat (length (Extra h))] ++ Bloom h ++ Extra h ++ Nonce h.

Lemma optional_app o o' l l' : optional o ++ l = optional o' ++ l' -> o = o' /\ l = l'.
Proof. destruct o, o'; cbn; intros E; simplify_eq; done. Qed.

Lemma header_list_inj h h' : header_list h = header_list h' -> h = h'.
Proof.
  destruct h, h'. unfold header_list. cbn -[optional Z.of_nat].
  intros E. injection E as -> -> -> -> -> -> E.
  do 5 (apply optional_app in E as [-> E]). injection E as -> E1 E2 E.
  apply app_inj_1 in E as [-> E]; [|lia]. apply app_inj_1 in E as [-> ->]; [done|lia].
Qed.

(** ** Clique *)
#[export] Instance cliqueZ : CliqueLib := {
  Header_Hash := fun h => Z.pos (encode (header_list h));
  rlpKeccak256 := fun h => [Z.of_nat (length (Extra h))];
  Ecrecover := fun _ sig => Ok (4 :: sig);
  Keccak256 := fun l => replicate 12 0 ++ take 20 l;
  emptyUncles := 0;
  Address_list := fun a => a :: replicate 19 0;
  Address_of := fun l => default 0 (head l)
}.

#[export] Instance Vote_countable : Countable Vote.
Proof.
  refine (inj_countable' (fun v => (v_Signer v, v_Block v, v_Address v, v_Authorize v))
    (fun t => mkVote t.1.1.1 t.1.1.2 t.1.2 t.2) _). by intros [].
Defined.

#[export] Instance Tally_countable : Countable Tally.
Proof. refine (inj_countable' (fun t => (t_Authorize t, t_Votes t)) (fun t => mkTally t.1 t.2) _). by intros []. Defined.

#[export] Instance Snapshot_eq_dec : EqDecision Snapshot.
Proof. solve_decision. Defined.

#[export] Instance Snapshot_countable : Countable Snapshot.
Proof.
  refine (inj_countable' (fun s => (s_Number s, s_Hash s, Signers s, Recents s, Votes s, s_Tally s))
    (fun t => mkSnapshot t.1.1.1.1.1 t.1.1.1.1.2 t.1.1.1.2 t.1.1.2 t.1.2 t.2) _). by intros [].
Defined.

#[export] Instance engineZ : EngineLib := {
  ARCCache := gmap Z Snapshot;
  NewARC := fun _ => ∅;
  ARC_Get := fun c h => (c !! h, c);
  ARC_Add := fun c h s => <[h := s]> c;
  Database := gmap (list Z) (list Z);
  db_Get := fun db k => match db !! k with Some v => Ok v | None => Err end;
  db_Put := fun db k v => (Ok tt, <[k := v]> db);
  Hash_list := fun h => [h];
  json_Marshal := fun s => Ok [Z.pos (encode s)];
  json_Unmarshal := fun l =>
    match l with
    | [Z.pos x] => match decode x with Some s => Ok s | None => Err end
    | _ => Err
    end
}.

#[export] Instance engineZ_laws : EngineLaws.
Proof.
  split; cbn.
  - intros _ h. apply lookup_empty.
  - done.
  - intros c h s h' s' [[<- <-]|[_ ?]]%lookup_insert_Some; [by left|by right].
  - intros db k v k' v'. destruct (decide (k = k')) as [->|Hk].
    + rewrite lookup_insert_eq. intros [= <-]. by left.
    + rewrite lookup_insert_ne by done. by right.
  - by intros h h' [= ->].
  - intros s blob [= <-]. by rewrite decode_encode.
  - intros x y [= E%(inj encode)]. by apply header_list_inj.
Qed.

(** Four signers. *)
Definition genesis4 : Header :=
  mkHeader 0 0 0 0 0 0 [] (Some 1) (Some 0) (Some 0) (Some 0) (Some 0)
    (replicate 32 0 ++ Address_list 1 ++ Address_list 2 ++ Address_list 3 ++ Address_list 4 ++ replicate 65 0) 0 nonceDropVote.

(** A header signed by an account, voting on another one. *)
Definition signed (parent : Header) (number signer turn account : Z) (nonce : list Z) : Header :=
  mkHeader (Header_Hash parent) 0 account 0 0 0 [] (Some turn) (Some number) (Some 0) (Some 0) (Some (15 * number))
    (replicate 32 0 ++ signer :: replicate 64 0) 0 nonce.

(** Accounts 1, 2 and 3 vote for account 9. *)
Definition vote1 : Header := Eval vm_compute in signed genesis4 1 2 2 9 nonceAuthVote.
Definition vote2 : Header := Eval vm_compute in signed vote1 2 3 2 9 nonceAuthVote.
Definition vote3 : Header := Eval vm_compute in signed vote2 3 4 2 9 nonceAuthVote.

Definition snap0 : Snapshot := genesis_snapshot genesis4.

Definition applied (s : Snapshot) (headers : list Header) : Snapshot :=
  match apply 30000 s headers with Ret (inl s') => s' | _ => s end.

Definition snap2 : Snapshot := Eval vm_compute in applied snap0 [vote1; vote2].

Lemma snap2_reachable : reachable 30000 snap2.
Proof.
  apply (reachable_apply 30000 snap0 [vote1; vote2]); [constructor|cbn; unfold MaxUint64; lia|evaluated].
Qed.

Definition snap3 : Snapshot := Eval vm_compute in
  match apply_header 30000 snap2 vote3 with Ret (inl s') => s' | _ => snap2 end.

Lemma signers_change_by_majority_witness :
  apply_header 30000 snap2 vote3 = Ret (inl snap3) /\
  elements (Signers snap3) ≡ₚ [1; 2; 3; 4; 9] /\
  (Signers snap3 = Signers snap2 \/
   exists authorize, majority snap2 vote3 (Coinbase vote3) authorize /\
     Signers snap3 = if authorize then {[Coinbase vote3]} ∪ Signers snap2 else Signers snap2 ∖ {[Coinbase vote3]}).
Proof.
  assert (E : apply_header 30000 snap2 vote3 = Ret (inl snap3)) by evaluated.
  split; [exact E|]. split.
  - assert (Es : merge_sort Z.le (elements (Signers snap3)) = [1; 2; 3; 4; 9]) by evaluated.
    rewrite <- Es. by rewrite merge_sort_Permutation.
  - exact (signers_change_by_majority 30000 snap2 vote3 snap3 snap2_reachable E).
Defined.

Lemma snapshot_consistent_witness :
  ((fun v => (v_Signer v, v_Address v)) <$> Votes snap2) = [(2, 9); (3, 9)] /\ snap_inv snap2 /\ window 0 (s_Number snap2) snap2.
Proof. split; [evaluated|exact (snapshot_consistent 30000 snap2 snap2_reachable)]. Defined.

(** *** The engine *)
Definition chain3 : list Header := [genesis4; vote1; vote2].

Definition at_hash (hash number : Z) : option Header :=
  head (filter (fun h => Header_Hash h = hash /\ Number h = Some number) chain3).

Definition chainZ : ChainReader :=
  mkChainReader (Some vote2) at_hash (fun n => chain3 !! Z.to_nat n) (fun h => head (filter (fun x => Header_Hash x = h) chain3)).

Definition configZ : CliqueConfig := mkCliqueConfig 15 30000.

Definition signZ : SignerFn := fun account _ => Ok (account :: replicate 64 0).

Definition engine0 : Clique := mkClique configZ (∅ : gmap (list Z) (list Z)) (NewARC 10) {[ 9 := true ]} 4 (Some signZ).

Lemma signZ_signs account : signs_for account signZ.
Proof. intros h sig [= <-]. split; [done|]. exists 4, (account :: replicate 64 0). done. Qed.

Lemma engine0_ok : engine_ok configZ genesis4 4 (Some signZ) engine0.
Proof.
  split; done.
Qed.

Lemma votes_chain : chain_of genesis4 [vote1; vote2].
Proof.
  split.
  - cbn. split_and!; [reflexivity|reflexivity|exact I].
  - intros [|[|i]] h E; cbn in E; [injection E as <-; done|injection E as <-; done|done].
  - cbn. unfold MaxUint64. lia.
Qed.

Lemma store_fine s db : fst (store s db) = Ok tt.
Proof. done. Qed.

Lemma genesis4_valid : verify_fields 100 configZ genesis4 0 = fine tt.
Proof. evaluated. Qed.

Lemma snapshot_replays_witness :
  apply 30000 snap0 [vote1; vote2] = Ret (inl snap2) /\
  exists c', snapshot 100 chainZ 5 2 (Header_Hash vote2) [vote2] engine0 = Ret (inl snap2, c') /\
    engine_ok configZ genesis4 4 (Some signZ) c'.
Proof.
  assert (E : apply 30000 snap0 [vote1; vote2] = Ret (inl snap2)) by evaluated.
  split; [exact E|].
  assert (Hs : stored_in_chain chainZ [vote1]).
  { intros [|i] h E1; [|done]. apply (inj Some) in E1 as <-. evaluated. }
  pose proof (snapshot_replays 100 chainZ configZ genesis4 4 (Some signZ) eq_refl store_fine eq_refl genesis4_valid
    5 [vote1] [vote2] engine0 Hs votes_chain ltac:(cbn; lia) engine0_ok) as Hr.
  cbn [app length Epoch configZ] in Hr. fold snap0 in Hr. rewrite E in Hr. exact Hr.
Defined.

(** The header a miner starts from. *)
Definition draft : Header := Eval vm_compute in
  mkHeader (Header_Hash vote2) 0 0 0 0 0 [] None (Some 3) (Some 0) (Some 0) None [] 0 [].

Definition first_vote (n : Z) : Z := 0.

Definition prepared_run : outcome ((Header + CliqueError) * Clique) := Prepare 100 chainZ 5 first_vote draft engine0.

Definition prepared3 : Header := Eval vm_compute in match prepared_run with Ret (inl p, _) => p | _ => draft end.
Definition engine1 : Clique := Eval vm_compute in match prepared_run with Ret (_, c) => c | _ => engine0 end.

Definition sealed_run : outcome ((option Header + CliqueError) * Clique) := Seal 100 chainZ 5 false prepared3 engine1.

Definition sealed3 : Header := Eval vm_compute in match sealed_run with Ret (inl (Some p), _) => p | _ => draft end.
Definition engine2 : Clique := Eval vm_compute in match sealed_run with Ret (_, c) => c | _ => engine0 end.

Lemma sealed_blocks_verify_witness :
  Seal 100 chainZ 5 false prepared3 engine1 = Ret (inl (Some sealed3), engine2) /\ Coinbase sealed3 = 9 /\
  (exists c3, VerifySeal 100 chainZ 5 sealed3 engine2 = Ret (inl tt, c3)) /\
  exists s', apply_header 30000 snap2 sealed3 = Ret (inl s').
Proof.
  assert (E1 : Prepare 100 chainZ 5 first_vote draft engine0 = Ret (inl prepared3, engine1)) by evaluated.
  assert (E2 : Seal 100 chainZ 5 false prepared3 engine1 = Ret (inl (Some sealed3), engine2)) by evaluated.
  split; [exact E2|]. split; [evaluated|].
  assert (Hs : stored_in_chain chainZ [vote1; vote2]).
  { intros [|[|i]] h E; [| |done]; apply (inj Some) in E as <-; evaluated. }
  assert (Ea : apply 30000 snap0 [vote1; vote2] = Ret (inl snap2)) by evaluated.
  assert (Hp : ParentHash draft = Header_Hash (tip genesis4 [vote1; vote2])) by evaluated.
  assert (Hn : header_number draft = Ret (Z.of_nat (length [vote1; vote2]) + 1)) by evaluated.
  exact (sealed_blocks_verify 100 chainZ configZ genesis4 4 (Some signZ) eq_refl store_fine eq_refl genesis4_valid 5 [vote1; vote2] snap2
    Hs votes_chain ltac:(cbn; lia) Ea ltac:(cbn; unfold MaxUint64; lia)
    first_vote draft prepared3 sealed3 engine0 engine1 engine2 signZ engine0_ok Hp Hn eq_refl (signZ_signs 4) E1 E2).
Defined.

(** Account 2 signs the first two blocks. *)
Definition snap1 : Snapshot := Eval vm_compute in applied snap0 [vote1].

Definition again : Header := Eval vm_compute in signed vote1 2 2 1 0 nonceDropVote.

Lemma snap1_reachable : reachable 30000 snap1.
Proof. apply (reachable_apply 30000 snap0 [vote1]); [constructor|cbn; unfold MaxUint64; lia|evaluated]. Qed.

Lemma early_seal_gap_witness :
  verifySeal_with (fun _ _ _ => returns snap1) again [] engine0 = Ret (inl tt, engine0) /\
  apply_header 30000 snap1 again = Ret (inr errUnauthorized).
Proof.
  apply (early_seal_gap 30000 snap1 1 2 false again (fun _ _ _ => returns snap1) [] engine0 engine0 ltac:(lia) snap1_reachable).
  - evaluated.
  - assert (E : bool_decide (2 ∈ Signers snap1) = true) by evaluated. by apply bool_decide_eq_true in E.
  - split; vm_compute; congruence.
  - evaluated.
  - evaluated.
  - evaluated.
  - evaluated.
  - evaluated.
Defined.
