(* ===== verification/PowInstances.v ===== *)
(** * Concrete instances for proof of work

    Executable stand-ins for the hashes and the parameters of proof of work, and a
    run of each theorem on them. *)
From S2P Require Import Prelude GoMonad Clique CliqueEngine ConsensusInstances StateTransition EthashSizes Ethash EthashProps.
From S2P Require Import EthashConsensus EthashConsensusProps HeaderPipeline.
Local Open Scope Z_scope.

#[export] Instance powZ : PowLib := {
  Sum256 := fun l => replicate 32 (default 0 (head l));
  Sum512 := fun l => replicate 64 (default 0 (head l));
  HashNoNonce := fun h => [default 0 (Number h)];
  Hash_bytes := fun z => match z with Z.pos p => default [] (decode p) | _ => [] end;
  BytesToHash := fun b => Z.pos (encode b);
  Nonce_Uint64 := fun l => default 0 (head l);
  EncodeNonce := fun n => [n]
}.

#[export] Instance powZ_laws : PowLaws.
Proof.
  split; cbn.
  - intros b _. by rewrite decode_encode.
  - done.
  - by intros n d [].
Qed.

Definition real_mode : EthashMode := mkEthashMode false false false 0.

Definition small_cache (epoch : Z) : list Z := seqZ 1 16.

Lemma small_cache_ok epoch : cache_ok (small_cache epoch).
Proof. unfold cache_ok, small_cache. rewrite length_seqZ. lia. Qed.

(** A header of the first epoch. *)
Definition pow_header (parent : Z) (number time difficulty extra : Z) : Header :=
  mkHeader parent 0 7 0 0 0 [] (Some difficulty) (Some number) (Some 8000000) (Some 0) (Some time) [extra] 0 [].

Definition genesisP : Header := pow_header 0 0 0 131072 0.

Lemma mined_seal_verifies_witness :
  datasetSize 1 = Ret 1073739904 /\
  exists dataset, generateDataset (Z.to_nat (1073739904 / 4)) (small_cache 0) (all_items 1073739904 4) = Ret dataset /\
    forall attempts seed sealed, is_u64 seed -> mine attempts dataset (pow_header 5 1 10 131072 0) seed = Ret (Some sealed) ->
      VerifySeal real_mode small_cache sealed = Ret (inl tt).
Proof.
  assert (E : datasetSize 1 = Ret 1073739904) by evaluated.
  split; [exact E|].
  exact (mined_seal_verifies real_mode small_cache (pow_header 5 1 10 131072 0) 1 1073739904 131072 4 (all_items 1073739904 4)
    eq_refl eq_refl eq_refl ltac:(unfold MaxUint64; lia) ltac:(vm_compute; reflexivity) eq_refl ltac:(lia) E ltac:(lia)
    (small_cache_ok 0) ltac:(lia) (Permutation_refl _)).
Defined.

Lemma dataset_tail_lost_witness :
  datasetSize 11550000 = Ret 4303349632 /\ 2 ^ 30 < 4303349632 / 4 /\
  exists ds, generateDataset (Z.to_nat (4303349632 / 4)) (small_cache 385) (all_items 4303349632 4) = Ret ds /\
    forall i, 2 ^ 30 <= Z.of_nat i -> Z.of_nat i < 4303349632 / 4 -> ds !! i = Some 0.
Proof.
  assert (E : datasetSize 11550000 = Ret 4303349632) by evaluated.
  split; [exact E|].
  exact (dataset_tail_lost 11550000 4303349632 (small_cache 385) (all_items 4303349632 4) ltac:(vm_compute; split; congruence) E (small_cache_ok 385)).
Defined.

(** ** The rules of headers *)
#[export] Instance limitsZ : GasLimits := { GasLimitBoundDivisor := 1024; MinGasLimit := 5000; TargetGasLimit := 4712388 }.

#[export] Instance paramsZ : PowParams := {
  MaximumExtraDataSize := 32;
  DifficultyBoundDivisor := 2048;
  MinimumDifficulty := 131072;
  MaxBig63 := 2 ^ 63 - 1;
  MaxBig256 := 2 ^ 256 - 1;
  DiffBombDefuseBlock := 4000000;
  pow_limits := limitsZ
}.

Definition one_header (h : Header) : ChainReader :=
  mkChainReader (Some h) (fun hash n => if (hash =? Header_Hash h) && bool_decide (Number h = Some n) then Some h else None)
    (fun _ => None) (fun _ => None).

Definition draft1 : Header :=
  mkHeader (Header_Hash genesisP) 0 7 0 0 0 [] None (Some 1) (Some (CalcGasLimit 0 8000000)) (Some 21000) (Some 10) [] 0 [].

Definition prepared1 : Header :=
  match Prepare (one_header genesisP) draft1 with Ret (inl h) => h | _ => draft1 end.

Definition sealed_fine (h : Header) : outcome (unit + PowError) := Ret (inl tt).

Lemma prepared_header_verifies_witness :
  Prepare (one_header genesisP) draft1 = Ret (inl prepared1) /\
  verifyHeader 100 sealed_fine prepared1 genesisP false false = Ret (inl tt).
Proof.
  assert (E : Prepare (one_header genesisP) draft1 = Ret (inl prepared1)) by evaluated.
  split; [exact E|].
  assert (Hg : GetHeader (one_header genesisP) (ParentHash draft1) (u64 (1 - 1)) = Some genesisP) by evaluated.
  refine (prepared_header_verifies 100 sealed_fine (one_header genesisP) draft1 prepared1 genesisP 10 0 131072 0 8000000 0 21000 1
    Hg eq_refl E eq_refl eq_refl _ _ _ eq_refl eq_refl eq_refl eq_refl eq_refl _ _ _ _ eq_refl _ eq_refl _ _);
    vm_compute; try split; congruence.
Defined.

(** ** Uncles *)
Definition diff_after (parent : Header) (time : Z) : Z :=
  match CalcDifficulty time parent with Ret d => d | _ => 0 end.

Definition on_top (parent : Header) (number time extra : Z) : Header :=
  pow_header (Header_Hash parent) number time (diff_after parent time) extra.

Definition main1 : Header := on_top genesisP 1 10 0.
Definition main2 : Header := on_top main1 2 20 0.
Definition side2 : Header := on_top main1 2 25 1.
Definition main3 : Header := on_top main2 3 30 0.

Definition main_chain : list Block := [mkBlock genesisP []; mkBlock main1 []; mkBlock main2 []].

Definition block_of (hash number : Z) : option Block :=
  head (filter (fun b => Header_Hash (b_header b) = hash /\ Number (b_header b) = Some number) main_chain).

Lemma block_of_hash h n b : block_of h n = Some b -> Header_Hash (b_header b) = h.
Proof.
  unfold block_of. intros E. destruct (filter _ _) as [|x l] eqn:Ef; [done|]. injection E as ->.
  assert (Hin : b ∈ filter (fun b => Header_Hash (b_header b) = h /\ Number (b_header b) = Some n) main_chain) by (rewrite Ef; by left).
  apply list_elem_of_filter in Hin as [[? _] _]. done.
Qed.

Lemma uncles_recent_witness :
  VerifyUncles 100 real_mode sealed_fine block_of (mkBlock main3 [side2]) = Ret (inl tt) /\
  NoDup (Header_Hash <$> [side2]) /\
  exists parent, verifyHeader 100 sealed_fine side2 parent true true = Ret (inl tt).
Proof.
  assert (E : VerifyUncles 100 real_mode sealed_fine block_of (mkBlock main3 [side2]) = Ret (inl tt)) by evaluated.
  split; [exact E|].
  destruct (uncles_recent 100 real_mode sealed_fine block_of (mkBlock main3 [side2]) 3 block_of_hash eq_refl eq_refl E)
    as (_ & Hnd & Hu).
  split; [exact Hnd|]. destruct (Hu side2) as (_ & _ & parent & Hp & _); [by left|]. exists parent. exact Hp.
Defined.

(** ** The workers

    Two headers and two workers: the second result is ready first. *)
Abbreviation squares := (fun i => i * i + 7)%nat (only parsing).

Definition both_sent : Pipeline (R := nat) := send (send start).
Definition both_done : Pipeline := finish squares 0 (finish squares 1 both_sent).
Definition both_received : Pipeline := receive 0%nat 2 0 [] (receive 0%nat 2 1 [0%nat] both_done).

Lemma both_received_reached : reaches squares 0%nat 2 2 both_received.
Proof.
  assert (H0 : reaches squares 0%nat 2 2 start) by constructor.
  assert (H1 : reaches squares 0%nat 2 2 (send start)).
  { eapply reaches_step; [exact H0|]. left. apply step_send; [done|cbn; lia|vm_compute; lia]. }
  assert (H2 : reaches squares 0%nat 2 2 both_sent).
  { eapply reaches_step; [exact H1|]. left. apply step_send; [done|cbn; lia|vm_compute; lia]. }
  assert (H3 : reaches squares 0%nat 2 2 (finish squares 1 both_sent)).
  { eapply reaches_step; [exact H2|]. right. apply step_finish; [vm_compute; set_solver|cbn; lia]. }
  assert (H4 : reaches squares 0%nat 2 2 both_done).
  { eapply reaches_step; [exact H3|]. right. apply step_finish; [unfold both_sent; cbn; set_solver|cbn; lia]. }
  eapply reaches_step; [eapply reaches_step; [exact H4|]|]; left; by apply step_receive.
Qed.

Lemma pipeline_in_order_witness : p_returned both_received = true /\ p_sent both_received = [7; 8]%nat.
Proof.
  assert (Hr : p_returned both_received = true) by (vm_compute; reflexivity). split; [exact Hr|].
  destruct (pipeline_in_order squares 0%nat 2 2 ltac:(lia) ltac:(lia) both_received both_received_reached) as (_ & Hs & _).
  exact (Hs Hr eq_refl).
Defined.

(** One worker, which has verified the first header and is at the second when the caller aborts: the coordinator
    returns, the channel of finished indices is full, and the worker waits for ever. *)
Definition left_behind : Pipeline (R := nat) := quit (abort (send (finish squares 0 (send start)))).

Lemma abort_leaves_worker : reaches squares 0%nat 2 1 left_behind /\ p_busy left_behind = {[1%nat]} /\
  forall s, ~ step squares 0%nat 2 1 left_behind s.
Proof.
  split_and!.
  - assert (H1 : reaches squares 0%nat 2 1 (send start)).
    { eapply reaches_step; [apply reaches_start|]. left. apply step_send; [done|cbn; lia|vm_compute; lia]. }
    assert (H2 : reaches squares 0%nat 2 1 (finish squares 0 (send start))).
    { eapply reaches_step; [exact H1|]. right. apply step_finish; [cbn; set_solver|cbn; lia]. }
    assert (H3 : reaches squares 0%nat 2 1 (send (finish squares 0 (send start)))).
    { eapply reaches_step; [exact H2|]. left. apply step_send; [done|cbn; lia|vm_compute; lia]. }
    eapply reaches_step; [apply reaches_abort, H3|]. left. by apply step_quit.
  - vm_compute. reflexivity.
  - intros s [H|H]; [inversion H as [? Hr|? ? ? Hr|? Hr]; subst; discriminate Hr|]. inversion H as [i ? Hi Hl]; subst. cbn in Hl. lia.
Qed.
