(* ===== verification/ChainDb.v ===== *)
(** * The database of the chain (core/database_util.go)

    Headers, bodies, receipts, total difficulties, the canonical chain and the
    positions of transactions are items of one key-value store.  [Key] is what an
    item is about, [key] the bytes it is stored under; items of different keys are
    kept apart ([key_inj]), so every write has the effect of one or two updates of
    a map of items ([look]). *)
From Stdlib Require Import String Ascii.
From S2P Require Import Prelude GoMonad Fmt Clique TxList.
Local Open Scope Z_scope.

Abbreviation Hash := Z (only parsing).

(** The store of MoacLib (mcdb); a failed [Get] is [None].  A failed [Put] ends
    the process. *)
Class KvLib := {
  KV : Type;
  kv_Get : KV -> list Z -> option (list Z);
  kv_Has : KV -> list Z -> bool;
  kv_Put : KV -> list Z -> list Z -> KV;
  kv_Delete : KV -> list Z -> KV
}.

Class KvLaws `{KvLib} : Prop := {
  kv_Get_Put db k v k' : kv_Get (kv_Put db k v) k' = if decide (k' = k) then Some v else kv_Get db k';
  kv_Get_Delete db k k' : kv_Get (kv_Delete db k) k' = if decide (k' = k) then None else kv_Get db k';
  kv_Has_Get db k : kv_Has db k = found (kv_Get db k)
}.

(** The bytes of a hash ([common.Hash]). *)
Class HashLib := {
  Hash_Bytes : Hash -> list Z;
  Hash_of : list Z -> Hash
}.

Class HashLaws `{HashLib} : Prop := {
  Hash_Bytes_length h : length (Hash_Bytes h) = 32%nat;
  Hash_of_Bytes h : Hash_of (Hash_Bytes h) = h
}.

(** The encoding of a type ([rlp]). *)
Class RLP (A : Type) := {
  EncodeToBytes : A -> result (list Z);
  DecodeBytes : list Z -> result A
}.

(** The values that [ok] describes are encoded, and decoded again. *)
Class RLPLaws (A : Type) `{RLP A} (ok : A -> Prop) : Prop :=
  rlp_roundtrip : forall a, ok a -> exists data, EncodeToBytes a = Ok data /\ data <> [] /\ DecodeBytes data = Ok a.

(** Where writes go ([mcdb.Putter]): the store, or a batch. *)
Class Putter (P : Type) := Put : P -> list Z -> list Z -> P.

#[export] Instance kv_putter `{KvLib} : Putter KV := kv_Put.

Definition Batch : Type := list (list Z * list Z).

#[export] Instance batch_putter : Putter Batch := fun b k v => b ++ [(k, v)].

Definition batch_Write `{KvLib} (db : KV) (b : Batch) : KV := foldl (fun d e => kv_Put d e.1 e.2) db b.

(** ** Keys *)

(** The last [n] bytes of a number, the most significant first. *)
Fixpoint big_endian (n : nat) (z : Z) : list Z :=
  match n with
  | O => []
  | S n' => big_endian n' (z / 256) ++ [z mod 256]
  end.

Definition encodeBlockNumber (number : Z) : list Z := big_endian 8 number.

(** [binary.BigEndian.Uint64] *)
Definition big_endian_Uint64 (data : list Z) : Z := foldl (fun acc b => acc * 256 + b) 0 data.

Definition bytes (s : string) : list Z := byte_of <$> String.list_ascii_of_string s.

(** The items of the store. *)
Inductive Key :=
| HeadHeaderKey
| HeadBlockKey
| HeadFastKey
| VersionKey
| CanonicalKey (number : Z)
| HeaderKey (hash : Hash) (number : Z)
| TdKey (hash : Hash) (number : Z)
| NumberKey (hash : Hash)
| BodyKey (hash : Hash) (number : Z)
| ReceiptsKey (hash : Hash) (number : Z)
| LookupKey (hash : Hash)
| BloomBitsKey (bit section : Z) (head : Hash)
| ConfigKey (hash : Hash)
| PreimageKey (hash : Hash)
| SyncHashKey (scs sub : list Z) (number : Z)
| SyncBlockKey (scs sub : list Z) (number : Z) (hash : Hash)
| SyncCountKey (scs sub : list Z) (hash : Hash).

#[export] Instance Key_eq_dec : EqDecision Key.
Proof. solve_decision. Defined.

Section chain_db.
Context `{KvLib} `{HashLib} `{CliqueLib} `{TxLib}.

Definition key (k : Key) : list Z :=
  match k with
  | HeadHeaderKey => bytes "LastHeader"
  | HeadBlockKey => bytes "LastBlock"
  | HeadFastKey => bytes "LastFast"
  | VersionKey => bytes "BlockchainVersion"
  | CanonicalKey n => bytes "h" ++ encodeBlockNumber n ++ bytes "n"
  | HeaderKey h n => bytes "h" ++ encodeBlockNumber n ++ Hash_Bytes h
  | TdKey h n => bytes "h" ++ encodeBlockNumber n ++ Hash_Bytes h ++ bytes "t"
  | NumberKey h => bytes "H" ++ Hash_Bytes h
  | BodyKey h n => bytes "b" ++ encodeBlockNumber n ++ Hash_Bytes h
  | ReceiptsKey h n => bytes "r" ++ encodeBlockNumber n ++ Hash_Bytes h
  | LookupKey h => bytes "l" ++ Hash_Bytes h
  | BloomBitsKey b s h => bytes "B" ++ big_endian 2 b ++ big_endian 8 s ++ Hash_Bytes h
  | ConfigKey h => bytes "ethereum-config-" ++ Hash_Bytes h
  | PreimageKey h => bytes "secure-key-" ++ Hash_Bytes h
  | SyncHashKey scs sub n => bytes "p" ++ scs ++ sub ++ encodeBlockNumber n ++ bytes "m"
  | SyncBlockKey scs sub n h => bytes "p" ++ scs ++ sub ++ encodeBlockNumber n ++ Hash_Bytes h
  | SyncCountKey scs sub h => bytes "cP" ++ scs ++ sub ++ Hash_Bytes h
  end.

(** An item of the store, and its changes. *)
Definition look (db : KV) (k : Key) : option (list Z) := kv_Get db (key k).
Definition put {P : Type} `{Putter P} (db : P) (k : Key) (v : list Z) : P := Put db (key k) v.
Definition drop_key (db : KV) (k : Key) : KV := kv_Delete db (key k).

(** ** Reading *)
Definition missingNumber : Z := MaxUint64.

(** A hash that is stored, or the zero hash. *)
Definition stored_hash (db : KV) (k : Key) : Hash :=
  match look db k with
  | None | Some [] => 0
  | Some data => Hash_of data
  end.

Definition GetCanonicalHash (db : KV) (number : Z) : Hash := stored_hash db (CanonicalKey number).
Definition GetHeadHeaderHash (db : KV) : Hash := stored_hash db HeadHeaderKey.
Definition GetHeadBlockHash (db : KV) : Hash := stored_hash db HeadBlockKey.
Definition GetHeadFastBlockHash (db : KV) : Hash := stored_hash db HeadFastKey.

Definition GetBlockNumber (db : KV) (hash : Hash) : Z :=
  match look db (NumberKey hash) with
  | Some data => if Z.of_nat (length data) =? 8 then big_endian_Uint64 data else missingNumber
  | None => missingNumber
  end.

(** A value that is stored and can be decoded; a nil pointer otherwise. *)
Definition stored {A : Type} `{RLP A} (db : KV) (k : Key) : option A :=
  match look db k with
  | None | Some [] => None
  | Some data => match DecodeBytes data with Ok a => Some a | Err => None end
  end.

(** The body of a block ([types.Body]). *)
Record Body := mkBody {
  body_txs : list Transaction;
  body_uncles : list Header
}.

Record Block := mkBlock {
  block_header : Header;
  block_txs : list Transaction;
  block_uncles : list Header
}.

Definition block_Hash (b : Block) : Hash := Header_Hash (block_header b).
Definition block_ParentHash (b : Block) : Hash := ParentHash (block_header b).
Definition block_Body (b : Block) : Body := mkBody (block_txs b) (block_uncles b).

(** [NumberU64] *)
Definition block_Number (b : Block) : outcome Z := header_number (block_header b).

Record txLookupEntry := mkLookupEntry {
  BlockHash : Hash;
  BlockIndex : Z;
  Index : Z
}.

Context {Receipt : Type}.
Context `{RLP Header} `{RLP Body} `{!RLP Z} `{!RLP (list Receipt)} `{RLP txLookupEntry}.

Definition GetHeaderRLP (db : KV) (hash : Hash) (number : Z) : option (list Z) := look db (HeaderKey hash number).
Definition GetHeader (db : KV) (hash : Hash) (number : Z) : option Header := stored db (HeaderKey hash number).
Definition GetBodyRLP (db : KV) (hash : Hash) (number : Z) : option (list Z) := look db (BodyKey hash number).
Definition GetBody (db : KV) (hash : Hash) (number : Z) : option Body := stored db (BodyKey hash number).
Definition GetTd (db : KV) (hash : Hash) (number : Z) : option Z := stored db (TdKey hash number).

Definition GetBlock (db : KV) (hash : Hash) (number : Z) : option Block :=
  match GetHeader db hash number, GetBody db hash number with
  | Some header, Some body => Some (mkBlock header (body_txs body) (body_uncles body))
  | _, _ => None
  end.

(** No receipts are a nil slice. *)
Definition GetBlockReceipts (db : KV) (hash : Hash) (number : Z) : list Receipt :=
  default [] (stored db (ReceiptsKey hash number)).

Definition GetTxLookupEntry (db : KV) (hash : Hash) : Hash * Z * Z :=
  match stored db (LookupKey hash) with
  | Some entry => (BlockHash entry, BlockIndex entry, Index entry)
  | None => (0, 0, 0)
  end.

(** The old representation of a transaction, by its hash and with a suffix; its
    decoding is [old], with the metadata. *)
Definition GetTransaction (old : KV -> Hash -> option (Transaction * txLookupEntry)) (db : KV) (hash : Hash)
    : outcome (option Transaction * Hash * Z * Z) :=
  let '(blockHash, blockNumber, txIndex) := GetTxLookupEntry db hash in
  if negb (blockHash =? 0) then
    match GetBody db blockHash blockNumber with
    | None => Ret (None, 0, 0, 0)
    | Some body =>
        if Z.of_nat (length (body_txs body)) <=? i64 txIndex then Ret (None, 0, 0, 0)
        else match body_txs body !! Z.to_nat txIndex with
             | Some tx => Ret (Some tx, blockHash, blockNumber, txIndex)
             | None => Panic
             end
    end
  else
    match old db hash with
    | Some (tx, entry) => Ret (Some tx, BlockHash entry, BlockIndex entry, Index entry)
    | None => Ret (None, 0, 0, 0)
    end.

Definition GetReceipt (old : KV -> Hash -> option Receipt) (db : KV) (hash : Hash) : outcome (option Receipt * Hash * Z * Z) :=
  let '(blockHash, blockNumber, index) := GetTxLookupEntry db hash in
  if negb (blockHash =? 0) then
    let receipts := GetBlockReceipts db blockHash blockNumber in
    if Z.of_nat (length receipts) <=? i64 index then Ret (None, 0, 0, 0)
    else match receipts !! Z.to_nat index with
         | Some r => Ret (Some r, blockHash, blockNumber, index)
         | None => Panic
         end
  else
    match old db hash with
    | Some r => Ret (Some r, 0, 0, 0)
    | None => Ret (None, 0, 0, 0)
    end.

(** [uint16(bit)] *)
Definition GetBloomBits (db : KV) (bit section : Z) (head : Hash) : option (list Z) :=
  look db (BloomBitsKey (bit mod 65536) section head).

(** The blocks of micro chains kept for the synchronization of their nodes. *)
Definition GetSyncBlockHash (db : KV) (scs sub : list Z) (number : Z) : Hash := stored_hash db (SyncHashKey scs sub number).
Definition GetSyncBlock (db : KV) (scs sub : list Z) (hash : Hash) (number : Z) : option (list Z) :=
  look db (SyncBlockKey scs sub number hash).
Definition GetSyncBlockCnt (db : KV) (scs sub : list Z) (hash : Hash) : Z :=
  match look db (SyncCountKey scs sub hash) with
  | Some data => if Z.of_nat (length data) =? 8 then big_endian_Uint64 data else 0
  | None => 0
  end.

(** ** Writing *)
Section writers.
Context {P : Type} `{Putter P}.

Definition WriteCanonicalHash (db : P) (hash : Hash) (number : Z) : P := put db (CanonicalKey number) (Hash_Bytes hash).
Definition WriteHeadHeaderHash (db : P) (hash : Hash) : P := put db HeadHeaderKey (Hash_Bytes hash).
Definition WriteHeadBlockHash (db : P) (hash : Hash) : P := put db HeadBlockKey (Hash_Bytes hash).
Definition WriteHeadFastBlockHash (db : P) (hash : Hash) : P := put db HeadFastKey (Hash_Bytes hash).

(** A value under a key, when it can be encoded. *)
Definition write {A : Type} `{RLP A} (db : P) (k : Key) (a : A) : result P :=
  match EncodeToBytes a with
  | Ok data => Ok (put db k data)
  | Err => Err
  end.

Definition WriteHeader (db : P) (header : Header) : outcome (result P) :=
  match EncodeToBytes header with
  | Err => Ret Err
  | Ok data =>
      num ← header_number header;
      let hash := Header_Hash header in
      Ret (Ok (put (put db (NumberKey hash) (encodeBlockNumber num)) (HeaderKey hash num) data))
  end.

Definition WriteBodyRLP (db : P) (hash : Hash) (number : Z) (data : list Z) : P := put db (BodyKey hash number) data.
Definition WriteBody (db : P) (hash : Hash) (number : Z) (body : Body) : result P := write db (BodyKey hash number) body.
Definition WriteTd (db : P) (hash : Hash) (number : Z) (td : Z) : result P := write db (TdKey hash number) td.
Definition WriteBlockReceipts (db : P) (hash : Hash) (number : Z) (receipts : list Receipt) : result P :=
  write db (ReceiptsKey hash number) receipts.

Definition WriteBlock (db : P) (block : Block) : outcome (result P) :=
  number ← block_Number block;
  match WriteBody db (block_Hash block) number (block_Body block) with
  | Err => Ret Err
  | Ok db' => WriteHeader db' (block_header block)
  end.

(** The entries of the transactions from the [i]th on. *)
Fixpoint write_lookups (db : P) (hash : Hash) (number : Z) (i : nat) (txs : list Transaction) : result P :=
  match txs with
  | [] => Ok db
  | tx :: rest =>
      match write db (LookupKey (Tx_Hash tx)) (mkLookupEntry hash number (Z.of_nat i)) with
      | Err => Err
      | Ok db' => write_lookups db' hash number (S i) rest
      end
  end.

Definition WriteTxLookupEntries (db : P) (block : Block) : outcome (result P) :=
  number ← block_Number block;
  Ret (write_lookups db (block_Hash block) number 0 (block_txs block)).

Definition WriteBloomBits (db : P) (bit section : Z) (head : Hash) (bits : list Z) : P :=
  put db (BloomBitsKey (bit mod 65536) section head) bits.

Definition WriteSyncBlock (db : P) (scs sub : list Z) (hash : Hash) (number : Z) (data : list Z) : P :=
  put (put db (SyncHashKey scs sub number) (Hash_Bytes hash)) (SyncBlockKey scs sub number hash) data.

Definition WriteSyncBlockCnt (db : P) (scs sub : list Z) (hash : Hash) (count : Z) : P :=
  put db (SyncCountKey scs sub hash) (encodeBlockNumber count).

End writers.

(** ** Deleting *)
Definition DeleteCanonicalHash (db : KV) (number : Z) : KV := drop_key db (CanonicalKey number).
Definition DeleteHeader (db : KV) (hash : Hash) (number : Z) : KV :=
  drop_key (drop_key db (NumberKey hash)) (HeaderKey hash number).
Definition DeleteBody (db : KV) (hash : Hash) (number : Z) : KV := drop_key db (BodyKey hash number).
Definition DeleteTd (db : KV) (hash : Hash) (number : Z) : KV := drop_key db (TdKey hash number).
Definition DeleteBlockReceipts (db : KV) (hash : Hash) (number : Z) : KV := drop_key db (ReceiptsKey hash number).
Definition DeleteBlock (db : KV) (hash : Hash) (number : Z) : KV :=
  DeleteTd (DeleteBody (DeleteHeader (DeleteBlockReceipts db hash number) hash number) hash number) hash number.
Definition DeleteTxLookupEntry (db : KV) (hash : Hash) : KV := drop_key db (LookupKey hash).
Definition DeleteSyncBlockHash (db : KV) (scs sub : list Z) (number : Z) : KV := drop_key db (SyncHashKey scs sub number).
Definition DeleteSyncBlock (db : KV) (scs sub : list Z) (hash : Hash) (number : Z) : KV :=
  drop_key (drop_key db (SyncBlockKey scs sub number hash)) (SyncCountKey scs sub hash).

(** Preimages of hashes, those that are not there yet. *)
Definition WritePreimages (db : KV) (preimages : list (Hash * list Z)) : KV :=
  batch_Write db ((fun e => (key (PreimageKey e.1), e.2)) <$> filter (fun e => look db (PreimageKey e.1) = None) preimages).

(** ** The last common ancestor *)

(** The parent of a header in the store. *)
Definition parent_header (db : KV) (h : Header) : outcome (option Header) :=
  n ← header_number h; Ret (GetHeader db (ParentHash h) (u64 (n - 1))).

(** Back to a number, or to a header that is missing. *)
Fixpoint back_to (fuel : nat) (db : KV) (h : Header) (target : Z) : outcome (option Header) :=
  n ← header_number h;
  if n >? target then
    match fuel with
    | O => OutOfFuel
    | S f =>
        p ← parent_header db h;
        match p with None => Ret None | Some h' => back_to f db h' target end
    end
  else Ret (Some h).

Fixpoint back_to_same (fuel : nat) (db : KV) (a b : Header) : outcome (option Header) :=
  if Header_Hash a =? Header_Hash b then Ret (Some a)
  else
    match fuel with
    | O => OutOfFuel
    | S f =>
        a' ← parent_header db a;
        match a' with
        | None => Ret None
        | Some a' =>
            b' ← parent_header db b;
            match b' with None => Ret None | Some b' => back_to_same f db a' b' end
        end
    end.

Definition FindCommonAncestor (fuel : nat) (db : KV) (a b : Header) : outcome (option Header) :=
  bn ← header_number b;
  a' ← back_to fuel db a bn;
  match a' with
  | None => Ret None
  | Some a' =>
      an ← header_number a';
      b' ← back_to fuel db b an;
      match b' with None => Ret None | Some b' => back_to_same fuel db a' b' end
  end.

End chain_db.
