(* ===== verification/ChainDbProps.v ===== *)
(** * Theorems on the database of the chain

    Different items are stored under different bytes, so what is written is read
    back until it is overwritten or deleted, whatever else is written. *)
From S2P Require Import Prelude GoMonad Fmt Clique TxList ChainDb.
Local Open Scope Z_scope.

(** ** Numbers *)
Lemma length_big_endian n z : length (big_endian n z) = n.
Proof. revert z. induction n as [|n IH]; intros z; [done|]. cbn [big_endian]. rewrite length_app, IH. cbn. lia. Qed.

Lemma big_endian_Uint64_snoc l b : big_endian_Uint64 (l ++ [b]) = big_endian_Uint64 l * 256 + b.
Proof. unfold big_endian_Uint64. by rewrite foldl_app. Qed.

Lemma big_endian_inverse n z : 0 <= z < 256 ^ Z.of_nat n -> big_endian_Uint64 (big_endian n z) = z.
Proof.
  revert z. induction n as [|n IH]; intros z Hz; [cbn in *; lia|]. cbn [big_endian].
  rewrite Nat2Z.inj_succ, Z.pow_succ_r in Hz by lia.
  rewrite big_endian_Uint64_snoc, IH; [pose proof (Z.div_mod z 256); lia|].
  split; [apply Z.div_pos; lia|apply Z.div_lt_upper_bound; lia].
Qed.

Lemma encodeBlockNumber_inverse n : is_u64 n -> big_endian_Uint64 (encodeBlockNumber n) = n.
Proof. intros Hn. apply big_endian_inverse. unfold is_u64, MaxUint64 in Hn. cbn. lia. Qed.

Lemma big_endian_inj n a b :
  0 <= a < 256 ^ Z.of_nat n -> 0 <= b < 256 ^ Z.of_nat n -> big_endian n a = big_endian n b -> a = b.
Proof. intros Ha Hb E. by rewrite <- (big_endian_inverse n a), E, big_endian_inverse. Qed.

Lemma encodeBlockNumber_inj a b : is_u64 a -> is_u64 b -> encodeBlockNumber a = encodeBlockNumber b -> a = b.
Proof. intros Ha Hb. apply big_endian_inj; unfold is_u64, MaxUint64 in *; cbn; lia. Qed.

Lemma length_encodeBlockNumber n : length (encodeBlockNumber n) = 8%nat.
Proof. apply length_big_endian. Qed.

(** ** Keys *)
Section keys.
Context {KL : KvLib} {KLaws : KvLaws} {HL : HashLib} {HLaws : HashLaws}.

Lemma Hash_Bytes_inj a b : Hash_Bytes a = Hash_Bytes b -> a = b.
Proof. intros E. by rewrite <- (Hash_of_Bytes a), E, Hash_of_Bytes. Qed.

(** The numbers of a key are 64-bit words, the bits of blooms 16-bit ones, and
    addresses have twenty bytes. *)
Definition key_ok (k : Key) : Prop :=
  match k with
  | CanonicalKey n | HeaderKey _ n | TdKey _ n | BodyKey _ n | ReceiptsKey _ n => is_u64 n
  | BloomBitsKey b s _ => 0 <= b < 65536 /\ is_u64 s
  | SyncHashKey scs sub n | SyncBlockKey scs sub n _ => length scs = 20%nat /\ length sub = 20%nat /\ is_u64 n
  | SyncCountKey scs sub _ => length scs = 20%nat /\ length sub = 20%nat
  | _ => True
  end.

(** The first byte and the length of a key tell its kind. *)
Definition kind (k : Key) : Z * nat :=
  match k with
  | HeadHeaderKey => (76, 10%nat)
  | HeadBlockKey => (76, 9%nat)
  | HeadFastKey => (76, 8%nat)
  | VersionKey => (66, 17%nat)
  | CanonicalKey _ => (104, 10%nat)
  | HeaderKey _ _ => (104, 41%nat)
  | TdKey _ _ => (104, 42%nat)
  | NumberKey _ => (72, 33%nat)
  | BodyKey _ _ => (98, 41%nat)
  | ReceiptsKey _ _ => (114, 41%nat)
  | LookupKey _ => (108, 33%nat)
  | BloomBitsKey _ _ _ => (66, 43%nat)
  | ConfigKey _ => (101, 48%nat)
  | PreimageKey _ => (115, 43%nat)
  | SyncHashKey _ _ _ => (112, 50%nat)
  | SyncBlockKey _ _ _ _ => (112, 81%nat)
  | SyncCountKey _ _ _ => (99, 74%nat)
  end.

Lemma key_kind k : key_ok k -> (default 0 (head (key k)), length (key k)) = kind k.
Proof.
  destruct k; cbn -[encodeBlockNumber big_endian]; intros Hk; rewrite ?length_app, ?length_encodeBlockNumber, ?length_big_endian, ?Hash_Bytes_length;
    cbn; try done; destruct Hk as [-> Hk]; try (destruct Hk as [-> _]; done); by rewrite Hk.
Qed.

Lemma app_split {A : Type} (l1 l2 k1 k2 : list A) : length l1 = length k1 -> l1 ++ l2 = k1 ++ k2 -> l1 = k1 /\ l2 = k2.
Proof. intros Hl E. by apply app_inj_1. Qed.

(** Different items are stored under different bytes. *)
Lemma key_inj a b : key_ok a -> key_ok b -> key a = key b -> a = b.
Proof.
  intros Ha Hb E.
  assert (Ek : kind a = kind b) by (by rewrite <- !key_kind, E).
  destruct a, b; cbn in Ek; try discriminate Ek; clear Ek; [done|done|done|done|..];
    cbn -[encodeBlockNumber big_endian] in Ha, Hb; unfold key in E; destruct_and?;
    repeat match goal with
    | E : _ ++ _ = _ ++ _ |- _ =>
        apply app_split in E as [? E]; [|rewrite ?length_encodeBlockNumber, ?length_big_endian, ?Hash_Bytes_length; congruence]
    end; f_equal;
    first [done|by apply Hash_Bytes_inj|by apply encodeBlockNumber_inj|by apply (big_endian_inj 2)].
Qed.

End keys.

(** ** Items *)
Section items.
Context {KL : KvLib} {KLaws : KvLaws} {HL : HashLib} {HLaws : HashLaws} {CL : CliqueLib} {TL : TxLib}.

Lemma look_put db k v k' : key_ok k -> key_ok k' -> look (put db k v) k' = if decide (k' = k) then Some v else look db k'.
Proof.
  intros Hk Hk'. unfold look, put, Put, kv_putter. rewrite kv_Get_Put.
  destruct (decide (k' = k)) as [->|Hn]; [by rewrite decide_True|]. rewrite decide_False; [done|].
  intros E. by apply Hn, key_inj.
Qed.

Lemma look_drop db k k' : key_ok k -> key_ok k' -> look (drop_key db k) k' = if decide (k' = k) then None else look db k'.
Proof.
  intros Hk Hk'. unfold look, drop_key. rewrite kv_Get_Delete.
  destruct (decide (k' = k)) as [->|Hn]; [by rewrite decide_True|]. rewrite decide_False; [done|].
  intros E. by apply Hn, key_inj.
Qed.

(** The stores agree except on some items. *)
Definition same_but (ks : list Key) (db db' : KV) : Prop := forall k, key_ok k -> k ∉ ks -> look db' k = look db k.

Lemma same_but_refl ks db : same_but ks db db.
Proof. done. Qed.

Lemma same_but_trans ks ks' db db' db'' : same_but ks db db' -> same_but ks' db' db'' -> same_but (ks ++ ks') db db''.
Proof. intros H1 H2 k Hk Hn. rewrite elem_of_app in Hn. rewrite H2, H1; naive_solver. Qed.

Lemma same_but_weaken ks ks' db db' : same_but ks db db' -> ks ⊆ ks' -> same_but ks' db db'.
Proof. intros Hd Hs k Hk Hn. apply Hd; [done|]. intros Hin. by apply Hn, Hs. Qed.

Lemma same_but_put db k v : key_ok k -> same_but [k] db (put db k v).
Proof. intros Hk k' Hk' Hn%not_elem_of_cons. rewrite look_put, decide_False by (done || apply Hn). done. Qed.

Lemma same_but_drop db k : key_ok k -> same_but [k] db (drop_key db k).
Proof. intros Hk k' Hk' Hn%not_elem_of_cons. rewrite look_drop, decide_False by (done || apply Hn). done. Qed.

Lemma look_put_eq db k v : key_ok k -> look (put db k v) k = Some v.
Proof. intros Hk. by rewrite look_put, decide_True. Qed.

Lemma look_drop_eq db k : key_ok k -> look (drop_key db k) k = None.
Proof. intros Hk. by rewrite look_drop, decide_True. Qed.

Lemma stored_same {A : Type} `{RLP A} ks db db' k :
  same_but ks db db' -> key_ok k -> k ∉ ks -> stored (A := A) db' k = stored db k.
Proof. intros Hs Hk Hn. unfold stored. by rewrite (Hs k Hk Hn). Qed.

Lemma stored_hash_same ks db db' k : same_but ks db db' -> key_ok k -> k ∉ ks -> stored_hash db' k = stored_hash db k.
Proof. intros Hs Hk Hn. unfold stored_hash. by rewrite (Hs k Hk Hn). Qed.

Lemma stored_look {A : Type} `{RLP A} ok `{!RLPLaws A ok} db k a data :
  ok a -> EncodeToBytes a = Ok data -> look db k = Some data -> stored db k = Some a.
Proof.
  intros Ha Ed El. destruct (rlp_roundtrip a Ha) as (data' & Ed' & Hne & Ed2). rewrite Ed in Ed'. injection Ed' as <-.
  unfold stored. rewrite El. destruct data; [done|]. by rewrite Ed2.
Qed.

Lemma stored_hash_look db k h : look db k = Some (Hash_Bytes h) -> stored_hash db k = h.
Proof.
  intros El. unfold stored_hash. rewrite El. pose proof (Hash_Bytes_length h) as Hl.
  destruct (Hash_Bytes h) eqn:E; [done|]. by rewrite <- E, Hash_of_Bytes.
Qed.

Lemma stored_none {A : Type} `{RLP A} db k : look db k = None -> stored (A := A) db k = None.
Proof. intros E. unfold stored. by rewrite E. Qed.

Lemma stored_hash_none db k : look db k = None -> stored_hash db k = 0.
Proof. intros E. unfold stored_hash. by rewrite E. Qed.

Lemma write_run {A : Type} `{RLP A} ok `{!RLPLaws A ok} db k a :
  ok a -> key_ok k -> exists db', write db k a = Ok db' /\ same_but [k] db db' /\ stored db' k = Some a.
Proof.
  intros Ha Hk. destruct (rlp_roundtrip a Ha) as (data & Ed & _ & _).
  unfold write. rewrite Ed. eexists. split; [done|]. split; [by apply same_but_put|].
  eapply stored_look; [done..|]. by apply look_put_eq.
Qed.

(** ** Batches *)
Lemma batch_Write_put db b k v : batch_Write db (put b k v) = put (batch_Write db b) k v.
Proof. unfold batch_Write, put, Put, batch_putter, kv_putter. by rewrite foldl_app. Qed.

Lemma write_batch {A : Type} `{RLP A} db b k (a : A) b' :
  write b k a = Ok b' -> write (batch_Write db b) k a = Ok (batch_Write db b').
Proof. unfold write. destruct (EncodeToBytes a); [|done]. intros [= <-]. by rewrite batch_Write_put. Qed.

(** The fields of a header are set; its number is a word. *)
Definition header_ok (h : Header) : Prop :=
  (exists n, Number h = Some n /\ is_u64 n) /\ (exists d, Difficulty h = Some d /\ 0 <= d) /\
  (exists g, GasLimit h = Some g /\ 0 <= g) /\ (exists g, GasUsed h = Some g /\ 0 <= g) /\
  (exists t, Time h = Some t /\ 0 <= t).

Lemma header_ok_number h : header_ok h -> exists n, Number h = Some n /\ is_u64 n /\ header_number h = Ret n.
Proof.
  intros [(n & E & Hn) _]. exists n. split; [done|]. split; [done|]. unfold header_number, big_Uint64. rewrite E.
  f_equal. rewrite Z.abs_eq by (unfold is_u64 in Hn; lia). by apply u64_small.
Qed.

Definition body_ok (b : Body) : Prop := Forall header_ok (body_uncles b).

Definition block_ok (b : Block) : Prop := header_ok (block_header b) /\ Forall header_ok (block_uncles b).

Definition entry_ok (e : txLookupEntry) : Prop := is_u64 (BlockIndex e) /\ is_u64 (Index e).

Context {Receipt : Type}.
Context {RH : RLP Header} {RB : RLP Body} {RZ : RLP Z} {RR : RLP (list Receipt)} {RE : RLP txLookupEntry}.
Context {LH : RLPLaws Header header_ok} {LB : RLPLaws Body body_ok} {LZ : RLPLaws Z (fun z => 0 <= z)}
  {LE : RLPLaws txLookupEntry entry_ok}.

(** ** Accessors *)
Lemma GetHeader_same ks db db' hash n :
  same_but ks db db' -> is_u64 n -> HeaderKey hash n ∉ ks -> GetHeader db' hash n = GetHeader db hash n.
Proof. intros Hs Hn Hk. by apply (stored_same ks). Qed.

Lemma GetTd_same ks db db' hash n :
  same_but ks db db' -> is_u64 n -> TdKey hash n ∉ ks -> GetTd db' hash n = GetTd db hash n.
Proof. intros Hs Hn Hk. by apply (stored_same ks). Qed.

Lemma GetBody_same ks db db' hash n :
  same_but ks db db' -> is_u64 n -> BodyKey hash n ∉ ks -> GetBody db' hash n = GetBody db hash n.
Proof. intros Hs Hn Hk. by apply (stored_same ks). Qed.

Lemma GetCanonicalHash_same ks db db' n :
  same_but ks db db' -> is_u64 n -> CanonicalKey n ∉ ks -> GetCanonicalHash db' n = GetCanonicalHash db n.
Proof. intros Hs Hn Hk. by apply (stored_hash_same ks). Qed.

Lemma GetBlockNumber_same ks db db' hash :
  same_but ks db db' -> NumberKey hash ∉ ks -> GetBlockNumber db' hash = GetBlockNumber db hash.
Proof. intros Hs Hk. unfold GetBlockNumber. by rewrite (Hs (NumberKey hash) I Hk). Qed.

Lemma GetBlock_same ks db db' hash n :
  same_but ks db db' -> is_u64 n -> HeaderKey hash n ∉ ks -> BodyKey hash n ∉ ks -> GetBlock db' hash n = GetBlock db hash n.
Proof. intros Hs Hn Hh Hb. unfold GetBlock. by rewrite (GetHeader_same ks db db'), (GetBody_same ks db db'). Qed.

Lemma GetTxLookupEntry_same ks db db' hash :
  same_but ks db db' -> LookupKey hash ∉ ks -> GetTxLookupEntry db' hash = GetTxLookupEntry db hash.
Proof. intros Hs Hk. unfold GetTxLookupEntry. by rewrite (stored_same ks db db' (LookupKey hash)). Qed.

Lemma GetCanonicalHash_Write db hash n : is_u64 n -> GetCanonicalHash (WriteCanonicalHash db hash n) n = hash.
Proof. intros Hn. apply stored_hash_look. by apply look_put_eq. Qed.

Lemma WriteHeader_run db h n :
  header_ok h -> header_number h = Ret n ->
  exists db', WriteHeader db h = Ret (Ok db') /\ same_but [NumberKey (Header_Hash h); HeaderKey (Header_Hash h) n] db db' /\
    GetHeader db' (Header_Hash h) n = Some h /\ GetBlockNumber db' (Header_Hash h) = n.
Proof.
  intros Hh En. destruct (header_ok_number h Hh) as (n' & _ & Hn & En'). rewrite En in En'. injection En' as <-.
  destruct (rlp_roundtrip h Hh) as (data & Ed & _ & _).
  unfold WriteHeader. rewrite Ed, En. cbn [mbind outcome_bind]. eexists. split; [done|]. split; [|split].
  - eapply (same_but_trans [_] [_]); by apply same_but_put.
  - eapply stored_look; [done..|]. by apply look_put_eq.
  - unfold GetBlockNumber. rewrite look_put by done. rewrite decide_False by done. rewrite look_put_eq by done.
    rewrite length_encodeBlockNumber. by apply encodeBlockNumber_inverse.
Qed.

Lemma WriteTd_run db hash n td :
  is_u64 n -> 0 <= td -> exists db', WriteTd db hash n td = Ok db' /\ same_but [TdKey hash n] db db' /\ GetTd db' hash n = Some td.
Proof. intros Hn Htd. by apply (write_run (fun z => 0 <= z)). Qed.

Lemma WriteBody_run db hash n body :
  is_u64 n -> body_ok body ->
  exists db', WriteBody db hash n body = Ok db' /\ same_but [BodyKey hash n] db db' /\ GetBody db' hash n = Some body.
Proof. intros Hn Hb. by apply (write_run body_ok). Qed.

Lemma WriteBlock_run db b n :
  block_ok b -> block_Number b = Ret n ->
  exists db', WriteBlock db b = Ret (Ok db') /\
    same_but [BodyKey (block_Hash b) n; NumberKey (block_Hash b); HeaderKey (block_Hash b) n] db db' /\
    GetBlock db' (block_Hash b) n = Some b /\ GetBlockNumber db' (block_Hash b) = n.
Proof.
  intros [Hh Hu] En. destruct (header_ok_number _ Hh) as (n' & _ & Hn & En'). unfold block_Number in En.
  rewrite En in En'. injection En' as <-.
  destruct (WriteBody_run db (block_Hash b) n (block_Body b) Hn Hu) as (db1 & E1 & S1 & B1).
  destruct (WriteHeader_run db1 (block_header b) n Hh En) as (db2 & E2 & S2 & H2 & N2).
  exists db2. unfold WriteBlock, block_Number. rewrite En. cbn [mbind outcome_bind]. rewrite E1. split; [done|].
  split; [by apply (same_but_trans [_] [_; _] db db1)|]. split; [|done].
  unfold GetBlock. rewrite (GetBody_same _ _ _ _ _ S2 Hn), B1 by (rewrite !not_elem_of_cons; split_and!; [done..|apply not_elem_of_nil]).
  unfold block_Hash. rewrite H2. by destruct b.
Qed.

Lemma write_lookups_run hash n txs : is_u64 n -> forall db i,
  Z.of_nat (i + length txs) <= MaxUint64 -> NoDup (Tx_Hash <$> txs) ->
  exists db', write_lookups db hash n i txs = Ok db' /\ same_but ((fun tx => LookupKey (Tx_Hash tx)) <$> txs) db db' /\
    forall j tx, txs !! j = Some tx -> GetTxLookupEntry db' (Tx_Hash tx) = (hash, n, Z.of_nat (i + j)).
Proof.
  intros Hn. induction txs as [|tx txs IH]; intros db i Hi Hd; cbn [write_lookups]; [by exists db|].
  cbn [length] in Hi. cbn in Hd. apply NoDup_cons in Hd as [Hx Hd].
  assert (He : entry_ok (mkLookupEntry hash n (Z.of_nat i))) by (split; cbn; [done|unfold is_u64; lia]).
  destruct (write_run entry_ok db (LookupKey (Tx_Hash tx)) _ He I) as (db1 & E1 & S1 & L1). rewrite E1.
  destruct (IH db1 (S i) ltac:(lia) Hd) as (db2 & E2 & S2 & L2).
  exists db2. split; [done|]. split; [by apply (same_but_trans [_] _ db db1)|].
  intros [|j] t Ht; cbn in Ht.
  - injection Ht as <-. rewrite (GetTxLookupEntry_same _ _ _ _ S2).
    + unfold GetTxLookupEntry. rewrite L1. cbn. do 2 f_equal. lia.
    + intros (t' & Et & Ht')%list_elem_of_fmap. injection Et as Et. apply Hx. rewrite Et. by apply list_elem_of_fmap_2.
  - rewrite (L2 j t Ht). do 2 f_equal. lia.
Qed.

(** Every transaction of a block that was written, with its position in the
    chain, is found by its hash. *)
Lemma lookups_find old db db' b n :
  GetBlock db (block_Hash b) n = Some b -> block_Number b = Ret n -> is_u64 n -> block_Hash b <> 0 ->
  NoDup (Tx_Hash <$> block_txs b) -> Z.of_nat (length (block_txs b)) < 2 ^ 63 ->
  WriteTxLookupEntries db b = Ret (Ok db') ->
  forall i tx, block_txs b !! i = Some tx ->
    GetTransaction old db' (Tx_Hash tx) = Ret (Some tx, block_Hash b, n, Z.of_nat i).
Proof.
  intros Hb En Hn Hh Hd Hl E i tx Hi. unfold WriteTxLookupEntries in E. rewrite En in E. cbn [mbind outcome_bind] in E.
  destruct (write_lookups_run (block_Hash b) n (block_txs b) Hn db 0) as (db2 & E2 & S2 & L2); [unfold MaxUint64; lia|done|].
  rewrite E2 in E. injection E as <-.
  unfold GetTransaction. rewrite (L2 i tx Hi). cbn [Nat.add]. destruct (Z.eqb_spec (block_Hash b) 0); [done|]. cbn [negb].
  assert (Eb : GetBody db2 (block_Hash b) n = Some (block_Body b)).
  { rewrite (GetBody_same _ _ _ _ _ S2 Hn) by (by intros (t & Et & _)%list_elem_of_fmap).
    unfold GetBlock in Hb. destruct (GetHeader db (block_Hash b) n), (GetBody db (block_Hash b) n) as [[]|]; try done.
    injection Hb as Hb. unfold block_Body. by rewrite <- Hb. }
  rewrite Eb. cbn [block_Body body_txs]. pose proof (lookup_lt_Some _ _ _ Hi) as Hlt.
  assert (Ei : i64 (Z.of_nat i) = Z.of_nat i).
  { unfold i64. rewrite u64_small by (unfold is_u64, MaxUint64; lia). destruct (Z.ltb_spec (Z.of_nat i) 9223372036854775808); lia. }
  rewrite Ei. destruct (Z.leb_spec (Z.of_nat (length (block_txs b))) (Z.of_nat i)); [lia|].
  by rewrite Nat2Z.id, Hi.
Qed.

End items.
