(* ===== verification/HeaderChain.v ===== *)
(** * The header chain (core/headerchain.go)

    The chain of headers: those known, with their total difficulties, are in the
    store; one chain of them, the canonical one, is indexed by number, up to the
    current header.  Lookups go through three caches.  A header that makes a
    heavier chain than the current one re-routes the canonical chain. *)
From S2P Require Import Prelude GoMonad Clique TxList ChainDb.
Local Open Scope Z_scope.

Abbreviation Hash := Z (only parsing).

(** The cache of golang-lru, which may forget entries when others are added. *)
Class LruLib := {
  Lru : Type -> Type;
  lru_New {V : Type} : Z -> Lru V;
  lru_Get {V : Type} : Lru V -> Hash -> option V * Lru V;
  lru_Peek {V : Type} : Lru V -> Hash -> option V;
  lru_Contains {V : Type} : Lru V -> Hash -> bool;
  lru_Add {V : Type} : Lru V -> Hash -> V -> Lru V;
  lru_Remove {V : Type} : Lru V -> Hash -> Lru V;
  lru_Keys {V : Type} : Lru V -> list Hash;
  lru_Purge {V : Type} : Lru V -> Lru V
}.

Class LruLaws `{LruLib} : Prop := {
  lru_Peek_New {V : Type} n k : lru_Peek (lru_New (V := V) n) k = None;
  lru_Get_Peek {V : Type} (c : Lru V) k : fst (lru_Get c k) = lru_Peek c k;
  lru_Peek_Get {V : Type} (c : Lru V) k k' : lru_Peek (snd (lru_Get c k)) k' = lru_Peek c k';
  lru_Contains_Peek {V : Type} (c : Lru V) k : lru_Contains c k = found (lru_Peek c k);
  lru_Peek_Add {V : Type} (c : Lru V) k v k' w :
    lru_Peek (lru_Add c k v) k' = Some w -> if decide (k' = k) then w = v else lru_Peek c k' = Some w;
  lru_Peek_Remove {V : Type} (c : Lru V) k k' w :
    lru_Peek (lru_Remove c k) k' = Some w -> k' <> k /\ lru_Peek c k' = Some w;
  lru_Keys_Peek {V : Type} (c : Lru V) k : k ∈ lru_Keys c <-> is_Some (lru_Peek c k);
  lru_Peek_Purge {V : Type} (c : Lru V) k : lru_Peek (lru_Purge c) k = None
}.

Definition headerCacheLimit : Z := 512.
Definition tdCacheLimit : Z := 1024.
Definition numberCacheLimit : Z := 2048.

(** The errors of the chain; those of the engine, the validator and the processor
    are numbered. *)
Inductive ChainError :=
| ErrNoGenesis
| chain_ErrUnknownAncestor
| chain_ErrFutureBlock
| ErrBlacklistedHash
| chain_ErrKnownBlock
| errAborted
| errNonContiguous
| errFutureTime
| errInvalidState
| errUnknownHeader
| errInvalidOldChain
| errInvalidNewChain
| errStateCommit
| errWrite
| errOther (code : Z).

(** [WriteStatus] *)
Inductive WriteStatus :=
| NonStatTy
| CanonStatTy
| SideStatTy.

Section header_chain.
Context {KL : KvLib} {HL : HashLib} {CL : CliqueLib} {LL : LruLib} {RH : RLP Header} {RZ : RLP Z}.

Record HeaderChain := mkHeaderChain {
  hc_db : KV;
  genesisHeader : Header;
  currentHeader : Header;
  currentHeaderHash : Hash;
  headerCache : Lru Header;
  tdCache : Lru Z;
  numberCache : Lru Z
}.

Definition with_hc_db (db : KV) (hc : HeaderChain) : HeaderChain :=
  mkHeaderChain db (genesisHeader hc) (currentHeader hc) (currentHeaderHash hc) (headerCache hc) (tdCache hc) (numberCache hc).
Definition with_head (h : Header) (hash : Hash) (hc : HeaderChain) : HeaderChain :=
  mkHeaderChain (hc_db hc) (genesisHeader hc) h hash (headerCache hc) (tdCache hc) (numberCache hc).
Definition with_headerCache (c : Lru Header) (hc : HeaderChain) : HeaderChain :=
  mkHeaderChain (hc_db hc) (genesisHeader hc) (currentHeader hc) (currentHeaderHash hc) c (tdCache hc) (numberCache hc).
Definition with_tdCache (c : Lru Z) (hc : HeaderChain) : HeaderChain :=
  mkHeaderChain (hc_db hc) (genesisHeader hc) (currentHeader hc) (currentHeaderHash hc) (headerCache hc) c (numberCache hc).
Definition with_numberCache (c : Lru Z) (hc : HeaderChain) : HeaderChain :=
  mkHeaderChain (hc_db hc) (genesisHeader hc) (currentHeader hc) (currentHeaderHash hc) (headerCache hc) (tdCache hc) c.

(** ** Lookups *)

(** From the cache, or fetched from the store and then cached. *)
Definition cached {V : Type} (cache : HeaderChain -> Lru V) (set : Lru V -> HeaderChain -> HeaderChain) (hash : Hash)
    (fetch : KV -> option V) : go HeaderChain (option V) :=
  hc ← gget;
  let r := lru_Get (cache hc) hash in
  _ ← gmodify (set (snd r));
  match fst r with
  | Some v => mret (Some v)
  | None =>
      match fetch (hc_db hc) with
      | None => mret None
      | Some v => _ ← gmodify (fun hc => set (lru_Add (cache hc) hash v) hc); mret (Some v)
      end
  end.

(** A number is missing when it is the largest word. *)
Definition hc_GetBlockNumber (hash : Hash) : go HeaderChain Z :=
  n ← cached numberCache with_numberCache hash
        (fun db => let number := GetBlockNumber db hash in if number =? missingNumber then None else Some number);
  mret (default missingNumber n).

Definition hc_GetTd (hash : Hash) (number : Z) : go HeaderChain (option Z) :=
  cached tdCache with_tdCache hash (fun db => GetTd db hash number).

Definition GetTdByHash (hash : Hash) : go HeaderChain (option Z) := n ← hc_GetBlockNumber hash; hc_GetTd hash n.

Definition hc_GetHeader (hash : Hash) (number : Z) : go HeaderChain (option Header) :=
  cached headerCache with_headerCache hash (fun db => GetHeader db hash number).

Definition GetHeaderByHash (hash : Hash) : go HeaderChain (option Header) := n ← hc_GetBlockNumber hash; hc_GetHeader hash n.

Definition HasHeader (hash : Hash) (number : Z) (hc : HeaderChain) : bool :=
  lru_Contains (numberCache hc) hash || lru_Contains (headerCache hc) hash || kv_Has (hc_db hc) (key (HeaderKey hash number)).

Definition GetHeaderByNumber (number : Z) : go HeaderChain (option Header) :=
  hc ← gget;
  let hash := GetCanonicalHash (hc_db hc) number in
  if hash =? 0 then mret None else hc_GetHeader hash number.

(** The hashes of the ancestors of a block, [max] of them at most. *)
Fixpoint ancestor_hashes (max : nat) (header : Header) : go HeaderChain (list Hash) :=
  match max with
  | O => mret []
  | S m =>
      let next := ParentHash header in
      n ← glift (header_number header);
      h ← hc_GetHeader next (u64 (n - 1));
      match h with
      | None => mret []
      | Some h =>
          match Number h with
          | None => gpanic
          | Some 0 => mret [next]
          | Some _ => rest ← ancestor_hashes m h; mret (next :: rest)
          end
      end
  end.

Definition GetBlockHashesFromHash (hash : Hash) (max : Z) : go HeaderChain (list Hash) :=
  h ← GetHeaderByHash hash;
  match h with None => mret [] | Some h => ancestor_hashes (Z.to_nat max) h end.

(** ** Writing *)

(** A write that fails ends the process. *)
Definition crit (r : KV -> outcome (result KV)) : go HeaderChain unit :=
  hc ← gget;
  o ← glift (r (hc_db hc));
  match o with Ok db => gmodify (with_hc_db db) | Err => gpanic end.

(** [WriteTd]: the total difficulty of a block, when it can be encoded. *)
Definition hc_TryWriteTd (hash : Hash) (number td : Z) : go HeaderChain (unit + ChainError) :=
  hc ← gget;
  match WriteTd (hc_db hc) hash number td with
  | Err => mret (inr errWrite)
  | Ok db =>
      _ ← gmodify (with_hc_db db);
      _ ← gmodify (fun hc => with_tdCache (lru_Add (tdCache hc) hash td) hc);
      mret (inl tt)
  end.

(** The same, where a failure ends the process. *)
Definition hc_WriteTd (hash : Hash) (number td : Z) : go HeaderChain unit :=
  _ ← crit (fun db => Ret (WriteTd db hash number td));
  gmodify (fun hc => with_tdCache (lru_Add (tdCache hc) hash td) hc).

(** Delete the canonical numbers from [i] on, up to the first that is missing. *)
Fixpoint delete_above (fuel : nat) (db : KV) (i : Z) : outcome KV :=
  if GetCanonicalHash db i =? 0 then Ret db
  else
    match fuel with
    | O => OutOfFuel
    | S f => delete_above f (DeleteCanonicalHash db i) (u64 (i + 1))
    end.

(** Make the ancestors canonical, down to the first that is so already. *)
Fixpoint overwrite (fuel : nat) (headHash : Hash) (headNumber : Z) (headHeader : option Header) : go HeaderChain unit :=
  hc ← gget;
  if GetCanonicalHash (hc_db hc) headNumber =? headHash then mret tt
  else
    match fuel with
    | O => gfuel
    | S f =>
        _ ← gmodify (with_hc_db (WriteCanonicalHash (hc_db hc) headHash headNumber));
        match headHeader with
        | None => gpanic
        | Some h =>
            n ← glift (header_number h);
            let n' := u64 (n - 1) in
            h' ← hc_GetHeader (ParentHash h) n';
            overwrite f (ParentHash h) n' h'
        end
    end.

(** The new head of the canonical chain. *)
Definition reroute (fuel : nat) (header : Header) (number : Z) : go HeaderChain unit :=
  hc ← gget;
  db ← glift (delete_above fuel (hc_db hc) (u64 (number + 1)));
  _ ← gmodify (with_hc_db db);
  let headNumber := u64 (number - 1) in
  headHeader ← hc_GetHeader (ParentHash header) headNumber;
  _ ← overwrite fuel (ParentHash header) headNumber headHeader;
  let hash := Header_Hash header in
  _ ← gmodify (fun hc => with_hc_db (WriteHeadHeaderHash (WriteCanonicalHash (hc_db hc) hash number) hash) hc);
  gmodify (with_head header hash).

(** [coin] is the toss between two chains of the same difficulty. *)
Definition hc_WriteHeader (fuel : nat) (coin : bool) (header : Header) : go HeaderChain (WriteStatus + ChainError) :=
  let hash := Header_Hash header in
  number ← glift (header_number header);
  ptd ← hc_GetTd (ParentHash header) (u64 (number - 1));
  match ptd with
  | None => mret (inr chain_ErrUnknownAncestor)
  | Some ptd =>
      hc ← gget;
      current ← glift (header_number (currentHeader hc));
      localTd ← hc_GetTd (currentHeaderHash hc) current;
      match Difficulty header with
      | None => gpanic
      | Some d =>
          let externTd := d + ptd in
          _ ← hc_WriteTd hash number externTd;
          _ ← crit (fun db => WriteHeader db header);
          match localTd with
          | None => gpanic
          | Some localTd =>
              let canonical := (externTd >? localTd) || ((externTd =? localTd) && coin) in
              _ ← (if canonical then reroute fuel header number else mret tt);
              _ ← gmodify (fun hc => with_headerCache (lru_Add (headerCache hc) hash header) hc);
              _ ← gmodify (fun hc => with_numberCache (lru_Add (numberCache hc) hash number) hc);
              mret (inl (if canonical then CanonStatTy else SideStatTy))
          end
      end
  end.

(** ** Insertion of many headers *)

(** Every header follows the one before it. *)
Fixpoint contiguous (prev : Header) (chain : list Header) : outcome bool :=
  match chain with
  | [] => Ret true
  | h :: rest =>
      n ← header_number h;
      m ← header_number prev;
      if negb (n =? u64 (m + 1)) || negb (ParentHash h =? Header_Hash prev) then Ret false else contiguous h rest
  end.

Definition ordered_chain (chain : list Header) : outcome bool :=
  match chain with [] => Ret true | h :: rest => contiguous h rest end.

(** Which seals to verify: one at random out of [checkFreq] headers, and the last. *)
Definition random_seals (intn : nat -> Z -> Z) (checkFreq : Z) (len : nat) : list bool :=
  let picked := (fun i : nat => Z.min (Z.of_nat i * checkFreq + intn i checkFreq) (Z.of_nat len - 1)) <$>
                seq 0 (Z.to_nat (Z.quot (Z.of_nat len) checkFreq)) in
  (fun i : nat => bool_decide (Z.of_nat i ∈ picked) || (Z.of_nat i =? Z.of_nat len - 1)) <$> seq 0 len.

(** The checks of the headers from the [i]th on; [results] is what the engine
    says of each. *)
Fixpoint check_headers (BadHashes : gset Hash) (interrupted : nat -> bool) (results : nat -> option ChainError) (i : nat)
    (chain : list Header) : unit + Z * ChainError :=
  match chain with
  | [] => inl tt
  | h :: rest =>
      if interrupted i then inr (0, errAborted)
      else if bool_decide (Header_Hash h ∈ BadHashes) then inr (Z.of_nat i, ErrBlacklistedHash)
      else
        match results i with
        | Some e => inr (Z.of_nat i, e)
        | None => check_headers BadHashes interrupted results (S i) rest
        end
  end.

Definition ValidateHeaderChain (BadHashes : gset Hash) (interrupted : nat -> bool) (intn : nat -> Z -> Z)
    (verify : list Header -> list bool -> nat -> option ChainError) (chain : list Header) (checkFreq : Z)
    : outcome (unit + Z * ChainError) :=
  ok ← ordered_chain chain;
  if negb ok then Ret (inr (0, errNonContiguous))
  else if checkFreq =? 0 then Panic
  else
    match chain with
    | [] => Panic
    | _ :: _ => Ret (check_headers BadHashes interrupted (verify chain (random_seals intn checkFreq (length chain))) 0 chain)
    end.

(** The insertion from the [i]th header on; known headers are skipped. *)
Fixpoint insert_headers (fuel : nat) (coins interrupted : nat -> bool) (i : nat) (chain : list Header)
    : go HeaderChain (unit + Z * ChainError) :=
  match chain with
  | [] => mret (inl tt)
  | h :: rest =>
      if interrupted i then mret (inr (Z.of_nat i, errAborted))
      else
        hc ← gget;
        n ← glift (header_number h);
        if HasHeader (Header_Hash h) n hc then insert_headers fuel coins interrupted (S i) rest
        else
          r ← hc_WriteHeader fuel (coins i) h;
          match r with
          | inr e => mret (inr (Z.of_nat i, e))
          | inl _ => insert_headers fuel coins interrupted (S i) rest
          end
  end.

(** The statistics at the end take the last header. *)
Definition hc_InsertHeaderChain (fuel : nat) (coins interrupted : nat -> bool) (chain : list Header)
    : go HeaderChain (unit + Z * ChainError) :=
  r ← insert_headers fuel coins interrupted 0 chain;
  match r, chain with
  | inr e, _ => mret (inr e)
  | inl _, [] => gpanic
  | inl _, _ :: _ => mret (inl tt)
  end.

(** ** The head *)
Definition SetCurrentHeader (head : Header) : go HeaderChain unit :=
  let hash := Header_Hash head in
  _ ← gmodify (fun hc => with_hc_db (WriteHeadHeaderHash (hc_db hc) hash) hc);
  gmodify (with_head head hash).

Definition SetGenesis (head : Header) : go HeaderChain unit :=
  gmodify (fun hc => mkHeaderChain (hc_db hc) head (currentHeader hc) (currentHeaderHash hc) (headerCache hc) (tdCache hc)
    (numberCache hc)).

(** Delete the headers above [head] on the way back; [delFn] is called on each. *)
Fixpoint rewind (fuel : nat) (delFn : Hash -> Z -> KV -> KV) (head : Z) (current : option Header)
    : go HeaderChain (option Header) :=
  match current with
  | None => mret None
  | Some h =>
      num ← glift (header_number h);
      if num >? head then
        match fuel with
        | O => gfuel
        | S f =>
            let hash := Header_Hash h in
            _ ← gmodify (fun hc => with_hc_db (DeleteTd (DeleteHeader (delFn hash num (hc_db hc)) hash num) hash num) hc);
            p ← hc_GetHeader (ParentHash h) (u64 (num - 1));
            rewind f delFn head p
        end
      else mret (Some h)
  end.

(** [for i := height; i > head; i--], [n] iterations. *)
Fixpoint delete_down (n : nat) (i : Z) (db : KV) : KV :=
  match n with
  | O => db
  | S n' => delete_down n' (i - 1) (DeleteCanonicalHash db i)
  end.

Definition purge (hc : HeaderChain) : HeaderChain :=
  mkHeaderChain (hc_db hc) (genesisHeader hc) (currentHeader hc) (currentHeaderHash hc) (lru_Purge (headerCache hc))
    (lru_Purge (tdCache hc)) (lru_Purge (numberCache hc)).

Definition hc_SetHead (fuel : nat) (delFn : Hash -> Z -> KV -> KV) (head : Z) : go HeaderChain unit :=
  hc ← gget;
  height ← glift (header_number (currentHeader hc));
  current ← rewind fuel delFn head (Some (currentHeader hc));
  _ ← gmodify (fun hc => with_hc_db (delete_down (Z.to_nat (height - head)) height (hc_db hc)) hc);
  _ ← gmodify purge;
  let current := default (genesisHeader hc) current in
  let hash := Header_Hash current in
  _ ← gmodify (with_head current hash);
  gmodify (fun hc => with_hc_db (WriteHeadHeaderHash (hc_db hc) hash) hc).

(** ** Opening *)
Definition NewHeaderChain (db : KV) : outcome (HeaderChain + ChainError) :=
  let open (genesis : Header) := mkHeaderChain db genesis genesis (Header_Hash genesis) (lru_New headerCacheLimit)
                                   (lru_New tdCacheLimit) (lru_New numberCacheLimit) in
  let hash := GetCanonicalHash db 0 in
  match (if hash =? 0 then None else GetHeader db hash 0) with
  | None => Ret (inr ErrNoGenesis)
  | Some genesis =>
      let hc := with_headerCache (lru_Add (lru_New headerCacheLimit) hash genesis) (open genesis) in
      let head := GetHeadBlockHash db in
      if head =? 0 then Ret (inl hc)
      else
        match GetHeaderByHash head hc with
        | Ret (Some h, hc') => Ret (inl (with_head h (Header_Hash h) hc'))
        | Ret (None, hc') => Ret (inl hc')
        | Panic => Panic
        | OutOfFuel => OutOfFuel
        end
  end.

End header_chain.
