(* ===== verification/HeaderChainProps.v ===== *)
(** * Theorems on the header chain

    The invariant of a header chain ([hc_ok]): what is stored is complete, the
    canonical numbers lead from the genesis header to the current one, each header
    being the parent of the next, and the caches agree with the store.  Writing a
    header keeps it, and leaves the heaviest known chain canonical. *)
From S2P Require Import Prelude GoMonad Clique TxList ChainDb ChainDbProps HeaderChain.
Local Open Scope Z_scope.

(** Hashes identify headers. *)
Class HeaderLaws {CL : CliqueLib} : Prop :=
  hash_inj : forall x y, Header_Hash x = Header_Hash y -> x = y.

Section header_chain.
Context {KL : KvLib} {KLaws : KvLaws} {HL : HashLib} {HLaws : HashLaws} {CL : CliqueLib} {CLaws : HeaderLaws}
  {LL : LruLib} {LLaws : LruLaws} {RH : RLP Header} {RZ : RLP Z}
  {LH : RLPLaws Header header_ok} {LZ : RLPLaws Z (fun z => 0 <= z)}.

(** ** The invariant *)

(** Every header that is stored has its number, its total difficulty and, but for
    the genesis header, its parent. *)
Record db_ok (g : Header) (db : KV) : Prop := {
  do_header hash n h : is_u64 n -> GetHeader db hash n = Some h ->
    header_ok h /\ Header_Hash h = hash /\ header_number h = Ret n /\ hash <> 0 /\ n < MaxUint64 /\ GetBlockNumber db hash = n;
  do_number hash : GetBlockNumber db hash <> missingNumber ->
    is_u64 (GetBlockNumber db hash) /\ exists h, GetHeader db hash (GetBlockNumber db hash) = Some h;
  do_td hash n : is_u64 n -> is_Some (GetTd db hash n) <-> is_Some (GetHeader db hash n);
  do_td_pos hash n td : is_u64 n -> GetTd db hash n = Some td -> 0 <= td;
  do_parent hash n h : is_u64 n -> n <> 0 -> GetHeader db hash n = Some h ->
    is_Some (GetHeader db (ParentHash h) (n - 1)) /\
    forall d td, Difficulty h = Some d -> GetTd db (ParentHash h) (n - 1) = Some td -> GetTd db hash n = Some (d + td);
  do_genesis hash h : GetHeader db hash 0 = Some h -> h = g;
  do_root : GetHeader db (Header_Hash g) 0 = Some g;
  do_has hash n : is_u64 n -> is_Some (look db (HeaderKey hash n)) -> is_Some (GetHeader db hash n)
}.

(** The canonical number [n] has a header, whose parent is the canonical header
    before it. *)
Definition linked (db : KV) (n : Z) : Prop :=
  exists h, GetHeader db (GetCanonicalHash db n) n = Some h /\ (n <> 0 -> ParentHash h = GetCanonicalHash db (n - 1)).

Record canon_ok (db : KV) (head : Header) (top : Z) : Prop := {
  ca_top : is_u64 top;
  ca_head : GetHeader db (Header_Hash head) top = Some head;
  ca_at : GetCanonicalHash db top = Header_Hash head;
  ca_linked n : 0 <= n <= top -> linked db n;
  ca_above n : is_u64 n -> top < n -> GetCanonicalHash db n = 0
}.

Record caches_ok (hc : HeaderChain) : Prop := {
  co_header hash h : lru_Peek (headerCache hc) hash = Some h -> exists n, is_u64 n /\ GetHeader (hc_db hc) hash n = Some h;
  co_td hash td : lru_Peek (tdCache hc) hash = Some td -> exists n, is_u64 n /\ GetTd (hc_db hc) hash n = Some td;
  co_number hash n : lru_Peek (numberCache hc) hash = Some n -> n <> missingNumber /\ GetBlockNumber (hc_db hc) hash = n
}.

Record hc_ok (g : Header) (top : Z) (hc : HeaderChain) : Prop := {
  ho_genesis : genesisHeader hc = g;
  ho_db : db_ok g (hc_db hc);
  ho_canon : canon_ok (hc_db hc) (currentHeader hc) top;
  ho_hash : currentHeaderHash hc = Header_Hash (currentHeader hc);
  ho_caches : caches_ok hc
}.

(** No known header has a heavier chain than the current one. *)
Definition heaviest (hc : HeaderChain) (top : Z) : Prop :=
  forall td, GetTd (hc_db hc) (currentHeaderHash hc) top = Some td ->
  forall hash n td', is_u64 n -> GetTd (hc_db hc) hash n = Some td' -> td' <= td.

(** ** What is stored determines its number *)
Section stored.
Context (g : Header) (db : KV) (Hdb : db_ok g db).

Lemma header_unique hash n m h h' :
  is_u64 n -> is_u64 m -> GetHeader db hash n = Some h -> GetHeader db hash m = Some h' -> n = m /\ h = h'.
Proof.
  intros Hn Hm E E'. destruct (do_header _ _ Hdb _ _ _ Hn E) as (_ & _ & _ & _ & _ & N1).
  destruct (do_header _ _ Hdb _ _ _ Hm E') as (_ & _ & _ & _ & _ & N2). subst. by rewrite E in E'; injection E'.
Qed.

Lemma td_header hash n td : is_u64 n -> GetTd db hash n = Some td -> exists h, GetHeader db hash n = Some h.
Proof. intros Hn E. apply (proj1 (do_td _ _ Hdb hash n Hn)). eauto. Qed.

Lemma td_unique hash n m td td' :
  is_u64 n -> is_u64 m -> GetTd db hash n = Some td -> GetTd db hash m = Some td' -> n = m /\ td = td'.
Proof.
  intros Hn Hm E E'. destruct (td_header _ _ _ Hn E) as [h Eh]. destruct (td_header _ _ _ Hm E') as [h' Eh'].
  destruct (header_unique _ _ _ _ _ Hn Hm Eh Eh') as [-> _]. by rewrite E in E'; injection E'.
Qed.

Lemma header_td hash n h : is_u64 n -> GetHeader db hash n = Some h -> exists td, GetTd db hash n = Some td /\ 0 <= td.
Proof.
  intros Hn E. destruct (proj2 (do_td _ _ Hdb hash n Hn)) as [td Etd]; [eauto|]. exists td. split; [done|].
  by apply (do_td_pos _ _ Hdb hash n).
Qed.

Lemma canon_linked_down n : 0 <= n -> is_u64 n -> (forall m, 0 <= m <= n -> GetCanonicalHash db m <> 0 -> linked db m) ->
  GetCanonicalHash db n <> 0 -> forall m, 0 <= m <= n -> linked db m.
Proof.
  intros H0 Hn Hl Hc m Hm. apply Hl; [done|].
  assert (G : forall k : nat, Z.of_nat k <= n -> GetCanonicalHash db (n - Z.of_nat k) <> 0).
  { induction k as [|k IH]; intros Hk; [by rewrite Z.sub_0_r|].
    assert (Hu : is_u64 (n - Z.of_nat k)) by (unfold is_u64 in *; lia). assert (Hz : n - Z.of_nat k <> 0) by lia.
    destruct (Hl (n - Z.of_nat k) ltac:(lia) (IH ltac:(lia))) as (h & Eh & Hp).
    replace (n - Z.of_nat (S k)) with (n - Z.of_nat k - 1) by lia. rewrite <- Hp by done.
    destruct (do_parent _ _ Hdb _ _ _ Hu Hz Eh) as [[p Ep] _].
    assert (Hu' : is_u64 (n - Z.of_nat k - 1)) by (unfold is_u64 in *; lia).
    by destruct (do_header _ _ Hdb _ _ _ Hu' Ep) as (_ & _ & _ & Hp0 & _). }
  replace m with (n - Z.of_nat (Z.to_nat (n - m))) by lia. apply G. lia.
Qed.

End stored.

(** ** Lookups *)

(** Only caches changed. *)
Definition same_chain (hc hc' : HeaderChain) : Prop :=
  hc_db hc' = hc_db hc /\ genesisHeader hc' = genesisHeader hc /\ currentHeader hc' = currentHeader hc /\
  currentHeaderHash hc' = currentHeaderHash hc.

Lemma same_chain_refl hc : same_chain hc hc.
Proof. done. Qed.

Lemma same_chain_trans a b c : same_chain a b -> same_chain b c -> same_chain a c.
Proof. unfold same_chain. intuition congruence. Qed.

Lemma hc_ok_same g top hc hc' : hc_ok g top hc -> same_chain hc hc' -> caches_ok hc' -> hc_ok g top hc'.
Proof. intros [] (Ed & Eg & Ec & Eh) Hc. split; [congruence|by rewrite Ed|by rewrite Ed, Ec|congruence|done]. Qed.

(** What a lookup returns, and what it leaves in the cache. *)
Lemma cached_run {V : Type} cache set hash (fetch : KV -> option V) hc :
  (forall c c' h, set c' (set c h) = set c' h) -> (forall c h, cache (set c h) = c) ->
  exists c, cached cache set hash fetch hc =
      Ret (match lru_Peek (cache hc) hash with Some v => Some v | None => fetch (hc_db hc) end, set c hc) /\
    forall k w, lru_Peek c k = Some w -> lru_Peek (cache hc) k = Some w \/ (k = hash /\ fetch (hc_db hc) = Some w).
Proof.
  intros Hset Hget. unfold cached, gget, gmodify, mbind, go_bind, mret, go_ret. rewrite <- lru_Get_Peek.
  destruct (fst (lru_Get (cache hc) hash)) as [v|] eqn:Ev.
  - eexists. split; [done|]. intros k w Hk. rewrite lru_Peek_Get in Hk. by left.
  - destruct (fetch (hc_db hc)) as [v|].
    + rewrite Hget, Hset. eexists. split; [done|]. intros k w Hk%lru_Peek_Add.
      destruct (decide (k = hash)); [subst; by right|]. rewrite lru_Peek_Get in Hk. by left.
    + eexists. split; [done|]. intros k w Hk. rewrite lru_Peek_Get in Hk. by left.
Qed.

Section lookups.
Context (g : Header) (hc : HeaderChain) (Hdb : db_ok g (hc_db hc)) (Hc : caches_ok hc).

Lemma hc_GetHeader_run hash n : is_u64 n ->
  exists r hc', hc_GetHeader hash n hc = Ret (r, hc') /\ same_chain hc hc' /\ caches_ok hc' /\
    (forall h, r = Some h -> exists m, is_u64 m /\ GetHeader (hc_db hc) hash m = Some h) /\
    (forall h, GetHeader (hc_db hc) hash n = Some h -> r = Some h).
Proof.
  intros Hn. destruct (cached_run headerCache with_headerCache hash (fun db => GetHeader db hash n) hc) as (c & E & Hp); [done..|].
  unfold hc_GetHeader. rewrite E. eexists _, _. split; [done|]. split; [done|]. split; [|split].
  - split; cbn; try apply Hc. intros k h Hk. destruct (Hp k h Hk) as [Hk'|[-> Ef]]; [by apply Hc|eauto].
  - intros h. destruct (lru_Peek (headerCache hc) hash) eqn:Ek; [|eauto]. intros [= ->]. by apply Hc.
  - intros h Eh. destruct (lru_Peek (headerCache hc) hash) as [h'|] eqn:Ek; [|done].
    destruct (co_header _ Hc _ _ Ek) as (m & Hm & Em). by destruct (header_unique g _ Hdb _ _ _ _ _ Hn Hm Eh Em) as [_ ->].
Qed.

Lemma hc_GetTd_run hash n : is_u64 n ->
  exists r hc', hc_GetTd hash n hc = Ret (r, hc') /\ same_chain hc hc' /\ caches_ok hc' /\
    (forall td, r = Some td -> exists m, is_u64 m /\ GetTd (hc_db hc) hash m = Some td) /\
    (forall td, GetTd (hc_db hc) hash n = Some td -> r = Some td).
Proof.
  intros Hn. destruct (cached_run tdCache with_tdCache hash (fun db => GetTd db hash n) hc) as (c & E & Hp); [done..|].
  unfold hc_GetTd. rewrite E. eexists _, _. split; [done|]. split; [done|]. split; [|split].
  - split; cbn; try apply Hc. intros k td Hk. destruct (Hp k td Hk) as [Hk'|[-> Ef]]; [by apply Hc|eauto].
  - intros td. destruct (lru_Peek (tdCache hc) hash) eqn:Ek; [|eauto]. intros [= ->]. by apply Hc.
  - intros td Etd. destruct (lru_Peek (tdCache hc) hash) as [td'|] eqn:Ek; [|done].
    destruct (co_td _ Hc _ _ Ek) as (m & Hm & Em). by destruct (td_unique g _ Hdb _ _ _ _ _ Hn Hm Etd Em) as [_ ->].
Qed.

Lemma hc_GetBlockNumber_run hash :
  exists hc', hc_GetBlockNumber hash hc = Ret (GetBlockNumber (hc_db hc) hash, hc') /\ same_chain hc hc' /\ caches_ok hc'.
Proof.
  set (fetch := fun db => let number := GetBlockNumber db hash in if number =? missingNumber then None else Some number).
  destruct (cached_run numberCache with_numberCache hash fetch hc) as (c & E & Hp); [done..|].
  eexists. split; [|split].
  - unfold hc_GetBlockNumber. fold fetch. rewrite (bind_run _ _ _ _ _ E). unfold mret, go_ret. do 2 f_equal.
    destruct (lru_Peek (numberCache hc) hash) as [n|] eqn:Ek; cbn [default]; [symmetry; by apply Hc|].
    unfold fetch. cbn. destruct (Z.eqb_spec (GetBlockNumber (hc_db hc) hash) missingNumber); cbn; congruence.
  - done.
  - split; cbn; try apply Hc. intros k n Hk. destruct (Hp k n Hk) as [Hk'|[-> Ef]]; [by apply Hc|].
    unfold fetch in Ef. cbn in Ef. destruct (Z.eqb_spec (GetBlockNumber (hc_db hc) hash) missingNumber); [done|]. by injection Ef as <-.
Qed.

End lookups.

(** ** Stores with the same headers *)
Definition is_data (k : Key) : Prop :=
  match k with HeaderKey _ _ | TdKey _ _ | NumberKey _ => True | _ => False end.

Definition same_data (db db' : KV) : Prop := forall k, key_ok k -> is_data k -> look db' k = look db k.

Lemma same_data_refl db : same_data db db.
Proof. done. Qed.

Lemma same_data_trans a b c : same_data a b -> same_data b c -> same_data a c.
Proof. intros H1 H2 k Hk Hd. by rewrite H2, H1. Qed.

Lemma same_but_data ks db db' : same_but ks db db' -> Forall (fun k => ~ is_data k) ks -> same_data db db'.
Proof. intros Hs Hf k Hk Hd. apply Hs; [done|]. intros Hin. rewrite Forall_forall in Hf. by apply (Hf k). Qed.

Lemma put_same_data db k v : key_ok k -> ~ is_data k -> same_data db (put db k v).
Proof. intros Hk Hd. apply (same_but_data [k]); [by apply same_but_put|by repeat constructor]. Qed.

Lemma drop_same_data db k : key_ok k -> ~ is_data k -> same_data db (drop_key db k).
Proof. intros Hk Hd. apply (same_but_data [k]); [by apply same_but_drop|by repeat constructor]. Qed.

Section same_data.
Context (db db' : KV) (Hs : same_data db db').

Lemma same_data_header hash n : is_u64 n -> GetHeader db' hash n = GetHeader db hash n.
Proof. intros Hn. unfold GetHeader, stored. by rewrite (Hs (HeaderKey hash n) Hn I). Qed.

Lemma same_data_td hash n : is_u64 n -> GetTd db' hash n = GetTd db hash n.
Proof. intros Hn. unfold GetTd, stored. by rewrite (Hs (TdKey hash n) Hn I). Qed.

Lemma same_data_number hash : GetBlockNumber db' hash = GetBlockNumber db hash.
Proof. unfold GetBlockNumber. by rewrite (Hs (NumberKey hash) I I). Qed.

Lemma db_ok_same_data g : db_ok g db -> db_ok g db'.
Proof.
  intros [H1 H2 H3 H4 H5 H6 H7 H8]. assert (Z0 : is_u64 0) by (unfold is_u64, MaxUint64; lia). split.
  - intros hash n h Hn. rewrite same_data_header, same_data_number by done. by apply H1.
  - intros hash. rewrite same_data_number. intros Hne. destruct (H2 hash Hne) as [Hu Hh]. split; [done|].
    by rewrite same_data_header.
  - intros hash n Hn. rewrite same_data_header, same_data_td by done. by apply H3.
  - intros hash n td Hn. rewrite same_data_td by done. by apply H4.
  - intros hash n h Hn H0 Eh. rewrite same_data_header in Eh by done. assert (Hn1 : is_u64 (n - 1)) by (unfold is_u64 in *; lia).
    rewrite same_data_header by done. destruct (H5 hash n h Hn H0 Eh) as [Hp Ht]. split; [done|].
    intros d td. rewrite !same_data_td by done. by apply Ht.
  - intros hash h. rewrite same_data_header by done. apply H6.
  - by rewrite same_data_header.
  - intros hash n Hn. rewrite (Hs (HeaderKey hash n) Hn I), same_data_header by done. by apply H8.
Qed.

Lemma linked_same_data n : (forall m, n - 1 <= m <= n -> 0 <= m -> GetCanonicalHash db' m = GetCanonicalHash db m) -> is_u64 n ->
  linked db n -> linked db' n.
Proof.
  intros Hc Hn (h & Eh & Hp). unfold is_u64 in Hn. exists h. rewrite Hc, same_data_header by (unfold is_u64; lia). split; [done|].
  intros H0. rewrite Hc by lia. by apply Hp.
Qed.

End same_data.

Lemma caches_ok_same_data hc db' : caches_ok hc -> same_data (hc_db hc) db' -> caches_ok (with_hc_db db' hc).
Proof.
  intros [H1 H2 H3] Hs. split; cbn.
  - intros hash h Hk. destruct (H1 hash h Hk) as (n & Hn & E). exists n. by rewrite (same_data_header _ _ Hs).
  - intros hash td Hk. destruct (H2 hash td Hk) as (n & Hn & E). exists n. by rewrite (same_data_td _ _ Hs).
  - intros hash n Hk. rewrite (same_data_number _ _ Hs). by apply H3.
Qed.

Lemma caches_ok_with_head hc h hash : caches_ok hc -> caches_ok (with_head h hash hc).
Proof. intros [H1 H2 H3]. by split. Qed.

(** ** A header added to the store *)
Record added (header : Header) (n td : Z) (db db' : KV) : Prop := {
  ad_header hash m : is_u64 m ->
    GetHeader db' hash m = if decide (hash = Header_Hash header /\ m = n) then Some header else GetHeader db hash m;
  ad_td hash m : is_u64 m ->
    GetTd db' hash m = if decide (hash = Header_Hash header /\ m = n) then Some td else GetTd db hash m;
  ad_number hash : GetBlockNumber db' hash = if decide (hash = Header_Hash header) then n else GetBlockNumber db hash;
  ad_raw hash m : is_u64 m -> ~ (hash = Header_Hash header /\ m = n) -> look db' (HeaderKey hash m) = look db (HeaderKey hash m);
  ad_others k : key_ok k -> ~ is_data k -> look db' k = look db k
}.

Lemma added_canonical header n td db db' m : added header n td db db' -> is_u64 m -> GetCanonicalHash db' m = GetCanonicalHash db m.
Proof. intros Ha Hm. unfold GetCanonicalHash, stored_hash. by rewrite (ad_others _ _ _ _ _ Ha (CanonicalKey m) Hm (fun f => f)). Qed.

Lemma write_header_added db header n td :
  header_ok header -> header_number header = Ret n -> 0 <= td ->
  exists db1 db2, WriteTd db (Header_Hash header) n td = Ok db1 /\ WriteHeader db1 header = Ret (Ok db2) /\ added header n td db db2.
Proof.
  intros Hh En Htd. destruct (header_ok_number _ Hh) as (n' & _ & Hn & En'). rewrite En in En'. injection En' as <-.
  destruct (WriteTd_run db (Header_Hash header) n td Hn Htd) as (db1 & E1 & S1 & T1).
  destruct (WriteHeader_run db1 header n Hh En) as (db2 & E2 & S2 & H2 & N2).
  exists db1, db2. split; [done|]. split; [done|].
  pose proof (same_but_trans _ _ _ _ _ S1 S2) as S. cbn [app] in S. split.
  - intros hash m Hm. destruct (decide _) as [[-> ->]|Hne]; [done|]. apply (GetHeader_same _ _ _ _ _ S Hm).
    rewrite !not_elem_of_cons. split_and!; [done|done| |apply not_elem_of_nil]. intros [= -> ->]. naive_solver.
  - intros hash m Hm. destruct (decide _) as [[-> ->]|Hne].
    + rewrite (GetTd_same _ _ _ _ _ S2 Hm); [done|]. rewrite !not_elem_of_cons. split_and!; [done|done|apply not_elem_of_nil].
    + apply (GetTd_same _ _ _ _ _ S Hm). rewrite !not_elem_of_cons. split_and!; [|done|done|apply not_elem_of_nil].
      intros [= -> ->]. naive_solver.
  - intros hash. destruct (decide _) as [->|Hne]; [done|]. apply (GetBlockNumber_same _ _ _ _ S).
    rewrite !not_elem_of_cons. split_and!; [done| |done|apply not_elem_of_nil]. by intros [= ->].
  - intros hash m Hm Hne. apply (S (HeaderKey hash m) Hm).
    rewrite !not_elem_of_cons. split_and!; [done|done| |apply not_elem_of_nil]. intros [= -> ->]. naive_solver.
  - intros k Hk Hd. apply S; [done|]. rewrite !not_elem_of_cons. split_and!; [by intros ->..|apply not_elem_of_nil].
Qed.

Section adding.
Context (g header : Header) (n d ptd : Z) (db db' : KV).
Context (Hdb : db_ok g db) (Hh : header_ok header) (En : header_number header = Ret n) (Ed : Difficulty header = Some d)
  (Hn : 0 < n < MaxUint64) (Hz : Header_Hash header <> 0)
  (Hp : GetTd db (ParentHash header) (n - 1) = Some ptd)
  (Hfresh : forall m, is_u64 m -> GetHeader db (Header_Hash header) m = None)
  (Ha : added header n (d + ptd) db db').

Lemma added_old_header hash m h : is_u64 m -> GetHeader db hash m = Some h -> GetHeader db' hash m = Some h.
Proof.
  intros Hm E. rewrite (ad_header _ _ _ _ _ Ha) by done. destruct (decide _) as [[-> ->]|]; [|done]. by rewrite Hfresh in E.
Qed.

Lemma added_old_td hash m td : is_u64 m -> GetTd db hash m = Some td -> GetTd db' hash m = Some td.
Proof.
  intros Hm E. rewrite (ad_td _ _ _ _ _ Ha) by done. destruct (decide _) as [[-> ->]|]; [|done].
  destruct (td_header g _ Hdb _ _ _ Hm E) as [h Eh]. by rewrite Hfresh in Eh.
Qed.

Lemma added_ok : db_ok g db'.
Proof.
  assert (Hu : is_u64 n) by (unfold is_u64; lia). assert (Hu1 : is_u64 (n - 1)) by (unfold is_u64; lia).
  assert (Z0 : is_u64 0) by (unfold is_u64, MaxUint64; lia).
  assert (Hd : 0 <= d) by (destruct Hh as (_ & (d' & E & Hd) & _); rewrite Ed in E; by injection E as ->).
  pose proof (do_td_pos _ _ Hdb _ _ _ Hu1 Hp) as Hptd.
  split.
  - intros hash m h Hm. rewrite (ad_header _ _ _ _ _ Ha), (ad_number _ _ _ _ _ Ha) by done.
    destruct (decide _) as [[-> ->]|Hne].
    + intros [= <-]. rewrite decide_True by done. split_and!; done || lia.
    + intros E. destruct (do_header _ _ Hdb _ _ _ Hm E) as (A1 & A2 & A3 & A4 & A5 & A6). split_and!; try done.
      rewrite decide_False; [done|]. intros ->. by rewrite Hfresh in E.
  - intros hash. rewrite (ad_number _ _ _ _ _ Ha). destruct (decide _) as [->|Hne].
    + intros _. split; [done|]. exists header. rewrite (ad_header _ _ _ _ _ Ha) by done. by rewrite decide_True.
    + intros Hmiss. destruct (do_number _ _ Hdb hash Hmiss) as [H1 [h Eh]]. split; [done|]. exists h. by apply added_old_header.
  - intros hash m Hm. rewrite (ad_td _ _ _ _ _ Ha), (ad_header _ _ _ _ _ Ha) by done.
    destruct (decide _); [|by apply (do_td _ _ Hdb)]. split; eauto.
  - intros hash m td Hm. rewrite (ad_td _ _ _ _ _ Ha) by done.
    destruct (decide _); [|by apply (do_td_pos _ _ Hdb)]. intros [= <-]. lia.
  - intros hash m h Hm H0. rewrite (ad_header _ _ _ _ _ Ha hash) by done. destruct (decide _) as [[-> ->]|Hne].
    + intros [= <-]. destruct (td_header g _ Hdb _ _ _ Hu1 Hp) as [p Ep]. split.
      * exists p. by apply added_old_header.
      * intros d' td E. rewrite Ed in E. injection E as <-. rewrite (added_old_td _ _ _ Hu1 Hp). intros [= <-].
        rewrite (ad_td _ _ _ _ _ Ha) by done. by rewrite decide_True.
    + intros E. assert (Hm1 : is_u64 (m - 1)) by (unfold is_u64 in *; lia).
      destruct (do_parent _ _ Hdb _ _ _ Hm H0 E) as [[p Ep] Ht]. split; [exists p; by apply added_old_header|].
      intros d' td Ed' Et. apply added_old_td; [done|]. apply Ht; [done|].
      destruct (header_td g _ Hdb _ _ _ Hm1 Ep) as (td' & Et' & _). rewrite (added_old_td _ _ _ Hm1 Et') in Et. congruence.
  - intros hash h. rewrite (ad_header _ _ _ _ _ Ha) by done. destruct (decide _) as [[_ E]|]; [lia|]. apply (do_genesis _ _ Hdb).
  - apply added_old_header; [done|]. apply (do_root _ _ Hdb).
  - intros hash m Hm Hl. rewrite (ad_header _ _ _ _ _ Ha) by done. destruct (decide _) as [|Hne]; [eauto|].
    rewrite (ad_raw _ _ _ _ _ Ha) in Hl by done. by apply (do_has _ _ Hdb).
Qed.

Lemma added_canon head top : canon_ok db head top -> canon_ok db' head top.
Proof.
  intros [H1 H2 H3 H4 H5]. split; [done|by apply added_old_header|by rewrite (added_canonical _ _ _ _ _ _ Ha)| |].
  - intros m Hm. assert (Hu : is_u64 m) by (unfold is_u64 in *; lia). destruct (H4 m Hm) as (h & Eh & Hl). exists h.
    rewrite (added_canonical _ _ _ _ _ _ Ha) by done. split; [by apply added_old_header|]. intros H0.
    rewrite (added_canonical _ _ _ _ _ _ Ha) by (unfold is_u64 in *; lia). by apply Hl.
  - intros m Hm Ht. rewrite (added_canonical _ _ _ _ _ _ Ha) by done. by apply H5.
Qed.

End adding.

(** ** Canonical numbers *)

(** Only canonical numbers that satisfy [P] changed. *)
Definition canon_changed (P : Z -> Prop) (db db' : KV) : Prop :=
  forall k, key_ok k -> (forall m, P m -> k <> CanonicalKey m) -> look db' k = look db k.

Lemma canon_changed_same P db db' : canon_changed P db db' -> same_data db db'.
Proof. intros Hc k Hk Hd. apply Hc; [done|]. by intros m _ ->. Qed.

Lemma canon_changed_at P db db' m : canon_changed P db db' -> is_u64 m -> ~ P m -> GetCanonicalHash db' m = GetCanonicalHash db m.
Proof.
  intros Hc Hm HP. unfold GetCanonicalHash, stored_hash. rewrite (Hc (CanonicalKey m) Hm); [done|]. intros m' HP' [= ->]. done.
Qed.

Lemma canon_changed_trans (P Q R : Z -> Prop) a b c :
  canon_changed P a b -> canon_changed Q b c -> (forall m, P m \/ Q m -> R m) -> canon_changed R a c.
Proof.
  intros H1 H2 HR k Hk Hne. rewrite H2, H1; [done|done| |done|]; intros m Hm; apply Hne, HR; auto.
Qed.

Lemma write_canon_changed db hash n : is_u64 n -> canon_changed (eq n) db (WriteCanonicalHash db hash n).
Proof. intros Hn k Hk Hne. unfold WriteCanonicalHash. rewrite look_put, decide_False; [done| |done|done]. by apply Hne. Qed.

Lemma delete_canon_changed db n : is_u64 n -> canon_changed (eq n) db (DeleteCanonicalHash db n).
Proof. intros Hn k Hk Hne. unfold DeleteCanonicalHash. rewrite look_drop, decide_False; [done| |done|done]. by apply Hne. Qed.

Lemma delete_above_run top k : forall fuel db i,
  (k <= fuel)%nat -> is_u64 i -> top < MaxUint64 -> top + 1 - i <= Z.of_nat k ->
  (forall m, is_u64 m -> top < m -> GetCanonicalHash db m = 0) ->
  (forall m, i <= m <= top -> GetCanonicalHash db m <> 0) ->
  exists db', delete_above fuel db i = Ret db' /\ canon_changed (fun m => i <= m) db db' /\
    forall m, is_u64 m -> i <= m -> GetCanonicalHash db' m = 0.
Proof.
  induction k as [|k IH]; intros fuel db i Hf Hi Htop Hk Hab Hset.
  - exists db. assert (E : GetCanonicalHash db i = 0) by (apply Hab; [done|lia]).
    split; [destruct fuel; cbn [delete_above]; by rewrite E|]. split; [done|]. intros m Hm Him. apply Hab; [done|lia].
  - destruct fuel as [|fuel]; [lia|]. cbn [delete_above].
    destruct (Z.eqb_spec (GetCanonicalHash db i) 0) as [E|Hne].
    { assert (top < i) by (destruct (Z.le_gt_cases i top); [exfalso; apply (Hset i); done || lia|done]).
      exists db. split; [done|]. split; [done|]. intros m Hm Him. apply Hab; [done|lia]. }
    assert (Hle : i <= top) by (destruct (Z.le_gt_cases i top); [done|exfalso; apply Hne, Hab; [done|lia]]).
    assert (Ei : u64 (i + 1) = i + 1) by (apply u64_small; unfold is_u64, MaxUint64 in *; lia). rewrite Ei.
    pose proof (delete_canon_changed db i Hi) as Hd.
    destruct (IH fuel (DeleteCanonicalHash db i) (i + 1)) as (db' & E & Hc & H0); [lia|unfold is_u64 in *; lia|done|lia| | |].
    { intros m Hm Hlt. rewrite (canon_changed_at _ _ _ _ Hd) by lia || done. by apply Hab. }
    { intros m Hm. rewrite (canon_changed_at _ _ _ _ Hd); [apply Hset; lia|unfold is_u64 in *; lia|lia]. }
    exists db'. split; [done|]. split; [apply (canon_changed_trans _ _ _ _ _ _ Hd Hc); intros m; lia|].
    intros m Hm Him. destruct (Z.eq_dec m i) as [->|Hmi]; [|apply H0; [done|lia]].
    rewrite (canon_changed_at _ _ _ _ Hc) by lia || done. apply stored_hash_none. by apply look_drop_eq.
Qed.

(** The head did not change. *)
Definition same_head (hc hc' : HeaderChain) : Prop :=
  genesisHeader hc' = genesisHeader hc /\ currentHeader hc' = currentHeader hc /\ currentHeaderHash hc' = currentHeaderHash hc.

Lemma same_head_trans a b c : same_head a b -> same_head b c -> same_head a c.
Proof. unfold same_head. intuition congruence. Qed.

Lemma same_chain_head a b : same_chain a b -> same_head a b.
Proof. unfold same_chain, same_head. tauto. Qed.

(** The walk back re-routes the numbers up to [n] to the ancestors of a header. *)
Lemma overwrite_run g : forall fuel hash n h hc,
  db_ok g (hc_db hc) -> caches_ok hc -> is_u64 n -> n < Z.of_nat fuel ->
  GetHeader (hc_db hc) hash n = Some h -> GetCanonicalHash (hc_db hc) 0 = Header_Hash g ->
  (forall m, 0 <= m <= n -> GetCanonicalHash (hc_db hc) m <> 0 -> linked (hc_db hc) m) ->
  exists hc', overwrite fuel hash n (Some h) hc = Ret (tt, hc') /\ same_head hc hc' /\ caches_ok hc' /\
    canon_changed (fun m => 0 <= m <= n) (hc_db hc) (hc_db hc') /\ GetCanonicalHash (hc_db hc') n = hash /\
    forall m, 0 <= m <= n -> linked (hc_db hc') m.
Proof.
  induction fuel as [|fuel IH]; intros hash n h hc Hdb Hc Hn Hf Eh E0 Hl; [unfold is_u64 in Hn; lia|].
  destruct (do_header _ _ Hdb _ _ _ Hn Eh) as (Hh & Ehash & En & Hz & Hlt & _).
  cbn [overwrite]. rewrite bind_gget.
  destruct (Z.eqb_spec (GetCanonicalHash (hc_db hc) n) hash) as [E|Hne].
  { exists hc. split; [done|]. split; [done|]. split; [done|]. split; [done|]. split; [done|].
    apply (canon_linked_down g _ Hdb); [unfold is_u64 in Hn; lia|done|done|by rewrite E]. }
  assert (H0 : n <> 0).
  { intros ->. rewrite (do_genesis _ _ Hdb _ _ Eh) in Ehash. congruence. }
  destruct (do_parent _ _ Hdb _ _ _ Hn H0 Eh) as [[p Ep] _].
  assert (Hn1 : is_u64 (n - 1)) by (unfold is_u64 in *; lia).
  pose proof (write_canon_changed (hc_db hc) hash n Hn) as Hw. pose proof (canon_changed_same _ _ _ Hw) as Hs.
  set (hc1 := with_hc_db (WriteCanonicalHash (hc_db hc) hash n) hc).
  assert (Hdb1 : db_ok g (hc_db hc1)) by (by apply (db_ok_same_data _ _ Hs)).
  assert (Hc1 : caches_ok hc1) by (by apply caches_ok_same_data).
  assert (Ep1 : GetHeader (hc_db hc1) (ParentHash h) (n - 1) = Some p) by (cbn; by rewrite (same_data_header _ _ Hs)).
  destruct (hc_GetHeader_run g hc1 Hdb1 Hc1 (ParentHash h) (n - 1) Hn1) as (r & hc2 & Er & S2 & Hc2 & _ & Hr).
  rewrite (Hr p Ep1) in Er. clear Hr.
  destruct S2 as (D2 & S2).
  destruct (IH (ParentHash h) (n - 1) p hc2) as (hc' & E' & Sh & Hc' & Hch & Ec & Hl'); rewrite ?D2; try done; [lia|..].
  { cbn. rewrite (canon_changed_at _ _ _ _ Hw); [done|unfold is_u64, MaxUint64; lia|done]. }
  { intros m Hm. assert (Hu : is_u64 m) by (unfold is_u64 in *; lia). cbn. rewrite (canon_changed_at _ _ _ _ Hw) by lia || done.
    intros Hcm. apply (linked_same_data _ _ Hs); [|done|apply Hl; [lia|done]].
    intros m' Hm' H0'. apply (canon_changed_at _ _ _ _ Hw); [unfold is_u64 in *; lia|lia]. }
  exists hc'. split; [|split; [|split; [done|split; [|split]]]].
  - rewrite bind_gmodify, (bind_glift _ _ _ _ En), u64_small by done. by rewrite (bind_run _ _ _ _ _ Er).
  - apply (same_head_trans _ hc1); [done|]. by apply (same_head_trans _ hc2).
  - rewrite D2 in Hch. apply (canon_changed_trans _ _ _ _ _ _ Hw Hch). intros m. unfold is_u64 in Hn. lia.
  - rewrite D2 in Hch. rewrite (canon_changed_at _ _ _ _ Hch) by lia || done. by apply GetCanonicalHash_Write.
  - intros m Hm. destruct (Z.eq_dec m n) as [->|Hmn]; [|apply Hl'; lia].
    rewrite D2 in Hch. exists h. split; [|by rewrite Ec].
    rewrite (canon_changed_at _ _ _ _ Hch) by lia || done. cbn. rewrite GetCanonicalHash_Write by done.
    rewrite (same_data_header _ _ (canon_changed_same _ _ _ Hch)) by done. cbn. by rewrite (same_data_header _ _ Hs).
Qed.

(** ** Writing a header *)
Lemma canon_genesis g db head top : db_ok g db -> canon_ok db head top -> GetCanonicalHash db 0 = Header_Hash g.
Proof.
  intros Hdb Hca. assert (Z0 : is_u64 0) by (unfold is_u64, MaxUint64; lia).
  destruct (ca_linked _ _ _ Hca 0) as (h & Eh & _); [pose proof (ca_top _ _ _ Hca) as Hu; unfold is_u64 in Hu; lia|].
  destruct (do_header _ _ Hdb _ _ _ Z0 Eh) as (_ & <- & _). f_equal. by apply (do_genesis _ _ Hdb (GetCanonicalHash db 0)).
Qed.

Lemma canon_top_bound g db head top : db_ok g db -> canon_ok db head top -> 0 <= top < MaxUint64.
Proof.
  intros Hdb Hca. pose proof (ca_top _ _ _ Hca) as Hu.
  destruct (do_header _ _ Hdb _ _ _ Hu (ca_head _ _ _ Hca)) as (_ & _ & _ & _ & Hlt & _). unfold is_u64 in Hu. lia.
Qed.

Definition new_head (db : KV) (hash : Hash) (n : Z) : KV := WriteHeadHeaderHash (WriteCanonicalHash db hash n) hash.

Lemma new_head_same_data db hash n : is_u64 n -> same_data db (new_head db hash n).
Proof.
  intros Hn. apply (same_data_trans _ (WriteCanonicalHash db hash n)).
  - apply (canon_changed_same (eq n)). by apply write_canon_changed.
  - apply put_same_data; [done|by intros []].
Qed.

Lemma new_head_canonical db hash n m : is_u64 n -> is_u64 m ->
  GetCanonicalHash (new_head db hash n) m = if decide (m = n) then hash else GetCanonicalHash db m.
Proof.
  intros Hn Hm. unfold new_head, WriteHeadHeaderHash, GetCanonicalHash, stored_hash. rewrite look_put, decide_False by done.
  destruct (decide (m = n)) as [->|Hne].
  - pose proof (GetCanonicalHash_Write db hash n Hn) as E. exact E.
  - unfold WriteCanonicalHash. rewrite look_put, decide_False by (done || congruence). done.
Qed.

(** A header on top of a canonical parent. *)
Lemma canon_extend db header n :
  0 < n < MaxUint64 -> GetHeader db (Header_Hash header) n = Some header ->
  GetCanonicalHash db (n - 1) = ParentHash header -> (forall m, 0 <= m <= n - 1 -> linked db m) ->
  (forall m, is_u64 m -> n < m -> GetCanonicalHash db m = 0) ->
  canon_ok (new_head db (Header_Hash header) n) header n.
Proof.
  intros Hn Eh Ep Hl Hab. assert (Hu : is_u64 n) by (unfold is_u64; lia).
  pose proof (new_head_same_data db (Header_Hash header) n Hu) as S. split.
  - done.
  - by rewrite (same_data_header _ _ S).
  - by rewrite new_head_canonical, decide_True.
  - intros m Hm. assert (Hum : is_u64 m) by (unfold is_u64; lia). destruct (Z.eq_dec m n) as [->|Hmn].
    + exists header. rewrite new_head_canonical, decide_True, (same_data_header _ _ S) by done. split; [done|]. intros _.
      rewrite new_head_canonical, decide_False by (unfold is_u64; lia). done.
    + apply (linked_same_data _ _ S); [|done|apply Hl; lia]. intros m' Hm' H0.
      rewrite new_head_canonical, decide_False by (unfold is_u64; lia). done.
  - intros m Hm Hlt. rewrite new_head_canonical, decide_False by (done || lia). by apply Hab.
Qed.

Lemma reroute_run g top fuel header n hc :
  db_ok g (hc_db hc) -> caches_ok hc -> canon_ok (hc_db hc) (currentHeader hc) top ->
  GetHeader (hc_db hc) (Header_Hash header) n = Some header -> 0 < n < MaxUint64 ->
  top < Z.of_nat fuel -> n <= Z.of_nat fuel ->
  exists hc', reroute fuel header n hc = Ret (tt, hc') /\ genesisHeader hc' = genesisHeader hc /\ currentHeader hc' = header /\
    currentHeaderHash hc' = Header_Hash header /\ same_data (hc_db hc) (hc_db hc') /\ caches_ok hc' /\ canon_ok (hc_db hc') header n.
Proof.
  intros Hdb Hc Hca Eh Hn Hf1 Hf2. pose proof (canon_top_bound _ _ _ _ Hdb Hca) as Ht.
  assert (Hu : is_u64 n) by (unfold is_u64; lia). assert (Hu1 : is_u64 (n - 1)) by (unfold is_u64; lia).
  assert (En1 : u64 (n + 1) = n + 1) by (apply u64_small; unfold is_u64; lia).
  destruct (delete_above_run top (Z.to_nat (top + 1)) fuel (hc_db hc) (n + 1)) as (db1 & E1 & C1 & D1);
    [lia|unfold is_u64; lia|lia|lia|apply (ca_above _ _ _ Hca)| |].
  { intros m Hm. destruct (ca_linked _ _ _ Hca m ltac:(lia)) as (h & E & _). assert (Hum : is_u64 m) by (unfold is_u64; lia).
    by destruct (do_header _ _ Hdb _ _ _ Hum E) as (_ & _ & _ & Hz & _). }
  pose proof (canon_changed_same _ _ _ C1) as S1. set (hc1 := with_hc_db db1 hc).
  assert (Hdb1 : db_ok g (hc_db hc1)) by (by apply (db_ok_same_data _ _ S1)).
  assert (Hc1 : caches_ok hc1) by (by apply caches_ok_same_data).
  destruct (do_parent _ _ Hdb _ _ _ Hu ltac:(lia) Eh) as [[p Ep] _].
  destruct (hc_GetHeader_run g hc1 Hdb1 Hc1 (ParentHash header) (n - 1) Hu1) as (r & hc2 & Er & (D2 & S2) & Hc2 & _ & Hr).
  rewrite (Hr p) in Er by (cbn; by rewrite (same_data_header _ _ S1)). clear Hr.
  destruct (overwrite_run g fuel (ParentHash header) (n - 1) p hc2) as (hc3 & E3 & S3 & Hc3 & C3 & K3 & L3);
    rewrite ?D2; try done; [lia|cbn; by rewrite (same_data_header _ _ S1)|..].
  { cbn. rewrite (canon_changed_at _ _ _ _ C1); [by apply (canon_genesis g _ _ _ Hdb Hca)|unfold is_u64, MaxUint64; lia|lia]. }
  { intros m Hm. assert (Hum : is_u64 m) by (unfold is_u64; lia). cbn. rewrite (canon_changed_at _ _ _ _ C1) by (done || lia).
    intros Hm0. apply (linked_same_data _ _ S1); [intros m' Hm' H0'; apply (canon_changed_at _ _ _ _ C1); [unfold is_u64; lia|lia]|done|].
    apply (ca_linked _ _ _ Hca). destruct (Z.le_gt_cases m top); [lia|]. by rewrite (ca_above _ _ _ Hca m) in Hm0. }
  rewrite D2 in C3. cbn in C3. set (hash := Header_Hash header) in *.
  assert (S : same_data (hc_db hc) (hc_db hc3)) by (apply (same_data_trans _ db1); [done|by apply (canon_changed_same _ _ _ C3)]).
  pose proof (new_head_same_data (hc_db hc3) hash n Hu) as Sn.
  eexists. split; [|split; [|split; [|split; [|split; [|split]]]]].
  - unfold reroute. rewrite bind_gget, En1, (bind_glift _ _ _ _ E1), bind_gmodify, u64_small by done.
    rewrite (bind_run _ _ _ _ _ Er), (bind_run _ _ _ _ _ E3), bind_gmodify. reflexivity.
  - cbn. destruct S3 as [-> _]. by destruct S2 as [-> _].
  - done.
  - done.
  - cbn. by apply (same_data_trans _ (hc_db hc3)).
  - by apply caches_ok_with_head, caches_ok_same_data.
  - cbn. apply canon_extend; [done|by rewrite (same_data_header _ _ S)|done|done|].
    intros m Hm Hlt. rewrite (canon_changed_at _ _ _ _ C3) by (done || lia). apply D1; [done|lia].
Qed.

Lemma crit_run r hc db : r (hc_db hc) = Ret (Ok db) -> crit r hc = Ret (tt, with_hc_db db hc).
Proof. intros E. unfold crit. by rewrite bind_gget, (bind_glift _ _ _ _ E). Qed.

Lemma caches_ok_add_header hc n h : caches_ok hc -> is_u64 n -> GetHeader (hc_db hc) (Header_Hash h) n = Some h ->
  caches_ok (with_headerCache (lru_Add (headerCache hc) (Header_Hash h) h) hc).
Proof.
  intros [H1 H2 H3] Hn E. split; cbn; [|done|done]. intros k h' Hk%lru_Peek_Add.
  destruct (decide (k = Header_Hash h)) as [->|]; [subst; eauto|by apply H1].
Qed.

Lemma caches_ok_add_number hc hash n : caches_ok hc -> n <> missingNumber -> GetBlockNumber (hc_db hc) hash = n ->
  caches_ok (with_numberCache (lru_Add (numberCache hc) hash n) hc).
Proof.
  intros [H1 H2 H3] Hn E. split; cbn; [done|done|]. intros k m Hk%lru_Peek_Add.
  destruct (decide (k = hash)) as [->|]; [by subst|by apply H3].
Qed.

(** A header that was verified: its number is one above its parent's, if that is
    known, and it is not known itself. *)
Record acceptable (hc : HeaderChain) (header : Header) (n : Z) : Prop := {
  ac_ok : header_ok header;
  ac_number : header_number header = Ret n;
  ac_range : 0 < n < MaxUint64;
  ac_hash : Header_Hash header <> 0;
  ac_parent m p : is_u64 m -> GetHeader (hc_db hc) (ParentHash header) m = Some p -> m = n - 1;
  ac_new : HasHeader (Header_Hash header) n hc = false
}.

Lemma acceptable_fresh g hc header n : db_ok g (hc_db hc) -> acceptable hc header n ->
  forall m, is_u64 m -> GetHeader (hc_db hc) (Header_Hash header) m = None.
Proof.
  intros Hdb Ha m Hm. destruct (GetHeader (hc_db hc) (Header_Hash header) m) as [h|] eqn:E; [|done].
  destruct (do_header _ _ Hdb _ _ _ Hm E) as (_ & Eh%hash_inj & En & _). subst h.
  rewrite (ac_number _ _ _ Ha) in En. injection En as <-.
  pose proof (ac_new _ _ _ Ha) as Hn. unfold HasHeader in Hn. apply orb_false_iff in Hn as [_ Hk].
  rewrite kv_Has_Get in Hk. unfold GetHeader, stored, look in E. by destruct (kv_Get (hc_db hc) _).
Qed.

(** What is stored with a new header, and the caches around it. *)
Lemma store_header_run hc0 hc g header n d ptd :
  hc_db hc = hc_db hc0 -> db_ok g (hc_db hc) -> caches_ok hc -> acceptable hc0 header n -> Difficulty header = Some d ->
  GetTd (hc_db hc) (ParentHash header) (n - 1) = Some ptd ->
  exists db1 db2,
    let hc2 := with_hc_db db2 (with_tdCache (lru_Add (tdCache hc) (Header_Hash header) (d + ptd)) (with_hc_db db1 hc)) in
    hc_WriteTd (Header_Hash header) n (d + ptd) hc =
      Ret (tt, with_tdCache (lru_Add (tdCache hc) (Header_Hash header) (d + ptd)) (with_hc_db db1 hc)) /\
    WriteHeader db1 header = Ret (Ok db2) /\ added header n (d + ptd) (hc_db hc) db2 /\ db_ok g db2 /\ caches_ok hc2.
Proof.
  intros E0 Hdb Hc Ha Ed Hp. pose proof (ac_range _ _ _ Ha) as Hn. assert (Hu : is_u64 n) by (unfold is_u64; lia).
  assert (Hf : forall m, is_u64 m -> GetHeader (hc_db hc) (Header_Hash header) m = None).
  { rewrite E0 in *. by apply (acceptable_fresh g hc0 header n). }
  assert (Hd : 0 <= d + ptd).
  { destruct (ac_ok _ _ _ Ha) as (_ & (d' & E & Hd) & _). rewrite Ed in E. injection E as <-.
    assert (0 <= ptd) by (apply (do_td_pos _ _ Hdb (ParentHash header) (n - 1)); [unfold is_u64; lia|done]). lia. }
  destruct (write_header_added (hc_db hc) header n (d + ptd) (ac_ok _ _ _ Ha) (ac_number _ _ _ Ha) Hd) as (db1 & db2 & E1 & E2 & Had).
  exists db1, db2. split; [|split; [done|split; [done|split]]].
  - unfold hc_WriteTd. rewrite (bind_run _ _ _ _ _ (crit_run _ hc db1 (f_equal Ret E1))). done.
  - by apply (added_ok g header n d ptd (hc_db hc)); try apply Ha.
  - split; cbn.
    + intros k h Hk. destruct (co_header _ Hc _ _ Hk) as (m & Hm & Em). exists m. split; [done|].
      by apply (added_old_header header n d ptd (hc_db hc)).
    + intros k td Hk%lru_Peek_Add. destruct (decide (k = Header_Hash header)) as [->|Hne].
      * exists n. split; [done|]. rewrite (ad_td _ _ _ _ _ Had), decide_True by done. congruence.
      * destruct (co_td _ Hc _ _ Hk) as (m & Hm & Em). exists m. split; [done|].
        by apply (added_old_td g header n d ptd (hc_db hc)).
    + intros k m Hk. destruct (co_number _ Hc _ _ Hk) as [Hm Em]. split; [done|].
      rewrite (ad_number _ _ _ _ _ Had), decide_False; [done|]. intros ->.
      destruct (do_number _ _ Hdb (Header_Hash header)) as [Hun [h Eh]]; [congruence|]. by rewrite Hf in Eh.
Qed.

(** A side chain, or the new canonical one. *)
Definition wins (externTd localTd : Z) (coin : bool) : bool := (externTd >? localTd) || ((externTd =? localTd) && coin).

(** What writing an acceptable header does: it is refused when its parent is not
    known; otherwise it is stored with the sum of difficulties, and is the new head
    if it wins. *)
Inductive written (g : Header) (top : Z) (coin : bool) (header : Header) (n : Z) (hc : HeaderChain)
    : WriteStatus + ChainError -> HeaderChain -> Prop :=
| written_orphan hc' : (forall m, is_u64 m -> GetHeader (hc_db hc) (ParentHash header) m = None) ->
    same_chain hc hc' -> hc_ok g top hc' -> written g top coin header n hc (inr chain_ErrUnknownAncestor) hc'
| written_stored hc' db d ptd td (canonical := wins (d + ptd) td coin) : Difficulty header = Some d ->
    GetTd (hc_db hc) (ParentHash header) (n - 1) = Some ptd -> GetTd (hc_db hc) (currentHeaderHash hc) top = Some td ->
    added header n (d + ptd) (hc_db hc) db -> same_data db (hc_db hc') ->
    hc_ok g (if canonical then n else top) hc' -> currentHeader hc' = (if canonical then header else currentHeader hc) ->
    (canonical = false -> forall m, is_u64 m -> GetCanonicalHash (hc_db hc') m = GetCanonicalHash (hc_db hc) m) ->
    written g top coin header n hc (inl (if canonical then CanonStatTy else SideStatTy)) hc'.

(** The choice of the chain, once the header is stored. *)
Lemma choose_run g top fuel header n hc (canonical : bool) :
  hc_ok g top hc -> GetHeader (hc_db hc) (Header_Hash header) n = Some header -> 0 < n < MaxUint64 ->
  top < Z.of_nat fuel -> n <= Z.of_nat fuel ->
  exists hc', (if canonical then reroute fuel header n else mret tt) hc = Ret (tt, hc') /\
    same_data (hc_db hc) (hc_db hc') /\ hc_ok g (if canonical then n else top) hc' /\
    currentHeader hc' = (if canonical then header else currentHeader hc) /\ (canonical = false -> hc_db hc' = hc_db hc).
Proof.
  intros Hok Eh Hn Hf1 Hf2. destruct canonical.
  - destruct (reroute_run g top fuel header n hc (ho_db _ _ _ Hok) (ho_caches _ _ _ Hok) (ho_canon _ _ _ Hok) Eh Hn Hf1 Hf2)
      as (hc' & E & G & C & H & S & Hc & Hca).
    exists hc'. split; [done|]. split; [done|]. split; [|done].
    split; [by rewrite G; apply Hok|by apply (db_ok_same_data _ _ S), Hok|by rewrite C|by rewrite H, C|done].
  - exists hc. by split_and!.
Qed.

Lemma hc_WriteHeader_run g top fuel coin header n hc :
  hc_ok g top hc -> acceptable hc header n -> top < Z.of_nat fuel -> n <= Z.of_nat fuel ->
  exists r hc', hc_WriteHeader fuel coin header hc = Ret (r, hc') /\ written g top coin header n hc r hc'.
Proof.
  intros [Hg Hdb Hca Hhash Hc] Ha Hf1 Hf2. pose proof (ac_range _ _ _ Ha) as Hn.
  assert (Hu : is_u64 n) by (unfold is_u64; lia). assert (Hu1 : is_u64 (n - 1)) by (unfold is_u64; lia).
  unfold hc_WriteHeader. rewrite (bind_glift _ _ _ _ (ac_number _ _ _ Ha)), u64_small by done.
  destruct (hc_GetTd_run g hc Hdb Hc (ParentHash header) (n - 1) Hu1) as (r & hc1 & Er & S1 & Hc1 & Hr1 & Hr2).
  rewrite (bind_run _ _ _ _ _ Er). destruct r as [ptd|].
  2:{ eexists _, _. split; [done|]. apply written_orphan; [|done|by apply (hc_ok_same g top hc)].
      intros m Hm. destruct (GetHeader (hc_db hc) (ParentHash header) m) as [p|] eqn:Ep; [|done].
      pose proof (ac_parent _ _ _ Ha m p Hm Ep) as ->. destruct (header_td g _ Hdb _ _ _ Hm Ep) as (td & Etd & _).
      by specialize (Hr2 _ Etd). }
  destruct (Hr1 ptd eq_refl) as (m & Hm & Em). destruct (td_header g _ Hdb _ _ _ Hm Em) as [p Ep].
  pose proof (ac_parent _ _ _ Ha m p Hm Ep) as ->. clear Hr1 Hr2 Hm Er.
  rewrite bind_gget. destruct S1 as (D1 & G1 & C1 & H1).
  destruct (do_header _ _ Hdb _ _ _ (ca_top _ _ _ Hca) (ca_head _ _ _ Hca)) as (_ & _ & Ecur & _).
  rewrite C1, H1, (bind_glift _ _ _ _ Ecur).
  destruct (hc_GetTd_run g hc1 ltac:(by rewrite D1) Hc1 (currentHeaderHash hc) top (ca_top _ _ _ Hca)) as (r & hc2 & Er & S2 & Hc2 & _ & Hr).
  destruct (header_td g _ Hdb _ _ _ (ca_top _ _ _ Hca) (ca_head _ _ _ Hca)) as (td & Etd & _). rewrite <- Hhash in Etd.
  rewrite (Hr td) in Er by (by rewrite D1). rewrite (bind_run _ _ _ _ _ Er). clear Hr Er.
  destruct (ac_ok _ _ _ Ha) as (_ & (d & Ed & _) & _). rewrite Ed.
  destruct S2 as (D2 & G2 & C2 & H2). rewrite D1 in D2.
  destruct (store_header_run hc hc2 g header n d ptd) as (db1 & db2 & E1 & E2 & Had & Hdb2 & Hc3); [done|by rewrite D2|done|done|done|by rewrite D2|].
  cbn zeta in Hc3. rewrite (bind_run _ _ _ _ _ E1). erewrite bind_run by (apply (crit_run (fun db => WriteHeader db header)); exact E2).
  rewrite D2 in Had. set (hc3 := with_hc_db db2 _) in *.
  pose proof (acceptable_fresh g hc header n Hdb Ha) as Hf.
  assert (Hok3 : hc_ok g top hc3).
  { split; cbn; [congruence|done| |congruence|done]. rewrite C2, C1.
    by apply (added_canon header n d ptd (hc_db hc)). }
  fold (wins (d + ptd) td coin). set (canonical := wins (d + ptd) td coin).
  destruct (choose_run g top fuel header n hc3 canonical Hok3) as (hc4 & E4 & S4 & Hok4 & C4 & K4); [|done..|].
  { cbn. rewrite (ad_header _ _ _ _ _ Had), decide_True by done. done. }
  rewrite (bind_run _ _ _ _ _ E4), bind_gmodify, bind_gmodify.
  eexists _, _. split; [reflexivity|].
  apply (written_stored g top coin header n hc _ db2 d ptd td); try done; fold canonical.
  - apply (hc_ok_same _ _ hc4); [done|done|].
    assert (E5 : GetHeader (hc_db hc4) (Header_Hash header) n = Some header).
    { rewrite (same_data_header _ _ S4) by done. cbn. by rewrite (ad_header _ _ _ _ _ Had), decide_True. }
    apply caches_ok_add_number; [by apply (caches_ok_add_header _ n); [apply Hok4| |]|unfold missingNumber; lia|].
    cbn. rewrite (same_data_number _ _ S4). cbn. by rewrite (ad_number _ _ _ _ _ Had), decide_True.
  - cbn. rewrite C4. cbn. by rewrite C2, C1.
  - intros Hcf m Hm. cbn. rewrite (K4 Hcf). cbn. by apply (added_canonical _ _ _ _ _ _ Had).
Qed.

(** ** The heaviest chain *)
Lemma written_heaviest g top coin header n hc r hc' :
  hc_ok g top hc -> acceptable hc header n -> heaviest hc top -> written g top coin header n hc r hc' ->
  exists top', hc_ok g top' hc' /\ heaviest hc' top'.
Proof.
  intros Hok Ha Hh Hw. assert (Hu : is_u64 n) by (pose proof (ac_range _ _ _ Ha); unfold is_u64; lia).
  destruct Hw as [hc' _ (D & _ & _ & H) Hok'|hc' db d ptd td canonical Ed Ep Et Had Hs Hok' Hcur _].
  - exists top. split; [done|]. unfold heaviest. by rewrite D, H.
  - eexists. split; [exact Hok'|]. pose proof (ca_top _ _ _ (ho_canon _ _ _ Hok)) as Hut.
    intros td1 E1 hash m td2 Hm E2. rewrite (same_data_td _ _ Hs), (ad_td _ _ _ _ _ Had) in E2 by done.
    assert (E2' : td2 <= Z.max td (d + ptd)).
    { destruct (decide _) in E2; [injection E2 as <-; lia|]. pose proof (Hh td Et hash m td2 Hm E2). lia. }
    enough (E1' : td1 = if canonical then d + ptd else td).
    { unfold canonical, wins in E1'. destruct (Z.gtb_spec (d + ptd) td), (Z.eqb_spec (d + ptd) td), coin; cbn in E1'; lia. }
    rewrite (ho_hash _ _ _ Hok'), Hcur in E1. destruct canonical.
    + rewrite (same_data_td _ _ Hs), (ad_td _ _ _ _ _ Had), decide_True in E1 by done. congruence.
    + rewrite <- (ho_hash _ _ _ Hok), (same_data_td _ _ Hs) in E1 by done.
      rewrite (added_old_td g header n d ptd (hc_db hc) db (ho_db _ _ _ Hok)) with (td := td) in E1; try done; [congruence|].
      by apply (acceptable_fresh g hc header n (ho_db _ _ _ Hok)).
Qed.

(** A store with nothing but the genesis header. *)
Record genesis_db (g : Header) (db : KV) : Prop := {
  gd_ok : db_ok g db;
  gd_only hash n h : is_u64 n -> GetHeader db hash n = Some h -> n = 0;
  gd_canon : GetCanonicalHash db 0 = Header_Hash g;
  gd_above n : is_u64 n -> 0 < n -> GetCanonicalHash db n = 0;
  gd_head : GetHeadBlockHash db = 0 \/ GetHeadBlockHash db = Header_Hash g
}.

(** The header chains of a node that starts with a genesis header and is given
    verified headers; other components look things up in between. *)
Inductive hc_reachable (g : Header) : HeaderChain -> Prop :=
| hr_new db hc : genesis_db g db -> NewHeaderChain db = Ret (inl hc) -> hc_reachable g hc
| hr_write fuel coin header n top r hc hc' : hc_reachable g hc -> acceptable hc header n ->
    header_number (currentHeader hc) = Ret top -> top < Z.of_nat fuel -> n <= Z.of_nat fuel ->
    hc_WriteHeader fuel coin header hc = Ret (r, hc') -> hc_reachable g hc'
| hr_header hash n r hc hc' : hc_reachable g hc -> is_u64 n -> hc_GetHeader hash n hc = Ret (r, hc') -> hc_reachable g hc'
| hr_td hash n r hc hc' : hc_reachable g hc -> is_u64 n -> hc_GetTd hash n hc = Ret (r, hc') -> hc_reachable g hc'
| hr_number hash r hc hc' : hc_reachable g hc -> hc_GetBlockNumber hash hc = Ret (r, hc') -> hc_reachable g hc'.

Lemma NewHeaderChain_run g db : genesis_db g db ->
  exists hc, NewHeaderChain db = Ret (inl hc) /\ hc_ok g 0 hc /\ heaviest hc 0.
Proof.
  intros [Hdb Honly Hca Hab Hhead]. assert (Z0 : is_u64 0) by (unfold is_u64, MaxUint64; lia).
  pose proof (do_root _ _ Hdb) as Er. destruct (do_header _ _ Hdb _ _ _ Z0 Er) as (_ & _ & _ & Hz & _ & En).
  assert (Hcanon : canon_ok db g 0).
  { split; [done|done|done| |done]. intros n Hn. replace n with 0 by lia. exists g. by rewrite Hca. }
  set (hc0 := mkHeaderChain db g g (Header_Hash g) (lru_New headerCacheLimit) (lru_New tdCacheLimit) (lru_New numberCacheLimit)).
  assert (Hc0 : caches_ok hc0) by (split; cbn; intros ? ?; by rewrite lru_Peek_New).
  pose proof (caches_ok_add_header hc0 0 g Hc0 Z0 Er) as Hc. cbn [headerCache hc0] in Hc.
  set (hc := with_headerCache _ hc0) in Hc.
  assert (Hok : hc_ok g 0 hc) by (split; done).
  assert (Hbest : forall h, heaviest (with_head h (Header_Hash g) hc) 0).
  { intros h td E hash n td' Hn E'. cbn in E, E'. destruct (td_header g db Hdb _ _ _ Hn E') as [h' Eh'].
    pose proof (Honly _ _ _ Hn Eh') as ->. destruct (do_header _ _ Hdb _ _ _ Z0 Eh') as (_ & <- & _).
    rewrite (do_genesis _ _ Hdb _ _ Eh') in E'. rewrite E in E'. injection E' as <-. lia. }
  unfold NewHeaderChain. rewrite Hca. destruct (Z.eqb_spec (Header_Hash g) 0); [done|]. rewrite Er. fold hc.
  destruct Hhead as [->|Eh]; [exists hc; split; [done|]; split; [done|]; exact (Hbest g)|].
  rewrite Eh. destruct (Z.eqb_spec (Header_Hash g) 0); [done|].
  destruct (hc_GetBlockNumber_run hc Hc (Header_Hash g)) as (hc1 & E1 & S1 & Hc1).
  destruct S1 as (D1 & G1 & C1 & H1).
  destruct (hc_GetHeader_run g hc1 ltac:(by rewrite D1) Hc1 (Header_Hash g) 0 Z0) as (r & hc2 & E2 & (D2 & G2 & C2 & H2) & Hc2 & _ & Hr).
  rewrite (Hr g) in E2 by (by rewrite D1). unfold GetHeaderByHash. rewrite (bind_run _ _ _ _ _ E1). change (hc_db hc) with db.
  rewrite En, E2. eexists. split; [done|]. rewrite D1 in D2. split.
  - apply (hc_ok_same g 0 hc); [done| |by apply caches_ok_with_head]. split_and!; [done|by rewrite <- G1, <- G2|done|done].
  - unfold heaviest. cbn. rewrite D2. exact (Hbest g).
Qed.

Lemma hc_reachable_ok g hc : hc_reachable g hc -> exists top, hc_ok g top hc /\ heaviest hc top.
Proof.
  induction 1 as [db hc Hg E|fuel coin header n top r hc hc' _ (top' & Hok & Hh) Ha Et Hf1 Hf2 E
    |hash n r hc hc' _ (top & Hok & Hh) Hn E|hash n r hc hc' _ (top & Hok & Hh) Hn E|hash r hc hc' _ (top & Hok & Hh) E].
  - destruct (NewHeaderChain_run g db Hg) as (hc' & E' & Hok & Hh). rewrite E in E'. injection E' as <-. eauto.
  - destruct (do_header _ _ (ho_db _ _ _ Hok) _ _ _ (ca_top _ _ _ (ho_canon _ _ _ Hok)) (ca_head _ _ _ (ho_canon _ _ _ Hok)))
      as (_ & _ & Et' & _). rewrite Et in Et'. injection Et' as <-.
    destruct (hc_WriteHeader_run g top fuel coin header n hc Hok Ha Hf1 Hf2) as (r' & hc'' & E' & Hw).
    rewrite E in E'. injection E' as <- <-. by apply (written_heaviest g top coin header n hc r).
  - destruct (hc_GetHeader_run g hc (ho_db _ _ _ Hok) (ho_caches _ _ _ Hok) hash n Hn) as (r' & hc'' & E' & S & Hc & _).
    rewrite E in E'. injection E' as <- <-. exists top. split; [by apply (hc_ok_same g top hc)|].
    unfold heaviest. by destruct S as (-> & _ & _ & ->).
  - destruct (hc_GetTd_run g hc (ho_db _ _ _ Hok) (ho_caches _ _ _ Hok) hash n Hn) as (r' & hc'' & E' & S & Hc & _).
    rewrite E in E'. injection E' as <- <-. exists top. split; [by apply (hc_ok_same g top hc)|].
    unfold heaviest. by destruct S as (-> & _ & _ & ->).
  - destruct (hc_GetBlockNumber_run hc (ho_caches _ _ _ Hok) hash) as (hc'' & E' & S & Hc).
    rewrite E in E'. injection E' as _ <-. exists top. split; [by apply (hc_ok_same g top hc)|].
    unfold heaviest. by destruct S as (-> & _ & _ & ->).
Qed.

(** C20. The canonical chain is the heaviest one known.  In every header chain that
    starts from a genesis header and is given verified headers, in any order, the
    canonical numbers run from zero to the number of the current header and no
    further; each has a stored header whose parent is the canonical header before
    it, the last being the current one; and no stored header has a larger total
    difficulty than the current one. *)
Theorem canonical_heaviest g hc : hc_reachable g hc ->
  exists top td, header_number (currentHeader hc) = Ret top /\
    GetCanonicalHash (hc_db hc) top = Header_Hash (currentHeader hc) /\
    (forall n, 0 <= n <= top -> exists h, GetHeader (hc_db hc) (GetCanonicalHash (hc_db hc) n) n = Some h /\
       (n <> 0 -> ParentHash h = GetCanonicalHash (hc_db hc) (n - 1))) /\
    (forall n, is_u64 n -> top < n -> GetCanonicalHash (hc_db hc) n = 0) /\
    GetTd (hc_db hc) (Header_Hash (currentHeader hc)) top = Some td /\
    forall hash n td', is_u64 n -> GetTd (hc_db hc) hash n = Some td' -> td' <= td.
Proof.
  intros (top & Hok & Hh)%hc_reachable_ok. pose proof (ho_canon _ _ _ Hok) as Hca.
  destruct (do_header _ _ (ho_db _ _ _ Hok) _ _ _ (ca_top _ _ _ Hca) (ca_head _ _ _ Hca)) as (_ & _ & En & _).
  destruct (header_td g _ (ho_db _ _ _ Hok) _ _ _ (ca_top _ _ _ Hca) (ca_head _ _ _ Hca)) as (td & Etd & _).
  exists top, td. split; [done|]. split; [apply Hca|]. split; [apply Hca|]. split; [apply Hca|]. split; [done|].
  rewrite <- (ho_hash _ _ _ Hok) in Etd. by apply Hh.
Qed.

(** ** Many headers *)
Definition good_header (h : Header) : Prop :=
  header_ok h /\ Header_Hash h <> 0 /\ forall n, header_number h = Ret n -> 0 < n < MaxUint64.

Lemma HasHeader_known g top hc hash n h : hc_ok g top hc -> header_number h = Ret n -> is_u64 n -> Header_Hash h = hash ->
  HasHeader hash n hc = true -> GetHeader (hc_db hc) hash n = Some h.
Proof.
  intros Hok En Hn Eh Hh. pose proof (ho_caches _ _ _ Hok) as Hc. pose proof (ho_db _ _ _ Hok) as Hdb.
  assert (G : exists m h', is_u64 m /\ GetHeader (hc_db hc) hash m = Some h').
  { unfold HasHeader in Hh. apply orb_true_iff in Hh as [Hh|Hh]; [apply orb_true_iff in Hh as [Hh|Hh]|].
    - rewrite lru_Contains_Peek in Hh. destruct (lru_Peek (numberCache hc) hash) as [m|] eqn:E; [|done].
      destruct (co_number _ Hc _ _ E) as [Hm Em]. destruct (do_number _ _ Hdb hash) as [Hu [h' Eh']]; [congruence|]. eauto.
    - rewrite lru_Contains_Peek in Hh. destruct (lru_Peek (headerCache hc) hash) as [h'|] eqn:E; [|done].
      destruct (co_header _ Hc _ _ E) as (m & Hm & Em). eauto.
    - rewrite kv_Has_Get in Hh. destruct (do_has _ _ Hdb hash n Hn) as [h' Eh']; [|eauto].
      unfold look. destruct (kv_Get (hc_db hc) (key (HeaderKey hash n))); [eauto|done]. }
  destruct G as (m & h' & Hm & Em). destruct (do_header _ _ Hdb _ _ _ Hm Em) as (_ & E & En' & _).
  rewrite <- Eh in E. apply hash_inj in E as ->. rewrite En in En'. by injection En' as ->.
Qed.

(** What was stored stays. *)
Lemma written_keeps g top coin header n hc r hc' hash m h :
  hc_ok g top hc -> acceptable hc header n -> written g top coin header n hc r hc' ->
  is_u64 m -> GetHeader (hc_db hc) hash m = Some h -> GetHeader (hc_db hc') hash m = Some h.
Proof.
  intros Hok Ha Hw Hm E. destruct Hw as [hc' _ (D & _) _|hc' db d ptd td canonical Ed Ep Et Had Hs _ _ _]; [by rewrite D|].
  rewrite (same_data_header _ _ Hs) by done. apply (added_old_header header n d ptd (hc_db hc)); try done.
  by apply (acceptable_fresh g hc header n (ho_db _ _ _ Hok)).
Qed.

Lemma reachable_top g hc top : hc_reachable g hc -> header_number (currentHeader hc) = Ret top -> hc_ok g top hc.
Proof.
  intros (top' & Hok & _)%hc_reachable_ok E.
  destruct (do_header _ _ (ho_db _ _ _ Hok) _ _ _ (ca_top _ _ _ (ho_canon _ _ _ Hok)) (ca_head _ _ _ (ho_canon _ _ _ Hok))) as (_ & _ & E' & _).
  rewrite E in E'. by injection E' as <-.
Qed.

Lemma insert_header_run g top fuel coin hc prev h m :
  hc_reachable g hc -> header_number (currentHeader hc) = Ret top -> top < Z.of_nat fuel -> m + 1 < Z.of_nat fuel ->
  good_header h -> header_number prev = Ret m -> GetHeader (hc_db hc) (Header_Hash prev) m = Some prev -> is_u64 m ->
  header_number h = Ret (m + 1) -> ParentHash h = Header_Hash prev -> HasHeader (Header_Hash h) (m + 1) hc = false ->
  exists st hc' top', hc_WriteHeader fuel coin h hc = Ret (inl st, hc') /\ hc_reachable g hc' /\
    header_number (currentHeader hc') = Ret top' /\ top' < Z.of_nat fuel /\ GetHeader (hc_db hc') (Header_Hash h) (m + 1) = Some h /\
    forall hash n x, is_u64 n -> GetHeader (hc_db hc) hash n = Some x -> GetHeader (hc_db hc') hash n = Some x.
Proof.
  intros Hr Et Hf1 Hf2 (Hh & Hz & Hb) Em Ep Hm En Epar Hnew. pose proof (reachable_top _ _ _ Hr Et) as Hok.
  specialize (Hb _ En). pose proof (ho_db _ _ _ Hok) as Hdb.
  assert (Ha : acceptable hc h (m + 1)).
  { split; try done. intros k p Hk Epk. rewrite Epar in Epk. destruct (header_unique g _ Hdb _ _ _ _ _ Hm Hk Ep Epk) as [<- _]. lia. }
  destruct (hc_WriteHeader_run g top fuel coin h (m + 1) hc Hok Ha Hf1 ltac:(lia)) as (r & hc' & E & Hw).
  assert (Hr' : hc_reachable g hc') by (eapply (hr_write g fuel coin h (m + 1) top); eauto; lia).
  destruct (hc_reachable_ok _ _ Hr') as (top' & Hok' & _). pose proof (ho_canon _ _ _ Hok') as Hca.
  destruct (do_header _ _ (ho_db _ _ _ Hok') _ _ _ (ca_top _ _ _ Hca) (ca_head _ _ _ Hca)) as (_ & _ & Et' & _).
  pose proof (fun hash n x => written_keeps g top coin h (m + 1) hc r hc' hash n x Hok Ha Hw) as Hk.
  destruct Hw as [hc' Ho _ _|hc' db d ptd td canonical Ed Eptd Etd Had Hs Hokc Hcur _].
  - rewrite <- Epar, Ho in Ep; done.
  - exists (if canonical then CanonStatTy else SideStatTy), hc', top'. split; [done|]. split; [done|]. split; [done|]. split; [|split; [|done]].
    + rewrite Hcur in Et'. destruct canonical; rewrite ?En, ?Et in Et'; injection Et' as <-; lia.
    + rewrite (same_data_header _ _ Hs), (ad_header _ _ _ _ _ Had), decide_True by (done || unfold is_u64; lia). done.
Qed.

Lemma insert_headers_run g fuel coins : forall chain i hc prev m top,
  hc_reachable g hc -> header_number (currentHeader hc) = Ret top -> top < Z.of_nat fuel -> m + Z.of_nat (length chain) < Z.of_nat fuel ->
  Forall good_header chain -> contiguous prev chain = Ret true ->
  header_number prev = Ret m -> GetHeader (hc_db hc) (Header_Hash prev) m = Some prev -> is_u64 m ->
  exists hc', insert_headers fuel coins (fun _ => false) i chain hc = Ret (inl tt, hc') /\ hc_reachable g hc' /\
    (forall h, h ∈ chain -> exists n, GetHeader (hc_db hc') (Header_Hash h) n = Some h) /\
    forall hash n x, is_u64 n -> GetHeader (hc_db hc) hash n = Some x -> GetHeader (hc_db hc') hash n = Some x.
Proof.
  induction chain as [|h chain IH]; intros i hc prev m top Hr Et Hf1 Hf2 Hg Hcont Em Ep Hm; cbn [insert_headers].
  { exists hc. split; [done|]. split; [done|]. split; [|done]. intros h Hh. by apply elem_of_nil in Hh. }
  inversion Hg as [|? ? Hgh Hg']; subst. cbn [contiguous] in Hcont. destruct Hgh as (Hh & Hz & Hb).
  destruct (header_ok_number h Hh) as (n & _ & Hn & En). rewrite En, Em in Hcont. cbn [mbind outcome_bind] in Hcont.
  destruct (Z.eqb_spec n (u64 (m + 1))) as [E1|]; [|done]. destruct (Z.eqb_spec (ParentHash h) (Header_Hash prev)) as [Epar|]; [|done].
  cbn [negb orb] in Hcont. pose proof (reachable_top _ _ _ Hr Et) as Hok.
  destruct (do_header _ _ (ho_db _ _ _ Hok) _ _ _ Hm Ep) as (_ & _ & _ & _ & Hlt & _).
  rewrite u64_small in E1 by (unfold is_u64 in *; lia). subst n. cbn [length] in Hf2.
  rewrite bind_gget, (bind_glift _ _ _ _ En). destruct (HasHeader (Header_Hash h) (m + 1) hc) eqn:Hk.
  - pose proof (HasHeader_known g top hc _ _ h Hok En Hn eq_refl Hk) as Ek.
    destruct (IH (S i) hc h (m + 1) top) as (hc' & E & Hr' & Hin & Hkeep); try done; [lia|].
    exists hc'. split; [done|]. split; [done|]. split; [|done]. intros x [->|Hx]%elem_of_cons; [eauto|by apply Hin].
  - destruct (insert_header_run g top fuel (coins i) hc prev h m) as (st & hc1 & top1 & E1 & Hr1 & Et1 & Hf & Eh1 & Hkeep1); try done; [lia|].
    rewrite (bind_run _ _ _ _ _ E1).
    destruct (IH (S i) hc1 h (m + 1) top1) as (hc' & E & Hr' & Hin & Hkeep); try done; [lia|].
    exists hc'. split; [done|]. split; [done|]. split; [|by eauto]. intros x [->|Hx]%elem_of_cons; [eauto|by apply Hin].
Qed.

(** A verified chain of headers that starts on a known header is imported as a
    whole: no header of it is refused, whatever of it is known already and however
    ties are decided, all of them are stored, what was stored before stays, and the
    heaviest of all chains is canonical afterwards. *)
Theorem InsertHeaderChain_imports g fuel coins hc parent m top chain :
  hc_reachable g hc -> header_number (currentHeader hc) = Ret top ->
  GetHeader (hc_db hc) (Header_Hash parent) m = Some parent -> header_number parent = Ret m -> is_u64 m ->
  contiguous parent chain = Ret true -> Forall good_header chain -> chain <> [] ->
  top < Z.of_nat fuel -> m + Z.of_nat (length chain) < Z.of_nat fuel ->
  exists hc', hc_InsertHeaderChain fuel coins (fun _ => false) chain hc = Ret (inl tt, hc') /\ hc_reachable g hc' /\
    (forall h, h ∈ chain -> exists n, GetHeader (hc_db hc') (Header_Hash h) n = Some h) /\
    forall hash n h, is_u64 n -> GetHeader (hc_db hc) hash n = Some h -> GetHeader (hc_db hc') hash n = Some h.
Proof.
  intros Hr Et Ep Em Hm Hcont Hg Hne Hf1 Hf2.
  destruct (insert_headers_run g fuel coins chain 0 hc parent m top) as (hc' & E & H1 & H2 & H3); try done.
  exists hc'. split; [|done]. unfold hc_InsertHeaderChain. rewrite (bind_run _ _ _ _ _ E). by destruct chain.
Qed.

End header_chain.
