(* ===== verification/HeaderChainHead.v ===== *)
(** * Theorems on the rewinding of the header chain

    [SetHead] ends with the canonical chain cut at the number that is asked for and
    deletes the headers of that chain above it, and no others. *)
From S2P Require Import Prelude GoMonad Fmt Clique ChainDb ChainDbProps HeaderChain HeaderChainProps.
Local Open Scope Z_scope.

Section header_chain.
Context {KL : KvLib} {KLaws : KvLaws} {HL : HashLib} {HLaws : HashLaws} {CL : CliqueLib} {CLaws : HeaderLaws}
  {LL : LruLib} {LLaws : LruLaws} {RH : RLP Header} {RZ : RLP Z}
  {LH : RLPLaws Header header_ok} {LZ : RLPLaws Z (fun z => 0 <= z)}.

(** What the callback of a rewind may not touch. *)
Definition is_chain (k : Key) : Prop := match k with HeaderKey _ _ | CanonicalKey _ => True | _ => False end.

Definition keeps_chain (f : KV -> KV) : Prop := forall db k, key_ok k -> is_chain k -> look (f db) k = look db k.

(** The callback of the block chain deletes bodies. *)
Lemma DeleteBody_keeps hash n : is_u64 n -> keeps_chain (fun db => DeleteBody db hash n).
Proof. intros Hn db k Hk Hc. unfold DeleteBody. rewrite look_drop, decide_False; [done|by intros ->|done|done]. Qed.

(** The headers of the canonical chain above [k] are gone. *)
Record rolled (k : Z) (db db' : KV) : Prop := {
  ro_header hash n : is_u64 n ->
    GetHeader db' hash n = if decide (k < n /\ hash = GetCanonicalHash db n) then None else GetHeader db hash n;
  ro_canon n : is_u64 n -> GetCanonicalHash db' n = GetCanonicalHash db n
}.

Lemma keeps_header f db hash n : keeps_chain f -> is_u64 n -> GetHeader (f db) hash n = GetHeader db hash n.
Proof. intros Hf Hn. unfold GetHeader, stored. by rewrite (Hf db (HeaderKey hash n) Hn I). Qed.

Lemma keeps_canonical f db n : keeps_chain f -> is_u64 n -> GetCanonicalHash (f db) n = GetCanonicalHash db n.
Proof. intros Hf Hn. unfold GetCanonicalHash, stored_hash. by rewrite (Hf db (CanonicalKey n) Hn I). Qed.

Lemma GetHeader_deleted db hash n hash' m : is_u64 n -> is_u64 m ->
  GetHeader (DeleteTd (DeleteHeader db hash n) hash n) hash' m = if decide (hash' = hash /\ m = n) then None else GetHeader db hash' m.
Proof.
  intros Hn Hm. unfold GetHeader, stored, DeleteTd, DeleteHeader. rewrite look_drop, decide_False by done.
  rewrite look_drop by done. case_decide as E; [injection E as -> ->; by rewrite decide_True|].
  rewrite look_drop, decide_False by done. rewrite decide_False; [done|]. intros [-> ->]. done.
Qed.

Lemma GetCanonicalHash_deleted db hash n m : is_u64 n -> is_u64 m ->
  GetCanonicalHash (DeleteTd (DeleteHeader db hash n) hash n) m = GetCanonicalHash db m.
Proof.
  intros Hn Hm. unfold GetCanonicalHash, stored_hash, DeleteTd, DeleteHeader. rewrite !look_drop by done.
  by rewrite !decide_False by done.
Qed.

Lemma rolled_step k db db' f : rolled k db db' -> keeps_chain f -> is_u64 k ->
  rolled (k - 1) db (DeleteTd (DeleteHeader (f db') (GetCanonicalHash db k) k) (GetCanonicalHash db k) k).
Proof.
  intros [Hh Hc] Hf Hk. split.
  - intros hash n Hn. rewrite GetHeader_deleted, keeps_header, Hh by done. destruct (decide (hash = _ /\ n = k)) as [[-> ->]|Hne].
    + by rewrite decide_True by (split; [lia|done]).
    + destruct (decide (k < n /\ hash = GetCanonicalHash db n)) as [[Hlt E]|Hk1].
      * by rewrite decide_True by (split; [lia|done]).
      * rewrite decide_False; [done|]. intros [Hlt E]. destruct (Z.eq_dec n k) as [->|]; [by apply Hne|]. apply Hk1. split; [lia|done].
  - intros n Hn. by rewrite GetCanonicalHash_deleted, keeps_canonical, Hc.
Qed.

Section rewind.
Context (g : Header) (top : Z) (hc0 : HeaderChain) (Hok : hc_ok g top hc0) (delFn : Hash -> Z -> KV -> KV)
  (Hdel : forall hash n, is_u64 n -> keeps_chain (delFn hash n)).

(** The cache has headers of the chain as it was. *)
Definition old_cache (hc : HeaderChain) : Prop :=
  forall hash h, lru_Peek (headerCache hc) hash = Some h -> exists n, is_u64 n /\ GetHeader (hc_db hc0) hash n = Some h.

(** The parent of a canonical header is found, cached or not. *)
Lemma rewind_parent k h hc : rolled (k - 1) (hc_db hc0) (hc_db hc) -> old_cache hc -> 0 < k <= top ->
  GetHeader (hc_db hc0) (GetCanonicalHash (hc_db hc0) k) k = Some h ->
  exists p hc', hc_GetHeader (ParentHash h) (k - 1) hc = Ret (Some p, hc') /\
    GetHeader (hc_db hc0) (GetCanonicalHash (hc_db hc0) (k - 1)) (k - 1) = Some p /\ hc_db hc' = hc_db hc /\
    same_head hc hc' /\ old_cache hc'.
Proof.
  intros Hr Hold Hk Eh. destruct Hok as [_ Hdb Hca _ _].
  assert (Hk1 : is_u64 (k - 1)) by (pose proof (ca_top _ _ _ Hca) as Hu; unfold is_u64 in *; lia).
  destruct (ca_linked _ _ _ Hca k ltac:(lia)) as (h' & Eh' & Hp). rewrite Eh in Eh'. injection Eh' as <-.
  specialize (Hp ltac:(lia)). destruct (ca_linked _ _ _ Hca (k - 1) ltac:(lia)) as (p & Ep & _).
  assert (Ep' : GetHeader (hc_db hc) (ParentHash h) (k - 1) = Some p).
  { rewrite (ro_header _ _ _ Hr), decide_False, Hp by (done || lia). done. }
  destruct (cached_run headerCache with_headerCache (ParentHash h) (fun db => GetHeader db (ParentHash h) (k - 1)) hc) as (c & E & Hc); [done..|].
  exists p, (with_headerCache c hc). unfold hc_GetHeader. rewrite E, Ep'. split; [|split; [done|]].
  - destruct (lru_Peek (headerCache hc) (ParentHash h)) as [p'|] eqn:El; [|done].
    destruct (Hold _ _ El) as (m & Hm & Em). rewrite Hp in Em.
    by destruct (header_unique g _ Hdb _ _ _ _ _ Hk1 Hm Ep Em) as [_ ->].
  - split; [done|]. split; [done|]. intros hash x Hx. destruct (Hc hash x Hx) as [Hx'|[-> Ex]]; [by apply Hold|].
    rewrite Ep' in Ex. injection Ex as <-. exists (k - 1). by rewrite Hp.
Qed.

Lemma rewind_run head : 0 <= head -> forall fuel k h hc, rolled k (hc_db hc0) (hc_db hc) -> old_cache hc -> 0 <= k <= top ->
  GetHeader (hc_db hc0) (GetCanonicalHash (hc_db hc0) k) k = Some h -> k <= head + Z.of_nat fuel ->
  exists h' hc', rewind fuel delFn head (Some h) hc = Ret (Some h', hc') /\ rolled (Z.min k head) (hc_db hc0) (hc_db hc') /\
    same_head hc hc' /\ GetHeader (hc_db hc0) (GetCanonicalHash (hc_db hc0) (Z.min k head)) (Z.min k head) = Some h'.
Proof.
  intros Hhead fuel. induction fuel as [|fuel IH]; intros k h hc Hr Hold Hk Eh Hf.
  all: assert (Hu : is_u64 k) by (pose proof (ca_top _ _ _ (ho_canon _ _ _ Hok)) as Hu; unfold is_u64 in *; lia).
  all: destruct (do_header _ _ (ho_db _ _ _ Hok) _ _ _ Hu Eh) as (_ & Ehash & En & _).
  all: cbn [rewind]; rewrite (bind_glift _ _ _ _ En), Z.gtb_ltb; destruct (Z.ltb_spec head k); [|exists h, hc; rewrite Z.min_l by lia; done].
  - lia.
  - rewrite Ehash, bind_gmodify, u64_small by (unfold is_u64 in *; lia).
    pose proof (rolled_step _ _ _ _ Hr (Hdel (GetCanonicalHash (hc_db hc0) k) k Hu) Hu) as Hr1.
    match goal with |- context [(_ ≫= _) ?s] => set (hc1 := s) end.
    destruct (rewind_parent k h hc1 Hr1 Hold ltac:(lia) Eh) as (p & hc2 & E2 & Ep & Ed & Hs & Hold2).
    rewrite (bind_run _ _ _ _ _ E2). assert (Hr2 : rolled (k - 1) (hc_db hc0) (hc_db hc2)) by (rewrite Ed; exact Hr1).
    destruct (IH (k - 1) p hc2 Hr2 Hold2 ltac:(lia) Ep ltac:(lia)) as (h' & hc' & E' & Hr' & Hs' & Eh').
    replace (Z.min (k - 1) head) with (Z.min k head) in * by lia. exists h', hc'. split; [done|]. split; [done|]. split; [|done].
    by apply (same_head_trans hc hc1), (same_head_trans hc1 hc2).
Qed.

End rewind.

(** The numbers of the canonical chain are deleted from the top down. *)
Lemma delete_down_run n : forall i db, is_u64 i -> Z.of_nat n <= i ->
  canon_changed (fun m => i - Z.of_nat n < m <= i) db (delete_down n i db) /\
  forall m, i - Z.of_nat n < m <= i -> GetCanonicalHash (delete_down n i db) m = 0.
Proof.
  induction n as [|n IH]; intros i db Hi Hn; cbn [delete_down]; [split; [done|lia]|].
  destruct (IH (i - 1) (DeleteCanonicalHash db i)) as [Hc Hz]; [unfold is_u64 in *; lia|lia|]. split.
  - apply (canon_changed_trans _ _ _ _ _ _ (delete_canon_changed db i Hi) Hc). intros m; lia.
  - intros m Hm. destruct (Z.eq_dec m i) as [->|]; [|apply Hz; lia].
    rewrite (canon_changed_at _ _ _ _ Hc) by (done || lia). apply stored_hash_none. by apply look_drop_eq.
Qed.

(** The store after the numbers are deleted and the head is written. *)
Definition cut (head top : Z) (hash : Hash) (db : KV) : KV :=
  WriteHeadHeaderHash (delete_down (Z.to_nat (top - head)) top db) hash.

Lemma cut_run head top hash db : is_u64 top -> 0 <= head ->
  (forall m, head < m <= top -> GetCanonicalHash (cut head top hash db) m = 0) /\
  (forall m, is_u64 m -> ~ (head < m <= top) -> GetCanonicalHash (cut head top hash db) m = GetCanonicalHash db m) /\
  (forall hash' n, is_u64 n -> GetHeader (cut head top hash db) hash' n = GetHeader db hash' n) /\
  GetHeadHeaderHash (cut head top hash db) = hash.
Proof.
  intros Ht Hh. destruct (delete_down_run (Z.to_nat (top - head)) top db Ht) as [Hc Hz]; [unfold is_u64 in Ht; lia|].
  assert (Hs : same_but [HeadHeaderKey] (delete_down (Z.to_nat (top - head)) top db) (cut head top hash db)) by by apply same_but_put.
  assert (Hn : forall k, k <> HeadHeaderKey -> k ∉ [HeadHeaderKey]) by (intros k Hk; rewrite not_elem_of_cons; split; [done|apply not_elem_of_nil]).
  split; [|split; [|split]].
  - intros m Hm. assert (Hu : is_u64 m) by (unfold is_u64 in *; lia).
    rewrite (GetCanonicalHash_same _ _ _ _ Hs) by (done || by apply Hn). apply Hz. lia.
  - intros m Hm Hn'. rewrite (GetCanonicalHash_same _ _ _ _ Hs) by (done || by apply Hn).
    apply (canon_changed_at _ _ _ _ Hc); [done|lia].
  - intros hash' n Hn'. rewrite (GetHeader_same _ _ _ _ _ Hs) by (done || by apply Hn).
    by apply (same_data_header _ _ (canon_changed_same _ _ _ Hc)).
  - apply stored_hash_look. by apply look_put_eq.
Qed.

Section after.
Context (g : Header) (top head : Z) (hc : HeaderChain) (Hok : hc_ok g top hc) (Hhead : 0 <= head) (db1 : KV) (h' : Header)
  (Hr : rolled (Z.min top head) (hc_db hc) db1)
  (Eh : GetHeader (hc_db hc) (GetCanonicalHash (hc_db hc) (Z.min top head)) (Z.min top head) = Some h').

Lemma cut_canonical n : 0 <= n <= Z.min top head ->
  GetCanonicalHash (cut head top (Header_Hash h') db1) n = GetCanonicalHash (hc_db hc) n.
Proof.
  intros Hn. pose proof (ca_top _ _ _ (ho_canon _ _ _ Hok)) as Ht. destruct (cut_run head top (Header_Hash h') db1 Ht Hhead) as (_ & Cs & _).
  rewrite Cs, (ro_canon _ _ _ Hr) by (unfold is_u64 in *; lia). done.
Qed.

Lemma cut_header hash n : is_u64 n -> GetHeader (cut head top (Header_Hash h') db1) hash n =
  if decide (head < n /\ hash = GetCanonicalHash (hc_db hc) n) then None else GetHeader (hc_db hc) hash n.
Proof.
  intros Hn. pose proof (ho_canon _ _ _ Hok) as Hca. destruct (cut_run head top (Header_Hash h') db1 (ca_top _ _ _ Hca) Hhead) as (_ & _ & Ch & _).
  rewrite Ch, (ro_header _ _ _ Hr) by done. case_decide as E1; case_decide as E2; try done; [|destruct E2 as [? ->]; exfalso; apply E1; split; [lia|done]].
  destruct E1 as [Hlt ->]. rewrite (ca_above _ _ _ Hca n Hn) by (destruct (Z.le_gt_cases n head); [lia|exfalso; apply E2; done]).
  destruct (GetHeader (hc_db hc) 0 n) eqn:E0; [|done].
  by destruct (do_header _ _ (ho_db _ _ _ Hok) _ _ _ Hn E0) as (_ & _ & _ & H0 & _).
Qed.

Lemma cut_canon_ok : canon_ok (cut head top (Header_Hash h') db1) h' (Z.min top head).
Proof.
  pose proof (ho_canon _ _ _ Hok) as Hca. pose proof (ca_top _ _ _ Hca) as Ht.
  assert (Hk : is_u64 (Z.min top head)) by (unfold is_u64 in *; lia).
  destruct (do_header _ _ (ho_db _ _ _ Hok) _ _ _ Hk Eh) as (_ & Ehash & _).
  assert (CH : forall hash n, is_u64 n -> n <= head -> GetHeader (cut head top (Header_Hash h') db1) hash n = GetHeader (hc_db hc) hash n).
  { intros hash n Hn Hle. rewrite cut_header, decide_False by (done || lia). done. }
  split; [done| | | |].
  - rewrite CH, Ehash by (done || lia). done.
  - rewrite cut_canonical by (unfold is_u64 in *; lia). done.
  - intros n Hn. destruct (ca_linked _ _ _ Hca n ltac:(lia)) as (x & Ex & Hp). exists x.
    rewrite cut_canonical, CH by (unfold is_u64 in *; lia). split; [done|]. intros H0. rewrite cut_canonical by lia. by apply Hp.
  - intros n Hn Hlt. destruct (cut_run head top (Header_Hash h') db1 Ht Hhead) as (Cz & Cs & _).
    destruct (Z.le_gt_cases n top) as [Hle|Hgt]; [apply Cz; lia|].
    rewrite Cs, (ro_canon _ _ _ Hr) by (done || lia). by apply (ca_above _ _ _ Hca).
Qed.

End after.

(** C25. Rewinding the header chain to a number cuts the canonical chain there: the
    head is the header that was canonical at that number, in memory and in the
    store, the chain below is as it was and no number above is left; the headers
    of the canonical chain above are deleted, and no header that was deleted is
    served from a cache.  Only those are deleted: the headers of side branches
    above the new head stay, although the comments of [SetHead] say that
    everything above it is deleted. *)
Theorem SetHead_rolls_back g top fuel delFn head hc : hc_ok g top hc -> (forall hash n, is_u64 n -> keeps_chain (delFn hash n)) ->
  0 <= head -> top <= head + Z.of_nat fuel ->
  exists hc', hc_SetHead fuel delFn head hc = Ret (tt, hc') /\
    canon_ok (hc_db hc') (currentHeader hc') (Z.min top head) /\ caches_ok hc' /\
    currentHeaderHash hc' = Header_Hash (currentHeader hc') /\ GetHeadHeaderHash (hc_db hc') = currentHeaderHash hc' /\
    (forall n, 0 <= n <= Z.min top head -> GetCanonicalHash (hc_db hc') n = GetCanonicalHash (hc_db hc) n) /\
    (forall hash n, is_u64 n -> GetHeader (hc_db hc') hash n =
       if decide (head < n /\ hash = GetCanonicalHash (hc_db hc) n) then None else GetHeader (hc_db hc) hash n).
Proof.
  intros Hok Hdel Hh Hf. pose proof (ho_canon _ _ _ Hok) as Hca. pose proof (ho_db _ _ _ Hok) as Hdb. pose proof (ca_top _ _ _ Hca) as Ht.
  destruct (do_header _ _ Hdb _ _ _ Ht (ca_head _ _ _ Hca)) as (_ & _ & En & _).
  assert (Hr0 : rolled top (hc_db hc) (hc_db hc)).
  { split; [|done]. intros hash n Hn. case_decide as E; [|done]. destruct E as [Hlt ->]. rewrite (ca_above _ _ _ Hca n Hn Hlt).
    destruct (GetHeader (hc_db hc) 0 n) eqn:E0; [|done]. by destruct (do_header _ _ Hdb _ _ _ Hn E0) as (_ & _ & _ & H0 & _). }
  destruct (rewind_run g top hc Hok delFn Hdel head Hh fuel top (currentHeader hc) hc Hr0 (co_header _ (ho_caches _ _ _ Hok)))
    as (h' & hc1 & E1 & Hr1 & Hs1 & Eh1); [unfold is_u64 in Ht; lia|rewrite (ca_at _ _ _ Hca); apply Hca|lia|].
  unfold hc_SetHead. rewrite bind_gget, (bind_glift _ _ _ _ En), (bind_run _ _ _ _ _ E1), !bind_gmodify. cbn [default].
  eexists. split; [done|]. cbn [hc_db currentHeader currentHeaderHash with_head with_hc_db purge].
  change (WriteHeadHeaderHash _ _) with (cut head top (Header_Hash h') (hc_db hc1)).
  split; [by apply (cut_canon_ok g top head hc Hok Hh)|]. split; [split; cbn; intros k v; by rewrite lru_Peek_Purge|]. split; [done|]. split; [by apply cut_run|].
  split; [intros n; by apply (cut_canonical g top head hc Hok Hh)|intros hash n; by apply (cut_header g top head hc Hok Hh)].
Qed.

End header_chain.
