(* ===== verification/BlockChain.v ===== *)
(** * The block chain (core/blockchain.go)

    The chain of blocks on top of the header chain: lookups with their caches, the
    head block and the head of the fast synchronization, the import of blocks with
    the choice of the heaviest chain and its reorganization, the import of receipts,
    rewinding and rolling back.  The store is the one of the header chain
    ([bc_db]).  Locks are not modelled: an operation that holds them is one step.
    The engine, the processor and the validator are the interfaces the chain
    calls ([BlockRules]). *)
From S2P Require Import Prelude GoMonad Fmt Clique TxList ChainDb HeaderChain.
Local Open Scope Z_scope.

Definition bodyCacheLimit : Z := 256.
Definition blockCacheLimit : Z := 256.
Definition maxFutureBlocks : Z := 256.
Definition maxTimeFutureBlocks : Z := 30.
Definition badBlockLimit : Z := 10.

(** A log and a receipt ([types.Log], [types.Receipt]): what the chain derives,
    and what it only passes on. *)
Record ChainLog := mkChainLog {
  cl_data : list Z;
  cl_BlockNumber : Z;
  cl_BlockHash : Hash;
  cl_TxHash : Hash;
  cl_TxIndex : Z;
  cl_Index : Z;
  cl_Removed : bool
}.

Record ChainReceipt := mkChainReceipt {
  cr_CumulativeGasUsed : Z;
  cr_TxHash : Hash;
  cr_ContractAddress : Address;
  cr_GasUsed : Z;
  cr_Logs : list ChainLog
}.

(** What the chain uses of MoacLib: states, the roots of lists, batches, sets of
    transactions.  A state is opened by its root; [CommitTo] adds its nodes to a
    batch and returns the root; [state_nodes] is the number of nodes an iteration
    over a state visits, none if the state cannot be opened. *)
Class ChainLib {KL : KvLib} {CL : CliqueLib} {TL : TxLib} := {
  CState : Type;
  state_New : KV -> Hash -> CState + Z;
  OpenTrie : KV -> Hash -> bool;
  NewSecure : KV -> Hash -> bool;
  state_nodes : KV -> Hash -> Z;
  CommitTo : CState -> Batch -> (Hash * Batch) + Z;
  Preimages : CState -> list (Hash * list Z);
  CalcUncleHash : list Header -> Hash;
  DeriveSha_block : list Transaction -> Hash;
  sort_blocks : list Block -> list Block;
  tx_To : Transaction -> option Address;
  create_address : Address -> Z -> Address;
  tx_difference : list Transaction -> list Transaction -> list Transaction;
  batch_ValueSize : Batch -> Z;
  IdealBatchSize : Z
}.

(** The engine, the processor, the validator of states and the banned blocks. *)
Class BlockRules {KL : KvLib} {CL : CliqueLib} {TL : TxLib} {BL : ChainLib} := {
  VerifyUncles : KV -> Block -> option ChainError;
  Process : Block -> CState -> bool -> (list ChainReceipt * list ChainLog * Z * CState) + ChainError;
  bc_ValidateState : Block -> Block -> CState -> list ChainReceipt -> Z -> option ChainError;
  BadHashes : list Hash
}.

Section block_chain.
Context {KL : KvLib} {HL : HashLib} {CL : CliqueLib} {TL : TxLib} {LL : LruLib} {BL : ChainLib} {BR : BlockRules}.
Context {RH : RLP Header} {RB : RLP Body} {RZ : RLP Z} {RR : RLP (list ChainReceipt)} {RE : RLP txLookupEntry}.

(** What is posted to the feeds. *)
Inductive FeedEvent :=
| LogsEvent (logs : list ChainLog)
| ChainEvent (block : Block) (hash : Hash) (logs : list ChainLog)
| ChainSideEvent (block : Block)
| ChainHeadEvent (block : Block)
| RemovedLogsEvent (logs : list ChainLog).

(** [bc_sent] are the events that were posted, in order; [bc_spawned] what the
    goroutines of reorganizations post, each its own list. *)
Record BlockChain := mkBlockChain {
  bc_hc : HeaderChain;
  genesisBlock : option Block;
  currentBlock : option Block;
  currentFastBlock : option Block;
  bodyCache : Lru Body;
  bodyRLPCache : Lru (list Z);
  blockCache : Lru Block;
  futureBlocks : Lru Block;
  badBlocks : Lru Header;
  bc_sent : list FeedEvent;
  bc_spawned : list (list FeedEvent)
}.

Definition bc_db (bc : BlockChain) : KV := hc_db (bc_hc bc).

Definition set_hc (hc : HeaderChain) (bc : BlockChain) : BlockChain :=
  mkBlockChain hc (genesisBlock bc) (currentBlock bc) (currentFastBlock bc) (bodyCache bc) (bodyRLPCache bc) (blockCache bc)
    (futureBlocks bc) (badBlocks bc) (bc_sent bc) (bc_spawned bc).
Definition set_heads (g b f : option Block) (bc : BlockChain) : BlockChain :=
  mkBlockChain (bc_hc bc) g b f (bodyCache bc) (bodyRLPCache bc) (blockCache bc)
    (futureBlocks bc) (badBlocks bc) (bc_sent bc) (bc_spawned bc).
Definition set_currentBlock (b : option Block) (bc : BlockChain) : BlockChain :=
  set_heads (genesisBlock bc) b (currentFastBlock bc) bc.
Definition set_currentFastBlock (b : option Block) (bc : BlockChain) : BlockChain :=
  set_heads (genesisBlock bc) (currentBlock bc) b bc.
Definition set_genesisBlock (b : option Block) (bc : BlockChain) : BlockChain :=
  set_heads b (currentBlock bc) (currentFastBlock bc) bc.
Definition set_caches (b : Lru Body) (r : Lru (list Z)) (c f : Lru Block) (bad : Lru Header) (bc : BlockChain) : BlockChain :=
  mkBlockChain (bc_hc bc) (genesisBlock bc) (currentBlock bc) (currentFastBlock bc) b r c f bad (bc_sent bc) (bc_spawned bc).
Definition set_bodyCache (c : Lru Body) (bc : BlockChain) : BlockChain :=
  set_caches c (bodyRLPCache bc) (blockCache bc) (futureBlocks bc) (badBlocks bc) bc.
Definition set_bodyRLPCache (c : Lru (list Z)) (bc : BlockChain) : BlockChain :=
  set_caches (bodyCache bc) c (blockCache bc) (futureBlocks bc) (badBlocks bc) bc.
Definition set_blockCache (c : Lru Block) (bc : BlockChain) : BlockChain :=
  set_caches (bodyCache bc) (bodyRLPCache bc) c (futureBlocks bc) (badBlocks bc) bc.
Definition set_futureBlocks (c : Lru Block) (bc : BlockChain) : BlockChain :=
  set_caches (bodyCache bc) (bodyRLPCache bc) (blockCache bc) c (badBlocks bc) bc.
Definition set_badBlocks (c : Lru Header) (bc : BlockChain) : BlockChain :=
  set_caches (bodyCache bc) (bodyRLPCache bc) (blockCache bc) (futureBlocks bc) c bc.
Definition post (evs : list FeedEvent) (bc : BlockChain) : BlockChain :=
  mkBlockChain (bc_hc bc) (genesisBlock bc) (currentBlock bc) (currentFastBlock bc) (bodyCache bc) (bodyRLPCache bc)
    (blockCache bc) (futureBlocks bc) (badBlocks bc) (bc_sent bc ++ evs) (bc_spawned bc).
Definition spawn (evs : list FeedEvent) (bc : BlockChain) : BlockChain :=
  mkBlockChain (bc_hc bc) (genesisBlock bc) (currentBlock bc) (currentFastBlock bc) (bodyCache bc) (bodyRLPCache bc)
    (blockCache bc) (futureBlocks bc) (badBlocks bc) (bc_sent bc) (bc_spawned bc ++ [evs]).

(** A call of the header chain, and a write to the store. *)
Definition on_hc {A : Type} (m : go HeaderChain A) : go BlockChain A := fun bc =>
  match m (bc_hc bc) with
  | Ret (a, hc) => Ret (a, set_hc hc bc)
  | Panic => Panic
  | OutOfFuel => OutOfFuel
  end.

Definition on_db (f : KV -> KV) : go BlockChain unit := gmodify (fun bc => set_hc (with_hc_db (f (bc_db bc)) (bc_hc bc)) bc).

(** A pointer that must not be nil. *)
Definition the {A : Type} (o : option A) : go BlockChain A := match o with Some a => mret a | None => gpanic end.

(** ** Lookups *)
Definition bc_GetBody (hash : Hash) : go BlockChain (option Body) :=
  bc ← gget;
  let r := lru_Get (bodyCache bc) hash in
  _ ← gmodify (set_bodyCache (snd r));
  match fst r with
  | Some body => mret (Some body)
  | None =>
      number ← on_hc (hc_GetBlockNumber hash);
      match GetBody (bc_db bc) hash number with
      | None => mret None
      | Some body => _ ← gmodify (fun bc => set_bodyCache (lru_Add (bodyCache bc) hash body) bc); mret (Some body)
      end
  end.

Definition bc_GetBodyRLP (hash : Hash) : go BlockChain (option (list Z)) :=
  bc ← gget;
  let r := lru_Get (bodyRLPCache bc) hash in
  _ ← gmodify (set_bodyRLPCache (snd r));
  match fst r with
  | Some body => mret (Some body)
  | None =>
      number ← on_hc (hc_GetBlockNumber hash);
      match GetBodyRLP (bc_db bc) hash number with
      | None | Some [] => mret None
      | Some body => _ ← gmodify (fun bc => set_bodyRLPCache (lru_Add (bodyRLPCache bc) hash body) bc); mret (Some body)
      end
  end.

Definition HasBlock (hash : Hash) (number : Z) (bc : BlockChain) : bool :=
  lru_Contains (blockCache bc) hash || kv_Has (bc_db bc) (key (BodyKey hash number)).

Definition bc_GetBlock (hash : Hash) (number : Z) : go BlockChain (option Block) :=
  bc ← gget;
  let r := lru_Get (blockCache bc) hash in
  _ ← gmodify (set_blockCache (snd r));
  match fst r with
  | Some block => mret (Some block)
  | None =>
      match GetBlock (bc_db bc) hash number with
      | None => mret None
      | Some block =>
          _ ← gmodify (fun bc => set_blockCache (lru_Add (blockCache bc) (block_Hash block) block) bc);
          mret (Some block)
      end
  end.

Definition GetBlockByHash (hash : Hash) : go BlockChain (option Block) :=
  number ← on_hc (hc_GetBlockNumber hash); bc_GetBlock hash number.

Definition GetBlockByNumber (number : Z) : go BlockChain (option Block) :=
  bc ← gget;
  let hash := GetCanonicalHash (bc_db bc) number in
  if hash =? 0 then mret None else bc_GetBlock hash number.

Definition HasBlockAndState (hash : Hash) : go BlockChain bool :=
  block ← GetBlockByHash hash;
  match block with
  | None => mret false
  | Some block => bc ← gget; mret (OpenTrie (bc_db bc) (Root (block_header block)))
  end.

(** A block and its ancestors, [n] blocks at most. *)
Fixpoint blocks_back (n : nat) (hash : Hash) (number : Z) : go BlockChain (list Block) :=
  match n with
  | O => mret []
  | S n' =>
      block ← bc_GetBlock hash number;
      match block with
      | None => mret []
      | Some block => rest ← blocks_back n' (block_ParentHash block) (u64 (number - 1)); mret (block :: rest)
      end
  end.

Definition GetBlocksFromHash (hash : Hash) (n : Z) : go BlockChain (list Block) :=
  number ← on_hc (hc_GetBlockNumber hash); blocks_back (Z.to_nat n) hash number.

Fixpoint uncles_back (length : nat) (block : option Block) : go BlockChain (list Header) :=
  match length, block with
  | O, _ | _, None => mret []
  | S n, Some block =>
      number ← glift (block_Number block);
      parent ← bc_GetBlock (block_ParentHash block) (u64 (number - 1));
      rest ← uncles_back n parent;
      mret (block_uncles block ++ rest)
  end.

Definition GetUnclesInChain (block : option Block) (length : Z) : go BlockChain (list Header) :=
  uncles_back (Z.to_nat length) block.

(** ** Heads *)
Definition insert (block : Block) (forceUpdateHead : bool) : go BlockChain unit :=
  bc ← gget;
  number ← glift (block_Number block);
  let hash := block_Hash block in
  let updateHeads := negb (GetCanonicalHash (bc_db bc) number =? hash) in
  _ ← on_db (fun db => WriteHeadBlockHash (WriteCanonicalHash db hash number) hash);
  _ ← gmodify (set_currentBlock (Some block));
  if updateHeads || forceUpdateHead then
    _ ← on_hc (SetCurrentHeader (block_header block));
    _ ← on_db (fun db => WriteHeadFastBlockHash db hash);
    gmodify (set_currentFastBlock (Some block))
  else mret tt.

(** The header of the last known head header, or that of the head block. *)
Definition load_header (current : Block) : go BlockChain Header :=
  bc ← gget;
  let head := GetHeadHeaderHash (bc_db bc) in
  header ← (if head =? 0 then mret None else on_hc (GetHeaderByHash head));
  let currentHeader := default (block_header current) header in
  _ ← on_hc (SetCurrentHeader currentHeader);
  mret currentHeader.

(** The last known head of the fast synchronization, or the head block. *)
Definition load_fast (current : Block) : go BlockChain Block :=
  bc ← gget;
  let head := GetHeadFastBlockHash (bc_db bc) in
  block ← (if head =? 0 then mret None else GetBlockByHash head);
  let fast := default current block in
  _ ← gmodify (set_currentFastBlock (Some fast));
  mret fast.

Definition loadLastState : go BlockChain (unit + ChainError) :=
  bc ← gget;
  let head := GetHeadBlockHash (bc_db bc) in
  if head =? 0 then mret (inr errInvalidState)
  else
    block ← GetBlockByHash head;
    match block with
    | None => mret (inr errInvalidState)
    | Some current =>
        match state_New (bc_db bc) (Root (block_header current)) with
        | inr _ => mret (inr errInvalidState)
        | inl _ =>
            _ ← gmodify (set_currentBlock (Some current));
            header ← load_header current;
            fast ← load_fast current;
            (* the difficulties of the log entry *)
            n ← glift (header_number header); _ ← on_hc (hc_GetTd (Header_Hash header) n);
            n ← glift (block_Number current); _ ← on_hc (hc_GetTd (block_Hash current) n);
            n ← glift (block_Number fast); _ ← on_hc (hc_GetTd (block_Hash fast) n);
            mret (inl tt)
        end
    end.

(** Whether a head is above the header the chain was rewound to. *)
Definition above (block : option Block) (number : Z) : go BlockChain bool :=
  match block with None => mret false | Some b => n ← glift (block_Number b); mret (number <? n) end.

Definition bc_SetHead (fuel : nat) (head : Z) : go BlockChain (unit + ChainError) :=
  _ ← on_hc (hc_SetHead fuel (fun hash num db => DeleteBody db hash num) head);
  _ ← gmodify (fun bc => set_caches (lru_Purge (bodyCache bc)) (lru_Purge (bodyRLPCache bc)) (lru_Purge (blockCache bc))
        (lru_Purge (futureBlocks bc)) (badBlocks bc) bc);
  bc ← gget;
  let header := currentHeader (bc_hc bc) in
  number ← glift (header_number header);
  let back := bc_GetBlock (Header_Hash header) number in
  up ← above (currentBlock bc) number;
  current ← (if up : bool then back else mret (currentBlock bc));
  let current := match current with
                 | Some b => match state_New (bc_db bc) (Root (block_header b)) with inl _ => Some b | inr _ => None end
                 | None => None
                 end in
  up ← above (currentFastBlock bc) number;
  fast ← (if up : bool then back else mret (currentFastBlock bc));
  let orGenesis (b : option Block) := match b with Some b => Some b | None => genesisBlock bc end in
  current ← the (orGenesis current);
  fast ← the (orGenesis fast);
  _ ← gmodify (set_currentBlock (Some current));
  _ ← gmodify (set_currentFastBlock (Some fast));
  _ ← on_db (fun db => WriteHeadFastBlockHash (WriteHeadBlockHash db (block_Hash current)) (block_Hash fast));
  loadLastState.

Definition FastSyncCommitHead (hash : Hash) : go BlockChain (unit + ChainError) :=
  block ← GetBlockByHash hash;
  match block with
  | None => mret (inr errInvalidState)
  | Some block =>
      bc ← gget;
      if NewSecure (bc_db bc) (Root (block_header block)) then
        _ ← gmodify (set_currentBlock (Some block)); mret (inl tt)
      else mret (inr errInvalidState)
  end.

(** A write that fails ends the process. *)
Definition bc_crit {A : Type} (r : outcome (result A)) (k : A -> go BlockChain unit) : go BlockChain unit :=
  o ← glift r; match o with Ok a => k a | Err => gpanic end.

Definition ResetWithGenesisBlock (fuel : nat) (genesis : Block) : go BlockChain (unit + ChainError) :=
  r ← bc_SetHead fuel 0;
  match r with
  | inr e => mret (inr e)
  | inl _ =>
      number ← glift (block_Number genesis);
      d ← the (Difficulty (block_header genesis));
      _ ← on_hc (hc_WriteTd (block_Hash genesis) number d);
      bc ← gget;
      _ ← bc_crit (WriteBlock (bc_db bc) genesis) (fun db => on_db (fun _ => db));
      _ ← gmodify (set_genesisBlock (Some genesis));
      _ ← insert genesis false;
      _ ← gmodify (set_currentBlock (Some genesis));
      _ ← on_hc (SetGenesis (block_header genesis));
      _ ← on_hc (SetCurrentHeader (block_header genesis));
      _ ← gmodify (set_currentFastBlock (Some genesis));
      mret (inl tt)
  end.

Definition Reset (fuel : nat) : go BlockChain (unit + ChainError) :=
  bc ← gget; genesis ← the (genesisBlock bc); ResetWithGenesisBlock fuel genesis.

(** The search for the last block: [low] has one, [high] has none. *)
Fixpoint scan_blocks (fuel : nat) (low high prev found : Z) : go BlockChain Z :=
  let mid := u64 (low + high) / 2 in
  if mid =? prev then mret found
  else
    match fuel with
    | O => gfuel
    | S f =>
        block ← GetBlockByNumber mid;
        match block with
        | Some _ => scan_blocks f mid high mid mid
        | None => scan_blocks f low mid mid found
        end
    end.

(** The states of the blocks from [num] down; [last] is not looked at. *)
Fixpoint scan_states (fuel : nat) (last num found : Z) : go BlockChain Z :=
  if (num >? 0) && (num >? last) then
    match fuel with
    | O => gfuel
    | S f =>
        block ← GetBlockByNumber num;
        b ← the block;
        bc ← gget;
        scan_states f last (num - 1) (if state_nodes (bc_db bc) (Root (block_header b)) >? 10000 then num else found)
    end
  else mret found.

Definition BinaryScanForValidBlock (fuel : nat) : go BlockChain Z :=
  blockFound ← scan_blocks fuel 0 1000000000000 0 0;
  if blockFound =? 0 then mret 0 else scan_states fuel (u64 (blockFound - 10000)) blockFound 0.

(** The blocks written to a writer; [w] says which writes succeed. *)
Fixpoint export_from (fuel : nat) (w : Block -> bool) (nr last : Z) : go BlockChain (list Block * option ChainError) :=
  if nr <=? last then
    match fuel with
    | O => gfuel
    | S f =>
        block ← GetBlockByNumber nr;
        match block with
        | None => mret ([], Some (errOther nr))
        | Some b =>
            if w b then r ← export_from f w (u64 (nr + 1)) last; mret (b :: fst r, snd r)
            else mret ([], Some errWrite)
        end
    end
  else mret ([], None).

Definition ExportN (fuel : nat) (w : Block -> bool) (first last : Z) : go BlockChain (list Block * option ChainError) :=
  if first >? last then mret ([], Some errNonContiguous) else export_from fuel w first last.

Definition Export (fuel : nat) (w : Block -> bool) : go BlockChain (list Block * option ChainError) :=
  bc ← gget; b ← the (currentBlock bc); n ← glift (block_Number b); ExportN fuel w 0 n.

(** ** Opening *)

(** Rewind past the banned blocks of the canonical chain. *)
Fixpoint drop_banned (fuel : nat) (hashes : list Hash) : go BlockChain unit :=
  match hashes with
  | [] => mret tt
  | hash :: rest =>
      header ← on_hc (GetHeaderByHash hash);
      _ ← match header with
          | None => mret tt
          | Some h =>
              n ← glift (header_number h);
              canonical ← on_hc (GetHeaderByNumber n);
              match canonical with
              | None => mret tt
              | Some c => if Header_Hash c =? Header_Hash h then _ ← bc_SetHead fuel (u64 (n - 1)); mret tt else mret tt
              end
          end;
      drop_banned fuel rest
  end.

Definition NewBlockChain (fuel : nat) (db : KV) : outcome (BlockChain + ChainError) :=
  o ← NewHeaderChain db;
  match o with
  | inr e => Ret (inr e)
  | inl hc =>
      let bc := mkBlockChain hc None None None (lru_New bodyCacheLimit) (lru_New bodyCacheLimit) (lru_New blockCacheLimit)
                  (lru_New maxFutureBlocks) (lru_New badBlockLimit) [] [] in
      '(genesis, bc) ← GetBlockByNumber 0 bc;
      match genesis with
      | None => Ret (inr ErrNoGenesis)
      | Some genesis =>
          '(r, bc) ← loadLastState (set_genesisBlock (Some genesis) bc);
          match r with
          | inr e => Ret (inr e)
          | inl _ => '(_, bc) ← drop_banned fuel BadHashes bc; Ret (inl bc)
          end
      end
  end.

(** ** Rolling back *)

(** A head that is the block to remove is replaced by its parent. *)
Definition rollback_one (hash : Hash) : go BlockChain unit :=
  bc ← gget;
  let header := currentHeader (bc_hc bc) in
  _ ← (if Header_Hash header =? hash then
         n ← glift (header_number header);
         p ← on_hc (hc_GetHeader (ParentHash header) (u64 (n - 1)));
         p ← the p;
         on_hc (SetCurrentHeader p)
       else mret tt);
  fast ← the (currentFastBlock bc);
  _ ← (if block_Hash fast =? hash then
         n ← glift (block_Number fast);
         p ← bc_GetBlock (block_ParentHash fast) (u64 (n - 1));
         _ ← gmodify (set_currentFastBlock p);
         p ← the p;
         on_db (fun db => WriteHeadFastBlockHash db (block_Hash p))
       else mret tt);
  current ← the (currentBlock bc);
  if block_Hash current =? hash then
    n ← glift (block_Number current);
    p ← bc_GetBlock (block_ParentHash current) (u64 (n - 1));
    _ ← gmodify (set_currentBlock p);
    p ← the p;
    on_db (fun db => WriteHeadBlockHash db (block_Hash p))
  else mret tt.

Definition Rollback (chain : list Hash) : go BlockChain unit := for_each (fun _ hash => rollback_one hash) tt (reverse chain).

(** ** Receipts *)

(** The logs of a receipt, the first with the index [i]. *)
Fixpoint set_logs (number : Z) (hash txHash : Hash) (j i : Z) (logs : list ChainLog) : list ChainLog :=
  match logs with
  | [] => []
  | l :: rest =>
      mkChainLog (cl_data l) number hash txHash j i (cl_Removed l) :: set_logs number hash txHash j (i + 1) rest
  end.

(** From the [j]th receipt on: [before] is the gas used up to there, [logIndex]
    the number of logs. *)
Fixpoint set_receipts (number : Z) (hash : Hash) (j before logIndex : Z) (txs : list Transaction) (receipts : list ChainReceipt)
    : outcome (list ChainReceipt) :=
  match receipts, txs with
  | [], _ => Ret []
  | _ :: _, [] => Panic
  | r :: receipts', tx :: txs' =>
      let contract := match tx_To tx with
                      | Some _ => cr_ContractAddress r
                      | None => create_address (match Tx_Sender tx with Ok a => a | Err => 0 end) (Tx_Nonce tx)
                      end in
      rest ← set_receipts number hash (j + 1) (cr_CumulativeGasUsed r) (logIndex + Z.of_nat (length (cr_Logs r))) txs' receipts';
      Ret (mkChainReceipt (cr_CumulativeGasUsed r) (Tx_Hash tx) contract (cr_CumulativeGasUsed r - before)
             (set_logs number hash (Tx_Hash tx) j logIndex (cr_Logs r)) :: rest)
  end.

Definition SetReceiptsData (block : Block) (receipts : list ChainReceipt) : outcome (list ChainReceipt) :=
  number ← block_Number block; set_receipts number (block_Hash block) 0 0 0 (block_txs block) receipts.

(** A batch that is large enough is written, and a new one started. *)
Definition flush (write_ok : bool) (full : bool) (batch : Batch) : go BlockChain (Batch + ChainError) :=
  if full then
    if write_ok then _ ← on_db (fun db => batch_Write db batch); mret (inl [])
    else mret (inr errWrite)
  else mret (inl batch).

(** The data of a block in a batch; [None] when the block is known already. *)
Definition receipt_data (block : Block) (receipts : list ChainReceipt) (batch : Batch)
    : go BlockChain (option Batch + ChainError) :=
  bc ← gget;
  number ← glift (block_Number block);
  let hash := block_Hash block in
  if negb (HasHeader hash number (bc_hc bc)) then mret (inr errUnknownHeader)
  else if HasBlock hash number bc then mret (inl None)
  else
    receipts ← glift (SetReceiptsData block receipts);
    match WriteBody batch hash number (block_Body block) with
    | Err => mret (inr errWrite)
    | Ok batch =>
        match WriteBlockReceipts batch hash number receipts with
        | Err => mret (inr errWrite)
        | Ok batch =>
            r ← glift (WriteTxLookupEntries batch block);
            match r with Err => mret (inr errWrite) | Ok batch => mret (inl (Some batch)) end
        end
    end.

(** The blocks from the [i]th on; [None] when the node is shutting down. *)
Fixpoint insert_receipts (interrupted write_ok : nat -> bool) (i : nat) (chain : list Block) (receipts : list (list ChainReceipt))
    (batch : Batch) : go BlockChain (option Batch + Z * ChainError) :=
  match chain, receipts with
  | [], _ => mret (inl (Some batch))
  | _ :: _, [] => gpanic
  | block :: chain', r :: receipts' =>
      if interrupted i then mret (inl None)
      else
        o ← receipt_data block r batch;
        match o with
        | inr e => mret (inr (Z.of_nat i, e))
        | inl None => insert_receipts interrupted write_ok (S i) chain' receipts' batch
        | inl (Some batch) =>
            o ← flush (write_ok i) (IdealBatchSize <=? batch_ValueSize batch) batch;
            match o with
            | inr e => mret (inr (0, e))
            | inl batch => insert_receipts interrupted write_ok (S i) chain' receipts' batch
            end
        end
  end.

(** The head of the fast synchronization, if the last block is better. *)
Definition update_fast (head : Block) : go BlockChain unit :=
  n ← glift (block_Number head);
  td ← on_hc (hc_GetTd (block_Hash head) n);
  match td with
  | None => mret tt
  | Some td =>
      bc ← gget;
      fast ← the (currentFastBlock bc);
      m ← glift (block_Number fast);
      t ← on_hc (hc_GetTd (block_Hash fast) m);
      t ← the t;
      if t <? td then
        _ ← on_db (fun db => WriteHeadFastBlockHash db (block_Hash head));
        gmodify (set_currentFastBlock (Some head))
      else mret tt
  end.

Definition contiguous_blocks (chain : list Block) : outcome bool := ordered_chain (block_header <$> chain).

Definition InsertReceiptChain (interrupted write_ok : nat -> bool) (chain : list Block) (receipts : list (list ChainReceipt))
    : go BlockChain (unit + Z * ChainError) :=
  ordered ← glift (contiguous_blocks chain);
  if negb ordered then mret (inr (0, errNonContiguous))
  else
    o ← insert_receipts interrupted write_ok 0 chain receipts [];
    match o with
    | inr e => mret (inr e)
    | inl None => mret (inl tt)
    | inl (Some batch) =>
        o ← flush (write_ok (length chain)) (0 <? batch_ValueSize batch) batch;
        match o with
        | inr e => mret (inr (0, e))
        | inl _ =>
            head ← the (last chain);
            _ ← update_fast head;
            mret (inl tt)
        end
    end.

End block_chain.
