(* ===== verification/BlockImport.v ===== *)
(** * The import of blocks (core/blockchain.go, core/block_validator.go)

    A block that was verified and processed is written with its state; if its chain
    is heavier than the current one it becomes the head, after a reorganization
    when it is on another branch.  The random choice between chains of the same
    weight, the failure of a batch, the clock and the interrupts are arguments. *)
From S2P Require Import Prelude GoMonad Fmt Clique TxList ChainDb HeaderChain BlockChain.
Local Open Scope Z_scope.

Section block_import.
Context {KL : KvLib} {HL : HashLib} {CL : CliqueLib} {TL : TxLib} {LL : LruLib} {BL : ChainLib} {BR : BlockRules}.
Context {RH : RLP Header} {RB : RLP Body} {RZ : RLP Z} {RR : RLP (list ChainReceipt)} {RE : RLP txLookupEntry}.

(** ** Reorganization *)

(** The logs of a block, marked as removed ([collectLogs]). *)
Definition removed (l : ChainLog) : ChainLog :=
  mkChainLog (cl_data l) (cl_BlockNumber l) (cl_BlockHash l) (cl_TxHash l) (cl_TxIndex l) (cl_Index l) true.

Definition collectLogs (hash : Hash) : go BlockChain (list ChainLog) :=
  number ← on_hc (hc_GetBlockNumber hash);
  bc ← gget;
  mret (removed <$> mjoin (cr_Logs <$> GetBlockReceipts (bc_db bc) hash number)).

(** The parent of a block, from the cache or the store. *)
Definition bc_parent (block : Block) : go BlockChain (option Block) :=
  number ← glift (block_Number block); bc_GetBlock (block_ParentHash block) (u64 (number - 1)).

(** Back to the number [target]: the blocks on the way, and their logs. *)
Fixpoint reduce_old (fuel : nat) (block : option Block) (target : Z) (chain : list Block) (logs : list ChainLog)
    : go BlockChain (option Block * list Block * list ChainLog) :=
  match block with
  | None => mret (None, chain, logs)
  | Some b =>
      number ← glift (block_Number b);
      if number =? target then mret (Some b, chain, logs)
      else
        match fuel with
        | O => gfuel
        | S f =>
            more ← collectLogs (block_Hash b);
            parent ← bc_parent b;
            reduce_old f parent target (chain ++ [b]) (logs ++ more)
        end
  end.

Fixpoint reduce_new (fuel : nat) (block : option Block) (target : Z) (chain : list Block)
    : go BlockChain (option Block * list Block) :=
  match block with
  | None => mret (None, chain)
  | Some b =>
      number ← glift (block_Number b);
      if number =? target then mret (Some b, chain)
      else
        match fuel with
        | O => gfuel
        | S f => parent ← bc_parent b; reduce_new f parent target (chain ++ [b])
        end
  end.

(** Both chains back to the block they have in common. *)
Fixpoint find_common (fuel : nat) (old new : Block) (oldChain newChain : list Block) (logs : list ChainLog)
    : go BlockChain ((list Block * list Block * list ChainLog) + ChainError) :=
  if block_Hash old =? block_Hash new then mret (inl (oldChain, newChain, logs))
  else
    match fuel with
    | O => gfuel
    | S f =>
        more ← collectLogs (block_Hash old);
        old' ← bc_parent old;
        new' ← bc_parent new;
        match old', new' with
        | None, _ => mret (inr errInvalidOldChain)
        | _, None => mret (inr errInvalidNewChain)
        | Some old', Some new' => find_common f old' new' (oldChain ++ [old]) (newChain ++ [new]) (logs ++ more)
        end
    end.

(** Both chains down to the fork: the blocks to drop and the blocks to add, from
    the heads down, and the logs that are removed. *)
Definition branches (fuel : nat) (oldBlock newBlock : Block)
    : go BlockChain ((list Block * list Block * list ChainLog) + ChainError) :=
  n ← glift (block_Number oldBlock);
  m ← glift (block_Number newBlock);
  if n >? m then
    r ← reduce_old fuel (Some oldBlock) m [] [];
    match r with
    | (None, _, _) => mret (inr errInvalidOldChain)
    | (Some old, oldChain, logs) => find_common fuel old newBlock oldChain [] logs
    end
  else
    r ← reduce_new fuel (Some newBlock) n [];
    match r with
    | (None, _) => mret (inr errInvalidNewChain)
    | (Some new, newChain) => find_common fuel oldBlock new [] newChain []
    end.

(** Each block becomes the head, in the order of the list. *)
Fixpoint insert_blocks (chain : list Block) : go BlockChain (unit + ChainError) :=
  match chain with
  | [] => mret (inl tt)
  | block :: rest =>
      _ ← insert block false;
      bc ← gget;
      r ← glift (WriteTxLookupEntries (bc_db bc) block);
      match r with
      | Err => mret (inr errWrite)
      | Ok db => _ ← on_db (fun _ => db); insert_blocks rest
      end
  end.

Definition txs_in (chain : list Block) : list Transaction := mjoin (block_txs <$> chain).

Definition reorg (fuel : nat) (oldBlock newBlock : Block) : go BlockChain (unit + ChainError) :=
  r ← branches fuel oldBlock newBlock;
  match r with
  | inr e => mret (inr e)
  | inl (oldChain, newChain, deletedLogs) =>
      r ← insert_blocks newChain;
      match r with
      | inr e => mret (inr e)
      | inl _ =>
          let diff := tx_difference (txs_in oldChain) (txs_in newChain) in
          _ ← on_db (fun db => foldl (fun d tx => DeleteTxLookupEntry d (Tx_Hash tx)) db diff);
          _ ← match deletedLogs with [] => mret tt | _ => gmodify (spawn [RemovedLogsEvent deletedLogs]) end;
          _ ← match oldChain with [] => mret tt | _ => gmodify (spawn (ChainSideEvent <$> oldChain)) end;
          mret (inl tt)
      end
  end.

(** ** One block *)

(** The block, its state and its receipts in a batch. *)
Definition block_batch (block : Block) (number : Z) (receipts : list ChainReceipt) (state : CState) : outcome (Batch + ChainError) :=
  r ← WriteBlock ([] : Batch) block;
  match r with
  | Err => Ret (inr errWrite)
  | Ok batch =>
      match CommitTo state batch with
      | inr _ => Ret (inr errStateCommit)
      | inl (root, batch) =>
          if negb (root =? Root (block_header block)) then Ret (inr errStateCommit)
          else
            match WriteBlockReceipts batch (block_Hash block) number receipts with
            | Err => Ret (inr errWrite)
            | Ok batch => Ret (inl batch)
            end
      end
  end.

(** What a block that becomes the head needs before its batch is written. *)
Definition make_canonical (fuel : nat) (current block : Block) (batch : Batch) (state : CState) : go BlockChain (Batch + ChainError) :=
  r ← (if block_ParentHash block =? block_Hash current then mret (inl tt) else reorg fuel current block);
  match r with
  | inr e => mret (inr e)
  | inl _ =>
      r ← glift (WriteTxLookupEntries batch block);
      match r with
      | Err => mret (inr errWrite)
      | Ok batch => _ ← on_db (fun db => WritePreimages db (Preimages state)); mret (inl batch)
      end
  end.

(** The block is written and, if its chain is the heavier one, becomes the head.
    [coin] is the toss between chains of the same difficulty, [write_ok] whether the
    batch is written. *)
Definition store_block (fuel : nat) (coin write_ok : bool) (current block : Block) (number externTd : Z) (localTd : option Z)
    (receipts : list ChainReceipt) (state : CState) : go BlockChain (WriteStatus + ChainError) :=
  r ← glift (block_batch block number receipts state);
  match r with
  | inr e => mret (inr e)
  | inl batch =>
      localTd ← the localTd;
      let canonical := (externTd >? localTd) || ((externTd =? localTd) && coin) in
      r ← (if canonical : bool then make_canonical fuel current block batch state else mret (inl batch));
      match r with
      | inr e => mret (inr e)
      | inl batch =>
          if negb write_ok then mret (inr errWrite)
          else
            _ ← on_db (fun db => batch_Write db batch);
            _ ← (if canonical : bool then insert block false else mret tt);
            _ ← gmodify (fun bc => set_futureBlocks (lru_Remove (futureBlocks bc) (block_Hash block)) bc);
            mret (inl (if canonical then CanonStatTy else SideStatTy))
      end
  end.

Definition WriteBlockAndState (fuel : nat) (coin write_ok : bool) (block : Block) (receipts : list ChainReceipt) (state : CState)
    : go BlockChain (WriteStatus + ChainError) :=
  number ← glift (block_Number block);
  ptd ← on_hc (hc_GetTd (block_ParentHash block) (u64 (number - 1)));
  match ptd with
  | None => mret (inr chain_ErrUnknownAncestor)
  | Some ptd =>
      bc ← gget;
      if HasBlock (block_Hash block) number bc then mret (inl NonStatTy)
      else
        current ← the (currentBlock bc);
        n ← glift (block_Number current);
        localTd ← on_hc (hc_GetTd (block_Hash current) n);
        d ← the (Difficulty (block_header block));
        let externTd := d + ptd in
        r ← on_hc (hc_TryWriteTd (block_Hash block) number externTd);
        match r with
        | inr e => mret (inr e)
        | inl _ => store_block fuel coin write_ok current block number externTd localTd receipts state
        end
  end.

(** ** Validation *)

(** [ValidateBody] *)
Definition bc_ValidateBody (block : Block) : go BlockChain (option ChainError) :=
  known ← HasBlockAndState (block_Hash block);
  if known : bool then mret (Some chain_ErrKnownBlock)
  else
    parent ← HasBlockAndState (block_ParentHash block);
    if negb parent then mret (Some chain_ErrUnknownAncestor)
    else
      bc ← gget;
      match VerifyUncles (bc_db bc) block with
      | Some e => mret (Some e)
      | None =>
          mret (if negb (CalcUncleHash (block_uncles block) =? UncleHash (block_header block)) then Some (errOther 1)
                else if negb (DeriveSha_block (block_txs block) =? TxHash (block_header block)) then Some (errOther 2)
                else None)
      end.

(** ** Many blocks *)

(** [reportBlock] keeps the header of a bad block. *)
Definition addBadBlock (block : Block) : go BlockChain unit :=
  gmodify (fun bc => set_badBlocks (lru_Add (badBlocks bc) (block_Hash block) (block_header block)) bc).

Definition BadBlocks (bc : BlockChain) : list (Hash * Header) :=
  omap (fun hash => (fun h => (Header_Hash h, h)) <$> lru_Peek (badBlocks bc) hash) (lru_Keys (badBlocks bc)).

(** What the import of the [i]th block is told: the verdict of the engine on its
    header, the time, the toss, the batch and whether the node is shutting down. *)
Record Turn := mkTurn {
  verdict : option ChainError;
  now : Z;
  toss : bool;
  batch_ok : bool;
  interrupted : bool
}.

(** A block: [inl None] when it was skipped or put off, [inl (Some ..)] with the
    status, the logs and the used gas when it was written. *)
Definition insert_block (fuel : nat) (liveFlag : bool) (t : Turn) (prev : option Block) (block : Block)
    : go BlockChain (option (WriteStatus * list ChainLog) + ChainError) :=
  if bool_decide (block_Hash block ∈ BadHashes) then _ ← addBadBlock block; mret (inr ErrBlacklistedHash)
  else
    err ← match verdict t with Some e => mret (Some e) | None => bc_ValidateBody block end;
    bc ← gget;
    match err with
    | Some chain_ErrKnownBlock => mret (inl None)
    | Some chain_ErrFutureBlock =>
        time ← the (Time (block_header block));
        if time >? now t + maxTimeFutureBlocks then mret (inr errFutureTime)
        else _ ← gmodify (fun bc => set_futureBlocks (lru_Add (futureBlocks bc) (block_Hash block) block) bc); mret (inl None)
    | Some chain_ErrUnknownAncestor =>
        if lru_Contains (futureBlocks bc) (block_ParentHash block) then
          _ ← gmodify (fun bc => set_futureBlocks (lru_Add (futureBlocks bc) (block_Hash block) block) bc); mret (inl None)
        else _ ← addBadBlock block; mret (inr chain_ErrUnknownAncestor)
    | Some e => _ ← addBadBlock block; mret (inr e)
    | None =>
        parent ← match prev with Some p => mret (Some p) | None => bc_parent block end;
        parent ← the parent;
        bc ← gget;
        match state_New (bc_db bc) (Root (block_header parent)) with
        | inr e => mret (inr (errOther e))
        | inl state =>
            match Process block state liveFlag with
            | inr e => _ ← addBadBlock block; mret (inr e)
            | inl (receipts, logs, usedGas, state) =>
                match bc_ValidateState block parent state receipts usedGas with
                | Some e => _ ← addBadBlock block; mret (inr e)
                | None =>
                    r ← WriteBlockAndState fuel (toss t) (batch_ok t) block receipts state;
                    match r with
                    | inr e => mret (inr e)
                    | inl status => mret (inl (Some (status, logs)))
                    end
                end
            end
        end
    end.

(** What an import has to announce so far. *)
Record Announced := mkAnnounced {
  events : list FeedEvent;
  coalescedLogs : list ChainLog;
  lastCanon : option Block
}.

Definition announce (a : Announced) (block : Block) (r : option (WriteStatus * list ChainLog)) : Announced :=
  match r with
  | Some (CanonStatTy, logs) =>
      mkAnnounced (events a ++ [ChainEvent block (block_Hash block) logs]) (coalescedLogs a ++ logs) (Some block)
  | Some (SideStatTy, _) => mkAnnounced (events a ++ [ChainSideEvent block]) (coalescedLogs a) (lastCanon a)
  | Some (NonStatTy, _) | None => a
  end.

Fixpoint insert_chain (fuel : nat) (liveFlag : bool) (turns : nat -> Turn) (i : nat) (prev : option Block) (chain : list Block)
    (a : Announced) : go BlockChain (Announced * option (Z * ChainError)) :=
  match chain with
  | [] => mret (a, None)
  | block :: rest =>
      if interrupted (turns i) then mret (a, None)
      else
        r ← insert_block fuel liveFlag (turns i) prev block;
        match r with
        | inr e => mret (a, Some (Z.of_nat i, e))
        | inl r => insert_chain fuel liveFlag turns (S i) (Some block) rest (announce a block r)
        end
  end.

Definition insertChain (fuel : nat) (liveFlag : bool) (turns : nat -> Turn) (chain : list Block)
    : go BlockChain (list FeedEvent * list ChainLog * option (Z * ChainError)) :=
  ordered ← glift (contiguous_blocks chain);
  if negb ordered then mret ([], [], Some (0, errNonContiguous))
  else
    r ← insert_chain fuel liveFlag turns 0 None chain (mkAnnounced [] [] None);
    match r with
    | (a, Some e) => mret (events a, coalescedLogs a, Some e)
    | (a, None) =>
        match lastCanon a with
        | None => mret (events a, coalescedLogs a, None)
        | Some last =>
            bc ← gget;
            current ← the (currentBlock bc);
            mret (if block_Hash current =? block_Hash last then events a ++ [ChainHeadEvent last] else events a, coalescedLogs a, None)
        end
    end.

(** A slice of logs is nil when nothing was added to it. *)
Definition PostChainEvents (events : list FeedEvent) (logs : list ChainLog) : go BlockChain unit :=
  gmodify (post (match logs with [] => [] | _ => [LogsEvent logs] end ++ events)).

Definition InsertChain (fuel : nat) (liveFlag : bool) (turns : nat -> Turn) (chain : list Block)
    : go BlockChain (option (Z * ChainError)) :=
  r ← insertChain fuel liveFlag turns chain;
  _ ← PostChainEvents (fst (fst r)) (snd (fst r));
  mret (snd r).

(** The blocks that were put off are tried again, one by one. *)
Definition procFutureBlocks (fuel : nat) (turns : nat -> Turn) : go BlockChain unit :=
  bc ← gget;
  let blocks := omap (fun hash => lru_Peek (futureBlocks bc) hash) (lru_Keys (futureBlocks bc)) in
  match blocks with
  | [] => mret tt
  | _ => for_each (fun _ e => _ ← InsertChain fuel true (fun _ => turns e.1) [e.2]; mret tt) tt (imap (fun i b => (i, b)) (sort_blocks blocks))
  end.

(** ** Headers *)
Definition bc_InsertHeaderChain (fuel : nat) (verify : list Header -> list bool -> nat -> option ChainError) (intn : nat -> Z -> Z)
    (coins stopVerify stopInsert : nat -> bool) (chain : list Header) (checkFreq : Z) : go BlockChain (unit + Z * ChainError) :=
  r ← glift (ValidateHeaderChain (list_to_set BadHashes) stopVerify intn verify chain checkFreq);
  match r with
  | inr e => mret (inr e)
  | inl _ => on_hc (hc_InsertHeaderChain fuel coins stopInsert chain)
  end.

End block_import.
