(* ===== verification/BlockChainProps.v ===== *)
(** * Theorems on the block chain: the store and its lookups

    What is stored of blocks ([blocks_ok]), that the caches agree with it, and the
    walk from two blocks back to the block they have in common. *)
From S2P Require Import Prelude GoMonad Fmt Clique TxList ChainDb ChainDbProps HeaderChain HeaderChainProps BlockChain BlockImport.
Local Open Scope Z_scope.

Section blocks.
Context {KL : KvLib} {KLaws : KvLaws} {HL : HashLib} {HLaws : HashLaws} {CL : CliqueLib} {CLaws : HeaderLaws}
  {TL : TxLib} {LL : LruLib} {LLaws : LruLaws} {BL : ChainLib} {BR : BlockRules}.
Context {RH : RLP Header} {RB : RLP Body} {RZ : RLP Z} {RR : RLP (list ChainReceipt)} {RE : RLP txLookupEntry}.
Context {LH : RLPLaws Header header_ok} {LB : RLPLaws Body body_ok} {LZ : RLPLaws Z (fun z => 0 <= z)}
  {LE : RLPLaws txLookupEntry entry_ok}.

(** ** The blocks of a store *)

(** Every header has its body, with the root it commits to, its number and its total
    difficulty, and every block but the genesis block has its parent.  A total difficulty may be there without
    the block, when the state of the block could not be committed. *)
Record blocks_ok (g : Block) (db : KV) : Prop := {
  bk_header hash n h : is_u64 n -> GetHeader db hash n = Some h ->
    header_ok h /\ Header_Hash h = hash /\ header_number h = Ret n /\ hash <> 0 /\ n < MaxUint64 /\
    GetBlockNumber db hash = n /\ is_Some (GetBody db hash n) /\ is_Some (GetTd db hash n);
  bk_number hash : GetBlockNumber db hash <> missingNumber ->
    is_u64 (GetBlockNumber db hash) /\ is_Some (GetHeader db hash (GetBlockNumber db hash));
  bk_body hash n : is_u64 n -> look db (BodyKey hash n) <> None -> is_Some (GetHeader db hash n);
  bk_td hash n td : is_u64 n -> GetTd db hash n = Some td -> 0 <= td /\
    exists h, Header_Hash h = hash /\ header_number h = Ret n /\
      (n <> 0 -> exists d ptd, Difficulty h = Some d /\ GetTd db (ParentHash h) (n - 1) = Some ptd /\ td = d + ptd);
  bk_parent hash n h : is_u64 n -> n <> 0 -> GetHeader db hash n = Some h -> is_Some (GetHeader db (ParentHash h) (n - 1));
  bk_genesis hash h : GetHeader db hash 0 = Some h -> h = block_header g;
  bk_root : GetBlock db (block_Hash g) 0 = Some g;
  bk_txs hash n b : is_u64 n -> GetBlock db hash n = Some b -> DeriveSha_block (block_txs b) = TxHash (block_header b)
}.

(** The items [blocks_ok] is about. *)
Definition is_block (k : Key) : Prop :=
  match k with HeaderKey _ _ | TdKey _ _ | NumberKey _ | BodyKey _ _ => True | _ => False end.

Definition same_blocks (db db' : KV) : Prop := forall k, key_ok k -> is_block k -> look db' k = look db k.

Lemma same_blocks_trans a b c : same_blocks a b -> same_blocks b c -> same_blocks a c.
Proof. intros H1 H2 k Hk Hb. by rewrite H2, H1. Qed.

Lemma same_blocks_data db db' : same_blocks db db' -> same_data db db'.
Proof. intros Hs k Hk Hd. apply Hs; [done|]. by destruct k. Qed.

Lemma same_but_blocks ks db db' : same_but ks db db' -> Forall (fun k => ~ is_block k) ks -> same_blocks db db'.
Proof. intros Hs Hf k Hk Hd. apply Hs; [done|]. intros Hin. rewrite Forall_forall in Hf. by apply (Hf k). Qed.

Section same_blocks.
Context (db db' : KV) (Hs : same_blocks db db').

Lemma same_blocks_header hash n : is_u64 n -> GetHeader db' hash n = GetHeader db hash n.
Proof. apply same_data_header. by apply same_blocks_data. Qed.

Lemma same_blocks_td hash n : is_u64 n -> GetTd db' hash n = GetTd db hash n.
Proof. apply same_data_td. by apply same_blocks_data. Qed.

Lemma same_blocks_number hash : GetBlockNumber db' hash = GetBlockNumber db hash.
Proof. apply same_data_number. by apply same_blocks_data. Qed.

Lemma same_blocks_body hash n : is_u64 n -> GetBody db' hash n = GetBody db hash n.
Proof. intros Hn. unfold GetBody, stored. by rewrite (Hs (BodyKey hash n) Hn I). Qed.

Lemma same_blocks_block hash n : is_u64 n -> GetBlock db' hash n = GetBlock db hash n.
Proof. intros Hn. unfold GetBlock. by rewrite same_blocks_header, same_blocks_body. Qed.

Lemma blocks_ok_same g : blocks_ok g db -> blocks_ok g db'.
Proof.
  intros [H1 H2 H3 H4 H5 H6 H7 H8]. assert (Z0 : is_u64 0) by (unfold is_u64, MaxUint64; lia). split.
  - intros hash n h Hn. rewrite same_blocks_header, same_blocks_number, same_blocks_body, same_blocks_td by done. by apply H1.
  - intros hash. rewrite same_blocks_number. intros Hne. destruct (H2 hash Hne) as [Hu Hh]. by rewrite same_blocks_header.
  - intros hash n Hn. rewrite (Hs (BodyKey hash n) Hn I), same_blocks_header by done. by apply H3.
  - intros hash n td Hn. rewrite same_blocks_td by done. intros E. destruct (H4 hash n td Hn E) as (Htd & h & Eh & En & Hp).
    split; [done|]. exists h. split; [done|]. split; [done|]. intros H0. rewrite same_blocks_td by (unfold is_u64 in *; lia). by apply Hp.
  - intros hash n h Hn H0. rewrite same_blocks_header by done. intros E. rewrite same_blocks_header by (unfold is_u64 in *; lia). by apply (H5 hash).
  - intros hash h. rewrite same_blocks_header by done. apply H6.
  - by rewrite same_blocks_block.
  - intros hash n b Hn. rewrite same_blocks_block by done. by apply H8.
Qed.

End same_blocks.

(** ** What is known of a block *)
Section known.
Context (g : Block) (db : KV) (Hdb : blocks_ok g db).

Lemma block_parts hash n b : GetBlock db hash n = Some b ->
  GetHeader db hash n = Some (block_header b) /\ GetBody db hash n = Some (block_Body b).
Proof. unfold GetBlock. destruct (GetHeader db hash n), (GetBody db hash n) as [[]|]; try done. by intros [= <-]. Qed.

Lemma block_known hash n b : is_u64 n -> GetBlock db hash n = Some b ->
  header_ok (block_header b) /\ block_Hash b = hash /\ block_Number b = Ret n /\ hash <> 0 /\ n < MaxUint64.
Proof.
  intros Hn [Eh _]%block_parts. destruct (bk_header _ _ Hdb _ _ _ Hn Eh) as (? & ? & ? & ? & ? & _). done.
Qed.

Lemma header_block hash n h : is_u64 n -> GetHeader db hash n = Some h ->
  exists b, GetBlock db hash n = Some b /\ block_header b = h.
Proof.
  intros Hn E. destruct (bk_header _ _ Hdb _ _ _ Hn E) as (_ & _ & _ & _ & _ & _ & [body Eb] & _).
  unfold GetBlock. rewrite E, Eb. eauto.
Qed.

Lemma blocks_header_unique hash n m h h' :
  is_u64 n -> is_u64 m -> GetHeader db hash n = Some h -> GetHeader db hash m = Some h' -> n = m /\ h = h'.
Proof.
  intros Hn Hm E E'. destruct (bk_header _ _ Hdb _ _ _ Hn E) as (_ & _ & _ & _ & _ & N1 & _).
  destruct (bk_header _ _ Hdb _ _ _ Hm E') as (_ & _ & _ & _ & _ & N2 & _). subst. by rewrite E in E'; injection E'.
Qed.

Lemma blocks_unique hash n m b b' :
  is_u64 n -> is_u64 m -> GetBlock db hash n = Some b -> GetBlock db hash m = Some b' -> n = m /\ b = b'.
Proof.
  intros Hn Hm E E'. destruct (block_parts _ _ _ E) as [Eh _]. destruct (block_parts _ _ _ E') as [Eh' _].
  destruct (blocks_header_unique _ _ _ _ _ Hn Hm Eh Eh') as [-> _]. rewrite E in E'. by injection E'.
Qed.

Lemma blocks_td_unique hash n m td td' :
  is_u64 n -> is_u64 m -> GetTd db hash n = Some td -> GetTd db hash m = Some td' -> n = m /\ td = td'.
Proof.
  intros Hn Hm E E'. destruct (bk_td _ _ Hdb _ _ _ Hn E) as (_ & h & Eh & En & _).
  destruct (bk_td _ _ Hdb _ _ _ Hm E') as (_ & h' & Eh' & Em & _). rewrite <- Eh' in Eh. apply hash_inj in Eh as ->.
  rewrite En in Em. injection Em as <-. rewrite E in E'. by injection E'.
Qed.

Lemma block_parent n b : is_u64 n -> n <> 0 -> GetBlock db (block_Hash b) n = Some b ->
  exists p, GetBlock db (block_ParentHash b) (n - 1) = Some p.
Proof.
  intros Hn H0 [Eh _]%block_parts. destruct (bk_parent _ _ Hdb _ _ _ Hn H0 Eh) as [h E].
  assert (Hn1 : is_u64 (n - 1)) by (unfold is_u64 in *; lia). destruct (header_block _ _ _ Hn1 E) as (p & Ep & _). by exists p.
Qed.

Lemma block_genesis hash b : GetBlock db hash 0 = Some b -> b = g.
Proof.
  intros E. assert (Z0 : is_u64 0) by (unfold is_u64, MaxUint64; lia). destruct (block_parts _ _ _ E) as [Eh _].
  pose proof (bk_genesis _ _ Hdb _ _ Eh) as Eg. destruct (bk_header _ _ Hdb _ _ _ Z0 Eh) as (_ & Ehash & _).
  pose proof (bk_root _ _ Hdb) as Er. unfold block_Hash in Er. rewrite <- Eg, Ehash, E in Er. by injection Er.
Qed.

End known.

(** ** Lookups *)

(** The caches have what the store has. *)
Record bc_caches (bc : BlockChain) : Prop := {
  bcc_hc : caches_ok (bc_hc bc);
  bcc_block hash b : lru_Peek (blockCache bc) hash = Some b -> exists n, is_u64 n /\ GetBlock (bc_db bc) hash n = Some b
}.

(** Only caches changed. *)
Definition quiet (bc bc' : BlockChain) : Prop :=
  bc_db bc' = bc_db bc /\ genesisBlock bc' = genesisBlock bc /\ currentBlock bc' = currentBlock bc /\
  futureBlocks bc' = futureBlocks bc /\ bc_sent bc' = bc_sent bc /\ currentHeader (bc_hc bc') = currentHeader (bc_hc bc).

Lemma quiet_refl bc : quiet bc bc.
Proof. done. Qed.

Lemma quiet_trans a b c : quiet a b -> quiet b c -> quiet a c.
Proof. unfold quiet. intuition congruence. Qed.

Lemma on_hc_run {A : Type} (m : go HeaderChain A) bc a hc' : m (bc_hc bc) = Ret (a, hc') -> on_hc m bc = Ret (a, set_hc hc' bc).
Proof. unfold on_hc. by intros ->. Qed.

Lemma bind_on_db {A : Type} (f : KV -> KV) (k : unit -> go BlockChain A) bc :
  (on_db f ≫= k) bc = k tt (set_hc (with_hc_db (f (bc_db bc)) (bc_hc bc)) bc).
Proof. done. Qed.

Lemma bind_on_hc {A B : Type} (m : go HeaderChain A) (k : A -> go BlockChain B) bc a hc' :
  m (bc_hc bc) = Ret (a, hc') -> (on_hc m ≫= k) bc = k a (set_hc hc' bc).
Proof. intros E. by rewrite (bind_run _ _ _ _ _ (on_hc_run m bc a hc' E)). Qed.

(** A lookup of the header chain changes caches only. *)
Lemma quiet_hc bc hc' : bc_caches bc -> same_chain (bc_hc bc) hc' -> caches_ok hc' ->
  quiet bc (set_hc hc' bc) /\ bc_caches (set_hc hc' bc).
Proof.
  intros [Hh Hb] (Ed & _ & Ec & _) Hc. split; [by split_and!|]. split; [done|]. cbn. intros hash b E. destruct (Hb hash b E) as (n & Hn & E').
  exists n. unfold bc_db in *. cbn. by rewrite Ed.
Qed.

Section lookups.
Context (g : Block) (bc : BlockChain) (Hdb : blocks_ok g (bc_db bc)) (Hc : bc_caches bc).

Lemma on_hc_GetTd hash n : is_u64 n ->
  exists r bc', on_hc (hc_GetTd hash n) bc = Ret (r, bc') /\ quiet bc bc' /\ bc_caches bc' /\
    (forall td, r = Some td -> exists m, is_u64 m /\ GetTd (bc_db bc) hash m = Some td) /\
    (forall td, GetTd (bc_db bc) hash n = Some td -> r = Some td).
Proof.
  intros Hn. destruct (cached_run tdCache with_tdCache hash (fun db => GetTd db hash n) (bc_hc bc)) as (c & E & Hp); [done..|].
  pose proof (bcc_hc _ Hc) as Hch. set (r := match lru_Peek (tdCache (bc_hc bc)) hash with Some v => Some v | None => _ end) in E.
  assert (Hk : caches_ok (with_tdCache c (bc_hc bc))).
  { split; cbn; try apply Hch. intros k td Hk. destruct (Hp k td Hk) as [Hk'|[-> Ef]]; [by apply Hch|eauto]. }
  destruct (quiet_hc bc (with_tdCache c (bc_hc bc)) Hc ltac:(done) Hk) as [Q C].
  exists r. eexists. split; [apply on_hc_run, E|]. split; [exact Q|]. split; [exact C|]. unfold r. split.
  - intros td. destruct (lru_Peek (tdCache (bc_hc bc)) hash) eqn:Ek; [intros [= ->]; by apply Hch|eauto].
  - intros td Etd. destruct (lru_Peek (tdCache (bc_hc bc)) hash) as [td'|] eqn:Ek; [|done].
    destruct (co_td _ Hch _ _ Ek) as (m & Hm & Em). by destruct (blocks_td_unique g _ Hdb _ _ _ _ _ Hn Hm Etd Em) as [_ ->].
Qed.

Lemma on_hc_GetBlockNumber hash :
  exists bc', on_hc (hc_GetBlockNumber hash) bc = Ret (GetBlockNumber (bc_db bc) hash, bc') /\ quiet bc bc' /\ bc_caches bc'.
Proof.
  destruct (hc_GetBlockNumber_run (bc_hc bc) (bcc_hc _ Hc) hash) as (hc' & E & Hs & Hk).
  destruct (quiet_hc bc hc' Hc Hs Hk) as [Q C]. exists (set_hc hc' bc). split; [by apply on_hc_run|done].
Qed.

Lemma bc_GetBlock_run hash n : is_u64 n ->
  exists r bc', bc_GetBlock hash n bc = Ret (r, bc') /\ quiet bc bc' /\ bc_caches bc' /\
    (forall b, r = Some b -> exists m, is_u64 m /\ GetBlock (bc_db bc) hash m = Some b) /\
    (forall b, GetBlock (bc_db bc) hash n = Some b -> r = Some b).
Proof.
  intros Hn. unfold bc_GetBlock. rewrite bind_gget, bind_gmodify, lru_Get_Peek.
  assert (C1 : bc_caches (set_blockCache (snd (lru_Get (blockCache bc) hash)) bc)).
  { split; [apply Hc|]. cbn. intros k b. rewrite lru_Peek_Get. apply Hc. }
  destruct (lru_Peek (blockCache bc) hash) as [b|] eqn:Ek.
  - destruct (bcc_block _ Hc _ _ Ek) as (m & Hm & Em). eexists _, _. split; [done|]. split; [done|]. split; [done|].
    split; [intros b' [= <-]; eauto|]. intros b' Eb. by destruct (blocks_unique g _ Hdb _ _ _ _ _ Hn Hm Eb Em) as [_ ->].
  - destruct (GetBlock (bc_db bc) hash n) as [b|] eqn:Eb.
    + rewrite bind_gmodify. eexists _, _. split; [done|]. split; [done|]. split; [|split; [intros b' [= <-]; eauto|done]].
      split; [apply Hc|]. cbn. intros k x Hk%lru_Peek_Add. destruct (block_known g _ Hdb _ _ _ Hn Eb) as (_ & Eh & _).
      destruct (decide (k = block_Hash b)) as [->|]; [subst x; exists n; by rewrite Eh|]. rewrite lru_Peek_Get in Hk. by apply Hc.
    + eexists _, _. split; [done|]. split; [done|]. split; [done|]. by split.
Qed.

End lookups.

(** ** Walking back *)

(** From [b] back to [a] the chain goes through [l]; [a] is not one of them. *)
Inductive path (db : KV) : Block -> list Block -> Block -> Prop :=
| path_here b : path db b [] b
| path_step b n p l a : block_Number b = Ret n -> 0 < n -> is_u64 n -> GetBlock db (block_ParentHash b) (n - 1) = Some p ->
    path db p l a -> path db b (b :: l) a.

Lemma path_app db b l c l' a : path db b l c -> path db c l' a -> path db b (l ++ l') a.
Proof. intros H1 H2. induction H1 as [|b n p l c En Hn Hu Ep _ IH]; [done|]. cbn. by eapply path_step; eauto. Qed.

Lemma path_same db db' b l a : same_blocks db db' -> path db b l a -> path db' b l a.
Proof.
  intros Hs H. induction H as [|b n p l a En Hn Hu Ep _ IH]; [constructor|]. eapply path_step; eauto.
  rewrite (same_blocks_block _ _ Hs); [done|unfold is_u64 in *; lia].
Qed.

(** A block that is known, or new; its parent is known, and it is the genesis
    block if it has no parent. *)
Definition good (g : Block) (db : KV) (b : Block) (n : Z) : Prop :=
  block_Number b = Ret n /\ is_u64 n /\ (0 < n -> exists p, GetBlock db (block_ParentHash b) (n - 1) = Some p) /\ (n = 0 -> b = g).

(** A computation that only looks things up. *)
Definition looks {A : Type} (m : go BlockChain A) (db : KV) (Q : A -> Prop) : Prop :=
  forall bc, bc_db bc = db -> bc_caches bc -> exists a bc', m bc = Ret (a, bc') /\ quiet bc bc' /\ bc_caches bc' /\ Q a.

Lemma looks_ret {A : Type} (a : A) db (Q : A -> Prop) : Q a -> looks (mret a) db Q.
Proof. intros HQ bc Hdb Hc. by exists a, bc. Qed.

Lemma looks_bind {A B : Type} (m : go BlockChain A) (f : A -> go BlockChain B) db P Q :
  looks m db P -> (forall a, P a -> looks (f a) db Q) -> looks (m ≫= f) db Q.
Proof.
  intros Hm Hf bc Hdb Hc. destruct (Hm bc Hdb Hc) as (a & bc1 & E1 & Q1 & C1 & Pa).
  destruct (Hf a Pa bc1 ltac:(by destruct Q1 as [-> _]) C1) as (b & bc2 & E2 & Q2 & C2 & Qb).
  exists b, bc2. rewrite (bind_run _ _ _ _ _ E1). split; [done|]. split; [by apply (quiet_trans _ bc1)|done].
Qed.

Lemma looks_weaken {A : Type} (m : go BlockChain A) db (P Q : A -> Prop) : looks m db P -> (forall a, P a -> Q a) -> looks m db Q.
Proof. intros Hm HPQ bc Hdb Hc. destruct (Hm bc Hdb Hc) as (a & bc1 & E1 & Q1 & C1 & Pa). exists a, bc1. auto. Qed.

Lemma looks_glift {A B : Type} (o : outcome A) (f : A -> go BlockChain B) a db Q : o = Ret a -> looks (f a) db Q -> looks (glift o ≫= f) db Q.
Proof. intros -> Hf bc Hdb Hc. rewrite (bind_glift _ _ _ _ eq_refl). by apply Hf. Qed.

Section walks.
Context (g : Block) (db : KV) (Hdb : blocks_ok g db).

Lemma stored_good n b : is_u64 n -> GetBlock db (block_Hash b) n = Some b -> good g db b n.
Proof.
  intros Hn E. destruct (block_known g db Hdb _ _ _ Hn E) as (_ & _ & En & _). split; [done|]. split; [done|]. split.
  - intros H0. apply (block_parent g db Hdb); [done|lia|done].
  - intros ->. by apply (block_genesis g db Hdb (block_Hash b)).
Qed.

Lemma good_parent b n : good g db b n -> 0 < n ->
  exists p, GetBlock db (block_ParentHash b) (n - 1) = Some p /\ GetBlock db (block_Hash p) (n - 1) = Some p /\ good g db p (n - 1).
Proof.
  intros (En & Hn & Hp & _) H0. destruct (Hp H0) as [p Ep]. assert (Hn1 : is_u64 (n - 1)) by (unfold is_u64 in *; lia).
  destruct (block_known g db Hdb _ _ _ Hn1 Ep) as (_ & Eh & _). exists p. rewrite Eh. split; [done|]. split; [done|].
  apply stored_good; [done|]. by rewrite Eh.
Qed.

Lemma good_path b n p l a : good g db b n -> 0 < n -> GetBlock db (block_ParentHash b) (n - 1) = Some p -> path db p l a -> path db b (b :: l) a.
Proof. intros (En & Hn & _) H0 Ep Hl. by eapply path_step. Qed.

Lemma bc_GetBlock_looks hash n b : is_u64 n -> GetBlock db hash n = Some b -> looks (bc_GetBlock hash n) db (fun r => r = Some b).
Proof.
  intros Hn E bc <- Hc. destruct (bc_GetBlock_run g bc Hdb Hc hash n Hn) as (r & bc' & Er & Q & C & _ & Hr). exists r, bc'. auto.
Qed.

Lemma bc_parent_looks b n p : good g db b n -> 0 < n -> GetBlock db (block_ParentHash b) (n - 1) = Some p ->
  looks (bc_parent b) db (fun r => r = Some p).
Proof.
  intros (En & Hn & _) H0 Ep. unfold bc_parent. apply (looks_glift _ _ n); [done|].
  rewrite u64_small by (unfold is_u64 in *; lia). apply bc_GetBlock_looks; [unfold is_u64 in *; lia|done].
Qed.

Lemma collectLogs_looks hash : looks (collectLogs hash) db (fun _ => True).
Proof.
  intros bc Hd Hc. destruct (on_hc_GetBlockNumber bc Hc hash) as (bc' & E & Q & C).
  eexists _, bc'. unfold collectLogs. rewrite (bind_run _ _ _ _ _ E), bind_gget. done.
Qed.

Lemma reduce_new_looks target : 0 <= target -> forall fuel b n chain, good g db b n -> target <= n -> n - target <= Z.of_nat fuel ->
  looks (reduce_new fuel (Some b) target chain) db (fun r => exists a l, r = (Some a, chain ++ l) /\ path db b l a /\ good g db a target /\
    (l <> [] -> GetBlock db (block_Hash a) target = Some a)).
Proof.
  intros Ht. induction fuel as [|fuel IH]; intros b n chain Hb Hle Hf; pose proof Hb as (En & Hn & _); cbn [reduce_new];
    apply (looks_glift _ _ n); try done; destruct (Z.eqb_spec n target) as [->|Hne]; try lia.
  1,2: apply looks_ret; exists b, []; rewrite app_nil_r; (split; [done|]); (split; [constructor|]); by split.
  destruct (good_parent b n Hb ltac:(lia)) as (p & Ep & Es & Hp).
  apply (looks_bind _ _ _ _ _ (bc_parent_looks b n p Hb ltac:(lia) Ep)). intros r ->.
  apply (looks_weaken _ _ _ _ (IH p (n - 1) (chain ++ [b]) Hp ltac:(lia) ltac:(lia))).
  intros r (a & l & -> & Hl & Ha & Hs). exists a, (b :: l). rewrite <- app_assoc. split; [done|].
  split; [by apply (good_path b n p); try lia|]. split; [done|]. intros _. destruct l as [|x l]; [|by apply Hs].
  inversion Hl; subst. destruct Ha as (En' & _). destruct Hp as (En'' & _). rewrite En' in En''. injection En'' as ->. done.
Qed.

Lemma reduce_old_looks target : 0 <= target -> forall fuel b n chain logs, good g db b n -> target <= n -> n - target <= Z.of_nat fuel ->
  GetBlock db (block_Hash b) n = Some b ->
  looks (reduce_old fuel (Some b) target chain logs) db (fun r => exists a l logs', r = (Some a, chain ++ l, logs') /\ path db b l a /\
    good g db a target /\ GetBlock db (block_Hash a) target = Some a).
Proof.
  intros Ht. induction fuel as [|fuel IH]; intros b n chain logs Hb Hle Hf Es; pose proof Hb as (En & Hn & _); cbn [reduce_old];
    apply (looks_glift _ _ n); try done; destruct (Z.eqb_spec n target) as [->|Hne]; try lia.
  1,2: apply looks_ret; exists b, [], logs; rewrite app_nil_r; (split; [done|]); (split; [constructor|]); by split.
  destruct (good_parent b n Hb ltac:(lia)) as (p & Ep & Esp & Hp).
  apply (looks_bind _ _ _ _ _ (collectLogs_looks (block_Hash b))). intros more _.
  apply (looks_bind _ _ _ _ _ (bc_parent_looks b n p Hb ltac:(lia) Ep)). intros r ->.
  apply (looks_weaken _ _ _ _ (IH p (n - 1) (chain ++ [b]) (logs ++ more) Hp ltac:(lia) ltac:(lia) Esp)).
  intros r (a & l & logs' & -> & Hl & Ha). exists a, (b :: l), logs'. rewrite <- app_assoc. split; [done|].
  split; [by apply (good_path b n p); try lia|done].
Qed.

(** Known with this body, or not known at all. *)
Definition known_or_new (b : Block) (n : Z) : Prop :=
  GetBlock db (block_Hash b) n = Some b \/ forall m, is_u64 m -> GetHeader db (block_Hash b) m = None.

Lemma find_common_looks : forall fuel old new n oldChain newChain logs, good g db old n -> good g db new n -> n <= Z.of_nat fuel ->
  GetBlock db (block_Hash old) n = Some old -> known_or_new new n ->
  looks (find_common fuel old new oldChain newChain logs) db (fun r => exists a k lo ln logs',
    r = inl (oldChain ++ lo, newChain ++ ln, logs') /\ path db old lo a /\ path db new ln a /\ is_u64 k /\ k <= n /\
    GetBlock db (block_Hash a) k = Some a).
Proof.
  intros fuel. induction fuel as [|fuel IH]; intros old new n oldChain newChain logs Ho Hn Hf Es Hk;
    pose proof Ho as (En & Hu & _ & Hg); cbn [find_common].
  all: assert (Hsame : block_Hash old = block_Hash new -> old = new).
  1,3: intros E; destruct (block_parts _ _ _ _ Es) as [Eh _]; destruct Hk as [Hk|Hk];
    [rewrite <- E, Es in Hk; by injection Hk|rewrite E, (Hk n Hu) in Eh; done].
  all: destruct (Z.eqb_spec (block_Hash old) (block_Hash new)) as [E|Hne].
  1,3: apply looks_ret; exists old, n, [], [], logs; rewrite !app_nil_r; (split; [done|]); rewrite <- (Hsame E);
    (split; [constructor|]); (split; [constructor|]); (split; [done|]); split; [lia|done].
  1: unfold is_u64 in Hu; exfalso; apply Hne; destruct Hn as (_ & _ & _ & Hn); rewrite Hg, Hn by lia; done.
  assert (H0 : 0 < n).
  { unfold is_u64 in Hu. destruct (Z.eq_dec n 0) as [->|]; [|lia]. exfalso. apply Hne. destruct Hn as (_ & _ & _ & Hn). rewrite Hg, Hn by lia. done. }
  destruct (good_parent old n Ho H0) as (p & Ep & Esp & Hp). destruct (good_parent new n Hn H0) as (q & Eq & Esq & Hq).
  apply (looks_bind _ _ _ _ _ (collectLogs_looks (block_Hash old))). intros more _.
  apply (looks_bind _ _ _ _ _ (bc_parent_looks old n p Ho H0 Ep)). intros r ->.
  apply (looks_bind _ _ _ _ _ (bc_parent_looks new n q Hn H0 Eq)). intros r ->.
  apply (looks_weaken _ _ _ _ (IH p q (n - 1) (oldChain ++ [old]) (newChain ++ [new]) (logs ++ more) Hp Hq ltac:(lia) Esp (or_introl Esq))).
  intros r (a & k & lo & ln & logs' & -> & Hlo & Hln & Hk1 & Hk2 & Ek). exists a, k, (old :: lo), (new :: ln), logs'.
  rewrite <- !app_assoc. split; [done|]. split; [by apply (good_path old n p)|]. split; [by apply (good_path new n q)|].
  split; [done|]. split; [lia|done].
Qed.

End walks.

(** The two branches of a fork. *)
Lemma branches_looks g db fuel old new n m : blocks_ok g db -> good g db old n -> good g db new m ->
  GetBlock db (block_Hash old) n = Some old -> known_or_new db new m -> n <= Z.of_nat fuel -> m <= Z.of_nat fuel ->
  looks (branches fuel old new) db (fun r => exists a k lo ln logs, r = inl (lo, ln, logs) /\ path db old lo a /\ path db new ln a /\
    is_u64 k /\ k <= n /\ k <= m /\ GetBlock db (block_Hash a) k = Some a).
Proof.
  intros Hdb Ho Hn Es Hk Hf1 Hf2. pose proof Ho as (En & Hu & _). pose proof Hn as (Em & Hv & _). unfold branches.
  apply (looks_glift _ _ n); [done|]. apply (looks_glift _ _ m); [done|]. rewrite Z.gtb_ltb. unfold is_u64 in Hu, Hv.
  destruct (Z.ltb_spec m n) as [Hlt|Hle].
  - apply (looks_bind _ _ _ _ _ (reduce_old_looks g db Hdb m ltac:(lia) fuel old n [] [] Ho ltac:(lia) ltac:(lia) Es)).
    intros r (c & l & logs & -> & Hl & Hc & Ec).
    apply (looks_weaken _ _ _ _ (find_common_looks g db Hdb fuel c new m ([] ++ l) [] logs Hc Hn ltac:(lia) Ec Hk)).
    intros r (a & k & lo & ln & logs' & -> & Hlo & Hln & Hk1 & Hk2 & Ea). exists a, k, (l ++ lo), ln, logs'. split; [done|].
    split; [by apply (path_app db old l c)|]. split; [done|]. split; [done|]. split; [lia|]. by split.
  - apply (looks_bind _ _ _ _ _ (reduce_new_looks g db Hdb n ltac:(lia) fuel new m [] Hn ltac:(lia) ltac:(lia))).
    intros r (c & l & -> & Hl & Hc & Ec).
    assert (Hkc : known_or_new db c n).
    { destruct l as [|x l]; [|left; by apply Ec]. inversion Hl; subst. destruct Hc as (En' & _). rewrite Em in En'. injection En' as <-. done. }
    apply (looks_weaken _ _ _ _ (find_common_looks g db Hdb fuel old c n [] ([] ++ l) [] Ho Hc ltac:(lia) Es Hkc)).
    intros r (a & k & lo & ln & logs' & -> & Hlo & Hln & Hk1 & Hk2 & Ea). exists a, k, lo, (l ++ ln), logs'. split; [done|].
    split; [done|]. split; [by apply (path_app db new l c)|]. split; [done|]. split; [lia|]. split; [lia|done].
Qed.

(** ** Numbers along a path *)
Fixpoint numbered (n : Z) (l : list Block) : Prop :=
  match l with
  | [] => True
  | x :: l' => block_Number x = Ret n /\ is_u64 n /\ numbered (n - 1) l'
  end.

Lemma numbered_in n l x : numbered n l -> x ∈ l ->
  exists m, block_Number x = Ret m /\ is_u64 m /\ n - Z.of_nat (length l) < m <= n.
Proof.
  revert n. induction l as [|y l IH]; intros n Hl Hx; [by apply elem_of_nil in Hx|]. destruct Hl as (En & Hn & Hl). cbn [length].
  apply elem_of_cons in Hx as [->|Hx]; [exists n; split; [done|]; split; [done|lia]|].
  destruct (IH _ Hl Hx) as (m & Em & Hm & Hr). exists m. split; [done|]. split; [done|lia].
Qed.

Section paths.
Context (g : Block) (db : KV) (Hdb : blocks_ok g db).

Lemma path_numbers b l a : path db b l a -> forall n k, block_Number b = Ret n -> block_Number a = Ret k ->
  n = k + Z.of_nat (length l) /\ numbered n l.
Proof.
  induction 1 as [b|b n p l a En H0 Hu Ep _ IH]; intros n' k En' Ek.
  - rewrite En' in Ek. injection Ek as ->. cbn. split; [lia|done].
  - rewrite En in En'. injection En' as <-. assert (Hn1 : is_u64 (n - 1)) by (unfold is_u64 in *; lia).
    destruct (block_known g db Hdb _ _ _ Hn1 Ep) as (_ & _ & Ep' & _). destruct (IH _ _ Ep' Ek) as [E Hl]. cbn. split; [lia|done].
Qed.

(** A path is determined by where it starts and its length. *)
Lemma path_det b l a l' a' : path db b l a -> path db b l' a' -> length l = length l' -> l = l' /\ a = a'.
Proof.
  intros H1. revert l' a'. induction H1 as [b|b n p l a En H0 Hu Ep _ IH]; intros l' a' H2 Hlen; destruct H2 as [|b m q l' a' Em _ _ Eq H2]; try done.
  rewrite En in Em. injection Em as <-. rewrite Ep in Eq. injection Eq as <-. destruct (IH _ _ H2) as [-> ->]; [by injection Hlen|done].
Qed.

(** Every block has a path to the genesis block. *)
Lemma path_genesis b n : good g db b n -> exists l, path db b l g.
Proof.
  intros Hb. assert (Hn : 0 <= n) by (destruct Hb as (_ & Hu & _); unfold is_u64 in Hu; lia).
  remember (Z.to_nat n) as k eqn:Ek. revert b n Hb Hn Ek. induction k as [|k IH]; intros b n Hb Hn Ek.
  - destruct Hb as (_ & _ & _ & Hg). rewrite Hg by lia. exists []. constructor.
  - destruct (good_parent g db Hdb b n Hb ltac:(lia)) as (p & Ep & _ & Hp). destruct (IH p (n - 1) Hp ltac:(lia) ltac:(lia)) as [l Hl].
    exists (b :: l). apply (good_path g db b n p); [done|lia|done|done].
Qed.

End paths.

End blocks.
