(* ===== verification/BlockImportProps.v ===== *)
(** * Theorems on the import of blocks

    Whatever blocks are written in whatever order, the canonical chain is the
    heaviest one, it is linked down to the genesis block, and every transaction on
    it is found by its hash. *)
From S2P Require Import Prelude GoMonad Fmt Clique TxList ChainDb ChainDbProps HeaderChain HeaderChainProps.
From S2P Require Import BlockChain BlockImport BlockChainProps.
Local Open Scope Z_scope.

(** What the documentation of MoacLib says of states and sets of transactions. *)
Class ChainLaws {KL : KvLib} {HL : HashLib} {CL : CliqueLib} {TL : TxLib} {BL : ChainLib} : Prop := {
  tx_difference_spec a b tx : tx ∈ tx_difference a b <-> tx ∈ a /\ Tx_Hash tx ∉ Tx_Hash <$> b;
  CommitTo_keys s b root b' : CommitTo s b = inl (root, b') ->
    exists l, b' = b ++ l /\ Forall (fun e : list Z * list Z => length e.1 = 32%nat \/ exists h, e.1 = key (PreimageKey h)) l
}.

Section block_import.
Context {KL : KvLib} {KLaws : KvLaws} {HL : HashLib} {HLaws : HashLaws} {CL : CliqueLib} {CLaws : HeaderLaws}
  {TL : TxLib} {LL : LruLib} {LLaws : LruLaws} {BL : ChainLib} {BLaws : ChainLaws} {BR : BlockRules}.
Context {RH : RLP Header} {RB : RLP Body} {RZ : RLP Z} {RR : RLP (list ChainReceipt)} {RE : RLP txLookupEntry}.
Context {LH : RLPLaws Header header_ok} {LB : RLPLaws Body body_ok} {LZ : RLPLaws Z (fun z => 0 <= z)}
  {LE : RLPLaws txLookupEntry entry_ok}.

(** ** Changes of the store *)

(** The stores agree except on the items of [P]. *)
Definition changed (P : Key -> Prop) (db db' : KV) : Prop := forall k, key_ok k -> ~ P k -> look db' k = look db k.

Lemma changed_refl P db : changed P db db.
Proof. done. Qed.

Lemma changed_trans (P Q R : Key -> Prop) a b c : changed P a b -> changed Q b c -> (forall k, P k \/ Q k -> R k) -> changed R a c.
Proof. intros H1 H2 HR k Hk Hn. rewrite H2, H1; [done|done| |done|]; intros Hp; apply Hn, HR; auto. Qed.

Lemma changed_weaken (P Q : Key -> Prop) db db' : changed P db db' -> (forall k, P k -> Q k) -> changed Q db db'.
Proof. intros Hc HP k Hk Hn. apply Hc; auto. Qed.

Lemma same_but_changed ks db db' : same_but ks db db' -> changed (fun k => k ∈ ks) db db'.
Proof. intros Hs k Hk Hn. by apply Hs. Qed.

Lemma changed_put db k v : key_ok k -> changed (eq k) db (put db k v).
Proof. intros Hk k' Hk' Hn. rewrite look_put, decide_False by (done || congruence). done. Qed.

Lemma changed_drop db k : key_ok k -> changed (eq k) db (drop_key db k).
Proof. intros Hk k' Hk' Hn. rewrite look_drop, decide_False by (done || congruence). done. Qed.

Lemma changed_blocks P db db' : changed P db db' -> (forall k, P k -> ~ is_block k) -> same_blocks db db'.
Proof. intros Hc HP k Hk Hb. apply Hc; [done|]. intros Hp. by apply (HP k). Qed.

Lemma changed_canonical P db db' n : changed P db db' -> is_u64 n -> ~ P (CanonicalKey n) -> GetCanonicalHash db' n = GetCanonicalHash db n.
Proof. intros Hc Hn HP. unfold GetCanonicalHash, stored_hash. by rewrite (Hc (CanonicalKey n) Hn HP). Qed.

Lemma changed_lookup P db db' h : changed P db db' -> ~ P (LookupKey h) -> GetTxLookupEntry db' h = GetTxLookupEntry db h.
Proof. intros Hc HP. unfold GetTxLookupEntry, stored. by rewrite (Hc (LookupKey h) I HP). Qed.

Lemma changed_headblock P db db' : changed P db db' -> ~ P HeadBlockKey -> GetHeadBlockHash db' = GetHeadBlockHash db.
Proof. intros Hc HP. unfold GetHeadBlockHash, stored_hash. by rewrite (Hc HeadBlockKey I HP). Qed.

(** Nothing but the store and the heads changed. *)
Definition calm (bc bc' : BlockChain) : Prop :=
  headerCache (bc_hc bc') = headerCache (bc_hc bc) /\ tdCache (bc_hc bc') = tdCache (bc_hc bc) /\
  numberCache (bc_hc bc') = numberCache (bc_hc bc) /\ blockCache bc' = blockCache bc /\ genesisBlock bc' = genesisBlock bc /\
  futureBlocks bc' = futureBlocks bc /\ bc_sent bc' = bc_sent bc.

Lemma calm_trans a b c : calm a b -> calm b c -> calm a c.
Proof. unfold calm. intuition congruence. Qed.

Lemma caches_calm bc bc' : bc_caches bc -> calm bc bc' -> same_blocks (bc_db bc) (bc_db bc') -> bc_caches bc'.
Proof.
  intros [[H1 H2 H3] H4] (E1 & E2 & E3 & E4 & _) Hs. unfold bc_db in *. split; [split|].
  - rewrite E1. intros hash h Hk. destruct (H1 _ _ Hk) as (n & Hn & E). exists n. by rewrite (same_blocks_header _ _ Hs).
  - rewrite E2. intros hash td Hk. destruct (H2 _ _ Hk) as (n & Hn & E). exists n. by rewrite (same_blocks_td _ _ Hs).
  - rewrite E3. intros hash n Hk. rewrite (same_blocks_number _ _ Hs). by apply H3.
  - rewrite E4. intros hash b Hk. destruct (H4 _ _ Hk) as (n & Hn & E). exists n. unfold bc_db in *. by rewrite (same_blocks_block _ _ Hs).
Qed.

(** ** A new head *)
Definition is_head (k : Key) : Prop := match k with HeadHeaderKey | HeadBlockKey | HeadFastKey => True | _ => False end.

Lemma insert_run block force bc n : block_Number block = Ret n -> is_u64 n ->
  exists bc', insert block force bc = Ret (tt, bc') /\ calm bc bc' /\ currentBlock bc' = Some block /\
    changed (fun k => k = CanonicalKey n \/ is_head k) (bc_db bc) (bc_db bc') /\
    GetCanonicalHash (bc_db bc') n = block_Hash block /\ GetHeadBlockHash (bc_db bc') = block_Hash block.
Proof.
  intros En Hn. unfold insert. rewrite bind_gget, (bind_glift _ _ _ _ En), bind_on_db, bind_gmodify.
  set (db1 := WriteHeadBlockHash _ _).
  assert (C1 : changed (fun k => k = CanonicalKey n \/ is_head k) (bc_db bc) db1).
  { apply (changed_trans (eq (CanonicalKey n)) (eq HeadBlockKey) _ _ (WriteCanonicalHash (bc_db bc) (block_Hash block) n)).
    - by apply changed_put.
    - by apply changed_put.
    - intros k [<-|<-]; [by left|by right]. }
  assert (E1 : GetCanonicalHash db1 n = block_Hash block).
  { apply stored_hash_look. unfold db1, WriteHeadBlockHash. rewrite look_put, decide_False by done. by apply look_put_eq. }
  assert (H1 : GetHeadBlockHash db1 = block_Hash block) by (apply stored_hash_look; by apply look_put_eq).
  destruct (negb _ || force); [|eexists; split; [done|]; done].
  eexists. split; [done|]. split; [done|]. split; [done|]. cbn.
  set (db2 := WriteHeadFastBlockHash _ _).
  assert (C2 : changed (fun k => k = HeadHeaderKey \/ k = HeadFastKey) db1 db2).
  { apply (changed_trans (eq HeadHeaderKey) (eq HeadFastKey) _ _ (WriteHeadHeaderHash db1 (block_Hash block))); [by apply changed_put..|].
    intros k [<-|<-]; auto. }
  split; [|split].
  - apply (changed_trans _ _ _ _ _ _ C1 C2). intros k [Hk|[->| ->]]; [done|by right..].
  - rewrite <- E1. apply (changed_canonical _ _ _ _ C2 Hn). by intros [?|?].
  - rewrite <- H1. apply (changed_headblock _ _ _ C2). by intros [?|?].
Qed.

(** ** Positions of transactions *)

(** Every transaction of the block is found at its place. *)
Definition placed (db : KV) (b : Block) (n : Z) : Prop :=
  forall i tx, block_txs b !! i = Some tx -> GetTxLookupEntry db (Tx_Hash tx) = (block_Hash b, n, Z.of_nat i).

Definition tx_keys (txs : list Transaction) (k : Key) : Prop :=
  match k with LookupKey h => h ∈ Tx_Hash <$> txs | _ => False end.

Lemma placed_changed P db db' b n : changed P db db' -> (forall h, h ∈ Tx_Hash <$> block_txs b -> ~ P (LookupKey h)) ->
  placed db b n -> placed db' b n.
Proof.
  intros Hc HP Hp i tx Hi. rewrite (changed_lookup _ _ _ _ Hc); [by apply Hp|]. apply HP.
  by apply list_elem_of_fmap_2, (list_elem_of_lookup_2 _ i).
Qed.

Lemma lookups_run db b n : block_Number b = Ret n -> is_u64 n -> NoDup (Tx_Hash <$> block_txs b) ->
  Z.of_nat (length (block_txs b)) < 2 ^ 63 ->
  exists db', WriteTxLookupEntries db b = Ret (Ok db') /\ changed (tx_keys (block_txs b)) db db' /\ placed db' b n.
Proof.
  intros En Hn Hd Hl. destruct (write_lookups_run (block_Hash b) n (block_txs b) Hn db 0) as (db' & E & Hs & Hp); [unfold MaxUint64; lia|done|].
  exists db'. unfold WriteTxLookupEntries. rewrite En. cbn [mbind outcome_bind]. rewrite E. split; [done|]. split.
  - intros k Hk Hn'. apply Hs; [done|]. intros (tx & -> & Htx)%list_elem_of_fmap. apply Hn'. cbn. by apply list_elem_of_fmap_2.
  - intros i tx Hi. by rewrite (Hp i tx Hi).
Qed.

Lemma txs_in_cons b l : txs_in (b :: l) = block_txs b ++ txs_in l.
Proof. done. Qed.

Lemma txs_in_elem b l tx : b ∈ l -> tx ∈ block_txs b -> tx ∈ txs_in l.
Proof. intros Hb Htx. apply list_elem_of_join. exists (block_txs b). split; [done|]. by apply list_elem_of_fmap_2. Qed.

(** Blocks that can be placed: with few transactions, and none twice. *)
Definition placeable (l : list Block) : Prop :=
  NoDup (Tx_Hash <$> txs_in l) /\ Forall (fun b => Z.of_nat (length (block_txs b)) < 2 ^ 63) l.

Lemma placeable_cons b l : placeable (b :: l) ->
  NoDup (Tx_Hash <$> block_txs b) /\ Z.of_nat (length (block_txs b)) < 2 ^ 63 /\
  (forall h, h ∈ Tx_Hash <$> block_txs b -> h ∉ Tx_Hash <$> txs_in l) /\ placeable l.
Proof.
  intros [Hd Hf]. rewrite txs_in_cons, fmap_app in Hd. apply NoDup_app in Hd as (H1 & H2 & H3).
  inversion Hf as [|? ? H4 H5]; subst. by repeat split.
Qed.

Lemma placeable_app_r l l' : placeable (l ++ l') -> placeable l'.
Proof. induction l as [|b l IH]; [done|]. intros (_ & _ & _ & Hl)%placeable_cons. by apply IH. Qed.

Definition insert_keys (n : Z) (l : list Block) (k : Key) : Prop :=
  is_head k \/ (exists m, k = CanonicalKey m /\ n - Z.of_nat (length l) < m <= n) \/ tx_keys (txs_in l) k.

Lemma insert_blocks_run l : forall n bc, numbered n l -> placeable l ->
  exists bc', insert_blocks l bc = Ret (inl tt, bc') /\ calm bc bc' /\ changed (insert_keys n l) (bc_db bc) (bc_db bc') /\
    forall x m, x ∈ l -> block_Number x = Ret m -> GetCanonicalHash (bc_db bc') m = block_Hash x /\ placed (bc_db bc') x m.
Proof.
  induction l as [|b l IH]; intros n bc Hl Hp; cbn [insert_blocks].
  { exists bc. split; [done|]. split; [done|]. split; [done|]. intros x m Hx. by apply elem_of_nil in Hx. }
  destruct Hl as (En & Hn & Hl). apply placeable_cons in Hp as (Hd & Hs & Hdis & Hp).
  destruct (insert_run b false bc n En Hn) as (bc1 & E1 & K1 & _ & C1 & G1 & _). rewrite (bind_run _ _ _ _ _ E1), bind_gget.
  destruct (lookups_run (bc_db bc1) b n En Hn Hd Hs) as (db2 & E2 & C2 & P2). rewrite (bind_glift _ _ _ _ E2), bind_on_db.
  set (bc2 := set_hc _ bc1). change db2 with (bc_db bc2) in C2, P2.
  destruct (IH (n - 1) bc2 Hl Hp) as (bc3 & E3 & K3 & C3 & A3).
  exists bc3. split; [done|]. split; [by apply (calm_trans _ bc1), K3|].
  assert (C : changed (insert_keys n (b :: l)) (bc_db bc) (bc_db bc3)).
  { apply (changed_trans (fun k => (k = CanonicalKey n \/ is_head k) \/ tx_keys (block_txs b) k) _ _ _ _ _ (changed_trans _ _ _ _ _ _ C1 C2 (fun _ H => H)) C3).
    unfold insert_keys. cbn [length]. intros k [[[->|Hk]|Hk]|[Hk|[(m & -> & Hm)|Hk]]]; try by left.
    - right; left. exists n. split; [done|lia].
    - right; right. destruct k; try done. cbn in *. rewrite fmap_app. apply elem_of_app. by left.
    - right; left. exists m. split; [done|lia].
    - right; right. destruct k; try done. cbn in *. rewrite fmap_app. apply elem_of_app. by right. }
  split; [done|]. intros x m [->|Hx]%elem_of_cons Em; [|by apply A3]. rewrite En in Em. injection Em as <-. split.
  - rewrite (changed_canonical _ _ _ _ C3 Hn), (changed_canonical _ _ _ _ C2 Hn); [done|by intros []|].
    intros [[]|[(m & [= <-] & Hm)|[]]]. lia.
  - apply (placed_changed _ _ _ _ _ C3); [|done]. intros h Hh [[]|[(m & [=] & _)|Hk]]. by apply (Hdis h).
Qed.

(** ** The reorganization *)
Lemma delete_lookups_run txs : forall db,
  changed (tx_keys txs) db (foldl (fun d tx => DeleteTxLookupEntry d (Tx_Hash tx)) db txs).
Proof.
  induction txs as [|tx txs IH]; intros db; [done|]. cbn.
  apply (changed_trans (eq (LookupKey (Tx_Hash tx))) (tx_keys txs) _ _ (DeleteTxLookupEntry db (Tx_Hash tx))); [by apply changed_drop|apply IH|].
  intros k [<-|Hk]; cbn; [apply elem_of_cons; by left|]. destruct k; try done. apply elem_of_cons. by right.
Qed.

(** The two branches, and what the reorganization leaves: the blocks of the new one
    are canonical and their transactions have their places; transactions of the old
    one that are not on the new one have none. *)
Record reorganized (old new : Block) (n m : Z) (bc bc' : BlockChain) (a : Block) (k : Z) (lo ln : list Block) : Prop := {
  re_calm : bc_caches bc';
  re_genesis : genesisBlock bc' = genesisBlock bc;
  re_old : path (bc_db bc) old lo a;
  re_new : path (bc_db bc) new ln a;
  re_fork : is_u64 k /\ k <= n /\ k <= m /\ GetBlock (bc_db bc) (block_Hash a) k = Some a;
  re_changed : changed (fun key => insert_keys m ln key \/ tx_keys (tx_difference (txs_in lo) (txs_in ln)) key) (bc_db bc) (bc_db bc');
  re_placed x j : x ∈ ln -> block_Number x = Ret j -> GetCanonicalHash (bc_db bc') j = block_Hash x /\ placed (bc_db bc') x j
}.

Lemma reorg_run g fuel old new n m bc : blocks_ok g (bc_db bc) -> bc_caches bc ->
  good g (bc_db bc) old n -> good g (bc_db bc) new m -> GetBlock (bc_db bc) (block_Hash old) n = Some old ->
  known_or_new (bc_db bc) new m -> n <= Z.of_nat fuel -> m <= Z.of_nat fuel ->
  (forall l, path (bc_db bc) new l g -> placeable l) ->
  exists bc' a k lo ln, reorg fuel old new bc = Ret (inl tt, bc') /\ reorganized old new n m bc bc' a k lo ln.
Proof.
  intros Hdb Hc Ho Hn Es Hk Hf1 Hf2 Hpl.
  destruct (branches_looks g (bc_db bc) fuel old new n m Hdb Ho Hn Es Hk Hf1 Hf2 bc eq_refl Hc)
    as (r & bc1 & E1 & Q1 & K1 & a & k & lo & ln & logs & -> & Hlo & Hln & Hk1 & Hk2 & Hk3 & Ea).
  destruct (block_known g _ Hdb _ _ _ Hk1 Ea) as (_ & _ & Ek & _). pose proof Hn as (Em & _).
  destruct (path_numbers g _ Hdb _ _ _ Hln m k Em Ek) as [_ Hnum].
  destruct (path_genesis g _ Hdb a k (stored_good g _ Hdb k a Hk1 Ea)) as [la Hla].
  destruct (insert_blocks_run ln m bc1 Hnum) as (bc2 & E2 & K2 & C2 & A2).
  { destruct (Hpl _ (path_app _ _ _ _ _ _ Hln Hla)) as [Hd Hf]. split; [|by apply Forall_app in Hf as [Hf _]].
    unfold txs_in in *. rewrite fmap_app, join_app, fmap_app in Hd. by apply NoDup_app in Hd as (Hd & _). }
  unfold reorg. rewrite (bind_run _ _ _ _ _ E1), (bind_run _ _ _ _ _ E2), bind_on_db.
  set (diff := tx_difference (txs_in lo) (txs_in ln)). set (bc3 := set_hc _ bc2).
  pose proof (delete_lookups_run diff (bc_db bc2)) as C3. change (foldl _ _ diff) with (bc_db bc3) in C3.
  set (bc4 := match lo with [] => match logs with [] => bc3 | _ => spawn [RemovedLogsEvent logs] bc3 end
                          | _ => spawn (ChainSideEvent <$> lo) (match logs with [] => bc3 | _ => spawn [RemovedLogsEvent logs] bc3 end) end).
  assert (Ed : bc_db bc4 = bc_db bc3) by (unfold bc4; by destruct lo, logs).
  exists bc4, a, k, lo, ln. split; [unfold bc4; destruct lo, logs; try reflexivity|].
  destruct Q1 as (Qd & Qg & _).
  pose proof (changed_trans _ _ _ _ _ _ C2 C3 (fun _ H => H)) as C. rewrite <- Ed, Qd in C.
  split; try done.
  - assert (Hsb : same_blocks (bc_db bc1) (bc_db bc4)); [rewrite Qd|].
    { apply (changed_blocks _ _ _ C). intros key [[Hk'|[(j & -> & _)|Hk']]|Hk'] Hb; by destruct key. }
    apply (caches_calm bc1); [done| |done]. apply (calm_trans _ _ _ K2). unfold bc4. by destruct lo, logs.
  - unfold bc4. destruct K2 as (_ & _ & _ & _ & Eg & _). rewrite <- Qg, <- Eg. by destruct lo, logs.
  - intros x j Hx Ej. destruct (A2 x j Hx Ej) as [A2c A2p]. rewrite Ed.
    destruct (numbered_in m ln x Hnum Hx) as (j' & Ej' & Hj & _). rewrite Ej in Ej'. injection Ej' as <-. split.
    + rewrite (changed_canonical _ _ _ _ C3 Hj); [done|by intros []].
    + apply (placed_changed _ _ _ _ _ C3); [|done]. intros h (tx & -> & Htx)%list_elem_of_fmap Hdel. cbn in Hdel.
      apply list_elem_of_fmap in Hdel as (tx' & Eh & Htx'). apply tx_difference_spec in Htx' as [_ Hnot]. apply Hnot.
      rewrite <- Eh. by apply list_elem_of_fmap_2, (txs_in_elem x).
Qed.

(** ** The invariant *)

(** [b] is the head: its ancestors are canonical, and the transactions of the
    canonical chain have their places. *)
Record head_ok (db : KV) (b : Block) (top : Z) : Prop := {
  hk_top : is_u64 top;
  hk_block : GetBlock db (block_Hash b) top = Some b;
  hk_ancestor l x n : path db b l x -> block_Number x = Ret n -> GetCanonicalHash db n = block_Hash x /\ placed db x n;
  hk_head : GetHeadBlockHash db = block_Hash b
}.

(** No known block has a heavier chain than the head. *)
Definition heaviest_block (db : KV) (b : Block) (top : Z) : Prop :=
  forall td hash n h td', GetTd db (block_Hash b) top = Some td -> is_u64 n -> GetHeader db hash n = Some h ->
    GetTd db hash n = Some td' -> td' <= td.

Record bc_ok (g : Block) (bc : BlockChain) (b : Block) (top : Z) : Prop := {
  bo_genesis : block_txs g = [];
  bo_blocks : blocks_ok g (bc_db bc);
  bo_caches : bc_caches bc;
  bo_current : currentBlock bc = Some b;
  bo_head : head_ok (bc_db bc) b top;
  bo_heaviest : heaviest_block (bc_db bc) b top;
  bo_placeable x n l : is_u64 n -> GetBlock (bc_db bc) (block_Hash x) n = Some x -> path (bc_db bc) x l g -> placeable l
}.

(** ** Paths in a store with one more block *)
Lemma path_ext db db' b l a : (forall hash n, is_u64 n -> GetBlock db' hash n = GetBlock db hash n) -> path db b l a -> path db' b l a.
Proof.
  intros Hs H. induction H as [|b n p l a En Hn Hu Ep _ IH]; [constructor|]. eapply path_step; eauto.
  rewrite Hs; [done|unfold is_u64 in *; lia].
Qed.

Lemma path_split db b l a l' x : path db b l a -> path db b l' x -> x ∈ l \/ exists l2, l' = l ++ l2 /\ path db a l2 x.
Proof.
  intros H. revert l' x. induction H as [b|b n p l a En H0 Hu Ep H IH]; intros l' x H'; [right; by exists l'|].
  destruct H' as [|b m q l' x Em _ _ Eq H']; [left; apply elem_of_cons; by left|].
  rewrite En in Em. injection Em as <-. rewrite Ep in Eq. injection Eq as <-.
  destruct (IH _ _ H') as [Hx|(l2 & -> & Hl2)]; [left; apply elem_of_cons; by right|right; by exists l2].
Qed.

Section one_more.
Context (g : Block) (db db' : KV) (Hdb : blocks_ok g db) (block : Block) (n : Z) (Hn : is_u64 n)
  (Hnew : GetBlock db (block_Hash block) n = None)
  (Hadd : forall hash m, is_u64 m -> GetBlock db' hash m = if decide (hash = block_Hash block /\ m = n) then Some block else GetBlock db hash m).

Lemma one_more_old hash m b : is_u64 m -> GetBlock db hash m = Some b -> GetBlock db' hash m = Some b.
Proof. intros Hm E. rewrite Hadd by done. case_decide as Hd; [|done]. destruct Hd as [-> ->]. by rewrite Hnew in E. Qed.

Lemma path_more b l a : path db b l a -> path db' b l a.
Proof.
  intros H. induction H as [|b m p l a Em H0 Hu Ep _ IH]; [constructor|]. eapply path_step; eauto.
  apply one_more_old; [unfold is_u64 in *; lia|done].
Qed.

Lemma path_less b l a m : path db' b l a -> good g db b m -> path db b l a.
Proof.
  intros H. revert m. induction H as [|b m p l a Em H0 Hu Ep _ IH]; intros m' Hb; [constructor|].
  pose proof Hb as (Em' & _). rewrite Em in Em'. injection Em' as <-. destruct (good_parent g db Hdb b m Hb H0) as (q & Eq & Es & Hq).
  assert (Hm1 : is_u64 (m - 1)) by (unfold is_u64 in *; lia). rewrite (one_more_old _ _ _ Hm1 Eq) in Ep. injection Ep as <-.
  apply (path_step db b m q); try done. by apply (IH (m - 1)).
Qed.

End one_more.

(** ** The total difficulty of a block *)
Section difficulty.
Context (g : Block) (db db1 : KV) (Hdb : blocks_ok g db) (h : Header) (n d ptd : Z) (Hh : header_ok h) (En : header_number h = Ret n)
  (Hn : is_u64 n) (H0 : 0 < n) (Ed : Difficulty h = Some d) (Ep : GetTd db (ParentHash h) (n - 1) = Some ptd)
  (Hs : same_but [TdKey (Header_Hash h) n] db db1) (Etd : GetTd db1 (Header_Hash h) n = Some (d + ptd)).

Lemma td_added_old hash m td : is_u64 m -> GetTd db hash m = Some td -> GetTd db1 hash m = Some td.
Proof.
  intros Hm E. destruct (decide (TdKey hash m = TdKey (Header_Hash h) n)) as [[= -> ->]|Hne].
  - destruct (bk_td _ _ Hdb _ _ _ Hn E) as (_ & h' & Eh & En' & Hp). apply hash_inj in Eh as ->.
    destruct (Hp ltac:(lia)) as (d' & ptd' & Ed' & Ep' & ->). rewrite Ed in Ed'. injection Ed' as <-. rewrite Ep in Ep'. injection Ep' as <-. done.
  - rewrite (GetTd_same _ _ _ _ _ Hs); [done|done|]. intros [?|?%elem_of_nil]%elem_of_cons; done.
Qed.

Lemma td_added_blocks hash m : is_u64 m -> GetBlock db1 hash m = GetBlock db hash m.
Proof. intros Hm. apply (GetBlock_same _ _ _ _ _ Hs Hm); intros [?|?%elem_of_nil]%elem_of_cons; done. Qed.

Lemma td_added_header hash m : is_u64 m -> GetHeader db1 hash m = GetHeader db hash m.
Proof. intros Hm. apply (GetHeader_same _ _ _ _ _ Hs Hm); intros [?|?%elem_of_nil]%elem_of_cons; done. Qed.

Lemma td_added_number hash : GetBlockNumber db1 hash = GetBlockNumber db hash.
Proof. apply (GetBlockNumber_same _ _ _ _ Hs); intros [?|?%elem_of_nil]%elem_of_cons; done. Qed.

Lemma td_added_ok : blocks_ok g db1.
Proof.
  assert (Z0 : is_u64 0) by (unfold is_u64, MaxUint64; lia).
  assert (Hd : 0 <= d) by (destruct Hh as (_ & (d' & E & Hd) & _); rewrite Ed in E; injection E as <-; done).
  destruct Hdb as [H1 H2 H3 H4 H5 H6 H7 H8]. split.
  - intros hash m x Hm. rewrite td_added_header, td_added_number by done. intros E.
    destruct (H1 hash m x Hm E) as (? & ? & ? & ? & ? & ? & Hb & [td Ht]). repeat (split; [done|]). split.
    + rewrite (GetBody_same _ _ _ _ _ Hs Hm); [done|]. intros [?|?%elem_of_nil]%elem_of_cons; done.
    + rewrite (td_added_old _ _ _ Hm Ht). eauto.
  - intros hash. rewrite td_added_number. intros Hne. destruct (H2 hash Hne) as [Hu Hx]. by rewrite td_added_header.
  - intros hash m Hm. rewrite (Hs (BodyKey hash m)), td_added_header by (done || intros [?|?%elem_of_nil]%elem_of_cons; done). by apply H3.
  - intros hash m td Hm E. destruct (decide (TdKey hash m = TdKey (Header_Hash h) n)) as [[= -> ->]|Hne].
    + rewrite Etd in E. injection E as <-. assert (Hn1 : is_u64 (n - 1)) by (unfold is_u64 in *; lia).
      destruct (H4 _ _ _ Hn1 Ep) as [Hp _]. split; [lia|].
      exists h. split; [done|]. split; [done|]. intros _. exists d, ptd. split; [done|]. split; [|done].
      apply td_added_old; [unfold is_u64 in *; lia|done].
    + rewrite (GetTd_same _ _ _ _ _ Hs) in E; [|done|by intros [?|?%elem_of_nil]%elem_of_cons].
      destruct (H4 _ _ _ Hm E) as (Ht & x & Ex & Em & Hp). split; [done|]. exists x. split; [done|]. split; [done|].
      intros Hm0. destruct (Hp Hm0) as (d' & p' & ? & Ep' & ?). exists d', p'. split; [done|]. split; [|done].
      apply td_added_old; [unfold is_u64 in *; lia|done].
  - intros hash m x Hm Hm0. rewrite !td_added_header by (done || unfold is_u64 in *; lia). by apply H5.
  - intros hash x. rewrite td_added_header by done. apply H6.
  - by rewrite td_added_blocks.
  - intros hash m b Hm. rewrite td_added_blocks by done. by apply H8.
Qed.

End difficulty.

(** ** The batch of a block *)
Lemma batch_Write_app db b b' : batch_Write db (b ++ b') = batch_Write (batch_Write db b) b'.
Proof. unfold batch_Write. apply foldl_app. Qed.

(** The nodes of a state are none of the items of the chain, but preimages. *)
Definition is_preimage (k : Key) : Prop := match k with PreimageKey _ => True | _ => False end.

Lemma nodes_changed l : Forall (fun e : list Z * list Z => length e.1 = 32%nat \/ exists h, e.1 = key (PreimageKey h)) l ->
  forall db, changed is_preimage db (batch_Write db l).
Proof.
  induction 1 as [|[e v] l He _ IH]; intros db; [done|]. cbn [batch_Write foldl].
  apply (changed_trans is_preimage is_preimage _ _ (kv_Put db e v)); [|apply IH|tauto].
  intros k Hk Hp. unfold look. rewrite kv_Get_Put, decide_False; [done|]. intros Ee. cbn [fst] in Ee, He. rewrite <- Ee in He. destruct He as [He|[h Eh]].
  - pose proof (key_kind k Hk) as E. rewrite He in E. destruct k; discriminate E.
  - apply key_inj in Eh; [|done..]. subst. by apply Hp.
Qed.

Lemma WritePreimages_changed db l : changed is_preimage db (WritePreimages db l).
Proof.
  unfold WritePreimages. apply nodes_changed. apply Forall_fmap, Forall_true. intros e. right. by exists e.1.
Qed.

Lemma WriteHeader_batch db b h b' : WriteHeader b h = Ret (Ok b') -> WriteHeader (batch_Write db b) h = Ret (Ok (batch_Write db b')).
Proof.
  unfold WriteHeader. destruct (EncodeToBytes h); [|done]. destruct (header_number h); [|done..]. cbn [mbind outcome_bind].
  intros [= <-]. by rewrite !batch_Write_put.
Qed.

Lemma WriteBlock_batch db b block b' : WriteBlock b block = Ret (Ok b') -> WriteBlock (batch_Write db b) block = Ret (Ok (batch_Write db b')).
Proof.
  unfold WriteBlock, WriteBody. destruct (block_Number block); [|done..]. cbn [mbind outcome_bind].
  destruct (write b _ _) as [b1|] eqn:E; [|done]. rewrite (write_batch _ _ _ _ _ E). apply WriteHeader_batch.
Qed.

Lemma write_lookups_batch db hash n txs : forall b i b', write_lookups b hash n i txs = Ok b' ->
  write_lookups (batch_Write db b) hash n i txs = Ok (batch_Write db b').
Proof.
  induction txs as [|tx txs IH]; intros b i b'; cbn [write_lookups]; [by intros [= <-]|].
  destruct (write b _ _) as [b1|] eqn:E; [|done]. rewrite (write_batch _ _ _ _ _ E). apply IH.
Qed.

Lemma write_batch_exists {A : Type} `{RLP A} ok `{!RLPLaws A ok} (b : Batch) k (a : A) : ok a -> exists b', write b k a = Ok b'.
Proof. intros Ha. destruct (rlp_roundtrip a Ha) as (data & Ed & _). unfold write. rewrite Ed. eauto. Qed.

Lemma lookups_batch block n batch : block_Number block = Ret n -> is_u64 n -> NoDup (Tx_Hash <$> block_txs block) ->
  Z.of_nat (length (block_txs block)) < 2 ^ 63 ->
  exists batch', WriteTxLookupEntries batch block = Ret (Ok batch') /\
    forall db, changed (tx_keys (block_txs block)) (batch_Write db batch) (batch_Write db batch') /\ placed (batch_Write db batch') block n.
Proof.
  intros En Hn Hd Hl.
  assert (G : exists batch', write_lookups batch (block_Hash block) n 0 (block_txs block) = Ok batch').
  { clear Hd. assert (Hb : Z.of_nat (0 + length (block_txs block)) <= MaxUint64) by (unfold MaxUint64; lia). clear Hl. revert Hb.
    generalize 0%nat. revert batch. induction (block_txs block) as [|tx txs IH]; intros batch i Hb; cbn [write_lookups]; [eauto|].
    cbn [length] in Hb. assert (He : entry_ok (mkLookupEntry (block_Hash block) n (Z.of_nat i))) by (split; cbn; [done|unfold is_u64; lia]).
    destruct (write_batch_exists entry_ok batch (LookupKey (Tx_Hash tx)) _ He) as [b1 ->]. apply IH. lia. }
  destruct G as [batch' E]. exists batch'. unfold WriteTxLookupEntries. rewrite En. cbn [mbind outcome_bind]. rewrite E. split; [done|].
  intros db. destruct (lookups_run (batch_Write db batch) block n En Hn Hd Hl) as (db' & E' & C & P).
  unfold WriteTxLookupEntries in E'. rewrite En in E'. cbn [mbind outcome_bind] in E'.
  rewrite (write_lookups_batch db _ _ _ _ _ _ E) in E'. injection E' as <-. done.
Qed.

(** The items of a block. *)
Definition block_keys (hash : Hash) (n : Z) (k : Key) : Prop :=
  k = BodyKey hash n \/ k = NumberKey hash \/ k = HeaderKey hash n \/ k = ReceiptsKey hash n \/ is_preimage k.

Lemma block_batch_run block n receipts state : block_ok block -> block_Number block = Ret n -> is_u64 n ->
  (exists e, block_batch block n receipts state = Ret (inr e)) \/
  exists batch, block_batch block n receipts state = Ret (inl batch) /\
    forall db, changed (block_keys (block_Hash block) n) db (batch_Write db batch) /\
      GetBlock (batch_Write db batch) (block_Hash block) n = Some block /\ GetBlockNumber (batch_Write db batch) (block_Hash block) = n.
Proof.
  intros Hb En Hn. unfold block_batch.
  assert (G : exists b1, WriteBlock ([] : Batch) block = Ret (Ok b1)).
  { unfold WriteBlock. rewrite En. cbn [mbind outcome_bind]. destruct Hb as [Hh Hu].
    destruct (write_batch_exists body_ok ([] : Batch) (BodyKey (block_Hash block) n) (block_Body block) Hu) as [b1 E].
    unfold WriteBody. rewrite E. unfold WriteHeader. destruct (rlp_roundtrip (block_header block) Hh) as (data & -> & _).
    unfold block_Number in En. rewrite En. cbn [mbind outcome_bind]. eauto. }
  destruct G as [b1 E1]. rewrite E1. cbn [mbind outcome_bind]. destruct (CommitTo state b1) as [[root b2]|e] eqn:E2; [|left; eauto].
  destruct (negb _); [left; eauto|]. destruct (CommitTo_keys _ _ _ _ E2) as (l & -> & Hl).
  destruct (WriteBlockReceipts (P := Batch) (b1 ++ l) (block_Hash block) n receipts) as [b3|] eqn:E3; [|left; eauto]. right. exists b3. split; [done|].
  intros db. destruct (WriteBlock_run db block n Hb En) as (db1 & W1 & S1 & B1 & N1).
  pose proof (WriteBlock_batch db [] block b1 E1) as W1'. cbn [batch_Write foldl] in W1'. rewrite W1 in W1'. injection W1' as ->.
  pose proof (nodes_changed l Hl (batch_Write db b1)) as C2. rewrite <- batch_Write_app in C2.
  assert (C3 : changed (eq (ReceiptsKey (block_Hash block) n)) (batch_Write db (b1 ++ l)) (batch_Write db b3)).
  { unfold WriteBlockReceipts, write in E3. destruct (EncodeToBytes receipts); [|done]. injection E3 as <-. rewrite batch_Write_put. by apply changed_put. }
  assert (C23 : same_blocks (batch_Write db b1) (batch_Write db b3)).
  { apply (changed_blocks _ _ _ (changed_trans _ _ _ _ _ _ C2 C3 (fun _ H => H))). intros k [Hk|<-] Hbk; [by destruct k|done]. }
  split; [|split].
  - apply (changed_trans _ _ _ _ _ _ (same_but_changed _ _ _ S1) (changed_trans _ _ _ _ _ _ C2 C3 (fun _ H => H))).
    unfold block_keys. intros k [Hk|[Hk|Hk]]; [|tauto|subst; tauto]. rewrite !elem_of_cons, elem_of_nil in Hk. tauto.
  - by rewrite (same_blocks_block _ _ C23).
  - by rewrite (same_blocks_number _ _ C23).
Qed.

End block_import.
