(* ===== verification/BlockWriteProps.v ===== *)
(** * The chain after any sequence of writes

    A block that is written extends what is stored and, when its chain is the
    heaviest, becomes the head; the invariant of the chain ([bc_ok]) holds after
    every write, successful or not. *)
From S2P Require Import Prelude GoMonad Fmt Clique TxList ChainDb ChainDbProps HeaderChain HeaderChainProps.
From S2P Require Import BlockChain BlockImport BlockChainProps BlockImportProps.
Local Open Scope Z_scope.

Section block_write.
Context {KL : KvLib} {KLaws : KvLaws} {HL : HashLib} {HLaws : HashLaws} {CL : CliqueLib} {CLaws : HeaderLaws}
  {TL : TxLib} {LL : LruLib} {LLaws : LruLaws} {BL : ChainLib} {BLaws : ChainLaws} {BR : BlockRules}.
Context {RH : RLP Header} {RB : RLP Body} {RZ : RLP Z} {RR : RLP (list ChainReceipt)} {RE : RLP txLookupEntry}.
Context {LH : RLPLaws Header header_ok} {LB : RLPLaws Body body_ok} {LZ : RLPLaws Z (fun z => 0 <= z)}
  {LE : RLPLaws txLookupEntry entry_ok}.

(** ** One more block in the store *)

(** A block that can be written: it is well formed and has the transactions its
    header commits to, its parent is known, and no transaction is twice on its chain. *)
Record writable (g : Block) (db : KV) (block : Block) (n : Z) : Prop := {
  wr_ok : block_ok block;
  wr_number : block_Number block = Ret n;
  wr_bounds : 0 < n < MaxUint64;
  wr_hash : block_Hash block <> 0;
  wr_txs : DeriveSha_block (block_txs block) = TxHash (block_header block);
  wr_parent : exists p, GetBlock db (block_ParentHash block) (n - 1) = Some p;
  wr_placeable l : path db block l g -> placeable l
}.

Lemma writable_good g db block n : writable g db block n -> good g db block n.
Proof.
  intros [? En Hb _ _ Hp _]. split; [done|]. split; [unfold is_u64; lia|]. split; [done|lia].
Qed.

Lemma unstored_new g db block n : blocks_ok g db -> writable g db block n -> look db (BodyKey (block_Hash block) n) = None ->
  forall m, is_u64 m -> GetHeader db (block_Hash block) m = None.
Proof.
  intros Hdb [_ En Hb _ _ _ _] Hl m Hm. destruct (GetHeader db (block_Hash block) m) as [h|] eqn:E; [|done].
  destruct (bk_header _ _ Hdb _ _ _ Hm E) as (_ & Eh & Em & _ & _ & _ & [body Eb] & _). apply hash_inj in Eh as ->.
  unfold block_Number in En. rewrite En in Em. injection Em as <-. unfold GetBody, stored in Eb. by rewrite Hl in Eb.
Qed.

Section added.
Context (g : Block) (db db' : KV) (Hdb : blocks_ok g db) (block : Block) (n : Z) (Hw : writable g db block n)
  (Hnew : forall m, is_u64 m -> GetHeader db (block_Hash block) m = None)
  (Htd : is_Some (GetTd db (block_Hash block) n))
  (P : Key -> Prop) (Hc : changed P db db')
  (HP : forall k, P k -> is_block k -> k = BodyKey (block_Hash block) n \/ k = NumberKey (block_Hash block) \/ k = HeaderKey (block_Hash block) n)
  (Eb : GetBlock db' (block_Hash block) n = Some block) (En' : GetBlockNumber db' (block_Hash block) = n).

Lemma added_number_u64 : is_u64 n.
Proof. pose proof (wr_bounds _ _ _ _ Hw) as Hb. unfold is_u64. lia. Qed.

Lemma added_item k : key_ok k -> is_block k -> k <> BodyKey (block_Hash block) n -> k <> NumberKey (block_Hash block) ->
  k <> HeaderKey (block_Hash block) n -> look db' k = look db k.
Proof. intros Hk Hb H1 H2 H3. apply Hc; [done|]. intros Hp. by destruct (HP k Hp Hb) as [|[|]]. Qed.

Lemma added_header_at hash m : is_u64 m ->
  GetHeader db' hash m = if decide (hash = block_Hash block /\ m = n) then Some (block_header block) else GetHeader db hash m.
Proof.
  intros Hm. case_decide as Hd.
  - destruct Hd as [-> ->]. by apply block_parts in Eb as [-> _].
  - unfold GetHeader, stored. rewrite added_item; [done..|]. intros [= -> ->]. by apply Hd.
Qed.

Lemma added_block_at hash m : is_u64 m ->
  GetBlock db' hash m = if decide (hash = block_Hash block /\ m = n) then Some block else GetBlock db hash m.
Proof.
  intros Hm. case_decide as Hd; [by destruct Hd as [-> ->]|]. unfold GetBlock. rewrite added_header_at, decide_False by done.
  unfold GetBody, stored. rewrite added_item; [done|done|done|intros [= -> ->]; by apply Hd|done..].
Qed.

Lemma added_td_at hash m : is_u64 m -> GetTd db' hash m = GetTd db hash m.
Proof. intros Hm. unfold GetTd, stored. by rewrite added_item. Qed.

Lemma added_number_at hash : GetBlockNumber db' hash = if decide (hash = block_Hash block) then n else GetBlockNumber db hash.
Proof.
  case_decide as Hd; [rewrite Hd; exact En'|]. unfold GetBlockNumber. rewrite added_item; [done..|congruence|done].
Qed.

Lemma added_not_stored : GetBlock db (block_Hash block) n = None.
Proof. unfold GetBlock. rewrite Hnew; [done|apply added_number_u64]. Qed.

Lemma added_block_ok : blocks_ok g db'.
Proof.
  assert (Z0 : is_u64 0) by (unfold is_u64, MaxUint64; lia). pose proof added_number_u64 as Hn.
  destruct Hw as [[Hh Hu] En Hb Hz Hroot [p Ep] _]. destruct (block_parts _ _ _ _ Eb) as [Eh Ebody]. pose proof Hdb as [H1 H2 H3 H4 H5 H6 H7 H8]. split.
  - intros hash m h Hm. rewrite added_header_at by done. case_decide as Hd.
    + destruct Hd as [-> ->]. intros [= <-]. split; [done|]. split; [done|]. split; [done|]. split; [done|]. split; [lia|]. split; [done|].
      rewrite added_td_at by done. split; [by eexists|done].
    + intros E. destruct (H1 hash m h Hm E) as (? & ? & ? & ? & ? & Ne & ? & ?).
      assert (Hne : hash <> block_Hash block) by (intros ->; by rewrite Hnew in E). rewrite added_number_at, decide_False, added_td_at by (done || congruence).
      repeat (split; [done|]). split; [|done]. unfold GetBody, stored. rewrite added_item; [done|done|done|intros [= -> ->]; by apply Hd|done..].
  - intros hash. rewrite added_number_at. case_decide as Hd; [subst hash; intros _; split; [done|]; by rewrite Eh|].
    intros Hne. destruct (H2 hash Hne) as [Hu' Hx]. split; [done|]. rewrite added_header_at, decide_False by (done || intros [-> _]; done). done.
  - intros hash m Hm Hl. rewrite added_header_at by done. case_decide as Hd; [done|]. apply H3; [done|].
    rewrite added_item in Hl; [done|done|done|intros [= -> ->]; by apply Hd|done..].
  - intros hash m td Hm. rewrite added_td_at by done. intros E. destruct (H4 hash m td Hm E) as (Ht & h & Eh' & Em & Hp). split; [done|].
    exists h. split; [done|]. split; [done|]. intros Hm0. rewrite added_td_at by (unfold is_u64 in *; lia). by apply Hp.
  - intros hash m h Hm Hm0. assert (Hm1 : is_u64 (m - 1)) by (unfold is_u64 in *; lia). rewrite (added_header_at _ (m - 1)) by done. rewrite added_header_at by done.
    case_decide as Hd.
    + destruct Hd as [-> ->]. intros [= <-]. case_decide; [done|]. apply block_parts in Ep as [Ep _]. by eexists.
    + intros E. case_decide; [done|]. by apply (H5 hash).
  - intros hash h. rewrite added_header_at, decide_False by (done || lia). apply H6.
  - rewrite added_block_at, decide_False by (done || lia). done.
  - intros hash m b Hm. rewrite added_block_at by done. case_decide as Hd; [by intros [= <-]|by apply H8].
Qed.

End added.

(** ** The new head *)
Lemma placeable_disjoint l1 x l2 h : placeable (l1 ++ x :: l2) -> h ∈ Tx_Hash <$> block_txs x -> h ∉ Tx_Hash <$> txs_in l1.
Proof.
  intros [Hd _] Hx Hl. unfold txs_in in *. rewrite fmap_app, join_app, fmap_app in Hd. apply NoDup_app in Hd as (_ & Hdis & _).
  apply (Hdis h Hl). rewrite fmap_cons. cbn. rewrite fmap_app. apply elem_of_app. by left.
Qed.

Lemma path_head db b l x : path db b l x -> l <> [] -> exists l', l = b :: l'.
Proof. intros H Hne. destruct H; [done|eauto]. Qed.

Lemma path_end g db b l x n : blocks_ok g db -> path db b l x -> good g db b n -> exists j, good g db x j.
Proof.
  intros Hdb H. revert n. induction H as [b|b m p l x Em H0 Hu Ep _ IH]; intros n Hb; [eauto|].
  pose proof Hb as (Em' & _). rewrite Em in Em'. injection Em' as <-. destruct (good_parent g db Hdb b m Hb H0) as (q & Eq & _ & Hq).
  rewrite Ep in Eq. injection Eq as <-. eauto.
Qed.

(** The chain from the new block back to the fork, below the new block itself, is
    canonical already; what was on the old branch only has no place any more. *)
Record rerouted (db db2 : KV) (current block : Block) (n : Z) (a : Block) (k : Z) (lo ln : list Block) : Prop := {
  rr_old : path db current lo a;
  rr_new : path db block (block :: ln) a;
  rr_fork : is_u64 k /\ GetBlock db (block_Hash a) k = Some a;
  rr_changed : changed (fun key => insert_keys n (block :: ln) key \/ tx_keys (txs_in lo) key \/ is_preimage key) db db2;
  rr_placed x j : x ∈ ln -> block_Number x = Ret j -> GetCanonicalHash db2 j = block_Hash x /\ placed db2 x j
}.

(** The items that are written with the block and when it becomes the head. *)
Definition head_keys (block : Block) (n : Z) (k : Key) : Prop :=
  block_keys (block_Hash block) n k \/ k = CanonicalKey n \/ is_head k \/ tx_keys (block_txs block) k.

Section new_head.
Context (g : Block) (db db2 db4 : KV) (Hdb : blocks_ok g db) (Hg : block_txs g = []) (current block : Block) (top n : Z)
  (Hhead : head_ok db current top) (Hpl : forall l, path db current l g -> placeable l) (Hw : writable g db block n)
  (Hnew : GetBlock db (block_Hash block) n = None) (a : Block) (k : Z) (lo ln : list Block)
  (Hr : rerouted db db2 current block n a k lo ln) (Hc : changed (head_keys block n) db2 db4)
  (Hadd : forall hash m, is_u64 m -> GetBlock db4 hash m = if decide (hash = block_Hash block /\ m = n) then Some block else GetBlock db hash m)
  (Ec : GetCanonicalHash db4 n = block_Hash block) (Hp : placed db4 block n) (Eh : GetHeadBlockHash db4 = block_Hash block).

Lemma new_numbers : n = k + Z.of_nat (length (block :: ln)) /\ numbered n (block :: ln).
Proof.
  destruct Hr as [_ Hn [Hk Ea] _ _]. destruct (block_known g db Hdb _ _ _ Hk Ea) as (_ & _ & Ek & _).
  apply (path_numbers g db Hdb block _ a Hn); [apply Hw|done].
Qed.

(** The transactions of a block of the new chain are not on the part above it. *)
Lemma new_disjoint l x j h : path db block l x -> block_Number x = Ret j -> good g db x j ->
  h ∈ Tx_Hash <$> block_txs x -> h ∉ Tx_Hash <$> txs_in l.
Proof.
  intros Hl Ej Hx Hh. destruct (path_genesis g db Hdb x j Hx) as [lx Hlx].
  destruct Hlx as [|x m p lx b Em H0 Hu Ep Hlx]; [by rewrite Hg in Hh; apply elem_of_nil in Hh|].
  apply (placeable_disjoint l x lx); [|done]. apply (wr_placeable _ _ _ _ Hw). apply (path_app db block l x); [done|].
  by eapply path_step.
Qed.

Lemma old_disjoint l x j h : path db current l x -> block_Number x = Ret j -> good g db x j ->
  h ∈ Tx_Hash <$> block_txs x -> h ∉ Tx_Hash <$> txs_in l.
Proof.
  intros Hl Ej Hx Hh. destruct (path_genesis g db Hdb x j Hx) as [lx Hlx].
  destruct Hlx as [|x m p lx b Em H0 Hu Ep Hlx]; [by rewrite Hg in Hh; apply elem_of_nil in Hh|].
  apply (placeable_disjoint l x lx); [|done]. apply Hpl. apply (path_app db current l x); [done|]. by eapply path_step.
Qed.

(** A block on the new branch, below the new block. *)
Lemma new_branch x j l : x ∈ ln -> path db block l x -> block_Number x = Ret j -> good g db x j -> l <> [] ->
  GetCanonicalHash db4 j = block_Hash x /\ placed db4 x j.
Proof.
  intros Hx Hl Ej Hgx Hne. destruct (rr_placed _ _ _ _ _ _ _ _ _ Hr x j Hx Ej) as [E Hpx]. destruct new_numbers as [En [_ [_ Hnum]]].
  destruct (numbered_in _ _ _ Hnum Hx) as (j' & Ej' & Hj & Hlt). rewrite Ej in Ej'. injection Ej' as <-. split.
  - rewrite (changed_canonical _ _ _ _ Hc Hj); [done|]. intros [[|[|[|[|]]]]|[[= ->]|[[]|[]]]]; try done. lia.
  - apply (placed_changed _ _ _ _ _ Hc); [|done]. intros h Hh [[|[|[|[|]]]]|[?|[[]|Hk]]]; try done.
    destruct (path_head _ _ _ _ Hl Hne) as [l' ->].
    apply (new_disjoint (block :: l') x j h); try done.
    rewrite txs_in_cons, fmap_app. apply elem_of_app. by left.
Qed.

(** A block below the fork. *)
Lemma below_fork x j l : path db a l x -> block_Number x = Ret j -> good g db x j ->
  GetCanonicalHash db4 j = block_Hash x /\ placed db4 x j.
Proof.
  intros Hl Ej Hgx. destruct (rr_fork _ _ _ _ _ _ _ _ _ Hr) as [Hk Ea]. destruct (block_known g db Hdb _ _ _ Hk Ea) as (_ & _ & Ek & _).
  destruct (path_numbers g db Hdb _ _ _ Hl k j Ek Ej) as [Ekj _]. destruct new_numbers as [En _].
  pose proof (path_app _ _ _ _ _ _ (rr_old _ _ _ _ _ _ _ _ _ Hr) Hl) as Hold.
  destruct (hk_ancestor _ _ _ Hhead _ _ _ Hold Ej) as [E Hpx]. pose proof Hgx as (_ & Hj & _). cbn [length] in En.
  pose proof (changed_trans _ _ _ _ _ _ (rr_changed _ _ _ _ _ _ _ _ _ Hr) Hc (fun _ H => H)) as HC. split.
  - rewrite (changed_canonical _ _ _ _ HC Hj); [done|]. unfold insert_keys, head_keys, block_keys. cbn [length].
    intros [[[[]|[(m & [= <-] & Hm)|[]]]|[[]|[]]]|[[|[|[|[|[]]]]]|[[= ->]|[[]|[]]]]]; try done; lia.
  - apply (placed_changed _ _ _ _ _ HC); [|done].
    intros h Hh [[[[]|[(m & [=] & _)|Hk']]|[Hk'|[]]]|[[|[|[|[|[]]]]]|[|[[]|Hk']]]]; try done.
    + apply (new_disjoint ((block :: ln) ++ l) x j h); try done; [by eapply path_app, Hl; apply Hr|].
      unfold txs_in in *. rewrite fmap_app, join_app, fmap_app. apply elem_of_app. by left.
    + apply (old_disjoint (lo ++ l) x j h); try done. unfold txs_in in *. rewrite fmap_app, join_app, fmap_app. apply elem_of_app. by left.
    + apply (new_disjoint ((block :: ln) ++ l) x j h); try done; [by eapply path_app, Hl; apply Hr|].
      cbn [app]. rewrite txs_in_cons, fmap_app. apply elem_of_app. by left.
Qed.

Lemma new_head_ok : head_ok db4 block n.
Proof.
  pose proof (wr_bounds _ _ _ _ Hw) as Hb. assert (Hn : is_u64 n) by (unfold is_u64; lia). split; [done| | |done].
  - rewrite Hadd by done. by rewrite decide_True.
  - intros l x j Hl Ej. pose proof (writable_good _ _ _ _ Hw) as Hgb.
    apply (path_less g db db4 Hdb block n Hnew Hadd block l x n) in Hl; [|done].
    destruct (path_end _ _ _ _ _ _ Hdb Hl Hgb) as [j' Hgx]. pose proof Hgx as (Ej' & _). rewrite Ej in Ej'. injection Ej' as <-.
    destruct (path_split _ _ _ _ _ _ (rr_new _ _ _ _ _ _ _ _ _ Hr) Hl) as [Hx|(l2 & -> & Hl2)]; [|by apply (below_fork x j l2)].
    destruct (decide (l = [])) as [->|Hne].
    + inversion Hl; subst. rewrite (wr_number _ _ _ _ Hw) in Ej. by injection Ej as <-.
    + apply elem_of_cons in Hx as [->|Hx]; [|by apply (new_branch x j l)].
      destruct (path_numbers g db Hdb _ _ _ Hl n j (wr_number _ _ _ _ Hw) Ej) as [E _]. rewrite (wr_number _ _ _ _ Hw) in Ej. injection Ej as <-.
      destruct l; [done|]. cbn in E. lia.
Qed.


End new_head.

(** A block becomes canonical: nothing is refused. *)
Section canonical.
Context (g : Block) (bc : BlockChain) (Hdb : blocks_ok g (bc_db bc)) (Hcc : bc_caches bc) (current block : Block) (top n : Z)
  (Hhead : head_ok (bc_db bc) current top) (Hw : writable g (bc_db bc) block n)
  (Hnew : forall m, is_u64 m -> GetHeader (bc_db bc) (block_Hash block) m = None).

Lemma extend_rerouted db2 : block_ParentHash block = block_Hash current -> changed is_preimage (bc_db bc) db2 ->
  rerouted (bc_db bc) db2 current block n current top [] [].
Proof.
  intros E Hc. pose proof (wr_bounds _ _ _ _ Hw) as Hb. destruct (wr_parent _ _ _ _ Hw) as [p Ep].
  assert (Hn1 : is_u64 (n - 1)) by (unfold is_u64; lia). pose proof (hk_block _ _ _ Hhead) as Es. rewrite E in Ep.
  destruct (blocks_unique g _ Hdb _ _ _ _ _ Hn1 (hk_top _ _ _ Hhead) Ep Es) as [<- ->]. split.
  - constructor.
  - eapply (path_step _ _ n current); [apply Hw|lia|unfold is_u64; lia|by rewrite E|constructor].
  - by split; [apply Hhead|].
  - apply (changed_weaken _ _ _ _ Hc). tauto.
  - intros x j Hx. by apply elem_of_nil in Hx.
Qed.

Lemma reorganized_rerouted bc1 a k lo ln db2 : reorganized current block top n bc bc1 a k lo ln -> changed is_preimage (bc_db bc1) db2 ->
  exists ln', rerouted (bc_db bc) db2 current block n a k lo ln'.
Proof.
  intros [_ _ Ho Hn (Hk & _ & _ & Ea) Hch Hp] Hc2. assert (Hne : ln <> []).
  { intros ->. inversion Hn; subst. apply block_parts in Ea as [Ea _]. by rewrite Hnew in Ea. }
  destruct (path_head _ _ _ _ Hn Hne) as [ln' ->]. exists ln'. split; try done.
  - apply (changed_trans _ _ _ _ _ _ Hch Hc2). intros key [[Hkey|Hkey]|Hkey]; [by left|right; left|right; by right].
    destruct key; try done. cbn in *. apply list_elem_of_fmap in Hkey as (tx & -> & Htx). apply tx_difference_spec in Htx as [Htx _].
    by apply list_elem_of_fmap_2.
  - intros x j Hx Ej. destruct (Hp x j ltac:(apply elem_of_cons; by right) Ej) as [E Hpx].
    destruct (block_known g _ Hdb _ _ _ Hk Ea) as (_ & _ & Ek & _).
    destruct (path_numbers g _ Hdb _ _ _ Hn n k (wr_number _ _ _ _ Hw) Ek) as [_ [_ [_ Hnum]]].
    destruct (numbered_in _ _ _ Hnum Hx) as (j' & Ej' & Hj & _). rewrite Ej in Ej'. injection Ej' as <-. split.
    + rewrite (changed_canonical _ _ _ _ Hc2 Hj); [done|by intros []].
    + apply (placed_changed _ _ _ _ _ Hc2); [by intros h _ []|done].
Qed.

Lemma preimage_blocks db db' : changed is_preimage db db' -> same_blocks db db'.
Proof. intros Hc. apply (changed_blocks _ _ _ Hc). intros k Hk Hb. by destruct k. Qed.

Lemma make_canonical_run fuel batch state : (forall l, path (bc_db bc) current l g -> placeable l) ->
  top <= Z.of_nat fuel -> n <= Z.of_nat fuel ->
  exists bc' batch' a k lo ln, make_canonical fuel current block batch state bc = Ret (inl batch', bc') /\
    rerouted (bc_db bc) (bc_db bc') current block n a k lo ln /\ bc_caches bc' /\ same_blocks (bc_db bc) (bc_db bc') /\
    forall db, changed (tx_keys (block_txs block)) (batch_Write db batch) (batch_Write db batch') /\ placed (batch_Write db batch') block n.
Proof.
  intros Hpl Hf1 Hf2. pose proof (writable_good _ _ _ _ Hw) as Hgb. pose proof Hgb as (En & Hn & _).
  destruct (path_genesis g _ Hdb block n Hgb) as [lb Hlb].
  assert (Hb1 : NoDup (Tx_Hash <$> block_txs block) /\ Z.of_nat (length (block_txs block)) < 2 ^ 63).
  { pose proof (wr_placeable _ _ _ _ Hw _ Hlb) as Hp. pose proof (wr_bounds _ _ _ _ Hw) as Hb. destruct (path_head _ _ _ _ Hlb) as [l' ->].
    { intros ->. inversion Hlb; subst. pose proof (bk_root _ _ Hdb) as Er. apply block_parts in Er as [Er _]. by rewrite Hnew in Er. }
    apply placeable_cons in Hp as (? & ? & _). done. }
  destruct Hb1 as [Hd Hs]. destruct (lookups_batch block n batch En Hn Hd Hs) as (batch' & EL & HLk). unfold make_canonical.
  destruct (Z.eqb_spec (block_ParentHash block) (block_Hash current)) as [Epar|_].
  - rewrite bind_mret, (bind_glift _ _ _ _ EL), bind_on_db. eexists _, batch', current, top, [], []. split; [done|].
    pose proof (WritePreimages_changed (bc_db bc) (Preimages state)) as Hc2. split; [by apply extend_rerouted|].
    split; [|split; [by apply preimage_blocks|done]]. apply (caches_calm bc); [done|done|by apply preimage_blocks].
  - destruct (reorg_run g fuel current block top n bc Hdb Hcc) as (bc1 & a & k & lo & ln & E1 & R); try done.
    + apply (stored_good g _ Hdb); apply Hhead.
    + apply Hhead.
    + right. apply Hnew.
    + apply Hw.
    + rewrite (bind_run _ _ _ _ _ E1), (bind_glift _ _ _ _ EL), bind_on_db.
      pose proof (WritePreimages_changed (bc_db bc1) (Preimages state)) as Hc2.
      destruct (reorganized_rerouted bc1 a k lo ln _ R Hc2) as [ln' Hr]. eexists _, batch', a, k, lo, ln'. split; [done|]. split; [done|].
      assert (Hsb : same_blocks (bc_db bc) (bc_db bc1)).
      { apply (changed_blocks _ _ _ (re_changed _ _ _ _ _ _ _ _ _ _ R)). intros key [[Hk|[(j & -> & _)|Hk]]|Hk] Hbk; by destruct key. }
      split; [|split; [|done]].
      * apply (caches_calm bc1); [apply R|done|by apply preimage_blocks].
      * apply (same_blocks_trans _ (bc_db bc1)); [done|by apply preimage_blocks].
Qed.

End canonical.

(** ** Writing a block *)
Lemma head_ok_keep (P : Key -> Prop) db db' b top : head_ok db b top -> changed P db db' ->
  (forall k, P k -> match k with CanonicalKey _ | LookupKey _ | HeadBlockKey => False | _ => True end) ->
  (forall l x, path db' b l x -> path db b l x) -> (forall l x j, path db b l x -> block_Number x = Ret j -> is_u64 j) ->
  GetBlock db' (block_Hash b) top = Some b -> head_ok db' b top.
Proof.
  intros [Ht Hb Ha Hh] Hc HP Hpath Hu Eb. split; [done|done| |].
  - intros l x j Hl Ej. apply Hpath in Hl. destruct (Ha l x j Hl Ej) as [E Hp]. split.
    + rewrite (changed_canonical _ _ _ _ Hc (Hu _ _ _ Hl Ej)); [done|]. intros Hk. by apply HP in Hk.
    + apply (placed_changed _ _ _ _ _ Hc); [|done]. intros h _ Hk. by apply HP in Hk.
  - rewrite (changed_headblock _ _ _ Hc); [done|]. intros Hk. by apply HP in Hk.
Qed.

Lemma path_number_u64 g db b l x j n : blocks_ok g db -> good g db b n -> path db b l x -> block_Number x = Ret j -> is_u64 j.
Proof. intros Hdb Hb Hl Ej. destruct (path_end g db b l x n Hdb Hl Hb) as [j' (Ej' & Hj & _)]. rewrite Ej in Ej'. by injection Ej' as <-. Qed.

(** The total difficulty is stored and cached. *)
Lemma TryWriteTd_run g bc block n d ptd : blocks_ok g (bc_db bc) -> bc_caches bc -> writable g (bc_db bc) block n ->
  Difficulty (block_header block) = Some d -> GetTd (bc_db bc) (block_ParentHash block) (n - 1) = Some ptd ->
  exists bc', on_hc (hc_TryWriteTd (block_Hash block) n (d + ptd)) bc = Ret (inl tt, bc') /\ blocks_ok g (bc_db bc') /\ bc_caches bc' /\
    same_but [TdKey (block_Hash block) n] (bc_db bc) (bc_db bc') /\ GetTd (bc_db bc') (block_Hash block) n = Some (d + ptd) /\
    currentBlock bc' = currentBlock bc /\ (forall hash m td, is_u64 m -> GetTd (bc_db bc) hash m = Some td -> GetTd (bc_db bc') hash m = Some td).
Proof.
  intros Hdb Hcc Hw Ed Ep. destruct Hw as [[Hh _] En Hb _ _ _ _]. assert (Hn : is_u64 n) by (unfold is_u64; lia).
  assert (Hn1 : is_u64 (n - 1)) by (unfold is_u64; lia).
  assert (Hd : 0 <= d + ptd).
  { destruct Hh as (_ & (d' & E & Hd) & _). rewrite Ed in E. injection E as <-. destruct (bk_td _ _ Hdb _ _ _ Hn1 Ep). lia. }
  destruct (WriteTd_run (bc_db bc) (block_Hash block) n (d + ptd) Hn Hd) as (db1 & E1 & S1 & T1).
  pose proof (td_added_old g _ db1 Hdb (block_header block) n d ptd Hn ltac:(lia) Ed Ep S1 T1) as Hold.
  set (hc' := with_tdCache (lru_Add (tdCache (bc_hc bc)) (block_Hash block) (d + ptd)) (with_hc_db db1 (bc_hc bc))).
  exists (set_hc hc' bc). split.
  { apply on_hc_run. unfold hc_TryWriteTd. rewrite bind_gget. change (hc_db (bc_hc bc)) with (bc_db bc). by rewrite E1. }
  split; [by apply (td_added_ok g (bc_db bc) db1 Hdb (block_header block) n d ptd); try done; lia|]. split; [|by repeat split].
  destruct Hcc as [[H1 H2 H3] H4]. split; [split|].
  - intros hash h Hk. destruct (H1 hash h Hk) as (m & Hm & E). exists m. split; [done|]. by rewrite (td_added_header (bc_db bc) db1 (block_header block) n S1).
  - intros hash td Hk. cbn in Hk. apply lru_Peek_Add in Hk. destruct (decide (hash = block_Hash block)) as [->|]; [subst; by exists n|].
    destruct (H2 hash td Hk) as (m & Hm & E). exists m. split; [done|]. by apply Hold.
  - intros hash m Hk. change (hc_db hc') with db1. rewrite (td_added_number (bc_db bc) db1 (block_header block) n S1). by apply H3.
  - intros hash x Hk. destruct (H4 hash x Hk) as (m & Hm & E). exists m. split; [done|]. by rewrite (td_added_blocks (bc_db bc) db1 (block_header block) n S1).
Qed.

Lemma HasBlock_false g bc block n : blocks_ok g (bc_db bc) -> bc_caches bc -> writable g (bc_db bc) block n ->
  HasBlock (block_Hash block) n bc = false -> look (bc_db bc) (BodyKey (block_Hash block) n) = None.
Proof.
  intros Hdb Hcc Hw Hh. unfold HasBlock in Hh. apply orb_false_iff in Hh as [_ Hh]. rewrite kv_Has_Get in Hh.
  unfold look. by destruct (kv_Get _ _).
Qed.

Lemma HasBlock_true g bc block n : blocks_ok g (bc_db bc) -> bc_caches bc -> writable g (bc_db bc) block n ->
  HasBlock (block_Hash block) n bc = true ->
  exists x, GetBlock (bc_db bc) (block_Hash block) n = Some x /\ block_header x = block_header block.
Proof.
  intros Hdb Hcc Hw Hh. pose proof (wr_bounds _ _ _ _ Hw) as Hb. assert (Hn : is_u64 n) by (unfold is_u64; lia).
  assert (G : exists m x, is_u64 m /\ GetBlock (bc_db bc) (block_Hash block) m = Some x).
  { unfold HasBlock in Hh. apply orb_true_iff in Hh as [Hh|Hh].
    - rewrite lru_Contains_Peek in Hh. destruct (lru_Peek (blockCache bc) (block_Hash block)) as [x|] eqn:E; [|done].
      destruct (bcc_block _ Hcc _ _ E) as (m & Hm & Em). eauto.
    - rewrite kv_Has_Get in Hh. destruct (bk_body _ _ Hdb (block_Hash block) n Hn) as [h Eh].
      + unfold look. by destruct (kv_Get _ _).
      + destruct (header_block g _ Hdb _ _ _ Hn Eh) as (x & Ex & _). eauto. }
  destruct G as (m & x & Hm & Ex). destruct (block_known g _ Hdb _ _ _ Hm Ex) as (_ & Eh & Em & _).
  apply hash_inj in Eh. exists x. split; [|done]. pose proof (wr_number _ _ _ _ Hw) as En. unfold block_Number in En, Em.
  rewrite Eh, En in Em. by injection Em as <-.
Qed.

(** What writing a block does. *)
Inductive wrote (g : Block) (bc : BlockChain) (b : Block) (top : Z) (block : Block) (n : Z) (coin : bool)
    (receipts : list ChainReceipt) (state : CState) : WriteStatus + ChainError -> BlockChain -> Prop :=
| wrote_known bc' x : GetBlock (bc_db bc) (block_Hash block) n = Some x -> block_header x = block_header block ->
    bc_db bc' = bc_db bc -> bc_ok g bc' b top -> wrote g bc b top block n coin receipts state (inl NonStatTy) bc'
| wrote_refused e bc' : block_batch block n receipts state = Ret (inr e) ->
    (forall hash m, is_u64 m -> GetBlock (bc_db bc') hash m = GetBlock (bc_db bc) hash m) -> bc_ok g bc' b top ->
    wrote g bc b top block n coin receipts state (inr e) bc'
| wrote_stored bc' d ptd td (canonical := wins (d + ptd) td coin) : Difficulty (block_header block) = Some d ->
    GetTd (bc_db bc) (block_ParentHash block) (n - 1) = Some ptd -> GetTd (bc_db bc) (block_Hash b) top = Some td ->
    GetBlock (bc_db bc) (block_Hash block) n = None ->
    (forall hash m, is_u64 m -> GetBlock (bc_db bc') hash m =
       if decide (hash = block_Hash block /\ m = n) then Some block else GetBlock (bc_db bc) hash m) ->
    GetTd (bc_db bc') (block_Hash block) n = Some (d + ptd) ->
    bc_ok g bc' (if canonical then block else b) (if canonical then n else top) ->
    wrote g bc b top block n coin receipts state (inl (if canonical then CanonStatTy else SideStatTy)) bc'.

Definition same_stored (db db' : KV) : Prop := forall hash m, is_u64 m -> GetBlock db' hash m = GetBlock db hash m.

Lemma same_stored_sym db db' : same_stored db db' -> same_stored db' db.
Proof. intros Hs hash m Hm. by rewrite Hs. Qed.

Lemma writable_ext g db db' block n : same_stored db db' -> writable g db block n -> writable g db' block n.
Proof.
  intros Hs [H1 H2 H3 H4 H5 [p Ep] H6]. split; try done.
  - exists p. rewrite Hs; [done|unfold is_u64; lia].
  - intros l Hl. apply H6. by apply (path_ext db' db _ _ _ (same_stored_sym _ _ Hs)).
Qed.

Lemma bc_ok_quiet g bc bc' b top : bc_ok g bc b top -> quiet bc bc' -> bc_caches bc' -> bc_ok g bc' b top.
Proof.
  intros [H1 H2 H3 H4 H5 H6 H7] (Ed & Eg & Ec & _) Hc. split; [done|by rewrite Ed|done|congruence|by rewrite Ed|by rewrite Ed|].
  intros x n l. rewrite Ed. apply H7.
Qed.

(** The invariant does not depend on total difficulties without a block. *)
Lemma bc_ok_td g bc bc' b top hash n : bc_ok g bc b top -> blocks_ok g (bc_db bc') -> bc_caches bc' ->
  same_but [TdKey hash n] (bc_db bc) (bc_db bc') -> currentBlock bc' = currentBlock bc ->
  (forall hash m td, is_u64 m -> GetTd (bc_db bc) hash m = Some td -> GetTd (bc_db bc') hash m = Some td) -> bc_ok g bc' b top.
Proof.
  intros [H1 H2 H3 H4 H5 H6 H7] Hdb Hcc Hs Ec Htd.
  assert (Hne : forall k, k <> TdKey hash n -> k ∉ [TdKey hash n]) by (intros k Hk [?|?%elem_of_nil]%elem_of_cons; done).
  assert (Hst : same_stored (bc_db bc) (bc_db bc')) by (intros h m Hm; apply (GetBlock_same _ _ _ _ _ Hs Hm); by apply Hne).
  assert (Hhd : forall h m, is_u64 m -> GetHeader (bc_db bc') h m = GetHeader (bc_db bc) h m)
    by (intros h m Hm; apply (GetHeader_same _ _ _ _ _ Hs Hm); by apply Hne).
  split; try done; [congruence| | |].
  - apply (head_ok_keep _ _ _ _ _ H5 (same_but_changed _ _ _ Hs)).
    + intros k [->|?%elem_of_nil]%elem_of_cons; done.
    + intros l x. apply path_ext. by apply same_stored_sym.
    + intros l x j. apply (path_number_u64 g _ _ _ _ _ top H2). apply (stored_good g _ H2); apply H5.
    + rewrite Hst; [apply H5|apply H5].
  - intros td h m x td' Etd Hm Ex Etd'. rewrite Hhd in Ex by done.
    destruct (bk_header _ _ H2 _ _ _ Hm Ex) as (_ & _ & _ & _ & _ & _ & _ & [t Et]).
    destruct (block_parts _ _ _ _ (hk_block _ _ _ H5)) as [Eh _].
    destruct (bk_header _ _ H2 _ _ _ (hk_top _ _ _ H5) Eh) as (_ & _ & _ & _ & _ & _ & _ & [t0 Et0]).
    rewrite (Htd _ _ _ (hk_top _ _ _ H5) Et0) in Etd. injection Etd as <-. rewrite (Htd _ _ _ Hm Et) in Etd'. injection Etd' as <-.
    by apply (H6 t0 h m x).
  - intros x m l Hm Ex Hl. rewrite Hst in Ex by done. apply (H7 x m); [done|done|].
    by apply (path_ext _ _ _ _ _ (same_stored_sym _ _ Hst)).
Qed.

(** ** The store after the batch *)
Section after_batch.
Context (g : Block) (bc bc' : BlockChain) (Hdb : blocks_ok g (bc_db bc)) (Hcc : bc_caches bc) (block : Block) (n d ptd : Z)
  (Hw : writable g (bc_db bc) block n) (Hnew : forall m, is_u64 m -> GetHeader (bc_db bc) (block_Hash block) m = None)
  (Htd : GetTd (bc_db bc) (block_Hash block) n = Some (d + ptd))
  (P : Key -> Prop) (Hc : changed P (bc_db bc) (bc_db bc'))
  (HP : forall k, P k -> is_block k -> k = BodyKey (block_Hash block) n \/ k = NumberKey (block_Hash block) \/ k = HeaderKey (block_Hash block) n)
  (Eb : GetBlock (bc_db bc') (block_Hash block) n = Some block) (En' : GetBlockNumber (bc_db bc') (block_Hash block) = n)
  (Hcalm : headerCache (bc_hc bc') = headerCache (bc_hc bc) /\ tdCache (bc_hc bc') = tdCache (bc_hc bc) /\
    numberCache (bc_hc bc') = numberCache (bc_hc bc) /\ blockCache bc' = blockCache bc).

Let Hadd := added_block_at (bc_db bc) (bc_db bc') block n P Hc HP Eb.

Lemma after_blocks : blocks_ok g (bc_db bc').
Proof. by apply (added_block_ok g (bc_db bc) (bc_db bc') Hdb block n Hw Hnew ltac:(by eexists) P Hc HP Eb En'). Qed.

Lemma after_caches : bc_caches bc'.
Proof.
  destruct Hcc as [[H1 H2 H3] H4]. destruct Hcalm as (C1 & C2 & C3 & C4). split; [split|].
  - rewrite C1. intros hash h Hk. destruct (H1 _ _ Hk) as (m & Hm & E). exists m. split; [done|].
    change (hc_db (bc_hc bc')) with (bc_db bc'). rewrite (added_header_at _ _ block n P Hc HP Eb), decide_False; [done| |done].
    intros [-> ->]. by rewrite Hnew in E.
  - rewrite C2. intros hash td Hk. destruct (H2 _ _ Hk) as (m & Hm & E). exists m. split; [done|].
    change (hc_db (bc_hc bc')) with (bc_db bc'). by rewrite (added_td_at _ _ block n P Hc HP).
  - rewrite C3. intros hash m Hk. destruct (H3 _ _ Hk) as [Hm E]. split; [done|].
    change (hc_db (bc_hc bc')) with (bc_db bc'). rewrite (added_number_at _ _ block n P Hc HP En'), decide_False; [done|].
    intros ->. destruct (bk_number _ _ Hdb (block_Hash block)) as [Hu [h Eh]]; [unfold bc_db; congruence|]. by rewrite Hnew in Eh.
  - rewrite C4. intros hash x Hk. destruct (H4 _ _ Hk) as (m & Hm & E). exists m. split; [done|].
    apply (one_more_old (bc_db bc) (bc_db bc') block n (added_not_stored g (bc_db bc) block n Hw Hnew)); [apply Hadd|done|done].
Qed.

Lemma after_path x l a m : path (bc_db bc') x l a -> good g (bc_db bc) x m -> path (bc_db bc) x l a.
Proof.
  apply (path_less g (bc_db bc) (bc_db bc') Hdb block n (added_not_stored g (bc_db bc) block n Hw Hnew) Hadd).
Qed.

Lemma after_placeable : (forall x m l, is_u64 m -> GetBlock (bc_db bc) (block_Hash x) m = Some x -> path (bc_db bc) x l g -> placeable l) ->
  forall x m l, is_u64 m -> GetBlock (bc_db bc') (block_Hash x) m = Some x -> path (bc_db bc') x l g -> placeable l.
Proof.
  intros Hpl x m l Hm Ex Hl. rewrite Hadd in Ex by done. case_decide as Hd.
  - injection Ex as <-. apply (wr_placeable _ _ _ _ Hw). apply (after_path block l g n Hl). by apply writable_good.
  - apply (Hpl x m); [done|done|]. apply (after_path x l g m Hl). by apply (stored_good g _ Hdb).
Qed.

(** The weights: the new block against the head. *)
Lemma after_weights b top td : GetBlock (bc_db bc) (block_Hash b) top = Some b -> is_u64 top -> GetTd (bc_db bc) (block_Hash b) top = Some td ->
  heaviest_block (bc_db bc) b top -> forall b' top', (b' = b /\ top' = top /\ d + ptd <= td) \/ (b' = block /\ top' = n /\ td <= d + ptd) ->
  heaviest_block (bc_db bc') b' top'.
Proof.
  intros Eb0 Ht Etd Hh b' top' Hcase t hash m h t' Et Hm Eh Et'.
  assert (Hn : is_u64 n) by (pose proof (wr_bounds _ _ _ _ Hw); unfold is_u64; lia).
  rewrite (added_td_at _ _ block n P Hc HP) in Et' by done. rewrite (added_header_at _ _ block n P Hc HP Eb) in Eh by done.
  assert (Hboth : d + ptd <= t /\ td <= t).
  { destruct Hcase as [(-> & -> & Hle)|(-> & -> & Hle)]; rewrite (added_td_at _ _ block n P Hc HP) in Et by done;
      [rewrite Etd in Et|rewrite Htd in Et]; injection Et as <-; lia. }
  case_decide as Hd.
  - destruct Hd as [-> ->]. rewrite Htd in Et'. injection Et' as <-. lia.
  - pose proof (Hh td hash m h t' Etd Hm Eh Et'). lia.
Qed.

End after_batch.

(** ** The two outcomes *)
Section outcome.
Context (g : Block) (bc : BlockChain) (b block : Block) (top n d ptd td : Z) (Hok : bc_ok g bc b top) (Hw : writable g (bc_db bc) block n)
  (Hnew : forall m, is_u64 m -> GetHeader (bc_db bc) (block_Hash block) m = None)
  (Htd : GetTd (bc_db bc) (block_Hash block) n = Some (d + ptd)) (Etd : GetTd (bc_db bc) (block_Hash b) top = Some td)
  (batch : Batch)
  (Hbatch : forall db, changed (block_keys (block_Hash block) n) db (batch_Write db batch) /\
      GetBlock (batch_Write db batch) (block_Hash block) n = Some block /\ GetBlockNumber (batch_Write db batch) (block_Hash block) = n).

Lemma block_keys_block k : block_keys (block_Hash block) n k -> is_block k ->
  k = BodyKey (block_Hash block) n \/ k = NumberKey (block_Hash block) \/ k = HeaderKey (block_Hash block) n.
Proof. intros [|[|[|[->|Hk]]]] Hb; try tauto; [done|by destruct k]. Qed.

(** The block is stored beside the canonical chain. *)
Lemma store_side bc' : d + ptd <= td -> bc_db bc' = batch_Write (bc_db bc) batch -> calm bc bc' -> currentBlock bc' = currentBlock bc ->
  bc_ok g bc' b top /\ (forall hash m, is_u64 m -> GetBlock (bc_db bc') hash m =
    if decide (hash = block_Hash block /\ m = n) then Some block else GetBlock (bc_db bc) hash m) /\
  GetTd (bc_db bc') (block_Hash block) n = Some (d + ptd).
Proof.
  intros Hle Ed (C1 & C2 & C3 & C4 & _) Ec. destruct (Hbatch (bc_db bc)) as (Hc & Eb & En). rewrite <- Ed in Hc, Eb, En.
  destruct Hok as [H1 H2 H3 H4 H5 H6 H7]. pose proof (wr_bounds _ _ _ _ Hw) as Hbn. assert (Hn : is_u64 n) by (unfold is_u64; lia).
  pose proof (added_block_at (bc_db bc) (bc_db bc') block n _ Hc block_keys_block Eb) as Hadd.
  pose proof (added_not_stored g (bc_db bc) block n Hw Hnew) as Hns.
  split; [|split; [done|by rewrite (added_td_at _ _ block n _ Hc block_keys_block)]]. split.
  - done.
  - by apply (after_blocks g bc bc' H2 block n d ptd Hw Hnew Htd _ Hc block_keys_block).
  - by apply (after_caches g bc bc' H2 H3 block n Hw Hnew _ Hc block_keys_block).
  - congruence.
  - apply (head_ok_keep _ _ _ _ _ H5 Hc).
    + intros k [->|[->|[->|[->|Hk]]]]; try done. by destruct k.
    + intros l x Hl. apply (path_less g _ _ H2 block n Hns Hadd b l x top Hl). apply (stored_good g _ H2); apply H5.
    + intros l x j. apply (path_number_u64 g _ _ _ _ _ top H2). apply (stored_good g _ H2); apply H5.
    + apply (one_more_old _ _ block n Hns Hadd); apply H5.
  - apply (after_weights g bc bc' block n d ptd Hw Htd _ Hc block_keys_block Eb b top td); try done; try apply H5. by left.
  - by apply (after_placeable g bc bc' H2 block n Hw Hnew _ Hc block_keys_block Eb).
Qed.

(** What the batch and the insertion of the head change. *)
Lemma head_written bc1 batch' : (forall db, changed (tx_keys (block_txs block)) (batch_Write db batch) (batch_Write db batch') /\
    placed (batch_Write db batch') block n) ->
  exists bc2, insert block false (set_hc (with_hc_db (batch_Write (bc_db bc1) batch') (bc_hc bc1)) bc1) = Ret (tt, bc2) /\
    calm bc1 bc2 /\ currentBlock bc2 = Some block /\ changed (head_keys block n) (bc_db bc1) (bc_db bc2) /\
    GetBlock (bc_db bc2) (block_Hash block) n = Some block /\ GetBlockNumber (bc_db bc2) (block_Hash block) = n /\
    GetCanonicalHash (bc_db bc2) n = block_Hash block /\ placed (bc_db bc2) block n /\ GetHeadBlockHash (bc_db bc2) = block_Hash block.
Proof.
  intros Hb'. pose proof (wr_bounds _ _ _ _ Hw) as Hbn. assert (Hn : is_u64 n) by (unfold is_u64; lia).
  destruct (Hbatch (bc_db bc1)) as (C1 & Eb & En). destruct (Hb' (bc_db bc1)) as (C2 & Hp).
  set (bcw := set_hc _ bc1). destruct (insert_run block false bcw n (wr_number _ _ _ _ Hw) Hn) as (bc2 & E2 & K2 & Ec2 & C3 & Gc & Gh).
  change (bc_db bcw) with (batch_Write (bc_db bc1) batch') in C3.
  assert (S2 : same_blocks (batch_Write (bc_db bc1) batch) (batch_Write (bc_db bc1) batch')).
  { apply (changed_blocks _ _ _ C2). intros k Hk Hbk. by destruct k. }
  assert (S3 : same_blocks (batch_Write (bc_db bc1) batch') (bc_db bc2)).
  { apply (changed_blocks _ _ _ C3). intros k [->|Hk] Hbk; [done|by destruct k]. }
  exists bc2. split; [done|]. split; [done|]. split; [done|]. split; [|split; [|split; [|split; [done|split; [|done]]]]].
  - apply (changed_trans _ _ _ _ _ _ C1 (changed_trans _ _ _ _ _ _ C2 C3 (fun _ H => H))). unfold head_keys. tauto.
  - by rewrite (same_blocks_block _ _ S3), (same_blocks_block _ _ S2).
  - by rewrite (same_blocks_number _ _ S3), (same_blocks_number _ _ S2).
  - apply (placed_changed _ _ _ _ _ C3); [|done]. intros h _ [?|[]]. done.
Qed.

Lemma head_keys_block k : head_keys block n k -> is_block k ->
  k = BodyKey (block_Hash block) n \/ k = NumberKey (block_Hash block) \/ k = HeaderKey (block_Hash block) n.
Proof. intros [Hk|[->|[Hk|Hk]]] Hb; [by apply block_keys_block|done|by destruct k..]. Qed.

(** The block is the new head. *)
Lemma store_canonical fuel state : td <= d + ptd -> top <= Z.of_nat fuel -> n <= Z.of_nat fuel ->
  exists batch' bc1 bc2, make_canonical fuel b block batch state bc = Ret (inl batch', bc1) /\
    insert block false (set_hc (with_hc_db (batch_Write (bc_db bc1) batch') (bc_hc bc1)) bc1) = Ret (tt, bc2) /\
    bc_ok g bc2 block n /\ (forall hash m, is_u64 m -> GetBlock (bc_db bc2) hash m =
      if decide (hash = block_Hash block /\ m = n) then Some block else GetBlock (bc_db bc) hash m) /\
    GetTd (bc_db bc2) (block_Hash block) n = Some (d + ptd).
Proof.
  intros Hle Hf1 Hf2. pose proof Hok as [H1 H2 H3 H4 H5 H6 H7]. pose proof (hk_top _ _ _ H5) as Ht. pose proof (hk_block _ _ _ H5) as Es.
  assert (Hn : is_u64 n) by (pose proof (wr_bounds _ _ _ _ Hw); unfold is_u64; lia).
  assert (Hplb : forall l, path (bc_db bc) b l g -> placeable l) by (intros l; by apply (H7 b top)).
  destruct (make_canonical_run g bc H2 H3 b block top n H5 Hw Hnew fuel batch state Hplb Hf1 Hf2)
    as (bc1 & batch' & a & k & lo & ln & E1 & Hr & K1 & S1 & Hb').
  destruct (head_written bc1 batch' Hb') as (bc2 & E2 & K2 & Ec & C2 & Eb & En & Gc & Gp & Gh). exists batch', bc1, bc2. split; [done|]. split; [done|].
  pose proof (blocks_ok_same _ _ S1 g H2) as H2'.
  assert (Hst : same_stored (bc_db bc) (bc_db bc1)) by (intros hash m Hm; by apply same_blocks_block).
  pose proof (writable_ext g _ _ block n Hst Hw) as Hw1.
  assert (Hnew1 : forall m, is_u64 m -> GetHeader (bc_db bc1) (block_Hash block) m = None)
    by (intros m Hm; rewrite (same_blocks_header _ _ S1) by done; by apply Hnew).
  assert (Htd1 : GetTd (bc_db bc1) (block_Hash block) n = Some (d + ptd)) by by rewrite (same_blocks_td _ _ S1).
  pose proof (added_block_at (bc_db bc1) (bc_db bc2) block n _ C2 head_keys_block Eb) as Hadd1.
  assert (Hadd : forall hash m, is_u64 m -> GetBlock (bc_db bc2) hash m =
      if decide (hash = block_Hash block /\ m = n) then Some block else GetBlock (bc_db bc) hash m).
  { intros hash m Hm. rewrite Hadd1 by done. case_decide; [done|]. by apply Hst. }
  split; [|split; [done|by rewrite (added_td_at _ _ block n _ C2 head_keys_block)]].
  destruct K2 as (Q1 & Q2 & Q3 & Q4 & _). split; [done| | |done| | |].
  - by apply (after_blocks g bc1 bc2 H2' block n d ptd Hw1 Hnew1 Htd1 _ C2 head_keys_block).
  - by apply (after_caches g bc1 bc2 H2' K1 block n Hw1 Hnew1 _ C2 head_keys_block).
  - apply (new_head_ok g (bc_db bc) (bc_db bc1) (bc_db bc2) H2 H1 b block top n H5 Hplb Hw (added_not_stored g _ block n Hw Hnew) a k lo ln); done.
  - apply (after_weights g bc1 bc2 block n d ptd Hw1 Htd1 _ C2 head_keys_block Eb b top td); try done.
    + by rewrite (same_blocks_block _ _ S1).
    + by rewrite (same_blocks_td _ _ S1).
    + intros t hash m h t' Et Hm Eh Et'. rewrite (same_blocks_td _ _ S1) in Et, Et' by done. rewrite (same_blocks_header _ _ S1) in Eh by done.
      by apply (H6 t hash m h).
    + by right.
  - apply (after_placeable g bc1 bc2 H2' block n Hw1 Hnew1 _ C2 head_keys_block Eb). intros x m l Hm Ex Hl.
    rewrite Hst in Ex by done. apply (H7 x m l Hm Ex). by apply (path_ext _ _ _ _ _ (same_stored_sym _ _ Hst)).
Qed.

End outcome.

Lemma bc_ok_future g bc b top c : bc_ok g bc b top -> bc_ok g (set_futureBlocks c bc) b top.
Proof. intros [H1 H2 [H3 H3'] H4 H5 H6 H7]. by split. Qed.

Lemma wins_ge x td coin : wins x td coin = true -> td <= x.
Proof. unfold wins. intros [Hw%Z.gtb_gt|[Hw%Z.eqb_eq _]%andb_true_iff]%orb_true_iff; lia. Qed.

Lemma wins_le x td coin : wins x td coin = false -> x <= td.
Proof. unfold wins. intros [Hw _]%orb_false_iff. rewrite Z.gtb_ltb in Hw. apply Z.ltb_ge in Hw. lia. Qed.

(** The block and its state are written, or the state is refused. *)
Lemma store_block_run g fuel coin bc b block top n d ptd td receipts state : bc_ok g bc b top -> writable g (bc_db bc) block n ->
  (forall m, is_u64 m -> GetHeader (bc_db bc) (block_Hash block) m = None) ->
  GetTd (bc_db bc) (block_Hash block) n = Some (d + ptd) -> GetTd (bc_db bc) (block_Hash b) top = Some td ->
  top <= Z.of_nat fuel -> n <= Z.of_nat fuel ->
  exists r bc', store_block fuel coin true b block n (d + ptd) (Some td) receipts state bc = Ret (r, bc') /\
    ((exists e, r = inr e /\ bc' = bc /\ block_batch block n receipts state = Ret (inr e)) \/
     let canonical := wins (d + ptd) td coin in
     r = inl (if canonical then CanonStatTy else SideStatTy) /\
     bc_ok g bc' (if canonical then block else b) (if canonical then n else top) /\
     (forall hash m, is_u64 m -> GetBlock (bc_db bc') hash m =
        if decide (hash = block_Hash block /\ m = n) then Some block else GetBlock (bc_db bc) hash m) /\
     GetTd (bc_db bc') (block_Hash block) n = Some (d + ptd)).
Proof.
  intros Hok Hw Hnew Htd Etd Hf1 Hf2. assert (Hn : is_u64 n) by (pose proof (wr_bounds _ _ _ _ Hw); unfold is_u64; lia). unfold store_block.
  destruct (block_batch_run block n receipts state (wr_ok _ _ _ _ Hw) (wr_number _ _ _ _ Hw) Hn) as [[e Ee]|(batch & Ebt & Hbatch)].
  { rewrite (bind_glift _ _ _ _ Ee). exists (inr e), bc. split; [done|]. left. by exists e. }
  rewrite (bind_glift _ _ _ _ Ebt). cbn [the]. rewrite bind_mret. fold (wins (d + ptd) td coin).
  destruct (wins (d + ptd) td coin) eqn:Ew; cbv zeta.
  - destruct (store_canonical g bc b block top n d ptd td Hok Hw Hnew Htd Etd batch Hbatch fuel state (wins_ge _ _ _ Ew) Hf1 Hf2)
      as (batch' & bc1 & bc2 & E1 & E2 & Hok2 & Hadd & Htd2).
    rewrite (bind_run _ _ _ _ _ E1). cbn [negb]. rewrite bind_on_db, (bind_run _ _ _ _ _ E2), bind_gmodify.
    eexists _, _. split; [done|]. right. split; [done|]. split; [by apply bc_ok_future|done].
  - rewrite bind_mret. cbn [negb]. rewrite bind_on_db, bind_mret, bind_gmodify. eexists _, _. split; [done|]. right. split; [done|].
    set (bc1 := set_hc _ bc).
    destruct (store_side g bc b block top n d ptd td Hok Hw Hnew Htd Etd batch Hbatch bc1 (wins_le _ _ _ Ew) eq_refl ltac:(done) eq_refl) as (Hok1 & Hadd & Htd1).
    split; [by apply bc_ok_future|done].
Qed.

Lemma WriteBlockAndState_run g fuel coin block receipts state bc b top n :
  bc_ok g bc b top -> writable g (bc_db bc) block n -> top <= Z.of_nat fuel -> n <= Z.of_nat fuel ->
  exists r bc', WriteBlockAndState fuel coin true block receipts state bc = Ret (r, bc') /\ wrote g bc b top block n coin receipts state r bc'.
Proof.
  intros Hok Hw Hf1 Hf2. pose proof (wr_bounds _ _ _ _ Hw) as Hb. assert (Hn : is_u64 n) by (unfold is_u64; lia).
  assert (Hn1 : is_u64 (n - 1)) by (unfold is_u64; lia). pose proof (bo_blocks _ _ _ _ Hok) as Hdb. pose proof (bo_caches _ _ _ _ Hok) as Hcc.
  destruct (wr_parent _ _ _ _ Hw) as [p Ep]. destruct (block_parts _ _ _ _ Ep) as [Eph _].
  destruct (bk_header _ _ Hdb _ _ _ Hn1 Eph) as (_ & _ & _ & _ & _ & _ & _ & [ptd Eptd]).
  pose proof (bo_head _ _ _ _ Hok) as Hhd. pose proof (hk_top _ _ _ Hhd) as Ht. destruct (block_parts _ _ _ _ (hk_block _ _ _ Hhd)) as [Ebh _].
  destruct (bk_header _ _ Hdb _ _ _ Ht Ebh) as (_ & _ & Enb & _ & _ & _ & _ & [td Etd]).
  destruct (proj1 (wr_ok _ _ _ _ Hw)) as (_ & (d & Ed & _) & _).
  unfold WriteBlockAndState. rewrite (bind_glift _ _ _ _ (wr_number _ _ _ _ Hw)), u64_small by (unfold is_u64 in *; lia).
  destruct (on_hc_GetTd g bc Hdb Hcc (block_ParentHash block) (n - 1) Hn1) as (r1 & bc1 & E1 & Q1 & K1 & _ & Hr1).
  rewrite (bind_run _ _ _ _ _ E1), (Hr1 _ Eptd), bind_gget. pose proof (bc_ok_quiet _ _ _ _ _ Hok Q1 K1) as Hok1.
  destruct Q1 as (Qd1 & _ & Qc1 & _). assert (Hw1 : writable g (bc_db bc1) block n) by by rewrite Qd1.
  destruct (HasBlock (block_Hash block) n bc1) eqn:Ehas.
  { destruct (HasBlock_true g bc1 block n (bo_blocks _ _ _ _ Hok1) K1 Hw1 Ehas) as (x & Ex & Ehx). rewrite Qd1 in Ex.
    exists (inl NonStatTy), bc1. split; [done|]. by eapply wrote_known. }
  pose proof (unstored_new g _ block n (bo_blocks _ _ _ _ Hok1) Hw1 (HasBlock_false g bc1 block n (bo_blocks _ _ _ _ Hok1) K1 Hw1 Ehas)) as Hnew.
  rewrite (bo_current _ _ _ _ Hok1). cbn [the]. rewrite bind_mret, (bind_glift _ _ _ _ Enb).
  destruct (on_hc_GetTd g bc1 (bo_blocks _ _ _ _ Hok1) K1 (block_Hash b) top Ht) as (r2 & bc2 & E2 & Q2 & K2 & _ & Hr2).
  rewrite Qd1 in Hr2. rewrite (bind_run _ _ _ _ _ E2), (Hr2 _ Etd), Ed. cbn [the]. rewrite bind_mret.
  pose proof (bc_ok_quiet _ _ _ _ _ Hok1 Q2 K2) as Hok2. destruct Q2 as (Qd2 & _ & Qc2 & _). rewrite Qd1 in Qd2.
  assert (Hw2 : writable g (bc_db bc2) block n) by by rewrite Qd2.
  destruct (TryWriteTd_run g bc2 block n d ptd (bo_blocks _ _ _ _ Hok2) K2 Hw2 Ed ltac:(by rewrite Qd2))
    as (bc3 & E3 & Hdb3 & K3 & S3 & T3 & Qc3 & Told).
  rewrite (bind_run _ _ _ _ _ E3). pose proof (bc_ok_td g bc2 bc3 b top _ n Hok2 Hdb3 K3 S3 Qc3 Told) as Hok3. rewrite Qd2 in Told, S3.
  assert (Hst : same_stored (bc_db bc) (bc_db bc3)).
  { intros hash m Hm. apply (GetBlock_same _ _ _ _ _ S3 Hm); intros [?|?%elem_of_nil]%elem_of_cons; done. }
  assert (Hnew3 : forall m, is_u64 m -> GetHeader (bc_db bc3) (block_Hash block) m = None).
  { intros m Hm. rewrite (GetHeader_same _ _ _ _ _ S3 Hm), <- Qd1; [by apply Hnew|]. intros [?|?%elem_of_nil]%elem_of_cons; done. }
  destruct (store_block_run g fuel coin bc3 b block top n d ptd td receipts state Hok3 (writable_ext _ _ _ _ _ Hst Hw) Hnew3 T3 (Told _ _ _ Ht Etd) Hf1 Hf2)
    as (r & bc' & E' & [(e & -> & -> & Ee)|(-> & Hok' & Hadd & Htd')]); exists r || exists (inr e) || eexists; eexists; (split; [exact E'|]).
  - by apply wrote_refused.
  - apply (wrote_stored _ _ _ _ _ _ _ _ _ bc' d ptd td); try done.
    + rewrite <- Qd1. by apply (added_not_stored g).
    + intros hash m Hm. rewrite Hadd by done. case_decide; [done|by apply Hst].
Qed.

End block_write.
