(* ===== verification/BlockReach.v ===== *)
(** * The chains of a node

    From the store with the genesis block on, whatever blocks are imported and
    whatever the engine, the processor and the states say of them: the import does
    not panic, and the chain is the heaviest known one ([blocks_heaviest]). *)
From S2P Require Import Prelude GoMonad Fmt Clique TxList ChainDb ChainDbProps HeaderChain HeaderChainProps.
From S2P Require Import BlockChain BlockImport BlockChainProps BlockImportProps BlockWriteProps.
Local Open Scope Z_scope.

Section block_reach.
Context {KL : KvLib} {KLaws : KvLaws} {HL : HashLib} {HLaws : HashLaws} {CL : CliqueLib} {CLaws : HeaderLaws}
  {TL : TxLib} {LL : LruLib} {LLaws : LruLaws} {BL : ChainLib} {BLaws : ChainLaws} {BR : BlockRules}.
Context {RH : RLP Header} {RB : RLP Body} {RZ : RLP Z} {RR : RLP (list ChainReceipt)} {RE : RLP txLookupEntry}.
Context {LH : RLPLaws Header header_ok} {LB : RLPLaws Body body_ok} {LZ : RLPLaws Z (fun z => 0 <= z)}
  {LE : RLPLaws txLookupEntry entry_ok}.

(** ** Importing blocks *)

(** What the rules of headers and of transactions guarantee for a block: its fields
    are set, its number follows that of its parent, and on no chain it is on is a
    transaction twice. *)
Record valid_block (g : Block) (block : Block) (n : Z) : Prop := {
  vb_ok : block_ok block;
  vb_number : block_Number block = Ret n;
  vb_bounds : 0 < n < MaxUint64;
  vb_hash : block_Hash block <> 0;
  vb_parent h m : Header_Hash h = block_ParentHash block -> header_number h = Ret m -> n = m + 1;
  vb_placeable db l : blocks_ok g db -> path db block l g -> placeable l
}.

Lemma valid_writable g db block n m p : blocks_ok g db -> valid_block g block n -> is_u64 m ->
  DeriveSha_block (block_txs block) = TxHash (block_header block) -> GetBlock db (block_ParentHash block) m = Some p -> writable g db block n /\ m = n - 1.
Proof.
  intros Hdb [H1 H2 H3 H4 H5 H6] Hm Hroot Ep. destruct (block_known g db Hdb _ _ _ Hm Ep) as (_ & Eh & Em & _).
  pose proof (H5 (block_header p) m Eh Em) as En. split; [|lia]. split; try done.
  - exists p. by replace (n - 1) with m by lia.
  - intros l. by apply H6.
Qed.

(** A block by its hash. *)
Lemma GetBlockByHash_looks g db hash : blocks_ok g db ->
  looks (GetBlockByHash hash) db (fun r => (forall b, r = Some b -> exists m, is_u64 m /\ GetBlock db hash m = Some b) /\
    (forall m b, is_u64 m -> GetBlock db hash m = Some b -> r = Some b)).
Proof.
  intros Hdb bc <- Hcc. destruct (on_hc_GetBlockNumber bc Hcc hash) as (bc1 & E1 & Q1 & K1).
  unfold GetBlockByHash. rewrite (bind_run _ _ _ _ _ E1). pose proof Q1 as (Qd & _).
  assert (Hdb1 : blocks_ok g (bc_db bc1)) by by rewrite Qd.
  assert (Hu : is_u64 (GetBlockNumber (bc_db bc) hash)).
  { destruct (decide (GetBlockNumber (bc_db bc) hash = missingNumber)) as [->|Hne]; [unfold missingNumber, is_u64, MaxUint64; lia|].
    by apply (bk_number _ _ Hdb). }
  destruct (bc_GetBlock_run g bc1 Hdb1 K1 hash _ Hu) as (r & bc2 & E2 & Q2 & K2 & H1 & H2). rewrite Qd in H1, H2.
  exists r, bc2. split; [done|]. split; [by apply (quiet_trans _ bc1)|]. split; [done|]. split; [done|].
  intros m b Hm Eb. apply H2. destruct (block_parts _ _ _ _ Eb) as [Eh _].
  by destruct (bk_header _ _ Hdb _ _ _ Hm Eh) as (_ & _ & _ & _ & _ & -> & _).
Qed.

Lemma HasBlockAndState_looks g db hash : blocks_ok g db ->
  looks (HasBlockAndState hash) db (fun r => r = true -> exists m b, is_u64 m /\ GetBlock db hash m = Some b).
Proof.
  intros Hdb. unfold HasBlockAndState. apply (looks_bind _ _ _ _ _ (GetBlockByHash_looks g db hash Hdb)).
  intros [b|] [H1 _]; [|by apply looks_ret]. destruct (H1 b eq_refl) as (m & Hm & Eb). intros bc Hd Hcc. rewrite bind_gget.
  eexists _, bc. split; [done|]. split; [done|]. split; [done|]. eauto.
Qed.

(** The header has the roots of the body. *)
Definition committed_body (block : Block) : Prop :=
  DeriveSha_block (block_txs block) = TxHash (block_header block) /\ CalcUncleHash (block_uncles block) = UncleHash (block_header block).

Lemma ValidateBody_looks g db block : blocks_ok g db ->
  looks (bc_ValidateBody block) db (fun r => r = None -> committed_body block /\
    exists m p, is_u64 m /\ GetBlock db (block_ParentHash block) m = Some p).
Proof.
  intros Hdb. unfold bc_ValidateBody. apply (looks_bind _ _ _ _ _ (HasBlockAndState_looks g db _ Hdb)).
  intros [|] _; [by apply looks_ret|]. apply (looks_bind _ _ _ _ _ (HasBlockAndState_looks g db _ Hdb)).
  intros [|] Hp; [|by apply looks_ret]. intros bc Hd Hcc. cbn [negb]. rewrite bind_gget.
  destruct (VerifyUncles (bc_db bc) block); eexists _, bc; (split; [done|]); (split; [done|]); (split; [done|]); [done|].
  destruct (Z.eqb_spec (CalcUncleHash (block_uncles block)) (UncleHash (block_header block))); [cbn [negb]|done].
  destruct (Z.eqb_spec (DeriveSha_block (block_txs block)) (TxHash (block_header block))); [|done]. intros _. split; [by split|auto].
Qed.

Lemma bc_ok_bad g bc b top c : bc_ok g bc b top -> bc_ok g (set_badBlocks c bc) b top.
Proof. intros [H1 H2 [H3 H3'] H4 H5 H6 H7]. by split. Qed.

Lemma bc_ok_post g bc b top evs : bc_ok g bc b top -> bc_ok g (post evs bc) b top.
Proof. intros [H1 H2 [H3 H3'] H4 H5 H6 H7]. by split. Qed.

(** The heads of a run stay below the fuel. *)
Definition alive (g : Block) (fuel : nat) (bc : BlockChain) : Prop :=
  exists b top, bc_ok g bc b top /\ top <= Z.of_nat fuel.

(** A run that returns and leaves a chain as it should be. *)
Definition safe {A : Type} (g : Block) (fuel : nat) (m : go BlockChain A) : Prop :=
  forall bc, alive g fuel bc -> exists a bc', m bc = Ret (a, bc') /\ alive g fuel bc'.

Lemma safe_ret {A : Type} g fuel (a : A) : safe g fuel (mret a).
Proof. intros bc Hb. by exists a, bc. Qed.

Lemma safe_bind {A B : Type} g fuel (m : go BlockChain A) (f : A -> go BlockChain B) :
  safe g fuel m -> (forall a, safe g fuel (f a)) -> safe g fuel (m ≫= f).
Proof.
  intros Hm Hf bc Hb. destruct (Hm bc Hb) as (a & bc1 & E1 & Hb1). rewrite (bind_run _ _ _ _ _ E1). by apply Hf.
Qed.

Lemma safe_bad g fuel block : safe g fuel (addBadBlock block).
Proof. intros bc (b & top & Hok & Hf). eexists _, _. split; [done|]. exists b, top. split; [by apply bc_ok_bad|done]. Qed.

Lemma safe_future g fuel hash block :
  safe g fuel (gmodify (fun bc => set_futureBlocks (lru_Add (futureBlocks bc) hash block) bc)).
Proof. intros bc (b & top & Hok & Hf). eexists _, _. split; [done|]. exists b, top. split; [by apply bc_ok_future|done]. Qed.

Lemma safe_write g fuel coin block receipts state n bc : alive g fuel bc -> writable g (bc_db bc) block n -> n <= Z.of_nat fuel ->
  exists r bc', WriteBlockAndState fuel coin true block receipts state bc = Ret (r, bc') /\ alive g fuel bc'.
Proof.
  intros (b & top & Hok & Hf) Hw Hn.
  destruct (WriteBlockAndState_run g fuel coin block receipts state bc b top n Hok Hw Hf Hn) as (r & bc' & E & Hwr).
  exists r, bc'. split; [done|]. destruct Hwr as [bc' x _ _ _ Hok'|e bc' _ _ Hok'|bc' d ptd td canonical _ _ _ _ _ _ Hok'];
    [by exists b, top..|]. eexists _, _. split; [exact Hok'|]. by destruct canonical.
Qed.

Lemma alive_quiet g fuel bc bc' : alive g fuel bc -> quiet bc bc' -> bc_caches bc' -> alive g fuel bc'.
Proof. intros (b & top & Hok & Hf) Q K. exists b, top. split; [by apply (bc_ok_quiet g bc)|done]. Qed.

(** The block before, or the parent that was found. *)
Lemma parent_found g block n prev bc : valid_block g block n -> blocks_ok g (bc_db bc) -> bc_caches bc ->
  DeriveSha_block (block_txs block) = TxHash (block_header block) ->
  (exists m p, is_u64 m /\ GetBlock (bc_db bc) (block_ParentHash block) m = Some p) ->
  exists p bc', (match prev with Some p => mret (Some p) | None => bc_parent block end) bc = Ret (Some p, bc') /\ quiet bc bc' /\ bc_caches bc'.
Proof.
  intros Hv Hdb Hcc Hroot (m & p & Hm & Ep). destruct prev as [q|]; [by exists q, bc|].
  destruct (valid_writable g _ block n m p Hdb Hv Hm Hroot Ep) as [Hw ->].
  destruct (bc_parent_looks g (bc_db bc) Hdb block n p (writable_good _ _ _ _ Hw) ltac:(pose proof (vb_bounds _ _ _ Hv); lia) Ep bc eq_refl Hcc)
    as (r & bc' & E & Q & K & ->). by exists p, bc'.
Qed.

(** A block that passed the engine and the validator of bodies. *)
Lemma safe_process g fuel liveFlag t block n parent bc : alive g fuel bc -> writable g (bc_db bc) block n -> n <= Z.of_nat fuel -> batch_ok t = true ->
  exists r bc', (bc ← gget;
    match state_New (bc_db bc) (Root (block_header parent)) with
    | inr e => mret (inr (errOther e))
    | inl state =>
        match Process block state liveFlag with
        | inr e => _ ← addBadBlock block; mret (inr e)
        | inl (receipts, logs, usedGas, state) =>
            match bc_ValidateState block parent state receipts usedGas with
            | Some e => _ ← addBadBlock block; mret (inr e)
            | None =>
                r ← WriteBlockAndState fuel (toss t) (batch_ok t) block receipts state;
                match r with inr e => mret (inr e) | inl status => mret (inl (Some (status, logs))) end
            end
        end
    end) bc = Ret (r : option (WriteStatus * list ChainLog) + ChainError, bc') /\ alive g fuel bc'.
Proof.
  intros Ha Hw Hn Hbt. rewrite bind_gget. destruct (state_New _ _) as [state|e]; [|by eexists _, bc].
  destruct (Process block state liveFlag) as [[[[receipts logs] usedGas] state']|e].
  - destruct (bc_ValidateState _ _ _ _ _) as [e|]; [apply safe_bind; [apply safe_bad|intros; apply safe_ret|done]|].
    rewrite Hbt. destruct (safe_write g fuel (toss t) block receipts state' n bc Ha Hw Hn) as (r & bc' & E & Ha').
    rewrite (bind_run _ _ _ _ _ E). destruct r; by eexists _, bc'.
  - apply safe_bind; [apply safe_bad|intros; apply safe_ret|done].
Qed.

(** A block as it comes from outside: its header is complete, and it is valid if the
    engine accepts its header and the header has the roots of its body. *)
Definition importable (g : Block) (fuel : nat) (t : Turn) (block : Block) : Prop :=
  header_ok (block_header block) /\
  (verdict t = None -> committed_body block -> exists n, valid_block g block n /\ n <= Z.of_nat fuel).

Lemma valid_importable g fuel turns chain : Forall (fun block => exists n, valid_block g block n /\ n <= Z.of_nat fuel) chain ->
  forall i block, chain !! i = Some block -> importable g fuel (turns i) block.
Proof.
  intros Hf i block Hi. destruct (Forall_lookup_1 _ _ _ _ Hf Hi) as (n & Hv & Hn). split; [by destruct (vb_ok _ _ _ Hv)|]. intros _ _. by exists n.
Qed.

Lemma safe_insert_block g fuel liveFlag t prev block : importable g fuel t block -> batch_ok t = true ->
  safe g fuel (insert_block fuel liveFlag t prev block).
Proof.
  intros [Hh Hi] Hbt bc Ha. unfold insert_block. destruct (bool_decide _); [apply safe_bind; [apply safe_bad|intros; apply safe_ret|done]|].
  pose proof Ha as (b & top & Hok & _). pose proof (bo_blocks _ _ _ _ Hok) as Hdb.
  assert (L : looks (match verdict t with Some e => mret (Some e) | None => bc_ValidateBody block end) (bc_db bc)
    (fun r => r = None -> verdict t = None /\ committed_body block /\
      exists m p, is_u64 m /\ GetBlock (bc_db bc) (block_ParentHash block) m = Some p)).
  { destruct (verdict t); [by apply looks_ret|]. apply (looks_weaken _ _ _ _ (ValidateBody_looks g _ block Hdb)). auto. }
  destruct (L bc eq_refl (bo_caches _ _ _ _ Hok)) as (err & bc1 & E1 & Q1 & K1 & Hp). rewrite (bind_run _ _ _ _ _ E1), bind_gget.
  pose proof (alive_quiet g fuel bc bc1 Ha Q1 K1) as Ha1. destruct Q1 as (Qd & _).
  destruct err as [e|].
  - destruct e; try (apply safe_bind; [apply safe_bad|intros; apply safe_ret|done]); try (by eexists _, bc1).
    + destruct (lru_Contains _ _); apply safe_bind; try done; [apply safe_future|intros; apply safe_ret|apply safe_bad|intros; apply safe_ret].
    + destruct Hh as (_ & _ & _ & _ & tm & -> & _). cbn [the]. rewrite bind_mret.
      destruct (tm >? _); [by eexists _, bc1|]. apply safe_bind; [apply safe_future|intros; apply safe_ret|done].
  - destruct (Hp eq_refl) as (Hve & Hb & m & p & Hm & Ep). destruct (Hi Hve Hb) as (n & Hv & Hn). destruct Hb as [Hroot _]. rewrite <- Qd in Ep, Hdb.
    destruct (parent_found g block n prev bc1 Hv Hdb K1 Hroot) as (q & bc2 & E2 & Q2 & K2); [eauto|]. rewrite (bind_run _ _ _ _ _ E2). cbn [the]. rewrite bind_mret.
    apply (safe_process g fuel liveFlag t block n q bc2); [by apply (alive_quiet g fuel bc1)| |done|done].
    destruct Q2 as (-> & _). by apply (valid_writable g (bc_db bc1) block n m p).
Qed.

Lemma safe_insert_chain g fuel liveFlag turns chain : (forall i, batch_ok (turns i) = true) ->
  forall i prev a, (forall j block, chain !! j = Some block -> importable g fuel (turns (i + j)%nat) block) ->
  safe g fuel (insert_chain fuel liveFlag turns i prev chain a).
Proof.
  intros Hbt. induction chain as [|block chain IH]; intros i prev a Hf; cbn [insert_chain]; [apply safe_ret|].
  destruct (interrupted (turns i)); [apply safe_ret|]. pose proof (Hf 0%nat block eq_refl) as Hb. rewrite Nat.add_0_r in Hb.
  apply safe_bind; [by apply safe_insert_block|]. intros [r|e]; [|apply safe_ret]. apply IH. intros j x Hj. rewrite Nat.add_succ_comm. by apply Hf.
Qed.

Lemma contiguous_returns prev chain : Forall header_ok (prev :: chain) -> exists r, contiguous prev chain = Ret r.
Proof.
  revert prev. induction chain as [|h chain IH]; intros prev Hf; [by eexists|]. inversion Hf as [|? ? Hp Hf']; subst.
  inversion Hf' as [|? ? Hh _]; subst. destruct (header_ok_number prev Hp) as (m & _ & _ & Em). destruct (header_ok_number h Hh) as (n & _ & _ & En).
  cbn [contiguous]. rewrite Em, En. cbn [mbind outcome_bind]. destruct (_ || _); [by eexists|by apply IH].
Qed.

Lemma safe_insertChain g fuel liveFlag turns chain : (forall i, batch_ok (turns i) = true) ->
  (forall i block, chain !! i = Some block -> importable g fuel (turns i) block) -> safe g fuel (insertChain fuel liveFlag turns chain).
Proof.
  intros Hbt Hf bc Ha. unfold insertChain.
  assert (Hc : exists r, contiguous_blocks chain = Ret r).
  { unfold contiguous_blocks, ordered_chain. destruct chain as [|b chain]; [by eexists|]. apply contiguous_returns.
    enough (Hb : Forall header_ok (block_header <$> (b :: chain))) by exact Hb. apply Forall_fmap, Forall_lookup_2.
    intros i x Hx. by destruct (Hf i x Hx). }
  destruct Hc as [ordered Eo]. rewrite (bind_glift _ _ _ _ Eo). destruct (negb ordered); [by eexists _, bc|].
  destruct (safe_insert_chain g fuel liveFlag turns chain Hbt 0 None (mkAnnounced [] [] None) Hf bc Ha) as ([a e] & bc1 & E1 & Ha1).
  rewrite (bind_run _ _ _ _ _ E1). destruct e; [by eexists _, bc1|]. destruct (lastCanon a); [|by eexists _, bc1].
  rewrite bind_gget. pose proof Ha1 as (b0 & top & Hok & _). rewrite (bo_current _ _ _ _ Hok). cbn [the]. rewrite bind_mret. by eexists _, bc1.
Qed.

Lemma safe_InsertChain g fuel liveFlag turns chain : (forall i, batch_ok (turns i) = true) ->
  (forall i block, chain !! i = Some block -> importable g fuel (turns i) block) -> safe g fuel (InsertChain fuel liveFlag turns chain).
Proof.
  intros Hbt Hf. apply safe_bind; [by apply safe_insertChain|]. intros r. apply safe_bind; [|intros; apply safe_ret].
  intros bc (b & top & Hok & Hft). eexists _, _. split; [done|]. exists b, top. split; [by apply bc_ok_post|done].
Qed.

(** ** Opening the chain *)
Lemma GetHeaderByHash_looks g db hash : blocks_ok g db ->
  looks (on_hc (GetHeaderByHash hash)) db (fun r => (forall h, r = Some h -> exists m, is_u64 m /\ GetHeader db hash m = Some h) /\
    (forall m h, is_u64 m -> GetHeader db hash m = Some h -> r = Some h)).
Proof.
  intros Hdb bc <- Hcc. destruct (hc_GetBlockNumber_run (bc_hc bc) (bcc_hc _ Hcc) hash) as (hc1 & E1 & S1 & C1).
  set (n := GetBlockNumber (hc_db (bc_hc bc)) hash) in E1.
  assert (Hu : is_u64 n).
  { unfold n. destruct (decide (GetBlockNumber (hc_db (bc_hc bc)) hash = missingNumber)) as [->|Hne]; [unfold missingNumber, is_u64, MaxUint64; lia|].
    by apply (bk_number _ _ Hdb). }
  destruct (cached_run headerCache with_headerCache hash (fun db => GetHeader db hash n) hc1) as (c & E2 & Hp); [done..|].
  pose proof S1 as (Ed & Eg & Ec & Eh).
  assert (C2 : caches_ok (with_headerCache c hc1)).
  { split; cbn; try apply C1. intros k h Hk. destruct (Hp k h Hk) as [Hk'|[-> Ef]]; [by apply C1|eauto]. }
  destruct (quiet_hc bc (with_headerCache c hc1) Hcc ltac:(by split_and!) C2) as [Q K].
  eexists _, _. split; [|split; [exact Q|split; [exact K|]]].
  - apply on_hc_run. unfold GetHeaderByHash. rewrite (bind_run _ _ _ _ _ E1). exact E2.
  - split; [intros h|intros m h Hm E]; destruct (lru_Peek (headerCache hc1) hash) as [h'|] eqn:Ek.
    + intros [= ->]. destruct (co_header _ C1 _ _ Ek) as (m & Hm & E). exists m. unfold bc_db. by rewrite <- Ed.
    + rewrite Ed. eauto.
    + destruct (co_header _ C1 _ _ Ek) as (k & Hk & E'). rewrite Ed in E'. by destruct (blocks_header_unique g _ Hdb _ _ _ _ _ Hm Hk E E') as [_ ->].
    + destruct (bk_header _ _ Hdb _ _ _ Hm E) as (_ & _ & _ & _ & _ & N & _). rewrite Ed. unfold n, bc_db in *. by rewrite N.
Qed.

Lemma GetTd_looks g db hash n : blocks_ok g db -> is_u64 n -> looks (on_hc (hc_GetTd hash n)) db (fun _ => True).
Proof.
  intros Hdb Hn bc <- Hcc. destruct (on_hc_GetTd g bc Hdb Hcc hash n Hn) as (r & bc' & E & Q & K & _). by exists r, bc'.
Qed.

(** The head header is read back, and written. *)
Lemma load_header_run g bc b : blocks_ok g (bc_db bc) -> bc_caches bc -> header_ok (block_header b) ->
  exists h bc', load_header b bc = Ret (h, bc') /\ header_ok h /\ bc_caches bc' /\ currentBlock bc' = currentBlock bc /\
    changed (eq HeadHeaderKey) (bc_db bc) (bc_db bc').
Proof.
  intros Hdb Hcc Hb. unfold load_header. rewrite bind_gget.
  assert (L : looks (if GetHeadHeaderHash (bc_db bc) =? 0 then mret None else on_hc (GetHeaderByHash (GetHeadHeaderHash (bc_db bc)))) (bc_db bc)
    (fun r => forall h, r = Some h -> header_ok h)).
  { destruct (_ =? 0); [by apply looks_ret|]. apply (looks_weaken _ _ _ _ (GetHeaderByHash_looks g _ _ Hdb)).
    intros r [Hr _] h E. destruct (Hr h E) as (m & Hm & Em). by destruct (bk_header _ _ Hdb _ _ _ Hm Em). }
  destruct (L bc eq_refl Hcc) as (hd & bc1 & E1 & Q1 & K1 & Hhd). rewrite (bind_run _ _ _ _ _ E1). destruct Q1 as (Qd1 & _ & Qc1 & _).
  set (h := default (block_header b) hd). exists h. eexists. split; [done|].
  split; [unfold h; destruct hd as [x|]; [by apply Hhd|done]|].
  set (bc2 := set_hc _ bc1).
  assert (C : changed (eq HeadHeaderKey) (bc_db bc) (bc_db bc2)) by (rewrite <- Qd1; by apply changed_put).
  split; [|done]. apply (caches_calm bc1); [done|done|]. rewrite Qd1. apply (changed_blocks _ _ _ C). by intros k <- [].
Qed.

Lemma load_fast_run g bc b : blocks_ok g (bc_db bc) -> bc_caches bc -> header_ok (block_header b) ->
  exists f bc', load_fast b bc = Ret (f, bc') /\ header_ok (block_header f) /\ bc_caches bc' /\ currentBlock bc' = currentBlock bc /\
    bc_db bc' = bc_db bc.
Proof.
  intros Hdb Hcc Hb. unfold load_fast. rewrite bind_gget.
  assert (L : looks (if GetHeadFastBlockHash (bc_db bc) =? 0 then mret None else GetBlockByHash (GetHeadFastBlockHash (bc_db bc))) (bc_db bc)
    (fun r => forall x, r = Some x -> header_ok (block_header x))).
  { destruct (_ =? 0); [by apply looks_ret|]. apply (looks_weaken _ _ _ _ (GetBlockByHash_looks g _ _ Hdb)).
    intros r [Hr _] x E. destruct (Hr x E) as (m & Hm & Em). by destruct (block_known g _ Hdb _ _ _ Hm Em). }
  destruct (L bc eq_refl Hcc) as (fs & bc1 & E1 & Q1 & K1 & Hfs). rewrite (bind_run _ _ _ _ _ E1). destruct Q1 as (Qd1 & _ & Qc1 & _).
  set (f := default b fs). exists f. eexists. split; [done|]. split; [unfold f; destruct fs as [x|]; [by apply Hfs|done]|].
  split; [destruct K1; by split|done].
Qed.

(** The heads are read back; only the entry of the head header may change. *)
Lemma loadLastState_run g bc b top s : blocks_ok g (bc_db bc) -> bc_caches bc -> is_u64 top ->
  GetHeadBlockHash (bc_db bc) = block_Hash b -> GetBlock (bc_db bc) (block_Hash b) top = Some b ->
  state_New (bc_db bc) (Root (block_header b)) = inl s ->
  exists bc', loadLastState bc = Ret (inl tt, bc') /\ currentBlock bc' = Some b /\ bc_caches bc' /\
    changed (eq HeadHeaderKey) (bc_db bc) (bc_db bc').
Proof.
  intros Hdb Hcc Ht Eh Eb Es. unfold loadLastState. rewrite bind_gget, Eh.
  destruct (block_known g _ Hdb _ _ _ Ht Eb) as (Hh & _ & En & Hz & _). destruct (Z.eqb_spec (block_Hash b) 0); [done|].
  destruct (GetBlockByHash_looks g _ (block_Hash b) Hdb bc eq_refl Hcc) as (r & bc1 & E1 & Q1 & K1 & _ & Hr).
  rewrite (bind_run _ _ _ _ _ E1), (Hr top b Ht Eb), Es, bind_gmodify. destruct Q1 as (Qd1 & _).
  set (bc1' := set_currentBlock (Some b) bc1). assert (Kc : bc_caches bc1') by (destruct K1; by split).
  destruct (load_header_run g bc1' b ltac:(by rewrite (Qd1 : bc_db bc1' = _)) Kc Hh) as (h & bc2 & E2 & Hhd & K2 & C2 & Ch2).
  rewrite (bind_run _ _ _ _ _ E2). rewrite (Qd1 : bc_db bc1' = _) in Ch2.
  assert (S2 : same_blocks (bc_db bc) (bc_db bc2)) by (apply (changed_blocks _ _ _ Ch2); by intros k <- []).
  pose proof (blocks_ok_same _ _ S2 g Hdb) as Hdb2.
  destruct (load_fast_run g bc2 b Hdb2 K2 Hh) as (f & bc3 & E3 & Hf & K3 & C3 & D3). rewrite (bind_run _ _ _ _ _ E3).
  destruct (header_ok_number h Hhd) as (n1 & _ & Hn1 & En1). destruct (header_ok_number _ Hf) as (n3 & _ & Hn3 & En3).
  assert (Htds : forall hash n, is_u64 n -> looks (on_hc (hc_GetTd hash n)) (bc_db bc2) (fun _ => True)).
  { intros hash n' Hn'. by apply (GetTd_looks g). }
  rewrite (bind_glift _ _ _ _ En1). destruct (Htds (Header_Hash h) n1 Hn1 bc3 D3 K3) as (r6 & bc6 & E6 & Q6 & K6 & _).
  rewrite (bind_run _ _ _ _ _ E6), (bind_glift _ _ _ _ En). destruct Q6 as (D6 & _ & C6 & _). rewrite D3 in D6.
  destruct (Htds (block_Hash b) top Ht bc6 D6 K6) as (r7 & bc7 & E7 & Q7 & K7 & _).
  rewrite (bind_run _ _ _ _ _ E7), (bind_glift _ _ _ _ (En3 : block_Number f = Ret n3)). destruct Q7 as (D7 & _ & C7 & _). rewrite D6 in D7.
  destruct (Htds (block_Hash f) n3 Hn3 bc7 D7 K7) as (r8 & bc8 & E8 & Q8 & K8 & _). rewrite (bind_run _ _ _ _ _ E8).
  exists bc8. split; [done|]. destruct Q8 as (D8 & _ & C8 & _). rewrite D7 in D8.
  split; [by rewrite C8, C7, C6, C3, C2|]. split; [done|]. by rewrite D8.
Qed.

Lemma drop_banned_looks g fuel db l : blocks_ok g db -> (forall hash m, hash ∈ l -> is_u64 m -> GetHeader db hash m = None) ->
  looks (drop_banned fuel l) db (fun _ => True).
Proof.
  intros Hdb. induction l as [|hash l IH]; intros Hno; cbn [drop_banned]; [by apply looks_ret|].
  apply (looks_bind _ _ _ _ _ (GetHeaderByHash_looks g db hash Hdb)). intros [h|] [Hr _].
  - destruct (Hr h eq_refl) as (m & Hm & E). by rewrite Hno in E by (done || apply elem_of_cons; by left).
  - apply (looks_bind _ _ _ (fun _ => True)); [by apply looks_ret|]. intros _ _. apply IH. intros hash' m Hh. apply Hno. apply elem_of_cons. by right.
Qed.

(** A store with nothing but the genesis block. *)
Record genesis_store (g : Block) (db : KV) : Prop := {
  gs_blocks : blocks_ok g db;
  gs_txs : block_txs g = [];
  gs_only hash n h : is_u64 n -> GetHeader db hash n = Some h -> n = 0;
  gs_td hash n td : is_u64 n -> GetTd db hash n = Some td -> is_Some (GetHeader db hash n);
  gs_has hash n : is_u64 n -> look db (HeaderKey hash n) <> None -> is_Some (GetHeader db hash n);
  gs_canon : GetCanonicalHash db 0 = block_Hash g;
  gs_above n : is_u64 n -> 0 < n -> GetCanonicalHash db n = 0;
  gs_head : GetHeadBlockHash db = block_Hash g
}.

(** The header chain starts from the same store. *)
Lemma genesis_store_headers g db : genesis_store g db -> genesis_db (block_header g) db.
Proof.
  intros [Hdb _ Honly Htd Hhas Hca Hab Hh]. assert (Z0 : is_u64 0) by (unfold is_u64, MaxUint64; lia).
  split; [|done|done|done|by right]. split.
  - intros hash n h Hn E. by destruct (bk_header _ _ Hdb _ _ _ Hn E) as (? & ? & ? & ? & ? & ? & _).
  - intros hash Hne. by apply (bk_number _ _ Hdb).
  - intros hash n Hn. split; [intros [td E]; by apply (Htd hash n td)|]. intros [h E]. by destruct (bk_header _ _ Hdb _ _ _ Hn E) as (_ & _ & _ & _ & _ & _ & _ & ?).
  - intros hash n td Hn E. by destruct (bk_td _ _ Hdb _ _ _ Hn E).
  - intros hash n h Hn H0 E. by rewrite (Honly _ _ _ Hn E) in H0.
  - intros hash h E. by apply (bk_genesis _ _ Hdb hash).
  - by destruct (block_parts _ _ _ _ (bk_root _ _ Hdb)) as [? _].
  - intros hash n Hn [v E]. apply Hhas; [done|congruence].
Qed.

Lemma NewHeaderChain_genesis g db : genesis_store g db ->
  exists hc, NewHeaderChain db = Ret (inl hc) /\ hc_db hc = db /\ caches_ok hc.
Proof.
  intros [Hdb _ _ _ _ Hca _ Hh]. assert (Z0 : is_u64 0) by (unfold is_u64, MaxUint64; lia). destruct (block_parts _ _ _ _ (bk_root _ _ Hdb)) as [Er _].
  destruct (bk_header _ _ Hdb _ _ _ Z0 Er) as (_ & _ & _ & Hz & _ & En & _). unfold NewHeaderChain. rewrite Hca.
  destruct (Z.eqb_spec (block_Hash g) 0); [done|]. rewrite Er, Hh. destruct (Z.eqb_spec (block_Hash g) 0); [done|].
  match goal with |- context [GetHeaderByHash _ ?c] => set (hc0 := c) end.
  assert (C0 : caches_ok hc0).
  { split; cbn; intros k v; rewrite ?lru_Peek_New; [|done..]. intros Hk%lru_Peek_Add. rewrite lru_Peek_New in Hk.
    destruct (decide (k = block_Hash g)) as [->|]; [subst; by exists 0|done]. }
  destruct (hc_GetBlockNumber_run hc0 C0 (block_Hash g)) as (hc1 & E1 & (D1 & _) & C1).
  destruct (cached_run headerCache with_headerCache (block_Hash g) (fun db => GetHeader db (block_Hash g) (GetBlockNumber db (block_Hash g))) hc1)
    as (c & E2 & Hp); [done..|].
  assert (E : GetHeaderByHash (block_Hash g) hc0 = Ret (match lru_Peek (headerCache hc1) (block_Hash g) with Some v => Some v
      | None => GetHeader (hc_db hc1) (block_Hash g) (GetBlockNumber (hc_db hc1) (block_Hash g)) end, with_headerCache c hc1)).
  { unfold GetHeaderByHash. rewrite (bind_run _ _ _ _ _ E1), <- E2. unfold hc_GetHeader. by rewrite <- D1. }
  rewrite E. assert (C2 : caches_ok (with_headerCache c hc1)).
  { split; cbn; try apply C1. intros k h Hk. destruct (Hp k h Hk) as [Hk'|[-> Ef]]; [by apply C1|].
    rewrite D1 in Ef |- *. change (hc_db hc0) with db in *. exists 0. by rewrite En in Ef. }
  destruct (match lru_Peek _ _ with Some v => Some v | None => _ end); eexists; (split; [done|]); (split; [exact D1|]);
    [by apply caches_ok_with_head|done].
Qed.

Lemma genesis_ok g db db' bc : genesis_store g db -> changed (eq HeadHeaderKey) db db' -> bc_db bc = db' -> bc_caches bc ->
  currentBlock bc = Some g -> bc_ok g bc g 0.
Proof.
  intros [Hdb Htx Honly _ _ Hca _ Hh] Hc Ed Hcc Ec. assert (Z0 : is_u64 0) by (unfold is_u64, MaxUint64; lia).
  assert (S : same_blocks db db') by (apply (changed_blocks _ _ _ Hc); by intros k <- []).
  pose proof (blocks_ok_same _ _ S g Hdb) as Hdb'. subst db'.
  assert (Hpath : forall l x m, path (bc_db bc) g l x -> block_Number g = Ret m -> m = 0 -> l = [] /\ x = g).
  { intros l x m Hl Em Hm. destruct Hl as [|b n p l a En H0 _ _ _]; [done|]. rewrite Em in En. injection En as <-. lia. }
  destruct (block_known g _ Hdb' _ _ _ Z0 (bk_root _ _ Hdb')) as (_ & _ & Eg & _). split; try done.
  - split; [done|apply Hdb'| |].
    + intros l x n Hl En. destruct (Hpath l x 0 Hl Eg eq_refl) as [-> ->]. rewrite Eg in En. injection En as <-. split.
      * rewrite (changed_canonical _ _ _ _ Hc Z0); [done|by intros [=]].
      * intros i tx Hi. by rewrite Htx in Hi.
    + rewrite (changed_headblock _ _ _ Hc); [done|by intros [=]].
  - intros td hash n h td' Etd Hn Eh Etd'. rewrite (same_blocks_header _ _ S) in Eh by done. pose proof (Honly _ _ _ Hn Eh) as ->.
    destruct (bk_header _ _ Hdb _ _ _ Z0 Eh) as (_ & <- & _). rewrite (bk_genesis _ _ Hdb _ _ Eh) in Etd'. unfold block_Hash in Etd.
    rewrite Etd in Etd'. injection Etd' as <-. lia.
  - intros x n l Hn Ex Hl. destruct (block_parts _ _ _ _ Ex) as [Eh _]. rewrite (same_blocks_header _ _ S) in Eh by done.
    pose proof (Honly _ _ _ Hn Eh) as ->. rewrite (block_genesis g _ Hdb' _ _ Ex) in Hl. destruct (Hpath l g 0 Hl Eg eq_refl) as [-> _].
    split; constructor.
Qed.

Lemma NewBlockChain_run g fuel db s : genesis_store g db -> state_New db (Root (block_header g)) = inl s -> block_Hash g ∉ BadHashes ->
  exists bc, NewBlockChain fuel db = Ret (inl bc) /\ bc_ok g bc g 0.
Proof.
  intros Hgs Es Hbad. pose proof Hgs as [Hdb Htx Honly _ _ Hca _ Hh]. assert (Z0 : is_u64 0) by (unfold is_u64, MaxUint64; lia).
  destruct (NewHeaderChain_genesis g db Hgs) as (hc & E0 & D0 & C0). unfold NewBlockChain. rewrite E0. cbn [mbind outcome_bind].
  match goal with |- context [GetBlockByNumber 0 ?c] => set (bc0 := c) end. assert (Ed0 : bc_db bc0 = db) by exact D0.
  assert (K0 : bc_caches bc0) by (split; [done|]; cbn; intros k v; by rewrite lru_Peek_New).
  destruct (block_known g _ Hdb _ _ _ Z0 (bk_root _ _ Hdb)) as (_ & _ & _ & Hz & _).
  destruct (bc_GetBlock_looks g db Hdb (block_Hash g) 0 g Z0 (bk_root _ _ Hdb) bc0 Ed0 K0) as (r & bc1 & E1 & (D1 & _) & K1 & ->).
  assert (E1' : GetBlockByNumber 0 bc0 = Ret (Some g, bc1)).
  { unfold GetBlockByNumber. rewrite bind_gget, Ed0, Hca. by destruct (Z.eqb_spec (block_Hash g) 0). }
  rewrite E1'. cbn [mbind outcome_bind]. rewrite Ed0 in D1. set (bc2 := set_genesisBlock (Some g) bc1). assert (D2 : bc_db bc2 = db) by exact D1.
  assert (K2 : bc_caches bc2) by (destruct K1; by split).
  destruct (loadLastState_run g bc2 g 0 s) as (bc3 & E3 & Ec3 & K3 & Ch3); rewrite ?D2; try done; [apply Hdb|]. rewrite D2 in Ch3. rewrite E3. cbn [mbind outcome_bind].
  assert (S3 : same_blocks db (bc_db bc3)) by (apply (changed_blocks _ _ _ Ch3); by intros k <- []).
  destruct (drop_banned_looks g fuel (bc_db bc3) BadHashes (blocks_ok_same _ _ S3 g Hdb)) with (bc := bc3) as (u & bc4 & E4 & (D4 & _ & Ec4 & _) & K4 & _); try done.
  { intros hash m Hin Hm. rewrite (same_blocks_header _ _ S3) by done. destruct (GetHeader db hash m) as [h|] eqn:E; [|done].
    pose proof (Honly _ _ _ Hm E) as ->. destruct (bk_header _ _ Hdb _ _ _ Z0 E) as (_ & <- & _). rewrite (bk_genesis _ _ Hdb _ _ E) in Hin. done. }
  rewrite E4. exists bc4. split; [done|]. apply (genesis_ok g db (bc_db bc3)); try done. by rewrite Ec4.
Qed.

(** ** Every chain of a node *)

(** A node opens the store of the genesis block, imports chains of blocks, writes
    blocks it mined, and looks blocks up in between. *)
Inductive bc_reachable (g : Block) (fuel : nat) : BlockChain -> Prop :=
| br_open db s bc : genesis_store g db -> state_New db (Root (block_header g)) = inl s -> block_Hash g ∉ BadHashes ->
    NewBlockChain fuel db = Ret (inl bc) -> bc_reachable g fuel bc
| br_import liveFlag turns chain r bc bc' : bc_reachable g fuel bc -> (forall i, batch_ok (turns i) = true) ->
    (forall i block, chain !! i = Some block -> importable g fuel (turns i) block) ->
    InsertChain fuel liveFlag turns chain bc = Ret (r, bc') -> bc_reachable g fuel bc'
| br_mined coin block n receipts state r bc bc' : bc_reachable g fuel bc -> writable g (bc_db bc) block n -> n <= Z.of_nat fuel ->
    WriteBlockAndState fuel coin true block receipts state bc = Ret (r, bc') -> bc_reachable g fuel bc'
| br_lookup hash n r bc bc' : bc_reachable g fuel bc -> is_u64 n -> bc_GetBlock hash n bc = Ret (r, bc') -> bc_reachable g fuel bc'
| br_hash hash r bc bc' : bc_reachable g fuel bc -> GetBlockByHash hash bc = Ret (r, bc') -> bc_reachable g fuel bc'.

Lemma bc_reachable_alive g fuel bc : bc_reachable g fuel bc -> alive g fuel bc.
Proof.
  induction 1 as [db s bc Hg Es Hb E|live turns chain r bc bc' _ Ha Hbt Hf E|coin block n receipts state r bc bc' _ Ha Hw Hn E
    |hash n r bc bc' _ Ha Hn E|hash r bc bc' _ Ha E].
  - destruct (NewBlockChain_run g fuel db s Hg Es Hb) as (bc' & E' & Hok). rewrite E in E'. injection E' as <-. exists g, 0. split; [done|lia].
  - destruct (safe_InsertChain g fuel live turns chain Hbt Hf bc Ha) as (r' & bc'' & E' & Ha'). rewrite E in E'. by injection E' as <- <-.
  - destruct (safe_write g fuel coin block receipts state n bc Ha Hw Hn) as (r' & bc'' & E' & Ha'). rewrite E in E'. by injection E' as <- <-.
  - pose proof Ha as (b & top & Hok & _).
    destruct (bc_GetBlock_run g bc (bo_blocks _ _ _ _ Hok) (bo_caches _ _ _ _ Hok) hash n Hn) as (r' & bc'' & E' & Q & K & _).
    rewrite E in E'. injection E' as <- <-. by apply (alive_quiet g fuel bc).
  - pose proof Ha as (b & top & Hok & _).
    destruct (GetBlockByHash_looks g _ hash (bo_blocks _ _ _ _ Hok) bc eq_refl (bo_caches _ _ _ _ Hok)) as (r' & bc'' & E' & Q & K & _).
    rewrite E in E'. injection E' as <- <-. by apply (alive_quiet g fuel bc).
Qed.

(** The blocks of a path that starts at a stored block are stored. *)
Lemma path_stored g db b l x n j : blocks_ok g db -> GetBlock db (block_Hash b) n = Some b -> is_u64 n -> path db b l x -> block_Number x = Ret j ->
  GetBlock db (block_Hash x) j = Some x /\ block_Hash x <> 0.
Proof.
  intros Hdb Eb Hn Hl. revert n Eb Hn. induction Hl as [b|b m p l x Em H0 Hu Ep _ IH]; intros n Eb Hn Ej.
  - destruct (block_known g db Hdb _ _ _ Hn Eb) as (_ & _ & En & Hz & _). rewrite En in Ej. by injection Ej as <-.
  - assert (Hm1 : is_u64 (m - 1)) by (unfold is_u64 in *; lia). destruct (block_known g db Hdb _ _ _ Hm1 Ep) as (_ & Eh & _).
    apply (IH (m - 1)); [by rewrite Eh|done|done].
Qed.

(** A transaction at its place is found. *)
Lemma placed_found old db b n i tx : GetBlock db (block_Hash b) n = Some b -> placed db b n -> block_Hash b <> 0 -> is_u64 n ->
  block_txs b !! i = Some tx -> Z.of_nat (length (block_txs b)) < 2 ^ 63 ->
  GetTransaction old db (Tx_Hash tx) = Ret (Some tx, block_Hash b, n, Z.of_nat i).
Proof.
  intros Eb Hp Hz Hn Hi Hl. unfold GetTransaction. rewrite (Hp i tx Hi). destruct (Z.eqb_spec (block_Hash b) 0); [done|]. cbn [negb].
  destruct (block_parts _ _ _ _ Eb) as [_ ->]. cbn [block_Body body_txs]. pose proof (lookup_lt_Some _ _ _ Hi) as Hlt.
  assert (Ei : i64 (Z.of_nat i) = Z.of_nat i).
  { unfold i64. rewrite u64_small by (unfold is_u64, MaxUint64; lia). destruct (Z.ltb_spec (Z.of_nat i) 9223372036854775808); lia. }
  rewrite Ei. destruct (Z.leb_spec (Z.of_nat (length (block_txs b))) (Z.of_nat i)); [lia|]. by rewrite Nat2Z.id, Hi.
Qed.

(** C5. The canonical chain of blocks is the heaviest one known, and everything on
    it can be found.  In every chain a node can have, after any imports, forks,
    reorganizations and refused blocks: the head block is stored and is the last
    block the store names; every ancestor of it down to the genesis block is stored
    and canonical at its number; each of their transactions is found by its hash,
    in its block at its index; and no stored block has a larger total difficulty
    than the head. *)
Theorem blocks_heaviest old g fuel bc : bc_reachable g fuel bc ->
  exists b top td, currentBlock bc = Some b /\ GetBlock (bc_db bc) (block_Hash b) top = Some b /\ GetHeadBlockHash (bc_db bc) = block_Hash b /\
    (exists l, path (bc_db bc) b l g) /\
    (forall l x n, path (bc_db bc) b l x -> block_Number x = Ret n ->
       GetCanonicalHash (bc_db bc) n = block_Hash x /\ GetBlock (bc_db bc) (block_Hash x) n = Some x /\
       forall i tx, block_txs x !! i = Some tx -> GetTransaction old (bc_db bc) (Tx_Hash tx) = Ret (Some tx, block_Hash x, n, Z.of_nat i)) /\
    GetTd (bc_db bc) (block_Hash b) top = Some td /\
    (forall hash n h td', is_u64 n -> GetHeader (bc_db bc) hash n = Some h -> GetTd (bc_db bc) hash n = Some td' -> td' <= td).
Proof.
  intros (b & top & [Htx Hdb Hcc Hcur Hh Hw Hpl] & _)%bc_reachable_alive. pose proof Hh as [Ht Eb Ha Hhd].
  pose proof (stored_good g _ Hdb top b Ht Eb) as Hgb. destruct (block_parts _ _ _ _ Eb) as [Ebh _].
  destruct (bk_header _ _ Hdb _ _ _ Ht Ebh) as (_ & _ & _ & _ & _ & _ & _ & [td Etd]).
  exists b, top, td. split; [done|]. split; [done|]. split; [done|]. split; [by apply (path_genesis g _ Hdb b top)|].
  split; [|split; [done|intros hash n h td'; by apply Hw]]. intros l x n Hl En. destruct (Ha l x n Hl En) as [Ec Hp].
  pose proof (path_number_u64 g _ b l x n top Hdb Hgb Hl En) as Hn. destruct (path_stored g _ b l x top n Hdb Eb Ht Hl En) as (Ex & Hz).
  split; [done|]. split; [done|]. intros i tx Hi. apply placed_found; try done.
  destruct (path_genesis g _ Hdb x n (stored_good g _ Hdb n x Hn Ex)) as [lx Hlx].
  destruct (decide (lx = [])) as [->|Hne].
  - inversion Hlx; subst. by rewrite Htx in Hi.
  - pose proof (Hpl x n lx Hn Ex Hlx) as Hplx. destruct (path_head _ _ _ _ Hlx Hne) as [l' ->]. by apply placeable_cons in Hplx as (_ & ? & _).
Qed.

(** C8. The import of blocks returns.  Let the header of every block of a list have
    all its fields, none of them negative and the number of 64 bits, and let every
    block be valid that the engine accepts and whose body has the roots of its
    header: its number is one above that of its parent and within the bound on
    heights, its hash is not zero, and no transaction is twice on a chain.  Then, as long as the batches of the store are written,
    whatever else the engine refuses, whatever the validators, the processor and the
    states say, and whether or not the node is interrupted, [InsertChain] returns on
    every chain a node can have, and the chain it leaves is again one of those. *)
Theorem InsertChain_returns g fuel liveFlag turns chain bc : bc_reachable g fuel bc -> (forall i, batch_ok (turns i) = true) ->
  (forall i block, chain !! i = Some block -> importable g fuel (turns i) block) ->
  exists r bc', InsertChain fuel liveFlag turns chain bc = Ret (r, bc') /\ bc_reachable g fuel bc'.
Proof.
  intros Hr Hbt Hf. destruct (safe_InsertChain g fuel liveFlag turns chain Hbt Hf bc (bc_reachable_alive _ _ _ Hr)) as (r & bc' & E & _).
  exists r, bc'. split; [done|]. by eapply br_import.
Qed.

(** C10. A block whose state is committed is stored, and decides the chain by its
    weight: it becomes the head exactly when the sum of difficulties of its chain is
    larger than that of the head, or equal and the toss says so; every block that was
    stored before is still there. *)
Theorem WriteBlockAndState_stores g fuel coin block n receipts state batch bc : bc_reachable g fuel bc ->
  writable g (bc_db bc) block n -> n <= Z.of_nat fuel -> GetBlock (bc_db bc) (block_Hash block) n = None ->
  block_batch block n receipts state = Ret (inl batch) ->
  exists b top d ptd td bc', currentBlock bc = Some b /\ Difficulty (block_header block) = Some d /\
    GetTd (bc_db bc) (block_ParentHash block) (n - 1) = Some ptd /\ GetTd (bc_db bc) (block_Hash b) top = Some td /\
    WriteBlockAndState fuel coin true block receipts state bc =
      Ret (inl (if wins (d + ptd) td coin then CanonStatTy else SideStatTy), bc') /\
    currentBlock bc' = Some (if wins (d + ptd) td coin then block else b) /\ bc_reachable g fuel bc' /\
    GetTd (bc_db bc') (block_Hash block) n = Some (d + ptd) /\
    (forall hash m, is_u64 m -> GetBlock (bc_db bc') hash m =
       if decide (hash = block_Hash block /\ m = n) then Some block else GetBlock (bc_db bc) hash m).
Proof.
  intros Hr Hw Hn Hnew Ebt. pose proof (bc_reachable_alive _ _ _ Hr) as (b & top & Hok & Hf).
  destruct (WriteBlockAndState_run g fuel coin block receipts state bc b top n Hok Hw Hf Hn) as (r & bc' & E & Hwr).
  pose proof (br_mined g fuel coin block n receipts state r bc bc' Hr Hw Hn E) as Hr'.
  destruct Hwr as [bc' x Ex _ _ _|e bc' Ee _ _|bc' d ptd td canonical Ed Ep Et _ Hadd Htd Hok']; [congruence|congruence|].
  exists b, top, d, ptd, td, bc'. split; [apply Hok|]. split; [done|]. split; [done|]. split; [done|]. split; [done|].
  split; [apply Hok'|]. done.
Qed.

End block_reach.
