(* ===== verification/Genesis.v ===== *)
(** * The genesis block (core/genesis.go)

    The block and the state of a genesis specification, written to an empty store,
    and the choice between the specification and what the store has. *)
From S2P Require Import Prelude GoMonad Fmt Clique TxList ChainDb HeaderChain BlockChain.
Local Open Scope Z_scope.

(** The fork blocks and switches of a chain ([params.ChainConfig]) that the set-up
    fills in, and the rest. *)
Record ChainConfig := mkChainConfig {
  FuxiBlock : option Z;
  NuwaBlock : option Z;
  PanguBlock : option Z;
  DiffBombDefuseBlock : option Z;
  EnableClassicTx : option Z;
  EnableFuxiPrecompiled : option Z;
  cc_rest : Z
}.

Record GenesisAccount := mkGenesisAccount {
  ga_Code : list Z;
  ga_Storage : gmap Hash Hash;
  ga_Balance : option Z;
  ga_Nonce : Z
}.

Record Genesis := mkGenesis {
  gen_Config : option ChainConfig;
  gen_Nonce : Z;
  gen_Timestamp : Z;
  gen_ExtraData : list Z;
  gen_GasLimit : Z;
  gen_Difficulty : option Z;
  gen_Mixhash : Hash;
  gen_Coinbase : Address;
  gen_Alloc : gmap Address GenesisAccount;
  gen_Number : Z;
  gen_GasUsed : Z;
  gen_ParentHash : Hash
}.

Inductive GenesisError :=
| errGenesisNoConfig
| GenesisMismatchError (stored new : Hash)
| ErrChainConfigNotFound
| errConfigJSON
| errMissingHead
| ConfigCompatError (rewindTo : Z)
| errGenesisNumber
| errGenesisState
| errGenesisWrite.

(** What the set-up uses of MoacLib: an empty state and its changes, a block without
    a body, the encoding of configurations and the known networks. *)
Class GenesisLib {KL : KvLib} {CL : CliqueLib} {TL : TxLib} := {
  GState : Type;
  emptyState : GState;
  g_AddBalance : GState -> Address -> option Z -> GState;
  g_SetCode : GState -> Address -> list Z -> GState;
  g_SetNonce : GState -> Address -> Z -> GState;
  g_SetState : GState -> Address -> Hash -> Hash -> GState;
  g_IntermediateRoot : GState -> Hash;
  g_CommitTo : GState -> KV -> result KV;
  types_NewBlock : Header -> Block;
  EncodeNonce : Z -> list Z;
  MarshalConfig : ChainConfig -> result (list Z);
  UnmarshalConfig : list Z -> result ChainConfig;
  CheckCompatible : ChainConfig -> ChainConfig -> Z -> option Z;
  AllProtocolChanges : ChainConfig;
  MainnetChainConfig : ChainConfig;
  TestnetChainConfig : ChainConfig;
  MainnetGenesisHash : Hash;
  TestnetGenesisHash : Hash;
  GenesisGasLimit : Z;
  GenesisDifficulty : Z;
  BigToAddress : Z -> Address;
  DecodeAccounts : list Z -> result (list (Z * Z * list Z));
  mainnetAllocData : list Z
}.

Section genesis.
Context {KL : KvLib} {HL : HashLib} {CL : CliqueLib} {TL : TxLib} {GL : GenesisLib} `{!MapOrder Address GenesisAccount} `{!MapOrder Hash Hash}.
Context {RH : RLP Header} {RB : RLP Body} {RZ : RLP Z} {RR : RLP (list ChainReceipt)}.

(** ** Configurations in the store *)
Definition WriteChainConfig (db : KV) (hash : Hash) (cfg : option ChainConfig) : KV + GenesisError :=
  match cfg with
  | None => inl db
  | Some cfg => match MarshalConfig cfg with Ok data => inl (put db (ConfigKey hash) data) | Err => inr errConfigJSON end
  end.

Definition GetChainConfig (db : KV) (hash : Hash) : ChainConfig + GenesisError :=
  match look db (ConfigKey hash) with
  | None | Some [] => inr ErrChainConfigNotFound
  | Some data => match UnmarshalConfig data with Ok cfg => inl cfg | Err => inr errConfigJSON end
  end.

(** ** The block of a specification *)
Definition set_account (s : GState) (addr : Address) (account : GenesisAccount) : GState :=
  let s := g_AddBalance s addr (ga_Balance account) in
  let s := g_SetCode s addr (ga_Code account) in
  let s := g_SetNonce s addr (ga_Nonce account) in
  foldl (fun s e => g_SetState s addr e.1 e.2) s (range (ga_Storage account)).

Definition ToBlock (g : Genesis) : Block * GState :=
  let s := foldl (fun s e => set_account s e.1 e.2) emptyState (range (gen_Alloc g)) in
  let head := mkHeader (gen_ParentHash g) 0 (gen_Coinbase g) (g_IntermediateRoot s) 0 0 []
    (match gen_Difficulty g with Some d => Some d | None => Some GenesisDifficulty end)
    (Some (gen_Number g))
    (if gen_GasLimit g =? 0 then Some GenesisGasLimit else Some (gen_GasLimit g))
    (Some (gen_GasUsed g)) (Some (gen_Timestamp g)) (gen_ExtraData g) (gen_Mixhash g) (EncodeNonce (gen_Nonce g)) in
  (types_NewBlock head, s).

(** The store afterwards, the block, if there is one, and the error.  A nil
    difficulty is encoded as zero. *)
Definition Commit (g : Genesis) (db : KV) : outcome (KV * option Block * option GenesisError) :=
  let '(block, s) := ToBlock g in
  match Number (block_header block) with
  | None => Panic
  | Some (Zpos _ | Zneg _) => Ret (db, None, Some errGenesisNumber)
  | Some Z0 =>
      match g_CommitTo s db with
      | Err => Ret (db, None, Some errGenesisState)
      | Ok db =>
          number ← block_Number block;
          let hash := block_Hash block in
          match WriteTd db hash number (default 0 (gen_Difficulty g)) with
          | Err => Ret (db, None, Some errGenesisWrite)
          | Ok db =>
              r ← WriteBlock db block;
              match r with
              | Err => Ret (db, None, Some errGenesisWrite)
              | Ok db =>
                  match WriteBlockReceipts db hash number ([] : list ChainReceipt) with
                  | Err => Ret (db, None, Some errGenesisWrite)
                  | Ok db =>
                      let db := WriteHeadHeaderHash (WriteHeadBlockHash (WriteCanonicalHash db hash number) hash) hash in
                      let config := match gen_Config g with Some c => c | None => AllProtocolChanges end in
                      match WriteChainConfig db hash (Some config) with
                      | inr e => Ret (db, Some block, Some e)
                      | inl db => Ret (db, Some block, None)
                      end
                  end
              end
          end
      end
  end.

Definition MustCommit (g : Genesis) (db : KV) : outcome (KV * Block) :=
  '(db, block, err) ← Commit g db;
  match err, block with None, Some block => Ret (db, block) | _, _ => Panic end.

(** An allocation, encoded as a list of accounts. *)
Definition decodePrealloc (data : list Z) : outcome (gmap Address GenesisAccount) :=
  match DecodeAccounts data with
  | Err => Panic
  | Ok p => Ret (foldl (fun ga e => <[BigToAddress e.1.1 := mkGenesisAccount e.2 ∅ (Some e.1.2) 0]> ga) ∅ p)
  end.

Definition MainnetGenesisBlock : outcome Genesis :=
  alloc ← decodePrealloc mainnetAllocData;
  Ret (mkGenesis (Some MainnetChainConfig) 66 0
    [49; 57; 54; 57; 65; 82; 80; 65; 78; 69; 84; 55; 51; 84; 67; 80; 73; 80; 48; 57; 66; 84; 67; 50; 48; 49; 56; 77; 79; 65; 67]
    (u64 GenesisGasLimit) (Some 512) 0 0 alloc 0 0 0).

(** ** The set-up *)
Definition chainConfig (g : option Genesis) (genesisHash : Hash) : option ChainConfig :=
  match g with
  | Some g => gen_Config g
  | None =>
      if genesisHash =? MainnetGenesisHash then Some MainnetChainConfig
      else if genesisHash =? TestnetGenesisHash then Some TestnetChainConfig
      else Some AllProtocolChanges
  end.

Definition orElse (o d : option Z) : option Z := match o with Some z => Some z | None => d end.

(** The fields of a private chain that were not set. *)
Definition fill (c : ChainConfig) : ChainConfig :=
  mkChainConfig (orElse (FuxiBlock c) (FuxiBlock AllProtocolChanges)) (orElse (NuwaBlock c) (NuwaBlock AllProtocolChanges))
    (orElse (PanguBlock c) (PanguBlock AllProtocolChanges)) (orElse (DiffBombDefuseBlock c) (DiffBombDefuseBlock AllProtocolChanges))
    (orElse (EnableClassicTx c) (EnableClassicTx AllProtocolChanges))
    (orElse (EnableFuxiPrecompiled c) (EnableFuxiPrecompiled AllProtocolChanges)) (cc_rest c).

(** The configuration is written unless it conflicts with the one in the store. *)
Definition update_config (db : KV) (existing : Hash) (old : ChainConfig) (new : option ChainConfig) (noCompatCheck : bool)
    : outcome (KV * (option ChainConfig * Hash * option GenesisError)) :=
  let written := match WriteChainConfig db existing new with inl db => Ret (db, (new, existing, None)) | inr e => Ret (db, (new, existing, Some e)) end in
  if noCompatCheck then written
  else
    let height := GetBlockNumber db (GetHeadHeaderHash db) in
    if height =? missingNumber then Ret (db, (new, existing, Some errMissingHead))
    else
      match new with
      | None => Panic
      | Some cfg =>
          match CheckCompatible old cfg height with
          | Some rewindTo =>
              if negb (height =? 0) && negb (rewindTo =? 0) then Ret (db, (new, existing, Some (ConfigCompatError rewindTo))) else written
          | None => written
          end
      end.

(** The store afterwards, and the configuration, the hash and the error returned. *)
Definition SetupGenesisBlock (db : KV) (genesis : option Genesis) (noCompatCheck : bool)
    : outcome (KV * (option ChainConfig * Hash * option GenesisError)) :=
  if match genesis with Some g => negb (found (gen_Config g)) | None => false end then
    Ret (db, (Some AllProtocolChanges, 0, Some errGenesisNoConfig))
  else
    let existing := GetCanonicalHash db 0 in
    if existing =? 0 then
      g ← match genesis with Some g => Ret g | None => MainnetGenesisBlock end;
      '(db, block, err) ← Commit g db;
      match block with
      | Some block => Ret (db, (gen_Config g, block_Hash block, err))
      | None => Panic
      end
    else
      let new := match genesis with Some g => Some (block_Hash (fst (ToBlock g))) | None => None end in
      if match new with Some h => negb (h =? existing) | None => false end then
        Ret (db, (chainConfig genesis existing, default 0 new, Some (GenesisMismatchError existing (default 0 new))))
      else
        let config := chainConfig genesis existing in
        match GetChainConfig db existing with
        | inr ErrChainConfigNotFound =>
            match WriteChainConfig db existing config with
            | inl db => Ret (db, (config, existing, None))
            | inr e => Ret (db, (config, existing, Some e))
            end
        | inr e => Ret (db, (config, existing, Some e))
        | inl old =>
            if negb (found genesis) && negb (existing =? MainnetGenesisHash) then Ret (db, (Some (fill old), existing, None))
            else update_config db existing old config noCompatCheck
        end.

End genesis.
