(* ===== verification/GenesisProps.v ===== *)
(** * Theorems on the genesis block

    A specification committed to an empty store leaves the store a chain starts
    from, and the set-up of a store that has a genesis block keeps it. *)
From S2P Require Import Prelude GoMonad Fmt Clique TxList ChainDb ChainDbProps HeaderChain HeaderChainProps.
From S2P Require Import BlockChain BlockImport BlockChainProps BlockImportProps BlockWriteProps BlockReach Genesis.
Local Open Scope Z_scope.

(** What the documentation of MoacLib says: a new block has the header it is given,
    but for the roots of its empty body; a commit writes nodes and preimages; a
    state is read from its nodes. *)
Class GenesisLaws {KL : KvLib} {HL : HashLib} {CL : CliqueLib} {TL : TxLib} {BL : ChainLib} {GL : GenesisLib} : Prop := {
  NewBlock_body h : block_txs (types_NewBlock h) = [] /\ block_uncles (types_NewBlock h) = [];
  NewBlock_fields h : let h' := block_header (types_NewBlock h) in ParentHash h' = ParentHash h /\ Root h' = Root h /\
    Difficulty h' = Difficulty h /\ Number h' = Number h /\ GasLimit h' = GasLimit h /\ GasUsed h' = GasUsed h /\ Time h' = Time h /\
    TxHash h' = DeriveSha_block [];
  g_CommitTo_nodes s db db' k : g_CommitTo s db = Ok db' -> length k <> 32%nat -> (forall h, k <> key (PreimageKey h)) ->
    kv_Get db' k = kv_Get db k;
  g_CommitTo_state s db db' : g_CommitTo s db = Ok db' -> exists st, state_New db' (g_IntermediateRoot s) = inl st;
  state_New_nodes db db' root : (forall k, length k = 32%nat -> kv_Get db' k = kv_Get db k) -> state_New db' root = state_New db root
}.

Section genesis.
Context {KL : KvLib} {KLaws : KvLaws} {HL : HashLib} {HLaws : HashLaws} {CL : CliqueLib} {CLaws : HeaderLaws}
  {TL : TxLib} {LL : LruLib} {LLaws : LruLaws} {BL : ChainLib} {BLaws : ChainLaws} {BR : BlockRules}
  {GL : GenesisLib} {GLaws : GenesisLaws} {OA : MapOrder Address GenesisAccount} {OS : MapOrder Hash Hash}.
Context {RH : RLP Header} {RB : RLP Body} {RZ : RLP Z} {RR : RLP (list ChainReceipt)} {RE : RLP txLookupEntry}.
Context {LH : RLPLaws Header header_ok} {LB : RLPLaws Body body_ok} {LZ : RLPLaws Z (fun z => 0 <= z)}
  {LE : RLPLaws txLookupEntry entry_ok}.

(** A specification that can be committed. *)
Record genesis_spec (g : Genesis) (d : Z) : Prop := {
  sp_number : gen_Number g = 0;
  sp_difficulty : gen_Difficulty g = Some d;
  sp_positive : 0 <= d;
  sp_gas : 0 <= gen_GasLimit g /\ 0 <= GenesisGasLimit /\ 0 <= gen_GasUsed g;
  sp_time : 0 <= gen_Timestamp g;
  sp_hash : block_Hash (fst (ToBlock g)) <> 0;
  sp_config : exists data, MarshalConfig (match gen_Config g with Some c => c | None => AllProtocolChanges end) = Ok data;
  sp_receipts : exists data, EncodeToBytes ([] : list ChainReceipt) = Ok data
}.

Lemma ToBlock_ok g d : genesis_spec g d ->
  let b := fst (ToBlock g) in block_ok b /\ block_Number b = Ret 0 /\ Number (block_header b) = Some 0 /\ block_txs b = [] /\
    TxHash (block_header b) = DeriveSha_block [].
Proof.
  intros [Hn Hd Hp (Hg1 & Hg2 & Hg3) Ht _ _ _]. cbv zeta. unfold ToBlock. cbn [fst]. match goal with |- context [types_NewBlock ?x] => set (h := x) end.
  destruct (NewBlock_body h) as [Etx Eu]. destruct (NewBlock_fields h) as (_ & _ & Fd & Fn & Fl & Fu & Ft & Fx). cbn [Difficulty Number GasLimit GasUsed Time h] in *.
  rewrite Hn in Fn. rewrite Hd in Fd. split; [|split; [|done]].
  - split; [|by rewrite Eu]. split; [exists 0; split; [done|unfold is_u64, MaxUint64; lia]|]. split; [by exists d|].
    split; [rewrite Fl; case_match; eauto|]. split; [eauto|eauto].
  - unfold block_Number, header_number, big_Uint64. by rewrite Fn.
Qed.

(** What the commit of a genesis block changes. *)
Definition genesis_keys (hash : Hash) (k : Key) : Prop :=
  k = TdKey hash 0 \/ block_keys hash 0 k \/ k = CanonicalKey 0 \/ is_head k \/ k = ConfigKey hash.

Lemma commit_nodes s db db' : g_CommitTo s db = Ok db' -> changed is_preimage db db'.
Proof.
  intros E k Hk Hp. apply (g_CommitTo_nodes s); [done| |].
  - intros Hl. pose proof (key_kind k Hk) as Ek. rewrite Hl in Ek. by destruct k.
  - intros h Eh. apply key_inj in Eh; [|done..]. subst. by apply Hp.
Qed.

(** The nodes of states are not touched by items of the chain. *)
Definition same_nodes (db db' : KV) : Prop := forall k, length k = 32%nat -> kv_Get db' k = kv_Get db k.

Lemma same_nodes_trans a b c : same_nodes a b -> same_nodes b c -> same_nodes a c.
Proof. intros H1 H2 k Hk. by rewrite H2, H1. Qed.

Lemma put_nodes db k v : key_ok k -> same_nodes db (put db k v).
Proof.
  intros Hk k' Hl. unfold put, Put, kv_putter. rewrite kv_Get_Put, decide_False; [done|]. intros ->.
  pose proof (key_kind k Hk) as Ek. rewrite Hl in Ek. by destruct k.
Qed.

Lemma write_nodes {A : Type} `{RLP A} (db db' : KV) k (a : A) : key_ok k -> write db k a = Ok db' -> same_nodes db db'.
Proof. intros Hk. unfold write. destruct (EncodeToBytes a); [|done]. intros [= <-]. by apply put_nodes. Qed.

Lemma WriteBlock_nodes (db db' : KV) b n : block_Number b = Ret n -> is_u64 n -> WriteBlock db b = Ret (Ok db') -> same_nodes db db'.
Proof.
  intros En Hn. unfold WriteBlock, WriteBody, WriteHeader. rewrite En. cbn [mbind outcome_bind]. destruct (write db _ _) as [db1|] eqn:E; [|done].
  destruct (EncodeToBytes (block_header b)); [|done]. unfold block_Number in En. rewrite En. cbn [mbind outcome_bind]. intros [= <-].
  apply (same_nodes_trans _ db1); [by apply (write_nodes db db1 (BodyKey (block_Hash b) n) (block_Body b) Hn E)|]. by apply (same_nodes_trans _ (put db1 (NumberKey (Header_Hash (block_header b))) (encodeBlockNumber n))); apply put_nodes.
Qed.

(** The heads and the configuration, written last. *)
Lemma finish_run db hash config data : MarshalConfig config = Ok data ->
  exists db', WriteChainConfig (WriteHeadHeaderHash (WriteHeadBlockHash (WriteCanonicalHash db hash 0) hash) hash) hash (Some config) = inl db' /\
    changed (fun k => k = CanonicalKey 0 \/ is_head k \/ k = ConfigKey hash) db db' /\ same_nodes db db' /\
    GetCanonicalHash db' 0 = hash /\ GetHeadBlockHash db' = hash.
Proof.
  intros Em. assert (Z0 : is_u64 0) by (unfold is_u64, MaxUint64; lia). unfold WriteChainConfig. rewrite Em. eexists. split; [done|].
  unfold WriteHeadHeaderHash, WriteHeadBlockHash, WriteCanonicalHash.
  set (d1 := put db _ _). set (d2 := put d1 _ _). set (d3 := put d2 _ _). split; [|split; [|split]].
  - apply (changed_trans (eq (CanonicalKey 0)) (fun k => is_head k \/ k = ConfigKey hash) _ _ d1); [by apply changed_put| |intros k [<-|?]; auto].
    apply (changed_trans (eq HeadBlockKey) (fun k => is_head k \/ k = ConfigKey hash) _ _ d2); [by apply changed_put| |intros k [<-|?]; [by left|done]].
    apply (changed_trans (eq HeadHeaderKey) (eq (ConfigKey hash)) _ _ d3); [by apply changed_put..|intros k [<-|<-]; [by left|by right]].
  - apply (same_nodes_trans _ d1); [by apply put_nodes|]. apply (same_nodes_trans _ d2); [by apply put_nodes|].
    apply (same_nodes_trans _ d3); by apply put_nodes.
  - apply stored_hash_look. unfold d3, d2, d1. rewrite !look_put by done. by rewrite !decide_False, decide_True by done.
  - apply stored_hash_look. unfold d3, d2. rewrite !look_put by done. by rewrite !decide_False, decide_True by done.
Qed.

Lemma Commit_run g d db db0 : genesis_spec g d -> g_CommitTo (snd (ToBlock g)) db = Ok db0 ->
  let b := fst (ToBlock g) in
  exists db', Commit g db = Ret (db', Some b, None) /\ changed (genesis_keys (block_Hash b)) db db' /\ same_nodes db0 db' /\
    GetBlock db' (block_Hash b) 0 = Some b /\ GetTd db' (block_Hash b) 0 = Some d /\ GetBlockNumber db' (block_Hash b) = 0 /\
    GetCanonicalHash db' 0 = block_Hash b /\ GetHeadBlockHash db' = block_Hash b.
Proof.
  intros Hsp E0. destruct (ToBlock_ok g d Hsp) as (Hok & En & Enum & _). destruct Hsp as [_ Hd Hp _ _ _ [cfg Ecfg] [rs Ers]].
  assert (Z0 : is_u64 0) by (unfold is_u64, MaxUint64; lia). cbv zeta. unfold Commit. destruct (ToBlock g) as [b s]. cbn [fst snd] in *.
  rewrite Enum, E0, En, Hd. cbn [mbind outcome_bind default]. pose proof (commit_nodes s db db0 E0) as C0.
  destruct (WriteTd_run db0 (block_Hash b) 0 d Z0 Hp) as (d1 & E1 & S1 & T1). cbn [default from_option id]. rewrite E1.
  destruct (WriteBlock_run d1 b 0 Hok En) as (d2 & E2 & S2 & B2 & N2). rewrite E2. cbn [mbind outcome_bind].
  assert (E3 : WriteBlockReceipts d2 (block_Hash b) 0 ([] : list ChainReceipt) = Ok (put d2 (ReceiptsKey (block_Hash b) 0) rs))
    by (unfold WriteBlockReceipts, write; by rewrite Ers).
  rewrite E3. set (d3 := put d2 (ReceiptsKey (block_Hash b) 0) rs) in *.
  assert (C3 : changed (eq (ReceiptsKey (block_Hash b) 0)) d2 d3) by by apply changed_put.
  destruct (finish_run d3 (block_Hash b) _ cfg Ecfg) as (d4 & E4 & C4 & N4 & G4 & H4). rewrite E4. exists d4. split; [done|].
  assert (S34 : same_blocks d2 d4).
  { apply (changed_blocks _ _ _ (changed_trans _ _ _ _ _ _ C3 C4 (fun _ H => H))). intros k [<-|[->|[Hk| ->]]] Hb; try done. by destruct k. }
  split; [|split; [|split; [|split; [|split]]]]; [| |by rewrite (same_blocks_block _ _ S34)| |by rewrite (same_blocks_number _ _ S34)|done].
  - apply (changed_trans _ _ _ _ _ _ C0 (changed_trans _ _ _ _ _ _ (same_but_changed _ _ _ S1) (changed_trans _ _ _ _ _ _
      (same_but_changed _ _ _ S2) (changed_trans _ _ _ _ _ _ C3 C4 (fun _ H => H)) (fun _ H => H)) (fun _ H => H))).
    unfold genesis_keys, block_keys. intros k [Hk|[Hk|[Hk|[Hk|Hk]]]]; rewrite ?elem_of_cons, ?elem_of_nil in Hk; subst; tauto.
  - apply (same_nodes_trans _ d1); [by apply (write_nodes db0 d1 (TdKey (block_Hash b) 0) d Z0 E1)|]. apply (same_nodes_trans _ d2); [by apply (WriteBlock_nodes d1 d2 b 0)|].
    apply (same_nodes_trans _ d3); [by apply put_nodes|done].
  - rewrite (same_blocks_td _ _ S34) by done. rewrite (GetTd_same _ _ _ _ _ S2 Z0); [done|]. rewrite !not_elem_of_cons. split_and!; [done..|apply not_elem_of_nil].
Qed.

(** A specification committed to an empty store. *)
Lemma Commit_store g d db db0 : genesis_spec g d -> g_CommitTo (snd (ToBlock g)) db = Ok db0 ->
  (forall k, key_ok k -> look db k = None) ->
  let b := fst (ToBlock g) in
  exists db' s, Commit g db = Ret (db', Some b, None) /\ genesis_store b db' /\ state_New db' (Root (block_header b)) = inl s.
Proof.
  intros Hsp E0 Hempty. cbv zeta. destruct (ToBlock_ok g d Hsp) as (Hok & En & _ & Etx & Ert).
  assert (Z0 : is_u64 0) by (unfold is_u64, MaxUint64; lia).
  destruct (Commit_run g d db db0 Hsp E0) as (db' & E & C & N & B & T & Nm & Gc & Gh).
  destruct (g_CommitTo_state _ _ _ E0) as [st Est]. exists db', st. set (b := fst (ToBlock g)) in *. split; [done|].
  assert (Hnone : forall k, key_ok k -> ~ genesis_keys (block_Hash b) k -> look db' k = None) by (intros k Hk Hg; by rewrite C, Hempty).
  assert (Hh : forall hash n h, is_u64 n -> GetHeader db' hash n = Some h -> hash = block_Hash b /\ n = 0 /\ h = block_header b).
  { intros hash n h Hn Eh. destruct (decide (HeaderKey hash n = HeaderKey (block_Hash b) 0)) as [[= -> ->]|Hne].
    - apply block_parts in B as [B _]. rewrite B in Eh. by injection Eh as <-.
    - unfold GetHeader, stored in Eh. rewrite Hnone in Eh; [done|done|]. intros [?|[[|[|[|[|[]]]]]|[|[[]|]]]]; done. }
  assert (Ht : forall hash n td, is_u64 n -> GetTd db' hash n = Some td -> hash = block_Hash b /\ n = 0 /\ td = d).
  { intros hash n td Hn Etd. destruct (decide (TdKey hash n = TdKey (block_Hash b) 0)) as [[= -> ->]|Hne].
    - rewrite T in Etd. by injection Etd as <-.
    - unfold GetTd, stored in Etd. rewrite Hnone in Etd; [done|done|]. intros [?|[[|[|[|[|[]]]]]|[|[[]|]]]]; done. }
  pose proof (block_parts _ _ _ _ B) as [Bh Bb].
  assert (Hbl : blocks_ok b db'); [split|split; [split|]; try done].
  - intros hash n h Hn Eh. destruct (Hh hash n h Hn Eh) as (-> & -> & ->). split; [apply Hok|]. split; [done|]. split; [done|].
    split; [by destruct Hsp|]. split; [unfold MaxUint64; lia|]. split; [done|]. split; by eexists.
  - intros hash Hne. destruct (decide (hash = block_Hash b)) as [->|Hn]; [rewrite Nm; split; [done|]; by eexists|].
    exfalso. apply Hne. unfold GetBlockNumber. rewrite Hnone; [done|done|]. intros [?|[[|[|[|[|[]]]]]|[|[[]|]]]]; simplify_eq.
  - intros hash n Hn Hl. destruct (decide (BodyKey hash n = BodyKey (block_Hash b) 0)) as [[= -> ->]|Hne]; [by eexists|].
    exfalso. apply Hl, Hnone; [done|]. intros [?|[[|[|[|[|[]]]]]|[|[[]|]]]]; done.
  - intros hash n td Hn Etd. destruct (Ht hash n td Hn Etd) as (-> & -> & ->). split; [apply Hsp|]. by exists (block_header b).
  - intros hash n h Hn H0 Eh. by destruct (Hh hash n h Hn Eh) as (_ & -> & _).
  - intros hash h Eh. by destruct (Hh hash 0 h Z0 Eh) as (_ & _ & ->).
  - done.
  - intros hash n x Hn Ex. destruct (block_parts _ _ _ _ Ex) as [Eh _]. destruct (Hh hash n _ Hn Eh) as (-> & -> & _).
    rewrite B in Ex. injection Ex as <-. by rewrite Ert, Etx.
  - intros hash n h Hn Eh. by destruct (Hh hash n h Hn Eh) as (_ & -> & _).
  - intros hash n td Hn Etd. destruct (Ht hash n td Hn Etd) as (-> & -> & _). by eexists.
  - intros hash n Hn Hl. destruct (decide (HeaderKey hash n = HeaderKey (block_Hash b) 0)) as [[= -> ->]|Hne]; [by eexists|].
    exfalso. apply Hl, Hnone; [done|]. intros [?|[[|[|[|[|[]]]]]|[|[[]|]]]]; done.
  - intros n Hn H0. apply stored_hash_none, Hnone; [done|]. intros [?|[[|[|[|[|[]]]]]|[[= ->]|[[]|]]]]; done.
  - rewrite (state_New_nodes db0 db'), <- Est by done. f_equal. unfold b, ToBlock. cbn [fst snd].
    match goal with |- context [types_NewBlock ?x] => destruct (NewBlock_fields x) as (_ & -> & _) end. done.
Qed.

(** C30. A node starts from an empty store: the set-up writes the block of the
    specification and returns its hash, and the chain that is opened on the store
    has this block as its head and is one of those the other theorems are about. *)
Theorem fresh_node_starts g d db db0 fuel noCompatCheck : genesis_spec g d -> is_Some (gen_Config g) ->
  g_CommitTo (snd (ToBlock g)) db = Ok db0 -> (forall k, key_ok k -> look db k = None) ->
  let b := fst (ToBlock g) in block_Hash b ∉ BadHashes ->
  exists db' bc, SetupGenesisBlock db (Some g) noCompatCheck = Ret (db', (gen_Config g, block_Hash b, None)) /\
    NewBlockChain fuel db' = Ret (inl bc) /\ currentBlock bc = Some b /\ bc_reachable b fuel bc.
Proof.
  intros Hsp [cfg Ecfg] E0 Hempty. cbv zeta. intros Hbad. assert (Z0 : is_u64 0) by (unfold is_u64, MaxUint64; lia).
  destruct (Commit_store g d db db0 Hsp E0 Hempty) as (db' & s & E & Hgs & Es).
  destruct (NewBlockChain_run _ fuel db' s Hgs Es Hbad) as (bc & Ebc & Hok). exists db', bc. split; [|split; [done|split; [apply Hok|by eapply br_open]]].
  unfold SetupGenesisBlock. rewrite Ecfg. cbn [found negb].
  assert (Ec : GetCanonicalHash db 0 = 0) by (apply stored_hash_none; by apply (Hempty (CanonicalKey 0))). rewrite Ec. cbn [Z.eqb mbind outcome_bind].
  rewrite E. cbn [mbind outcome_bind]. by rewrite Ecfg.
Qed.

(** The set-up of a store that has a genesis block keeps the chain: it changes
    nothing but the stored configuration, returns the hash of the block in the store
    unless there is an error, and refuses a specification of another block. *)
Theorem setup_keeps_chain db genesis noCompatCheck db' cfg hash err : GetCanonicalHash db 0 <> 0 ->
  SetupGenesisBlock db genesis noCompatCheck = Ret (db', (cfg, hash, err)) ->
  changed (eq (ConfigKey (GetCanonicalHash db 0))) db db' /\ (err = None -> hash = GetCanonicalHash db 0) /\
  forall g, genesis = Some g -> is_Some (gen_Config g) -> block_Hash (fst (ToBlock g)) <> GetCanonicalHash db 0 ->
    err = Some (GenesisMismatchError (GetCanonicalHash db 0) (block_Hash (fst (ToBlock g)))) /\ db' = db.
Proof.
  intros Hne. unfold SetupGenesisBlock. set (h := GetCanonicalHash db 0) in *.
  destruct (match genesis with Some g => _ | None => false end) eqn:Enc.
  { intros [= <- <- <- <-]. split; [done|]. split; [done|]. intros g -> [c Ec]. by rewrite Ec in Enc. }
  destruct (Z.eqb_spec h 0); [done|]. set (new := match genesis with Some g => Some _ | None => None end).
  destruct (match new with Some x => _ | None => false end) eqn:Em.
  { intros [= <- <- <- <-]. split; [done|]. split; [done|]. by intros g -> _ _. }
  assert (Hmis : forall g, genesis = Some g -> block_Hash (fst (ToBlock g)) = h).
  { intros g Eg. unfold new in Em. rewrite Eg in Em. by destruct (Z.eqb_spec (block_Hash (fst (ToBlock g))) h). }
  assert (Hw : forall c db1, WriteChainConfig db h c = inl db1 -> changed (eq (ConfigKey h)) db db1).
  { intros [c|] db1; cbn; [|by intros [= <-]]. destruct (MarshalConfig c); [|done]. intros [= <-]. by apply changed_put. }
  assert (Hret : forall d c e, changed (eq (ConfigKey h)) db d -> Ret (d, (c, h, e)) = Ret (db', (cfg, hash, err)) ->
    changed (eq (ConfigKey h)) db db' /\ (err = None -> hash = h) /\
    forall g, genesis = Some g -> is_Some (gen_Config g) -> block_Hash (fst (ToBlock g)) <> h ->
      err = Some (GenesisMismatchError h (block_Hash (fst (ToBlock g)))) /\ db' = db).
  { intros d c e Hc [= <- <- <- <-]. split; [done|]. split; [done|]. intros g Eg _ Hx. by rewrite (Hmis g Eg) in Hx. }
  destruct (GetChainConfig db h) as [old|e] eqn:Eg.
  - destruct (negb (found genesis) && _); [by apply Hret|]. unfold update_config. cbv zeta.
    assert (Hwr : forall c, match WriteChainConfig db h c with inl db => Ret (db, (c, h, None)) | inr e => Ret (db, (c, h, Some e)) end =
      Ret (db', (cfg, hash, err)) -> _) by (intros c; destruct (WriteChainConfig db h c) eqn:Ew; apply Hret; [by eapply Hw|done]).
    destruct noCompatCheck; [apply Hwr|]. destruct (_ =? missingNumber); [by apply Hret|]. destruct (chainConfig genesis h) as [c|]; [|done].
    destruct (CheckCompatible old c _); [|apply Hwr]. destruct (_ && _); [by apply Hret|apply Hwr].
  - destruct e; try (by apply Hret). destruct (WriteChainConfig db h _) eqn:Ew; apply Hret; [by eapply Hw|done].
Qed.

(** A commit that fails leaves no block, whose hash is asked for: the set-up
    panics instead of returning the error. *)
Lemma failed_commit_panics g db noCompatCheck : is_Some (gen_Config g) -> Number (block_header (fst (ToBlock g))) = Some 0 ->
  GetCanonicalHash db 0 = 0 -> g_CommitTo (snd (ToBlock g)) db = Err -> SetupGenesisBlock db (Some g) noCompatCheck = Panic.
Proof.
  intros [c Ec] En E0 Ef. unfold SetupGenesisBlock. rewrite Ec, E0. cbn [found negb Z.eqb mbind outcome_bind]. unfold Commit.
  destruct (ToBlock g) as [b s]. cbn [fst snd] in *. by rewrite En, Ef.
Qed.

End genesis.
