(* ===== verification/ChainInstances.v ===== *)
(** * Concrete instances for the chain

    Executable stand-ins for the store, the encodings, the caches and the states of
    the chain, satisfying the laws the theorems ask for, and a run of each theorem
    on them.  A store is a list of entries, an encoding the list of the fields, a
    state its root. *)
From S2P Require Import Prelude GoMonad Fmt Clique TxList ChainDb ChainDbProps HeaderChain HeaderChainProps HeaderChainHead.
From S2P Require Import BlockChain BlockImport BlockChainProps BlockImportProps BlockWriteProps BlockReach Genesis GenesisProps.
From S2P Require Import ConsensusInstances CoreInstances.
Local Open Scope Z_scope.

(** ** The store *)
Fixpoint entry (db : list (list Z * list Z)) (k : list Z) : option (list Z) :=
  match db with
  | [] => None
  | e :: rest => if decide (k = e.1) then Some e.2 else entry rest k
  end.

Lemma entry_filter db k k' : entry (filter (fun e => e.1 <> k) db) k' = if decide (k' = k) then None else entry db k'.
Proof.
  induction db as [|[a v] db IH]; [by destruct (decide (k' = k))|]. rewrite filter_cons. cbn [fst snd entry].
  destruct (decide (a = k)) as [->|Hne].
  - rewrite decide_False by tauto. rewrite IH. by destruct (decide (k' = k)).
  - rewrite decide_True by done. cbn [entry fst snd]. rewrite IH. destruct (decide (k' = a)) as [->|]; [|done]. by rewrite decide_False.
Qed.

#[export] Instance kvZ : KvLib := {
  KV := list (list Z * list Z);
  kv_Get := entry;
  kv_Has := fun db k => found (entry db k);
  kv_Put := fun db k v => (k, v) :: db;
  kv_Delete := fun db k => filter (fun e => e.1 <> k) db
}.

#[export] Instance kvZ_laws : KvLaws.
Proof.
  split; try done. intros db k k'. apply entry_filter.
Qed.

#[export] Instance hashZ : HashLib := {
  Hash_Bytes := fun h => h :: replicate 31 0;
  Hash_of := fun l => default 0 (head l)
}.

#[export] Instance hashZ_laws : HashLaws.
Proof. by split. Qed.

#[export] Instance headerZ_laws : HeaderLaws.
Proof. intros x y [= E%(inj encode)]. by apply header_list_inj. Qed.

(** ** Encodings *)
Definition opt_of (tag z : Z) : option Z := if tag =? 1 then Some z else None.

Definition header_of (l : list Z) : option Header :=
  match l with
  | p :: u :: c :: r :: t :: rc :: d :: d' :: n :: n' :: gl :: gl' :: gu :: gu' :: tm :: tm' :: mix :: lb :: le :: rest =>
      Some (mkHeader p u c r t rc (take (Z.to_nat lb) rest) (opt_of d d') (opt_of n n') (opt_of gl gl') (opt_of gu gu') (opt_of tm tm')
        (take (Z.to_nat le) (drop (Z.to_nat lb) rest)) mix (drop (Z.to_nat le) (drop (Z.to_nat lb) rest)))
  | _ => None
  end.

Lemma header_of_list h : header_of (header_list h) = Some h.
Proof.
  destruct h as [p u c r t rc bl d n gl gu tm ex mix no]. destruct d, n, gl, gu, tm; cbn -[Z.of_nat Z.to_nat take drop];
    rewrite !Nat2Z.id, ?take_app_length, ?drop_app_length, ?take_app_length, ?drop_app_length; done.
Qed.

#[export] Instance rlp_header : RLP Header := {
  EncodeToBytes := fun h => Ok (header_list h);
  DecodeBytes := fun l => match header_of l with Some h => Ok h | None => Err end
}.

#[export] Instance rlp_header_laws : RLPLaws Header header_ok.
Proof. intros h _. exists (header_list h). split; [done|]. split; [done|].
  unfold DecodeBytes, rlp_header. by rewrite header_of_list.
Qed.

#[export] Instance rlp_Z : RLP Z := {
  EncodeToBytes := fun z => Ok [z];
  DecodeBytes := fun l => match l with [z] => Ok z | _ => Err end
}.

#[export] Instance rlp_Z_laws : RLPLaws Z (fun z => 0 <= z).
Proof. intros z _. by exists [z]. Qed.

#[export] Instance rlp_entry : RLP txLookupEntry := {
  EncodeToBytes := fun e => Ok [BlockHash e; BlockIndex e; Index e];
  DecodeBytes := fun l => match l with [h; b; i] => Ok (mkLookupEntry h b i) | _ => Err end
}.

#[export] Instance rlp_entry_laws : RLPLaws txLookupEntry entry_ok.
Proof. intros [h b i] _. by exists [h; b; i]. Qed.

Fixpoint triples (l : list Z) : list (Z * Z * Z) :=
  match l with a :: b :: c :: rest => (a, b, c) :: triples rest | _ => [] end.

Definition flat (txs : list (Z * Z * Z)) : list Z := mjoin ((fun t => [t.1.1; t.1.2; t.2]) <$> txs).

Lemma triples_flat txs : triples (flat txs) = txs.
Proof. induction txs as [|[[a b] c] txs IH]; [done|]. cbn. by rewrite <- IH at 2. Qed.

#[export] Instance rlp_body : RLP Body := {
  EncodeToBytes := fun b => Ok (Z.pos (encode (header_list <$> body_uncles b)) :: flat (body_txs b));
  DecodeBytes := fun l =>
    match l with
    | Z.pos p :: rest =>
        match (decode p : option (list (list Z))) ≫= mapM header_of with
        | Some us => Ok (mkBody (triples rest : list Transaction) us)
        | None => Err
        end
    | _ => Err
    end
}.

#[export] Instance rlp_body_laws : RLPLaws Body body_ok.
Proof.
  intros [txs us] _. eexists. split; [done|]. split; [done|]. cbn [DecodeBytes rlp_body body_txs body_uncles]. rewrite decode_encode. cbn [mbind option_bind].
  replace (mapM header_of (header_list <$> us)) with (Some us); [by rewrite triples_flat|].
  symmetry. apply mapM_Some. induction us as [|u us IH]; cbn; constructor; [apply header_of_list|done].
Qed.

#[export] Instance rlp_receipts : RLP (list ChainReceipt) := {
  EncodeToBytes := fun rs => match rs with [] => Ok [0] | _ => Err end;
  DecodeBytes := fun l => match l with [0] => Ok [] | _ => Err end
}.

(** ** Caches *)
Fixpoint cached_at {V : Type} (c : list (Hash * V)) (k : Hash) : option V :=
  match c with [] => None | e :: rest => if decide (k = e.1) then Some e.2 else cached_at rest k end.

#[export] Instance lruZ : LruLib := {
  Lru := fun V => list (Hash * V);
  lru_New := fun _ _ => [];
  lru_Get := fun _ c k => (cached_at c k, c);
  lru_Peek := fun _ c k => cached_at c k;
  lru_Contains := fun _ c k => found (cached_at c k);
  lru_Add := fun _ c k v => (k, v) :: c;
  lru_Remove := fun _ c k => filter (fun e => e.1 <> k) c;
  lru_Keys := fun _ c => c.*1;
  lru_Purge := fun _ _ => []
}.

#[export] Instance lruZ_laws : LruLaws.
Proof.
  split; try done.
  - intros V c k v k' w. cbn. destruct (decide (k' = k)); [by intros [= <-]|done].
  - intros V c k k' w. cbn [lru_Peek lru_Remove lruZ]. induction c as [|[a x] c IH]; [done|]. rewrite filter_cons. cbn [fst].
    destruct (decide (a <> k)) as [Hne|He]; cbn [cached_at fst snd].
    + destruct (decide (k' = a)) as [->|]; [by intros [= <-]|done].
    + intros E. destruct (IH E) as [Hk Ec]. split; [done|]. rewrite decide_False; [done|]. intros ->. apply He. congruence.
  - intros V c k. cbn. induction c as [|[a x] c IH]; [split; [intros []%elem_of_nil|by intros [? ?]]|]. rewrite fmap_cons, elem_of_cons. cbn.
    destruct (decide (k = a)) as [->|Hne]; [split; [by eexists|by left]|]. rewrite <- IH. split; [by intros [?|?]|by right].
Qed.

(** ** States and rules *)
Definition node (root : Z) : list Z := root :: replicate 31 0.

Definition opened (db : list (list Z * list Z)) (root : Z) : bool := found (entry db (node root)).

#[export] Instance chainZ : ChainLib := {
  CState := Z;
  state_New := fun db root => if opened db root then inl root else inr 1;
  OpenTrie := opened;
  NewSecure := opened;
  state_nodes := fun _ _ => 0;
  CommitTo := fun s b => inl (s, b ++ [(node s, [1])]);
  Preimages := fun _ => [];
  CalcUncleHash := fun us => Z.pos (encode (header_list <$> us));
  DeriveSha_block := fun txs => Z.pos (encode (txs : list (Z * Z * Z)));
  sort_blocks := fun bs => bs;
  tx_To := fun _ => Some 0;
  create_address := fun a n => a + n;
  tx_difference := fun a b => filter (fun tx => Tx_Hash tx ∉ Tx_Hash <$> b) a;
  batch_ValueSize := fun b => Z.of_nat (length b);
  IdealBatchSize := 100
}.

#[export] Instance chainZ_laws : ChainLaws.
Proof.
  split.
  - intros a b tx. cbn [tx_difference chainZ]. rewrite list_elem_of_filter. tauto.
  - intros s b root b' [= <- <-]. exists [(node s, [1])]. split; [done|]. constructor; [by left|constructor].
Qed.

(** Every block is what its header says; none is banned. *)
#[export] Instance rulesZ : BlockRules := {
  VerifyUncles := fun _ _ => None;
  Process := fun b _ _ => inl ([], [], 0, Root (block_header b));
  bc_ValidateState := fun _ _ _ _ _ => None;
  BadHashes := []
}.

(** ** Blocks *)
Definition no_uncles : Z := Eval vm_compute in CalcUncleHash [].
Definition no_txs : Z := Eval vm_compute in DeriveSha_block [].

Definition config0 : ChainConfig := mkChainConfig (Some 0) None None None None None 99.

#[export] Instance genesisZ : GenesisLib := {
  GState := Z;
  emptyState := 10;
  g_AddBalance := fun s a b => s + a + default 0 b;
  g_SetCode := fun s _ _ => s;
  g_SetNonce := fun s _ _ => s;
  g_SetState := fun s _ _ _ => s;
  g_IntermediateRoot := fun s => s;
  g_CommitTo := fun s db => Ok (kv_Put db (node s) [1]);
  types_NewBlock := fun h => mkBlock (mkHeader (ParentHash h) no_uncles (Coinbase h) (Root h) no_txs (ReceiptHash h) (Bloom h)
    (Difficulty h) (Number h) (GasLimit h) (GasUsed h) (Time h) (Extra h) (MixDigest h) (Nonce h)) [] [];
  EncodeNonce := fun z => [z];
  MarshalConfig := fun c => Ok [cc_rest c];
  UnmarshalConfig := fun l => match l with [z] => Ok (mkChainConfig (Some 0) None None None None None z) | _ => Err end;
  CheckCompatible := fun _ _ _ => None;
  AllProtocolChanges := config0;
  MainnetChainConfig := config0;
  TestnetChainConfig := config0;
  MainnetGenesisHash := 1;
  TestnetGenesisHash := 2;
  GenesisGasLimit := 5000;
  GenesisDifficulty := 131072;
  BigToAddress := fun z => z;
  DecodeAccounts := fun _ => Ok [];
  mainnetAllocData := []
}.

#[export] Instance genesisZ_laws : GenesisLaws.
Proof.
  split.
  - done.
  - intros h. split_and!; done.
  - intros s db db' k [= <-] Hk _. cbn [kv_Get kvZ entry fst]. rewrite decide_False; [done|]. by intros ->.
  - intros s db db' [= <-]. exists s. cbn [state_New chainZ]. unfold opened. cbn [entry fst snd]. by rewrite decide_True.
  - intros db db' root Hn. cbn [state_New chainZ]. unfold opened. change entry with (@kv_Get kvZ). by rewrite Hn.
Qed.

Definition spec0 : Genesis := mkGenesis (Some config0) 66 0 [] 5000 (Some 1) 0 0 {[3 := mkGenesisAccount [] ∅ (Some 4) 0]} 0 0 0.

Definition block0 : Block := Eval vm_compute in fst (ToBlock spec0).

Definition on_top (p : Block) (number root difficulty : Z) (txs : list Transaction) : Block :=
  mkBlock (mkHeader (block_Hash p) no_uncles 0 root (DeriveSha_block txs) 0 [] (Some difficulty) (Some number) (Some 0) (Some 0) (Some 0)
    [] 0 []) txs [].

(** A block on the genesis block, and a heavier branch of two blocks beside it; two
    transactions are on both, one is on the first only. *)
Definition block_a1 : Block := Eval vm_compute in on_top block0 1 21 2 [(0, 5, 7); (0, 4, 9)].
Definition block_c1 : Block := Eval vm_compute in on_top block0 1 31 1 [(1, 6, 7); (0, 5, 7)].
Definition block_c2 : Block := Eval vm_compute in on_top block_c1 2 32 4 [(0, 3, 5)].

Lemma DeriveSha_inj txs txs' : DeriveSha_block txs = DeriveSha_block txs' -> txs = txs'.
Proof. cbn [DeriveSha_block chainZ]. intros [= E%(inj encode)]. done. Qed.

(** What is stored under the hash of a block has its header and its transactions. *)
Lemma stored_like db b n x : blocks_ok block0 db -> is_u64 n -> DeriveSha_block (block_txs b) = TxHash (block_header b) ->
  GetBlock db (block_Hash b) n = Some x -> block_header x = block_header b /\ block_txs x = block_txs b.
Proof.
  intros Hdb Hn Er Ex. destruct (block_known _ _ Hdb _ _ _ Hn Ex) as (_ & Eh & _). apply hash_inj in Eh. split; [done|].
  apply DeriveSha_inj. by rewrite (bk_txs _ _ Hdb _ _ _ Hn Ex), Eh, Er.
Qed.

Lemma path_from_genesis db l : path db block0 l block0 -> l = [].
Proof. intros Hl. inversion Hl as [|b n p l' a En H0]; [done|]. subst. vm_compute in En. injection En as <-. lia. Qed.

Lemma placeable_first b db l : blocks_ok block0 db -> block_Number b = Ret 1 -> block_ParentHash b = block_Hash block0 ->
  path db b l block0 -> l = [b].
Proof.
  intros Hdb En Ep Hl. inversion Hl as [x Ex|b' n p l' a En' H0 Hu Ep' Hl']; subst; [by vm_compute in En|].
  rewrite En in En'. injection En' as <-. rewrite (block_genesis _ _ Hdb _ _ Ep') in Hl'. f_equal. by apply path_from_genesis in Hl'.
Qed.

Lemma few (b : Block) : (length (block_txs b) <= 9)%nat -> Z.of_nat (length (block_txs b)) < 2 ^ 63.
Proof. lia. Qed.

Lemma number_of_hash b h m n : Header_Hash h = block_Hash b -> header_number h = Ret m -> block_Number b = Ret n -> m = n.
Proof. intros E Em En. apply hash_inj in E as ->. unfold block_Number in En. rewrite En in Em. by injection Em. Qed.

Ltac header_is_ok := split_and!; eexists; (split; [reflexivity|done]).

Lemma a1_valid : valid_block block0 block_a1 1.
Proof.
  split; [split; [header_is_ok|constructor]|done|done|done| |].
  - intros h m E Em. rewrite (number_of_hash block0 h m 0 E Em eq_refl). done.
  - intros db l Hdb Hl. rewrite (placeable_first block_a1 db l Hdb eq_refl eq_refl Hl). split; [apply (bool_decide_unpack _); vm_compute; done|].
    repeat constructor.
Qed.

Lemma c1_valid : valid_block block0 block_c1 1.
Proof.
  split; [split; [header_is_ok|constructor]|done|done|done| |].
  - intros h m E Em. rewrite (number_of_hash block0 h m 0 E Em eq_refl). done.
  - intros db l Hdb Hl. rewrite (placeable_first block_c1 db l Hdb eq_refl eq_refl Hl). split; [apply (bool_decide_unpack _); vm_compute; done|].
    repeat constructor.
Qed.

Lemma c2_valid : valid_block block0 block_c2 2.
Proof.
  split; [split; [header_is_ok|constructor]|done|done|done| |].
  - intros h m E Em. rewrite (number_of_hash block_c1 h m 1 E Em eq_refl). done.
  - intros db l Hdb Hl. inversion Hl as [|b n p l' a En H0 Hu Ep Hl']; subst. assert (n = 2) as -> by (vm_compute in En; congruence).
    destruct (stored_like db block_c1 1 p Hdb ltac:(done) eq_refl Ep) as [Eh Et].
    rewrite (placeable_first p db l' Hdb) by (done || unfold block_Number, block_ParentHash; by rewrite Eh). split.
    + unfold txs_in. cbn [fmap list_fmap mjoin list_join]. rewrite Et. apply (bool_decide_unpack _). vm_compute. done.
    + constructor; [done|]. constructor; [by rewrite Et|constructor].
Qed.

(** ** A run *)
Definition ret_of {A B : Type} (d : B) (o : outcome (A * B)) : B := match o with Ret (_, b) => b | _ => d end.

(** An empty store. *)
Definition nothing : @KV kvZ := @nil (list Z * list Z).

(** The store of the genesis block, and the chain on it. *)
Definition store0 : KV := Eval vm_compute in
  match SetupGenesisBlock nothing (Some spec0) false with Ret (db, _) => db | _ => nothing end.

Definition chain_nil : BlockChain :=
  mkBlockChain (mkHeaderChain nothing (block_header block0) (block_header block0) 0 [] [] []) None None None [] [] [] [] [] [] [].

Definition chain0 : BlockChain := Eval vm_compute in match NewBlockChain 9 store0 with Ret (inl bc) => bc | _ => chain_nil end.

(** The first block, and then the heavier branch. *)
Definition turn0 : nat -> Turn := fun _ => mkTurn None 0 false true false.
Definition chain1 : BlockChain := Eval vm_compute in ret_of chain_nil (InsertChain 9 true turn0 [block_a1] chain0).
Definition chain2 : BlockChain := Eval vm_compute in ret_of chain_nil (InsertChain 9 true turn0 [block_c1; block_c2] chain1).

Lemma spec0_ok : genesis_spec spec0 1.
Proof. split; [done|done|lia|cbn; lia|cbn; lia|done|by eexists|by eexists]. Qed.

Lemma spec0_block : fst (ToBlock spec0) = block0.
Proof. evaluated. Qed.

Lemma store0_ok : genesis_store block0 store0.
Proof.
  destruct (Commit_store spec0 1 nothing _ spec0_ok eq_refl) as (db' & s & E & Hgs & _); [done|]. rewrite spec0_block in Hgs.
  assert (E' : Commit spec0 nothing = Ret (store0, Some (fst (ToBlock spec0)), None)) by evaluated.
  rewrite E in E'. by injection E' as <-.
Qed.

Definition state0 : @CState _ _ _ chainZ := Root (block_header block0).

Lemma chain0_reachable : bc_reachable block0 9 chain0.
Proof.
  apply (br_open block0 9 store0 state0); [exact store0_ok|evaluated|apply not_elem_of_nil|evaluated].
Qed.

Lemma chain1_reachable : bc_reachable block0 9 chain1.
Proof.
  apply (br_import block0 9 true turn0 [block_a1] None chain0); [exact chain0_reachable|done| |evaluated].
  apply valid_importable. constructor; [|constructor]. exists 1. split; [exact a1_valid|lia].
Qed.

Lemma chain2_reachable : bc_reachable block0 9 chain2.
Proof.
  apply (br_import block0 9 true turn0 [block_c1; block_c2] None chain1); [exact chain1_reachable|done| |evaluated].
  apply valid_importable. constructor; [exists 1; split; [exact c1_valid|lia]|]. constructor; [exists 2; split; [exact c2_valid|lia]|constructor].
Qed.

(** What is known under a hash has the number of the header with this hash. *)
Lemma parent_number hc top header p n : hc_ok (block_header block0) top hc -> ParentHash header = Header_Hash p -> header_number p = Ret (n - 1) ->
  forall m q, is_u64 m -> GetHeader (hc_db hc) (ParentHash header) m = Some q -> m = n - 1.
Proof.
  intros Hok Ep En m q Hm Eq. destruct (do_header _ _ (ho_db _ _ _ Hok) _ _ _ Hm Eq) as (_ & Eh & Em & _).
  rewrite Ep in Eh. apply hash_inj in Eh as ->. rewrite En in Em. by injection Em.
Qed.

(** ** Headers *)
Definition hc_nil : HeaderChain := mkHeaderChain nothing (block_header block0) (block_header block0) 0 [] [] [].
Definition hc0 : HeaderChain := Eval vm_compute in match NewHeaderChain store0 with Ret (inl hc) => hc | _ => hc_nil end.

(** Beside the first block and one on it, a light block on the first block. *)
Definition header_a1 : Header := Eval vm_compute in block_header block_a1.
Definition header_a2 : Header := Eval vm_compute in block_header (on_top block_a1 2 22 2 []).
Definition header_s2 : Header := Eval vm_compute in block_header (on_top block_a1 2 42 1 []).
Definition header_s3 : Header := Eval vm_compute in block_header (on_top (mkBlock header_s2 [] []) 3 43 9 []).

Definition hc1 : HeaderChain := Eval vm_compute in ret_of hc_nil (hc_WriteHeader 9 false header_a1 hc0).
Definition hc2 : HeaderChain := Eval vm_compute in ret_of hc_nil (hc_WriteHeader 9 false header_a2 hc1).
Definition hc3 : HeaderChain := Eval vm_compute in ret_of hc_nil (hc_WriteHeader 9 false header_s2 hc2).

Lemma hc_step header p n top hc hc' st : hc_reachable (block_header block0) hc -> header_ok header -> header_number header = Ret n ->
  0 < n < 9 -> Header_Hash header <> 0 -> ParentHash header = Header_Hash p -> header_number p = Ret (n - 1) ->
  HasHeader (Header_Hash header) n hc = false -> header_number (currentHeader hc) = Ret top -> top < 9 ->
  hc_WriteHeader 9 false header hc = Ret (inl st, hc') -> hc_reachable (block_header block0) hc'.
Proof.
  intros Hr Hh En Hn Hz Ep Enp Hnew Et Htop E. destruct (hc_reachable_ok _ _ Hr) as (t & Hok & _).
  apply (hr_write _ 9 false header n top (inl st) hc); try done; [|lia].
  split; try done; [unfold MaxUint64; lia|]. by apply (parent_number hc t header p n).
Qed.

Lemma hc0_reachable : hc_reachable (block_header block0) hc0.
Proof. apply (hr_new _ store0); [exact (genesis_store_headers _ _ store0_ok)|evaluated]. Qed.

Lemma hc1_reachable : hc_reachable (block_header block0) hc1.
Proof.
  apply (hc_step header_a1 (block_header block0) 1 0 hc0 hc1 CanonStatTy hc0_reachable); [header_is_ok|done|lia|done|done|done|evaluated|evaluated|lia|evaluated].
Qed.

Lemma hc2_reachable : hc_reachable (block_header block0) hc2.
Proof.
  apply (hc_step header_a2 header_a1 2 1 hc1 hc2 CanonStatTy hc1_reachable); [header_is_ok|done|lia|done|done|done|evaluated|evaluated|lia|evaluated].
Qed.

Lemma hc3_reachable : hc_reachable (block_header block0) hc3.
Proof.
  apply (hc_step header_s2 header_a1 2 2 hc2 hc3 SideStatTy hc2_reachable); [header_is_ok|done|lia|done|done|done|evaluated|evaluated|lia|evaluated].
Qed.

Lemma canonical_heaviest_witness : currentHeader hc3 = header_a2 /\
  exists top td, header_number (currentHeader hc3) = Ret top /\ GetTd (hc_db hc3) (Header_Hash (currentHeader hc3)) top = Some td /\
    forall hash n td', is_u64 n -> GetTd (hc_db hc3) hash n = Some td' -> td' <= td.
Proof.
  split; [evaluated|]. destruct (canonical_heaviest _ hc3 hc3_reachable) as (top & td & E1 & _ & _ & _ & E2 & E3). exists top, td. auto.
Defined.

Lemma a1_good : good_header header_a1.
Proof. split; [header_is_ok|]. split; [done|]. intros n E. vm_compute in E. by injection E as <-. Qed.

Lemma a2_good : good_header header_a2.
Proof. split; [header_is_ok|]. split; [done|]. intros n E. vm_compute in E. by injection E as <-. Qed.

Lemma InsertHeaderChain_imports_witness : contiguous (block_header block0) [header_a1; header_a2] = Ret true /\
  exists hc', hc_InsertHeaderChain 9 (fun _ => false) (fun _ => false) [header_a1; header_a2] hc1 = Ret (inl tt, hc') /\
    hc_reachable (block_header block0) hc' /\ exists n, GetHeader (hc_db hc') (Header_Hash header_a2) n = Some header_a2.
Proof.
  assert (E : contiguous (block_header block0) [header_a1; header_a2] = Ret true) by evaluated. split; [exact E|].
  destruct (InsertHeaderChain_imports (block_header block0) 9 (fun _ => false) hc1 (block_header block0) 0 1 [header_a1; header_a2])
    as (hc' & E1 & E2 & E3 & _).
  - exact hc1_reachable.
  - evaluated.
  - evaluated.
  - evaluated.
  - done.
  - exact E.
  - constructor; [exact a1_good|]. constructor; [exact a2_good|constructor].
  - done.
  - done.
  - done.
  - exists hc'. split; [exact E1|]. split; [exact E2|]. apply E3. apply elem_of_cons; right. by apply list_elem_of_singleton.
Defined.

Lemma SetHead_rolls_back_witness : exists hc', hc_SetHead 9 (fun hash num db => DeleteBody db hash num) 1 hc3 = Ret (tt, hc') /\
  canon_ok (hc_db hc') (currentHeader hc') 1 /\ GetHeader (hc_db hc') (Header_Hash header_a2) 2 = None /\
  GetHeader (hc_db hc') (Header_Hash header_s2) 2 = Some header_s2.
Proof.
  destruct (SetHead_rolls_back (block_header block0) 2 9 (fun hash num db => DeleteBody db hash num) 1 hc3) as (hc' & E1 & E2 & _ & _ & _ & _ & E3).
  - apply (reachable_top _ hc3); [exact hc3_reachable|evaluated].
  - exact DeleteBody_keeps.
  - done.
  - done.
  - exists hc'. split; [exact E1|]. split; [exact E2|]. rewrite !E3 by done. split; evaluated.
Defined.

(** ** Blocks on the chain *)
Definition no_old : KV -> Hash -> option (Transaction * txLookupEntry) := fun _ _ => None.

Lemma blocks_heaviest_witness : exists b top td, currentBlock chain2 = Some b /\ b = block_c2 /\
  GetTd (bc_db chain2) (block_Hash b) top = Some td /\
  (forall hash n h td', is_u64 n -> GetHeader (bc_db chain2) hash n = Some h -> GetTd (bc_db chain2) hash n = Some td' -> td' <= td).
Proof.
  destruct (blocks_heaviest no_old block0 9 chain2 chain2_reachable) as (b & top & td & E1 & _ & _ & _ & _ & E2 & E3).
  exists b, top, td. split; [exact E1|]. split; [|split; [exact E2|exact E3]].
  assert (E : currentBlock chain2 = Some block_c2) by evaluated. rewrite E in E1. by injection E1.
Defined.

Lemma InsertChain_returns_witness : exists r bc', InsertChain 9 false turn0 [block_c1; block_c2] chain1 = Ret (r, bc') /\ bc_reachable block0 9 bc'.
Proof.
  apply (InsertChain_returns block0 9 false turn0 [block_c1; block_c2] chain1); [exact chain1_reachable|done|].
  apply valid_importable. constructor; [exists 1; split; [exact c1_valid|lia]|]. constructor; [exists 2; split; [exact c2_valid|lia]|constructor].
Defined.

Lemma chain1_blocks : blocks_ok block0 (bc_db chain1).
Proof. destruct (bc_reachable_alive _ _ _ chain1_reachable) as (b & top & Hok & _). apply Hok. Qed.

Lemma c1_writable : writable block0 (bc_db chain1) block_c1 1.
Proof.
  apply (valid_writable block0 (bc_db chain1) block_c1 1 0 block0); [exact chain1_blocks|exact c1_valid|done|evaluated|evaluated].
Qed.

Definition state1 : @CState _ _ _ chainZ := Root (block_header block_c1).

(** The lighter block is stored beside the chain. *)
Lemma WriteBlockAndState_stores_witness : GetBlock (bc_db chain1) (block_Hash block_c1) 1 = None /\
  exists bc', WriteBlockAndState 9 false true block_c1 [] state1 chain1 = Ret (inl SideStatTy, bc') /\
    GetBlock (bc_db bc') (block_Hash block_c1) 1 = Some block_c1.
Proof.
  assert (E : GetBlock (bc_db chain1) (block_Hash block_c1) 1 = None) by evaluated. split; [exact E|].
  set (batch := match block_batch block_c1 1 [] state1 with Ret (inl b) => b | _ => [] end).
  destruct (WriteBlockAndState_stores block0 9 false block_c1 1 [] state1 batch chain1 chain1_reachable c1_writable) as
    (b & top & d & ptd & td & bc' & E1 & E2 & E3 & E4 & E5 & _ & _ & _ & E6); [lia|exact E|reflexivity|].
  exists bc'. rewrite E6 by done. rewrite decide_True by done. split; [|done].
  assert (Es : match WriteBlockAndState 9 false true block_c1 [] state1 chain1 with Ret (r, _) => r | _ => inl NonStatTy end = inl SideStatTy) by evaluated.
  rewrite E5 in Es |- *. by rewrite Es.
Defined.

Lemma fresh_node_starts_witness : exists db' bc, SetupGenesisBlock nothing (Some spec0) false = Ret (db', (Some config0, block_Hash block0, None)) /\
  NewBlockChain 9 db' = Ret (inl bc) /\ currentBlock bc = Some block0.
Proof.
  destruct (fresh_node_starts spec0 1 nothing _ 9 false spec0_ok ltac:(by eexists) eq_refl ltac:(done) ltac:(apply not_elem_of_nil))
    as (db' & bc & E1 & E2 & E3 & _). rewrite spec0_block in E1, E3. by exists db', bc.
Defined.

(** The specification with another difficulty is that of another block. *)
Definition spec1 : Genesis := mkGenesis (Some config0) 66 0 [] 5000 (Some 2) 0 0 {[3 := mkGenesisAccount [] ∅ (Some 4) 0]} 0 0 0.

Lemma setup_keeps_chain_witness : exists h, SetupGenesisBlock store0 (Some spec1) false =
    Ret (store0, (Some config0, h, Some (GenesisMismatchError (block_Hash block0) h))) /\ h <> block_Hash block0.
Proof.
  set (h := block_Hash (fst (ToBlock spec1))).
  assert (E : SetupGenesisBlock store0 (Some spec1) false = Ret (store0, (Some config0, h, Some (GenesisMismatchError (block_Hash block0) h)))) by evaluated.
  assert (Hne : h <> block_Hash block0) by (apply (bool_decide_unpack _); vm_compute; exact I).
  assert (Hz : GetCanonicalHash store0 0 <> 0) by (apply (bool_decide_unpack _); vm_compute; exact I).
  destruct (setup_keeps_chain store0 (Some spec1) false _ _ _ _ Hz E) as (_ & _ & H3).
  destruct (H3 spec1 eq_refl ltac:(by eexists) ltac:(apply (bool_decide_unpack _); vm_compute; exact I)) as [_ _].
  exists h. split; [exact E|exact Hne].
Defined.

(** ** What goes wrong *)

(** A reorganization leaves the head header behind.  The blocks of the new branch
    are made heads from the top down, so that the last one is the lowest; when the
    new head is inserted again it is canonical already, and the head header and the
    head of the fast synchronization stay at the lowest block of the branch. *)
Theorem reorg_header_behind : exists g fuel bc b low, bc_reachable g fuel bc /\ currentBlock bc = Some b /\
  block_ParentHash b = block_Hash low /\ currentHeader (bc_hc bc) = block_header low /\ currentFastBlock bc = Some low.
Proof.
  exists block0, 9%nat, chain2, block_c2, block_c1. split; [exact chain2_reachable|]. split; [evaluated|]. split; [evaluated|]. split; evaluated.
Qed.

(** A long light branch and one heavy block. *)
Definition block_a2 : Block := Eval vm_compute in on_top block_a1 2 22 1 [].
Definition block_d1 : Block := Eval vm_compute in on_top block0 1 51 7 [].

Lemma a2_valid : valid_block block0 block_a2 2.
Proof.
  split; [split; [header_is_ok|constructor]|done|done|done| |].
  - intros h m E Em. rewrite (number_of_hash block_a1 h m 1 E Em eq_refl). done.
  - intros db l Hdb Hl. inversion Hl as [|b n p l' a En H0 Hu Ep Hl']; subst. assert (n = 2) as -> by (vm_compute in En; congruence).
    destruct (stored_like db block_a1 1 p Hdb ltac:(done) eq_refl Ep) as [Eh Et].
    rewrite (placeable_first p db l' Hdb) by (done || unfold block_Number, block_ParentHash; by rewrite Eh). split.
    + unfold txs_in. cbn [fmap list_fmap mjoin list_join]. rewrite Et. apply (bool_decide_unpack _). vm_compute. done.
    + constructor; [done|]. constructor; [by rewrite Et|constructor].
Qed.

Lemma d1_valid : valid_block block0 block_d1 1.
Proof.
  split; [split; [header_is_ok|constructor]|done|done|done| |].
  - intros h m E Em. rewrite (number_of_hash block0 h m 0 E Em eq_refl). done.
  - intros db l Hdb Hl. rewrite (placeable_first block_d1 db l Hdb eq_refl eq_refl Hl). split; [constructor|repeat constructor].
Qed.

Definition chain3 : BlockChain := Eval vm_compute in ret_of chain_nil (InsertChain 9 true turn0 [block_a2] chain1).
Definition chain4 : BlockChain := Eval vm_compute in ret_of chain_nil (InsertChain 9 true turn0 [block_d1] chain3).

Lemma chain4_reachable : bc_reachable block0 9 chain4.
Proof.
  apply (br_import block0 9 true turn0 [block_d1] None chain3); [|done|apply valid_importable; constructor; [exists 1; split; [exact d1_valid|lia]|constructor]|evaluated].
  apply (br_import block0 9 true turn0 [block_a2] None chain1); [exact chain1_reachable|done| |evaluated].
  apply valid_importable. constructor; [exists 2; split; [exact a2_valid|lia]|constructor].
Qed.

(** After a reorganization to a shorter and heavier branch, the numbers above the
    new head still name blocks of the old branch. *)
Theorem reorg_stale_numbers : exists g fuel bc b x, bc_reachable g fuel bc /\ currentBlock bc = Some b /\ block_Number b = Ret 1 /\
  exists bc', GetBlockByNumber 2 bc = Ret (Some x, bc') /\ block_ParentHash x <> block_Hash b.
Proof.
  exists block0, 9%nat, chain4, block_d1, block_a2. split; [exact chain4_reachable|]. split; [evaluated|]. split; [evaluated|].
  exists (ret_of chain_nil (GetBlockByNumber 2 chain4)). split; [evaluated|]. apply (bool_decide_unpack _). vm_compute. exact I.
Qed.

(** Rewinding the header chain deletes only the headers of the canonical chain: a
    header of a side branch whose parent is deleted stays, and when a header on top
    of it wins, the walk back to the canonical chain does not find the parent and
    panics. *)
Theorem SetHead_strands_branch : exists g hc hc' header, hc_reachable g hc /\
  hc_SetHead 9 (fun hash num db => DeleteBody db hash num) 0 hc = Ret (tt, hc') /\
  GetHeader (hc_db hc') (ParentHash header) 2 <> None /\ header_ok header /\ hc_WriteHeader 9 false header hc' = Panic.
Proof.
  exists (block_header block0), hc3, (ret_of hc_nil (hc_SetHead 9 (fun hash num db => DeleteBody db hash num) 0 hc3)), header_s3.
  split; [exact hc3_reachable|]. split; [evaluated|]. split; [vm_compute; done|]. split; [header_is_ok|evaluated].
Qed.
