(* ===== verification/Prque.v ===== *)
(** * Priority queues

    The priority queue of the library (prque), its laws, and an implementation by a list. *)
From S2P Require Import Prelude.
Local Open Scope Z_scope.

(** ** The queue *)

(** The priority queue of the library (prque): the item with the greatest priority is
    popped first; to pop from an empty queue panics. *)
Class PrqueLib (A : Type) := {
  Prque : Type;
  prque_New : Prque;
  prque_Push : Prque -> A -> Z -> Prque;
  prque_Pop : Prque -> option (A * Prque);
  prque_Size : Prque -> Z
}.

(** The items of a priority queue and their priorities. *)
Class PrqueLaws {A : Type} {PL : PrqueLib A} := {
  prque_items : Prque -> list (A * Z);
  items_New : prque_items prque_New = [];
  items_Push tq x p : prque_items (prque_Push tq x p) ≡ₚ (x, p) :: prque_items tq;
  items_Pop_None tq : prque_Pop tq = None -> prque_items tq = [];
  items_Pop tq x tq' : prque_Pop tq = Some (x, tq') ->
    exists p, prque_items tq ≡ₚ (x, p) :: prque_items tq' /\ forall e, e ∈ prque_items tq -> e.2 <= p;
  items_Size tq : prque_Size tq = Z.of_nat (length (prque_items tq))
}.

(** ** By a list

    A list, the last item in front: among equal priorities the last one comes first. *)
Section by_list.
Context {A : Type}.

Definition items := list (A * Z).

(** The first item with the greatest priority, and the others. *)
Fixpoint top_item (l : items) : option (A * Z * items) :=
  match l with
  | [] => None
  | e :: rest =>
      match top_item rest with
      | None => Some (e, [])
      | Some (e', rest') => if e'.2 <=? e.2 then Some (e, rest) else Some (e', e :: rest')
      end
  end.

Lemma top_item_spec l e rest : top_item l = Some (e, rest) -> l ≡ₚ e :: rest /\ forall x, x ∈ l -> x.2 <= e.2.
Proof.
  revert e rest. induction l as [|a l IH]; intros e rest E; cbn [top_item] in E; [done|].
  destruct (top_item l) as [[e' rest']|] eqn:El.
  - destruct (IH e' rest' eq_refl) as [Hp Hm]. destruct (Z.leb_spec e'.2 a.2); injection E as <- <-.
    + split; [done|]. intros x [->|Hx]%elem_of_cons; [lia|]. specialize (Hm x Hx). lia.
    + split; [rewrite Hp; apply Permutation_swap|]. intros x [->|Hx]%elem_of_cons; [lia|auto].
  - injection E as <- <-. destruct l as [|b l]; [|cbn in El; by destruct (top_item l) as [[]|]; [destruct (_ <=? _)|]].
    split; [done|]. intros x Hx%list_elem_of_singleton. subst. lia.
Qed.

Definition prque_list : PrqueLib A := {|
  Prque := items;
  prque_New := [];
  prque_Push := fun l x p => (x, p) :: l;
  prque_Pop := fun l => match top_item l with Some (e, rest) => Some (e.1, rest) | None => None end;
  prque_Size := fun l => Z.of_nat (length l)
|}.

Definition prque_list_laws : PrqueLaws (PL := prque_list).
Proof.
  refine (Build_PrqueLaws A prque_list (fun l => l) _ _ _ _ _); try done.
  - intros l. cbn. destruct l as [|a l]; [done|]. cbn. destruct (top_item l) as [[]|]; [destruct (_ <=? _)|]; done.
  - intros l x l' E. cbn in E. destruct (top_item l) as [[[y p] rest]|] eqn:El; [|done]. injection E as <- <-.
    destruct (top_item_spec _ _ _ El) as [Hp Hm]. by exists p.
Defined.

End by_list.
