(* ===== verification/DlPeer.v ===== *)
(** * The peers of the downloader (mc/downloader/peer.go)

    A connection to a peer is an object of a heap ([conns]), since requests that
    were sent keep it when the peer is dropped from the set; the set maps
    identifiers to connections.  For each kind of data a flag says whether the peer
    is working on a request.  The measured throughputs and round trip times, which
    only order the idle peers, are not modelled: the comparison of the throughputs
    is an argument of [idlePeers]. *)
From S2P Require Import Prelude GoMonad Clique.
Local Open Scope Z_scope.

Definition maxLackingHashes : Z := 4096.
Definition mc62 : Z := 10062.
Definition mc63 : Z := 10063.
Definition mc64 : Z := 10064.

(** The kinds of data that are fetched. *)
Inductive Kind := HeaderKind | BodyKind | ReceiptKind | StateKind.

Record peerConnection := mkConn {
  pc_id : string;
  headerIdle : Z;
  blockIdle : Z;
  receiptIdle : Z;
  stateIdle : Z;
  pc_lacking : gmap Hash unit;
  pc_version : Z
}.

(** The messages to a peer ([Peer]). *)
Inductive PeerMessage :=
| RequestHeadersByHash (hash : Hash) (amount skip : Z) (reverse : bool)
| RequestHeadersByNumber (from amount skip : Z) (reverse : bool)
| RequestBodies (hashes : list Hash)
| RequestReceipts (hashes : list Hash)
| RequestNodeData (hashes : list Hash).

(** The set, the heap of connections, the messages sent, and what was posted to the
    feeds of arrivals and departures. *)
Record peerSet := mkPeerSet {
  peers : gmap string Z;
  conns : gmap Z peerConnection;
  sent : list (Z * PeerMessage);
  newPeers : list Z;
  peerDrops : list Z
}.

Inductive PeerError := errAlreadyFetching | errAlreadyRegistered | errNotRegistered.

Definition idle_flag (k : Kind) (p : peerConnection) : Z :=
  match k with
  | HeaderKind => headerIdle p
  | BodyKind => blockIdle p
  | ReceiptKind => receiptIdle p
  | StateKind => stateIdle p
  end.

Definition with_idle (k : Kind) (v : Z) (p : peerConnection) : peerConnection :=
  match k with
  | HeaderKind => mkConn (pc_id p) v (blockIdle p) (receiptIdle p) (stateIdle p) (pc_lacking p) (pc_version p)
  | BodyKind => mkConn (pc_id p) (headerIdle p) v (receiptIdle p) (stateIdle p) (pc_lacking p) (pc_version p)
  | ReceiptKind => mkConn (pc_id p) (headerIdle p) (blockIdle p) v (stateIdle p) (pc_lacking p) (pc_version p)
  | StateKind => mkConn (pc_id p) (headerIdle p) (blockIdle p) (receiptIdle p) v (pc_lacking p) (pc_version p)
  end.

Definition with_lacking (m : gmap Hash unit) (p : peerConnection) : peerConnection :=
  mkConn (pc_id p) (headerIdle p) (blockIdle p) (receiptIdle p) (stateIdle p) m (pc_version p).

Definition newPeerConnection (id : string) (version : Z) : peerConnection := mkConn id 0 0 0 0 ∅ version.

Definition pc_Reset (p : peerConnection) : peerConnection := mkConn (pc_id p) 0 0 0 0 ∅ (pc_version p).

Definition newPeerSet : peerSet := mkPeerSet ∅ ∅ [] [] [].

Definition set_conns (m : gmap Z peerConnection) (ps : peerSet) : peerSet :=
  mkPeerSet (peers ps) m (sent ps) (newPeers ps) (peerDrops ps).

Definition send_to (p : Z) (m : PeerMessage) (ps : peerSet) : peerSet :=
  mkPeerSet (peers ps) (conns ps) (sent ps ++ [(p, m)]) (newPeers ps) (peerDrops ps).

(** The connection behind a pointer, and a change of it. *)
Definition conn (p : Z) : go peerSet peerConnection :=
  ps ← gget; match conns ps !! p with Some c => mret c | None => gpanic end.

Definition on_conn (p : Z) (f : peerConnection -> peerConnection) : go peerSet unit :=
  c ← conn p; gmodify (fun ps => set_conns (<[p := f c]> (conns ps)) ps).

(** ** Requests *)

(** What all requests have in common: the version of the protocol, and that the peer
    is idle. *)
Definition fetch (k : Kind) (minVersion p : Z) (message : PeerMessage) : go peerSet (option PeerError) :=
  c ← conn p;
  if pc_version c <? minVersion then gpanic
  else if negb (idle_flag k c =? 0) then mret (Some errAlreadyFetching)
  else
    _ ← on_conn p (with_idle k 1);
    _ ← gmodify (send_to p message);
    mret None.

Definition FetchHeaders (p from count : Z) : go peerSet (option PeerError) :=
  fetch HeaderKind mc62 p (RequestHeadersByNumber from count 0 false).

Definition FetchBodies (p : Z) (hashes : list Hash) : go peerSet (option PeerError) :=
  fetch BodyKind mc62 p (RequestBodies hashes).

Definition FetchReceipts (p : Z) (hashes : list Hash) : go peerSet (option PeerError) :=
  fetch ReceiptKind mc63 p (RequestReceipts hashes).

Definition FetchNodeData (p : Z) (hashes : list Hash) : go peerSet (option PeerError) :=
  fetch StateKind mc63 p (RequestNodeData hashes).

Definition setIdle (k : Kind) (p : Z) : go peerSet unit := on_conn p (with_idle k 0).

Section lacking.
Context {MO : MapOrder Hash unit}.

(** [for drop := range p.lacking { delete(p.lacking, drop); break }], as long as the
    set is full. *)
Fixpoint make_room (n : nat) (m : gmap Hash unit) : gmap Hash unit :=
  if Z.of_nat (size m) <? maxLackingHashes then m
  else
    match n with
    | O => m
    | S n' => make_room n' (match range m with (drop, _) :: _ => delete drop m | [] => m end)
    end.

Definition MarkLacking (hash : Hash) (p : peerConnection) : peerConnection :=
  let m := make_room (size (pc_lacking p)) (pc_lacking p) in
  with_lacking (<[hash := tt]> m) p.

Definition Lacks (p : peerConnection) (hash : Hash) : bool := found (pc_lacking p !! hash).

End lacking.

(** ** The set *)

Definition ps_Reset (ps : peerSet) : peerSet :=
  set_conns (foldr (fun e m => alter pc_Reset e.2 m) (conns ps) (map_to_list (peers ps))) ps.

Definition Register (id : string) (version : Z) : go peerSet (option PeerError) :=
  ps ← gget;
  if found (peers ps !! id) then mret (Some errAlreadyRegistered)
  else
    let p := fresh (dom (conns ps)) in
    _ ← gmodify (fun ps => mkPeerSet (<[id := p]> (peers ps)) (<[p := newPeerConnection id version]> (conns ps)) (sent ps)
                             (newPeers ps ++ [p]) (peerDrops ps));
    mret None.

Definition Unregister (id : string) : go peerSet (option PeerError) :=
  ps ← gget;
  match peers ps !! id with
  | None => mret (Some errNotRegistered)
  | Some p =>
      _ ← gmodify (fun ps => mkPeerSet (delete id (peers ps)) (conns ps) (sent ps) (newPeers ps) (peerDrops ps ++ [p]));
      mret None
  end.

Definition ps_Peer (ps : peerSet) (id : string) : option Z := peers ps !! id.
Definition ps_Len (ps : peerSet) : Z := Z.of_nat (size (peers ps)).

(** [for j := i + 1; j < len(idle); j++ { if throughput(idle[i]) < throughput(idle[j]) { swap } }]. *)
Fixpoint exchange (slower : Z -> Z -> bool) (x : Z) (l : list Z) : Z * list Z :=
  match l with
  | [] => (x, [])
  | y :: l' =>
      if slower x y then let r := exchange slower y l' in (fst r, x :: snd r)
      else let r := exchange slower x l' in (fst r, y :: snd r)
  end.

Fixpoint by_throughput (slower : Z -> Z -> bool) (n : nat) (l : list Z) : list Z :=
  match n, l with
  | S n', x :: l' => let r := exchange slower x l' in fst r :: by_throughput slower n' (snd r)
  | _, _ => l
  end.

Section idle.
Context {MO : MapOrder string Z}.

(** The connections of the set that speak a version of the protocol. *)
Definition speaking (minProtocol maxProtocol : Z) (ps : peerSet) : list (Z * peerConnection) :=
  omap (fun e : string * Z => match conns ps !! e.2 with
                 | Some c => if (minProtocol <=? pc_version c) && (pc_version c <=? maxProtocol) then Some (e.2, c) else None
                 | None => None
                 end) (range (peers ps)).

Definition idlePeers (k : Kind) (minProtocol maxProtocol : Z) (slower : Z -> Z -> bool) (ps : peerSet) : list Z * Z :=
  let l := speaking minProtocol maxProtocol ps in
  let idle := fst <$> filter (fun e => idle_flag k e.2 = 0) l in
  (by_throughput slower (length idle) idle, Z.of_nat (length l)).

Definition HeaderIdlePeers := idlePeers HeaderKind mc62 mc64.
Definition BodyIdlePeers := idlePeers BodyKind mc62 mc64.
Definition ReceiptIdlePeers := idlePeers ReceiptKind mc63 mc64.
Definition NodeDataIdlePeers := idlePeers StateKind mc63 mc64.

End idle.
