(* ===== verification/DlQueue.v ===== *)
(** * The download queue (mc/downloader/queue.go)

    The scheduler of a synchronization: skeletons of headers that are filled by the
    peers, and the bodies and receipts of the scheduled headers, which are reserved
    for peers, delivered, expired, and handed out in the order of the chain.  An
    operation holds the lock, so it is one step.  The source has the pools of bodies
    and of receipts as two groups of four fields and passes one group to the common
    operations; here a group is a [Track].  The objects of the result cache are
    shared with no one until they are handed out.  The field [Hashes] of a request,
    which nothing sets, is left out.  Package variables that bound the queue are the
    class [DlVars]. *)
From S2P Require Import Prelude GoMonad Clique TxList ChainDb HeaderChain BlockChain Prque DlPeer.
Local Open Scope Z_scope.

(** [blockCacheLimit], [MaxHeaderFetch] and [fsHeaderForceVerify]. *)
Class DlVars := {
  cacheLimit : nat;
  MaxHeaderFetch : nat;
  fsHeaderForceVerify : nat
}.

Definition dl_vars : DlVars := {| cacheLimit := 8192; MaxHeaderFetch := 192; fsHeaderForceVerify := 24 |}.

(** ** Tasks *)

(** What a priority queue holds: the start of a batch of headers, or a header. *)
Inductive Task :=
| TFrom (from : Z)
| THeader (header : Header).

(** The roots of receipts and of empty lists. *)
Class DlLib := {
  DeriveSha_receipts : list ChainReceipt -> Hash;
  EmptyRootHash : Hash;
  EmptyUncleHash : Hash
}.

Inductive SyncMode := FullSync | FastSync | LightSync.

#[export] Instance SyncMode_eq_dec : EqDecision SyncMode.
Proof. solve_decision. Defined.

Inductive DlError :=
| errNoFetchesPending
| errStaleDelivery
| errInvalidChain
| errInvalidBody
| errInvalidReceipt
| errNotAccepted
| errPartial (e : DlError)
| errBusy
| errUnknownPeer
| errBadPeer
| errStallingPeer
| errNoPeers
| errTimeout
| errEmptyHeaderSet
| errPeersUnavailable
| errInvalidAncestor
| errCancel
| errTooOld
| errChain.

#[export] Instance DlError_eq_dec : EqDecision DlError.
Proof. solve_decision. Defined.

Section queue.
Context {KL : KvLib} {CL : CliqueLib} {TL : TxLib} {BL : ChainLib} {PL : PrqueLib Task} {DL : DlLib} {DV : DlVars}.

Record fetchRequest := mkFetchRequest {
  Peer : Z;
  From : Z;
  fr_Headers : list Header;
  fr_Time : Z
}.

Record fetchResult := mkFetchResult {
  Pending : Z;
  fr_Header : Header;
  Uncles : list Header;
  fr_Transactions : list Transaction;
  Receipts : list ChainReceipt
}.

(** The pools of one kind of content. *)
Record Track := mkTrack {
  taskPool : gmap Hash Header;
  taskQueue : Prque;
  pendPool : gmap string fetchRequest;
  donePool : gset Hash
}.

Definition empty_track : Track := mkTrack ∅ prque_New ∅ ∅.

Definition set_taskQueue (tq : Prque) (t : Track) : Track := mkTrack (taskPool t) tq (pendPool t) (donePool t).
Definition set_pendPool (m : gmap string fetchRequest) (t : Track) : Track := mkTrack (taskPool t) (taskQueue t) m (donePool t).

(** A task is finished. *)
Definition finish_task (hash : Hash) (t : Track) : Track :=
  mkTrack (delete hash (taskPool t)) (taskQueue t) (pendPool t) ({[hash]} ∪ donePool t).

(** The two kinds of content. *)
Inductive Content := Bodies | Receipts_.

#[export] Instance Content_eq_dec : EqDecision Content.
Proof. solve_decision. Defined.

(** The channel of a skeleton that is full: what is in it, and its capacity. *)
Record ContCh := mkContCh { cc_items : list bool; cc_cap : nat }.

Record queue := mkQueue {
  mode : SyncMode;
  fastSyncPivot : Z;
  headerHead : Hash;
  headerTaskPool : gmap Z Header;
  headerTaskQueue : option Prque;
  headerPeerMiss : gmap string (gset Z);
  headerPendPool : gmap string fetchRequest;
  headerResults : option (list (option Header));
  headerProced : Z;
  headerOffset : Z;
  headerContCh : ContCh;
  blocks : Track;
  receipts : Track;
  resultCache : list (option fetchResult);
  resultOffset : Z;
  closed : bool
}.

Definition track (k : Content) (q : queue) : Track := match k with Bodies => blocks q | Receipts_ => receipts q end.

Definition set_track (k : Content) (t : Track) (q : queue) : queue :=
  mkQueue (mode q) (fastSyncPivot q) (headerHead q) (headerTaskPool q) (headerTaskQueue q) (headerPeerMiss q)
    (headerPendPool q) (headerResults q) (headerProced q) (headerOffset q) (headerContCh q)
    (match k with Bodies => t | Receipts_ => blocks q end) (match k with Bodies => receipts q | Receipts_ => t end)
    (resultCache q) (resultOffset q) (closed q).

Definition set_cache (c : list (option fetchResult)) (q : queue) : queue :=
  mkQueue (mode q) (fastSyncPivot q) (headerHead q) (headerTaskPool q) (headerTaskQueue q) (headerPeerMiss q)
    (headerPendPool q) (headerResults q) (headerProced q) (headerOffset q) (headerContCh q) (blocks q) (receipts q)
    c (resultOffset q) (closed q).

Definition set_offset (n : Z) (q : queue) : queue :=
  mkQueue (mode q) (fastSyncPivot q) (headerHead q) (headerTaskPool q) (headerTaskQueue q) (headerPeerMiss q)
    (headerPendPool q) (headerResults q) (headerProced q) (headerOffset q) (headerContCh q) (blocks q) (receipts q)
    (resultCache q) n (closed q).

Definition set_headerHead (h : Hash) (q : queue) : queue :=
  mkQueue (mode q) (fastSyncPivot q) h (headerTaskPool q) (headerTaskQueue q) (headerPeerMiss q)
    (headerPendPool q) (headerResults q) (headerProced q) (headerOffset q) (headerContCh q) (blocks q) (receipts q)
    (resultCache q) (resultOffset q) (closed q).

(** The fields of the skeleton: pool, queue, misses, requests. *)
Definition set_skeleton (pool : gmap Z Header) (tq : option Prque) (miss : gmap string (gset Z)) (pend : gmap string fetchRequest)
    (q : queue) : queue :=
  mkQueue (mode q) (fastSyncPivot q) (headerHead q) pool tq miss pend (headerResults q) (headerProced q) (headerOffset q)
    (headerContCh q) (blocks q) (receipts q) (resultCache q) (resultOffset q) (closed q).

(** The results of the skeleton: headers, those handed on, the first number, the
    channel. *)
Definition set_filled (r : option (list (option Header))) (proced offset : Z) (ch : ContCh) (q : queue) : queue :=
  mkQueue (mode q) (fastSyncPivot q) (headerHead q) (headerTaskPool q) (headerTaskQueue q) (headerPeerMiss q)
    (headerPendPool q) r proced offset ch (blocks q) (receipts q) (resultCache q) (resultOffset q) (closed q).

Definition newQueue : queue :=
  mkQueue FullSync 0 0 ∅ None ∅ ∅ None 0 0 (mkContCh [] 0) empty_track empty_track (replicate cacheLimit None) 0 false.

Definition q_Reset (q : queue) : queue :=
  mkQueue FullSync 0 0 (headerTaskPool q) (headerTaskQueue q) (headerPeerMiss q) ∅ (headerResults q) (headerProced q)
    (headerOffset q) (headerContCh q) empty_track empty_track (replicate cacheLimit None) 0 false.

Definition Close (q : queue) : queue :=
  mkQueue (mode q) (fastSyncPivot q) (headerHead q) (headerTaskPool q) (headerTaskQueue q) (headerPeerMiss q)
    (headerPendPool q) (headerResults q) (headerProced q) (headerOffset q) (headerContCh q) (blocks q) (receipts q)
    (resultCache q) (resultOffset q) true.

Definition Prepare (offset : Z) (m : SyncMode) (pivot : Z) (q : queue) : queue :=
  mkQueue m pivot (headerHead q) (headerTaskPool q) (headerTaskQueue q) (headerPeerMiss q)
    (headerPendPool q) (headerResults q) (headerProced q) (headerOffset q) (headerContCh q) (blocks q) (receipts q)
    (resultCache q) (if resultOffset q <? offset then offset else resultOffset q) (closed q).

(** ** What is left *)

Definition prque_Empty (tq : Prque) : bool := prque_Size tq =? 0.

(** The queue of the skeleton is nil before the first one. *)
Definition PendingHeaders (q : queue) : outcome Z :=
  match headerTaskQueue q with Some tq => Ret (prque_Size tq) | None => Panic end.

Definition PendingContent (k : Content) (q : queue) : Z := prque_Size (taskQueue (track k q)).
Definition PendingBlocks := PendingContent Bodies.
Definition PendingReceipts := PendingContent Receipts_.

Definition InFlightHeaders (q : queue) : bool := 0 <? Z.of_nat (size (headerPendPool q)).
Definition InFlightContent (k : Content) (q : queue) : bool := 0 <? Z.of_nat (size (pendPool (track k q))).
Definition InFlightBlocks := InFlightContent Bodies.
Definition InFlightReceipts := InFlightContent Receipts_.

Definition Idle (q : queue) : bool :=
  let queued := prque_Size (taskQueue (blocks q)) + prque_Size (taskQueue (receipts q)) in
  let pending := Z.of_nat (size (pendPool (blocks q))) + Z.of_nat (size (pendPool (receipts q))) in
  let cached := Z.of_nat (size (donePool (blocks q))) + Z.of_nat (size (donePool (receipts q))) in
  queued + pending + cached =? 0.

(** The number of headers in flight. *)
Definition in_flight (t : Track) : Z :=
  Z.of_nat (length (mjoin (fr_Headers ∘ snd <$> map_to_list (pendPool t)))).

Definition ShouldThrottle (k : Content) (q : queue) : bool :=
  Z.of_nat (length (resultCache q)) - Z.of_nat (size (donePool (track k q))) <=? in_flight (track k q).
Definition ShouldThrottleBlocks := ShouldThrottle Bodies.
Definition ShouldThrottleReceipts := ShouldThrottle Receipts_.

(** ** Scheduling *)

Definition push_from (tq : Prque) (from : Z) : Prque := prque_Push tq (TFrom from) (- float32 from).

Definition push_header (tq : Prque) (header : Header) : outcome Prque :=
  n ← header_number header; Ret (prque_Push tq (THeader header) (- float32 n)).

Fixpoint push_headers (tq : Prque) (headers : list Header) : outcome Prque :=
  match headers with
  | [] => Ret tq
  | header :: rest => tq' ← push_header tq header; push_headers tq' rest
  end.

(** The tasks of a skeleton, from the [i]-th header on. *)
Fixpoint skeleton_tasks (from i : Z) (skeleton : list Header) (pool : gmap Z Header) (tq : Prque) : gmap Z Header * Prque :=
  match skeleton with
  | [] => (pool, tq)
  | header :: rest =>
      let index := u64 (from + u64 (i * Z.of_nat MaxHeaderFetch)) in
      skeleton_tasks from (i + 1) rest (<[index := header]> pool) (push_from tq index)
  end.

Definition ScheduleSkeleton (from : Z) (skeleton : list Header) (q : queue) : outcome queue :=
  match headerResults q with
  | Some _ => Panic
  | None =>
      let '(pool, tq) := skeleton_tasks from 0 skeleton ∅ prque_New in
      Ret (set_filled (Some (replicate (length skeleton * MaxHeaderFetch) None)) 0 from (mkContCh [] 1)
             (set_skeleton pool (Some tq) ∅ (headerPendPool q) q))
  end.

Definition RetrieveHeaders (q : queue) : option (list (option Header)) * Z * queue :=
  (headerResults q, headerProced q, set_filled None 0 (headerOffset q) (headerContCh q) q).

(** Whether a header comes in the fast phase of a fast synchronization. *)
Definition fast_phase (q : queue) (number : Z) : bool := bool_decide (mode q = FastSync) && (number <=? fastSyncPivot q).

(** A new task of a kind of content. *)
Definition add_task (k : Content) (header : Header) (q : queue) : outcome queue :=
  let t := track k q in
  tq ← push_header (taskQueue t) header;
  Ret (set_track k (mkTrack (<[Header_Hash header := header]> (taskPool t)) tq (pendPool t) (donePool t)) q).

Fixpoint Schedule (headers : list Header) (from : Z) (q : queue) : outcome (list Header * queue) :=
  match headers with
  | [] => Ret ([], q)
  | header :: rest =>
      let hash := Header_Hash header in
      match Number header with
      | None => Ret ([], q)
      | Some _ =>
          number ← header_number header;
          if negb (number =? from) then Ret ([], q)
          else if negb (headerHead q =? 0) && negb (headerHead q =? ParentHash header) then Ret ([], q)
          else if found (taskPool (blocks q) !! hash) then Schedule rest from q
          else if found (taskPool (receipts q) !! hash) then Schedule rest from q
          else
            q1 ← add_task Bodies header q;
            q2 ← (if fast_phase q number then add_task Receipts_ header q1 else Ret q1);
            r ← Schedule rest (u64 (from + 1)) (set_headerHead hash q2);
            Ret (header :: fst r, snd r)
      end
  end.

(** ** Results *)

(** The entries after the pivot that have to be there. *)
Definition pivot_verified (q : queue) (i : nat) : bool :=
  forallb (fun j => match resultCache q !! (i + j + 1)%nat with Some (Some _) => true | _ => false end)
    (seq 0 fsHeaderForceVerify).

Fixpoint count_from (q : queue) (i : nat) (cache : list (option fetchResult)) : outcome nat :=
  match cache with
  | [] => Ret i
  | None :: _ => Ret i
  | Some result :: rest =>
      if 0 <? Pending result then Ret i
      else if bool_decide (mode q = FastSync) then
        n ← header_number (fr_Header result);
        if (n =? fastSyncPivot q) && negb (pivot_verified q i) then Ret i else count_from q (S i) rest
      else count_from q (S i) rest
  end.

Definition countProcessableItems (q : queue) : outcome nat := count_from q 0 (resultCache q).

(** The results leave the pools. *)
Definition undo_done (results : list fetchResult) (t : Track) : Track :=
  mkTrack (taskPool t) (taskQueue t) (pendPool t) (donePool t ∖ list_to_set ((Header_Hash ∘ fr_Header) <$> results)).

(** The result is [None] when the call waits: nothing can be handed out and the
    queue is not closed. *)
Definition WaitResults (q : queue) : outcome (option (list fetchResult * queue)) :=
  nproc ← countProcessableItems q;
  if (Z.of_nat nproc =? 0) && negb (closed q) then Ret None
  else
    let results := omap id (take nproc (resultCache q)) in
    let q1 := set_track Receipts_ (undo_done results (receipts q)) (set_track Bodies (undo_done results (blocks q)) q) in
    Ret (Some (results,
      if Z.of_nat nproc =? 0 then q
      else set_offset (u64 (resultOffset q + Z.of_nat nproc))
             (set_cache (drop nproc (resultCache q) ++ replicate nproc None) q1))).

(** ** Reservations *)

(** [int(header.Number.Int64() - int64(q.resultOffset))]. *)
Definition cache_index (q : queue) (header : Header) : outcome Z :=
  n ← big_Int64 (Number header); Ret (i64 (n - i64 (resultOffset q))).

(** Batches the peer is known to miss are skipped. *)
Fixpoint pick_batch (fuel : nat) (missing : gset Z) (tq : Prque) (skip : list Z) : outcome (Z * list Z * Prque) :=
  if prque_Empty tq then Ret (0, skip, tq)
  else
    match fuel with
    | O => OutOfFuel
    | S f =>
        match prque_Pop tq with
        | Some (TFrom from, tq') =>
            if decide (from ∈ missing) then pick_batch f missing tq' (skip ++ [from])
            else if from =? 0 then pick_batch f missing tq' skip
            else Ret (from, skip, tq')
        | _ => Panic
        end
    end.

Definition ReserveHeaders (now p : Z) (id : string) (q : queue) : outcome (option fetchRequest * queue) :=
  match headerPendPool q !! id with
  | Some _ => Ret (None, q)
  | None =>
      match headerTaskQueue q with
      | None => Panic
      | Some tq =>
          r ← pick_batch (Z.to_nat (prque_Size tq)) (default ∅ (headerPeerMiss q !! id)) tq [];
          let '(send, skip, tq1) := r in
          let tq2 := foldl push_from tq1 skip in
          if send =? 0 then Ret (None, set_skeleton (headerTaskPool q) (Some tq2) (headerPeerMiss q) (headerPendPool q) q)
          else
            let request := mkFetchRequest p send [] now in
            Ret (Some request, set_skeleton (headerTaskPool q) (Some tq2) (headerPeerMiss q) (<[id := request]> (headerPendPool q)) q)
      end
  end.

(** The loop of a reservation: the queue, the free space, the tasks counted against
    it, the headers to send and to put back, and whether an empty part was finished. *)
Record Reserving := mkReserving {
  rv_queue : queue;
  space : Z;
  proc : Z;
  rv_send : list Header;
  rv_skip : list Header;
  progress : bool
}.

(** The result container of a header, new if this is the first request for it. *)
Definition container (q : queue) (header : Header) (number : Z) (entry : option fetchResult) : fetchResult :=
  match entry with
  | Some result => result
  | None => mkFetchResult (if fast_phase q number then 2 else 1) header [] [] []
  end.

Definition less_pending (r : fetchResult) : fetchResult :=
  mkFetchResult (Pending r - 1) (fr_Header r) (Uncles r) (fr_Transactions r) (Receipts r).

Definition isNoop (k : Content) (header : Header) : bool :=
  match k with
  | Bodies => (TxHash header =? EmptyRootHash) && (UncleHash header =? EmptyUncleHash)
  | Receipts_ => ReceiptHash header =? EmptyRootHash
  end.

(** One task; an index outside of the cache ends the reservation with an error. *)
Definition reserve_one (k : Content) (lacks : Hash -> bool) (header : Header) (s : Reserving) : outcome (Reserving + Reserving) :=
  let q := rv_queue s in
  index ← cache_index q header;
  if (Z.of_nat (length (resultCache q)) <=? index) || (index <? 0) then Ret (inr s)
  else
    number ← header_number header;
    let i := Z.to_nat index in
    let result := container q header number (mjoin (resultCache q !! i)) in
    if isNoop k header then
      let q1 := set_cache (<[i := Some (less_pending result)]> (resultCache q)) q in
      let q2 := set_track k (finish_task (Header_Hash header) (track k q1)) q1 in
      Ret (inl (mkReserving q2 (space s - 1) (proc s) (rv_send s) (rv_skip s) true))
    else
      let q1 := set_cache (<[i := Some result]> (resultCache q)) q in
      if lacks (Header_Hash header)
      then Ret (inl (mkReserving q1 (space s) (proc s + 1) (rv_send s) (rv_skip s ++ [header]) (progress s)))
      else Ret (inl (mkReserving q1 (space s) (proc s + 1) (rv_send s ++ [header]) (rv_skip s) (progress s))).

Fixpoint reserve_loop (fuel : nat) (k : Content) (lacks : Hash -> bool) (count : Z) (s : Reserving) : outcome (Reserving + Reserving) :=
  let tq := taskQueue (track k (rv_queue s)) in
  if (proc s <? space s) && (Z.of_nat (length (rv_send s)) <? count) && negb (prque_Empty tq) then
    match fuel with
    | O => OutOfFuel
    | S f =>
        match prque_Pop tq with
        | Some (THeader header, tq') =>
            let q1 := set_track k (set_taskQueue tq' (track k (rv_queue s))) (rv_queue s) in
            r ← reserve_one k lacks header (mkReserving q1 (space s) (proc s) (rv_send s) (rv_skip s) (progress s));
            match r with
            | inl s' => reserve_loop f k lacks count s'
            | inr s' => Ret (inr s')
            end
        | _ => Panic
        end
    end
  else Ret (inl s).

Definition reserveHeaders (k : Content) (now p : Z) (id : string) (lacks : Hash -> bool) (count : Z) (q : queue)
    : outcome (option fetchRequest * bool * option DlError * queue) :=
  let t := track k q in
  if prque_Empty (taskQueue t) then Ret (None, false, None, q)
  else
    match pendPool t !! id with
    | Some _ => Ret (None, false, None, q)
    | None =>
        let room := Z.of_nat (length (resultCache q)) - Z.of_nat (size (donePool t)) - in_flight t in
        r ← reserve_loop (Z.to_nat (prque_Size (taskQueue t))) k lacks count (mkReserving q room 0 [] [] false);
        match r with
        | inr s => Ret (None, false, Some errInvalidChain, rv_queue s)
        | inl s =>
            let q1 := rv_queue s in
            tq ← push_headers (taskQueue (track k q1)) (rv_skip s);
            let q2 := set_track k (set_taskQueue tq (track k q1)) q1 in
            match rv_send s with
            | [] => Ret (None, progress s, None, q2)
            | send =>
                let request := mkFetchRequest p 0 send now in
                Ret (Some request, progress s, None, set_track k (set_pendPool (<[id := request]> (pendPool (track k q2))) (track k q2)) q2)
            end
        end
    end.

Definition ReserveBodies := reserveHeaders Bodies.
Definition ReserveReceipts := reserveHeaders Receipts_.

(** ** Requests that end without a delivery *)

(** The tasks of a request go back. *)
Definition give_back (request : fetchRequest) (tq : Prque) : outcome Prque :=
  push_headers (if 0 <? From request then push_from tq (From request) else tq) (fr_Headers request).

Definition cancel (id : string) (request : fetchRequest) (tq : Prque) (pend : gmap string fetchRequest)
    : outcome (Prque * gmap string fetchRequest) :=
  tq' ← give_back request tq; Ret (tq', delete id pend).

Definition CancelHeaders (id : string) (request : fetchRequest) (q : queue) : outcome queue :=
  match headerTaskQueue q with
  | None => Panic
  | Some tq =>
      r ← cancel id request tq (headerPendPool q);
      Ret (set_skeleton (headerTaskPool q) (Some (fst r)) (headerPeerMiss q) (snd r) q)
  end.

Definition CancelContent (k : Content) (id : string) (request : fetchRequest) (q : queue) : outcome queue :=
  let t := track k q in
  r ← cancel id request (taskQueue t) (pendPool t);
  Ret (set_track k (mkTrack (taskPool t) (fst r) (snd r) (donePool t)) q).
Definition CancelBodies := CancelContent Bodies.
Definition CancelReceipts := CancelContent Receipts_.

(** The requests of a peer for one kind of content go back. *)
Definition revoke_content (k : Content) (id : string) (q : queue) : outcome queue :=
  let t := track k q in
  match pendPool t !! id with
  | None => Ret q
  | Some request =>
      tq ← push_headers (taskQueue t) (fr_Headers request);
      Ret (set_track k (mkTrack (taskPool t) tq (delete id (pendPool t)) (donePool t)) q)
  end.

Definition Revoke (id : string) (q : queue) : outcome queue :=
  q1 ← revoke_content Bodies id q; revoke_content Receipts_ id q1.

Section expire.
Context {MO : MapOrder string fetchRequest}.

(** [now id] is the time when the request of the peer is looked at. *)
Fixpoint expire_each (timeout : Z) (now : string -> Z) (l : list (string * fetchRequest)) (tq : Prque) (expiries : gmap string Z)
    : outcome (Prque * gmap string Z) :=
  match l with
  | [] => Ret (tq, expiries)
  | (id, request) :: rest =>
      if timeout <? now id - fr_Time request then
        tq' ← give_back request tq;
        expire_each timeout now rest tq' (<[id := Z.of_nat (length (fr_Headers request))]> expiries)
      else expire_each timeout now rest tq expiries
  end.

Definition expire (timeout : Z) (now : string -> Z) (pend : gmap string fetchRequest) (tq : Prque)
    : outcome (gmap string Z * gmap string fetchRequest * Prque) :=
  r ← expire_each timeout now (range pend) tq (∅ : gmap string Z);
  Ret (snd r, foldr (fun e m => delete e.1 m) pend (map_to_list (snd r)), fst r).

Definition ExpireHeaders (timeout : Z) (now : string -> Z) (q : queue) : outcome (gmap string Z * queue) :=
  match headerTaskQueue q, map_to_list (headerPendPool q) with
  | None, [] => Ret (∅, q)
  | None, _ => Panic
  | Some tq, _ =>
      r ← expire timeout now (headerPendPool q) tq;
      let '(expiries, pend, tq') := r in
      Ret (expiries, set_skeleton (headerTaskPool q) (Some tq') (headerPeerMiss q) pend q)
  end.

Definition ExpireContent (k : Content) (timeout : Z) (now : string -> Z) (q : queue) : outcome (gmap string Z * queue) :=
  let t := track k q in
  r ← expire timeout now (pendPool t) (taskQueue t);
  let '(expiries, pend, tq') := r in
  Ret (expiries, set_track k (mkTrack (taskPool t) tq' pend (donePool t)) q).
Definition ExpireBodies := ExpireContent Bodies.
Definition ExpireReceipts := ExpireContent Receipts_.

End expire.

(** ** Deliveries *)

(** Whether the headers of a batch have the numbers after [number] and the hashes
    their successors name; [prev] is the header before them. *)
Fixpoint chained (number : Z) (prev : Header) (headers : list Header) : outcome bool :=
  match headers with
  | [] => Ret true
  | header :: rest =>
      n ← header_number header;
      if negb (n =? u64 (number + 1)) then Ret false
      else if negb (Header_Hash prev =? ParentHash header) then Ret false
      else chained (u64 (number + 1)) header rest
  end.

(** Whether a delivery fills the batch [from] of the skeleton: its size, its first
    number, its last hash and its order. *)
Definition fills (from : Z) (target : Hash) (headers : list Header) : outcome bool :=
  if negb (Nat.eqb (length headers) MaxHeaderFetch) then Ret false
  else
    match headers with
    | [] => Panic
    | first :: rest =>
        n ← header_number first;
        if negb (n =? from) then Ret false
        else if negb (Header_Hash (List.last rest first) =? target) then Ret false
        else chained from first rest
    end.

(** [copy(q.headerResults[i:], headers)]. *)
Definition copy_at (i : nat) (headers : list Header) (results : list (option Header)) : outcome (list (option Header)) :=
  if Nat.ltb (length results) i then Panic
  else Ret (take i results ++ take (length results - i) ((Some <$> headers) ++ drop (i + length headers) results)).

(** The number of headers that can be handed on, counted in batches. *)
Fixpoint ready_from (fuel : nat) (results : list (option Header)) (i : nat) : outcome nat :=
  match results !! i with
  | Some (Some _) =>
      match fuel with
      | O => OutOfFuel
      | S f => r ← ready_from f results (i + MaxHeaderFetch)%nat; Ret (MaxHeaderFetch + r)%nat
      end
  | _ => Ret 0%nat
  end.

(** A send on the channel, which never returns when the channel is full: its reader is
    the caller. *)
Definition cont_send (ch : ContCh) : outcome ContCh :=
  if Nat.ltb (length (cc_items ch)) (cc_cap ch) then Ret (mkContCh (cc_items ch ++ [false]) (cc_cap ch)) else OutOfFuel.

(** The end is signalled when no batch is left. *)
Definition signal_end (pool : gmap Z Header) (ch : ContCh) : outcome ContCh := if decide (pool = ∅) then cont_send ch else Ret ch.

(** What a batch that was not accepted leaves. *)
Definition reject_batch (id : string) (from : Z) (tq : Prque) (pend : gmap string fetchRequest) (q : queue) : queue :=
  set_skeleton (headerTaskPool q) (Some (push_from tq from))
    (<[id := {[from]} ∪ default ∅ (headerPeerMiss q !! id)]> (headerPeerMiss q)) pend q.

(** What an accepted one leaves, and the headers handed on to the processor; [idle]
    is whether the processor takes them at once. *)
Definition accept_batch (from : Z) (headers : list Header) (idle : bool) (tq : Prque) (pend : gmap string fetchRequest) (q : queue)
    : outcome (option (list (option Header)) * queue) :=
  results ← copy_at (Z.to_nat (u64 (from - headerOffset q))) headers (default [] (headerResults q));
  let pool := delete from (headerTaskPool q) in
  let start := Z.to_nat (headerProced q) in
  ready ← ready_from (length results) results start;
  let hand := Nat.ltb 0 ready && idle in
  let process := take ready (drop start results) in
  if Nat.ltb 0 ready && Nat.ltb (length results) (start + ready) then Panic
  else
    ch ← signal_end pool (headerContCh q);
    Ret (if hand then Some process else None,
         set_filled (Some results) (if hand then headerProced q + Z.of_nat ready else headerProced q) (headerOffset q) ch
           (set_skeleton pool (Some tq) (headerPeerMiss q) pend q)).

Definition q_DeliverHeaders (id : string) (headers : list Header) (idle : bool) (q : queue)
    : outcome (Z * option DlError * option (list (option Header)) * queue) :=
  match headerPendPool q !! id with
  | None => Ret (0, Some errNoFetchesPending, None, q)
  | Some request =>
      let pend := delete id (headerPendPool q) in
      let from := From request in
      match headerTaskPool q !! from, headerTaskQueue q with
      | Some target, Some tq =>
          ok ← fills from (Header_Hash target) headers;
          if ok : bool then
            r ← accept_batch from headers idle tq pend q;
            Ret (Z.of_nat (length headers), None, fst r, snd r)
          else Ret (0, Some errNotAccepted, None, reject_batch id from tq pend q)
      | _, _ => Panic
      end
  end.

(** The parts of a block that a delivery brings: [reconstruct]. *)
Inductive Parts :=
| BodyParts (txLists : list (list Transaction)) (uncleLists : list (list Header))
| ReceiptParts (receiptList : list (list ChainReceipt)).

Definition content_of (ps : Parts) : Content := match ps with BodyParts _ _ => Bodies | ReceiptParts _ => Receipts_ end.
Definition parts_length (ps : Parts) : nat := match ps with BodyParts l _ => length l | ReceiptParts l => length l end.

Definition reconstruct (ps : Parts) (header : Header) (index : nat) (result : fetchResult) : outcome (fetchResult + DlError) :=
  match ps with
  | BodyParts txLists uncleLists =>
      match txLists !! index with
      | None => Panic
      | Some txs =>
          if negb (DeriveSha_block txs =? TxHash header) then Ret (inr errInvalidBody)
          else
            match uncleLists !! index with
            | None => Panic
            | Some uncles =>
                if negb (CalcUncleHash uncles =? UncleHash header) then Ret (inr errInvalidBody)
                else Ret (inl (mkFetchResult (Pending result) (fr_Header result) uncles txs (Receipts result)))
            end
      end
  | ReceiptParts receiptList =>
      match receiptList !! index with
      | None => Panic
      | Some rs =>
          if negb (DeriveSha_receipts rs =? ReceiptHash header) then Ret (inr errInvalidReceipt)
          else Ret (inl (mkFetchResult (Pending result) (fr_Header result) (Uncles result) (fr_Transactions result) rs))
      end
  end.

(** The assembly of the results, from the [i]-th header of the request on: the queue,
    the headers that are left, the number accepted and the failure. *)
Fixpoint assemble (ps : Parts) (i : nat) (headers : list Header) (q : queue) : outcome (queue * list Header * Z * option DlError) :=
  match headers with
  | [] => Ret (q, [], Z.of_nat i, None)
  | header :: rest =>
      if Nat.leb (parts_length ps) i then Ret (q, headers, Z.of_nat i, None)
      else
        index ← cache_index q header;
        match (if index <? 0 then None else mjoin (resultCache q !! Z.to_nat index)) with
        | None => Ret (q, headers, Z.of_nat i, Some errInvalidChain)
        | Some result =>
            r ← reconstruct ps header i result;
            match r with
            | inr e => Ret (q, headers, Z.of_nat i, Some e)
            | inl result' =>
                let k := content_of ps in
                let q1 := set_cache (<[Z.to_nat index := Some (less_pending result')]> (resultCache q)) q in
                assemble ps (S i) rest (set_track k (finish_task (Header_Hash header) (track k q1)) q1)
            end
        end
  end.

(** The error of a delivery. *)
Definition delivery_error (accepted : Z) (failure : option DlError) : option DlError :=
  match failure with
  | None => None
  | Some errInvalidChain => Some errInvalidChain
  | Some e => if 0 <? accepted then Some (errPartial e) else Some errStaleDelivery
  end.

(** The queue and the peers. *)
Record Dl := mkDl { dl_queue : queue; dl_peers : peerSet }.

Definition on_queue {A : Type} (f : queue -> outcome (A * queue)) : go Dl A :=
  fun d => match f (dl_queue d) with
           | Ret (a, q) => Ret (a, mkDl q (dl_peers d))
           | Panic => Panic
           | OutOfFuel => OutOfFuel
           end.

Definition on_peers {A : Type} (c : go peerSet A) : go Dl A :=
  fun d => match c (dl_peers d) with
           | Ret (a, ps) => Ret (a, mkDl (dl_queue d) ps)
           | Panic => Panic
           | OutOfFuel => OutOfFuel
           end.

Section deliver.
Context {MO : MapOrder Hash unit}.

Definition q_deliver (id : string) (ps : Parts) : go Dl (Z * option DlError) :=
  let k := content_of ps in
  d ← gget;
  let t := track k (dl_queue d) in
  match pendPool t !! id with
  | None => mret (0, Some errNoFetchesPending)
  | Some request =>
      _ ← on_queue (fun q => Ret (tt, set_track k (set_pendPool (delete id (pendPool t)) t) q));
      _ ← (if Nat.eqb (parts_length ps) 0
           then for_each (fun _ header => on_peers (on_conn (Peer request) (MarkLacking (Header_Hash header)))) tt (fr_Headers request)
           else mret tt);
      r ← on_queue (fun q =>
            r ← assemble ps 0 (fr_Headers request) q;
            let '(q1, rest, accepted, failure) := r in
            tq ← push_headers (taskQueue (track k q1)) rest;
            Ret ((accepted, failure), set_track k (set_taskQueue tq (track k q1)) q1));
      mret (fst r, delivery_error (fst r) (snd r))
  end.

Definition q_DeliverBodies (id : string) (txLists : list (list Transaction)) (uncleLists : list (list Header)) : go Dl (Z * option DlError) :=
  q_deliver id (BodyParts txLists uncleLists).

Definition q_DeliverReceipts (id : string) (receiptList : list (list ChainReceipt)) : go Dl (Z * option DlError) :=
  q_deliver id (ReceiptParts receiptList).

End deliver.

End queue.
