(* ===== verification/DlQueueProps.v ===== *)
(** * Theorems on the download queue

    The invariant of a queue ([core]): every scheduled header that was not handed out
    is, for each kind of content it needs, in exactly one place, the task queue, a
    request in flight, or the finished ones; the result cache has the entry of the
    [i]-th such header at [i], with the number of parts that are missing, and the
    parts that are there have the roots of the header.  All operations keep it,
    whatever the peers deliver; results are handed out in the order of the chain. *)
From S2P Require Import Prelude GoMonad Clique TxList ChainDb HeaderChain HeaderChainProps BlockChain Prque DlPeer DlQueue.
Local Open Scope Z_scope.

(** The roots of empty lists. *)
Class DlLaws {KL : KvLib} {CL : CliqueLib} {TL : TxLib} {BL : ChainLib} {DL : DlLib} : Prop := {
  no_transactions : DeriveSha_block [] = EmptyRootHash;
  no_uncles_hash : CalcUncleHash [] = EmptyUncleHash;
  no_receipts : DeriveSha_receipts [] = EmptyRootHash
}.

(** What a header is counted with; a header from the wire has no negative number. *)
Definition num (h : Header) : Z := match header_number h with Ret n => n | _ => 0 end.
Definition nonneg (h : Header) : Prop := forall z, Number h = Some z -> 0 <= z.

Lemma number_int64 h n : header_number h = Ret n -> nonneg h -> n < 9223372036854775808 -> big_Int64 (Number h) = Ret n.
Proof.
  unfold header_number, big_Uint64, big_Int64, nonneg. destruct (Number h) as [z|]; [|done]. intros [= <-] Hz Hlt.
  specialize (Hz z eq_refl). destruct (Z.ltb_spec z 0); [lia|]. f_equal. unfold i64.
  destruct (Z.ltb_spec (u64 (Z.abs z)) 9223372036854775808); lia.
Qed.

Lemma num_number h n : header_number h = Ret n -> num h = n.
Proof. unfold num. by intros ->. Qed.

(** Without one element. *)
Lemma filter_remove {A : Type} `{EqDecision A} (P Q : A -> Prop) `{!forall x, Decision (P x), !forall x, Decision (Q x)} (l : list A) h :
  NoDup l -> h ∈ l -> P h -> (forall x, x ∈ l -> Q x <-> P x /\ x <> h) -> filter P l ≡ₚ h :: filter Q l.
Proof.
  intros Hnd Hin HP HQ. apply NoDup_Permutation.
  - by apply NoDup_filter.
  - constructor; [|by apply NoDup_filter]. rewrite list_elem_of_filter. intros [HQh _]. apply HQ in HQh; [|done]. naive_solver.
  - intros x. rewrite elem_of_cons, !list_elem_of_filter. split.
    + intros [HPx Hx]. destruct (decide (x = h)); [by left|right]. split; [|done]. by apply HQ.
    + intros [->|[HQx Hx]]; [done|]. apply HQ in HQx; [|done]. naive_solver.
Qed.

Lemma filter_keep {A : Type} (P Q : A -> Prop) `{!forall x, Decision (P x), !forall x, Decision (Q x)} (l : list A) :
  (forall x, x ∈ l -> P x <-> Q x) -> filter P l = filter Q l.
Proof.
  induction l as [|x l IH]; intros Hpq; [done|]. rewrite !filter_cons. rewrite IH by set_solver.
  assert (Hx : P x <-> Q x) by set_solver. destruct (decide (P x)), (decide (Q x)); naive_solver.
Qed.

#[export] Instance Header_eq_dec : EqDecision Header.
Proof. solve_decision. Defined.

Section queue.
Context {KL : KvLib} {CL : CliqueLib} {TL : TxLib} {BL : ChainLib} {PL : PrqueLib Task} {DL : DlLib} {DV : DlVars}.
Context {CLaws : HeaderLaws} {PLaws : PrqueLaws} {DLaws : DlLaws}.

(** ** Task queues *)

(** The item of a header. *)
Definition item (h : Header) : Task * Z := (THeader h, - float32 (num h)).

(** The queue has the items of exactly these headers. *)
Definition holds (tq : Prque) (hs : list Header) : Prop := prque_items tq ≡ₚ item <$> hs.

Definition counted (h : Header) : Prop := exists n, header_number h = Ret n.

Lemma holds_perm tq hs hs' : hs ≡ₚ hs' -> holds tq hs -> holds tq hs'.
Proof. unfold holds. by intros <-. Qed.

Lemma push_header_run tq h hs : counted h -> holds tq hs -> exists tq', push_header tq h = Ret tq' /\ holds tq' (h :: hs).
Proof.
  intros [n En] Hh. unfold push_header. rewrite En. cbn [mbind outcome_bind]. eexists. split; [done|].
  unfold holds. rewrite items_Push. cbn. rewrite <- Hh. unfold item. by rewrite (num_number h n En).
Qed.

Lemma push_headers_run l : forall tq hs, Forall counted l -> holds tq hs -> exists tq', push_headers tq l = Ret tq' /\ holds tq' (l ++ hs).
Proof.
  induction l as [|h l IH]; intros tq hs Hl Hh; cbn [push_headers]; [eauto|]. inversion Hl as [|? ? H1 H2]; subst.
  destruct (push_header_run tq h hs H1 Hh) as (tq1 & -> & Hh1). cbn [mbind outcome_bind].
  destruct (IH tq1 (h :: hs) H2 Hh1) as (tq2 & E & Hh2). exists tq2. split; [done|].
  eapply holds_perm; [|exact Hh2]. cbn. by rewrite Permutation_middle.
Qed.

Lemma holds_size tq hs : holds tq hs -> prque_Size tq = Z.of_nat (length hs).
Proof. intros Hh. rewrite items_Size, Hh. by rewrite length_fmap. Qed.

Lemma holds_empty tq hs : holds tq hs -> prque_Empty tq = match hs with [] => true | _ => false end.
Proof. intros Hh. unfold prque_Empty. rewrite (holds_size tq hs Hh). destruct hs; cbn; [done|]. by apply Z.eqb_neq. Qed.

(** The header with the least number, as far as priorities tell. *)
Lemma holds_pop tq hs : holds tq hs -> hs <> [] ->
  exists h hs' tq', prque_Pop tq = Some (THeader h, tq') /\ hs ≡ₚ h :: hs' /\ holds tq' hs' /\
    forall x, x ∈ hs -> float32 (num h) <= float32 (num x).
Proof.
  intros Hh Hne. destruct (prque_Pop tq) as [[x tq']|] eqn:E.
  - destruct (items_Pop tq x tq' E) as (p & Hp & Hmax). unfold holds in Hh.
    assert (Hin : (x, p) ∈ item <$> hs) by (rewrite <- Hh, Hp; left).
    apply list_elem_of_fmap in Hin as (h & Eh & Hin). injection Eh as -> ->.
    apply elem_of_Permutation in Hin as [hs' Hperm]. exists h, hs', tq'. split; [done|]. split; [done|]. split.
    + unfold holds. apply (Permutation_cons_inv (a := item h)). change (item h :: (item <$> hs')) with (item <$> (h :: hs')).
      rewrite <- Hperm, <- Hh. by rewrite Hp.
    + intros y Hy. specialize (Hmax (item y)). cbn in Hmax. enough (- float32 (num y) <= - float32 (num h)) by lia. apply Hmax.
      rewrite Hh. by apply list_elem_of_fmap_2.
  - apply items_Pop_None in E. unfold holds in Hh. rewrite E in Hh. by apply Permutation_nil, fmap_nil_inv in Hh.
Qed.

Lemma holds_unique tq hs hs' : holds tq hs -> holds tq hs' -> hs ≡ₚ hs'.
Proof.
  unfold holds. intros E1 E2. rewrite E1 in E2.
  apply (omap_Permutation (fun e : Task * Z => match e.1 with THeader h => Some h | TFrom _ => None end)) in E2.
  assert (Hid : forall x : list Header, omap (M := list) (fun e : Task * Z => match e.1 with THeader h => Some h | TFrom _ => None end) (item <$> x) = x).
  { induction x as [|h x IH]; [done|]. cbn. by rewrite IH. }
  by rewrite !Hid in E2.
Qed.

(** ** The invariant *)

(** Whether a header needs a kind of content, and whether it is still missing. *)
Definition needs (q : queue) (k : Content) (h : Header) : bool :=
  match k with Bodies => true | Receipts_ => fast_phase q (num h) end.

Definition missing (q : queue) (k : Content) (h : Header) : Prop :=
  needs q k h = true /\ Header_Hash h ∉ donePool (track k q).

#[global] Instance missing_dec q k h : Decision (missing q k h).
Proof. unfold missing. apply _. Defined.

Definition waiting (q : queue) (k : Content) (l : list Header) : list Header := filter (missing q k) l.

(** The headers of the requests in flight. *)
Definition flying (t : Track) : list Header := mjoin (fr_Headers ∘ snd <$> map_to_list (pendPool t)).

(** A part of a result has the root of the header, or is not there. *)
Definition good (k : Content) (h : Header) (r : fetchResult) : Prop :=
  match k with
  | Bodies => DeriveSha_block (fr_Transactions r) = TxHash h /\ CalcUncleHash (Uncles r) = UncleHash h
  | Receipts_ => DeriveSha_receipts (Receipts r) = ReceiptHash h
  end.

Definition blank (k : Content) (r : fetchResult) : Prop :=
  match k with Bodies => fr_Transactions r = [] /\ Uncles r = [] | Receipts_ => Receipts r = [] end.

Definition owed (q : queue) (k : Content) (h : Header) : Z := if decide (missing q k h) then 1 else 0.

Record entry_ok (q : queue) (h : Header) (r : fetchResult) : Prop := {
  eo_header : fr_Header r = h;
  eo_pending : Pending r = owed q Bodies h + owed q Receipts_ h;
  eo_good k : Header_Hash h ∈ donePool (track k q) -> good k h r;
  eo_blank k : Header_Hash h ∉ donePool (track k q) -> blank k r
}.

(** [l] are the headers that were scheduled and not handed out, [X k] those of them
    that an operation has in its hands. *)
Record core (X : Content -> list Header) (l : list Header) (q : queue) : Prop := {
  c_offset : 0 <= resultOffset q /\ resultOffset q + Z.of_nat (length l) < 9223372036854775808;
  c_number i h : l !! i = Some h -> header_number h = Ret (resultOffset q + Z.of_nat i) /\ nonneg h;
  c_split k : exists hs, holds (taskQueue (track k q)) hs /\ hs ++ X k ++ flying (track k q) ≡ₚ waiting q k l;
  c_done k hash : hash ∈ donePool (track k q) -> exists h, h ∈ l /\ needs q k h = true /\ Header_Hash h = hash;
  c_pool k hash h : taskPool (track k q) !! hash = Some h -> Header_Hash h = hash /\ h ∈ l /\ missing q k h;
  c_entry i r : resultCache q !! i = Some (Some r) -> exists h, l !! i = Some h /\ entry_ok q h r;
  c_alloc k i h : l !! i = Some h ->
    Header_Hash h ∈ donePool (track k q) \/ h ∈ X k \/ h ∈ flying (track k q) -> exists r, resultCache q !! i = Some (Some r);
  c_from k id r : pendPool (track k q) !! id = Some r -> From r = 0
}.

(** The hands for one kind of content. *)
Definition hand (k : Content) (x : list Header) (X : Content -> list Header) : Content -> list Header :=
  fun k' => if decide (k' = k) then x else X k'.

Lemma hand_same k x X : hand k x X k = x.
Proof. unfold hand. by rewrite decide_True. Qed.

Lemma hand_other k k' x X : k' <> k -> hand k x X k' = X k'.
Proof. intros. unfold hand. by rewrite decide_False. Qed.

Lemma track_same k t q : track k (set_track k t q) = t.
Proof. by destruct k. Qed.

Lemma track_other k k' t q : k' <> k -> track k' (set_track k t q) = track k' q.
Proof. by destruct k, k'. Qed.

Lemma track_cache k c q : track k (set_cache c q) = track k q.
Proof. by destruct k. Qed.

Section core.
Context (X : Content -> list Header) (l : list Header) (q : queue) (Hc : core X l q).

Lemma core_counted h : h ∈ l -> counted h.
Proof. intros [i Hi]%list_elem_of_lookup. eexists. by apply (c_number _ _ _ Hc i h). Qed.

Lemma core_num i h : l !! i = Some h -> num h = resultOffset q + Z.of_nat i.
Proof. intros Hi. by apply num_number, (c_number _ _ _ Hc i h). Qed.

Lemma core_nodup : NoDup l.
Proof.
  apply NoDup_alt. intros i j h Hi Hj. pose proof (core_num i h Hi). pose proof (core_num j h Hj). lia.
Qed.

Lemma core_hash h h' : h ∈ l -> h' ∈ l -> Header_Hash h = Header_Hash h' -> h = h'.
Proof. intros _ _. apply hash_inj. Qed.

Lemma core_index i h : l !! i = Some h -> cache_index q h = Ret (Z.of_nat i).
Proof.
  intros Hi. destruct (c_number _ _ _ Hc i h Hi) as [En Hnn]. destruct (c_offset _ _ _ Hc) as [H0 Hb].
  pose proof (lookup_lt_Some _ _ _ Hi). unfold cache_index. rewrite (number_int64 h _ En Hnn) by lia. cbn [mbind outcome_bind].
  rewrite (i64_small (resultOffset q)), (i64_small (_ - _)) by lia. f_equal. lia.
Qed.

Lemma waiting_in k h : h ∈ waiting q k l -> h ∈ l /\ missing q k h.
Proof. unfold waiting. rewrite list_elem_of_filter. tauto. Qed.

Lemma hands_waiting k h : h ∈ X k -> h ∈ l /\ missing q k h.
Proof.
  intros Hh. destruct (c_split _ _ _ Hc k) as (hs & _ & Hp). apply waiting_in. rewrite <- Hp. set_solver.
Qed.

Lemma flying_waiting k h : h ∈ flying (track k q) -> h ∈ l /\ missing q k h.
Proof.
  intros Hh. destruct (c_split _ _ _ Hc k) as (hs & _ & Hp). apply waiting_in. rewrite <- Hp. set_solver.
Qed.

Lemma queued_waiting k hs h : holds (taskQueue (track k q)) hs -> h ∈ hs -> h ∈ l /\ missing q k h.
Proof.
  intros Hh Hin. destruct (c_split _ _ _ Hc k) as (hs' & Hh' & Hp). apply waiting_in. rewrite <- Hp. apply elem_of_app. left.
  unfold holds in Hh, Hh'. assert (Hi : item h ∈ item <$> hs') by (rewrite <- Hh', Hh; by apply list_elem_of_fmap_2).
  apply list_elem_of_fmap in Hi as (h' & [= E _] & Hi). by subst.
Qed.

End core.

(** ** Steps on the pools *)

(** A track keeps its done headers, and the rest of the queue is the same. *)
Definition same_done (q q' : queue) : Prop :=
  mode q' = mode q /\ fastSyncPivot q' = fastSyncPivot q /\ resultOffset q' = resultOffset q /\ resultCache q' = resultCache q /\
  forall k, donePool (track k q') = donePool (track k q) /\ taskPool (track k q') = taskPool (track k q).

Lemma needs_same q q' k h : mode q' = mode q -> fastSyncPivot q' = fastSyncPivot q -> needs q' k h = needs q k h.
Proof. intros E1 E2. destruct k; [done|]. unfold needs, fast_phase. by rewrite E1, E2. Qed.

Lemma missing_same q q' k h : mode q' = mode q -> fastSyncPivot q' = fastSyncPivot q -> donePool (track k q') = donePool (track k q) ->
  missing q' k h <-> missing q k h.
Proof. intros E1 E2 E3. unfold missing. by rewrite (needs_same q q'), E3. Qed.

Lemma owed_same q q' k h : (missing q' k h <-> missing q k h) -> owed q' k h = owed q k h.
Proof. intros E. unfold owed. destruct (decide (missing q' k h)), (decide (missing q k h)); tauto. Qed.

Lemma waiting_same q q' k l : (forall h, h ∈ l -> missing q' k h <-> missing q k h) -> waiting q' k l = waiting q k l.
Proof. apply filter_keep. Qed.

Lemma entry_same q q' h r : same_done q q' -> entry_ok q h r -> entry_ok q' h r.
Proof.
  intros (E1 & E2 & _ & _ & E3) [H1 H2 H3 H4]. split; [done| |intros k; rewrite (proj1 (E3 k)); auto..].
  rewrite H2. f_equal; symmetry; apply owed_same, missing_same; try done; apply E3.
Qed.

(** Tasks move between the task queue, the hands of an operation and the requests. *)
Lemma core_move X X' l q q' : core X l q -> same_done q q' ->
  (forall k, exists hs hs', holds (taskQueue (track k q)) hs /\ holds (taskQueue (track k q')) hs' /\
     hs' ++ X' k ++ flying (track k q') ≡ₚ hs ++ X k ++ flying (track k q)) ->
  (forall k h, h ∈ l -> h ∈ X' k \/ h ∈ flying (track k q') -> exists i r, l !! i = Some h /\ resultCache q !! i = Some (Some r)) ->
  (forall k id r, pendPool (track k q') !! id = Some r -> From r = 0) ->
  core X' l q'.
Proof.
  intros [H1 H2 H3 H4 H5 H6 H7 H8] Hs Hm Ha Hfrom. pose proof Hs as (E1 & E2 & E3 & E4 & E5). split.
  - by rewrite E3.
  - intros i h Hi. rewrite E3. auto.
  - intros k. destruct (Hm k) as (hs & hs' & Hh & Hh' & Hp). exists hs'. split; [done|]. rewrite Hp.
    destruct (H3 k) as (hs0 & Hh0 & Hp0). rewrite (waiting_same q q') by (intros; apply missing_same; try done; apply E5). rewrite <- Hp0.
    apply Permutation_app_tail. by apply (holds_unique (taskQueue (track k q))).
  - intros k hash. rewrite (proj1 (E5 k)). intros (h & Hin & Hn & Eh)%H4. exists h. by rewrite (needs_same q q').
  - intros k hash h. rewrite (proj2 (E5 k)). intros (? & ? & Hm5)%H5. split; [done|]. split; [done|].
    apply (missing_same q q'); try done. apply E5.
  - intros i r. rewrite E4. intros (h & Hi & He)%H6. exists h. split; [done|]. by eapply entry_same.
  - intros k i h Hi. rewrite (proj1 (E5 k)), E4. intros [Hd|Hor]; [eauto|].
    destruct (Ha k h) as (j & r & Hj & Er); [by eapply list_elem_of_lookup_2|done|].
    rewrite (proj1 (NoDup_alt l) (core_nodup X l q (Build_core _ _ _ H1 H2 H3 H4 H5 H6 H7 H8)) i j h Hi Hj). eauto.
  - exact Hfrom.
Qed.

(** ** Steps on the cache *)

Lemma not_allocated X l q i h k : core X l q -> l !! i = Some h -> mjoin (resultCache q !! i) = None -> Header_Hash h ∉ donePool (track k q).
Proof. intros Hc Hi Hn Hd. destruct (c_alloc _ _ _ Hc k i h Hi) as [r Er]; [by left|]. by rewrite Er in Hn. Qed.

(** The container of a header that is requested for the first time. *)
Lemma core_container X l q i h : core X l q -> l !! i = Some h -> (i < length (resultCache q))%nat ->
  core X l (set_cache (<[i := Some (container q h (num h) (mjoin (resultCache q !! i)))]> (resultCache q)) q).
Proof.
  intros Hc Hi Hlt. set (q' := set_cache _ q). destruct (mjoin (resultCache q !! i)) as [r|] eqn:Er.
  - cbn [container] in q'. assert (Eq : q' = q); [|by rewrite Eq].
    unfold q'. rewrite list_insert_id by (destruct (resultCache q !! i) as [[?|]|]; by simplify_eq/=). by destruct q.
  - assert (Hnd : forall k, Header_Hash h ∉ donePool (track k q)) by (intros k; by apply (not_allocated X l q i h k)).
    assert (Ht : forall k, track k q' = track k q) by (intros k; by apply track_cache).
    destruct Hc as [H1 H2 H3 H4 H5 H6 H7 H8]. split; [done|exact H2|..].
    + intros k. rewrite Ht. destruct (H3 k) as (hs & Hh & Hp). exists hs. split; [done|]. rewrite Hp. unfold waiting.
      erewrite filter_keep; [done|]. intros x _. unfold missing. by rewrite Ht, (needs_same q q').
    + intros k hash. rewrite Ht. intros (x & ? & ? & ?)%H4. exists x. by rewrite (needs_same q q').
    + intros k hash x. rewrite Ht. intros (? & ? & Hm)%H5. split; [done|]. split; [done|]. unfold missing. by rewrite Ht, (needs_same q q').
    + intros j r Hj. assert (Heq : forall x r0, entry_ok q x r0 -> entry_ok q' x r0).
      { intros x r0 [G1 G2 G3 G4]. split; [done| |intros k; rewrite Ht; auto..]. rewrite G2.
        f_equal; symmetry; apply owed_same; unfold missing; by rewrite Ht, (needs_same q q'). }
      cbn [resultCache q' set_cache] in Hj. destruct (decide (j = i)) as [->|Hne].
      * rewrite list_lookup_insert_eq in Hj by done. injection Hj as <-. exists h. split; [done|]. apply Heq. split.
        -- done.
        -- cbn [container Pending]. unfold owed. rewrite decide_True by (split; [done|apply Hnd]).
           destruct (fast_phase q (num h)) eqn:Ef; [rewrite decide_True by (split; [done|apply Hnd]); done|].
           rewrite decide_False; [done|]. intros [Hn _]. cbn in Hn. congruence.
        -- intros k Hd. by apply Hnd in Hd.
        -- intros [] _; done.
      * rewrite list_lookup_insert_ne in Hj by done. destruct (H6 j r Hj) as (x & Hx & He). exists x. auto.
    + intros k j x Hx. rewrite Ht. intros Hor. cbn [resultCache q' set_cache]. destruct (decide (j = i)) as [->|Hne].
      * rewrite list_lookup_insert_eq by done. eauto.
      * rewrite list_lookup_insert_ne by done. eauto.
    + intros k j r. rewrite Ht. apply H8.
Qed.

(** The parts of another kind are the same. *)
Definition part_same (k : Content) (r r' : fetchResult) : Prop :=
  match k with
  | Bodies => fr_Transactions r' = fr_Transactions r /\ Uncles r' = Uncles r
  | Receipts_ => Receipts r' = Receipts r
  end.

Lemma good_part k h r r' : part_same k r r' -> good k h r -> good k h r'.
Proof. destruct k; cbn; [intros [-> ->]; done|by intros ->]. Qed.

Lemma blank_part k r r' : part_same k r r' -> blank k r -> blank k r'.
Proof. destruct k; cbn; [intros [-> ->]; done|by intros ->]. Qed.

Lemma part_less k r r' : part_same k r r' -> part_same k r (less_pending r').
Proof. by destruct k. Qed.

Lemma good_less k h r : good k h r -> good k h (less_pending r).
Proof. by destruct k. Qed.

Lemma content_cases (k : Content) : k = Bodies \/ k = Receipts_.
Proof. destruct k; auto. Qed.

Section finish.
Context (X : Content -> list Header) (l : list Header) (q : queue) (Hc : core X l q).
Context (k : Content) (i : nat) (h : Header) (X1 : list Header) (r r' : fetchResult).
Context (Hi : l !! i = Some h) (HX : X k ≡ₚ h :: X1) (Hr : resultCache q !! i = Some (Some r)).
Context (Eh : fr_Header r' = fr_Header r) (Ep : Pending r' = Pending r) (Hg : good k h r') (Hk : forall k', k' <> k -> part_same k' r r').

Let q' := set_track k (finish_task (Header_Hash h) (track k q)) (set_cache (<[i := Some (less_pending r')]> (resultCache q)) q).

Lemma finish_done k' x : x ∈ l -> Header_Hash x ∈ donePool (track k' q') <-> (k' = k /\ x = h) \/ Header_Hash x ∈ donePool (track k' q).
Proof.
  intros Hx. unfold q'. destruct (decide (k' = k)) as [->|Hne].
  - rewrite track_same. cbn [finish_task donePool]. rewrite elem_of_union, elem_of_singleton. split.
    + intros [E%hash_inj|?]; auto.
    + intros [[_ ->]|?]; auto.
  - rewrite track_other, track_cache by done. naive_solver.
Qed.

Lemma finish_needs k' x : needs q' k' x = needs q k' x.
Proof. by apply needs_same. Qed.

Lemma finish_missing k' x : x ∈ l -> missing q' k' x <-> missing q k' x /\ ~ (k' = k /\ x = h).
Proof. intros Hx. unfold missing. rewrite finish_needs, (finish_done k' x Hx). tauto. Qed.

Lemma finish_hand : missing q k h.
Proof. apply (hands_waiting X l q Hc k). rewrite HX. left. Qed.

Lemma finish_waiting : waiting q k l ≡ₚ h :: waiting q' k l.
Proof.
  apply filter_remove; [by eapply core_nodup|by eapply list_elem_of_lookup_2|apply finish_hand|].
  intros x Hx. rewrite (finish_missing k x Hx). naive_solver.
Qed.

Lemma finish_owed k' : owed q' k' h = owed q k' h - (if decide (k' = k) then 1 else 0).
Proof.
  pose proof (list_elem_of_lookup_2 _ _ _ Hi) as Hin. destruct (decide (k' = k)) as [->|Hne].
  - unfold owed. rewrite decide_False by (rewrite finish_missing by done; tauto). rewrite decide_True by apply finish_hand. done.
  - rewrite (owed_same q q') by (rewrite finish_missing by done; tauto). lia.
Qed.

Lemma finish_entry : entry_ok q' h (less_pending r').
Proof.
  pose proof (list_elem_of_lookup_2 _ _ _ Hi) as Hin. destruct (c_entry _ _ _ Hc i r Hr) as (x & Hx & [G1 G2 G3 G4]).
  assert (x = h) as -> by congruence. split.
  - cbn [less_pending fr_Header]. congruence.
  - cbn [less_pending Pending]. rewrite Ep, G2, !finish_owed.
    destruct (content_cases k) as [Ek|Ek]; destruct (decide (Bodies = k)), (decide (Receipts_ = k)); congruence || lia.
  - intros k' Hd. destruct (decide (k' = k)) as [->|Hne]; [by apply good_less|].
    apply finish_done in Hd as [[]|Hd]; [done| |done]. eapply good_part, G3; [|done]. by apply part_less, Hk.
  - intros k' Hd. rewrite finish_done in Hd by done. destruct (decide (k' = k)) as [->|Hne]; [tauto|].
    eapply blank_part; [by apply part_less, Hk|]. apply G4. tauto.
Qed.

Lemma core_finish : core (hand k X1 X) l q'.
Proof.
  pose proof (list_elem_of_lookup_2 _ _ _ Hi) as Hin. pose proof (core_nodup X l q Hc) as Hnd.
  assert (Hf : forall k', flying (track k' q') = flying (track k' q)).
  { intros k'. unfold q'. destruct (decide (k' = k)) as [->|]; [by rewrite track_same|by rewrite track_other, track_cache]. }
  assert (Htq : forall k', taskQueue (track k' q') = taskQueue (track k' q)).
  { intros k'. unfold q'. destruct (decide (k' = k)) as [->|]; [by rewrite track_same|by rewrite track_other, track_cache]. }
  assert (Hlt : (i < length (resultCache q))%nat) by (by eapply lookup_lt_Some).
  pose proof Hc as [H1 H2 H3 H4 H5 H6 H7 H8]. split; [done|exact H2|..].
  - intros k'. destruct (H3 k') as (hs & Hh & Hp). exists hs. rewrite Htq, Hf. split; [done|].
    destruct (decide (k' = k)) as [->|Hne].
    + rewrite hand_same. rewrite HX, finish_waiting in Hp. apply (Permutation_cons_inv (a := h)). rewrite <- Hp.
      cbn [app]. apply Permutation_middle.
    + rewrite hand_other by done. rewrite Hp. unfold waiting. erewrite filter_keep; [done|]. intros x Hx. rewrite (finish_missing k' x Hx). tauto.
  - intros k' hash Hd. destruct (decide (hash = Header_Hash h /\ k' = k)) as [[-> ->]|Hne].
    + exists h. rewrite finish_needs. split; [done|]. split; [|done]. by apply finish_hand.
    + assert (Hd' : hash ∈ donePool (track k' q)).
      { unfold q' in Hd. destruct (decide (k' = k)) as [->|]; [|by rewrite track_other, track_cache in Hd].
        rewrite track_same in Hd. cbn in Hd. set_solver. }
      apply H4 in Hd' as (x & ? & ? & ?). exists x. by rewrite finish_needs.
  - intros k' hash x Hx. assert (Hx' : taskPool (track k' q) !! hash = Some x /\ ~ (k' = k /\ hash = Header_Hash h)).
    { unfold q' in Hx. destruct (decide (k' = k)) as [->|]; [|rewrite track_other, track_cache in Hx by done; tauto].
      rewrite track_same in Hx. cbn in Hx. apply lookup_delete_Some in Hx as [? ?]. naive_solver. }
    destruct Hx' as [(? & ? & Hm)%H5 Hne]. split; [done|]. split; [done|]. rewrite finish_missing by done. split; [done|]. naive_solver.
  - intros j s Hj. assert (Ec : resultCache q' = <[i := Some (less_pending r')]> (resultCache q)) by done. rewrite Ec in Hj.
    destruct (decide (j = i)) as [->|Hne].
    + rewrite list_lookup_insert_eq in Hj by done. injection Hj as <-. exists h. split; [done|apply finish_entry].
    + rewrite list_lookup_insert_ne in Hj by done. destruct (H6 j s Hj) as (x & Hx & [G1 G2 G3 G4]). exists x. split; [done|].
      pose proof (list_elem_of_lookup_2 _ _ _ Hx) as Hxin. assert (Hxh : x <> h).
      { intros ->. apply Hne. by apply (proj1 (NoDup_alt l) Hnd j i h). }
      split; [done| | |].
      * rewrite G2. f_equal; symmetry; apply owed_same; rewrite finish_missing by done; tauto.
      * intros k' [[]|Hd]%finish_done; [done|auto|done].
      * intros k' Hd. apply G4. rewrite finish_done in Hd by done. tauto.
  - intros k' j x Hx Hor. assert (Ec : resultCache q' = <[i := Some (less_pending r')]> (resultCache q)) by done. rewrite Ec.
    destruct (decide (j = i)) as [->|Hne]; [rewrite list_lookup_insert_eq by done; eauto|]. rewrite list_lookup_insert_ne by done.
    apply (H7 k' j x Hx). rewrite Hf in Hor. pose proof (list_elem_of_lookup_2 _ _ _ Hx) as Hxin.
    destruct Hor as [Hd|[Hin'|?]]; [|destruct (decide (k' = k)) as [->|]|auto].
    + apply finish_done in Hd as [[-> ->]|?]; [|auto|done]. exfalso. apply Hne. by apply (proj1 (NoDup_alt l) Hnd j i h).
    + rewrite hand_same in Hin'. right; left. rewrite HX. by right.
    + rewrite hand_other in Hin' by done. auto.
  - intros k' id x Hx. apply (H8 k' id). unfold q' in Hx.
    destruct (decide (k' = k)) as [->|]; [by rewrite track_same in Hx|by rewrite track_other, track_cache in Hx].
Qed.

End finish.

(** ** Reservations *)

Definition no_hands : Content -> list Header := fun _ => [].

(** What a reservation leaves alone. *)
Definition settled (q q' : queue) : Prop :=
  mode q' = mode q /\ fastSyncPivot q' = fastSyncPivot q /\ headerHead q' = headerHead q /\ resultOffset q' = resultOffset q /\
  length (resultCache q') = length (resultCache q) /\ forall k, pendPool (track k q') = pendPool (track k q).

Lemma settled_refl q : settled q q.
Proof. by repeat split. Qed.

Lemma settled_trans q1 q2 q3 : settled q1 q2 -> settled q2 q3 -> settled q1 q3.
Proof.
  intros (A1 & A2 & A3 & A4 & A5 & A6) (B1 & B2 & B3 & B4 & B5 & B6).
  split; [congruence|]. split; [congruence|]. split; [congruence|]. split; [congruence|]. split; [congruence|]. intros k. by rewrite B6.
Qed.

Lemma flying_pend t t' : pendPool t' = pendPool t -> flying t' = flying t.
Proof. unfold flying. by intros ->. Qed.

(** A task is popped, and its header has a container. *)
Lemma core_pop X l q k hs hs' tq' h i : core X l q -> holds (taskQueue (track k q)) hs -> hs ≡ₚ h :: hs' -> holds tq' hs' ->
  l !! i = Some h -> (i < length (resultCache q))%nat ->
  core (hand k (h :: X k) X) l
    (set_cache (<[i := Some (container q h (num h) (mjoin (resultCache q !! i)))]> (resultCache q))
       (set_track k (set_taskQueue tq' (track k q)) q)).
Proof.
  intros Hc Hh Hp Hh' Hi Hlt. pose proof (core_container X l q i h Hc Hi Hlt) as Hc1. set (q1 := set_cache _ q) in Hc1.
  match goal with |- core _ _ ?x => set (q2 := x) end.
  assert (E2 : q2 = set_track k (set_taskQueue tq' (track k q1)) q1) by (by destruct k).
  assert (Ht : forall k', k' <> k -> track k' q2 = track k' q1) by (intros k' Hne; rewrite E2; by apply track_other).
  assert (Hs : track k q2 = set_taskQueue tq' (track k q1)) by (rewrite E2; apply track_same).
  assert (Hf : forall k', flying (track k' q2) = flying (track k' q1)).
  { intros k'. destruct (decide (k' = k)) as [->|Hne]; [by rewrite Hs|by rewrite Ht]. }
  apply (core_move X _ l q1); [done| | | |].
  - do 4 (split; [by rewrite E2|]). intros k'. destruct (decide (k' = k)) as [->|Hne]; [by rewrite Hs|by rewrite Ht].
  - intros k'. rewrite Hf. destruct (decide (k' = k)) as [->|Hne].
    + rewrite hand_same, Hs. exists hs, hs'. split; [unfold q1; by rewrite track_cache|]. split; [done|].
      rewrite Hp. cbn. by rewrite <- Permutation_middle.
    + rewrite hand_other, Ht by done. destruct (c_split _ _ _ Hc1 k') as (hs0 & Hh0 & _). by exists hs0, hs0.
  - intros k' x Hx Hor. rewrite Hf in Hor. apply list_elem_of_lookup in Hx as [j Hj]. destruct (decide (x = h)) as [->|Hne].
    + exists i. eexists. split; [done|]. unfold q1. cbn [resultCache set_cache]. by apply list_lookup_insert_eq.
    + assert (Ha : exists r, resultCache q1 !! j = Some (Some r)); [|destruct Ha; eauto].
      apply (c_alloc _ _ _ Hc1 k' j x Hj). destruct Hor as [Hin|?]; [|auto]. right; left.
      destruct (decide (k' = k)) as [->|]; [|by rewrite hand_other in Hin]. rewrite hand_same in Hin. set_solver.
  - intros k' id r Hr. apply (c_from _ _ _ Hc1 k' id). destruct (decide (k' = k)) as [->|]; [by rewrite Hs in Hr|by rewrite Ht in Hr].
Qed.

(** An empty part needs no request. *)
Lemma noop_good k h r : isNoop k h = true -> blank k r -> good k h r.
Proof.
  destruct k; cbn.
  - intros [E1%Z.eqb_eq E2%Z.eqb_eq]%andb_true_iff [-> ->]. by rewrite no_transactions, no_uncles_hash.
  - intros E%Z.eqb_eq ->. by rewrite no_receipts.
Qed.

(** The headers below one of a kind of content need this content too. *)
Lemma needs_below X l q k i j h x : core X l q -> l !! i = Some h -> l !! j = Some x -> (j <= i)%nat -> needs q k h = true -> needs q k x = true.
Proof.
  intros Hc Hi Hj Hle. destruct k; [done|]. unfold needs, fast_phase.
  rewrite (core_num X l q Hc i h Hi), (core_num X l q Hc j x Hj). intros [-> E%Z.leb_le]%andb_true_iff. cbn. apply Z.leb_le. lia.
Qed.

Lemma done_size X l q k : core X l q -> (length (filter (fun h => Header_Hash h ∈ donePool (track k q)) l) <= size (donePool (track k q)))%nat.
Proof.
  intros Hc. set (d := filter _ l). assert (Hnd : NoDup (Header_Hash <$> d)).
  { apply NoDup_fmap_2_strong; [intros x y _ _; apply hash_inj|]. apply NoDup_filter. by eapply core_nodup. }
  rewrite <- (length_fmap Header_Hash d), <- (size_list_to_set (C := gset Hash) _ Hnd). apply subseteq_size.
  intros x. rewrite elem_of_list_to_set, list_elem_of_fmap. intros (h & -> & [? _]%list_elem_of_filter). done.
Qed.

(** The least header of the queue has its index within what is done, in flight and in
    the hands of the operation. *)
Lemma reserve_fits X l q k hs h i : core X l q -> holds (taskQueue (track k q)) hs -> h ∈ hs -> l !! i = Some h ->
  (forall x, x ∈ hs -> num h <= num x) ->
  (i <= size (donePool (track k q)) + (length (X k) + length (flying (track k q))))%nat.
Proof.
  intros Hc Hh Hin Hi Hmin. destruct (queued_waiting X l q Hc k hs h Hh Hin) as [_ [Hn _]].
  destruct (c_split _ _ _ Hc k) as (hs0 & Hh0 & Hp). rewrite (holds_unique _ _ _ Hh0 Hh) in Hp.
  assert (Hlen : length (take i l) = i) by (rewrite length_take; pose proof (lookup_lt_Some _ _ _ Hi); lia).
  pose proof (done_size X l q k Hc) as Hd. set (d := filter _ l) in Hd.
  enough (length (take i l) <= length (d ++ X k ++ flying (track k q)))%nat by (rewrite !length_app in *; lia).
  apply submseteq_length, NoDup_submseteq.
  { eapply sublist_NoDup; [by eapply core_nodup|apply sublist_take]. }
  intros x Hx. apply list_elem_of_lookup in Hx as [j Hj]. apply lookup_take_Some in Hj as [Hj Hlt].
  pose proof (list_elem_of_lookup_2 _ _ _ Hj) as Hxl. rewrite !elem_of_app.
  destruct (decide (Header_Hash x ∈ donePool (track k q))) as [?|Hnd]; [left; by apply list_elem_of_filter|].
  assert (Hw : x ∈ waiting q k l) by (apply list_elem_of_filter; split; [split; [by eapply (needs_below X l q k i j h x); eauto; lia|done]|done]).
  rewrite <- Hp, !elem_of_app in Hw. destruct Hw as [Hq|?]; [|tauto]. apply Hmin in Hq.
  rewrite (core_num X l q Hc i h Hi), (core_num X l q Hc j x Hj) in Hq. lia.
Qed.

(** The state of the loop of a reservation. *)
Record reserving (k : Content) (l : list Header) (q0 : queue) (s : Reserving) : Prop := {
  rs_core : core (hand k (rv_send s ++ rv_skip s) no_hands) l (rv_queue s);
  rs_settled : settled q0 (rv_queue s);
  rs_space : space s = Z.of_nat (length (resultCache (rv_queue s))) - Z.of_nat (size (donePool (track k (rv_queue s)))) -
    Z.of_nat (length (flying (track k (rv_queue s))));
  rs_proc : proc s = Z.of_nat (length (rv_send s) + length (rv_skip s))
}.

(** Numbers with exact priorities. *)
Definition exact_numbers (l : list Header) : Prop := forall h, h ∈ l -> num h < 16777216.

(** The order of the hands does not matter. *)
Lemma core_hands X X' l q : (forall k, X k ≡ₚ X' k) -> core X l q -> core X' l q.
Proof.
  intros HX [H1 H2 H3 H4 H5 H6 H7 H8]. split; try done.
  - intros k. destruct (H3 k) as (hs & Hh & Hp). exists hs. by rewrite <- HX.
  - intros k i h Hi. rewrite <- HX. eauto.
Qed.

Lemma hand_perm k x x' X k' : x ≡ₚ x' -> hand k x X k' ≡ₚ hand k x' X k'.
Proof. intros Hp. unfold hand. by destruct (decide (k' = k)). Qed.

Lemma hand_hand k x y X k' : hand k x (hand k y X) k' = hand k x X k'.
Proof. unfold hand. by destruct (decide (k' = k)). Qed.

Section reserve.
Context (k : Content) (l : list Header) (q0 : queue) (lacks : Hash -> bool).

(** The entry of a header that an operation has in its hands. *)
Lemma hand_entry X q h i r : core X l q -> l !! i = Some h -> h ∈ X k -> resultCache q !! i = Some (Some r) -> blank k r.
Proof.
  intros Hc Hi Hin Hr. destruct (c_entry _ _ _ Hc i r Hr) as (x & Hx & He). assert (x = h) as -> by congruence.
  apply (eo_blank _ _ _ He). by apply (hands_waiting X l q Hc k h).
Qed.

Lemma reserve_one_run s hs hs' h tq' i : reserving k l q0 s -> holds (taskQueue (track k (rv_queue s))) hs -> hs ≡ₚ h :: hs' -> holds tq' hs' ->
  l !! i = Some h -> (i < length (resultCache (rv_queue s)))%nat ->
  exists s', reserve_one k lacks h (mkReserving (set_track k (set_taskQueue tq' (track k (rv_queue s))) (rv_queue s))
      (space s) (proc s) (rv_send s) (rv_skip s) (progress s)) = Ret (inl s') /\
    reserving k l q0 s' /\ holds (taskQueue (track k (rv_queue s'))) hs'.
Proof.
  intros [Hc Hs Hsp Hpr] Hh Hp Hh' Hi Hlt. set (q := rv_queue s) in *. set (X := hand k (rv_send s ++ rv_skip s) no_hands) in *.
  pose proof (core_pop X l q k hs hs' tq' h i Hc Hh Hp Hh' Hi Hlt) as Hc1. set (q1 := set_track k _ q) in *.
  set (res := container q h (num h) (mjoin (resultCache q !! i))) in *. set (q2 := set_cache _ q1) in *.
  destruct (c_number _ _ _ Hc i h Hi) as [En _]. unfold reserve_one. cbn [rv_queue space proc rv_send rv_skip progress].
  change (cache_index q1 h) with (cache_index q h). rewrite (core_index X l q Hc i h Hi). cbn [mbind outcome_bind].
  change (resultCache q1) with (resultCache q). destruct (Z.leb_spec (Z.of_nat (length (resultCache q))) (Z.of_nat i)); [lia|].
  destruct (Z.ltb_spec (Z.of_nat i) 0); [lia|]. cbn [orb]. rewrite En. cbn [mbind outcome_bind]. rewrite Nat2Z.id.
  rewrite <- (num_number h _ En). change (container q1 h (num h) (mjoin (resultCache q !! i))) with res.
  assert (Ht : track k q1 = set_taskQueue tq' (track k q)) by apply track_same.
  assert (Hp1 : forall k', pendPool (track k' q1) = pendPool (track k' q)).
  { intros k'. destruct (decide (k' = k)) as [->|Hne]; [by rewrite Ht|]. unfold q1. by rewrite track_other. }
  destruct (isNoop k h) eqn:Enoop.
  - set (q3 := set_track k _ _). eexists. split; [done|].
    assert (Er : resultCache q2 !! i = Some (Some res)) by (cbn; by apply list_lookup_insert_eq).
    assert (Hb : blank k res) by (apply (hand_entry (hand k (h :: X k) X) q2 h i res Hc1 Hi); [rewrite hand_same; left|done]).
    pose proof (core_finish (hand k (h :: X k) X) l q2 Hc1 k i h (X k) res res Hi ltac:(by rewrite hand_same) Er eq_refl eq_refl
      (noop_good k h res Enoop Hb) ltac:(intros []; done)) as Hc3.
    assert (E3 : q3 = set_track k (finish_task (Header_Hash h) (track k q2)) (set_cache (<[i:=Some (less_pending res)]> (resultCache q2)) q2)).
    { unfold q3, q2. cbn [resultCache set_cache]. rewrite list_insert_insert_eq. by rewrite !track_cache. }
    rewrite <- E3 in Hc3. assert (Ht3 : track k q3 = finish_task (Header_Hash h) (set_taskQueue tq' (track k q))).
    { unfold q3. by rewrite track_same, track_cache, Ht. }
    split; [|cbn [rv_queue]; by rewrite Ht3]. split; cbn [rv_queue space proc rv_send rv_skip].
    + eapply core_hands; [|exact Hc3]. intros k'. rewrite hand_hand. unfold X. rewrite hand_same. by rewrite hand_hand.
    + eapply settled_trans; [exact Hs|]. do 4 (split; [done|]). split; [cbn; by rewrite length_insert|].
      intros k'. rewrite <- Hp1. unfold q3. destruct (decide (k' = k)) as [->|]; [by rewrite track_same, track_cache|by rewrite track_other, track_cache].
    + rewrite Ht3. rewrite Hsp. assert (Hnd : Header_Hash h ∉ donePool (track k q)).
      { apply (queued_waiting X l q Hc k hs h Hh). rewrite Hp. left. }
      cbn [finish_task donePool set_taskQueue]. rewrite size_union, size_singleton by set_solver.
      change (flying (finish_task _ _)) with (flying (track k q)). cbn [q3 resultCache set_track set_cache]. rewrite length_insert. lia.
    + done.
  - set (q3 := set_cache _ q1). change q3 with q2. clear q3.
    assert (Ht2 : track k q2 = set_taskQueue tq' (track k q)) by (unfold q2; by rewrite track_cache).
    assert (Hs2 : settled q0 q2).
    { eapply settled_trans; [exact Hs|]. do 4 (split; [done|]). split; [cbn; by rewrite length_insert|].
      intros k'. rewrite <- Hp1. unfold q2. by rewrite track_cache. }
    assert (Hsp2 : space s = Z.of_nat (length (resultCache q2)) - Z.of_nat (size (donePool (track k q2))) - Z.of_nat (length (flying (track k q2)))).
    { rewrite Hsp, Ht2. cbn [q2 resultCache set_cache]. rewrite length_insert. done. }
    assert (Hw : forall send skip, h :: rv_send s ++ rv_skip s ≡ₚ send ++ skip -> core (hand k (send ++ skip) no_hands) l q2).
    { intros send skip Hss. eapply core_hands; [|exact Hc1]. intros k'. rewrite <- (hand_perm k _ _ _ k' Hss).
      unfold X. rewrite hand_same. by rewrite hand_hand. }
    destruct (lacks (Header_Hash h)); eexists; (split; [done|]); (split; [|cbn [rv_queue]; by rewrite Ht2]);
      (split; cbn [rv_queue space proc rv_send rv_skip]; [|done|done|rewrite !length_app; cbn [length]; lia]); apply Hw.
    + rewrite (Permutation_cons_append _ h). by rewrite <- app_assoc.
    + rewrite <- app_assoc. cbn [app]. by rewrite Permutation_middle.
Qed.

Lemma reserve_loop_run count fuel : forall s hs, reserving k l q0 s -> holds (taskQueue (track k (rv_queue s))) hs -> (length hs <= fuel)%nat ->
  exists r, reserve_loop fuel k lacks count s = Ret r /\
    match r with inl s' => reserving k l q0 s' | inr _ => ~ exact_numbers l end.
Proof.
  induction fuel as [|fuel IH]; intros s hs Hs Hh Hlen; cbn [reserve_loop]; rewrite (holds_empty _ _ Hh).
  - destruct hs; [|cbn in Hlen; lia]. rewrite andb_false_r. by exists (inl s).
  - destruct (Z.ltb_spec (proc s) (space s)) as [Hps|]; [|by exists (inl s)]. destruct (_ <? count); [|by exists (inl s)].
    destruct hs as [|h0 hs0]; [by exists (inl s)|]. cbn [andb negb]. set (hs := h0 :: hs0) in *.
    destruct (holds_pop _ hs Hh) as (h & hs' & tq' & -> & Hp & Hh' & Hmin); [done|].
    pose proof Hs as [Hc _ Hsp Hpr]. destruct (queued_waiting _ l _ Hc k hs h Hh) as [Hin _]; [rewrite Hp; left|].
    apply list_elem_of_lookup in Hin as [i Hi]. destruct (decide (i < length (resultCache (rv_queue s)))%nat) as [Hlt|Hge].
    + destruct (reserve_one_run s hs hs' h tq' i Hs Hh Hp Hh' Hi Hlt) as (s' & -> & Hs' & Hh2). cbn [mbind outcome_bind].
      apply (IH s' hs' Hs' Hh2). apply Permutation_length in Hp. cbn in Hp. unfold hs in Hlen. cbn in Hlen, Hp. lia.
    + unfold reserve_one. cbn [rv_queue]. set (q1 := set_track k _ _). change (cache_index q1 h) with (cache_index (rv_queue s) h).
      rewrite (core_index _ l _ Hc i h Hi). cbn [mbind outcome_bind]. change (resultCache q1) with (resultCache (rv_queue s)).
      destruct (Z.leb_spec (Z.of_nat (length (resultCache (rv_queue s)))) (Z.of_nat i)); [|lia]. cbn [orb mbind outcome_bind].
      eexists. split; [done|]. intros Hex. apply Hge.
      pose proof (reserve_fits _ l _ k hs h i Hc Hh) as Hfit. rewrite hand_same in Hfit. rewrite length_app in Hfit.
      enough (i <= size (donePool (track k (rv_queue s))) + (length (rv_send s) + length (rv_skip s) + length (flying (track k (rv_queue s)))))%nat by lia.
      apply Hfit; [rewrite Hp; left|done|]. intros x Hx. specialize (Hmin x Hx).
      assert (Hb : forall y, y ∈ hs -> 0 <= num y < 16777216).
      { intros y Hy. destruct (queued_waiting _ l _ Hc k hs y Hh Hy) as [Hyl _]. split; [|by apply Hex].
        apply list_elem_of_lookup in Hyl as [j Hj]. rewrite (core_num _ l _ Hc j y Hj). pose proof (c_offset _ _ _ Hc). lia. }
      assert (Hhh : h ∈ hs) by (rewrite Hp; left). rewrite !float32_small in Hmin by (by apply Hb). done.
Qed.

End reserve.

(** ** Tasks that change hands *)

Lemma flying_insert t id r m : pendPool t = m -> m !! id = None -> flying (set_pendPool (<[id := r]> m) t) ≡ₚ fr_Headers r ++ flying t.
Proof. intros <- Hn. unfold flying. cbn [set_pendPool pendPool]. rewrite (map_to_list_insert _ _ _ Hn). cbn. done. Qed.

Lemma flying_delete t id r : pendPool t !! id = Some r -> flying t ≡ₚ fr_Headers r ++ flying (set_pendPool (delete id (pendPool t)) t).
Proof. intros Hr. unfold flying at 1. rewrite <- (map_to_list_delete _ _ _ Hr). cbn. done. Qed.

(** One track changes, its finished tasks stay. *)
Lemma same_done_track k t q : donePool t = donePool (track k q) -> taskPool t = taskPool (track k q) -> same_done q (set_track k t q).
Proof.
  intros E1 E2. do 4 (split; [done|]). intros k'. destruct (decide (k' = k)) as [->|Hne]; [by rewrite track_same|by rewrite track_other].
Qed.

Lemma core_moved X x l q k t hs hs' : core X l q -> donePool t = donePool (track k q) -> taskPool t = taskPool (track k q) ->
  holds (taskQueue (track k q)) hs -> holds (taskQueue t) hs' -> hs' ++ x ++ flying t ≡ₚ hs ++ X k ++ flying (track k q) ->
  (forall h, h ∈ x \/ h ∈ flying t -> h ∈ X k \/ h ∈ flying (track k q)) -> (forall id r, pendPool t !! id = Some r -> From r = 0) ->
  core (hand k x X) l (set_track k t q).
Proof.
  intros Hc E1 E2 Hh Hh' Hp Hin Hfrom. apply (core_move X _ l q); [done|by apply same_done_track| | |].
  - intros k'. destruct (decide (k' = k)) as [->|Hne].
    + rewrite track_same, hand_same. by exists hs, hs'.
    + rewrite track_other, hand_other by done. destruct (c_split _ _ _ Hc k') as (hs0 & Hh0 & _). by exists hs0, hs0.
  - intros k' h [i Hi]%list_elem_of_lookup Hor. destruct (c_alloc _ _ _ Hc k' i h Hi) as [r Hr]; [|eauto].
    destruct (decide (k' = k)) as [->|Hne]; [rewrite track_same, hand_same in Hor; auto|rewrite track_other, hand_other in Hor by done; auto].
  - intros k' id r. destruct (decide (k' = k)) as [->|Hne]; [rewrite track_same; apply Hfrom|rewrite track_other by done; apply (c_from _ _ _ Hc)].
Qed.

(** Headers go back to the task queue. *)
Lemma core_push X x y l q k : core X l q -> X k ≡ₚ x ++ y ->
  exists tq, push_headers (taskQueue (track k q)) y = Ret tq /\ core (hand k x X) l (set_track k (set_taskQueue tq (track k q)) q).
Proof.
  intros Hc HX. destruct (c_split _ _ _ Hc k) as (hs & Hh & Hp).
  destruct (push_headers_run y (taskQueue (track k q)) hs) as (tq & E & Hh'); [|done|].
  { apply Forall_forall. intros h Hh'. apply (core_counted X l q Hc). apply (hands_waiting X l q Hc k). rewrite HX. set_solver. }
  exists tq. split; [done|]. apply (core_moved X x l q k _ hs (y ++ hs)); try done.
  - cbn [flying set_taskQueue pendPool]. rewrite HX. change (flying (set_taskQueue tq (track k q))) with (flying (track k q)).
    rewrite (Permutation_app_comm y hs), <- !app_assoc. apply Permutation_app_head. rewrite !app_assoc. apply Permutation_app_tail.
    apply Permutation_app_comm.
  - intros h. change (flying (set_taskQueue tq (track k q))) with (flying (track k q)). rewrite HX. set_solver.
  - apply (c_from _ _ _ Hc k).
Qed.

(** A request is sent. *)
Lemma core_fly X l q k id r : core X l q -> X k ≡ₚ fr_Headers r -> From r = 0 -> pendPool (track k q) !! id = None ->
  core (hand k [] X) l (set_track k (set_pendPool (<[id := r]> (pendPool (track k q))) (track k q)) q).
Proof.
  intros Hc HX H0 Hn. destruct (c_split _ _ _ Hc k) as (hs & Hh & Hp).
  pose proof (flying_insert (track k q) id r _ eq_refl Hn) as Hf. apply (core_moved X [] l q k _ hs hs); try done.
  - by rewrite Hf, HX.
  - intros h. rewrite Hf, HX. set_solver.
  - intros id' r' Hr'. cbn [set_pendPool pendPool] in Hr'. apply lookup_insert_Some in Hr' as [[_ <-]|[_ Hr]]; [done|by apply (c_from _ _ _ Hc k id')].
Qed.

(** A request ends. *)
Lemma core_land X l q k id r : core X l q -> pendPool (track k q) !! id = Some r ->
  core (hand k (fr_Headers r ++ X k) X) l (set_track k (set_pendPool (delete id (pendPool (track k q))) (track k q)) q).
Proof.
  intros Hc Hr. destruct (c_split _ _ _ Hc k) as (hs & Hh & Hp). pose proof (flying_delete (track k q) id r Hr) as Hf.
  apply (core_moved X _ l q k _ hs hs); try done.
  - rewrite Hf. apply Permutation_app_head. rewrite <- app_assoc, !app_assoc. apply Permutation_app_tail. apply Permutation_app_comm.
  - intros h. rewrite Hf. set_solver.
  - intros id' r' Hr'. cbn [set_pendPool pendPool] in Hr'. apply lookup_delete_Some in Hr' as [_ Hr']. by apply (c_from _ _ _ Hc k id').
Qed.

Lemma core_no_hands k x X l q : (forall k', X k' = []) -> core (hand k x X) l q -> x = [] -> core no_hands l q.
Proof. intros HX Hc ->. eapply core_hands; [|exact Hc]. intros k'. unfold hand. destruct (decide (k' = k)); [done|by rewrite HX]. Qed.

(** What the other operations on the pools leave alone. *)
Definition framed (q q' : queue) : Prop :=
  mode q' = mode q /\ fastSyncPivot q' = fastSyncPivot q /\ headerHead q' = headerHead q /\ resultOffset q' = resultOffset q.

Lemma settled_framed q q' : settled q q' -> framed q q'.
Proof. intros (? & ? & ? & ? & _). done. Qed.

(** The requests are those that were there, and others with a property. *)
Definition pending_from (P : fetchRequest -> Prop) (q q' : queue) : Prop :=
  forall k id r, pendPool (track k q') !! id = Some r -> pendPool (track k q) !! id = Some r \/ P r.

Lemma pending_track P q k t : (forall id r, pendPool t !! id = Some r -> pendPool (track k q) !! id = Some r \/ P r) -> pending_from P q (set_track k t q).
Proof. intros Hp k' id r. destruct (decide (k' = k)) as [->|]; [rewrite track_same; apply Hp|rewrite track_other by done; auto]. Qed.

Lemma reserveHeaders_run k now p id lacks count l q : core no_hands l q ->
  exists res prog err q', reserveHeaders k now p id lacks count q = Ret (res, prog, err, q') /\ (exact_numbers l -> err = None) /\
    (err = None -> core no_hands l q' /\ framed q q' /\ pending_from (fun r => Peer r = p) q q').
Proof.
  intros Hc. unfold reserveHeaders. destruct (c_split _ _ _ Hc k) as (hs & Hh & Hp). rewrite (holds_empty _ _ Hh).
  destruct hs as [|h0 hs0]; [eexists _, _, _, _; split; [done|]; split; [done|]; split; [done|]; split; [done|]; by left|]. set (hs := h0 :: hs0) in *.
  destruct (pendPool (track k q) !! id) as [r|] eqn:Epend; [eexists _, _, _, _; split; [done|]; split; [done|]; split; [done|]; split; [done|]; by left|].
  rewrite (holds_size _ _ Hh), Nat2Z.id. set (s0 := mkReserving _ _ _ _ _ _).
  assert (Hs0 : reserving k l q s0).
  { split; [eapply core_hands; [|exact Hc]; intros k'; unfold hand; by destruct (decide (k' = k))|apply settled_refl|done|done]. }
  destruct (reserve_loop_run k l q lacks count (length hs) s0 hs Hs0 Hh ltac:(done)) as (r & -> & Hr). cbn [mbind outcome_bind].
  destruct r as [s|s]; [|eexists _, _, _, _; split; [done|]; split; [by intros Hex; apply Hr in Hex|done]].
  destruct Hr as [Hc1 Hs1 _ _]. destruct (core_push _ (rv_send s) (rv_skip s) l _ k Hc1) as (tq & -> & Hc2); [by rewrite hand_same|].
  cbn [mbind outcome_bind]. set (q2 := set_track k _ _) in *.
  assert (Hf2 : framed q q2) by (apply settled_framed in Hs1; exact Hs1).
  assert (Hpend : forall k', pendPool (track k' q2) = pendPool (track k' q)).
  { intros k'. destruct Hs1 as (_ & _ & _ & _ & _ & Hp1). rewrite <- Hp1. unfold q2.
    destruct (decide (k' = k)) as [->|]; [by rewrite track_same|by rewrite track_other]. }
  destruct (rv_send s) as [|x send] eqn:Es.
  - eexists _, _, _, _. split; [done|]. split; [done|]. intros _. split; [|split; [done|]].
    + eapply core_hands; [|exact Hc2]. intros k'. unfold hand. by destruct (decide (k' = k)).
    + intros k' id' r'. rewrite Hpend. by left.
  - eexists _, _, _, _. split; [done|]. split; [done|]. intros _. split; [|split; [exact Hf2|]].
    + pose proof (core_fly _ l q2 k id (mkFetchRequest p 0 (x :: send) now) Hc2 ltac:(by rewrite hand_same) eq_refl ltac:(by rewrite Hpend)) as Hc3.
      eapply core_hands; [|exact Hc3]. intros k'. unfold hand. by destruct (decide (k' = k)).
    + intros k' id' r' Hr'. destruct (decide (k' = k)) as [->|]; [|rewrite track_other, Hpend in Hr' by done; by left].
      rewrite track_same in Hr'. cbn [set_pendPool pendPool] in Hr'. apply lookup_insert_Some in Hr' as [[_ <-]|[_ Hr']]; [by right|].
      rewrite Hpend in Hr'. by left.
Qed.

(** ** Requests that end without a delivery *)

Lemma revoke_run k id l q : core no_hands l q -> exists q', revoke_content k id q = Ret q' /\ core no_hands l q' /\ framed q q' /\ pending_from (fun _ => False) q q'.
Proof.
  intros Hc. unfold revoke_content. destruct (pendPool (track k q) !! id) as [r|] eqn:E.
  - pose proof (core_land _ l q k id r Hc E) as Hc1. set (q1 := set_track k _ q) in Hc1.
    destruct (core_push _ [] (fr_Headers r) l q1 k Hc1) as (tq & E1 & Hc2); [rewrite hand_same; cbn; by rewrite app_nil_r|].
    unfold q1 in E1. rewrite track_same in E1. cbn [set_pendPool taskQueue] in E1. rewrite E1. cbn [mbind outcome_bind].
    eexists. split; [done|]. split; [|split; [done|apply pending_track; cbn [pendPool]; intros id' r' [_ ?]%lookup_delete_Some; by left]]. eapply core_hands; [|].
    2: { assert (Eq : set_track k (mkTrack (taskPool (track k q)) tq (delete id (pendPool (track k q))) (donePool (track k q))) q =
           set_track k (set_taskQueue tq (track k q1)) q1); [|rewrite Eq; exact Hc2]. unfold q1. rewrite track_same. by destruct k. }
    intros k'. unfold hand. by destruct (decide (k' = k)).
  - exists q. split; [done|]. split; [done|]. split; [done|]. by left.
Qed.

End queue.
