(* ===== verification/DlQueueSteps.v ===== *)
(** * The operations of the download queue keep its invariant

    Cancelling, revoking and expiring requests, deliveries of whatever the peers send,
    the handing out of results and the scheduling of headers, each as a step from a
    queue with the invariant of [DlQueueProps] to one. *)
From S2P Require Import Prelude GoMonad Clique TxList ChainDb HeaderChain HeaderChainProps BlockChain Prque DlPeer DlQueue DlQueueProps.
Local Open Scope Z_scope.

Lemma lookup_foldr_delete {A B : Type} (l : list (string * A)) (m : gmap string B) id :
  foldr (fun e m => delete e.1 m) m l !! id = if decide (id ∈ l.*1) then None else m !! id.
Proof.
  induction l as [|[x a] l IH]; cbn; [by rewrite decide_False by set_solver|]. destruct (decide (id = x)) as [->|Hne].
  - rewrite lookup_delete_eq, decide_True by set_solver. done.
  - rewrite lookup_delete_ne, IH by done. destruct (decide (id ∈ l.*1)); [rewrite decide_True by set_solver|rewrite decide_False by set_solver]; done.
Qed.

Section steps.
Context {KL : KvLib} {CL : CliqueLib} {TL : TxLib} {BL : ChainLib} {PL : PrqueLib Task} {DL : DlLib} {DV : DlVars}.
Context {CLaws : HeaderLaws} {PLaws : PrqueLaws} {DLaws : DlLaws}.

(** ** Requests that end without a delivery *)

Lemma Revoke_run id l q : core no_hands l q -> exists q', Revoke id q = Ret q' /\ core no_hands l q' /\ framed q q' /\ pending_from (fun _ => False) q q'.
Proof.
  intros Hc. unfold Revoke. destruct (revoke_run Bodies id l q Hc) as (q1 & -> & Hc1 & F1 & P1). cbn [mbind outcome_bind].
  destruct (revoke_run Receipts_ id l q1 Hc1) as (q2 & -> & Hc2 & F2 & P2). exists q2. split; [done|]. split; [done|].
  split; [unfold framed in *; intuition congruence|]. intros k id' r [?%P1|[]]%P2. done.
Qed.

(** A request that is cancelled is one that is pending. *)
Lemma Cancel_run k id r l q : core no_hands l q -> pendPool (track k q) !! id = Some r ->
  exists q', CancelContent k id r q = Ret q' /\ core no_hands l q' /\ framed q q' /\ pending_from (fun _ => False) q q'.
Proof.
  intros Hc E. destruct (revoke_run k id l q Hc) as (q' & E' & Hc' & F'). exists q'. split; [|done].
  unfold revoke_content in E'. rewrite E in E'. unfold CancelContent, cancel, give_back. rewrite (c_from _ _ _ Hc k id r E). cbn [Z.ltb Z.compare].
  destruct (push_headers _ _); [|done..]. cbn [mbind outcome_bind fst snd] in *. done.
Qed.

Section expire.
Context {MO : MapOrder string fetchRequest}.

(** The requests that have expired, and the others. *)
Definition expired (timeout : Z) (now : string -> Z) (e : string * fetchRequest) : Prop := timeout < now e.1 - fr_Time e.2.

#[global] Instance expired_dec timeout now e : Decision (expired timeout now e).
Proof. unfold expired. apply _. Defined.

Lemma expire_each_run timeout now L : forall tq hs E, Forall (fun e => Forall counted (fr_Headers e.2) /\ From e.2 = 0) L -> holds tq hs ->
  exists tq' E', expire_each timeout now L tq E = Ret (tq', E') /\
    holds tq' (mjoin (fr_Headers ∘ snd <$> filter (expired timeout now) L) ++ hs) /\
    (forall id, is_Some (E' !! id) <-> is_Some (E !! id) \/ id ∈ (filter (expired timeout now) L).*1) /\
    (forall id n, E' !! id = Some n -> E !! id = Some n \/ exists r, (id, r) ∈ L /\ n = Z.of_nat (length (fr_Headers r))).
Proof.
  induction L as [|[id r] L IH]; intros tq hs E HL Hh; cbn [expire_each].
  - exists tq, E. split; [done|]. split; [done|]. split; [set_solver|auto].
  - inversion HL as [|? ? [Hcnt H0] HL']; subst. cbn [snd] in *. rewrite filter_cons.
    destruct (Z.ltb_spec timeout (now id - fr_Time r)) as [Hlt|Hge].
    + rewrite decide_True by done. unfold give_back. rewrite H0. cbn [Z.ltb Z.compare].
      destruct (push_headers_run (fr_Headers r) tq hs Hcnt Hh) as (tq1 & -> & Hh1). cbn [mbind outcome_bind].
      destruct (IH tq1 _ (<[id := Z.of_nat (length (fr_Headers r))]> E) HL' Hh1) as (tq' & E' & -> & Hh' & HE & HE2).
      exists tq', E'. split; [done|]. split; [|split].
      * eapply holds_perm; [|exact Hh']. cbn. rewrite !app_assoc. apply Permutation_app_tail, Permutation_app_comm.
      * intros id'. rewrite HE, lookup_insert_is_Some'. cbn. rewrite elem_of_cons. naive_solver.
      * intros id' n [HEn|(r' & ? & ?)]%HE2; [|right; exists r'; split; [by right|done]].
        apply lookup_insert_Some in HEn as [[-> <-]|[_ ?]]; [|auto]. right. exists r. split; [left|done].
    + rewrite decide_False by (unfold expired; cbn; lia). destruct (IH tq hs E HL' Hh) as (tq' & E' & -> & Hh' & HE & HE2).
      exists tq', E'. split; [done|]. split; [done|]. split; [done|]. intros id' n [?|(r' & ? & ?)]%HE2; [auto|]. right. exists r'. split; [by right|done].
Qed.

(** What is left of a pool without the requests that satisfy [P]. *)
Definition left_of (P : string * fetchRequest -> Prop) `{!forall e, Decision (P e)} (pend pend' : gmap string fetchRequest) : Prop :=
  forall id, pend' !! id = match pend !! id with Some r => if decide (P (id, r)) then None else Some r | None => None end.

Lemma left_of_list (P : string * fetchRequest -> Prop) `{!forall e, Decision (P e)} pend pend' :
  left_of P pend pend' -> map_to_list pend ≡ₚ filter P (range pend) ++ map_to_list pend'.
Proof using MO.
  intros Hp. assert (Hk : map_to_list pend' ≡ₚ filter (fun e => ~ P e) (range pend)).
  { rewrite (filter_Permutation _ _ _ (range_perm pend)). apply NoDup_Permutation.
    - apply NoDup_map_to_list.
    - apply NoDup_filter, NoDup_map_to_list.
    - intros [id r]. rewrite list_elem_of_filter, !elem_of_map_to_list, Hp. destruct (pend !! id) as [r0|]; [|naive_solver].
      destruct (decide (P (id, r0))); naive_solver. }
  rewrite Hk, <- (range_perm pend). by rewrite <- (filter_app_complement P (range pend)) at 1.
Qed.

Lemma foldr_delete_left (P : string * fetchRequest -> Prop) `{!forall e, Decision (P e)} (pend : gmap string fetchRequest) (E : gmap string Z) :
  (forall id, is_Some (E !! id) <-> exists r, pend !! id = Some r /\ P (id, r)) ->
  left_of P pend (foldr (fun e m => delete e.1 m) pend (map_to_list E)).
Proof using.
  intros Hex id. rewrite lookup_foldr_delete. destruct (decide (id ∈ (map_to_list E).*1)) as [Hin|Hni].
  - assert (HS : is_Some (E !! id)). { apply list_elem_of_fmap in Hin as ([id' n] & -> & Hin). apply elem_of_map_to_list in Hin. eauto. }
    apply Hex in HS as (r & -> & Hx). by rewrite decide_True.
  - destruct (pend !! id) as [r|] eqn:Er; [|done]. rewrite decide_False; [done|]. intros Hx. apply Hni.
    destruct (proj2 (Hex id)) as [n Hn]; [eauto|]. apply list_elem_of_fmap. exists (id, n). split; [done|]. by apply elem_of_map_to_list.
Qed.

(** The requests that are reported are those that have expired. *)
Lemma expired_found (P : string * fetchRequest -> Prop) `{!forall e, Decision (P e)} (pend : gmap string fetchRequest) id :
  id ∈ (filter P (range pend)).*1 <-> exists r, pend !! id = Some r /\ P (id, r).
Proof using MO.
  rewrite list_elem_of_fmap. setoid_rewrite list_elem_of_filter. split.
  - intros ([id' r] & -> & Hx & Hin). rewrite (range_perm pend) in Hin. apply elem_of_map_to_list in Hin. eauto.
  - intros (r & Hr & Hx). exists (id, r). split; [done|]. split; [done|]. rewrite (range_perm pend). by apply elem_of_map_to_list.
Qed.

Lemma Expire_run k timeout now l q : core no_hands l q ->
  exists E q', ExpireContent k timeout now q = Ret (E, q') /\ core no_hands l q' /\ framed q q' /\ pending_from (fun _ => False) q q' /\
    forall id, is_Some (E !! id) <-> exists r, pendPool (track k q) !! id = Some r /\ expired timeout now (id, r).
Proof.
  intros Hc. unfold ExpireContent, expire. destruct (c_split _ _ _ Hc k) as (hs & Hh & Hp). set (t := track k q) in *.
  assert (HL : Forall (fun e => Forall counted (fr_Headers e.2) /\ From e.2 = 0) (range (pendPool t))).
  { apply Forall_forall. intros [id r] Hin. rewrite (range_perm (pendPool t)) in Hin. apply elem_of_map_to_list in Hin. split; [|by apply (c_from _ _ _ Hc k id)].
    apply Forall_forall. intros h Hin'. apply (core_counted no_hands l q Hc), (flying_waiting no_hands l q Hc k).
    rewrite (flying_delete (track k q) id r Hin). set_solver. }
  destruct (expire_each_run timeout now (range (pendPool t)) (taskQueue t) hs ∅ HL Hh) as (tq' & E & -> & Hh' & HE & _). cbn [mbind outcome_bind fst snd].
  set (pend' := foldr _ _ _). exists E. eexists. split; [done|].
  assert (Hex : forall id, is_Some (E !! id) <-> exists r, pendPool t !! id = Some r /\ expired timeout now (id, r)).
  { intros id. rewrite HE, lookup_empty, expired_found. split; [intros [[? ?]|?]; done|auto]. }
  pose proof (foldr_delete_left (expired timeout now) (pendPool t) E Hex) as Hpe. fold pend' in Hpe.
  split; [|split; [done|split; [apply pending_track; intros id r; cbn [pendPool]; rewrite Hpe; fold t; destruct (pendPool t !! id); [case_decide|]; naive_solver|done]]].
  assert (Hf : flying t ≡ₚ mjoin (fr_Headers ∘ snd <$> filter (expired timeout now) (range (pendPool t))) ++ flying (set_pendPool pend' t)).
  { unfold flying. cbn [set_pendPool pendPool]. by rewrite (left_of_list _ _ _ Hpe), fmap_app, join_app. }
  pose proof (core_moved no_hands [] l q k (mkTrack (taskPool t) tq' pend' (donePool t)) hs _ Hc eq_refl eq_refl Hh Hh') as Hm.
  eapply core_hands; [|apply Hm].
  - intros k'. unfold hand. by destruct (decide _).
  - cbn [no_hands app]. change (track k q) with t. rewrite Hf. change (flying (mkTrack _ tq' pend' _)) with (flying (set_pendPool pend' t)).
    rewrite <- app_assoc. rewrite !app_assoc. apply Permutation_app_tail, Permutation_app_comm.
  - intros h. change (track k q) with t. rewrite Hf. change (flying (mkTrack _ tq' pend' _)) with (flying (set_pendPool pend' t)). set_solver.
  - intros id r. cbn [pendPool]. rewrite Hpe. destruct (pendPool t !! id) as [r0|] eqn:Er; [|done]. destruct (decide _); [done|]. intros [= <-]. by apply (c_from _ _ _ Hc k id).
Qed.

End expire.

(** ** Deliveries *)

(** A delivery of bodies has as many lists of uncles as of transactions. *)
Definition even_parts (ps : Parts) : Prop :=
  match ps with BodyParts txLists uncleLists => length uncleLists = length txLists | ReceiptParts _ => True end.

(** What is put into a result has the root of the header. *)
Lemma reconstruct_run ps h i r : even_parts ps -> (i < parts_length ps)%nat ->
  exists res, reconstruct ps h i r = Ret res /\
    match res with
    | inl r' => fr_Header r' = fr_Header r /\ Pending r' = Pending r /\ good (content_of ps) h r' /\
        forall k, k <> content_of ps -> part_same k r r'
    | inr e => e = errInvalidBody \/ e = errInvalidReceipt
    end.
Proof.
  destruct ps as [txs us|rs]; cbn [even_parts parts_length content_of reconstruct]; intros He Hi.
  - destruct (lookup_lt_is_Some_2 txs i Hi) as [tx ->]. destruct (Z.eqb_spec (DeriveSha_block tx) (TxHash h)) as [E1|]; cbn [negb]; [|eexists; split; [done|]; cbn; auto].
    destruct (lookup_lt_is_Some_2 us i) as [u ->]; [lia|]. destruct (Z.eqb_spec (CalcUncleHash u) (UncleHash h)) as [E2|]; cbn [negb]; [|eexists; split; [done|]; cbn; auto].
    eexists. split; [done|]. split; [done|]. split; [done|]. split; [done|]. by intros [].
  - destruct (lookup_lt_is_Some_2 rs i Hi) as [x ->]. destruct (Z.eqb_spec (DeriveSha_receipts x) (ReceiptHash h)) as [E1|]; cbn [negb]; [|eexists; split; [done|]; cbn; auto].
    eexists. split; [done|]. split; [done|]. split; [done|]. split; [done|]. by intros [].
Qed.

Lemma framed_trans q1 q2 q3 : framed q1 q2 -> framed q2 q3 -> framed q1 q3.
Proof. unfold framed. intuition congruence. Qed.

Lemma assemble_run ps l : even_parts ps -> forall headers i q, core (hand (content_of ps) headers no_hands) l q ->
  exists q' rest n failure, assemble ps i headers q = Ret (q', rest, n, failure) /\
    core (hand (content_of ps) rest no_hands) l q' /\ framed q q' /\ failure <> Some errInvalidChain /\
    (forall k, pendPool (track k q') = pendPool (track k q)).
Proof.
  intros He. set (k := content_of ps). induction headers as [|h headers IH]; intros i q Hc; cbn [assemble].
  - eexists _, _, _, _. split; [done|]. done.
  - destruct (Nat.leb_spec (parts_length ps) i) as [?|Hi]; [eexists _, _, _, _; split; [done|]; done|].
    assert (Hin : h ∈ hand k (h :: headers) no_hands k) by (rewrite hand_same; left).
    destruct (hands_waiting _ l q Hc k h Hin) as [[j Hj]%list_elem_of_lookup Hm]. rewrite (core_index _ l q Hc j h Hj). cbn [mbind outcome_bind].
    destruct (c_alloc _ _ _ Hc k j h Hj) as [r Hr]; [auto|]. destruct (Z.ltb_spec (Z.of_nat j) 0); [lia|]. rewrite Nat2Z.id, Hr. cbn [mjoin option_join].
    destruct (reconstruct_run ps h i r He Hi) as (res & -> & Hres). cbn [mbind outcome_bind]. destruct res as [r'|e].
    + destruct Hres as (E1 & E2 & Hg & Hk).
      pose proof (core_finish _ l q Hc k j h headers r r' Hj ltac:(by rewrite hand_same) Hr E1 E2 Hg Hk) as Hc1.
      set (q1 := set_cache _ q) in *. fold k. rewrite <- (track_cache k (<[j := Some (less_pending r')]> (resultCache q)) q) in Hc1. fold q1 in Hc1.
      destruct (IH (S i) (set_track k (finish_task (Header_Hash h) (track k q1)) q1)) as (q' & rest & n & f & -> & Hc' & F' & Hf & Hp').
      { eapply core_hands; [|exact Hc1]. intros k'. unfold hand. by destruct (decide (k' = k)). }
      eexists _, _, _, _. split; [done|]. split; [done|]. split; [done|]. split; [done|]. intros k'. rewrite Hp'.
      destruct (decide (k' = k)) as [->|]; [rewrite track_same; cbn; unfold q1; by rewrite track_cache|rewrite track_other by done; unfold q1; by rewrite track_cache].
    + eexists _, _, _, _. split; [done|]. split; [done|]. split; [done|]. split; [by destruct Hres as [-> | ->]|done].
Qed.

(** The queue after the delivery of a request. *)
Lemma delivery_run ps id r l q : even_parts ps -> core no_hands l q -> pendPool (track (content_of ps) q) !! id = Some r ->
  let k := content_of ps in
  let q0 := set_track k (set_pendPool (delete id (pendPool (track k q))) (track k q)) q in
  exists q1 rest n failure tq, assemble ps 0 (fr_Headers r) q0 = Ret (q1, rest, n, failure) /\
    push_headers (taskQueue (track k q1)) rest = Ret tq /\ failure <> Some errInvalidChain /\
    core no_hands l (set_track k (set_taskQueue tq (track k q1)) q1) /\ framed q q1 /\
    (forall k', pendPool (track k' q1) = if decide (k' = k) then delete id (pendPool (track k' q)) else pendPool (track k' q)).
Proof.
  intros He Hc Hr k q0. pose proof (core_land no_hands l q k id r Hc Hr) as Hc0. fold q0 in Hc0.
  destruct (assemble_run ps l He (fr_Headers r) 0 q0) as (q1 & rest & n & f & E & Hc1 & F1 & Hf & Hp).
  { eapply core_hands; [|exact Hc0]. intros k'. change (content_of ps) with k. unfold hand, no_hands. destruct (decide (k' = k)); [by rewrite app_nil_r|done]. }
  destruct (core_push _ [] rest l q1 k Hc1) as (tq & E' & Hc2); [by rewrite hand_same|].
  exists q1, rest, n, f, tq. split; [done|]. split; [done|]. split; [done|]. split; [|split].
  - eapply core_hands; [|exact Hc2]. intros k'. change (content_of ps) with k. unfold hand. by destruct (decide (k' = k)).
  - exact F1.
  - intros k'. rewrite Hp. unfold q0. destruct (decide (k' = k)) as [->|]; [by rewrite track_same|by rewrite track_other].
Qed.

(** ** Results *)

(** Everything that is handed out is complete. *)
Definition complete (q : queue) (r : fetchResult) : Prop :=
  good Bodies (fr_Header r) r /\ (needs q Receipts_ (fr_Header r) = true -> good Receipts_ (fr_Header r) r).

Lemma entry_complete q h r : entry_ok q h r -> Pending r <= 0 -> complete q r /\ forall k, ~ missing q k h.
Proof.
  intros [E1 E2 E3 E4] Hp. assert (Hm : forall k, ~ missing q k h).
  { intros k Hk. rewrite E2 in Hp. unfold owed in Hp. destruct k; destruct (decide (missing q Bodies h)), (decide (missing q Receipts_ h)); tauto || lia. }
  split; [|done]. unfold complete. rewrite E1. split.
  - apply (E3 Bodies). destruct (decide (Header_Hash h ∈ donePool (track Bodies q))); [done|]. by destruct (Hm Bodies).
  - intros Hn. apply (E3 Receipts_). destruct (decide (Header_Hash h ∈ donePool (track Receipts_ q))); [done|]. by destruct (Hm Receipts_).
Qed.

(** The entries that are counted have nothing pending. *)
Lemma count_from_run X l q : core X l q -> forall cache i, cache = drop i (resultCache q) ->
  exists n, count_from q i cache = Ret n /\ (i <= n <= i + length cache)%nat /\
    forall j, (i <= j < n)%nat -> exists r, resultCache q !! j = Some (Some r) /\ Pending r <= 0.
Proof.
  intros Hc. induction cache as [|o cache IH]; intros i Ec; cbn [count_from].
  - exists i. split; [done|]. split; [cbn; lia|]. intros j Hj. lia.
  - assert (Hstop : exists n, Ret i = Ret n /\ (i <= n <= i + length (o :: cache))%nat /\
      forall j, (i <= j < n)%nat -> exists r, resultCache q !! j = Some (Some r) /\ Pending r <= 0).
    { exists i. split; [done|]. split; [cbn; lia|]. intros j Hj. lia. }
    destruct o as [r|]; [|done]. destruct (Z.ltb_spec 0 (Pending r)) as [|Hp]; [done|].
    assert (Hi : resultCache q !! i = Some (Some r)) by (rewrite <- (Nat.add_0_r i), <- lookup_drop, <- Ec; done).
    assert (Hgo : exists n, count_from q (S i) cache = Ret n /\ (i <= n <= i + length (Some r :: cache))%nat /\
      forall j, (i <= j < n)%nat -> exists r, resultCache q !! j = Some (Some r) /\ Pending r <= 0).
    { destruct (IH (S i)) as (n & E & Hn & Hall); [rewrite <- drop_drop, (Nat.add_1_r i) || idtac; by rewrite <- Nat.add_1_r, <- drop_drop, <- Ec|].
      exists n. split; [done|]. split; [cbn; lia|]. intros j Hj. destruct (decide (j = i)) as [->|]; [eauto|]. apply Hall. lia. }
    destruct (bool_decide (mode q = FastSync)); [|done]. destruct (c_entry _ _ _ Hc i r Hi) as (h & Hh & He).
    destruct (c_number _ _ _ Hc i h Hh) as [En _]. rewrite (eo_header _ _ _ He), En. cbn [mbind outcome_bind].
    by destruct (_ && _).
Qed.

Lemma all_there {A : Type} (c : list (option A)) : forall n, (forall j, (j < n)%nat -> exists r, c !! j = Some (Some r)) ->
  exists rs, take n c = Some <$> rs /\ length rs = n.
Proof.
  induction c as [|o c IH]; intros [|n] Hc; [by exists []| |by exists []|].
  - destruct (Hc 0%nat) as [r Hr]; [lia|]. done.
  - destruct (Hc 0%nat) as [r Hr]; [lia|]. injection Hr as ->. destruct (IH n) as (rs & E & El).
    { intros j Hj. apply (Hc (S j)). lia. }
    exists (r :: rs). cbn. rewrite E, El. done.
Qed.

Lemma omap_id_Some {A : Type} (rs : list A) : omap id (Some <$> rs) = rs.
Proof. induction rs as [|r rs IH]; [done|]. cbn. by rewrite IH. Qed.

Section hand_out.
Context (l : list Header) (q : queue) (Hc : core no_hands l q) (n : nat) (rs : list fetchResult).
Context (Ers : take n (resultCache q) = Some <$> rs) (Hlen : length rs = n) (Hpend : forall r, r ∈ rs -> Pending r <= 0).

Lemma out_entry j r : rs !! j = Some r -> l !! j = Some (fr_Header r) /\ entry_ok q (fr_Header r) r.
Proof.
  intros Hj. pose proof (lookup_lt_Some _ _ _ Hj) as Hlt. destruct (c_entry _ _ _ Hc j r) as (h & Hh & He).
  { rewrite <- (lookup_take_lt _ n) by lia. rewrite Ers, list_lookup_fmap, Hj. done. }
  rewrite (eo_header _ _ _ He). done.
Qed.

Lemma out_headers : fr_Header <$> rs = take n l.
Proof.
  apply list_eq. intros j. rewrite list_lookup_fmap. destruct (rs !! j) as [r|] eqn:Ej; cbn.
  - pose proof (lookup_lt_Some _ _ _ Ej). rewrite lookup_take_lt by lia. symmetry. by apply out_entry.
  - apply lookup_ge_None in Ej. symmetry. apply lookup_ge_None. rewrite length_take. lia.
Qed.

Lemma out_length : (n <= length l)%nat.
Proof. pose proof out_headers as E. apply (f_equal length) in E. rewrite length_fmap, length_take in E. lia. Qed.

Lemma out_complete : Forall (complete q) rs.
Proof.
  apply Forall_forall. intros r Hr. pose proof (Hpend r Hr). apply list_elem_of_lookup in Hr as [j Hj].
  destruct (out_entry j r Hj) as [_ He]. by apply (entry_complete q (fr_Header r) r He).
Qed.

Let S : gset Hash := list_to_set ((Header_Hash ∘ fr_Header) <$> rs).
Let q' := set_offset (u64 (resultOffset q + Z.of_nat n)) (set_cache (drop n (resultCache q) ++ replicate n None)
  (set_track Receipts_ (undo_done rs (receipts q)) (set_track Bodies (undo_done rs (blocks q)) q))).

Lemma out_hash h : Header_Hash h ∈ S <-> h ∈ take n l.
Proof.
  unfold S. rewrite elem_of_list_to_set, <- out_headers, !list_elem_of_fmap. split.
  - intros (r & E%hash_inj & Hr). eauto.
  - intros (r & -> & Hr). eauto.
Qed.

Lemma out_offset : resultOffset q' = resultOffset q + Z.of_nat n.
Proof.
  cbn. pose proof (c_offset _ _ _ Hc). pose proof out_length. apply u64_small. unfold is_u64, MaxUint64. lia.
Qed.

Lemma out_track k : taskPool (track k q') = taskPool (track k q) /\ taskQueue (track k q') = taskQueue (track k q) /\
  pendPool (track k q') = pendPool (track k q) /\ donePool (track k q') = donePool (track k q) ∖ S.
Proof. by destruct k. Qed.

Lemma out_drop i h : drop n l !! i = Some h -> h ∈ l /\ Header_Hash h ∉ S.
Proof.
  intros Hi. rewrite lookup_drop in Hi. split; [by eapply list_elem_of_lookup_2|]. rewrite out_hash. intros [j Hj]%list_elem_of_lookup.
  apply lookup_take_Some in Hj as [Hj Hlt]. pose proof (proj1 (NoDup_alt l) (core_nodup _ _ _ Hc) _ _ _ Hi Hj). lia.
Qed.

Lemma out_missing k h : h ∈ drop n l -> missing q' k h <-> missing q k h.
Proof.
  intros [i Hi]%list_elem_of_lookup. destruct (out_drop i h Hi) as [_ Hs]. unfold missing.
  destruct (out_track k) as (_ & _ & _ & ->). rewrite (needs_same q q') by done. set_solver.
Qed.

Lemma out_not_missing k h : h ∈ take n l -> ~ missing q k h.
Proof.
  rewrite <- out_headers. intros (r & -> & Hr)%list_elem_of_fmap. pose proof (Hpend r Hr). apply list_elem_of_lookup in Hr as [j Hj].
  destruct (out_entry j r Hj) as [_ He]. by apply (entry_complete q (fr_Header r) r He).
Qed.

Lemma out_kept h k : h ∈ l -> missing q k h -> h ∈ drop n l.
Proof. intros Hl Hm. rewrite <- (take_drop n l), elem_of_app in Hl. destruct Hl as [Hl|?]; [|done]. by apply (out_not_missing k) in Hl. Qed.

Lemma out_waiting k : waiting q k l = waiting q' k (drop n l).
Proof.
  unfold waiting. rewrite <- (take_drop n l) at 1. rewrite filter_app, filter_none by (intros x; by apply out_not_missing).
  cbn. apply filter_keep. intros x Hx. symmetry. by apply out_missing.
Qed.

Lemma core_out : core no_hands (drop n l) q'.
Proof.
  pose proof Hc as [H1 H2 H3 H4 H5 H6 H7 H8]. pose proof out_offset as Eo. pose proof out_length as Hl.
  assert (Hd : forall k h, h ∈ drop n l -> Header_Hash h ∈ donePool (track k q') <-> Header_Hash h ∈ donePool (track k q)).
  { intros k h [i Hi]%list_elem_of_lookup. destruct (out_drop i h Hi). destruct (out_track k) as (_ & _ & _ & ->). set_solver. }
  split.
  - rewrite Eo, length_drop. lia.
  - intros i h Hi. rewrite Eo. rewrite lookup_drop in Hi. destruct (H2 _ _ Hi) as [E ?]. split; [|done]. rewrite E. f_equal. lia.
  - intros k. destruct (H3 k) as (hs & Hh & Hp). exists hs. destruct (out_track k) as (_ & -> & Ep & _). rewrite (flying_pend _ _ Ep). by rewrite <- out_waiting.
  - intros k hash. destruct (out_track k) as (_ & _ & _ & ->). intros [(h & Hin & Hn & <-)%H4 Hns]%elem_of_difference. exists h.
    rewrite (needs_same q q') by done. split; [|done]. rewrite out_hash in Hns. rewrite <- (take_drop n l), elem_of_app in Hin. tauto.
  - intros k hash h. destruct (out_track k) as (-> & _). intros (? & Hin & Hm)%H5. split; [done|]. pose proof (out_kept h k Hin Hm). split; [done|]. by apply out_missing.
  - intros i r Hi. assert (Hi' : resultCache q !! (n + i)%nat = Some (Some r)).
    { cbn in Hi. apply lookup_app_Some in Hi as [Hi|[_ Hi]]; [by rewrite lookup_drop in Hi|]. by apply lookup_replicate in Hi as [? _]. }
    destruct (H6 _ _ Hi') as (h & Hh & [G1 G2 G3 G4]). rewrite <- lookup_drop in Hh. exists h. split; [done|].
    pose proof (list_elem_of_lookup_2 _ _ _ Hh) as Hin. split; [done| |intros k; rewrite Hd by done; auto..].
    rewrite G2. f_equal; symmetry; apply owed_same, out_missing; done.
  - intros k i h Hi. rewrite Hd by (by eapply list_elem_of_lookup_2). destruct (out_track k) as (_ & _ & Ep & _). rewrite (flying_pend _ _ Ep). intros Hor.
    rewrite lookup_drop in Hi. destruct (H7 k _ h Hi Hor) as [r Hr]. exists r. cbn. apply lookup_app_l_Some. by rewrite lookup_drop.
  - intros k id r. destruct (out_track k) as (_ & _ & -> & _). apply H8.
Qed.

End hand_out.

(** What is handed out are the first headers, complete. *)
Lemma WaitResults_run l q : core no_hands l q ->
  exists o, WaitResults q = Ret o /\
    match o with
    | None => closed q = false
    | Some (results, q') => fr_Header <$> results = take (length results) l /\ Forall (complete q) results /\
        core no_hands (drop (length results) l) q' /\ resultOffset q' = resultOffset q + Z.of_nat (length results) /\
        mode q' = mode q /\ fastSyncPivot q' = fastSyncPivot q /\ headerHead q' = headerHead q /\ pending_from (fun _ => False) q q' /\ (results = [] -> closed q = true)
    end.
Proof.
  intros Hc. unfold WaitResults, countProcessableItems. destruct (count_from_run _ l q Hc (resultCache q) 0 eq_refl) as (n & -> & Hn & Hall).
  cbn [mbind outcome_bind]. destruct (all_there (resultCache q) n) as (rs & Ers & El).
  { intros j Hj. destruct (Hall j) as (r & Hr & _); [lia|]. eauto. }
  assert (Hp : forall r, r ∈ rs -> Pending r <= 0).
  { intros r [j Hj]%list_elem_of_lookup. pose proof (lookup_lt_Some _ _ _ Hj). destruct (Hall j) as (r' & Hr' & ?); [lia|].
    assert (r' = r) as ->; [|done]. rewrite <- (lookup_take_lt _ n) in Hr' by lia. rewrite Ers, list_lookup_fmap, Hj in Hr'. by injection Hr'. }
  rewrite Ers, omap_id_Some. destruct (Z.eqb_spec (Z.of_nat n) 0) as [E0|Hne]; cbn [andb].
  - destruct (closed q) eqn:Ecl; cbn [negb]; [|by eexists]. eexists. split; [done|]. assert (n = 0%nat) as -> by lia.
    destruct rs; [|done]. cbn. repeat (split; [done|]). split; [lia|]. repeat (split; [done|]). split; [by left|done].
  - eexists. split; [done|]. cbv beta iota. rewrite El. split; [by apply (out_headers l q Hc n rs)|]. split; [by apply (out_complete l q Hc n rs)|].
    split; [by apply (core_out l q Hc n rs)|]. split; [by apply (out_offset l q Hc n rs)|]. repeat (split; [done|]).
    split; [intros k id r; destruct (out_track q n rs k) as (_ & _ & -> & _); by left|]. intros ->. cbn in El. lia.
Qed.

(** ** Scheduling *)

(** The headers that continue the chain: the longest prefix with consecutive numbers
    and, after the first header of all, with the hash of the one before as parent. *)
Definition continues (head : Hash) (from : Z) (h : Header) : bool :=
  match header_number h with Ret n => (n =? from) && ((head =? 0) || (head =? ParentHash h)) | _ => false end.

Fixpoint accepted (head : Hash) (from : Z) (headers : list Header) : list Header :=
  match headers with
  | [] => []
  | h :: rest => if continues head from h then h :: accepted (Header_Hash h) (from + 1) rest else []
  end.

(** The hash of the last header. *)
Definition head_after (head : Hash) (l : list Header) : Hash := foldl (fun _ h => Header_Hash h) head l.

Section schedule.
Context (l : list Header) (q : queue) (Hc : core no_hands l q) (h : Header).
Context (En : header_number h = Ret (resultOffset q + Z.of_nat (length l))) (Hnn : nonneg h).
Context (Hb : resultOffset q + Z.of_nat (length l) + 1 < 9223372036854775808).

Lemma new_header : h ∉ l.
Proof.
  intros [i Hi]%list_elem_of_lookup. pose proof (lookup_lt_Some _ _ _ Hi). destruct (c_number _ _ _ Hc i h Hi) as [E _].
  rewrite En in E. injection E as E. lia.
Qed.

Lemma new_not_done k : Header_Hash h ∉ donePool (track k q).
Proof. intros (x & Hin & _ & E%hash_inj)%(c_done _ _ _ Hc). subst. by apply new_header. Qed.

Lemma new_not_pooled k : taskPool (track k q) !! Header_Hash h = None.
Proof.
  destruct (taskPool (track k q) !! Header_Hash h) as [x|] eqn:E; [|done].
  destruct (c_pool _ _ _ Hc _ _ _ E) as (Eh%hash_inj & Hin & _). subst. by apply new_header in Hin.
Qed.

(** The tracks after the new task. *)
Definition tasked (q2 : queue) : Prop := forall k,
  if needs q k h then exists tq hs, track k q2 = mkTrack (<[Header_Hash h := h]> (taskPool (track k q))) tq (pendPool (track k q)) (donePool (track k q)) /\
    holds (taskQueue (track k q)) hs /\ holds tq (h :: hs)
  else track k q2 = track k q.

Lemma tasked_done q2 k : tasked q2 -> donePool (track k q2) = donePool (track k q) /\ pendPool (track k q2) = pendPool (track k q).
Proof. intros Ht. specialize (Ht k). destruct (needs q k h); [by destruct Ht as (tq & hs & -> & _)|by rewrite Ht]. Qed.

Lemma tasked_missing q2 k x : tasked q2 -> mode q2 = mode q -> fastSyncPivot q2 = fastSyncPivot q -> missing q2 k x <-> missing q k x.
Proof. intros Ht E1 E2. apply missing_same; try done. by apply tasked_done. Qed.

Lemma tasked_core q2 : tasked q2 -> mode q2 = mode q -> fastSyncPivot q2 = fastSyncPivot q -> resultOffset q2 = resultOffset q ->
  resultCache q2 = resultCache q -> core no_hands (l ++ [h]) q2.
Proof.
  intros Ht E1 E2 E3 E4. pose proof Hc as [H1 H2 H3 H4 H5 H6 H7 H8].
  assert (Hm : forall k x, missing q2 k x <-> missing q k x) by (intros; by apply tasked_missing).
  assert (Hw : forall k, waiting q2 k (l ++ [h]) = waiting q k l ++ (if needs q k h then [h] else [])).
  { intros k. unfold waiting. rewrite filter_app. f_equal; [by apply filter_keep|]. rewrite filter_cons, filter_nil.
    destruct (needs q k h) eqn:Ek; [rewrite decide_True; [done|]; rewrite Hm; split; [done|apply new_not_done]|].
    rewrite decide_False; [done|]. rewrite Hm. intros [? _]. congruence. }
  split.
  - rewrite E3, length_app. cbn. lia.
  - intros i x Hi. rewrite E3. apply lookup_app_Some in Hi as [Hi|[Hge Hi]]; [auto|]. apply list_lookup_singleton_Some in Hi as [? <-].
    split; [|done]. rewrite En. do 2 f_equal. lia.
  - intros k. rewrite Hw. destruct (H3 k) as (hs & Hh & Hp). destruct (tasked_done q2 k Ht) as [_ Ef]. rewrite (flying_pend _ _ Ef).
    specialize (Ht k). destruct (needs q k h).
    + destruct Ht as (tq & hs' & -> & Hh' & Hh2). exists (h :: hs'). split; [done|]. rewrite (holds_unique _ _ _ Hh' Hh), <- Hp. cbn. apply Permutation_cons_append.
    + rewrite Ht. exists hs. split; [done|]. by rewrite app_nil_r.
  - intros k hash. rewrite (proj1 (tasked_done q2 k Ht)). intros (x & ? & ? & ?)%H4. exists x. rewrite (needs_same q q2) by done. set_solver.
  - intros k hash x Hx. rewrite Hm. specialize (Ht k). destruct (needs q k h) eqn:Ek.
    + destruct Ht as (tq & hs' & Et & _). rewrite Et in Hx. cbn in Hx. apply lookup_insert_Some in Hx as [[<- <-]|[_ (? & ? & ?)%H5]]; [|set_solver].
      split; [done|]. split; [set_solver|]. split; [done|apply new_not_done].
    + rewrite Ht in Hx. apply H5 in Hx as (? & ? & ?). set_solver.
  - intros i r. rewrite E4. intros (x & Hx & [G1 G2 G3 G4])%H6. exists x. split; [by apply lookup_app_l_Some|].
    split; [done| |intros k; rewrite (proj1 (tasked_done q2 k Ht)); auto..]. rewrite G2. f_equal; symmetry; by apply owed_same.
  - intros k i x Hi. rewrite (proj1 (tasked_done q2 k Ht)), (flying_pend _ _ (proj2 (tasked_done q2 k Ht))), E4. intros Hor.
    apply lookup_app_Some in Hi as [Hi|[_ Hi]]; [eauto|]. apply list_lookup_singleton_Some in Hi as [_ <-]. exfalso.
    destruct Hor as [Hd|[Hin|Hin]]; [by apply new_not_done in Hd|by apply elem_of_nil in Hin|].
    apply (flying_waiting no_hands l q Hc) in Hin as [Hin _]. by apply new_header.
  - intros k id r. rewrite (proj2 (tasked_done q2 k Ht)). apply H8.
Qed.

Lemma add_tasks_run : let n := resultOffset q + Z.of_nat (length l) in
  exists q2, (q1 ← add_task Bodies h q; if fast_phase q n then add_task Receipts_ h q1 else Ret q1) = Ret q2 /\
    core no_hands (l ++ [h]) q2 /\ framed q q2 /\ pending_from (fun _ => False) q q2.
Proof.
  intros n. destruct (c_split _ _ _ Hc Bodies) as (hs1 & Hh1 & _). destruct (c_split _ _ _ Hc Receipts_) as (hs2 & Hh2 & _).
  destruct (push_header_run (taskQueue (track Bodies q)) h hs1) as (tq1 & E1 & Ht1); [by eexists|done|].
  destruct (push_header_run (taskQueue (track Receipts_ q)) h hs2) as (tq2 & E2 & Ht2); [by eexists|done|].
  unfold add_task. rewrite E1. cbn [mbind outcome_bind].
  destruct (fast_phase q n) eqn:Ef.
  - rewrite (track_other Bodies Receipts_) by done. rewrite E2. cbn [mbind outcome_bind]. eexists. split; [done|].
    split; [|split; [done|intros [] id r; by left]]. apply tasked_core; try done. intros [].
    + cbn [needs]. exists tq1, hs1. done.
    + cbn [needs]. rewrite (num_number h _ En). fold n. rewrite Ef. exists tq2, hs2. done.
  - eexists. split; [done|]. split; [|split; [done|intros [] id r; by left]]. apply tasked_core; try done. intros [].
    + cbn [needs]. exists tq1, hs1. done.
    + cbn [needs]. rewrite (num_number h _ En). fold n. by rewrite Ef.
Qed.

End schedule.

Lemma core_headerHead X l q x : core X l q -> core X l (set_headerHead x q).
Proof. intros [H1 H2 H3 H4 H5 H6 H7 H8]. split; try done. intros i r (h & Hh & [G1 G2 G3 G4])%H6. by exists h. Qed.

Lemma Schedule_cons h rest from q : Schedule (h :: rest) from q =
  if continues (headerHead q) from h then
    if found (taskPool (blocks q) !! Header_Hash h) then Schedule rest from q
    else if found (taskPool (receipts q) !! Header_Hash h) then Schedule rest from q
    else
      q2 ← (q1 ← add_task Bodies h q; if fast_phase q from then add_task Receipts_ h q1 else Ret q1);
      r ← Schedule rest (u64 (from + 1)) (set_headerHead (Header_Hash h) q2);
      Ret (h :: fst r, snd r)
  else Ret ([], q).
Proof.
  cbn [Schedule]. unfold continues, header_number, big_Uint64. destruct (Number h) as [z|]; [|done]. cbn [mbind outcome_bind].
  destruct (Z.eqb_spec (u64 (Z.abs z)) from) as [->|]; cbn [negb andb]; [|done].
  destruct (headerHead q =? 0), (headerHead q =? ParentHash h); cbn [negb andb orb]; try done;
  repeat (destruct (found _); [done|]); by destruct (add_task Bodies h q).
Qed.

(** Scheduling adds the headers that continue the chain. *)
Lemma Schedule_run headers : forall l q, core no_hands l q -> Forall nonneg headers ->
  resultOffset q + Z.of_nat (length l) + Z.of_nat (length headers) < 9223372036854775808 ->
  let from := resultOffset q + Z.of_nat (length l) in let ins := accepted (headerHead q) from headers in
  exists q', Schedule headers from q = Ret (ins, q') /\ core no_hands (l ++ ins) q' /\ headerHead q' = head_after (headerHead q) ins /\
    mode q' = mode q /\ fastSyncPivot q' = fastSyncPivot q /\ resultOffset q' = resultOffset q /\ pending_from (fun _ => False) q q'.
Proof.
  induction headers as [|h headers IH]; intros l q Hc Hnn Hb; cbv zeta; [exists q; cbn; rewrite app_nil_r; repeat (split; [done|]); by left|].
  inversion Hnn as [|? ? Hh Hnn']; subst. cbn [length] in Hb. rewrite Schedule_cons. cbn [accepted]. set (from := resultOffset q + Z.of_nat (length l)) in *.
  destruct (continues (headerHead q) from h) eqn:Ec; [|exists q; rewrite app_nil_r; repeat (split; [done|]); by left].
  assert (En : header_number h = Ret from).
  { unfold continues in Ec. destruct (header_number h) as [n| |]; [|done..]. apply andb_true_iff in Ec as [E%Z.eqb_eq _]. by subst. }
  pose proof (new_not_pooled l q Hc h En Bodies) as Np1. pose proof (new_not_pooled l q Hc h En Receipts_) as Np2.
  cbn [track] in Np1, Np2. rewrite Np1, Np2. cbn [found].
  destruct (add_tasks_run l q Hc h En Hh ltac:(unfold from in Hb; lia)) as (q2 & E2 & Hc2 & (F1 & F2 & F3 & F4) & P2). fold from in E2. rewrite E2. cbn [mbind outcome_bind].
  assert (Eu : u64 (from + 1) = from + 1) by (apply u64_small; pose proof (c_offset _ _ _ Hc); unfold is_u64, MaxUint64; lia).
  destruct (IH (l ++ [h]) (set_headerHead (Header_Hash h) q2)) as (q' & E' & Hc' & Hh' & G1 & G2 & G3 & P');
    [by apply core_headerHead|done|rewrite length_app; cbn; rewrite F4; lia|].
  assert (Ef : resultOffset (set_headerHead (Header_Hash h) q2) + Z.of_nat (length (l ++ [h])) = from + 1)
    by (rewrite length_app; cbn; rewrite F4; unfold from; lia).
  rewrite Ef in E', Hc', Hh'. rewrite Eu, E'. cbn [mbind outcome_bind fst snd]. exists q'. split; [done|].
  split; [by rewrite <- app_assoc in Hc'|]. split; [done|]. cbn in G1, G2, G3. split; [congruence|]. split; [congruence|]. split; [congruence|].
  intros k id r [Hr|[]]%P'. by apply P2.
Qed.

End steps.
