(* ===== verification/DlQueueReach.v ===== *)
(** * Synchronizations of the download queue

    The queues a synchronization can have ([dq_run]), from its preparation on, with
    the headers that were scheduled and the results that were handed out; peers
    deliver what they like, requests expire and are revoked at any time.  Results
    come out in the order of the chain and complete, no task is lost, and no
    operation fails. *)
From S2P Require Import Prelude GoMonad Clique TxList ChainDb HeaderChain HeaderChainProps BlockChain Prque DlPeer DlQueue DlQueueProps DlQueueSteps.
Local Open Scope Z_scope.

Section reach.
Context {KL : KvLib} {CL : CliqueLib} {TL : TxLib} {BL : ChainLib} {PL : PrqueLib Task} {DL : DlLib} {DV : DlVars}.
Context {CLaws : HeaderLaws} {PLaws : PrqueLaws} {DLaws : DlLaws}.
Context {MO : MapOrder string fetchRequest} {MH : MapOrder Hash unit}.

(** ** Peers and deliveries *)

(** The peers of the requests in flight are on the heap. *)
Definition peers_ok (d : Dl) : Prop :=
  forall k id r, pendPool (track k (dl_queue d)) !! id = Some r -> is_Some (conns (dl_peers d) !! Peer r).

Lemma on_conn_run p f ps : is_Some (conns ps !! p) ->
  exists ps', on_conn p f ps = Ret (tt, ps') /\ forall x, is_Some (conns ps !! x) -> is_Some (conns ps' !! x).
Proof.
  intros [c E]. unfold on_conn, conn. rewrite (bind_run _ _ ps c ps); [|by rewrite bind_gget, E]. eexists. split; [done|].
  intros x Hx. cbn. rewrite lookup_insert_is_Some'. auto.
Qed.

Lemma mark_run p hs : forall d, is_Some (conns (dl_peers d) !! p) ->
  exists ps', for_each (fun _ header => on_peers (on_conn p (MarkLacking (Header_Hash header)))) tt hs d = Ret (tt, mkDl (dl_queue d) ps') /\
    forall x, is_Some (conns (dl_peers d) !! x) -> is_Some (conns ps' !! x).
Proof.
  induction hs as [|h hs IH]; intros d Hp; cbn [for_each].
  - exists (dl_peers d). destruct d. done.
  - destruct (on_conn_run p (MarkLacking (Header_Hash h)) (dl_peers d) Hp) as (ps1 & E1 & H1).
    rewrite (bind_run _ _ d tt (mkDl (dl_queue d) ps1)) by (unfold on_peers; by rewrite E1).
    destruct (IH (mkDl (dl_queue d) ps1)) as (ps2 & E2 & H2); [by apply H1|]. exists ps2. split; [done|]. intros x Hx. by apply H2, H1.
Qed.

(** A delivery keeps the queue, whatever it brings. *)
Lemma deliver_run ps id l d : even_parts ps -> core no_hands l (dl_queue d) -> peers_ok d ->
  exists res d', q_deliver id ps d = Ret (res, d') /\ core no_hands l (dl_queue d') /\ framed (dl_queue d) (dl_queue d') /\ peers_ok d' /\
    snd res <> Some errInvalidChain.
Proof.
  intros He Hc Hp. unfold q_deliver. rewrite bind_gget. set (k := content_of ps). set (q := dl_queue d) in *.
  destruct (pendPool (track k q) !! id) as [r|] eqn:Er; [|eexists _, d; split; [done|]; split; [done|]; split; [done|]; by split].
  destruct (delivery_run ps id r l q He Hc Er) as (q1 & rest & n & f & tq & E1 & E2 & Hf & Hc1 & F1 & Hp1). fold k in E1, E2, Hc1, Hp1.
  set (q0 := set_track k _ q) in *. rewrite (bind_run _ _ d tt (mkDl q0 (dl_peers d))) by done.
  assert (Hmark : exists ps', (if Nat.eqb (parts_length ps) 0
      then for_each (fun _ header => on_peers (on_conn (Peer r) (MarkLacking (Header_Hash header)))) tt (fr_Headers r) else mret tt)
      (mkDl q0 (dl_peers d)) = Ret (tt, mkDl q0 ps') /\ forall x, is_Some (conns (dl_peers d) !! x) -> is_Some (conns ps' !! x)).
  { destruct (Nat.eqb _ 0); [|by eexists]. apply (mark_run (Peer r) (fr_Headers r) (mkDl q0 (dl_peers d))). by apply (Hp k id). }
  destruct Hmark as (ps' & Em & Hps). rewrite (bind_run _ _ _ _ _ Em).
  set (q2 := set_track k (set_taskQueue tq (track k q1)) q1) in *.
  rewrite (bind_run _ _ _ (n, f) (mkDl q2 ps')) by (unfold on_queue; cbn [dl_queue]; rewrite E1; cbn [mbind outcome_bind]; by rewrite E2).
  eexists _, _. split; [done|]. split; [exact Hc1|]. split; [exact F1|]. split.
  - intros k' id' r' Hr'. cbn [dl_queue dl_peers] in *. apply Hps, (Hp k' id' r'). assert (Hr2 : pendPool (track k' q1) !! id' = Some r').
    { unfold q2 in Hr'. destruct (decide (k' = k)) as [->|]; [by rewrite track_same in Hr'|by rewrite track_other in Hr']. }
    rewrite Hp1 in Hr2. destruct (decide (k' = k)); [by apply lookup_delete_Some in Hr2 as [_ ?]|done].
  - cbn [fst snd]. unfold delivery_error. destruct f as [[]|]; try done; destruct (0 <? n); done.
Qed.

(** ** Runs *)

(** What the operations on the headers of a skeleton leave alone. *)
Definition same_content (q q' : queue) : Prop :=
  mode q' = mode q /\ fastSyncPivot q' = fastSyncPivot q /\ headerHead q' = headerHead q /\ blocks q' = blocks q /\ receipts q' = receipts q /\
  resultCache q' = resultCache q /\ resultOffset q' = resultOffset q.

Lemma core_same X l q q' : same_content q q' -> core X l q -> core X l q'.
Proof.
  intros (E1 & E2 & E3 & E4 & E5 & E6 & E7) Hc. assert (Et : forall k, track k q' = track k q) by (intros []; cbn; congruence).
  eapply core_move; [exact Hc| | | |].
  - do 4 (split; [done|]). intros k. by rewrite Et.
  - intros k. rewrite Et. destruct (c_split _ _ _ Hc k) as (hs & Hh & _). by exists hs, hs.
  - intros k h [i Hi]%list_elem_of_lookup Hor. rewrite Et in Hor. destruct (c_alloc _ _ _ Hc k i h Hi) as [r Hr]; [auto|eauto].
  - intros k id r. rewrite Et. apply (c_from _ _ _ Hc).
Qed.

(** The first header is to have the number [first]. *)
Inductive dq_run (first : Z) : list Header -> list fetchResult -> Dl -> Prop :=
| run_prepare m pivot d : 0 <= first < 9223372036854775808 ->
    dq_run first [] [] (mkDl (Prepare first m pivot (q_Reset (dl_queue d))) (dl_peers d))
| run_schedule headers ins sched out d q' : dq_run first sched out d -> Forall nonneg headers ->
    first + Z.of_nat (length sched + length headers) < 9223372036854775808 ->
    Schedule headers (first + Z.of_nat (length sched)) (dl_queue d) = Ret (ins, q') -> dq_run first (sched ++ ins) out (mkDl q' (dl_peers d))
| run_reserve k now p c count res prog sched out d q' : dq_run first sched out d -> conns (dl_peers d) !! p = Some c ->
    reserveHeaders k now p (pc_id c) (Lacks c) count (dl_queue d) = Ret (res, prog, None, q') -> dq_run first sched out (mkDl q' (dl_peers d))
| run_deliver id ps res sched out d d' : dq_run first sched out d -> even_parts ps -> q_deliver id ps d = Ret (res, d') -> dq_run first sched out d'
| run_expire k timeout now E sched out d q' : dq_run first sched out d ->
    ExpireContent k timeout now (dl_queue d) = Ret (E, q') -> dq_run first sched out (mkDl q' (dl_peers d))
| run_revoke id sched out d q' : dq_run first sched out d -> Revoke id (dl_queue d) = Ret q' -> dq_run first sched out (mkDl q' (dl_peers d))
| run_cancel k id r sched out d q' : dq_run first sched out d -> pendPool (track k (dl_queue d)) !! id = Some r ->
    CancelContent k id r (dl_queue d) = Ret q' -> dq_run first sched out (mkDl q' (dl_peers d))
| run_results results sched out d q' : dq_run first sched out d -> WaitResults (dl_queue d) = Ret (Some (results, q')) ->
    dq_run first sched (out ++ results) (mkDl q' (dl_peers d))
| run_headers sched out d q' : dq_run first sched out d -> same_content (dl_queue d) q' -> dq_run first sched out (mkDl q' (dl_peers d))
| run_peers sched out d ps : dq_run first sched out d -> (forall p, is_Some (conns (dl_peers d) !! p) -> is_Some (conns ps !! p)) ->
    dq_run first sched out (mkDl (dl_queue d) ps).

Record dq_ok (first : Z) (sched : list Header) (out : list fetchResult) (d : Dl) : Prop := {
  dq_core : core no_hands (drop (length out) sched) (dl_queue d);
  dq_offset : resultOffset (dl_queue d) = first + Z.of_nat (length out);
  dq_length : (length out <= length sched)%nat;
  dq_out : fr_Header <$> out = take (length out) sched;
  dq_complete : Forall (complete (dl_queue d)) out;
  dq_head : headerHead (dl_queue d) = head_after 0 sched;
  dq_chain : accepted 0 first sched = sched;
  dq_peers : peers_ok d
}.

Lemma head_after_app head a b : head_after head (a ++ b) = head_after (head_after head a) b.
Proof. unfold head_after. by rewrite foldl_app. Qed.

Lemma accepted_app a : forall head from b, accepted head from a = a ->
  accepted head from (a ++ b) = a ++ accepted (head_after head a) (from + Z.of_nat (length a)) b.
Proof.
  induction a as [|h a IH]; intros head from b E; cbn [app accepted length] in *; [by rewrite Z.add_0_r|].
  destruct (continues head from h); [|done]. injection E as E. cbn [app]. f_equal. rewrite (IH _ _ b E). do 2 f_equal. lia.
Qed.

Lemma accepted_again l : forall head from, accepted head from (accepted head from l) = accepted head from l.
Proof.
  induction l as [|h l IH]; intros head from; cbn [accepted]; [done|]. destruct (continues head from h) eqn:E; [|done].
  cbn [accepted]. rewrite E. by rewrite IH.
Qed.

Lemma complete_same q q' r : mode q' = mode q -> fastSyncPivot q' = fastSyncPivot q -> complete q r -> complete q' r.
Proof. intros E1 E2 [H1 H2]. split; [done|]. intros Hn. apply H2. by rewrite <- Hn, (needs_same q q'). Qed.

(** An operation that neither schedules nor hands out. *)
Lemma dq_ok_same first sched out d d' : dq_ok first sched out d -> core no_hands (drop (length out) sched) (dl_queue d') ->
  framed (dl_queue d) (dl_queue d') -> peers_ok d' -> dq_ok first sched out d'.
Proof.
  intros [H1 H2 H3 H4 H5 H6 H7 H8] Hc (E1 & E2 & E3 & E4) Hp. split; try done; [congruence| |congruence].
  eapply Forall_impl; [exact H5|]. intros r. by apply complete_same.
Qed.

Lemma peers_ok_pend d q' : peers_ok d -> (forall k id r, pendPool (track k q') !! id = Some r -> pendPool (track k (dl_queue d)) !! id = Some r) ->
  peers_ok (mkDl q' (dl_peers d)).
Proof. intros Hp H k id r Hr. apply (Hp k id). by apply H. Qed.

Lemma prepared_core first m pivot q : 0 <= first < 9223372036854775808 -> core no_hands [] (Prepare first m pivot (q_Reset q)).
Proof.
  intros Hf. set (q' := Prepare _ _ _ _). assert (Et : forall k, track k q' = empty_track) by (by intros []).
  assert (Eo : resultOffset q' = first) by (cbn; destruct (Z.ltb_spec 0 first); lia). split.
  - rewrite Eo. cbn. lia.
  - by intros i h.
  - intros k. rewrite Et. exists []. split; [|done]. unfold holds. cbn. by rewrite items_New.
  - intros k hash. rewrite Et. cbn. set_solver.
  - intros k hash h. by rewrite Et.
  - intros i r Hi. cbn in Hi. by apply lookup_replicate in Hi as [? _].
  - by intros k i h.
  - intros k id r. by rewrite Et.
Qed.

Lemma live_app (sched : list Header) (out : list fetchResult) ins : (length out <= length sched)%nat ->
  drop (length out) (sched ++ ins) = drop (length out) sched ++ ins.
Proof. intros Hle. by rewrite drop_app_le. Qed.

Lemma dq_run_ok first sched out d : dq_run first sched out d -> dq_ok first sched out d.
Proof.
  assert (Hnone : forall d q', peers_ok d -> pending_from (fun _ => False) (dl_queue d) q' -> peers_ok (mkDl q' (dl_peers d))).
  { intros d0 q' Hp Hf. apply peers_ok_pend; [done|]. intros k id r Hr. by destruct (Hf k id r Hr). }
  induction 1 as [m pivot d0 Hf|headers ins sched out d0 q' _ IH Hnn Hb E|k now p c count res prog sched out d0 q' _ IH Hp E|
    id ps res sched out d0 d' _ IH He E|k timeout now E0 sched out d0 q' _ IH E|id sched out d0 q' _ IH E|k id r sched out d0 q' _ IH Hr E|
    results sched out d0 q' _ IH E|sched out d0 q' _ IH E|sched out d0 ps _ IH E].
  - split; try done; [by apply prepared_core|cbn; destruct (Z.ltb_spec 0 first); lia|]. by intros [] id r.
  - pose proof IH as [H1 H2 H3 H4 H5 H6 H7 H8].
    assert (El : resultOffset (dl_queue d0) + Z.of_nat (length (drop (length out) sched)) = first + Z.of_nat (length sched)) by (rewrite H2, length_drop; lia).
    destruct (Schedule_run headers _ _ H1 Hnn) as (q2 & E2 & Hc2 & Hh2 & G1 & G2 & G3 & G4); [rewrite El; lia|].
    rewrite El in *. rewrite E in E2. injection E2 as -> ->. split; cbn [dl_queue dl_peers]; try done.
    + by rewrite live_app.
    + congruence.
    + rewrite length_app. lia.
    + by rewrite take_app_le.
    + eapply Forall_impl; [exact H5|]. intros x. by apply complete_same.
    + rewrite Hh2, H6. symmetry. apply head_after_app.
    + rewrite accepted_app by done. rewrite H6. by rewrite accepted_again.
    + auto.
  - pose proof IH as [H1 H2 H3 H4 H5 H6 H7 H8].
    destruct (reserveHeaders_run k now p (pc_id c) (Lacks c) count _ _ H1) as (res2 & prog2 & err & q2 & E2 & _ & Hok).
    rewrite E in E2. injection E2 as <- <- <- <-. destruct (Hok eq_refl) as (Hc & Hfr & Hpf). apply (dq_ok_same _ _ _ d0); try done.
    intros k' id' r' [?|Ep]%Hpf; [by eapply H8|]. cbn. by rewrite Ep, Hp.
  - pose proof IH as [H1 H2 H3 H4 H5 H6 H7 H8]. destruct (deliver_run ps id _ d0 He H1 H8) as (res2 & d2 & E2 & Hc & Hfr & Hp & _).
    rewrite E in E2. injection E2 as _ <-. by apply (dq_ok_same _ _ _ d0).
  - pose proof IH as [H1 H2 H3 H4 H5 H6 H7 H8]. destruct (Expire_run k timeout now _ _ H1) as (E2 & q2 & Eq & Hc & Hfr & Hpf & _).
    rewrite E in Eq. injection Eq as _ <-. apply (dq_ok_same _ _ _ d0); auto.
  - pose proof IH as [H1 H2 H3 H4 H5 H6 H7 H8]. destruct (Revoke_run id _ _ H1) as (q2 & Eq & Hc & Hfr & Hpf).
    rewrite E in Eq. injection Eq as <-. apply (dq_ok_same _ _ _ d0); auto.
  - pose proof IH as [H1 H2 H3 H4 H5 H6 H7 H8]. destruct (Cancel_run k id r _ _ H1 Hr) as (q2 & Eq & Hc & Hfr & Hpf).
    rewrite E in Eq. injection Eq as <-. apply (dq_ok_same _ _ _ d0); auto.
  - pose proof IH as [H1 H2 H3 H4 H5 H6 H7 H8]. destruct (WaitResults_run _ _ H1) as (o & Eo & Ho).
    rewrite E in Eo. injection Eo as <-. destruct Ho as (G1 & G2 & G3 & G4 & G5 & G6 & G7 & G8 & _). rewrite drop_drop in G3.
    assert (Hl : (length out + length results <= length sched)%nat).
    { apply (f_equal length) in G1. rewrite length_fmap, length_take, length_drop in G1. lia. }
    split; cbn [dl_queue dl_peers]; try done.
    + by rewrite length_app.
    + rewrite G4, H2, length_app. lia.
    + rewrite length_app. lia.
    + rewrite fmap_app, H4, G1, length_app. by rewrite take_take_drop.
    + apply Forall_app. split; (eapply Forall_impl; [eassumption|]); intros x; by apply complete_same.
    + congruence.
    + auto.
  - pose proof IH as [H1 H2 H3 H4 H5 H6 H7 H8]. apply (dq_ok_same _ _ _ d0); try done; [by eapply core_same| |].
    + destruct E as (? & ? & ? & _ & _ & _ & ?). done.
    + apply peers_ok_pend; [done|]. destruct E as (_ & _ & _ & E4 & E5 & _). intros [] id r; cbn; congruence.
  - apply (dq_ok_same _ _ _ d0); try done; [apply IH|]. intros k id r Hr. cbn in *. apply E. by apply (dq_peers _ _ _ _ IH k id).
Qed.

(** ** Theorems *)

Lemma accepted_at l : forall head from i h, accepted head from l = l -> l !! i = Some h ->
  header_number h = Ret (from + Z.of_nat i) /\
  forall h', l !! S i = Some h' -> Header_Hash h = 0 \/ ParentHash h' = Header_Hash h.
Proof.
  induction l as [|x l IH]; intros head from i h E Hi; [done|]. cbn [accepted] in E. destruct (continues head from x) eqn:Ec; [|done]. injection E as E.
  assert (Hx : header_number x = Ret from).
  { unfold continues in Ec. destruct (header_number x) as [n| |]; [|done..]. apply andb_true_iff in Ec as [E1%Z.eqb_eq _]. by subst. }
  destruct i as [|i]; cbn in Hi.
  - injection Hi as <-. split; [rewrite Hx; f_equal; lia|]. intros h' Hh'. cbn in Hh'. destruct l as [|y l]; [done|]. injection Hh' as <-.
    cbn [accepted] in E. destruct (continues (Header_Hash x) (from + 1) y) eqn:Ey; [|done]. unfold continues in Ey.
    destruct (header_number y) as [n| |]; [|done..]. apply andb_true_iff in Ey as [_ [E0%Z.eqb_eq|E0%Z.eqb_eq]%orb_true_iff]; auto.
  - destruct (IH _ _ i h E Hi) as [En Hn]. split; [rewrite En; f_equal; lia|]. intros h' Hh'. by apply Hn.
Qed.

(** C9. The results of a synchronization are handed out in the order in which their
    headers were scheduled, none twice and none left out; their numbers are
    consecutive from the first one on, each is the parent of the next, and every part
    has the root that is in the header, receipts included where the fast phase needs
    them.  This holds whatever the peers deliver and however requests expire. *)
Theorem results_in_order first sched out d : dq_run first sched out d -> forall i r, out !! i = Some r ->
  sched !! i = Some (fr_Header r) /\ header_number (fr_Header r) = Ret (first + Z.of_nat i) /\
  (forall r', out !! S i = Some r' -> Header_Hash (fr_Header r) = 0 \/ ParentHash (fr_Header r') = Header_Hash (fr_Header r)) /\
  DeriveSha_block (fr_Transactions r) = TxHash (fr_Header r) /\ CalcUncleHash (Uncles r) = UncleHash (fr_Header r) /\
  (mode (dl_queue d) = FastSync -> first + Z.of_nat i <= fastSyncPivot (dl_queue d) -> DeriveSha_receipts (Receipts r) = ReceiptHash (fr_Header r)).
Proof.
  intros [H1 H2 H3 H4 H5 H6 H7 H8]%dq_run_ok i r Hr.
  assert (Hs : forall j s, out !! j = Some s -> sched !! j = Some (fr_Header s)).
  { intros j s Hj. rewrite <- (lookup_take_lt sched (length out)) by (by eapply lookup_lt_Some). rewrite <- H4, list_lookup_fmap, Hj. done. }
  destruct (accepted_at sched 0 first i _ H7 (Hs i r Hr)) as [En Hl]. split; [auto|]. split; [done|]. split; [intros r' Hr'; by apply Hl, Hs|].
  rewrite Forall_forall in H5. destruct (H5 r) as [[G1 G2] G3]; [by eapply list_elem_of_lookup_2|]. split; [done|]. split; [done|].
  intros Em Hle. apply G3. unfold needs, fast_phase. rewrite (num_number _ _ En). rewrite bool_decide_eq_true_2 by done. by apply Z.leb_le.
Qed.

(** Entries without anything pending are all counted in a full synchronization. *)
Lemma count_from_all q m : mode q <> FastSync -> forall cache i, cache = drop i (resultCache q) ->
  (forall j, (i <= j < m)%nat -> exists r, resultCache q !! j = Some (Some r) /\ Pending r <= 0) ->
  forall n, count_from q i cache = Ret n -> (i <= m)%nat -> (m <= n)%nat.
Proof.
  intros Hm. induction cache as [|o cache IH]; intros i Ec Hall n En Hi; cbn [count_from] in En.
  - injection En as <-. destruct (decide (i < m)%nat) as [Hlt|]; [|lia]. destruct (Hall i) as (r & Hr & _); [lia|].
    rewrite <- (Nat.add_0_r i), <- lookup_drop, <- Ec in Hr. done.
  - destruct (decide (i < m)%nat) as [Hlt|Hge].
    + destruct (Hall i) as (r & Hr & Hp); [lia|]. rewrite <- (Nat.add_0_r i), <- lookup_drop, <- Ec in Hr. injection Hr as ->.
      destruct (Z.ltb_spec 0 (Pending r)); [lia|]. rewrite bool_decide_eq_false_2 in En by done. apply (IH (S i)); [|intros j Hj; apply Hall; lia|done|lia].
      by rewrite <- Nat.add_1_r, <- drop_drop, <- Ec.
    + assert (i = m) as -> by lia. clear IH. assert (Hle : forall c k, count_from q k c = Ret n -> (k <= n)%nat).
      { induction c as [|[r|] c IHc]; intros k E; cbn [count_from] in E; [by injection E as <-| |by injection E as <-].
        destruct (0 <? Pending r); [by injection E as <-|]. rewrite bool_decide_eq_false_2 in E by done. apply IHc in E. lia. }
      by apply (Hle (o :: cache)).
Qed.

Lemma drained_core l q : core no_hands l q -> (forall k, waiting q k l = []) -> mode q <> FastSync -> l <> [] ->
  exists results q', WaitResults q = Ret (Some (results, q')) /\ fr_Header <$> results = l.
Proof.
  intros Hc Hw Hm Hne. destruct (WaitResults_run l q Hc) as (o & E & Ho).
  assert (Hall : forall j, (0 <= j < length l)%nat -> exists r, resultCache q !! j = Some (Some r) /\ Pending r <= 0).
  { intros j [_ Hj]. destruct (lookup_lt_is_Some_2 l j Hj) as [h Hh]. assert (Hnm : forall k, ~ missing q k h).
    { intros k Hk. apply (elem_of_nil h). rewrite <- (Hw k). apply list_elem_of_filter. split; [done|]. by eapply list_elem_of_lookup_2. }
    destruct (c_alloc _ _ _ Hc Bodies j h Hh) as [r Hr].
    { left. destruct (decide (Header_Hash h ∈ donePool (track Bodies q))); [done|]. by destruct (Hnm Bodies). }
    exists r. split; [done|]. destruct (c_entry _ _ _ Hc j r Hr) as (h' & Hh' & He). assert (h' = h) as -> by congruence.
    rewrite (eo_pending _ _ _ He). unfold owed. rewrite !decide_False by apply Hnm. lia. }
  pose proof E as Ew. unfold WaitResults in Ew. destruct (countProcessableItems q) as [n| |] eqn:En; [|done..]. cbn [mbind outcome_bind] in Ew.
  pose proof (count_from_all q (length l) Hm (resultCache q) 0 eq_refl Hall n En ltac:(lia)) as Hn.
  assert (Hl : (0 < length l)%nat) by (destruct l; [done|cbn; lia]). destruct (Z.eqb_spec (Z.of_nat n) 0); [lia|]. cbn [andb] in Ew.
  destruct o as [[results q']|]; [|done]. exists results, q'. split; [done|]. destruct Ho as (Eh & _). rewrite Eh.
  assert (Hlen : length results = n); [|rewrite Hlen; by apply take_ge].
  injection Ew as <- _. destruct (count_from_run _ l q Hc (resultCache q) 0 eq_refl) as (n' & En' & Hb & Hrs).
  unfold countProcessableItems in En. rewrite En in En'. injection En' as <-.
  destruct (all_there (resultCache q) n) as (rs & -> & Elen); [intros j Hj; destruct (Hrs j) as (r & ? & _); [lia|eauto]|]. by rewrite omap_id_Some.
Qed.

(** C17. No task is lost: for each kind of content, the headers that were scheduled, were
    not handed out and whose content is missing are, each once, those of the task
    queue and of the requests in flight.  So when nothing is queued and nothing is in
    flight, a full synchronization hands out all that was scheduled. *)
Theorem no_task_lost first sched out d : dq_run first sched out d -> let q := dl_queue d in let live := drop (length out) sched in
  (forall k, exists queued, prque_items (taskQueue (track k q)) ≡ₚ item <$> queued /\
     queued ++ flying (track k q) ≡ₚ filter (missing q k) live) /\
  ((forall k, PendingContent k q = 0 /\ InFlightContent k q = false) -> mode q <> FastSync -> live <> [] ->
     exists results q', WaitResults q = Ret (Some (results, q')) /\ fr_Header <$> (out ++ results) = sched).
Proof.
  intros [H1 H2 H3 H4 H5 H6 H7 H8]%dq_run_ok q live. fold q live in H1. split.
  - intros k. destruct (c_split _ _ _ H1 k) as (hs & Hh & Hp). by exists hs.
  - intros Hd Hm Hne. destruct (drained_core live q H1) as (results & q' & E & Eh); [|done|done|].
    + intros k. destruct (Hd k) as [Hp Hf]. destruct (c_split _ _ _ H1 k) as (hs & Hh & Hperm). unfold PendingContent in Hp.
      rewrite (holds_size _ _ Hh) in Hp. destruct hs; [|cbn in Hp; lia]. unfold InFlightContent in Hf. apply Z.ltb_ge in Hf.
      assert (Ep : pendPool (track k q) = ∅) by (apply map_size_empty_inv; lia). unfold flying in Hperm. rewrite Ep, map_to_list_empty in Hperm.
      by apply Permutation_nil in Hperm.
    + exists results, q'. split; [done|]. rewrite fmap_app, H4, Eh. apply take_drop.
Qed.

(** C21. In a synchronization no operation of the queue fails.  Whatever a peer
    delivers, the delivery returns, and never with the error that aborts the
    synchronization; reservations succeed as long as the numbers are below 2^24,
    where their priorities are exact: the result cache never overflows. *)
Theorem queue_never_fails first sched out d : dq_run first sched out d ->
  (forall id ps, even_parts ps -> exists res d', q_deliver id ps d = Ret (res, d') /\ snd res <> Some errInvalidChain) /\
  (forall k now p c count, conns (dl_peers d) !! p = Some c -> first + Z.of_nat (length sched) <= 16777216 ->
     exists res prog q', reserveHeaders k now p (pc_id c) (Lacks c) count (dl_queue d) = Ret (res, prog, None, q')) /\
  (forall k timeout now, exists E q', ExpireContent k timeout now (dl_queue d) = Ret (E, q')) /\
  (forall id, exists q', Revoke id (dl_queue d) = Ret q') /\
  (exists o, WaitResults (dl_queue d) = Ret o) /\
  (forall headers, Forall nonneg headers -> first + Z.of_nat (length sched + length headers) < 9223372036854775808 ->
     exists q', Schedule headers (first + Z.of_nat (length sched)) (dl_queue d) =
       Ret (accepted (head_after 0 sched) (first + Z.of_nat (length sched)) headers, q')).
Proof.
  intros [H1 H2 H3 H4 H5 H6 H7 H8]%dq_run_ok. split; [|split; [|split; [|split; [|split]]]].
  - intros id ps He. destruct (deliver_run ps id _ d He H1 H8) as (res & d' & E & _ & _ & _ & Hr). eauto.
  - intros k now p c count Hp Hb. destruct (reserveHeaders_run k now p (pc_id c) (Lacks c) count _ _ H1) as (res & prog & err & q' & E & Hex & _).
    rewrite Hex in E; [eauto|]. intros h [i Hi]%list_elem_of_lookup. pose proof (lookup_lt_Some _ _ _ Hi) as Hlt. rewrite length_drop in Hlt.
    rewrite (core_num _ _ _ H1 i h Hi), H2. lia.
  - intros k timeout now. destruct (Expire_run k timeout now _ _ H1) as (E & q' & Eq & _). eauto.
  - intros id. destruct (Revoke_run id _ _ H1) as (q' & Eq & _). eauto.
  - destruct (WaitResults_run _ _ H1) as (o & E & _). eauto.
  - intros headers Hnn Hb.
    assert (El : resultOffset (dl_queue d) + Z.of_nat (length (drop (length out) sched)) = first + Z.of_nat (length sched)) by (rewrite H2, length_drop; lia).
    destruct (Schedule_run headers _ _ H1 Hnn) as (q2 & E2 & _); [rewrite El; lia|]. rewrite El, H6 in E2. eauto.
Qed.

End reach.
