(* ===== verification/DlSkeleton.v ===== *)
(** * Filling a skeleton of headers (mc/downloader/queue.go)

    The headers of a synchronization come in batches between the headers of a
    skeleton.  The runs of the queue from [ScheduleSkeleton] on ([sk_run]), with the
    headers that were handed on to the processor, and their invariant: each batch is
    either missing, and then queued or requested once, or filled with a chain that
    ends in the header of the skeleton. *)
From S2P Require Import Prelude GoMonad Clique TxList ChainDb HeaderChain HeaderChainProps BlockChain Prque DlPeer DlQueue DlQueueProps DlQueueSteps.
Local Open Scope Z_scope.

Section skeleton.
Context {KL : KvLib} {CL : CliqueLib} {TL : TxLib} {BL : ChainLib} {PL : PrqueLib Task} {DL : DlLib} {DV : DlVars}.
Context {CLaws : HeaderLaws} {PLaws : PrqueLaws}.
Context {MO : MapOrder string fetchRequest}.

(** ** Queues of batches *)

Definition fitem (f : Z) : Task * Z := (TFrom f, - float32 f).
Definition fholds (tq : Prque) (fs : list Z) : Prop := prque_items tq ≡ₚ fitem <$> fs.

Lemma fholds_perm tq fs fs' : fs ≡ₚ fs' -> fholds tq fs -> fholds tq fs'.
Proof. unfold fholds. by intros <-. Qed.

Lemma push_from_holds tq f fs : fholds tq fs -> fholds (push_from tq f) (f :: fs).
Proof. unfold fholds, push_from. intros Hh. rewrite items_Push. cbn. by rewrite Hh. Qed.

Lemma push_froms_holds l : forall tq fs, fholds tq fs -> fholds (foldl push_from tq l) (l ++ fs).
Proof.
  induction l as [|f l IH]; intros tq fs Hh; cbn [foldl app]; [done|]. eapply fholds_perm; [|apply IH, push_from_holds, Hh].
  cbn. by rewrite Permutation_middle.
Qed.

Lemma fholds_unique tq fs fs' : fholds tq fs -> fholds tq fs' -> fs ≡ₚ fs'.
Proof.
  unfold fholds. intros E1 E2. rewrite E1 in E2.
  apply (omap_Permutation (fun e : Task * Z => match e.1 with TFrom f => Some f | THeader _ => None end)) in E2.
  assert (Hid : forall x : list Z, omap (M := list) (fun e : Task * Z => match e.1 with TFrom f => Some f | THeader _ => None end) (fitem <$> x) = x).
  { induction x as [|h x IH]; [done|]. cbn. by rewrite IH. }
  by rewrite !Hid in E2.
Qed.

Lemma fholds_size tq fs : fholds tq fs -> prque_Size tq = Z.of_nat (length fs).
Proof. intros Hh. rewrite items_Size, Hh. by rewrite length_fmap. Qed.

Lemma fholds_empty tq fs : fholds tq fs -> prque_Empty tq = match fs with [] => true | _ => false end.
Proof. intros Hh. unfold prque_Empty. rewrite (fholds_size tq fs Hh). destruct fs; cbn; [done|]. by apply Z.eqb_neq. Qed.

Lemma fholds_pop tq fs : fholds tq fs -> fs <> [] -> exists f fs' tq', prque_Pop tq = Some (TFrom f, tq') /\ fs ≡ₚ f :: fs' /\ fholds tq' fs'.
Proof.
  intros Hh Hne. destruct (prque_Pop tq) as [[x tq']|] eqn:E.
  - destruct (items_Pop tq x tq' E) as (p & Hp & _). unfold fholds in Hh.
    assert (Hin : (x, p) ∈ fitem <$> fs) by (rewrite <- Hh, Hp; left).
    apply list_elem_of_fmap in Hin as (f & Ef & Hin). injection Ef as -> ->.
    apply elem_of_Permutation in Hin as [fs' Hperm]. exists f, fs', tq'. split; [done|]. split; [done|].
    unfold fholds. apply (Permutation_cons_inv (a := fitem f)). change (fitem f :: (fitem <$> fs')) with (fitem <$> (f :: fs')).
    rewrite <- Hperm, <- Hh. by rewrite Hp.
  - apply items_Pop_None in E. unfold fholds in Hh. rewrite E in Hh. by apply Permutation_nil, fmap_nil_inv in Hh.
Qed.

(** The batch that is picked, and those put aside. *)
Lemma pick_batch_run miss fuel : forall tq fs skip, fholds tq fs -> (length fs <= fuel)%nat -> 0 ∉ fs ->
  exists send more tq' fs', pick_batch fuel miss tq skip = Ret (send, skip ++ more, tq') /\ fholds tq' fs' /\
    fs ≡ₚ (if send =? 0 then more ++ fs' else send :: more ++ fs').
Proof.
  induction fuel as [|fuel IH]; intros tq fs skip Hh Hlen H0; cbn [pick_batch]; rewrite (fholds_empty tq fs Hh).
  - destruct fs; [|cbn in Hlen; lia]. exists 0, [], tq, []. rewrite app_nil_r. by repeat split.
  - destruct fs as [|f0 fs0]; [exists 0, [], tq, []; rewrite app_nil_r; by repeat split|]. set (fs := f0 :: fs0) in *.
    destruct (fholds_pop tq fs Hh) as (f & fs' & tq' & -> & Hp & Hh'); [done|].
    assert (H0' : f <> 0 /\ 0 ∉ fs') by (rewrite Hp in H0; set_solver). destruct H0' as [Hf0 H0'].
    destruct (decide (f ∈ miss)) as [Hm|Hm].
    + destruct (IH tq' fs' (skip ++ [f]) Hh') as (send & more & tq2 & fs2 & E & Hh2 & Hp2); [|done|].
      { apply Permutation_length in Hp. unfold fs in *. cbn in *. lia. }
      exists send, (f :: more), tq2, fs2. rewrite E, <- app_assoc. split; [done|]. split; [done|]. rewrite Hp, Hp2. destruct (send =? 0); [done|].
      cbn. apply perm_swap.
    + destruct (Z.eqb_spec f 0); [done|]. exists f, [], tq', fs'. rewrite app_nil_r. split; [done|]. split; [done|].
      destruct (Z.eqb_spec f 0); [done|]. by rewrite Hp.
Qed.

(** ** Blocks of equal length *)

Lemma take_join {A : Type} (L : list (list A)) m : Forall (fun x => length x = m) L -> forall i, take (i * m) (mjoin L) = mjoin (take i L).
Proof.
  induction 1 as [|x L Hx _ IH]; intros i; [by destruct (i * m)%nat, i|]. destruct i as [|i]; [done|].
  cbn [take]. change (take (S i * m) (x ++ mjoin L) = x ++ mjoin (take i L)). rewrite <- IH, take_app, Hx.
  rewrite (take_ge x) by lia. do 2 f_equal. lia.
Qed.

Lemma drop_join {A : Type} (L : list (list A)) m : Forall (fun x => length x = m) L -> forall i, drop (i * m) (mjoin L) = mjoin (drop i L).
Proof.
  induction 1 as [|x L Hx _ IH]; intros i; [by destruct (i * m)%nat, i|]. destruct i as [|i]; [done|].
  cbn [drop]. change (drop (S i * m) (x ++ mjoin L) = mjoin (drop i L)). rewrite <- IH, drop_app, Hx.
  rewrite (drop_ge x) by lia. cbn [app]. f_equal. lia.
Qed.

Lemma length_join_same {A : Type} (L : list (list A)) m : Forall (fun x => length x = m) L -> length (mjoin L) = (length L * m)%nat.
Proof.
  induction 1 as [|x L Hx _ IH]; [done|]. change (length (x ++ mjoin L) = (S (length L) * m)%nat). rewrite length_app, IH, Hx. lia.
Qed.

(** ** The invariant *)

Section fill.
Context (from : Z) (skel : list Header).
Context (HM : (0 < MaxHeaderFetch)%nat) (Hfrom : 0 < from)
  (Hbound : from + Z.of_nat (length skel * MaxHeaderFetch) < 9223372036854775808).

(** The number of the first header of a batch. *)
Definition batch_at (i : nat) : Z := from + Z.of_nat (i * MaxHeaderFetch).

(** The slots of a batch, and the batches that are missing. *)
Definition slots (b : option (list Header)) : list (option Header) :=
  match b with Some hs => Some <$> hs | None => replicate MaxHeaderFetch None end.

Definition missing_batches (B : list (option (list Header))) : list nat :=
  filter (fun i => mjoin (B !! i) = None) (seq 0 (length B)).

(** The batches that are requested. *)
Definition requested (pend : gmap string fetchRequest) : list Z := From ∘ snd <$> map_to_list pend.

(** [handed] is what the processor was given, [woken] what was taken from the channel. *)
Record sk_ok (B : list (option (list Header))) (handed : list (option Header)) (woken : list bool) (q : queue) : Prop := {
  sk_length : length B = length skel;
  sk_good i hs t : B !! i = Some (Some hs) -> skel !! i = Some t -> length hs = MaxHeaderFetch /\ fills (batch_at i) (Header_Hash t) hs = Ret true;
  sk_results : headerResults q = Some (mjoin (slots <$> B));
  sk_offset : headerOffset q = from;
  sk_pool i t : skel !! i = Some t -> headerTaskPool q !! batch_at i = match mjoin (B !! i) with None => Some t | Some _ => None end;
  sk_only f : is_Some (headerTaskPool q !! f) -> exists i, f = batch_at i /\ B !! i = Some None;
  sk_tasks : exists tq fs, headerTaskQueue q = Some tq /\ fholds tq fs /\ fs ++ requested (headerPendPool q) ≡ₚ batch_at <$> missing_batches B;
  sk_plain id r : headerPendPool q !! id = Some r -> fr_Headers r = [];
  sk_proced : exists p, headerProced q = Z.of_nat (p * MaxHeaderFetch) /\ (p <= length B)%nat /\
    (forall i, (i < p)%nat -> exists hs, B !! i = Some (Some hs)) /\ handed = mjoin (slots <$> take p B);
  sk_chan : cc_cap (headerContCh q) = 1%nat /\
    woken ++ cc_items (headerContCh q) = match missing_batches B, skel with [], _ :: _ => [false] | _, _ => [] end
}.

Lemma batch_at_inj i j : batch_at i = batch_at j -> i = j.
Proof. unfold batch_at. nia. Qed.

Lemma elem_of_missing B i : i ∈ missing_batches B <-> B !! i = Some None.
Proof.
  unfold missing_batches. rewrite list_elem_of_filter, elem_of_seq. split.
  - intros [E Hi]. destruct (lookup_lt_is_Some_2 B i) as [b Hb]; [lia|]. rewrite Hb in *. cbn in E. by subst.
  - intros E. rewrite E. split; [done|]. apply lookup_lt_Some in E. lia.
Qed.

Lemma requested_insert pend id r : pend !! id = None -> requested (<[id := r]> pend) ≡ₚ From r :: requested pend.
Proof. intros Hn. unfold requested. by rewrite (map_to_list_insert _ _ _ Hn). Qed.

Lemma requested_delete pend id r : pend !! id = Some r -> requested pend ≡ₚ From r :: requested (delete id pend).
Proof. intros Hr. unfold requested. by rewrite <- (map_to_list_delete _ _ _ Hr). Qed.

Lemma slots_length B handed woken q : sk_ok B handed woken q -> Forall (fun x => length x = MaxHeaderFetch) (slots <$> B).
Proof.
  intros Hs. apply Forall_forall. intros x (b & -> & [i Hi]%list_elem_of_lookup)%list_elem_of_fmap. destruct b as [hs|]; cbn; [|by rewrite length_replicate].
  rewrite length_fmap. pose proof (lookup_lt_Some _ _ _ Hi) as Hlt. rewrite (sk_length _ _ _ _ Hs) in Hlt. destruct (lookup_lt_is_Some_2 skel i Hlt) as [t Ht].
  by apply (sk_good _ _ _ _ Hs i hs t).
Qed.

(** What is asked for is missing. *)
Lemma task_missing B handed woken q f : sk_ok B handed woken q ->
  (exists tq fs, headerTaskQueue q = Some tq /\ fholds tq fs /\ f ∈ fs) \/ f ∈ requested (headerPendPool q) ->
  exists i t, f = batch_at i /\ B !! i = Some None /\ skel !! i = Some t.
Proof.
  intros Hs Hor. destruct (sk_tasks _ _ _ _ Hs) as (tq & fs & Etq & Hh & Hp). assert (Hin : f ∈ batch_at <$> missing_batches B).
  { rewrite <- Hp, elem_of_app. destruct Hor as [(tq' & fs' & Etq' & Hh' & Hf)|?]; [|auto]. left. rewrite Etq in Etq'. injection Etq' as <-.
    by rewrite (fholds_unique _ _ _ Hh Hh'). }
  apply list_elem_of_fmap in Hin as (i & -> & Hi%elem_of_missing). pose proof (lookup_lt_Some _ _ _ Hi) as Hlt. rewrite (sk_length _ _ _ _ Hs) in Hlt.
  destruct (lookup_lt_is_Some_2 skel i Hlt) as [t Ht]. eauto.
Qed.

Lemma batch_at_pos i : batch_at i <> 0.
Proof. unfold batch_at. lia. Qed.

(** ** The start *)

Lemma skeleton_tasks_run l : forall i pool tq fs, fholds tq fs -> (i + length l <= length skel)%nat ->
  exists pool' tq', skeleton_tasks from (Z.of_nat i) l pool tq = (pool', tq') /\ fholds tq' ((batch_at <$> seq i (length l)) ++ fs) /\
    (forall j t, l !! j = Some t -> pool' !! batch_at (i + j) = Some t) /\
    (forall j, (j < i)%nat -> pool' !! batch_at j = pool !! batch_at j) /\
    (forall f, is_Some (pool' !! f) -> is_Some (pool !! f) \/ exists j, f = batch_at (i + j) /\ (j < length l)%nat).
Proof.
  induction l as [|t l IH]; intros i pool tq fs Hh Hlen; cbn [skeleton_tasks length seq fmap list_fmap app] in *; [exists pool, tq; naive_solver|].
  assert (Ei : u64 (from + u64 (Z.of_nat i * Z.of_nat MaxHeaderFetch)) = batch_at i).
  { assert (Z.of_nat (i * MaxHeaderFetch) <= Z.of_nat (length skel * MaxHeaderFetch)) by (apply inj_le; apply Nat.mul_le_mono_r; lia).
    unfold batch_at. rewrite <- Nat2Z.inj_mul. pose proof (Nat2Z.is_nonneg (i * MaxHeaderFetch)).
    generalize dependent (Z.of_nat (i * MaxHeaderFetch)). intros z Hz Hz0. rewrite (u64_small z), u64_small; unfold is_u64, MaxUint64; lia. }
  rewrite Ei. replace (Z.of_nat i + 1) with (Z.of_nat (S i)) by lia.
  destruct (IH (S i) (<[batch_at i := t]> pool) _ _ (push_from_holds tq (batch_at i) fs Hh)) as (pool' & tq' & E & Hh' & Hl & Hb & Ho); [lia|].
  exists pool', tq'. split; [done|]. split; [|split; [|split]].
  - eapply fholds_perm; [|exact Hh']. by rewrite <- Permutation_middle.
  - intros [|j] x Hx; cbn in Hx.
    + injection Hx as ->. rewrite Nat.add_0_r, Hb by lia. by rewrite lookup_insert_eq.
    + rewrite <- (Hl j x Hx). f_equal. f_equal. lia.
  - intros j Hj. rewrite Hb by lia. apply lookup_insert_ne. intros E'%batch_at_inj. lia.
  - intros f [[<-|[_ Hf]]%lookup_insert_is_Some|(j & -> & Hj)]%Ho; [right; exists 0%nat; split; [by rewrite Nat.add_0_r|lia]|by left|].
    right. exists (S j). split; [f_equal; lia|lia].
Qed.

Lemma start_ok q q' : headerPendPool q = ∅ -> ScheduleSkeleton from skel q = Ret q' -> sk_ok (replicate (length skel) None) [] [] q'.
Proof.
  intros Hpend. unfold ScheduleSkeleton. destruct (headerResults q); [done|].
  destruct (skeleton_tasks_run skel 0 ∅ prque_New []) as (pool & tq & E & Hh & Hl & _ & Ho); [unfold fholds; by rewrite items_New|lia|].
  assert (Hmiss : missing_batches (replicate (length skel) None) = seq 0 (length skel)).
  { unfold missing_batches. rewrite length_replicate. apply filter_every. intros i Hi%elem_of_seq. by rewrite lookup_replicate_2 by lia. }
  change (Z.of_nat 0) with 0 in E. rewrite E. intros [= <-]. split; cbn.
  - by rewrite length_replicate.
  - intros i hs t Hi _. by apply lookup_replicate in Hi as [? _].
  - f_equal. clear. induction (length skel) as [|n IH]; [done|]. cbn [replicate Nat.mul]. rewrite replicate_add, IH. done.
  - done.
  - intros i t Ht. rewrite lookup_replicate_2 by (by eapply lookup_lt_Some). cbn. by apply (Hl i t).
  - intros f [[? ?]|(i & -> & Hi)]%Ho; [done|]. exists i. split; [done|]. by apply lookup_replicate_2.
  - exists tq. eexists. split; [done|]. split; [exact Hh|]. rewrite Hpend. unfold requested. rewrite map_to_list_empty. cbn. rewrite !app_nil_r.
    by rewrite Hmiss.
  - intros id r. by rewrite Hpend.
  - exists 0%nat. split; [done|]. split; [lia|]. split; [lia|done].
  - split; [done|]. rewrite Hmiss. by destruct skel.
Qed.

(** ** Requests *)

(** The invariant when only the queue, the misses and the requests change. *)
Lemma sk_tasks_moved B handed woken q tq miss pend fs : sk_ok B handed woken q ->
  fholds tq fs -> fs ++ requested pend ≡ₚ batch_at <$> missing_batches B -> (forall id r, pend !! id = Some r -> fr_Headers r = []) ->
  sk_ok B handed woken (set_skeleton (headerTaskPool q) (Some tq) miss pend q).
Proof. intros [] Hh Hp Hr. split; try done. cbn. eauto. Qed.

Lemma ReserveHeaders_ok now p id B handed woken q : sk_ok B handed woken q ->
  exists r q', ReserveHeaders now p id q = Ret (r, q') /\ sk_ok B handed woken q' /\
    match r with
    | Some r => headerPendPool q' !! id = Some r /\ Peer r = p /\ exists i, From r = batch_at i /\ B !! i = Some None
    | None => True
    end.
Proof.
  intros Hs. unfold ReserveHeaders. destruct (headerPendPool q !! id) as [r0|] eqn:Eid; [by exists None, q|].
  destruct (sk_tasks _ _ _ _ Hs) as (tq & fs & Etq & Hh & Hp). rewrite Etq.
  assert (H0 : forall f, f ∈ fs -> exists i t, f = batch_at i /\ B !! i = Some None /\ skel !! i = Some t) by (intros f Hf; apply (task_missing B handed woken q f Hs); eauto 6).
  destruct (pick_batch_run (default ∅ (headerPeerMiss q !! id)) (Z.to_nat (prque_Size tq)) tq fs [] Hh) as (send & more & tq' & fs' & -> & Hh' & Hperm).
  { rewrite (fholds_size tq fs Hh). lia. }
  { intros Hin. destruct (H0 0 Hin) as (i & t & E & _). symmetry in E. by apply batch_at_pos in E. }
  cbn [mbind outcome_bind app]. pose proof (push_froms_holds more tq' fs' Hh') as Hh2. destruct (Z.eqb_spec send 0) as [->|Hne].
  - eexists None, _. split; [done|]. split; [|done]. apply (sk_tasks_moved B handed woken q _ _ _ _ Hs Hh2); [by rewrite <- Hperm|apply (sk_plain _ _ _ _ Hs)].
  - eexists (Some _), _. split; [done|]. split.
    + apply (sk_tasks_moved B handed woken q _ _ _ _ Hs Hh2).
      * rewrite (requested_insert _ _ _ Eid). cbn [From]. rewrite <- Permutation_middle. rewrite <- Hp, Hperm. done.
      * intros id' r [[_ <-]|[_ Hr]]%lookup_insert_Some; [done|by apply (sk_plain _ _ _ _ Hs id')].
    + cbn. rewrite lookup_insert_eq. split; [done|]. split; [done|]. destruct (H0 send) as (i & t & -> & Hi & _); [rewrite Hperm; left|eauto].
Qed.

Lemma give_back_batch r tq fs : fr_Headers r = [] -> 0 < From r -> fholds tq fs -> exists tq', give_back r tq = Ret tq' /\ fholds tq' (From r :: fs).
Proof.
  intros Hn Hf Hh. unfold give_back. rewrite Hn. destruct (Z.ltb_spec 0 (From r)); [|lia]. eexists. split; [done|]. by apply push_from_holds.
Qed.

Lemma request_batch B handed woken q id r : sk_ok B handed woken q -> headerPendPool q !! id = Some r ->
  exists i t, From r = batch_at i /\ B !! i = Some None /\ skel !! i = Some t /\ 0 < From r /\ fr_Headers r = [].
Proof.
  intros Hs Hr. destruct (task_missing B handed woken q (From r) Hs) as (i & t & E & Hi & Ht).
  { right. apply list_elem_of_fmap. exists (id, r). split; [done|]. by apply elem_of_map_to_list. }
  exists i, t. do 3 (split; [done|]). split; [rewrite E; unfold batch_at; lia|]. by apply (sk_plain _ _ _ _ Hs id).
Qed.

Lemma CancelHeaders_ok id r B handed woken q : sk_ok B handed woken q -> headerPendPool q !! id = Some r ->
  exists q', CancelHeaders id r q = Ret q' /\ sk_ok B handed woken q'.
Proof.
  intros Hs Hr. destruct (request_batch B handed woken q id r Hs Hr) as (i & t & _ & _ & _ & Hpos & Hnil).
  destruct (sk_tasks _ _ _ _ Hs) as (tq & fs & Etq & Hh & Hp). unfold CancelHeaders, cancel. rewrite Etq.
  destruct (give_back_batch r tq fs Hnil Hpos Hh) as (tq' & -> & Hh'). cbn [mbind outcome_bind fst snd]. eexists. split; [done|].
  apply (sk_tasks_moved B handed woken q _ _ _ _ Hs Hh').
  - rewrite <- Hp, (requested_delete _ _ _ Hr). cbn. by rewrite Permutation_middle.
  - intros id' r' [_ Hr']%lookup_delete_Some. by apply (sk_plain _ _ _ _ Hs id').
Qed.

Lemma expire_each_batches timeout now L : forall tq fs E, Forall (fun e => fr_Headers e.2 = [] /\ 0 < From e.2) L -> fholds tq fs ->
  exists tq' E', expire_each timeout now L tq E = Ret (tq', E') /\ fholds tq' ((From ∘ snd <$> filter (expired timeout now) L) ++ fs) /\
    (forall id, is_Some (E' !! id) <-> is_Some (E !! id) \/ id ∈ (filter (expired timeout now) L).*1) /\
    (forall id n, E' !! id = Some n -> E !! id = Some n \/ n = 0).
Proof.
  induction L as [|[id r] L IH]; intros tq fs E HL Hh; cbn [expire_each].
  - exists tq, E. split; [done|]. split; [done|]. split; [set_solver|auto].
  - inversion HL as [|? ? [Hnil Hpos] HL']; subst. cbn [snd] in *. rewrite filter_cons.
    destruct (Z.ltb_spec timeout (now id - fr_Time r)) as [Hlt|Hge].
    + rewrite decide_True by done. destruct (give_back_batch r tq fs Hnil Hpos Hh) as (tq1 & -> & Hh1). cbn [mbind outcome_bind].
      destruct (IH tq1 _ (<[id := Z.of_nat (length (fr_Headers r))]> E) HL' Hh1) as (tq' & E' & -> & Hh' & HE & HE2).
      exists tq', E'. split; [done|]. split; [|split].
      * eapply fholds_perm; [|exact Hh']. cbn. by rewrite <- Permutation_middle.
      * intros id'. rewrite HE, lookup_insert_is_Some'. cbn. rewrite elem_of_cons. naive_solver.
      * intros id' n [HEn|?]%HE2; [|auto]. apply lookup_insert_Some in HEn as [[_ <-]|[_ ?]]; [|auto]. right. by rewrite Hnil.
    + rewrite decide_False by (unfold expired; cbn; lia). by apply IH.
Qed.

(** An expired request of a batch is reported with a size of 0. *)
Lemma ExpireHeaders_ok timeout now B handed woken q : sk_ok B handed woken q ->
  exists E q', ExpireHeaders timeout now q = Ret (E, q') /\ sk_ok B handed woken q' /\
    (forall id, is_Some (E !! id) <-> exists r, headerPendPool q !! id = Some r /\ expired timeout now (id, r)) /\
    (forall id n, E !! id = Some n -> n = 0).
Proof.
  intros Hs. destruct (sk_tasks _ _ _ _ Hs) as (tq & fs & Etq & Hh & Hp). unfold ExpireHeaders, expire. rewrite Etq.
  set (pend := headerPendPool q) in *.
  assert (HL : Forall (fun e => fr_Headers e.2 = [] /\ 0 < From e.2) (range pend)).
  { apply Forall_forall. intros [id r] Hin. rewrite (range_perm pend) in Hin. apply elem_of_map_to_list in Hin.
    by destruct (request_batch B handed woken q id r Hs Hin) as (i & t & _ & _ & _ & Hpos & Hnil). }
  destruct (expire_each_batches timeout now (range pend) tq fs ∅ HL Hh) as (tq' & E & EE & Hh' & HE & Hz). rewrite EE. cbn [mbind outcome_bind fst snd].
  assert (Hex : forall id, is_Some (E !! id) <-> exists r, pend !! id = Some r /\ expired timeout now (id, r)).
  { intros id. rewrite HE, lookup_empty, expired_found. split; [intros [[? ?]|?]; done|auto]. }
  pose proof (foldr_delete_left (expired timeout now) pend E Hex) as Hpe. eexists E, _. split; [done|]. split.
  - apply (sk_tasks_moved B handed woken q _ _ _ _ Hs Hh').
    + rewrite <- Hp. unfold requested. rewrite (left_of_list _ _ _ Hpe), fmap_app. rewrite <- !app_assoc.
      rewrite !app_assoc. apply Permutation_app_tail, Permutation_app_comm.
    + intros id r Hr. rewrite Hpe in Hr. destruct (pend !! id) as [r0|] eqn:Er; [|done]. destruct (decide _); [done|]. injection Hr as <-. by apply (sk_plain _ _ _ _ Hs id).
  - split; [done|]. intros id n [?|?]%Hz; [done|done].
Qed.


(** ** Deliveries *)

Lemma chained_returns l : Forall counted l -> forall n prev, exists b, chained n prev l = Ret b.
Proof.
  induction 1 as [|h l Hh _ IH]; intros n prev; cbn [chained]; [eauto|]. destruct Hh as [m Hm]. rewrite Hm. cbn [mbind outcome_bind].
  destruct (negb _); [eauto|]. destruct (negb _); eauto.
Qed.

Lemma fills_returns f target hs : Forall counted hs -> exists b, fills f target hs = Ret b.
Proof.
  intros Hc. unfold fills. destruct (Nat.eqb_spec (length hs) MaxHeaderFetch) as [E|]; cbn [negb]; [|eauto].
  destruct Hc as [|h l [m Hm] Hl]; [cbn in E; lia|]. rewrite Hm. cbn [mbind outcome_bind].
  destruct (negb _); [eauto|]. destruct (negb _); [eauto|]. by apply chained_returns.
Qed.

Lemma fills_length f target hs : fills f target hs = Ret true -> length hs = MaxHeaderFetch.
Proof. unfold fills. by destruct (Nat.eqb_spec (length hs) MaxHeaderFetch). Qed.

(** The slots of the batches, as one list. *)
Definition flat (B : list (option (list Header))) : list (option Header) := mjoin (slots <$> B).
Definition sized (B : list (option (list Header))) : Prop := Forall (fun x => length x = MaxHeaderFetch) (slots <$> B).

Lemma flat_take B i : sized B -> take (i * MaxHeaderFetch) (flat B) = flat (take i B).
Proof. intros Hz. unfold flat. by rewrite (take_join _ _ Hz), fmap_take. Qed.

Lemma flat_drop B i : sized B -> drop (i * MaxHeaderFetch) (flat B) = flat (drop i B).
Proof. intros Hz. unfold flat. by rewrite (drop_join _ _ Hz), fmap_drop. Qed.

Lemma flat_length B : sized B -> length (flat B) = (length B * MaxHeaderFetch)%nat.
Proof. intros Hz. unfold flat. by rewrite (length_join_same _ _ Hz), length_fmap. Qed.

Lemma flat_app B B' : flat (B ++ B') = flat B ++ flat B'.
Proof. unfold flat. by rewrite fmap_app, join_app. Qed.

Lemma sized_insert B i hs : sized B -> length hs = MaxHeaderFetch -> sized (<[i := Some hs]> B).
Proof. intros Hz Hl. unfold sized. rewrite list_fmap_insert. apply Forall_insert; [done|]. cbn. by rewrite length_fmap. Qed.

Lemma sized_drop B i : sized B -> sized (drop i B).
Proof. intros Hz. unfold sized. rewrite fmap_drop. by apply Forall_drop. Qed.

Lemma copy_at_run B i hs : sized B -> (i < length B)%nat -> length hs = MaxHeaderFetch ->
  copy_at (i * MaxHeaderFetch) hs (flat B) = Ret (flat (<[i := Some hs]> B)).
Proof.
  intros Hz Hi Hl. pose proof (sized_insert B i hs Hz Hl) as Hz'. unfold copy_at. rewrite (flat_length B Hz), Hl.
  destruct (Nat.ltb_spec (length B * MaxHeaderFetch) (i * MaxHeaderFetch)) as [Hlt|_]; [apply Nat.mul_lt_mono_pos_r in Hlt; lia|]. f_equal.
  rewrite (insert_take_drop B i (Some hs) Hi), flat_app, (flat_take B i Hz). f_equal.
  replace (i * MaxHeaderFetch + MaxHeaderFetch)%nat with (S i * MaxHeaderFetch)%nat by lia. rewrite (flat_drop B (S i) Hz).
  change (flat (Some hs :: drop (S i) B)) with ((Some <$> hs) ++ flat (drop (S i) B)). apply take_ge.
  rewrite length_app, length_fmap, (flat_length _ (sized_drop B (S i) Hz)), length_drop, Hl.
  rewrite <- Nat.mul_sub_distr_r. replace (length B - i)%nat with (S (length B - S i)) by lia. lia.
Qed.

Lemma sized_lookup B p hs : sized B -> B !! p = Some (Some hs) -> length hs = MaxHeaderFetch.
Proof.
  unfold sized. rewrite Forall_lookup. intros Hz Eb. specialize (Hz p (Some <$> hs)). rewrite length_fmap in Hz. apply Hz. by rewrite list_lookup_fmap, Eb.
Qed.

(** The first slot of a batch tells whether it is filled. *)
Lemma flat_lookup B p : sized B -> flat B !! (p * MaxHeaderFetch)%nat = match B !! p with
  | Some (Some hs) => Some <$> head hs
  | Some None => Some None
  | None => None
  end.
Proof.
  intros Hz. rewrite <- (Nat.add_0_r (p * MaxHeaderFetch)), <- lookup_drop, (flat_drop B p Hz).
  destruct (B !! p) as [b|] eqn:Eb; [|by rewrite drop_ge by (by apply lookup_ge_None)].
  rewrite (drop_S B b p Eb). destruct b as [hs|]; cbn.
  - pose proof (sized_lookup B p hs Hz Eb) as Hl.
    destruct hs; [cbn in Hl; lia|done].
  - by destruct MaxHeaderFetch; [lia|].
Qed.

Lemma ready_from_run B fuel : forall p, sized B -> (length B <= fuel + p)%nat -> exists n, ready_from fuel (flat B) (p * MaxHeaderFetch) = Ret (n * MaxHeaderFetch)%nat /\
  (forall j, (p <= j < p + n)%nat -> exists hs, B !! j = Some (Some hs)) /\
  ((p <= length B)%nat -> (p + n <= length B)%nat) /\ forall hs, B !! (p + n)%nat <> Some (Some hs).
Proof.
  induction fuel as [|fuel IH]; intros p Hz Hf; cbn [ready_from]; rewrite (flat_lookup B p Hz).
  - rewrite (lookup_ge_None_2 B p) by lia. exists 0%nat. split; [done|]. split; [lia|]. rewrite Nat.add_0_r. split; [done|]. by rewrite (lookup_ge_None_2 B p) by lia.
  - destruct (B !! p) as [[hs|]|] eqn:Eb.
    2, 3: exists 0%nat; split; [done|]; split; [lia|]; rewrite Nat.add_0_r; split; [done|]; by rewrite Eb.
    pose proof (sized_lookup B p hs Hz Eb) as Hl.
    destruct hs as [|h hs]; [cbn in Hl; lia|]. cbn [head fmap option_fmap option_map].
    destruct (IH (S p) Hz) as (n & E & Hall & Hle & Hend); [lia|].
    replace (p * MaxHeaderFetch + MaxHeaderFetch)%nat with (S p * MaxHeaderFetch)%nat by lia. rewrite E. cbn [mbind outcome_bind].
    exists (S n). split; [done|]. split; [|split].
    + intros j Hj. destruct (decide (j = p)) as [->|]; [eauto|]. apply Hall. lia.
    + apply lookup_lt_Some in Eb. lia.
    + by replace (p + S n)%nat with (S p + n)%nat by lia.
Qed.


Lemma missing_NoDup B : NoDup (missing_batches B).
Proof. apply NoDup_filter, NoDup_seq. Qed.

Lemma missing_filled B i hs : B !! i = Some None -> missing_batches B ≡ₚ i :: missing_batches (<[i := Some hs]> B).
Proof.
  intros Hi. pose proof (lookup_lt_Some _ _ _ Hi) as Hlt. apply NoDup_Permutation; [apply missing_NoDup| |].
  - constructor; [|apply missing_NoDup]. rewrite elem_of_missing, list_lookup_insert_eq by done. done.
  - intros j. rewrite elem_of_cons, !elem_of_missing. destruct (decide (j = i)) as [->|Hne]; [tauto|].
    rewrite list_lookup_insert_ne by done. tauto.
Qed.

(** The signal of the end is sent with the last batch. *)
Lemma signal_run B handed woken q i hs : sk_ok B handed woken q -> B !! i = Some None ->
  let B' := <[i := Some hs]> B in let pool := delete (batch_at i) (headerTaskPool q) in
  exists ch, signal_end pool (headerContCh q) = Ret ch /\ cc_cap ch = 1%nat /\
    woken ++ cc_items ch = match missing_batches B', skel with [], _ :: _ => [false] | _, _ => [] end.
Proof.
  intros Hs Hi B' pool. destruct (sk_chan _ _ _ _ Hs) as [Hcap Hch]. pose proof (missing_filled B i hs Hi) as Hm. fold B' in Hm.
  assert (E0 : woken = [] /\ cc_items (headerContCh q) = []).
  { apply app_eq_nil. rewrite Hch. destruct (missing_batches B); [by apply Permutation_nil_cons in Hm|done]. }
  destruct E0 as [-> E0]. assert (Hsk : skel <> []). { apply lookup_lt_Some in Hi. rewrite (sk_length _ _ _ _ Hs) in Hi. destruct skel; [cbn in Hi; lia|done]. }
  assert (Hpool : pool = ∅ <-> missing_batches B' = []).
  { split.
    - intros Hp. apply elem_of_nil_inv. intros j Hj. assert (Hj' : j ∈ missing_batches B) by (rewrite Hm; by right). apply elem_of_missing in Hj, Hj'.
      assert (j <> i). { intros ->. unfold B' in Hj. rewrite list_lookup_insert_eq in Hj; [done|by eapply lookup_lt_Some]. }
      pose proof (lookup_lt_Some _ _ _ Hj') as Hlt. rewrite (sk_length _ _ _ _ Hs) in Hlt. destruct (lookup_lt_is_Some_2 skel j Hlt) as [t Ht].
      pose proof (sk_pool _ _ _ _ Hs j t Ht) as Et. rewrite Hj' in Et. cbn in Et.
      assert (Hx : pool !! batch_at j = Some t) by (unfold pool; rewrite lookup_delete_ne; [done|by intros ?%batch_at_inj]). by rewrite Hp in Hx.
    - intros Hn. apply map_empty. intros f. apply eq_None_not_Some. intros HS. unfold pool in HS. apply lookup_delete_is_Some in HS as [Hne HS].
      destruct (sk_only _ _ _ _ Hs f HS) as (j & -> & Hj%elem_of_missing). rewrite Hm, Hn in Hj. apply list_elem_of_singleton in Hj as ->. done. }
  unfold signal_end. destruct (decide (pool = ∅)) as [Hp|Hp].
  - unfold cont_send. rewrite E0, Hcap. cbn. eexists. split; [done|]. cbn. split; [done|]. apply Hpool in Hp. rewrite Hp. by destruct skel.
  - eexists. split; [done|]. split; [done|]. rewrite E0. cbn. destruct (missing_batches B'); [|done]. by destruct Hp; apply Hpool.
Qed.


Lemma batch_offset B handed woken q i : sk_ok B handed woken q -> (i < length B)%nat -> Z.to_nat (u64 (batch_at i - headerOffset q)) = (i * MaxHeaderFetch)%nat.
Proof.
  intros Hs Hi. rewrite (sk_offset _ _ _ _ Hs), (sk_length _ _ _ _ Hs) in *. unfold batch_at.
  assert (i * MaxHeaderFetch <= length skel * MaxHeaderFetch)%nat by (apply Nat.mul_le_mono_r; lia).
  replace (from + Z.of_nat (i * MaxHeaderFetch) - from) with (Z.of_nat (i * MaxHeaderFetch)) by lia.
  rewrite u64_small; [by rewrite Nat2Z.id|]. unfold is_u64, MaxUint64. lia.
Qed.

(** What is handed on with a delivery. *)
Definition handed_on (o : option (list (option Header))) : list (option Header) := default [] o.

Lemma accept_ok i t hs idle tq fs pend B handed woken q : sk_ok B handed woken q -> B !! i = Some None -> skel !! i = Some t ->
  fills (batch_at i) (Header_Hash t) hs = Ret true -> fholds tq fs -> fs ++ requested pend ≡ₚ batch_at <$> missing_batches (<[i := Some hs]> B) ->
  (forall id r, pend !! id = Some r -> fr_Headers r = []) ->
  exists o q', accept_batch (batch_at i) hs idle tq pend q = Ret (o, q') /\ sk_ok (<[i := Some hs]> B) (handed ++ handed_on o) woken q'.
Proof.
  intros Hs Hi Ht Hf Hh Hp Hr. pose proof (lookup_lt_Some _ _ _ Hi) as Hlt. pose proof (fills_length _ _ _ Hf) as Hl.
  pose proof (slots_length B handed woken q Hs) as Hz. change (sized B) in Hz. set (B' := <[i := Some hs]> B) in *.
  pose proof (sized_insert B i hs Hz Hl) as Hz'. fold B' in Hz'. assert (HlB : length B' = length B) by apply length_insert.
  destruct (sk_proced _ _ _ _ Hs) as (p & Ep & Hpl & Hpf & Ehd).
  assert (Hpi : (p <= i)%nat). { destruct (decide (i < p)%nat) as [Hlt'|]; [|lia]. destruct (Hpf i Hlt') as [? E]. by rewrite Hi in E. }
  unfold accept_batch. rewrite (batch_offset B handed woken q i Hs Hlt), (sk_results _ _ _ _ Hs). cbn [default from_option id].
  change (mjoin (slots <$> B)) with (flat B). rewrite (copy_at_run B i hs Hz Hlt Hl). fold B'. cbn [mbind outcome_bind]. rewrite Ep, Nat2Z.id.
  destruct (ready_from_run B' (length (flat B')) p Hz') as (n & En & Hn & Hnl & _). { rewrite (flat_length B' Hz'). nia. }
  specialize (Hnl ltac:(lia)). rewrite En. cbn [mbind outcome_bind].
  destruct (Nat.ltb_spec (length (flat B')) (p * MaxHeaderFetch + n * MaxHeaderFetch)) as [Hx|_].
  { rewrite (flat_length B' Hz'), <- Nat.mul_add_distr_r in Hx. apply Nat.mul_lt_mono_pos_r in Hx; lia. }
  rewrite andb_false_r. destruct (signal_run B handed woken q i hs Hs Hi) as (ch & Ech & Hcap & Hch). rewrite Ech. cbn [mbind outcome_bind].
  assert (Htk : take p B' = take p B) by (apply take_insert_ge; lia).
  generalize (Nat.ltb 0 (n * MaxHeaderFetch) && idle). intros hand. eexists _, _. split; [done|]. split; cbn.
  - by rewrite HlB, (sk_length _ _ _ _ Hs).
  - intros j hs' t' [(<- & E & _)|[Hne Hj]]%list_lookup_insert_Some Ht'; [|by apply (sk_good _ _ _ _ Hs j hs' t')].
    injection E as <-. rewrite Ht in Ht'. by injection Ht' as <-.
  - done.
  - apply (sk_offset _ _ _ _ Hs).
  - intros j t' Ht'. destruct (decide (j = i)) as [->|Hne].
    + rewrite lookup_delete_eq. unfold B'. by rewrite list_lookup_insert_eq.
    + unfold B'. rewrite lookup_delete_ne, list_lookup_insert_ne by (intros ?%batch_at_inj || idtac; congruence). by apply (sk_pool _ _ _ _ Hs).
  - intros f [Hne HS]%lookup_delete_is_Some. destruct (sk_only _ _ _ _ Hs f HS) as (j & -> & Hj). exists j. split; [done|].
    unfold B'. rewrite list_lookup_insert_ne; [done|]. intros ->. done.
  - eauto.
  - done.
  - destruct hand; cbn [handed_on default from_option].
    + exists (p + n)%nat. split; [by rewrite ?Ep, Nat.mul_add_distr_r, Nat2Z.inj_add|]. split; [lia|]. split.
      * intros j Hj. destruct (decide (j < p)%nat) as [Hjp|]; [|apply Hn; lia]. destruct (Hpf j Hjp) as [hs' E]. exists hs'.
        unfold B'. rewrite list_lookup_insert_ne by lia. done.
      * change (handed ++ take (n * MaxHeaderFetch) (drop (p * MaxHeaderFetch) (flat B')) = flat (take (p + n) B')).
        rewrite (flat_drop B' p Hz'), (flat_take _ n (sized_drop B' p Hz')), Ehd. change (mjoin (slots <$> take p B)) with (flat (take p B)).
        by rewrite <- Htk, <- flat_app, take_take_drop.
    + exists p. split; [lia|]. split; [lia|]. rewrite app_nil_r, Htk. split; [|done]. intros j Hj. destruct (Hpf j Hj) as [hs' E]. exists hs'.
      unfold B'. rewrite list_lookup_insert_ne by lia. done.
  - done.
Qed.


Lemma DeliverHeaders_ok id hs idle B handed woken q : sk_ok B handed woken q -> Forall counted hs ->
  exists n e o q' B', q_DeliverHeaders id hs idle q = Ret (n, e, o, q') /\ sk_ok B' (handed ++ handed_on o) woken q'.
Proof.
  intros Hs Hc. unfold q_DeliverHeaders. destruct (headerPendPool q !! id) as [r|] eqn:Er.
  2: { eexists _, _, _, _, B. split; [done|]. cbn. by rewrite app_nil_r. }
  destruct (request_batch B handed woken q id r Hs Er) as (i & t & Ef & Hi & Ht & _ & _). rewrite Ef.
  destruct (sk_tasks _ _ _ _ Hs) as (tq & fs & Etq & Hh & Hp). rewrite (sk_pool _ _ _ _ Hs i t Ht), Hi, Etq. cbn [mjoin option_join].
  rewrite (requested_delete _ _ _ Er), Ef, <- Permutation_middle in Hp.
  assert (Hpl : forall id' r', delete id (headerPendPool q) !! id' = Some r' -> fr_Headers r' = []) by (intros id' r' [_ Hr']%lookup_delete_Some; by apply (sk_plain _ _ _ _ Hs id')).
  destruct (fills_returns (batch_at i) (Header_Hash t) hs Hc) as [[] Eb]; rewrite Eb; cbn [mbind outcome_bind].
  - assert (Hp' : fs ++ requested (delete id (headerPendPool q)) ≡ₚ batch_at <$> missing_batches (<[i := Some hs]> B)).
    { apply (Permutation_cons_inv (a := batch_at i)). rewrite Hp, (missing_filled B i hs Hi). done. }
    destruct (accept_ok i t hs idle tq fs _ B handed woken q Hs Hi Ht Eb Hh Hp' Hpl) as (o & q' & -> & Hs').
    eexists _, _, _, _, _. split; [done|exact Hs'].
  - eexists _, _, _, _, B. split; [done|]. cbn [handed_on default from_option]. rewrite app_nil_r.
    apply (sk_tasks_moved B handed woken q _ _ _ _ Hs (push_from_holds tq (batch_at i) fs Hh)); [by rewrite <- Hp|done].
Qed.

(** ** The runs *)

(** Operations on other parts of the queue. *)
Definition same_skeleton (q q' : queue) : Prop :=
  headerTaskPool q' = headerTaskPool q /\ headerTaskQueue q' = headerTaskQueue q /\ headerPendPool q' = headerPendPool q /\
  headerResults q' = headerResults q /\ headerProced q' = headerProced q /\ headerOffset q' = headerOffset q /\ headerContCh q' = headerContCh q.

Inductive sk_run : list (option Header) -> list bool -> queue -> Prop :=
| sk_start q q' : headerPendPool q = ∅ -> ScheduleSkeleton from skel q = Ret q' -> sk_run [] [] q'
| sk_reserve now p id r handed woken q q' : sk_run handed woken q -> ReserveHeaders now p id q = Ret (r, q') -> sk_run handed woken q'
| sk_cancel id r handed woken q q' : sk_run handed woken q -> headerPendPool q !! id = Some r -> CancelHeaders id r q = Ret q' -> sk_run handed woken q'
| sk_expire timeout now E handed woken q q' : sk_run handed woken q -> ExpireHeaders timeout now q = Ret (E, q') -> sk_run handed woken q'
| sk_deliver id hs idle n e o handed woken q q' : sk_run handed woken q -> Forall counted hs -> q_DeliverHeaders id hs idle q = Ret (n, e, o, q') ->
    sk_run (handed ++ handed_on o) woken q'
| sk_wake b rest handed woken q : sk_run handed woken q -> cc_items (headerContCh q) = b :: rest ->
    sk_run handed (woken ++ [b]) (set_filled (headerResults q) (headerProced q) (headerOffset q) (mkContCh rest (cc_cap (headerContCh q))) q)
| sk_other handed woken q q' : sk_run handed woken q -> same_skeleton q q' -> sk_run handed woken q'.

Lemma sk_run_ok handed woken q : sk_run handed woken q -> exists B, sk_ok B handed woken q.
Proof.
  induction 1 as [q q' He E|now p id r handed woken q q' _ [B Hs] E|id r handed woken q q' _ [B Hs] Hr E|timeout now ex handed woken q q' _ [B Hs] E
    |id hs idle n e o handed woken q q' _ [B Hs] Hc E|b rest handed woken q _ [B Hs] Hb|handed woken q q' _ [B Hs] Hsame].
  - eexists. by apply (start_ok q).
  - destruct (ReserveHeaders_ok now p id B handed woken q Hs) as (r' & q2 & E' & Hs' & _). rewrite E' in E. injection E as <- <-. eauto.
  - destruct (CancelHeaders_ok id r B handed woken q Hs Hr) as (q2 & E' & Hs'). rewrite E' in E. injection E as <-. eauto.
  - destruct (ExpireHeaders_ok timeout now B handed woken q Hs) as (ex' & q2 & E' & Hs' & _). rewrite E' in E. injection E as <- <-. eauto.
  - destruct (DeliverHeaders_ok id hs idle B handed woken q Hs Hc) as (n' & e' & o' & q2 & B' & E' & Hs'). rewrite E' in E. injection E as <- <- <- <-. eauto.
  - exists B. destruct Hs as [? ? ? ? ? ? ? ? ? [Hcap Hch]]. split; try done. cbn. split; [done|]. rewrite <- app_assoc. cbn. by rewrite <- Hb.
  - exists B. destruct Hsame as (E1 & E2 & E3 & E4 & E5 & E6 & E7). destruct Hs. split; rewrite ?E1, ?E2, ?E3, ?E4, ?E5, ?E6, ?E7; try done.
Qed.


(** ** What a full skeleton holds *)

Lemma join_lookup {A : Type} (hss : list (list A)) i k : Forall (fun x => length x = MaxHeaderFetch) hss -> (k < MaxHeaderFetch)%nat ->
  mjoin hss !! (i * MaxHeaderFetch + k)%nat = hss !! i ≫= (.!! k).
Proof.
  intros Hz Hk. rewrite <- lookup_drop, (drop_join _ _ Hz). destruct (hss !! i) as [x|] eqn:Ex; cbn [mbind option_bind].
  - rewrite (drop_S _ _ _ Ex). change (mjoin (x :: drop (S i) hss)) with (x ++ mjoin (drop (S i) hss)). apply lookup_app_l.
    rewrite Forall_lookup in Hz. by rewrite (Hz i x Ex).
  - by rewrite drop_ge by (by apply lookup_ge_None).
Qed.

Lemma last_indep {A : Type} (l : list A) (d d' : A) : l <> [] -> List.last l d = List.last l d'.
Proof. induction l as [|x l IH]; [done|]. intros _. destruct l; [done|]. by apply IH. Qed.

Lemma last_at {A : Type} (l : list A) : forall h, (h :: l) !! length l = Some (List.last l h).
Proof.
  induction l as [|x l IH]; intros h; [done|]. cbn [length]. change ((x :: l) !! length l = Some (List.last (x :: l) h)). rewrite (IH x).
  destruct l as [|y l]; [done|]. f_equal. by apply (last_indep (y :: l)).
Qed.

(** Headers with consecutive numbers, each the parent of the next. *)
Definition linked (n : Z) (hs : list Header) : Prop :=
  (forall k h, hs !! k = Some h -> header_number h = Ret (n + Z.of_nat k)) /\
  (forall k a b, hs !! k = Some a -> hs !! S k = Some b -> ParentHash b = Header_Hash a).

Lemma chained_linked l : forall n prev, header_number prev = Ret n -> 0 <= n -> n + Z.of_nat (length l) < 9223372036854775808 ->
  chained n prev l = Ret true -> linked n (prev :: l).
Proof.
  induction l as [|h l IH]; intros n prev Hn H0 Hl E.
  - split; [intros [|k] x [= <-]; by rewrite Z.add_0_r|intros [|k] a b [= <-] ?; done].
  - cbn [chained length] in E, Hl. assert (Eu : u64 (n + 1) = n + 1) by (apply u64_small; unfold is_u64, MaxUint64; lia). rewrite Eu in E.
    destruct (header_number h) as [m| |] eqn:Em; try done. cbn [mbind outcome_bind] in E.
    destruct (Z.eqb_spec m (n + 1)) as [->|]; cbn [negb] in E; [|done].
    destruct (Z.eqb_spec (Header_Hash prev) (ParentHash h)) as [Eh|]; cbn [negb] in E; [|done].
    destruct (IH (n + 1) h Em ltac:(lia) ltac:(lia) E) as [IH1 IH2]. split.
    + intros [|k] x Hx; [injection Hx as <-; by rewrite Z.add_0_r|]. rewrite (IH1 k x Hx). f_equal. lia.
    + intros [|k] a b Ha Hb; [|by apply (IH2 k)]. injection Ha as <-. injection Hb as <-. done.
Qed.

Lemma fills_linked f target hs : 0 <= f -> f + Z.of_nat MaxHeaderFetch < 9223372036854775808 -> fills f target hs = Ret true ->
  linked f hs /\ exists h, hs !! (MaxHeaderFetch - 1)%nat = Some h /\ Header_Hash h = target.
Proof.
  intros H0 Hb E. pose proof (fills_length _ _ _ E) as Hl. unfold fills in E. rewrite Hl, Nat.eqb_refl in E. cbn [negb] in E.
  destruct hs as [|h l]; [done|]. destruct (header_number h) as [m| |] eqn:Em; try done. cbn [mbind outcome_bind length] in *.
  destruct (Z.eqb_spec m f) as [->|]; cbn [negb] in E; [|done].
  destruct (Z.eqb_spec (Header_Hash (List.last l h)) target) as [Et|]; cbn [negb] in E; [|done].
  split; [apply chained_linked; [done|done|lia|done]|]. exists (List.last l h). split; [|done].
  rewrite <- Hl. cbn. rewrite Nat.sub_0_r. apply last_at.
Qed.


(** A peer that was never refused a batch gets one. *)
Lemma reserve_gives B handed woken q : sk_ok B handed woken q -> forall now p id r q', ReserveHeaders now p id q = Ret (r, q') ->
  headerPendPool q !! id = None -> headerPeerMiss q !! id = None -> (exists n, PendingHeaders q = Ret n /\ 0 < n) -> is_Some r.
Proof.
  intros Hs now p id r q' E Hn Hm (n & Epd & Hpos). destruct (sk_tasks _ _ _ _ Hs) as (tq & fs & Etq & Hh & Hp).
  unfold PendingHeaders in Epd. rewrite Etq in Epd. injection Epd as <-. rewrite (fholds_size tq fs Hh) in Hpos.
  unfold ReserveHeaders in E. rewrite Hn, Etq, Hm in E. destruct fs as [|f0 fs0]; [cbn in Hpos; lia|].
  destruct (fholds_pop tq _ Hh) as (f & fs' & tq' & Epop & Hperm & _); [done|].
  assert (Hf : f <> 0). { destruct (task_missing B handed woken q f Hs) as (i & t & -> & _); [left; exists tq, (f0 :: fs0); do 2 (split; [done|]); rewrite Hperm; left|apply batch_at_pos]. }
  rewrite (fholds_size tq _ Hh), Nat2Z.id in E. cbn [pick_batch length] in E. rewrite (fholds_empty tq _ Hh), Epop in E. cbn [default from_option] in E.
  rewrite decide_False in E by set_solver. destruct (Z.eqb_spec f 0); [done|]. cbn [mbind outcome_bind foldl] in E.
  destruct (Z.eqb_spec f 0); [done|]. injection E as <- _. eauto.
Qed.

(** Nothing queued and nothing requested: the end was signalled. *)
Lemma drained_signals B handed woken q : sk_ok B handed woken q -> PendingHeaders q = Ret 0 -> InFlightHeaders q = false -> skel <> [] ->
  woken ++ cc_items (headerContCh q) = [false].
Proof.
  intros Hs Epd Hfl Hsk. destruct (sk_tasks _ _ _ _ Hs) as (tq & fs & Etq & Hh & Hp). destruct (sk_chan _ _ _ _ Hs) as [_ ->].
  unfold PendingHeaders in Epd. rewrite Etq, (fholds_size tq fs Hh) in Epd. injection Epd as Efs. assert (fs = []) as -> by (apply length_zero_iff_nil; lia).
  unfold InFlightHeaders in Hfl. apply Z.ltb_ge in Hfl. assert (Ee : headerPendPool q = ∅) by (apply map_size_empty_inv; lia).
  unfold requested in Hp. rewrite Ee, map_to_list_empty in Hp. cbn in Hp. symmetry in Hp. apply Permutation_nil_r, fmap_nil_inv in Hp.
  rewrite Hp. by destruct skel.
Qed.

(** Nothing is missing once the end was signalled. *)
Lemma signalled_full B handed woken q : sk_ok B handed woken q -> woken ++ cc_items (headerContCh q) <> [] ->
  woken ++ cc_items (headerContCh q) = [false] /\ missing_batches B = [] /\ exists hss, B = Some <$> hss.
Proof.
  intros Hs Hne. destruct (sk_chan _ _ _ _ Hs) as [_ Hch]. rewrite Hch in *. destruct (missing_batches B) as [|] eqn:Em; [|done].
  split; [by destruct skel|]. split; [done|]. exists (omap id B). clear Hch Hne. apply list_eq. intros i.
  assert (Hall : Forall (fun b : option (list Header) => is_Some b) B).
  { apply Forall_lookup. intros j [hs|] Hj; [eauto|]. apply elem_of_missing in Hj. rewrite Em in Hj. by apply not_elem_of_nil in Hj. }
  f_equal. clear -Hall. induction Hall as [|b B [hs ->] _ IH]; [done|]. cbn. by rewrite <- IH.
Qed.

Lemma flat_all hss : flat (Some <$> hss) = Some <$> mjoin hss.
Proof. unfold flat. induction hss as [|hs hss IH]; [done|]. cbn. rewrite fmap_app. f_equal. exact IH. Qed.

Lemma batch_linked B handed woken q i hs : sk_ok B handed woken q -> B !! i = Some (Some hs) ->
  linked (batch_at i) hs /\ length hs = MaxHeaderFetch /\ exists t, skel !! i = Some t /\ hs !! (MaxHeaderFetch - 1)%nat = Some t.
Proof.
  intros Hs Hi. pose proof (lookup_lt_Some _ _ _ Hi) as Hlt. rewrite (sk_length _ _ _ _ Hs) in Hlt. destruct (lookup_lt_is_Some_2 skel i Hlt) as [t Ht].
  destruct (sk_good _ _ _ _ Hs i hs t Hi Ht) as [Hl Hf].
  assert (S i * MaxHeaderFetch <= length skel * MaxHeaderFetch)%nat by (apply Nat.mul_le_mono_r; lia).
  destruct (fills_linked (batch_at i) (Header_Hash t) hs) as [Hk (h & Hh & Eh)]; [unfold batch_at; lia|unfold batch_at; lia|done|].
  split; [done|]. split; [done|]. exists t. split; [done|]. rewrite Hh. f_equal. by apply hash_inj.
Qed.

(** C15. A skeleton is filled.  When the end of a skeleton has been signalled, which happens once, whatever
    peers delivered, in whatever order, [RetrieveHeaders] returns a header for every slot: their numbers
    are consecutive from the first one on, the last header of each batch is the header of the skeleton, and
    in a batch each header is the child of the one before; the headers the processor was given before are
    the first ones of the list, in order and without a gap, and no request is left. *)
Theorem skeleton_filled handed woken q : sk_run handed woken q -> woken ++ cc_items (headerContCh q) <> [] ->
  woken ++ cc_items (headerContCh q) = [false] /\
  exists L q', RetrieveHeaders q = (Some (Some <$> L), Z.of_nat (length handed), q') /\
    length L = (length skel * MaxHeaderFetch)%nat /\ handed = Some <$> take (length handed) L /\
    (forall j h, L !! j = Some h -> header_number h = Ret (from + Z.of_nat j)) /\
    (forall i t, skel !! i = Some t -> L !! (i * MaxHeaderFetch + (MaxHeaderFetch - 1))%nat = Some t) /\
    (forall i k a b, (S k < MaxHeaderFetch)%nat -> L !! (i * MaxHeaderFetch + k)%nat = Some a -> L !! (i * MaxHeaderFetch + S k)%nat = Some b ->
       ParentHash b = Header_Hash a) /\
    headerPendPool q' = ∅ /\ headerResults q' = None.
Proof.
  intros [B Hs]%sk_run_ok Hne. destruct (signalled_full B handed woken q Hs Hne) as (Esig & Em & hss & EB). split; [done|].
  assert (Hlook : forall i hs, hss !! i = Some hs -> B !! i = Some (Some hs)) by (intros i hs Hi; by rewrite EB, list_lookup_fmap, Hi).
  pose proof (fun i hs Hi => batch_linked B handed woken q i hs Hs (Hlook i hs Hi)) as Hbl. clear Hlook.
  assert (Hz : Forall (fun x => length x = MaxHeaderFetch) hss).
  { apply Forall_lookup. intros i hs Hi. by destruct (Hbl i hs Hi) as (_ & ? & _). }
  assert (Hlen : length hss = length skel) by (by rewrite <- (sk_length _ _ _ _ Hs), EB, length_fmap).
  exists (mjoin hss). eexists. unfold RetrieveHeaders. rewrite (sk_results _ _ _ _ Hs). change (mjoin (slots <$> B)) with (flat B).
  destruct (sk_proced _ _ _ _ Hs) as (p & -> & Hp & _ & ->). change (mjoin (slots <$> take p B)) with (flat (take p B)).
  assert (Etk : flat (take p B) = Some <$> mjoin (take p hss)) by (by rewrite EB, <- fmap_take, flat_all).
  assert (Elen : length (mjoin (take p hss)) = (p * MaxHeaderFetch)%nat).
  { rewrite (length_join_same (take p hss) MaxHeaderFetch) by (by apply Forall_take). rewrite length_take. rewrite EB, length_fmap in Hp. f_equal. lia. }
  rewrite Etk, length_fmap, Elen, EB, flat_all, (take_join hss _ Hz). split; [done|].
  split; [by rewrite (length_join_same _ _ Hz), Hlen|]. split; [done|].
  assert (Hat : forall i k h, (k < MaxHeaderFetch)%nat -> mjoin hss !! (i * MaxHeaderFetch + k)%nat = Some h ->
    exists hs, hs !! k = Some h /\ hss !! i = Some hs /\ linked (batch_at i) hs).
  { intros i k h Hk E. rewrite (join_lookup _ _ _ Hz Hk) in E. apply bind_Some in E as (hs & Hi & Hkk). exists hs. split; [done|]. split; [done|].
    by destruct (Hbl i hs Hi) as (? & _). }
  split; [|split; [|split; [|split; [|done]]]].
  - intros j h Hj. pose proof (Nat.div_mod j MaxHeaderFetch ltac:(lia)) as Ej. rewrite Nat.mul_comm in Ej. rewrite Ej in Hj.
    destruct (Hat _ _ _ (Nat.mod_upper_bound j MaxHeaderFetch ltac:(lia)) Hj) as (hs & Hk & _ & [Hn _]). rewrite (Hn _ _ Hk). unfold batch_at. f_equal.
    rewrite Ej at 3. lia.
  - intros i t Ht. rewrite (join_lookup _ _ _ Hz) by lia. destruct (lookup_lt_is_Some_2 hss i) as [hs Hi]; [rewrite Hlen; by eapply lookup_lt_Some|].
    rewrite Hi. cbn. destruct (Hbl i hs Hi) as (_ & _ & t' & Ht' & ?). rewrite Ht in Ht'. by injection Ht' as <-.
  - intros i k a b Hk Ha Hb. destruct (Hat i k a ltac:(lia) Ha) as (hs & Hka & Hi & [_ Hl]). destruct (Hat _ _ _ Hk Hb) as (hs' & Hkb & Hi' & _).
    rewrite Hi in Hi'. injection Hi' as <-. by apply (Hl k).
  - cbn. destruct (sk_tasks _ _ _ _ Hs) as (tq & fs & _ & _ & Hperm). rewrite Em in Hperm. apply Permutation_nil_r, app_eq_nil in Hperm as [_ Hn].
    by apply fmap_nil_inv, map_to_list_empty_iff in Hn.
Qed.

(** Filling a skeleton never fails.  In every run of a skeleton a reservation, an expiry and a delivery
    of anything a peer may send return; no task is lost, that is each batch that is missing is queued or
    requested, so a reservation by a peer that was never refused a batch gives one when any is queued. *)
Theorem skeleton_returns handed woken q : sk_run handed woken q ->
  (forall now p id, exists r q', ReserveHeaders now p id q = Ret (r, q') /\
     (headerPendPool q !! id = None -> headerPeerMiss q !! id = None -> (exists n, PendingHeaders q = Ret n /\ 0 < n) -> is_Some r)) /\
  (forall timeout now, exists E q', ExpireHeaders timeout now q = Ret (E, q')) /\
  (forall id hs idle, Forall counted hs -> exists n e o q', q_DeliverHeaders id hs idle q = Ret (n, e, o, q')) /\
  (PendingHeaders q = Ret 0 -> InFlightHeaders q = false -> skel <> [] -> woken ++ cc_items (headerContCh q) = [false]).
Proof.
  intros [B Hs]%sk_run_ok. split; [|split; [|split]].
  - intros now p id. destruct (ReserveHeaders_ok now p id B handed woken q Hs) as (r & q' & E & _). exists r, q'. split; [done|].
    apply (reserve_gives B handed woken q Hs now p id r q' E).
  - intros timeout now. destruct (ExpireHeaders_ok timeout now B handed woken q Hs) as (E & q' & ? & _). eauto.
  - intros id hs idle Hc. destruct (DeliverHeaders_ok id hs idle B handed woken q Hs Hc) as (n & e & o & q' & B' & ? & _). eauto 6.
  - apply (drained_signals B handed woken q Hs).
Qed.


End fill.

End skeleton.
