(* ===== verification/Downloader.v ===== *)
(** * The downloader (mc/downloader/downloader.go)

    A synchronization with a peer: the search for the common ancestor, the loop that
    fetches headers, bodies or receipts from all peers, the processor of headers and
    the processors of results.  Each of them is a goroutine of the source; here it is
    a state with a step function, one step per turn of its loop, so that the steps of
    the goroutines interleave.  A receive from an empty channel, a send to a full one
    and a wait that is not over do not return ([gfuel]).  What comes from outside is
    an argument: the packets of the peers, the clock, the throughputs of the peers,
    random numbers and the outcome of the state synchronization (statesync.go).  The
    chain is an interface, as in the source ([SyncChain]); a full node passes no light
    chain, so both are the same object. *)
From S2P Require Import Prelude GoMonad Clique TxList ChainDb HeaderChain BlockChain Prque DlPeer DlQueue.
Local Open Scope Z_scope.

(** The package variables that bound a synchronization. *)
Class SyncVars := {
  MaxForkAncestry : Z;
  MaxSkeletonSize : Z;
  maxQueuedHeaders : Z;
  maxHeadersProcess : nat;
  maxResultsProcess : nat;
  fsHeaderCheckFrequency : Z;
  fsHeaderSafetyNet : nat;
  fsPivotInterval : Z;
  fsMinFullBlocks : Z;
  fsCriticalTrials : Z
}.

(** [BlockChain] and [LightChain].  An import returns the index of the block that
    failed with its error. *)
Class SyncChain {KL : KvLib} {CL : CliqueLib} {TL : TxLib} {BL : ChainLib} (C : Type) := {
  sc_HasHeader : Hash -> Z -> go C bool;
  sc_HasBlockAndState : Hash -> go C bool;
  sc_GetHeaderByHash : Hash -> go C (option Header);
  sc_GetTdByHash : Hash -> go C (option Z);
  sc_CurrentHeader : go C Header;
  sc_CurrentBlock : go C Block;
  sc_CurrentFastBlock : go C Block;
  sc_InsertHeaderChain : list Header -> Z -> go C (option (Z * ChainError));
  sc_Rollback : list Hash -> go C unit;
  sc_FastSyncCommitHead : Hash -> go C (option ChainError);
  sc_InsertChain : list Block -> bool -> go C (option (Z * ChainError));
  sc_InsertReceiptChain : list Block -> list (list ChainReceipt) -> go C (option (Z * ChainError))
}.

(** A goroutine runs, or has returned. *)
Notation task A := (A + option DlError)%type.

Section downloader.
Context {KL : KvLib} {CL : CliqueLib} {TL : TxLib} {BL : ChainLib} {PL : PrqueLib Task} {DL : DlLib} {DV : DlVars}.
Context {SV : SyncVars} {C : Type} {SC : SyncChain C}.
Context {MO : MapOrder string fetchRequest} {MH : MapOrder Hash unit} {MZ : MapOrder string Z}.

(** ** State

    The channels to the other goroutines are the lists of what is in them, [cancelCh]
    is whether the channel is closed, if there is one.  [pm_peers] are the peers of the
    protocol manager, whose [removePeer] is the callback [dropPeer]. *)
Record Downloader := mkDownloader {
  d_mode : SyncMode;
  d_dl : Dl;
  d_chain : C;
  fsPivotLock : option Header;
  fsPivotFails : Z;
  syncStatsChainOrigin : Z;
  syncStatsChainHeight : Z;
  synchronising : Z;
  bodyWakeCh : list bool;
  receiptWakeCh : list bool;
  headerProcCh : list (list (option Header));
  cancelPeer : string;
  cancelCh : option bool;
  quitCh : bool;
  pm_peers : gset string
}.

Definition d_queue (d : Downloader) : queue := dl_queue (d_dl d).
Definition d_peers (d : Downloader) : peerSet := dl_peers (d_dl d).

Definition set_mode (m : SyncMode) (d : Downloader) : Downloader :=
  mkDownloader m (d_dl d) (d_chain d) (fsPivotLock d) (fsPivotFails d) (syncStatsChainOrigin d) (syncStatsChainHeight d) (synchronising d)
    (bodyWakeCh d) (receiptWakeCh d) (headerProcCh d) (cancelPeer d) (cancelCh d) (quitCh d) (pm_peers d).
Definition set_dl (x : Dl) (d : Downloader) : Downloader :=
  mkDownloader (d_mode d) x (d_chain d) (fsPivotLock d) (fsPivotFails d) (syncStatsChainOrigin d) (syncStatsChainHeight d) (synchronising d)
    (bodyWakeCh d) (receiptWakeCh d) (headerProcCh d) (cancelPeer d) (cancelCh d) (quitCh d) (pm_peers d).
Definition set_chain (c : C) (d : Downloader) : Downloader :=
  mkDownloader (d_mode d) (d_dl d) c (fsPivotLock d) (fsPivotFails d) (syncStatsChainOrigin d) (syncStatsChainHeight d) (synchronising d)
    (bodyWakeCh d) (receiptWakeCh d) (headerProcCh d) (cancelPeer d) (cancelCh d) (quitCh d) (pm_peers d).
Definition set_pivot (l : option Header) (fails : Z) (d : Downloader) : Downloader :=
  mkDownloader (d_mode d) (d_dl d) (d_chain d) l fails (syncStatsChainOrigin d) (syncStatsChainHeight d) (synchronising d)
    (bodyWakeCh d) (receiptWakeCh d) (headerProcCh d) (cancelPeer d) (cancelCh d) (quitCh d) (pm_peers d).
Definition set_stats (origin height : Z) (d : Downloader) : Downloader :=
  mkDownloader (d_mode d) (d_dl d) (d_chain d) (fsPivotLock d) (fsPivotFails d) origin height (synchronising d)
    (bodyWakeCh d) (receiptWakeCh d) (headerProcCh d) (cancelPeer d) (cancelCh d) (quitCh d) (pm_peers d).
Definition set_synchronising (s : Z) (d : Downloader) : Downloader :=
  mkDownloader (d_mode d) (d_dl d) (d_chain d) (fsPivotLock d) (fsPivotFails d) (syncStatsChainOrigin d) (syncStatsChainHeight d) s
    (bodyWakeCh d) (receiptWakeCh d) (headerProcCh d) (cancelPeer d) (cancelCh d) (quitCh d) (pm_peers d).
Definition set_wakes (b r : list bool) (d : Downloader) : Downloader :=
  mkDownloader (d_mode d) (d_dl d) (d_chain d) (fsPivotLock d) (fsPivotFails d) (syncStatsChainOrigin d) (syncStatsChainHeight d) (synchronising d)
    b r (headerProcCh d) (cancelPeer d) (cancelCh d) (quitCh d) (pm_peers d).
Definition set_procCh (l : list (list (option Header))) (d : Downloader) : Downloader :=
  mkDownloader (d_mode d) (d_dl d) (d_chain d) (fsPivotLock d) (fsPivotFails d) (syncStatsChainOrigin d) (syncStatsChainHeight d) (synchronising d)
    (bodyWakeCh d) (receiptWakeCh d) l (cancelPeer d) (cancelCh d) (quitCh d) (pm_peers d).
Definition set_cancel (p : string) (c : option bool) (d : Downloader) : Downloader :=
  mkDownloader (d_mode d) (d_dl d) (d_chain d) (fsPivotLock d) (fsPivotFails d) (syncStatsChainOrigin d) (syncStatsChainHeight d) (synchronising d)
    (bodyWakeCh d) (receiptWakeCh d) (headerProcCh d) p c (quitCh d) (pm_peers d).
Definition set_quit (b : bool) (d : Downloader) : Downloader :=
  mkDownloader (d_mode d) (d_dl d) (d_chain d) (fsPivotLock d) (fsPivotFails d) (syncStatsChainOrigin d) (syncStatsChainHeight d) (synchronising d)
    (bodyWakeCh d) (receiptWakeCh d) (headerProcCh d) (cancelPeer d) (cancelCh d) b (pm_peers d).
Definition set_pm_peers (s : gset string) (d : Downloader) : Downloader :=
  mkDownloader (d_mode d) (d_dl d) (d_chain d) (fsPivotLock d) (fsPivotFails d) (syncStatsChainOrigin d) (syncStatsChainHeight d) (synchronising d)
    (bodyWakeCh d) (receiptWakeCh d) (headerProcCh d) (cancelPeer d) (cancelCh d) (quitCh d) s.

Definition on_dl {A : Type} (m : go Dl A) : go Downloader A :=
  fun d => match m (d_dl d) with Ret (a, x) => Ret (a, set_dl x d) | Panic => Panic | OutOfFuel => OutOfFuel end.
Definition on_chain {A : Type} (m : go C A) : go Downloader A :=
  fun d => match m (d_chain d) with Ret (a, c) => Ret (a, set_chain c d) | Panic => Panic | OutOfFuel => OutOfFuel end.

(** A field of the queue is read, or the queue is changed. *)
Definition of_queue {A : Type} (f : queue -> A) : go Downloader A := fun d => Ret (f (d_queue d), d).
Definition in_queue {A : Type} (f : queue -> outcome (A * queue)) : go Downloader A := on_dl (on_queue f).

Definition New (mode : SyncMode) (chain : C) : Downloader :=
  mkDownloader mode (mkDl newQueue newPeerSet) chain None 0 0 0 0 [] [] [] "" None false ∅.

Definition cancelled (d : Downloader) : bool := match cancelCh d with Some b => b | None => false end.

Definition Cancel : go Downloader unit :=
  gmodify (fun d => match cancelCh d with Some _ => set_cancel (cancelPeer d) (Some true) d | None => d end).

Definition Terminate : go Downloader unit := _ ← gmodify (set_quit true); Cancel.

Definition RegisterPeer (id : string) (version : Z) : go Downloader (option PeerError) := on_dl (on_peers (Register id version)).

Definition UnregisterPeer (id : string) : go Downloader (option PeerError) :=
  e ← on_dl (on_peers (Unregister id));
  match e with
  | Some e => mret (Some e)
  | None =>
      _ ← in_queue (fun q => q' ← Revoke id q; Ret (tt, q'));
      d ← gget;
      _ ← (if decide (id = cancelPeer d) then Cancel else mret tt);
      mret None
  end.

(** [ProtocolManager.removePeer], the callback [dropPeer]. *)
Definition dropPeer (id : string) : go Downloader unit :=
  d ← gget;
  if decide (id ∈ pm_peers d) then
    _ ← UnregisterPeer id;
    gmodify (fun d => set_pm_peers (pm_peers d ∖ {[id]}) d)
  else mret tt.

(** The start of [ProtocolManager.runPeer] for a peer of the main network after the handshake;
    when the downloader refuses the peer, the deferred [removePeer] runs. *)
Definition runPeer (id : string) (version : Z) : go Downloader unit :=
  d ← gget;
  if decide (id ∈ pm_peers d) then mret tt
  else
    _ ← gmodify (fun d => set_pm_peers (pm_peers d ∪ {[id]}) d);
    e ← RegisterPeer id version;
    match e with Some _ => dropPeer id | None => mret tt end.

(** [Progress]: the block the synchronization is at. *)
Definition Progress : go Downloader (Z * Z * Z) :=
  d ← gget;
  current ← match d_mode d with
            | FullSync => b ← on_chain sc_CurrentBlock; glift (block_Number b)
            | FastSync => b ← on_chain sc_CurrentFastBlock; glift (block_Number b)
            | LightSync => h ← on_chain sc_CurrentHeader; glift (header_number h)
            end;
  mret (syncStatsChainOrigin d, current, syncStatsChainHeight d).

(** ** The common ancestor *)

(** What arrives while a request is waited for: a cancellation, headers of a peer, the
    timeout, or a delivery of something else. *)
Inductive Arrival :=
| ArCancel
| ArHeaders (id : string) (headers : list Header)
| ArTimeout
| ArOther.

(** The headers of a peer; those of other peers are discarded. *)
Fixpoint await_headers (id : string) (l : list Arrival) : outcome (list Header + DlError) :=
  match l with
  | [] => OutOfFuel
  | ArCancel :: _ => Ret (inr errCancel)
  | ArTimeout :: _ => Ret (inr errTimeout)
  | ArHeaders id' headers :: l' => if decide (id' = id) then Ret (inl headers) else await_headers id l'
  | ArOther :: l' => await_headers id l'
  end.

Definition request (p : Z) (m : PeerMessage) : go Downloader unit := on_dl (on_peers (gmodify (send_to p m))).

(** The identifier of the peer behind a pointer. *)
Definition peer_id (p : Z) : go Downloader string := c ← on_dl (on_peers (conn p)); mret (pc_id c).

(** [head] is what the peer reports as its head. *)
Definition fetchHeight (p : Z) (head : Hash) (arrivals : PeerMessage -> list Arrival) : go Downloader (Header + DlError) :=
  let m := RequestHeadersByHash head 1 0 false in
  _ ← request p m;
  id ← peer_id p;
  r ← glift (await_headers id (arrivals m));
  match r with
  | inr e => mret (inr e)
  | inl [header] => mret (inl header)
  | inl _ => mret (inr errBadPeer)
  end.

(** Whether the local chain has a header: with its state in a full synchronization. *)
Definition known (header : Header) : go Downloader bool :=
  d ← gget;
  match d_mode d with
  | FullSync => on_chain (sc_HasBlockAndState (Header_Hash header))
  | _ => n ← glift (header_number header); on_chain (sc_HasHeader (Header_Hash header) n)
  end.

(** The top of the local chain. *)
Definition local_top : go Downloader Z :=
  h ← on_chain sc_CurrentHeader;
  ceil ← glift (header_number h);
  d ← gget;
  match d_mode d with
  | FullSync => b ← on_chain sc_CurrentBlock; glift (block_Number b)
  | FastSync => b ← on_chain sc_CurrentFastBlock; glift (block_Number b)
  | LightSync => mret ceil
  end.

(** Whether the headers are those that were asked for, 16 apart from [from] on. *)
Fixpoint spaced (from : Z) (headers : list Header) : outcome bool :=
  match headers with
  | [] => Ret true
  | header :: rest =>
      n ← big_Int64 (Number header);
      if negb (n =? i64 from) then Ret false else spaced (from + 16) rest
  end.

(** The last header that is known, among the [i + 1] first ones; [headers] is reversed. *)
Fixpoint last_known (from ceil height limit i : Z) (headers : list Header) : go Downloader (option (Z * Hash) + DlError) :=
  match headers with
  | [] => mret (inl None)
  | header :: rest =>
      a ← glift (big_Int64 (Number header));
      n ← glift (header_number header);
      if (a <? from) || (ceil <? n) then last_known from ceil height limit (i - 1) rest
      else
        k ← known header;
        if k : bool then
          if (height <? n) && (i =? limit - 1) then mret (inr errStallingPeer) else mret (inl (Some (n, Header_Hash header)))
        else last_known from ceil height limit (i - 1) rest
  end.

(** The binary search; [k] counts the requests. *)
Fixpoint search (fuel : nat) (p : Z) (id : string) (arrivals : nat -> PeerMessage -> list Arrival) (k : nat) (start end_ : Z)
    : go Downloader (Z + DlError) :=
  if u64 (start + 1) <? end_ then
    match fuel with
    | O => gfuel
    | S f =>
        let check := u64 (start + end_) / 2 in
        let m := RequestHeadersByNumber check 1 0 false in
        _ ← request p m;
        r ← glift (await_headers id (arrivals k m));
        match r with
        | inr e => mret (inr e)
        | inl [header] =>
            b ← known header;
            if b : bool then
              o ← on_chain (sc_GetHeaderByHash (Header_Hash header));
              match o with
              | None => gpanic
              | Some h =>
                  n ← glift (header_number h);
                  if negb (n =? check) then mret (inr errBadPeer) else search f p id arrivals (S k) check end_
              end
            else search f p id arrivals (S k) start check
        | inl _ => mret (inr errBadPeer)
        end
    end
  else mret (inl start).

(** The blocks below [floor] are no ancestors. *)
Definition allowed (floor number : Z) : Z + DlError := if i64 number <=? floor then inr errInvalidAncestor else inl number.

(** The start, the number and the limit of the first request. *)
Definition head_request (ceil height : Z) : Z * Z * Z * Z :=
  let head := if height <? ceil then height else ceil in
  let from := Z.max 0 (i64 (i64 head - Z.of_nat MaxHeaderFetch)) in
  let limit := Z.quot (2 * Z.of_nat MaxHeaderFetch) 16 in
  let count := Z.min limit (1 + Z.quot (i64 (i64 ceil - from)) 16) in
  (head, from, limit, count).

Definition findAncestor (p : Z) (height : Z) (arrivals : nat -> PeerMessage -> list Arrival) : go Downloader (Z + DlError) :=
  ceil ← local_top;
  let floor := if MaxForkAncestry <=? ceil then i64 (ceil - MaxForkAncestry) else -1 in
  let '(head, from, limit, count) := head_request ceil height in
  let m := RequestHeadersByNumber (u64 from) count 15 false in
  _ ← request p m;
  id ← peer_id p;
  r ← glift (await_headers id (arrivals O m));
  match r with
  | inr e => mret (inr e)
  | inl [] => mret (inr errEmptyHeaderSet)
  | inl headers =>
      ok ← glift (spaced from headers);
      if negb ok then mret (inr errInvalidChain)
      else
        r ← last_known from ceil height limit (Z.of_nat (length headers) - 1) (reverse headers);
        match r with
        | inr e => mret (inr e)
        | inl o =>
            let found := match o with Some (n, hash) => if hash =? 0 then None else Some n | None => None end in
            match found with
            | Some number => mret (allowed floor number)
            | None =>
                r ← search 64 p id arrivals 1 (if 0 <? floor then floor else 0) head;
                match r with
                | inr e => mret (inr e)
                | inl start => mret (allowed floor start)
                end
            end
        end
  end.


(** ** Fetching parts

    The callbacks of [fetchParts], for headers and for the two kinds of content. *)
Inductive Fetched := FHeaders | FContent (k : Content).

Inductive Packet :=
| HeaderPack (headers : list Header)
| ContentPack (ps : Parts).

(** What a turn takes from outside: the timeout of requests, the times at which they
    are looked at and sent, the capacities of the peers and the order of their
    throughputs. *)
Record Env := mkEnv {
  ev_ttl : Z;
  ev_now : string -> Z;
  ev_time : Z;
  ev_capacity : Z -> Z;
  ev_slower : Z -> Z -> bool
}.

Definition kind_of (f : Fetched) : Kind :=
  match f with FHeaders => HeaderKind | FContent Bodies => BodyKind | FContent Receipts_ => ReceiptKind end.

(** Headers that can be handed on go to the processor at once if its channel, which
    has room for one batch, is empty. *)
Definition f_deliver (f : Fetched) (id : string) (packet : Packet) : go Downloader (Z * option DlError) :=
  match f, packet with
  | FHeaders, HeaderPack headers =>
      d ← gget;
      r ← in_queue (fun q => r ← q_DeliverHeaders id headers (bool_decide (headerProcCh d = [])) q; Ret (fst r, snd r));
      let '(accepted, err, process) := r in
      _ ← match process with Some hs => gmodify (fun d => set_procCh (headerProcCh d ++ [hs]) d) | None => mret tt end;
      mret (accepted, err)
  | FContent k, ContentPack ps => if decide (content_of ps = k) then on_dl (q_deliver id ps) else gpanic
  | _, _ => gpanic
  end.

Definition f_expire (f : Fetched) (e : Env) : go Downloader (gmap string Z) :=
  match f with
  | FHeaders => in_queue (ExpireHeaders (ev_ttl e) (ev_now e))
  | FContent k => in_queue (ExpireContent k (ev_ttl e) (ev_now e))
  end.

Definition f_pending (f : Fetched) : go Downloader Z :=
  match f with
  | FHeaders => d ← gget; glift (PendingHeaders (d_queue d))
  | FContent k => of_queue (PendingContent k)
  end.

Definition f_inFlight (f : Fetched) : go Downloader bool :=
  match f with FHeaders => of_queue InFlightHeaders | FContent k => of_queue (InFlightContent k) end.

Definition f_throttle (f : Fetched) : go Downloader bool :=
  match f with FHeaders => mret false | FContent k => of_queue (ShouldThrottle k) end.

Definition f_reserve (f : Fetched) (e : Env) (p : Z) : go Downloader (option fetchRequest * bool * option DlError) :=
  c ← on_dl (on_peers (conn p));
  match f with
  | FHeaders => r ← in_queue (ReserveHeaders (ev_time e) p (pc_id c)); mret (r, false, None)
  | FContent k =>
      in_queue (fun q => r ← reserveHeaders k (ev_time e) p (pc_id c) (Lacks c) (ev_capacity e p) q; let '(req, prog, err, q') := r in Ret ((req, prog, err), q'))
  end.

Definition f_fetch (f : Fetched) (p : Z) (r : fetchRequest) : go Downloader (option PeerError) :=
  on_dl (on_peers match f with
                  | FHeaders => FetchHeaders p (From r) (Z.of_nat MaxHeaderFetch)
                  | FContent Bodies => FetchBodies p (Header_Hash <$> fr_Headers r)
                  | FContent Receipts_ => FetchReceipts p (Header_Hash <$> fr_Headers r)
                  end).

Definition f_setIdle (f : Fetched) (p : Z) : go Downloader unit := on_dl (on_peers (setIdle (kind_of f) p)).

Definition f_idle (f : Fetched) (e : Env) (d : Downloader) : list Z * Z :=
  match f with
  | FHeaders => HeaderIdlePeers (ev_slower e) (d_peers d)
  | FContent Bodies => BodyIdlePeers (ev_slower e) (d_peers d)
  | FContent Receipts_ => ReceiptIdlePeers (ev_slower e) (d_peers d)
  end.

(** The peers whose requests expired are set idle or dropped. *)
Definition demote (f : Fetched) (pid : string) (fails : Z) : go Downloader unit :=
  d ← gget;
  match ps_Peer (d_peers d) pid with
  | None => mret tt
  | Some p => if 2 <? fails then f_setIdle f p else dropPeer pid
  end.

(** A round of requests: the idle peers that are left, whether all peers were idle,
    whether something was finished, and whether requests are running. *)
Record Round := mkRound { rd_idles : list Z; rd_all : bool; rd_progressed : bool; rd_running : bool }.

(** Where the loop is: at its [select], or before one of the calls that take a lock of
    the queue or of the peers.  Between two of them the other goroutines run. *)
Inductive FetchPhase :=
| AtSelect
| AtDeliver (p : Z) (id : string) (packet : Packet)
| AtSetIdle (p : Z)
| AtExpire
| AtDemote (expired : list (string * Z))
| AtPending
| AtLastInFlight
| AtInFlight
| AtIdle (running : bool)
| AtThrottle (r : Round)
| AtPendingFor (p : Z) (r : Round)
| AtReserve (p : Z) (r : Round)
| AtFetch (p : Z) (req : fetchRequest) (r : Round)
| AtEnd (throttled : bool) (r : Round).

(** What follows the call at which the loop is: the next one, or the end of the loop. *)
Definition fetch_go (f : Fetched) (finished : bool) (e : Env) (ph : FetchPhase) : go Downloader (FetchPhase + option DlError) :=
  match ph with
  | AtSelect => gfuel
  | AtDeliver p id packet =>
      r ← f_deliver f id packet;
      mret (if decide (snd r = Some errInvalidChain) then inr (Some errInvalidChain)
            else inl (if decide (snd r = Some errStaleDelivery) then AtSelect else AtSetIdle p))
  | AtSetIdle p => _ ← f_setIdle f p; mret (inl AtSelect)
  | AtExpire => expiries ← f_expire f e; mret (inl (AtDemote (range expiries)))
  | AtDemote [] => mret (inl AtPending)
  | AtDemote ((pid, fails) :: rest) => _ ← demote f pid fails; mret (inl (AtDemote rest))
  | AtPending => n ← f_pending f; mret (inl (if n =? 0 then AtLastInFlight else AtInFlight))
  | AtLastInFlight => running ← f_inFlight f; mret (if negb running && finished then inr None else inl AtSelect)
  | AtInFlight => running ← f_inFlight f; mret (inl (AtIdle running))
  | AtIdle running =>
      d ← gget;
      let '(idles, total) := f_idle f e d in
      mret (inl (AtThrottle (mkRound idles (Z.of_nat (length idles) =? total) false running)))
  | AtThrottle (mkRound [] all progressed running as r) => mret (inl (AtEnd false r))
  | AtThrottle (mkRound (p :: rest) all progressed running as r) =>
      throttled ← f_throttle f;
      mret (inl (if throttled : bool then AtEnd true r else AtPendingFor p (mkRound rest all progressed running)))
  | AtPendingFor p r => n ← f_pending f; mret (inl (if n =? 0 then AtEnd false r else AtReserve p r))
  | AtReserve p r =>
      x ← f_reserve f e p;
      let '(req, progress, err) := x in
      let r' := mkRound (rd_idles r) (rd_all r) (rd_progressed r || progress) (rd_running r) in
      mret match err, req with
           | Some err, _ => inr (Some err)
           | None, None => inl (AtThrottle r')
           | None, Some req => inl (AtFetch p req r')
           end
  | AtFetch p req r =>
      o ← f_fetch f p req;
      match o with
      | Some _ => gpanic
      | None => mret (inl (AtThrottle (mkRound (rd_idles r) (rd_all r) (rd_progressed r) true)))
      end
  | AtEnd throttled r =>
      n ← f_pending f;
      mret (if negb (rd_progressed r) && negb throttled && negb (rd_running r) && rd_all r && (0 <? n)
            then inr (Some errPeersUnavailable) else inl AtSelect)
  end.

(** The loop: what it fetches, whether the end was signalled, whether an update is due,
    and where it is. *)
Record Fetcher := mkFetcher { f_what : Fetched; f_finished : bool; f_update : bool; f_phase : FetchPhase }.

Definition newFetcher (f : Fetched) : Fetcher := mkFetcher f false false AtSelect.

(** The cases of the [select], and a call of a turn that has begun. *)
Inductive FetchEvent :=
| FCancel
| FPacket (id : string) (packet : Packet)
| FWake
| FTick
| FUpdate
| FGo (e : Env).

(** The channel that wakes a loop: what is in it, and the rest after a receive. *)
Definition wake_of (f : Fetched) (d : Downloader) : list bool :=
  match f with
  | FHeaders => cc_items (headerContCh (d_queue d))
  | FContent Bodies => bodyWakeCh d
  | FContent Receipts_ => receiptWakeCh d
  end.

Definition take_wake (f : Fetched) (d : Downloader) : Downloader :=
  match f with
  | FHeaders =>
      let q := d_queue d in
      set_dl (mkDl (set_filled (headerResults q) (headerProced q) (headerOffset q)
        (mkContCh (drop 1 (cc_items (headerContCh q))) (cc_cap (headerContCh q))) q) (d_peers d)) d
  | FContent Bodies => set_wakes (drop 1 (bodyWakeCh d)) (receiptWakeCh d) d
  | FContent Receipts_ => set_wakes (bodyWakeCh d) (drop 1 (receiptWakeCh d)) d
  end.

(** The cases of the [select] of [fetchParts]; after a packet an update is due, whatever
    becomes of it. *)
Definition fetch_select (ev : FetchEvent) (f : Fetcher) : go Downloader (Fetcher + option DlError) :=
  d ← gget;
  let at_ finished update ph := mret (inl (mkFetcher (f_what f) finished update ph)) in
  match ev with
  | FCancel => if cancelled d then mret (inr (Some errCancel)) else gfuel
  | FPacket id packet =>
      at_ (f_finished f) true match ps_Peer (d_peers d) id with None => AtSelect | Some p => AtDeliver p id packet end
  | FWake =>
      match wake_of (f_what f) d with
      | [] => gfuel
      | cont :: _ =>
          _ ← gmodify (take_wake (f_what f));
          at_ (f_finished f || negb cont) true AtSelect
      end
  | FTick => at_ (f_finished f) true AtSelect
  | FUpdate =>
      if f_update f then
        if ps_Len (d_peers d) =? 0 then mret (inr (Some errNoPeers)) else at_ (f_finished f) false AtExpire
      else gfuel
  | FGo _ => gfuel
  end.

(** One step of [fetchParts]: the loop goes on, or returns. *)
Definition fetch_step (ev : FetchEvent) (f : Fetcher) : go Downloader (Fetcher + option DlError) :=
  match f_phase f, ev with
  | AtSelect, _ => fetch_select ev f
  | ph, FGo e =>
      r ← fetch_go (f_what f) (f_finished f) e ph;
      mret match r with
           | inl ph' => inl (mkFetcher (f_what f) (f_finished f) (f_update f) ph')
           | inr err => inr err
           end
  | _, _ => gfuel
  end.

(** ** Sends to the other goroutines *)

Inductive Send :=
| SWake (k : Content) (b : bool)
| SProc (headers : list (option Header)).

(** The channels have room for one value. *)
Definition ready_to (s : Send) (d : Downloader) : bool :=
  match s with
  | SWake Bodies _ => bool_decide (bodyWakeCh d = [])
  | SWake Receipts_ _ => bool_decide (receiptWakeCh d = [])
  | SProc _ => bool_decide (headerProcCh d = [])
  end.

Definition put (s : Send) (d : Downloader) : Downloader :=
  match s with
  | SWake Bodies b => set_wakes (bodyWakeCh d ++ [b]) (receiptWakeCh d) d
  | SWake Receipts_ b => set_wakes (bodyWakeCh d) (receiptWakeCh d ++ [b]) d
  | SProc hs => set_procCh (headerProcCh d ++ [hs]) d
  end.

(** [ch <- v], and [select { case ch <- v: default: }]. *)
Definition send (s : Send) : go Downloader unit := d ← gget; if ready_to s d then gmodify (put s) else gfuel.
Definition offer (s : Send) : go Downloader unit := gmodify (fun d => if ready_to s d then put s d else d).

(** ** The header fetcher *)

(** What it waits for: headers of its peer, the end of the skeleton that is filled, room
    for headers or for the end in the channel of the processor, or, after a timeout,
    room for the signals that end the synchronization. *)
Inductive HeaderPhase :=
| HWait
| HFill (f : Fetcher)
| HSend (headers : list (option Header))
| HEnd
| HGiveUp (sends : list Send).

Record HeaderFetcher := mkHF { hf_peer : Z; hf_from : Z; hf_skeleton : bool; hf_phase : HeaderPhase }.

Inductive HeaderEvent :=
| HCancel
| HPacket (id : string) (headers : list Header)
| HTimeout
| HFetch (ev : FetchEvent)
| HGo.

Definition getHeaders (p from : Z) (skeleton : bool) : go Downloader unit :=
  request p (if skeleton then RequestHeadersByNumber (u64 (u64 (from + Z.of_nat MaxHeaderFetch) - 1)) MaxSkeletonSize (Z.of_nat MaxHeaderFetch - 1) false
             else RequestHeadersByNumber from (Z.of_nat MaxHeaderFetch) 0 false).

(** [fillHeaderSkeleton] after its loop: what is still to be sent. *)
Definition filled_rest : go Downloader (list (option Header) * Z) :=
  r ← in_queue (fun q => let '(filled, proced, q') := RetrieveHeaders q in Ret ((default [] filled, proced), q'));
  if Z.of_nat (length (fst r)) <? snd r then gpanic else mret (drop (Z.to_nat (snd r)) (fst r), snd r).

(** The start of [fetchHeaders]. *)
Definition hf_start (p from : Z) : go Downloader HeaderFetcher := _ ← getHeaders p from true; mret (mkHF p from true HWait).

Definition hf_step (ev : HeaderEvent) (h : HeaderFetcher) : go Downloader (HeaderFetcher + option DlError) :=
  let p := hf_peer h in
  let at_ ph := mkHF p (hf_from h) (hf_skeleton h) ph in
  d ← gget;
  match hf_phase h, ev with
  | HGiveUp (_ :: ss), HCancel => if cancelled d then mret (inl (at_ (HGiveUp ss))) else gfuel
  | (HWait | HSend (_ :: _) | HEnd), HCancel => if cancelled d then mret (inr (Some errCancel)) else gfuel
  | HWait, HPacket id headers =>
      pid ← peer_id p;
      if decide (id ≠ pid) then mret (inl h)
      else
        match headers with
        | [] =>
            if hf_skeleton h then _ ← getHeaders p (hf_from h) false; mret (inl (mkHF p (hf_from h) false HWait))
            else mret (inl (at_ HEnd))
        | _ =>
            if hf_skeleton h then
              _ ← in_queue (fun q => q' ← ScheduleSkeleton (hf_from h) headers q; Ret (tt, q'));
              mret (inl (at_ (HFill (newFetcher FHeaders))))
            else mret (inl (at_ (HSend (Some <$> headers))))
        end
  | HWait, HTimeout =>
      pid ← peer_id p;
      _ ← dropPeer pid;
      mret (inl (at_ (HGiveUp [SWake Bodies false; SWake Receipts_ false; SProc []])))
  | HFill f, HFetch fev =>
      r ← fetch_step fev f;
      match r with
      | inl f' => mret (inl (at_ (HFill f')))
      | inr err =>
          x ← filled_rest;
          match err with
          | Some _ => mret (inr (Some errInvalidChain))
          | None => mret (inl (mkHF p (u64 (hf_from h + snd x)) true (HSend (fst x))))
          end
      end
  | HSend headers, HGo =>
      _ ← match headers with [] => mret tt | _ => send (SProc headers) end;
      let from := u64 (hf_from h + Z.of_nat (length headers)) in
      _ ← getHeaders p from (hf_skeleton h);
      mret (inl (mkHF p from (hf_skeleton h) HWait))
  | HEnd, HGo => _ ← send (SProc []); mret (inr None)
  | HGiveUp (s :: ss), HGo => _ ← send s; mret (inl (at_ (HGiveUp ss)))
  | HGiveUp [], HGo => mret (inr (Some errBadPeer))
  | _, _ => gfuel
  end.

(** ** The header processor *)

(** It waits for a batch, has headers of one left to process, waits for room in the
    queue with a chunk, or signals the end. *)
Inductive ProcPhase :=
| PWait
| PChunks (headers : list (option Header))
| PRoom (chunk : list Header) (rest : list (option Header))
| PEnd (sends : list Send).

Record HeaderProc := mkHP {
  hp_origin : Z;
  hp_pivot : Z;
  hp_td : Z;
  hp_rollback : list Header;
  hp_got : bool;
  hp_phase : ProcPhase
}.

Inductive ProcEvent := PCancel | PGo.

Definition hp_at (ph : ProcPhase) (h : HeaderProc) : HeaderProc :=
  mkHP (hp_origin h) (hp_pivot h) (hp_td h) (hp_rollback h) (hp_got h) ph.

(** The start of [processHeaders]. *)
Definition hp_start (origin td : Z) : go Downloader HeaderProc :=
  pivot ← of_queue fastSyncPivot;
  mret (mkHP origin pivot td [] false PWait).

(** The deferred rollback: the heads are read for the log. *)
Definition read_heads : go Downloader unit :=
  d ← gget;
  match d_mode d with
  | LightSync => mret tt
  | _ => _ ← on_chain sc_CurrentFastBlock; _ ← on_chain sc_CurrentBlock; mret tt
  end.

(** The last header of the list that has the number of the pivot is locked in. *)
Fixpoint lock_pivot (pivot : Z) (headers : list Header) : go Downloader unit :=
  match headers with
  | [] => mret tt
  | header :: rest =>
      n ← glift (header_number header);
      _ ← (if n =? pivot then gmodify (fun d => set_pivot (Some header) (fsPivotFails d) d) else mret tt);
      lock_pivot pivot rest
  end.

Definition roll_back (h : HeaderProc) : go Downloader unit :=
  match last (hp_rollback h) with
  | None => mret tt
  | Some top =>
      _ ← on_chain sc_CurrentHeader;
      _ ← read_heads;
      _ ← on_chain (sc_Rollback (Header_Hash <$> hp_rollback h));
      _ ← read_heads;
      _ ← on_chain sc_CurrentHeader;
      n ← glift (header_number top);
      d ← gget;
      if (hp_pivot h <? n) && (fsPivotFails d =? 0) then lock_pivot (hp_pivot h) (hp_rollback h) else mret tt
  end.

Definition finish (h : HeaderProc) (e : DlError) : go Downloader (HeaderProc + option DlError) :=
  _ ← roll_back h; mret (inr (Some e)).

(** The headers that the chain does not have. *)
Fixpoint unknown_of (chunk : list Header) : go Downloader (list Header) :=
  match chunk with
  | [] => mret []
  | header :: rest =>
      n ← glift (header_number header);
      b ← on_chain (sc_HasHeader (Header_Hash header) n);
      l ← unknown_of rest;
      mret (if b : bool then l else header :: l)
  end.

(** A chunk goes into the header chain in a fast or light synchronization: the list to
    roll back, and whether it failed. *)
Definition import_chunk (h : HeaderProc) (chunk : list Header) : go Downloader (list Header * bool) :=
  unknown ← unknown_of chunk;
  match last chunk with
  | None => gpanic
  | Some top =>
      n ← glift (header_number top);
      let frequency := if hp_pivot h <? u64 (n + Z.of_nat fsHeaderForceVerify) then 1 else fsHeaderCheckFrequency in
      r ← on_chain (sc_InsertHeaderChain chunk frequency);
      match r with
      | Some (i, _) =>
          let rollback := if 0 <? i then hp_rollback h ++ take (Z.to_nat i) chunk else hp_rollback h in
          if (i <? 0) || (Z.of_nat (length chunk) <=? i) then gpanic else mret (rollback, true)
      | None =>
          let rollback := hp_rollback h ++ unknown in
          mret (drop (length rollback - fsHeaderSafetyNet) rollback, false)
      end
  end.

(** Whether the pivot of a chunk is the one that is locked in, if one is. *)
Definition pivot_matches (h : HeaderProc) (chunk : list Header) : go Downloader bool :=
  d ← gget;
  match d_mode d, fsPivotLock d, chunk, last chunk with
  | FastSync, Some lock, first :: _, Some top =>
      n ← glift (header_number first);
      if n <=? hp_pivot h then
        m ← glift (header_number top);
        if hp_pivot h <=? m then
          match chunk !! Z.to_nat (hp_pivot h - n) with
          | None => gpanic
          | Some pivot => mret (Header_Hash pivot =? Header_Hash lock)
          end
        else mret true
      else mret true
  | _, _, _, _ => mret true
  end.

(** The headers of a chunk, all of which are looked at. *)
Definition all_headers (l : list (option Header)) : outcome (list Header) := match mapM id l with Some hs => Ret hs | None => Panic end.

Definition process_chunk (h : HeaderProc) (headers : list (option Header)) : go Downloader (HeaderProc + option DlError) :=
  let limit := Nat.min maxHeadersProcess (length headers) in
  chunk ← glift (all_headers (take limit headers));
  let rest := drop limit headers in
  d ← gget;
  r ← (if decide (d_mode d = FullSync) then mret (hp_rollback h, false) else import_chunk h chunk);
  let h1 := mkHP (hp_origin h) (hp_pivot h) (hp_td h) (fst r) (hp_got h) (hp_phase h) in
  if snd r : bool then finish h1 errInvalidChain
  else
    ok ← pivot_matches h1 chunk;
    if negb ok then finish h1 errInvalidChain
    else if decide (d_mode d = LightSync)
      then mret (inl (mkHP (u64 (hp_origin h + Z.of_nat limit)) (hp_pivot h) (hp_td h) (fst r) (hp_got h) (PChunks rest)))
      else mret (inl (hp_at (PRoom chunk rest) h1)).

Definition schedule_chunk (h : HeaderProc) (chunk : list Header) (rest : list (option Header)) : go Downloader (HeaderProc + option DlError) :=
  blocks ← of_queue (PendingContent Bodies);
  receipts ← of_queue (PendingContent Receipts_);
  if (maxQueuedHeaders <=? blocks) || (maxQueuedHeaders <=? receipts) then gfuel
  else
    inserts ← in_queue (Schedule chunk (hp_origin h));
    if negb (Nat.eqb (length inserts) (length chunk)) then finish h errBadPeer
    else mret (inl (mkHP (u64 (hp_origin h + Z.of_nat (length chunk))) (hp_pivot h) (hp_td h) (hp_rollback h) (hp_got h) (PChunks rest))).

(** Whether the total difficulty of the local head is below the promised one. *)
Definition short_of (td : Z) (hash : Hash) : go Downloader bool :=
  o ← on_chain (sc_GetTdByHash hash);
  match o with None => gpanic | Some local => mret (local <? td) end.

(** The checks when no more headers come. *)
Definition stalled (h : HeaderProc) : go Downloader bool :=
  d ← gget;
  a ← (if decide (d_mode d = LightSync) then mret false
       else if hp_got h then mret false
       else b ← on_chain sc_CurrentBlock; short_of (hp_td h) (block_Hash b));
  if a : bool then mret true
  else if decide (d_mode d = FullSync) then mret false
  else x ← on_chain sc_CurrentHeader; short_of (hp_td h) (Header_Hash x).

Definition hp_step (ev : ProcEvent) (h : HeaderProc) : go Downloader (HeaderProc + option DlError) :=
  d ← gget;
  match hp_phase h, ev with
  | (PWait | PChunks (_ :: _) | PRoom _ _), PCancel => if cancelled d then finish h errCancel else gfuel
  | PEnd (_ :: ss), PCancel => if cancelled d then mret (inl (hp_at (PEnd ss) h)) else gfuel
  | PWait, PGo =>
      match headerProcCh d with
      | [] => gfuel
      | headers :: l =>
          _ ← gmodify (set_procCh l);
          match headers with
          | [] => mret (inl (hp_at (PEnd [SWake Bodies false; SWake Receipts_ false]) h))
          | _ => mret (inl (mkHP (hp_origin h) (hp_pivot h) (hp_td h) (hp_rollback h) true (PChunks headers)))
          end
      end
  | PChunks [], PGo =>
      _ ← offer (SWake Bodies true);
      _ ← offer (SWake Receipts_ true);
      mret (inl (hp_at PWait h))
  | PChunks headers, PGo => if cancelled d then finish h errCancel else process_chunk h headers
  | PRoom chunk rest, PGo => schedule_chunk h chunk rest
  | PEnd (s :: ss), PGo => _ ← send s; mret (inl (hp_at (PEnd ss) h))
  | PEnd [], PGo =>
      b ← stalled h;
      if b : bool then finish h errStallingPeer else mret (inr None)
  | _, _ => gfuel
  end.


(** ** The content processors *)

Definition to_block (r : fetchResult) : Block := mkBlock (fr_Header r) (fr_Transactions r) (Uncles r).

(** A failed import names a result of the batch. *)
Definition failed_at (results : list fetchResult) (index : Z) : go Downloader unit :=
  if (index <? 0) || (Z.of_nat (length results) <=? index) then gpanic else mret tt.

(** One turn of [importBlockResults]. *)
Definition import_batch (results : list fetchResult) : go Downloader (list fetchResult + DlError) :=
  d ← gget;
  if quitCh d then mret (inr errCancel)
  else
    let items := Nat.min (length results) maxResultsProcess in
    progress ← Progress;
    let liveFlag := snd progress <=? snd (fst progress) in
    r ← on_chain (sc_InsertChain (to_block <$> take items results) liveFlag);
    match r with
    | Some (index, _) => _ ← failed_at results index; mret (inr errInvalidChain)
    | None => mret (inl (drop items results))
    end.

Fixpoint importBlockResults (fuel : nat) (results : list fetchResult) : go Downloader (option DlError) :=
  match results with
  | [] => mret None
  | _ =>
      match fuel with
      | O => gfuel
      | S f =>
          r ← import_batch results;
          match r with inl rest => importBlockResults f rest | inr e => mret (Some e) end
      end
  end.

Fixpoint splitAroundPivot (pivot : Z) (results : list fetchResult) : outcome (option fetchResult * list fetchResult * list fetchResult) :=
  match results with
  | [] => Ret (None, [], [])
  | result :: rest =>
      num ← header_number (fr_Header result);
      r ← splitAroundPivot pivot rest;
      let '(p, before, after) := r in
      Ret (if num <? pivot then (p, result :: before, after)
           else if num =? pivot then (match p with None => Some result | _ => p end, before, after)
           else (p, before, result :: after))
  end.

(** A batch of blocks is stored with its receipts. *)
Definition commit_items (results : list fetchResult) : go Downloader (list fetchResult + DlError) :=
  let items := Nat.min (length results) maxResultsProcess in
  let batch := take items results in
  r ← on_chain (sc_InsertReceiptChain (to_block <$> batch) (Receipts <$> batch));
  match r with
  | Some (index, _) => _ ← failed_at results index; mret (inr errInvalidChain)
  | None => mret (inl (drop items results))
  end.

(** One turn of [commitFastSyncData]; [state] is the result of the state
    synchronization if it has ended and is looked at. *)
Definition commit_batch (state : option (option DlError)) (results : list fetchResult) : go Downloader (list fetchResult + DlError) :=
  d ← gget;
  match state, quitCh d with
  | Some (Some e), _ => mret (inr e)
  | None, true => mret (inr errCancel)
  | _, _ => commit_items results
  end.

(** [state] is the error of the synchronization of the state of the pivot. *)
Definition commitPivotBlock (state : option DlError) (result : fetchResult) : go Downloader (option DlError) :=
  match state with
  | Some e => mret (Some e)
  | None =>
      let b := to_block result in
      r ← on_chain (sc_InsertReceiptChain [b] [Receipts result]);
      match r with
      | Some _ => mret (Some errChain)
      | None => e ← on_chain (sc_FastSyncCommitHead (block_Hash b)); mret (match e with Some _ => Some errChain | None => None end)
      end
  end.

(** It waits for results, imports blocks, or commits the blocks around the pivot. *)
Inductive ContentPhase :=
| CWait
| CImport (results : list fetchResult)
| CFast (before : list fetchResult) (pivot : option fetchResult) (after : list fetchResult).

(** [state] is the result of the state synchronization that is asked for. *)
Definition content_step (state : option (option DlError)) (ph : ContentPhase) : go Downloader (ContentPhase + option DlError) :=
  d ← gget;
  match ph with
  | CWait =>
      o ← glift (WaitResults (d_queue d));
      match o with
      | None => gfuel
      | Some (results, q) =>
          _ ← in_queue (fun _ => Ret (tt, q));
          match results, d_mode d with
          | [], FastSync => mret (inr (mjoin state))
          | [], _ => mret (inr None)
          | _, FastSync =>
              r ← glift (splitAroundPivot (fastSyncPivot q) results);
              let '(p, before, after) := r in mret (inl (CFast before p after))
          | _, _ => mret (inl (CImport results))
          end
      end
  | CImport [] => mret (inl CWait)
  | CImport results =>
      r ← import_batch results;
      match r with inl rest => mret (inl (CImport rest)) | inr e => mret (inr (Some e)) end
  | CFast [] None after => mret (inl (CImport after))
  | CFast [] (Some p) after =>
      r ← commitPivotBlock (mjoin state) p;
      match r with Some e => mret (inr (Some e)) | None => mret (inl (CImport after)) end
  | CFast before p after =>
      r ← commit_batch state before;
      match r with inl rest => mret (inl (CFast rest p after)) | inr e => mret (inr (Some e)) end
  end.

(** ** A synchronization *)

(** [s_left] are the goroutines whose results [spawnSync] waits for, [s_result] the
    result it has. *)
Inductive Job := JHeaders | JBodies | JReceipts | JProc | JContent.

#[export] Instance Job_eq_dec : EqDecision Job.
Proof. solve_decision. Defined.

Record Sync := mkSync {
  s_d : Downloader;
  s_hf : task HeaderFetcher;
  s_bf : task Fetcher;
  s_rf : task Fetcher;
  s_hp : task HeaderProc;
  s_cp : task ContentPhase;
  s_left : list Job;
  s_result : option (option DlError)
}.

Inductive SyncEvent :=
| EvHeaders (ev : HeaderEvent)
| EvBodies (ev : FetchEvent)
| EvReceipts (ev : FetchEvent)
| EvProc (ev : ProcEvent)
| EvContent (state : option (option DlError))
| EvCollect (j : Job)
| EvCancel
| EvRegister (id : string) (version : Z)
| EvDrop (id : string)
| EvStateFailed.

(** A turn of a goroutine that runs. *)
Definition turn {A : Type} (step : A -> go Downloader (task A)) (t : task A) : go Downloader (task A) :=
  match t with inl a => step a | inr _ => gfuel end.

Definition job_result (j : Job) (s : Sync) : option (option DlError) :=
  match j with
  | JHeaders => match s_hf s with inr e => Some e | inl _ => None end
  | JBodies => match s_bf s with inr e => Some e | inl _ => None end
  | JReceipts => match s_rf s with inr e => Some e | inl _ => None end
  | JProc => match s_hp s with inr e => Some e | inl _ => None end
  | JContent => match s_cp s with inr e => Some e | inl _ => None end
  end.

Definition close_queue : go Downloader unit := in_queue (fun q => Ret (tt, Close q)).

(** What [spawnSync] does after a result, with the goroutines it still waits for: it
    closes the queue before the last one, and cancels when it is over. *)
Definition after_result (over : bool) (left_ : list Job) : go Downloader unit :=
  if over then _ ← close_queue; Cancel
  else match left_ with [_] => close_queue | _ => mret tt end.

(** [spawnSync] receives a result: it stops at the first error. *)
Definition collect (j : Job) (s : Sync) : outcome Sync :=
  match job_result j s, s_result s with
  | Some e, None =>
      if decide (j ∈ s_left s) then
        let left_ := filter (fun x => x <> j) (s_left s) in
        let over := match e, left_ with None, _ :: _ => false | _, _ => true end in
        r ← after_result over left_ (s_d s);
        Ret (mkSync (snd r) (s_hf s) (s_bf s) (s_rf s) (s_hp s) (s_cp s) left_ (if over then Some e else None))
      else OutOfFuel
  | _, _ => OutOfFuel
  end.

Definition sync_step (ev : SyncEvent) (s : Sync) : outcome Sync :=
  let d := s_d s in
  match ev with
  | EvHeaders ev => r ← turn (hf_step ev) (s_hf s) d; Ret (mkSync (snd r) (fst r) (s_bf s) (s_rf s) (s_hp s) (s_cp s) (s_left s) (s_result s))
  | EvBodies ev => r ← turn (fetch_step ev) (s_bf s) d; Ret (mkSync (snd r) (s_hf s) (fst r) (s_rf s) (s_hp s) (s_cp s) (s_left s) (s_result s))
  | EvReceipts ev => r ← turn (fetch_step ev) (s_rf s) d; Ret (mkSync (snd r) (s_hf s) (s_bf s) (fst r) (s_hp s) (s_cp s) (s_left s) (s_result s))
  | EvProc ev => r ← turn (hp_step ev) (s_hp s) d; Ret (mkSync (snd r) (s_hf s) (s_bf s) (s_rf s) (fst r) (s_cp s) (s_left s) (s_result s))
  | EvContent st => r ← turn (content_step st) (s_cp s) d; Ret (mkSync (snd r) (s_hf s) (s_bf s) (s_rf s) (s_hp s) (fst r) (s_left s) (s_result s))
  | EvCollect j => collect j s
  | EvCancel => r ← Cancel d; Ret (mkSync (snd r) (s_hf s) (s_bf s) (s_rf s) (s_hp s) (s_cp s) (s_left s) (s_result s))
  | EvRegister id version => r ← runPeer id version d; Ret (mkSync (snd r) (s_hf s) (s_bf s) (s_rf s) (s_hp s) (s_cp s) (s_left s) (s_result s))
  | EvDrop id => r ← dropPeer id d; Ret (mkSync (snd r) (s_hf s) (s_bf s) (s_rf s) (s_hp s) (s_cp s) (s_left s) (s_result s))
  | EvStateFailed =>
      if decide (d_mode d = FastSync)
      then r ← close_queue d; Ret (mkSync (snd r) (s_hf s) (s_bf s) (s_rf s) (s_hp s) (s_cp s) (s_left s) (s_result s))
      else OutOfFuel
  end.

Fixpoint sync_steps (evs : list SyncEvent) (s : Sync) : outcome Sync :=
  match evs with
  | [] => Ret s
  | ev :: evs' => s' ← sync_step ev s; sync_steps evs' s'
  end.

(** The pivot of a synchronization and its origin; [random] is the offset. *)
Definition choose_pivot (mode : SyncMode) (lock : option Header) (height origin random : Z) : outcome (Z * Z) :=
  match mode with
  | FullSync => Ret (0, origin)
  | LightSync => Ret (height, origin)
  | FastSync =>
      pivot ← match lock with
              | None => Ret (if u64 (fsMinFullBlocks + random) <? height then u64 (u64 (height - fsMinFullBlocks) - random) else 0)
              | Some header => header_number header
              end;
      Ret (pivot, if pivot <? origin then (if 0 <? pivot then pivot - 1 else 0) else origin)
  end.

(** [syncWithPeer] up to [spawnSync]: the goroutines that are started. *)
Definition syncWithPeer (p : Z) (head : Hash) (td random : Z) (heights : PeerMessage -> list Arrival) (arrivals : nat -> PeerMessage -> list Arrival)
    : go Downloader (Sync + DlError) :=
  c ← on_dl (on_peers (conn p));
  if pc_version c <? 62 then mret (inr errTooOld)
  else
    latest ← fetchHeight p head heights;
    match latest with
    | inr e => mret (inr e)
    | inl latest =>
        height ← glift (header_number latest);
        origin ← findAncestor p height arrivals;
        match origin with
        | inr e => mret (inr e)
        | inl origin =>
            _ ← gmodify (fun d => set_stats (if (syncStatsChainHeight d <=? origin) || (origin <? syncStatsChainOrigin d) then origin
                                             else syncStatsChainOrigin d) height d);
            d ← gget;
            po ← glift (choose_pivot (d_mode d) (fsPivotLock d) height origin random);
            let first := u64 (snd po + 1) in
            _ ← in_queue (fun q => Ret (tt, Prepare first (d_mode d) (fst po) q));
            hf ← hf_start p first;
            hp ← hp_start first td;
            d ← gget;
            let content := if decide (d_mode d = LightSync) then [] else [JContent] in
            mret (inl (mkSync d (inl hf) (inl (newFetcher (FContent Bodies))) (inl (newFetcher (FContent Receipts_))) (inl hp)
              (if decide (d_mode d = LightSync) then inr None else inl CWait) ([JHeaders; JBodies; JReceipts; JProc] ++ content) None))
        end
    end.

(** [synchronise] up to [syncWithPeer]: the resets, and the peer. *)
Definition synchronise (id : string) (mode : SyncMode) : go Downloader (Z + DlError) :=
  d ← gget;
  if negb (synchronising d =? 0) then mret (inr errBusy)
  else
    _ ← gmodify (set_synchronising 1);
    _ ← gmodify (fun d => set_dl (mkDl (q_Reset (d_queue d)) (ps_Reset (d_peers d))) d);
    _ ← gmodify (fun d => set_procCh [] (set_wakes (drop 1 (bodyWakeCh d)) (drop 1 (receiptWakeCh d)) d));
    _ ← gmodify (set_cancel id (Some false));
    _ ← gmodify (fun d => set_mode (if decide (mode = FastSync) then if fsCriticalTrials <=? fsPivotFails d then FullSync else mode else mode) d);
    d ← gget;
    match ps_Peer (d_peers d) id with
    | None => _ ← Cancel; _ ← gmodify (set_synchronising 0); mret (inr errUnknownPeer)
    | Some p => mret (inl p)
    end.

(** What is left to do when [spawnSync] has returned [err]. *)
Definition synchronised (err : option DlError) : go Downloader (option DlError) :=
  _ ← gmodify (fun d => match err, d_mode d, fsPivotLock d with
                        | Some _, FastSync, Some _ => set_pivot (fsPivotLock d) ((fsPivotFails d + 1) mod 4294967296) d
                        | _, _, _ => d
                        end);
  _ ← Cancel;
  _ ← gmodify (set_synchronising 0);
  mret err.

(** The errors after which [Synchronise] drops the peer. *)
Definition peer_fault (e : DlError) : bool :=
  match e with
  | errTimeout | errBadPeer | errStallingPeer | errEmptyHeaderSet | errPeersUnavailable | errTooOld | errInvalidAncestor | errInvalidChain => true
  | _ => false
  end.

Definition drop_faulty (id : string) (err : option DlError) : go Downloader unit :=
  match err with Some e => if peer_fault e then dropPeer id else mret tt | None => mret tt end.


End downloader.
