(* ===== verification/DlSync.v ===== *)
(** * Synchronizations

    The runs of the goroutines of a full synchronization ([sync_run]), in any
    interleaving and with peers that deliver what they like.  Each turn of a
    goroutine is a sequence of operations of the download queue, so the queue of a
    run is one of [dq_run]; with what the channels carry this gives what a
    synchronization that ends without an error has done. *)
From S2P Require Import Prelude GoMonad Clique TxList ChainDb HeaderChain HeaderChainProps BlockChain Prque DlPeer DlQueue DlQueueProps DlQueueSteps DlQueueReach DlSkeleton Downloader.
Local Open Scope Z_scope.

Section sync.
Context {KL : KvLib} {CL : CliqueLib} {TL : TxLib} {BL : ChainLib} {PL : PrqueLib Task} {DL : DlLib} {DV : DlVars}.
Context {CLaws : HeaderLaws} {PLaws : PrqueLaws} {DLaws : DlLaws}.
Context {SV : SyncVars} {C : Type} {SC : SyncChain C}.
Context {MO : MapOrder string fetchRequest} {MH : MapOrder Hash unit} {MZ : MapOrder string Z}.

Local Notation D := (Downloader (C := C)).

(** ** Turns as operations of the queue *)

(** Nothing is queued and nothing is in flight. *)
Definition drained (k : Content) (q : queue) : Prop := PendingContent k q = 0 /\ pendPool (track k q) = ∅.

Definition drops (d : D) : list Z := peerDrops (d_peers d).

(** What the fetcher of [w] does to the downloader; tasks of another kind come back to
    the queue only when a peer is dropped. *)
Record qstep (w : Fetched) (d d' : D) : Prop := {
  qs_run first sched out : dq_run first sched out (d_dl d) -> dq_run first sched out (d_dl d');
  qs_drained k : w <> FContent k -> drained k (d_queue d) -> drained k (d_queue d');
  qs_mode : d_mode d' = d_mode d /\ mode (d_queue d') = mode (d_queue d);
  qs_closed : closed (d_queue d') = closed (d_queue d);
  qs_chain : d_chain d' = d_chain d;
  qs_wakes : bodyWakeCh d' = bodyWakeCh d /\ receiptWakeCh d' = receiptWakeCh d;
  qs_drops : drops d `prefix_of` drops d';
  qs_pending k : w <> FContent k -> drops d' = drops d -> PendingContent k (d_queue d) = 0 -> PendingContent k (d_queue d') = 0
}.

#[local] Instance qstep_refl w : Reflexive (qstep w).
Proof. by split. Qed.

#[local] Instance qstep_trans w : Transitive (qstep w).
Proof.
  intros d1 d2 d3 [A1 A2 [A3 A3'] A4 A5 [A6 A7] A8 A9] [B1 B2 [B3 B3'] B4 B5 [B6 B7] B8 B9]. split; try (split; congruence); try congruence; eauto; [by etrans|].
  intros k Hk E. assert (E2 : drops d2 = drops d1) by (apply (anti_symm prefix); [by rewrite <- E|done]). rewrite <- E2 in E. eauto.
Qed.

Definition moves {A : Type} (w : Fetched) (m : go D A) : Prop := forall d a d', m d = Ret (a, d') -> qstep w d d'.

Lemma moves_ret {A : Type} w (a : A) : moves w (mret a).
Proof. intros d x d' [= _ <-]. done. Qed.

Lemma moves_bind {A B : Type} w (m : go D A) (f : A -> go D B) : moves w m -> (forall a, moves w (f a)) -> moves w (m ≫= f).
Proof. intros Hm Hf d b d' (a & d1 & E1 & E2)%go_bind_Ret. etransitivity; [by eapply Hm|by eapply Hf]. Qed.

Lemma moves_gget w : moves w (gget (S := D)).
Proof. intros d x d' [= _ <-]. done. Qed.

Lemma moves_glift {A : Type} w (o : outcome A) : moves w (glift o).
Proof. intros d x d' E. unfold glift in E. destruct o; [|done..]. by injection E as _ <-. Qed.

Lemma moves_of_queue {A : Type} w (f : queue -> A) : moves w (of_queue f).
Proof. intros d x d' [= _ <-]. done. Qed.

Lemma moves_for_each {A : Type} w (f : unit -> A -> go D unit) l : (forall u x, moves w (f u x)) -> moves w (for_each f tt l).
Proof.
  intros Hf. induction l as [|x l IH]; [apply moves_ret|]. cbn [for_each]. apply moves_bind; [apply Hf|]. by intros [].
Qed.

(** A change of the peers that keeps the heap of connections. *)
Definition keeps_conns (ps ps' : peerSet) : Prop := peerDrops ps' = peerDrops ps /\ forall x, is_Some (conns ps !! x) -> is_Some (conns ps' !! x).

Lemma moves_peers {A : Type} w (m : go peerSet A) : (forall ps a ps', m ps = Ret (a, ps') -> keeps_conns ps ps') -> moves w (on_dl (on_peers m)).
Proof.
  intros Hm d a d' E. unfold on_dl, on_peers in E. destruct (m (dl_peers (d_dl d))) as [[a' ps']| |] eqn:Em; [|done..]. injection E as <- <-.
  destruct (Hm _ _ _ Em) as [Hd Hc]. split; try done; [|by exists []; rewrite app_nil_r]. intros first sched out Hr. by apply run_peers.
Qed.

(** An operation of the queue. *)
Lemma moves_queue {A : Type} w (f : queue -> outcome (A * queue)) :
  (forall (d : D) a q', f (d_queue d) = Ret (a, q') -> (forall first sched out, dq_run first sched out (d_dl d) -> dq_run first sched out (mkDl q' (d_peers d))) /\
     (forall k, w <> FContent k -> track k q' = track k (d_queue d)) /\ mode q' = mode (d_queue d) /\ closed q' = closed (d_queue d)) ->
  moves w (in_queue f).
Proof.
  intros Hf d a d' E. unfold in_queue, on_dl, on_queue in E. fold (d_queue d) in E. destruct (f (d_queue d)) as [[a' q']| |] eqn:Ef; [|done..].
  injection E as <- <-. destruct (Hf d a' q' Ef) as (H1 & H2 & H3 & H4). split; try done; unfold drained, PendingContent; cbn.
  - intros k Hk. by rewrite (H2 k Hk).
  - intros k Hk _. by rewrite (H2 k Hk).
Qed.

(** Operations on headers. *)
Definition header_op (q q' : queue) : Prop := same_content q q' /\ closed q' = closed q.

Lemma moves_header {A : Type} w (f : queue -> outcome (A * queue)) : (forall q a q', f q = Ret (a, q') -> header_op q q') -> moves w (in_queue f).
Proof.
  intros Hf. apply moves_queue. intros d a q' [Hs Hc]%Hf. split; [intros first sched out Hr; by apply run_headers|]. destruct Hs as (E1 & _ & _ & E4 & E5 & _).
  split; [|done]. intros k _. by destruct k.
Qed.

(** ** The operations *)

Lemma DeliverHeaders_op id hs idle q r : q_DeliverHeaders id hs idle q = Ret r -> header_op q (snd r).
Proof.
  unfold q_DeliverHeaders. destruct (headerPendPool q !! id) as [x|]; [|by intros [= <-]].
  destruct (headerTaskPool q !! From x) as [t|]; [|done]. destruct (headerTaskQueue q) as [tq|]; [|done].
  destruct (fills _ _ _) as [[|]| |]; cbn [mbind outcome_bind]; [|by intros [= <-]|done..].
  unfold accept_batch. destruct (copy_at _ _ _) as [res| |]; cbn [mbind outcome_bind]; [|done..].
  destruct (ready_from _ _ _) as [n| |]; cbn [mbind outcome_bind]; [|done..]. destruct (_ && Nat.ltb (length res) _); [done|].
  destruct (signal_end _ _) as [ch| |]; cbn [mbind outcome_bind]; [|done..]. by intros [= <-].
Qed.

Lemma ReserveHeaders_op now p id q r q' : ReserveHeaders now p id q = Ret (r, q') -> header_op q q'.
Proof.
  unfold ReserveHeaders. destruct (headerPendPool q !! id); [by intros [= _ <-]|]. destruct (headerTaskQueue q); [|done].
  destruct (pick_batch _ _ _ _) as [[[send skip] tq1]| |]; cbn [mbind outcome_bind]; [|done..]. destruct (send =? 0); by intros [= _ <-].
Qed.

Lemma ExpireHeaders_op ttl now q E q' : ExpireHeaders ttl now q = Ret (E, q') -> header_op q q'.
Proof.
  unfold ExpireHeaders. destruct (headerTaskQueue q); [|destruct (map_to_list _); [by intros [= _ <-]|done]].
  destruct (expire _ _ _ _) as [[[E0 pend] tq]| |]; cbn [mbind outcome_bind]; [|done..]. by intros [= _ <-].
Qed.

(** An operation on the tasks of [k]. *)
Lemma drained_other k k' t q : k <> k' -> drained k q -> drained k (set_track k' t q).
Proof. intros Hk [H1 H2]. unfold drained, PendingContent in *. by rewrite !track_other. Qed.

Lemma ExpireContent_op k ttl now q E q' : ExpireContent k ttl now q = Ret (E, q') -> exists t, q' = set_track k t q.
Proof. unfold ExpireContent. destruct (expire _ _ _ _) as [[[E0 pend] tq]| |]; cbn [mbind outcome_bind]; [|done..]. intros [= _ <-]. eauto. Qed.

Lemma Revoke_op id q q' : Revoke id q = Ret q' -> mode q' = mode q /\ closed q' = closed q /\ forall k, drained k q -> drained k q'.
Proof.
  assert (H1 : forall k q q', revoke_content k id q = Ret q' -> mode q' = mode q /\ closed q' = closed q /\ forall k', drained k' q -> drained k' q').
  { clear. intros k q q'. unfold revoke_content. destruct (pendPool (track k q) !! id) as [r|] eqn:Er; [|by intros [= <-]].
    destruct (push_headers _ _); cbn [mbind outcome_bind]; [|done..]. intros [= <-]. split; [done|]. split; [done|]. intros k' Hd.
    destruct (decide (k' = k)) as [->|]; [|by apply drained_other]. destruct Hd as [_ He]. by rewrite He in Er. }
  unfold Revoke. destruct (revoke_content Bodies id q) as [q1| |] eqn:E1; cbn [mbind outcome_bind]; [|done..]. intros E2.
  destruct (H1 _ _ _ E1) as (A1 & A2 & A3). destruct (H1 _ _ _ E2) as (B1 & B2 & B3). split; [congruence|]. split; [congruence|]. eauto.
Qed.

(** Reservations change the tasks of their kind and the cache. *)
Definition kind_op (k : Content) (q q' : queue) : Prop :=
  mode q' = mode q /\ closed q' = closed q /\ forall k', k' <> k -> track k' q' = track k' q.

Lemma kind_op_trans k q1 q2 q3 : kind_op k q1 q2 -> kind_op k q2 q3 -> kind_op k q1 q3.
Proof. intros (A1 & A2 & A3) (B1 & B2 & B3). split; [congruence|]. split; [congruence|]. intros k' Hk. by rewrite B3, A3. Qed.

Lemma kind_op_track k t q : kind_op k q (set_track k t q).
Proof. split; [done|]. split; [done|]. intros k' Hk. by apply track_other. Qed.

Lemma kind_op_cache k c q : kind_op k q (set_cache c q).
Proof. split; [done|]. split; [done|]. intros k' Hk. apply track_cache. Qed.

Lemma kind_op_drained k k' q q' : kind_op k q q' -> k' <> k -> drained k' q -> drained k' q'.
Proof. intros (_ & _ & Ht) Hk. unfold drained, PendingContent. by rewrite Ht. Qed.

Lemma reserve_one_op k lacks h s r : reserve_one k lacks h s = Ret r -> kind_op k (rv_queue s) (rv_queue match r with inl x | inr x => x end).
Proof.
  unfold reserve_one. destruct (cache_index _ _); cbn [mbind outcome_bind]; [|done..]. destruct (_ || _); [by intros [= <-]|].
  destruct (header_number h); cbn [mbind outcome_bind]; [|done..]. destruct (isNoop k h).
  - intros [= <-]. cbn. eapply kind_op_trans; [apply kind_op_cache|apply kind_op_track].
  - destruct (lacks _); intros [= <-]; apply kind_op_cache.
Qed.

Lemma reserve_loop_op k lacks count fuel : forall s r, reserve_loop fuel k lacks count s = Ret r -> kind_op k (rv_queue s) (rv_queue match r with inl x | inr x => x end).
Proof.
  induction fuel as [|fuel IH]; intros s r; cbn [reserve_loop]; destruct (_ && _ && _); try done; try by intros [= <-].
  destruct (prque_Pop _) as [[[f|h] tq']|]; [done| |done]. set (s1 := mkReserving _ _ _ _ _ _).
  destruct (reserve_one k lacks h s1) as [r1| |] eqn:E1; cbn [mbind outcome_bind]; [|done..]. apply reserve_one_op in E1.
  assert (E0 : kind_op k (rv_queue s) (rv_queue s1)) by apply kind_op_track. destruct r1 as [s2|s2].
  - intros E2%IH. eapply kind_op_trans; [exact E0|]. by eapply kind_op_trans.
  - intros [= <-]. by eapply kind_op_trans.
Qed.

Lemma reserveHeaders_op k now p id lacks count q req prog err q' : reserveHeaders k now p id lacks count q = Ret (req, prog, err, q') -> kind_op k q q'.
Proof.
  unfold reserveHeaders. destruct (prque_Empty _); [by intros [= _ _ _ <-]|]. destruct (pendPool _ !! id); [by intros [= _ _ _ <-]|].
  destruct (reserve_loop _ _ _ _ _) as [[s|s]| |] eqn:E; cbn [mbind outcome_bind]; [| |done..]; apply reserve_loop_op in E; cbn [rv_queue] in E.
  2: by intros [= _ _ _ <-].
  destruct (push_headers _ _) as [tq| |]; cbn [mbind outcome_bind]; [|done..]. destruct (rv_send s); intros [= _ _ _ <-].
  - eapply kind_op_trans; [exact E|apply kind_op_track].
  - eapply kind_op_trans; [exact E|]. eapply kind_op_trans; apply kind_op_track.
Qed.

Lemma assemble_op ps hs : forall i q r, assemble ps i hs q = Ret r -> kind_op (content_of ps) q (fst (fst (fst r))).
Proof.
  induction hs as [|h hs IH]; intros i q r; cbn [assemble]; [by intros [= <-]|]. destruct (Nat.leb _ _); [by intros [= <-]|].
  destruct (cache_index _ _) as [ix| |]; cbn [mbind outcome_bind]; [|done..]. destruct (if ix <? 0 then None else _) as [res|]; [|by intros [= <-]].
  destruct (reconstruct _ _ _ _) as [[r'|e]| |]; cbn [mbind outcome_bind]; [|by intros [= <-]|done..]. intros E%IH.
  eapply kind_op_trans; [|exact E]. eapply kind_op_trans; [apply kind_op_cache|apply kind_op_track].
Qed.

Lemma on_conn_conns p f ps u ps' : on_conn p f ps = Ret (u, ps') -> keeps_conns ps ps'.
Proof.
  unfold on_conn, conn. intros (c & ps1 & E1 & E2)%go_bind_Ret. rewrite bind_gget in E1. destruct (conns ps !! p) eqn:E; [|done]. injection E1 as <- <-.
  injection E2 as _ <-. split; [done|]. intros x Hx. cbn. rewrite lookup_insert_is_Some'. auto.
Qed.

Lemma mark_queue p hs : forall d u d', for_each (fun _ header => on_peers (on_conn p (MarkLacking (Header_Hash header)))) tt hs d = Ret (u, d') ->
  dl_queue d' = dl_queue d /\ peerDrops (dl_peers d') = peerDrops (dl_peers d).
Proof.
  induction hs as [|h hs IH]; intros d u d' E; cbn [for_each] in E; [by injection E as _ <-|].
  apply go_bind_Ret in E as ([] & x1 & F1 & F2). unfold on_peers in F1. destruct (on_conn _ _ _) as [[u' ps']| |] eqn:Eo; [|done..].
  injection F1 as _ <-. apply IH in F2 as [-> ->]. by apply on_conn_conns in Eo as [? _].
Qed.

(** A delivery changes the tasks of its kind, the cache and the peers. *)
Lemma deliver_op id ps d res d' : q_deliver id ps d = Ret (res, d') ->
  kind_op (content_of ps) (dl_queue d) (dl_queue d') /\ peerDrops (dl_peers d') = peerDrops (dl_peers d).
Proof.
  unfold q_deliver. rewrite bind_gget. destruct (pendPool _ !! id) as [req|]; [|by intros [= _ <-]].
  intros (u1 & d1 & E1 & E)%go_bind_Ret. injection E1 as _ <-. apply go_bind_Ret in E as (u2 & d2 & E2 & E).
  assert (Eq : dl_queue d2 = set_track (content_of ps) (set_pendPool (delete id (pendPool (track (content_of ps) (dl_queue d)))) (track (content_of ps) (dl_queue d))) (dl_queue d) /\
    peerDrops (dl_peers d2) = peerDrops (dl_peers d)).
  { clear E. destruct (Nat.eqb _ 0); [|by injection E2 as _ <-]. by apply mark_queue in E2. }
  destruct Eq as [Eq Ed].
  apply go_bind_Ret in E as (r & d3 & E3 & E). injection E as _ <-. unfold on_queue in E3.
  destruct (assemble ps 0 (fr_Headers req) (dl_queue d2)) as [[[[q1 rest] n] f]| |] eqn:Ea; cbn [mbind outcome_bind] in E3; [|done..].
  destruct (push_headers _ _); cbn [mbind outcome_bind] in E3; [|done..]. injection E3 as _ <-. cbn [dl_queue dl_peers]. split; [|done].
  apply assemble_op in Ea. cbn [fst] in Ea. eapply kind_op_trans; [|apply kind_op_track]. eapply kind_op_trans; [|exact Ea]. rewrite Eq. apply kind_op_track.
Qed.


(** ** The turns *)

(** A change of fields that no other goroutine of the queue looks at. *)
Lemma moves_gmodify w (f : D -> D) : (forall d, d_dl (f d) = d_dl d /\ d_mode (f d) = d_mode d /\ d_chain (f d) = d_chain d /\
  bodyWakeCh (f d) = bodyWakeCh d /\ receiptWakeCh (f d) = receiptWakeCh d) -> moves w (gmodify f).
Proof.
  intros Hf d u d' [= _ <-]. destruct (Hf d) as (E1 & E2 & E3 & E4 & E5). split; unfold drops, d_peers, d_queue; rewrite ?E1, ?E2, ?E3, ?E4, ?E5; auto.
Qed.

Lemma moves_Cancel w : moves w (Cancel (C := C)).
Proof. apply moves_gmodify. intros d. by destruct (cancelCh d). Qed.

Lemma fetch_conns k v p m ps r ps' : fetch k v p m ps = Ret (r, ps') -> keeps_conns ps ps'.
Proof.
  unfold fetch, conn. intros (c & ps1 & E1 & E2)%go_bind_Ret. rewrite bind_gget in E1. destruct (conns ps !! p) as [c'|] eqn:Ec; [|done]. injection E1 as <- <-.
  destruct (_ <? _); [done|]. destruct (negb _); [by injection E2 as _ <-|]. apply go_bind_Ret in E2 as (u & ps2 & E2 & E3).
  rewrite bind_gmodify in E3. injection E3 as _ <-. exact (on_conn_conns _ _ _ _ _ E2).
Qed.

Lemma moves_conn w p : moves w (on_dl (on_peers (conn p)) : go D _).
Proof.
  apply moves_peers. intros ps c ps' E. unfold conn in E. rewrite bind_gget in E. destruct (conns ps !! p); [|done]. by injection E as _ <-.
Qed.

Lemma moves_request w p m : moves w (request p m : go D _).
Proof. apply moves_peers. by intros ps u ps' [= _ <-]. Qed.

Lemma moves_setIdle w f p : moves w (f_setIdle f p : go D _).
Proof. apply moves_peers. intros ps u ps'. apply on_conn_conns. Qed.

(** A peer that is dropped gives its tasks back. *)
Lemma moves_UnregisterPeer w id : moves w (UnregisterPeer id : go D _).
Proof.
  intros d r d' E. unfold UnregisterPeer, on_dl, on_peers, Unregister in E. apply go_bind_Ret in E as (e & d1 & E1 & E). rewrite bind_gget in E1.
  destruct (peers (dl_peers (d_dl d)) !! id) as [p|] eqn:Ep; [rewrite bind_gmodify in E1|]; injection E1 as <- <-.
  2: { injection E as _ <-. by destruct d as [? []]. }
  apply go_bind_Ret in E as (u & d2 & E2 & E). unfold in_queue, on_dl, on_queue in E2. cbn [d_dl set_dl dl_queue dl_peers] in E2.
  destruct (Revoke id (dl_queue (d_dl d))) as [q1| |] eqn:Er; cbn [mbind outcome_bind] in E2; [|done..]. injection E2 as _ <-.
  rewrite bind_gget in E. apply go_bind_Ret in E as (u' & d3 & E3 & E). injection E as _ <-.
  transitivity (set_dl (mkDl q1 (mkPeerSet (delete id (peers (dl_peers (d_dl d)))) (conns (dl_peers (d_dl d))) (sent (dl_peers (d_dl d)))
    (newPeers (dl_peers (d_dl d))) (peerDrops (dl_peers (d_dl d)) ++ [p]))) d).
  - destruct (Revoke_op id _ _ Er) as (H1 & H2 & H3). split; try done; unfold drops, d_peers; cbn.
    + intros first sched out Hr. apply (run_peers _ _ _ (mkDl q1 (dl_peers (d_dl d)))); [by eapply run_revoke|done].
    + intros k _. apply H3.
    + by exists [p].
    + intros k _ Hd%(f_equal length). rewrite length_app in Hd. cbn in Hd. lia.
  - destruct (decide _); [by apply (moves_Cancel w) in E3|]. by injection E3 as _ <-.
Qed.

Lemma moves_dropPeer w id : moves w (dropPeer id : go D _).
Proof.
  apply moves_bind; [apply moves_gget|]. intros d. destruct (decide _); [|apply moves_ret].
  apply moves_bind; [apply moves_UnregisterPeer|]. intros _. by apply moves_gmodify.
Qed.

Lemma moves_expire f e : moves f (f_expire f e : go D _).
Proof.
  destruct f as [|k]; cbn [f_expire].
  - apply moves_header. intros q E q'. apply ExpireHeaders_op.
  - apply moves_queue. intros d E q' Ex. split; [intros first sched out Hr; by eapply run_expire|].
    apply ExpireContent_op in Ex as [t ->]. split; [|done]. intros k' Hk. apply track_other. intros ->. done.
Qed.

Lemma moves_pending w f : moves w (f_pending f : go D _).
Proof. destruct f; [apply moves_bind; [apply moves_gget|intros d; apply moves_glift]|apply moves_of_queue]. Qed.

Lemma moves_demote w f pid n : moves w (demote f pid n : go D _).
Proof.
  apply moves_bind; [apply moves_gget|]. intros d. destruct (ps_Peer _ _); [|apply moves_ret]. destruct (2 <? n); [apply moves_setIdle|apply moves_dropPeer].
Qed.

(** Packets as the network code makes them: every header has a number, and a packet of
    bodies has as many lists of uncles as of transactions. *)
Definition packet_ok (f : Fetched) (packet : Packet) : Prop :=
  match f, packet with
  | FHeaders, HeaderPack hs => Forall counted hs
  | FContent k, ContentPack ps => content_of ps = k /\ even_parts ps
  | _, _ => False
  end.

Lemma moves_deliver f id packet : packet_ok f packet -> moves f (f_deliver f id packet : go D _).
Proof.
  intros Hp. destruct f as [|k], packet as [hs|ps]; try done; cbn [f_deliver].
  - apply moves_bind; [apply moves_gget|]. intros d. apply moves_bind; [|intros [[n e] [p|]]; (apply moves_bind; [|intros _; apply moves_ret])].
    + apply moves_header. intros q a q' E. destruct (q_DeliverHeaders _ _ _ _) as [r| |] eqn:Er; cbn [mbind outcome_bind] in E; [|done..]. injection E as _ <-.
      by apply DeliverHeaders_op in Er.
    + by apply moves_gmodify.
    + apply moves_ret.
  - destruct Hp as [<- He]. rewrite decide_True by done. intros d r d' E. unfold on_dl in E. destruct (q_deliver id ps (d_dl d)) as [[r' x]| |] eqn:Ed; [|done..].
    injection E as <- <-. destruct (deliver_op _ _ _ _ _ Ed) as [Ho Hd]. pose proof Ho as (E1 & E2 & E3). split; try done.
    + intros first sched out Hr. by eapply run_deliver.
    + intros k Hk. apply (kind_op_drained _ _ _ _ Ho). intros ->. done.
    + exists []. by rewrite app_nil_r.
    + intros k Hk _. unfold PendingContent. cbn. rewrite E3; [done|]. intros ->. done.
Qed.

Lemma moves_throttle w f : moves w (f_throttle f : go D _).
Proof. destruct f; [apply moves_ret|apply moves_of_queue]. Qed.

Lemma moves_inFlight w f : moves w (f_inFlight f : go D _).
Proof. destruct f; apply moves_of_queue. Qed.

Lemma reserve_moves f e p (d : D) r prog d' : f_reserve f e p d = Ret (r, prog, None, d') -> qstep f d d'.
Proof.
  unfold f_reserve. intros (c & d1 & E1 & E2)%go_bind_Ret. unfold on_dl, on_peers, conn in E1. rewrite bind_gget in E1.
  destruct (conns (dl_peers (d_dl d)) !! p) as [c'|] eqn:Ec; [|done]. injection E1 as <- <-.
  assert (Ed : set_dl (mkDl (dl_queue (d_dl d)) (dl_peers (d_dl d))) d = d) by (by destruct d as [? []]). rewrite Ed in E2.
  destruct f as [|k].
  - apply go_bind_Ret in E2 as (x & d2 & E2 & E3). injection E3 as _ _ <-. revert E2. apply moves_header. intros q a q'. apply ReserveHeaders_op.
  - revert E2. unfold in_queue, on_dl, on_queue. destruct (reserveHeaders _ _ _ _ _ _ _) as [[[[req pr] er] q']| |] eqn:Er; cbn [mbind outcome_bind]; [|done..].
    intros [= -> -> -> <-]. pose proof (reserveHeaders_op _ _ _ _ _ _ _ _ _ _ _ Er) as Ho. pose proof Ho as (E1 & E2 & E3). split; try done.
    + intros first sched out Hr. by eapply run_reserve.
    + intros k' Hk. apply (kind_op_drained _ _ _ _ Ho). intros ->. done.
    + intros k' Hk _. unfold PendingContent. cbn. rewrite E3; [done|]. intros ->. done.
Qed.

Lemma moves_fetch w f p req : moves w (f_fetch f p req : go D _).
Proof. apply moves_peers. intros ps o ps'. destruct f as [|[]]; apply fetch_conns. Qed.

(** The packet that a loop is about to deliver. *)
Definition phase_ok (f : Fetched) (ph : FetchPhase) : Prop := match ph with AtDeliver _ _ packet => packet_ok f packet | _ => True end.

(** A call of a loop. *)
Lemma go_moves f fin e ph (d : D) r d' : phase_ok f ph -> fetch_go f fin e ph d = Ret (r, d') -> (forall err, r <> inr (Some err)) ->
  qstep f d d' /\ match r with inl ph' => phase_ok f ph' | inr _ => True end.
Proof.
  intros Hp E Hr. destruct ph as [|p id packet|p| |[|[pid n] l]| | | |b|[[|p idles] al pr ru]|p r0|p r0|p req r0|th r0]; cbn [fetch_go] in E.
  all: try (apply go_bind_Ret in E as (x & d1 & E1 & E)).
  - done.
  - apply moves_deliver in E1; [|done]. injection E as <- <-. by repeat case_decide.
  - apply (moves_setIdle f) in E1. by injection E as <- <-.
  - apply moves_expire in E1. by injection E as <- <-.
  - by injection E as <- <-.
  - apply (moves_demote f) in E1. by injection E as <- <-.
  - apply (moves_pending f) in E1. injection E as <- <-. by destruct (_ =? 0).
  - apply (moves_inFlight f) in E1. injection E as <- <-. by destruct (_ && _).
  - apply (moves_inFlight f) in E1. by injection E as <- <-.
  - injection E1 as <- <-. destruct (f_idle f e d). by injection E as <- <-.
  - by injection E as <- <-.
  - apply (moves_throttle f) in E1. injection E as <- <-. by destruct x.
  - apply (moves_pending f) in E1. injection E as <- <-. by destruct (_ =? 0).
  - destruct x as [[req prog] err]. injection E as <- <-. destruct err as [err|]; [by destruct (Hr err)|]. apply reserve_moves in E1. by destruct req.
  - apply (moves_fetch f) in E1. destruct x; [done|]. by injection E as <- <-.
  - apply (moves_pending f) in E1. injection E as <- <-. by destruct (_ && _).
Qed.

(** ** Runs *)

Definition proc_phase (h : HeaderProc) : list (option Header) :=
  match hp_phase h with PChunks hs => hs | PRoom chunk rest => (Some <$> chunk) ++ rest | _ => [] end.

(** The headers the processor takes from its channel, and the results that are
    imported, in a step. *)
Definition received (s s' : Sync (C := C)) : list (option Header) :=
  match s_hp s, s_hp s' with
  | inl h, inl h' => match hp_phase h with PWait => proc_phase h' | _ => [] end
  | _, _ => []
  end.

Definition imported (s s' : Sync (C := C)) : list fetchResult :=
  match s_cp s, s_cp s' with
  | inl (CImport l), inl (CImport l') => take (length l - length l') l
  | _, _ => []
  end.

Definition fetch_event_ok (f : Fetched) (ev : FetchEvent) : Prop :=
  match ev with FPacket _ packet => packet_ok f packet | _ => True end.

Definition event_ok (ev : SyncEvent) : Prop :=
  match ev with
  | EvHeaders (HPacket _ hs) => Forall counted hs
  | EvHeaders (HFetch ev) => fetch_event_ok FHeaders ev
  | EvBodies ev => fetch_event_ok (FContent Bodies) ev
  | EvReceipts ev => fetch_event_ok (FContent Receipts_) ev
  | _ => True
  end.

Definition fetcher (k : Content) (s : Sync (C := C)) : task Fetcher := match k with Bodies => s_bf s | Receipts_ => s_rf s end.

(** The loop of [k], which was told that no more tasks come, has found none that is
    pending and is about to test whether requests are in flight. *)
Definition last_test (k : Content) (s : Sync (C := C)) : Prop :=
  match fetcher k s with inl f => f_finished f = true /\ f_phase f = AtLastInFlight | inr _ => False end.

(** No peer is dropped while a loop is between its two tests. *)
Definition undisturbed (s s' : Sync (C := C)) : Prop := (exists k, last_test k s) -> drops (s_d s') = drops (s_d s).

(** A synchronization starts with [synchronise] and [syncWithPeer]. *)
Inductive sync_run (md : SyncMode) (first : Z) : list (option Header) -> list fetchResult -> Sync (C := C) -> Prop :=
| sync_begin id m p head td random heights arrivals d d1 d2 s h :
    (length (bodyWakeCh d) <= 1)%nat -> (length (receiptWakeCh d) <= 1)%nat -> headerResults (d_queue d) = None ->
    synchronise id m d = Ret (inl p, d1) -> syncWithPeer p head td random heights arrivals d1 = Ret (inl s, d2) ->
    d_mode d1 = md -> s_hf s = inl h -> hf_from h = first -> first < 9223372036854775808 -> sync_run md first [] [] s
| sync_event ev recv imp s s' : sync_run md first recv imp s -> event_ok ev -> sync_step ev s = Ret s' -> undisturbed s s' ->
    sync_run md first (recv ++ received s s') (imp ++ imported s s') s'.

(** Headers as they are decoded: the numbers are not negative, and fit an [int64]. *)
Definition recv_ok (first : Z) (recv : list (option Header)) : Prop :=
  Forall (fun o => forall h, o = Some h -> nonneg h) recv /\ first + Z.of_nat (length recv) < 9223372036854775808.

(** ** The invariant of a full synchronization without errors *)

Definition no_error {A : Type} (t : task A) : Prop := match t with inr (Some _) => False | _ => True end.
Definition healthy (s : Sync (C := C)) : Prop := no_error (s_hf s) /\ no_error (s_bf s) /\ no_error (s_rf s) /\ no_error (s_hp s) /\ no_error (s_cp s).

Definition giving_up (s : Sync (C := C)) : Prop := match s_hf s with inl h => match hf_phase h with HGiveUp _ => True | _ => False end | inr _ => False end.
Definition proc_over (s : Sync (C := C)) : Prop := match s_hp s with inl h => match hp_phase h with PEnd _ => True | _ => False end | inr _ => True end.

Definition wakes (k : Content) (d : D) : list bool := match k with Bodies => bodyWakeCh d | Receipts_ => receiptWakeCh d end.

(** The fetcher of [k] was told that no more tasks come. *)
Definition signalled (k : Content) (s : Sync (C := C)) : Prop :=
  match fetcher k s with inl f => f_finished f = true | inr _ => False end \/ false ∈ wakes k (s_d s).

Definition others_done (s : Sync (C := C)) : Prop := s_hf s = inr None /\ s_bf s = inr None /\ s_rf s = inr None /\ s_hp s = inr None.

(** What the processor has left of what it received. *)
Definition proc_ok (first : Z) (recv : list (option Header)) (sched : list Header) (t : task HeaderProc) : Prop :=
  match t with
  | inl h => hp_origin h = first + Z.of_nat (length sched) /\ recv = (Some <$> sched) ++ proc_phase h /\ hp_rollback h = []
  | inr _ => recv = Some <$> sched
  end.

(** What the content processor has left of what was handed out. *)
Definition content_left (t : task ContentPhase) : list fetchResult := match t with inl (CImport l) => l | _ => [] end.

Definition fetches (w : Fetched) (f : Fetcher) : Prop := f_what f = w /\ phase_ok w (f_phase f).

Record sync_ok (first : Z) (recv : list (option Header)) (imp : list fetchResult) (sched : list Header) (s : Sync (C := C)) : Prop := {
  so_run : dq_run first sched (imp ++ content_left (s_cp s)) (d_dl (s_d s));
  so_mode : d_mode (s_d s) = FullSync /\ mode (d_queue (s_d s)) = FullSync;
  so_proc : proc_ok first recv sched (s_hp s);
  so_content : match s_cp s with inl (CFast _ _ _) => False | inr _ => others_done s /\ length imp = length sched | _ => True end;
  so_what : (forall k f, fetcher k s = inl f -> fetches (FContent k) f) /\ (forall h f, s_hf s = inl h -> hf_phase h = HFill f -> fetches FHeaders f);
  so_signal k : signalled k s -> proc_over s \/ giving_up s;
  so_ended k : fetcher k s = inr None -> giving_up s \/ (proc_over s /\ drained k (d_queue (s_d s)));
  so_last k : last_test k s -> giving_up s \/ PendingContent k (d_queue (s_d s)) = 0;
  so_closed : closed (d_queue (s_d s)) = true -> others_done s;
  so_left j : j ∉ s_left s -> job_result j s = Some None;
  so_result : s_result s <> None -> s_left s = []
}.


Lemma received_same s s' : s_hp s' = s_hp s -> received s s' = [].
Proof. unfold received. intros ->. destruct (s_hp s) as [h|]; [|done]. unfold proc_phase. by destruct (hp_phase h). Qed.

Lemma imported_same s s' : s_cp s' = s_cp s -> imported s s' = [].
Proof. unfold imported. intros ->. destruct (s_cp s) as [[]|]; try done. by rewrite Nat.sub_diag. Qed.

(** A step of a fetcher, or of none. *)
Lemma sync_ok_fetch first recv imp sched s s' :
  sync_ok first recv imp sched s ->
  (forall out, dq_run first sched out (d_dl (s_d s)) -> dq_run first sched out (d_dl (s_d s'))) ->
  d_mode (s_d s') = d_mode (s_d s) /\ mode (d_queue (s_d s')) = mode (d_queue (s_d s)) -> closed (d_queue (s_d s')) = closed (d_queue (s_d s)) ->
  s_hp s' = s_hp s -> s_cp s' = s_cp s -> s_left s' = s_left s -> s_result s' = s_result s ->
  (forall j, job_result j s = Some None -> job_result j s' = Some None) ->
  ((forall k f, fetcher k s' = inl f -> fetches (FContent k) f) /\ (forall h f, s_hf s' = inl h -> hf_phase h = HFill f -> fetches FHeaders f)) ->
  (giving_up s -> giving_up s') ->
  (forall k, signalled k s' -> signalled k s \/ giving_up s') ->
  (forall k, fetcher k s' = inr None -> (fetcher k s = inr None /\ (drained k (d_queue (s_d s)) -> drained k (d_queue (s_d s')))) \/
     (signalled k s /\ drained k (d_queue (s_d s'))) \/ giving_up s') ->
  (forall k, last_test k s' -> PendingContent k (d_queue (s_d s')) = 0 \/ giving_up s' \/
     (last_test k s /\ (PendingContent k (d_queue (s_d s)) = 0 -> PendingContent k (d_queue (s_d s')) = 0))) ->
  sync_ok first (recv ++ received s s') (imp ++ imported s s') sched s'.
Proof.
  intros [H1 [H2 H2'] H3 H4 H5 H6 H7 HL H8 H9 H10] Hrun [Hm Hm'] Hc Ehp Ecp El Er Hjob Hwhat Hg Hs He Ht.
  rewrite (received_same s s' Ehp), (imported_same s s' Ecp), !app_nil_r.
  assert (Hd : others_done s -> others_done s').
  { intros (A1 & A2 & A3 & A4). assert (Hj : forall j, j <> JContent -> job_result j s' = Some None).
    { intros j Hj. apply Hjob. destruct j; cbn; rewrite ?A1, ?A2, ?A3, ?A4; done. }
    unfold others_done. pose proof (Hj JHeaders ltac:(done)) as B1. pose proof (Hj JBodies ltac:(done)) as B2. pose proof (Hj JReceipts ltac:(done)) as B3.
    cbn in B1, B2, B3. destruct (s_hf s'), (s_bf s'), (s_rf s'); try done. rewrite Ehp. by simplify_eq. }
  assert (Hpo : proc_over s -> proc_over s') by (unfold proc_over; by rewrite Ehp).
  split; rewrite ?Ecp, ?Ehp, ?El, ?Er, ?Hc; try done.
  - by apply Hrun.
  - split; congruence.
  - destruct (s_cp s) as [[]|]; try done. destruct H4. auto.
  - intros k [Hk|Hk]%Hs; [|auto]. destruct (H6 k Hk); auto.
  - intros k Hk. destruct (He k Hk) as [[E Hd']|[[Hk' Hd']|]]; [| |auto].
    + destruct (H7 k E) as [|[? ?]]; auto.
    + destruct (H6 k Hk'); auto.
  - intros k Hk. destruct (Ht k Hk) as [|[|[Hk' Hp]]]; [auto..|]. destruct (HL k Hk'); auto.
  - auto.
  - intros j Hj. apply Hjob. auto.
Qed.

(** A step of one fetcher that leaves the wakes alone. *)
Lemma sync_ok_quiet first recv imp sched s d' : sync_ok first recv imp sched s -> (forall w, qstep w (s_d s) d') ->
  let s' := mkSync d' (s_hf s) (s_bf s) (s_rf s) (s_hp s) (s_cp s) (s_left s) (s_result s) in
  undisturbed s s' -> sync_ok first (recv ++ received s s') (imp ++ imported s s') sched s'.
Proof.
  intros Hs Hq s' Hu. destruct (Hq FHeaders) as [Q1 Q2 Q3 Q4 Q5 [Q6 Q7] _ Q9]. apply sync_ok_fetch; try done; try (by apply Hs).
  - intros out. apply Q1.
  - intros k [Hk|Hk]; [left; left; by destruct k|]. left. right. destruct k; cbn in *; congruence.
  - intros k Hk. left. split; [by destruct k|]. by apply Q2.
  - intros k Hk. assert (Hk' : last_test k s) by (by destruct k). right. right. split; [done|]. apply Q9; [done|]. apply Hu. eauto.
Qed.

Lemma moves_runPeer w id version : moves w (runPeer id version : go D _).
Proof.
  apply moves_bind; [apply moves_gget|]. intros d. destruct (decide _); [apply moves_ret|].
  apply moves_bind; [by apply moves_gmodify|]. intros _. apply moves_bind; [|intros []; [apply moves_dropPeer|apply moves_ret]].
  apply moves_peers. intros ps e ps' E. unfold Register in E. rewrite bind_gget in E. destruct (found _); [by injection E as _ <-|].
  rewrite bind_gmodify in E. injection E as _ <-. split; [done|]. intros x Hx. apply lookup_insert_is_Some'. auto.
Qed.

(** A loop that ends has nothing left, if nothing came back since its first test. *)
Lemma go_done k fin e ph (d : D) d' : fetch_go (FContent k) fin e ph d = Ret (inr None, d') ->
  ph = AtLastInFlight /\ fin = true /\ d' = d /\ pendPool (track k (d_queue d)) = ∅.
Proof.
  intros E. destruct ph as [|p id packet|p| |[|[pid n] l]| | | |b|[[|p idles] al pr ru]|p r0|p r0|p req r0|th r0]; cbn [fetch_go] in E.
  all: try (apply go_bind_Ret in E as (x & d1 & E1 & E)).
  all: try done; try (by injection E; repeat case_decide); try (injection E as E _; by destruct (_ && _)); try by destruct x.
  - cbn [f_inFlight] in E1. injection E1 as <- <-. destruct (negb _ && fin) eqn:Eb; [|done]. injection E as <-. apply andb_true_iff in Eb as [Ef ->]. split; [done|]. split; [done|]. split; [done|].
    apply negb_true_iff in Ef. unfold InFlightContent in Ef. apply Z.ltb_ge in Ef. apply map_size_empty_inv. lia.
  - injection E1 as <- <-. destruct (f_idle _ e d). done.
  - destruct x as [[req prog] err]. injection E as E _. by destruct err, req.
Qed.

(** The first test. *)
Lemma go_last k fin e ph (d : D) d' : fetch_go (FContent k) fin e ph d = Ret (inl AtLastInFlight, d') -> PendingContent k (d_queue d') = 0.
Proof.
  intros E. destruct ph as [|p id packet|p| |[|[pid n] l]| | | |b|[[|p idles] al pr ru]|p r0|p r0|p req r0|th r0]; cbn [fetch_go] in E.
  all: try (apply go_bind_Ret in E as (x & d1 & E1 & E)).
  all: try done; try (by injection E; repeat case_decide); try (injection E as E _; by destruct (_ && _)); try by destruct x.
  - cbn [f_pending] in E1. injection E1 as <- <-. injection E as E <-. destruct (Z.eqb_spec (PendingContent k (d_queue d)) 0); [done|discriminate].
  - destruct (f_idle _ e x). done.
  - destruct x as [[req prog] err]. injection E as E _. by destruct err, req.
Qed.

(** What a step of the fetcher of [k] does. *)
Definition fetch_effect (k : Content) (f : Fetcher) (d : D) (r : task Fetcher) (d' : D) : Prop :=
  (forall first sched out, dq_run first sched out (d_dl d) -> dq_run first sched out (d_dl d')) /\
  (d_mode d' = d_mode d /\ mode (d_queue d') = mode (d_queue d)) /\ closed (d_queue d') = closed (d_queue d) /\
  (forall k', k' <> k -> drained k' (d_queue d) -> drained k' (d_queue d')) /\ (forall k', k' <> k -> wakes k' d' = wakes k' d) /\
  (forall k', k' <> k -> drops d' = drops d -> PendingContent k' (d_queue d) = 0 -> PendingContent k' (d_queue d') = 0) /\
  match r with
  | inl f' => fetches (FContent k) f' /\ (f_finished f' = true \/ false ∈ wakes k d' -> f_finished f = true \/ false ∈ wakes k d) /\
      (f_phase f' = AtLastInFlight -> PendingContent k (d_queue d') = 0)
  | inr _ => (f_finished f = true /\ f_phase f = AtLastInFlight) /\ (PendingContent k (d_queue d) = 0 -> drained k (d_queue d'))
  end.

Lemma qstep_effect k f d r d' : qstep (FContent k) d d' ->
  match r with
  | inl f' => fetches (FContent k) f' /\ f_finished f' = f_finished f /\ (f_phase f' = AtLastInFlight -> PendingContent k (d_queue d') = 0)
  | inr _ => (f_finished f = true /\ f_phase f = AtLastInFlight) /\ (PendingContent k (d_queue d) = 0 -> drained k (d_queue d'))
  end -> fetch_effect k f d r d'.
Proof.
  intros [Q1 Q2 Q3 Q4 Q5 [Q6 Q7] Q8 Q9] Hr. split; [done|]. split; [done|]. split; [done|]. split; [intros k' Hk; apply Q2; congruence|].
  split; [intros [] _; done|]. split; [intros k' Hk; apply Q9; congruence|]. destruct r as [f'|]; [|done]. destruct Hr as (? & -> & ?). split; [done|].
  split; [|done]. by destruct k; cbn; rewrite ?Q6, ?Q7.
Qed.

(** A case of the [select]. *)
Lemma select_effect k ev f d r d' : f_what f = FContent k -> fetch_event_ok (FContent k) ev -> fetch_select ev f d = Ret (r, d') -> no_error r ->
  fetch_effect k f d r d'.
Proof.
  intros Ew Hok. unfold fetch_select. rewrite bind_gget, Ew. destruct ev as [|id packet| | | |e].
  - destruct (cancelled d); [|done]. by intros [= <- _].
  - intros [= <- <-] _. apply qstep_effect; [done|]. by destruct (ps_Peer _ _).
  - cbn [wake_of]. change (match k with Bodies => bodyWakeCh d | Receipts_ => receiptWakeCh d end) with (wakes k d).
    destruct (wakes k d) as [|cont ws] eqn:Ewk; [done|]. rewrite bind_gmodify. intros [= <- <-] _.
    split; [by destruct k|]. split; [by destruct k|]. split; [by destruct k|]. split; [by destruct k|]. split; [by destruct k, k'|]. split; [by destruct k|]. split; [done|]. split; [|done].
    assert (Ed : wakes k (take_wake (FContent k) d) = ws) by (destruct k; cbn in *; by rewrite Ewk). cbn [take_wake] in Ed. rewrite Ed. cbn [f_finished].
    rewrite Ewk. intros [Hf|Hf]; [|right; by right]. apply orb_true_iff in Hf as [Hf|Hf]; [by left|]. destruct cont; [done|]. right. left.
  - intros [= <- <-] _. by apply qstep_effect.
  - destruct (f_update f); [|done]. destruct (_ =? 0); intros [= <- <-]; [done|]. intros _. by apply qstep_effect.
  - done.
Qed.

(** A step is a case of the [select] or a call. *)
Lemma fetch_step_case ev f (d : D) r d' : fetch_step ev f d = Ret (r, d') -> fetch_select ev f d = Ret (r, d') \/
  exists e x, fetch_go (f_what f) (f_finished f) e (f_phase f) d = Ret (x, d') /\
    r = match x with inl ph => inl (mkFetcher (f_what f) (f_finished f) (f_update f) ph) | inr err => inr err end.
Proof.
  unfold fetch_step. destruct (f_phase f) eqn:Ep; [by left|..]; destruct ev as [| | | | |e]; try done; intros E; right;
    apply go_bind_Ret in E as (x & d1 & E1 & E); injection E as <- <-; by exists e, x.
Qed.

Lemma fetch_step_effect k ev f d r d' : fetches (FContent k) f -> fetch_event_ok (FContent k) ev -> fetch_step ev f d = Ret (r, d') -> no_error r ->
  fetch_effect k f d r d'.
Proof.
  intros [Ew Hp] Hok [E|(e & x & E & ->)]%fetch_step_case Hr; [by eapply select_effect|]. rewrite Ew in E. assert (Hx : forall err, x <> inr (Some err)) by (by intros err ->).
  destruct (go_moves _ _ _ _ _ _ _ Hp E Hx) as [Hq Hph]. apply qstep_effect; [done|]. destruct x as [ph|[err|]]; [|by destruct (Hx err)|].
  - split; [done|]. split; [done|]. cbn [f_phase]. intros ->. by eapply go_last.
  - apply go_done in E as (Ep & Ef & -> & He). done.
Qed.

(** The fetcher of a skeleton. *)
Lemma fill_step_moves ev f d r d' : fetches FHeaders f -> fetch_event_ok FHeaders ev -> fetch_step ev f d = Ret (r, d') -> no_error r ->
  qstep FHeaders d d' /\ match r with inl f' => fetches FHeaders f' | inr _ => True end.
Proof.
  intros [Ew Hp] Hok [E|(e & x & E & ->)]%fetch_step_case Hr.
  - revert E. unfold fetch_select. rewrite bind_gget, Ew. destruct ev as [|id packet| | | |e].
    + destruct (cancelled d); [|done]. by intros [= <- _].
    + intros [= <- <-]. split; [done|]. by destruct (ps_Peer _ _).
    + destruct (wake_of _ _); [done|]. rewrite bind_gmodify. intros [= <- <-]. split; [|done]. split; try done. intros first sched out Hq. by apply run_headers.
    + by intros [= <- <-].
    + destruct (f_update f); [|done]. by destruct (_ =? 0); intros [= <- <-].
    + done.
  - rewrite Ew in E. assert (Hx : forall err, x <> inr (Some err)) by (by intros err ->).
    destruct (go_moves _ _ _ _ _ _ _ Hp E Hx) as [Hq Hph]. split; [done|]. by destruct x.
Qed.

(** A turn of the fetcher of [k]. *)
Definition with_fetcher (k : Content) (d : D) (t : task Fetcher) (s : Sync (C := C)) : Sync :=
  match k with
  | Bodies => mkSync d (s_hf s) t (s_rf s) (s_hp s) (s_cp s) (s_left s) (s_result s)
  | Receipts_ => mkSync d (s_hf s) (s_bf s) t (s_hp s) (s_cp s) (s_left s) (s_result s)
  end.

Lemma sync_ok_content_fetch k first recv imp sched s f r d' : sync_ok first recv imp sched s -> fetcher k s = inl f -> fetch_effect k f (s_d s) r d' -> no_error r ->
  let s' := with_fetcher k d' r s in undisturbed s s' -> sync_ok first (recv ++ received s s') (imp ++ imported s s') sched s'.
Proof.
  intros Hs Ef (F1 & F2 & F3 & F4 & F5 & F8 & F6) Hne s' Hu.
  assert (Efo : forall k', k' <> k -> fetcher k' s' = fetcher k' s) by (intros k' Hk; by destruct k, k').
  assert (Efk : fetcher k s' = r) by (by destruct k). assert (Ed : s_d s' = d') by (by destruct k).
  assert (Eh : s_hf s' = s_hf s) by (by destruct k).
  apply sync_ok_fetch; rewrite ?Ed; try done; try (by destruct k).
  - intros out. apply F1.
  - intros j. destruct k, j; cbn in *; try done; by rewrite Ef.
  - destruct (so_what _ _ _ _ _ Hs) as [Hw Hw']. split; [|by rewrite Eh]. intros k' f' Hf'. destruct (decide (k' = k)) as [->|Hk]; [|by apply Hw; rewrite <- Efo].
    rewrite Efk in Hf'. rewrite Hf' in F6. apply F6.
  - intros k' Hk'. left. unfold signalled in *. destruct (decide (k' = k)) as [->|Hk]; [|by rewrite Efo, Ed, F5 in Hk']. rewrite Efk, Ed in Hk'. rewrite Ef.
    destruct r as [f'|e]; [by apply F6|]. left. apply F6.
  - intros k' Hk'. destruct (decide (k' = k)) as [->|Hk]; [|left; rewrite Efo in Hk' by done; auto]. rewrite Efk in Hk'. rewrite Hk' in F6. destruct F6 as [[F6 Fp] F7].
    right. destruct (so_last _ _ _ _ _ Hs k) as [Hg|Hp]; [unfold last_test; by rewrite Ef|right; by destruct k|]. left. split; [|auto]. left. by rewrite Ef.
  - intros k' Hk'. destruct (decide (k' = k)) as [->|Hk].
    + unfold last_test in Hk'. rewrite Efk in Hk'. destruct r as [f'|]; [|done]. left. apply F6, Hk'.
    + assert (Hl : last_test k' s) by (unfold last_test in *; by rewrite Efo in Hk'). right. right. split; [done|]. apply F8; [done|]. rewrite <- Ed. apply Hu. eauto.
Qed.


Definition gives_up (h : HeaderFetcher) : Prop := match hf_phase h with HGiveUp _ => True | _ => False end.

(** What a turn of the header fetcher does. *)
Definition hf_effect (h : HeaderFetcher) (d : D) (r : task HeaderFetcher) (d' : D) : Prop :=
  (forall first sched out, dq_run first sched out (d_dl d) -> dq_run first sched out (d_dl d')) /\
  (d_mode d' = d_mode d /\ mode (d_queue d') = mode (d_queue d)) /\ closed (d_queue d') = closed (d_queue d) /\
  (forall k, drained k (d_queue d) -> drained k (d_queue d')) /\
  (forall k, drops d' = drops d -> PendingContent k (d_queue d) = 0 -> PendingContent k (d_queue d') = 0) /\
  match r with
  | inl h' => (gives_up h -> gives_up h') /\ (forall f, hf_phase h' = HFill f -> fetches FHeaders f) /\ ((forall k, wakes k d' = wakes k d) \/ gives_up h')
  | inr _ => ~ gives_up h /\ (forall k, wakes k d' = wakes k d)
  end.

Lemma qstep_hf h d r d' : qstep FHeaders d d' -> ~ gives_up h ->
  match r with inl h' => forall f, hf_phase h' = HFill f -> fetches FHeaders f | inr _ => True end -> hf_effect h d r d'.
Proof.
  intros [Q1 Q2 Q3 Q4 Q5 [Q6 Q7] _ Q9] Hg Hf. do 3 (split; [done|]). split; [intros k; by apply Q2|]. split; [intros k; by apply Q9|]. assert (forall k, wakes k d' = wakes k d) by (by intros []).
  destruct r as [h'|]; [|done]. split; [done|]. auto.
Qed.

Lemma hf_give_up h h' (d d' : D) ss : d_dl d' = d_dl d -> d_mode d' = d_mode d -> hf_phase h' = HGiveUp ss -> hf_effect h d (inl h') d'.
Proof.
  intros E1 E2 E3. unfold hf_effect, d_queue, gives_up. rewrite E1, E2, E3. do 5 (split; [done|]). split; [done|]. split; [done|]. by right.
Qed.

Lemma send_run s (d : D) u d' : send s d = Ret (u, d') -> d' = put s d.
Proof. unfold send. rewrite bind_gget. destruct (ready_to s d); [|done]. by intros [= _ <-]. Qed.

Lemma moves_send w hs : moves w (send (SProc hs) : go D _).
Proof. intros d u d' ->%send_run. by split. Qed.

Lemma moves_getHeaders w p from b : moves w (getHeaders p from b : go D _).
Proof. apply moves_request. Qed.

Lemma moves_filled_rest w : moves w (filled_rest : go D _).
Proof.
  apply moves_bind; [|intros [l n]; destruct (_ <? _); [by intros ? ? ?|apply moves_ret]]. apply moves_header.
  intros q a q' E. cbn in E. by injection E as _ <-.
Qed.

Lemma moves_peer_id w p : moves w (peer_id p : go D _).
Proof. apply moves_bind; [apply moves_conn|]. intros c. apply moves_ret. Qed.

(** A packet for the header fetcher. *)
Lemma hf_packet_effect id hs h (d : D) r d' : hf_phase h = HWait -> hf_step (HPacket id hs) h d = Ret (r, d') -> hf_effect h d r d'.
Proof.
  intros Ep E. assert (Hng : ~ gives_up h) by (unfold gives_up; rewrite Ep; tauto). unfold hf_step in E. rewrite bind_gget, Ep in E.
  apply go_bind_Ret in E as (pid & d1 & E1 & E). apply (moves_peer_id FHeaders) in E1.
  destruct (decide _). { injection E as <- <-. apply qstep_hf; [done|done|intros f; by rewrite Ep]. }
  destruct hs as [|h0 hs]; destruct (hf_skeleton h).
  - apply go_bind_Ret in E as (u & d2 & E2 & E). injection E as <- <-. apply (moves_getHeaders FHeaders) in E2. apply qstep_hf; [by transitivity d1|done|done].
  - injection E as <- <-. by apply qstep_hf.
  - apply go_bind_Ret in E as (u & d2 & E2 & E). injection E as <- <-. apply qstep_hf; [transitivity d1; [done|]|done|by intros f [= <-]].
    revert E2. apply moves_header. intros q a q' F. unfold ScheduleSkeleton in F. destruct (headerResults q); [done|]. destruct (skeleton_tasks _ _ _ _ _).
    cbn [mbind outcome_bind] in F. by injection F as _ <-.
  - injection E as <- <-. by apply qstep_hf.
Qed.

Lemma hf_step_effect ev h (d : D) r d' : (forall f, hf_phase h = HFill f -> fetches FHeaders f) -> event_ok (EvHeaders ev) ->
  hf_step ev h d = Ret (r, d') -> no_error r -> hf_effect h d r d'.
Proof.
  intros Hw Hok E Hne. destruct (hf_phase h) as [|f|hs| |ss] eqn:Ep; destruct ev as [|id hs'| |fev|];
    try (unfold hf_step in E; rewrite bind_gget, Ep in E; done);
    try (unfold hf_step in E; rewrite bind_gget, Ep in E; destruct hs; done);
    try (unfold hf_step in E; rewrite bind_gget, Ep in E; destruct ss; done);
    try (unfold hf_step in E; rewrite bind_gget, Ep in E; destruct (cancelled d); [by injection E as <- _|done]); try by eapply hf_packet_effect.
  all: assert (Hng : gives_up h <-> match hf_phase h with HGiveUp _ => True | _ => False end) by done; rewrite Ep in Hng.
  all: unfold hf_step in E; rewrite bind_gget, Ep in E.
  - apply go_bind_Ret in E as (pid & d1 & E1 & E). apply (moves_peer_id FHeaders) in E1. apply go_bind_Ret in E as (u & d2 & E2 & E). injection E as <- <-.
    apply (moves_dropPeer FHeaders) in E2. apply qstep_hf; [by transitivity d1|tauto|done].
  - apply go_bind_Ret in E as (r1 & d1 & E1 & E). destruct r1 as [f'|err].
    + injection E as <- <-. destruct (fill_step_moves fev f d (inl f') d1) as [Q Ef']; [by apply Hw|apply Hok|done|done|]. apply qstep_hf; [done|tauto|]. by intros f0 [= <-].
    + apply go_bind_Ret in E as (x & d2 & E2 & E). apply (moves_filled_rest FHeaders) in E2. destruct err; injection E as <- <-; [done|].
      destruct (fill_step_moves fev f d (inr None) d1) as [Q _]; [by apply Hw|apply Hok|done|done|]. apply qstep_hf; [by transitivity d1|tauto|done].
  - destruct hs; [done|]. by destruct (cancelled d); [injection E as <- _|].
  - destruct hs as [|h0 hs]; (apply go_bind_Ret in E as (u & d1 & E1 & E); apply go_bind_Ret in E as (u2 & d2 & E2 & E); injection E as <- <-;
      apply (moves_getHeaders FHeaders) in E2; apply qstep_hf; [transitivity d1; [|done]|tauto|done]); [by injection E1 as _ <-|by apply (moves_send FHeaders) in E1].
  - apply go_bind_Ret in E as (u & d1 & E1 & E). injection E as <- <-. apply (moves_send FHeaders) in E1. apply qstep_hf; [done|tauto|done].
  - destruct ss as [|s ss]; [done|]. destruct (cancelled d); [|done]. injection E as <- <-. by eapply hf_give_up.
  - destruct ss as [|s ss]; [by injection E as <- _|]. apply go_bind_Ret in E as (u & d1 & ->%send_run & E). injection E as <- <-.
    by eapply hf_give_up; [destruct s as [[]|]..|].
Qed.


Lemma sync_ok_headers first recv imp sched s h r d' : sync_ok first recv imp sched s -> s_hf s = inl h -> hf_effect h (s_d s) r d' -> no_error r ->
  let s' := mkSync d' r (s_bf s) (s_rf s) (s_hp s) (s_cp s) (s_left s) (s_result s) in undisturbed s s' ->
  sync_ok first (recv ++ received s s') (imp ++ imported s s') sched s'.
Proof.
  intros Hs Eh (F1 & F2 & F3 & F4 & F6 & F5) Hne s' Hu. destruct (so_what _ _ _ _ _ Hs) as [Hw Hw'].
  assert (Hg : giving_up s -> gives_up h) by (unfold giving_up; by rewrite Eh). assert (Hwk : (forall k, wakes k d' = wakes k (s_d s)) \/ giving_up s').
  { destruct r as [h'|]; [destruct F5 as (_ & _ & [?|?]); auto|left; apply F5]. }
  apply sync_ok_fetch; try done.
  - intros out. apply F1.
  - intros j. destruct j; cbn; try done. by rewrite Eh.
  - split; [done|]. intros h' f. destruct r as [x|]; cbn; [|done]. intros [= ->]. by apply F5.
  - intros Hgs%Hg. destruct r as [h'|]; [by apply F5|]. by destruct F5.
  - intros k Hk. destruct Hwk as [Hwk|?]; [|auto]. left. unfold signalled in *. cbn [s_d s'] in Hk. rewrite Hwk in Hk. by destruct k.
  - intros k Hk. left. split; [by destruct k|]. apply F4.
  - intros k Hk. assert (Hk' : last_test k s) by (by destruct k). right. right. split; [done|]. apply F6. apply Hu. eauto.
Qed.

(** ** The processors *)

(** Turns that only read the chain. *)
Definition looks_on {A : Type} (m : go D A) : Prop :=
  forall d a d', m d = Ret (a, d') -> d_dl d' = d_dl d /\ d_mode d' = d_mode d /\ bodyWakeCh d' = bodyWakeCh d /\ receiptWakeCh d' = receiptWakeCh d.

Lemma looks_on_bind {A B : Type} (m : go D A) (f : A -> go D B) : looks_on m -> (forall a, looks_on (f a)) -> looks_on (m ≫= f).
Proof.
  intros Hm Hf d b d' (a & d1 & (A1 & A2 & A3 & A4)%Hm & (B1 & B2 & B3 & B4)%Hf)%go_bind_Ret. by rewrite B1, B2, B3, B4.
Qed.

Lemma looks_on_ret {A : Type} (a : A) : looks_on (mret a).
Proof. by intros d x d' [= _ <-]. Qed.

Lemma looks_on_gget : looks_on gget.
Proof. by intros d x d' [= _ <-]. Qed.

Lemma looks_on_chain {A : Type} (m : go C A) : looks_on (on_chain m).
Proof. intros d a d' E. unfold on_chain in E. destruct (m (d_chain d)) as [[a' c]| |]; [|done..]. by injection E as _ <-. Qed.

Lemma looks_on_glift {A : Type} (o : outcome A) : looks_on (glift o).
Proof. intros d a d' E. unfold glift in E. destruct o; [|done..]. by injection E as _ <-. Qed.

Lemma looks_on_stalled h : looks_on (stalled h).
Proof.
  assert (Hs : forall td hash, looks_on (short_of td hash)).
  { intros td hash. apply looks_on_bind; [apply looks_on_chain|]. intros [x|]; [apply looks_on_ret|by intros d a d']. }
  apply looks_on_bind; [apply looks_on_gget|]. intros d. apply looks_on_bind.
  - destruct (decide _); [apply looks_on_ret|]. destruct (hp_got h); [apply looks_on_ret|]. apply looks_on_bind; [apply looks_on_chain|]. intros b. apply Hs.
  - intros []; [apply looks_on_ret|]. destruct (decide _); [apply looks_on_ret|]. apply looks_on_bind; [apply looks_on_chain|]. intros x. apply Hs.
Qed.

Lemma finish_error h e (d : D) r d' : finish h e d = Ret (r, d') -> ~ no_error r.
Proof. unfold finish. intros (u & d1 & _ & E)%go_bind_Ret. injection E as <- _. by intros ?. Qed.

(** What a turn of the processor does in a full synchronization: it schedules a chunk,
    or touches the wakes at most. *)
Definition proc_signals (h : HeaderProc) (d d' : D) : Prop :=
  forall k, false ∈ wakes k d' -> false ∈ wakes k d \/ match hp_phase h with PEnd _ => True | _ => False end.

Definition proc_effect (h : HeaderProc) (d : D) (r : task HeaderProc) (d' : D) : Prop :=
  (d_dl d' = d_dl d /\ d_mode d' = d_mode d /\ proc_signals h d d' /\
   match r with
   | inl h' => hp_origin h' = hp_origin h /\ hp_rollback h' = hp_rollback h /\ (match hp_phase h with PWait => True | _ => proc_phase h' = proc_phase h end) /\
       (match hp_phase h with PEnd _ => match hp_phase h' with PEnd _ => True | _ => False end | _ => True end)
   | inr _ => exists ss, hp_phase h = PEnd ss
   end) \/
  (exists chunk rest q', hp_phase h = PRoom chunk rest /\ Schedule chunk (hp_origin h) (d_queue d) = Ret (chunk, q') /\
     d_dl d' = mkDl q' (d_peers d) /\ d_mode d' = d_mode d /\ (forall k, wakes k d' = wakes k d) /\
     r = inl (mkHP (u64 (hp_origin h + Z.of_nat (length chunk))) (hp_pivot h) (hp_td h) (hp_rollback h) (hp_got h) (PChunks rest))).


Lemma Schedule_all hs : forall from q ins q', Schedule hs from q = Ret (ins, q') -> (length ins <= length hs)%nat /\ (length ins = length hs -> ins = hs).
Proof.
  induction hs as [|h hs IH]; intros from q ins q' E; cbn [Schedule] in E; [by injection E as <- _|].
  destruct (Number h); [|injection E as <- _; cbn; split; [lia|done]]. destruct (header_number h) as [n| |]; cbn [mbind outcome_bind] in E; [|done..].
  destruct (negb _); [injection E as <- _; cbn; split; [lia|done]|]. destruct (_ && _); [injection E as <- _; cbn; split; [lia|done]|].
  destruct (found _); [destruct (IH _ _ _ _ E); cbn; split; lia|]. destruct (found _); [destruct (IH _ _ _ _ E); cbn; split; lia|].
  destruct (add_task Bodies h q) as [q1| |]; cbn [mbind outcome_bind] in E; [|done..]. destruct (if fast_phase q n then _ else _) as [q2| |]; cbn [mbind outcome_bind] in E; [|done..].
  destruct (Schedule hs _ _) as [[ins0 q0]| |] eqn:Es; cbn [mbind outcome_bind fst snd] in E; [|done..]. injection E as <- <-.
  destruct (IH _ _ _ _ Es) as [Hl He]. cbn. split; [lia|]. intros Hx. f_equal. apply He. lia.
Qed.

Lemma all_headers_fmap l hs : all_headers l = Ret hs -> l = Some <$> hs.
Proof.
  unfold all_headers. destruct (mapM id l) as [x|] eqn:E; [|done]. intros [= <-]. apply mapM_Some in E. clear -E.
  induction E as [|y z l k Hy _ IH]; [done|]. unfold id in Hy. subst y. cbn. by rewrite IH.
Qed.

Lemma put_wakes (s : Send) (d : D) : d_dl (put s d) = d_dl d /\ d_mode (put s d) = d_mode d /\ forall k, false ∈ wakes k (put s d) -> false ∈ wakes k d \/ exists k', s = SWake k' false.
Proof.
  destruct s as [k b|hs]; (split; [by destruct k || done|]; split; [by destruct k || done|]); intros k'; [|by destruct k'; left].
  destruct b; [|eauto]. destruct k, k'; cbn; rewrite ?elem_of_app, ?list_elem_of_singleton; naive_solver.
Qed.

Lemma offer_wakes (s : Send) (d : D) : (forall k', s <> SWake k' false) -> forall u d', offer s d = Ret (u, d') ->
  d_dl d' = d_dl d /\ d_mode d' = d_mode d /\ forall k, false ∈ wakes k d' -> false ∈ wakes k d.
Proof.
  intros Hs u d' [= _ <-]. destruct (ready_to s d); [|done]. destruct (put_wakes s d) as (E1 & E2 & E3). split; [done|]. split; [done|].
  intros k [?|[k' ->]]%E3; [done|]. by destruct (Hs k').
Qed.

Lemma chunk_effect h headers (d : D) r d' : d_mode d = FullSync -> hp_phase h = PChunks headers -> process_chunk h headers d = Ret (r, d') -> no_error r -> proc_effect h d r d'.
Proof.
  intros Hm Ep E Hne. unfold process_chunk in E. apply go_bind_Ret in E as (chunk & d1 & E1 & E). unfold glift in E1.
  destruct (all_headers _) as [hs| |] eqn:Ea; [|done..]. injection E1 as <- <-. rewrite bind_gget, decide_True in E by done. rewrite bind_mret in E. cbn [snd fst] in E.
  unfold pivot_matches in E. apply go_bind_Ret in E as (b & d2 & E2 & E). rewrite bind_gget, Hm in E2. injection E2 as <- <-. cbn [negb] in E. rewrite decide_False in E by (by rewrite Hm).
  injection E as <- <-. left. split; [done|]. split; [done|]. split; [by left|]. unfold proc_phase. rewrite Ep. cbn. do 2 (split; [done|]). split; [|done].
  apply all_headers_fmap in Ea. rewrite <- Ea. apply take_drop.
Qed.

Lemma schedule_effect h chunk rest (d : D) r d' : hp_phase h = PRoom chunk rest -> schedule_chunk h chunk rest d = Ret (r, d') -> no_error r -> proc_effect h d r d'.
Proof.
  intros Ep E Hne. unfold schedule_chunk in E. apply go_bind_Ret in E as (n & d1 & E1 & E). injection E1 as <- <-.
  apply go_bind_Ret in E as (m & d1 & E1 & E). injection E1 as <- <-. destruct (_ || _); [done|].
  apply go_bind_Ret in E as (ins & d1 & E1 & E). unfold in_queue, on_dl, on_queue in E1. fold (d_queue d) in E1.
  destruct (Schedule chunk (hp_origin h) (d_queue d)) as [[x q']| |] eqn:Es; [|done..]. injection E1 as -> <-.
  destruct (Nat.eqb_spec (length ins) (length chunk)) as [El|]; cbn [negb] in E; [|by apply finish_error in E].
  apply (proj2 (Schedule_all _ _ _ _ _ Es)) in El. subst ins. injection E as <- <-. right. exists chunk, rest, q'. do 4 (split; [done|]). split; [by intros []|done].
Qed.

Lemma hp_step_effect ev h (d : D) r d' : d_mode d = FullSync -> hp_step ev h d = Ret (r, d') -> no_error r -> proc_effect h d r d'.
Proof.
  intros Hm E Hne. unfold hp_step in E. rewrite bind_gget in E. destruct (hp_phase h) as [|[|x hs]|chunk rest|[|s ss]] eqn:Ep; destruct ev; try done.
  all: try (destruct (cancelled d); [by apply finish_error in E|done]).
  - destruct (headerProcCh d) as [|hs l] eqn:Ec; [done|]. rewrite bind_gmodify in E.
    destruct hs; injection E as <- <-; (left; split; [done|]; split; [done|]; split; [by left|]; unfold proc_phase; rewrite Ep; cbn; done).
  - apply go_bind_Ret in E as (u & d1 & E1 & E). apply go_bind_Ret in E as (u2 & d2 & E2 & E). injection E as <- <-.
    destruct (offer_wakes (SWake Bodies true) d ltac:(done) _ _ E1) as (A1 & A2 & A3). destruct (offer_wakes (SWake Receipts_ true) d1 ltac:(done) _ _ E2) as (B1 & B2 & B3).
    left. split; [congruence|]. split; [congruence|]. split; [intros k ?; auto|]. unfold proc_phase. rewrite Ep. done.
  - destruct (cancelled d); [by apply finish_error in E|]. by eapply chunk_effect.
  - by eapply schedule_effect.
  - apply go_bind_Ret in E as (b & d1 & E1 & E). apply looks_on_stalled in E1 as (A1 & A2 & A3 & A4). destruct b; [by apply finish_error in E|]. injection E as <- <-.
    left. split; [done|]. split; [done|]. split; [|by exists []]. intros k ?. left. by destruct k; cbn in *; rewrite <- ?A3, <- ?A4.
  - destruct (cancelled d); [|done]. injection E as <- <-. left. split; [done|]. split; [done|]. split; [by left|]. unfold proc_phase. rewrite Ep. done.
  - apply go_bind_Ret in E as (u & d1 & ->%send_run & E). injection E as <- <-. destruct (put_wakes s d) as (E1 & E2 & _).
    left. split; [done|]. split; [done|]. split; [intros k _; right; by rewrite Ep|]. unfold proc_phase. rewrite Ep. done.
Qed.


Lemma add_task_mode k h q q' : add_task k h q = Ret q' -> mode q' = mode q /\ closed q' = closed q.
Proof. unfold add_task. destruct (push_header _ _); cbn [mbind outcome_bind]; [|done..]. by intros [= <-]. Qed.

Lemma Schedule_mode hs : forall from q ins q', Schedule hs from q = Ret (ins, q') -> mode q' = mode q /\ closed q' = closed q.
Proof.
  induction hs as [|h hs IH]; intros from q ins q' E; cbn [Schedule] in E; [by injection E as _ <-|].
  destruct (Number h); [|by injection E as _ <-]. destruct (header_number h) as [n| |]; cbn [mbind outcome_bind] in E; [|done..].
  destruct (negb _); [by injection E as _ <-|]. destruct (_ && _); [by injection E as _ <-|].
  destruct (found _); [by apply IH in E|]. destruct (found _); [by apply IH in E|].
  destruct (add_task Bodies h q) as [q1| |] eqn:E1; cbn [mbind outcome_bind] in E; [|done..]. apply add_task_mode in E1 as [A1 A2].
  destruct (if fast_phase q n then _ else _) as [q2| |] eqn:E2; cbn [mbind outcome_bind] in E; [|done..].
  assert (mode q2 = mode q /\ closed q2 = closed q) as [B1 B2].
  { destruct (fast_phase q n); [apply add_task_mode in E2 as [-> ->]; done|by injection E2 as <-]. }
  destruct (Schedule hs _ _) as [[ins0 q0]| |] eqn:Es; cbn [mbind outcome_bind fst snd] in E; [|done..]. injection E as _ <-.
  apply IH in Es as [-> ->]. done.
Qed.

Lemma dq_first first sched out d : dq_run first sched out d -> 0 <= first.
Proof. induction 1; lia. Qed.

Lemma recv_ok_app first a b : recv_ok first (a ++ b) -> recv_ok first a.
Proof. intros [H1 H2]. apply Forall_app in H1 as [H1 _]. rewrite length_app in H2. split; [done|lia]. Qed.

Lemma sync_ok_proc first recv imp sched s h r d' : sync_ok first recv imp sched s -> s_hp s = inl h -> proc_effect h (s_d s) r d' -> no_error r ->
  let s' := mkSync d' (s_hf s) (s_bf s) (s_rf s) r (s_cp s) (s_left s) (s_result s) in recv_ok first (recv ++ received s s') ->
  exists sched', sync_ok first (recv ++ received s s') (imp ++ imported s s') sched' s'.
Proof.
  intros [H1 [H2 H2'] H3 H4 H5 H6 H7 HL H8 H9 H10] Eh Hp Hne s' Hrecv. rewrite (imported_same s s' eq_refl), app_nil_r. rewrite Eh in H3. destruct H3 as (O1 & O2 & O3).
  assert (Hnd : ~ others_done s) by (intros (_ & _ & _ & E); by rewrite Eh in E).
  assert (Hnc : match s_cp s with inl (CFast _ _ _) => False | inr _ => False | _ => True end) by (destruct (s_cp s) as [[]|]; tauto).
  assert (Hover : proc_over s <-> match hp_phase h with PEnd _ => True | _ => False end) by (unfold proc_over; by rewrite Eh).
  destruct Hp as [(E1 & E2 & E3 & E4)|(chunk & rest & q' & Ep & Es & E1 & E2 & E3 & ->)].
  - exists sched. assert (Eq : d_queue d' = d_queue (s_d s)) by (unfold d_queue; by rewrite E1).
    assert (Hpo : proc_over s -> proc_over s').
    { intros Ho%Hover. unfold proc_over. cbn. destruct r as [h'|]; [|done]. destruct E4 as (_ & _ & _ & E4). by destruct (hp_phase h). }
    split; cbn [s_d s_hp s_cp s_left s_result s']; try done.
    + by rewrite E1.
    + rewrite Eq. split; congruence.
    + unfold received, s'. cbn. rewrite Eh. destruct r as [h'|].
      * destruct E4 as (A1 & A2 & A3 & A4). cbn. rewrite A1, A2, O2. split; [done|]. split; [|done]. unfold proc_phase at 1. destruct (hp_phase h) eqn:Ep; rewrite ?app_nil_r; rewrite ?A3; unfold proc_phase; rewrite ?Ep; cbn; rewrite ?app_nil_r; done.
      * destruct E4 as [ss Ep]. cbn. rewrite app_nil_r, O2. unfold proc_phase. rewrite Ep. by rewrite app_nil_r.
    + destruct (s_cp s) as [[]|]; done.
    + intros k Hk. assert (Hk' : signalled k s \/ proc_over s).
      { destruct Hk as [Hk|Hk]; [left; left; by destruct k|]. destruct (E3 k Hk) as [?|?]; [left; by right|right; tauto]. }
      destruct Hk' as [Hk'|Hk']; [|auto]. destruct (H6 k Hk'); auto.
    + intros k Hk. destruct (H7 k) as [?|[? ?]]; [by destruct k|auto|]. right. rewrite Eq. auto.
    + intros k Hk. rewrite Eq. apply HL. by destruct k.
    + rewrite Eq. intros Hc%H8. tauto.
    + intros j Hj. pose proof (H9 j Hj) as Hjr. destruct j; cbn in *; try done. by rewrite Eh in Hjr.
  - exists (sched ++ chunk). assert (Hnp : ~ proc_over s) by (rewrite Hover, Ep; tauto).
    assert (Erec : received s s' = []) by (unfold received, s'; cbn; by rewrite Eh, Ep). rewrite Erec, app_nil_r in *.
    unfold proc_phase in O2. rewrite Ep in O2. destruct Hrecv as [Hnn Hb]. rewrite O2 in Hnn, Hb. apply Forall_app in Hnn as [_ Hnn]. apply Forall_app in Hnn as [Hnn _].
    rewrite !length_app, !length_fmap in Hb. rewrite O1 in Es.
    assert (Eq : d_queue d' = q') by (unfold d_queue; by rewrite E1).
    split; cbn [s_d s_hp s_cp s_left s_result s']; try done.
    + rewrite E1. apply (run_schedule first chunk chunk sched _ (d_dl (s_d s)) q'); [exact H1| |lia|done]. apply Forall_fmap in Hnn. eapply Forall_impl; [exact Hnn|]. intros x Hx. by apply Hx.
    + rewrite Eq. split; [congruence|]. apply Schedule_mode in Es as [-> _]. done.
    + cbn. rewrite O1, length_app, u64_small by (unfold is_u64, MaxUint64; pose proof (dq_first _ _ _ _ H1); lia). split; [lia|]. split; [|done]. unfold proc_phase. cbn. by rewrite O2, fmap_app, app_assoc.
    + destruct (s_cp s) as [[]|]; done.
    + intros k Hk. right. assert (Hk' : signalled k s) by (destruct Hk as [Hk|Hk]; [left; by destruct k|right; cbn in Hk; by rewrite E3 in Hk]). by destruct (H6 k Hk').
    + intros k Hk. destruct (H7 k) as [?|[? ?]]; [by destruct k|auto|done].
    + intros k Hk. left. assert (Hk' : last_test k s) by (by destruct k). destruct (H6 k) as [?|?]; [|done..]. left. unfold last_test in Hk'.
      destruct (fetcher k s); [apply Hk'|done].
    + rewrite Eq. apply Schedule_mode in Es as [_ ->]. intros Hc%H8. tauto.
    + intros j Hj. pose proof (H9 j Hj) as Hjr. destruct j; cbn in *; try done. by rewrite Eh in Hjr.
Qed.


Lemma looks_on_import results : looks_on (import_batch results).
Proof.
  apply looks_on_bind; [apply looks_on_gget|]. intros d. destruct (quitCh d); [apply looks_on_ret|]. apply looks_on_bind.
  - apply looks_on_bind; [apply looks_on_gget|]. intros d1. apply looks_on_bind; [|intros; apply looks_on_ret].
    destruct (d_mode d1); (apply looks_on_bind; [apply looks_on_chain|]); intros; apply looks_on_glift.
  - intros pr. apply looks_on_bind; [apply looks_on_chain|]. intros [[i e]|]; [|apply looks_on_ret]. apply looks_on_bind; [|intros; apply looks_on_ret].
    unfold failed_at. destruct (_ || _); [by intros ? ? ?|apply looks_on_ret].
Qed.

Lemma import_batch_rest results (d : D) r d' : import_batch results d = Ret (inl r, d') -> r = drop (Nat.min (length results) maxResultsProcess) results.
Proof.
  unfold import_batch. rewrite bind_gget. destruct (quitCh d); [done|]. intros (p & d1 & _ & E)%go_bind_Ret. apply go_bind_Ret in E as (x & d2 & _ & E).
  destruct x as [[i e]|]; [|by injection E as <- _]. by apply go_bind_Ret in E as (u & d3 & _ & E).
Qed.

(** What a turn of the content processor does in a full synchronization. *)
Definition content_effect (ph : ContentPhase) (d : D) (r : task ContentPhase) (d' : D) : Prop :=
  d_mode d' = d_mode d /\ (forall k, wakes k d' = wakes k d) /\
  match ph with
  | CWait => exists results q', WaitResults (d_queue d) = Ret (Some (results, q')) /\ d_dl d' = mkDl q' (d_peers d) /\
      r = match results with [] => inr None | _ => inl (CImport results) end
  | CImport l => d_dl d' = d_dl d /\ match l with [] => r = inl CWait | _ => exists n, r = inl (CImport (drop n l)) end
  | CFast _ _ _ => True
  end.

Lemma content_step_effect st ph (d : D) r d' : d_mode d = FullSync -> content_step st ph d = Ret (r, d') -> no_error r -> content_effect ph d r d'.
Proof.
  intros Hm E Hne. unfold content_step in E. rewrite bind_gget in E. destruct ph as [|[|x l]|before p after]; cbn [content_effect].
  - apply go_bind_Ret in E as (o & d1 & E1 & E). unfold glift in E1. destruct (WaitResults (d_queue d)) as [o'| |] eqn:Ew; [|done..]. injection E1 as <- <-.
    destruct o' as [[results q']|]; [|done]. apply go_bind_Ret in E as (u & d1 & E1 & E). injection E1 as _ <-. rewrite Hm in E.
    assert (r = match results with [] => inr None | _ => inl (CImport results) end /\ d' = set_dl (mkDl q' (dl_peers (d_dl d))) d) as [-> ->] by (by destruct results; injection E as <- <-).
    split; [done|]. split; [by intros []|]. by exists results, q'.
  - injection E as <- <-. done.
  - apply go_bind_Ret in E as (o & d1 & E1 & E). pose proof (looks_on_import _ _ _ _ E1) as (A1 & A2 & A3 & A4). destruct o as [rest|e]; injection E as <- <-; [|done].
    apply import_batch_rest in E1. subst rest. split; [done|]. split; [by intros []|]. split; [done|]. eauto.
  - assert (d_mode d' = d_mode d /\ forall k, wakes k d' = wakes k d) as [? ?]; [|done].
    revert E. enough (looks_on (content_step st (CFast before p after))) as Hl; [intros E; destruct (Hl d r d') as (_ & ? & ? & ?); [by unfold content_step; rewrite bind_gget|]; split; [done|by intros []]|].
    apply looks_on_bind; [apply looks_on_gget|]. intros d0. destruct before as [|x l]; [destruct p as [p|]; [|apply looks_on_ret]|].
    + apply looks_on_bind; [|intros []; apply looks_on_ret]. unfold commitPivotBlock. destruct (mjoin st); [apply looks_on_ret|]. apply looks_on_bind; [apply looks_on_chain|].
      intros []; [apply looks_on_ret|]. apply looks_on_bind; [apply looks_on_chain|]. intros; apply looks_on_ret.
    + apply looks_on_bind; [|intros []; apply looks_on_ret]. apply looks_on_bind; [apply looks_on_gget|]. intros d1. assert (Hl : forall l, looks_on (commit_items l)).
      { intros y. apply looks_on_bind; [apply looks_on_chain|]. intros [[]|]; [|apply looks_on_ret]. apply looks_on_bind; [|intros; apply looks_on_ret].
        unfold failed_at. destruct (_ || _); [by intros ? ? ?|apply looks_on_ret]. }
      destruct st as [[]|], (quitCh d1); try apply looks_on_ret; apply Hl.
Qed.

(** Results leave the tasks alone. *)
Lemma WaitResults_tasks q results q' : WaitResults q = Ret (Some (results, q')) ->
  mode q' = mode q /\ closed q' = closed q /\ (forall k, drained k q -> drained k q') /\ (forall k, PendingContent k q' = PendingContent k q).
Proof.
  unfold WaitResults. destruct (countProcessableItems q) as [n| |]; cbn [mbind outcome_bind]; [|done..].
  destruct (Z.eqb_spec (Z.of_nat n) 0) as [En|En]; cbn [andb].
  - destruct (closed q) eqn:Ec; cbn [negb]; [|done]. by intros [= <- <-].
  - intros [= <- <-]. split; [done|]. split; [done|]. split; [intros k [Hp He]|intros k]; by destruct k.
Qed.

(** Nothing comes out when no task is left: all was handed out. *)
Lemma drained_out first sched out d q' : dq_run first sched out d -> mode (dl_queue d) = FullSync -> (forall k, drained k (dl_queue d)) ->
  WaitResults (dl_queue d) = Ret (Some ([], q')) -> length out = length sched.
Proof.
  intros [H1 H2 H3 H4 H5 H6 H7 H8]%dq_run_ok Hm Hd Ew. destruct (decide (drop (length out) sched = [])) as [E|Hne].
  - apply (f_equal length) in E. rewrite length_drop in E. cbn in E. lia.
  - exfalso. destruct (drained_core _ _ H1) as (results & q2 & E & Eh); [|by rewrite Hm|done|rewrite Ew in E; injection E as <- _; by destruct (drop _ _)].
    intros k. destruct (Hd k) as [Hp He]. destruct (c_split _ _ _ H1 k) as (hs & Hh & Hperm). unfold PendingContent in Hp. rewrite (holds_size _ _ Hh) in Hp.
    destruct hs; [|cbn in Hp; lia]. unfold flying in Hperm. rewrite He, map_to_list_empty in Hperm. by apply Permutation_nil in Hperm.
Qed.

Lemma sync_ok_cp first recv imp sched s ph r d' : sync_ok first recv imp sched s -> s_cp s = inl ph -> content_effect ph (s_d s) r d' -> no_error r ->
  let s' := mkSync d' (s_hf s) (s_bf s) (s_rf s) (s_hp s) r (s_left s) (s_result s) in
  sync_ok first (recv ++ received s s') (imp ++ imported s s') sched s'.
Proof.
  intros [H1 [H2 H2'] H3 H4 H5 H6 H7 HL H8 H9 H10] Ec (E1 & E2 & E3) Hne s'. rewrite (received_same s s' eq_refl), app_nil_r.
  assert (Hsig : forall k, signalled k s' -> signalled k s) by (intros k [?|Hk]; [left; by destruct k|right; cbn in Hk; by rewrite E2 in Hk]).
  assert (Hjob : forall j, j ∉ s_left s' -> job_result j s' = Some None) by (intros j Hj; pose proof (H9 j Hj) as Hx; destruct j; cbn in *; try done; by rewrite Ec in Hx).
  rewrite Ec in H1, H4. destruct ph as [|l|]; [| |done].
  - destruct E3 as (results & q' & Ew & Ed & ->). destruct (WaitResults_tasks _ _ _ Ew) as (A1 & A2 & A3 & A4). assert (Eq : d_queue d' = q') by (unfold d_queue; by rewrite Ed).
    assert (Eimp : imported s s' = []) by (unfold imported, s'; cbn; by rewrite Ec). rewrite Eimp, app_nil_r. cbn [content_left] in H1. rewrite app_nil_r in H1.
    assert (Hrun : dq_run first sched (imp ++ results) (d_dl d')) by (rewrite Ed; by eapply run_results).
    split; cbn [s_d s_hp s_cp s_left s_result s']; rewrite ?Eq; try done.
    + by destruct results.
    + split; congruence.
    + destruct results as [|x l]; [|done]. pose proof (dq_core _ _ _ _ (dq_run_ok _ _ _ _ H1)) as Hc.
      destruct (WaitResults_run _ _ Hc) as (o & Eo & Ho). change (dl_queue (d_dl (s_d s))) with (d_queue (s_d s)) in Eo. rewrite Ew in Eo. injection Eo as <-.
      assert (Hcl : closed (d_queue (s_d s)) = true) by (by apply Ho). pose proof (H8 Hcl) as (B1 & B2 & B3 & B4). split; [done|].
      apply (drained_out _ _ _ _ q' H1 H2'); [|done]. intros k. destruct (H7 k) as [Hg|[_ ?]]; [by destruct k| |done]. unfold giving_up in Hg. by rewrite B1 in Hg.
    + intros k Hk. apply (H6 k), (Hsig k), Hk.
    + intros k Hk. destruct (H7 k) as [?|[? ?]]; [by destruct k|auto|]. right. auto.
    + intros k Hk. rewrite A4. apply HL. by destruct k.
    + by rewrite A2.
  - destruct E3 as [Ed E3]. assert (Eq : d_queue d' = d_queue (s_d s)) by (unfold d_queue; by rewrite Ed).
    assert (Eout : (imp ++ imported s s') ++ content_left r = imp ++ l /\ match r with inl (CFast _ _ _) | inr _ => False | _ => True end).
    { unfold imported, s'. cbn. rewrite Ec. destruct l as [|x l]; [subst r; by rewrite !app_nil_r|]. destruct E3 as [n ->]. cbn [content_left]. split; [|done].
      rewrite <- app_assoc. f_equal. rewrite length_drop. destruct (decide (n <= length (x :: l))%nat).
      - replace (length (x :: l) - (length (x :: l) - n))%nat with n by lia. apply take_drop.
      - rewrite (drop_ge _ n) by lia. rewrite app_nil_r. apply take_ge. lia. }
    destruct Eout as [Eout Hr]. split; cbn [s_d s_hp s_cp s_left s_result s']; rewrite ?Eq; try done.
    + rewrite Eout, Ed. done.
    + split; congruence.
    + destruct r as [[]|]; done.
    + intros k Hk. apply (H6 k), (Hsig k), Hk.
Qed.

Lemma after_result_run over left_ (d : D) u d' : after_result over left_ d = Ret (u, d') -> (over = true -> left_ = []) ->
  d_mode d' = d_mode d /\ (forall k, wakes k d' = wakes k d) /\
  (d_dl d' = d_dl d \/ (d_dl d' = mkDl (Close (d_queue d)) (d_peers d) /\ exists x, forall y, y ∈ left_ -> y = x)).
Proof.
  unfold after_result. destruct over; intros E Ho.
  - rewrite (Ho eq_refl). apply go_bind_Ret in E as (u1 & d1 & E1 & E2). injection E1 as _ <-. injection E2 as _ <-.
    destruct (cancelCh _); (split; [done|]; split; [by intros []|]; right; split; [done|]; exists JHeaders; by intros y ?%elem_of_nil).
  - destruct left_ as [|x [|x2 l]]; injection E as _ <-; (split; [done|]; split; [by intros []|]); [by left| |by left].
    right. split; [done|]. exists x. by intros y ?%list_elem_of_singleton.
Qed.

(** All goroutines but one have ended: those that feed the content processor have. *)
Lemma all_but_one s x : (forall y, y <> x -> job_result y s = Some None) -> (forall e, s_cp s = inr e -> others_done s) -> others_done s.
Proof.
  intros Hx Hc. destruct (decide (x = JContent)) as [->|Hne].
  - pose proof (Hx JHeaders ltac:(done)) as B1. pose proof (Hx JBodies ltac:(done)) as B2. pose proof (Hx JReceipts ltac:(done)) as B3. pose proof (Hx JProc ltac:(done)) as B4.
    unfold others_done. cbn in *. destruct (s_hf s), (s_bf s), (s_rf s), (s_hp s); by simplify_eq.
  - pose proof (Hx JContent ltac:(congruence)) as B. cbn in B. destruct (s_cp s); [done|]. eauto.
Qed.

Lemma healthy_result s j e : healthy s -> job_result j s = Some e -> e = None.
Proof.
  intros (G1 & G2 & G3 & G4 & G5) Ej. destruct e; [|done].
  destruct j; cbn in Ej; [destruct (s_hf s)|destruct (s_bf s)|destruct (s_rf s)|destruct (s_hp s)|destruct (s_cp s)]; by simplify_eq.
Qed.

Lemma sync_ok_collect first recv imp sched s s' j : sync_ok first recv imp sched s -> healthy s -> collect j s = Ret s' ->
  sync_ok first (recv ++ received s s') (imp ++ imported s s') sched s'.
Proof.
  intros [H1 [H2 H2'] H3 H4 H5 H6 H7 HL H8 H9 H10] Hh E. unfold collect in E. destruct (job_result j s) as [e|] eqn:Ej; [|done].
  pose proof (healthy_result _ _ _ Hh Ej) as ->. destruct (s_result s) eqn:Er; [done|]. destruct (decide (j ∈ s_left s)) as [Hj|]; [|done].
  set (left_ := filter (fun x => x <> j) (s_left s)) in *. set (over := match left_ with _ :: _ => false | _ => true end) in *.
  destruct (after_result over left_ (s_d s)) as [[u d']| |] eqn:Ed; cbn [mbind outcome_bind snd fst] in E; [|done..]. injection E as <-.
  rewrite received_same, imported_same, !app_nil_r by done.
  assert (Hjobs : forall x, x ∉ left_ -> job_result x s = Some None).
  { intros x Hx. destruct (decide (x = j)) as [->|Hne]; [done|]. apply H9. intros Hin. apply Hx. by apply list_elem_of_filter. }
  apply after_result_run in Ed as (Hm & Hw & Hd); [|unfold over; by destruct left_].
  assert (Hq : same_content (d_queue (s_d s)) (d_queue d')) by (unfold d_queue; destruct Hd as [->|[-> _]]; done).
  assert (Hdr : forall k, drained k (d_queue (s_d s)) -> drained k (d_queue d')) by (unfold d_queue; destruct Hd as [->|[-> _]]; done).
  split; cbn [s_d s_hp s_cp s_left s_result]; try done.
  - destruct Hd as [->|[-> _]]; [done|]. by apply run_headers.
  - destruct Hq as (E1 & _). split; congruence.
  - intros k [Hk|Hk]; [apply (H6 k); left; by destruct k|]. cbn in Hk. rewrite Hw in Hk. apply (H6 k). by right.
  - intros k Hk. destruct (H7 k) as [?|[? ?]]; [by destruct k|auto|auto].
  - intros k Hk. assert (Et : PendingContent k (d_queue d') = PendingContent k (d_queue (s_d s))) by (unfold d_queue; by destruct Hd as [->|[-> _]]).
    rewrite Et. apply HL. by destruct k.
  - intros Hc. destruct Hd as [Ed'|[Ed' (x & Hx)]]; [apply H8; unfold d_queue in *; by rewrite <- Ed'|].
    change (others_done s). apply (all_but_one s x); [intros y Hy; apply Hjobs; intros Hin; by apply Hx in Hin|]. intros e Ec. rewrite Ec in H4. apply H4.
  - intros Hx. unfold over in Hx. by destruct left_.
Qed.

(** ** The start *)

(** Turns that send requests and read the chain. *)
Definition asks {A : Type} (m : go D A) : Prop :=
  forall d a d', m d = Ret (a, d') -> d_queue d' = d_queue d /\ d_mode d' = d_mode d /\ (forall k, wakes k d' = wakes k d) /\ headerProcCh d' = headerProcCh d.

Lemma asks_bind {A B : Type} (m : go D A) (f : A -> go D B) : asks m -> (forall a, asks (f a)) -> asks (m ≫= f).
Proof.
  intros Hm Hf d b d' (a & d1 & (A1 & A2 & A3 & A4)%Hm & (B1 & B2 & B3 & B4)%Hf)%go_bind_Ret. rewrite B1, B2, B4. do 2 (split; [done|]). split; [|done]. intros k. by rewrite B3.
Qed.

Lemma asks_ret {A : Type} (a : A) : asks (mret a).
Proof. by intros d x d' [= _ <-]. Qed.

Lemma asks_gget : asks gget.
Proof. by intros d x d' [= _ <-]. Qed.

Lemma asks_glift {A : Type} (o : outcome A) : asks (glift o).
Proof. intros d a d' E. unfold glift in E. destruct o; [|done..]. by injection E as _ <-. Qed.

Lemma asks_chain {A : Type} (m : go C A) : asks (on_chain m).
Proof. intros d a d' E. unfold on_chain in E. destruct (m (d_chain d)) as [[a' c]| |]; [|done..]. injection E as _ <-. do 2 (split; [done|]). split; [by intros []|done]. Qed.

Lemma asks_peers {A : Type} (m : go peerSet A) : asks (on_dl (on_peers m)).
Proof.
  intros d a d' E. unfold on_dl, on_peers in E. destruct (m (dl_peers (d_dl d))) as [[a' c]| |]; [|done..]. injection E as _ <-. do 2 (split; [done|]). split; [by intros []|done].
Qed.

Lemma asks_peer_id p : asks (peer_id p).
Proof. apply asks_bind; [apply asks_peers|]. intros c. apply asks_ret. Qed.

Lemma asks_known h : asks (known h).
Proof.
  apply asks_bind; [apply asks_gget|]. intros d. destruct (d_mode d); [apply asks_chain|..]; (apply asks_bind; [apply asks_glift|]); intros n; apply asks_chain.
Qed.

Lemma asks_local_top : asks local_top.
Proof.
  apply asks_bind; [apply asks_chain|]. intros h. apply asks_bind; [apply asks_glift|]. intros ceil. apply asks_bind; [apply asks_gget|]. intros d.
  destruct (d_mode d); [apply asks_bind; [apply asks_chain|intros b; apply asks_glift]..|apply asks_ret].
Qed.

Lemma asks_last_known from ceil height limit : forall l i, asks (last_known from ceil height limit i l).
Proof.
  induction l as [|h l IH]; intros i; cbn [last_known]; [apply asks_ret|]. apply asks_bind; [apply asks_glift|]. intros a. apply asks_bind; [apply asks_glift|]. intros n.
  destruct (_ || _); [apply IH|]. apply asks_bind; [apply asks_known|]. intros []; [|apply IH]. destruct (_ && _); apply asks_ret.
Qed.

Lemma asks_search p id arrivals fuel : forall k start end_, asks (search fuel p id arrivals k start end_).
Proof.
  induction fuel as [|fuel IH]; intros k start end_; cbn [search]; destruct (_ <? _); try apply asks_ret; [by intros d a d'|].
  apply asks_bind; [apply asks_peers|]. intros _. apply asks_bind; [apply asks_glift|]. intros [[|h [|h2 l]]|e]; try apply asks_ret.
  apply asks_bind; [apply asks_known|]. intros []; [|apply IH]. apply asks_bind; [apply asks_chain|]. intros [x|]; [|by intros d a d'].
  apply asks_bind; [apply asks_glift|]. intros n. destruct (negb _); [apply asks_ret|apply IH].
Qed.

Lemma asks_findAncestor p height arrivals : asks (findAncestor p height arrivals).
Proof.
  apply asks_bind; [apply asks_local_top|]. intros ceil. destruct (head_request ceil height) as [[[head from] limit] count].
  apply asks_bind; [apply asks_peers|]. intros _. apply asks_bind; [apply asks_peer_id|]. intros id. apply asks_bind; [apply asks_glift|].
  intros [[|h l]|e]; try apply asks_ret. apply asks_bind; [apply asks_glift|]. intros ok. destruct (negb ok); [apply asks_ret|].
  apply asks_bind; [apply asks_last_known|]. intros [o|e]; [|apply asks_ret]. destruct (match o with Some _ => _ | None => _ end); [apply asks_ret|].
  apply asks_bind; [apply asks_search|]. intros []; apply asks_ret.
Qed.

Lemma asks_fetchHeight p head heights : asks (fetchHeight p head heights).
Proof.
  apply asks_bind; [apply asks_peers|]. intros _. apply asks_bind; [apply asks_peer_id|]. intros id. apply asks_bind; [apply asks_glift|].
  intros [[|h [|h2 l]]|e]; apply asks_ret.
Qed.

(** What [synchronise] leaves. *)
Lemma synchronise_run id m (d : D) p d1 : synchronise id m d = Ret (inl p, d1) -> (length (bodyWakeCh d) <= 1)%nat -> (length (receiptWakeCh d) <= 1)%nat ->
  d_queue d1 = q_Reset (d_queue d) /\ (forall k, wakes k d1 = []) /\ headerProcCh d1 = [] /\ d_peers d1 = ps_Reset (d_peers d) /\ peers (d_peers d1) !! id = Some p.
Proof.
  unfold synchronise. rewrite bind_gget. destruct (negb _); [done|]. rewrite !bind_gmodify, bind_gget. intros E Hb Hr.
  destruct (ps_Peer _ _) as [p'|] eqn:Ep; [|done]. injection E as -> <-. split; [done|]. split; [|done].
  intros []; cbn; by apply drop_ge.
Qed.

(** What [syncWithPeer] starts with. *)
Lemma syncWithPeer_run p head td random heights arrivals (d : D) s d2 : syncWithPeer p head td random heights arrivals d = Ret (inl s, d2) ->
  exists first pivot hf hp ps, d_dl (s_d s) = mkDl (Prepare first (d_mode d) pivot (d_queue d)) ps /\ d_mode (s_d s) = d_mode d /\
    (forall k, wakes k (s_d s) = wakes k d) /\ headerProcCh (s_d s) = headerProcCh d /\ 0 <= first /\
    hf = mkHF p first true HWait /\ hp = mkHP first pivot td [] false PWait /\
    s = mkSync (s_d s) (inl hf) (inl (newFetcher (FContent Bodies))) (inl (newFetcher (FContent Receipts_))) (inl hp)
          (if decide (d_mode d = LightSync) then inr None else inl CWait)
          ([JHeaders; JBodies; JReceipts; JProc] ++ if decide (d_mode d = LightSync) then [] else [JContent]) None.
Proof.
  unfold syncWithPeer. intros (c & d1 & E1 & E)%go_bind_Ret. apply asks_peers in E1. destruct (_ <? 62); [done|].
  apply go_bind_Ret in E as ([latest|e] & d3 & E3 & E); [|done]. apply asks_fetchHeight in E3. apply go_bind_Ret in E as (height & d4 & E4 & E). apply asks_glift in E4.
  apply go_bind_Ret in E as ([origin|e] & d5 & E5 & E); [|done]. apply asks_findAncestor in E5. rewrite bind_gmodify, bind_gget in E.
  apply go_bind_Ret in E as ([pivot origin'] & d6 & E6 & E). unfold glift in E6. destruct (choose_pivot _ _ _ _ _) as [po| |]; [|done..]. injection E6 as -> <-. cbn [fst snd] in E.
  apply go_bind_Ret in E as (u & d7 & E7 & E). injection E7 as _ <-. apply go_bind_Ret in E as (hf & d8 & E8 & E). apply go_bind_Ret in E8 as (u2 & d9 & E9 & E8). injection E8 as <- <-.
  apply go_bind_Ret in E as (hp & d10 & E10 & E). unfold hp_start in E10. apply go_bind_Ret in E10 as (pv & d11 & E11 & E10). injection E11 as <- <-. injection E10 as <- <-.
  rewrite bind_gget in E. injection E as <- _. unfold request, on_dl, on_peers in E9. cbn [d_dl set_dl gmodify] in E9. injection E9 as _ <-.
  destruct E1 as (A1 & A2 & A3 & A4), E3 as (B1 & B2 & B3 & B4), E4 as (C1 & C2 & C3 & C4), E5 as (D1 & D2 & D3 & D4).
  assert (Em : d_mode d5 = d_mode d) by congruence. assert (Eq : d_queue d5 = d_queue d) by congruence.
  eexists (u64 (origin' + 1)), pivot, _, _, _. cbn [s_d]. split; [cbn; fold (d_queue d5); by rewrite Em, Eq|]. split; [done|].
  split; [intros k; rewrite <- A3, <- B3, <- C3, <- D3; by destruct k|]. split; [cbn; congruence|]. split; [pose proof (u64_range (origin' + 1)) as Hu; unfold is_u64 in Hu; lia|].
  split; [done|]. split; [done|]. cbn [d_mode set_dl set_stats]. rewrite Em. done.
Qed.

Lemma sync_ok_start first id m p head td random heights arrivals (d d1 d2 : D) s h :
  (length (bodyWakeCh d) <= 1)%nat -> (length (receiptWakeCh d) <= 1)%nat -> synchronise id m d = Ret (inl p, d1) ->
  syncWithPeer p head td random heights arrivals d1 = Ret (inl s, d2) -> d_mode d1 = FullSync -> s_hf s = inl h -> hf_from h = first ->
  first < 9223372036854775808 -> sync_ok first [] [] [] s.
Proof.
  intros Hb Hr E1 E2 Hm Eh Ef Hlt. destruct (synchronise_run _ _ _ _ _ E1 Hb Hr) as (Q1 & Q2 & Q3 & Q4 & Q5).
  destruct (syncWithPeer_run _ _ _ _ _ _ _ _ _ E2) as (first' & pivot & hf & hp & ps & F1 & F2 & F3 & F4 & F5 & F6 & F7 & F8).
  rewrite Hm in *. rewrite !decide_False in F8 by done.
  rewrite F8 in Eh |- *. cbn in Eh. injection Eh as <-. rewrite F6 in Ef. cbn in Ef. subst first'.
  assert (Hw : forall k, wakes k (s_d s) = []) by (intros k; by rewrite F3).
  assert (Hq : d_queue (s_d s) = Prepare first FullSync pivot (q_Reset (d_queue d))) by (unfold d_queue at 1; by rewrite F1, Q1).
  split; cbn [s_d s_hf s_bf s_rf s_hp s_cp s_left s_result].
  - rewrite F1, Q1. by apply (run_prepare first FullSync pivot (mkDl (d_queue d) ps)).
  - by rewrite Hq.
  - rewrite F7. split; [cbn; lia|done].
  - done.
  - split; [by intros [] f [= <-]|]. intros h f [= <-]. by rewrite F6.
  - intros k [Hk|Hk]; [by destruct k|]. cbn in Hk. rewrite Hw in Hk. by apply elem_of_nil in Hk.
  - by intros [].
  - by intros [] [? ?].
  - by rewrite Hq.
  - intros j Hj. exfalso. apply Hj. destruct j; cbn; set_solver.
  - done.
Qed.


(** ** Runs without errors *)

Lemma turn_back {A : Type} (step : A -> go D (task A)) t d r d' : turn step t d = Ret (r, d') -> exists a, t = inl a /\ step a d = Ret (r, d').
Proof. destruct t; cbn; [eauto|done]. Qed.

Lemma sync_step_ok first recv imp sched ev s s' : sync_ok first recv imp sched s -> event_ok ev -> sync_step ev s = Ret s' -> undisturbed s s' -> healthy s' ->
  recv_ok first (recv ++ received s s') -> exists sched', sync_ok first (recv ++ received s s') (imp ++ imported s s') sched' s'.
Proof.
  intros Hs Hev E Hu Hh Hrecv. destruct (so_what _ _ _ _ _ Hs) as [Hw Hw']. destruct Hh as (G1 & G2 & G3 & G4 & G5).
  destruct ev as [ev|ev|ev|ev|st|j| |id v|id|]; cbn [sync_step] in E.
  - destruct (turn _ _ _) as [[r d']| |] eqn:Et; cbn [mbind outcome_bind] in E; [|done..]. injection E as <-. apply turn_back in Et as (h & Eh & Et).
    exists sched. eapply sync_ok_headers; [done|exact Eh| |done|done]. eapply hf_step_effect; [|done|done|done]. intros f Hf. by eapply Hw'.
  - destruct (turn _ _ _) as [[r d']| |] eqn:Et; cbn [mbind outcome_bind] in E; [|done..]. injection E as <-. apply turn_back in Et as (f & Ef & Et).
    exists sched. eapply (sync_ok_content_fetch Bodies); [done|exact Ef| |done|done]. eapply fetch_step_effect; [by apply (Hw Bodies)|done|done|done].
  - destruct (turn _ _ _) as [[r d']| |] eqn:Et; cbn [mbind outcome_bind] in E; [|done..]. injection E as <-. apply turn_back in Et as (f & Ef & Et).
    exists sched. eapply (sync_ok_content_fetch Receipts_); [done|exact Ef| |done|done]. eapply fetch_step_effect; [by apply (Hw Receipts_)|done|done|done].
  - destruct (turn _ _ _) as [[r d']| |] eqn:Et; cbn [mbind outcome_bind] in E; [|done..]. injection E as <-. apply turn_back in Et as (h & Eh & Et).
    eapply sync_ok_proc; [done|exact Eh| |done|done]. eapply hp_step_effect; [apply Hs|done|done].
  - destruct (turn _ _ _) as [[r d']| |] eqn:Et; cbn [mbind outcome_bind] in E; [|done..]. injection E as <-. apply turn_back in Et as (ph & Ep & Et).
    exists sched. eapply sync_ok_cp; [done|exact Ep| |done]. eapply content_step_effect; [apply Hs|done|done].
  - exists sched. eapply sync_ok_collect; [done| |done]. assert (Es : s_hf s' = s_hf s /\ s_bf s' = s_bf s /\ s_rf s' = s_rf s /\ s_hp s' = s_hp s /\ s_cp s' = s_cp s).
    { unfold collect in E. destruct (job_result j s); [|done]. destruct (s_result s); [done|]. destruct (decide _); [|done].
      destruct (after_result _ _ _); cbn [mbind outcome_bind] in E; [|done..]. by injection E as <-. }
    destruct Es as (E1 & E2 & E3 & E4 & E5). unfold healthy. by rewrite <- E1, <- E2, <- E3, <- E4, <- E5.
  - exists sched. injection E as <-. apply sync_ok_quiet; [done| |done]. intros w. exact (moves_Cancel w (s_d s) tt _ eq_refl).
  - exists sched. destruct (runPeer _ _ _) as [[r d']| |] eqn:Et; cbn [mbind outcome_bind] in E; [|done..]. injection E as <-. apply sync_ok_quiet; [done| |done]. intros w. by apply (moves_runPeer w) in Et.
  - exists sched. destruct (dropPeer _ _) as [[r d']| |] eqn:Et; cbn [mbind outcome_bind] in E; [|done..]. injection E as <-. apply sync_ok_quiet; [done| |done]. intros w. by apply (moves_dropPeer w) in Et.
  - by rewrite decide_False in E by (by rewrite (proj1 (so_mode _ _ _ _ _ Hs))).
Qed.

(** A goroutine that has failed stays so. *)
Lemma healthy_back ev (s s' : Sync (C := C)) : sync_step ev s = Ret s' -> healthy s' -> healthy s.
Proof.
  intros E. destruct ev as [ev|ev|ev|ev|st|j| |id v|id|]; cbn [sync_step] in E.
  1-5: destruct (turn _ _ _) as [[r d']| |] eqn:Et; cbn [mbind outcome_bind] in E; [|done..]; injection E as <-; apply turn_back in Et as (x & Ex & _);
    unfold healthy; cbn; rewrite Ex; cbn; tauto.
  - unfold collect in E. destruct (job_result j s); [|done]. destruct (s_result s); [done|]. destruct (decide _); [|done].
    destruct (after_result _ _ _); cbn [mbind outcome_bind] in E; [|done..]. by injection E as <-.
  - by injection E as <-.
  - destruct (runPeer _ _ _); cbn [mbind outcome_bind] in E; [|done..]. by injection E as <-.
  - destruct (dropPeer _ _); cbn [mbind outcome_bind] in E; [|done..]. by injection E as <-.
  - destruct (decide _); [|done]. by injection E as <-.
Qed.

Lemma sync_run_ok first recv imp s : sync_run FullSync first recv imp s -> healthy s -> recv_ok first recv -> exists sched, sync_ok first recv imp sched s.
Proof.
  induction 1 as [id m p head td random heights arrivals d d1 d2 s h Hb Hr Hn E1 E2 Hm Eh Ef Hlt|ev recv imp s s' Hrun IH Hev E Hu].
  - intros _ _. exists []. by eapply sync_ok_start.
  - intros Hh Hrecv. destruct (IH (healthy_back _ _ _ E Hh) (recv_ok_app _ _ _ Hrecv)) as [sched Hs]. by eapply sync_step_ok.
Qed.

(** Results are final, and [spawnSync] has seen those it does not wait for. *)
Lemma job_final ev (s s' : Sync (C := C)) j e : sync_step ev s = Ret s' -> job_result j s = Some e -> job_result j s' = Some e.
Proof.
  intros E Hj. destruct ev as [ev|ev|ev|ev|st|j0| |id v|id|]; cbn [sync_step] in E.
  1-5: destruct (turn _ _ _) as [[r d']| |] eqn:Et; cbn [mbind outcome_bind] in E; [|done..]; injection E as <-; apply turn_back in Et as (x & Ex & _);
    destruct j; cbn in *; try done; by rewrite Ex in Hj.
  - unfold collect in E. destruct (job_result j0 s); [|done]. destruct (s_result s); [done|]. destruct (decide _); [|done].
    destruct (after_result _ _ _); cbn [mbind outcome_bind] in E; [|done..]. by injection E as <-.
  - by injection E as <-.
  - destruct (runPeer _ _ _); cbn [mbind outcome_bind] in E; [|done..]. by injection E as <-.
  - destruct (dropPeer _ _); cbn [mbind outcome_bind] in E; [|done..]. by injection E as <-.
  - destruct (decide _); [|done]. by injection E as <-.
Qed.

Definition collected (s : Sync (C := C)) : Prop :=
  (s_result s = None \/ s_result s = Some None -> forall j, j ∉ s_left s -> job_result j s = Some None) /\ (s_result s = Some None -> s_left s = []).

Lemma collected_other ev (s s' : Sync (C := C)) : sync_step ev s = Ret s' -> s_left s' = s_left s -> s_result s' = s_result s -> collected s -> collected s'.
Proof.
  intros E El Er [H1 H2]. unfold collected. rewrite El, Er. split; [|done]. intros Hr j Hj. eapply job_final; [done|auto].
Qed.

Lemma step_left ev (s s' : Sync (C := C)) : sync_step ev s = Ret s' -> (forall j, ev <> EvCollect j) -> s_left s' = s_left s /\ s_result s' = s_result s.
Proof.
  intros E Hne. destruct ev as [ev|ev|ev|ev|st|j0| |id v|id|]; cbn [sync_step] in E; [..|by destruct (Hne j0)| | | |].
  1-5: destruct (turn _ _ _); cbn [mbind outcome_bind] in E; [|done..]; by injection E as <-.
  - by injection E as <-.
  - destruct (runPeer _ _ _); cbn [mbind outcome_bind] in E; [|done..]; by injection E as <-.
  - destruct (dropPeer _ _); cbn [mbind outcome_bind] in E; [|done..]; by injection E as <-.
  - destruct (decide _); [|done]. by injection E as <-.
Qed.

Lemma collected_collect j (s s' : Sync (C := C)) : collect j s = Ret s' -> collected s -> collected s'.
Proof.
  intros E [H1 H2]. unfold collect in E. destruct (job_result j s) as [e|] eqn:Ej; [|done]. destruct (s_result s) eqn:Er; [done|].
  destruct (decide (j ∈ s_left s)) as [Hj|]; [|done]. set (left_ := filter (fun x => x <> j) (s_left s)) in *.
  destruct (after_result _ left_ (s_d s)) as [[u d']| |]; cbn [mbind outcome_bind snd] in E; [|done..]. injection E as <-. split; cbn [s_result s_left].
  - intros Hr j' Hj'. change (job_result j' s = Some None). destruct (decide (j' = j)) as [->|Hne].
    + rewrite Ej. f_equal. destruct e; [by destruct Hr|done].
    + apply H1; [by left|]. intros Hin. apply Hj'. by apply list_elem_of_filter.
  - intros Hr. destruct e; [done|]. by destruct left_.
Qed.

Lemma sync_run_collected md first recv imp s : sync_run md first recv imp s -> collected s.
Proof.
  induction 1 as [id m p head td random heights arrivals d d1 d2 s h Hb Hr Hn E1 E2 Hm Eh Ef Hlt|ev recv imp s s' Hrun IH Hev E Hu].
  - destruct (syncWithPeer_run _ _ _ _ _ _ _ _ _ E2) as (first' & pivot & hf & hp & ps & _ & _ & _ & _ & _ & _ & _ & ->). split; [|done].
    cbn [s_left]. intros _ j Hj. destruct j; try (exfalso; apply Hj; cbn; set_solver). cbn. destruct (decide _); [done|]. exfalso. apply Hj. set_solver.
  - destruct ev as [| | | | |j| | | |]; [..|by eapply collected_collect| | | |]; destruct (step_left _ s s' E) as [El Er]; try done; by eapply collected_other.
Qed.

Lemma ended_healthy md first recv imp s : sync_run md first recv imp s -> s_result s = Some None -> forall j, job_result j s = Some None.
Proof.
  intros [H1 H2]%sync_run_collected Hr j. apply H1; [by right|]. rewrite (H2 Hr). apply not_elem_of_nil.
Qed.

(** C2. A full synchronization that ends without an error has imported what it received.  However the
    goroutines interleave between the calls that take a lock, and whatever packets the peers deliver, once
    [spawnSync] has returned without an error the blocks that went to [InsertChain] are, in order, those of
    all the headers the processor took from its channel, as long as no peer is dropped while a loop for bodies
    or receipts that was told that no more tasks come is between the two tests that end it (nothing pending,
    nothing in flight), the numbers of the headers are not negative and they stay below 2^63; their numbers
    are consecutive from the first one after the common ancestor on, each whose hash is not zero is the parent
    of the next, and the transactions and uncles have the roots in the header. *)
Theorem sync_complete first recv imp s : sync_run FullSync first recv imp s -> recv_ok first recv -> s_result s = Some None ->
  recv = Some ∘ fr_Header <$> imp /\
  forall i r, imp !! i = Some r ->
    header_number (fr_Header r) = Ret (first + Z.of_nat i) /\
    (forall r', imp !! S i = Some r' -> Header_Hash (fr_Header r) = 0 \/ ParentHash (fr_Header r') = Header_Hash (fr_Header r)) /\
    DeriveSha_block (fr_Transactions r) = TxHash (fr_Header r) /\ CalcUncleHash (Uncles r) = UncleHash (fr_Header r).
Proof.
  intros Hrun Hrecv Hr. pose proof (ended_healthy _ _ _ _ _ Hrun Hr) as Hj.
  pose proof (Hj JHeaders) as B1. pose proof (Hj JBodies) as B2. pose proof (Hj JReceipts) as B3. pose proof (Hj JProc) as B4. pose proof (Hj JContent) as B5. cbn in *.
  destruct (s_hf s) eqn:S1, (s_bf s) eqn:S2, (s_rf s) eqn:S3, (s_hp s) eqn:S4, (s_cp s) eqn:S5; try done. simplify_eq.
  destruct (sync_run_ok first recv imp s Hrun) as [sched Hs]; [|done|]; [unfold healthy; by rewrite S1, S2, S3, S4, S5|].
  pose proof (so_run _ _ _ _ _ Hs) as Hq. pose proof (so_proc _ _ _ _ _ Hs) as Hp. pose proof (so_content _ _ _ _ _ Hs) as Hc. rewrite S5 in Hq, Hc. rewrite S4 in Hp.
  cbn [content_left proc_ok] in *. rewrite app_nil_r in Hq. destruct Hc as [_ Hl]. pose proof (dq_run_ok _ _ _ _ Hq) as Hok. split.
  - rewrite Hp, list_fmap_compose, (dq_out _ _ _ _ Hok), Hl. by rewrite firstn_all.
  - intros i r Hi. pose proof (dq_complete _ _ _ _ Hok) as Hcm. rewrite Forall_forall in Hcm. destruct (Hcm r) as [[G1 G2] _]; [by eapply list_elem_of_lookup_2|].
    assert (Hsi : forall j x, imp !! j = Some x -> sched !! j = Some (fr_Header x)).
    { intros j x Hx. rewrite <- (lookup_take_lt sched (length imp)) by (by eapply lookup_lt_Some). rewrite <- (dq_out _ _ _ _ Hok), list_lookup_fmap, Hx. done. }
    destruct (accepted_at sched 0 first i _ (dq_chain _ _ _ _ Hok) (Hsi i r Hi)) as [En Hlk]. split; [done|]. split; [|done]. intros r' Hr'. by apply Hlk, Hsi.
Qed.

End sync.
