(* ===== verification/DlAncestor.v ===== *)
(** * The search for the common ancestor

    [findAncestor] of the downloader against a peer that answers from a chain of its
    own: the block it returns is common to both chains, and no block 16 or more above
    it is.  The local chain is the interface [SyncChain] with the law that its reads
    agree with a predicate on headers ([ChainReads]). *)
From S2P Require Import Prelude GoMonad Clique TxList ChainDb HeaderChain HeaderChainProps BlockChain Prque DlPeer DlQueue DlQueueProps Downloader.
Local Open Scope Z_scope.

(** Reads of a chain in a mode: they keep [I], a header counts as known when [K] says
    so, known headers are found, and the head has the number [top]. *)
Class ChainReads {KL : KvLib} {CL : CliqueLib} {TL : TxLib} {BL : ChainLib} {C : Type} {SC : SyncChain C}
    (m : SyncMode) (I : C -> Prop) (K : Header -> bool) (top : Z) : Prop := {
  reads_known c h n : I c -> header_number h = Ret n ->
    exists c', match m with FullSync => sc_HasBlockAndState (Header_Hash h) | _ => sc_HasHeader (Header_Hash h) n end c = Ret (K h, c') /\ I c';
  reads_header c h : I c -> K h = true -> exists c', sc_GetHeaderByHash (Header_Hash h) c = Ret (Some h, c') /\ I c';
  reads_top c : I c -> exists h n c1, sc_CurrentHeader c = Ret (h, c1) /\ header_number h = Ret n /\ I c1 /\
    match m with
    | LightSync => n = top
    | FullSync => exists b c2, sc_CurrentBlock c1 = Ret (b, c2) /\ block_Number b = Ret top /\ I c2
    | FastSync => exists b c2, sc_CurrentFastBlock c1 = Ret (b, c2) /\ block_Number b = Ret top /\ I c2
    end
}.

Section ancestor.
Context {KL : KvLib} {CL : CliqueLib} {TL : TxLib} {BL : ChainLib} {PL : PrqueLib Task} {DL : DlLib} {DV : DlVars}.
Context {SV : SyncVars} {C : Type} {SC : SyncChain C}.
Context (m : SyncMode) (I : C -> Prop) (K : Header -> bool) (top : Z) {CR : ChainReads m I K top}.

Local Notation D := (Downloader (C := C)).

(** ** Runs of the reads *)

(** A downloader with such a chain and a peer. *)
Definition at_peer (p : Z) (id : string) (d : D) : Prop :=
  I (d_chain d) /\ d_mode d = m /\ exists c, conns (d_peers d) !! p = Some c /\ pc_id c = id.

Lemma on_chain_run {A : Type} (f : go C A) (d : D) a c : f (d_chain d) = Ret (a, c) -> on_chain f d = Ret (a, set_chain c d).
Proof. unfold on_chain. by intros ->. Qed.

Lemma known_run p id h n d : at_peer p id d -> header_number h = Ret n -> exists d', known h d = Ret (K h, d') /\ at_peer p id d'.
Proof.
  intros (Hi & Hm & Hc) Hn. destruct (reads_known (d_chain d) h n Hi Hn) as (c' & E & Hi'). exists (set_chain c' d).
  split; [|by split]. unfold known. rewrite bind_gget, Hm. destruct m; [by apply on_chain_run|..]; rewrite (bind_glift _ _ _ _ Hn); by apply on_chain_run.
Qed.

Lemma request_run p id q msg d : at_peer p id d -> exists d', request q msg d = Ret (tt, d') /\ at_peer p id d'.
Proof. intros (Hi & Hm & Hc). eexists. split; [done|]. by split. Qed.

Lemma peer_id_run p id d : at_peer p id d -> peer_id p d = Ret (id, d).
Proof.
  intros (Hi & Hm & c & Hc & <-). unfold peer_id, on_dl, on_peers, conn. rewrite (bind_run _ _ d c d); [done|]. rewrite bind_gget. change (dl_peers (d_dl d)) with (d_peers d).
  rewrite Hc. by destruct d as [? []].
Qed.

Lemma local_top_run p id d : at_peer p id d -> exists d', local_top d = Ret (top, d') /\ at_peer p id d'.
Proof.
  intros (Hi & Hm & Hc). destruct (reads_top (d_chain d) Hi) as (h & n & c1 & E1 & En & Hi1 & H2). unfold local_top.
  assert (Hat : forall c d1, I c -> d_mode d1 = d_mode d -> d_peers d1 = d_peers d -> at_peer p id (set_chain c d1)) by (intros c d1 Hc' E2 E3; split; [done|]; by rewrite <- Hm, <- E3 in *).
  rewrite (bind_run _ _ _ _ _ (on_chain_run _ d h c1 E1)), (bind_glift _ _ _ _ En), bind_gget. change (d_mode (set_chain c1 d)) with (d_mode d). rewrite Hm.
  destruct m; [..|subst n; exists (set_chain c1 d); auto]; (destruct H2 as (b & c2 & E2 & Eb & Hi2); exists (set_chain c2 (set_chain c1 d)); split; [|auto];
    rewrite (bind_run _ _ _ _ _ (on_chain_run _ (set_chain c1 d) b c2 E2)); by apply glift_run).
Qed.

(** ** An honest peer *)

Section honest.
Context (p : Z) (id : string) (height : Z) (R : Z -> Header) (arrivals : nat -> PeerMessage -> list Arrival).

Fixpoint headers_from (from step : Z) (count : nat) : list Header :=
  match count with
  | O => []
  | S n => if height <? from then [] else R from :: headers_from (from + step) step n
  end.

(** The answer of the peer to a request. *)
Definition answer (msg : PeerMessage) : list Header :=
  match msg with RequestHeadersByNumber from amount skip false => headers_from from (skip + 1) (Z.to_nat amount) | _ => [] end.

Definition harmless (a : Arrival) : Prop := match a with ArOther => True | ArHeaders id' _ => id' <> id | _ => False end.

(** The peer answers each request, before the timeout. *)
Definition honest : Prop := forall k msg, exists noise rest, arrivals k msg = noise ++ ArHeaders id (answer msg) :: rest /\ Forall harmless noise.

Lemma await_honest k msg : honest -> await_headers id (arrivals k msg) = Ret (inl (answer msg)).
Proof.
  intros Hh. destruct (Hh k msg) as (noise & rest & -> & Hn). induction Hn as [|a noise Ha _ IH]; cbn; [by rewrite decide_True|].
  destruct a; try done. by rewrite decide_False.
Qed.

Context (Hhonest : honest) (Hheight : 0 <= height < 9223372036854775808) (Htop : 0 <= top < 9223372036854775808)
  (HM : (16 <= MaxHeaderFetch)%nat) (HMs : Z.of_nat MaxHeaderFetch < 4611686018427387904) (HF : 0 <= MaxForkAncestry < 9223372036854775808).
Context (Hnum : forall n, 0 <= n <= height -> Number (R n) = Some n) (Hhash : forall n, 0 <= n <= height -> Header_Hash (R n) <> 0).
Context (Hgen : K (R 0) = true) (Hmono : forall a b, 0 <= a <= b -> b <= height -> K (R b) = true -> K (R a) = true).

Lemma R_number n : 0 <= n <= height -> header_number (R n) = Ret n /\ big_Int64 (Number (R n)) = Ret n.
Proof.
  intros Hn. assert (E : header_number (R n) = Ret n).
  { unfold header_number. rewrite (Hnum n Hn). cbn. f_equal. rewrite Z.abs_eq by lia. apply u64_small. unfold is_u64, MaxUint64. lia. }
  split; [done|]. apply number_int64; [done| |lia]. intros z. rewrite (Hnum n Hn). intros [= <-]. lia.
Qed.

(** The answer as a list of headers at equal distances. *)
Lemma headers_from_seq step count : forall from, 0 <= from -> 0 < step -> exists c, headers_from from step count = (fun i => R (from + step * Z.of_nat i)) <$> seq 0 c /\
  (c <= count)%nat /\ (forall i, (i < c)%nat -> from + step * Z.of_nat i <= height) /\ (forall i, (i < count)%nat -> from + step * Z.of_nat i <= height -> (i < c)%nat).
Proof.
  induction count as [|n IH]; intros from H0 Hs; cbn [headers_from]; [exists 0%nat; split_and!; [done|lia..]|].
  destruct (Z.ltb_spec height from) as [Hlt|Hge]; [exists 0%nat; split_and!; [done|lia|lia|nia]|].
  destruct (IH (from + step)) as (c & E & Hc & H1 & H2); [lia|done|]. exists (S c). split; [|split; [lia|split]].
  - cbn [seq fmap list_fmap]. f_equal; [f_equal; lia|]. rewrite E, <- fmap_S_seq, <- list_fmap_compose. apply list_fmap_ext. intros i x _. cbn. f_equal. lia.
  - intros [|i] Hi; [lia|]. specialize (H1 i ltac:(lia)). lia.
  - intros [|i] Hi Hle; [lia|]. specialize (H2 i ltac:(lia)). lia.
Qed.

Lemma spaced_run c : forall from, 0 <= from -> (forall i, (i < c)%nat -> from + 16 * Z.of_nat i <= height) ->
  spaced from ((fun i => R (from + 16 * Z.of_nat i)) <$> seq 0 c) = Ret true.
Proof.
  induction c as [|c IH]; intros from H0 Hle; [done|]. cbn [seq fmap list_fmap spaced]. pose proof (Hle 0%nat ltac:(lia)) as Hf. cbn in Hf.
  destruct (R_number (from + 16 * Z.of_nat 0)) as [_ ->]; [lia|]. cbn [mbind outcome_bind]. rewrite (i64_small from) by lia.
  replace (from + 16 * Z.of_nat 0) with from by lia. rewrite Z.eqb_refl. cbn [negb]. rewrite <- fmap_S_seq, <- list_fmap_compose. rewrite <- (IH (from + 16)); [|lia|].
  - f_equal. apply list_fmap_ext. intros i x _. cbn. f_equal. lia.
  - intros i Hi. specialize (Hle (S i) ltac:(lia)). lia.
Qed.

Lemma last_known_run from limit c : 0 <= from -> (forall i, (i < c)%nat -> from + 16 * Z.of_nat i <= height) -> forall d, at_peer p id d ->
  exists o d', last_known from top height limit (Z.of_nat c - 1) (reverse ((fun i => R (from + 16 * Z.of_nat i)) <$> seq 0 c)) d = Ret (inl o, d') /\ at_peer p id d' /\
    match o with
    | None => forall i, (i < c)%nat -> from + 16 * Z.of_nat i <= top -> K (R (from + 16 * Z.of_nat i)) = false
    | Some (n, hash) => hash <> 0 /\ K (R n) = true /\ n <= top /\ exists i, (i < c)%nat /\ n = from + 16 * Z.of_nat i /\
        forall j, (i < j < c)%nat -> from + 16 * Z.of_nat j <= top -> K (R (from + 16 * Z.of_nat j)) = false
    end.
Proof.
  intros H0. induction c as [|c IH]; intros Hle d Hd; [exists None, d; split; [done|]; split; [done|lia]|].
  rewrite seq_S, fmap_app, reverse_app. cbn [fmap list_fmap reverse rev_append app last_known Nat.add].
  change (reverse [R (from + 16 * Z.of_nat c)]) with [R (from + 16 * Z.of_nat c)]. cbn [app last_known].
  pose proof (Hle c ltac:(lia)) as Hc. destruct (R_number (from + 16 * Z.of_nat c)) as [En Ei]; [lia|]. rewrite (bind_glift _ _ _ _ Ei), (bind_glift _ _ _ _ En).
  replace (Z.of_nat (S c) - 1 - 1) with (Z.of_nat c - 1) by lia. destruct (Z.ltb_spec (from + 16 * Z.of_nat c) from); [lia|]. cbn [orb].
  assert (Hskip : forall d1, at_peer p id d1 -> (from + 16 * Z.of_nat c <= top -> K (R (from + 16 * Z.of_nat c)) = false) -> exists o d', last_known from top height limit (Z.of_nat c - 1)
      (reverse ((fun i => R (from + 16 * Z.of_nat i)) <$> seq 0 c)) d1 = Ret (inl o, d') /\ at_peer p id d' /\ match o with
        | None => forall i, (i < S c)%nat -> from + 16 * Z.of_nat i <= top -> K (R (from + 16 * Z.of_nat i)) = false
        | Some (n, hash) => hash <> 0 /\ K (R n) = true /\ n <= top /\ exists i, (i < S c)%nat /\ n = from + 16 * Z.of_nat i /\
            forall j, (i < j < S c)%nat -> from + 16 * Z.of_nat j <= top -> K (R (from + 16 * Z.of_nat j)) = false
        end).
  { intros d1 Hd1 Hk. destruct (IH ltac:(intros i Hi; apply Hle; lia) d1 Hd1) as (o & d' & E & Hd' & Ho). exists o, d'. split; [done|]. split; [done|].
    destruct o as [[n hash]|].
    - destruct Ho as (A1 & A2 & A3 & i & A4 & A5 & A6). do 3 (split; [done|]). exists i. split; [lia|]. split; [done|]. intros j Hj Hjt.
      destruct (decide (j = c)) as [->|]; [auto|]. apply A6; [lia|done].
    - intros i Hi Hit. destruct (decide (i = c)) as [->|]; [auto|]. apply Ho; [lia|done]. }
  destruct (Z.ltb_spec top (from + 16 * Z.of_nat c)) as [Hlt|Hge]; [apply Hskip; [done|lia]|].
  destruct (known_run p id _ _ d Hd En) as (d1 & E1 & Hd1). rewrite (bind_run _ _ _ _ _ E1). destruct (K (R (from + 16 * Z.of_nat c))) eqn:Ek; [|by apply Hskip].
  destruct (Z.ltb_spec height (from + 16 * Z.of_nat c)); [lia|]. cbn [andb]. eexists _, d1. split; [done|]. split; [done|].
  split; [apply Hhash; lia|]. split; [done|]. split; [done|]. exists c. split; [lia|]. split; [done|]. lia.
Qed.

(** The binary search narrows down to the last known block. *)
Lemma search_run fuel : forall k start end_ d, at_peer p id d -> 0 <= start < 9223372036854775808 -> 0 <= end_ <= height -> end_ - start <= 2 ^ Z.of_nat fuel ->
  (start < end_ -> K (R end_) = false) ->
  exists a d', search fuel p id arrivals k start end_ d = Ret (inl a, d') /\ at_peer p id d' /\ (a = start \/ (start < a < end_ /\ K (R a) = true)) /\
    (start < end_ -> forall b, a < b <= height -> K (R b) = false).
Proof.
  induction fuel as [|fuel IH]; intros k start end_ d Hd Hs He Hw Hk; cbn [search]; rewrite (u64_small (start + 1)) by (unfold is_u64, MaxUint64; lia).
  all: assert (Hdone : end_ <= start + 1 -> exists a d', (mret (inl start) : go D (Z + DlError)) d = Ret (inl a, d') /\ at_peer p id d' /\ (a = start \/ (start < a < end_ /\ K (R a) = true)) /\
    (start < end_ -> forall b, a < b <= height -> K (R b) = false)).
  1, 3: intros Hle; exists start, d; split; [done|]; split; [done|]; split; [by left|]; intros Hlt b Hb; destruct (K (R b)) eqn:Eb; [|done];
    specialize (Hk Hlt); rewrite (Hmono end_ b) in Hk; [done|lia|lia|done].
  - destruct (Z.ltb_spec (start + 1) end_); [cbn in Hw; lia|]. by apply Hdone.
  - destruct (Z.ltb_spec (start + 1) end_) as [Hlt|]; [|by apply Hdone]. clear Hdone. rewrite (u64_small (start + end_)) by (unfold is_u64, MaxUint64; lia).
    set (check := (start + end_) / 2). assert (Hcheck : start < check < end_ /\ check - start <= 2 ^ Z.of_nat fuel /\ end_ - check <= 2 ^ Z.of_nat fuel).
    { assert (E2 : 2 ^ Z.of_nat (S fuel) = 2 * 2 ^ Z.of_nat fuel) by (rewrite Nat2Z.inj_succ, Z.pow_succ_r by lia; done). unfold check.
      pose proof (Z.div_mod (start + end_) 2 ltac:(lia)). pose proof (Z.mod_pos_bound (start + end_) 2 ltac:(lia)). lia. }
    destruct Hcheck as (Hc & Hw1 & Hw2). destruct (request_run p id p (RequestHeadersByNumber check 1 0 false) d Hd) as (d1 & E1 & Hd1). rewrite (bind_run _ _ _ _ _ E1).
    rewrite (bind_glift _ _ _ _ (await_honest k _ Hhonest)). cbn [answer]. change (Z.to_nat 1) with 1%nat. cbn [headers_from].
    destruct (Z.ltb_spec height check); [lia|]. destruct (R_number check) as [En _]; [lia|].
    destruct (known_run p id _ _ d1 Hd1 En) as (d2 & E2 & Hd2). rewrite (bind_run _ _ _ _ _ E2). destruct (K (R check)) eqn:Ek.
    + pose proof Hd2 as (Hi2 & Hm2 & Hp2). destruct (reads_header (d_chain d2) (R check) Hi2 Ek) as (c3 & E3 & Hi3).
      rewrite (bind_run _ _ _ _ _ (on_chain_run _ d2 _ c3 E3)), (bind_glift _ _ _ _ En), Z.eqb_refl. cbn [negb].
      destruct (IH (S k) check end_ (set_chain c3 d2)) as (a & d' & Ea & Hd' & Ha & Hall); [by split|lia|lia|lia|intros _; apply Hk; lia|]. exists a, d'. split; [done|]. split; [done|]. split; [|intros _; apply Hall; lia].
      right. destruct Ha as [->|[? ?]]; [split; [lia|done]|split; [lia|done]].
    + destruct (IH (S k) start check d2) as (a & d' & Ea & Hd' & Ha & Hall); [done|lia|lia|lia|done|]. exists a, d'. split; [done|]. split; [done|]. split; [|intros _; apply Hall; lia].
      destruct Ha as [->|[? ?]]; [by left|right; split; [lia|done]].
Qed.

(** The oldest block that may be an ancestor lies above this one. *)
Definition fork_floor : Z := if MaxForkAncestry <=? top then top - MaxForkAncestry else -1.

(** The numbers of the first request. *)
Lemma head_request_run : exists from limit count, head_request top height = (Z.min top height, from, limit, count) /\
  0 <= from <= Z.min top height /\ (0 < Z.to_nat count)%nat /\ from = Z.max 0 (Z.min top height - Z.of_nat MaxHeaderFetch) /\
  (forall i, from + 16 * Z.of_nat i <= Z.min top height -> (i < Z.to_nat count)%nat).
Proof.
  unfold head_request. assert (Eh : (if height <? top then height else top) = Z.min top height) by (destruct (Z.ltb_spec height top); lia). rewrite Eh.
  set (head := Z.min top height) in *. assert (Hh : 0 <= head <= top /\ head <= height) by lia. rewrite (i64_small head), (i64_small top) by lia.
  set (M := Z.of_nat MaxHeaderFetch) in *. assert (HM' : 16 <= M) by lia.
  assert (Ef : Z.max 0 (i64 (head - M)) = Z.max 0 (head - M)).
  { destruct (decide (0 <= head - M)); [rewrite i64_small by lia; done|]. assert (i64 (head - M) < 0); [|lia]. unfold i64, u64.
    rewrite <- (Z_mod_plus_full (head - M) 1). rewrite Z.mul_1_l, Z.mod_small by lia. destruct (Z.ltb_spec (head - M + 18446744073709551616) 9223372036854775808); lia. }
  rewrite Ef. set (from := Z.max 0 (head - M)). rewrite (i64_small (top - from)) by lia.
  rewrite !Z.quot_div_nonneg by lia. eexists _, _, _. split; [done|]. split; [lia|].
  pose proof (Z.div_mod (2 * M) 16 ltac:(lia)). pose proof (Z.mod_pos_bound (2 * M) 16 ltac:(lia)). pose proof (Z.div_mod (top - from) 16 ltac:(lia)). pose proof (Z.mod_pos_bound (top - from) 16 ltac:(lia)).
  split; [lia|]. split; [lia|]. intros i Hi. lia.
Qed.


Lemma allowed_run a : 0 <= a < 9223372036854775808 -> allowed fork_floor a = if a <=? fork_floor then inr errInvalidAncestor else inl a.
Proof. intros Ha. unfold allowed. by rewrite i64_small. Qed.

(** What is wanted of a result: a common block that is not too old, and no common block
    16 or more above it, or above the floor if the chains forked too long ago. *)
Definition good_ancestor (r : Z + DlError) : Prop :=
  match r with
  | inl a => fork_floor < a /\ 0 <= a <= Z.min top height /\ K (R a) = true /\ forall b, a + 16 <= b <= Z.min top height -> K (R b) = false
  | inr e => e = errInvalidAncestor /\ 0 <= fork_floor /\ forall b, fork_floor + 16 <= b <= Z.min top height -> K (R b) = false
  end.

Lemma good_common a : 0 <= a <= Z.min top height -> K (R a) = true -> (forall b, a + 16 <= b <= Z.min top height -> K (R b) = false) -> good_ancestor (allowed fork_floor a).
Proof.
  intros Ha Hk Hb. rewrite allowed_run by lia. destruct (Z.leb_spec a fork_floor); cbn; [|split; [lia|]; split; [lia|done]]. split; [done|]. split; [lia|]. intros b ?. apply Hb. lia.
Qed.

Lemma floor_range : -1 <= fork_floor <= top.
Proof. unfold fork_floor. destruct (Z.leb_spec MaxForkAncestry top); lia. Qed.

(** The search when none of the first headers is known. *)
Lemma search_good k d : at_peer p id d -> (forall b, Z.max 0 (Z.min top height - Z.of_nat MaxHeaderFetch) <= b <= Z.min top height -> K (R b) = false) ->
  exists a d', search 64 p id arrivals k (if 0 <? fork_floor then fork_floor else 0) (Z.min top height) d = Ret (inl a, d') /\ good_ancestor (allowed fork_floor a).
Proof.
  intros Hd Hnone. pose proof floor_range as Hf. set (start := if 0 <? fork_floor then fork_floor else 0).
  assert (Hst : 0 <= start <= top /\ (start = 0 \/ start = fork_floor) /\ fork_floor <= start) by (unfold start; destruct (Z.ltb_spec 0 fork_floor); lia).
  destruct (search_run 64 k start (Z.min top height) d Hd) as (a & d' & E & _ & Ha & Hall); [lia|lia|cbn; lia|intros _; apply Hnone; lia|].
  exists a, d'. split; [done|]. assert (Hh0 : 0 < Z.min top height).
  { destruct (decide (Z.min top height = 0)) as [E0|]; [|lia]. rewrite (Hnone 0) in Hgen; [done|lia]. }
  destruct Ha as [->|[Ha Hk]].
  - destruct (decide (start = 0)) as [->|Hne].
    + apply good_common; [lia|done|]. intros b Hb. apply Hall; lia.
    + assert (start = fork_floor) as -> by lia. rewrite allowed_run by lia. rewrite Z.leb_refl. split; [done|]. split; [lia|]. intros b Hb.
      apply Hall; lia.
  - apply good_common; [lia|done|]. intros b Hb. apply Hall; lia.
Qed.

(** C14. The search for the common ancestor finds it.  Against a peer that answers every request from a chain
    of its own, of which the local chain knows an initial part that contains the first block, [findAncestor]
    returns (the binary search ends within 64 rounds): either the number of a block common to both chains
    that is not deeper below the local head than is allowed, with no common block 16 or more above it up to
    the lower of the two heads, or the error that the ancestor is too deep, and then no common block is 16 or
    more above the number below which ancestors are refused.  A common block that is allowed, but less than
    16 above that number, can be missed.  The headers of the peer are numbered from the first block on and
    have hashes, the two heads and the allowed depth are below 2^63, and a request is for at least 16 headers. *)
Theorem findAncestor_finds d : at_peer p id d -> exists r d', findAncestor p height arrivals d = Ret (r, d') /\ good_ancestor r.
Proof.
  intros Hd. unfold findAncestor. destruct (local_top_run p id d Hd) as (d1 & E1 & Hd1). rewrite (bind_run _ _ _ _ _ E1).
  destruct head_request_run as (from & limit & count & -> & Hfrom & Hcount & Hlow & Hin).
  assert (Efl : (if MaxForkAncestry <=? top then i64 (top - MaxForkAncestry) else -1) = fork_floor).
  { unfold fork_floor. destruct (Z.leb_spec MaxForkAncestry top); [|done]. apply i64_small. lia. }
  rewrite Efl. destruct (request_run p id p (RequestHeadersByNumber (u64 from) count 15 false) d1 Hd1) as (d2 & E2 & Hd2). rewrite (bind_run _ _ _ _ _ E2).
  rewrite (bind_run _ _ _ _ _ (peer_id_run p id d2 Hd2)), (bind_glift _ _ _ _ (await_honest 0 _ Hhonest)). cbn [answer].
  rewrite (u64_small from) by (unfold is_u64, MaxUint64; lia). change (15 + 1) with 16.
  destruct (headers_from_seq 16 (Z.to_nat count) from) as (c & -> & Hc & Hin1 & Hin2); [lia|lia|].
  assert (Hc0 : (0 < c)%nat) by (apply Hin2; [lia|lia]). destruct c as [|c]; [lia|].
  destruct ((fun i => R (from + 16 * Z.of_nat i)) <$> seq 0 (S c)) as [|h l] eqn:El; [done|]. rewrite <- El.
  rewrite (bind_glift _ _ _ _ (spaced_run (S c) from ltac:(lia) Hin1)). cbn [negb]. rewrite length_fmap, length_seq.
  destruct (last_known_run from limit (S c) ltac:(lia) Hin1 d2 Hd2) as (o & d3 & E3 & Hd3 & Ho). rewrite (bind_run _ _ _ _ _ E3).
  destruct o as [[n hash]|].
  - destruct Ho as (Hh & Hk & Hnt & i & Hi & -> & Hlast). destruct (Z.eqb_spec hash 0); [done|]. eexists _, d3. split; [done|]. pose proof (Hin1 i Hi) as Hih.
    apply good_common; [lia|done|]. intros b Hb. destruct (K (R b)) eqn:Eb; [|done]. assert (Hn : from + 16 * Z.of_nat (S i) <= Z.min top height) by lia.
    rewrite <- (Hlast (S i)); [symmetry; apply (Hmono _ b); [lia|lia|done]| |lia]. split; [lia|]. apply Hin2; [by apply Hin|lia].
  - destruct (search_good 1 d3 Hd3) as (a & d4 & E4 & Hg).
    + intros b Hb. destruct (K (R b)) eqn:Eb; [|done]. pose proof (Ho 0%nat ltac:(lia) ltac:(lia)) as H0. rewrite (Hmono (from + 16 * Z.of_nat 0) b) in H0; [done|lia|lia|done].
    + rewrite (bind_run _ _ _ _ _ E4). eexists _, d4. split; [done|done].
Qed.


End honest.

End ancestor.
