(* ===== verification/DlChain.v ===== *)
(** * The block chain of a node as the chain of the downloader

    The methods of the block chain that a synchronization calls, as an instance of
    [SyncChain], and the law of its reads in a full synchronization: a header is known
    when its block and the state of the block are stored. *)
From S2P Require Import Prelude GoMonad Fmt Clique TxList ChainDb ChainDbProps HeaderChain HeaderChainProps.
From S2P Require Import BlockChain BlockImport BlockChainProps BlockImportProps BlockWriteProps BlockReach.
From S2P Require Import Prque DlPeer DlQueue Downloader DlAncestor.
Local Open Scope Z_scope.

Section chain.
Context {KL : KvLib} {KLaws : KvLaws} {HL : HashLib} {HLaws : HashLaws} {CL : CliqueLib} {CLaws : HeaderLaws}
  {TL : TxLib} {LL : LruLib} {LLaws : LruLaws} {BL : ChainLib} {BLaws : ChainLaws} {BR : BlockRules}.
Context {RH : RLP Header} {RB : RLP Body} {RZ : RLP Z} {RR : RLP (list ChainReceipt)} {RE : RLP txLookupEntry}.
Context {LH : RLPLaws Header header_ok} {LB : RLPLaws Body body_ok} {LZ : RLPLaws Z (fun z => 0 <= z)}
  {LE : RLPLaws txLookupEntry entry_ok}.

(** What the [n]-th import is told from outside: fuel, the verdicts of the engine, times
    and tosses, as the operations of the chain take them. *)
Record Advice := mkAdvice {
  ad_fuel : nat;
  ad_turns : nat -> Turn;
  ad_verify : list Header -> list bool -> nat -> option ChainError;
  ad_intn : nat -> Z -> Z;
  ad_coins : nat -> bool;
  ad_stop : nat -> bool;
  ad_write : nat -> bool
}.
Context (advice : nat -> Advice).

(** The chain, and the number of imports so far. *)
Record NodeChain := mkNode { nc_imports : nat; nc_chain : BlockChain }.

Definition read_bc {A : Type} (m : go BlockChain A) : go NodeChain A := fun c =>
  match m (nc_chain c) with Ret (a, bc) => Ret (a, mkNode (nc_imports c) bc) | Panic => Panic | OutOfFuel => OutOfFuel end.

Definition import_bc {A : Type} (m : Advice -> go BlockChain A) : go NodeChain A := fun c =>
  match m (advice (nc_imports c)) (nc_chain c) with
  | Ret (a, bc) => Ret (a, mkNode (S (nc_imports c)) bc)
  | Panic => Panic
  | OutOfFuel => OutOfFuel
  end.

(** The error of a call, if any. *)
Definition err_of {E : Type} (r : unit + E) : option E := match r with inl _ => None | inr e => Some e end.

#[local] Instance node_SyncChain : SyncChain NodeChain := {
  sc_HasHeader hash n := read_bc (bc ← gget; mret (HasHeader hash n (bc_hc bc)));
  sc_HasBlockAndState hash := read_bc (HasBlockAndState hash);
  sc_GetHeaderByHash hash := read_bc (on_hc (GetHeaderByHash hash));
  sc_GetTdByHash hash := read_bc (on_hc (GetTdByHash hash));
  sc_CurrentHeader := read_bc (bc ← gget; mret (currentHeader (bc_hc bc)));
  sc_CurrentBlock := read_bc (bc ← gget; the (currentBlock bc));
  sc_CurrentFastBlock := read_bc (bc ← gget; the (currentFastBlock bc));
  sc_InsertHeaderChain chain freq :=
    import_bc (fun a => r ← bc_InsertHeaderChain (ad_fuel a) (ad_verify a) (ad_intn a) (ad_coins a) (ad_stop a) (ad_stop a) chain freq; mret (err_of r));
  sc_Rollback hashes := read_bc (Rollback hashes);
  sc_FastSyncCommitHead hash := read_bc (r ← FastSyncCommitHead hash; mret (err_of r));
  sc_InsertChain chain live := import_bc (fun a => InsertChain (ad_fuel a) live (ad_turns a) chain);
  sc_InsertReceiptChain chain receipts := import_bc (fun a => r ← InsertReceiptChain (ad_stop a) (ad_write a) chain receipts; mret (err_of r))
}.

(** ** Reads *)

(** The block of a header is stored with its state. *)
Definition has_state (db : KV) (h : Header) : bool :=
  match GetBlock db (Header_Hash h) (GetBlockNumber db (Header_Hash h)) with
  | Some b => OpenTrie db (Root (block_header b))
  | None => false
  end.

(** Chains over one store whose head has the number [top]. *)
Definition reading (g : Block) (db : KV) (top : Z) (c : NodeChain) : Prop :=
  blocks_ok g db /\ bc_db (nc_chain c) = db /\ bc_caches (nc_chain c) /\
  (exists n, header_number (currentHeader (bc_hc (nc_chain c))) = Ret n) /\
  exists b, currentBlock (nc_chain c) = Some b /\ block_Number b = Ret top.

Lemma reading_looks {A : Type} g db top c (m : go BlockChain A) Q : reading g db top c -> looks m db Q ->
  exists a c', read_bc m c = Ret (a, c') /\ reading g db top c' /\ Q a.
Proof.
  intros (Hb & Hd & Hc & Hn & Ht) Hm. destruct (Hm (nc_chain c) Hd Hc) as (a & bc' & E & (Q1 & _ & Q3 & _ & _ & Q6) & Hc' & Ha).
  exists a, (mkNode (nc_imports c) bc'). unfold read_bc, reading. rewrite E. cbn. by rewrite Q1, Q3, Q6.
Qed.

Lemma number_u64 g db hash : blocks_ok g db -> is_u64 (GetBlockNumber db hash).
Proof.
  intros Hdb. destruct (decide (GetBlockNumber db hash = missingNumber)) as [->|Hne]; [unfold missingNumber, is_u64, MaxUint64; lia|].
  by apply (bk_number _ _ Hdb).
Qed.

Lemma has_state_looks g db h : blocks_ok g db -> looks (HasBlockAndState (Header_Hash h)) db (fun r => r = has_state db h).
Proof.
  intros Hdb. unfold HasBlockAndState. apply (looks_bind _ _ _ _ _ (GetBlockByHash_looks g db _ Hdb)).
  intros [b|] [H1 H2].
  - destruct (H1 b eq_refl) as (m & Hm & Eb). intros bc Hd Hcc. rewrite bind_gget. eexists _, bc. split; [done|]. split; [done|]. split; [done|].
    unfold has_state. destruct (block_parts _ _ _ _ Eb) as [Eh _]. destruct (bk_header _ _ Hdb _ _ _ Hm Eh) as (_ & _ & _ & _ & _ & -> & _).
    by rewrite Eb, Hd.
  - apply looks_ret. unfold has_state. destruct (GetBlock db _ _) as [b|] eqn:E; [|done].
    by specialize (H2 _ _ (number_u64 g db _ Hdb) E).
Qed.

(** The block chain reads as a full synchronization relies on. *)
#[local] Instance node_ChainReads g db top : ChainReads FullSync (reading g db top) (has_state db) top.
Proof.
  split.
  - intros c h n Hi _. destruct (reading_looks g db top c _ _ Hi (has_state_looks g db h (proj1 Hi))) as (a & c' & E & Hi' & ->). by exists c'.
  - intros c h Hi Hk. pose proof (proj1 Hi) as Hdb. destruct (reading_looks g db top c _ _ Hi (GetHeaderByHash_looks g db (Header_Hash h) Hdb)) as (a & c' & E & Hi' & _ & Ha).
    exists c'. split; [|done]. cbn [sc_GetHeaderByHash node_SyncChain]. rewrite E. unfold has_state in Hk.
    destruct (GetBlock db _ _) as [b|] eqn:Eb; [|done]. pose proof (number_u64 g db (Header_Hash h) Hdb) as Hn.
    destruct (block_known g db Hdb _ _ _ Hn Eb) as (_ & Eh%hash_inj & _). destruct (block_parts _ _ _ _ Eb) as [E2 _].
    by rewrite (Ha _ _ Hn E2), Eh.
  - intros [k bc] Hi. pose proof Hi as (_ & _ & _ & [n Hn] & b & Eb & Ht). eexists _, n, _. split; [done|]. split; [done|]. split; [done|].
    exists b, (mkNode k bc). split; [|done]. cbn in Eb |- *. unfold read_bc. cbn [nc_chain]. rewrite bind_gget, Eb. done.
Qed.

End chain.
