(* ===== verification/DlInstances.v ===== *)
(** * Concrete instances for the downloader

    Executable stand-ins for the priority queue and for the roots of receipts, and a run
    of each theorem on them: a synchronization of the concrete chain of a node with a
    peer that has two blocks more. *)
From S2P Require Import Prelude GoMonad Fmt Clique TxList ChainDb ChainDbProps HeaderChain HeaderChainProps.
From S2P Require Import BlockChain BlockImport BlockChainProps BlockImportProps BlockWriteProps BlockReach.
From S2P Require Import ConsensusInstances CoreInstances ChainInstances.
From S2P Require Import Prque DlPeer DlQueue DlQueueProps DlQueueSteps DlQueueReach DlSkeleton Downloader DlSync DlAncestor DlChain.
Local Open Scope Z_scope.

#[local] Instance prqueZ : PrqueLib Task := prque_list.
#[local] Instance prqueZ_laws : PrqueLaws := prque_list_laws.

(** ** Roots *)
#[local] Instance dlZ : DlLib := {
  DeriveSha_receipts := fun l => if decide (l = []) then no_txs else 0;
  EmptyRootHash := no_txs;
  EmptyUncleHash := no_uncles
}.

#[local] Instance dlZ_laws : DlLaws.
Proof. split; evaluated. Qed.

(** ** A synchronization of a node

    Batches of two headers; the headers of the heavier branch come from the peer. *)
#[local] Instance vars2 : DlVars := {| cacheLimit := 4; MaxHeaderFetch := 2; fsHeaderForceVerify := 1 |}.
#[local] Instance sync_vars : SyncVars := {|
  MaxForkAncestry := 90; MaxSkeletonSize := 4; maxQueuedHeaders := 8; maxHeadersProcess := 4; maxResultsProcess := 4;
  fsHeaderCheckFrequency := 2; fsHeaderSafetyNet := 4; fsPivotInterval := 2; fsMinFullBlocks := 2; fsCriticalTrials := 2 |}.

Definition advice0 : nat -> Advice := fun _ => mkAdvice 9 turn0 (fun _ _ _ => None) (fun _ _ => 0) (fun _ => false) (fun _ => false) (fun _ => false).
#[local] Instance node_chain : SyncChain NodeChain := node_SyncChain advice0.

Definition header_0 : Header := Eval vm_compute in block_header block0.
Definition header_c1 : Header := Eval vm_compute in block_header block_c1.
Definition header_c2 : Header := Eval vm_compute in block_header block_c2.

Definition snd_or {A B : Type} (b : B) (o : outcome (A * B)) : B := match o with Ret (_, x) => x | _ => b end.

Definition dl_new : Downloader (C := NodeChain) := New FullSync (mkNode 0 chain0).
Definition dl_start : Downloader := Eval vm_compute in snd_or dl_new (runPeer "p" mc63 dl_new).
Definition dl_called : Downloader := Eval vm_compute in snd_or dl_start (synchronise "p" FullSync dl_start).

(** The peer answers with its head, and then with the first block. *)
Definition heights0 : PeerMessage -> list Arrival := fun _ => [ArHeaders "p" [header_c2]].
Definition arrivals0 : nat -> PeerMessage -> list Arrival := fun _ _ => [ArOther; ArHeaders "p" [header_0]].

Definition env0 : Env := mkEnv 5 (fun _ => 1) 1 (fun _ => 4) (fun _ _ => false).

Definition no_sync : Sync (C := NodeChain) := mkSync dl_new (inr None) (inr None) (inr None) (inr None) (inr None) [] None.
Definition sync0 : Sync := Eval vm_compute in
  match syncWithPeer 0 (Header_Hash header_c2) 6 0 heights0 arrivals0 dl_called with Ret (inl s, _) => s | _ => no_sync end.

(** The skeleton is one header; the batch is delivered, handed on and scheduled, the
    bodies are fetched, and the blocks imported.  A turn of a loop is an event of its
    [select] and the calls that follow. *)
Definition turn_of (ev : FetchEvent) (calls : nat) : list FetchEvent := ev :: repeat (FGo env0) calls.

Definition bodies0 : Packet := ContentPack (BodyParts [block_txs block_c1; block_txs block_c2] [[]; []]).

Definition filled0 : list SyncEvent :=
  EvHeaders (HPacket "p" [header_c2]) ::
  ((fun ev => EvHeaders (HFetch ev)) <$> turn_of FTick 0 ++ turn_of FUpdate 11 ++ turn_of (FPacket "p" (HeaderPack [header_c1; header_c2])) 2 ++
     turn_of FWake 0 ++ turn_of FUpdate 4) ++
  [EvHeaders HGo; EvHeaders (HPacket "p" []); EvHeaders (HPacket "p" []);
   EvProc PGo; EvProc PGo; EvProc PGo; EvProc PGo; EvHeaders HGo; EvProc PGo; EvBodies FWake; EvReceipts FWake; EvProc PGo; EvProc PGo; EvProc PGo].

Definition asked0 : list SyncEvent := filled0 ++ (EvBodies <$> turn_of FUpdate 11).

Definition ended0 : list SyncEvent :=
  [EvCollect JHeaders; EvCollect JBodies; EvCollect JReceipts; EvCollect JProc; EvContent None; EvCollect JContent].

Definition events0 : list SyncEvent :=
  asked0 ++ (EvBodies <$> turn_of (FPacket "p" bodies0) 2 ++ turn_of FWake 0 ++ turn_of FUpdate 4) ++
  (EvReceipts <$> turn_of FWake 0 ++ turn_of FUpdate 4) ++ [EvContent None; EvContent None; EvContent None] ++ ended0.

(** What a sequence of events in which no peer is dropped receives and imports. *)
Fixpoint trace (evs : list SyncEvent) (s : Sync (C := NodeChain)) : outcome (list (option Header) * list fetchResult * Sync) :=
  match evs with
  | [] => Ret ([], [], s)
  | ev :: evs' =>
      s1 ← sync_step ev s;
      if decide (drops (s_d s1) = drops (s_d s)) then
        r ← trace evs' s1;
        Ret (received s s1 ++ r.1.1, imported s s1 ++ r.1.2, r.2)
      else Panic
  end.

Lemma trace_run first recv imp evs : forall s r i s', sync_run FullSync first recv imp s -> Forall event_ok evs -> trace evs s = Ret (r, i, s') ->
  sync_run FullSync first (recv ++ r) (imp ++ i) s'.
Proof.
  revert recv imp. induction evs as [|ev evs IH]; intros recv imp s r i s' Hr Hok E; cbn [trace] in E.
  - injection E as <- <- <-. by rewrite !app_nil_r.
  - inversion Hok as [|? ? H1 H2]; subst. destruct (sync_step ev s) as [s1| |] eqn:E1; [|done..]. cbn [mbind outcome_bind] in E.
    destruct (decide _) as [Ed|]; [|done].
    destruct (trace evs s1) as [[[r' i'] s2]| |] eqn:E2; [|done..]. cbn [mbind outcome_bind fst snd] in E. injection E as <- <- <-.
    rewrite !app_assoc. apply (IH _ _ s1); [by apply (sync_event _ _ ev); [..|intros _]|done|done].
Qed.

Definition traced : list (option Header) * list fetchResult * Sync := Eval vm_compute in
  match trace events0 sync0 with Ret x => x | _ => ([], [], no_sync) end.

Lemma counted_0 : counted header_c1 /\ counted header_c2.
Proof. by split; eexists. Qed.

Lemma events0_ok : Forall event_ok events0.
Proof. destruct counted_0 as [H1 H2]. repeat constructor; done. Qed.

Lemma sync0_run : sync_run FullSync 1 [] [] sync0.
Proof.
  apply (sync_begin FullSync 1 "p" FullSync 0 (Header_Hash header_c2) 6 0 heights0 arrivals0 dl_start dl_called (s_d sync0) sync0 (mkHF 0 1 true HWait));
    [cbn; lia|cbn; lia|done|evaluated|evaluated|done|done|done|done].
Qed.

Lemma sync_complete_witness : s_result traced.2 = Some None /\ currentBlock (nc_chain (d_chain (s_d traced.2))) = Some block_c2 /\
  traced.1.1 = Some ∘ fr_Header <$> traced.1.2.
Proof.
  assert (Hrun : sync_run FullSync 1 traced.1.1 traced.1.2 traced.2).
  { apply (trace_run 1 [] [] events0 sync0); [exact sync0_run|exact events0_ok|]. evaluated. }
  assert (Hres : s_result traced.2 = Some None) by evaluated. split; [exact Hres|]. split; [evaluated|].
  apply (sync_complete 1 _ _ _ Hrun); [|exact Hres]. split; [|done].
  change traced.1.1 with [Some header_c1; Some header_c2]. constructor; [intros h [= <-] z [= <-]; done|]. constructor; [intros h [= <-] z [= <-]; done|constructor].
Defined.

(** ** The queue *)
Definition dq0 : Dl := Eval vm_compute in mkDl newQueue (d_peers dl_start).
Definition dq1 : Dl := mkDl (Prepare 1 FullSync 0 (q_Reset (dl_queue dq0))) (dl_peers dq0).

Definition queue_or {A : Type} (d : Dl) (o : outcome (A * queue)) : Dl := match o with Ret (_, q) => mkDl q (dl_peers d) | _ => d end.

Definition conn0 : peerConnection := Eval vm_compute in newPeerConnection "p" mc63.
Definition parts0 : Parts := BodyParts [block_txs block_c1; block_txs block_c2] [[]; []].

Definition dq2 : Dl := Eval vm_compute in queue_or dq1 (Schedule [header_c1; header_c2] 1 (dl_queue dq1)).
Definition dq3 : Dl := Eval vm_compute in queue_or dq2 (reserveHeaders Bodies 1 0 "p" (Lacks conn0) 4 (dl_queue dq2)).
Definition dq4 : Dl := Eval vm_compute in snd_or dq3 (q_deliver "p" parts0 dq3).
Definition got0 : list fetchResult := Eval vm_compute in match WaitResults (dl_queue dq4) with Ret (Some (r, _)) => r | _ => [] end.
Definition dq5 : Dl := Eval vm_compute in
  match WaitResults (dl_queue dq4) with Ret (Some (_, q)) => mkDl q (dl_peers dq4) | _ => dq4 end.

Definition reserved0 : option fetchRequest * bool := Eval vm_compute in
  match reserveHeaders Bodies 1 0 "p" (Lacks conn0) 4 (dl_queue dq2) with Ret (r, b, _, _) => (r, b) | _ => (None, false) end.

Lemma dq2_run : dq_run 1 [header_c1; header_c2] [] dq2.
Proof.
  apply (run_schedule 1 [header_c1; header_c2] [header_c1; header_c2] [] [] dq1 (dl_queue dq2));
    [apply (run_prepare 1 FullSync 0 dq0); lia|by repeat (constructor; [intros z [= <-]|])|done|evaluated].
Qed.

Lemma dq4_run : dq_run 1 [header_c1; header_c2] [] dq4.
Proof.
  assert (H3 : dq_run 1 [header_c1; header_c2] [] dq3).
  { apply (run_reserve 1 Bodies 1 0 conn0 4 reserved0.1 reserved0.2 _ _ dq2 (dl_queue dq3)); [exact dq2_run|evaluated|evaluated]. }
  apply (run_deliver 1 "p" parts0 (2, None) _ _ dq3); [exact H3|done|evaluated].
Qed.

Lemma results_in_order_witness : length got0 = 2%nat /\
  (forall i r, got0 !! i = Some r -> header_number (fr_Header r) = Ret (1 + Z.of_nat i) /\ DeriveSha_block (fr_Transactions r) = TxHash (fr_Header r)).
Proof.
  assert (H5 : dq_run 1 [header_c1; header_c2] got0 dq5).
  { apply (run_results 1 got0 _ [] dq4 (dl_queue dq5)); [exact dq4_run|evaluated]. }
  split; [evaluated|]. intros i r Hi. by destruct (results_in_order 1 _ _ _ H5 i r Hi) as (_ & E1 & _ & E2 & _).
Defined.

Lemma no_task_lost_witness : exists results q', WaitResults (dl_queue dq4) = Ret (Some (results, q')) /\ fr_Header <$> results = [header_c1; header_c2].
Proof.
  destruct (no_task_lost 1 _ _ _ dq4_run) as [_ H2]. apply H2; [|done|done]. intros []; split; evaluated.
Defined.

Lemma queue_never_fails_witness : (exists q', reserveHeaders Receipts_ 1 0 "p" (Lacks conn0) 4 (dl_queue dq2) = Ret (None, false, None, q')) /\
  exists res d', q_deliver "p" parts0 dq2 = Ret (res, d') /\ snd res <> Some errInvalidChain.
Proof.
  destruct (queue_never_fails 1 _ _ _ dq2_run) as (H1 & H2 & _). split; [|by apply H1].
  destruct (H2 Receipts_ 1 0 conn0 4) as (res & prog & q' & E); [evaluated|done|]. change (pc_id conn0) with "p"%string in E. exists q'. rewrite E.
  assert (Er : match reserveHeaders Receipts_ 1 0 "p" (Lacks conn0) 4 (dl_queue dq2) with Ret (res, prog, _, _) => (res, prog) | _ => (None, true) end = (None, false)) by evaluated.
  rewrite E in Er. by injection Er as -> ->.
Defined.

(** ** The skeleton *)
Lemma two_fetched : (0 < MaxHeaderFetch)%nat.
Proof. cbn. lia. Qed.

Definition sq0 : queue := Eval vm_compute in dl_queue dq1.
Definition sq1 : queue := Eval vm_compute in match ScheduleSkeleton 1 [header_c2] sq0 with Ret q => q | _ => sq0 end.
Definition sq2 : queue := Eval vm_compute in snd_or sq1 (ReserveHeaders 1 0 "p" sq1).
Definition sq3 : queue := Eval vm_compute in snd_or sq2 (q_DeliverHeaders "p" [header_c1; header_c2] true sq2).
Definition sq_request : fetchRequest := Eval vm_compute in match headerPendPool sq2 !! "p" with Some r => r | None => mkFetchRequest 0 0 [] 0 end.

Lemma sq1_run : sk_run 1 [header_c2] [] [] sq1.
Proof. apply (sk_start 1 [header_c2] sq0); [done|evaluated]. Qed.

Lemma sq3_run : sk_run 1 [header_c2] [Some header_c1; Some header_c2] [] sq3.
Proof.
  assert (H2 : sk_run 1 [header_c2] [] [] sq2) by (apply (sk_reserve 1 [header_c2] 1 0 "p" (Some sq_request) [] [] sq1); [exact sq1_run|evaluated]).
  apply (sk_deliver 1 [header_c2] "p" [header_c1; header_c2] true 2 None (Some [Some header_c1; Some header_c2]) [] [] sq2); [exact H2| |evaluated].
  destruct counted_0. by repeat constructor.
Qed.

Lemma skeleton_filled_witness : cc_items (headerContCh sq3) = [false] /\
  exists L q', RetrieveHeaders sq3 = (Some (Some <$> L), 2, q') /\ length L = 2%nat /\ L !! 1%nat = Some header_c2.
Proof.
  destruct (skeleton_filled 1 [header_c2] two_fetched eq_refl eq_refl _ _ _ sq3_run) as (E1 & L & q' & E2 & E3 & _ & _ & E4 & _); [done|].
  split; [exact E1|]. exists L, q'. split; [exact E2|]. split; [exact E3|]. by apply (E4 0%nat).
Defined.

Lemma skeleton_returns_witness : exists r q', ReserveHeaders 1 0 "p" sq1 = Ret (r, q') /\ is_Some r.
Proof.
  destruct (skeleton_returns 1 [header_c2] two_fetched eq_refl eq_refl _ _ _ sq1_run) as (H1 & _).
  destruct (H1 1 0 "p"%string) as (r & q' & E & Hr). exists r, q'. split; [exact E|]. apply Hr; [evaluated|evaluated|]. exists 1. split; [evaluated|lia].
Defined.

(** ** The common ancestor

    The node has the lighter first block, the peer the other branch. *)
Definition vars16 : DlVars := {| cacheLimit := 4; MaxHeaderFetch := 16; fsHeaderForceVerify := 1 |}.

Definition peer_chain (n : Z) : Header := if n =? 0 then header_0 else if n =? 1 then header_c1 else header_c2.
Definition peer_answers : nat -> PeerMessage -> list Arrival := fun _ msg => [ArOther; ArHeaders "p" (answer 2 peer_chain msg)].
Definition dl_forked : Downloader (C := NodeChain) := set_chain (mkNode 0 chain1) dl_start.

Lemma chain1_reading : reading block0 (bc_db chain1) 1 (mkNode 0 chain1).
Proof.
  destruct (bc_reachable_alive _ _ _ chain1_reachable) as (b & top & Hok & _). split; [exact chain1_blocks|]. split; [done|].
  split; [apply Hok|]. split; [exists 1; evaluated|]. exists block_a1. split; evaluated.
Qed.

Lemma peer_chain_case (P : Z -> Header -> Prop) : P 0 header_0 -> P 1 header_c1 -> P 2 header_c2 -> forall n, 0 <= n <= 2 -> P n (peer_chain n).
Proof. intros H0 H1 H2 n Hn. assert (n = 0 \/ n = 1 \/ n = 2) as [-> | [-> | ->]] by lia; done. Qed.

Lemma findAncestor_finds_witness : exists d', findAncestor (DV := vars16) 0 2 peer_answers dl_forked = Ret (inl 0, d').
Proof.
  pose proof (node_ChainReads advice0 block0 (bc_db chain1) 1) as Hcr.
  assert (Hk : forall n, 0 <= n <= 2 -> has_state (bc_db chain1) (peer_chain n) = (n =? 0)).
  { apply (peer_chain_case (fun n h => has_state (bc_db chain1) h = (n =? 0))); evaluated. }
  destruct (findAncestor_finds (DV := vars16) FullSync (reading block0 (bc_db chain1) 1) (has_state (bc_db chain1)) 1 0 "p" 2 peer_chain peer_answers)
    with (d := dl_forked) as (r & d' & E & Hg).
  - intros k msg. exists [ArOther], []. split; [done|]. by constructor.
  - lia.
  - lia.
  - cbn. lia.
  - cbn. lia.
  - cbn. lia.
  - by apply (peer_chain_case (fun n h => Number h = Some n)).
  - by apply (peer_chain_case (fun _ h => Header_Hash h <> 0)).
  - apply Hk. lia.
  - intros a b Ha Hb. rewrite !Hk by lia. intros ->%Z.eqb_eq. apply Z.eqb_eq. lia.
  - split; [exact chain1_reading|]. split; [done|]. exists conn0. split; [evaluated|done].
  - exists d'. rewrite E. destruct r as [n|e]; cbn in Hg.
    + destruct Hg as (_ & Hn & Hkn & _). rewrite Hk in Hkn by lia. apply Z.eqb_eq in Hkn. by subst.
    + destruct Hg as (_ & Hf & _). by vm_compute in Hf.
Defined.

(** ** What goes wrong *)

(** The peer answers the request for bodies with one that is not the body of the block. *)
Definition dl_asked : Downloader (C := NodeChain) := Eval vm_compute in
  match sync_steps asked0 sync0 with Ret s => s_d s | _ => dl_new end.
Fixpoint fetch_steps (evs : list FetchEvent) (f : Fetcher) (d : Downloader (C := NodeChain)) : outcome (task Fetcher * Downloader) :=
  match evs with
  | [] => Ret (inl f, d)
  | ev :: evs' =>
      r ← fetch_step ev f d;
      match r with (inl f', d') => fetch_steps evs' f' d' | _ => Ret r end
  end.

Definition waiting (finished update : bool) : Fetcher := mkFetcher (FContent Bodies) finished update AtSelect.
Definition stale0 : list FetchEvent := turn_of (FPacket "p" (ContentPack (BodyParts [[]] [[]]))) 1.
Definition dl_stale : Downloader (C := NodeChain) := Eval vm_compute in snd_or dl_asked (fetch_steps stale0 (waiting true false) dl_asked).

(** A stale delivery removes the request and leaves the peer busy: nothing is in flight that could expire, bodies are
    pending, no peer is idle, and no turn of the loop changes that or ends it. *)
Lemma stale_delivery_stalls : fetch_steps stale0 (waiting true false) dl_asked = Ret (inl (waiting true true), dl_stale) /\
  PendingContent Bodies (d_queue dl_stale) = 2 /\ InFlightContent Bodies (d_queue dl_stale) = false /\
  forall finished e, fetch_steps (FUpdate :: repeat (FGo e) 7) (waiting finished true) dl_stale = Ret (inl (waiting finished false), dl_stale).
Proof.
  split; [evaluated|]. split; [evaluated|]. split; [evaluated|]. intros finished e. evaluated.
Qed.

(** A second peer is asked for the bodies, after the end was signalled. *)
Definition only_q : Env := mkEnv 5 (fun _ => 1) 1 (fun p => if p =? 1 then 4 else 0) (fun _ _ => false).
Definition shared0 : list SyncEvent := filled0 ++ EvRegister "q" mc63 :: (EvBodies <$> turn_of FWake 0 ++ FUpdate :: repeat (FGo only_q) 12).

(** The loop for bodies finds nothing pending; then the peer is dropped, its bodies are pending again, and the loop
    finds nothing in flight. *)
Definition dropped0 : list SyncEvent :=
  shared0 ++ (EvBodies <$> turn_of FTick 0 ++ turn_of FUpdate 3) ++ EvDrop "q" :: EvBodies (FGo env0) ::
  (EvReceipts <$> turn_of FWake 0 ++ turn_of FUpdate 4) ++ ended0.

Definition sync_lost : Sync := Eval vm_compute in match sync_steps dropped0 sync0 with Ret s => s | _ => no_sync end.

(** The two tests that end a loop take the lock of the queue separately.  When a peer with a request in flight is dropped
    between them, the loop ends although its bodies are back in the queue, and the synchronization is reported as
    complete without having imported a block. *)
Lemma drop_between_tests : sync_steps dropped0 sync0 = Ret sync_lost /\ s_result sync_lost = Some None /\
  PendingContent Bodies (d_queue (s_d sync_lost)) = 2 /\ currentBlock (nc_chain (d_chain (s_d sync_lost))) = Some block0.
Proof. split; [evaluated|]. split; [evaluated|]. split; evaluated. Qed.

(** A chain of a hundred blocks shares the first sixteen with the peer, whose head is at 20; the deepest ancestor that is
    allowed is at 11. *)
Definition numbered (n : Z) : Header := mkHeader 0 0 0 0 0 0 [] (Some 1) (Some n) (Some 0) (Some 0) (Some n) [] 0 [].

Definition shared15 : SyncChain unit := {|
  sc_HasHeader := fun _ n => mret (n <=? 15);
  sc_HasBlockAndState := fun _ => mret false;
  sc_GetHeaderByHash := fun _ => mret None;
  sc_GetTdByHash := fun _ => mret None;
  sc_CurrentHeader := mret (numbered 100);
  sc_CurrentBlock := mret block0;
  sc_CurrentFastBlock := mret block0;
  sc_InsertHeaderChain := fun _ _ => mret None;
  sc_Rollback := fun _ => mret tt;
  sc_FastSyncCommitHead := fun _ => mret None;
  sc_InsertChain := fun _ _ => mret None;
  sc_InsertReceiptChain := fun _ _ => mret None
|}.

Definition answers20 : nat -> PeerMessage -> list Arrival := fun _ msg => [ArHeaders "p" (answer 20 numbered msg)].
Definition dl_light : Downloader (C := unit) := Eval vm_compute in
  snd_or (New LightSync tt) (runPeer "p" mc63 (New LightSync tt)).

(** The first request asks for every sixteenth header only: it finds the block at 4 as the last common one, which is too
    deep, and no search for a later one follows.  The block at 15 was allowed. *)
Lemma near_ancestor_refused : MaxForkAncestry = 90 /\ sc_HasHeader (SyncChain := shared15) (Header_Hash (numbered 15)) 15 tt = Ret (true, tt) /\
  match findAncestor (SC := shared15) (DV := vars16) 0 20 answers20 dl_light with Ret (r, _) => Some r | _ => None end = Some (inr errInvalidAncestor).
Proof. split; [evaluated|]. split; evaluated. Qed.

(** From 2^24 on numbers share their priorities.  With room for one result, of two headers the later one comes first, and
    the reservation fails with the error that ends the synchronization. *)
Definition vars1 : DlVars := {| cacheLimit := 1; MaxHeaderFetch := 2; fsHeaderForceVerify := 1 |}.

Definition header_t1 : Header := Eval vm_compute in block_header (on_top block0 16777219 21 2 [(0, 5, 7)]).
Definition header_t2 : Header := Eval vm_compute in block_header (on_top (mkBlock header_t1 [] []) 16777220 21 2 [(0, 5, 7)]).

Definition tie0 : Dl := mkDl (Prepare 16777219 FullSync 0 (q_Reset (DV := vars1) (dl_queue dq0))) (dl_peers dq0).
Definition tie1 : Dl := Eval vm_compute in queue_or tie0 (Schedule [header_t1; header_t2] 16777219 (dl_queue tie0)).

Lemma ties_abort : dq_run (DV := vars1) 16777219 [header_t1; header_t2] [] tie1 /\ float32 16777219 = float32 16777220 /\
  match reserveHeaders Bodies 1 0 "p" (Lacks conn0) 1 (dl_queue tie1) with Ret (_, _, e, _) => e | _ => None end = Some errInvalidChain.
Proof.
  split; [|split; evaluated].
  apply (run_schedule (DV := vars1) 16777219 [header_t1; header_t2] [header_t1; header_t2] [] [] tie0 (dl_queue tie1));
    [apply (run_prepare (DV := vars1) 16777219 FullSync 0 dq0); lia|by repeat (constructor; [intros z [= <-]|])|done|evaluated].
Qed.
