(* ===== verification/Fetcher.v ===== *)
(** * The block fetcher (mc/fetcher/fetcher.go)

    The blocks that peers announce or send: announced hashes are fetched, first the
    header and then the body, and the blocks are imported when the chain has come
    near them.  One goroutine ([loop]) owns the state; a turn of it is the handling of
    one event and then the head of the loop.  The imports run in goroutines of their
    own ([imports]).  An announcement is shared by pointer between the stages a block
    is in, but it is changed only where it is in one of them, so it is a value here.
    The functions that fetch headers and bodies are those of the peer that announced
    the block; the requests made are kept.  A timer is the time at which it fires, if
    it is set; [Stop], which ends the loop, and the metrics are not modelled. *)
From S2P Require Import Prelude GoMonad Clique TxList ChainDb HeaderChain BlockChain Prque.
Local Open Scope Z_scope.

(** Times in milliseconds. *)
Definition arriveTimeout : Z := 500.
Definition gatherSlack : Z := 100.
Definition fetchTimeout : Z := 5000.
Definition maxUncleDist : Z := 7.
Definition maxQueueDist : Z := 32.
Definition hashLimit : Z := 256.
Definition blockLimit : Z := 64.

Record announce := mkAnnounce {
  an_hash : Hash;
  an_number : Z;
  an_header : option Header;
  an_time : Z;
  an_origin : string
}.

Definition with_header (header : Header) (time : Z) (a : announce) : announce :=
  mkAnnounce (an_hash a) (an_number a) (Some header) time (an_origin a).

(** The verdicts of [verifyHeader]. *)
Inductive Verdict := VerifyOk | VerifyFuture | VerifyBad.

(** The callbacks to the chain: [getBlock], [chainHeight], [verifyHeader] and
    [insertChain], which says whether it failed. *)
Class FetchChain {KL : KvLib} {CL : CliqueLib} {TL : TxLib} {BL : ChainLib} (C : Type) := {
  fc_getBlock : Hash -> go C (option Block);
  fc_chainHeight : go C Z;
  fc_verifyHeader : Header -> go C Verdict;
  fc_insertChain : Block -> go C bool
}.

Section inject.
Context {KL : KvLib} {CL : CliqueLib} {TL : TxLib} {BL : ChainLib}.

Record inject := mkInject { in_origin : string; in_block : Block }.

(** The stages of an import: it looks for the parent and verifies the header, it
    imports the block, or it waits for the loop to take its end. *)
Inductive Stage := Checking | Importing | Ended.

Record Import := mkImport { im_op : inject; im_stage : Stage }.

(** Requests to peers, and broadcasts. *)
Inductive Request :=
| FetchHeader (peer : string) (hash : Hash)
| FetchBodies (peer : string) (hashes : list Hash)
| Broadcast (block : Block) (propagate : bool).

End inject.

Section fetcher.
Context {KL : KvLib} {CL : CliqueLib} {TL : TxLib} {BL : ChainLib} {PL : PrqueLib inject}.
Context {C : Type} {FC : FetchChain C}.
Context {MA : MapOrder Hash announce} {ML : MapOrder Hash (list announce)} {MR : MapOrder string (list Hash)}.

Record Fetcher := mkFetcher {
  announces : gmap string Z;
  announced : gmap Hash (list announce);
  fetching : gmap Hash announce;
  fetched : gmap Hash (list announce);
  completing : gmap Hash announce;
  f_queue : Prque;
  queues : gmap string Z;
  queued : gmap Hash inject;
  fetchTimer : option Z;
  completeTimer : option Z;
  imports : list Import;
  requests : list Request;
  dropped : list string;
  f_chain : C
}.

Definition set_announces (m : gmap string Z) (f : Fetcher) : Fetcher :=
  mkFetcher m (announced f) (fetching f) (fetched f) (completing f) (f_queue f) (queues f) (queued f) (fetchTimer f) (completeTimer f)
    (imports f) (requests f) (dropped f) (f_chain f).
Definition set_announced (m : gmap Hash (list announce)) (f : Fetcher) : Fetcher :=
  mkFetcher (announces f) m (fetching f) (fetched f) (completing f) (f_queue f) (queues f) (queued f) (fetchTimer f) (completeTimer f)
    (imports f) (requests f) (dropped f) (f_chain f).
Definition set_fetching (m : gmap Hash announce) (f : Fetcher) : Fetcher :=
  mkFetcher (announces f) (announced f) m (fetched f) (completing f) (f_queue f) (queues f) (queued f) (fetchTimer f) (completeTimer f)
    (imports f) (requests f) (dropped f) (f_chain f).
Definition set_fetched (m : gmap Hash (list announce)) (f : Fetcher) : Fetcher :=
  mkFetcher (announces f) (announced f) (fetching f) m (completing f) (f_queue f) (queues f) (queued f) (fetchTimer f) (completeTimer f)
    (imports f) (requests f) (dropped f) (f_chain f).
Definition set_completing (m : gmap Hash announce) (f : Fetcher) : Fetcher :=
  mkFetcher (announces f) (announced f) (fetching f) (fetched f) m (f_queue f) (queues f) (queued f) (fetchTimer f) (completeTimer f)
    (imports f) (requests f) (dropped f) (f_chain f).
Definition set_queue (q : Prque) (m : gmap string Z) (d : gmap Hash inject) (f : Fetcher) : Fetcher :=
  mkFetcher (announces f) (announced f) (fetching f) (fetched f) (completing f) q m d (fetchTimer f) (completeTimer f)
    (imports f) (requests f) (dropped f) (f_chain f).
Definition set_timers (a b : option Z) (f : Fetcher) : Fetcher :=
  mkFetcher (announces f) (announced f) (fetching f) (fetched f) (completing f) (f_queue f) (queues f) (queued f) a b
    (imports f) (requests f) (dropped f) (f_chain f).
Definition set_imports (l : list Import) (f : Fetcher) : Fetcher :=
  mkFetcher (announces f) (announced f) (fetching f) (fetched f) (completing f) (f_queue f) (queues f) (queued f) (fetchTimer f) (completeTimer f)
    l (requests f) (dropped f) (f_chain f).
Definition ask (r : list Request) (f : Fetcher) : Fetcher :=
  mkFetcher (announces f) (announced f) (fetching f) (fetched f) (completing f) (f_queue f) (queues f) (queued f) (fetchTimer f) (completeTimer f)
    (imports f) (requests f ++ r) (dropped f) (f_chain f).
Definition dropPeer (id : string) (f : Fetcher) : Fetcher :=
  mkFetcher (announces f) (announced f) (fetching f) (fetched f) (completing f) (f_queue f) (queues f) (queued f) (fetchTimer f) (completeTimer f)
    (imports f) (requests f) (dropped f ++ [id]) (f_chain f).
Definition set_chain (c : C) (f : Fetcher) : Fetcher :=
  mkFetcher (announces f) (announced f) (fetching f) (fetched f) (completing f) (f_queue f) (queues f) (queued f) (fetchTimer f) (completeTimer f)
    (imports f) (requests f) (dropped f) c.

Definition on_chain {A : Type} (m : go C A) : go Fetcher A :=
  fun f => match m (f_chain f) with Ret (a, c) => Ret (a, set_chain c f) | Panic => Panic | OutOfFuel => OutOfFuel end.

Definition getBlock (hash : Hash) : go Fetcher (option Block) := on_chain (fc_getBlock hash).
Definition chainHeight : go Fetcher Z := on_chain fc_chainHeight.

(** Both timers are set to fire at once. *)
Definition New (chain : C) : Fetcher := mkFetcher ∅ ∅ ∅ ∅ ∅ prque_New ∅ ∅ (Some 0) (Some 0) [] [] [] chain.

(** ** Forgetting *)

(** [f.announces[origin]--], and the entry is deleted at zero. *)
Definition uncount (m : gmap string Z) (origin : string) : gmap string Z :=
  let c := default 0 (m !! origin) - 1 in
  if c =? 0 then delete origin m else <[origin := c]> m.

Definition uncount_all (l : list announce) (m : gmap string Z) : gmap string Z := foldl (fun m a => uncount m (an_origin a)) m l.

Definition forget_announced (hash : Hash) (f : Fetcher) : Fetcher :=
  set_announced (delete hash (announced f)) (set_announces (uncount_all (default [] (announced f !! hash)) (announces f)) f).

Definition forget_fetching (hash : Hash) (f : Fetcher) : Fetcher :=
  match fetching f !! hash with
  | Some a => set_fetching (delete hash (fetching f)) (set_announces (uncount (announces f) (an_origin a)) f)
  | None => f
  end.

Definition forget_fetched (hash : Hash) (f : Fetcher) : Fetcher :=
  set_fetched (delete hash (fetched f)) (set_announces (uncount_all (default [] (fetched f !! hash)) (announces f)) f).

Definition forget_completing (hash : Hash) (f : Fetcher) : Fetcher :=
  match completing f !! hash with
  | Some a => set_completing (delete hash (completing f)) (set_announces (uncount (announces f) (an_origin a)) f)
  | None => f
  end.

Definition forgetHash (hash : Hash) (f : Fetcher) : Fetcher :=
  forget_completing hash (forget_fetched hash (forget_fetching hash (forget_announced hash f))).

Definition forgetBlock (hash : Hash) (f : Fetcher) : Fetcher :=
  match queued f !! hash with
  | Some op => set_queue (f_queue f) (uncount (queues f) (in_origin op)) (delete hash (queued f)) f
  | None => f
  end.

(** ** Timers *)

(** The time of the oldest first announcement, at most [now]; the lists are not empty. *)
Definition earliest (now : Z) (m : gmap Hash (list announce)) : outcome Z :=
  foldl (fun o e => t ← o; match e.2 with [] => Panic | a :: _ => Ret (Z.min t (an_time a)) end) (Ret now) (map_to_list m).

Definition rescheduleFetch (now : Z) : go Fetcher unit :=
  f ← gget;
  if decide (announced f = ∅) then mret tt
  else
    t ← glift (earliest now (announced f));
    gmodify (fun f => set_timers (Some (now + (arriveTimeout - (now - t)))) (completeTimer f) f).

Definition rescheduleComplete (now : Z) : go Fetcher unit :=
  f ← gget;
  if decide (fetched f = ∅) then mret tt
  else
    t ← glift (earliest now (fetched f));
    gmodify (fun f => set_timers (fetchTimer f) (Some (now + (gatherSlack - (now - t)))) f).

(** ** The queue of imports *)

(** Whether a number is too far from the height. *)
Definition too_far (number height : Z) : bool :=
  let dist := i64 (i64 number - i64 height) in (dist <? - maxUncleDist) || (maxQueueDist <? dist).

Definition enqueue (peer : string) (block : Block) : go Fetcher unit :=
  let hash := block_Hash block in
  f ← gget;
  let count := default 0 (queues f !! peer) + 1 in
  if blockLimit <? count then gmodify (forgetHash hash)
  else
    number ← glift (block_Number block);
    height ← chainHeight;
    if too_far number height then gmodify (forgetHash hash)
    else
      f ← gget;
      match queued f !! hash with
      | Some _ => mret tt
      | None =>
          let op := mkInject peer block in
          gmodify (fun f => set_queue (prque_Push (f_queue f) op (- float32 number)) (<[peer := count]> (queues f)) (<[hash := op]> (queued f)) f)
      end.

(** The import runs in a new goroutine. *)
Definition insert (op : inject) : go Fetcher unit := gmodify (fun f => set_imports (imports f ++ [mkImport op Checking]) f).

(** The queued blocks that could fit are imported; [fuel] is the size of the queue. *)
Fixpoint import_queued (fuel : nat) (height : Z) : go Fetcher unit :=
  f ← gget;
  match prque_Pop (f_queue f) with
  | None => mret tt
  | Some (op, q) =>
      match fuel with
      | O => gfuel
      | S n =>
          _ ← gmodify (set_queue q (queues f) (queued f));
          number ← glift (block_Number (in_block op));
          if u64 (height + 1) <? number
          then gmodify (fun f => set_queue (prque_Push (f_queue f) op (- float32 number)) (queues f) (queued f) f)
          else
            let hash := block_Hash (in_block op) in
            known ← (if u64 (number + maxUncleDist) <? height then mret true else b ← getBlock hash; mret (found b));
            _ ← (if known : bool then gmodify (forgetBlock hash) else insert op);
            import_queued n height
      end
  end.

(** The head of the loop; [now] is the time each fetch is looked at. *)
Definition loop_head (now : Hash -> Z) : go Fetcher unit :=
  f ← gget;
  _ ← gmodify (fun f => foldl (fun f e => if fetchTimeout <? now e.1 - an_time e.2 then forgetHash e.1 f else f) f (range (fetching f)));
  height ← chainHeight;
  f ← gget;
  import_queued (Z.to_nat (prque_Size (f_queue f))) height.

(** ** Events *)

(** An announcement. *)
Definition notify (now : Z) (a : announce) : go Fetcher unit :=
  f ← gget;
  let count := default 0 (announces f !! an_origin a) + 1 in
  if hashLimit <? count then mret tt
  else
    far ← (if 0 <? an_number a then height ← chainHeight; mret (too_far (an_number a) height) else mret false);
    if far : bool then mret tt
    else
      f ← gget;
      if found (fetching f !! an_hash a) || found (completing f !! an_hash a) then mret tt
      else
        _ ← gmodify (fun f => set_announced (<[an_hash a := default [] (announced f !! an_hash a) ++ [a]]> (announced f))
                                (set_announces (<[an_origin a := count]> (announces f)) f));
        f ← gget;
        if Nat.eqb (size (announced f)) 1 then rescheduleFetch now else mret tt.

(** One of the announcements is picked at random. *)
Definition pick (n : nat) (l : list announce) : outcome announce :=
  match l with [] => Panic | a :: _ => Ret (default a (l !! (n mod length l)%nat)) end.

(** A block moves on to the next stage, [put], unless it is known by now; the requests by peer. *)
Definition move_on (put : Hash -> announce -> Fetcher -> Fetcher) (n : nat) (hash : Hash) (l : list announce) (request : gmap string (list Hash))
    : go Fetcher (gmap string (list Hash)) :=
  a ← glift (pick n l);
  _ ← gmodify (forgetHash hash);
  b ← getBlock hash;
  match b with
  | Some _ => mret request
  | None =>
      _ ← gmodify (put hash a);
      mret (<[an_origin a := default [] (request !! an_origin a) ++ [hash]]> request)
  end.

Definition put_fetching (hash : Hash) (a : announce) (f : Fetcher) : Fetcher := set_fetching (<[hash := a]> (fetching f)) f.
Definition put_completing (hash : Hash) (a : announce) (f : Fetcher) : Fetcher := set_completing (<[hash := a]> (completing f)) f.

(** The requests to a peer are made by the function of the announcement of the first hash. *)
Definition send_requests (stage : Fetcher -> gmap Hash announce) (message : string -> list Hash -> list Request) (request : gmap string (list Hash))
    : go Fetcher unit :=
  for_each (fun _ (e : string * list Hash) =>
    f ← gget;
    match e.2 with
    | [] => gpanic
    | hash :: _ =>
        match stage f !! hash with
        | None => gpanic
        | Some a => gmodify (ask (message (an_origin a) e.2))
        end
    end) tt (range request).

Definition on_fetchTimer (now : Z) (since : Hash -> Z) (rand : Hash -> nat) : go Fetcher unit :=
  f ← gget;
  request ← for_each (fun request (e : Hash * list announce) =>
    match e.2 with
    | [] => gpanic
    | first :: _ =>
        if arriveTimeout - gatherSlack <? since e.1 - an_time first then move_on put_fetching (rand e.1) e.1 e.2 request else mret request
    end) ∅ (range (announced f));
  _ ← send_requests fetching (fun peer hashes => FetchHeader peer <$> hashes) request;
  rescheduleFetch now.

Definition on_completeTimer (now : Z) (rand : Hash -> nat) : go Fetcher unit :=
  f ← gget;
  request ← for_each (fun request (e : Hash * list announce) => move_on put_completing (rand e.1) e.1 e.2 request) ∅ (range (fetched f));
  _ ← send_requests completing (fun peer hashes => [FetchBodies peer hashes]) request;
  rescheduleComplete now.

(** The headers of a batch: those that are not the fetcher's, the announcements
    whose bodies are to be fetched, and the blocks without a body. *)
Record Sorted := mkSorted {
  unknown : list Header;
  incomplete : list announce;
  complete : list Block
}.

Definition empty_body (header : Header) : bool := (TxHash header =? DeriveSha_block []) && (UncleHash header =? CalcUncleHash []).

(** Whether the fetcher waits for a header. *)
Definition awaited (hash : Hash) (f : Fetcher) : option announce :=
  match fetching f !! hash, fetched f !! hash, completing f !! hash, queued f !! hash with
  | Some a, None, None, None => Some a
  | _, _, _, _ => None
  end.

Definition sort_header (time : Z) (s : Sorted) (header : Header) : go Fetcher Sorted :=
  let hash := Header_Hash header in
  f ← gget;
  match awaited hash f with
  | None => mret (mkSorted (unknown s ++ [header]) (incomplete s) (complete s))
  | Some a =>
      number ← glift (header_number header);
      if negb (number =? an_number a) then
        _ ← gmodify (fun f => forgetHash hash (dropPeer (an_origin a) f));
        mret s
      else
        b ← getBlock hash;
        match b with
        | Some _ => _ ← gmodify (forgetHash hash); mret s
        | None =>
            let a' := with_header header time a in
            _ ← gmodify (put_fetching hash a');
            if empty_body header then
              _ ← gmodify (put_completing hash a');
              mret (mkSorted (unknown s) (incomplete s) (complete s ++ [mkBlock header [] []]))
            else mret (mkSorted (unknown s) (incomplete s ++ [a']) (complete s))
        end
  end.

(** A header waits for its body. *)
Definition await_body (now : Z) (a : announce) : go Fetcher unit :=
  match an_header a with
  | None => gpanic
  | Some header =>
      let hash := Header_Hash header in
      f ← gget;
      if found (completing f !! hash) then mret tt
      else
        _ ← gmodify (fun f => set_fetched (<[hash := default [] (fetched f !! hash) ++ [a]]> (fetched f)) f);
        f ← gget;
        if Nat.eqb (size (fetched f)) 1 then rescheduleComplete now else mret tt
  end.

(** A block whose announcement is being completed is queued. *)
Definition enqueue_completed (block : Block) : go Fetcher unit :=
  f ← gget;
  match completing f !! block_Hash block with
  | None => mret tt
  | Some a => enqueue (an_origin a) block
  end.

(** The headers that are left for others. *)
Definition FilterHeaders (now time : Z) (headers : list Header) : go Fetcher (list Header) :=
  s ← for_each (sort_header time) (mkSorted [] [] []) headers;
  _ ← for_each (fun _ a => await_body now a) tt (incomplete s);
  _ ← for_each (fun _ b => enqueue_completed b) tt (complete s);
  mret (unknown s).

(** A body is matched with the blocks that are being completed: whether it matched,
    and the blocks that are not known. *)
Definition match_body (txs : list Transaction) (uncles : list Header) (blocks : list Block) : go Fetcher (bool * list Block) :=
  f ← gget;
  for_each (fun r (e : Hash * announce) =>
    f ← gget;
    match queued f !! e.1 with
    | Some _ => mret r
    | None =>
        match an_header e.2 with
        | None => gpanic
        | Some header =>
            if (DeriveSha_block txs =? TxHash header) && (CalcUncleHash uncles =? UncleHash header) then
              b ← getBlock e.1;
              match b with
              | None => mret (true, snd r ++ [mkBlock header txs uncles])
              | Some _ => _ ← gmodify (forgetHash e.1); mret (true, snd r)
              end
            else mret r
        end
    end) (false, blocks) (range (completing f)).

(** The bodies that are left, and the blocks. *)
Fixpoint match_bodies (txLists : list (list Transaction)) (uncleLists : list (list Header)) (blocks : list Block)
    : go Fetcher (list (list Transaction) * list (list Header) * list Block) :=
  match txLists, uncleLists with
  | txs :: txLists', uncles :: uncleLists' =>
      m ← match_body txs uncles blocks;
      r ← match_bodies txLists' uncleLists' (snd m);
      mret (if fst m : bool then r else (txs :: fst (fst r), uncles :: snd (fst r), snd r))
  | _, _ => mret (txLists, uncleLists, blocks)
  end.

Definition FilterBodies (txLists : list (list Transaction)) (uncleLists : list (list Header))
    : go Fetcher (list (list Transaction) * list (list Header)) :=
  r ← match_bodies txLists uncleLists [];
  _ ← for_each (fun _ b => enqueue_completed b) tt (snd r);
  mret (fst r).

(** ** Imports *)

(** A turn of an import: what comes after its stage. *)
Definition import_turn (op : inject) (stage : Stage) : go Fetcher Stage :=
  let block := in_block op in
  match stage with
  | Checking =>
      parent ← getBlock (block_ParentHash block);
      match parent with
      | None => mret Ended
      | Some _ =>
          v ← on_chain (fc_verifyHeader (block_header block));
          match v with
          | VerifyOk => _ ← gmodify (ask [Broadcast block true]); mret Importing
          | VerifyFuture => mret Importing
          | VerifyBad => _ ← gmodify (dropPeer (in_origin op)); mret Ended
          end
      end
  | Importing =>
      failed ← on_chain (fc_insertChain block);
      if failed : bool then mret Ended
      else _ ← gmodify (ask [Broadcast block false]); mret Ended
  | Ended => gfuel
  end.

Definition import_step (i : nat) : go Fetcher unit :=
  f ← gget;
  match imports f !! i with
  | None => gfuel
  | Some im =>
      stage ← import_turn (im_op im) (im_stage im);
      gmodify (fun f => set_imports (<[i := mkImport (im_op im) stage]> (imports f)) f)
  end.

(** The loop takes the end of an import. *)
Definition import_done (i : nat) : go Fetcher unit :=
  f ← gget;
  match imports f !! i with
  | Some (mkImport op Ended) =>
      let hash := block_Hash (in_block op) in
      gmodify (fun f => forgetBlock hash (forgetHash hash (set_imports (delete i (imports f)) f)))
  | _ => gfuel
  end.

(** ** The loop *)

Inductive Event :=
| ENotify (a : announce)
| EInject (op : inject)
| EDone (i : nat)
| EFetchTimer (rand : Hash -> nat)
| ECompleteTimer (rand : Hash -> nat)
| EHeaders (time : Z) (headers : list Header)
| EBodies (txLists : list (list Transaction)) (uncleLists : list (list Header)).

(** A timer that fires is not set any more, unless a value that was not taken was left in its channel. *)
Definition handle (now : Z) (since : Hash -> Z) (stale : bool) (ev : Event) : go Fetcher unit :=
  match ev with
  | ENotify a => notify now a
  | EInject op => enqueue (in_origin op) (in_block op)
  | EDone i => import_done i
  | EFetchTimer rand =>
      _ ← gmodify (fun f => if stale then f else set_timers None (completeTimer f) f);
      on_fetchTimer now since rand
  | ECompleteTimer rand =>
      _ ← gmodify (fun f => if stale then f else set_timers (fetchTimer f) None f);
      on_completeTimer now rand
  | EHeaders time headers => _ ← FilterHeaders now time headers; mret tt
  | EBodies txLists uncleLists => _ ← FilterBodies txLists uncleLists; mret tt
  end.

(** An event and the head of the loop after it. *)
Definition loop_turn (now : Z) (since : Hash -> Z) (stale : bool) (ev : Event) : go Fetcher unit :=
  _ ← handle now since stale ev; loop_head since.

End fetcher.
