(* ===== verification/FtProps.v ===== *)
(** * Theorems on the block fetcher

    The invariant of the fetcher ([ft_ok]): a block that is announced is in no later
    stage, a block whose body is awaited has its header, the queued blocks are those
    of the priority queue and of the imports that run, each once, and no peer has
    more than its share of them.  Every turn of the loop and of an import returns and
    keeps it, whatever peers send and however the chain changes ([ft_run]). *)
From S2P Require Import Prelude GoMonad Clique TxList ChainDb HeaderChain HeaderChainProps BlockChain Prque Fetcher.
Local Open Scope Z_scope.

(** The chain answers, and keeps [I]: a header that is not refused [passes], and a
    block is imported when its header passes and it is [sound]. *)
Class ChainAnswers {KL : KvLib} {CL : CliqueLib} {TL : TxLib} {BL : ChainLib} {C : Type} {FC : FetchChain C}
    (I : C -> Prop) (passes : Header -> Prop) (sound : Block -> Prop) : Prop := {
  answers_getBlock hash : total I (fc_getBlock hash) (fun _ => I);
  answers_height : total I fc_chainHeight (fun _ => I);
  answers_verify header : total I (fc_verifyHeader header) (fun v c => I c /\ (v <> VerifyBad -> passes header));
  answers_insert block : passes (block_header block) -> sound block -> total I (fc_insertChain block) (fun _ => I)
}.

(** The blocks a chain has: those it gives when it is asked, and asking changes nothing. *)
Class ChainHas {KL : KvLib} {CL : CliqueLib} {TL : TxLib} {BL : ChainLib} {C : Type} {FC : FetchChain C}
    (I : C -> Prop) (has : C -> Hash -> Prop) : Prop := {
  has_found c hash b c' : I c -> fc_getBlock hash c = Ret (Some b, c') -> has c hash;
  has_block c hash b c' h : I c -> fc_getBlock hash c = Ret (b, c') -> has c' h <-> has c h;
  has_height c n c' h : I c -> fc_chainHeight c = Ret (n, c') -> has c' h <-> has c h
}.

Lemma default_uncount m o p : default 0 (uncount m o !! p) = default 0 (m !! p) - (if decide (p = o) then 1 else 0).
Proof.
  unfold uncount. destruct (decide (p = o)) as [->|Hne].
  - destruct (Z.eqb_spec (default 0 (m !! o) - 1) 0) as [->|]; [by rewrite lookup_delete_eq|by rewrite lookup_insert_eq].
  - destruct (_ =? 0); [rewrite lookup_delete_ne by done|rewrite lookup_insert_ne by done]; lia.
Qed.

Lemma found_false {A : Type} (o : option A) : found o = false -> o = None.
Proof. by destruct o. Qed.

Section props.
Context {KL : KvLib} {CL : CliqueLib} {TL : TxLib} {BL : ChainLib} {PL : PrqueLib inject} {PLaws : PrqueLaws}.
Context {C : Type} {FC : FetchChain C} (I : C -> Prop) (passes : Header -> Prop) (sound : Block -> Prop) {CA : ChainAnswers I passes sound}.
Context {MA : MapOrder Hash announce} {ML : MapOrder Hash (list announce)} {MR : MapOrder string (list Hash)}.

Local Notation F := (Fetcher (C := C)).

(** ** Forgetting *)

Lemma forget_fetching_fields hash (f : F) : exists m, forget_fetching hash f = set_fetching (delete hash (fetching f)) (set_announces m f).
Proof.
  unfold forget_fetching. destruct (fetching f !! hash) eqn:E; [by eexists|]. exists (announces f). rewrite delete_id by done. by destruct f.
Qed.

Lemma forget_completing_fields hash (f : F) : exists m, forget_completing hash f = set_completing (delete hash (completing f)) (set_announces m f).
Proof.
  unfold forget_completing. destruct (completing f !! hash) eqn:E; [by eexists|]. exists (announces f). rewrite delete_id by done. by destruct f.
Qed.

Lemma forgetHash_fields hash (f : F) : exists m, forgetHash hash f =
  mkFetcher m (delete hash (announced f)) (delete hash (fetching f)) (delete hash (fetched f)) (delete hash (completing f)) (f_queue f) (queues f) (queued f)
    (fetchTimer f) (completeTimer f) (imports f) (requests f) (dropped f) (f_chain f).
Proof.
  unfold forgetHash. destruct (forget_fetching_fields hash (forget_announced hash f)) as [m1 ->].
  destruct (forget_completing_fields hash (forget_fetched hash (set_fetching (delete hash (fetching (forget_announced hash f))) (set_announces m1 (forget_announced hash f)))))
    as [m2 ->]. by exists m2.
Qed.

(** ** The invariant *)

(** The body is the one the header commits to. *)
Definition body_matches (b : Block) : Prop :=
  DeriveSha_block (block_txs b) = TxHash (block_header b) /\ CalcUncleHash (block_uncles b) = UncleHash (block_header b).

(** The blocks of a header are sound. *)
Definition heads_sound (header : Header) : Prop := forall txs uncles, body_matches (mkBlock header txs uncles) -> sound (mkBlock header txs uncles).

(** An announcement with the header that was asked for. *)
Definition headed (hash : Hash) (a : announce) : Prop :=
  exists header, an_header a = Some header /\ Header_Hash header = hash /\ header_number header = Ret (an_number a) /\ heads_sound header.

(** A block moves from one stage to the next. *)
Record stages (f : F) : Prop := {
  sg_announced hash l : announced f !! hash = Some l -> l <> [] /\ fetching f !! hash = None /\ completing f !! hash = None;
  sg_fetched hash l : fetched f !! hash = Some l -> l <> [] /\ Forall (headed hash) l;
  sg_completing hash a : completing f !! hash = Some a -> headed hash a
}.

(** The blocks a peer has in the queue. *)
Definition owned (p : string) (m : gmap Hash inject) : Z := Z.of_nat (size (filter (fun e : Hash * inject => in_origin e.2 = p) m)).

Definition ops (q : Prque) : list inject := fst <$> prque_items q.

(** What may be queued: what was injected, and what was assembled. *)
Definition sourced (inj : list inject) (op : inject) : Prop := op ∈ inj \/ body_matches (in_block op).

Definition numbered (b : Block) : Prop := exists n, block_Number b = Ret n.

Definition priced (e : inject * Z) : Prop := exists n, block_Number (in_block e.1) = Ret n /\ e.2 = - float32 n.

(** The blocks that are queued; [hand] are those the loop is working on. *)
Record queue_ok (hand inj : list inject) (f : F) : Prop := {
  qo_hash hash op : queued f !! hash = Some op -> block_Hash (in_block op) = hash /\ numbered (in_block op) /\ sourced inj op /\ sound (in_block op);
  qo_held : hand ++ ops (f_queue f) ++ (im_op <$> imports f) ≡ₚ (map_to_list (queued f)).*2;
  qo_priced : Forall priced (prque_items (f_queue f));
  qo_count p : default 0 (queues f !! p) = owned p (queued f);
  qo_bound p : owned p (queued f) <= blockLimit;
  qo_passed : Forall (fun im => im_stage im = Importing -> passes (block_header (in_block (im_op im)))) (imports f)
}.

Record ft_core (hand inj : list inject) (f : F) : Prop := {
  fc_stages : stages f;
  fc_queue : queue_ok hand inj f;
  fc_chain : I (f_chain f)
}.

(** Nothing new is announced or fetched, and the timers are as they were. *)
Definition less (f f' : F) : Prop :=
  fetchTimer f' = fetchTimer f /\ completeTimer f' = completeTimer f /\
  (forall hash, announced f !! hash = None -> announced f' !! hash = None) /\
  (forall hash, fetched f !! hash = None -> fetched f' !! hash = None).

Lemma less_refl f : less f f.
Proof. done. Qed.

Lemma less_trans f g h : less f g -> less g h -> less f h.
Proof. intros (A1 & A2 & A3 & A4) (B1 & B2 & B3 & B4). split; [congruence|]. split; [congruence|]. auto. Qed.

Lemma less_forget hash f : less f (forgetHash hash f).
Proof.
  destruct (forgetHash_fields hash f) as [m ->]. do 2 (split; [done|]). split; cbn; intros h E; apply lookup_delete_None; auto.
Qed.

(** The fields the invariant is about. *)
Lemma stages_same (f f' : F) : announced f' = announced f -> fetching f' = fetching f -> fetched f' = fetched f -> completing f' = completing f ->
  stages f -> stages f'.
Proof. intros E1 E2 E3 E4 [H1 H2 H3]. split; rewrite ?E1, ?E2, ?E3, ?E4; done. Qed.

Lemma queue_ok_same hand inj (f f' : F) : f_queue f' = f_queue f -> queues f' = queues f -> queued f' = queued f -> imports f' = imports f ->
  queue_ok hand inj f -> queue_ok hand inj f'.
Proof. intros E1 E2 E3 E4 [H1 H2 H3 H4 H5 H6]. split; rewrite ?E1, ?E2, ?E3, ?E4; done. Qed.

Lemma stages_forget hash f : stages f -> stages (forgetHash hash f).
Proof.
  intros [H1 H2 H3]. destruct (forgetHash_fields hash f) as [m ->]. split; cbn.
  - intros h l (Hne & E)%lookup_delete_Some. destruct (H1 h l E) as (A1 & A2 & A3). split; [done|]. by rewrite !lookup_delete_ne.
  - intros h l (Hne & E)%lookup_delete_Some. by apply H2.
  - intros h a (Hne & E)%lookup_delete_Some. by apply H3.
Qed.

Lemma core_forget hand inj hash f : ft_core hand inj f -> ft_core hand inj (forgetHash hash f).
Proof.
  intros [H1 H2 H3]. split; [by apply stages_forget| |]; destruct (forgetHash_fields hash f) as [m ->]; [|done]. by eapply queue_ok_same; [..|exact H2].
Qed.

(** ** Counting *)

Lemma owned_insert p m hash op : m !! hash = None -> owned p (<[hash := op]> m) = owned p m + (if decide (p = in_origin op) then 1 else 0).
Proof.
  intros E. unfold owned. rewrite map_filter_insert. cbn [snd]. destruct (decide (in_origin op = p)) as [Ho|Ho].
  - rewrite map_size_insert_None; [rewrite decide_True by done; lia|]. apply map_lookup_filter_None. auto.
  - rewrite decide_False by auto. rewrite delete_id by done. lia.
Qed.

Lemma owned_delete p m hash op : m !! hash = Some op -> owned p (delete hash m) = owned p m - (if decide (p = in_origin op) then 1 else 0).
Proof.
  intros E. rewrite <- (insert_delete_id m hash op E) at 2. rewrite owned_insert by apply lookup_delete_eq. lia.
Qed.

Lemma queued_op hand inj f op : queue_ok hand inj f -> op ∈ hand ++ ops (f_queue f) ++ (im_op <$> imports f) ->
  queued f !! block_Hash (in_block op) = Some op.
Proof.
  intros Hq. rewrite (qo_held _ _ _ Hq), list_elem_of_fmap. intros ([h o] & -> & E%elem_of_map_to_list). cbn. by destruct (qo_hash _ _ _ Hq h o E) as [-> _].
Qed.

(** A block in hand is forgotten. *)
Lemma core_done hand inj op f : ft_core (op :: hand) inj f -> ft_core hand inj (forgetBlock (block_Hash (in_block op)) f).
Proof.
  intros [H1 H2 H3]. assert (E : queued f !! block_Hash (in_block op) = Some op) by (eapply queued_op; [done|set_solver]).
  unfold forgetBlock. rewrite E. split; [by eapply stages_same; [..|exact H1]| |done]. destruct H2 as [Q1 Q2 Q3 Q4 Q5 Q6]. split; cbn.
  - intros h o (_ & Eo)%lookup_delete_Some. by apply Q1.
  - rewrite <- (map_to_list_delete _ _ _ E) in Q2. cbn in Q2. by apply Permutation_cons_inv in Q2.
  - done.
  - intros p. rewrite default_uncount, Q4, (owned_delete _ _ _ _ E). done.
  - intros p. rewrite (owned_delete _ _ _ _ E). specialize (Q5 p). destruct (decide _); lia.
  - done.
Qed.

Lemma less_done hash f : less f (forgetBlock hash f).
Proof. unfold forgetBlock. by destruct (queued f !! hash). Qed.

(** ** Calls of the chain *)

(** Conditions that hold when less is announced and fetched. *)
Definition stable (X : F -> Prop) : Prop := forall f f', less f f' -> X f -> X f'.

Definition keeps (hand inj : list inject) (X : F -> Prop) (f : F) : Prop := ft_core hand inj f /\ X f.

Lemma keeps_same hand inj X f f' : stable X -> stages f' -> queue_ok hand inj f' -> I (f_chain f') -> less f f' -> keeps hand inj X f -> keeps hand inj X f'.
Proof. intros HX H1 H2 H3 Hl [_ Hx]. split; [done|by eapply HX]. Qed.

Lemma keeps_chain hand inj X c f : stable X -> I c -> keeps hand inj X f -> keeps hand inj X (set_chain c f).
Proof.
  intros HX Hc Hk. pose proof Hk as [[H1 H2 H3] _]. eapply keeps_same; [done|..|exact Hk]; [by eapply stages_same; [..|exact H1]|by eapply queue_ok_same; [..|exact H2]|done|done].
Qed.

Lemma keeps_forget hand inj X hash f : stable X -> keeps hand inj X f -> keeps hand inj X (forgetHash hash f).
Proof. intros HX [Hc Hx]. split; [by apply core_forget|]. eapply HX; [apply less_forget|done]. Qed.

Lemma keeps_ask hand inj X r f : stable X -> keeps hand inj X f -> keeps hand inj X (ask r f).
Proof.
  intros HX Hk. pose proof Hk as [[H1 H2 H3] _]. eapply keeps_same; [done|..|exact Hk]; [by eapply stages_same; [..|exact H1]|by eapply queue_ok_same; [..|exact H2]|done|done].
Qed.

Lemma keeps_drop hand inj X id f : stable X -> keeps hand inj X f -> keeps hand inj X (dropPeer id f).
Proof.
  intros HX Hk. pose proof Hk as [[H1 H2 H3] _]. eapply keeps_same; [done|..|exact Hk]; [by eapply stages_same; [..|exact H1]|by eapply queue_ok_same; [..|exact H2]|done|done].
Qed.

Lemma callback_run {A : Type} (m : go C A) f : total I m (fun _ => I) -> I (f_chain f) -> exists a c, on_chain m f = Ret (a, set_chain c f) /\ I c.
Proof. intros Hm Hc. destruct (Hm _ Hc) as (a & c & E & Hc'). exists a, c. unfold on_chain. by rewrite E. Qed.

Lemma callback_keeps {A : Type} hand inj X (m : go C A) : stable X -> total I m (fun _ => I) -> total (keeps hand inj X) (on_chain m) (fun _ => keeps hand inj X).
Proof.
  intros HX Hm f Hf. destruct (callback_run m f Hm (fc_chain _ _ _ (proj1 Hf))) as (a & c & E & Hc). exists a, (set_chain c f). split; [done|]. by apply keeps_chain.
Qed.

(** ** The queue of imports *)

Lemma keeps_push hand inj X op n f : stable X -> block_Number (in_block op) = Ret n -> keeps (op :: hand) inj X f ->
  keeps hand inj X (set_queue (prque_Push (f_queue f) op (- float32 n)) (queues f) (queued f) f).
Proof.
  intros HX En Hk. pose proof Hk as [[H1 [Q1 Q2 Q3 Q4 Q5 Q6] H3] Hx]. split; [|by eapply HX; [|exact Hx]]. split; [by eapply stages_same; [..|exact H1]| |done].
  split; try done; cbn.
  - rewrite <- Q2. unfold ops. rewrite (fmap_Permutation _ _ _ (items_Push (f_queue f) op (- float32 n))). cbn. by rewrite <- !Permutation_middle.
  - rewrite items_Push. constructor; [|done]. by exists n.
Qed.

(** A block that is not queued is taken in hand. *)
Lemma keeps_take hand inj X op f : stable X -> numbered (in_block op) -> sourced inj op -> sound (in_block op) -> queued f !! block_Hash (in_block op) = None ->
  default 0 (queues f !! in_origin op) + 1 <= blockLimit -> keeps hand inj X f ->
  keeps (op :: hand) inj X (set_queue (f_queue f) (<[in_origin op := default 0 (queues f !! in_origin op) + 1]> (queues f)) (<[block_Hash (in_block op) := op]> (queued f)) f).
Proof.
  intros HX Hn Hs Hso E Hb Hk. pose proof Hk as [[H1 [Q1 Q2 Q3 Q4 Q5 Q6] H3] Hx]. split; [|by eapply HX; [|exact Hx]]. split; [by eapply stages_same; [..|exact H1]| |done].
  split; try done; cbn.
  - intros h o [[<- <-]|[Hne Ho]]%lookup_insert_Some; [done|by apply Q1].
  - rewrite map_to_list_insert by done. cbn. by rewrite Q2.
  - intros p. rewrite owned_insert, <- Q4 by done. destruct (decide (p = in_origin op)) as [->|]; [by rewrite lookup_insert_eq|rewrite lookup_insert_ne by done; lia].
  - intros p. rewrite owned_insert, <- Q4 by done. specialize (Q5 p). rewrite <- Q4 in Q5. destruct (decide (p = in_origin op)) as [->|]; lia.
Qed.

Lemma enqueue_keeps inj X peer block : stable X -> numbered block -> sourced inj (mkInject peer block) -> sound block ->
  total (keeps [] inj X) (enqueue peer block) (fun _ => keeps [] inj X).
Proof.
  intros HX Hn Hs Hso f Hf. pose proof Hn as [n En]. unfold enqueue. rewrite bind_gget. destruct (Z.ltb_spec blockLimit (default 0 (queues f !! peer) + 1)) as [_|Hle].
  { eexists _, _. split; [done|]. by apply keeps_forget. }
  rewrite (bind_glift _ _ _ _ En). destruct (callback_run fc_chainHeight f answers_height (fc_chain _ _ _ (proj1 Hf))) as (height & c & E & Hc).
  unfold chainHeight. rewrite (bind_run _ _ _ _ _ E). pose proof (keeps_chain [] inj X c f HX Hc Hf) as Hf1. destruct (too_far n height).
  { eexists _, _. split; [done|]. by apply keeps_forget. }
  rewrite bind_gget. change (queued (set_chain c f)) with (queued f). destruct (queued f !! block_Hash block) eqn:Eq; [by eexists _, _|].
  eexists _, _. split; [done|]. pose proof (keeps_take [] inj X (mkInject peer block) (set_chain c f) HX Hn Hs Hso Eq Hle Hf1) as Hk.
  exact (keeps_push [] inj X (mkInject peer block) n _ HX En Hk).
Qed.

Lemma pop_held hand inj X f op q : stable X -> prque_Pop (f_queue f) = Some (op, q) -> keeps hand inj X f ->
  keeps (op :: hand) inj X (set_queue q (queues f) (queued f) f) /\ length (prque_items (f_queue f)) = S (length (prque_items q)).
Proof.
  intros HX E Hk. destruct (items_Pop _ _ _ E) as (p & Hp & _). split; [|by rewrite Hp]. pose proof Hk as [[H1 [Q1 Q2 Q3 Q4 Q5 Q6] H3] Hx].
  split; [|by eapply HX; [|exact Hx]]. split; [by eapply stages_same; [..|exact H1]| |done]. split; try done; cbn.
  - rewrite <- Q2. unfold ops. rewrite (fmap_Permutation _ _ _ Hp). cbn. by rewrite <- Permutation_middle.
  - rewrite Hp in Q3. by apply Forall_cons in Q3 as [_ ?].
Qed.

Lemma keeps_insert hand inj X op f : stable X -> keeps (op :: hand) inj X f -> keeps hand inj X (set_imports (imports f ++ [mkImport op Checking]) f).
Proof.
  intros HX Hk. pose proof Hk as [[H1 [Q1 Q2 Q3 Q4 Q5 Q6] H3] Hx]. split; [|by eapply HX; [|exact Hx]]. split; [by eapply stages_same; [..|exact H1]| |done].
  split; try done; cbn; [|by apply Forall_app; split; [|repeat constructor]].
  rewrite <- Q2, fmap_app. cbn. rewrite !app_assoc. by rewrite <- Permutation_cons_append.
Qed.

(** A block that is to be imported later; numbers from 2^24 on may have the priority
    of others. *)
Definition waits (height : Z) (op : inject) : Prop := forall n, block_Number (in_block op) = Ret n -> n < 16777216 -> u64 (height + 1) < n.

(** The chain after lookups. *)
Inductive looked_up : C -> C -> Prop :=
| looked_up_refl c : looked_up c c
| looked_up_block c c1 hash b c2 : looked_up c c1 -> fc_getBlock hash c1 = Ret (b, c2) -> looked_up c c2
| looked_up_height c c1 n c2 : looked_up c c1 -> fc_chainHeight c1 = Ret (n, c2) -> looked_up c c2.

#[local] Instance looked_up_trans : Transitive looked_up.
Proof. intros c1 c2 c3 H12 H23. induction H23; [done|by eapply looked_up_block; [apply IHlooked_up|]|by eapply looked_up_height; [apply IHlooked_up|]]. Qed.

(** A block that is not imported: it is too old. *)
Definition too_old (height : Z) (op : inject) : Prop := exists n, block_Number (in_block op) = Ret n /\ u64 (n + maxUncleDist) < height.

(** It is too old, or the chain was asked for it and gave it. *)
Definition settled (c : C) (height : Z) (op : inject) : Prop :=
  too_old height op \/ exists c1 b c2, looked_up c c1 /\ fc_getBlock (block_Hash (in_block op)) c1 = Ret (Some b, c2).

Lemma settled_later c c' height op : looked_up c c' -> settled c' height op -> settled c height op.
Proof. intros Hl [?|(c1 & b & c2 & H1 & H2)]; [by left|]. right. exists c1, b, c2. split; [by etrans|done]. Qed.

(** What is left in the queue waits, and what is not was imported or settled. *)
Record sorted_out (height : Z) (f f' : F) : Prop := {
  so_waits op : op ∈ ops (f_queue f') -> waits height op;
  so_left op : op ∈ ops (f_queue f) -> op ∈ ops (f_queue f') \/ op ∈ im_op <$> imports f' \/ settled (f_chain f) height op;
  so_imports : im_op <$> imports f ⊆ im_op <$> imports f'
}.

Lemma number_nonneg b n : block_Number b = Ret n -> 0 <= n.
Proof. unfold block_Number, header_number, big_Uint64. destruct (Number _); [|done]. intros [= <-]. apply Z.mod_pos_bound. done. Qed.

Lemma float32_le a b : 0 <= a -> 0 <= b < 16777216 -> float32 a <= float32 b -> a <= b.
Proof.
  intros Ha Hb. rewrite (float32_small b) by done. destruct (Z.lt_ge_cases a 16777216); [rewrite float32_small by done; done|]. pose proof (float32_large a). lia.
Qed.

(** The block popped is not yet to be imported: none is. *)
Lemma not_yet height hand inj f op q n : queue_ok hand inj f -> prque_Pop (f_queue f) = Some (op, q) -> block_Number (in_block op) = Ret n ->
  u64 (height + 1) < n -> forall op', op' ∈ ops (f_queue f) -> waits height op'.
Proof.
  intros Hq E En Hlt op' ([o p'] & Eo & Hin)%list_elem_of_fmap n' En' Hn'. cbn in Eo. subst o. destruct (items_Pop _ _ _ E) as (p & Hp & Hmax).
  pose proof (qo_priced _ _ _ Hq) as Hpr. rewrite Forall_forall in Hpr. destruct (Hpr _ Hin) as (n1 & E1 & Ep'). specialize (Hmax _ Hin). cbn in E1, Ep', Hmax.
  assert (Hop : (op, p) ∈ prque_items (f_queue f)) by (rewrite Hp; left). destruct (Hpr _ Hop) as (n2 & E2 & Ep). cbn in E2, Ep.
  rewrite En' in E1. injection E1 as <-. rewrite En in E2. injection E2 as <-. pose proof (number_nonneg _ _ En). pose proof (number_nonneg _ _ En').
  assert (n <= n'); [|lia]. apply float32_le; lia.
Qed.

Lemma sorted_step height f f1 f' op q : prque_Pop (f_queue f) = Some (op, q) -> f_queue f1 = q -> im_op <$> imports f ⊆ im_op <$> imports f1 ->
  looked_up (f_chain f) (f_chain f1) -> settled (f_chain f) height op \/ op ∈ im_op <$> imports f1 -> sorted_out height f1 f' -> sorted_out height f f'.
Proof.
  intros E Eq Hi Hc Hop [H1 H2 H3]. destruct (items_Pop _ _ _ E) as (p & Hp & _). split; [done| |by etrans].
  intros o. unfold ops at 1. rewrite (fmap_Permutation _ _ _ Hp). cbn. intros [->|Ho]%elem_of_cons.
  - destruct Hop as [?|Hop]; [auto|]. right. left. by apply H3.
  - rewrite <- Eq in Ho. destruct (H2 o Ho) as [?|[?|?]]; auto. right. right. by eapply settled_later.
Qed.

Lemma import_queued_keeps inj X height fuel : stable X -> forall f, keeps [] inj X f -> (length (prque_items (f_queue f)) <= fuel)%nat ->
  exists f', import_queued fuel height f = Ret (tt, f') /\ keeps [] inj X f' /\ sorted_out height f f'.
Proof.
  intros HX. induction fuel as [|fuel IH]; intros f Hf Hl; cbn [import_queued]; rewrite bind_gget.
  all: destruct (prque_Pop (f_queue f)) as [[op q]|] eqn:E; [|exists f; split; [done|]; split; [done|]; split; unfold ops; rewrite ?(items_Pop_None _ E); set_solver].
  all: destruct (pop_held [] inj X f op q HX E Hf) as [H1 El].
  { lia. }
  rewrite bind_gmodify. set (f1 := set_queue q (queues f) (queued f) f) in *. assert (Hn : numbered (in_block op)).
  { pose proof (queued_op _ _ _ op (fc_queue _ _ _ (proj1 H1)) ltac:(set_solver)) as Eo. by destruct (qo_hash _ _ _ (fc_queue _ _ _ (proj1 H1)) _ _ Eo) as (_ & ? & _). }
  destruct Hn as [n En]. rewrite (bind_glift _ _ _ _ En). destruct (Z.ltb_spec (u64 (height + 1)) n) as [Hlt|_].
  { eexists. split; [done|]. split; [by apply (keeps_push [] inj X op n f1)|]. pose proof (not_yet height _ _ _ _ _ _ (fc_queue _ _ _ (proj1 Hf)) E En Hlt) as Hw.
    destruct (items_Pop _ _ _ E) as (p & Hp & _). assert (Ho : ops (prque_Push q op (- float32 n)) ≡ₚ ops (f_queue f)).
    { unfold ops. rewrite (fmap_Permutation _ _ _ Hp), (fmap_Permutation _ _ _ (items_Push _ _ _)). done. }
    split; cbn; [|intros o Hin; left|done]; intros; [apply Hw|]; by rewrite ?Ho in *. }
  assert (Hk : exists known f2, (if u64 (n + maxUncleDist) <? height then mret true else b ← getBlock (block_Hash (in_block op)); mret (found b)) f1 = Ret (known, f2) /\
    keeps [op] inj X f2 /\ f_queue f2 = q /\ imports f2 = imports f /\ looked_up (f_chain f) (f_chain f2) /\ (known = true -> settled (f_chain f) height op)).
  { destruct (Z.ltb_spec (u64 (n + maxUncleDist)) height).
    { exists true, f1. split; [done|]. split; [done|]. do 2 (split; [done|]). split; [constructor|]. left. by exists n. }
    pose proof (fc_chain _ _ _ (proj1 H1)) as HI. destruct (answers_getBlock (block_Hash (in_block op)) _ HI) as (b & c & Eb & Hc).
    exists (found b), (set_chain c f1). unfold getBlock, on_chain. rewrite (bind_run _ _ f1 b (set_chain c f1)); [|by rewrite Eb]. split; [done|]. split; [by apply keeps_chain|].
    do 2 (split; [done|]). split; [eapply looked_up_block; [constructor|exact Eb]|].
    intros Hfound. right. destruct b as [b|]; [|done]. exists (f_chain f), b, c. split; [constructor|done]. }
  destruct Hk as (known & f2 & Ek & Hf2 & Eq & Ei & Hlk & Hset). rewrite (bind_run _ _ _ _ _ Ek).
  destruct known; rewrite (bind_run _ _ _ _ _ eq_refl).
  - set (f3 := forgetBlock _ f2). assert (E3 : f_queue f3 = q /\ imports f3 = imports f /\ f_chain f3 = f_chain f2) by (unfold f3, forgetBlock; by destruct (queued f2 !! _)).
    destruct E3 as (Eq3 & Ei3 & Ec3). destruct (IH f3) as (f' & E' & Hf' & Hs); [|rewrite Eq3; lia|].
    { destruct Hf2 as [Hc2 Hx2]. split; [by apply core_done|]. eapply HX; [apply less_done|done]. }
    exists f'. split; [done|]. split; [done|]. eapply sorted_step; [exact E|exact Eq3|by rewrite Ei3|by rewrite Ec3|left; by apply Hset|done].
  - destruct (IH (set_imports (imports f2 ++ [mkImport op Checking]) f2)) as (f' & E' & Hf' & Hs); [by apply keeps_insert|cbn; rewrite Eq; lia|].
    exists f'. split; [done|]. split; [done|]. eapply sorted_step; [exact E| | | | |exact Hs]; [exact Eq| |exact Hlk|]; cbn; rewrite Ei, fmap_app; cbn; set_solver.
Qed.

(** The head of the loop, with the height it finds. *)
Lemma loop_head_sorts inj X now f : stable X -> keeps [] inj X f ->
  exists height c f', fc_chainHeight (f_chain f) = Ret (height, c) /\ loop_head now f = Ret (tt, f') /\ keeps [] inj X f' /\ sorted_out height f f'.
Proof.
  intros HX Hf. unfold loop_head. rewrite bind_gget, bind_gmodify. set (f1 := foldl _ f _).
  assert (Hf1 : keeps [] inj X f1 /\ f_chain f1 = f_chain f /\ f_queue f1 = f_queue f /\ imports f1 = imports f).
  { unfold f1. generalize (range (fetching f)). intros l. clear f1. revert f Hf.
    induction l as [|e l IH]; intros f Hf; cbn [foldl]; [done|]. destruct (_ <? _); [|by apply IH].
    pose proof (IH (forgetHash e.1 f) (keeps_forget _ _ _ _ _ HX Hf)) as Hl. destruct (forgetHash_fields e.1 f) as [m Em]. rewrite Em in Hl at 3 5 7. exact Hl. }
  destruct Hf1 as (Hf1 & Ec1 & Eq1 & Ei1). destruct (answers_height (f_chain f1) (fc_chain _ _ _ (proj1 Hf1))) as (height & c & E & Hc).
  unfold chainHeight. rewrite (bind_run _ _ f1 height (set_chain c f1)) by (unfold on_chain; by rewrite E). rewrite bind_gget.
  destruct (import_queued_keeps inj X height (Z.to_nat (prque_Size (f_queue (set_chain c f1)))) HX (set_chain c f1)) as (f2 & E2 & Hf2 & Hs); [by apply keeps_chain|rewrite items_Size; lia|].
  exists height, c, f2. rewrite <- Ec1. split; [done|]. split; [done|]. split; [done|]. destruct Hs as [S1 S2 S3]. split; [done| |by rewrite <- Ei1].
  intros op. rewrite <- Eq1, <- Ec1. intros Ho. destruct (S2 op Ho) as [?|[?|Hs]]; auto. right. right. eapply settled_later; [|exact Hs].
  eapply looked_up_height; [constructor|exact E].
Qed.

Lemma loop_head_keeps inj X now : stable X -> total (keeps [] inj X) (loop_head now) (fun _ => keeps [] inj X).
Proof. intros HX f Hf. destruct (loop_head_sorts inj X now f HX Hf) as (height & c & f' & _ & E & Hf' & _). by exists tt, f'. Qed.

(** ** Timers *)

(** A timer is set when something waits for it. *)
Definition fetch_armed (f : F) : Prop := announced f <> ∅ -> is_Some (fetchTimer f).
Definition complete_armed (f : F) : Prop := fetched f <> ∅ -> is_Some (completeTimer f).
Definition armed (f : F) : Prop := fetch_armed f /\ complete_armed f.

Definition ft_ok (inj : list inject) (f : F) : Prop := keeps [] inj armed f.

Lemma empty_less {A : Type} (m m' : gmap Hash A) : (forall hash, m !! hash = None -> m' !! hash = None) -> m' <> ∅ -> m <> ∅.
Proof. intros H Hne ->. apply Hne. apply map_empty. intros h. apply H, lookup_empty. Qed.

Lemma stable_fetch : stable fetch_armed.
Proof. intros f f' (E1 & _ & Ha & _) Hx Hne. rewrite E1. apply Hx. by eapply empty_less. Qed.

Lemma stable_complete : stable complete_armed.
Proof. intros f f' (_ & E2 & _ & Hf) Hx Hne. rewrite E2. apply Hx. by eapply empty_less. Qed.

Lemma stable_armed : stable armed.
Proof. intros f f' Hl [H1 H2]. split; [by eapply stable_fetch|by eapply stable_complete]. Qed.

Lemma earliest_run now (m : gmap Hash (list announce)) : (forall hash l, m !! hash = Some l -> l <> []) -> exists t, earliest now m = Ret t.
Proof.
  intros Hm. unfold earliest. assert (Hl : Forall (fun e : Hash * list announce => e.2 <> []) (map_to_list m)).
  { apply Forall_forall. intros [h l] Hin%elem_of_map_to_list. by apply (Hm h). }
  generalize now. induction Hl as [|[h [|a l]] rest He _ IH]; intros t; cbn; [by exists t|done|]. apply IH.
Qed.

Lemma keeps_timers hand inj X a b f : X (set_timers a b f) -> keeps hand inj X f -> keeps hand inj X (set_timers a b f).
Proof.
  intros Hx [[H1 H2 H3] _]. split; [|done]. split; [by eapply stages_same; [..|exact H1]|by eapply queue_ok_same; [..|exact H2]|done].
Qed.

Lemma rescheduleFetch_arms now inj f : keeps [] inj complete_armed f -> exists f', rescheduleFetch now f = Ret (tt, f') /\ ft_ok inj f'.
Proof.
  intros [Hc Hx]. unfold rescheduleFetch. rewrite bind_gget. destruct (decide (announced f = ∅)) as [E|Hne]; [exists f; split; [done|]; split; [done|]; split; [by intros Hne|done]|].
  destruct (earliest_run now (announced f)) as [t Et]; [intros h l E; by destruct (sg_announced _ (fc_stages _ _ _ Hc) h l E)|].
  rewrite (bind_glift _ _ _ _ Et). eexists. split; [done|]. destruct Hc as [H1 H2 H3].
  split; [split; [by eapply stages_same; [..|exact H1]|by eapply queue_ok_same; [..|exact H2]|done]|]. split; [by eexists|done].
Qed.

Lemma rescheduleComplete_run now f : stages f -> exists t, rescheduleComplete now f = Ret (tt, set_timers (fetchTimer f) t f) /\
  (fetched f <> ∅ -> is_Some t) /\ (fetched f = ∅ -> t = completeTimer f).
Proof.
  intros Hs. unfold rescheduleComplete. rewrite bind_gget. destruct (decide (fetched f = ∅)) as [E|Hne]; [exists (completeTimer f); split; [by destruct f|]; split; [by intros Hne|done]|].
  destruct (earliest_run now (fetched f)) as [t Et]; [intros h l E; by destruct (sg_fetched _ Hs h l E)|].
  rewrite (bind_glift _ _ _ _ Et). eexists. split; [done|]. by split.
Qed.

Lemma rescheduleComplete_arms now inj f : keeps [] inj fetch_armed f -> exists f', rescheduleComplete now f = Ret (tt, f') /\ ft_ok inj f'.
Proof.
  intros [Hc Hx]. destruct (rescheduleComplete_run now f (fc_stages _ _ _ Hc)) as (t & -> & H1 & _). eexists. split; [done|].
  destruct Hc as [G1 G2 G3]. split; [split; [by eapply stages_same; [..|exact G1]|by eapply queue_ok_same; [..|exact G2]|done]|]. by split.
Qed.

(** ** Announcements *)

Lemma size_one_before {A : Type} (m : gmap Hash A) k v : size (<[k := v]> m) <> 1%nat -> m <> ∅.
Proof. intros Hs ->. apply Hs. rewrite insert_empty. apply map_size_singleton. Qed.

Lemma notify_keeps now inj a f : ft_ok inj f -> exists f', notify now a f = Ret (tt, f') /\ ft_ok inj f'.
Proof.
  intros Hf. unfold notify. rewrite bind_gget. destruct (_ <? _); [by exists f|].
  assert (Hfar : exists far c, (if 0 <? an_number a then height ← chainHeight; mret (too_far (an_number a) height) else mret false) f = Ret (far, set_chain c f) /\ I c).
  { pose proof (fc_chain _ _ _ (proj1 Hf)) as Hc. destruct (0 <? an_number a); [|exists false, (f_chain f); by destruct f].
    destruct (callback_run fc_chainHeight f answers_height Hc) as (height & c & E & Hc'). unfold chainHeight. rewrite (bind_run _ _ _ _ _ E). eauto. }
  destruct Hfar as (far & c & E & Hc). rewrite (bind_run _ _ _ _ _ E). pose proof (keeps_chain [] inj armed c f stable_armed Hc Hf) as Hf1.
  destruct far; [by eexists|]. rewrite bind_gget. destruct (_ || _) eqn:Eb; [by eexists|]. apply orb_false_iff in Eb as [E1 E2]. rewrite bind_gmodify, bind_gget.
  set (f1 := set_chain c f) in *. set (f2 := set_announced _ _). assert (Hk : keeps [] inj complete_armed f2).
  { destruct Hf1 as [[G1 G2 G3] [_ Gx]]. split; [|done]. split; [|by eapply queue_ok_same; [..|exact G2]|done]. destruct G1 as [S1 S2 S3]. split; [|exact S2|exact S3].
    intros h l Hl. cbn in Hl. apply lookup_insert_Some in Hl as [[<- <-]|[Hne El]]; [|by apply S1]. split; [by intros []%app_eq_nil|].
    split; [exact (found_false _ E1)|exact (found_false _ E2)]. }
  destruct (Nat.eqb_spec (size (announced f2)) 1) as [_|Hs]; [by apply rescheduleFetch_arms|]. exists f2. split; [done|]. destruct Hk as [Hk Hx]. split; [done|]. split; [|done].
  intros _. destruct Hf1 as [_ [Ha _]]. apply Ha. exact (size_one_before _ _ _ Hs).
Qed.

(** ** Moving on *)

Section moving.
Context (inj : list inject) (X : F -> Prop) (HX : stable X).
Context (stage : F -> gmap Hash announce) (put : Hash -> announce -> F -> F) (good : Hash -> announce -> Prop).
Context (Hput : forall hash a f, good hash a -> announced f !! hash = None -> keeps [] inj X f -> keeps [] inj X (put hash a f))
  (Eput : forall hash a f, stage (put hash a f) = <[hash := a]> (stage f)) (Eforget : forall hash f, stage (forgetHash hash f) = delete hash (stage f))
  (Echain : forall c f, stage (set_chain c f) = stage f) (Eask : forall r f, stage (ask r f) = stage f).

(** Every request is for blocks that are in the stage, and not among those to come. *)
Definition requested (f : F) (rest : list Hash) (request : gmap string (list Hash)) : Prop :=
  forall p hashes, request !! p = Some hashes -> hashes <> [] /\ Forall (fun h => is_Some (stage f !! h) /\ h ∉ rest) hashes.

Lemma pick_run n l hash : l <> [] -> Forall (good hash) l -> exists a, pick n l = Ret a /\ good hash a.
Proof.
  intros Hne Hl. destruct l as [|a l]; [done|]. eexists. split; [done|]. destruct ((a :: l) !! _) as [b|] eqn:E; cbn.
  - rewrite Forall_forall in Hl. apply Hl. by eapply list_elem_of_lookup_2.
  - by inversion Hl.
Qed.

Lemma move_on_keeps n hash l rest request f : l <> [] -> Forall (good hash) l -> hash ∉ rest -> keeps [] inj X f -> requested f (hash :: rest) request ->
  exists request' f', move_on put n hash l request f = Ret (request', f') /\ keeps [] inj X f' /\ requested f' rest request'.
Proof.
  intros Hne Hl Hr Hf Hreq. destruct (pick_run n l hash Hne Hl) as (a & Ea & Ha). unfold move_on. rewrite (bind_glift _ _ _ _ Ea), bind_gmodify.
  pose proof (keeps_forget [] inj X hash f HX Hf) as H1. destruct (callback_run (fc_getBlock hash) _ (answers_getBlock hash) (fc_chain _ _ _ (proj1 H1))) as (b & c & Eb & Hc).
  unfold getBlock. rewrite (bind_run _ _ _ _ _ Eb). pose proof (keeps_chain [] inj X c _ HX Hc H1) as H2. set (f2 := set_chain c (forgetHash hash f)) in *.
  assert (E2 : stage f2 = delete hash (stage f)) by (unfold f2; by rewrite Echain, Eforget).
  assert (Hold : forall p hashes, request !! p = Some hashes -> hashes <> [] /\ Forall (fun h => is_Some (stage f2 !! h) /\ h ∉ rest) hashes).
  { intros p hs E. destruct (Hreq p hs E) as [Hn Hall]. split; [done|]. eapply Forall_impl; [exact Hall|]. intros h [Hs [Hne' Hnr]%not_elem_of_cons]. split; [|done].
    by rewrite E2, lookup_delete_ne. }
  destruct b as [b|]; [by eexists _, _|]. rewrite bind_gmodify. eexists _, _. split; [done|]. split.
  { apply Hput; [done| |done]. unfold f2. destruct (forgetHash_fields hash f) as [m ->]. apply lookup_delete_eq. }
  assert (Hnew : forall h, is_Some (stage f2 !! h) -> is_Some (stage (put hash a f2) !! h)) by (intros h Hs; rewrite Eput; by apply lookup_insert_is_Some'; right).
  assert (Hall : forall hs, Forall (fun h => is_Some (stage f2 !! h) /\ h ∉ rest) hs -> Forall (fun h => is_Some (stage (put hash a f2) !! h) /\ h ∉ rest) hs).
  { intros hs Hh. eapply Forall_impl; [exact Hh|]. intros h [? ?]. auto. }
  intros p hs [[<- <-]|[_ E]]%lookup_insert_Some; [|destruct (Hold p hs E); auto]. split; [by intros []%app_eq_nil|]. apply Forall_app. split.
  - destruct (request !! an_origin a) as [hs'|] eqn:E; cbn; [destruct (Hold _ _ E); auto|constructor].
  - constructor; [|constructor]. split; [|done]. rewrite Eput. apply lookup_insert_is_Some'. by left.
Qed.

Lemma send_requests_keeps message request f : keeps [] inj X f -> requested f [] request ->
  exists f', send_requests stage message request f = Ret (tt, f') /\ keeps [] inj X f'.
Proof using HX Eask.
  intros Hf Hreq. unfold send_requests.
  destruct (total_for_each (fun _ (_ : unit) f' => keeps [] inj X f' /\ stage f' = stage f)
    (fun _ (e : string * list Hash) => f ← gget; match e.2 with [] => gpanic | hash :: _ => match stage f !! hash with None => gpanic | Some a => gmodify (ask (message (an_origin a) e.2)) end end)
    (range request)) with (acc := tt) (s := f) as ([] & f' & E & Hf' & _); [|done|by exists f'].
  intros [p hs] l' [] [l0 El] g [Hg Eg]. rewrite bind_gget. cbn [snd]. assert (Hin : request !! p = Some hs).
  { apply elem_of_map_to_list. rewrite <- (range_perm request), El. apply elem_of_app. right. constructor. }
  destruct (Hreq p hs Hin) as [Hn Hall]. destruct hs as [|h hs]; [done|]. apply Forall_cons in Hall as [[[a Ea] _] _]. rewrite Eg, Ea.
  eexists _, _. split; [done|]. split; [by apply keeps_ask|]. by rewrite Eask.
Qed.

End moving.

Lemma keeps_put_fetching inj X hash a f : stable X -> announced f !! hash = None -> keeps [] inj X f -> keeps [] inj X (put_fetching hash a f).
Proof.
  intros HX Ha [[[S1 S2 S3] H2 H3] Hx]. split; [|by eapply HX; [|exact Hx]]. split; [|by eapply queue_ok_same; [..|exact H2]|done]. split; [|exact S2|exact S3].
  cbn. intros h l E. destruct (S1 h l E) as (A1 & A2 & A3). split; [done|]. split; [|done]. rewrite lookup_insert_ne; [done|]. intros ->. congruence.
Qed.

Lemma keeps_put_completing inj X hash a f : stable X -> headed hash a -> announced f !! hash = None -> keeps [] inj X f -> keeps [] inj X (put_completing hash a f).
Proof.
  intros HX Hh Ha [[[S1 S2 S3] H2 H3] Hx]. split; [|by eapply HX; [|exact Hx]]. split; [|by eapply queue_ok_same; [..|exact H2]|done]. split; [|exact S2|]; cbn.
  - intros h l E. destruct (S1 h l E) as (A1 & A2 & A3). split; [done|]. split; [done|]. rewrite lookup_insert_ne; [done|]. intros ->. congruence.
  - intros h b [[<- <-]|[_ E]]%lookup_insert_Some; [done|by apply S3].
Qed.

Lemma range_keys {A : Type} {MO : MapOrder Hash A} (m : gmap Hash A) : NoDup (fst <$> range m).
Proof. rewrite (range_perm m). apply NoDup_fst_map_to_list. Qed.

Lemma in_range {A : Type} {MO : MapOrder Hash A} (m : gmap Hash A) l0 e l' : range m = l0 ++ e :: l' -> m !! e.1 = Some e.2 /\ e.1 ∉ fst <$> l'.
Proof.
  intros E. split; [apply elem_of_map_to_list; rewrite <- (range_perm m), E; destruct e; set_solver|]. pose proof (range_keys m) as Hn. rewrite E, fmap_app in Hn.
  apply NoDup_app in Hn as (_ & _ & Hn). cbn in Hn. by apply NoDup_cons in Hn as [? _].
Qed.

Lemma fetchTimer_keeps now since rand inj f : keeps [] inj complete_armed f -> exists f', on_fetchTimer now since rand f = Ret (tt, f') /\ ft_ok inj f'.
Proof.
  intros Hf. unfold on_fetchTimer. rewrite bind_gget. set (body := fun request (e : Hash * list announce) => _).
  destruct (total_for_each (fun rest request g => keeps [] inj complete_armed g /\ requested fetching g (fst <$> rest) request) body (range (announced f)))
    with (acc := (∅ : gmap string (list Hash))) (s := f) as (request & f1 & E1 & Hf1 & Hr1).
  - intros [h l] l' acc [l0 El] g [Hg Hr]. destruct (in_range (announced f) l0 (h, l) l' El) as [Eh Hnd]. destruct (sg_announced _ (fc_stages _ _ _ (proj1 Hf)) h l Eh) as (Hne & _).
    unfold body. cbn [fst snd]. destruct l as [|a l]; [done|]. destruct (_ <? _).
    + apply (move_on_keeps inj complete_armed stable_complete fetching put_fetching (fun _ _ => True)); try done.
      * intros hash b g0 _ Ha Hk. by apply keeps_put_fetching; [apply stable_complete|..].
      * intros hash g0. by destruct (forgetHash_fields hash g0) as [m ->].
      * by apply Forall_forall.
    + eexists _, _. split; [done|]. split; [done|]. intros p hs E. destruct (Hr p hs E) as [Hn Hall]. split; [done|]. eapply Forall_impl; [exact Hall|]. cbn. set_solver.
  - split; [done|]. intros p hs E. by rewrite lookup_empty in E.
  - rewrite (bind_run _ _ _ _ _ E1). destruct (send_requests_keeps inj complete_armed stable_complete fetching ltac:(done) (fun peer hashes => FetchHeader peer <$> hashes) request f1 Hf1 Hr1) as (f2 & E2 & Hf2).
    rewrite (bind_run _ _ _ _ _ E2). by apply rescheduleFetch_arms.
Qed.

Lemma completeTimer_keeps now rand inj f : keeps [] inj fetch_armed f -> exists f', on_completeTimer now rand f = Ret (tt, f') /\ ft_ok inj f'.
Proof.
  intros Hf. unfold on_completeTimer. rewrite bind_gget. set (body := fun request (e : Hash * list announce) => _).
  destruct (total_for_each (fun rest request g => keeps [] inj fetch_armed g /\ requested completing g (fst <$> rest) request) body (range (fetched f)))
    with (acc := (∅ : gmap string (list Hash))) (s := f) as (request & f1 & E1 & Hf1 & Hr1).
  - intros [h l] l' acc [l0 El] g [Hg Hr]. destruct (in_range (fetched f) l0 (h, l) l' El) as [Eh Hnd]. destruct (sg_fetched _ (fc_stages _ _ _ (proj1 Hf)) h l Eh) as (Hne & Hall).
    apply (move_on_keeps inj fetch_armed stable_fetch completing put_completing headed); try done.
    + intros hash b g0 Hb Ha Hk. by apply keeps_put_completing; [apply stable_fetch|..].
    + intros hash g0. by destruct (forgetHash_fields hash g0) as [m ->].
  - split; [done|]. intros p hs E. by rewrite lookup_empty in E.
  - rewrite (bind_run _ _ _ _ _ E1). destruct (send_requests_keeps inj fetch_armed stable_fetch completing ltac:(done) (fun peer hashes => [FetchBodies peer hashes]) request f1 Hf1 Hr1) as (f2 & E2 & Hf2).
    rewrite (bind_run _ _ _ _ _ E2). by apply rescheduleComplete_arms.
Qed.

(** ** Headers *)

(** A header that arrives has a number, and its blocks are sound. *)
Definition arrives (h : Header) : Prop := (exists n, header_number h = Ret n) /\ heads_sound h.

(** What the fetcher may assemble. *)
Definition assembled (b : Block) : Prop := numbered b /\ body_matches b /\ sound b.

Definition sorted_ok (s : Sorted) : Prop := Forall (fun a => exists hash, headed hash a) (incomplete s) /\ Forall assembled (complete s).

Lemma awaited_Some hash a (f : F) : awaited hash f = Some a -> fetching f !! hash = Some a.
Proof. unfold awaited. by repeat case_match; intros [= ->]. Qed.

Lemma fetching_only hash a f : stages f -> fetching f !! hash = Some a -> announced f !! hash = None.
Proof. intros Hs E. destruct (announced f !! hash) as [l|] eqn:El; [|done]. destruct (sg_announced _ Hs hash l El) as (_ & ? & _). congruence. Qed.

Lemma completing_only hash a f : stages f -> completing f !! hash = Some a -> announced f !! hash = None.
Proof. intros Hs E. destruct (announced f !! hash) as [l|] eqn:El; [|done]. destruct (sg_announced _ Hs hash l El) as (_ & _ & ?). congruence. Qed.

Lemma empty_body_matches header : empty_body header = true -> body_matches (mkBlock header [] []).
Proof. unfold empty_body. intros [?%Z.eqb_eq ?%Z.eqb_eq]%andb_prop. by split. Qed.

Lemma sort_header_keeps time inj s header f : arrives header -> ft_ok inj f -> sorted_ok s ->
  exists s' f', sort_header time s header f = Ret (s', f') /\ ft_ok inj f' /\ sorted_ok s'.
Proof.
  intros [[n En] Hso] Hf [Hi Hc]. unfold sort_header. rewrite bind_gget. destruct (awaited _ f) as [a|] eqn:Ea; [|by eexists _, _]. apply awaited_Some in Ea.
  rewrite (bind_glift _ _ _ _ En). destruct (Z.eqb_spec n (an_number a)) as [->|_]; cbn [negb].
  2:{ rewrite bind_gmodify. eexists _, _. split; [done|]. split; [|done]. apply keeps_forget, keeps_drop; [apply stable_armed..|done]. }
  destruct (callback_run (fc_getBlock (Header_Hash header)) f (answers_getBlock _) (fc_chain _ _ _ (proj1 Hf))) as (b & c & Eb & HI).
  unfold getBlock. rewrite (bind_run _ _ _ _ _ Eb). pose proof (keeps_chain [] inj armed c f stable_armed HI Hf) as Hf1. destruct b as [b|].
  { rewrite bind_gmodify. eexists _, _. split; [done|]. split; [|done]. by apply keeps_forget; [apply stable_armed|]. }
  rewrite bind_gmodify. set (f1 := set_chain c f) in *. set (a' := with_header header time a).
  assert (Ha : announced f1 !! Header_Hash header = None) by (eapply fetching_only; [exact (fc_stages _ _ _ (proj1 Hf1))|exact Ea]).
  assert (Hh : headed (Header_Hash header) a') by (by exists header).
  pose proof (keeps_put_fetching inj armed (Header_Hash header) a' f1 stable_armed Ha Hf1) as Hf2. destruct (empty_body header) eqn:Ee.
  - rewrite bind_gmodify. eexists _, _. split; [done|]. split; [by apply keeps_put_completing; [apply stable_armed|..]|]. split; [done|]. apply Forall_app. split; [done|].
    constructor; [|done]. pose proof (empty_body_matches header Ee). split; [by exists (an_number a)|]. auto.
  - eexists _, _. split; [done|]. split; [done|]. split; [|done]. apply Forall_app. split; [done|]. constructor; [by exists (Header_Hash header)|done].
Qed.

Lemma await_body_keeps now inj a f : (exists hash, headed hash a) -> ft_ok inj f -> exists f', await_body now a f = Ret (tt, f') /\ ft_ok inj f'.
Proof.
  intros (hash & header & Eh & Ehash & En & Hso) Hf. unfold await_body. rewrite Eh, bind_gget, Ehash. destruct (found _); [by eexists|]. rewrite bind_gmodify, bind_gget.
  set (f2 := set_fetched _ _). assert (Hk : keeps [] inj fetch_armed f2).
  { destruct Hf as [[G1 G2 G3] [Gx _]]. split; [|done]. split; [|by eapply queue_ok_same; [..|exact G2]|done]. destruct G1 as [S1 S2 S3]. split; [exact S1| |exact S3].
    intros h l Hl. cbn in Hl. apply lookup_insert_Some in Hl as [[<- <-]|[Hne El]]; [|by apply S2]. split; [by intros []%app_eq_nil|]. apply Forall_app. split.
    - destruct (fetched f !! hash) as [l|] eqn:El; cbn; [by apply S2|done].
    - constructor; [|done]. by exists header. }
  destruct (Nat.eqb_spec (size (fetched f2)) 1) as [_|Hs]; [by apply rescheduleComplete_arms|]. exists f2. split; [done|]. destruct Hk as [Hk Hx]. split; [done|]. split; [done|].
  intros _. destruct Hf as [_ [_ Ha]]. apply Ha. exact (size_one_before _ _ _ Hs).
Qed.

Lemma enqueue_completed_keeps inj b f : assembled b -> ft_ok inj f -> exists f', enqueue_completed b f = Ret (tt, f') /\ ft_ok inj f'.
Proof.
  intros (Hn & Hb & Hso) Hf. unfold enqueue_completed. rewrite bind_gget. destruct (completing f !! _) as [a|]; [|by eexists].
  destruct (enqueue_keeps inj armed (an_origin a) b stable_armed Hn (or_intror Hb) Hso f Hf) as ([] & f' & E & Hf'). by exists f'.
Qed.

(** A loop over elements with a property, of calls that keep the invariant. *)
Lemma each_keeps {A : Type} inj (P : A -> Prop) (g : A -> go F unit) l :
  (forall x f, P x -> ft_ok inj f -> exists f', g x f = Ret (tt, f') /\ ft_ok inj f') -> Forall P l ->
  forall f, ft_ok inj f -> exists f', for_each (fun _ x => g x) tt l f = Ret (tt, f') /\ ft_ok inj f'.
Proof.
  intros Hg Hl f Hf. destruct (total_for_each (fun _ (_ : unit) f' => ft_ok inj f') (fun _ x => g x) l) with (acc := tt) (s := f) as ([] & f' & E & Hf'); [|done|by exists f'].
  intros x l' [] [l0 El] h Hh. rewrite El in Hl. apply Forall_app in Hl as [_ [Hx _]%Forall_cons]. destruct (Hg x h Hx Hh) as (h' & E & Hh'). by exists tt, h'.
Qed.

Lemma FilterHeaders_keeps now time inj headers f : Forall arrives headers -> ft_ok inj f ->
  exists left f', FilterHeaders now time headers f = Ret (left, f') /\ ft_ok inj f'.
Proof.
  intros Hh Hf. unfold FilterHeaders.
  destruct (total_for_each (fun _ s f' => ft_ok inj f' /\ sorted_ok s) (sort_header time) headers) with (acc := mkSorted [] [] []) (s := f) as (s & f1 & E1 & Hf1 & Hs).
  - intros h l' s [l0 El] g [Hg Hs]. rewrite El in Hh. apply Forall_app in Hh as [_ [Hn _]%Forall_cons]. by apply sort_header_keeps.
  - split; [done|]. split; constructor.
  - rewrite (bind_run _ _ _ _ _ E1). destruct Hs as [Hi Hc]. destruct (each_keeps inj _ (await_body now) _ (await_body_keeps now inj) Hi f1 Hf1) as (f2 & E2 & Hf2).
    rewrite (bind_run _ _ _ _ _ E2). destruct (each_keeps inj _ enqueue_completed _ (enqueue_completed_keeps inj) Hc f2 Hf2) as (f3 & E3 & Hf3).
    rewrite (bind_run _ _ _ _ _ E3). by eexists _, _.
Qed.

(** ** Bodies *)

Lemma match_body_keeps txs uncles inj blocks f : ft_ok inj f -> Forall assembled blocks ->
  exists m blocks' f', match_body txs uncles blocks f = Ret (m, blocks', f') /\ ft_ok inj f' /\ Forall assembled blocks'.
Proof.
  intros Hf Hb. unfold match_body. rewrite bind_gget. set (body := fun (r : bool * list Block) (e : Hash * announce) => _).
  destruct (total_for_each (fun _ (r : bool * list Block) f' => ft_ok inj f' /\ Forall assembled r.2) body (range (completing f)))
    with (acc := (false, blocks)) (s := f) as ([m blocks'] & f' & E & Hf' & Hb'); [|done|by exists m, blocks', f'].
  intros [hash a] l' [m bs] [l0 El] g [Hg Hbs]. destruct (in_range (completing f) l0 (hash, a) l' El) as [Eh _].
  destruct (sg_completing _ (fc_stages _ _ _ (proj1 Hf)) hash a Eh) as (header & Eah & Ehash & En & Hso). unfold body. rewrite bind_gget. cbn [fst snd].
  destruct (queued g !! hash); [by eexists _, _|]. rewrite Eah. destruct (_ && _) eqn:Em; [|by eexists _, _].
  destruct (callback_run (fc_getBlock hash) g (answers_getBlock _) (fc_chain _ _ _ (proj1 Hg))) as (b & c & Eb & HI).
  unfold getBlock. rewrite (bind_run _ _ _ _ _ Eb). pose proof (keeps_chain [] inj armed c g stable_armed HI Hg) as Hg1. destruct b as [b|].
  - rewrite bind_gmodify. eexists _, _. split; [done|]. split; [|done]. by apply keeps_forget; [apply stable_armed|].
  - eexists _, _. split; [done|]. split; [done|]. cbn [snd]. apply Forall_app. split; [done|]. constructor; [|done].
    apply andb_prop in Em as [?%Z.eqb_eq ?%Z.eqb_eq]. assert (body_matches (mkBlock header txs uncles)) by (by split). split; [by exists (an_number a)|]. auto.
Qed.

Lemma match_bodies_keeps inj txLists : forall uncleLists blocks f, ft_ok inj f -> Forall assembled blocks ->
  exists left blocks' f', match_bodies txLists uncleLists blocks f = Ret (left, blocks', f') /\ ft_ok inj f' /\ Forall assembled blocks'.
Proof.
  induction txLists as [|txs txLists IH]; intros uncleLists blocks f Hf Hb; [by eexists _, _, _|]. destruct uncleLists as [|uncles uncleLists]; [by eexists _, _, _|].
  cbn [match_bodies]. destruct (match_body_keeps txs uncles inj blocks f Hf Hb) as (m & bs & f1 & E1 & Hf1 & Hb1). rewrite (bind_run _ _ _ _ _ E1). cbn [snd fst].
  destruct (IH uncleLists bs f1 Hf1 Hb1) as ([tl ul] & bs' & f2 & E2 & Hf2 & Hb2). rewrite (bind_run _ _ _ _ _ E2). destruct m; by eexists _, _, _.
Qed.

Lemma FilterBodies_keeps inj txLists uncleLists f : ft_ok inj f -> exists left f', FilterBodies txLists uncleLists f = Ret (left, f') /\ ft_ok inj f'.
Proof.
  intros Hf. unfold FilterBodies. destruct (match_bodies_keeps inj txLists uncleLists [] f Hf ltac:(constructor)) as (left & bs & f1 & E1 & Hf1 & Hb).
  rewrite (bind_run _ _ _ _ _ E1). cbn [snd]. destruct (each_keeps inj _ enqueue_completed _ (enqueue_completed_keeps inj) Hb f1 Hf1) as (f2 & E2 & Hf2).
  rewrite (bind_run _ _ _ _ _ E2). by eexists _, _.
Qed.


(** ** Imports *)

Lemma import_turn_keeps inj op stage f : stage <> Ended -> (stage = Importing -> passes (block_header (in_block op))) -> sound (in_block op) -> ft_ok inj f ->
  exists stage' f', import_turn op stage f = Ret (stage', f') /\ ft_ok inj f' /\ imports f' = imports f /\ (stage' = Importing -> passes (block_header (in_block op))).
Proof.
  intros Hs Hp Hso Hf. pose proof (fc_chain _ _ _ (proj1 Hf)) as HI. destruct stage; [| |done]; unfold import_turn.
  - destruct (callback_run _ f (answers_getBlock (block_ParentHash (in_block op))) HI) as (b & c & Eb & Hc). unfold getBlock. rewrite (bind_run _ _ _ _ _ Eb).
    pose proof (keeps_chain [] inj armed c f stable_armed Hc Hf) as Hf1. destruct b as [b|]; [|by eexists _, _].
    destruct (answers_verify (block_header (in_block op)) c Hc) as (v & c2 & Ev & Hc2 & Hv). rewrite (bind_run _ _ _ v (set_chain c2 (set_chain c f))) by (unfold on_chain; cbn; by rewrite Ev).
    pose proof (keeps_chain [] inj armed c2 _ stable_armed Hc2 Hf1) as Hf2. destruct v; rewrite ?bind_gmodify; eexists _, _; (split; [done|]); (split; [|split; [done|]]); try (intros _; by apply Hv); try done.
    + by apply keeps_ask; [apply stable_armed|].
    + by apply keeps_drop; [apply stable_armed|].
  - destruct (callback_run _ f (answers_insert (in_block op) (Hp eq_refl) Hso) HI) as (failed & c & Eb & Hc). rewrite (bind_run _ _ _ _ _ Eb).
    pose proof (keeps_chain [] inj armed c f stable_armed Hc Hf) as Hf1. destruct failed; [by eexists _, _|]. rewrite bind_gmodify. eexists _, _. split; [done|]. split; [|done].
    by apply keeps_ask; [apply stable_armed|].
Qed.

Lemma keeps_stage inj X i im stage f : stable X -> imports f !! i = Some im -> (stage = Importing -> passes (block_header (in_block (im_op im)))) -> keeps [] inj X f ->
  keeps [] inj X (set_imports (<[i := mkImport (im_op im) stage]> (imports f)) f).
Proof.
  intros HX E Hp Hk. pose proof Hk as [[H1 [Q1 Q2 Q3 Q4 Q5 Q6] H3] Hx]. split; [|by eapply HX; [|exact Hx]]. split; [by eapply stages_same; [..|exact H1]| |done].
  split; try done; cbn; [|by apply Forall_insert]. rewrite list_fmap_insert. cbn. rewrite list_insert_id; [done|]. by rewrite list_lookup_fmap, E.
Qed.

Lemma import_step_keeps inj i im f : imports f !! i = Some im -> im_stage im <> Ended -> ft_ok inj f ->
  exists f', import_step i f = Ret (tt, f') /\ ft_ok inj f'.
Proof.
  intros E Hs Hf. pose proof (fc_queue _ _ _ (proj1 Hf)) as Hq. pose proof (Forall_lookup_1 _ _ _ _ (qo_passed _ _ _ Hq) E) as Hp.
  assert (Hin : im_op im ∈ im_op <$> imports f) by (apply list_elem_of_fmap; exists im; split; [done|by eapply list_elem_of_lookup_2]).
  pose proof (queued_op _ _ _ (im_op im) Hq ltac:(set_solver)) as Eo. destruct (qo_hash _ _ _ Hq _ _ Eo) as (_ & _ & _ & Hso).
  unfold import_step. rewrite bind_gget, E. destruct (import_turn_keeps inj (im_op im) (im_stage im) f Hs Hp Hso Hf) as (stage & f1 & E1 & Hf1 & Ei & Hp1).
  rewrite (bind_run _ _ _ _ _ E1). eexists. split; [done|]. apply keeps_stage; [apply stable_armed|by rewrite Ei|done|done].
Qed.

Lemma import_done_keeps inj i op f : imports f !! i = Some (mkImport op Ended) -> ft_ok inj f -> exists f', import_done i f = Ret (tt, f') /\ ft_ok inj f'.
Proof.
  intros E Hf. unfold import_done. rewrite bind_gget, E. eexists. split; [done|]. assert (H1 : keeps [op] inj armed (set_imports (delete i (imports f)) f)).
  { destruct Hf as [[H1 [Q1 Q2 Q3 Q4 Q5 Q6] H3] Hx]. split; [|by eapply stable_armed; [|exact Hx]]. split; [by eapply stages_same; [..|exact H1]| |done].
    split; try done; cbn; [|by apply Forall_delete]. rewrite <- Q2. cbn. rewrite (delete_Permutation _ _ _ E) at 2. cbn. by rewrite Permutation_middle. }
  pose proof (keeps_forget [op] inj armed (block_Hash (in_block op)) _ stable_armed H1) as [H2 Hx2]. split; [by apply core_done|]. eapply stable_armed; [apply less_done|done].
Qed.

(** ** The loop *)

(** Blocks and headers have numbers and are sound, and an import that is taken has ended. *)
Definition event_ok (f : F) (ev : Event) : Prop :=
  match ev with
  | EInject op => numbered (in_block op) /\ sound (in_block op)
  | EDone i => exists op, imports f !! i = Some (mkImport op Ended)
  | EHeaders _ headers => Forall arrives headers
  | _ => True
  end.

(** The block an event injects. *)
Definition injected (ev : Event) : list inject := match ev with EInject op => [op] | _ => [] end.

Lemma ft_ok_more inj inj' f : inj ⊆ inj' -> ft_ok inj f -> ft_ok inj' f.
Proof.
  intros Hi [[H1 [Q1 Q2 Q3 Q4 Q5 Q6] H3] Hx]. split; [|done]. split; [done| |done]. split; try done. intros h op E. destruct (Q1 h op E) as (? & ? & [Ho|Ho] & ?); split_and!; try done.
  - left. by apply Hi.
  - by right.
Qed.

Lemma handle_keeps now since stale inj ev f : event_ok f ev -> ft_ok inj f -> exists f', handle now since stale ev f = Ret (tt, f') /\ ft_ok (injected ev ++ inj) f'.
Proof.
  intros Hev Hf. destruct ev as [a|op|i|rand|rand|time headers|txs uncles]; cbn [handle injected app].
  - by apply notify_keeps.
  - destruct (enqueue_keeps (op :: inj) armed (in_origin op) (in_block op) stable_armed (proj1 Hev)) with (s := f) as ([] & f' & E & Hf').
    + left. destruct op. left.
    + apply Hev.
    + eapply ft_ok_more; [|done]. set_solver.
    + by exists f'.
  - destruct Hev as [op E]. by eapply import_done_keeps.
  - rewrite bind_gmodify. apply fetchTimer_keeps. destruct Hf as [Hc [_ Hx]]. destruct stale; [by split|]. by apply keeps_timers.
  - rewrite bind_gmodify. apply completeTimer_keeps. destruct Hf as [Hc [Hx _]]. destruct stale; [by split|]. by apply keeps_timers.
  - destruct (FilterHeaders_keeps now time inj headers f Hev Hf) as (left & f' & E & Hf'). rewrite (bind_run _ _ _ _ _ E). by eexists.
  - destruct (FilterBodies_keeps inj txs uncles f Hf) as (left & f' & E & Hf'). rewrite (bind_run _ _ _ _ _ E). by eexists.
Qed.

Lemma loop_turn_keeps now since stale inj ev f : event_ok f ev -> ft_ok inj f ->
  exists f', loop_turn now since stale ev f = Ret (tt, f') /\ ft_ok (injected ev ++ inj) f'.
Proof.
  intros Hev Hf. destruct (handle_keeps now since stale inj ev f Hev Hf) as (f1 & E1 & Hf1). unfold loop_turn. rewrite (bind_run _ _ _ _ _ E1).
  destruct (loop_head_keeps _ armed since stable_armed f1 Hf1) as ([] & f2 & E2 & Hf2). by exists f2.
Qed.

Lemma New_ok chain : I chain -> ft_ok [] (New chain).
Proof.
  intros HI. split; [|by split; intros Hne]. split; [split; cbn; intros ? ? E; by rewrite lookup_empty in E| |done]. split; cbn.
  - intros h op E. by rewrite lookup_empty in E.
  - unfold ops. rewrite items_New, map_to_list_empty. done.
  - rewrite items_New. constructor.
  - intros p. rewrite lookup_empty. done.
  - intros p. unfold owned. rewrite map_filter_empty, map_size_empty. done.
  - constructor.
Qed.

(** The runs of the fetcher, with the blocks that were injected: turns of the loop,
    steps of the imports, and changes of the chain by others. *)
Inductive ft_run : list inject -> F -> Prop :=
| ft_begin chain since f : I chain -> loop_head since (New chain) = Ret (tt, f) -> ft_run [] f
| ft_turn inj f now since stale ev f' : ft_run inj f -> event_ok f ev -> loop_turn now since stale ev f = Ret (tt, f') -> ft_run (injected ev ++ inj) f'
| ft_import inj f i im f' : ft_run inj f -> imports f !! i = Some im -> im_stage im <> Ended -> import_step i f = Ret (tt, f') -> ft_run inj f'
| ft_chain inj f c : ft_run inj f -> I c -> ft_run inj (set_chain c f).

Lemma ft_run_ok inj f : ft_run inj f -> ft_ok inj f.
Proof.
  induction 1 as [chain since f HI E|inj f now since stale ev f' _ IH Hev E|inj f i im f' _ IH Ei Hs E|inj f c _ IH HI].
  - destruct (loop_head_keeps [] armed since stable_armed (New chain) (New_ok chain HI)) as ([] & f' & E' & Hf'). rewrite E in E'. by injection E' as <-.
  - destruct (loop_turn_keeps now since stale inj ev f Hev IH) as (f2 & E2 & Hf2). rewrite E in E2. by injection E2 as <-.
  - destruct (import_step_keeps inj i im f Ei Hs IH) as (f2 & E2 & Hf2). rewrite E in E2. by injection E2 as <-.
  - by apply keeps_chain; [apply stable_armed|..].
Qed.


(** ** Theorems *)

(** C3. The fetcher keeps its books, whatever peers announce and send and however the
    chain changes meanwhile. In every run the blocks in the queue and the blocks that
    are being imported are together the queued ones, each once; no peer has more than
    [blockLimit] of them, and its counter is their number; a block that is announced is
    not being fetched or completed, and one whose body is asked for has its header;
    and while blocks wait to be fetched or completed the timer for it is set. *)
Theorem fetcher_consistent inj f : ft_run inj f ->
  ops (f_queue f) ++ (im_op <$> imports f) ≡ₚ (map_to_list (queued f)).*2 /\
  (forall p, default 0 (queues f !! p) = owned p (queued f) /\ owned p (queued f) <= blockLimit) /\
  (forall hash l, announced f !! hash = Some l -> fetching f !! hash = None /\ completing f !! hash = None) /\
  (forall hash a, completing f !! hash = Some a -> exists header, an_header a = Some header /\ Header_Hash header = hash) /\
  (announced f <> ∅ -> is_Some (fetchTimer f)) /\ (fetched f <> ∅ -> is_Some (completeTimer f)).
Proof.
  intros [[[S1 S2 S3] [Q1 Q2 Q3 Q4 Q5 Q6] _] [Ha Hc]]%ft_run_ok. split; [done|]. split; [done|]. split.
  { intros hash l E. by destruct (S1 hash l E) as (_ & ? & ?). }
  split; [|done]. intros hash a E. destruct (S3 hash a E) as (header & ? & ? & _). by exists header.
Qed.

(** C24. The fetcher imports only what it was given. A block that is queued or being
    imported was sent by a peer as a whole, or its transactions and uncles are those its
    header commits to; and a block whose import has begun has a header that the
    engine did not refuse. *)
Theorem queued_blocks_sound inj f op : ft_run inj f -> op ∈ ops (f_queue f) ++ (im_op <$> imports f) ->
  (op ∈ inj \/ (DeriveSha_block (block_txs (in_block op)) = TxHash (block_header (in_block op)) /\
                CalcUncleHash (block_uncles (in_block op)) = UncleHash (block_header (in_block op)))) /\
  (mkImport op Importing ∈ imports f -> passes (block_header (in_block op))).
Proof.
  intros Hr%ft_run_ok Hin. pose proof (fc_queue _ _ _ (proj1 Hr)) as Hq. pose proof (queued_op _ _ _ op Hq Hin) as Eo.
  destruct (qo_hash _ _ _ Hq _ _ Eo) as (_ & _ & Hs & _). split; [done|]. intros Hi. pose proof (qo_passed _ _ _ Hq) as Hp. rewrite Forall_forall in Hp. by apply (Hp _ Hi).
Qed.

(** The loop of the fetcher never panics and always comes back, and so does every
    import: whatever event arrives, the turn of the loop that handles it ends, and each
    import that has not ended makes its next step. *)
Theorem fetcher_never_panics inj f now since stale ev : ft_run inj f -> event_ok f ev ->
  (exists f', loop_turn now since stale ev f = Ret (tt, f') /\ ft_run (injected ev ++ inj) f') /\
  (forall i im, imports f !! i = Some im -> im_stage im <> Ended -> exists f', import_step i f = Ret (tt, f') /\ ft_run inj f').
Proof.
  intros Hr Hev. pose proof (ft_run_ok _ _ Hr) as Hf. split.
  - destruct (loop_turn_keeps now since stale inj ev f Hev Hf) as (f' & E & _). exists f'. split; [done|]. by eapply ft_turn.
  - intros i im Ei Hs. destruct (import_step_keeps inj i im f Ei Hs Hf) as (f' & E & _). exists f'. split; [done|]. by eapply ft_import.
Qed.

(** A turn of the loop takes nothing out of the queue before its head, and only looks
    blocks up in the chain. *)
Definition grown (c : C) (l : list inject) (f : F) : Prop := looked_up c (f_chain f) /\ l ⊆ ops (f_queue f).

Lemma grown_same c l f f' : f_chain f' = f_chain f -> f_queue f' = f_queue f -> grown c l f -> grown c l f'.
Proof. unfold grown. by intros -> ->. Qed.

Lemma grown_forget c l hash f : grown c l f -> grown c l (forgetHash hash f).
Proof. destruct (forgetHash_fields hash f) as [m ->]. by apply grown_same. Qed.

Lemma grown_push c l op p q d f : grown c l f -> grown c l (set_queue (prque_Push (f_queue f) op p) q d f).
Proof.
  intros [H1 H2]. split; [done|]. cbn. intros o Ho. unfold ops. rewrite (fmap_Permutation _ _ _ (items_Push _ _ _)). right. by apply H2.
Qed.

Lemma getBlock_grows c l hash : preserves (grown c l) (getBlock hash).
Proof.
  intros f b f' [H1 H2] E. unfold getBlock, on_chain in E. destruct (fc_getBlock hash (f_chain f)) as [[x c']| |] eqn:Ec; [|done..].
  injection E as _ <-. split; [by eapply looked_up_block|done].
Qed.

Lemma chainHeight_grows c l : preserves (grown c l) chainHeight.
Proof.
  intros f b f' [H1 H2] E. unfold chainHeight, on_chain in E. destruct (fc_chainHeight (f_chain f)) as [[x c']| |] eqn:Ec; [|done..].
  injection E as _ <-. split; [by eapply looked_up_height|done].
Qed.

Lemma enqueue_grows c l peer block : preserves (grown c l) (enqueue peer block).
Proof.
  unfold enqueue. preserve; auto using grown_forget, chainHeight_grows, grown_push.
Qed.

Lemma reschedule_grows c l now : preserves (grown c l) (rescheduleFetch now) /\ preserves (grown c l) (rescheduleComplete now).
Proof. unfold rescheduleFetch, rescheduleComplete. split; preserve; by eapply grown_same. Qed.

Lemma move_on_grows c l put n hash anns request : (forall h a f, grown c l f -> grown c l (put h a f)) ->
  preserves (grown c l) (move_on put n hash anns request).
Proof. intros Hp. unfold move_on. preserve; auto using grown_forget, getBlock_grows. Qed.

Lemma requests_grow c l stage message request : preserves (grown c l) (send_requests stage message request).
Proof. unfold send_requests. preserve. Qed.

Lemma match_bodies_grows c l : forall txLists uncleLists blocks, preserves (grown c l) (match_bodies txLists uncleLists blocks).
Proof.
  pose proof (getBlock_grows c l) as Hb. induction txLists as [|txs txLists IH]; intros [|uncles uncleLists] blocks; cbn [match_bodies]; try apply preserves_ret.
  apply preserves_bind; [|intros m; apply preserves_bind; [apply IH|intros; apply preserves_ret]]. unfold match_body. preserve. by apply grown_forget.
Qed.

Lemma handle_grows c l now since stale ev : preserves (grown c l) (handle now since stale ev).
Proof.
  destruct (reschedule_grows c l now) as [Hr1 Hr2]. pose proof (enqueue_grows c l) as He. pose proof (getBlock_grows c l) as Hb.
  pose proof (chainHeight_grows c l) as Hh. pose proof (requests_grow c l) as Hq. pose proof (move_on_grows c l) as Hm.
  assert (Hd : forall b, preserves (grown c l) (enqueue_completed b)) by (intros b; unfold enqueue_completed; preserve).
  destruct ev; cbn [handle].
  - unfold notify. preserve; by eapply grown_same.
  - apply He.
  - unfold import_done. preserve. unfold forgetBlock. destruct (queued _ !! _); by apply grown_forget with (f := set_imports _ _).
  - unfold on_fetchTimer. preserve; destruct stale; auto.
  - unfold on_completeTimer. preserve; destruct stale; auto.
  - unfold FilterHeaders, sort_header, await_body. preserve; by apply grown_forget.
  - pose proof (match_bodies_grows c l) as Hm'. unfold FilterBodies. preserve.
Qed.

(** ** The blocks of a chain *)

Section has.
Context (has : C -> Hash -> Prop) {CH : ChainHas I has}.

Lemma looked_up_has c c' : looked_up c c' -> I c -> I c' /\ forall hash, has c' hash <-> has c hash.
Proof.
  induction 1 as [c|c c1 hash b c2 _ IH E|c c1 n c2 _ IH E]; intros Hc; [done|..]; destruct (IH Hc) as [H1 Hh].
  - destruct (answers_getBlock hash c1 H1) as (b' & c' & E' & H2). rewrite E in E'. injection E' as <- <-. split; [done|].
    intros h. by rewrite (has_block c1 hash b c2 h H1 E).
  - destruct (answers_height c1 H1) as (n' & c' & E' & H2). rewrite E in E'. injection E' as <- <-. split; [done|].
    intros h. by rewrite (has_height c1 n c2 h H1 E).
Qed.

(** C18. No block is left in the queue when its time has come, and none is lost. After a
    turn of the loop that found the chain at some height, every block left in the queue
    is more than one above it, as long as its number is below 2^24, where priorities are
    exact; and every block that was in the queue before the turn is still there, is being
    imported, or was dropped because its number is too far below the height or the chain
    of the turn has it. *)
Theorem due_blocks_leave inj f now since stale ev : ft_run inj f -> event_ok f ev ->
  exists f1 height c f', handle now since stale ev f = Ret (tt, f1) /\ fc_chainHeight (f_chain f1) = Ret (height, c) /\
    loop_turn now since stale ev f = Ret (tt, f') /\
    (forall op n, op ∈ ops (f_queue f') -> block_Number (in_block op) = Ret n -> n < 16777216 -> u64 (height + 1) < n) /\
    (forall op, op ∈ ops (f_queue f) ->
       op ∈ ops (f_queue f') \/ op ∈ im_op <$> imports f' \/ too_old height op \/ has (f_chain f) (block_Hash (in_block op))).
Proof.
  intros Hr%ft_run_ok Hev. destruct (handle_keeps now since stale inj ev f Hev Hr) as (f1 & E1 & Hf1).
  destruct (loop_head_sorts _ armed since f1 stable_armed Hf1) as (height & c & f' & Eh & E2 & _ & [S1 S2 _]).
  exists f1, height, c, f'. split; [done|]. split; [done|]. split; [unfold loop_turn; by rewrite (bind_run _ _ _ _ _ E1)|].
  split; [intros op n Hin; exact (S1 op Hin n)|]. intros op Hin.
  destruct (handle_grows (f_chain f) (ops (f_queue f)) now since stale ev f tt f1) as [Hl Hq]; [split; [constructor|done]|done|].
  destruct (S2 op (Hq op Hin)) as [?|[?|[?|(c1 & b & c2 & Hl1 & Eb)]]]; [auto..|]. right. right. right.
  destruct (looked_up_has (f_chain f) c1) as [H1 Hh]; [by etrans|apply (fc_chain _ _ _ (proj1 Hr))|]. apply Hh. by eapply has_found.
Qed.

End has.

End props.
