(* ===== verification/FtChain.v ===== *)
(** * The block chain of a node as the chain of the fetcher

    The functions the protocol manager hands to the fetcher (mc/handler.go), over the
    block chain, and that they answer as the fetcher relies on: with them every chain
    during a run of the fetcher is one a node can have. *)
From S2P Require Import Prelude GoMonad Fmt Clique TxList ChainDb ChainDbProps HeaderChain HeaderChainProps.
From S2P Require Import BlockChain BlockImport BlockChainProps BlockImportProps BlockWriteProps BlockReach.
From S2P Require Import Prque DlChain Fetcher FtProps.
Local Open Scope Z_scope.

Section chain.
Context {KL : KvLib} {KLaws : KvLaws} {HL : HashLib} {HLaws : HashLaws} {CL : CliqueLib} {CLaws : HeaderLaws}
  {TL : TxLib} {LL : LruLib} {LLaws : LruLaws} {BL : ChainLib} {BLaws : ChainLaws} {BR : BlockRules}.
Context {RH : RLP Header} {RB : RLP Body} {RZ : RLP Z} {RR : RLP (list ChainReceipt)} {RE : RLP txLookupEntry}.
Context {LH : RLPLaws Header header_ok} {LB : RLPLaws Body body_ok} {LZ : RLPLaws Z (fun z => 0 <= z)}
  {LE : RLPLaws txLookupEntry entry_ok}.

(** What the imports are told from outside, the verdict of the engine on a header, and
    whether a fast synchronization runs, each after a number of calls. *)
Context (advice : nat -> Advice) (verdict : nat -> Header -> Verdict) (fastSync : nat -> bool).

(** The verdict changes with time, so a call is counted. *)
Definition validator (header : Header) : go NodeChain Verdict := fun c =>
  Ret (verdict (nc_imports c) header, mkNode (S (nc_imports c)) (nc_chain c)).

Definition heighter : go NodeChain Z := read_bc (bc ← gget; b ← the (currentBlock bc); glift (block_Number b)).

(** Nothing is imported during a fast synchronization; whether the import failed.  The
    flag of the handler that transactions are accepted from then on is not kept. *)
Definition inserter (block : Block) : go NodeChain bool :=
  c ← gget;
  if fastSync (nc_imports c) then mret false
  else
    r ← import_bc advice (fun a => InsertChain (ad_fuel a) false (ad_turns a) [block]);
    mret (found r).

#[local] Instance node_FetchChain : FetchChain NodeChain := {
  fc_getBlock hash := read_bc (GetBlockByHash hash);
  fc_chainHeight := heighter;
  fc_verifyHeader := validator;
  fc_insertChain := inserter
}.

(** ** The chain answers *)

Context (g : Block) (fuel : nat).
Hypothesis advice_ok : forall n, ad_fuel (advice n) = fuel /\ forall i, batch_ok (ad_turns (advice n) i) = true.

Definition node_ok (c : NodeChain) : Prop := bc_reachable g fuel (nc_chain c).

(** The engine does not always refuse the header. *)
Definition accepted (header : Header) : Prop := exists n, verdict n header <> VerifyBad.

(** A block as a peer may send it: its header is complete, and it is valid if the engine
    accepts its header and the header has the roots of its body. *)
Definition block_sound (b : Block) : Prop := header_ok (block_header b) /\
  (accepted (block_header b) -> committed_body b -> exists n, valid_block g b n /\ n <= Z.of_nat fuel).

(** The blocks of the chain. *)
Definition node_has (c : NodeChain) (hash : Hash) : Prop := exists n b, is_u64 n /\ GetBlock (bc_db (nc_chain c)) hash n = Some b.

Lemma node_getBlock hash : total node_ok (read_bc (GetBlockByHash hash)) (fun _ => node_ok).
Proof using BLaws CLaws HLaws KLaws LB LE LH LLaws LZ.
  intros [k bc] Hr. destruct (bc_reachable_alive _ _ _ Hr) as (b & top & Hok & _).
  destruct (GetBlockByHash_looks g _ hash (bo_blocks _ _ _ _ Hok) bc eq_refl (bo_caches _ _ _ _ Hok)) as (r & bc' & E & _).
  exists r, (mkNode k bc'). unfold read_bc. cbn [nc_chain nc_imports]. rewrite E. split; [done|]. by eapply br_hash.
Qed.

Lemma node_height : total node_ok heighter (fun _ => node_ok).
Proof using BLaws CLaws HLaws KLaws LB LE LH LLaws LZ.
  intros [k bc] Hr. destruct (bc_reachable_alive _ _ _ Hr) as (b & top & Hok & _). pose proof (bo_head _ _ _ _ Hok) as Hh.
  destruct (block_known g _ (bo_blocks _ _ _ _ Hok) _ _ _ (hk_top _ _ _ Hh) (hk_block _ _ _ Hh)) as (_ & _ & En & _).
  exists top, (mkNode k bc). split; [|done]. unfold heighter, read_bc. cbn [nc_chain nc_imports]. pose proof (bo_current _ _ _ _ Hok) as Ec. cbn [nc_chain] in Ec. rewrite bind_gget, Ec.
  unfold the. rewrite bind_mret. unfold glift. by rewrite En.
Qed.

Lemma node_insert block : accepted (block_header block) -> block_sound block -> total node_ok (inserter block) (fun _ => node_ok).
Proof using BLaws CLaws HLaws KLaws LB LE LH LLaws LZ advice_ok.
  intros Ha Hs [k bc] Hr. unfold inserter. rewrite bind_gget. cbn [nc_imports]. destruct (fastSync k); [by eexists _, _|].
  destruct (advice_ok k) as [Ef Hb].
  assert (Hf : forall i b, [block] !! i = Some b -> importable g fuel (ad_turns (advice k) i) b) by (intros [|i] b [= <-]; destruct Hs; split; auto).
  destruct (safe_InsertChain g fuel false (ad_turns (advice k)) [block] Hb Hf bc (bc_reachable_alive _ _ _ Hr)) as (r & bc' & E & _).
  exists (found r), (mkNode (S k) bc'). split; [|by eapply br_import].
  rewrite (bind_run _ _ _ r (mkNode (S k) bc')); [done|]. unfold import_bc. cbn [nc_chain nc_imports]. by rewrite Ef, E.
Qed.

#[local] Instance node_ChainAnswers : ChainAnswers node_ok accepted block_sound.
Proof using BLaws CLaws HLaws KLaws LB LE LH LLaws LZ advice_ok.
  split; [exact node_getBlock|exact node_height| |exact node_insert].
  intros header c Hc. eexists _, _. split; [done|]. split; [done|]. intros Hv. by exists (nc_imports c).
Qed.

#[local] Instance node_ChainHas : ChainHas node_ok node_has.
Proof using BLaws CLaws HLaws KLaws LB LE LH LLaws LZ.
  assert (Hb : forall c hash b c', node_ok c -> read_bc (GetBlockByHash hash) c = Ret (b, c') ->
    bc_db (nc_chain c') = bc_db (nc_chain c) /\ (forall x, b = Some x -> node_has c hash)).
  { intros [k bc] hash b c' Hr E. destruct (bc_reachable_alive _ _ _ Hr) as (b0 & top & Hok & _).
    destruct (GetBlockByHash_looks g _ hash (bo_blocks _ _ _ _ Hok) bc eq_refl (bo_caches _ _ _ _ Hok)) as (r & bc' & E' & (Qd & _) & _ & Hf & _).
    unfold read_bc in E. cbn [nc_chain nc_imports] in E, E'. rewrite E' in E. injection E as <- <-. split; [exact Qd|].
    intros x ->. destruct (Hf x eq_refl) as (m & Hm & Em). by exists m, x. }
  split.
  - intros c hash b c' Hc E. by apply (proj2 (Hb c hash (Some b) c' Hc E) b).
  - intros c hash b c' h Hc E. unfold node_has. by rewrite (proj1 (Hb c hash b c' Hc E)).
  - intros c n c' h Hc E. destruct (node_height c Hc) as (n' & c1 & E' & _). unfold node_has. enough (bc_db (nc_chain c') = bc_db (nc_chain c)) as -> by done.
    clear E'. revert E. cbn [fc_chainHeight node_FetchChain]. unfold heighter, read_bc. destruct c as [k bc]. cbn [nc_chain nc_imports]. rewrite bind_gget.
    unfold the. destruct (currentBlock bc) as [b|]; [|done]. rewrite bind_mret. unfold glift. destruct (block_Number b); [|done..]. by intros [= _ <-].
Qed.

(** ** Runs on a node *)

Context {PL : PrqueLib inject} {PLaws : PrqueLaws} {MA : MapOrder Hash announce} {ML : MapOrder Hash (list announce)} {MR : MapOrder string (list Hash)}.

(** C16. The fetcher and the block chain compose. When the fetcher of a node runs on its
    block chain, every chain on the way is one that the imports of blocks lead to, with
    the heaviest block as its head; every turn of the loop returns, whatever event
    arrives, and every import that has not ended makes its next step, the call of
    [InsertChain] included; and they leave the fetcher in such a state again.  This
    holds for all headers, bodies and blocks that peers send with complete headers, as
    long as every block is valid whose header the engine accepts and whose body has the
    roots of its header, and the batches of the store are written. *)
Theorem fetcher_keeps_chain inj f : ft_run node_ok block_sound inj f ->
  bc_reachable g fuel (nc_chain (f_chain f)) /\
  (exists b top, currentBlock (nc_chain (f_chain f)) = Some b /\ head_ok (bc_db (nc_chain (f_chain f))) b top /\
    heaviest_block (bc_db (nc_chain (f_chain f))) b top) /\
  (forall now since stale ev, event_ok block_sound f ev ->
    exists f', loop_turn now since stale ev f = Ret (tt, f') /\ ft_run node_ok block_sound (injected ev ++ inj) f') /\
  (forall i im, imports f !! i = Some im -> im_stage im <> Ended -> exists f', import_step i f = Ret (tt, f') /\ ft_run node_ok block_sound inj f').
Proof using BLaws CLaws HLaws KLaws LB LE LH LLaws LZ PLaws advice_ok.
  intros Hrun. pose proof (ft_run_ok node_ok accepted block_sound _ _ Hrun) as Hr. pose proof (fc_chain _ _ _ _ _ _ (proj1 Hr)) as Hc. split; [exact Hc|].
  split; [|split].
  - destruct (bc_reachable_alive _ _ _ Hc) as (b & top & [_ _ _ H1 H2 H3 _] & _). by exists b, top.
  - intros now since stale ev Hev. destruct (loop_turn_keeps node_ok accepted block_sound now since stale inj ev f Hev Hr) as (f' & E & _).
    exists f'. split; [done|]. by eapply ft_turn.
  - intros i im Ei Hs. destruct (import_step_keeps node_ok accepted block_sound inj i im f Ei Hs Hr) as (f' & E & _). exists f'. split; [done|]. by eapply ft_import.
Qed.

End chain.
