(* ===== verification/FtInstances.v ===== *)
(** * Concrete instances for the fetcher

    A run of each theorem on the fetcher: the fetcher of a node whose peer announces a
    block, answers the requests for it, and sends the next one. *)
From S2P Require Import Prelude GoMonad Fmt Clique TxList ChainDb ChainDbProps HeaderChain HeaderChainProps.
From S2P Require Import BlockChain BlockImport BlockChainProps BlockImportProps BlockWriteProps BlockReach.
From S2P Require Import ConsensusInstances CoreInstances ChainInstances.
From S2P Require Import Prque DlChain Fetcher FtProps FtChain.
Local Open Scope Z_scope.

#[local] Instance prque_inject : PrqueLib inject := prque_list.
#[local] Instance prque_inject_laws : PrqueLaws := prque_list_laws.

(** The engine accepts the two blocks of the peer. *)
Definition import_advice : nat -> Advice := fun _ => mkAdvice 9 turn0 (fun _ _ _ => None) (fun _ _ => 0) (fun _ => false) (fun _ => false) (fun _ => false).
Definition verdict0 (n : nat) (h : Header) : Verdict :=
  if (Header_Hash h =? block_Hash block_c1) || (Header_Hash h =? block_Hash block_c2) then VerifyOk else VerifyBad.
Definition no_fast : nat -> bool := fun _ => false.
#[local] Instance fetch_chain : FetchChain NodeChain := node_FetchChain import_advice verdict0 no_fast.

Local Notation node_ok0 := (node_ok block0 9).
Local Notation sound0 := (block_sound verdict0 block0 9).

Lemma import_advice_ok n : ad_fuel (import_advice n) = 9%nat /\ forall i, batch_ok (ad_turns (import_advice n) i) = true.
Proof. done. Qed.

#[local] Instance fetch_has : ChainHas node_ok0 node_has := node_ChainHas import_advice verdict0 no_fast block0 9.

#[local] Instance fetch_answers : ChainAnswers node_ok0 (accepted verdict0) sound0 := node_ChainAnswers import_advice verdict0 no_fast block0 9 import_advice_ok.

Lemma header_lists_inj (us us' : list Header) : header_list <$> us = header_list <$> us' -> us = us'.
Proof.
  revert us'. induction us as [|x us IH]; intros [|y us'] E; try done. pose proof (f_equal (hd []) E) as E1. pose proof (f_equal tl E) as E2.
  f_equal; [apply header_list_inj; exact E1|apply IH; exact E2].
Qed.

(** A block with one of the headers, and the body it commits to, is one of the blocks. *)
Lemma same_block b b' : Header_Hash (block_header b') = block_Hash b -> body_matches b -> body_matches b' -> b' = b.
Proof.
  destruct b as [h txs us], b' as [h' txs' us']. unfold body_matches, block_Hash. cbn [block_header block_txs block_uncles].
  intros ->%hash_inj [H1 H2] [H3 H4]. rewrite <- H1 in H3. rewrite <- H2 in H4. apply DeriveSha_inj in H3 as ->.
  cbn [CalcUncleHash chainZ] in H4. injection H4 as E%(inj encode). by apply header_lists_inj in E as ->.
Qed.

Lemma accepted_heads h : header_ok h -> heads_sound sound0 h.
Proof.
  intros Hh txs us Hm. split; [done|]. intros [n Hv] _. unfold verdict0 in Hv. cbn [block_header] in Hv. destruct (_ || _) eqn:E; [|done]. apply orb_prop in E as [E%Z.eqb_eq|E%Z.eqb_eq].
  - rewrite (same_block block_c1 (mkBlock h txs us) E); [exists 1; split; [exact c1_valid|lia]|split; evaluated|done].
  - rewrite (same_block block_c2 (mkBlock h txs us) E); [exists 2; split; [exact c2_valid|lia]|split; evaluated|done].
Qed.

Lemma peer_headers : header_ok (block_header block_c1) /\ header_ok (block_header block_c2).
Proof. destruct (vb_ok _ _ _ c1_valid), (vb_ok _ _ _ c2_valid). done. Qed.

(** A block with a header of the peer is sound, whatever its body. *)
Lemma sent_sound b : header_ok (block_header b) -> sound0 b.
Proof. intros Hh. split; [done|]. destruct b as [h txs us]. intros Ha Hb. by apply (accepted_heads h Hh txs us Hb). Qed.

(** ** A run *)

Local Notation FetcherN := (Fetcher (C := NodeChain)).
Local Notation frun := (ft_run node_ok0 sound0).

(** The turns of a run: a turn of the loop at a time, or a step of an import. *)
Inductive Move := Turn_at (now : Z) (ev : Event) | Step_of (i : nat).

Definition move (m : Move) : go FetcherN unit :=
  match m with Turn_at now ev => loop_turn now (fun _ => now) false ev | Step_of i => import_step i end.

Fixpoint moves (ms : list Move) : go FetcherN unit :=
  match ms with [] => mret tt | m :: ms' => _ ← move m; moves ms' end.

Definition after {A : Type} (f : FetcherN) (o : outcome (A * FetcherN)) : FetcherN := match o with Ret (_, f') => f' | _ => f end.

Definition announce_c1 : announce := mkAnnounce (block_Hash block_c1) 1 None 0 "p".
Definition inject_c2 : inject := mkInject "p" block_c2.

Definition ft_new : FetcherN := New (mkNode 0 chain0).
Definition ft0 : FetcherN := Eval vm_compute in after ft_new (loop_head (fun _ => 0) ft_new).

(** The announcement, the request of the header, the header, and the request of the body. *)
Definition asks : list Move :=
  [Turn_at 0 (ENotify announce_c1); Turn_at 500 (EFetchTimer (fun _ => 3%nat)); Turn_at 600 (EHeaders 600 [block_header block_c1]);
   Turn_at 700 (ECompleteTimer (fun _ => 3%nat))].
Definition ft0_1 : FetcherN := Eval vm_compute in after ft0 (moves (take 1 asks) ft0).
Definition ft0_2 : FetcherN := Eval vm_compute in after ft0 (moves (take 2 asks) ft0).
Definition ft0_3 : FetcherN := Eval vm_compute in after ft0 (moves (take 3 asks) ft0).
Definition ft1 : FetcherN := Eval vm_compute in after ft0 (moves asks ft0).

(** The body comes, and the import begins. *)
Definition body_c1 : Event := EBodies [block_txs block_c1] [[]].
Definition ft2 : FetcherN := Eval vm_compute in after ft1 (moves [Turn_at 800 body_c1] ft1).
Definition ft3 : FetcherN := Eval vm_compute in after ft2 (moves [Step_of 0] ft2).
Definition ft4 : FetcherN := Eval vm_compute in after ft3 (moves [Step_of 0] ft3).

(** The next block is sent while the import ends, and is imported. *)
Definition ends0 : list Move := [Turn_at 900 (EDone 0); Turn_at 950 (EInject inject_c2); Step_of 0; Step_of 0; Turn_at 990 (EDone 0)].
Definition ft5 : FetcherN := Eval vm_compute in after ft4 (moves ends0 ft4).

Lemma ft0_run : frun [] ft0.
Proof. apply (ft_begin node_ok0 sound0 (mkNode 0 chain0) (fun _ => 0)); [exact chain0_reachable|evaluated]. Qed.

(** A move of a run. *)
Definition move_ok (m : Move) (f : FetcherN) : Prop :=
  match m with Turn_at _ ev => event_ok sound0 f ev | Step_of i => exists im, imports f !! i = Some im /\ im_stage im <> Ended end.

Definition brings (m : Move) : list inject := match m with Turn_at _ ev => injected ev | Step_of _ => [] end.

Lemma move_run inj f m f' : frun inj f -> move_ok m f -> move m f = Ret (tt, f') -> frun (brings m ++ inj) f'.
Proof.
  destruct m as [now ev|i]; cbn [move_ok move brings]; intros Hr Hok E; [by eapply ft_turn|]. destruct Hok as (im & Ei & Hs). by eapply ft_import.
Qed.

Lemma ft1_run : frun [] ft1.
Proof.
  assert (Hc : arrives sound0 (block_header block_c1)) by (split; [by eexists|apply accepted_heads, peer_headers]).
  pose proof (move_run _ _ (Turn_at 0 (ENotify announce_c1)) ft0_1 ft0_run Logic.I ltac:(evaluated)) as H1.
  pose proof (move_run _ _ (Turn_at 500 (EFetchTimer (fun _ => 3%nat))) ft0_2 H1 Logic.I ltac:(evaluated)) as H2.
  pose proof (move_run _ _ (Turn_at 600 (EHeaders 600 [block_header block_c1])) ft0_3 H2 ltac:(constructor; [exact Hc|constructor]) ltac:(evaluated)) as H3.
  exact (move_run _ _ (Turn_at 700 (ECompleteTimer (fun _ => 3%nat))) ft1 H3 Logic.I ltac:(evaluated)).
Qed.

Lemma ft2_run : frun [] ft2.
Proof. exact (move_run _ _ (Turn_at 800 body_c1) ft2 ft1_run Logic.I ltac:(evaluated)). Qed.

Lemma ft3_run : frun [] ft3.
Proof. exact (move_run _ _ (Step_of 0) ft3 ft2_run ltac:(by eexists) ltac:(evaluated)). Qed.

Lemma ft4_run : frun [] ft4.
Proof. exact (move_run _ _ (Step_of 0) ft4 ft3_run ltac:(by eexists) ltac:(evaluated)). Qed.

Definition ft4_1 : FetcherN := Eval vm_compute in after ft4 (moves (take 1 ends0) ft4).
Definition ft4_2 : FetcherN := Eval vm_compute in after ft4 (moves (take 2 ends0) ft4).
Definition ft4_3 : FetcherN := Eval vm_compute in after ft4 (moves (take 3 ends0) ft4).
Definition ft4_4 : FetcherN := Eval vm_compute in after ft4 (moves (take 4 ends0) ft4).

Lemma ft5_run : frun [inject_c2] ft5.
Proof.
  assert (Hc : numbered block_c2 /\ sound0 block_c2) by (split; [by eexists|apply sent_sound, peer_headers]).
  pose proof (move_run _ _ (Turn_at 900 (EDone 0)) ft4_1 ft4_run ltac:(by eexists) ltac:(evaluated)) as H1.
  pose proof (move_run _ _ (Turn_at 950 (EInject inject_c2)) ft4_2 H1 Hc ltac:(evaluated)) as H2.
  pose proof (move_run _ _ (Step_of 0) ft4_3 H2 ltac:(by eexists) ltac:(evaluated)) as H3.
  pose proof (move_run _ _ (Step_of 0) ft4_4 H3 ltac:(by eexists) ltac:(evaluated)) as H4.
  exact (move_run _ _ (Turn_at 990 (EDone 0)) ft5 H4 ltac:(by eexists) ltac:(evaluated)).
Qed.

(** ** The theorems on it *)

Lemma fetcher_consistent_witness : size (queued ft2) = 1%nat /\ size (completing ft1) = 1%nat /\
  ops (f_queue ft2) ++ (im_op <$> imports ft2) ≡ₚ (map_to_list (queued ft2)).*2 /\
  (forall hash a, completing ft1 !! hash = Some a -> exists header, an_header a = Some header /\ Header_Hash header = hash).
Proof.
  split; [evaluated|]. split; [evaluated|]. split.
  - apply (fetcher_consistent node_ok0 (accepted verdict0) sound0 [] ft2). exact ft2_run.
  - apply (fetcher_consistent node_ok0 (accepted verdict0) sound0 [] ft1). exact ft1_run.
Defined.

Lemma queued_blocks_sound_witness : imports ft3 = [mkImport (mkInject "p" block_c1) Importing] /\ accepted verdict0 (block_header block_c1) /\
  (mkInject "p" block_c1 ∈ ([] : list inject) \/ body_matches block_c1).
Proof.
  assert (E : imports ft3 = [mkImport (mkInject "p" block_c1) Importing]) by evaluated. split; [exact E|].
  assert (Hin : mkInject "p" block_c1 ∈ ops (f_queue ft3) ++ (im_op <$> imports ft3)) by (rewrite E; apply elem_of_app; right; left).
  destruct (queued_blocks_sound node_ok0 (accepted verdict0) sound0 [] ft3 (mkInject "p" block_c1) ft3_run Hin) as [H1 H2].
  split; [apply H2; rewrite E; left|exact H1].
Defined.

Lemma fetcher_never_panics_witness : (exists f', loop_turn 800 (fun _ => 800) false body_c1 ft1 = Ret (tt, f') /\ frun [] f') /\
  (exists f', import_step 0 ft2 = Ret (tt, f') /\ frun [] f').
Proof.
  split.
  - exact (proj1 (fetcher_never_panics node_ok0 (accepted verdict0) sound0 [] ft1 800 (fun _ => 800) false body_c1 ft1_run Logic.I)).
  - destruct (fetcher_never_panics node_ok0 (accepted verdict0) sound0 [] ft2 800 (fun _ => 800) false body_c1 ft2_run Logic.I) as [_ H].
    apply (H 0%nat (mkImport (mkInject "p" block_c1) Checking)); [evaluated|done].
Defined.

(** The block that comes next but one waits, and the next is imported. *)
Definition inject_c1 : inject := mkInject "p" block_c1.

Definition ft0_i : FetcherN := Eval vm_compute in after ft0 (moves [Turn_at 5 (EInject inject_c2)] ft0).

Lemma ft0_injected : frun [inject_c2] ft0_i.
Proof.
  assert (Hc : numbered block_c2 /\ sound0 block_c2) by (split; [by eexists|apply sent_sound, peer_headers]).
  exact (move_run _ _ (Turn_at 5 (EInject inject_c2)) _ ft0_run Hc ltac:(evaluated)).
Qed.

Lemma due_blocks_leave_witness : ops (f_queue ft0_i) = [inject_c2] /\
  exists f1 height c f', handle 6 (fun _ => 6) false (EInject inject_c1) ft0_i = Ret (tt, f1) /\ fc_chainHeight (f_chain f1) = Ret (height, c) /\
    loop_turn 6 (fun _ => 6) false (EInject inject_c1) ft0_i = Ret (tt, f') /\
    (forall op n, op ∈ ops (f_queue f') -> block_Number (in_block op) = Ret n -> n < 16777216 -> u64 (height + 1) < n) /\
    (forall op, op ∈ ops (f_queue ft0_i) ->
       op ∈ ops (f_queue f') \/ op ∈ im_op <$> imports f' \/ too_old height op \/ node_has (f_chain ft0_i) (block_Hash (in_block op))).
Proof.
  assert (Hc : numbered block_c1 /\ sound0 block_c1) by (split; [by eexists|apply sent_sound, peer_headers]).
  split; [evaluated|].
  apply (due_blocks_leave node_ok0 (accepted verdict0) sound0 node_has [inject_c2] ft0_i 6 (fun _ => 6) false (EInject inject_c1) ft0_injected Hc).
Defined.

(** A peer sends the header of the next block with another body. *)
Definition forged_c2 : inject := mkInject "q" (mkBlock (block_header block_c2) [] []).

Lemma fetcher_keeps_chain_witness : currentBlock (nc_chain (f_chain ft5)) = Some block_c2 /\ bc_reachable block0 9 (nc_chain (f_chain ft5)) /\
  (exists f', loop_turn 950 (fun _ => 950) false (EInject forged_c2) ft4_1 = Ret (tt, f') /\ frun [forged_c2] f') /\
  (exists f', import_step 0 ft2 = Ret (tt, f') /\ frun [] f').
Proof.
  assert (H1 : frun [] ft4_1) by exact (move_run _ _ (Turn_at 900 (EDone 0)) ft4_1 ft4_run ltac:(by eexists) ltac:(evaluated)).
  split; [evaluated|]. split; [|split].
  - apply (fetcher_keeps_chain import_advice verdict0 no_fast block0 9 import_advice_ok [inject_c2] ft5). exact ft5_run.
  - destruct (fetcher_keeps_chain import_advice verdict0 no_fast block0 9 import_advice_ok [] ft4_1 H1) as (_ & _ & Ht & _).
    apply (Ht 950 (fun _ => 950) false (EInject forged_c2)). split; [by eexists|apply sent_sound, peer_headers].
  - destruct (fetcher_keeps_chain import_advice verdict0 no_fast block0 9 import_advice_ok [] ft2 ft2_run) as (_ & _ & _ & Hi).
    apply (Hi 0%nat (mkImport (mkInject "p" block_c1) Checking)); [evaluated|done].
Defined.

(** ** The limit of announcements

    A peer announces a block and does not answer: the announcement is counted once, and
    forgotten when it is fetched and again when the fetch times out. *)
Definition silent : list Move := [Turn_at 0 (ENotify (mkAnnounce 7 1 None 0 "p")); Turn_at 500 (EFetchTimer (fun _ => 0%nat)); Turn_at 6000 (EFetchTimer (fun _ => 0%nat))].

Definition ft_silent : FetcherN := Eval vm_compute in after ft0 (moves silent ft0).

(** 257 more announcements. *)
Definition floods : list Move := (fun k => Turn_at 6001 (ENotify (mkAnnounce (1000 + Z.of_nat k) 1 None 6001 "p"))) <$> seq 0 257.

Definition ft_flooded : FetcherN := Eval vm_compute in after ft0 (moves (silent ++ floods) ft0).

(** Moves that are announcements and timers. *)
Definition plain (m : Move) : bool := match m with Turn_at _ (ENotify _ | EFetchTimer _ | ECompleteTimer _) => true | _ => false end.

Lemma plain_run ms : forall f f', frun [] f -> forallb plain ms = true -> moves ms f = Ret (tt, f') -> frun [] f'.
Proof.
  induction ms as [|m ms IH]; intros f f' Hr Hp E; cbn [moves] in E; [by injection E as <-|]. cbn [forallb] in Hp. apply andb_prop in Hp as [Hm Hp].
  go_inv E. destruct a. apply (IH s f'); [|done|done]. destruct m as [now ev|i]; [|done]. pose proof (move_run [] f (Turn_at now ev) s Hr) as Hs. destruct ev; try done; by apply Hs.
Qed.

(** A peer has more announcements than the limit allows: its counter has been lowered
    twice for one announcement, and stays below zero. *)
Lemma announce_limit_exceeded : frun [] ft_flooded /\ hashLimit < Z.of_nat (size (announced ft_flooded)) /\ announces ft_flooded !! "p" = Some hashLimit /\
  announces ft_silent !! "p" = Some (-1).
Proof.
  split; [apply (plain_run (silent ++ floods) ft0); [exact ft0_run|evaluated|evaluated]|]. split; [by vm_compute|]. split; evaluated.
Qed.
